(* ===== verification/_CoqProject ===== *)
-Q . S2P
Prelude.v
CString.v
Lsb.v
Links.v
ListLib.v
HashTab.v
Bitset.v
ListSet.v
Jgrp.v
JgrpTree.v
JgrpCount.v
JgrpOps.v
JgrpPath.v
JgrpSelect.v
Float32.v
FloatOrd.v
Fairshare.v
FairTree.v
FairLoad.v
FairDecay.v
FairElect.v
FairChoice.v
FairRound.v
Grp.v
GrpTheory.v
Account.v
AccountOk.v
AccountStep.v
AccountRun.v
AccountLookup.v
AccountMain.v
UserSets.v
UserSetsOk.v
UserSetsWalk.v
UserSetsMain.v
Window.v
Jidx.v
Jarray.v
Dep.v
JgrpDep.v
DepScan.v
DepFree.v
DepParse.v
Stdio.v
Words.v
Conf.v
ConfOk.v
LogBase.v
LogEvent.v
LogCtrl.v
LogJob.v
LogFile.v
LogMain.v
LogSelect.v
LogRotate.v
LogIndex.v
LogJobs.v
LogOpen.v
LogExamples.v
