(* ===== verification/Prelude.v ===== *)
(** * A verification library for volclava

    volclava is a batch workload scheduler.  [lim] gathers the load of the
    hosts, [res] runs tasks on them, [mbatchd] keeps the jobs and dispatches
    them to the [sbatchd] of each host; commands and daemons share the
    libraries under [lsf/lib] and [lsf/intlib].  This library models the data
    structures on which the daemons keep their state, as the C code manipulates
    them, and the parts of [mbatchd] that decide about jobs on top of them - the
    job group tree, job arrays, dependency conditions, fairshare, user groups and
    the accounts of jobs - and the log of events from which [mbatchd] restarts and
    [bhist] reports, and proves them correct.

    ** Parts

    - Lists.  [Links.v] is the heap of link cells and the two pairs of ring
      primitives of the source ([inList], [offList] of [lsf/intlib/list.c];
      [insList_], [remList_] of [lsf/lib/lib.table.c]).  The class [RingOps]
      states what a pair of primitives promises; both pairs are instances, the
      list library is proved from the first and the hash table uses the second.
      [ListLib.v] is the rest of [list.c]: lists with observers, iterators,
      search, printing, vectors.
    - Hash tables.  [HashTab.v] is [lib.table.c]: the string hash at 32 bits,
      entry insertion, look-up and deletion, growth, iteration and release.
      The abstract specification is a finite map from strings to entries.
    - Bit sets.  [Bitset.v] is [lsf/intlib/bitset.c] on 32-bit words; the
      abstract specification is the set of members.
    - List sets.  [ListSet.v] is [lsf/intlib/listset.c]: ascending chains with
      a shared free list.
    - Job group tree.  [Jgrp.v] holds the definitions of
      [lsbatch/daemons/mbd.jgrp.c] (and of the job reference counts of
      [mbd.job.c], whose void list is a list set): the tree of groups, arrays
      and jobs, its walks, insertion and removal, the counters by job status,
      the observer of the dependency scan, permissions, selection of jobs for
      queries.  [JgrpTree.v] relates the links to a rose tree and to contexts,
      [JgrpCount.v] the counters to the jobs below a node; [JgrpOps.v] proves
      the operations against the invariant [jinv] made of both.  [JgrpPath.v]
      is the handling of group names and paths, [JgrpSelect.v] the proof of the
      selection.
    - Time windows.  [Float32.v] fixes IEEE binary32 and binary64 arithmetic
      and shows that times of day compare as minutes; [Window.v] is
      [lsf/intlib/window.c] and [lsbatch/daemons/mbd.window.c]: parsing of
      windows, the merging of windows into a week, the current status.  The
      abstract specification is the set of open minutes of the week.
    - Job arrays.  [Lsb.v] and [CString.v] hold the constants of [lsbatch.h] and
      the C string functions that are shared; [Jidx.v] is the parser of index
      lists, [lsf/intlib/jidx.c] with the scanner of [callex.c]; [Jarray.v] is
      its use in [lsbatch/daemons/mbd.jarray.c].
    - Dependency conditions.  [Dep.v] is the evaluation of [mbd.dep.c] over
      conditions as trees; [JgrpDep.v] is the scan of the job group tree
      ([checkJgrpDep] of [mbd.jgrp.c]), which evaluates the conditions and hands
      on the state that evaluation changes, and [DepScan.v] its proof;
      [DepFree.v] is the release of conditions with their references to jobs,
      index lists and arrays; [DepParse.v] the parser, its stacks and the
      references it takes to jobs.
    - Fairshare.  [Fairshare.v] holds the accounts, priorities, updates and decay
      of [mbd.fairshare.c], with the order of floats in [FloatOrd.v];
      [FairTree.v], [FairLoad.v] and [FairDecay.v] prove them on trees of
      accounts.  [FairElect.v] is the set of pending jobs and the election of a
      job, [FairChoice.v] and [FairRound.v] its proof and a round of scheduling.
    - User and host groups.  [Grp.v] and [GrpTheory.v] are the questions and
      requests of [mbd.grp.c]; [UserSets.v] is the records of users and the sets
      of users and groups made at start-up, [UserSetsOk.v] its invariant,
      [UserSetsWalk.v] and [UserSetsMain.v] the walk over the groups.
    - Accounts.  [Account.v] is the counters by status of queues, users, groups
      and hosts of [mbd.misc.c].  [AccountOk.v] says what they should be: sums
      over the jobs; [AccountStep.v] has the table of transitions, [AccountRun.v]
      submission, reservation, moving and recounting, [AccountLookup.v] the
      records of users that do not know their groups yet, [AccountMain.v] the
      sequences of them.  It uses the fairshare functions for jobs that end
      and the membership of groups for the groups of a user.
    - Text files.  [Stdio.v] is what the code uses of [printf] and [scanf],
      [Words.v] is [lsf/lib/lib.words.c]: lines, words and quoted strings.
    - Configuration sections.  [Conf.v] is [lsf/intlib/conf.c] with the variants of
      [lsf/lib/lib.confmisc.c] and the values in parentheses of [lib.words.c]: the
      tables and assignments of a section, and lists of administrators; [ConfOk.v]
      proves what is read.
    - The event log.  [LogBase.v] has the macros and shared readers of
      [lsbatch/lib/lsb.log.c]; [LogEvent.v], [LogCtrl.v] and [LogJob.v]
      write and read each type of record, in one [Module] per type
      with its structure, writer, reader and their laws; [LogFile.v] is
      [lsb_puteventrec], [lsb_geteventrec_ex] and the loop of [init_log]
      ([lsbatch/daemons/mbd.log.c]) over a whole log, proved in [LogMain.v].
    - Switching the log.  [LogRotate.v] is [switch_log] of [mbd.log.c]: the
      records that are kept, the archive that is made, and the renaming of the
      archives; it uses the writers and readers of [LogMain.v].
    - Reading for [bhist].  [LogSelect.v] selects the records of some jobs from one
      file, [LogIndex.v] is the index of the job ids of the archives,
      [LogJobs.v] reads across the archives and the log; it is proved from the
      layout of files that [LogRotate.v] keeps.  [LogOpen.v] finds and reads the
      files of a time.  [LogExamples.v] has the examples.

    ** Conventions

    A pointer is an integer, [NULL] is 0, and a kind of heap block is a finite
    map from addresses to records.  A function that may follow a pointer
    returns an [option], [None] being an access that C leaves undefined or a
    loop that runs out of fuel; the theorems about such functions state that the
    result is [Some], so they include memory safety and termination.  Error
    codes and the error variables are values of the result.  The address an
    allocation returns is an argument, required to be fresh where the theorem
    needs it.  [int] and [unsigned] arithmetic wraps ([i32], [u32] below) where
    the code can wrap.  Callbacks and functions of other parts are arguments or
    section variables.  Logging is left out.

    Readers and writers of files run in a small monad over the file ([M] of
    [Words.v]) with an error code and undefined behaviour as the ways to fail;
    what has been written or read before a failure stays.  A position in a line is
    the text from there, and [None] beyond the terminator, which only an access
    makes undefined.  A file that is written has a limited room or none; the
    streams are buffered in C, so the failure of a full disk shows here at the
    character that does not fit and in C at the next flush.  The directory of the
    log is a finite map from file names to texts, and what the disk does during a
    switch - the room of each file, whether it is created, flushed, closed, moved,
    and each renaming - is an argument ([disk] of [LogRotate.v]).  Allocations of
    a negative number of elements fail, others do not.

    ** Fuel

    Every loop that is not structural runs on fuel that the state bounds: the
    number of cells or nodes of the heap plus one for loops along links, the
    number of bits for bit set loops, the length of a chain plus one for
    [insertW], the eight days for [addWindow], the length of the text for parsers,
    the number of accounts plus one for paths to the root of a fairshare tree
    ([path_fuel]), the number of groups plus one for groups within groups
    ([grp_fuel]), the size of the stack for the walk over the groups and the
    names the groups hold for the table of users ([table_fuel]), the characters that
    are left of a file plus one for the loops that read lines, records and rows,
    the number of files for the search of a free archive number, and the number of
    the archive that is open for the walk to the log.  That this is
    enough is part of each theorem; the recursive functions on groups need that
    no group contains itself, which the theorems assume.

    ** What the theorems show

    - Job group tree: inserting and clipping a subtree, putting a new job on
      the tree and changing a job's status keep the links a tree and all
      counters in agreement with the jobs; the lexical walk visits every node
      once; permissions are granted exactly to root, managers and owners along
      the path; a query collects exactly the matching jobs in order; names and
      paths are split and joined correctly.
    - Job arrays and dependency conditions: the parsers accept exactly the
      written forms and give back what is printed, for texts within the stack of
      the parser; evaluation implements three-valued logic over the states of jobs
      and gives back exactly the references to void arrays it comes to; freeing
      gives back exactly those of all leaves, and for a parsed condition over
      single jobs leaves the state as it was.  The dependency scan deals with each
      job once, stops between nodes and resumes there, marks every job by what its
      condition means although evaluation changes conditions on the way, and comes
      round after at most as many calls as there are nodes.
    - Fairshare: the load of accounts is the sum along the tree and siblings stay
      in order of priority under attaching, detaching and decay; the election
      with its marks and caches gives the job a plain search would give, and a
      round comes to every pending job exactly once.
    - Groups: membership, expansion and texts are those of the relation of
      membership, within their buffers; the sets made at start-up are complete
      for the names written in groups and sound, on groups without cycles whose
      ways down fit the stack of the walk.
    - Accounts: after any sequence of the changes the code provides for, every
      counter equals the sum over the jobs; a recount after the event log has been
      replayed gives the same, looking up the groups of users on the way; the changes not provided for
      are listed as findings with examples.
    - Event log: every record within the bounds of the format is written and read
      back as it was, whatever follows; a whole log is read as the records that
      were written, and a disk that gets full loses nothing that was there before.
      Reading a line ends on every file ([getNextLine_total]).
    - Switching: a switch that fails before the new log is moved into place changes
      nothing that is read, and one that fails in renaming an archive still has
      every record; one that succeeds, on logs below 2 GiB, loses no record, and the log it leaves is read as what it should
      keep; after any number of events and switches the archives and the log
      together are the whole history, and [bhist] reads from them exactly the
      events of the jobs or of the time it asks for.  What the index finds is stated exactly: it
      misses jobs, by two errors in the code.
    - Configuration: a table is accepted exactly with distinct known keywords, and
      a row gives every keyword the value of its column; a section of assignments
      gives every keyword its last value, and the file is left behind the section;
      values of any length are read within their buffer when their words are
      shorter than a line, and the lengths that overflow it are shown.
    - Time windows: a window added to the week opens exactly its minutes, the
      chains stay proper and separate, and the status is the openness of the
      present minute.
    - Hash tables: look-up, insertion, deletion and rehashing implement a finite
      map; iteration and release visit each entry once; the hash does not
      overflow.
    - Bit sets: insertion, removal, the set operations, counting and iteration
      on members, with the cases in which the running count goes wrong.
    - List sets: intersection, difference, insertion, deletion, selection of a
      range, and merging, with every cell accounted for on the free list.
    - Lists: insertion and removal with the callbacks run, conversion to a
      vector, search, printing within the buffer, destruction, and two
      operations that misbehave.

    ** Not modelled

    The daemons' network services, processes and signals; files other than the
    event log, its archives and its index and the sections of configuration files;
    the load
    indices of [lim]; the command-line tools; the vendored JSON parser; the
    parsers that are generated or delegate to Tcl, except for the one of index
    lists.  Of the modelled files the
    destructors of bit sets and time windows, iterator allocation and tree
    printing are left out, as are [selectJgrps] and [makeJgrpInfo], the
    construction of fairshare trees from the configuration, and the pending
    reasons and free slots that the functions of the accounts keep besides the
    counters.  Of the event log, the replay of the records, the functions that
    fill them in, the log of finished jobs as a file of its own
    and the release of records are left out; the numbers that
    [scanf] reads are decimal (not hexadecimal floats, infinities or NaN), buffers of
    streams are not modelled, and reading a file does not fail.

    ** What remains

    The replay of the log, which would connect the records to the accounts and the
    job group tree, and the handlers of [mbd.job.c] that change the status of jobs
    come next; then the construction of fairshare trees and the scheduling policy
    ([mbd.policy.c]), which works on the whole state of the daemon and the load of
    the hosts. *)

From stdpp Require Export base numbers list gmap strings.
From Stdlib Require Export ZArith Lia.

#[global] Open Scope Z_scope.

(** ** Machine integers *)

(** A C [unsigned int]: the value modulo 2^32. *)
Definition u32 (z : Z) : Z := z mod 2 ^ 32.

(** A C [int] on a two's complement machine. *)
Definition i32 (z : Z) : Z := (z + 2 ^ 31) mod 2 ^ 32 - 2 ^ 31.

(** A C [long]. *)
Definition i64 (z : Z) : Z := (z + 2 ^ 63) mod 2 ^ 64 - 2 ^ 63.

(** The null pointer.  Pointers are integers; a heap maps the live ones. *)
Definition NULL : Z := 0.

Definition INFINIT_INT : Z := 0x7fffffff.

(** ** Automation *)

Create HintDb vlc.
Create Rewrite HintDb vlc.

(** Turn boolean comparisons of the code into arithmetic. *)
Ltac bool_prop :=
  repeat match goal with
  | H : (_ && _)%bool = true |- _ => apply andb_true_iff in H; destruct H
  | H : (_ || _)%bool = false |- _ => apply orb_false_iff in H; destruct H
  | H : (_ || _)%bool = true |- _ => apply orb_true_iff in H
  | H : (_ && _)%bool = false |- _ => apply andb_false_iff in H
  | H : negb _ = true |- _ => apply negb_true_iff in H
  | H : negb _ = false |- _ => apply negb_false_iff in H
  | H : (_ =? _) = true |- _ => apply Z.eqb_eq in H
  | H : (_ =? _) = false |- _ => apply Z.eqb_neq in H
  | H : (_ <? _) = true |- _ => apply Z.ltb_lt in H
  | H : (_ <? _) = false |- _ => apply Z.ltb_ge in H
  | H : (_ <=? _) = true |- _ => apply Z.leb_le in H
  | H : (_ <=? _) = false |- _ => apply Z.leb_gt in H
  | H : bool_decide _ = true |- _ => apply bool_decide_eq_true in H
  | H : bool_decide _ = false |- _ => apply bool_decide_eq_false in H
  end.

(** Case analysis on the boolean tests of the goal. *)
Ltac case_test :=
  match goal with
  | |- context [if ?b then _ else _] =>
      lazymatch type of b with
      | bool => let E := fresh "E" in destruct b eqn:E; bool_prop
      end
  end.

Ltac case_tests := repeat case_test.

(** Evaluate the tests on option bits that are already constants. *)
Ltac eval_land :=
  repeat match goal with
  | |- context [Z.land ?a ?b =? ?c] =>
      let v := eval vm_compute in (Z.land a b =? c) in
      lazymatch v with
      | true => change (Z.land a b =? c) with true
      | false => change (Z.land a b =? c) with false
      end
  end.

(** ** Integers *)

Lemma u32_small z : 0 <= z < 2 ^ 32 -> u32 z = z.
Proof. apply Z.mod_small. Qed.

Lemma u32_bound z : 0 <= u32 z < 2 ^ 32.
Proof. apply Z.mod_pos_bound. lia. Qed.

Lemma i32_small z : - 2 ^ 31 <= z < 2 ^ 31 -> i32 z = z.
Proof. intros H. unfold i32. rewrite Z.mod_small; lia. Qed.

Lemma i32_bound z : - 2 ^ 31 <= i32 z < 2 ^ 31.
Proof.
  unfold i32. pose proof (Z.mod_pos_bound (z + 2 ^ 31) (2 ^ 32)). lia.
Qed.

#[export] Hint Resolve u32_bound i32_bound : vlc.
Lemma i32_add_l a b : i32 (i32 a + b) = i32 (a + b).
Proof.
  unfold i32. f_equal. replace ((a + 2 ^ 31) mod 2 ^ 32 - 2 ^ 31 + b + 2 ^ 31) with ((a + 2 ^ 31) mod 2 ^ 32 + b) by lia.
  rewrite Zplus_mod_idemp_l. f_equal. lia.
Qed.

Lemma i32_twice a : i32 (i32 a) = i32 a.
Proof. pose proof (i32_add_l a 0) as H. by rewrite !Z.add_0_r in H. Qed.

Lemma i32_sub a b : i32 (i32 a - b) = i32 (a - b).
Proof. apply (i32_add_l a (- b)). Qed.

#[export] Hint Rewrite u32_small i32_small using lia : vlc.

(** ** Lists *)

(** Last element of [a :: l]. *)
Definition lst {A} (a : A) (l : list A) : A := default a (last l).
#[global] Arguments lst : simpl never.

Lemma lst_cons {A} (a b : A) l : lst a (b :: l) = lst b l.
Proof. unfold lst. rewrite last_cons. by destruct (last l). Qed.

Lemma lst_snoc {A} (a b : A) l : lst a (l ++ [b]) = b.
Proof. unfold lst. by rewrite last_snoc. Qed.

Lemma lst_elem_of {A} (a : A) l : lst a l ∈ a :: l.
Proof.
  revert a. induction l as [|b l IH]; intros a; [set_solver|].
  rewrite lst_cons. specialize (IH b). set_solver.
Qed.

Lemma filter_all {A} (P : A -> Prop) `{forall x, Decision (P x)} (l : list A) :
  Forall P l -> filter P l = l.
Proof.
  induction 1 as [|x l Hx Hl IH]; [done|]. by rewrite filter_cons_True, IH.
Qed.

(** Sum of a list of integers. *)
Definition zsum (l : list Z) : Z := foldr Z.add 0 l.

Lemma zsum_cons x l : zsum (x :: l) = x + zsum l.
Proof. done. Qed.

Lemma zsum_app l1 l2 : zsum (l1 ++ l2) = zsum l1 + zsum l2.
Proof. induction l1; cbn [zsum foldr app] in *; [done|]. unfold zsum in *. lia. Qed.

#[global] Instance zsum_perm : Proper ((≡ₚ) ==> eq) zsum.
Proof. intros l l' H. unfold zsum. induction H; cbn; lia. Qed.

(** Number of elements satisfying a test. *)
Definition countb {A} (f : A -> bool) (l : list A) : Z :=
  zsum ((fun x => if f x then 1 else 0) <$> l).

Lemma countb_app {A} (f : A -> bool) l1 l2 :
  countb f (l1 ++ l2) = countb f l1 + countb f l2.
Proof. unfold countb. by rewrite fmap_app, zsum_app. Qed.

Lemma countb_nonneg {A} (f : A -> bool) l : 0 <= countb f l.
Proof.
  unfold countb, zsum.
  induction l as [|x l IH]; cbn; [lia|]. destruct (f x); lia.
Qed.
#[export] Hint Resolve countb_nonneg : vlc.

Lemma countb_ext {A} (f g : A -> bool) l :
  (forall x, x ∈ l -> f x = g x) -> countb f l = countb g l.
Proof.
  unfold countb, zsum. induction l as [|x l IH]; intros H; cbn; [done|].
  rewrite (H x), IH; [done| |]; set_solver.
Qed.

Lemma countb_false {A} (f : A -> bool) l : (forall x, x ∈ l -> f x = false) -> countb f l = 0.
Proof.
  unfold countb, zsum. induction l as [|x l IH]; intros H; cbn; [done|].
  rewrite (H x), IH by set_solver. done.
Qed.

Lemma countb_fmap {A B} (f : B -> bool) (g : A -> B) l :
  countb f (g <$> l) = countb (fun x => f (g x)) l.
Proof. unfold countb. by rewrite <- list_fmap_compose. Qed.

Lemma countb_cons {A} (f : A -> bool) x l :
  countb f (x :: l) = (if f x then 1 else 0) + countb f l.
Proof. done. Qed.

Lemma countb_le_length {A} (f : A -> bool) l : countb f l <= Z.of_nat (length l).
Proof. induction l as [|x l IH]; [done|]. rewrite countb_cons. simpl. case_test; lia. Qed.

(** Turning one more element on adds one. *)
Lemma countb_on `{EqDecision A} (f g : A -> bool) l x :
  NoDup l -> x ∈ l -> f x = false -> g x = true ->
  (forall y, y ∈ l -> y <> x -> g y = f y) -> countb g l = countb f l + 1.
Proof.
  intros Hnd Hx Hf Hg Hy. destruct (list_elem_of_split _ _ Hx) as (l1 & l2 & ->).
  apply NoDup_app in Hnd as (_ & Hd & [Hn _]%NoDup_cons).
  rewrite !countb_app, !countb_cons, Hf, Hg.
  rewrite (countb_ext g f l1), (countb_ext g f l2); [lia| |].
  - intros y Hin. apply Hy; [set_solver|]. intros ->. done.
  - intros y Hin. apply Hy; [set_solver|]. intros ->. apply (Hd x Hin). set_solver.
Qed.

(** ** Strings *)

Lemma string_length_app (s1 s2 : string) :
  String.length (s1 ++ s2)%string = (String.length s1 + String.length s2)%nat.
Proof.
  induction s1 as [|c s1 IH]; [done|].
  change (S (String.length (s1 ++ s2)%string) = S (String.length s1 + String.length s2)%nat).
  by rewrite IH.
Qed.

(** In a list without duplicates the part before an element is determined. *)
Lemma app_mid_inj {A} (l1 l2 l1' l2' : list A) x :
  l1' ++ x :: l2' = l1 ++ x :: l2 -> NoDup (l1 ++ x :: l2) -> l1' = l1.
Proof.
  intros E Hnd. revert l1' E. induction l1 as [|y l1 IH]; intros [|z l1'] E; [done| | |].
  - injection E as -> E. cbn in Hnd. apply NoDup_cons in Hnd as [Hx _].
    destruct Hx. rewrite <- E. apply elem_of_app. right. by left.
  - injection E as -> E. cbn in Hnd. apply NoDup_cons in Hnd as [Hx _].
    destruct Hx. apply elem_of_app. right. by left.
  - injection E as -> E. f_equal. apply IH; [|done]. cbn in Hnd. by apply NoDup_cons in Hnd as [_ ?].
Qed.
