(* ===== verification/CString.v ===== *)
(** * Character strings of C

    Strings are lists of characters without the terminating zero.  This file
    holds the functions of the C library and of [lsf/lib/lib.misc.c] that the
    parsers of the daemons use, and the decimal numerals they read. *)

From Stdlib Require Import Ascii.
From S2P Require Import Prelude.

Definition is_space (c : ascii) : bool := let n := Ascii.N_of_ascii c in
  (n =? 32)%N || ((9 <=? n) && (n <=? 13))%N.
Definition digit (c : ascii) : option Z := let n := Z.of_N (Ascii.N_of_ascii c) in
  if (48 <=? n) && (n <=? 57) then Some (n - 48) else None.

(** [strtol] in base 10: the clamped value, whether it was out of range, and
    what is left, all of the string when there is no digit. *)
Fixpoint skip_space (w : list ascii) : list ascii :=
  match w with c :: w' => if is_space c then skip_space w' else w | [] => [] end.

Fixpoint read_digits (acc : Z) (w : list ascii) : Z * list ascii :=
  match w with
  | c :: w' => match digit c with Some d => read_digits (10 * acc + d) w' | None => (acc, w) end
  | [] => (acc, [])
  end.

Definition strtol (w : list ascii) : Z * bool * list ascii :=
  let w1 := skip_space w in
  let '(neg, w2) := match w1 with
                    | "-"%char :: w' => (true, w')
                    | "+"%char :: w' => (false, w')
                    | _ => (false, w1)
                    end in
  match w2 with
  | c :: _ =>
      match digit c with
      | Some _ =>
          let '(v, rest) := read_digits 0 w2 in
          let v := if neg : bool then - v else v in
          let v' := Z.max (- 2 ^ 63) (Z.min (2 ^ 63 - 1) v) in
          (v', negb (v' =? v), rest)
      | None => (0, false, w)
      end
  | [] => (0, false, w)
  end.

(** [number] is an [int]. *)
Definition isint_ (w : list ascii) : bool :=
  match w with
  | [] => false
  | _ => let '(v, erange, rest) := strtol w in
         match rest with
         | [] => negb erange && (i32 v <=? INFINIT_INT) && (- INFINIT_INT <? i32 v)
         | _ => false
         end
  end.

Definition atoi (w : list ascii) : Z := let '(v, _, _) := strtol w in i32 v.

(** [strchr] and [strrchr], splitting the string at the character. *)
Fixpoint strchr (c : ascii) (w : list ascii) : option (list ascii * list ascii) :=
  match w with
  | [] => None
  | x :: w => if Ascii.eqb x c then Some ([], w) else '(l, r) ← strchr c w; Some (x :: l, r)
  end.

Fixpoint strrchr (c : ascii) (w : list ascii) : option (list ascii * list ascii) :=
  match w with
  | [] => None
  | x :: w' => match strrchr c w' with
               | Some (l, r) => Some (x :: l, r)
               | None => if Ascii.eqb x c then Some ([], w') else None
               end
  end.

(** ** Numerals *)

Definition digit_char (d : Z) : ascii := Ascii.ascii_of_N (Z.to_N (48 + d)).

(** Checking a range of numbers one by one. *)
Lemma seqZ_forallb (f : Z -> bool) a n x :
  forallb f (seqZ a n) = true -> a <= x < a + n -> f x = true.
Proof.
  intros H Hx. eapply forallb_forall in H; [exact H|]. apply list_elem_of_In, elem_of_seqZ. lia.
Qed.

(** The decimal numeral of a number that is not negative. *)
Fixpoint show_loop (fuel : nat) (n : Z) (acc : list ascii) : list ascii :=
  match fuel with
  | O => acc
  | S k => let acc := digit_char (n mod 10) :: acc in if n <? 10 then acc else show_loop k (n / 10) acc
  end.
Definition show_num (n : Z) : list ascii := show_loop (S (Z.to_nat n)) n [].

Definition is_digit (c : ascii) : bool := match digit c with Some _ => true | None => false end.

Lemma digit_digit_char d : 0 <= d < 10 -> digit (digit_char d) = Some d.
Proof.
  intros H. pose proof (seqZ_forallb (fun d => match digit (digit_char d) with Some x => x =? d | None => false end)
    0 10 d ltac:(vm_compute; reflexivity) ltac:(lia)) as E. cbn beta in E.
  destruct (digit (digit_char d)); [|done]. apply Z.eqb_eq in E. by subst.
Qed.

Lemma read_digits_stop acc w : hd_error w ≫= digit = None -> read_digits acc w = (acc, w).
Proof. destruct w as [|c w]; [done|]. cbn. by intros ->. Qed.

(** A numeral of more digits is read from the left. *)
Lemma show_loop_reads fuel n w :
  0 <= n -> (Z.to_nat n < fuel)%nat ->
  exists ds, show_loop fuel n w = ds ++ w /\ ds <> [] /\ Forall (fun c => is_digit c = true) ds /\
    forall r, read_digits 0 (ds ++ r) = read_digits n r.
Proof.
  revert n w. induction fuel as [|k IH]; intros n w Hn Hf; [lia|]. cbn [show_loop].
  pose proof (Z.mod_pos_bound n 10 ltac:(lia)) as Hm.
  assert (Hd : is_digit (digit_char (n mod 10)) = true) by (unfold is_digit; by rewrite digit_digit_char).
  destruct (Z.ltb_spec n 10).
  - exists [digit_char (n mod 10)]. split; [done|]. split; [done|]. split; [by repeat constructor|].
    intros r. cbn. rewrite digit_digit_char by done. by rewrite Z.mod_small by lia.
  - destruct (IH (n / 10) (digit_char (n mod 10) :: w)) as (ds & E & _ & Hall & Hr).
    + apply Z.div_pos; lia.
    + assert (n / 10 < n) by (apply Z.div_lt; lia).
      enough (Z.to_nat (n / 10) < Z.to_nat n)%nat by lia. apply Z2Nat.inj_lt; try lia. apply Z.div_pos; lia.
    + exists (ds ++ [digit_char (n mod 10)]). split; [by rewrite E, <- app_assoc|].
      split; [by destruct ds|]. split; [apply Forall_app; split; [done|by repeat constructor]|].
      intros r. rewrite <- app_assoc, Hr. cbn. rewrite digit_digit_char by done.
      f_equal. pose proof (Z.div_mod n 10). lia.
Qed.

Lemma show_num_reads n :
  0 <= n -> show_num n <> [] /\ Forall (fun c => is_digit c = true) (show_num n) /\
    forall r, read_digits 0 (show_num n ++ r) = read_digits n r.
Proof.
  intros Hn. destruct (show_loop_reads (S (Z.to_nat n)) n [] Hn ltac:(lia)) as (ds & E & H).
  unfold show_num. by rewrite E, app_nil_r.
Qed.

Lemma digit_not_space c : is_digit c = true -> is_space c = false /\ c <> "-"%char /\ c <> "+"%char.
Proof. by destruct c as [[] [] [] [] [] [] [] []]. Qed.

(** [strtol] reads a numeral back. *)
Lemma strtol_show n : 0 <= n < 2 ^ 63 -> strtol (show_num n) = (n, false, []).
Proof.
  intros Hn. destruct (show_num_reads n ltac:(lia)) as (Hne & Hall & Hr).
  specialize (Hr []). rewrite app_nil_r in Hr. unfold strtol.
  destruct (show_num n) as [|c w]; [done|]. apply Forall_cons in Hall as [Hc _].
  destruct (digit_not_space _ Hc) as (Hs & Hm & Hp). cbn [skip_space]. rewrite Hs.
  replace (match c :: w with "-"%char :: w' => (true, w') | "+"%char :: w' => (false, w') | _ => (false, c :: w) end)
    with (false, c :: w).
  - unfold is_digit in Hc. destruct (digit c) as [d|] eqn:Ed; [|done]. rewrite Hr. cbn [read_digits].
    rewrite Z.min_r, Z.max_r, Z.eqb_refl by lia. done.
  - destruct c as [[] [] [] [] [] [] [] []]; done.
Qed.

Lemma atoi_show n : 0 <= n < 2 ^ 31 -> atoi (show_num n) = n.
Proof. intros H. unfold atoi. rewrite strtol_show by lia. apply i32_small. lia. Qed.

Lemma isint_show n : 0 <= n < 2 ^ 31 -> isint_ (show_num n) = true.
Proof.
  intros H. unfold isint_. destruct (show_num_reads n ltac:(lia)) as (Hne & _).
  destruct (show_num n) eqn:E; [done|]. rewrite <- E, strtol_show by lia.
  rewrite i32_small by lia. unfold INFINIT_INT. destruct (Z.leb_spec n 0x7fffffff), (Z.ltb_spec (- 0x7fffffff) n); lia || done.
Qed.

Lemma skip_space_length w : (length (skip_space w) <= length w)%nat.
Proof. induction w as [|c w IH]; [done|]. cbn [skip_space]. destruct (is_space c); cbn; lia. Qed.

Lemma skip_space_head w c v : skip_space w = c :: v -> is_space c = false.
Proof.
  induction w as [|d w IH]; [done|]. cbn [skip_space]. destruct (is_space d) eqn:E; [done|]. by intros [= -> ->].
Qed.
