(* ===== verification/Lsb.v ===== *)
(** * Shared types of the batch system, [lsbatch/lsbatch.h] and [lsf/intlib/jidx.h]

    The status bits of a job and the classes of status, the error codes, the
    packing of an array's number and an index into one identifier, and the
    regions of an index specification. *)

From S2P Require Import Prelude.

(** ** Status *)

(** [flags & mask] as a condition. *)
Definition has (flags mask : Z) : bool := negb (Z.land flags mask =? 0).

Definition JOB_STAT_NULL : Z := 0.
Definition JOB_STAT_PEND : Z := 0x01.
Definition JOB_STAT_PSUSP : Z := 0x02.
Definition JOB_STAT_RUN : Z := 0x04.
Definition JOB_STAT_SSUSP : Z := 0x08.
Definition JOB_STAT_USUSP : Z := 0x10.
Definition JOB_STAT_EXIT : Z := 0x20.
Definition JOB_STAT_DONE : Z := 0x40.
Definition JOB_STAT_PDONE : Z := 0x80.
Definition JOB_STAT_PERR : Z := 0x100.
Definition JOB_STAT_WAIT : Z := 0x200.
Definition JOB_STAT_UNKWN : Z := 0x10000.
Definition JOB_STAT_VOID : Z := 0x100000.
Definition MASK_INT_JOB_STAT : Z := 0xFFFFF.
Definition MASK_STATUS (s : Z) : Z := Z.land s MASK_INT_JOB_STAT.

Definition IS_PEND (st : Z) : bool := has st JOB_STAT_PEND || has st JOB_STAT_PSUSP.
Definition IS_START (st : Z) : bool :=
  has st JOB_STAT_RUN || has st JOB_STAT_SSUSP || has st JOB_STAT_USUSP.
Definition IS_FINISH (st : Z) : bool := has st JOB_STAT_DONE || has st JOB_STAT_EXIT.

(** ** Error codes *)

Definition LSBE_NO_ERROR : Z := 0.
Definition LSBE_NO_JOB : Z := 1.
Definition LSBE_DEPEND_SYNTAX : Z := 6.
Definition LSBE_BAD_JOB : Z := 42.
Definition LSBE_NO_MEM : Z := 52.
Definition LSBE_BAD_IDX : Z := 97.
Definition LSBE_BIG_IDX : Z := 98.
Definition LSBE_ARRAY_NULL : Z := 99.
Definition LSBE_BAD_JOBID : Z := 102.
Definition LSBE_DEP_ARRAY_SIZE : Z := 131.

(** ** Submission options *)

Definition SUB_JOB_NAME : Z := 0x01.
Definition SUB_QUEUE : Z := 0x02.
Definition SUB_HOST : Z := 0x04.
Definition SUB_IN_FILE : Z := 0x08.
Definition SUB_OUT_FILE : Z := 0x10.
Definition SUB_ERR_FILE : Z := 0x20.
Definition SUB_CHKPNT_PERIOD : Z := 0x400.
Definition SUB_CHKPNT_DIR : Z := 0x800.
Definition SUB_HOST_SPEC : Z := 0x10000.
Definition SUB_DEPEND_COND : Z := 0x20000.
Definition SUB_RES_REQ : Z := 0x40000.
Definition SUB_OTHER_FILES : Z := 0x80000.
Definition SUB_PRE_EXEC : Z := 0x100000.
Definition SUB_LOGIN_SHELL : Z := 0x200000.
Definition SUB_MAIL_USER : Z := 0x400000.
Definition SUB_PROJECT_NAME : Z := 0x2000000.
Definition SUB_INTERACTIVE : Z := 0x4000000.
Definition SUB_POST_EXEC : Z := 0x40000000.
Definition SUB_RLIMIT_UNIT_IS_KB : Z := 0x80000000.
Definition SUB2_MODIFY_CMD : Z := 0x02.
Definition SUB2_BSUB_BLOCK : Z := 0x04.
Definition SUB2_IN_FILE_SPOOL : Z := 0x80.
Definition SUB2_JOB_CMD_SPOOL : Z := 0x100.
Definition SUB2_JOB_PRIORITY : Z := 0x200.
Definition SUB2_JOB_DESC : Z := 0x2000.

(** ** Identifiers *)

Definition LSB_MAX_ARRAY_JOBID : Z := 0xFFFFFFFF.
Definition LSB_MAX_ARRAY_IDX : Z := 0xFFFF.

(** [LS_UNS_LONG_INT] *)
Definition uns64 (z : Z) : Z := z mod 2 ^ 64.

Definition LSB_JOBID (array_jobId array_idx : Z) : Z :=
  i64 (Z.lor (uns64 (Z.shiftl (uns64 array_idx) 32)) (uns64 array_jobId)).
Definition LSB_ARRAY_IDX (jobId : Z) : Z :=
  if jobId =? -1 then 0 else i32 (Z.land (Z.shiftr (uns64 jobId) 32) LSB_MAX_ARRAY_IDX).
Definition LSB_ARRAY_JOBID (jobId : Z) : Z :=
  if jobId =? -1 then -1 else i32 (Z.land jobId LSB_MAX_ARRAY_JOBID).

(** ** Regions of an index specification *)

Record idxList := IdxList { start : Z; end_ : Z; step : Z }.
