(* ===== verification/Links.v ===== *)
(** * Circular doubly linked lists

    The two list idioms of the source on one heap of link cells:
    [inList]/[offList]/[mkListHeader] of [lsf/intlib/list.c] (fields
    [forw], [back]) and [insList_]/[remList_]/[initList_] of
    [lsf/lib/lib.table.c] (fields [fwPtr], [bwPtr]).  A heap maps the address
    of a live cell to its two links; every dereference goes through a lookup,
    so a dereference of a dead or null address is [None].

    [dlist h head l] is the representation predicate: the cells of [l], in
    this order along [fw], hang off the header [head].  The theorems show the
    pointer code implements insertion and removal on [l]. *)

From S2P Require Import Prelude.

Record links := Links { fw : Z; bk : Z }.

#[export] Instance links_eq_dec : EqDecision links.
Proof. solve_decision. Defined.

Definition get_fw (h : gmap Z links) (p : Z) : option Z := fw <$> h !! p.
Definition get_bk (h : gmap Z links) (p : Z) : option Z := bk <$> h !! p.

Definition set_fw (h : gmap Z links) (p v : Z) : option (gmap Z links) :=
  n ← h !! p; Some (<[p := Links v (bk n)]> h).
Definition set_bk (h : gmap Z links) (p v : Z) : option (gmap Z links) :=
  n ← h !! p; Some (<[p := Links (fw n) v]> h).

(** [insList_(elemPtr, destPtr)] *)
Definition insList_ (h : gmap Z links) (elemPtr destPtr : Z) : option (gmap Z links) :=
  b ← get_bk h destPtr;
  h ← set_bk h elemPtr b;
  h ← set_fw h elemPtr destPtr;
  b ← get_bk h destPtr;
  h ← set_fw h b elemPtr;
  set_bk h destPtr elemPtr.

(** [remList_(elemPtr)]: a null pointer or a self-linked cell is left alone. *)
Definition remList_ (h : gmap Z links) (elemPtr : Z) : option (gmap Z links) :=
  if elemPtr =? NULL then Some h else
  b ← get_bk h elemPtr;
  if elemPtr =? b then Some h else
  f ← get_fw h elemPtr;
  h ← set_bk h f b;
  b ← get_bk h elemPtr;
  f ← get_fw h elemPtr;
  set_fw h b f.

(** [initList_(headPtr)] *)
Definition initList_ (h : gmap Z links) (headPtr : Z) : option (gmap Z links) :=
  h ← set_bk h headPtr headPtr;
  set_fw h headPtr headPtr.

(** [inList(pred, entry)] *)
Definition inList (h : gmap Z links) (pred entry : Z) : option (gmap Z links) :=
  h ← set_fw h entry pred;
  b ← get_bk h pred;
  h ← set_bk h entry b;
  b ← get_bk h pred;
  h ← set_fw h b entry;
  set_bk h pred entry.

(** [offList(entry)] *)
Definition offList (h : gmap Z links) (entry : Z) : option (gmap Z links) :=
  b ← get_bk h entry;
  f ← get_fw h entry;
  h ← set_fw h b f;
  f ← get_fw h entry;
  b ← get_bk h entry;
  set_bk h f b.

(** [mkListHeader()]: the zeroed cell [calloc] returned at [q], self-linked. *)
Definition mkListHeader (h : gmap Z links) (q : Z) : option (gmap Z links) :=
  let h := <[q := Links NULL NULL]> h in
  h ← set_bk h q q;
  set_fw h q q.

(** ** The representation predicate *)

Definition edge (h : gmap Z links) (a b : Z) : Prop :=
  get_fw h a = Some b /\ get_bk h b = Some a.

Fixpoint path (h : gmap Z links) (a : Z) (l : list Z) : Prop :=
  match l with
  | [] => True
  | b :: l => edge h a b /\ path h b l
  end.

Definition dlist (h : gmap Z links) (head : Z) (l : list Z) : Prop :=
  NoDup (head :: l) /\ path h head (l ++ [head]).

(** The cell that follows a prefix of the ring: the first of [l2], or the
    header. *)
Definition succ_of (head : Z) (l2 : list Z) : Z := default head (hd_error l2).

(** ** Heap updates *)

Lemma set_fw_Some h p v h' :
  set_fw h p v = Some h' ->
  (forall x, get_fw h' x = if decide (x = p) then Some v else get_fw h x) /\
  (forall x, get_bk h' x = get_bk h x) /\ dom h' = dom h.
Proof.
  unfold set_fw, get_fw, get_bk. intros H.
  destruct (h !! p) as [n|] eqn:E; simplify_eq/=. repeat split.
  - intros x. rewrite lookup_insert. case_decide; [by subst; rewrite decide_True|].
    by rewrite decide_False.
  - intros x. rewrite lookup_insert. case_decide; [|done]. subst. by rewrite E.
  - apply set_eq. intros x. rewrite !elem_of_dom, lookup_insert.
    case_decide; [subst; rewrite E; split; eauto | done].
Qed.

Lemma set_bk_Some h p v h' :
  set_bk h p v = Some h' ->
  (forall x, get_bk h' x = if decide (x = p) then Some v else get_bk h x) /\
  (forall x, get_fw h' x = get_fw h x) /\ dom h' = dom h.
Proof.
  unfold set_bk, get_fw, get_bk. intros H.
  destruct (h !! p) as [n|] eqn:E; simplify_eq/=. repeat split.
  - intros x. rewrite lookup_insert. case_decide; [by subst; rewrite decide_True|].
    by rewrite decide_False.
  - intros x. rewrite lookup_insert. case_decide; [|done]. subst. by rewrite E.
  - apply set_eq. intros x. rewrite !elem_of_dom, lookup_insert.
    case_decide; [subst; rewrite E; split; eauto | done].
Qed.

Lemma set_fw_total h p v : p ∈ dom h -> exists h', set_fw h p v = Some h'.
Proof. intros [n E]%elem_of_dom. unfold set_fw. rewrite E. eauto. Qed.

Lemma set_bk_total h p v : p ∈ dom h -> exists h', set_bk h p v = Some h'.
Proof. intros [n E]%elem_of_dom. unfold set_bk. rewrite E. eauto. Qed.

Lemma get_fw_dom h p v : get_fw h p = Some v -> p ∈ dom h.
Proof.
  unfold get_fw. rewrite elem_of_dom. destruct (h !! p); naive_solver.
Qed.

Lemma get_bk_dom h p v : get_bk h p = Some v -> p ∈ dom h.
Proof.
  unfold get_bk. rewrite elem_of_dom. destruct (h !! p); naive_solver.
Qed.

(** Run one heap write of the goal, keeping its effect on both fields. *)
Ltac heap_write :=
  match goal with
  | |- context [set_fw ?h ?p ?v ≫= _] => heap_step (set_fw h p v) (set_fw_total h p v) set_fw_Some
  | |- context [set_bk ?h ?p ?v ≫= _] => heap_step (set_bk h p v) (set_bk_total h p v) set_bk_Some
  | |- context [set_fw ?h ?p ?v] => heap_step (set_fw h p v) (set_fw_total h p v) set_fw_Some
  | |- context [set_bk ?h ?p ?v] => heap_step (set_bk h p v) (set_bk_total h p v) set_bk_Some
  end
with heap_step t tot spec :=
  let h' := fresh "h" in let E := fresh "E" in
  let F := fresh "F" in let B := fresh "B" in let D := fresh "D" in
  destruct tot as [h' E];
    [ | rewrite E; cbn [mbind option_bind];
        apply spec in E; destruct E as (F & B & D) ].

(** ** Paths *)

Lemma path_app h a l1 l2 :
  path h a (l1 ++ l2) <-> path h a l1 /\ path h (lst a l1) l2.
Proof.
  revert a. induction l1 as [|b l1 IH]; intros a; simpl.
  - unfold lst. simpl. tauto.
  - rewrite IH, lst_cons. tauto.
Qed.

Lemma path_dom h a l x : path h a l -> x ∈ l -> x ∈ dom h.
Proof.
  revert a. induction l as [|b l IH]; intros a; [set_solver|].
  intros [[_ Hb] Hp] [->|Hx]%elem_of_cons; eauto using get_bk_dom.
Qed.

(** A path reads [fw] of every cell but the last and [bk] of every cell but
    the first. *)
Lemma path_frame h h' a l :
  NoDup (a :: l) ->
  (forall x, x ∈ a :: l -> x <> lst a l -> get_fw h' x = get_fw h x) ->
  (forall x, x ∈ l -> get_bk h' x = get_bk h x) ->
  path h a l -> path h' a l.
Proof.
  revert a. induction l as [|b l IH]; intros a Hnd Hf Hb; [done|].
  apply NoDup_cons in Hnd as [Ha Hnd]. intros [[E1 E2] Hp].
  rewrite lst_cons in Hf. pose proof (lst_elem_of b l) as Hl. split; [split|].
  - rewrite Hf; [done|set_solver|]. intros ->. set_solver.
  - rewrite Hb; [done|set_solver].
  - apply IH; [done| |set_solver|done]. intros x Hx. apply Hf. set_solver.
Qed.

(** The ring seen at a splice point: prefix [l1], then [succ_of head l2]. *)
Lemma ring_split h head l1 l2 :
  path h head (l1 ++ l2 ++ [head]) <->
  path h head l1 /\ edge h (lst head l1) (succ_of head l2) /\
  path h (succ_of head l2) (tail (l2 ++ [head])).
Proof. rewrite path_app. destruct l2 as [|s l2]; simpl; tauto. Qed.

Lemma nodup_suffix head l1 l2 :
  NoDup (head :: l1 ++ l2) -> NoDup (succ_of head l2 :: tail (l2 ++ [head])).
Proof.
  intros Hnd. destruct l2 as [|s l2]; cbn; [apply NoDup_singleton|].
  apply NoDup_cons in Hnd as [Hh Hnd]. apply NoDup_app in Hnd as (_ & _ & Hnd).
  change (NoDup ((s :: l2) ++ [head])). apply NoDup_app.
  split; [done|]. split; [set_solver|apply NoDup_singleton].
Qed.

Lemma succ_of_elem head l2 : succ_of head l2 ∈ head :: l2.
Proof. destruct l2; simpl; set_solver. Qed.

Lemma splice_disjoint head l1 l2 :
  NoDup (head :: l1 ++ l2) -> (succ_of head l2 ∉ l1) /\ (lst head l1 ∉ l2).
Proof.
  intros [Hh (_ & Hd & _)%NoDup_app]%NoDup_cons. rewrite elem_of_app in Hh.
  pose proof (succ_of_elem head l2) as Hs. pose proof (lst_elem_of head l1) as Hl.
  apply elem_of_cons in Hs, Hl. split; intros Hin.
  - destruct Hs as [E|Hs]; [rewrite E in Hin; tauto | by apply (Hd _ Hin)].
  - destruct Hl as [E|Hl]; [rewrite E in Hin; tauto | by apply (Hd _ Hl)].
Qed.

Lemma suffix_elem head l2 x :
  x ∈ (succ_of head l2 :: tail (l2 ++ [head])) -> x ∈ l2 \/ x = head.
Proof. destruct l2; cbn; set_solver. Qed.

(** Two heaps that agree outside one splice point agree on the two arcs. *)
Lemma ring_frame h h' head l1 l2 e :
  NoDup (head :: l1 ++ l2) -> e ∉ head :: l1 ++ l2 ->
  (forall x, x <> lst head l1 -> x <> e -> get_fw h' x = get_fw h x) ->
  (forall x, x <> succ_of head l2 -> x <> e -> get_bk h' x = get_bk h x) ->
  path h head l1 -> path h (succ_of head l2) (tail (l2 ++ [head])) ->
  path h' head l1 /\ path h' (succ_of head l2) (tail (l2 ++ [head])).
Proof.
  intros Hnd He Hf Hb H1 H2.
  pose proof (nodup_suffix _ _ _ Hnd) as Hs.
  destruct (splice_disjoint _ _ _ Hnd) as [Hs1 Hl2].
  apply not_elem_of_cons in He as [He1 He2]. rewrite elem_of_app in He2.
  split; (eapply path_frame; [ | | |eassumption]).
  - apply NoDup_cons in Hnd as [Hh Hnd]. rewrite elem_of_app in Hh.
    apply NoDup_cons. split; [tauto|]. by apply NoDup_app in Hnd as (? & _).
  - intros x Hx Hne. apply Hf; [done|]. intros ->. apply elem_of_cons in Hx. tauto.
  - intros x Hx. apply Hb; intros ->; tauto.
  - done.
  - intros x Hx Hne. apply Hf; intros ->; destruct (suffix_elem _ _ _ Hx) as [|E]; try tauto.
    destruct l2 as [|s l2]; simpl in Hne; [by rewrite E in Hne|].
    by rewrite lst_snoc in Hne.
  - intros x Hx. apply NoDup_cons in Hs as [Hs _]. apply Hb; intros ->; [done|].
    destruct (suffix_elem head l2 e) as [|E]; try tauto. by apply elem_of_cons; right.
Qed.

(** ** Insertion *)

(** What [insList_], [inList] and [listInsertEntryBefore] all do to the two
    fields when [e] is linked between [p] and [s]. *)
Definition spliced_in (h h' : gmap Z links) (p e s : Z) : Prop :=
  (forall x, get_fw h' x =
     if decide (x = p) then Some e else if decide (x = e) then Some s else get_fw h x) /\
  (forall x, get_bk h' x =
     if decide (x = s) then Some e else if decide (x = e) then Some p else get_bk h x) /\
  dom h' = dom h.

Lemma spliced_in_dlist h h' head l1 l2 e :
  dlist h head (l1 ++ l2) -> e ∉ head :: l1 ++ l2 ->
  spliced_in h h' (lst head l1) e (succ_of head l2) ->
  dlist h' head (l1 ++ e :: l2).
Proof.
  intros [Hnd Hp] He (Hf & Hb & _).
  rewrite <- app_assoc in Hp. apply ring_split in Hp as (P1 & _ & P2).
  pose proof (lst_elem_of head l1) as Hle. pose proof (succ_of_elem head l2) as Hse.
  assert (He1 : e <> lst head l1) by set_solver.
  assert (He2 : e <> succ_of head l2) by set_solver.
  destruct (ring_frame h h' head l1 l2 e) as [Q1 Q2]; try done.
  { intros x ??. rewrite Hf. by rewrite !decide_False. }
  { intros x ??. rewrite Hb. by rewrite !decide_False. }
  split.
  - change (NoDup (head :: l1 ++ [e] ++ l2)).
    apply NoDup_cons in Hnd as [??]. apply NoDup_cons. split; [set_solver|].
    rewrite (Permutation_app_comm l1), <- app_assoc. apply NoDup_cons.
    rewrite (Permutation_app_comm l2). set_solver.
  - rewrite <- app_assoc. apply path_app. split; [done|]. simpl. split.
    + split; [rewrite Hf, decide_True by done; done|].
      rewrite Hb, decide_False, decide_True; done.
    + destruct l2 as [|s l2]; simpl in *.
      * split; [|done]. split; [rewrite Hf, decide_False, decide_True; done|].
        rewrite Hb, decide_True; done.
      * split; [|done]. split; [rewrite Hf, decide_False, decide_True; done|].
        rewrite Hb, decide_True; done.
Qed.

(** Finish a goal about the fields after a sequence of writes. *)
Ltac solve_fields :=
  repeat match goal with
  | |- context [decide (?x = ?y)] => destruct (decide (x = y)); subst
  | H : forall x : Z, get_fw ?h x = _ |- context [get_fw ?h _] => rewrite H
  | H : forall x : Z, get_bk ?h x = _ |- context [get_bk ?h _] => rewrite H
  end; try congruence; try done.

Lemma insList_splice h p e s :
  edge h p s -> e ∈ dom h -> e <> p -> e <> s ->
  exists h', insList_ h e s = Some h' /\ spliced_in h h' p e s.
Proof.
  intros [Hf Hb] He Hep Hes. unfold insList_.
  pose proof (get_fw_dom _ _ _ Hf). pose proof (get_bk_dom _ _ _ Hb).
  rewrite Hb. cbn [mbind option_bind].
  heap_write; [done|]. heap_write; [set_solver|].
  replace (get_bk h1 s) with (Some p) by solve_fields. cbn [mbind option_bind].
  heap_write; [set_solver|]. heap_write; [set_solver|].
  eexists; split; [done|]. split; [|split; [|set_solver]]; intros x; solve_fields.
Qed.

Lemma inList_splice h p e s :
  edge h p s -> e ∈ dom h -> e <> p -> e <> s ->
  exists h', inList h s e = Some h' /\ spliced_in h h' p e s.
Proof.
  intros [Hf Hb] He Hep Hes. unfold inList.
  pose proof (get_fw_dom _ _ _ Hf). pose proof (get_bk_dom _ _ _ Hb).
  heap_write; [done|].
  replace (get_bk h0 s) with (Some p) by solve_fields. cbn [mbind option_bind].
  heap_write; [set_solver|].
  replace (get_bk h1 s) with (Some p) by solve_fields. cbn [mbind option_bind].
  heap_write; [set_solver|]. heap_write; [set_solver|].
  eexists; split; [done|]. split; [|split; [|set_solver]]; intros x; solve_fields.
Qed.

(** ** Removal *)

Definition spliced_out (h h' : gmap Z links) (p s : Z) : Prop :=
  (forall x, get_fw h' x = if decide (x = p) then Some s else get_fw h x) /\
  (forall x, get_bk h' x = if decide (x = s) then Some p else get_bk h x) /\
  dom h' = dom h.

Lemma offList_splice h p e s :
  edge h p e -> edge h e s -> e <> p ->
  exists h', offList h e = Some h' /\ spliced_out h h' p s.
Proof.
  intros [Hf1 Hb1] [Hf2 Hb2] Hep. unfold offList.
  pose proof (get_fw_dom _ _ _ Hf1). pose proof (get_bk_dom _ _ _ Hb2).
  rewrite Hb1, Hf2. cbn [mbind option_bind].
  heap_write; [done|].
  replace (get_fw h0 e) with (Some s) by solve_fields. cbn [mbind option_bind].
  replace (get_bk h0 e) with (Some p) by solve_fields. cbn [mbind option_bind].
  heap_write; [set_solver|].
  eexists; split; [done|]. split; [|split; [|set_solver]]; intros x; solve_fields.
Qed.

Lemma remList_splice h p e s :
  edge h p e -> edge h e s -> e <> p -> e <> s -> e <> NULL ->
  exists h', remList_ h e = Some h' /\ spliced_out h h' p s.
Proof.
  intros [Hf1 Hb1] [Hf2 Hb2] Hep Hes Hnull. unfold remList_.
  pose proof (get_fw_dom _ _ _ Hf1). pose proof (get_bk_dom _ _ _ Hb2).
  rewrite (proj2 (Z.eqb_neq e NULL) Hnull), Hb1. cbn [mbind option_bind].
  rewrite (proj2 (Z.eqb_neq e p) Hep), Hf2. cbn [mbind option_bind].
  heap_write; [done|].
  replace (get_bk h0 e) with (Some p) by solve_fields. cbn [mbind option_bind].
  replace (get_fw h0 e) with (Some s) by solve_fields. cbn [mbind option_bind].
  heap_write; [set_solver|].
  eexists; split; [done|]. split; [|split; [|set_solver]]; intros x; solve_fields.
Qed.

Lemma spliced_out_dlist h h' head l1 l2 e :
  dlist h head (l1 ++ e :: l2) ->
  spliced_out h h' (lst head l1) (succ_of head l2) ->
  dlist h' head (l1 ++ l2).
Proof.
  intros [Hnd Hp] (Hf & Hb & _).
  assert (Hnd' : NoDup (head :: l1 ++ l2) /\ e ∉ head :: l1 ++ l2).
  { rewrite (Permutation_app_comm l1) in Hnd. cbn in Hnd.
    rewrite (Permutation_swap e head), (Permutation_app_comm l2) in Hnd.
    apply NoDup_cons in Hnd as [??]. done. }
  destruct Hnd' as [Hnd' He].
  rewrite <- app_assoc in Hp. apply path_app in Hp as [P1 Hp].
  change ((e :: l2) ++ [head]) with (e :: l2 ++ [head]) in Hp.
  destruct Hp as [E1 Hp].
  assert (P2 : path h (succ_of head l2) (tail (l2 ++ [head]))).
  { destruct l2; simpl in Hp |- *; tauto. }
  destruct (ring_frame h h' head l1 l2 e) as [Q1 Q2]; try done.
  { intros x ??. by rewrite Hf, decide_False. }
  { intros x ??. by rewrite Hb, decide_False. }
  split; [done|]. rewrite <- app_assoc. apply ring_split. split; [done|].
  split; [|done]. split; [by rewrite Hf, decide_True | by rewrite Hb, decide_True].
Qed.

(** ** What the ring says about a cell *)

Lemma dlist_edges h head l1 e l2 :
  dlist h head (l1 ++ e :: l2) ->
  edge h (lst head l1) e /\ edge h e (succ_of head l2) /\
  e <> lst head l1 /\ e <> succ_of head l2.
Proof.
  intros [Hnd Hp]. rewrite <- app_assoc in Hp. apply path_app in Hp as [_ Hp].
  change ((e :: l2) ++ [head]) with (e :: l2 ++ [head]) in Hp.
  destruct Hp as [E1 Hp].
  split; [done|]. split; [destruct l2; simpl in Hp; tauto|].
  pose proof (lst_elem_of head l1) as Hl. pose proof (succ_of_elem head l2) as Hs.
  apply NoDup_cons in Hnd as [Hh Hnd]. apply NoDup_app in Hnd as (Hn1 & Hd & Hn2).
  apply NoDup_cons in Hn2 as [Hn2 _]. rewrite elem_of_app, elem_of_cons in Hh.
  apply elem_of_cons in Hl, Hs. split; intros Heq.
  - rewrite <- Heq in Hl. destruct Hl as [->|Hl]; [tauto|]. apply (Hd _ Hl). set_solver.
  - rewrite <- Heq in Hs. destruct Hs as [->|Hs]; tauto.
Qed.

Lemma dlist_splice_edge h head l1 l2 :
  dlist h head (l1 ++ l2) -> edge h (lst head l1) (succ_of head l2).
Proof. intros [_ Hp]. rewrite <- app_assoc in Hp. by apply ring_split in Hp as (_ & ? & _). Qed.

Lemma dlist_dom h head l x : dlist h head l -> x ∈ head :: l -> x ∈ dom h.
Proof. intros [_ Hp] Hx. eapply path_dom; [exact Hp|]. set_solver. Qed.

Lemma dlist_not_in (head : Z) l1 l2 e :
  e ∉ head :: l1 ++ l2 -> e <> lst head l1 /\ e <> succ_of head l2.
Proof.
  intros He. pose proof (lst_elem_of head l1). pose proof (succ_of_elem head l2).
  split; intros Heq; rewrite Heq in He; set_solver.
Qed.

(** A list that shares no cell with the splice point is untouched. *)
Lemma dlist_frame h h' head l (P : gset Z) :
  dlist h head l -> (forall x, x ∈ head :: l -> x ∉ P) ->
  (forall x, x ∉ P -> get_fw h' x = get_fw h x /\ get_bk h' x = get_bk h x) ->
  dlist h' head l.
Proof.
  intros [Hnd Hp] HP Hh. split; [done|].
  assert (G : forall a k, path h a k -> (forall x, x ∈ a :: k -> x ∉ P) -> path h' a k).
  { intros a k. revert a. induction k as [|b k IH]; intros a; [done|].
    intros [[E1 E2] Hk] Hx. split; [|apply IH; [done|set_solver]].
    destruct (Hh a) as [F _]; [set_solver|]. destruct (Hh b) as [_ G]; [set_solver|].
    split; congruence. }
  apply G; [done|]. set_solver.
Qed.

(** ** The interface of a ring

    What a pair of primitives promises to the components that keep their
    elements on a ring: linking before a cell and unlinking a cell, for every
    position, with every ring that shares no cell left alone. *)
Class RingOps (ins : gmap Z links -> Z -> Z -> option (gmap Z links))
    (rem : gmap Z links -> Z -> option (gmap Z links)) : Prop := {
  ring_ins h head l1 l2 e :
    dlist h head (l1 ++ l2) -> e ∈ dom h -> e ∉ head :: l1 ++ l2 ->
    exists h', ins h e (succ_of head l2) = Some h' /\ dlist h' head (l1 ++ e :: l2) /\
      dom h' = dom h /\
      (forall head' l', dlist h head' l' ->
         (forall x, x ∈ head' :: l' -> x ∉ e :: head :: l1 ++ l2) -> dlist h' head' l');
  ring_rem h head l1 l2 e :
    dlist h head (l1 ++ e :: l2) -> e <> NULL ->
    exists h', rem h e = Some h' /\ dlist h' head (l1 ++ l2) /\ dom h' = dom h /\
      (forall head' l', dlist h head' l' ->
         (forall x, x ∈ head' :: l' -> x ∉ head :: l1 ++ e :: l2) -> dlist h' head' l')
}.

Lemma ring_ins_of_splice (ins : gmap Z links -> Z -> Z -> option (gmap Z links)) :
  (forall h p e s, edge h p s -> e ∈ dom h -> e <> p -> e <> s ->
     exists h', ins h e s = Some h' /\ spliced_in h h' p e s) ->
  forall h head l1 l2 e,
  dlist h head (l1 ++ l2) -> e ∈ dom h -> e ∉ head :: l1 ++ l2 ->
  exists h', ins h e (succ_of head l2) = Some h' /\ dlist h' head (l1 ++ e :: l2) /\
    dom h' = dom h /\
    (forall head' l', dlist h head' l' ->
       (forall x, x ∈ head' :: l' -> x ∉ e :: head :: l1 ++ l2) -> dlist h' head' l').
Proof.
  intros Hins h head l1 l2 e Hd He Hne.
  destruct (dlist_not_in _ _ _ _ Hne) as [Hp Hs].
  destruct (Hins h _ e _ (dlist_splice_edge _ _ _ _ Hd) He Hp Hs) as (h' & Hr & Hsp).
  exists h'. split; [done|]. split; [by eapply spliced_in_dlist|].
  destruct Hsp as (Hf & Hb & Hdom). split; [done|]. intros head' l' Hd' Hsep.
  pose proof (lst_elem_of head l1). pose proof (succ_of_elem head l2).
  apply (dlist_frame h h' head' l' {[e; lst head l1; succ_of head l2]}); [done| |].
  - intros x Hx. specialize (Hsep x Hx). set_solver.
  - intros x Hx. rewrite Hf, Hb. rewrite !decide_False by set_solver. done.
Qed.

Lemma ring_rem_of_splice (rem : gmap Z links -> Z -> option (gmap Z links)) :
  (forall h p e s, edge h p e -> edge h e s -> e <> p -> e <> s -> e <> NULL ->
     exists h', rem h e = Some h' /\ spliced_out h h' p s) ->
  forall h head l1 l2 e,
  dlist h head (l1 ++ e :: l2) -> e <> NULL ->
  exists h', rem h e = Some h' /\ dlist h' head (l1 ++ l2) /\ dom h' = dom h /\
    (forall head' l', dlist h head' l' ->
       (forall x, x ∈ head' :: l' -> x ∉ head :: l1 ++ e :: l2) -> dlist h' head' l').
Proof.
  intros Hrem h head l1 l2 e Hd Hnull.
  destruct (dlist_edges _ _ _ _ _ Hd) as (E1 & E2 & N1 & N2).
  destruct (Hrem h _ e _ E1 E2 N1 N2 Hnull) as (h' & Hr & Hsp).
  exists h'. split; [done|]. split; [by eapply spliced_out_dlist|].
  destruct Hsp as (Hf & Hb & Hdom). split; [done|]. intros head' l' Hd' Hsep.
  pose proof (lst_elem_of head l1). pose proof (succ_of_elem head l2).
  apply (dlist_frame h h' head' l' {[lst head l1; succ_of head l2]}); [done| |].
  - intros x Hx. specialize (Hsep x Hx). set_solver.
  - intros x Hx. rewrite Hf, Hb. rewrite !decide_False by set_solver. done.
Qed.

(** [lib.table.c] *)
#[export] Instance table_ring : RingOps insList_ remList_.
Proof.
  constructor.
  - apply ring_ins_of_splice, insList_splice.
  - apply ring_rem_of_splice, remList_splice.
Qed.

(** [list.c]'s untyped entries *)
#[export] Instance entry_ring : RingOps (fun h e s => inList h s e) offList.
Proof.
  constructor.
  - apply (ring_ins_of_splice (fun h e s => inList h s e)), inList_splice.
  - apply ring_rem_of_splice. intros. eapply offList_splice; eauto.
Qed.

#[global] Arguments succ_of : simpl never.
