(* ===== verification/ListLib.v ===== *)
(** * The list library, [lsf/intlib/list.c]

    A [LIST_T] is a ring header with a name, an entry count and, on demand, a
    second list of observers that are told of every entry that enters or
    leaves.  The state is the heap of link cells, the heaps of headers and of
    observers, the log of the callbacks run and [listerrno].

    The address an allocation returns is an argument of the operations that
    allocate ([NULL] when [calloc] fails).  Function pointers are integers
    ([NULL] for none): the observer's [select] is run through the section
    variable [select_fn], the callbacks [enter], [leave_] and [destroy] are
    recorded in the log.  [None] is a dereference of a dead pointer, or a loop
    that runs out of fuel; the theorems show the result is [Some]. *)

From S2P Require Import Prelude Links.

(** ** Data *)

Inductive LIST_EVENT_TYPE_T := LIST_EVENT_ENTER | LIST_EVENT_LEAVE | LIST_EVENT_NULL.

#[export] Instance event_type_eq_dec : EqDecision LIST_EVENT_TYPE_T.
Proof. solve_decision. Defined.

Record LIST_EVENT_T := ListEvent { ev_type : LIST_EVENT_TYPE_T; ev_entry : Z }.

Record LIST_T := List_ {
  l_name : string; numEnts : Z; allowObservers : bool; observers : Z }.

Record LIST_OBSERVER_T := ListObserver {
  ob_name : string; ob_list : Z; extra : Z; select : Z; enter : Z; leave_ : Z }.

Record LIST_ITERATOR_T := ListIterator { it_list : Z; curEnt : Z }.

(** [enum _listErrno] *)
Definition LIST_ERR_NOERR : Z := 0.
Definition LIST_ERR_BADARG : Z := 1.
Definition LIST_ERR_NOMEM : Z := 2.
Definition LIST_ERR_NOOBSVR : Z := 3.
Definition LIST_ERR_LAST : Z := 4.

Definition LIST_TRAVERSE_FORWARD : Z := 1.
Definition LIST_TRAVERSE_BACKWARD : Z := 2.

(** A callback that was run. *)
Inductive list_call :=
  | CallEnter (fn list extra : Z) (ev : LIST_EVENT_T)
  | CallLeave (fn list extra : Z) (ev : LIST_EVENT_T)
  | CallDestroy (fn entry : Z).

Record lstate := LState {
  cells : gmap Z links;
  lists : gmap Z LIST_T;
  obs : gmap Z LIST_OBSERVER_T;
  calls : list list_call;
  listerrno : Z }.

Definition with_cells (s : lstate) h := LState h (lists s) (obs s) (calls s) (listerrno s).
Definition with_lists (s : lstate) m := LState (cells s) m (obs s) (calls s) (listerrno s).
Definition with_obs (s : lstate) m := LState (cells s) (lists s) m (calls s) (listerrno s).
Definition with_calls (s : lstate) c := LState (cells s) (lists s) (obs s) c (listerrno s).
Definition with_errno (s : lstate) e := LState (cells s) (lists s) (obs s) (calls s) e.

(** ** Creation and plain access *)

Definition listCreate (s : lstate) (a : Z) (name : string) : Z * lstate :=
  if a =? NULL then (NULL, s) else
  (a, with_lists (with_cells s (<[a := Links a a]> (cells s)))
        (<[a := List_ name 0 false NULL]> (lists s))).

Definition LIST_IS_EMPTY (s : lstate) (list : Z) : option bool :=
  f ← get_fw (cells s) list; Some (f =? list).

Definition listAllowObservers (s : lstate) (list a : Z) : option (Z * lstate) :=
  L ← lists s !! list;
  if allowObservers L then Some (0, s) else
  let '(o, s) := listCreate s a "Observer list" in
  let s := with_lists s (<[list := List_ (l_name L) (numEnts L) true o]> (lists s)) in
  if o =? NULL then Some (-1, s) else Some (0, s).

Definition listGetFrontEntry (s : lstate) (list : Z) : option Z :=
  e ← LIST_IS_EMPTY s list;
  if e : bool then Some NULL else get_fw (cells s) list.

Definition listGetBackEntry (s : lstate) (list : Z) : option Z :=
  e ← LIST_IS_EMPTY s list;
  if e : bool then Some NULL else get_bk (cells s) list.

(** ** Iterators *)

Definition listIteratorAttach (s : lstate) (list : Z) : option LIST_ITERATOR_T :=
  f ← get_fw (cells s) list; Some (ListIterator list f).

Definition listIteratorDetach (iter : LIST_ITERATOR_T) : LIST_ITERATOR_T :=
  ListIterator NULL NULL.

Definition listIteratorGetSubjectList (iter : LIST_ITERATOR_T) : Z := it_list iter.

Definition listIteratorGetCurEntry (iter : LIST_ITERATOR_T) : Z :=
  if curEnt iter =? it_list iter then NULL else curEnt iter.
#[global] Arguments listIteratorGetCurEntry : simpl never.

Definition listIteratorIsEndOfList (iter : LIST_ITERATOR_T) : bool :=
  curEnt iter =? it_list iter.

Definition listIteratorNext (s : lstate) (iter : LIST_ITERATOR_T) : option (LIST_ITERATOR_T * Z) :=
  f ← get_fw (cells s) (curEnt iter);
  let iter := ListIterator (it_list iter) f in
  Some (iter, listIteratorGetCurEntry iter).

Definition listIteratorPrev (s : lstate) (iter : LIST_ITERATOR_T) : option (LIST_ITERATOR_T * Z) :=
  b ← get_bk (cells s) (curEnt iter);
  let iter := ListIterator (it_list iter) b in
  Some (iter, listIteratorGetCurEntry iter).

(** The two loop shapes of the file: [for (ent = cur; ent != NULL; step)] and
    [for (ent = cur; !end; step)].  The body returns [true] to leave the loop. *)
Fixpoint for_entries {A} (fuel : nat)
    (step : A -> LIST_ITERATOR_T -> option (LIST_ITERATOR_T * Z))
    (body : A -> Z -> option (A * bool)) (iter : LIST_ITERATOR_T) (ent : Z) (acc : A)
    : option A :=
  match fuel with
  | O => None
  | S n =>
      if ent =? NULL then Some acc else
      '(acc, stop) ← body acc ent;
      if stop : bool then Some acc else
      '(iter, ent) ← step acc iter;
      for_entries n step body iter ent acc
  end.

Fixpoint for_not_end {A} (fuel : nat)
    (step : A -> LIST_ITERATOR_T -> option (LIST_ITERATOR_T * Z))
    (body : A -> Z -> option (A * bool)) (iter : LIST_ITERATOR_T) (ent : Z) (acc : A)
    : option A :=
  match fuel with
  | O => None
  | S n =>
      if listIteratorIsEndOfList iter then Some acc else
      '(acc, stop) ← body acc ent;
      if stop : bool then Some acc else
      '(iter, ent) ← step acc iter;
      for_not_end n step body iter ent acc
  end.

(** A ring has at most as many entries as the heap has cells. *)
Definition loop_fuel (s : lstate) : nat := S (size (cells s)).
#[global] Arguments loop_fuel : simpl never.

Definition listIteratorSetCurEntry (s : lstate) (iter : LIST_ITERATOR_T) (entry : Z)
    (validateEnt : bool) : option (Z * LIST_ITERATOR_T * lstate) :=
  if validateEnt then
    front ← listGetFrontEntry s (it_list iter);
    let it := ListIterator (it_list iter) front in
    found ← for_not_end (loop_fuel s) (fun _ => listIteratorNext s)
      (fun _ ent => Some (ent =? entry, ent =? entry)) it (listIteratorGetCurEntry it) false;
    if found : bool then Some (0, ListIterator (it_list iter) entry, s)
    else Some (-1, iter, with_errno s LIST_ERR_BADARG)
  else Some (0, ListIterator (it_list iter) entry, s).

(** ** Insertion, removal and their observers *)

Section WithFunctions.
(** The [select] functions of the observers: function pointer, [extra], event. *)
Variable select_fn : Z -> Z -> LIST_EVENT_T -> bool.

(** One round of the notification loop: [true] ends it with an error. *)
Definition notify_one (list : Z) (event : LIST_EVENT_T) (s : lstate) (observer : Z)
    : option (lstate * bool) :=
  o ← obs s !! observer;
  if negb (select o =? NULL) && negb (select_fn (select o) (extra o) event)
  then Some (s, false) else
  match ev_type event with
  | LIST_EVENT_ENTER =>
      if enter o =? NULL then Some (s, false) else
      Some (with_calls s (calls s ++ [CallEnter (enter o) list (extra o) event]), false)
  | LIST_EVENT_LEAVE =>
      if leave_ o =? NULL then Some (s, false) else
      Some (with_calls s (calls s ++ [CallLeave (leave_ o) list (extra o) event]), false)
  | LIST_EVENT_NULL => Some (with_errno s LIST_ERR_BADARG, true)
  end.

Definition listNotifyObservers (s : lstate) (list : Z) (event : LIST_EVENT_T)
    : option (Z * lstate) :=
  L ← lists s !! list;
  iter ← listIteratorAttach s (observers L);
  '(s', err) ← for_not_end (loop_fuel s) (fun _ => listIteratorNext s)
    (fun acc observer =>
       '(s, stop) ← notify_one list event acc.1 observer; Some ((s, stop), stop))
    iter (listIteratorGetCurEntry iter) (s, false);
  Some (if err : bool then -1 else 0, s').

(** [if (list->allowObservers && !LIST_IS_EMPTY(list->observers)) notify] *)
Definition notify_if_observed (s : lstate) (list : Z) (event : LIST_EVENT_T) : option lstate :=
  L ← lists s !! list;
  if allowObservers L then
    e ← LIST_IS_EMPTY s (observers L);
    if e : bool then Some s else snd <$> listNotifyObservers s list event
  else Some s.

Definition add_numEnts (s : lstate) (list d : Z) : option lstate :=
  L ← lists s !! list;
  Some (with_lists s
    (<[list := List_ (l_name L) (numEnts L + d) (allowObservers L) (observers L)]> (lists s))).

Definition listInsertEntryBefore (s : lstate) (list succ entry : Z) : option (Z * lstate) :=
  h ← set_fw (cells s) entry succ;
  b ← get_bk h succ;
  h ← set_bk h entry b;
  b ← get_bk h succ;
  h ← set_fw h b entry;
  h ← set_bk h succ entry;
  s ← notify_if_observed (with_cells s h) list (ListEvent LIST_EVENT_ENTER entry);
  s ← add_numEnts s list 1;
  Some (0, s).

Definition listInsertEntryAfter (s : lstate) (list pred entry : Z) : option (Z * lstate) :=
  f ← get_fw (cells s) pred; listInsertEntryBefore s list f entry.

Definition listInsertEntryAtFront (s : lstate) (list entry : Z) : option (Z * lstate) :=
  f ← get_fw (cells s) list; listInsertEntryBefore s list f entry.

Definition listInsertEntryAtBack (s : lstate) (list entry : Z) : option (Z * lstate) :=
  listInsertEntryBefore s list list entry.

Definition listRemoveEntry (s : lstate) (list entry : Z) : option lstate :=
  b ← get_bk (cells s) entry;
  f ← get_fw (cells s) entry;
  if (b =? NULL) || (f =? NULL) then Some s else
  h ← set_fw (cells s) b f;
  f ← get_fw h entry;
  b ← get_bk h entry;
  h ← set_bk h f b;
  s ← notify_if_observed (with_cells s h) list (ListEvent LIST_EVENT_LEAVE entry);
  add_numEnts s list (-1).

(** [free(entry)]: the cell is dead afterwards. *)
Definition free_cell (s : lstate) (entry : Z) : lstate :=
  with_cells s (delete entry (cells s)).

(** [listObserverDestroy(observer)] *)
Definition listObserverDestroy (s : lstate) (observer : Z) : lstate :=
  with_obs (free_cell s observer) (delete observer (obs s)).

(** The destructor handed to [listDestroy]. *)
Inductive destroy_fn := DestroyFree | DestroyObserver | DestroyUser (fn : Z).

Definition destroy_entry (d : destroy_fn) (s : lstate) (entry : Z) : lstate :=
  match d with
  | DestroyFree => free_cell s entry
  | DestroyObserver => listObserverDestroy s entry
  | DestroyUser fn => with_calls s (calls s ++ [CallDestroy fn entry])
  end.

(** [while (!LIST_IS_EMPTY(list)) { remove the front; destroy it }] *)
Fixpoint drain (fuel : nat) (d : destroy_fn) (s : lstate) (list : Z) : option lstate :=
  match fuel with
  | O => None
  | S n =>
      e ← LIST_IS_EMPTY s list;
      if e : bool then Some s else
      entry ← get_fw (cells s) list;
      s ← listRemoveEntry s list entry;
      drain n d (destroy_entry d s entry) list
  end.

(** [depth] bounds the nesting of observer lists; the code nests one. *)
Fixpoint listDestroy (depth : nat) (s : lstate) (list : Z) (d : destroy_fn) : option lstate :=
  match depth with
  | O => None
  | S depth =>
      s ← drain (loop_fuel s) d s list;
      L ← lists s !! list;
      s ← (if allowObservers L then listDestroy depth s (observers L) DestroyObserver
           else Some s);
      Some (with_lists (free_cell s list) (delete list (lists s)))
  end.

(** ** Observers *)

(** [listObserverCreate]: [args] is the variadic tail up to [LIST_EVENT_NULL]. *)
Fixpoint observer_args (o : LIST_OBSERVER_T) (args : list (LIST_EVENT_TYPE_T * Z))
    : LIST_OBSERVER_T :=
  match args with
  | [] => o
  | (LIST_EVENT_NULL, _) :: _ => o
  | (LIST_EVENT_ENTER, cb) :: args =>
      observer_args (ListObserver (ob_name o) (ob_list o) (extra o) (select o) cb (leave_ o)) args
  | (LIST_EVENT_LEAVE, cb) :: args =>
      observer_args (ListObserver (ob_name o) (ob_list o) (extra o) (select o) (enter o) cb) args
  end.

Definition listObserverCreate (s : lstate) (a : Z) (name : string) (ex sel : Z)
    (args : list (LIST_EVENT_TYPE_T * Z)) : Z * lstate :=
  if a =? NULL then (NULL, with_errno s LIST_ERR_NOMEM) else
  (a, with_obs (with_cells s (<[a := Links NULL NULL]> (cells s)))
        (<[a := observer_args (ListObserver name NULL ex sel NULL NULL) args]> (obs s))).

Definition set_ob_list (s : lstate) (observer list : Z) : option lstate :=
  o ← obs s !! observer;
  Some (with_obs s (<[observer :=
    ListObserver (ob_name o) list (extra o) (select o) (enter o) (leave_ o)]> (obs s))).

Definition listObserverAttach (s : lstate) (observer list : Z) : option (Z * lstate) :=
  L ← lists s !! list;
  if negb (allowObservers L) then Some (-1, with_errno s LIST_ERR_NOOBSVR) else
  '(cc, s) ← listInsertEntryBefore s (observers L) (observers L) observer;
  if cc <? 0 then Some (cc, s) else
  s ← set_ob_list s observer list; Some (0, s).

(** As in the source the entry is removed with [observer->list], the observed
    list, as the first argument. *)
Definition listObserverDetach (s : lstate) (observer list : Z) : option lstate :=
  o ← obs s !! observer;
  s ← (if ob_list o =? NULL then Some s else listRemoveEntry s (ob_list o) observer);
  set_ob_list s observer NULL.

(** ** Traversals *)

Definition listSearchEntry (s : lstate) (list : Z) (equal : Z -> bool) : option Z :=
  iter ← listIteratorAttach s list;
  for_entries (loop_fuel s) (fun _ => listIteratorNext s)
    (fun _ ent => if equal ent then Some (ent, true) else Some (NULL, false))
    iter (listIteratorGetCurEntry iter) NULL.

(** The traversal header shared by [list2Vector], [listDisplay] and [listCat]. *)
Definition traverse {A} (s : lstate) (list direction : Z)
    (body : A -> Z -> option (A * bool)) (acc : A) : option A :=
  let direction := if direction =? 0 then LIST_TRAVERSE_FORWARD else direction in
  iter ← listIteratorAttach s list;
  iter ← (if negb (Z.land direction LIST_TRAVERSE_BACKWARD =? 0) then
            back ← listGetBackEntry s list;
            '(_, iter, _) ← listIteratorSetCurEntry s iter back false;
            Some iter
          else Some iter);
  for_entries (loop_fuel s)
    (fun _ => if negb (Z.land direction LIST_TRAVERSE_FORWARD =? 0)
              then listIteratorNext s else listIteratorPrev s)
    body iter (listIteratorGetCurEntry iter) acc.

(** [vector] is the caller's memory, by index. *)
Definition list2Vector (s : lstate) (list direction : Z)
    (putVecEnt : option (gmap Z Z -> Z -> Z -> gmap Z Z)) (vector : gmap Z Z) : option (gmap Z Z) :=
  fst <$> traverse s list direction
    (fun '(v, entIdx) entry =>
       Some ((match putVecEnt with
              | Some put => put v entIdx entry
              | None => <[entIdx := entry]> v
              end, entIdx + 1), false)) (vector, 0).

Definition listDisplay (s : lstate) (list direction : Z) : option (Datatypes.list Z) :=
  traverse s list direction (fun shown entry => Some (shown ++ [entry], false)) [].

Definition u64 (z : Z) : Z := z mod 2 ^ 64.

(** The body of [listCat]'s loop; [curSize + strlen(str) > bufferSize - 1]
    compares as [size_t]. *)
Definition cat_body (bufferSize : Z) (catFunc : Z -> option string)
    (acc : string * Z) (entry : Z) : option (string * Z * bool) :=
  match catFunc entry with
  | None => Some (acc, false)
  | Some str =>
      let len := Z.of_nat (String.length str) in
      if u64 (bufferSize - 1) <? u64 (acc.2 + len)
      then Some (acc, true)
      else Some (((acc.1 ++ str)%string, i32 (acc.2 + len)), false)
  end.

Definition listCat (s : lstate) (list direction bufferSize : Z) (catFunc : Z -> option string)
    : option string :=
  fst <$> traverse s list direction (cat_body bufferSize catFunc) (""%string, 0).

(** [listDup]: [allocs] are the addresses the successive [calloc]s return;
    [memcpy] copies the links, which the insertion then overwrites. *)
Definition listDup (s : lstate) (list : Z) (a : Z) (allocs : Datatypes.list Z)
    : option (Z * lstate) :=
  L ← lists s !! list;
  let '(newList, s1) := listCreate s a (l_name L) in
  if newList =? NULL then Some (NULL, s1) else
  iter ← listIteratorAttach s1 list;
  '(s2, _) ← for_entries (loop_fuel s) (fun acc => listIteratorNext acc.1)
    (fun '(st, al) entry =>
       match al with
       | [] => None
       | n :: al =>
           if n =? NULL then None else
           c ← cells st !! entry;
           '(_, st) ← listInsertEntryAtBack
                        (with_cells st (<[n := c]> (cells st))) newList n;
           Some ((st, al), false)
       end) iter (listIteratorGetCurEntry iter) (s1, allocs);
  Some (newList, s2).

End WithFunctions.

Definition listErrList : list string :=
  ["No Error"; "Bad arguments"; "Memory allocation failed";
   "Permission denied for attaching observers"; "Last Error (no error)"]%string.

(** [listStrError]; [None] selects the unknown-number message. *)
Definition listStrError (errnum : Z) : option string :=
  if (errnum <? 0) || (LIST_ERR_LAST <? errnum) then None
  else listErrList !! Z.to_nat errnum.

(** * Lemmas *)

(** ** Loops over a ring *)

(** What a loop with early exit computes. *)
Fixpoint fold_stop {A} (body : A -> Z -> option (A * bool)) (acc : A) (l : list Z) : option A :=
  match l with
  | [] => Some acc
  | e :: l =>
      '(acc, stop) ← body acc e;
      if stop : bool then Some acc else fold_stop body acc l
  end.

Definition cur_of (l : list Z) : Z := default NULL (hd_error l).
#[global] Arguments cur_of : simpl never.

Lemma cur_of_iter list l :
  list ∉ l -> listIteratorGetCurEntry (ListIterator list (succ_of list l)) = cur_of l.
Proof.
  unfold listIteratorGetCurEntry, cur_of, succ_of. destruct l as [|e l]; cbn; intros Hn.
  - by rewrite Z.eqb_refl.
  - case_test; [subst; set_solver|done].
Qed.

Section Loops.
Context {A : Type} (I : A -> Prop) (list : Z) (l : Datatypes.list Z).
Context (step : A -> LIST_ITERATOR_T -> option (LIST_ITERATOR_T * Z)).
Context (body : A -> Z -> option (A * bool)).
Hypothesis Hnull : NULL ∉ list :: l.
Hypothesis Hlist : list ∉ l.
Hypothesis Hstep : forall acc l1 e l2, I acc -> l = l1 ++ e :: l2 ->
  step acc (ListIterator list e) = Some (ListIterator list (succ_of list l2), cur_of l2).
Hypothesis Hbody : forall acc e acc' stop, I acc -> e ∈ l ->
  body acc e = Some (acc', stop) -> I acc'.

Lemma for_entries_ring fuel l1 l2 acc :
  I acc -> l = l1 ++ l2 -> (length l2 < fuel)%nat ->
  for_entries fuel step body (ListIterator list (succ_of list l2)) (cur_of l2) acc
  = fold_stop body acc l2.
Proof using Hnull Hlist Hstep Hbody.
  revert l1 l2 acc. induction fuel as [|n IH]; intros l1 l2 acc HI Hl Hf; [lia|].
  destruct l2 as [|e l2]; [by rewrite ?Z.eqb_refl|].
  assert (He : e ∈ l) by (subst l; set_solver).
  change (cur_of (e :: l2)) with e. change (succ_of list (e :: l2)) with e.
  cbn [for_entries fold_stop].
  rewrite (proj2 (Z.eqb_neq e NULL)) by (intros ->; set_solver).
  destruct (body acc e) as [[acc' [|]]|] eqn:Hb; cbn; [done| |done].
  rewrite (Hstep acc' l1 e l2) by eauto. cbn.
  apply (IH (l1 ++ [e])); [eauto|by rewrite <- app_assoc|simpl in Hf; lia].
Qed.

Lemma for_not_end_ring fuel l1 l2 acc :
  I acc -> l = l1 ++ l2 -> (length l2 < fuel)%nat ->
  for_not_end fuel step body (ListIterator list (succ_of list l2)) (cur_of l2) acc
  = fold_stop body acc l2.
Proof using Hnull Hlist Hstep Hbody.
  revert l1 l2 acc. induction fuel as [|n IH]; intros l1 l2 acc HI Hl Hf; [lia|].
  destruct l2 as [|e l2]; [by unfold succ_of; cbn; unfold listIteratorIsEndOfList; cbn; rewrite Z.eqb_refl|].
  assert (He : e ∈ l) by (subst l; set_solver).
  change (cur_of (e :: l2)) with e. change (succ_of list (e :: l2)) with e.
  cbn [for_not_end fold_stop]. unfold listIteratorIsEndOfList. cbn [curEnt it_list].
  rewrite (proj2 (Z.eqb_neq e list)) by (intros ->; done).
  destruct (body acc e) as [[acc' [|]]|] eqn:Hb; cbn; [done| |done].
  rewrite (Hstep acc' l1 e l2) by eauto. cbn.
  apply (IH (l1 ++ [e])); [eauto|by rewrite <- app_assoc|simpl in Hf; lia].
Qed.
End Loops.

Lemma dlist_hd h list l : dlist h list l -> list ∉ l.
Proof. by intros [[? _]%NoDup_cons _]. Qed.

Lemma dlist_length h list l : dlist h list l -> (length l < size h)%nat.
Proof.
  intros Hd. pose proof Hd as [Hnd _]. apply (Nat.le_trans _ (length (list :: l))); [simpl; lia|].
  rewrite <- size_dom, <- (size_list_to_set (C := gset Z) (list :: l)) by done.
  apply subseteq_size. intros x Hx%elem_of_list_to_set. by eapply dlist_dom.
Qed.

Lemma next_step s list l l1 e l2 :
  dlist (cells s) list l -> l = l1 ++ e :: l2 ->
  listIteratorNext s (ListIterator list e) = Some (ListIterator list (succ_of list l2), cur_of l2).
Proof.
  intros Hd ->. pose proof (dlist_hd _ _ _ Hd) as Hh.
  destruct (dlist_edges _ _ _ _ _ Hd) as (_ & [Hf _] & _).
  unfold listIteratorNext. cbn. rewrite Hf. cbn. rewrite cur_of_iter; set_solver.
Qed.

Lemma lst_rev (a : Z) l : lst a l = succ_of a (rev l).
Proof.
  induction l as [|x l _] using rev_ind; [done|].
  rewrite lst_snoc, rev_app_distr. done.
Qed.

Lemma prev_step s list l l1 e l2 :
  dlist (cells s) list l -> rev l = l1 ++ e :: l2 ->
  listIteratorPrev s (ListIterator list e) = Some (ListIterator list (succ_of list l2), cur_of l2).
Proof.
  intros Hd Hr. assert (l = rev l2 ++ e :: rev l1) as ->.
  { rewrite <- (rev_involutive l), Hr, rev_app_distr. simpl. by rewrite <- app_assoc. }
  pose proof (dlist_hd _ _ _ Hd) as Hh.
  destruct (dlist_edges _ _ _ _ _ Hd) as ([_ Hb] & _).
  unfold listIteratorPrev. cbn. rewrite Hb. cbn. rewrite lst_rev, rev_involutive.
  rewrite cur_of_iter; [done|]. intros Hin. apply Hh. apply elem_of_app. left.
  by apply list_elem_of_In, in_rev, list_elem_of_In; rewrite rev_involutive.
Qed.

Lemma ring_get_fw h list l : dlist h list l -> get_fw h list = Some (succ_of list l).
Proof. intros Hd. by destruct (dlist_splice_edge h list [] l Hd) as [? _]. Qed.

Lemma ring_get_bk h list l : dlist h list l -> get_bk h list = Some (lst list l).
Proof.
  intros Hd. rewrite <- (app_nil_r l) in Hd.
  by destruct (dlist_splice_edge h list l [] Hd) as [_ ?].
Qed.

Lemma ring_attach s list l :
  dlist (cells s) list l -> listIteratorAttach s list = Some (ListIterator list (succ_of list l)).
Proof. intros Hd. unfold listIteratorAttach. by rewrite (ring_get_fw _ _ _ Hd). Qed.

Lemma ring_empty s list l :
  dlist (cells s) list l -> LIST_IS_EMPTY s list = Some (bool_decide (l = [])).
Proof.
  intros Hd. unfold LIST_IS_EMPTY. rewrite (ring_get_fw _ _ _ Hd). cbn.
  pose proof (dlist_hd _ _ _ Hd). f_equal.
  destruct l as [|e l]; [by unfold succ_of; cbn; rewrite Z.eqb_refl|].
  rewrite bool_decide_false by done. change (succ_of list (e :: l)) with e.
  apply Z.eqb_neq. set_solver.
Qed.

(** ** Well-formed lists *)

Record list_ok (s : lstate) (list : Z) (l : Datatypes.list Z) (L : LIST_T) : Prop := {
  ok_hdr : lists s !! list = Some L;
  ok_ring : dlist (cells s) list l;
  ok_null : NULL ∉ list :: l;
  ok_num : numEnts L = Z.of_nat (length l) }.

(** The observers of a list: a ring of its own, every cell a live observer. *)
Record observed (s : lstate) (list : Z) (l : Datatypes.list Z) (L : LIST_T)
    (ol : Datatypes.list Z) : Prop := {
  obd_ring : allowObservers L = true -> dlist (cells s) (observers L) ol;
  obd_null : allowObservers L = true -> NULL ∉ observers L :: ol;
  obd_live : allowObservers L = true -> forall o, o ∈ ol -> is_Some (obs s !! o);
  obd_sep : allowObservers L = true ->
    forall x, x ∈ observers L :: ol -> x ∉ list :: l }.

Section Delivery.
Variable select_fn : Z -> Z -> LIST_EVENT_T -> bool.

(** The callback one observer gets for an event. *)
Definition call_of (list : Z) (ev : LIST_EVENT_T) (o : LIST_OBSERVER_T) : Datatypes.list list_call :=
  if negb (select o =? NULL) && negb (select_fn (select o) (extra o) ev) then [] else
  match ev_type ev with
  | LIST_EVENT_ENTER => if enter o =? NULL then [] else [CallEnter (enter o) list (extra o) ev]
  | LIST_EVENT_LEAVE => if leave_ o =? NULL then [] else [CallLeave (leave_ o) list (extra o) ev]
  | LIST_EVENT_NULL => []
  end.

(** The callbacks an event causes, in the order of the observers' ring. *)
Definition deliveries (s : lstate) (list : Z) (ev : LIST_EVENT_T) (ol : Datatypes.list Z)
    : Datatypes.list list_call :=
  ol ≫= fun o => from_option (call_of list ev) [] (obs s !! o).

Lemma notify_fold s list ev ol :
  ev_type ev <> LIST_EVENT_NULL -> (forall o, o ∈ ol -> is_Some (obs s !! o)) ->
  fold_stop (fun acc observer =>
     '(s, stop) ← notify_one select_fn list ev acc.1 observer; Some ((s, stop), stop))
    (s, false) ol
  = Some (with_calls s (calls s ++ deliveries s list ev ol), false).
Proof.
  intros Hev. revert s. induction ol as [|o ol IH]; intros s Hlive; cbn [fold_stop].
  { unfold deliveries. cbn. by rewrite app_nil_r; destruct s. }
  destruct (Hlive o) as [ob Hob]; [set_solver|].
  assert (Hone : notify_one select_fn list ev s o
                 = Some (with_calls s (calls s ++ call_of list ev ob), false)).
  { unfold notify_one, call_of. rewrite Hob. cbn.
    case_test; [by rewrite app_nil_r; destruct s|].
    destruct (ev_type ev); [| |done]; case_test; [by rewrite app_nil_r; destruct s|done| |done].
    by rewrite app_nil_r; destruct s. }
  cbn. rewrite Hone. cbn. rewrite (IH (with_calls s _)); [|set_solver].
  unfold deliveries. cbn. rewrite Hob. cbn. by rewrite <- app_assoc.
Qed.

Lemma notify_observed s list l L ol ev :
  lists s !! list = Some L -> observed s list l L ol -> ev_type ev <> LIST_EVENT_NULL ->
  notify_if_observed select_fn s list ev
  = Some (with_calls s (calls s ++ if allowObservers L then deliveries s list ev ol else [])).
Proof.
  intros HL [Hr Hn Hl _] Hev. unfold notify_if_observed. rewrite HL. cbn.
  destruct (allowObservers L); [|by rewrite app_nil_r; destruct s].
  specialize (Hr eq_refl). specialize (Hn eq_refl). specialize (Hl eq_refl).
  rewrite (ring_empty _ _ _ Hr). cbn. case_test.
  { subst ol. unfold deliveries. cbn. by rewrite app_nil_r; destruct s. }
  unfold listNotifyObservers. rewrite HL. cbn. rewrite (ring_attach _ _ _ Hr). cbn.
  pose proof (dlist_hd _ _ _ Hr) as Hh. rewrite cur_of_iter by done.
  pose proof (dlist_length _ _ _ Hr).
  erewrite (for_not_end_ring (fun _ => True) _ ol _ _ Hn Hh) with (l1 := []);
    [by rewrite notify_fold | | done | done | done | unfold loop_fuel; lia].
  intros _ l1 e l2 _ Heq. by apply (next_step s _ ol l1).
Qed.
End Delivery.

Section Operations.
Variable select_fn : Z -> Z -> LIST_EVENT_T -> bool.

Lemma listInsertEntryBefore_links s list succ entry :
  listInsertEntryBefore select_fn s list succ entry
  = h ← inList (cells s) succ entry;
    s ← notify_if_observed select_fn (with_cells s h) list (ListEvent LIST_EVENT_ENTER entry);
    s ← add_numEnts s list 1; Some (0, s).
Proof.
  unfold listInsertEntryBefore, inList.
  repeat (match goal with
          | |- context [set_fw ?a ?b ?c] => destruct (set_fw a b c)
          | |- context [set_bk ?a ?b ?c] => destruct (set_bk a b c)
          | |- context [get_bk ?a ?b] => destruct (get_bk a b)
          end; cbn; try done).
Qed.

Lemma listRemoveEntry_links s list entry p f :
  get_bk (cells s) entry = Some p -> get_fw (cells s) entry = Some f ->
  p <> NULL -> f <> NULL ->
  listRemoveEntry select_fn s list entry
  = h ← offList (cells s) entry;
    s ← notify_if_observed select_fn (with_cells s h) list (ListEvent LIST_EVENT_LEAVE entry);
    add_numEnts s list (-1).
Proof.
  intros Hb Hf Hp Hn. unfold listRemoveEntry, offList. rewrite Hb, Hf. cbn.
  rewrite (proj2 (Z.eqb_neq _ _) Hp), (proj2 (Z.eqb_neq _ _) Hn). cbn.
  destruct (set_fw (cells s) p f) as [h|]; [|done]. cbn.
  destruct (get_fw h entry); [|done]. cbn. destruct (get_bk h entry); [|done]. cbn.
  by destruct (set_bk h _ _).
Qed.

(** The header after [d] entries came in. *)
Definition bump (L : LIST_T) (d : Z) : LIST_T :=
  List_ (l_name L) (numEnts L + d) (allowObservers L) (observers L).

Lemma insert_ok s list l1 l2 L ol e :
  list_ok s list (l1 ++ l2) L -> observed s list (l1 ++ l2) L ol ->
  e ∈ dom (cells s) -> e ∉ list :: l1 ++ l2 -> e <> NULL ->
  (allowObservers L = true -> e ∉ observers L :: ol) ->
  exists s', listInsertEntryBefore select_fn s list (succ_of list l2) e = Some (0, s') /\
    list_ok s' list (l1 ++ e :: l2) (bump L 1) /\
    observed s' list (l1 ++ e :: l2) (bump L 1) ol /\
    calls s' = calls s ++ (if allowObservers L
      then deliveries select_fn s list (ListEvent LIST_EVENT_ENTER e) ol else []) /\
    obs s' = obs s /\ dom (cells s') = dom (cells s) /\
    (forall k, k <> list -> lists s' !! k = lists s !! k).
Proof.
  intros [HL Hd Hn Hc] Hobs He Hne Hnull Heo.
  destruct (ring_ins (cells s) list l1 l2 e Hd He Hne) as (h & Hins & Hd' & Hdom & Hfr).
  assert (Hobs' : observed (with_cells s h) list (l1 ++ e :: l2) L ol).
  { destruct Hobs as [Hr Hn' Hl Hs]. constructor; cbn; try done.
    - intros Ha. apply Hfr; [by apply Hr|]. intros x Hx. specialize (Hs Ha x Hx).
      specialize (Heo Ha). intros [->|Hx']%elem_of_cons; done.
    - intros Ha x Hx. specialize (Hs Ha x Hx). specialize (Heo Ha).
      intros Hin. assert (x = e) as ->; [|done]. clear -Hs Hin. set_solver. }
  rewrite listInsertEntryBefore_links, Hins. cbn.
  rewrite (notify_observed select_fn _ _ _ L ol) by done. cbn.
  unfold add_numEnts. cbn. rewrite HL. cbn. eexists. split; [reflexivity|].
  split; [|split; [by destruct Hobs'; constructor|]].
  - constructor; cbn; [by rewrite lookup_insert_eq|done| |].
    + clear -Hn Hnull. set_solver.
    + rewrite Hc, !length_app. simpl. lia.
  - repeat split; cbn; [done|]. intros k Hk. by rewrite lookup_insert_ne.
Qed.

Lemma remove_ok s list l1 l2 L ol e :
  list_ok s list (l1 ++ e :: l2) L -> observed s list (l1 ++ e :: l2) L ol ->
  exists s', listRemoveEntry select_fn s list e = Some s' /\
    list_ok s' list (l1 ++ l2) (bump L (-1)) /\
    observed s' list (l1 ++ l2) (bump L (-1)) ol /\
    calls s' = calls s ++ (if allowObservers L
      then deliveries select_fn s list (ListEvent LIST_EVENT_LEAVE e) ol else []) /\
    obs s' = obs s /\ dom (cells s') = dom (cells s) /\
    (forall k, k <> list -> lists s' !! k = lists s !! k).
Proof.
  intros [HL Hd Hn Hc] Hobs.
  assert (Hnull : e <> NULL) by (clear -Hn; set_solver).
  destruct (ring_rem (cells s) list l1 l2 e Hd Hnull) as (h & Hrem & Hd' & Hdom & Hfr).
  assert (Hobs' : observed (with_cells s h) list (l1 ++ l2) L ol).
  { destruct Hobs as [Hr Hn' Hl Hs]. constructor; cbn; try done.
    - intros Ha. apply Hfr; [by apply Hr|]. by apply Hs.
    - intros Ha x Hx Hin. apply (Hs Ha x Hx). clear -Hin. set_solver. }
  destruct (dlist_edges _ _ _ _ _ Hd) as ([_ Eb] & [Ef _] & _ & _).
  pose proof (lst_elem_of list l1) as Hp. pose proof (succ_of_elem list l2) as Hs.
  erewrite listRemoveEntry_links; [|exact Eb|exact Ef| |];
    [|intros E; rewrite E in Hp; clear -Hn Hp; set_solver
     |intros E; rewrite E in Hs; clear -Hn Hs; set_solver].
  rewrite Hrem. cbn. rewrite (notify_observed select_fn _ _ _ L ol) by done. cbn.
  unfold add_numEnts. cbn. rewrite HL. cbn. eexists. split; [reflexivity|].
  split; [|split; [by destruct Hobs'; constructor|]].
  - constructor; cbn; [by rewrite lookup_insert_eq|done| |].
    + clear -Hn. set_solver.
    + rewrite Hc, !length_app. simpl. lia.
  - repeat split; cbn; [done|]. intros k Hk. by rewrite lookup_insert_ne.
Qed.

(** *** Destruction *)

Lemma dlist_delete h head l e :
  dlist h head l -> e ∉ head :: l -> dlist (delete e h) head l.
Proof.
  intros Hd He. apply (dlist_frame h _ head l {[e]}); [done| |].
  - intros x Hx. assert (x <> e) by (intros ->; done). set_solver.
  - intros x Hx. unfold get_fw, get_bk. rewrite lookup_delete_ne; [done|set_solver].
Qed.

Definition destroy_calls (d : destroy_fn) (e : Z) : Datatypes.list list_call :=
  match d with DestroyUser fn => [CallDestroy fn e] | _ => [] end.

Lemma destroy_entry_ok d s list l L ol e :
  list_ok s list l L -> observed s list l L ol -> e ∉ list :: l ->
  (allowObservers L = true -> e ∉ observers L :: ol) ->
  list_ok (destroy_entry d s e) list l L /\ observed (destroy_entry d s e) list l L ol /\
  calls (destroy_entry d s e) = calls s ++ destroy_calls d e /\
  lists (destroy_entry d s e) = lists s.
Proof.
  intros [HL Hd Hn Hc] [Hr Hno Hl Hs] He Heo.
  assert (Hring : allowObservers L = true -> dlist (delete e (cells s)) (observers L) ol).
  { intros Ha. apply dlist_delete; auto. }
  assert (Hlive : allowObservers L = true -> forall o, o ∈ ol ->
            is_Some (delete e (obs s) !! o)).
  { intros Ha o Ho. rewrite lookup_delete_ne; [by apply Hl|]. intros ->.
    apply (Heo Ha). set_solver. }
  destruct d; cbn; (split; [constructor|split; [constructor|]]); cbn;
    rewrite ?app_nil_r; auto using dlist_delete.
Qed.

Lemma list_ok_front s list e l L : list_ok s list (e :: l) L -> get_fw (cells s) list = Some e.
Proof. intros [_ Hd _ _]. by rewrite (ring_get_fw _ _ _ Hd). Qed.

(** The callbacks of a drain: for every entry, the observers, then the
    destructor. *)
Definition drain_calls (s : lstate) (d : destroy_fn) (list : Z) (L : LIST_T)
    (ol l : Datatypes.list Z) : Datatypes.list list_call :=
  l ≫= fun e => (if allowObservers L
                 then deliveries select_fn s list (ListEvent LIST_EVENT_LEAVE e) ol
                 else []) ++ destroy_calls d e.

Lemma deliveries_live s s' list ev ol :
  (forall o, o ∈ ol -> obs s' !! o = obs s !! o) ->
  deliveries select_fn s' list ev ol = deliveries select_fn s list ev ol.
Proof.
  unfold deliveries. induction ol as [|o ol IH]; intros Ho; [done|]. cbn.
  rewrite Ho by set_solver. f_equal. apply IH. set_solver.
Qed.

Lemma destroy_entry_obs d s e o : o <> e -> obs (destroy_entry d s e) !! o = obs s !! o.
Proof. intros. destruct d; cbn; [done| |done]. by rewrite lookup_delete_ne. Qed.

Lemma drain_ok d fuel s list l L ol :
  list_ok s list l L -> observed s list l L ol -> (length l < fuel)%nat ->
  exists s', drain select_fn fuel d s list = Some s' /\
    list_ok s' list [] (bump L (- Z.of_nat (length l))) /\
    observed s' list [] (bump L (- Z.of_nat (length l))) ol /\
    calls s' = calls s ++ drain_calls s d list L ol l /\
    (forall k, k <> list -> lists s' !! k = lists s !! k) /\
    (allowObservers L = true -> forall o, o ∈ ol -> obs s' !! o = obs s !! o).
Proof.
  revert s l L. induction fuel as [|n IH]; intros s l L Hok Hobs Hf; [lia|].
  cbn [drain]. rewrite (ring_empty _ _ l (ok_ring _ _ _ _ Hok)). cbn.
  destruct l as [|e l]; cbn.
  { exists s. unfold bump. rewrite Z.add_0_r. unfold drain_calls. cbn.
    rewrite app_nil_r. destruct L; auto 10. }
  rewrite (list_ok_front _ _ _ _ _ Hok). cbn.
  destruct (remove_ok s list [] l L ol e Hok Hobs)
    as (s1 & Hrem & Hok1 & Hobs1 & Hc1 & Ho1 & _ & Hl1).
  rewrite Hrem. cbn. simpl in Hok1, Hobs1.
  assert (He : e ∉ list :: l).
  { destruct Hok as [_ [Hnd _] _ _]. apply NoDup_cons in Hnd as [Hh Hnd].
    apply NoDup_cons in Hnd as [Hx _]. clear -Hh Hx. set_solver. }
  assert (Heo : allowObservers L = true -> e ∉ observers L :: ol).
  { intros Ha Hin. apply (obd_sep _ _ _ _ _ Hobs Ha e Hin). clear. set_solver. }
  destruct (destroy_entry_ok d s1 list l (bump L (-1)) ol e Hok1 Hobs1 He Heo)
    as (Hok2 & Hobs2 & Hc2 & Hl2).
  destruct (IH _ _ _ Hok2 Hobs2) as (s' & Hdr & Hok' & Hobs' & Hc' & Hl' & Ho');
    [simpl in Hf; lia|].
  assert (Hbump : bump (bump L (-1)) (- Z.of_nat (length l))
                  = bump L (- Z.of_nat (S (length l)))).
  { unfold bump. cbn. f_equal. lia. }
  rewrite Hbump in Hok', Hobs'.
  assert (Hsame : allowObservers L = true -> forall o, o ∈ ol ->
            obs (destroy_entry d s1 e) !! o = obs s !! o).
  { intros Ha o Hol. rewrite destroy_entry_obs; [by rewrite Ho1|]. intros ->.
    apply (Heo Ha). clear -Hol. set_solver. }
  exists s'. split; [done|]. split; [done|]. split; [done|]. split; [|split].
  - rewrite Hc', Hc2, Hc1, <- !app_assoc. f_equal. unfold drain_calls. cbn.
    f_equal. f_equal. apply list_bind_ext; [|done]. intros x.
    destruct (allowObservers L) eqn:Ha; [|done]. f_equal. by apply deliveries_live, Hsame.
  - intros k Hk. rewrite Hl', Hl2, Hl1; done.
  - intros Ha o Hol. rewrite Ho' by done. by apply Hsame.
Qed.

End Operations.

(** ** Traversals *)

Lemma traverse_ring {A} s list l (body : A -> Z -> option (A * bool)) acc direction :
  dlist (cells s) list l -> NULL ∉ list :: l ->
  (direction = 0 \/ direction = LIST_TRAVERSE_FORWARD -> 
     traverse s list direction body acc = fold_stop body acc l) /\
  (direction = LIST_TRAVERSE_BACKWARD ->
     traverse s list direction body acc = fold_stop body acc (rev l)).
Proof.
  intros Hd Hn. pose proof (dlist_hd _ _ _ Hd) as Hh. pose proof (dlist_length _ _ _ Hd) as Hlen.
  assert (Hrn : NULL ∉ list :: rev l).
  { rewrite not_elem_of_cons, list_elem_of_In, <- in_rev, <- list_elem_of_In.
    by rewrite <- not_elem_of_cons. }
  assert (Hrh : list ∉ rev l).
  { by rewrite list_elem_of_In, <- in_rev, <- list_elem_of_In. }
  split.
  - intros [-> | ->]; unfold traverse, LIST_TRAVERSE_FORWARD, LIST_TRAVERSE_BACKWARD; cbn;
    rewrite (ring_attach _ _ _ Hd); cbn; eval_land; cbn; rewrite cur_of_iter by done;
    (apply (for_entries_ring (fun _ => True) _ l _ _ Hn Hh) with (l1 := []);
      [ intros _ l1 e l2 _ Heq; by apply (next_step s _ l l1)
      | done | done | done | unfold loop_fuel; lia ]).
  - intros ->. unfold traverse, LIST_TRAVERSE_FORWARD, LIST_TRAVERSE_BACKWARD. cbn.
    rewrite (ring_attach _ _ _ Hd). cbn. eval_land. cbn.
    assert (Hback : listGetBackEntry s list
              = Some (if bool_decide (l = []) then NULL else succ_of list (rev l))).
    { unfold listGetBackEntry. rewrite (ring_empty _ _ _ Hd). cbn.
      case_bool_decide; [done|]. by rewrite (ring_get_bk _ _ _ Hd), lst_rev. }
    rewrite Hback. cbn. case_bool_decide as Hl.
    + subst l. unfold listIteratorGetCurEntry. cbn [curEnt it_list].
      replace (if NULL =? list then NULL else NULL) with NULL by (by destruct (NULL =? list)).
      done.
    + rewrite cur_of_iter by done.
      apply (for_entries_ring (fun _ => True) _ (rev l) _ _ Hrn Hrh) with (l1 := []);
        [ intros _ l1 e l2 _ Heq; by apply (prev_step s _ l l1)
        | done | done | done | unfold loop_fuel; rewrite length_rev; lia ].
Qed.

(** The vector with [l] stored from index [k] on. *)
Fixpoint store_from (k : Z) (l : list Z) (v : gmap Z Z) : gmap Z Z :=
  match l with [] => v | e :: l => store_from (k + 1) l (<[k := e]> v) end.

Lemma store_from_lookup k l v i :
  store_from k l v !! i =
  if bool_decide (k <= i < k + Z.of_nat (length l)) then l !! Z.to_nat (i - k) else v !! i.
Proof.
  revert k v. induction l as [|e l IH]; intros k v; cbn [store_from].
  - rewrite bool_decide_false; [done|simpl; lia].
  - rewrite IH. simpl length. repeat case_bool_decide; try lia.
    + replace (Z.to_nat (i - k)) with (S (Z.to_nat (i - (k + 1)))) by lia. done.
    + assert (i = k) as -> by lia. by rewrite lookup_insert_eq, Z.sub_diag.
    + rewrite lookup_insert_ne; [done|lia].
Qed.

Lemma vector_fold l v k :
  fold_stop (fun '(v, entIdx) entry => Some ((<[entIdx := entry]> v, entIdx + 1), false))
    (v, k) l = Some (store_from k l v, k + Z.of_nat (length l)).
Proof.
  revert v k. induction l as [|e l IH]; intros v k; cbn [fold_stop store_from].
  - by rewrite Z.add_0_r.
  - cbn. rewrite IH. do 2 f_equal. lia.
Qed.

Lemma search_fold (equal : Z -> bool) l :
  fold_stop (fun _ ent => if equal ent then Some (ent, true) else Some (NULL, false)) NULL l
  = Some (default NULL (snd <$> list_find (fun e => equal e = true) l)).
Proof.
  induction l as [|e l IH]; [done|]. cbn.
  destruct (equal e) eqn:E; cbn.
  - by rewrite decide_True.
  - rewrite decide_False by done. rewrite IH.
    by destruct (list_find _ l) as [[??]|].
Qed.

(** * Properties *)

(** An observed list built by the operations themselves: header 10 with the
    entries 20 and 30, observer list 40 with the observer 50, whose callbacks
    are 7 and 8, and a spare cell 60. *)
Definition sample_select : Z -> Z -> LIST_EVENT_T -> bool := fun _ _ _ => true.

Definition sample_state : lstate :=
  default (LState ∅ ∅ ∅ [] 0) (
    let '(_, s) := listCreate (LState ∅ ∅ ∅ [] 0) 10 "jobs" in
    '(_, s) ← listAllowObservers s 10 40;
    let '(_, s) := listObserverCreate s 50 "watch" 99 5
                     [(LIST_EVENT_ENTER, 7); (LIST_EVENT_LEAVE, 8)] in
    '(_, s) ← listObserverAttach sample_select s 50 10;
    let s := with_cells s (<[20 := Links NULL NULL]> (<[30 := Links NULL NULL]>
               (<[60 := Links NULL NULL]> (cells s)))) in
    '(_, s) ← listInsertEntryAtBack sample_select s 10 30;
    '(_, s) ← listInsertEntryAtFront sample_select s 10 20;
    Some (with_calls s [])).

Definition sample_list : LIST_T := List_ "jobs" 2 true 40.

(** Discharge a closed well-formedness goal by evaluation. *)
Ltac eval_closed :=
  repeat match goal with
  | |- dlist _ _ _ => split
  | |- list_ok _ _ _ _ => constructor
  | |- observed _ _ _ _ _ => constructor; intros _
  | |- NoDup _ => apply (bool_decide_unpack _); vm_compute; exact I
  | |- path _ _ _ => repeat split; vm_compute; reflexivity
  | |- _ ∉ _ => apply (bool_decide_unpack _); vm_compute; exact I
  | |- _ ∈ _ => apply (bool_decide_unpack _); vm_compute; exact I
  | |- forall x, x ∈ ?l -> is_Some _ => intros x Hx; repeat (apply elem_of_cons in Hx as [->|Hx]; [eexists; vm_compute; reflexivity|]); by apply elem_of_nil in Hx
  | |- forall x, x ∈ ?l -> x ∉ _ => apply Forall_forall, (bool_decide_unpack _); vm_compute; exact I
  | |- _ <> _ => done
  | |- _ = _ => vm_compute; reflexivity
  end.

(** Insertion before any position links the entry there, counts it, leaves the
    other headers alone and tells exactly the observers that select the event,
    in order; it never dereferences a dead cell.  *)
Theorem listInsertEntryBefore_correct select_fn s list l1 l2 L ol e :
  list_ok s list (l1 ++ l2) L -> observed s list (l1 ++ l2) L ol ->
  e ∈ dom (cells s) -> e ∉ list :: l1 ++ l2 -> e <> NULL ->
  (allowObservers L = true -> e ∉ observers L :: ol) ->
  exists s', listInsertEntryBefore select_fn s list (succ_of list l2) e = Some (0, s') /\
    list_ok s' list (l1 ++ e :: l2) (bump L 1) /\
    observed s' list (l1 ++ e :: l2) (bump L 1) ol /\
    calls s' = calls s ++ (if allowObservers L
      then deliveries select_fn s list (ListEvent LIST_EVENT_ENTER e) ol else []) /\
    obs s' = obs s /\ dom (cells s') = dom (cells s) /\
    (forall k, k <> list -> lists s' !! k = lists s !! k).
Proof. apply insert_ok. Qed.

Lemma listInsertEntryBefore_correct_witness :
  exists s', listInsertEntryBefore sample_select sample_state 10 30 60 = Some (0, s') /\
    list_ok s' 10 [20; 60; 30] (bump sample_list 1) /\
    calls s' = [CallEnter 7 10 99 (ListEvent LIST_EVENT_ENTER 60)].
Proof.
  destruct (listInsertEntryBefore_correct sample_select sample_state 10 [20] [30]
              sample_list [50] 60) as (s' & H1 & H2 & _ & H3 & _);
    [eval_closed|eval_closed|eval_closed|eval_closed|done|intros _; eval_closed|].
  exists s'. split; [exact H1|]. split; [exact H2|]. rewrite H3. vm_compute. reflexivity.
Defined.

(** Removing an entry that a list holds unlinks it, counts it off and tells the
    observers.  *)
Theorem listRemoveEntry_correct select_fn s list l1 l2 L ol e :
  list_ok s list (l1 ++ e :: l2) L -> observed s list (l1 ++ e :: l2) L ol ->
  exists s', listRemoveEntry select_fn s list e = Some s' /\
    list_ok s' list (l1 ++ l2) (bump L (-1)) /\
    observed s' list (l1 ++ l2) (bump L (-1)) ol /\
    calls s' = calls s ++ (if allowObservers L
      then deliveries select_fn s list (ListEvent LIST_EVENT_LEAVE e) ol else []) /\
    obs s' = obs s /\ dom (cells s') = dom (cells s) /\
    (forall k, k <> list -> lists s' !! k = lists s !! k).
Proof. apply remove_ok. Qed.

Lemma listRemoveEntry_correct_witness :
  exists s', listRemoveEntry sample_select sample_state 10 20 = Some s' /\
    list_ok s' 10 [30] (bump sample_list (-1)) /\
    calls s' = [CallLeave 8 10 99 (ListEvent LIST_EVENT_LEAVE 20)].
Proof.
  destruct (listRemoveEntry_correct sample_select sample_state 10 [] [30] sample_list [50] 20)
    as (s' & H1 & H2 & _ & H3 & _); [eval_closed|eval_closed|].
  exists s'. split; [exact H1|]. split; [exact H2|]. rewrite H3. vm_compute. reflexivity.
Defined.

(** [list2Vector] writes the entries at the indices 0, 1, ... of the vector, in
    ring order forwards and in reverse order backwards, and touches no other
    index.  *)
Theorem list2Vector_correct s list l direction v :
  dlist (cells s) list l -> NULL ∉ list :: l ->
  direction = LIST_TRAVERSE_FORWARD \/ direction = LIST_TRAVERSE_BACKWARD ->
  exists v', list2Vector s list direction None v = Some v' /\
    forall i, v' !! i =
      if bool_decide (0 <= i < Z.of_nat (length l))
      then (if direction =? LIST_TRAVERSE_FORWARD then l else rev l) !! Z.to_nat i
      else v !! i.
Proof.
  intros Hd Hn Hdir. unfold list2Vector.
  destruct (traverse_ring s list l
    (fun '(v, entIdx) entry => Some ((<[entIdx := entry]> v, entIdx + 1), false)) (v, 0)
    direction Hd Hn) as [Hfw Hbw].
  destruct Hdir as [-> | ->].
  - rewrite Hfw, vector_fold by auto. exists (store_from 0 l v). split; [reflexivity|]. intros i.
    rewrite store_from_lookup. by rewrite Z.sub_0_r.
  - rewrite Hbw, vector_fold by auto. exists (store_from 0 (rev l) v).
    split; [reflexivity|]. intros i.
    rewrite store_from_lookup, length_rev. by rewrite Z.sub_0_r.
Qed.

Lemma list2Vector_correct_witness :
  exists v', list2Vector sample_state 10 LIST_TRAVERSE_BACKWARD None ∅ = Some v' /\
    forall i, v' !! i = if bool_decide (0 <= i < Z.of_nat (length [20; 30]))
                        then rev [20; 30] !! Z.to_nat i else (∅ : gmap Z Z) !! i.
Proof.
  apply (list2Vector_correct sample_state 10 [20; 30] LIST_TRAVERSE_BACKWARD ∅);
    [eval_closed|eval_closed|right; reflexivity].
Defined.

(** [listSearchEntry] returns the first entry of the ring that the equality
    function accepts, and [NULL] when there is none.  *)
Theorem listSearchEntry_correct s list l equal :
  dlist (cells s) list l -> NULL ∉ list :: l ->
  listSearchEntry s list equal
  = Some (default NULL (snd <$> list_find (fun e => equal e = true) l)).
Proof.
  intros Hd Hn. rewrite <- search_fold. unfold listSearchEntry.
  pose proof (dlist_hd _ _ _ Hd) as Hh. pose proof (dlist_length _ _ _ Hd).
  rewrite (ring_attach _ _ _ Hd). cbn. rewrite cur_of_iter by done.
  apply (for_entries_ring (fun _ => True) _ l _ _ Hn Hh) with (l1 := []);
    [ intros _ l1 e l2 _ Heq; by apply (next_step s _ l l1)
    | done | done | done | unfold loop_fuel; lia ].
Qed.

Lemma listSearchEntry_correct_witness :
  listSearchEntry sample_state 10 (fun e => 25 <? e) = Some 30.
Proof.
  rewrite (listSearchEntry_correct sample_state 10 [20; 30] (fun e => 25 <? e));
    [vm_compute; reflexivity|eval_closed|eval_closed].
Defined.

Lemma cat_fold bufferSize (catFunc : Z -> option string) l buffer curSize :
  1 <= bufferSize < 2 ^ 31 -> Z.of_nat (String.length buffer) = curSize ->
  curSize <= bufferSize - 1 ->
  (forall e str, e ∈ l -> catFunc e = Some str -> Z.of_nat (String.length str) < 2 ^ 62) ->
  exists b n, fold_stop (cat_body bufferSize catFunc) (buffer, curSize) l = Some (b, n) /\
    Z.of_nat (String.length b) <= bufferSize - 1.
Proof.
  intros Hb. revert buffer curSize. induction l as [|e l IH]; intros buffer curSize Hl Hc Hs.
  - exists buffer, curSize. split; [done|lia].
  - assert (Hl' : forall e str, e ∈ l -> catFunc e = Some str ->
              Z.of_nat (String.length str) < 2 ^ 62) by set_solver.
    cbn [fold_stop].
    destruct (catFunc e) as [str|] eqn:E.
    + pose proof (Hs e str ltac:(set_solver) E) as Hstr.
      assert (B : cat_body bufferSize catFunc (buffer, curSize) e =
                  if bufferSize - 1 <? curSize + Z.of_nat (String.length str)
                  then Some (buffer, curSize, true)
                  else Some ((buffer ++ str)%string, curSize + Z.of_nat (String.length str), false)).
      { unfold cat_body, u64. rewrite E. cbn. rewrite !Z.mod_small by lia.
        case_test; [done|]. by rewrite i32_small by lia. }
      rewrite B. case_test; cbn; [exists buffer, curSize; split; [done|lia]|].
      apply IH; [|lia|done]. rewrite string_length_app, Nat2Z.inj_add. lia.
    + assert (B : cat_body bufferSize catFunc (buffer, curSize) e = Some (buffer, curSize, false))
        by (unfold cat_body; by rewrite E).
      rewrite B. by apply IH.
Qed.

(** With a buffer of at least one byte, the string [listCat] leaves in it
    (terminator included) fits.  *)
Theorem listCat_fits s list l direction bufferSize catFunc :
  dlist (cells s) list l -> NULL ∉ list :: l -> 1 <= bufferSize < 2 ^ 31 ->
  direction = LIST_TRAVERSE_FORWARD \/ direction = LIST_TRAVERSE_BACKWARD ->
  (forall e str, e ∈ l -> catFunc e = Some str -> Z.of_nat (String.length str) < 2 ^ 62) ->
  exists b, listCat s list direction bufferSize catFunc = Some b /\
    Z.of_nat (String.length b) + 1 <= bufferSize.
Proof.
  intros Hd Hn Hb Hdir Hs. unfold listCat.
  match goal with |- context [traverse s list direction ?f ?a] =>
    destruct (traverse_ring s list l f a direction Hd Hn) as [Hfw Hbw] end.
  destruct Hdir as [-> | ->].
  - rewrite Hfw by auto.
    destruct (cat_fold bufferSize catFunc l "" 0) as (b & n & -> & Hlen); auto; [cbn; lia|].
    exists b. split; [done|lia].
  - rewrite Hbw by auto.
    destruct (cat_fold bufferSize catFunc (rev l) "" 0) as (b & n & -> & Hlen); auto;
      [cbn; lia| |exists b; split; [done|lia]].
    intros e str He. apply Hs. apply list_elem_of_In, in_rev. by apply list_elem_of_In.
Qed.

Lemma listCat_fits_witness :
  exists b, listCat sample_state 10 LIST_TRAVERSE_FORWARD 4 (fun _ => Some "ab"%string) = Some b /\
    Z.of_nat (String.length b) + 1 <= 4.
Proof.
  apply (listCat_fits sample_state 10 [20; 30]);
    [eval_closed|eval_closed|lia|left; reflexivity|].
  intros e str _ [= <-]. vm_compute. reflexivity.
Defined.

(** Destroying a list drains it in ring order (observers told, then the
    destructor run, for each entry), frees its header and reports every entry
    to the destructor exactly once.  It terminates within the size of the
    heap.  *)
Theorem listDestroy_correct select_fn s list l L fn :
  list_ok s list l L -> allowObservers L = false ->
  exists s', listDestroy select_fn 1 s list (DestroyUser fn) = Some s' /\
    lists s' !! list = None /\ cells s' !! list = None /\
    calls s' = calls s ++ (CallDestroy fn <$> l) /\
    (forall k, k <> list -> lists s' !! k = lists s !! k).
Proof.
  intros Hok Ha.
  assert (Hobs : observed s list l L []) by (constructor; rewrite Ha; done).
  destruct (drain_ok select_fn (DestroyUser fn) (loop_fuel s) s list l L [] Hok Hobs)
    as (s1 & Hdr & Hok1 & _ & Hc & Hl & _).
  { pose proof (dlist_length _ _ _ (ok_ring _ _ _ _ Hok)). unfold loop_fuel. lia. }
  cbn [listDestroy]. rewrite Hdr. cbn. rewrite (ok_hdr _ _ _ _ Hok1). cbn. rewrite Ha. cbn.
  eexists. split; [reflexivity|]. cbn. rewrite !lookup_delete_eq. split; [done|].
  split; [done|]. split.
  - rewrite Hc. f_equal. unfold drain_calls. rewrite Ha. clear.
    induction l as [|e l IH]; [done|]. cbn. by f_equal.
  - intros k Hk. rewrite lookup_delete_ne by done. by apply Hl.
Qed.

Definition plain_state : lstate :=
  LState {[ 10 := Links 20 30; 20 := Links 30 10; 30 := Links 10 20 ]}
    {[ 10 := List_ "plain" 2 false NULL ]} ∅ [] 0.

Lemma listDestroy_correct_witness :
  exists s', listDestroy sample_select 1 plain_state 10 (DestroyUser 4) = Some s' /\
    lists s' !! 10 = None /\ cells s' !! 10 = None /\
    calls s' = [CallDestroy 4 20; CallDestroy 4 30] /\
    (forall k, k <> 10 -> lists s' !! k = lists plain_state !! k).
Proof.
  apply (listDestroy_correct sample_select plain_state 10 [20; 30] (List_ "plain" 2 false NULL) 4);
    [eval_closed|reflexivity].
Defined.

(** Detaching an attached observer takes its cell off the observers' ring, but
    removes it in the name of the observed list: it is the observed list whose
    entry count drops and whose remaining observers are told that the
    observer left, while the observers' list keeps its count.  *)
Theorem listObserverDetach_miscounts select_fn s list l L o1 o o2 LO ob :
  list_ok s list l L -> allowObservers L = true -> observers L <> list ->
  list_ok s (observers L) (o1 ++ o :: o2) LO -> observed s list l L (o1 ++ o :: o2) ->
  obs s !! o = Some ob -> ob_list ob = list ->
  exists s', listObserverDetach select_fn s o list = Some s' /\
    dlist (cells s') (observers L) (o1 ++ o2) /\
    lists s' !! list = Some (bump L (-1)) /\ lists s' !! observers L = Some LO /\
    calls s' = calls s ++ deliveries select_fn s list (ListEvent LIST_EVENT_LEAVE o) (o1 ++ o2).
Proof.
  intros Hok Ha Hne HokO Hobs Ho Hol.
  pose proof Hok as [HL Hd Hn Hc]. pose proof HokO as [HLO HdO HnO _].
  assert (Hnull : o <> NULL) by (clear -HnO; set_solver).
  destruct (ring_rem (cells s) (observers L) o1 o2 o HdO Hnull) as (h & Hrem & Hd' & _ & _).
  destruct (dlist_edges _ _ _ _ _ HdO) as ([_ Eb] & [Ef _] & _ & _).
  pose proof (lst_elem_of (observers L) o1) as Hp.
  pose proof (succ_of_elem (observers L) o2) as Hs.
  unfold listObserverDetach. rewrite Ho. cbn. rewrite Hol.
  rewrite (proj2 (Z.eqb_neq list NULL)) by (clear -Hn; set_solver).
  erewrite listRemoveEntry_links; [|exact Eb|exact Ef| |];
    [|intros E; rewrite E in Hp; clear -HnO Hp; set_solver
     |intros E; rewrite E in Hs; clear -HnO Hs; set_solver].
  rewrite Hrem. cbn.
  assert (Hobs' : observed (with_cells s h) list [] L (o1 ++ o2)).
  { destruct Hobs as [_ _ Hl Hsep]. constructor; cbn; intros _; [done| | |].
    - clear -HnO. set_solver.
    - intros x Hx. apply (Hl Ha). clear -Hx. set_solver.
    - intros x Hx Hin. assert (x = list) as -> by (clear -Hin; set_solver).
      apply (Hsep Ha list); clear -Hx; set_solver. }
  rewrite (notify_observed select_fn _ _ [] L (o1 ++ o2)) by done. cbn.
  unfold add_numEnts. cbn. rewrite HL. cbn. unfold set_ob_list. cbn. rewrite Ho. cbn.
  eexists. split; [reflexivity|]. cbn. rewrite Ha. split; [done|].
  rewrite lookup_insert_eq, lookup_insert_ne by done.
  split; [unfold bump; by rewrite Ha|]. split; [exact HLO|reflexivity].
Qed.

Lemma listObserverDetach_miscounts_witness :
  exists s', listObserverDetach sample_select sample_state 50 10 = Some s' /\
    dlist (cells s') 40 [] /\
    lists s' !! 10 = Some (List_ "jobs" 1 true 40) /\
    lists s' !! 40 = Some (List_ "Observer list" 1 false NULL) /\
    calls s' = [].
Proof.
  apply (listObserverDetach_miscounts sample_select sample_state 10 [20; 30] sample_list
           [] 50 [] (List_ "Observer list" 1 false NULL) (ListObserver "watch" 10 99 5 7 8));
    [eval_closed|reflexivity|done|eval_closed|eval_closed|vm_compute; reflexivity|reflexivity].
Defined.

(** A validated [listIteratorSetCurEntry] accepts exactly the entries of a
    non-empty list and otherwise keeps the iterator and sets [listerrno]; on an
    empty list it dereferences the null pointer [listGetFrontEntry] returned
    (unless asked for the null entry).  *)
Theorem listIteratorSetCurEntry_validated s list l cur entry :
  dlist (cells s) list l -> NULL ∉ list :: l -> cells s !! NULL = None -> entry <> NULL ->
  listIteratorSetCurEntry s (ListIterator list cur) entry true
  = if bool_decide (l = []) then None
    else if bool_decide (entry ∈ l) then Some (0, ListIterator list entry, s)
    else Some (-1, ListIterator list cur, with_errno s LIST_ERR_BADARG).
Proof.
  intros Hd Hn Hz He. pose proof (dlist_hd _ _ _ Hd) as Hh.
  pose proof (dlist_length _ _ _ Hd). cbn. unfold listGetFrontEntry.
  rewrite (ring_empty _ _ _ Hd). cbn. rewrite (ring_get_fw _ _ _ Hd).
  case_bool_decide as Hl; cbn.
  - assert (Hlist : NULL <> list) by (clear -Hn; set_solver).
    unfold loop_fuel, listIteratorGetCurEntry. cbn [for_not_end].
    unfold listIteratorIsEndOfList. cbn [curEnt it_list].
    rewrite !(proj2 (Z.eqb_neq _ _) Hlist).
    rewrite (proj2 (Z.eqb_neq NULL entry)) by done. cbn.
    unfold listIteratorNext, get_fw. cbn. by rewrite Hz.
  - rewrite cur_of_iter by done.
    erewrite (for_not_end_ring (fun _ => True) _ l _ _ Hn Hh) with (l1 := []);
      [ | intros _ l1 e l2 _ Heq; by apply (next_step s _ l l1)
      | done | done | done | unfold loop_fuel; lia ].
    replace (fold_stop _ false l) with (Some (bool_decide (entry ∈ l))).
    { cbn. by case_bool_decide. }
    clear. induction l as [|e l IH]; [done|]. cbn. case_test; cbn.
    + subst. rewrite bool_decide_true; [done|set_solver].
    + rewrite <- IH. f_equal. apply bool_decide_ext. set_solver.
Qed.

Lemma listIteratorSetCurEntry_validated_witness :
  listIteratorSetCurEntry sample_state (ListIterator 10 20) 30 true
  = Some (0, ListIterator 10 30, sample_state).
Proof.
  rewrite (listIteratorSetCurEntry_validated sample_state 10 [20; 30] 20 30);
    [vm_compute; reflexivity|eval_closed|eval_closed|vm_compute; reflexivity|done].
Defined.
