(* ===== verification/HashTab.v ===== *)
(** * The hash table, [lsf/lib/lib.table.c]

    A table is an array of rings of entries keyed by C strings.  A slot is
    modelled by the addresses of its entries in the order of a [bwPtr] walk
    from the slot's header, the only order the code walks in: by [table_ring]
    of [Links.v], [insList_(e, slot)] puts [e] first in that order and
    [remList_(e)] takes [e] out of the ring it is on.  [slotPtr] is [None] when
    the pointer is null.  Entries live in a heap [ents]; [freed] lists the data
    pointers handed to [free] or to the caller's function.  An allocation's
    address is an argument. *)

From S2P Require Import Prelude Links.
From Stdlib Require Import Ascii Sorted.

(** ** Data *)

Record hEnt := HEnt { keyname : string; hData : Z }.

Record hTab := HTab { slotPtr : option (list (list Z)); numEnts : Z; size : Z }.

Record hstate := HState { ents : gmap Z hEnt; freed : list Z }.

(** A pointer of the iterator: null, an entry, or the header of slot [i]. *)
Inductive hptr := HNull | HEntry (p : Z) | HSlot (i : nat).

#[export] Instance hptr_eq_dec : EqDecision hptr.
Proof. solve_decision. Defined.

Record sTab := STab { nIndex : Z; hEntPtr : hptr; hList : hptr }.

Definition RESETFACTOR : Z := 2.

Definition primes : list Z :=
  [101; 1009; 5009; 10007; 20011; 50021; 100003; 200003; 500009; 1030637].

(** ** Sizes and slots *)

Fixpoint closest_prime (x : Z) (ps : list Z) : option Z :=
  match ps with
  | [] => None
  | p :: ps => if x <? p then Some p else closest_prime x ps
  end.

Definition getClosestPrime (x : Z) : Z :=
  default 1030637 (closest_prime x primes).

(** The value of a (signed) [char]. *)
Definition schar (c : ascii) : Z :=
  let n := Z.of_nat (nat_of_ascii c) in if n <? 128 then n else n - 256.

Fixpoint addr_loop (size ha : Z) (key : string) : Z :=
  match key with
  | EmptyString => ha
  | String c key => addr_loop size (u32 (u32 (ha * 128) + u32 (schar c)) mod u32 size) key
  end.

Definition getAddr (size : Z) (key : string) : Z := addr_loop size 0 key.

Definition h_initTab_ (numSlots : Z) : hTab :=
  let sz := getClosestPrime numSlots in
  HTab (Some (replicate (Z.to_nat sz) [])) 0 sz.

(** [insList_(e, &slotPtr[i])] and [remList_(e)] on the array of slots. *)
Definition ins_slot (i : Z) (e : Z) (slots : list (list Z)) : list (list Z) :=
  alter (cons e) (Z.to_nat i) slots.

Definition rem_slot (e : Z) (slots : list (list Z)) : list (list Z) :=
  filter (fun p => p <> e) <$> slots.

(** ** Operations *)

Fixpoint h_findEnt (m : gmap Z hEnt) (key : string) (slot : list Z) : option Z :=
  match slot with
  | [] => Some NULL
  | p :: slot =>
      e ← m !! p;
      if String.eqb (keyname e) key then Some p else h_findEnt m key slot
  end.

Definition h_TabEmpty_ (tab : hTab) : bool := numEnts tab =? 0.

Definition h_getEnt_ (tab : hTab) (s : hstate) (key : string) : option Z :=
  if numEnts tab =? 0 then Some NULL else
  slots ← slotPtr tab;
  slot ← slots !! Z.to_nat (getAddr (size tab) key);
  h_findEnt (ents s) key slot.

(** [resetTab]'s inner loop on one old slot: pop the entry at [bwPtr], link it
    into the new array, count it. *)
Fixpoint reset_slot (m : gmap Z hEnt) (old : list Z) (tab : hTab) : option hTab :=
  match old with
  | [] => Some tab
  | p :: old =>
      e ← m !! p;
      slots ← slotPtr tab;
      reset_slot m old
        (HTab (Some (ins_slot (getAddr (size tab) (keyname e)) p slots))
           (numEnts tab + 1) (size tab))
  end.

Fixpoint reset_slots (m : gmap Z hEnt) (olds : list (list Z)) (tab : hTab) : option hTab :=
  match olds with
  | [] => Some tab
  | old :: olds => tab ← reset_slot m old tab; reset_slots m olds tab
  end.

Definition resetTab (m : gmap Z hEnt) (tab : hTab) : option hTab :=
  olds ← slotPtr tab;
  reset_slots m olds (h_initTab_ (size tab * RESETFACTOR)).

(** [h_addEnt_]: the entry, whether it is new, the table and the heap.  The
    test [numEnts >= 1.5 * size] is exact in double precision. *)
Definition h_addEnt_ (tab : hTab) (s : hstate) (a : Z) (key : string)
    : option (Z * bool * hTab * hstate) :=
  slots ← slotPtr tab;
  slot ← slots !! Z.to_nat (getAddr (size tab) key);
  p ← h_findEnt (ents s) key slot;
  if negb (p =? NULL) then Some (p, false, tab, s) else
  tab ← (if 3 * size tab <=? 2 * numEnts tab then resetTab (ents s) tab else Some tab);
  slots ← slotPtr tab;
  let s := HState (<[a := HEnt key NULL]> (ents s)) (freed s) in
  Some (a, true,
    HTab (Some (ins_slot (getAddr (size tab) key) a slots)) (numEnts tab + 1) (size tab), s).

(** [h_delEnt_] frees the data with the entry; [h_rmEnt_] and [h_delRef_]
    leave the data to the caller. *)
Definition h_delEnt_ (tab : hTab) (s : hstate) (p : Z) : option (hTab * hstate) :=
  if p =? NULL then Some (tab, s) else
  e ← ents s !! p;
  slots ← slotPtr tab;
  Some (HTab (Some (rem_slot p slots)) (numEnts tab - 1) (size tab),
        HState (delete p (ents s))
          (if hData e =? NULL then freed s else freed s ++ [hData e])).

Definition h_rmEnt_ (tab : hTab) (s : hstate) (p : Z) : option (hTab * hstate) :=
  if p =? NULL then Some (tab, s) else
  e ← ents s !! p;
  slots ← slotPtr tab;
  Some (HTab (Some (rem_slot p slots)) (numEnts tab - 1) (size tab),
        HState (delete p (ents s)) (freed s)).

Definition h_delRef_ (tab : hTab) (s : hstate) (p : Z) : option (hTab * hstate) :=
  if p =? NULL then Some (tab, s) else
  e ← ents s !! p;
  slots ← slotPtr tab;
  Some (HTab (Some (rem_slot p slots)) (numEnts tab - 1) (size tab),
        HState (delete p (ents s)) (freed s)).

(** [h_freeTab_] pops every slot; [with_data] tells it from [h_freeRefTab_]. *)
Fixpoint free_slot (with_data : bool) (slot : list Z) (s : hstate) : option hstate :=
  match slot with
  | [] => Some s
  | p :: slot =>
      e ← ents s !! p;
      free_slot with_data slot
        (HState (delete p (ents s))
           (if negb with_data || (hData e =? NULL) then freed s else freed s ++ [hData e]))
  end.

Fixpoint free_slots (with_data : bool) (slots : list (list Z)) (s : hstate) : option hstate :=
  match slots with
  | [] => Some s
  | slot :: slots => s ← free_slot with_data slot s; free_slots with_data slots s
  end.

Definition h_freeTab_ (tab : hTab) (s : hstate) : option (hTab * hstate) :=
  slots ← slotPtr tab;
  s ← free_slots true slots s;
  Some (HTab None 0 (size tab), s).

Definition h_delTab_ (tab : hTab) (s : hstate) : option (hTab * hstate) := h_freeTab_ tab s.

Definition h_freeRefTab_ (tab : hTab) (s : hstate) : option (hTab * hstate) :=
  slots ← slotPtr tab;
  s ← free_slots false slots s;
  Some (HTab None 0 (size tab), s).

(** ** Iteration *)

(** [p->bwPtr] for an entry of slot [i]: the next one, or the header. *)
Fixpoint bw_in (i : nat) (p : Z) (slot : list Z) : option hptr :=
  match slot with
  | [] => None
  | q :: rest =>
      if q =? p then Some (match rest with [] => HSlot i | r :: _ => HEntry r end)
      else bw_in i p rest
  end.

Fixpoint bwPtr_from (i : nat) (p : Z) (slots : list (list Z)) : option hptr :=
  match slots with
  | [] => None
  | slot :: slots =>
      match bw_in i p slot with Some q => Some q | None => bwPtr_from (S i) p slots end
  end.

(** The scan of [h_nextEnt_] from slot [nIndex] on, over at most [n] slots. *)
Fixpoint scan (n : nat) (slots : list (list Z)) (size nIndex : Z) (hList : hptr)
    : option (hptr * Z * hptr) :=
  match n with
  | O => None
  | S n =>
      if size <=? nIndex then Some (HNull, nIndex, hList) else
      slot ← slots !! Z.to_nat nIndex;
      match slot with
      | [] => scan n slots size (nIndex + 1) hList
      | p :: _ => Some (HEntry p, nIndex + 1, HSlot (Z.to_nat nIndex))
      end
  end.

Definition h_nextEnt_ (tab : hTab) (sp : sTab) : option (Z * sTab) :=
  slots ← slotPtr tab;
  '(cur, idx, hl) ←
    (if bool_decide (hEntPtr sp = HNull) || bool_decide (hEntPtr sp = hList sp)
     then scan (S (length slots)) slots (size tab) (nIndex sp) (hList sp)
     else Some (hEntPtr sp, nIndex sp, hList sp));
  match cur with
  | HEntry p =>
      next ← bwPtr_from 0 p slots;
      Some (p, STab idx next hl)
  | HNull => Some (NULL, STab idx (hEntPtr sp) hl)
  | HSlot _ => None
  end.

Definition h_firstEnt_ (tab : hTab) : option (Z * sTab) :=
  let sp := STab 0 HNull HNull in
  match slotPtr tab with
  | None => Some (NULL, sp)
  | Some _ => h_nextEnt_ tab sp
  end.

(** The loop [for (e = h_firstEnt_(); e; e = h_nextEnt_())]: the entries seen. *)
Fixpoint walk_from (fuel : nat) (tab : hTab) (cur : Z) (sp : sTab) : option (list Z) :=
  match fuel with
  | O => None
  | S n =>
      if cur =? NULL then Some [] else
      '(next, sp) ← h_nextEnt_ tab sp;
      rest ← walk_from n tab next sp;
      Some (cur :: rest)
  end.

Definition for_each_htab_entry (fuel : nat) (tab : hTab) : option (list Z) :=
  '(cur, sp) ← h_firstEnt_ tab; walk_from fuel tab cur sp.

(** * Lemmas *)

(** ** Addresses and sizes *)

Lemma addr_loop_bound size ha key :
  0 < size < 2 ^ 32 -> 0 <= ha < size -> 0 <= addr_loop size ha key < size.
Proof.
  intros Hs. revert ha. induction key as [|c key IH]; intros ha Hha; cbn; [done|].
  apply IH. rewrite (u32_small size) by lia. apply Z.mod_pos_bound. lia.
Qed.

Lemma getAddr_bound size key : 0 < size < 2 ^ 32 -> 0 <= getAddr size key < size.
Proof. intros. apply addr_loop_bound; lia. Qed.

Lemma closest_prime_spec x ps p :
  closest_prime x ps = Some p -> p ∈ ps /\ x < p /\ (forall q, q ∈ ps -> x < q -> Sorted Z.le ps -> p <= q).
Proof.
  induction ps as [|q ps IH]; cbn; [done|]. case_test.
  - intros [= ->]. split; [set_solver|]. split; [done|]. intros r Hr _ Hsort.
    apply elem_of_cons in Hr as [->|Hr]; [lia|].
    apply Sorted_StronglySorted in Hsort; [|intros ???; lia].
    inversion_clear Hsort as [|?? _ Hall]. by apply (proj1 (List.Forall_forall _ _) Hall), list_elem_of_In.
  - intros H. destruct (IH H) as (Hin & Hlt & Hmin). split; [set_solver|]. split; [done|].
    intros r Hr Hxr Hsort. apply elem_of_cons in Hr as [->|Hr]; [lia|].
    apply Hmin; [done|done|]. by inversion Hsort.
Qed.

Lemma getClosestPrime_in x : getClosestPrime x ∈ primes.
Proof.
  unfold getClosestPrime. destruct (closest_prime x primes) as [p|] eqn:E; cbn.
  - by apply closest_prime_spec in E as [? _].
  - unfold primes. set_solver.
Qed.

Lemma primes_bound p : p ∈ primes -> 101 <= p <= 1030637.
Proof. unfold primes. rewrite !elem_of_cons, elem_of_nil. lia. Qed.

(** ** Slots *)

Lemma concat_ins_slot i e slots :
  (Z.to_nat i < length slots)%nat -> concat (ins_slot i e slots) ≡ₚ e :: concat slots.
Proof.
  unfold ins_slot. generalize (Z.to_nat i) as n. intros n.
  revert n. induction slots as [|l slots IH]; intros n Hn; [simpl in Hn; lia|].
  destruct n as [|n]; [done|]. cbn in *. rewrite IH by lia.
  by rewrite Permutation_middle.
Qed.

Lemma concat_rem_slot e slots :
  concat (rem_slot e slots) = filter (fun p => p <> e) (concat slots).
Proof.
  unfold rem_slot. induction slots as [|l slots IH]; [done|].
  rewrite fmap_cons. cbn [concat]. by rewrite filter_app, IH.
Qed.

(** Every entry of a slot is live and hashes to that slot. *)
Definition hashed (size : Z) (m : gmap Z hEnt) (slots : list (list Z)) : Prop :=
  forall i l p, slots !! i = Some l -> p ∈ l ->
  exists e, m !! p = Some e /\ getAddr size (keyname e) = Z.of_nat i.

Definition key_of (m : gmap Z hEnt) (p : Z) : string := default "" (keyname <$> m !! p).

Lemma hashed_ins size m slots p e :
  0 < size < 2 ^ 32 -> hashed size m slots -> m !! p = Some e ->
  hashed size m (ins_slot (getAddr size (keyname e)) p slots).
Proof.
  intros Hs Hh Hp i l q Hi Hq. unfold ins_slot in Hi.
  pose proof (getAddr_bound size (keyname e) Hs).
  destruct (decide (i = Z.to_nat (getAddr size (keyname e)))) as [->|Hne].
  - rewrite list_lookup_alter_eq in Hi.
    destruct (slots !! Z.to_nat _) as [l0|] eqn:E; simplify_eq/=.
    apply elem_of_cons in Hq as [->|Hq]; [exists e; split; [done|lia]|]. by eapply Hh.
  - rewrite list_lookup_alter_ne in Hi by done. by eapply Hh.
Qed.

Lemma hashed_rem size m slots p :
  hashed size m slots -> hashed size (delete p m) (rem_slot p slots).
Proof.
  intros Hh i l q Hi Hq. unfold rem_slot in Hi.
  apply list_lookup_fmap_Some in Hi as (l0 & -> & Hi).
  apply list_elem_of_filter in Hq as [Hne Hq].
  destruct (Hh i l0 q Hi Hq) as (e & He & Ha). exists e.
  by rewrite lookup_delete_ne.
Qed.

Lemma hashed_insert size m slots p e :
  hashed size m slots -> (forall i l, slots !! i = Some l -> p ∉ l) ->
  hashed size (<[p := e]> m) slots.
Proof.
  intros Hh Hp i l q Hi Hq. destruct (Hh i l q Hi Hq) as (e0 & He & Ha).
  exists e0. rewrite lookup_insert_ne; [done|]. intros ->. by eapply Hp.
Qed.

Lemma elem_of_concat (slots : list (list Z)) p :
  p ∈ concat slots <-> exists i l, slots !! i = Some l /\ p ∈ l.
Proof.
  induction slots as [|l slots IH]; cbn.
  - split; [by intros ?%elem_of_nil|]. by intros (i & l & ? & _).
  - rewrite elem_of_app, IH. split.
    + intros [Hp|(i & l' & ? & ?)]; [by exists 0%nat, l|by exists (S i), l'].
    + intros ([|i] & l' & Hi & Hp); simplify_eq/=; eauto.
Qed.

(** ** Well-formed tables *)

Record table_ok (tab : hTab) (m : gmap Z hEnt) (slots : list (list Z)) : Prop := {
  tok_slots : slotPtr tab = Some slots;
  tok_size : size tab ∈ primes;
  tok_len : Z.of_nat (length slots) = size tab;
  tok_hash : hashed (size tab) m slots;
  tok_null : NULL ∉ concat slots;
  tok_keys : NoDup (key_of m <$> concat slots);
  tok_num : numEnts tab = Z.of_nat (length (concat slots)) }.

(** The finite map a table stands for: key to entry. *)
Definition contents (m : gmap Z hEnt) (slots : list (list Z)) : gmap string Z :=
  list_to_map ((fun p => (key_of m p, p)) <$> concat slots).

Lemma contents_lookup tab m slots k p :
  table_ok tab m slots ->
  contents m slots !! k = Some p <-> p ∈ concat slots /\ key_of m p = k.
Proof.
  intros Hok. unfold contents. rewrite <- elem_of_list_to_map.
  - rewrite list_elem_of_fmap. split; [intros (q & ? & ?); by simplify_eq|].
    intros [? <-]. by exists p.
  - rewrite <- list_fmap_compose. apply (tok_keys _ _ _ Hok).
Qed.

Lemma table_size tab m slots : table_ok tab m slots -> 0 < size tab < 2 ^ 32.
Proof. intros Hok. pose proof (primes_bound _ (tok_size _ _ _ Hok)). lia. Qed.
#[export] Hint Resolve table_size : vlc.

Lemma h_findEnt_spec m key slot :
  (forall p, p ∈ slot -> is_Some (m !! p)) ->
  exists p, h_findEnt m key slot = Some p /\
    ((p ∈ slot /\ key_of m p = key) \/
     (p = NULL /\ forall q, q ∈ slot -> key_of m q <> key)).
Proof.
  induction slot as [|q slot IH]; intros Hlive; cbn.
  - exists NULL. split; [done|]. right. split; [done|]. set_solver.
  - destruct (Hlive q) as [e He]; [set_solver|]. rewrite He. cbn.
    assert (Hkey : key_of m q = keyname e) by (unfold key_of; by rewrite He).
    destruct (String.eqb_spec (keyname e) key) as [Hk|Hk].
    + exists q. split; [done|]. left. split; [set_solver|congruence].
    + destruct IH as (p & Hp & Hcase); [set_solver|]. exists p. split; [done|].
      destruct Hcase as [[? ?]|[? Hno]]; [left; set_solver|].
      right. split; [done|]. intros r [->|Hr]%elem_of_cons; [congruence|by apply Hno].
Qed.

Lemma table_find tab m slots key :
  table_ok tab m slots ->
  exists slot, slots !! Z.to_nat (getAddr (size tab) key) = Some slot /\
    h_findEnt m key slot = Some (default NULL (contents m slots !! key)).
Proof.
  intros Hok. pose proof (table_size _ _ _ Hok) as Hsz.
  pose proof (getAddr_bound (size tab) key Hsz) as Hb. pose proof (tok_len _ _ _ Hok) as Hlen.
  destruct (lookup_lt_is_Some_2 slots (Z.to_nat (getAddr (size tab) key))) as [slot Hslot]; [lia|].
  exists slot. split; [done|].
  destruct (h_findEnt_spec m key slot) as (p & -> & Hcase).
  { intros q Hq. destruct (tok_hash _ _ _ Hok _ _ _ Hslot Hq) as (e & -> & _). eauto. }
  f_equal. destruct Hcase as [[Hp Hk]|[-> Hno]].
  - replace (contents m slots !! key) with (Some p); [done|]. symmetry.
    apply (contents_lookup tab); [done|]. split; [|done]. apply elem_of_concat. eauto.
  - destruct (contents m slots !! key) as [q|] eqn:E; [|done]. exfalso.
    apply (contents_lookup tab) in E as [Hq Hk]; [|done].
    apply elem_of_concat in Hq as (i & l & Hi & Hq).
    destruct (tok_hash _ _ _ Hok _ _ _ Hi Hq) as (e & He & Ha).
    assert (Hke : keyname e = key) by (unfold key_of in Hk; by rewrite He in Hk).
    rewrite Hke in Ha. apply (Hno q); [|done].
    replace (Z.to_nat (getAddr (size tab) key)) with i in Hslot by lia. by simplify_eq.
Qed.

(** ** Resizing *)

Lemma reset_slot_ok m old tab slots :
  slotPtr tab = Some slots -> 0 < size tab < 2 ^ 32 -> Z.of_nat (length slots) = size tab ->
  hashed (size tab) m slots -> (forall p, p ∈ old -> is_Some (m !! p)) ->
  exists slots', reset_slot m old tab
      = Some (HTab (Some slots') (numEnts tab + Z.of_nat (length old)) (size tab)) /\
    Z.of_nat (length slots') = size tab /\ hashed (size tab) m slots' /\
    concat slots' ≡ₚ old ++ concat slots.
Proof.
  revert tab slots. induction old as [|p old IH]; intros [sp n sz] slots; cbn.
  - intros -> ????. exists slots. by rewrite Z.add_0_r.
  - intros -> Hsz Hlen Hh Hlive. destruct (Hlive p) as [e He]; [set_solver|].
    rewrite He. cbn. pose proof (getAddr_bound sz (keyname e) Hsz) as Hb.
    destruct (IH (HTab (Some (ins_slot (getAddr sz (keyname e)) p slots)) (n + 1) sz)
                (ins_slot (getAddr sz (keyname e)) p slots)) as (slots' & Hr & Hl & Hh' & Hc);
      cbn; [done|done|unfold ins_slot; by rewrite length_alter|by apply hashed_ins|set_solver|].
    exists slots'. rewrite Hr. split; [do 2 f_equal; cbn; lia|]. split; [done|].
    split; [done|]. rewrite Hc, concat_ins_slot by lia. by rewrite <- Permutation_middle.
Qed.

Lemma reset_slots_ok m olds tab slots :
  slotPtr tab = Some slots -> 0 < size tab < 2 ^ 32 -> Z.of_nat (length slots) = size tab ->
  hashed (size tab) m slots -> (forall p, p ∈ concat olds -> is_Some (m !! p)) ->
  exists slots', reset_slots m olds tab
      = Some (HTab (Some slots') (numEnts tab + Z.of_nat (length (concat olds))) (size tab)) /\
    Z.of_nat (length slots') = size tab /\ hashed (size tab) m slots' /\
    concat slots' ≡ₚ concat olds ++ concat slots.
Proof.
  revert tab slots. induction olds as [|old olds IH]; intros tab slots; cbn.
  - intros Hs ????. exists slots. rewrite Z.add_0_r. destruct tab; simplify_eq/=. done.
  - intros Hs Hsz Hlen Hh Hlive.
    destruct (reset_slot_ok m old tab slots) as (s1 & Hr1 & Hl1 & Hh1 & Hc1); auto; [set_solver|].
    rewrite Hr1. cbn.
    destruct (IH (HTab (Some s1) (numEnts tab + Z.of_nat (length old)) (size tab)) s1)
      as (s2 & Hr2 & Hl2 & Hh2 & Hc2); cbn; auto; [set_solver|].
    exists s2. cbn in Hr2. rewrite Hr2. split; [do 2 f_equal; rewrite length_app; lia|].
    split; [done|]. split; [done|]. rewrite Hc2, Hc1. by rewrite (app_assoc _ old), (Permutation_app_comm _ old).
Qed.

Lemma contents_perm m slots slots' :
  NoDup (key_of m <$> concat slots) -> concat slots' ≡ₚ concat slots ->
  contents m slots' = contents m slots.
Proof.
  intros Hnd Hp. unfold contents. apply list_to_map_proper; [|by rewrite Hp].
  rewrite <- list_fmap_compose. apply (NoDup_Permutation_proper (key_of m <$> concat slots'));
    [done|]. by rewrite Hp.
Qed.

Lemma concat_replicate_nil n : concat (replicate n ([] : list Z)) = [].
Proof. by induction n. Qed.

Lemma resetTab_table_ok tab m slots :
  table_ok tab m slots ->
  exists tab' slots', resetTab m tab = Some tab' /\ table_ok tab' m slots' /\
    concat slots' ≡ₚ concat slots /\ size tab' = getClosestPrime (2 * size tab) /\
    contents m slots' = contents m slots.
Proof.
  intros [Hs Hp Hl Hh Hn Hk Hc].
  unfold resetTab. rewrite Hs. cbn. unfold RESETFACTOR.
  set (sz := getClosestPrime (size tab * 2)).
  assert (Hsz : sz ∈ primes) by apply getClosestPrime_in.
  pose proof (primes_bound _ Hsz) as Hb.
  destruct (reset_slots_ok m slots (h_initTab_ (size tab * 2)) (replicate (Z.to_nat sz) []))
    as (s' & Hr & Hl' & Hh' & Hc');
    [done|change (0 < sz < 2 ^ 32); lia|rewrite length_replicate; change (Z.of_nat (Z.to_nat sz) = sz); lia| | |].
  { intros i l p Hi Hpl. apply lookup_replicate in Hi as [-> _]. set_solver. }
  { intros p (i & l & Hi & Hpl)%elem_of_concat.
    destruct (Hh i l p Hi Hpl) as (e & -> & _). eauto. }
  rewrite concat_replicate_nil, app_nil_r in Hc'.
  eexists _, s'. split; [exact Hr|]. split; [constructor; cbn; fold sz; auto|].
  - by rewrite Hc'.
  - by rewrite Hc'.
  - by rewrite Hc'.
  - split; [done|]. split; [|by apply contents_perm].
    change (sz = getClosestPrime (2 * size tab)). unfold sz. by rewrite Z.mul_comm.
Qed.

(** ** Iteration *)

Definition next_in (i : nat) (rest : list Z) : hptr :=
  match rest with [] => HSlot i | r :: _ => HEntry r end.

Lemma bw_in_spec i p l1 l2 : p ∉ l1 -> bw_in i p (l1 ++ p :: l2) = Some (next_in i l2).
Proof.
  induction l1 as [|q l1 IH]; intros Hp; cbn.
  - by rewrite Z.eqb_refl.
  - rewrite (proj2 (Z.eqb_neq q p)) by set_solver. apply IH. set_solver.
Qed.

Lemma bw_in_None i p l : p ∉ l -> bw_in i p l = None.
Proof.
  induction l as [|q l IH]; intros Hp; cbn; [done|].
  rewrite (proj2 (Z.eqb_neq q p)) by set_solver. apply IH. set_solver.
Qed.

Lemma bwPtr_from_spec k p slots i l1 l2 :
  NoDup (concat slots) -> slots !! i = Some (l1 ++ p :: l2) ->
  bwPtr_from k p slots = Some (next_in (k + i) l2).
Proof.
  revert k i. induction slots as [|l slots IH]; intros k i Hnd Hi; [done|].
  cbn in *. apply NoDup_app in Hnd as (Hl & Hd & Hs). destruct i as [|i]; simplify_eq/=.
  - rewrite Nat.add_0_r, bw_in_spec; [done|]. apply NoDup_app in Hl as (_ & Hd1 & _).
    intros Hp. apply (Hd1 _ Hp). set_solver.
  - rewrite bw_in_None.
    + rewrite (IH (S k) i) by done. f_equal. f_equal. lia.
    + intros Hp. apply (Hd _ Hp). apply elem_of_concat. exists i, (l1 ++ p :: l2). set_solver.
Qed.

Lemma scan_spec n slots idx hl :
  (idx <= length slots)%nat -> (length slots - idx < n)%nat ->
  (concat (drop idx slots) = [] /\
   scan n slots (Z.of_nat (length slots)) (Z.of_nat idx) hl
   = Some (HNull, Z.of_nat (length slots), hl)) \/
  (exists j p l, slots !! j = Some (p :: l) /\
   concat (drop idx slots) = p :: l ++ concat (drop (S j) slots) /\
   scan n slots (Z.of_nat (length slots)) (Z.of_nat idx) hl
   = Some (HEntry p, Z.of_nat (S j), HSlot j)).
Proof.
  revert idx. induction n as [|n IH]; intros idx Hle Hn; [lia|]. cbn [scan].
  case_test.
  - left. rewrite drop_ge by lia. split; [done|]. do 3 f_equal. lia.
  - rewrite Nat2Z.id. destruct (lookup_lt_is_Some_2 slots idx) as [slot Hslot]; [lia|].
    rewrite Hslot. cbn. rewrite (drop_S slots slot idx Hslot). cbn [concat].
    destruct slot as [|p l]; cbn.
    + replace (Z.of_nat idx + 1) with (Z.of_nat (S idx)) by lia. apply IH; lia.
    + right. exists idx, p, l. split; [done|]. split; [done|]. do 3 f_equal. lia.
Qed.

(** Where a walk stands after entry [p] of slot [i] was returned. *)
Definition walk_at (i : nat) (rest : list Z) : sTab :=
  STab (Z.of_nat (S i)) (next_in i rest) (HSlot i).

Lemma nextEnt_in_slot tab m slots i l1 p r l2 :
  table_ok tab m slots -> slots !! i = Some (l1 ++ p :: r :: l2) ->
  h_nextEnt_ tab (walk_at i (r :: l2)) = Some (r, walk_at i l2).
Proof.
  intros Hok Hi. unfold h_nextEnt_, walk_at. rewrite (tok_slots _ _ _ Hok). cbn.
  rewrite !bool_decide_false by done. cbn.
  rewrite (bwPtr_from_spec 0 r slots i (l1 ++ [p]) l2); [done| |by rewrite <- app_assoc].
  eapply NoDup_fmap_1, (tok_keys _ _ _ Hok).
Qed.

Lemma nextEnt_scan tab m slots sp idx :
  table_ok tab m slots -> (idx <= length slots)%nat -> nIndex sp = Z.of_nat idx ->
  hEntPtr sp = HNull \/ hEntPtr sp = hList sp ->
  (concat (drop idx slots) = [] /\ exists sp', h_nextEnt_ tab sp = Some (NULL, sp')) \/
  (exists j p l, slots !! j = Some (p :: l) /\
     concat (drop idx slots) = p :: l ++ concat (drop (S j) slots) /\
     h_nextEnt_ tab sp = Some (p, walk_at j l)).
Proof.
  intros Hok Hidx Hn Hcur. unfold h_nextEnt_. rewrite (tok_slots _ _ _ Hok). cbn [mbind option_bind].
  replace (bool_decide (hEntPtr sp = HNull) || bool_decide (hEntPtr sp = hList sp)) with true.
  2:{ symmetry. apply orb_true_iff. rewrite !bool_decide_eq_true. done. }
  rewrite Hn, <- (tok_len _ _ _ Hok).
  destruct (scan_spec (S (length slots)) slots idx (hList sp) Hidx) as
    [[Hc Hs]|(j & p & l & Hj & Hc & Hs)]; [lia| |]; rewrite Hs; cbn [mbind option_bind].
  - left. eauto.
  - right. exists j, p, l. split; [done|]. split; [done|].
    rewrite (bwPtr_from_spec 0 p slots j [] l); [done| |done].
    eapply NoDup_fmap_1, (tok_keys _ _ _ Hok).
Qed.

Lemma walk_from_spec tab m slots fuel i l1 p l2 :
  table_ok tab m slots -> slots !! i = Some (l1 ++ p :: l2) ->
  (S (length (l2 ++ concat (drop (S i) slots))) < fuel)%nat ->
  walk_from fuel tab p (walk_at i l2) = Some (p :: l2 ++ concat (drop (S i) slots)).
Proof.
  intros Hok. revert i l1 p l2. induction fuel as [|n IH]; intros i l1 p l2 Hi Hf; [lia|].
  cbn [walk_from].
  assert (Hp : p <> NULL).
  { intros ->. apply (tok_null _ _ _ Hok), elem_of_concat. eexists _, _. split; [done|set_solver]. }
  rewrite (proj2 (Z.eqb_neq _ _) Hp). destruct l2 as [|r l2].
  - destruct (nextEnt_scan tab m slots (walk_at i []) (S i) Hok)
      as [[Hc [sp' ->]]|(j & q & l & Hj & Hc & ->)]; [| | |cbn|cbn].
    + apply lookup_lt_Some in Hi. lia.
    + done.
    + by right.
    + cbn in Hf. rewrite Hc in Hf |- *. destruct n; [simpl in Hf; lia|]. done.
    + rewrite Hc in Hf |- *. rewrite (IH j [] q l); [done|done|]. simpl in Hf |- *. lia.
  - rewrite (nextEnt_in_slot _ _ _ _ _ _ _ _ Hok Hi). cbn.
    rewrite (IH i (l1 ++ [p]) r l2); [done|by rewrite <- app_assoc|]. simpl in Hf |- *. lia.
Qed.

(** ** Insertion *)

Lemma key_of_insert m a e p : p <> a -> key_of (<[a := e]> m) p = key_of m p.
Proof. intros. unfold key_of. by rewrite lookup_insert_ne. Qed.

Lemma keys_insert m a e (l : list Z) : a ∉ l -> key_of (<[a := e]> m) <$> l = key_of m <$> l.
Proof.
  intros Ha. apply list_fmap_ext. intros i p Hi. apply key_of_insert. intros ->.
  apply Ha. by eapply list_elem_of_lookup_2.
Qed.

Lemma contents_insert_fresh m a e slots :
  a ∉ concat slots -> contents (<[a := e]> m) slots = contents m slots.
Proof.
  intros Ha. unfold contents. f_equal. apply list_fmap_ext. intros i p Hi. f_equal.
  apply key_of_insert. intros ->. apply Ha. by eapply list_elem_of_lookup_2.
Qed.

Lemma table_insert tab m slots a key :
  table_ok tab m slots -> a <> NULL -> a ∉ concat slots -> contents m slots !! key = None ->
  let slots' := ins_slot (getAddr (size tab) key) a slots in
  table_ok (HTab (Some slots') (numEnts tab + 1) (size tab)) (<[a := HEnt key NULL]> m) slots' /\
  contents (<[a := HEnt key NULL]> m) slots' = <[key := a]> (contents m slots).
Proof.
  intros Hok Hnull Ha Hkey slots'. set (m' := <[a := HEnt key NULL]> m).
  pose proof (table_size _ _ _ Hok) as Hsz. pose proof (tok_len _ _ _ Hok) as Hlen.
  pose proof (getAddr_bound (size tab) key Hsz) as Hb.
  assert (Hm' : m' !! a = Some (HEnt key NULL)) by apply lookup_insert_eq.
  assert (Hperm : concat slots' ≡ₚ a :: concat slots) by (apply concat_ins_slot; lia).
  assert (Hka : key_of m' a = key) by (unfold key_of; by rewrite Hm').
  assert (Hnokey : key ∉ key_of m <$> concat slots).
  { intros (p & -> & Hp)%list_elem_of_fmap.
    assert (contents m slots !! key_of m p = Some p) as E by (by apply (contents_lookup tab)).
    congruence. }
  assert (Hnd : NoDup (key_of m' <$> concat slots')).
  { assert (Hkeys : key_of m' <$> concat slots = key_of m <$> concat slots)
      by (by apply keys_insert).
    rewrite Hperm, fmap_cons, Hka, Hkeys. apply NoDup_cons. split; [done|]. apply (tok_keys _ _ _ Hok). }
  split.
  - constructor; cbn; auto.
    + apply (tok_size _ _ _ Hok).
    + unfold slots', ins_slot. by rewrite length_alter.
    + apply (hashed_ins (size tab) m' slots a (HEnt key NULL)); [done| |done].
      apply hashed_insert; [apply (tok_hash _ _ _ Hok)|].
      intros i l Hi Hal. apply Ha, elem_of_concat. eauto.
    + rewrite Hperm. apply not_elem_of_cons. split; [done|]. apply (tok_null _ _ _ Hok).
    + rewrite Hperm, (tok_num _ _ _ Hok). simpl. lia.
  - rewrite <- (contents_insert_fresh m a (HEnt key NULL) slots) by done. fold m'.
    unfold contents. rewrite <- Hka at 1.
    change (list_to_map ((fun p => (key_of m' p, p)) <$> concat slots')
            =@{gmap string Z} list_to_map ((fun p => (key_of m' p, p)) <$> (a :: concat slots))).
    apply list_to_map_proper; [|by rewrite Hperm].
    rewrite <- list_fmap_compose. exact Hnd.
Qed.

(** * Properties *)

(** The slot index is always inside the array, and for a key of 7-bit
    characters no machine operation wraps: it is the base-128 value of the key
    modulo the size.  *)
Theorem getAddr_exact size key :
  size ∈ primes -> (forall c, c ∈ String.list_ascii_of_string key -> (nat_of_ascii c < 128)%nat) ->
  0 <= getAddr size key < size /\
  getAddr size key =
    foldl (fun ha c => ha * 128 + Z.of_nat (nat_of_ascii c)) 0 (String.list_ascii_of_string key)
    mod size.
Proof.
  intros Hs Hc. pose proof (primes_bound _ Hs) as Hb. split; [apply getAddr_bound; lia|].
  unfold getAddr.
  assert (G : forall ha acc, 0 <= ha < size -> ha = acc mod size ->
    addr_loop size ha key =
    foldl (fun ha c => ha * 128 + Z.of_nat (nat_of_ascii c)) acc (String.list_ascii_of_string key)
    mod size); [|apply G; [lia|by rewrite Z.mod_0_l by lia]].
  induction key as [|c key IH]; intros ha acc Hha Heq; cbn; [done|].
  assert (Hch : schar c = Z.of_nat (nat_of_ascii c) /\ (nat_of_ascii c < 128)%nat).
  { pose proof (Hc c) as Hlt. unfold schar. case_test; [split; [done|lia]|].
    exfalso. enough (nat_of_ascii c < 128)%nat by lia. apply Hlt. cbn. set_solver. }
  destruct Hch as [-> Hlt]. apply IH.
  - intros d Hd. apply Hc. cbn. set_solver.
  - rewrite (u32_small size) by lia. apply Z.mod_pos_bound. lia.
  - rewrite (u32_small (ha * 128)), (u32_small (Z.of_nat _)), (u32_small size), u32_small by lia.
    rewrite Heq, <- Z.add_mod_idemp_l, Z.mul_mod_idemp_l, Z.add_mod_idemp_l by lia. done.
Qed.

Lemma getAddr_exact_witness : 0 <= getAddr 101 "normal" < 101 /\ getAddr 101 "normal" = 60.
Proof.
  destruct (getAddr_exact 101 "normal") as [H1 H2].
  - apply (bool_decide_unpack _). vm_compute. exact I.
  - apply (Forall_forall (fun c => (nat_of_ascii c < 128)%nat)), (bool_decide_unpack _).
    vm_compute. exact I.
  - split; [exact H1|]. rewrite H2. vm_compute. reflexivity.
Defined.

(** [h_getEnt_] is lookup in the map the table stands for.  *)
Theorem h_getEnt_correct tab s slots key :
  table_ok tab (ents s) slots ->
  h_getEnt_ tab s key = Some (default NULL (contents (ents s) slots !! key)).
Proof.
  intros Hok. unfold h_getEnt_. case_test.
  - assert (concat slots = []) as Hnil.
    { apply nil_length_inv. pose proof (tok_num _ _ _ Hok). lia. }
    unfold contents. by rewrite Hnil.
  - rewrite (tok_slots _ _ _ Hok). cbn.
    destruct (table_find tab _ _ key Hok) as (slot & -> & Hf). cbn. by rewrite Hf.
Qed.

(** [h_addEnt_] returns the entry of a key that is present and changes
    nothing; for a new key it returns the fresh entry with null data, and the
    table stands for the old map with that one binding added, whether or not
    it was resized on the way.  *)
Theorem h_addEnt_correct tab s slots a key :
  table_ok tab (ents s) slots -> a <> NULL -> ents s !! a = None ->
  match contents (ents s) slots !! key with
  | Some p => h_addEnt_ tab s a key = Some (p, false, tab, s)
  | None => exists tab' slots' s',
      h_addEnt_ tab s a key = Some (a, true, tab', s') /\
      s' = HState (<[a := HEnt key NULL]> (ents s)) (freed s) /\
      table_ok tab' (ents s') slots' /\
      contents (ents s') slots' = <[key := a]> (contents (ents s) slots)
  end.
Proof.
  intros Hok Hnull Hfresh. unfold h_addEnt_. rewrite (tok_slots _ _ _ Hok). cbn.
  destruct (table_find tab _ _ key Hok) as (slot & -> & Hfind). cbn. rewrite Hfind. cbn.
  assert (Hlive : forall t l, table_ok t (ents s) l -> a ∉ concat l).
  { intros t l Ht (i & k & Hi & Ha)%elem_of_concat.
    destruct (tok_hash _ _ _ Ht _ _ _ Hi Ha) as (e & He & _). congruence. }
  destruct (contents (ents s) slots !! key) as [p|] eqn:Hkey; cbn.
  - rewrite (proj2 (Z.eqb_neq p NULL)); [done|]. intros ->.
    apply (contents_lookup tab) in Hkey as [Hp _]; [|done]. by apply (tok_null _ _ _ Hok).
  - assert (exists tab1 slots1,
      (if 3 * size tab <=? 2 * numEnts tab then resetTab (ents s) tab else Some tab) = Some tab1 /\
      table_ok tab1 (ents s) slots1 /\ contents (ents s) slots1 = contents (ents s) slots)
      as (tab1 & slots1 & -> & Hok1 & Hc1).
    { case_test; [|by exists tab, slots].
      destruct (resetTab_table_ok _ _ _ Hok) as (t & l & ? & ? & _ & _ & ?). by exists t, l. }
    cbn. rewrite (tok_slots _ _ _ Hok1). cbn.
    destruct (table_insert tab1 (ents s) slots1 a key Hok1) as [Hok2 Hc2]; [done|by eapply Hlive|congruence|].
    eexists _, _, _. split; [reflexivity|]. split; [reflexivity|]. split; [exact Hok2|].
    cbn. by rewrite Hc2, Hc1.
Qed.

(** [resetTab] moves every entry to its slot in the larger array and keeps the
    map; the new size is the first prime of the table above twice the old
    size, and stays at the last one once that is reached.  (C40) *)
Theorem resetTab_correct tab m slots :
  table_ok tab m slots ->
  exists tab' slots', resetTab m tab = Some tab' /\ table_ok tab' m slots' /\
    contents m slots' = contents m slots /\ numEnts tab' = numEnts tab /\
    (size tab < 1030637 -> 2 * size tab < size tab') /\
    (size tab = 1030637 -> size tab' = 1030637).
Proof.
  intros Hok. destruct (resetTab_table_ok _ _ _ Hok) as (t & l & Hr & Hok' & Hp & Hs & Hc).
  exists t, l. split; [done|]. split; [done|]. split; [done|]. split.
  - rewrite (tok_num _ _ _ Hok), (tok_num _ _ _ Hok'). by rewrite Hp.
  - rewrite Hs. pose proof (tok_size _ _ _ Hok) as Hin. revert Hin. unfold primes.
    rewrite !elem_of_cons, elem_of_nil. clear.
    intros Hin. repeat destruct Hin as [->|Hin]; try done; split; vm_compute; congruence.
Qed.

(** A table that holds "night", "short" and "normal". *)
Definition sample_tab : hTab * hstate :=
  default (h_initTab_ 0, HState ∅ []) (
    '(_, _, t, s) ← h_addEnt_ (h_initTab_ 11) (HState ∅ []) 1000 "normal";
    '(_, _, t, s) ← h_addEnt_ t s 2000 "short";
    '(_, _, t, s) ← h_addEnt_ t s 3000 "night";
    Some (t, s)).

Definition sample_slots : list (list Z) := default [] (slotPtr sample_tab.1).

(** An executable test of [hashed], to evaluate closed tables. *)
Fixpoint hashedb (size : Z) (m : gmap Z hEnt) (i : Z) (slots : list (list Z)) : bool :=
  match slots with
  | [] => true
  | l :: slots =>
      forallb (fun p => match m !! p with
                        | Some e => getAddr size (keyname e) =? i
                        | None => false
                        end) l && hashedb size m (i + 1) slots
  end.

Lemma hashedb_sound size m slots : hashedb size m 0 slots = true -> hashed size m slots.
Proof.
  enough (G : forall k, hashedb size m (Z.of_nat k) slots = true ->
    forall i l p, slots !! i = Some l -> p ∈ l ->
    exists e, m !! p = Some e /\ getAddr size (keyname e) = Z.of_nat (k + i))
    by (intros H i l p; apply (G 0%nat H)).
  induction slots as [|l slots IH]; intros k; [done|]. cbn. intros [Hl Hs]%andb_true_iff.
  intros [|i] l' p Hi Hp; simplify_eq/=.
  - rewrite forallb_forall in Hl. specialize (Hl p (proj1 (list_elem_of_In _ _) Hp)).
    destruct (m !! p) as [e|]; [|done]. exists e. split; [done|]. bool_prop. lia.
  - replace (k + S i)%nat with (S k + i)%nat by lia. apply (IH (S k)) with l'; [|done|done].
    by rewrite Nat2Z.inj_succ.
Qed.

Ltac eval_table_ok :=
  constructor;
  [ vm_compute; reflexivity | apply (bool_decide_unpack _); vm_compute; exact I
  | vm_compute; reflexivity | apply hashedb_sound; vm_compute; reflexivity
  | apply (bool_decide_unpack _); vm_compute; exact I
  | apply (bool_decide_unpack _); vm_compute; exact I | vm_compute; reflexivity ].

Lemma h_getEnt_correct_witness :
  h_getEnt_ sample_tab.1 sample_tab.2 "short" = Some 2000 /\
  h_getEnt_ sample_tab.1 sample_tab.2 "idle" = Some NULL.
Proof.
  rewrite !(h_getEnt_correct sample_tab.1 sample_tab.2 sample_slots) by eval_table_ok.
  vm_compute. split; reflexivity.
Defined.

Lemma h_addEnt_correct_witness :
  exists tab' slots' s', h_addEnt_ sample_tab.1 sample_tab.2 4000 "idle" = Some (4000, true, tab', s') /\
    s' = HState (<[4000 := HEnt "idle" NULL]> (ents sample_tab.2)) [] /\
    table_ok tab' (ents s') slots' /\
    contents (ents s') slots' = <["idle" := 4000]> (contents (ents sample_tab.2) sample_slots).
Proof.
  apply (h_addEnt_correct sample_tab.1 sample_tab.2 sample_slots 4000 "idle");
    [eval_table_ok|done|vm_compute; reflexivity].
Defined.

Lemma resetTab_correct_witness :
  exists tab' slots', resetTab (ents sample_tab.2) sample_tab.1 = Some tab' /\
    table_ok tab' (ents sample_tab.2) slots' /\
    contents (ents sample_tab.2) slots' = contents (ents sample_tab.2) sample_slots /\
    numEnts tab' = 3 /\ 202 < size tab'.
Proof.
  destruct (resetTab_correct sample_tab.1 (ents sample_tab.2) sample_slots)
    as (t & l & H1 & H2 & H3 & H4 & H5 & _); [eval_table_ok|].
  exists t, l. split; [exact H1|]. split; [exact H2|]. split; [exact H3|].
  split; [rewrite H4; vm_compute; reflexivity|].
  change (2 * size sample_tab.1 < size t). apply H5. vm_compute. reflexivity.
Defined.

Lemma same_key tab m slots p q :
  table_ok tab m slots -> p ∈ concat slots -> q ∈ concat slots ->
  key_of m p = key_of m q -> p = q.
Proof.
  intros Hok Hp Hq Hk.
  assert (contents m slots !! key_of m p = Some p) as E1 by (by apply (contents_lookup tab)).
  assert (contents m slots !! key_of m p = Some q) as E2 by (by apply (contents_lookup tab)).
  congruence.
Qed.

Lemma table_delete tab m slots p :
  table_ok tab m slots -> p ∈ concat slots ->
  table_ok (HTab (Some (rem_slot p slots)) (numEnts tab - 1) (size tab)) (delete p m) (rem_slot p slots) /\
  contents (delete p m) (rem_slot p slots) = delete (key_of m p) (contents m slots).
Proof.
  intros Hok Hp.
  assert (Hkeep : forall q, q <> p -> key_of (delete p m) q = key_of m q).
  { intros q Hq. unfold key_of. by rewrite lookup_delete_ne. }
  assert (Hnd0 : NoDup (concat slots)) by (eapply NoDup_fmap_1, (tok_keys _ _ _ Hok)).
  assert (Hok' : table_ok (HTab (Some (rem_slot p slots)) (numEnts tab - 1) (size tab))
                   (delete p m) (rem_slot p slots)).
  { constructor; cbn; auto.
    - apply (tok_size _ _ _ Hok).
    - unfold rem_slot. rewrite length_fmap. apply (tok_len _ _ _ Hok).
    - apply hashed_rem, (tok_hash _ _ _ Hok).
    - rewrite concat_rem_slot. intros [_ Hn]%list_elem_of_filter. by apply (tok_null _ _ _ Hok).
    - rewrite concat_rem_slot.
      assert (Hk : key_of (delete p m) <$> filter (fun q => q <> p) (concat slots)
                   = key_of m <$> filter (fun q => q <> p) (concat slots)).
      { apply list_fmap_ext. intros i q Hi. apply Hkeep.
        by apply list_elem_of_lookup_2, list_elem_of_filter in Hi as [? _]. }
      rewrite Hk. eapply sublist_NoDup; [apply (tok_keys _ _ _ Hok)|].
      apply fmap_sublist, sublist_filter.
    - rewrite concat_rem_slot, (tok_num _ _ _ Hok).
      destruct (list_elem_of_split _ _ Hp) as (l1 & l2 & Heq).
      rewrite Heq in Hnd0 |- *. apply NoDup_app in Hnd0 as (_ & Hd & Hnd2).
      apply NoDup_cons in Hnd2 as [Hp2 _].
      rewrite filter_app, filter_cons_False by (intros ?; done).
      rewrite !filter_all; [rewrite !length_app; simpl; lia| |].
      + apply Forall_forall. intros x Hx ->. done.
      + apply Forall_forall. intros x Hx ->. apply (Hd _ Hx). set_solver. }
  split; [done|]. apply map_eq. intros k. apply option_eq. intros q.
  rewrite (contents_lookup _ _ _ _ _ Hok'), lookup_delete_Some, (contents_lookup tab) by done.
  rewrite concat_rem_slot, list_elem_of_filter. split.
  - intros [[Hq Hin] <-]. rewrite Hkeep by done. split; [|done]. intros Heq. apply Hq.
    by apply (same_key tab m slots).
  - intros [Hne [Hin <-]]. assert (q <> p) as Hq by (intros ->; done).
    by rewrite Hkeep.
Qed.

(** Deleting an entry of the table removes its key from the map, frees the
    entry, and frees its data exactly when [h_delEnt_] is used and the data is
    not null.  *)
Theorem h_delEnt_correct tab s slots p e :
  table_ok tab (ents s) slots -> p ∈ concat slots -> ents s !! p = Some e ->
  exists tab' slots', table_ok tab' (delete p (ents s)) slots' /\
    contents (delete p (ents s)) slots' = delete (keyname e) (contents (ents s) slots) /\
    h_delEnt_ tab s p = Some (tab', HState (delete p (ents s))
      (freed s ++ if hData e =? NULL then [] else [hData e])) /\
    h_rmEnt_ tab s p = Some (tab', HState (delete p (ents s)) (freed s)) /\
    h_delRef_ tab s p = Some (tab', HState (delete p (ents s)) (freed s)).
Proof.
  intros Hok Hp He. destruct (table_delete tab (ents s) slots p Hok Hp) as [Hok' Hc].
  assert (Hk : key_of (ents s) p = keyname e) by (unfold key_of; by rewrite He).
  assert (Hnull : p <> NULL) by (intros ->; by apply (tok_null _ _ _ Hok)).
  eexists _, _. split; [exact Hok'|]. split; [by rewrite Hc, Hk|].
  unfold h_delEnt_, h_rmEnt_, h_delRef_.
  rewrite (proj2 (Z.eqb_neq _ _) Hnull), He, (tok_slots _ _ _ Hok). cbn.
  split; [|done]. case_test; by rewrite ?app_nil_r.
Qed.

Lemma h_delEnt_correct_witness :
  exists tab' slots', table_ok tab' (delete 2000 (ents sample_tab.2)) slots' /\
    contents (delete 2000 (ents sample_tab.2)) slots'
      = delete "short" (contents (ents sample_tab.2) sample_slots) /\
    h_delEnt_ sample_tab.1 sample_tab.2 2000
      = Some (tab', HState (delete 2000 (ents sample_tab.2)) []).
Proof.
  destruct (h_delEnt_correct sample_tab.1 sample_tab.2 sample_slots 2000 (HEnt "short" NULL))
    as (t & l & H1 & H2 & H3 & _);
    [eval_table_ok|apply (bool_decide_unpack _); vm_compute; exact I|vm_compute; reflexivity|].
  exists t, l. split; [exact H1|]. split; [exact H2|]. exact H3.
Defined.

(** The iteration of [h_firstEnt_] and [h_nextEnt_] terminates and returns
    every entry of the table exactly once.  *)
Theorem htab_iteration_correct tab m slots :
  table_ok tab m slots ->
  exists l, for_each_htab_entry (S (S (Z.to_nat (numEnts tab)))) tab = Some l /\
    NoDup l /\ (forall p, p ∈ l <-> exists k, contents m slots !! k = Some p).
Proof.
  intros Hok. exists (concat slots).
  assert (Hnd : NoDup (concat slots)) by (eapply NoDup_fmap_1, (tok_keys _ _ _ Hok)).
  split; [|split; [done|]].
  - pose proof (tok_num _ _ _ Hok) as Hn. unfold for_each_htab_entry, h_firstEnt_.
    rewrite (tok_slots _ _ _ Hok).
    destruct (nextEnt_scan tab m slots (STab 0 HNull HNull) 0 Hok)
      as [[Hc [sp' ->]]|(j & p & l & Hj & Hc & ->)]; [lia|done|by left| |].
    + rewrite drop_0 in Hc. cbn. by rewrite Hc.
    + rewrite drop_0 in Hc. cbn [mbind option_bind].
      rewrite (walk_from_spec tab m slots _ j [] p l Hok Hj), Hc; [done|].
      rewrite Hn, Hc. cbn. lia.
  - intros p. setoid_rewrite (contents_lookup tab); [|done]. naive_solver.
Qed.

Lemma htab_iteration_correct_witness :
  exists l, for_each_htab_entry 5 sample_tab.1 = Some l /\ NoDup l /\
    (forall p, p ∈ l <-> exists k, contents (ents sample_tab.2) sample_slots !! k = Some p).
Proof.
  apply (htab_iteration_correct sample_tab.1 (ents sample_tab.2) sample_slots). eval_table_ok.
Defined.

Lemma free_slot_ok b slot s :
  NoDup slot -> (forall p, p ∈ slot -> is_Some (ents s !! p)) ->
  exists s', free_slot b slot s = Some s' /\
    (forall q, ents s' !! q = if decide (q ∈ slot) then None else ents s !! q) /\
    freed s' = freed s ++ if b then slot ≫= (fun p => match ents s !! p with
      | Some e => if hData e =? NULL then [] else [hData e] | None => [] end) else [].
Proof.
  revert s. induction slot as [|p slot IH]; intros s Hnd Hlive; cbn.
  - exists s. split; [done|]. split; [by intros q; rewrite decide_False by set_solver|].
    destruct b; by rewrite app_nil_r.
  - destruct (Hlive p) as [e He]; [set_solver|]. rewrite He. cbn.
    apply NoDup_cons in Hnd as [Hp Hnd].
    match goal with |- context [free_slot b slot ?s1] => destruct (IH s1) as (s' & Hf & Hd & Hfr) end;
      [done|intros q Hq; cbn; rewrite lookup_delete_ne by set_solver; apply Hlive; set_solver|].
    exists s'. split; [done|]. split.
    + intros q. rewrite Hd. cbn. destruct (decide (q = p)) as [->|Hne].
      * rewrite (decide_True (P := p ∈ p :: slot)) by set_solver.
        by rewrite lookup_delete_eq; case_decide.
      * rewrite lookup_delete_ne by done. by repeat case_decide; set_solver.
    + rewrite Hfr. cbn. destruct b; cbn; [|done].
      assert (Hb : forall l, p ∉ l -> l ≫= (fun q => match delete p (ents s) !! q with
        | Some e => if hData e =? NULL then [] else [hData e] | None => [] end)
        = l ≫= (fun q => match ents s !! q with
        | Some e => if hData e =? NULL then [] else [hData e] | None => [] end)).
      { clear. induction l as [|q l IH]; intros Hp; [done|]. cbn.
        rewrite lookup_delete_ne by set_solver. f_equal. apply IH. set_solver. }
      rewrite Hb by done. case_test; by rewrite <- ?app_assoc.
Qed.

Lemma free_slots_concat b slots s :
  free_slots b slots s = free_slot b (concat slots) s.
Proof.
  revert s. induction slots as [|l slots IH]; intros s; [done|]. cbn.
  revert s. induction l as [|p l IHl]; intros s; cbn; [apply IH|].
  destruct (ents s !! p) as [e|]; cbn; [apply IHl|done].
Qed.

(** [h_freeTab_] frees every entry of the table and hands every non-null data
    pointer to the free function once, in slot order; [h_freeRefTab_] frees
    the entries only.  *)
Theorem h_freeTab_correct tab s slots :
  table_ok tab (ents s) slots ->
  exists s1 s2, h_freeTab_ tab s = Some (HTab None 0 (size tab), s1) /\
    h_freeRefTab_ tab s = Some (HTab None 0 (size tab), s2) /\
    (forall q, ents s1 !! q = if decide (q ∈ concat slots) then None else ents s !! q) /\
    ents s2 = ents s1 /\ freed s2 = freed s /\
    freed s1 = freed s ++ (concat slots ≫= fun p => match ents s !! p with
      | Some e => if hData e =? NULL then [] else [hData e] | None => [] end).
Proof.
  intros Hok. unfold h_freeTab_, h_freeRefTab_. rewrite (tok_slots _ _ _ Hok). cbn.
  assert (Hnd : NoDup (concat slots)) by (eapply NoDup_fmap_1, (tok_keys _ _ _ Hok)).
  assert (Hlive : forall p, p ∈ concat slots -> is_Some (ents s !! p)).
  { intros p (i & l & Hi & Hp)%elem_of_concat.
    destruct (tok_hash _ _ _ Hok _ _ _ Hi Hp) as (e & -> & _). eauto. }
  rewrite !free_slots_concat.
  destruct (free_slot_ok true _ s Hnd Hlive) as (s1 & -> & Hd1 & Hf1).
  destruct (free_slot_ok false _ s Hnd Hlive) as (s2 & -> & Hd2 & Hf2).
  exists s1, s2. cbn. rewrite app_nil_r in Hf2. split; [done|]. split; [done|]. split; [done|].
  split; [|done]. apply map_eq. intros q. by rewrite Hd1, Hd2.
Qed.

Lemma h_freeTab_correct_witness :
  exists s1 s2, h_freeTab_ sample_tab.1 sample_tab.2 = Some (HTab None 0 101, s1) /\
    h_freeRefTab_ sample_tab.1 sample_tab.2 = Some (HTab None 0 101, s2) /\ freed s2 = [].
Proof.
  destruct (h_freeTab_correct sample_tab.1 sample_tab.2 sample_slots)
    as (s1 & s2 & H1 & H2 & _ & _ & H3 & _); [eval_table_ok|].
  exists s1, s2. split; [exact H1|]. split; [exact H2|exact H3].
Defined.
