(* ===== verification/Bitset.v ===== *)
(** * Bit sets, [lsf/intlib/bitset.c]

    A set of small integers kept as an array of 32-bit words, with an optional
    map from objects to indices and back and an optional list of observers.
    The header carries the number of words [setWidth], the number of bits
    [setSize] and a running count [setNumElements] of the elements, all
    [unsigned int].

    A null set pointer is [None]; [bitseterrno] is threaded through; a result
    [None] of an operation is an access outside the mask.  [realloc] and
    [calloc] are assumed to succeed where the code goes on without testing
    them.  An object is an integer: the index itself when the set has no
    index function. *)

From S2P Require Import Prelude.

(** ** Data *)

Definition u64 (z : Z) : Z := z mod 2 ^ 64.

Definition WORDLENGTH : Z := 32.
Definition SET_DEFAULT_SIZE : Z := WORDLENGTH.
Definition SET_WORD_DEFAULT_EXTENT : Z := 2.

Definition LS_SET_UNION : Z := 0.
Definition LS_SET_INTERSECT : Z := 1.
Definition LS_SET_DIFFERENCE : Z := 2.
Definition LS_SET_ASSIGN : Z := 5.

(** [enum _lsBitSetErrno_] *)
Definition LS_BITSET_ERR_NOERR : Z := 0.
Definition LS_BITSET_ERR_BADARG : Z := 1.
Definition LS_BITSET_ERR_SETEMPTY : Z := 2.
Definition LS_BITSET_ERR_NOMEM : Z := 3.
Definition LS_BITSET_ERR_FUNC : Z := 4.
Definition LS_BITSET_ERR_ISALREDY : Z := 5.
Definition LS_BITSET_ERR_EINVAL : Z := 6.
Definition LS_BITSET_ERR_NOOBSVR : Z := 7.

Inductive LS_BITSET_EVENT_TYPE_T := LS_BITSET_EVENT_ENTER | LS_BITSET_EVENT_LEAVE.

Record LS_BITSET_EVENT_T := BitsetEvent { ev_type : LS_BITSET_EVENT_TYPE_T; ev_entry : Z }.

(** [select], [enter] and [leave_] are function pointers, [NULL] for none. *)
Record LS_BITSET_OBSERVER_T := BitsetObserver {
  ob_name : string; extra : Z; select : Z; enter : Z; leave_ : Z }.

(** The observers hang on a [LIST_T]; [list.c] walks them in ring order. *)
Record LS_BITSET_T := Bitset {
  setDescription : string;
  bitmask : list Z;
  setSize : Z;
  setWidth : Z;
  setNumElements : Z;
  allowObservers : bool;
  observers : list LS_BITSET_OBSERVER_T;
  getIndexByObject : option (Z -> Z);
  getObjectByIndex : option (Z -> Z) }.

Record LS_BITSET_ITERATOR_T := BitsetIterator {
  it_set : option LS_BITSET_T; setCurrentBit : Z; it_setSize : Z }.

(** The header fields the operations update, one setter for each group. *)
Definition with_mask (s : LS_BITSET_T) (m : list Z) : LS_BITSET_T :=
  Bitset (setDescription s) m (setSize s) (setWidth s) (setNumElements s)
    (allowObservers s) (observers s) (getIndexByObject s) (getObjectByIndex s).
Definition with_num (s : LS_BITSET_T) (n : Z) : LS_BITSET_T :=
  Bitset (setDescription s) (bitmask s) (setSize s) (setWidth s) n
    (allowObservers s) (observers s) (getIndexByObject s) (getObjectByIndex s).
Definition with_size (s : LS_BITSET_T) (m : list Z) (sz w : Z) : LS_BITSET_T :=
  Bitset (setDescription s) m sz w (setNumElements s)
    (allowObservers s) (observers s) (getIndexByObject s) (getObjectByIndex s).
Definition with_observers (s : LS_BITSET_T) (b : bool) (o : list LS_BITSET_OBSERVER_T) : LS_BITSET_T :=
  Bitset (setDescription s) (bitmask s) (setSize s) (setWidth s) (setNumElements s)
    b o (getIndexByObject s) (getObjectByIndex s).

(** ** Creation *)

Definition setCreate (size : Z) (directFunction inverseFunction : option (Z -> Z))
    (caller : string) : LS_BITSET_T :=
  let sz := if 0 <? size then size else SET_DEFAULT_SIZE in
  let width := u32 (u64 (sz + WORDLENGTH - 1) / WORDLENGTH) in
  Bitset caller (replicate (Z.to_nat width) 0) (u32 (width * WORDLENGTH)) width 0
    false [] directFunction inverseFunction.

Definition simpleSetCreate (size : Z) (caller : string) : LS_BITSET_T :=
  setCreate size None None caller.

(** [setDup] allocates a zeroed header and fills in the width, the description
    and the words only. *)
Definition setDup (set : LS_BITSET_T) : LS_BITSET_T :=
  Bitset (setDescription set) (take (Z.to_nat (setWidth set)) (bitmask set))
    0 (setWidth set) 0 false [] None None.

(** ** Bits *)

Definition SET_GET_WORD (value : Z) : Z := i32 (u64 value / WORDLENGTH).
Definition SET_GET_BIT_IN_WORD (value : Z) : Z := i32 (u64 value mod WORDLENGTH).

(** [SET_BIT_ON << offset] as an [unsigned int]. *)
Definition bit_at (offset : Z) : Z := u32 (Z.shiftl 1 offset).

Definition get_word (mask : list Z) (word : Z) : option Z :=
  if word <? 0 then None else mask !! Z.to_nat word.

Definition setTestValue (set : LS_BITSET_T) (value : Z) : option bool :=
  w ← get_word (bitmask set) (SET_GET_WORD value);
  Some (negb (Z.land w (bit_at (SET_GET_BIT_IN_WORD value)) =? 0)).

(** The index of an object, or the error of the index function. *)
Definition index_of (set : LS_BITSET_T) (obj : Z) : option Z :=
  match getIndexByObject set with
  | None => Some obj
  | Some f => let x := f obj in if x <? 0 then None else Some x
  end.

(** [setIsMember]: the value returned and [bitseterrno]. *)
Definition setIsMember (err : Z) (set : option LS_BITSET_T) (obj : Z) : option (Z * Z) :=
  match set with
  | None => Some (0, LS_BITSET_ERR_BADARG)
  | Some s =>
      if setNumElements s =? 0 then Some (0, LS_BITSET_ERR_SETEMPTY) else
      match index_of s obj with
      | None => Some (-1, LS_BITSET_ERR_FUNC)
      | Some x =>
          if setSize s <=? u32 x then Some (0, err) else
          b ← setTestValue s x; Some (if b : bool then 1 else 0, err)
      end
  end.

(** [setEnlarge]: the width grows by [newSize] words and two more.  A width
    that wraps below the old one makes the [memset] run out of the block. *)
Definition setEnlarge (set : LS_BITSET_T) (newSize : Z) : option LS_BITSET_T :=
  let oldWidth := setWidth set in
  let width := u32 (oldWidth + (newSize + SET_WORD_DEFAULT_EXTENT)) in
  if width <? oldWidth then None else
  Some (with_size set (bitmask set ++ replicate (Z.to_nat (width - oldWidth)) 0)
          (u32 (width * WORDLENGTH)) width).

(** ** Observers *)

Inductive set_call :=
  | CallEnter (fn extra : Z) (ev : LS_BITSET_EVENT_T)
  | CallLeave (fn extra : Z) (ev : LS_BITSET_EVENT_T).

Definition setAllowObservers (err : Z) (set : option LS_BITSET_T)
    : Z * Z * option LS_BITSET_T :=
  match set with
  | None => (-1, LS_BITSET_ERR_BADARG, None)
  | Some s =>
      if allowObservers s then (0, err, Some s)
      else (0, err, Some (with_observers s true []))
  end.

(** [setObserverCreate]: the variadic tail up to [LS_BITSET_EVENT_NULL]. *)
Fixpoint setObserverCreate (name : string) (ex sel : Z)
    (args : list (LS_BITSET_EVENT_TYPE_T * Z)) (en le : Z) : LS_BITSET_OBSERVER_T :=
  match args with
  | [] => BitsetObserver name ex sel en le
  | (LS_BITSET_EVENT_ENTER, cb) :: args => setObserverCreate name ex sel args cb le
  | (LS_BITSET_EVENT_LEAVE, cb) :: args => setObserverCreate name ex sel args en cb
  end.

Definition setObserverAttach (err : Z) (observer : option LS_BITSET_OBSERVER_T)
    (set : option LS_BITSET_T) : Z * Z * option LS_BITSET_T :=
  match observer, set with
  | Some o, Some s =>
      if negb (allowObservers s) then (-1, LS_BITSET_ERR_NOOBSVR, set)
      else (0, err, Some (with_observers s true (observers s ++ [o])))
  | _, _ => (-1, LS_BITSET_ERR_BADARG, set)
  end.

Section WithSelect.
Variable select_fn : Z -> Z -> LS_BITSET_EVENT_T -> bool.

Definition notify_one (ev : LS_BITSET_EVENT_T) (o : LS_BITSET_OBSERVER_T) : list set_call :=
  if negb (select o =? NULL) && negb (select_fn (select o) (extra o) ev) then [] else
  match ev_type ev with
  | LS_BITSET_EVENT_ENTER => if enter o =? NULL then [] else [CallEnter (enter o) (extra o) ev]
  | LS_BITSET_EVENT_LEAVE => if leave_ o =? NULL then [] else [CallLeave (leave_ o) (extra o) ev]
  end.

Definition setNotifyObservers (set : LS_BITSET_T) (ev : LS_BITSET_EVENT_T) : list set_call :=
  observers set ≫= notify_one ev.

(** ** Elements *)

(** [setAddElement]: the code, [bitseterrno], the set and the callbacks run. *)
Definition setAddElement (err : Z) (set : option LS_BITSET_T) (obj : Z)
    : option (Z * Z * option LS_BITSET_T * list set_call) :=
  match set with
  | None => Some (-1, LS_BITSET_ERR_BADARG, None, [])
  | Some s =>
      match index_of s obj with
      | None => Some (-1, LS_BITSET_ERR_FUNC, Some s, [])
      | Some x =>
          '(s, present) ←
            (if setSize s <=? u32 x then s ← setEnlarge s (u32 x); Some (s, false)
             else b ← setTestValue s x; Some (s, b));
          if present : bool then Some (-1, LS_BITSET_ERR_ISALREDY, Some s, []) else
          let word := SET_GET_WORD x in
          let offset := SET_GET_BIT_IN_WORD x in
          w ← get_word (bitmask s) word;
          let s := with_mask s (<[Z.to_nat word := Z.lor w (bit_at offset)]> (bitmask s)) in
          let s := with_num s (u32 (setNumElements s + 1)) in
          Some (0, err, Some s,
            if allowObservers s
            then setNotifyObservers s (BitsetEvent LS_BITSET_EVENT_ENTER obj) else [])
      end
  end.

End WithSelect.

(** [setRemoveElement]: the bit is cleared and the count decremented whether or
    not the bit was set.  With an index function the error test reads the
    unset local [value]; it is modelled as not taken. *)
Definition setRemoveElement (err : Z) (set : option LS_BITSET_T) (obj : Z)
    : option (Z * Z * option LS_BITSET_T) :=
  match set with
  | None => Some (-1, LS_BITSET_ERR_BADARG, None)
  | Some s =>
      if setNumElements s =? 0 then Some (-1, LS_BITSET_ERR_SETEMPTY, Some s) else
      let x := match getIndexByObject s with None => obj | Some f => f obj end in
      if setSize s <=? u32 x then Some (0, err, Some s) else
      let word := SET_GET_WORD x in
      let offset := SET_GET_BIT_IN_WORD x in
      w ← get_word (bitmask s) word;
      let s := with_mask s
        (<[Z.to_nat word := Z.land w (u32 (Z.lnot (Z.shiftl 1 offset)))]> (bitmask s)) in
      Some (0, err, Some (with_num s (u32 (setNumElements s - 1))))
  end.

Definition setClear (err : Z) (set : option LS_BITSET_T) : Z * Z * option LS_BITSET_T :=
  match set with
  | None => (-1, LS_BITSET_ERR_BADARG, None)
  | Some s =>
      (0, err, Some (with_num (with_mask s
         (replicate (Z.to_nat (setWidth s)) 0 ++ drop (Z.to_nat (setWidth s)) (bitmask s))) 0))
  end.

(** ** Counting *)

Definition nbits : list Z :=
  [0; 1; 1; 2; 1; 2; 2; 3; 1; 2; 2; 3; 2; 3; 3; 4;
   1; 2; 2; 3; 2; 3; 3; 4; 2; 3; 3; 4; 3; 4; 4; 5;
   1; 2; 2; 3; 2; 3; 3; 4; 2; 3; 3; 4; 3; 4; 4; 5;
   2; 3; 3; 4; 3; 4; 4; 5; 3; 4; 4; 5; 4; 5; 5; 6;
   1; 2; 2; 3; 2; 3; 3; 4; 2; 3; 3; 4; 3; 4; 4; 5;
   2; 3; 3; 4; 3; 4; 4; 5; 3; 4; 4; 5; 4; 5; 5; 6;
   2; 3; 3; 4; 3; 4; 4; 5; 3; 4; 4; 5; 4; 5; 5; 6;
   3; 4; 4; 5; 4; 5; 5; 6; 4; 5; 5; 6; 5; 6; 6; 7;
   1; 2; 2; 3; 2; 3; 3; 4; 2; 3; 3; 4; 3; 4; 4; 5;
   2; 3; 3; 4; 3; 4; 4; 5; 3; 4; 4; 5; 4; 5; 5; 6;
   2; 3; 3; 4; 3; 4; 4; 5; 3; 4; 4; 5; 4; 5; 5; 6;
   3; 4; 4; 5; 4; 5; 5; 6; 4; 5; 5; 6; 5; 6; 6; 7;
   2; 3; 3; 4; 3; 4; 4; 5; 3; 4; 4; 5; 4; 5; 5; 6;
   3; 4; 4; 5; 4; 5; 5; 6; 4; 5; 5; 6; 5; 6; 6; 7;
   3; 4; 4; 5; 4; 5; 5; 6; 4; 5; 5; 6; 5; 6; 6; 7;
   4; 5; 5; 6; 5; 6; 6; 7; 5; 6; 6; 7; 6; 7; 7; 8].

(** Byte [k] of a word in memory (little endian), looked up in the table. *)
Definition byte_bits (w : Z) (k : nat) : option Z :=
  nbits !! Z.to_nat (Z.land (Z.shiftr w (8 * Z.of_nat k)) 255).

(** [for (i = sizeof(unsigned int); --i >= 0;) numElements += nbits[*p++];] *)
Fixpoint count_bytes (w : Z) (ks : list nat) (acc : Z) : option Z :=
  match ks with
  | [] => Some acc
  | k :: ks => n ← byte_bits w k; count_bytes w ks (i32 (acc + n))
  end.

Definition getNum1BitsInWord (w : Z) : option Z := count_bytes w [0; 1; 2; 3]%nat 0.

(** The byte loop over [setWidth] words. *)
Fixpoint count_words (mask : list Z) (n : nat) (acc : Z) : option Z :=
  match n with
  | O => Some acc
  | S n =>
      match mask with
      | [] => None
      | w :: mask => acc ← count_bytes w [0; 1; 2; 3]%nat acc; count_words mask n acc
      end
  end.

Definition setGetNumElements (err : Z) (set : option LS_BITSET_T) : option (Z * Z) :=
  match set with
  | None => Some (-1, LS_BITSET_ERR_BADARG)
  | Some s => n ← count_words (bitmask s) (Z.to_nat (setWidth s)) 0; Some (n, err)
  end.

(** ** Combination of two sets *)

(** [while (--nwords >= 0) *d++ = f( *d, *s++)], then [fill] on the tail. *)
Fixpoint combine_words (f : Z -> Z -> Z) (fill : option Z) (nwords : nat) (d s : list Z)
    : option (list Z) :=
  match nwords with
  | O => Some (match fill with Some z => (fun _ => z) <$> d | None => d end)
  | S n =>
      match d, s with
      | a :: d, b :: s => rest ← combine_words f fill n d s; Some (f a b :: rest)
      | _, _ => None
      end
  end.

Definition setOperate (err : Z) (dest src : LS_BITSET_T) (op : Z) : option (Z * LS_BITSET_T) :=
  if negb (op =? LS_SET_UNION) && negb (op =? LS_SET_INTERSECT)
     && negb (op =? LS_SET_DIFFERENCE) && negb (op =? LS_SET_ASSIGN)
  then Some (LS_BITSET_ERR_EINVAL, dest) else
  dest ← (if setWidth dest <? setWidth src then setEnlarge dest (setWidth src) else Some dest);
  let nwords := Z.to_nat (setWidth src) in
  m ← (if op =? LS_SET_UNION then combine_words Z.lor None nwords (bitmask dest) (bitmask src)
       else if op =? LS_SET_INTERSECT
       then combine_words Z.land (Some 0) nwords (bitmask dest) (bitmask src)
       else if op =? LS_SET_DIFFERENCE
       then combine_words Z.lxor None nwords (bitmask dest) (bitmask src)
       else combine_words (fun _ b => b) (Some 0) nwords (bitmask dest) (bitmask src));
  Some (err, with_mask dest m).

(** ** Iterators *)

Definition setIteratorAttach (err : Z) (set : option LS_BITSET_T) (it : LS_BITSET_ITERATOR_T)
    : Z * Z * LS_BITSET_ITERATOR_T :=
  match set with
  | None => (-1, LS_BITSET_ERR_BADARG, it)
  | Some s => (0, err, BitsetIterator (Some s) 0 (setSize s))
  end.

Definition setIteratorCreate (err : Z) (set : option LS_BITSET_T)
    : option LS_BITSET_ITERATOR_T * Z :=
  match set with
  | None => (None, LS_BITSET_ERR_BADARG)
  | Some s => (Some (BitsetIterator (Some s) 0 (setSize s)), err)
  end.

Definition setIteratorDetach (err : Z) (it : LS_BITSET_ITERATOR_T) : Z * LS_BITSET_ITERATOR_T :=
  match it_set it with
  | None => (LS_BITSET_ERR_BADARG, it)
  | Some _ => (err, BitsetIterator None 0 0)
  end.

(** The scan of [setIteratorGetNextElement]: the next set bit from [cur] on. *)
Fixpoint next_bit (fuel : nat) (s : LS_BITSET_T) (cur : Z) : option (option Z * Z) :=
  match fuel with
  | O => None
  | S n =>
      if setSize s <=? cur then Some (None, cur) else
      b ← setTestValue s cur;
      if b : bool then Some (Some cur, cur) else next_bit n s (u32 (cur + 1))
  end.

(** The object returned ([NULL] at the end), [bitseterrno] and the iterator. *)
Definition setIteratorGetNextElement (err : Z) (it : LS_BITSET_ITERATOR_T)
    : option (Z * Z * LS_BITSET_ITERATOR_T) :=
  match it_set it with
  | None => Some (NULL, LS_BITSET_ERR_BADARG, it)
  | Some s =>
      if setNumElements s =? 0 then Some (NULL, LS_BITSET_ERR_SETEMPTY, it) else
      '(found, cur) ← next_bit (S (Z.to_nat (setSize s - setCurrentBit it))) s (setCurrentBit it);
      match found with
      | None => Some (NULL, err, BitsetIterator (Some s) cur (it_setSize it))
      | Some x =>
          let object := match getObjectByIndex s with None => x | Some f => f x end in
          match getObjectByIndex s with
          | Some _ =>
              if object =? NULL
              then Some (NULL, LS_BITSET_ERR_FUNC, BitsetIterator (Some s) cur (it_setSize it))
              else Some (object, err, BitsetIterator (Some s) (u32 (cur + 1)) (it_setSize it))
          | None => Some (object, err, BitsetIterator (Some s) (u32 (cur + 1)) (it_setSize it))
          end
      end
  end.

Definition setIteratorBegin (err : Z) (it : LS_BITSET_ITERATOR_T)
    : option (Z * Z * LS_BITSET_ITERATOR_T) := setIteratorGetNextElement err it.

Definition setIteratorIsEndOfSet (err : Z) (it : LS_BITSET_ITERATOR_T) : bool * Z :=
  match it_set it with
  | None => (false, LS_BITSET_ERR_BADARG)
  | Some _ => (it_setSize it <=? setCurrentBit it, err)
  end.

(** The loop [while ((p = setIteratorGetNextElement(iter)))] of the callers. *)
Fixpoint set_walk (fuel : nat) (err : Z) (it : LS_BITSET_ITERATOR_T) : option (list Z) :=
  match fuel with
  | O => None
  | S n =>
      '(obj, err, it) ← setIteratorGetNextElement err it;
      if obj =? NULL then Some [] else
      rest ← set_walk n err it; Some (obj :: rest)
  end.

(** [setCat]'s loop: [entry != NULL && !end]; [None] of [catFunc] is skipped. *)
Fixpoint cat_loop (fuel : nat) (err : Z) (it : LS_BITSET_ITERATOR_T) (entry bufferSize : Z)
    (catFunc : Z -> option string) (buffer : string) (curSize : Z) : option string :=
  match fuel with
  | O => None
  | S n =>
      let '(endp, err) := setIteratorIsEndOfSet err it in
      if (entry =? NULL) || endp then Some buffer else
      match catFunc entry with
      | None =>
          '(entry, err, it) ← setIteratorGetNextElement err it;
          cat_loop n err it entry bufferSize catFunc buffer curSize
      | Some str =>
          let len := Z.of_nat (String.length str) in
          if u64 (bufferSize - 1) <? u64 (curSize + len) then Some buffer else
          '(next, err, it) ← setIteratorGetNextElement err it;
          cat_loop n err it next bufferSize catFunc (buffer ++ str)%string (i32 (curSize + len))
      end
  end.

Definition setCat (err : Z) (set : LS_BITSET_T) (bufferSize : Z) (catFunc : Z -> option string)
    : option string :=
  let '(_, err, it) := setIteratorAttach err (Some set) (BitsetIterator None 0 0) in
  '(entry, err, it) ← setIteratorBegin err it;
  cat_loop (S (S (Z.to_nat (setSize set)))) err it entry bufferSize catFunc "" 0.

(** * Lemmas *)

(** Membership of [x] in a mask. *)
Definition bit_in (mask : list Z) (x : Z) : bool :=
  match mask !! Z.to_nat (x / 32) with
  | Some w => Z.testbit w (x mod 32)
  | None => false
  end.

(** The number of members of a mask. *)
Definition members (mask : list Z) : Z :=
  countb (bit_in mask) (seqZ 0 (32 * Z.of_nat (length mask))).

Definition words_ok (mask : list Z) : Prop := Forall (fun w => 0 <= w < 2 ^ 32) mask.

Record set_ok (s : LS_BITSET_T) : Prop := {
  sok_len : Z.of_nat (length (bitmask s)) = setWidth s;
  sok_size : setSize s = 32 * setWidth s;
  sok_bound : setWidth s < 2 ^ 26;
  sok_words : words_ok (bitmask s);
  sok_num : setNumElements s = members (bitmask s) }.

Lemma word_of x : 0 <= x < 2 ^ 31 -> SET_GET_WORD x = x / 32.
Proof.
  intros. unfold SET_GET_WORD, u64, WORDLENGTH. rewrite Z.mod_small by lia.
  apply i32_small. split; [|apply Z.div_lt_upper_bound; lia].
  pose proof (Z.div_pos x 32). lia.
Qed.

Lemma offset_of x : 0 <= x < 2 ^ 31 -> SET_GET_BIT_IN_WORD x = x mod 32.
Proof.
  intros. unfold SET_GET_BIT_IN_WORD, u64, WORDLENGTH. rewrite (Z.mod_small x (2 ^ 64)) by lia.
  pose proof (Z.mod_pos_bound x 32). apply i32_small. lia.
Qed.

Lemma bit_at_pow k : 0 <= k < 32 -> bit_at k = 2 ^ k.
Proof.
  intros. unfold bit_at. rewrite Z.shiftl_mul_pow2, Z.mul_1_l by lia. apply u32_small.
  split; [lia|]. apply Z.pow_lt_mono_r; lia.
Qed.

Lemma land_pow2 w k : 0 <= k -> negb (Z.land w (2 ^ k) =? 0) = Z.testbit w k.
Proof.
  intros Hk.
  assert (E : Z.land w (2 ^ k) = if Z.testbit w k then 2 ^ k else 0).
  { apply Z.bits_inj'. intros n Hn. rewrite Z.land_spec, Z.pow2_bits_eqb by done.
    destruct (Z.eqb_spec k n) as [->|Hne].
    - destruct (Z.testbit w n) eqn:T; cbn; [by rewrite Z.pow2_bits_true|by rewrite Z.bits_0].
    - rewrite andb_false_r. destruct (Z.testbit w k); [by rewrite Z.pow2_bits_false|by rewrite Z.bits_0]. }
  rewrite E. destruct (Z.testbit w k); [|done].
  rewrite (proj2 (Z.eqb_neq _ _)); [done|]. lia.
Qed.

Lemma word_range mask x :
  0 <= x < 32 * Z.of_nat (length mask) ->
  exists w, get_word mask (x / 32) = Some w /\ mask !! Z.to_nat (x / 32) = Some w.
Proof.
  intros Hx. pose proof (Z.div_pos x 32). unfold get_word.
  rewrite (proj2 (Z.ltb_ge _ _)) by lia.
  destruct (lookup_lt_is_Some_2 mask (Z.to_nat (x / 32))) as [w Hw]; [|eauto].
  assert (x / 32 < Z.of_nat (length mask)) by (apply Z.div_lt_upper_bound; lia). lia.
Qed.

Lemma setTestValue_spec s x :
  set_ok s -> 0 <= x < setSize s -> setTestValue s x = Some (bit_in (bitmask s) x).
Proof.
  intros [Hl Hs Hb _ _] Hx. unfold setTestValue. rewrite word_of, offset_of by lia.
  destruct (word_range (bitmask s) x) as (w & -> & Hw); [lia|]. cbn.
  pose proof (Z.mod_pos_bound x 32). rewrite bit_at_pow, land_pow2 by lia.
  unfold bit_in. by rewrite Hw.
Qed.

Lemma same_bit x y : x / 32 = y / 32 -> x mod 32 = y mod 32 -> x = y.
Proof. intros. rewrite (Z.div_mod x 32), (Z.div_mod y 32) by lia. congruence. Qed.

(** Writing one word changes the bits of that word only. *)
Lemma bit_in_insert mask x w w' y :
  mask !! Z.to_nat (x / 32) = Some w -> 0 <= x -> 0 <= y ->
  bit_in (<[Z.to_nat (x / 32) := w']> mask) y
  = if y / 32 =? x / 32 then Z.testbit w' (y mod 32) else bit_in mask y.
Proof.
  intros Hw Hx Hy. unfold bit_in. pose proof (Z.div_pos x 32). pose proof (Z.div_pos y 32).
  case_test.
  - rewrite E, list_lookup_insert_eq; [done|]. by eapply lookup_lt_Some.
  - rewrite list_lookup_insert_ne; [done|]. lia.
Qed.

Lemma bit_in_on mask x w y :
  mask !! Z.to_nat (x / 32) = Some w -> 0 <= x -> 0 <= y ->
  bit_in (<[Z.to_nat (x / 32) := Z.lor w (2 ^ (x mod 32))]> mask) y
  = (y =? x) || bit_in mask y.
Proof.
  intros Hw Hx Hy. rewrite (bit_in_insert mask x w) by done.
  pose proof (Z.mod_pos_bound x 32). pose proof (Z.mod_pos_bound y 32).
  case_test; [|destruct (Z.eqb_spec y x); [by subst|done]].
  rewrite Z.lor_spec, Z.pow2_bits_eqb by lia.
  unfold bit_in. rewrite E, Hw. rewrite orb_comm. f_equal.
  destruct (Z.eqb_spec (x mod 32) (y mod 32)), (Z.eqb_spec y x); subst; try done.
  exfalso. by eauto using same_bit.
Qed.

Lemma bit_in_off mask x w y :
  mask !! Z.to_nat (x / 32) = Some w -> 0 <= w < 2 ^ 32 -> 0 <= x -> 0 <= y ->
  bit_in (<[Z.to_nat (x / 32) := Z.land w (u32 (Z.lnot (2 ^ (x mod 32))))]> mask) y
  = negb (y =? x) && bit_in mask y.
Proof.
  intros Hw Hwb Hx Hy. rewrite (bit_in_insert mask x w) by done.
  pose proof (Z.mod_pos_bound x 32). pose proof (Z.mod_pos_bound y 32).
  case_test; [|destruct (Z.eqb_spec y x); [by subst|done]].
  rewrite Z.land_spec. unfold u32. rewrite Z.mod_pow2_bits_low by lia.
  rewrite Z.lnot_spec, Z.pow2_bits_eqb by lia.
  unfold bit_in. rewrite E, Hw. rewrite andb_comm. f_equal. f_equal.
  destruct (Z.eqb_spec (x mod 32) (y mod 32)), (Z.eqb_spec y x); subst; try done.
  exfalso. by eauto using same_bit.
Qed.

Lemma bit_in_zeros mask n y :
  bit_in (mask ++ replicate n 0) y = bit_in mask y.
Proof.
  unfold bit_in. destruct (mask !! Z.to_nat (y / 32)) as [w|] eqn:E.
  - by rewrite (lookup_app_l_Some _ _ _ _ E).
  - apply lookup_ge_None in E. rewrite lookup_app_r by done.
    destruct (replicate n 0 !! _) as [w|] eqn:R; [|done].
    apply lookup_replicate in R as [-> _]. apply Z.bits_0.
Qed.

Lemma bit_in_beyond mask y : 32 * Z.of_nat (length mask) <= y -> bit_in mask y = false.
Proof.
  intros Hy. unfold bit_in. rewrite lookup_ge_None_2; [done|].
  assert (Z.of_nat (length mask) <= y / 32) by (apply Z.div_le_lower_bound; lia). lia.
Qed.

(** The count does not depend on how far one looks past the end. *)
Lemma members_wide mask n :
  Z.of_nat (length mask) <= n -> countb (bit_in mask) (seqZ 0 (32 * n)) = members mask.
Proof.
  intros Hn. unfold members.
  replace (32 * n) with (32 * Z.of_nat (length mask) + (32 * (n - Z.of_nat (length mask)))) by lia.
  rewrite seqZ_app, countb_app by lia.
  rewrite (countb_false _ (seqZ (0 + _) _)); [lia|].
  intros y [Hy _]%elem_of_seqZ. apply bit_in_beyond. lia.
Qed.

Lemma members_bound mask : 0 <= members mask <= 32 * Z.of_nat (length mask).
Proof.
  unfold members. split; [apply countb_nonneg|].
  etrans; [apply countb_le_length|]. rewrite length_seqZ. lia.
Qed.

Lemma members_same m m' :
  length m = length m' -> (forall y, 0 <= y < 32 * Z.of_nat (length m) -> bit_in m y = bit_in m' y) ->
  members m = members m'.
Proof.
  intros Hl Hb. unfold members. rewrite <- Hl. apply countb_ext.
  intros y Hy%elem_of_seqZ. apply Hb. lia.
Qed.

Lemma members_zero m y : members m = 0 -> 0 <= y -> bit_in m y = false.
Proof.
  intros Hm Hy. destruct (bit_in m y) eqn:B; [|done]. exfalso.
  assert (y < 32 * Z.of_nat (length m)).
  { apply Z.nle_gt. intros ?. by rewrite bit_in_beyond in B. }
  unfold members in Hm.
  rewrite (countb_on (fun z => negb (z =? y) && bit_in m z) (bit_in m) (seqZ 0 (32 * Z.of_nat (length m))) y) in Hm.
  - pose proof (countb_nonneg (fun z => negb (z =? y) && bit_in m z) (seqZ 0 (32 * Z.of_nat (length m)))). lia.
  - apply NoDup_seqZ.
  - apply elem_of_seqZ. lia.
  - by rewrite Z.eqb_refl.
  - done.
  - intros z _ Hne. by rewrite (proj2 (Z.eqb_neq _ _) Hne).
Qed.

Lemma enlarge_ok s n :
  set_ok s -> 0 <= n -> setWidth s + n + 2 < 2 ^ 26 ->
  exists s', setEnlarge s n = Some s' /\ set_ok s' /\ setWidth s' = setWidth s + n + 2 /\
    (forall y, bit_in (bitmask s') y = bit_in (bitmask s) y) /\
    setNumElements s' = setNumElements s /\ allowObservers s' = allowObservers s /\
    observers s' = observers s.
Proof.
  intros [Hl Hs Hb Hw Hn] Hnn Hlt. unfold setEnlarge, SET_WORD_DEFAULT_EXTENT, WORDLENGTH.
  rewrite (u32_small (setWidth s + _)) by lia. rewrite (proj2 (Z.ltb_ge _ _)) by lia.
  eexists. split; [reflexivity|]. cbn.
  split; [|split; [lia|split; [intros; apply bit_in_zeros|done]]].
  constructor; cbn.
  - rewrite length_app, length_replicate. lia.
  - rewrite u32_small; lia.
  - lia.
  - apply Forall_app. split; [done|]. apply Forall_replicate. lia.
  - rewrite Hn. unfold members at 2. rewrite length_app, length_replicate.
    rewrite (countb_ext _ (bit_in (bitmask s))) by (intros; apply bit_in_zeros).
    symmetry. apply members_wide. lia.
Qed.

Lemma lor_range w k : 0 <= w < 2 ^ 32 -> 0 <= k < 32 -> 0 <= Z.lor w (2 ^ k) < 2 ^ 32.
Proof.
  intros Hw Hk. assert (0 <= 2 ^ k < 2 ^ 32) by (split; [lia|]; apply Z.pow_lt_mono_r; lia).
  split; [apply Z.lor_nonneg; lia|].
  destruct (Z.eq_dec (Z.lor w (2 ^ k)) 0) as [->|Hne]; [lia|].
  apply Z.log2_lt_pow2; [pose proof (proj2 (Z.lor_nonneg w (2 ^ k))); lia|].
  rewrite Z.log2_lor by lia.
  apply Z.max_lub_lt; [|rewrite Z.log2_pow2; lia].
  destruct (Z.eq_dec w 0) as [->|]; [done|]. apply Z.log2_lt_pow2; lia.
Qed.

Lemma land_range w m : 0 <= w < 2 ^ 32 -> 0 <= m -> 0 <= Z.land w m < 2 ^ 32.
Proof.
  intros Hw Hm. assert (Hnn : 0 <= Z.land w m) by (apply Z.land_nonneg; lia).
  split; [done|]. destruct (Z.eq_dec (Z.land w m) 0) as [->|Hne]; [lia|].
  apply Z.log2_lt_pow2; [lia|]. pose proof (Z.log2_land w m) as Hl.
  assert (Z.log2 w < 32); [|lia].
  destruct (Z.eq_dec w 0) as [->|]; [done|]. apply Z.log2_lt_pow2; lia.
Qed.

Lemma set_bit_ok s x w :
  set_ok s -> 0 <= x < setSize s -> bit_in (bitmask s) x = false ->
  bitmask s !! Z.to_nat (x / 32) = Some w ->
  set_ok (with_num (with_mask s (<[Z.to_nat (x / 32) := Z.lor w (2 ^ (x mod 32))]> (bitmask s)))
            (u32 (setNumElements s + 1))).
Proof.
  intros [Hl Hs Hb Hw Hn] Hx Hnot Hword. pose proof (Z.mod_pos_bound x 32).
  constructor; cbn; rewrite ?length_insert; auto.
  - apply Forall_insert; [done|]. apply lor_range; [|lia].
    eapply (Forall_lookup_1 _ _ _ _ Hw), Hword.
  - pose proof (members_bound (bitmask s)). rewrite u32_small by lia. rewrite Hn.
    symmetry. unfold members. rewrite length_insert.
    apply (countb_on _ _ _ x); [apply NoDup_seqZ|apply elem_of_seqZ; lia|done| |].
    + rewrite (bit_in_on _ _ w) by (done || lia). by rewrite Z.eqb_refl.
    + intros y [Hy _]%elem_of_seqZ Hne. rewrite (bit_in_on _ _ w) by (done || lia).
      by rewrite (proj2 (Z.eqb_neq _ _) Hne).
Qed.

Lemma clear_bit_ok s x w :
  set_ok s -> 0 <= x < setSize s -> bit_in (bitmask s) x = true ->
  bitmask s !! Z.to_nat (x / 32) = Some w ->
  set_ok (with_num (with_mask s (<[Z.to_nat (x / 32) := Z.land w (u32 (Z.lnot (2 ^ (x mod 32))))]> (bitmask s)))
            (u32 (setNumElements s - 1))).
Proof.
  intros [Hl Hs Hb Hw Hn] Hx Hin Hword. pose proof (Z.mod_pos_bound x 32).
  assert (Hwb : 0 <= w < 2 ^ 32) by (eapply (Forall_lookup_1 _ _ _ _ Hw), Hword).
  assert (Hcount : members (bitmask s) =
    countb (bit_in (<[Z.to_nat (x / 32) := Z.land w (u32 (Z.lnot (2 ^ (x mod 32))))]> (bitmask s)))
      (seqZ 0 (32 * Z.of_nat (length (bitmask s)))) + 1).
  { apply (countb_on _ _ _ x); [apply NoDup_seqZ|apply elem_of_seqZ; lia| |done|].
    - rewrite (bit_in_off _ _ w) by (done || lia). by rewrite Z.eqb_refl.
    - intros y [Hy _]%elem_of_seqZ Hne. rewrite (bit_in_off _ _ w) by (done || lia).
      by rewrite (proj2 (Z.eqb_neq _ _) Hne). }
  constructor; cbn; rewrite ?length_insert; auto.
  - apply Forall_insert; [done|]. apply land_range; [done|]. apply u32_bound.
  - unfold members at 1. rewrite length_insert, Hn, Hcount.
    match goal with |- u32 (?a + 1 - 1) = _ => replace (a + 1 - 1) with a by lia end.
    apply u32_small. pose proof (members_bound (bitmask s)).
    split; [apply countb_nonneg|]. lia.
Qed.

(** ** Combination *)

Lemma combine_words_spec f fill n d s :
  (n <= length d)%nat -> (n <= length s)%nat ->
  exists m, combine_words f fill n d s = Some m /\ length m = length d /\
    forall i, m !! i = a ← d !! i;
      if bool_decide (i < n)%nat then b ← s !! i; Some (f a b) else Some (default a fill).
Proof.
  revert d s. induction n as [|n IH]; intros d s Hd Hs; cbn.
  - eexists. split; [reflexivity|]. destruct fill as [z|]; cbn; rewrite ?length_fmap.
    + split; [done|]. intros i. rewrite list_lookup_fmap. by destruct (d !! i).
    + split; [done|]. intros i. by destruct (d !! i).
  - destruct d as [|a d], s as [|b s]; simpl in Hd, Hs; [lia|lia|lia|].
    destruct (IH d s) as (m & -> & Hl & Hm); [lia|lia|]. cbn. eexists. split; [reflexivity|].
    split; [simpl; by f_equal|]. intros [|i]; [done|]. cbn. rewrite Hm.
    destruct (d !! i); [|done]. cbn.
    by rewrite (bool_decide_ext (i < n)%nat (S i < S n)%nat) by lia.
Qed.

Lemma bit_in_combine f g fill d s m :
  (forall a b k, Z.testbit (f a b) k = g (Z.testbit a k) (Z.testbit b k)) ->
  (forall a k, Z.testbit (default a fill) k = g (Z.testbit a k) false) -> g false false = false ->
  (length s <= length d)%nat ->
  (forall i, m !! i = a ← d !! i;
      if bool_decide (i < length s)%nat then b ← s !! i; Some (f a b) else Some (default a fill)) ->
  forall y, bit_in m y = g (bit_in d y) (bit_in s y).
Proof.
  intros Hf Hfill Hg Hlen Hm y. unfold bit_in. rewrite Hm.
  destruct (d !! Z.to_nat (y / 32)) as [a|] eqn:Ed; cbn.
  - case_bool_decide as Hi.
    + destruct (lookup_lt_is_Some_2 s _ Hi) as [b Hb]. rewrite Hb. cbn. apply Hf.
    + rewrite (lookup_ge_None_2 s) by lia. apply Hfill.
  - apply lookup_ge_None in Ed. by rewrite (lookup_ge_None_2 s) by lia.
Qed.

(** The Boolean operation each operator performs on membership. *)
Definition op_bool (op : Z) (a b : bool) : bool :=
  if op =? LS_SET_UNION then a || b
  else if op =? LS_SET_INTERSECT then a && b
  else if op =? LS_SET_DIFFERENCE then xorb a b else b.

Lemma combine_op dest src op :
  (length src <= length dest)%nat ->
  exists m,
    (if op =? LS_SET_UNION then combine_words Z.lor None (length src) dest src
     else if op =? LS_SET_INTERSECT then combine_words Z.land (Some 0) (length src) dest src
     else if op =? LS_SET_DIFFERENCE then combine_words Z.lxor None (length src) dest src
     else combine_words (fun _ b => b) (Some 0) (length src) dest src) = Some m /\
    length m = length dest /\
    forall y, bit_in m y = op_bool op (bit_in dest y) (bit_in src y).
Proof.
  intros Hlen.
  assert (G : forall f g fill,
    (forall a b k, Z.testbit (f a b) k = g (Z.testbit a k) (Z.testbit b k)) ->
    (forall a k, Z.testbit (default a fill) k = g (Z.testbit a k) false) -> g false false = false ->
    exists m, combine_words f fill (length src) dest src = Some m /\ length m = length dest /\
      forall y, bit_in m y = g (bit_in dest y) (bit_in src y)).
  { intros f g fill Hf Hfill Hg.
    destruct (combine_words_spec f fill (length src) dest src) as (m & Hm & Hl & Hlk); [done|done|].
    exists m. split; [done|]. split; [done|]. by apply (bit_in_combine f g fill). }
  unfold op_bool. case_test; [|case_test; [|case_test]].
  - apply G; [apply Z.lor_spec|intros; by rewrite orb_false_r|done].
  - apply G; [apply Z.land_spec|intros; cbn; by rewrite Z.bits_0, andb_false_r|done].
  - apply G; [apply Z.lxor_spec|intros; by rewrite xorb_false_r|done].
  - apply (G (fun _ b => b) (fun _ b => b)); [done|intros; cbn; by rewrite Z.bits_0|done].
Qed.

(** ** Population counts *)

Lemma nbits_table b : 0 <= b < 256 ->
  nbits !! Z.to_nat b = Some (countb (Z.testbit b) (seqZ 0 8)).
Proof.
  intros Hb.
  assert (G : Forall (fun b => nbits !! Z.to_nat b = Some (countb (Z.testbit b) (seqZ 0 8)))
                (seqZ 0 256)) by (apply (bool_decide_unpack _); vm_compute; exact I).
  rewrite Forall_forall in G. apply G, elem_of_seqZ. lia.
Qed.

Lemma byte_bits_spec w k :
  0 <= w -> byte_bits w k = Some (countb (Z.testbit w) (seqZ (8 * Z.of_nat k) 8)).
Proof.
  intros Hw. unfold byte_bits.
  assert (Hb : 0 <= Z.land (Z.shiftr w (8 * Z.of_nat k)) 255 < 256).
  { change 255 with (Z.ones 8). rewrite Z.land_ones by lia. apply Z.mod_pos_bound. lia. }
  rewrite nbits_table by done. f_equal.
  replace (seqZ (8 * Z.of_nat k) 8) with (Z.add (8 * Z.of_nat k) <$> seqZ 0 8)
    by (rewrite fmap_add_seqZ; f_equal; lia).
  rewrite countb_fmap.
  apply countb_ext. intros i Hi%elem_of_seqZ.
  change 255 with (Z.ones 8). rewrite Z.land_spec, Z.shiftr_spec, Z.ones_spec_low by lia.
  rewrite andb_true_r. f_equal. lia.
Qed.

Lemma count_bytes_word w acc :
  0 <= w < 2 ^ 32 -> 0 <= acc < 2 ^ 30 ->
  count_bytes w [0; 1; 2; 3]%nat acc = Some (acc + countb (Z.testbit w) (seqZ 0 32)).
Proof.
  intros Hw Ha. cbn [count_bytes].
  assert (Hn : forall i, 0 <= countb (Z.testbit w) (seqZ i 8) <= 8).
  { intros i. split; [apply countb_nonneg|]. etrans; [apply countb_le_length|].
    by rewrite length_seqZ. }
  pose proof (Hn 0). pose proof (Hn 8). pose proof (Hn 16). pose proof (Hn 24).
  rewrite !byte_bits_spec by lia. cbn [mbind option_bind].
  change (8 * Z.of_nat 0) with 0. change (8 * Z.of_nat 1) with 8.
  change (8 * Z.of_nat 2) with 16. change (8 * Z.of_nat 3) with 24.
  rewrite (i32_small (acc + _)) by lia. rewrite (i32_small (acc + _ + _)) by lia.
  rewrite (i32_small (acc + _ + _ + _)) by lia. rewrite i32_small by lia. f_equal.
  replace 32 with (8 + (8 + (8 + 8))) by lia. rewrite !seqZ_app, !countb_app by lia.
  change (0 + 8) with 8. change (8 + 8) with 16. change (16 + 8) with 24. lia.
Qed.

Lemma members_cons w mask :
  members (w :: mask) = countb (Z.testbit w) (seqZ 0 32) + members mask.
Proof.
  unfold members. simpl length.
  replace (32 * Z.of_nat (S (length mask))) with (32 + 32 * Z.of_nat (length mask)) by lia.
  rewrite seqZ_app, countb_app by lia.
  rewrite (countb_ext (bit_in (w :: mask)) (Z.testbit w) (seqZ 0 32)).
  2:{ intros y Hy%elem_of_seqZ. unfold bit_in. by rewrite Z.div_small, Z.mod_small by lia. }
  replace (seqZ (0 + 32) (32 * Z.of_nat (length mask)))
    with (Z.add 32 <$> seqZ 0 (32 * Z.of_nat (length mask))) by (by rewrite fmap_add_seqZ).
  rewrite countb_fmap. f_equal. apply countb_ext. intros y Hy%elem_of_seqZ. unfold bit_in.
  replace (32 + y) with (y + 1 * 32) by lia. rewrite Z.div_add, Z.mod_add by lia.
  pose proof (Z.div_pos y 32).
  by replace (Z.to_nat (y / 32 + 1)) with (S (Z.to_nat (y / 32))) by lia.
Qed.

Lemma count_words_spec mask acc :
  words_ok mask -> 0 <= acc -> acc + 32 * Z.of_nat (length mask) < 2 ^ 30 ->
  count_words mask (length mask) acc = Some (acc + members mask).
Proof.
  revert acc. induction mask as [|w mask IH]; intros acc Hw Ha Hb; cbn [count_words length].
  - by rewrite Z.add_0_r.
  - simpl length in Hb. apply Forall_cons in Hw as [Hw1 Hw2].
    rewrite count_bytes_word by lia. cbn [mbind option_bind].
    pose proof (countb_nonneg (Z.testbit w) (seqZ 0 32)).
    pose proof (countb_le_length (Z.testbit w) (seqZ 0 32)) as Hle.
    rewrite length_seqZ in Hle. rewrite IH by (done || lia).
    rewrite members_cons. f_equal. lia.
Qed.

(** ** Iteration *)

(** The members from [cur] on, in ascending order. *)
Definition members_from (s : LS_BITSET_T) (cur : Z) : list Z :=
  filter (fun y => bit_in (bitmask s) y = true) (seqZ cur (setSize s - cur)).

Lemma members_from_step s cur :
  cur < setSize s ->
  members_from s cur = (if bit_in (bitmask s) cur then [cur] else []) ++ members_from s (cur + 1).
Proof.
  intros Hc. unfold members_from. rewrite (seqZ_cons cur) by lia.
  replace (Z.pred (setSize s - cur)) with (setSize s - (cur + 1)) by lia.
  replace (Z.succ cur) with (cur + 1) by lia.
  rewrite filter_cons. destruct (bit_in (bitmask s) cur); by case_decide.
Qed.

Lemma members_from_end s : members_from s (setSize s) = [].
Proof. unfold members_from. by rewrite Z.sub_diag. Qed.

Lemma next_bit_spec fuel s cur :
  set_ok s -> 0 <= cur <= setSize s -> setSize s - cur < Z.of_nat fuel ->
  exists found cur', next_bit fuel s cur = Some (found, cur') /\ 0 <= cur' <= setSize s /\
    match found with
    | None => members_from s cur = []
    | Some x => cur' = x /\ x < setSize s /\ members_from s cur = x :: members_from s (x + 1)
    end.
Proof.
  intros Hok. pose proof (sok_size _ Hok). pose proof (sok_bound _ Hok).
  revert cur. induction fuel as [|n IH]; intros cur Hc Hf; [lia|]. cbn [next_bit].
  case_test.
  - exists None, cur. split; [done|]. split; [done|]. assert (cur = setSize s) as -> by lia.
    apply members_from_end.
  - rewrite setTestValue_spec by (done || lia). cbn.
    rewrite members_from_step by lia. destruct (bit_in (bitmask s) cur) eqn:B.
    + exists (Some cur), cur. done.
    + rewrite u32_small by lia. apply IH; lia.
Qed.

Lemma set_walk_from s fuel err cur sz :
  set_ok s -> setNumElements s <> 0 -> getObjectByIndex s = None -> 0 < cur <= setSize s ->
  setSize s - cur + 1 < Z.of_nat fuel ->
  set_walk fuel err (BitsetIterator (Some s) cur sz) = Some (members_from s cur).
Proof.
  intros Hok Hne Hobj. revert err cur. pose proof (sok_size _ Hok). pose proof (sok_bound _ Hok).
  induction fuel as [|n IH]; intros err cur Hc Hf; [lia|].
  cbn [set_walk]. unfold setIteratorGetNextElement. cbn.
  rewrite (proj2 (Z.eqb_neq _ _) Hne), Hobj.
  destruct (next_bit_spec (S (Z.to_nat (setSize s - cur))) s cur) as (found & c & Hnb & Hc' & Hm);
    [done|lia|lia|]. cbn [next_bit] in Hnb. rewrite Hnb. cbn.
  destruct found as [x|]; cbn; [|by rewrite Hm].
  destruct Hm as (-> & Hx & Hm).
  assert (cur <= x).
  { assert (x ∈ members_from s cur) as Hin by (rewrite Hm; set_solver).
    apply list_elem_of_filter in Hin as [_ Hin%elem_of_seqZ]. lia. }
  rewrite (proj2 (Z.eqb_neq x NULL)) by (unfold NULL; lia). rewrite Hm.
  rewrite u32_small by lia. by rewrite IH by lia.
Qed.

(** * Properties *)

(** Two words, members 3 and 35. *)
Definition sample_set : LS_BITSET_T :=
  Bitset "sample" [8; 8] 64 2 2 false [] None None.

Ltac eval_set_ok :=
  constructor; [vm_compute; reflexivity|vm_compute; reflexivity|vm_compute; reflexivity
    |apply (bool_decide_unpack _); vm_compute; exact I|vm_compute; reflexivity].

(** Adding an element that is present fails with [LS_BITSET_ERR_ISALREDY] and
    changes nothing; otherwise exactly that element is added, the mask growing
    when needed, and the set stays well formed with its count right.  *)
Theorem setAddElement_correct select_fn err s obj x :
  set_ok s -> index_of s obj = Some x -> 0 <= x -> setWidth s + x + 2 < 2 ^ 26 ->
  if bit_in (bitmask s) x
  then setAddElement select_fn err (Some s) obj = Some (-1, LS_BITSET_ERR_ISALREDY, Some s, [])
  else exists s' calls, setAddElement select_fn err (Some s) obj = Some (0, err, Some s', calls) /\
    set_ok s' /\ setNumElements s' = setNumElements s + 1 /\
    (forall y, 0 <= y -> bit_in (bitmask s') y = (y =? x) || bit_in (bitmask s) y) /\
    calls = if allowObservers s
            then setNotifyObservers select_fn s (BitsetEvent LS_BITSET_EVENT_ENTER obj) else [].
Proof.
  intros Hok Hidx Hx Hw. unfold setAddElement. rewrite Hidx.
  pose proof (sok_size _ Hok) as Hsz. pose proof (sok_bound _ Hok).
  pose proof (sok_len _ Hok) as Hlen. rewrite (u32_small x) by lia.
  assert (Hmain : forall s1, set_ok s1 -> x < setSize s1 -> bit_in (bitmask s1) x = false ->
    setNumElements s1 = setNumElements s -> allowObservers s1 = allowObservers s ->
    observers s1 = observers s -> (forall y, bit_in (bitmask s1) y = bit_in (bitmask s) y) ->
    exists s' calls,
      (w ← get_word (bitmask s1) (SET_GET_WORD x);
       let s := with_mask s1 (<[Z.to_nat (SET_GET_WORD x) := Z.lor w (bit_at (SET_GET_BIT_IN_WORD x))]> (bitmask s1)) in
       let s := with_num s (u32 (setNumElements s + 1)) in
       Some (0, err, Some s, if allowObservers s
         then setNotifyObservers select_fn s (BitsetEvent LS_BITSET_EVENT_ENTER obj) else []))
      = Some (0, err, Some s', calls) /\
      set_ok s' /\ setNumElements s' = setNumElements s + 1 /\
      (forall y, 0 <= y -> bit_in (bitmask s') y = (y =? x) || bit_in (bitmask s) y) /\
      calls = if allowObservers s
        then setNotifyObservers select_fn s (BitsetEvent LS_BITSET_EVENT_ENTER obj) else []).
  { intros s1 Hok1 Hlt Hnot Hnum Ha Ho Hbits. pose proof (sok_size _ Hok1).
    pose proof (sok_bound _ Hok1). pose proof (sok_len _ Hok1). pose proof (Z.mod_pos_bound x 32).
    rewrite word_of, offset_of, bit_at_pow by lia.
    destruct (word_range (bitmask s1) x) as (w & -> & Hword); [lia|]. cbn.
    eexists _, _. split; [reflexivity|]. split; [by apply set_bit_ok|]. cbn. split.
    - rewrite u32_small; [lia|]. rewrite (sok_num _ Hok1).
      pose proof (members_bound (bitmask s1)). lia.
    - rewrite Ha. split; [|by destruct (allowObservers s); [unfold setNotifyObservers; cbn; rewrite Ho|]].
      intros y Hy. rewrite (bit_in_on _ _ w) by done. by rewrite Hbits. }
  destruct (setSize s <=? x) eqn:Hge; bool_prop.
  - assert (Hnot : bit_in (bitmask s) x = false) by (apply bit_in_beyond; lia). rewrite Hnot.
    destruct (enlarge_ok s x Hok Hx Hw) as (s1 & -> & Hok1 & Hw1 & Hb1 & Hn1 & Ha1 & Ho1). cbn.
    apply Hmain; try done; [|by rewrite Hb1]. rewrite (sok_size _ Hok1). lia.
  - rewrite setTestValue_spec by (done || lia). cbn.
    destruct (bit_in (bitmask s) x) eqn:B; [done|]. by apply Hmain.
Qed.

Lemma setAddElement_correct_witness :
  exists s' calls, setAddElement (fun _ _ _ => true) 0 (Some sample_set) 100
      = Some (0, 0, Some s', calls) /\ set_ok s' /\ bit_in (bitmask s') 100 = true.
Proof.
  destruct (setAddElement_correct (fun _ _ _ => true) 0 sample_set 100 100)
    as (s' & calls & H & Hok & _ & Hb & _);
    [eval_set_ok|reflexivity|lia|vm_compute; reflexivity|].
  exists s', calls. split; [exact H|]. split; [exact Hok|]. rewrite Hb by lia. reflexivity.
Defined.

(** On a well-formed set [setIsMember] is membership, an index out of range
    being no member; on the copy that [setDup] makes it is [FALSE] for every
    object, because the copy's element count stays zero.  *)
Theorem setIsMember_correct err s obj x :
  set_ok s -> index_of s obj = Some x -> 0 <= x < 2 ^ 31 ->
  (exists err', setIsMember err (Some s) obj
                = Some (if bit_in (bitmask s) x then 1 else 0, err')) /\
  setIsMember err (Some (setDup s)) obj = Some (0, LS_BITSET_ERR_SETEMPTY).
Proof.
  intros Hok Hidx Hx. split; [|done]. unfold setIsMember. rewrite Hidx, (u32_small x) by lia.
  pose proof (sok_size _ Hok). pose proof (sok_len _ Hok). case_test.
  - rewrite (members_zero (bitmask s)); [by eexists| |lia]. by rewrite <- (sok_num _ Hok).
  - case_test; [rewrite bit_in_beyond by lia; by eexists|].
    rewrite setTestValue_spec by (done || lia). by eexists.
Qed.

Lemma setIsMember_correct_witness :
  exists err', setIsMember 0 (Some sample_set) 35 = Some (1, err').
Proof.
  destruct (setIsMember_correct 0 sample_set 35 35) as [[err' H] _];
    [eval_set_ok|reflexivity|lia|]. exists err'. rewrite H. reflexivity.
Defined.

(** Removing a member removes exactly it and keeps the set well formed.
    Removing an index that is in range but is not a member reports success
    too: the mask is unchanged and the count is one too low, modulo [2^32].
    *)
Theorem setRemoveElement_correct err s obj x :
  set_ok s -> getIndexByObject s = None -> obj = x -> 0 <= x < setSize s -> setNumElements s <> 0 ->
  exists s', setRemoveElement err (Some s) obj = Some (0, err, Some s') /\
    (forall y, 0 <= y -> bit_in (bitmask s') y = negb (y =? x) && bit_in (bitmask s) y) /\
    setNumElements s' = setNumElements s - 1 /\
    (set_ok s' <-> bit_in (bitmask s) x = true).
Proof.
  intros Hok Hidx -> Hx Hne. unfold setRemoveElement.
  pose proof (sok_size _ Hok). pose proof (sok_len _ Hok). pose proof (sok_bound _ Hok).
  rewrite (proj2 (Z.eqb_neq _ _) Hne), Hidx, (u32_small x) by lia.
  rewrite (proj2 (Z.leb_gt _ _)) by lia.
  pose proof (Z.mod_pos_bound x 32). pose proof (members_bound (bitmask s)).
  pose proof (sok_num _ Hok) as Hnum.
  rewrite word_of, offset_of by lia.
  destruct (word_range (bitmask s) x) as (w & -> & Hword); [lia|]. cbn [mbind option_bind].
  assert (Hwb : 0 <= w < 2 ^ 32) by (eapply (Forall_lookup_1 _ _ _ _ (sok_words _ Hok)), Hword).
  assert (Hsh : Z.shiftl 1 (x mod 32) = 2 ^ (x mod 32)) by (rewrite Z.shiftl_mul_pow2; lia).
  rewrite Hsh.
  eexists. split; [reflexivity|]. cbn [bitmask with_num with_mask setNumElements].
  split; [intros y Hy; apply bit_in_off; (done || lia)|].
  split; [apply u32_small; lia|]. split.
  - intros Hok'. destruct (bit_in (bitmask s) x) eqn:B; [done|]. exfalso.
    pose proof (sok_num _ Hok') as Hnum'.
    cbn [bitmask with_num with_mask setNumElements] in Hnum'. rewrite u32_small in Hnum' by lia.
    rewrite (members_same _ (bitmask s)) in Hnum'; [lia|by rewrite length_insert|].
    intros y Hy. rewrite (bit_in_off _ _ w) by (done || lia).
    destruct (Z.eqb_spec y x); [by subst|done].
  - intros B. by apply clear_bit_ok.
Qed.

Lemma setRemoveElement_correct_witness :
  exists s', setRemoveElement 0 (Some sample_set) 35 = Some (0, 0, Some s') /\ set_ok s' /\
    bit_in (bitmask s') 35 = false /\ bit_in (bitmask s') 3 = true.
Proof.
  destruct (setRemoveElement_correct 0 sample_set 35 35) as (s' & H & Hb & _ & Hok);
    [eval_set_ok|reflexivity|reflexivity|vm_compute; intuition congruence|discriminate|].
  exists s'. split; [exact H|]. split; [apply Hok; reflexivity|]. rewrite !Hb by lia.
  split; reflexivity.
Defined.

(** [setOperate] makes membership in the destination the union, intersection,
    symmetric difference or copy of the two memberships, enlarging the
    destination when the source is wider; it never updates the element count,
    so the result is well formed only when the number of members is what it
    was.  *)
Theorem setOperate_correct err dest src op :
  set_ok dest -> set_ok src -> setWidth dest + setWidth src + 2 < 2 ^ 26 ->
  op = LS_SET_UNION \/ op = LS_SET_INTERSECT \/ op = LS_SET_DIFFERENCE \/ op = LS_SET_ASSIGN ->
  exists dest', setOperate err dest src op = Some (err, dest') /\
    (forall y, bit_in (bitmask dest') y = op_bool op (bit_in (bitmask dest) y) (bit_in (bitmask src) y)) /\
    setNumElements dest' = setNumElements dest /\
    setWidth src <= setWidth dest' /\ setSize dest' = 32 * setWidth dest' /\
    Z.of_nat (length (bitmask dest')) = setWidth dest'.
Proof.
  intros Hd Hs Hw Hop. unfold setOperate.
  pose proof (sok_len _ Hs) as Hls. pose proof (sok_len _ Hd) as Hld.
  replace (negb _ && _ && _ && _) with false by (by destruct Hop as [->|[->|[->| ->]]]).
  replace (Z.to_nat (setWidth src)) with (length (bitmask src)) by lia.
  assert (Hen : exists d1,
    (if setWidth dest <? setWidth src then setEnlarge dest (setWidth src) else Some dest) = Some d1 /\
    set_ok d1 /\ setWidth src <= setWidth d1 /\ setNumElements d1 = setNumElements dest /\
    forall y, bit_in (bitmask d1) y = bit_in (bitmask dest) y).
  { case_test; [|by exists dest].
    destruct (enlarge_ok dest (setWidth src)) as (d1 & -> & Hok1 & Hw1 & Hb1 & Hn1 & _); [done|lia|lia|].
    exists d1. repeat (split; [done || lia|]). done. }
  destruct Hen as (d1 & -> & Hok1 & Hw1 & Hn1 & Hb1). cbn [mbind option_bind].
  pose proof (sok_len _ Hok1).
  destruct (combine_op (bitmask d1) (bitmask src) op) as (m & -> & Hl & Hm); [lia|].
  cbn. eexists. split; [reflexivity|]. cbn. split; [intros y; by rewrite Hm, Hb1|].
  split; [done|]. split; [done|]. split; [apply (sok_size _ Hok1)|]. by rewrite Hl.
Qed.

Lemma setOperate_correct_witness :
  exists d', setOperate 0 (simpleSetCreate 32 "empty") sample_set LS_SET_UNION = Some (0, d') /\
    bit_in (bitmask d') 35 = true /\ setNumElements d' = 0.
Proof.
  destruct (setOperate_correct 0 (simpleSetCreate 32 "empty") sample_set LS_SET_UNION)
    as (d' & H & Hb & Hn & _); [eval_set_ok|eval_set_ok|vm_compute; reflexivity|left; reflexivity|].
  exists d'. split; [exact H|]. rewrite Hb, Hn. split; reflexivity.
Defined.

(** [setGetNumElements], which adds up a table of bit counts over the bytes of
    the mask, returns the number of members and agrees with the running count
    of a well-formed set.  *)
Theorem setGetNumElements_correct err s :
  set_ok s -> setWidth s < 2 ^ 25 ->
  setGetNumElements err (Some s) = Some (members (bitmask s), err) /\
  members (bitmask s) = setNumElements s /\
  Forall (fun w => getNum1BitsInWord w = Some (countb (Z.testbit w) (seqZ 0 32))) (bitmask s).
Proof.
  intros Hok Hw. pose proof (sok_len _ Hok) as Hl. split.
  - unfold setGetNumElements. rewrite <- Hl, Nat2Z.id.
    rewrite count_words_spec; [done|apply Hok|lia|]. lia.
  - split; [symmetry; apply Hok|]. eapply Forall_impl; [apply Hok|]. simpl. intros w Hwb.
    unfold getNum1BitsInWord. by rewrite count_bytes_word.
Qed.

Lemma setGetNumElements_correct_witness :
  setGetNumElements 0 (Some sample_set) = Some (2, 0).
Proof.
  destruct (setGetNumElements_correct 0 sample_set) as [H _];
    [eval_set_ok|vm_compute; reflexivity|]. rewrite H. reflexivity.
Defined.

(** Walking a freshly attached iterator until it returns [NULL] terminates and
    visits the members in ascending order, each once; a set without an object
    function that contains 0 visits nothing at all, since the element 0 is
    returned as a null pointer.  *)
Theorem set_iteration_correct err s it :
  set_ok s -> setNumElements s <> 0 -> getObjectByIndex s = None ->
  exists it', setIteratorAttach err (Some s) it = (0, err, it') /\
    set_walk (S (S (Z.to_nat (setSize s)))) err it'
    = Some (if bit_in (bitmask s) 0 then [] else members_from s 0).
Proof.
  intros Hok Hne Hobj. eexists. split; [reflexivity|].
  pose proof (sok_size _ Hok). pose proof (sok_len _ Hok). pose proof (sok_bound _ Hok).
  assert (Hpos : 0 < setSize s).
  { pose proof (members_bound (bitmask s)). pose proof (sok_num _ Hok). lia. }
  remember (S (Z.to_nat (setSize s))) as n eqn:Hn. cbn [set_walk]. unfold setIteratorGetNextElement. cbn.
  rewrite (proj2 (Z.eqb_neq _ _) Hne), Hobj.
  destruct (next_bit_spec (S (Z.to_nat (setSize s - 0))) s 0) as (found & c & Hnb & Hc & Hm);
    [done|lia|lia|]. cbn [next_bit] in Hnb. rewrite Hnb. cbn.
  destruct (bit_in (bitmask s) 0) eqn:B.
  - rewrite members_from_step, B in Hm by lia. destruct found as [x|]; [|done].
    destruct Hm as (_ & _ & Hm). by injection Hm as <- _.
  - destruct found as [x|]; cbn; [|by rewrite Hm]. destruct Hm as (-> & Hx & Hm).
    assert (0 < x).
    { assert (x ∈ members_from s 0) as Hin by (rewrite Hm; set_solver).
      apply list_elem_of_filter in Hin as [Hb Hin%elem_of_seqZ].
      destruct (Z.eq_dec x 0) as [->|]; [congruence|lia]. }
    rewrite (proj2 (Z.eqb_neq x NULL)) by (unfold NULL; lia).
    rewrite u32_small, Hm by lia. rewrite (set_walk_from s) by (done || lia). done.
Qed.

Lemma set_iteration_correct_witness :
  exists it', setIteratorAttach 0 (Some sample_set) (BitsetIterator None 0 0) = (0, 0, it') /\
    set_walk 66 0 it' = Some [3; 35].
Proof.
  destruct (set_iteration_correct 0 sample_set (BitsetIterator None 0 0)) as (it' & H & Hw);
    [eval_set_ok|discriminate|reflexivity|]. exists it'. split; [exact H|].
  change 66%nat with (S (S (Z.to_nat (setSize sample_set)))). rewrite Hw. reflexivity.
Defined.
