(* ===== verification/ListSet.v ===== *)
(** * Sorted list sets, [lsf/intlib/listset.c]

    Sets of [long] kept as ascending singly linked lists.  A chain is the list
    of its cells in order, a cell being its address and its element; each chain
    is owned by one variable, and the operations consume the chains they are
    given.  Cells that are released go to the free list [FreeSet], which
    [listSetAlloc] serves first; [brk] stands for the allocator behind
    [safe_calloc], which terminates the program rather than return [NULL].
    Negative elements mark cells to be dropped, so the sets proper hold
    non-negative elements. *)

From Stdlib Require Import Sorted.
From S2P Require Import Prelude.

(** [struct listSet]; the [next] field is the order of the chain. *)
Record listSet := Cell { addr : Z; elem : Z }.

Record lstate := LState { FreeSet : list listSet; brk : Z }.

Definition elems (set : list listSet) : list Z := elem <$> set.
Definition addrs (set : list listSet) : list Z := addr <$> set.

(** ** Cells *)

Definition listSetAlloc (s : lstate) (el : Z) : list listSet * lstate :=
  match FreeSet s with
  | Cell p _ :: rest => ([Cell p el], LState rest (brk s))
  | [] => ([Cell (brk s) el], LState [] (brk s + 1))
  end.

Definition listSetFree (s : lstate) (set : list listSet) : lstate :=
  match set with
  | [] => s
  | _ => LState (set ++ FreeSet s) (brk s)
  end.

(** [collectFreeSet] gives the cells back; the result lists them in order. *)
Definition collectFreeSet (s : lstate) : list listSet * lstate :=
  (FreeSet s, LState [] (brk s)).

(** ** Operations *)

Fixpoint listSetEqual (set1 set2 : list listSet) : bool :=
  match set1, set2 with
  | Cell _ x :: set1, Cell _ y :: set2 => if x =? y then listSetEqual set1 set2 else false
  | [], [] => true
  | _, _ => false
  end.

(** The merge loop of [listSetUnion]: equal elements are both kept. *)
Fixpoint merge (set1 : list listSet) : list listSet -> list listSet :=
  match set1 with
  | [] => fun set2 => set2
  | Cell p x :: t1 =>
      fix go (set2 : list listSet) : list listSet :=
        match set2 with
        | [] => set1
        | Cell q y :: t2 => if x <=? y then Cell p x :: merge t1 set2 else Cell q y :: go t2
        end
  end.

Definition listSetUnion (s : lstate) (set1 set2 : list listSet) : list listSet * lstate :=
  let '(setHead, s) := listSetAlloc s (-1) in
  (merge set1 set2, listSetFree s setHead).

(** The marking loop of [listSetIntersect]. *)
Fixpoint mark_intersect (setA : list listSet) : list listSet -> list listSet :=
  match setA with
  | [] => fun _ => []
  | Cell p x :: tA =>
      fix go (setB : list listSet) : list listSet :=
        match setB with
        | [] => Cell p (-1) :: mark_intersect tA []
        | Cell _ y :: tB =>
            if x =? y then Cell p x :: mark_intersect tA tB
            else if x <? y then Cell p (-1) :: mark_intersect tA setB
            else go tB
        end
  end.

(** The sweeping loop: marked cells after the first are released one by one. *)
Fixpoint sweep_tail (l : list listSet) (s : lstate) : list listSet * lstate :=
  match l with
  | [] => ([], s)
  | c :: l =>
      if elem c <? 0 then sweep_tail l (listSetFree s [c])
      else let '(r, s) := sweep_tail l s in (c :: r, s)
  end.

(** Then the first cell, when it is marked. *)
Definition sweep (set1 : list listSet) (s : lstate) : list listSet * lstate :=
  match set1 with
  | [] => ([], s)
  | c :: l =>
      let '(r, s) := sweep_tail l s in
      if elem c <? 0 then (r, listSetFree s [c]) else (c :: r, s)
  end.

Definition listSetIntersect (s : lstate) (set1 set2 : list listSet) : list listSet * lstate :=
  sweep (mark_intersect set1 set2) (listSetFree s set2).

Fixpoint dup_loop (s : lstate) (set : list listSet) : list listSet * lstate :=
  match set with
  | [] => ([], s)
  | Cell _ x :: set =>
      let '(c, s) := listSetAlloc s x in
      let '(r, s) := dup_loop s set in (c ++ r, s)
  end.

Definition listSetDuplicate (s : lstate) (set : list listSet) : list listSet * lstate :=
  let '(setHead, s) := listSetAlloc s (-1) in
  let '(r, s) := dup_loop s set in
  (r, listSetFree s setHead).

Fixpoint listSetMember (el : Z) (set : list listSet) : bool :=
  match set with
  | [] => false
  | Cell _ x :: set => if x =? el then true else listSetMember el set
  end.

(** The search after the first cell: the chain without the cell found. *)
Fixpoint del_tail (el : Z) (l : list listSet) : list listSet * list listSet :=
  match l with
  | [] => ([], [])
  | c :: l =>
      if elem c =? el then (l, [c])
      else let '(r, found) := del_tail el l in (c :: r, found)
  end.

Definition listSetDel (s : lstate) (el : Z) (set : list listSet) : list listSet * lstate :=
  match set with
  | [] => ([], s)
  | c :: l =>
      if elem c =? el then (l, listSetFree s [c])
      else let '(r, found) := del_tail el l in (c :: r, listSetFree s found)
  end.

(** [while (ptr->next && ptr->next->elem < elem)], then the new cell. *)
Fixpoint insert_tail (el : Z) (new l : list listSet) : list listSet :=
  match l with
  | c :: t => if elem c <? el then c :: insert_tail el new t else new ++ l
  | [] => new
  end.

Definition listSetInsert (s : lstate) (el : Z) (set : list listSet) : list listSet * lstate :=
  if listSetMember el set then (set, s) else
  match set with
  | [] => listSetAlloc s el
  | c :: l =>
      let '(ptr, s) := listSetAlloc s el in
      if el <? elem c then (ptr ++ set, s) else (c :: insert_tail el ptr l, s)
  end.

(** The marking loop of [listSetSub]. *)
Fixpoint mark_sub (set1 : list listSet) : list listSet -> list listSet :=
  match set1 with
  | [] => fun _ => []
  | Cell p x :: t1 =>
      fix go (set2 : list listSet) : list listSet :=
        match set2 with
        | [] => set1
        | Cell _ y :: t2 =>
            if x =? y then Cell p (-1) :: mark_sub t1 t2
            else if y <? x then go t2
            else Cell p x :: mark_sub t1 set2
        end
  end.

Definition listSetSub (s : lstate) (set1 set2 : list listSet) : list listSet * lstate :=
  match set1, set2 with
  | [], _ => ([], listSetFree s set2)
  | _, [] => (set1, s)
  | _, _ => sweep (mark_sub set1 set2) (listSetFree s set2)
  end.

(** [for (i = 1; i < k; i++)]; the result is an [int]. *)
Definition listSetGetEle (k : Z) (set : list listSet) : Z :=
  if k <? 1 then 0 else
  match set !! Z.to_nat (k - 1) with
  | Some c => i32 (elem c)
  | None => 0
  end.

Fixpoint listSetNumEle (set : list listSet) : Z :=
  match set with
  | [] => 0
  | _ :: set => i32 (listSetNumEle set + 1)
  end.

(** The scan of [listSetSelect]: positions of [low] and [up]. *)
Fixpoint select_scan (i : nat) (start stop : Z) (ptr : list listSet) (low up : option nat)
    : option nat * option nat :=
  match ptr with
  | [] => (low, up)
  | c :: ptr =>
      if stop <? elem c then (low, up) else
      select_scan (S i) start stop ptr (if elem c <? start then Some i else low) (Some i)
  end.

Definition listSetSelect (s : lstate) (start stop : Z) (set : list listSet) : list listSet * lstate :=
  if stop <? start then ([], listSetFree s set) else
  let '(low, up) := select_scan 0 start stop set None None in
  match up with
  | None => ([], listSetFree s set)
  | Some u =>
      let s1 := listSetFree s (drop (S u) set) in
      match low with
      | None => (take (S u) set, s1)
      | Some l =>
          if (S l =? length set)%nat then ([], listSetFree s set)
          else (drop (S l) (take (S u) set), listSetFree s1 (take (S l) (take (S u) set)))
      end
  end.

(** ** Iterators *)

Definition listSetIteratorAttach (set : list listSet) : list listSet := set.

(** [listSetIteratorBegin] follows the position without a test. *)
Definition listSetIteratorBegin (pos : list listSet) : option (Z * list listSet) :=
  match pos with [] => None | c :: pos => Some (elem c, pos) end.

Definition listSetIteratorGetNext (pos : list listSet) : option Z * list listSet :=
  match pos with [] => (None, []) | c :: pos => (Some (elem c), pos) end.

(** * Lemmas *)

Definition sset (set : list listSet) : Prop :=
  StronglySorted Z.lt (elems set) /\ Forall (fun x => 0 <= x) (elems set).

(** Every cell is in the result or on the free list, and only those. *)
Definition conserves (s : lstate) (ins : list listSet) (s' : lstate) (out : list listSet) : Prop :=
  brk s' = brk s /\ addrs (out ++ FreeSet s') ≡ₚ addrs (ins ++ FreeSet s).

Lemma addrs_app l1 l2 : addrs (l1 ++ l2) = addrs l1 ++ addrs l2.
Proof. apply fmap_app. Qed.

Lemma elems_app l1 l2 : elems (l1 ++ l2) = elems l1 ++ elems l2.
Proof. apply fmap_app. Qed.

Lemma FreeSet_free s set : FreeSet (listSetFree s set) = set ++ FreeSet s.
Proof. by destruct set. Qed.

Lemma brk_free s set : brk (listSetFree s set) = brk s.
Proof. by destruct set. Qed.

Create Rewrite HintDb lset.
#[export] Hint Rewrite addrs_app elems_app FreeSet_free brk_free : lset.

Lemma sset_cons p x set :
  sset (Cell p x :: set) <->
  sset set /\ 0 <= x /\ Forall (fun y => x < y) (elems set).
Proof.
  unfold sset. cbn. rewrite Forall_cons. split.
  - intros [Hs [Hx Hf]]. apply StronglySorted_inv in Hs as [Hs Hlt]. auto.
  - intros ([Hs Hf] & Hx & Hlt). split; [by constructor|auto].
Qed.

Lemma sset_app l1 l2 :
  sset (l1 ++ l2) -> forall x y, x ∈ elems l1 -> y ∈ elems l2 -> x < y.
Proof.
  induction l1 as [|[p z] l1 IH]; cbn; intros H x y Hx Hy; [by apply elem_of_nil in Hx|].
  apply sset_cons in H as (H & _ & Hlt). rewrite elems_app in Hlt.
  apply Forall_app in Hlt as [_ Hlt]. rewrite Forall_forall in Hlt.
  apply elem_of_cons in Hx as [->|Hx]; auto.
Qed.

Lemma member_spec el set : listSetMember el set = bool_decide (el ∈ elems set).
Proof.
  induction set as [|[p x] set IH]; cbn; [done|]. case_test.
  - symmetry. apply bool_decide_eq_true_2. set_solver.
  - rewrite IH. apply bool_decide_ext. rewrite elem_of_cons.
    split; [tauto|]. intros [->|]; [done|tauto].
Qed.

Lemma sweep_tail_spec (l : list listSet) s :
  let '(r, s') := sweep_tail l s in
  r = filter (fun c => 0 <= elem c) l /\ brk s' = brk s /\
  r ++ FreeSet s' ≡ₚ l ++ FreeSet s.
Proof.
  revert s. induction l as [|c l IH]; intros s; cbn [sweep_tail]; [done|].
  case_test.
  - specialize (IH (listSetFree s [c])). destruct (sweep_tail l _) as [r s'].
    autorewrite with lset in IH. destruct IH as (-> & Hb & Hp).
    rewrite filter_cons, decide_False by lia. split; [done|]. split; [done|].
    rewrite Hp. solve_Permutation.
  - specialize (IH s). destruct (sweep_tail l s) as [r s'].
    destruct IH as (-> & Hb & Hp). rewrite filter_cons, decide_True by lia.
    split; [done|]. split; [done|]. cbn. by rewrite Hp.
Qed.

Lemma sweep_spec (l : list listSet) s :
  let '(r, s') := sweep l s in
  r = filter (fun c => 0 <= elem c) l /\ brk s' = brk s /\
  r ++ FreeSet s' ≡ₚ l ++ FreeSet s.
Proof.
  destruct l as [|c l]; [done|]. cbn [sweep].
  pose proof (sweep_tail_spec l s) as H. destruct (sweep_tail l s) as [r s'].
  destruct H as (-> & Hb & Hp). case_test; rewrite filter_cons; autorewrite with lset.
  - rewrite decide_False by lia. split; [done|]. split; [done|].
    cbn. rewrite <- Hp. solve_Permutation.
  - rewrite decide_True by lia. split; [done|]. split; [done|]. cbn. by rewrite Hp.
Qed.

Lemma mark_intersect_nil a : mark_intersect a [] = (fun c => Cell (addr c) (-1)) <$> a.
Proof. induction a as [|[p x] a IH]; cbn; [done|]. by rewrite IH. Qed.

Lemma filter_marked (a : list listSet) :
  filter (fun c => 0 <= elem c) ((fun c : listSet => Cell (addr c) (-1)) <$> a) = [].
Proof.
  induction a as [|c a IH]; [done|]. rewrite fmap_cons, filter_cons, decide_False; [done|].
  cbn. lia.
Qed.

Lemma above_not_elem x (l : list Z) : Forall (fun y => x < y) l -> x ∉ l.
Proof. intros Hf Hin. rewrite Forall_forall in Hf. specialize (Hf _ Hin). lia. Qed.

Lemma filter_agree (P Q : listSet -> Prop) `{!forall c, Decision (P c)} `{!forall c, Decision (Q c)}
    (a : list listSet) :
  (forall c, c ∈ a -> P c <-> Q c) -> filter P a = filter Q a.
Proof.
  induction a as [|c a IH]; intros Hc; [done|]. rewrite !filter_cons.
  rewrite IH by (intros; apply Hc; by right).
  destruct (Hc c) as [H1 H2]; [by left|]. by repeat case_decide; try tauto.
Qed.

Lemma filter_none (P : listSet -> Prop) `{!forall c, Decision (P c)} (a : list listSet) :
  (forall c, c ∈ a -> ~ P c) -> filter P a = [].
Proof.
  induction a as [|c a IH]; intros Hc; [done|]. rewrite filter_cons, decide_False.
  - apply IH. intros; apply Hc; by right.
  - apply Hc. by left.
Qed.

(** A head of the second set below every element of the first is no member. *)
Lemma filter_skip (a : list listSet) y (l : list Z) :
  Forall (fun x => y < x) (elems a) ->
  filter (fun c => elem c ∈ y :: l) a = filter (fun c => elem c ∈ l) a.
Proof.
  intros Hf. apply filter_agree. intros c Hc. rewrite Forall_forall in Hf.
  specialize (Hf (elem c)). rewrite elem_of_cons.
  assert (elem c ∈ elems a) by (apply list_elem_of_fmap; eauto).
  split; [intros [Hy|]; [specialize (Hf ltac:(done)); lia|done]|tauto].
Qed.

Lemma mark_intersect_spec a b :
  sset a -> sset b ->
  filter (fun c => 0 <= elem c) (mark_intersect a b) = filter (fun c => elem c ∈ elems b) a /\
  addrs (mark_intersect a b) = addrs a.
Proof.
  revert b. induction a as [|[p x] a IHa]; [done|].
  induction b as [|[q y] b IHb]; intros Ha Hb.
  - rewrite mark_intersect_nil, filter_marked. split.
    + symmetry. apply filter_none. intros c _. apply not_elem_of_nil.
    + unfold addrs. rewrite <- list_fmap_compose. by apply list_fmap_ext.
  - pose proof Ha as (Ha' & Hx & Hlt)%sset_cons. pose proof Hb as (Hb' & Hy & Hlt')%sset_cons.
    cbn [mark_intersect]. case_test; [subst y|case_test].
    + destruct (IHa b) as [IH1 IH2]; [done|done|]. cbn [addrs fmap list_fmap].
      split; [|by f_equal]. rewrite !filter_cons. cbn [elem].
      rewrite decide_True by done. rewrite decide_True by set_solver.
      rewrite IH1. f_equal. symmetry. by apply filter_skip.
    + destruct (IHa (Cell q y :: b)) as [IH1 IH2]; [done|done|]. cbn [addrs fmap list_fmap].
      split; [|by f_equal]. rewrite !filter_cons. cbn [elem].
      rewrite decide_False by lia. rewrite IH1, decide_False; [done|].
      apply above_not_elem. constructor; [done|]. eapply Forall_impl; [done|]. cbn. lia.
    + destruct IHb as [IH1 IH2]; [done|done|]. split; [|exact IH2].
      etrans; [exact IH1|]. symmetry. apply filter_skip. constructor; [cbn; lia|].
      eapply Forall_impl; [done|]. cbn. lia.
Qed.

Lemma mark_sub_spec a b :
  sset a -> sset b ->
  filter (fun c => 0 <= elem c) (mark_sub a b) = filter (fun c => elem c ∉ elems b) a /\
  addrs (mark_sub a b) = addrs a.
Proof.
  revert b. induction a as [|[p x] a IHa]; [done|].
  induction b as [|[q y] b IHb]; intros Ha Hb.
  - split; [|done]. apply filter_agree. intros c Hc. split; [set_solver|].
    intros _. destruct Ha as [_ Hf]. rewrite Forall_forall in Hf. apply Hf, list_elem_of_fmap. eauto.
  - pose proof Ha as (Ha' & Hx & Hlt)%sset_cons. pose proof Hb as (Hb' & Hy & Hlt')%sset_cons.
    cbn [mark_sub]. case_test; [subst y|case_test].
    + destruct (IHa b) as [IH1 IH2]; [done|done|]. cbn [addrs fmap list_fmap].
      split; [|by f_equal]. rewrite !filter_cons. cbn [elem].
      rewrite decide_False by lia. rewrite decide_False by set_solver.
      rewrite IH1. apply filter_agree. intros c Hc. cbn. rewrite not_elem_of_cons.
      split; [|tauto]. intros Hn. split; [|done]. rewrite Forall_forall in Hlt.
      specialize (Hlt (elem c)). assert (elem c ∈ elems a) by (apply list_elem_of_fmap; eauto).
      specialize (Hlt ltac:(done)). lia.
    + destruct IHb as [IH1 IH2]; [done|done|]. split; [|exact IH2].
      etrans; [exact IH1|]. apply filter_agree. intros c Hc. cbn. rewrite not_elem_of_cons.
      split; [|tauto]. intros Hn. split; [|done].
      apply elem_of_cons in Hc as [->|Hc]; [cbn; lia|]. rewrite Forall_forall in Hlt.
      specialize (Hlt (elem c)). assert (elem c ∈ elems a) by (apply list_elem_of_fmap; eauto).
      specialize (Hlt ltac:(done)). lia.
    + destruct (IHa (Cell q y :: b)) as [IH1 IH2]; [done|done|]. cbn [addrs fmap list_fmap].
      split; [|by f_equal]. rewrite !filter_cons. cbn [elem].
      rewrite decide_True by lia. rewrite IH1, decide_True; [done|].
      apply above_not_elem. constructor; [cbn; lia|]. eapply Forall_impl; [done|]. cbn. lia.
Qed.

(** What one allocation does to the cells. *)
Definition allocated (s : lstate) (p : Z) (s' : lstate) : Prop :=
  (addrs (FreeSet s) = p :: addrs (FreeSet s') /\ brk s' = brk s) \/
  (FreeSet s = [] /\ FreeSet s' = [] /\ p = brk s /\ brk s' = brk s + 1).

Lemma alloc_spec s el :
  exists p s', listSetAlloc s el = ([Cell p el], s') /\ allocated s p s'.
Proof.
  unfold listSetAlloc, allocated. destruct s as [[|[p x] free] b]; cbn; eauto 10.
Qed.

Lemma elems_perm l1 l2 : l1 ≡ₚ l2 -> elems l1 ≡ₚ elems l2.
Proof. intros H. unfold elems. by rewrite H. Qed.

Lemma addrs_perm l1 l2 : l1 ≡ₚ l2 -> addrs l1 ≡ₚ addrs l2.
Proof. intros H. unfold addrs. by rewrite H. Qed.

Lemma insert_tail_perm el c l : insert_tail el [c] l ≡ₚ c :: l.
Proof.
  induction l as [|d l IH]; cbn; [done|]. case_test; [|done].
  rewrite IH. apply Permutation_swap.
Qed.

Lemma insert_tail_sset el p l :
  sset l -> 0 <= el -> el ∉ elems l -> sset (insert_tail el [Cell p el] l).
Proof.
  induction l as [|[q x] l IH]; intros Hl He Hn; cbn.
  - split; repeat constructor; done.
  - pose proof Hl as (Hl' & Hx & Hlt)%sset_cons. case_test.
    + apply sset_cons. cbn in Hn. apply not_elem_of_cons in Hn as [_ Hn].
      split; [by apply IH|]. split; [done|].
      rewrite (elems_perm _ _ (insert_tail_perm _ _ _)). by constructor.
    + apply sset_cons. cbn in Hn. apply not_elem_of_cons in Hn as [Hne Hn].
      split; [done|]. split; [done|]. constructor; [cbn; lia|].
      eapply Forall_impl; [done|]. cbn. lia.
Qed.

Lemma del_tail_spec el l :
  sset l -> let '(r, found) := del_tail el l in
  r = filter (fun c => elem c <> el) l /\ r ++ found ≡ₚ l.
Proof.
  induction l as [|[q x] l IH]; intros Hl; [done|].
  pose proof Hl as (Hl' & Hx & Hlt)%sset_cons. cbn [del_tail elem].
  case_test; rewrite filter_cons; cbn [elem].
  - subst. rewrite decide_False by auto. split; [|by rewrite Permutation_app_comm].
    symmetry. apply filter_all, Forall_forall. intros c Hc He. rewrite Forall_forall in Hlt.
    specialize (Hlt (elem c)). assert (elem c ∈ elems l) by (apply list_elem_of_fmap; eauto).
    specialize (Hlt ltac:(done)). lia.
  - rewrite decide_True by done. specialize (IH Hl'). destruct (del_tail el l) as [r found].
    destruct IH as [-> Hp]. split; [done|]. cbn. by rewrite Hp.
Qed.

Lemma merge_perm a b : merge a b ≡ₚ a ++ b.
Proof.
  revert b. induction a as [|[p x] a IHa]; [done|].
  induction b as [|[q y] b IHb]; cbn [merge]; [by rewrite app_nil_r|].
  case_test; cbn.
  - by rewrite IHa.
  - etrans; [apply Permutation_cons; [done|apply IHb]|]. solve_Permutation.
Qed.

Lemma sorted_weaken l : StronglySorted Z.lt l -> StronglySorted Z.le l.
Proof.
  induction 1 as [|y l Hs IH Hf]; constructor; [done|]. eapply Forall_impl; [done|]. cbn. lia.
Qed.

Lemma merge_sorted a b :
  sset a -> sset b -> StronglySorted Z.le (elems (merge a b)).
Proof.
  revert b. induction a as [|[p x] a IHa].
  { intros b _ [Hb _]. by apply sorted_weaken. }
  induction b as [|[q y] b IHb]; intros Ha Hb.
  { apply sorted_weaken, Ha. }
  pose proof Ha as (Ha' & Hx & Hlt)%sset_cons. pose proof Hb as (Hb' & Hy & Hlt')%sset_cons.
  assert (W : forall z l, Forall (fun v => z < v) l -> Forall (fun v => z <= v) l)
    by (intros; eapply Forall_impl; [done|]; cbn; lia).
  cbn [merge]. case_test; cbn [elems fmap list_fmap elem]; constructor.
  - by apply IHa.
  - change (Forall (Z.le x) (elems (merge a (Cell q y :: b)))).
    rewrite (elems_perm _ _ (merge_perm _ _)), elems_app. apply Forall_app. split; [by apply W|].
    constructor; [cbn; lia|]. eapply Forall_impl; [apply Hlt'|]. cbn. lia.
  - by apply IHb.
  - match goal with |- Forall _ (_ <$> ?m) =>
      change (Forall (Z.le y) (elems m)); change m with (merge (Cell p x :: a) b) end.
    rewrite (elems_perm _ _ (merge_perm _ _)), elems_app. apply Forall_app. split; [|by apply W].
    constructor; [cbn; lia|]. eapply Forall_impl; [apply Hlt|]. cbn. lia.
Qed.

(** The position of the last cell of a block that starts at [i]. *)
Definition last_at (i : nat) (l : list listSet) (d : option nat) : option nat :=
  match l with [] => d | _ => Some (i + length l - 1)%nat end.

Lemma last_at_cons i c l d : last_at (S i) l (Some i) = last_at i (c :: l) d.
Proof. destruct l; cbn; f_equal; lia. Qed.

Lemma scan_below i start stop A l low up :
  start <= stop -> Forall (fun c => elem c < start) A ->
  select_scan i start stop (A ++ l) low up
  = select_scan (i + length A) start stop l (last_at i A low) (last_at i A up).
Proof.
  intros Hs. revert i low up. induction A as [|c A IH]; intros i low up HA; cbn [select_scan app length].
  - by rewrite Nat.add_0_r.
  - apply Forall_cons in HA as [Hc HA].
    rewrite (proj2 (Z.ltb_ge _ _)), (proj2 (Z.ltb_lt _ _)) by lia. rewrite IH by done.
    rewrite (last_at_cons i c A low). change (last_at i (c :: A) up) with (last_at i (c :: A) low).
    f_equal; lia.
Qed.

Lemma scan_between i start stop B l low up :
  Forall (fun c => start <= elem c <= stop) B ->
  select_scan i start stop (B ++ l) low up
  = select_scan (i + length B) start stop l low (last_at i B up).
Proof.
  revert i up. induction B as [|c B IH]; intros i up HB; cbn [select_scan app length].
  - by rewrite Nat.add_0_r.
  - apply Forall_cons in HB as [Hc HB].
    rewrite (proj2 (Z.ltb_ge _ _)), (proj2 (Z.ltb_ge _ _)) by lia. rewrite IH by done.
    rewrite (last_at_cons i c B up). f_equal; lia.
Qed.

Lemma scan_above i start stop C low up :
  Forall (fun c => stop < elem c) C -> select_scan i start stop C low up = (low, up).
Proof.
  destruct C as [|c C]; [done|]. intros [Hc _]%Forall_cons. cbn.
  by rewrite (proj2 (Z.ltb_lt _ _)).
Qed.

(** A sorted set is the concatenation of what is below, in and above a range. *)
Lemma sset_split set start stop :
  sset set -> start <= stop -> exists A B C, set = A ++ B ++ C /\
    Forall (fun c => elem c < start) A /\ Forall (fun c => start <= elem c <= stop) B /\
    Forall (fun c => stop < elem c) C.
Proof.
  intros Hset Hle. induction set as [|[p x] set IH]; [by exists [], [], []|].
  apply sset_cons in Hset as (Hset & Hx & Hlt).
  destruct (IH Hset) as (A & B & C & -> & HA & HB & HC).
  assert (Hall : forall c, c ∈ A ++ B ++ C -> x < elem c).
  { intros c Hc. rewrite Forall_forall in Hlt. apply Hlt, list_elem_of_fmap. eauto. }
  destruct (Z.lt_ge_cases x start); [|destruct (Z.le_gt_cases x stop)].
  - exists (Cell p x :: A), B, C. split; [done|]. split; [by constructor|done].
  - assert (A = []) as ->.
    { destruct A as [|c A]; [done|]. apply Forall_cons in HA as [HA _].
      specialize (Hall c). cbn in Hall. specialize (Hall ltac:(left)). lia. }
    exists [], (Cell p x :: B), C. split; [done|]. split; [done|]. split; [by constructor|done].
  - exists [], [], (Cell p x :: A ++ B ++ C). split; [done|]. split; [done|]. split; [done|].
    constructor; [cbn; lia|]. apply Forall_forall. intros c Hc. specialize (Hall c Hc). lia.
Qed.

Lemma filter_split start stop (A B C : list listSet) :
  start <= stop ->
  Forall (fun c => elem c < start) A -> Forall (fun c => start <= elem c <= stop) B ->
  Forall (fun c => stop < elem c) C ->
  filter (fun c => start <= elem c <= stop) (A ++ B ++ C) = B.
Proof.
  intros Hle HA HB HC. rewrite !filter_app, (filter_all _ B) by done.
  rewrite Forall_forall in HA, HC.
  rewrite (filter_none _ A), (filter_none _ C); [by rewrite app_nil_r| |].
  - intros c Hc. specialize (HC c Hc). lia.
  - intros c Hc. specialize (HA c Hc). lia.
Qed.

Lemma select_spec s start stop set :
  sset set -> start <= stop ->
  let '(r, s') := listSetSelect s start stop set in
  r = filter (fun c => start <= elem c <= stop) set /\ conserves s set s' r.
Proof.
  intros Hset Hle. unfold listSetSelect, conserves. rewrite (proj2 (Z.ltb_ge _ _)) by lia.
  destruct (sset_split set start stop Hset Hle) as (A & B & C & -> & HA & HB & HC).
  rewrite scan_below, scan_between, scan_above, filter_split by done. cbn [plus].
  destruct (decide (A ++ B = [])) as [[-> ->]%app_eq_nil|HAB].
  { cbn. autorewrite with lset. done. }
  assert (Hup : last_at (length A) B (last_at 0 A None) = Some (length (A ++ B) - 1)%nat).
  { rewrite length_app. unfold last_at. destruct B, A; simpl length; [done|f_equal; lia..]. }
  rewrite Hup. assert (Hlen : S (length (A ++ B) - 1) = length (A ++ B)).
  { destruct (A ++ B); [done|]. simpl. lia. }
  rewrite Hlen, app_assoc, take_app_length, drop_app_length.
  destruct A as [|a A]; cbn [last_at].
  { autorewrite with lset. split; [done|]. split; [done|]. cbn [app]. solve_Permutation. }
  replace (S (0 + length (a :: A) - 1)) with (length (a :: A)) by (cbn; lia).
  rewrite length_app, (length_app (a :: A)). destruct (Nat.eqb_spec (length (a :: A)) (length (a :: A) + length B + length C)).
  - assert (B = []) as -> by (apply nil_length_inv; lia).
    assert (C = []) as -> by (apply nil_length_inv; lia).
    autorewrite with lset. rewrite !app_nil_r. done.
  - rewrite drop_app_length, take_app_length. autorewrite with lset.
    split; [done|]. split; [done|]. solve_Permutation.
Qed.

Lemma sset_filter (P : listSet -> Prop) `{!forall c, Decision (P c)} (l : list listSet) :
  sset l -> sset (filter P l).
Proof.
  induction l as [|[p x] l IH]; [done|]. intros (Hl & Hx & Hlt)%sset_cons. rewrite filter_cons.
  case_decide; [|auto]. apply sset_cons. split; [auto|]. split; [done|].
  apply Forall_forall. intros y (c & -> & Hc)%list_elem_of_fmap.
  apply list_elem_of_filter in Hc as [_ Hc]. rewrite Forall_forall in Hlt.
  apply Hlt, list_elem_of_fmap. eauto.
Qed.

(** Marking followed by sweeping. *)
Lemma swept_spec (P : listSet -> Prop) `{!forall c, Decision (P c)} s (marked set1 set2 : list listSet) :
  sset set1 -> filter (fun c => 0 <= elem c) marked = filter P set1 -> addrs marked = addrs set1 ->
  let '(r, s') := sweep marked (listSetFree s set2) in
  sset r /\ r = filter P set1 /\ conserves s (set1 ++ set2) s' r.
Proof.
  intros H1 Hf Ha. pose proof (sweep_spec marked (listSetFree s set2)) as Hsw.
  destruct (sweep marked _) as [r s']. autorewrite with lset in Hsw. destruct Hsw as (Hr & Hb & Hp).
  rewrite Hr, Hf. split; [by apply sset_filter|]. split; [done|]. split; [done|].
  rewrite <- Hf, <- Hr, (addrs_perm _ _ Hp). autorewrite with lset. rewrite Ha. by rewrite (assoc_L (++)).
Qed.

(** Insertion of a new element puts its cell after those with smaller ones. *)
Lemma insert_fresh s el set p s' :
  el ∉ elems set -> listSetAlloc s el = ([Cell p el], s') ->
  listSetInsert s el set = (insert_tail el [Cell p el] set, s').
Proof.
  intros Hn Ha. unfold listSetInsert. rewrite member_spec, bool_decide_eq_false_2, Ha by done.
  destruct set as [|[q x] l]; [done|]. cbn.
  cbn in Hn. apply not_elem_of_cons in Hn as [Hne _].
  case_test; [by rewrite (proj2 (Z.ltb_ge x el)) by lia|by rewrite (proj2 (Z.ltb_lt x el)) by lia].
Qed.

Lemma insert_tail_elem el p set x :
  x ∈ elems (insert_tail el [Cell p el] set) <-> x = el \/ x ∈ elems set.
Proof. rewrite (elems_perm _ _ (insert_tail_perm _ _ _)). cbn. by rewrite elem_of_cons. Qed.

Lemma del_tail_insert el p set :
  el ∉ elems set -> del_tail el (insert_tail el [Cell p el] set) = (set, [Cell p el]).
Proof.
  induction set as [|[q x] set IH]; intros Hn; cbn [insert_tail].
  - cbn. by rewrite Z.eqb_refl.
  - cbn in Hn. apply not_elem_of_cons in Hn as [Hne Hn].
    cbn [elem]. case_test; cbn [del_tail elem app].
    + rewrite (proj2 (Z.eqb_neq x el)) by done. by rewrite IH.
    + by rewrite Z.eqb_refl.
Qed.

Lemma del_insert s el p set :
  el ∉ elems set ->
  listSetDel s el (insert_tail el [Cell p el] set) = (set, listSetFree s [Cell p el]).
Proof.
  intros Hn. pose proof (del_tail_insert el p set Hn) as Hd. unfold listSetDel.
  destruct (insert_tail el [Cell p el] set) as [|c l] eqn:E; cbn [del_tail] in Hd; [done|].
  destruct (elem c =? el); [by simplify_eq|]. destruct (del_tail el l). by simplify_eq.
Qed.

Lemma sorted_NoDup l : StronglySorted Z.lt l -> NoDup l.
Proof.
  induction 1 as [|x l Hs IH Hf]; constructor; [by apply above_not_elem|done].
Qed.

Lemma sorted_strict l : StronglySorted Z.le l -> NoDup l -> StronglySorted Z.lt l.
Proof.
  induction 1 as [|x l Hs IH Hf]; intros Hnd; constructor; apply NoDup_cons in Hnd as [Hx Hnd]; [auto|].
  apply Forall_forall. intros y Hy. rewrite Forall_forall in Hf. specialize (Hf y Hy).
  assert (x <> y) by (by intros ->). lia.
Qed.

Lemma sset_sorted_NoDup l :
  StronglySorted Z.le (elems l) ->
  sset l <-> NoDup (elems l) /\ Forall (fun x => 0 <= x) (elems l).
Proof.
  intros Hs. split; [intros [Hl Hf]; split; [by apply sorted_NoDup|done]|].
  intros [Hnd Hf]. split; [by apply sorted_strict|done].
Qed.

(** * Properties *)

Definition sample_a : list listSet := [Cell 11 2; Cell 12 5; Cell 13 9].
Definition sample_b : list listSet := [Cell 21 5; Cell 22 7; Cell 23 9].
Definition sample_state : lstate := LState [Cell 31 0] 100.

Ltac eval_sset :=
  split; [repeat constructor|apply (bool_decide_unpack _); vm_compute; exact I].

(** On ascending sets of non-negative elements [listSetIntersect] keeps exactly
    the cells of the first set whose element is in the second and [listSetSub]
    those whose element is not; the results are again ascending, and every
    other cell of both arguments is on the free list exactly once.  *)
Theorem listSet_intersect_sub_correct s set1 set2 :
  sset set1 -> sset set2 ->
  (let '(r, s') := listSetIntersect s set1 set2 in
   sset r /\ r = filter (fun c => elem c ∈ elems set2) set1 /\ conserves s (set1 ++ set2) s' r) /\
  (let '(r, s') := listSetSub s set1 set2 in
   sset r /\ r = filter (fun c => elem c ∉ elems set2) set1 /\ conserves s (set1 ++ set2) s' r).
Proof.
  intros H1 H2. split.
  - unfold listSetIntersect. destruct (mark_intersect_spec set1 set2 H1 H2) as [Hf Ha].
    by apply (swept_spec _ s _ set1 set2 H1 Hf Ha).
  - unfold listSetSub. destruct (mark_sub_spec set1 set2 H1 H2) as [Hf Ha].
    destruct set1 as [|c set1]; [|destruct set2 as [|d set2]].
    + split; [done|]. split; [done|]. split; [apply brk_free|]. autorewrite with lset. done.
    + split; [done|]. rewrite app_nil_r. split; [|done].
      symmetry. apply filter_all, Forall_forall. intros ? _. apply not_elem_of_nil.
    + by apply (swept_spec _ s _ (c :: set1) (d :: set2) H1 Hf Ha).
Qed.

Lemma listSet_intersect_sub_correct_witness :
  elems (listSetIntersect sample_state sample_a sample_b).1 = [5; 9] /\
  elems (listSetSub sample_state sample_a sample_b).1 = [2].
Proof.
  destruct (listSet_intersect_sub_correct sample_state sample_a sample_b) as [H1 H2];
    [eval_sset|eval_sset|].
  destruct (listSetIntersect sample_state sample_a sample_b) as [r1 s1].
  destruct (listSetSub sample_state sample_a sample_b) as [r2 s2].
  destruct H1 as (_ & -> & _). destruct H2 as (_ & -> & _). split; reflexivity.
Defined.

(** Inserting keeps the set ascending and adds exactly the element, taking a
    cell from the free list before asking the allocator; inserting a member
    changes nothing.  Deleting a fresh element again gives back the very same
    chain.  *)
Theorem listSetInsert_Del_roundtrip s el set :
  sset set -> 0 <= el ->
  let '(r, s') := listSetInsert s el set in
  sset r /\ (forall x, listSetMember x r = (x =? el) || listSetMember x set) /\
  if listSetMember el set then r = set /\ s' = s
  else exists p, r ≡ₚ Cell p el :: set /\ allocated s p s' /\
       listSetDel s' el r = (set, listSetFree s' [Cell p el]).
Proof.
  intros Hset He. destruct (listSetMember el set) eqn:Hm.
  { unfold listSetInsert. rewrite Hm. split; [done|]. split; [|done]. intros x. destruct (Z.eqb_spec x el); [by subst|done]. }
  assert (Hn : el ∉ elems set) by (rewrite member_spec in Hm; by apply bool_decide_eq_false in Hm).
  destruct (alloc_spec s el) as (p & s' & Ha & Hal).
  rewrite (insert_fresh s el set p s' Hn Ha). split; [by apply insert_tail_sset|]. split.
  - intros x. rewrite !member_spec, (bool_decide_ext _ _ (insert_tail_elem el p set x)).
    rewrite bool_decide_or. f_equal. destruct (Z.eqb_spec x el); [by apply bool_decide_eq_true_2|].
    by apply bool_decide_eq_false_2.
  - exists p. split; [apply insert_tail_perm|]. split; [done|]. by apply del_insert.
Qed.

Lemma listSetInsert_Del_roundtrip_witness :
  elems (listSetInsert sample_state 7 sample_a).1 = [2; 5; 7; 9] /\
  (let '(r, s') := listSetInsert sample_state 7 sample_a in sset r /\ listSetMember 7 r = true).
Proof.
  pose proof (listSetInsert_Del_roundtrip sample_state 7 sample_a ltac:(eval_sset) ltac:(lia)) as H.
  split; [reflexivity|]. destruct (listSetInsert sample_state 7 sample_a) as [r s'].
  destruct H as (H1 & H2 & _). split; [exact H1|]. rewrite H2. reflexivity.
Defined.

(** [listSetUnion] merges: the result is in ascending order and consists of all
    the cells of both sets, so an element of both occurs twice; it is a set
    again exactly when the arguments are disjoint.  No cell is created or
    lost.  *)
Theorem listSetUnion_merges s set1 set2 :
  sset set1 -> sset set2 ->
  let '(r, s') := listSetUnion s set1 set2 in
  r ≡ₚ set1 ++ set2 /\ StronglySorted Z.le (elems r) /\
  (sset r <-> elems set1 ## elems set2) /\
  addrs (FreeSet s') ≡ₚ (if decide (FreeSet s = []) then [brk s] else addrs (FreeSet s)).
Proof.
  intros H1 H2. unfold listSetUnion. destruct (alloc_spec s (-1)) as (p & s' & -> & Hal).
  split; [apply merge_perm|]. split; [by apply merge_sorted|]. split.
  - rewrite sset_sorted_NoDup by by apply merge_sorted.
    rewrite (elems_perm _ _ (merge_perm _ _)), elems_app, NoDup_app.
    assert (Hnd : forall l, sset l -> NoDup (elems l)) by (intros l [Hl _]; by apply sorted_NoDup).
    assert (Hnn : Forall (fun x => 0 <= x) (elems set1 ++ elems set2)) by (apply Forall_app; split; [apply H1|apply H2]).
    split; [intros [(_ & Hd & _) _] x Hx Hy; by eapply Hd|].
    intros Hd. split; [|done]. split; [by apply Hnd|]. split; [|by apply Hnd].
    intros x Hx Hy. by eapply Hd.
  - destruct Hal as [[Ha Hb]|(Hs & Hs' & -> & Hb)]; rewrite FreeSet_free.
    + rewrite decide_False by (intros Hn; by rewrite Hn in Ha). by rewrite Ha.
    + by rewrite Hs', decide_True.
Qed.

Lemma listSetUnion_merges_witness :
  elems (listSetUnion sample_state sample_a sample_b).1 = [2; 5; 5; 7; 9; 9] /\
  ~ sset (listSetUnion sample_state sample_a sample_b).1.
Proof.
  pose proof (listSetUnion_merges sample_state sample_a sample_b ltac:(eval_sset) ltac:(eval_sset)) as H.
  split; [reflexivity|]. destruct (listSetUnion sample_state sample_a sample_b) as [r s'].
  destruct H as (_ & _ & [H _] & _). intros Hr. specialize (H Hr 5). apply H; cbn;
    apply (bool_decide_unpack _); vm_compute; exact I.
Defined.

(** [listSetSelect] keeps exactly the cells of an ascending set whose elements
    lie in the range and releases all the others; an empty range releases the
    whole set.  *)
Theorem listSetSelect_correct s start stop set :
  sset set ->
  let '(r, s') := listSetSelect s start stop set in
  r = filter (fun c => start <= elem c <= stop) set /\ conserves s set s' r.
Proof.
  intros Hset. destruct (Z.le_gt_cases start stop); [by apply select_spec|].
  unfold listSetSelect. rewrite (proj2 (Z.ltb_lt _ _)) by lia.
  rewrite filter_none by lia. split; [done|]. split; [apply brk_free|]. by rewrite FreeSet_free.
Qed.

Lemma listSetSelect_correct_witness :
  elems (listSetSelect sample_state 3 8 sample_a).1 = [5].
Proof.
  pose proof (listSetSelect_correct sample_state 3 8 sample_a ltac:(eval_sset)) as H.
  destruct (listSetSelect sample_state 3 8 sample_a) as [r s']. destruct H as [-> _]. reflexivity.
Defined.
