(* ===== verification/Jgrp.v ===== *)
(** * The job group tree of [mbatchd], [lsbatch/daemons/mbd.jgrp.c]

    The daemon keeps its jobs in a tree of [struct jgTreeNode]s linked by
    parent, first child and left and right sibling.  A group or array node owns
    a [jgArrayBase] block with reference count, owner and job counters; a job
    node points to the job itself; an array node also points to the array's
    template job, whose [nextJob] chain holds the elements.

    The state holds the three kinds of blocks as finite maps from addresses,
    the globals [groupRoot] and [treeObserverDep->entry], and the list
    [voidJobList] with the cells of [listset.c].  An access through a pointer
    that is [NULL], freed or of the wrong kind gives [None]; the addresses that
    [my_malloc] returns are arguments.  Loops run on fuel that the number of
    nodes bounds; exhausted fuel is [None] as well.  Counters are [int]s that
    wrap.  Logging and the printing of the tree are left out. *)

From S2P Require Import Prelude Lsb ListSet.

(** ** Constants *)

Definition JGRP_NODE_JOB : Z := 1.
Definition JGRP_NODE_GROUP : Z := 2.
Definition JGRP_NODE_ARRAY : Z := 3.

Definition JGRP_COUNT_NJOBS : Z := 0.
Definition JGRP_COUNT_PEND : Z := 1.
Definition JGRP_COUNT_NPSUSP : Z := 2.
Definition JGRP_COUNT_NRUN : Z := 3.
Definition JGRP_COUNT_NSSUSP : Z := 4.
Definition JGRP_COUNT_NUSUSP : Z := 5.
Definition JGRP_COUNT_NEXIT : Z := 6.
Definition JGRP_COUNT_NDONE : Z := 7.
Definition NUM_JGRP_COUNTERS : Z := 8.

Definition JGRP_ACTIVE : Z := 1.
Definition JGRP_UNDEFINED : Z := -1.
Definition JGRP_VOID : Z := -1.

Definition SUB2_HOST_NT : Z := 0x08.
Definition SUB2_HOST_UX : Z := 0x10.
Definition AUTH_HOST_NT : Z := 0x01.
Definition AUTH_HOST_UX : Z := 0x02.
Definition PEND_JOB_NEW : Z := 1.
Definition PEND_JOB_DEPEND : Z := 3.
Definition PEND_JOB_DEP_INVALID : Z := 4.
Definition PEND_JOB_SWITCH : Z := 14.
Definition PEND_JOB_DEP_REJECT : Z := 15.
Definition JFLAG_DEPCOND_INVALID : Z := 0x004.
Definition JFLAG_DEPCOND_REJECT : Z := 0x8000.
Definition JFLAG_READY1 : Z := 0x100000.
Definition JFLAG_READY2 : Z := 0x200000.
Definition JFLAG_WAIT_SWITCH : Z := 0x80000000.
Definition DP_FALSE : Z := 0.
Definition DP_TRUE : Z := 1.
Definition DP_INVALID : Z := -1.
Definition DP_REJECT : Z := -2.


(** ** Data *)

Inductive FREE_JGARRAY_FUNC_T := NoFree | FreeGrpNode | FreeJarray.

(** [struct jgrpData] and [struct jarray], which begin alike. *)
Record jgArrayBase := JgArrayBase {
  numRef : Z; status : Z; changeTime : Z; oldStatus : Z; userId : Z;
  userName : option string; fromPlatform : Z; freeJgArray : FREE_JGARRAY_FUNC_T;
  counts : list Z; jobArray : Z; maxJLimit : Z }.

Record jgTreeNode := JgTreeNode {
  parent : Z; child : Z; left_ : Z; right_ : Z;
  nodeType : Z; name : option string; ndInfo : Z }.

(** The fields of [struct jData] that this component reads or writes;
    [hPtr] is given by the names of the hosts, [None] for a null entry. *)
Record jData := JData {
  jUserId : Z; jUserName : string; jobId : Z; jStatus : Z; jFlags : Z; newReason : Z;
  queue : string; hPtr : option (list (option string)); jNumRef : Z; jgrpNode : Z;
  jNodeType : Z; nextJob : Z; runCount : Z;
  options : Z; options2 : Z; jobName : string; command : string; dptRoot : Z;
  uPtr : Z; submitTime : Z; startTime : Z; endTime : Z; exitStatus : Z }.

Record mstate := MState {
  nodes : gmap Z jgTreeNode; bases : gmap Z jgArrayBase; jobs : gmap Z jData;
  groupRoot : Z; depEntry : Z; voidJobList : list listSet; lcells : lstate }.

Inductive treeEventType := TREE_EVENT_ADD | TREE_EVENT_CLIP | TREE_EVENT_CTRL | TREE_EVENT_NULL.

(** *** Field updates *)

Definition with_nodes (s : mstate) (v : gmap Z jgTreeNode) : mstate :=
  MState v (bases s) (jobs s) (groupRoot s) (depEntry s) (voidJobList s) (lcells s).
Definition with_bases (s : mstate) (v : gmap Z jgArrayBase) : mstate :=
  MState (nodes s) v (jobs s) (groupRoot s) (depEntry s) (voidJobList s) (lcells s).
Definition with_jobs (s : mstate) (v : gmap Z jData) : mstate :=
  MState (nodes s) (bases s) v (groupRoot s) (depEntry s) (voidJobList s) (lcells s).
Definition with_depEntry (s : mstate) (v : Z) : mstate :=
  MState (nodes s) (bases s) (jobs s) (groupRoot s) v (voidJobList s) (lcells s).
Definition with_void (s : mstate) (v : list listSet) (c : lstate) : mstate :=
  MState (nodes s) (bases s) (jobs s) (groupRoot s) (depEntry s) v c.

Definition set_parent (v : Z) (n : jgTreeNode) : jgTreeNode :=
  JgTreeNode v (child n) (left_ n) (right_ n) (nodeType n) (name n) (ndInfo n).
Definition set_child (v : Z) (n : jgTreeNode) : jgTreeNode :=
  JgTreeNode (parent n) v (left_ n) (right_ n) (nodeType n) (name n) (ndInfo n).
Definition set_left (v : Z) (n : jgTreeNode) : jgTreeNode :=
  JgTreeNode (parent n) (child n) v (right_ n) (nodeType n) (name n) (ndInfo n).
Definition set_right (v : Z) (n : jgTreeNode) : jgTreeNode :=
  JgTreeNode (parent n) (child n) (left_ n) v (nodeType n) (name n) (ndInfo n).
Definition set_name (v : option string) (n : jgTreeNode) : jgTreeNode :=
  JgTreeNode (parent n) (child n) (left_ n) (right_ n) (nodeType n) v (ndInfo n).
Definition set_ndInfo (v : Z) (n : jgTreeNode) : jgTreeNode :=
  JgTreeNode (parent n) (child n) (left_ n) (right_ n) (nodeType n) (name n) v.

Definition set_counts (v : list Z) (b : jgArrayBase) : jgArrayBase :=
  JgArrayBase (numRef b) (status b) (changeTime b) (oldStatus b) (userId b) (userName b)
    (fromPlatform b) (freeJgArray b) v (jobArray b) (maxJLimit b).
Definition set_numRef (v : Z) (b : jgArrayBase) : jgArrayBase :=
  JgArrayBase v (status b) (changeTime b) (oldStatus b) (userId b) (userName b)
    (fromPlatform b) (freeJgArray b) (counts b) (jobArray b) (maxJLimit b).
Definition set_status (v : Z) (b : jgArrayBase) : jgArrayBase :=
  JgArrayBase (numRef b) v (changeTime b) (oldStatus b) (userId b) (userName b)
    (fromPlatform b) (freeJgArray b) (counts b) (jobArray b) (maxJLimit b).
Definition set_changeTime (v : Z) (b : jgArrayBase) : jgArrayBase :=
  JgArrayBase (numRef b) (status b) v (oldStatus b) (userId b) (userName b)
    (fromPlatform b) (freeJgArray b) (counts b) (jobArray b) (maxJLimit b).
Definition set_owner (u : Z) (n : option string) (b : jgArrayBase) : jgArrayBase :=
  JgArrayBase (numRef b) (status b) (changeTime b) (oldStatus b) u n
    (fromPlatform b) (freeJgArray b) (counts b) (jobArray b) (maxJLimit b).
Definition set_fromPlatform (v : Z) (b : jgArrayBase) : jgArrayBase :=
  JgArrayBase (numRef b) (status b) (changeTime b) (oldStatus b) (userId b) (userName b)
    v (freeJgArray b) (counts b) (jobArray b) (maxJLimit b).
Definition set_jobArray (v : Z) (b : jgArrayBase) : jgArrayBase :=
  JgArrayBase (numRef b) (status b) (changeTime b) (oldStatus b) (userId b) (userName b)
    (fromPlatform b) (freeJgArray b) (counts b) v (maxJLimit b).

Definition set_jNumRef (v : Z) (j : jData) : jData :=
  JData (jUserId j) (jUserName j) (jobId j) (jStatus j) (jFlags j) (newReason j) (queue j)
    (hPtr j) v (jgrpNode j) (jNodeType j) (nextJob j) (runCount j) (options j) (options2 j)
    (jobName j) (command j) (dptRoot j) (uPtr j) (submitTime j) (startTime j) (endTime j) (exitStatus j).
Definition set_jgrpNode (v : Z) (j : jData) : jData :=
  JData (jUserId j) (jUserName j) (jobId j) (jStatus j) (jFlags j) (newReason j) (queue j)
    (hPtr j) (jNumRef j) v (jNodeType j) (nextJob j) (runCount j) (options j) (options2 j)
    (jobName j) (command j) (dptRoot j) (uPtr j) (submitTime j) (startTime j) (endTime j) (exitStatus j).
Definition set_pend (flags reason : Z) (j : jData) : jData :=
  JData (jUserId j) (jUserName j) (jobId j) (jStatus j) flags reason (queue j)
    (hPtr j) (jNumRef j) (jgrpNode j) (jNodeType j) (nextJob j) (runCount j) (options j)
    (options2 j) (jobName j) (command j) (dptRoot j) (uPtr j) (submitTime j) (startTime j) (endTime j) (exitStatus j).
Definition set_runCount (v : Z) (j : jData) : jData :=
  JData (jUserId j) (jUserName j) (jobId j) (jStatus j) (jFlags j) (newReason j) (queue j)
    (hPtr j) (jNumRef j) (jgrpNode j) (jNodeType j) (nextJob j) v (options j) (options2 j)
    (jobName j) (command j) (dptRoot j) (uPtr j) (submitTime j) (startTime j) (endTime j) (exitStatus j).
Definition set_jStatus (v : Z) (j : jData) : jData :=
  JData (jUserId j) (jUserName j) (jobId j) v (jFlags j) (newReason j) (queue j)
    (hPtr j) (jNumRef j) (jgrpNode j) (jNodeType j) (nextJob j) (runCount j) (options j)
    (options2 j) (jobName j) (command j) (dptRoot j) (uPtr j) (submitTime j) (startTime j) (endTime j) (exitStatus j).

(** Stores through a pointer. *)
Definition upd_node (s : mstate) (p : Z) (f : jgTreeNode -> jgTreeNode) : option mstate :=
  n ← nodes s !! p; Some (with_nodes s (<[p := f n]> (nodes s))).
Definition upd_base (s : mstate) (p : Z) (f : jgArrayBase -> jgArrayBase) : option mstate :=
  b ← bases s !! p; Some (with_bases s (<[p := f b]> (bases s))).
Definition upd_job (s : mstate) (p : Z) (f : jData -> jData) : option mstate :=
  j ← jobs s !! p; Some (with_jobs s (<[p := f j]> (jobs s))).

(** Enough rounds for any loop along the links of an acyclic structure. *)
Definition node_fuel (s : mstate) : nat := S (size (nodes s)).
Definition job_fuel (s : mstate) : nat := S (size (jobs s)).
Arguments node_fuel : simpl never.
Arguments job_fuel : simpl never.

(** ** Walking the tree *)

(** [while (parent) { if (parent->right) return parent->right; parent = parent->parent; }] *)
Fixpoint up_right (fuel : nat) (s : mstate) (p : Z) : option Z :=
  match fuel with
  | O => None
  | S k =>
      if p =? NULL then Some NULL else
      n ← nodes s !! p;
      if negb (right_ n =? NULL) then Some (right_ n) else up_right k s (parent n)
  end.

Definition treeLexNext (s : mstate) (node : Z) : option Z :=
  if node =? NULL then Some NULL else
  n ← nodes s !! node;
  if negb (child n =? NULL) then Some (child n)
  else if negb (right_ n =? NULL) then Some (right_ n)
  else up_right (node_fuel s) s (parent n).

Definition treeNextSib (s : mstate) (node : Z) : option Z :=
  if node =? NULL then Some NULL else
  n ← nodes s !! node;
  if negb (right_ n =? NULL) then Some (right_ n)
  else up_right (node_fuel s) s (parent n).

Fixpoint ancestor_loop (fuel : nat) (s : mstate) (x ndPtr : Z) : option bool :=
  match fuel with
  | O => None
  | S k =>
      if ndPtr =? NULL then Some false
      else if ndPtr =? x then Some true
      else n ← nodes s !! ndPtr; ancestor_loop k s x (parent n)
  end.

Definition isAncestor (s : mstate) (x y : Z) : option bool :=
  if (x =? NULL) || (y =? NULL) then Some false else
  n ← nodes s !! y; ancestor_loop (node_fuel s) s x (parent n).

(** [for (ndPtr = first; ndPtr; ndPtr = RIGHT_SIBLING(ndPtr))] with a test. *)
Fixpoint sibling_loop (fuel : nat) (s : mstate) (test : Z -> jgTreeNode -> option bool)
    (ndPtr : Z) : option Z :=
  match fuel with
  | O => None
  | S k =>
      if ndPtr =? NULL then Some NULL else
      n ← nodes s !! ndPtr;
      found ← test ndPtr n;
      if found : bool then Some ndPtr else sibling_loop k s test (right_ n)
  end.

Definition isChild (s : mstate) (x y : Z) : option bool :=
  if (x =? NULL) || (y =? NULL) then Some false else
  n ← nodes s !! x;
  r ← sibling_loop (node_fuel s) s (fun p _ => Some (p =? y)) (child n);
  Some (negb (r =? NULL)).

Definition findTreeNode (s : mstate) (node : Z) (nm : string) : option Z :=
  sibling_loop (node_fuel s) s
    (fun _ n => v ← name n; Some (bool_decide (nm = v))) node.

(** ** Counters *)

Definition getIndexOfJStatus (st : Z) : Z :=
  let m := MASK_STATUS (Z.land (Z.land (Z.land st (Z.lnot JOB_STAT_UNKWN))
             (Z.lnot JOB_STAT_PDONE)) (Z.lnot JOB_STAT_PERR)) in
  if (m =? JOB_STAT_PEND) || (m =? Z.lor JOB_STAT_RUN JOB_STAT_WAIT) then JGRP_COUNT_PEND
  else if m =? JOB_STAT_PSUSP then JGRP_COUNT_NPSUSP
  else if m =? JOB_STAT_RUN then JGRP_COUNT_NRUN
  else if m =? JOB_STAT_SSUSP then JGRP_COUNT_NSSUSP
  else if m =? JOB_STAT_USUSP then JGRP_COUNT_NUSUSP
  else if (m =? JOB_STAT_EXIT) || (m =? Z.lor JOB_STAT_EXIT JOB_STAT_WAIT) then JGRP_COUNT_NEXIT
  else if (m =? JOB_STAT_DONE) || (m =? Z.lor JOB_STAT_DONE JOB_STAT_WAIT) then JGRP_COUNT_NDONE
  else 8.

(** [counts[i] += d] *)
Definition bump (i d : Z) (c : list Z) : option (list Z) :=
  v ← c !! Z.to_nat i; Some (<[Z.to_nat i := i32 (v + d)]> c).

(** The adjustment of one block's counters, the same for both kinds. *)
Definition count_status (oldStatus newStatus : Z) (c : list Z) : option (list Z) :=
  c ← (if negb (oldStatus =? JOB_STAT_NULL)
       then c ← bump (getIndexOfJStatus oldStatus) (-1) c; bump JGRP_COUNT_NJOBS (-1) c
       else Some c);
  if negb (newStatus =? JOB_STAT_NULL)
  then c ← bump (getIndexOfJStatus newStatus) 1 c; bump JGRP_COUNT_NJOBS 1 c
  else Some c.

Definition count_node (oldStatus newStatus : Z) (s : mstate) (n : jgTreeNode) : option mstate :=
  if (nodeType n =? JGRP_NODE_GROUP) || (nodeType n =? JGRP_NODE_ARRAY) then
    b ← bases s !! ndInfo n;
    c ← count_status oldStatus newStatus (counts b);
    Some (with_bases s (<[ndInfo n := set_counts c b]> (bases s)))
  else Some s.

Fixpoint count_up (fuel : nat) (s : mstate) (gPtr oldStatus newStatus : Z) : option mstate :=
  match fuel with
  | O => None
  | S k =>
      if gPtr =? NULL then Some s else
      n ← nodes s !! gPtr;
      s ← count_node oldStatus newStatus s n;
      count_up k s (parent n) oldStatus newStatus
  end.

Definition updJgrpCountByJStatus (s : mstate) (job oldStatus newStatus : Z) : option mstate :=
  j ← jobs s !! job;
  count_up (node_fuel s) s (jgrpNode j) oldStatus newStatus.

(** [for (i = 0; i < NUM_JGRP_COUNTERS; i++) a[i] += factor * b[i];] *)
Definition add_counts (factor : Z) (a b : list Z) : option (list Z) :=
  if ((length a <? Z.to_nat NUM_JGRP_COUNTERS) || (length b <? Z.to_nat NUM_JGRP_COUNTERS))%nat
  then None else
  Some (zip_with (fun x y => i32 (x + factor * y)) (take (Z.to_nat NUM_JGRP_COUNTERS) a)
          (take (Z.to_nat NUM_JGRP_COUNTERS) b) ++ drop (Z.to_nat NUM_JGRP_COUNTERS) a).

(** One ancestor: [JGRP_DATA(parent)] whatever the parent's type. *)
Fixpoint op_up (fuel : nat) (s : mstate) (jgrp : jgTreeNode) (factor p : Z) : option mstate :=
  match fuel with
  | O => None
  | S k =>
      if p =? NULL then Some s else
      n ← nodes s !! p;
      s ← (if (nodeType jgrp =? JGRP_NODE_GROUP) || (nodeType jgrp =? JGRP_NODE_ARRAY) then
             b ← bases s !! ndInfo jgrp;
             pb ← bases s !! ndInfo n;
             c ← add_counts factor (counts pb) (counts b);
             Some (with_bases s (<[ndInfo n := set_counts c pb]> (bases s)))
           else Some s);
      op_up k s jgrp factor (parent n)
  end.

Definition updJgrpCountByOp (s : mstate) (jgrp factor : Z) : option mstate :=
  n ← nodes s !! jgrp; op_up (node_fuel s) s n factor (parent n).

(** ** Observers *)

(** [treeObserverEvalDep]: the observer is [treeObserverDep] itself. *)
Definition treeObserverEvalDep (s : mstate) (operand : Z) (ev : treeEventType) : option mstate :=
  match ev with
  | TREE_EVENT_CLIP =>
      under ← (if depEntry s =? operand then Some true else isAncestor s operand (depEntry s));
      if under : bool then nx ← treeNextSib s operand; Some (with_depEntry s nx) else Some s
  | TREE_EVENT_CTRL =>
      under ← (if depEntry s =? operand then Some true else isAncestor s operand (depEntry s));
      if under : bool then Some (with_depEntry s operand) else Some s
  | TREE_EVENT_ADD | TREE_EVENT_NULL => Some s
  end.

(** [treeObserverList] holds the one observer that [treeInit] puts on it. *)
Definition treeObserverInvoke (s : mstate) (operand : Z) (ev : treeEventType) : option mstate :=
  treeObserverEvalDep s operand ev.

(** ** Insertion and removal *)

Fixpoint last_sibling (fuel : nat) (s : mstate) (nPtr : Z) : option Z :=
  match fuel with
  | O => None
  | S k =>
      n ← nodes s !! nPtr;
      if right_ n =? NULL then Some nPtr else last_sibling k s (right_ n)
  end.

Definition treeLinkSibling (s : mstate) (sib1 sib2 : Z) : option (Z * mstate) :=
  if sib1 =? NULL then Some (sib2, s)
  else if sib2 =? NULL then Some (sib1, s)
  else
    nPtr ← last_sibling (node_fuel s) s sib1;
    s ← upd_node s nPtr (set_right sib2);
    s ← upd_node s sib2 (set_left nPtr);
    Some (sib1, s).

(** [do { nPtr->parent = parent; nPtr = nPtr->right; } while (nPtr != NULL);] *)
Fixpoint adopt (fuel : nat) (s : mstate) (par nPtr : Z) : option mstate :=
  match fuel with
  | O => None
  | S k =>
      s ← upd_node s nPtr (set_parent par);
      n ← nodes s !! nPtr;
      if right_ n =? NULL then Some s else adopt k s par (right_ n)
  end.

(** The counters and observers of a node that has been linked or unlinked. *)
Definition count_linked (s : mstate) (node : Z) : option mstate :=
  n ← nodes s !! node;
  if nodeType n =? JGRP_NODE_JOB then
    j ← jobs s !! ndInfo n; updJgrpCountByJStatus s (ndInfo n) JOB_STAT_NULL (jStatus j)
  else updJgrpCountByOp s node 1.

Definition treeInsertChild (s : mstate) (par kid : Z) : option (Z * mstate) :=
  if par =? NULL then Some (kid, s)
  else if kid =? NULL then Some (par, s)
  else
    p ← nodes s !! par;
    s ← (if negb (child p =? NULL)
         then '(c, s) ← treeLinkSibling s (child p) kid; upd_node s par (set_child c)
         else upd_node s par (set_child kid));
    s ← adopt (node_fuel s) s par kid;
    s ← count_linked s kid;
    s ← treeObserverInvoke s kid TREE_EVENT_ADD;
    Some (par, s).

Definition treeInsertLeft (s : mstate) (node subtree : Z) : option mstate :=
  if (node =? NULL) || (subtree =? NULL) then Some s else
  s ← upd_node s subtree (set_right node);
  n ← nodes s !! node;
  s ← upd_node s subtree (set_left (left_ n));
  n ← nodes s !! node;
  s ← upd_node s subtree (set_parent (parent n));
  n ← nodes s !! node;
  s ← (if negb (left_ n =? NULL) then upd_node s (left_ n) (set_right subtree) else Some s);
  s ← upd_node s node (set_left subtree);
  s ← count_linked s subtree;
  treeObserverInvoke s subtree TREE_EVENT_ADD.

Definition treeInsertRight (s : mstate) (node subtree : Z) : option mstate :=
  if (node =? NULL) || (subtree =? NULL) then Some s else
  n ← nodes s !! node;
  s ← upd_node s subtree (set_right (right_ n));
  s ← upd_node s subtree (set_left node);
  n ← nodes s !! node;
  s ← upd_node s subtree (set_parent (parent n));
  n ← nodes s !! node;
  s ← (if negb (right_ n =? NULL) then upd_node s (right_ n) (set_left subtree) else Some s);
  s ← upd_node s node (set_right subtree);
  s ← count_linked s subtree;
  treeObserverInvoke s subtree TREE_EVENT_ADD.

Definition treeClip (s : mstate) (node : Z) : option (Z * mstate) :=
  if node =? NULL then Some (NULL, s) else
  n ← nodes s !! node;
  s ← (if negb (left_ n =? NULL) then upd_node s (left_ n) (set_right (right_ n))
       else if negb (parent n =? NULL) then upd_node s (parent n) (set_child (right_ n))
       else Some s);
  n ← nodes s !! node;
  s ← (if negb (right_ n =? NULL) then upd_node s (right_ n) (set_left (left_ n)) else Some s);
  n ← nodes s !! node;
  s ← (if nodeType n =? JGRP_NODE_JOB then
         j ← jobs s !! ndInfo n; updJgrpCountByJStatus s (ndInfo n) (jStatus j) JOB_STAT_NULL
       else updJgrpCountByOp s node (-1));
  s ← treeObserverInvoke s node TREE_EVENT_CLIP;
  s ← upd_node s node (fun n => set_parent NULL (set_left NULL (set_right NULL n)));
  Some (node, s).

(** ** Nodes and references *)

(** [createjDataRef] and [destroyjDataRef] of [mbd.job.c]. *)
Definition createjDataRef (s : mstate) (jp : Z) : option mstate :=
  if jp =? NULL then Some s else upd_job s jp (fun j => set_jNumRef (i32 (jNumRef j + 1)) j).

Definition destroyjDataRef (s : mstate) (jp : Z) : option mstate :=
  if jp =? NULL then Some s else
  s ← upd_job s jp (fun j => set_jNumRef (i32 (jNumRef j - 1)) j);
  j ← jobs s !! jp;
  if has (jStatus j) JOB_STAT_VOID && (jNumRef j <=? 0) then
    let '(l, c) := listSetDel (lcells s) jp (voidJobList s) in
    Some (with_jobs (with_void s l c) (delete jp (jobs s)))
  else Some s.

Definition freeGrpNode (s : mstate) (d : Z) : option mstate :=
  if d =? NULL then Some s else
  b ← bases s !! d;
  if numRef b <=? 0 then Some (with_bases s (delete d (bases s)))
  else upd_base s d (fun b => set_status JGRP_VOID (set_owner (userId b) None b)).

Definition freeJarray (s : mstate) (d : Z) : option mstate :=
  if d =? NULL then Some s else
  b ← bases s !! d;
  s ← destroyjDataRef s (jobArray b);
  if numRef b <=? 0 then Some (with_bases s (delete d (bases s)))
  else upd_base s d (fun b =>
         set_status JGRP_VOID (set_jobArray NULL (set_owner (userId b) None b))).

Definition zero_counts : list Z := replicate (Z.to_nat (NUM_JGRP_COUNTERS + 1)) 0.

Definition new_base (st : Z) (f : FREE_JGARRAY_FUNC_T) : jgArrayBase :=
  JgArrayBase 0 st 0 0 0 None 0 f zero_counts NULL 0.

(** [a] and [d] are the blocks [my_malloc] returns for the node and its data. *)
Definition treeNewNode (s : mstate) (a d type : Z) : mstate :=
  let node info := JgTreeNode NULL NULL NULL NULL type None info in
  if type =? JGRP_NODE_GROUP then
    with_bases (with_nodes s (<[a := node d]> (nodes s)))
      (<[d := new_base JGRP_UNDEFINED FreeGrpNode]> (bases s))
  else if type =? JGRP_NODE_ARRAY then
    with_bases (with_nodes s (<[a := node d]> (nodes s)))
      (<[d := new_base 0 FreeJarray]> (bases s))
  else with_nodes s (<[a := node NULL]> (nodes s)).

Definition freeTreeNode (s : mstate) (node : Z) : option mstate :=
  if node =? NULL then Some s else
  n ← nodes s !! node;
  s ← (if nodeType n =? JGRP_NODE_JOB then destroyjDataRef s (ndInfo n)
       else if nodeType n =? JGRP_NODE_ARRAY then freeJarray s (ndInfo n)
       else freeGrpNode s (ndInfo n));
  Some (with_nodes s (delete node (nodes s))).

(** [treeFree] frees a node, its right siblings and everything below them. *)
Fixpoint treeFree (fuel : nat) (s : mstate) (node : Z) : option mstate :=
  match fuel with
  | O => None
  | S k =>
      if node =? NULL then Some s else
      n ← nodes s !! node;
      s ← (if negb (child n =? NULL) then treeFree k s (child n) else Some s);
      s ← freeTreeNode s node;
      treeFree k s (right_ n)
  end.

Definition createJgArrayBaseRef (s : mstate) (d : Z) : option mstate :=
  if d =? NULL then Some s else upd_base s d (fun b => set_numRef (i32 (numRef b + 1)) b).

Definition destroyJgArrayBaseRef (s : mstate) (d : Z) : option mstate :=
  if d =? NULL then Some s else
  s ← upd_base s d (fun b => set_numRef (i32 (numRef b - 1)) b);
  b ← bases s !! d;
  if (status b =? JGRP_VOID) && (numRef b <=? 0) then
    match freeJgArray b with
    | FreeGrpNode => freeGrpNode s d
    | FreeJarray => freeJarray s d
    | NoFree => None
    end
  else Some s.

Definition treeInit (s : mstate) (a d managerId : Z) (lsbSys : string) : option mstate :=
  let s := treeNewNode s a d JGRP_NODE_GROUP in
  s ← upd_node s a (set_name (Some "/"%string));
  s ← upd_base s d (fun b => set_numRef 0 (set_changeTime INFINIT_INT
         (set_status JGRP_ACTIVE (set_owner managerId (Some lsbSys) b))));
  Some (MState (nodes s) (bases s) (jobs s) a a (voidJobList s) (lcells s)).

(** The loop of [putOntoTree] over the elements of an array. *)
Fixpoint put_elements (fuel : nat) (s : mstate) (newj jPtr : Z) : option mstate :=
  match fuel with
  | O => None
  | S k =>
      if jPtr =? NULL then Some s else
      s ← upd_job s jPtr (set_jgrpNode newj);
      j ← jobs s !! jPtr;
      s ← updJgrpCountByJStatus s jPtr JOB_STAT_NULL (jStatus j);
      put_elements k s newj (nextJob j)
  end.

Definition putOntoTree (s : mstate) (a d jp : Z) : option mstate :=
  j ← jobs s !! jp;
  let s := treeNewNode s a d (jNodeType j) in
  s ← upd_node s a (set_name (Some (if has (options j) SUB_JOB_NAME then jobName j else command j)));
  s ← (if jNodeType j =? JGRP_NODE_JOB then
         s ← createjDataRef s jp; upd_node s a (set_ndInfo jp)
       else
         s ← createjDataRef s jp;
         n ← nodes s !! a;
         s ← upd_base s (ndInfo n) (fun b => set_owner (jUserId j) (Some (jUserName j)) (set_jobArray jp b));
         if has (options2 j) SUB2_HOST_NT then upd_base s (ndInfo n) (set_fromPlatform AUTH_HOST_NT)
         else if has (options2 j) SUB2_HOST_UX then upd_base s (ndInfo n) (set_fromPlatform AUTH_HOST_UX)
         else Some s);
  s ← upd_job s jp (set_jgrpNode a);
  s ← put_elements (job_fuel s) s a (nextJob j);
  '(_, s) ← treeInsertChild s (groupRoot s) a;
  s ← upd_job s jp (set_runCount 1);
  upd_job s jp (fun j => set_pend
    (if dptRoot j =? NULL then Z.lor (jFlags j) JFLAG_READY2 else jFlags j)
    (if newReason j =? 0 then PEND_JOB_NEW else newReason j) j).

(** ** Recomputing the counters *)

Fixpoint count_elements (fuel : nat) (s : mstate) (jPtr : Z) : option mstate :=
  match fuel with
  | O => None
  | S k =>
      if jPtr =? NULL then Some s else
      j ← jobs s !! jPtr;
      s ← updJgrpCountByJStatus s jPtr JOB_STAT_NULL (jStatus j);
      count_elements k s (nextJob j)
  end.

(** A group's first [NUM_JGRP_COUNTERS] counters are cleared; an array's are
    not. *)
Definition reset_node (s : mstate) (jgrp : Z) : option mstate :=
  n ← nodes s !! jgrp;
  if nodeType n =? JGRP_NODE_GROUP then
    upd_base s (ndInfo n) (fun b => set_counts
      (replicate (Z.to_nat NUM_JGRP_COUNTERS) 0 ++ drop (Z.to_nat NUM_JGRP_COUNTERS) (counts b)) b)
  else if nodeType n =? JGRP_NODE_ARRAY then
    b ← bases s !! ndInfo n;
    t ← jobs s !! jobArray b;
    count_elements (job_fuel s) s (nextJob t)
  else if nodeType n =? JGRP_NODE_JOB then
    j ← jobs s !! ndInfo n; updJgrpCountByJStatus s (ndInfo n) JOB_STAT_NULL (jStatus j)
  else Some s.

Fixpoint reset_loop (fuel : nat) (s : mstate) (jgrp : Z) : option mstate :=
  match fuel with
  | O => None
  | S k =>
      if jgrp =? NULL then Some s else
      s ← reset_node s jgrp;
      nx ← treeLexNext s jgrp;
      reset_loop k s nx
  end.

Definition resetJgrpCount (s : mstate) : option mstate :=
  reset_loop (node_fuel s) s (groupRoot s).

(** ** Permissions *)

Record lsfAuth := LsfAuth { uid : Z; lsfUserName : string }.

Definition isSameUser (auth : lsfAuth) (userId : Z) (userName : string) (fromPlatform : Z) : bool :=
  bool_decide (lsfUserName auth = userName).

Definition isJobOwner (auth : lsfAuth) (job : jData) : bool :=
  if has (options2 job) SUB2_HOST_UX
  then isSameUser auth (jUserId job) (jUserName job) AUTH_HOST_UX
  else if has (options2 job) SUB2_HOST_NT
  then isSameUser auth (jUserId job) (jUserName job) AUTH_HOST_NT
  else isSameUser auth (jUserId job) (jUserName job) 0.

(** Does the owner of this node's data match? *)
Definition node_owner (s : mstate) (auth : lsfAuth) (n : jgTreeNode) : option bool :=
  if (nodeType n =? JGRP_NODE_GROUP) || (nodeType n =? JGRP_NODE_ARRAY) then
    b ← bases s !! ndInfo n; u ← userName b;
    Some (isSameUser auth (userId b) u (fromPlatform b))
  else if nodeType n =? JGRP_NODE_JOB then
    j ← jobs s !! ndInfo n;
    Some (if has (options2 j) SUB2_HOST_NT
          then isSameUser auth (jUserId j) (jUserName j) AUTH_HOST_NT
          else if has (options2 j) SUB2_HOST_UX
          then isSameUser auth (jUserId j) (jUserName j) AUTH_HOST_UX
          else isSameUser auth (jUserId j) (jUserName j) 0)
  else Some false.

Fixpoint permit_up (fuel : nat) (s : mstate) (auth : lsfAuth) (nPtr : Z) : option bool :=
  match fuel with
  | O => None
  | S k =>
      if nPtr =? NULL then Some false else
      n ← nodes s !! nPtr;
      ok ← node_owner s auth n;
      if ok : bool then Some true else permit_up k s auth (parent n)
  end.

(** [replay] is [mSchedStage == M_STAGE_REPLAY]; [isAuthManager] is a function
    of [mbd.misc.c] over the configured administrators. *)
Definition jgrpPermitOk (isAuthManager : lsfAuth -> bool) (replay : bool) (s : mstate)
    (auth : lsfAuth) (jgrp : Z) : option bool :=
  if jgrp =? NULL then Some false
  else if replay then Some true
  else if (uid auth =? 0) || isAuthManager auth then Some true
  else permit_up (node_fuel s) s auth jgrp.

(** ** Evaluating dependencies *)

Definition JOB_PEND (j : jData) : bool :=
  has (jStatus j) JOB_STAT_PEND && negb (has (jStatus j) JOB_STAT_PSUSP).

(** ** Selecting jobs *)

Definition ALL_JOB : Z := 0x0001.
Definition DONE_JOB : Z := 0x0002.
Definition PEND_JOB : Z := 0x0004.
Definition SUSP_JOB : Z := 0x0008.
Definition CUR_JOB : Z := 0x0010.
Definition LAST_JOB : Z := 0x0020.
Definition RUN_JOB : Z := 0x0040.
Definition JOBID_ONLY : Z := 0x0080.
Definition JGRP_ARRAY_INFO : Z := 0x1000.
Definition JOBID_ONLY_ALL : Z := 0x02000.
Definition DEFAULT_LISTSIZE : Z := 200.

Definition skipJgrpByReq (opts st : Z) : bool :=
  if has opts (Z.lor ALL_JOB (Z.lor JOBID_ONLY_ALL JOBID_ONLY)) then false
  else if has opts (Z.lor CUR_JOB LAST_JOB) && (IS_START st || IS_PEND st) then false
  else if has opts PEND_JOB && IS_PEND st then false
  else if has opts (Z.lor SUSP_JOB RUN_JOB) && IS_START st then false
  else if has opts DONE_JOB && IS_FINISH st then false
  else true.

Record jobInfoReq := JobInfoReq {
  rq_options : Z; rq_userName : string; rq_jobName : string; rq_queue : string; rq_host : string }.

(** [struct jgrpInfo]: [jgrpList] holds [arraySize] slots, the first
    [numNodes] in use; [uGrp] is [None] when the user name is no group. *)
Record jgrpInfo := JgrpInfo {
  jgrpList : list Z; numNodes : Z; arraySize : Z; ji_jobName : string;
  ji_idxList : list idxList; allqueues : bool; allusers : bool; allhosts : bool;
  uGrp : option Z }.

Section Selection.
(** From [mbd.grp.c], [lib.host.c] and [mbd.job.c]: membership in a group,
    host groups by name, equality of host names, wild-card match of names. *)
Variable gMember : string -> Z -> bool.
Variable getHGrpData : string -> option Z.
Variable equalHost_ : string -> string -> bool.
Variable matchName : string -> string -> bool.
(** Does the [k]-th allocation succeed? *)
Variable alloc_ok : Z -> bool.

(** The two loops over the execution hosts: [None] is a null entry. *)
Fixpoint host_loop (test : string -> bool) (hosts : list (option string)) : bool :=
  match hosts with
  | [] => false
  | None :: _ => false
  | Some h :: hosts => if test h then true else host_loop test hosts
  end.

Fixpoint idx_loop (idx : Z) (l : list idxList) : bool :=
  match l with
  | [] => false
  | x :: l =>
      if (idx <? start x) || (end_ x <? idx) then idx_loop idx l
      else if Z.rem (idx - start x) (step x) =? 0 then true else idx_loop idx l
  end.

Definition isSelected (rq : jobInfoReq) (jpbw : jData) (jgrp : jgrpInfo) : bool :=
  if skipJgrpByReq (rq_options rq) (jStatus jpbw) then false
  else if negb (allqueues jgrp) && negb (bool_decide (queue jpbw = rq_queue rq)) then false
  else if negb (allusers jgrp) && negb (bool_decide (jUserName jpbw = rq_userName rq))
          && match uGrp jgrp with None => true | Some g => negb (gMember (jUserName jpbw) g) end
  then false
  else if negb (allhosts jgrp) &&
          (IS_PEND (jStatus jpbw) ||
           match hPtr jpbw with
           | None => true
           | Some hosts =>
               negb (host_loop (match getHGrpData (rq_host rq) with
                                | Some gp => fun h => gMember h gp
                                | None => equalHost_ (rq_host rq)
                                end) hosts)
           end)
  then false
  else match ji_idxList jgrp with
       | [] => true
       | l => idx_loop (LSB_ARRAY_IDX (jobId jpbw)) l
       end.

(** [storeToJgrpList]: [false] when memory runs out.  Every call passes
    [JGRP_NODE_JOB], so the entries are the job pointers and [isJData] is
    always set. *)
Definition storeToJgrpList (ptr : Z) (g : jgrpInfo) : bool * jgrpInfo :=
  let fail g l n := (false, JgrpInfo l n (arraySize g) (ji_jobName g) (ji_idxList g)
                        (allqueues g) (allusers g) (allhosts g) (uGrp g)) in
  let sized g l sz := JgrpInfo l (numNodes g) sz (ji_jobName g) (ji_idxList g)
                        (allqueues g) (allusers g) (allhosts g) (uGrp g) in
  let push g := (true, JgrpInfo (<[Z.to_nat (numNodes g) := ptr]> (jgrpList g)) (numNodes g + 1)
                        (arraySize g) (ji_jobName g) (ji_idxList g)
                        (allqueues g) (allusers g) (allhosts g) (uGrp g)) in
  let grow g :=
    if arraySize g <=? numNodes g then
      let sz := arraySize g * 2 in
      if alloc_ok sz
      then push (sized g (jgrpList g ++ replicate (Z.to_nat (sz - arraySize g)) NULL) sz)
      else fail (sized g [] sz) [] 0
    else push g in
  if arraySize g =? 0 then
    if alloc_ok DEFAULT_LISTSIZE
    then grow (sized g (replicate (Z.to_nat DEFAULT_LISTSIZE) NULL) DEFAULT_LISTSIZE)
    else fail (sized g [] DEFAULT_LISTSIZE) [] (numNodes g)
  else grow g.

(** The elements of an array, each tested and stored. *)
Fixpoint store_elements (fuel : nat) (s : mstate) (rq : jobInfoReq) (jpbw : Z) (g : jgrpInfo)
    : option (bool * jgrpInfo) :=
  match fuel with
  | O => None
  | S k =>
      if jpbw =? NULL then Some (true, g) else
      j ← jobs s !! jpbw;
      let '(ok, g) := if isSelected rq j g then storeToJgrpList jpbw g else (true, g) in
      if ok : bool then store_elements k s rq (nextJob j) g else Some (false, g)
  end.

Definition store_node (s : mstate) (rq : jobInfoReq) (n : jgTreeNode) (g : jgrpInfo)
    : option (bool * jgrpInfo) :=
  if nodeType n =? JGRP_NODE_ARRAY then
    b ← bases s !! ndInfo n;
    t ← jobs s !! jobArray b;
    if has (rq_options rq) JGRP_ARRAY_INFO then
      Some (if isSelected rq t g then storeToJgrpList (jobArray b) g else (true, g))
    else store_elements (job_fuel s) s rq (nextJob t) g
  else if nodeType n =? JGRP_NODE_JOB then
    if has (rq_options rq) JGRP_ARRAY_INFO then Some (true, g) else
    j ← jobs s !! ndInfo n;
    Some (if isSelected rq j g then storeToJgrpList (ndInfo n) g else (true, g))
  else Some (true, g).

Fixpoint node_list_loop (fuel : nat) (s : mstate) (rq : jobInfoReq) (nPtr : Z) (g : jgrpInfo)
    : option (Z * jgrpInfo) :=
  match fuel with
  | O => None
  | S k =>
      if nPtr =? NULL then Some (LSBE_NO_ERROR, g) else
      n ← nodes s !! nPtr;
      '(ok, g) ← (match ji_jobName g with
                  | EmptyString => store_node s rq n g
                  | nm => v ← name n;
                          if matchName nm v then store_node s rq n g else Some (true, g)
                  end);
      if ok : bool then node_list_loop k s rq (right_ n) g else Some (LSBE_NO_MEM, g)
  end.

Definition makeTreeNodeList (s : mstate) (par : Z) (rq : jobInfoReq) (g : jgrpInfo)
    : option (Z * jgrpInfo) :=
  if par =? NULL then Some (LSBE_NO_ERROR, g) else
  p ← nodes s !! par; node_list_loop (node_fuel s) s rq (child p) g.

End Selection.
