(* ===== verification/JgrpTree.v ===== *)
(** * The shape of the job group tree

    What the links of [mbd.jgrp.c] represent: a rose tree of node addresses.
    [tree_ok] says that the parent, child and sibling links of the heap are
    those of a given tree.  A node is addressed by a context (the frames from
    it up to the root), which makes its ancestors, its right neighbours and the
    rest of the tree explicit.  The lemmas describe the walks, the insertion
    and the removal of subtrees in these terms. *)

From S2P Require Import Prelude Lsb ListSet Jgrp.

#[warnings="-register-all"]
Inductive gtree := Br (x : Z) (kids : list gtree).

Section GtreeInd.
Variable P : gtree -> Prop.
Hypothesis step : forall x ts, Forall P ts -> P (Br x ts).

Fixpoint gtree_ind' (t : gtree) : P t :=
  match t with
  | Br x ts =>
      step x ts ((fix all (l : list gtree) : Forall P l :=
        match l with
        | [] => Forall_nil_2 P
        | u :: l => Forall_cons_2 P u l (gtree_ind' u) (all l)
        end) ts)
  end.
End GtreeInd.

Definition root_id (t : gtree) : Z := match t with Br x _ => x end.
Definition kids (t : gtree) : list gtree := match t with Br _ ts => ts end.

Fixpoint ids (t : gtree) : list Z := match t with Br x ts => x :: (ts ≫= ids) end.
Fixpoint subtrees (t : gtree) : list gtree := match t with Br x ts => t :: (ts ≫= subtrees) end.

Definition idsl (ts : list gtree) : list Z := ts ≫= ids.
Definition subl (ts : list gtree) : list gtree := ts ≫= subtrees.

Lemma ids_br x ts : ids (Br x ts) = x :: idsl ts.
Proof. done. Qed.

Lemma idsl_app l1 l2 : idsl (l1 ++ l2) = idsl l1 ++ idsl l2.
Proof. apply bind_app. Qed.

Lemma idsl_cons t l : idsl (t :: l) = ids t ++ idsl l.
Proof. done. Qed.

Lemma subl_app l1 l2 : subl (l1 ++ l2) = subl l1 ++ subl l2.
Proof. apply bind_app. Qed.

Lemma subtrees_br x ts : subtrees (Br x ts) = Br x ts :: subl ts.
Proof. done. Qed.

Lemma root_in_ids t : root_id t ∈ ids t.
Proof. destruct t. by left. Qed.

Lemma self_in_subtrees t : t ∈ subtrees t.
Proof. destruct t. by left. Qed.

Lemma ids_subtrees t : ids t = root_id <$> subtrees t.
Proof.
  induction t as [x ts IH] using gtree_ind'. cbn. f_equal.
  induction IH as [|u l Hu Hl IHl]; [done|]. cbn. by rewrite fmap_app, Hu, IHl.
Qed.

Lemma root_of_subtree u t : u ∈ subtrees t -> root_id u ∈ ids t.
Proof. intros Hu. rewrite ids_subtrees. apply list_elem_of_fmap. eauto. Qed.

Lemma subtree_of_root x t : x ∈ ids t -> exists ts, Br x ts ∈ subtrees t.
Proof.
  rewrite ids_subtrees. intros ([y ts] & -> & Hu)%list_elem_of_fmap. eauto.
Qed.

(** The ids below a subtree are ids of the tree. *)
Lemma ids_mono u t : u ∈ subtrees t -> ids u ⊆ ids t.
Proof.
  induction t as [x ts IH] using gtree_ind'. rewrite subtrees_br, ids_br.
  intros [->|Hu]%elem_of_cons; [done|].
  apply list_elem_of_bind in Hu as (v & Hu & Hv). rewrite Forall_forall in IH.
  specialize (IH v Hv Hu). intros y Hy. right. apply list_elem_of_bind. eauto.
Qed.

(** ** Contexts *)

(** A frame: a node with the children to the left and to the right of the
    focus.  A context lists the frames from the focus to the root. *)
Record frame := Frame { fr_id : Z; fr_l : list gtree; fr_r : list gtree }.

Definition close (f : frame) (t : gtree) : gtree := Br (fr_id f) (fr_l f ++ t :: fr_r f).

Fixpoint plug (C : list frame) (t : gtree) : gtree :=
  match C with [] => t | f :: C => plug C (close f t) end.

(** The trees rooted at the ancestors, and the subtrees beside the path. *)
Fixpoint path_trees (C : list frame) (t : gtree) : list gtree :=
  match C with [] => [] | f :: C => close f t :: path_trees C (close f t) end.
Definition side (C : list frame) : list gtree :=
  C ≫= fun f => subl (fr_l f) ++ subl (fr_r f).

(** The ids before and after the focus in the lexical order. *)
Fixpoint before (C : list frame) : list Z :=
  match C with [] => [] | f :: C => before C ++ fr_id f :: idsl (fr_l f) end.
Fixpoint after (C : list frame) : list Z :=
  match C with [] => [] | f :: C => idsl (fr_r f) ++ after C end.

Definition ancestors (C : list frame) : list Z := fr_id <$> C.

Lemma plug_ids C t : ids (plug C t) = before C ++ ids t ++ after C.
Proof.
  revert t. induction C as [|f C IH]; intros t; cbn [plug before after].
  - by rewrite app_nil_r.
  - rewrite IH. unfold close. rewrite ids_br, idsl_app, idsl_cons.
    rewrite <- !app_assoc. cbn. by rewrite <- !app_assoc.
Qed.

Lemma plug_subtrees C t :
  subtrees (plug C t) ≡ₚ subtrees t ++ path_trees C t ++ side C.
Proof.
  revert t. induction C as [|f C IH]; intros t; cbn [plug path_trees].
  - by rewrite app_nil_r.
  - rewrite IH. unfold side. rewrite bind_cons. fold (side C).
    unfold close at 1. rewrite subtrees_br, subl_app. unfold subl at 2. rewrite bind_cons.
    fold (subl (fr_r f)). solve_Permutation.
Qed.

Lemma plug_close C f t : plug (f :: C) t = plug C (close f t).
Proof. done. Qed.

(** Every subtree is at the end of a context. *)
Lemma subtree_context u t : u ∈ subtrees t -> exists C, t = plug C u.
Proof.
  induction t as [x ts IH] using gtree_ind'. rewrite subtrees_br.
  intros [->|Hu]%elem_of_cons; [by exists []|].
  apply list_elem_of_bind in Hu as (v & Hu & Hv). rewrite Forall_forall in IH.
  destruct (IH v Hv Hu) as [C ->]. destruct (list_elem_of_split _ _ Hv) as (l & r & ->).
  exists (C ++ [Frame x l r]). clear -l.
  assert (G : forall C v, plug (C ++ [Frame x l r]) v = close (Frame x l r) (plug C v)).
  { clear. induction C as [|f C IH]; intros v; cbn; [done|]. apply IH. }
  by rewrite G.
Qed.

Lemma ancestors_ids C : ancestors C ⊆ before C.
Proof.
  induction C as [|f C IH]; [done|]. cbn. set_solver.
Qed.

Lemma ancestors_NoDup C t : NoDup (ids (plug C t)) -> NoDup (root_id t :: ancestors C).
Proof.
  revert t. induction C as [|f C IH]; intros t Hnd; [repeat constructor; set_solver|].
  cbn [plug] in Hnd. pose proof (IH _ Hnd) as Hf. cbn in Hf. cbn.
  constructor; [|done]. rewrite plug_ids in Hnd. unfold close in Hnd. rewrite ids_br in Hnd.
  apply NoDup_app in Hnd as (_ & Hd & Hnd).
  assert (Hin : root_id t ∈ idsl (fr_l f ++ t :: fr_r f)).
  { rewrite idsl_app, idsl_cons. pose proof (root_in_ids t). set_solver. }
  apply not_elem_of_cons. split.
  - intros E. cbn in Hnd. apply NoDup_cons in Hnd as [Hn _]. apply Hn. rewrite <- E. set_solver.
  - intros Ha. apply (Hd (root_id t)); [by apply (ancestors_ids C)|]. set_solver.
Qed.

(** ** Representation *)

Definition hd0 (l : list Z) : Z := default NULL (head l).

(** The sibling row [xs] below [par]. *)
Definition row (m : gmap Z jgTreeNode) (par : Z) (xs : list Z) : Prop :=
  forall l1 x l2, xs = l1 ++ x :: l2 ->
  exists n, m !! x = Some n /\ parent n = par /\ left_ n = lst NULL l1 /\ right_ n = hd0 l2.

Definition kid_ids (t : gtree) : list Z := root_id <$> kids t.

Record node_ok (m : gmap Z jgTreeNode) (t : gtree) : Prop := {
  nok_id : root_id t <> NULL;
  nok_child : exists n, m !! root_id t = Some n /\ child n = hd0 (kid_ids t);
  nok_row : row m (root_id t) (kid_ids t) }.

Record tree_ok (m : gmap Z jgTreeNode) (t : gtree) : Prop := {
  tok_nodup : NoDup (ids t);
  tok_root : exists n, m !! root_id t = Some n /\ parent n = NULL /\ left_ n = NULL /\ right_ n = NULL;
  tok_nodes : Forall (node_ok m) (subtrees t) }.

(** The links of the node in focus. *)
Definition located (m : gmap Z jgTreeNode) (C : list frame) (x : Z) : Prop :=
  exists n, m !! x = Some n /\ parent n = hd0 (ancestors C) /\
    left_ n = match C with f :: _ => lst NULL (root_id <$> fr_l f) | [] => NULL end /\
    right_ n = match C with f :: _ => hd0 (root_id <$> fr_r f) | [] => NULL end.

Lemma tok_sub m t u : tree_ok m t -> u ∈ subtrees t -> node_ok m u.
Proof. intros [_ _ H]. rewrite Forall_forall in H. auto. Qed.

Lemma plug_sub_focus C t : t ∈ subtrees (plug C t).
Proof. rewrite plug_subtrees. apply elem_of_app. left. apply self_in_subtrees. Qed.

Lemma plug_sub_path C t u : u ∈ path_trees C t -> u ∈ subtrees (plug C t).
Proof. rewrite plug_subtrees. set_solver. Qed.

Lemma plug_located m C t : tree_ok m (plug C t) -> located m C (root_id t).
Proof.
  destruct C as [|f C]; intros Hok; [exact (tok_root _ _ Hok)|].
  assert (Hn : node_ok m (close f t)) by (eapply tok_sub; [done|]; apply plug_sub_path; by left).
  destruct Hn as [_ _ Hr]. cbn in Hr. unfold kid_ids in Hr. cbn in Hr.
  rewrite fmap_app, fmap_cons in Hr. exact (Hr _ _ _ eq_refl).
Qed.

Lemma focus_node m C t : tree_ok m (plug C t) -> node_ok m t.
Proof. intros Hok. eapply tok_sub; [done|]. apply plug_sub_focus. Qed.

Lemma ids_nonnull m t x : tree_ok m t -> x ∈ ids t -> x <> NULL.
Proof.
  intros Hok (ts & Hu)%subtree_of_root. exact (nok_id _ _ (tok_sub _ _ _ Hok Hu)).
Qed.

Lemma ids_dom m t x : tree_ok m t -> x ∈ ids t -> is_Some (m !! x).
Proof.
  intros Hok (ts & Hu)%subtree_of_root.
  destruct (nok_child _ _ (tok_sub _ _ _ Hok Hu)) as (n & Hn & _). by exists n.
Qed.

(** Distinct keys of a map are no more than its size. *)
Lemma NoDup_size `(m : gmap Z A) l :
  NoDup l -> (forall x, x ∈ l -> is_Some (m !! x)) -> (length l <= size m)%nat.
Proof.
  intros Hnd Hin. rewrite <- size_dom, <- (size_list_to_set (C := gset Z)) by done.
  apply subseteq_size. intros x Hx. apply elem_of_list_to_set in Hx. by apply elem_of_dom, Hin.
Qed.

Lemma path_in_ids C t x : x ∈ root_id t :: ancestors C -> x ∈ ids (plug C t).
Proof.
  rewrite plug_ids. intros [->|Hx]%elem_of_cons.
  - pose proof (root_in_ids t). set_solver.
  - apply ancestors_ids in Hx. set_solver.
Qed.

Lemma path_fuel s C t :
  tree_ok (nodes s) (plug C t) -> (length C < size (nodes s))%nat.
Proof.
  intros Hok. pose proof (ancestors_NoDup C t (tok_nodup _ _ Hok)) as Hnd.
  pose proof (NoDup_size (nodes s) _ Hnd) as Hs. cbn in Hs. unfold ancestors in Hs at 2.
  rewrite length_fmap in Hs. apply Hs. intros x Hx. eapply ids_dom; [done|]. by apply path_in_ids.
Qed.

(** ** Walks *)

(** The links along the path to the root, all that the climbing loops read. *)
Fixpoint spine (m : gmap Z jgTreeNode) (C : list frame) (x : Z) : Prop :=
  x <> NULL /\ located m C x /\ match C with [] => True | f :: C => spine m C (fr_id f) end.

Lemma tree_spine m C t : tree_ok m (plug C t) -> spine m C (root_id t).
Proof.
  revert t. induction C as [|f C IH]; intros t Hok; (split; [|split]);
    [exact (nok_id _ _ (focus_node _ _ _ Hok))|by apply plug_located|done
    |exact (nok_id _ _ (focus_node _ _ _ Hok))|by apply plug_located|].
  by apply (IH (close f t)).
Qed.

Lemma spine_parent m C x : spine m C x ->
  x <> NULL /\ exists n, m !! x = Some n /\ parent n = hd0 (ancestors C).
Proof. destruct C; intros (Hx & (n & Hn & Hp & _) & _); eauto. Qed.

(** What [up_right] looks for: the first node to the right of the path. *)
Definition next_right (C : list frame) : Z := hd0 (after C).

Lemma hd0_idsl ts : hd0 (idsl ts) = hd0 (root_id <$> ts).
Proof. by destruct ts as [|[x us] ts]. Qed.

Lemma hd0_app l1 l2 : hd0 (l1 ++ l2) = match l1 with [] => hd0 l2 | x :: _ => x end.
Proof. by destruct l1. Qed.

Lemma up_right_spec s C x fuel :
  spine (nodes s) C x -> NULL ∉ after C -> (length C < fuel)%nat ->
  up_right fuel s (hd0 (ancestors C)) = Some (match C with f :: C => next_right C | [] => NULL end).
Proof.
  revert x fuel. induction C as [|f C IH]; intros x fuel Hsp Haf Hf;
    (destruct fuel as [|k]; [simpl in Hf; lia|]); [done|].
  change (hd0 (ancestors (f :: C))) with (fr_id f). cbn [up_right].
  destruct Hsp as (_ & _ & Hsp). pose proof (spine_parent _ _ _ Hsp) as (Hne & _).
  rewrite (proj2 (Z.eqb_neq _ _) Hne).
  assert (Hloc : located (nodes s) C (fr_id f)) by (by destruct C; destruct Hsp as (_ & ? & _)).
  destruct Hloc as (n & Hn & Hp & _ & Hr). rewrite Hn. cbn [mbind option_bind].
  unfold next_right. cbn [after] in Haf. destruct C as [|g C].
  - rewrite Hr. cbn. rewrite Hp. destruct k; [simpl in Hf; lia|]. done.
  - cbn [after] in Haf |- *. rewrite hd0_app. rewrite Hr, <- hd0_idsl.
    destruct (idsl (fr_r g)) as [|y l] eqn:E; cbn.
    + rewrite Hp. apply (IH (fr_id f)); [done| |simpl in Hf |- *; lia]. cbn [after]. rewrite E. set_solver.
    + rewrite (proj2 (Z.eqb_neq y NULL)); [done|]. intros ->. set_solver.
Qed.

(** The right sibling, or else the climb. *)
Lemma right_or_up s C x n :
  spine (nodes s) C x -> NULL ∉ after C -> (length C < node_fuel s)%nat -> nodes s !! x = Some n ->
  (if negb (right_ n =? NULL) then Some (right_ n) else up_right (node_fuel s) s (parent n))
  = Some (hd0 (after C)).
Proof.
  intros Hsp Haf Hfuel Hn.
  assert (Hloc : located (nodes s) C x) by (by destruct C; destruct Hsp as (_ & ? & _)).
  destruct Hloc as (n' & Hn' & Hp & _ & Hr).
  rewrite Hn in Hn'. injection Hn' as <-. rewrite Hp, Hr. destruct C as [|f C]; [done|].
  cbn [after] in Haf |- *. rewrite hd0_app, <- hd0_idsl. destruct (idsl (fr_r f)) as [|y l] eqn:E; cbn.
  - apply (up_right_spec s (f :: C) x); [done| |done]. cbn [after]. by rewrite E.
  - rewrite (proj2 (Z.eqb_neq y NULL)); [done|]. intros ->. set_solver.
Qed.

Lemma nextSib_spine s C x :
  spine (nodes s) C x -> NULL ∉ after C -> (length C < node_fuel s)%nat ->
  treeNextSib s x = Some (hd0 (after C)).
Proof.
  intros Hsp Haf Hf. unfold treeNextSib. pose proof (spine_parent _ _ _ Hsp) as (Hne & n & Hn & _).
  rewrite (proj2 (Z.eqb_neq _ _) Hne), Hn. cbn. by apply (right_or_up s C x).
Qed.

Lemma after_nonnull m C t : tree_ok m (plug C t) -> NULL ∉ after C.
Proof. intros Hok Hin. apply (ids_nonnull _ _ NULL Hok); [|done]. rewrite plug_ids. set_solver. Qed.

Lemma treeNextSib_spec s C t :
  tree_ok (nodes s) (plug C t) -> treeNextSib s (root_id t) = Some (hd0 (after C)).
Proof.
  intros Hok. pose proof (path_fuel _ _ _ Hok). apply nextSib_spine.
  - by apply tree_spine.
  - by eapply after_nonnull.
  - unfold node_fuel. lia.
Qed.

Lemma treeLexNext_focus s C x ts :
  tree_ok (nodes s) (plug C (Br x ts)) -> treeLexNext s x = Some (hd0 (idsl ts ++ after C)).
Proof.
  intros Hok. unfold treeLexNext. pose proof (focus_node _ _ _ Hok) as [Hne [n [Hn Hc]] _].
  cbn in Hne, Hn. rewrite (proj2 (Z.eqb_neq _ _) Hne), Hn. cbn.
  rewrite hd0_app. rewrite Hc. change (kid_ids (Br x ts)) with (root_id <$> ts).
  rewrite <- hd0_idsl. destruct (idsl ts) as [|y l] eqn:E; cbn.
  - pose proof (path_fuel _ _ _ Hok). apply (right_or_up s C x); [|by eapply after_nonnull| |done].
    + by apply (tree_spine _ _ _ Hok).
    + unfold node_fuel. lia.
  - assert (Hy : y <> NULL).
    { eapply ids_nonnull; [done|]. rewrite plug_ids, ids_br, E. set_solver. }
    by rewrite (proj2 (Z.eqb_neq _ _) Hy).
Qed.

(** The node after [x] in the lexical order. *)
Lemma lex_next s t l1 x l2 :
  tree_ok (nodes s) t -> ids t = l1 ++ x :: l2 -> treeLexNext s x = Some (hd0 l2).
Proof.
  intros Hok E. assert (Hx : x ∈ ids t) by (rewrite E; set_solver).
  destruct (subtree_of_root _ _ Hx) as (ts & Hu). destruct (subtree_context _ _ Hu) as (C & ->).
  rewrite (treeLexNext_focus s C x ts Hok). f_equal. f_equal.
  pose proof (tok_nodup _ _ Hok) as Hnd. rewrite plug_ids, ids_br in E, Hnd.
  rewrite <- app_comm_cons in E, Hnd. rewrite E in Hnd.
  assert (Hb : before C = l1) by (by eapply app_mid_inj).
  subst l1. by apply app_inv_head in E as [= ->].
Qed.

(** The parent links alone. *)
Fixpoint pchain (m : gmap Z jgTreeNode) (l : list Z) (x : Z) : Prop :=
  x <> NULL /\ (exists n, m !! x = Some n /\ parent n = hd0 l) /\
  match l with [] => True | y :: l => pchain m l y end.

Lemma spine_pchain m C x : spine m C x -> pchain m (ancestors C) x.
Proof.
  revert x. induction C as [|f C IH]; intros x (Hx & (n & Hn & Hp & _) & Hs); cbn; [eauto 10|].
  split; [done|]. split; [eauto|]. by apply IH.
Qed.

Lemma pchain_inj m l l' x : pchain m l x -> pchain m l' x -> l = l'.
Proof.
  revert l' x. induction l as [|y l IH]; intros [|y' l'] x (_ & (n & Hn & Hp) & Hs) (_ & (n' & Hn' & Hp') & Hs');
    rewrite Hn in Hn'; injection Hn' as <-; rewrite Hp in Hp'; cbn in Hp'.
  - done.
  - destruct l'; by destruct Hs' as (? & _).
  - destruct l; by destruct Hs as (? & _).
  - subst y'. f_equal. by apply (IH _ y).
Qed.

Lemma pchain_parents m m' l x :
  (forall x, parent <$> m' !! x = parent <$> m !! x) -> pchain m l x -> pchain m' l x.
Proof.
  intros H. revert x. induction l as [|y l IH]; intros x (Hx & (n & Hn & Hp) & Hs);
    (split; [done|]; split; [|auto]); specialize (H x); rewrite Hn in H;
    destruct (m' !! x) as [n'|]; try done; cbn in H; exists n'; split; congruence.
Qed.

Lemma ancestor_loop_spec s x l y fuel :
  pchain (nodes s) l y -> (length l < fuel)%nat ->
  ancestor_loop fuel s x (hd0 l) = Some (bool_decide (x ∈ l)).
Proof.
  revert y fuel. induction l as [|z l IH]; intros y fuel Hsp Hf;
    (destruct fuel as [|k]; [simpl in Hf; lia|]); [done|].
  change (hd0 (z :: l)) with z. cbn [ancestor_loop]. destruct Hsp as (_ & _ & Hsp).
  assert (Hz : z <> NULL /\ exists n, nodes s !! z = Some n /\ parent n = hd0 l)
    by (destruct l; by destruct Hsp as (? & ? & _)).
  destruct Hz as (Hne & n & Hn & Hp). rewrite (proj2 (Z.eqb_neq _ _) Hne).
  destruct (Z.eqb_spec z x) as [->|Hx].
  - by rewrite bool_decide_eq_true_2 by left.
  - rewrite Hn. cbn. rewrite Hp, (IH z); [|done|simpl in Hf; lia].
    f_equal. apply bool_decide_ext. rewrite elem_of_cons. split; [tauto|]. intros [->|]; [done|tauto].
Qed.

Lemma ancestor_pchain s x l y :
  pchain (nodes s) l y -> (length l < node_fuel s)%nat -> x <> NULL ->
  isAncestor s x y = Some (bool_decide (x ∈ l)).
Proof.
  intros Hsp Hf Hx. unfold isAncestor.
  assert (Hy : y <> NULL /\ exists n, nodes s !! y = Some n /\ parent n = hd0 l)
    by (destruct l; by destruct Hsp as (? & ? & _)).
  destruct Hy as (Hne & n & Hn & Hp).
  rewrite (proj2 (Z.eqb_neq _ _) Hx), (proj2 (Z.eqb_neq _ _) Hne). cbn.
  rewrite Hn. cbn. rewrite Hp. by apply (ancestor_loop_spec s x l y).
Qed.

Lemma isAncestor_spec s x C t :
  tree_ok (nodes s) (plug C t) -> x <> NULL ->
  isAncestor s x (root_id t) = Some (bool_decide (x ∈ ancestors C)).
Proof.
  intros Hok Hx. pose proof (path_fuel _ _ _ Hok). apply ancestor_pchain; [by apply spine_pchain, tree_spine| |done].
  unfold node_fuel, ancestors. rewrite length_fmap. lia.
Qed.

(** ** Changing links *)

(** [m'] differs from [m] in the child field of nodes in [chs] and in the
    parent and sibling fields of nodes in [lks] only. *)
Definition relinked (m m' : gmap Z jgTreeNode) (chs lks : list Z) : Prop :=
  forall x, match m !! x, m' !! x with
  | Some n, Some n' =>
      nodeType n' = nodeType n /\ name n' = name n /\ ndInfo n' = ndInfo n /\
      (x ∉ chs -> child n' = child n) /\
      (x ∉ lks -> parent n' = parent n /\ left_ n' = left_ n /\ right_ n' = right_ n)
  | None, None => True
  | _, _ => False
  end.

Lemma relinked_refl m chs lks : relinked m m chs lks.
Proof. intros x. by destruct (m !! x). Qed.

Lemma relinked_trans m1 m2 m3 chs lks :
  relinked m1 m2 chs lks -> relinked m2 m3 chs lks -> relinked m1 m3 chs lks.
Proof.
  intros H1 H2 x. specialize (H1 x). specialize (H2 x).
  destruct (m1 !! x), (m2 !! x), (m3 !! x); try done.
  destruct H1 as (? & ? & ? & Hc1 & Hl1), H2 as (? & ? & ? & Hc2 & Hl2).
  split; [congruence|]. split; [congruence|]. split; [congruence|]. split.
  - intros Hx. rewrite Hc2, Hc1; auto.
  - intros Hx. destruct (Hl1 Hx) as (? & ? & ?), (Hl2 Hx) as (? & ? & ?).
    repeat split; congruence.
Qed.

Lemma relinked_alter m p f chs lks :
  (forall n, nodeType (f n) = nodeType n /\ name (f n) = name n /\ ndInfo (f n) = ndInfo n) ->
  (forall n, p ∉ chs -> child (f n) = child n) ->
  (forall n, p ∉ lks -> parent (f n) = parent n /\ left_ (f n) = left_ n /\ right_ (f n) = right_ n) ->
  relinked m (alter f p m) chs lks.
Proof.
  intros Hf Hc Hl x. destruct (decide (x = p)) as [->|Hne].
  - rewrite lookup_alter_eq. destruct (m !! p) as [n|]; [|done]. cbn.
    destruct (Hf n) as (? & ? & ?). auto 10.
  - rewrite lookup_alter_ne by done. by destruct (m !! x).
Qed.

Lemma relinked_child m p v chs lks : p ∈ chs -> relinked m (alter (set_child v) p m) chs lks.
Proof. intros. by apply relinked_alter. Qed.

Lemma relinked_link m p f chs lks :
  p ∈ lks ->
  (forall n, nodeType (f n) = nodeType n /\ name (f n) = name n /\ ndInfo (f n) = ndInfo n /\
             child (f n) = child n) ->
  relinked m (alter f p m) chs lks.
Proof. intros Hp Hf. apply relinked_alter; intros n; destruct (Hf n) as (? & ? & ? & ?); auto. done. Qed.

(** A node whose own child field and whose children's links are untouched. *)
Lemma node_ok_relinked m m' t u chs lks :
  tree_ok m t -> u ∈ subtrees t -> relinked m m' chs lks -> root_id u ∉ chs ->
  (forall x n, x ∈ lks -> m !! x = Some n -> parent n <> root_id u) ->
  node_ok m' u.
Proof.
  intros Hok Hu Hrl Hc Hl. destruct (tok_sub _ _ _ Hok Hu) as [Hne (n & Hn & Hch) Hrow].
  constructor; [done| |].
  - specialize (Hrl (root_id u)). rewrite Hn in Hrl.
    destruct (m' !! root_id u) as [n'|]; [|done]. exists n'. split; [done|].
    destruct Hrl as (_ & _ & _ & Hcc & _). by rewrite Hcc.
  - intros l1 x l2 E. destruct (Hrow l1 x l2 E) as (k & Hk & Hp & Hkl & Hkr).
    specialize (Hrl x). rewrite Hk in Hrl. destruct (m' !! x) as [k'|]; [|done].
    destruct Hrl as (_ & _ & _ & _ & Hll). destruct Hll as (H1 & H2 & H3).
    { intros Hx. by apply (Hl x k Hx Hk). }
    exists k'. repeat split; congruence.
Qed.

(** [node_ok] looks at the ids of the node and of its children only. *)
Lemma node_ok_shape m u u' :
  node_ok m u -> root_id u' = root_id u -> kid_ids u' = kid_ids u -> node_ok m u'.
Proof. intros [H1 H2 H3] E1 E2. constructor; rewrite ?E1, ?E2; done. Qed.

Lemma path_trees_shape C t t' u' :
  root_id t' = root_id t -> u' ∈ path_trees C t' ->
  exists u, u ∈ path_trees C t /\ root_id u = root_id u' /\ kid_ids u = kid_ids u' /\
    root_id u ∈ ancestors C.
Proof.
  revert t t'. induction C as [|f C IH]; intros t t' Hr Hu; [by apply elem_of_nil in Hu|].
  cbn in Hu. apply elem_of_cons in Hu as [->|Hu].
  - exists (close f t). split; [by left|]. split; [done|]. split; [|by left].
    unfold kid_ids, close. cbn. by rewrite !fmap_app, !fmap_cons, Hr.
  - destruct (IH (close f t) (close f t') eq_refl Hu) as (u & H1 & H2 & H3 & H4).
    exists u. split; [by right|]. split; [done|]. split; [done|]. by right.
Qed.

Lemma kid_parent m t u x :
  tree_ok m t -> u ∈ subtrees t -> x ∈ kid_ids u ->
  exists n, m !! x = Some n /\ parent n = root_id u.
Proof.
  intros Hok Hu Hx. destruct (list_elem_of_split _ _ Hx) as (l1 & l2 & E).
  destruct (nok_row _ _ (tok_sub _ _ _ Hok Hu) l1 x l2 E) as (n & Hn & Hp & _). eauto.
Qed.

Lemma kids_in_ids u t : u ∈ subtrees t -> kid_ids u ⊆ ids t.
Proof.
  intros Hu x (v & -> & Hv)%list_elem_of_fmap. apply (ids_mono u t Hu). destruct u as [y ts].
  right. apply list_elem_of_bind. exists v. split; [apply root_in_ids|done].
Qed.

Lemma root_of_plug C t : root_id (plug C t) = lst (root_id t) (ancestors C).
Proof.
  revert t. induction C as [|f C IH]; intros t; cbn [plug ancestors fmap list_fmap]; [done|].
  rewrite IH. by rewrite lst_cons.
Qed.

(** Replacing the focus by a tree with the same root. *)
Lemma replace_focus m m' C t t' chs lks :
  tree_ok m (plug C t) -> root_id t' = root_id t -> NoDup (ids (plug C t')) ->
  relinked m m' chs lks ->
  Forall (node_ok m') (subtrees t') -> located m' C (root_id t) ->
  (forall x u, x ∈ chs -> u ∈ path_trees C t ++ side C -> root_id u <> x) ->
  (forall x n u, x ∈ lks -> m !! x = Some n -> u ∈ path_trees C t ++ side C -> parent n <> root_id u) ->
  (forall x, x ∈ lks -> x ∉ ancestors C) ->
  tree_ok m' (plug C t').
Proof.
  intros Hok Hr Hnd Hrl Ht' Hloc Hchs Hlks Hanc. constructor; [done| |].
  - rewrite root_of_plug, Hr. destruct C as [|f C]; [exact Hloc|].
    destruct (tok_root _ _ Hok) as (n & Hn & H1 & H2 & H3).
    rewrite root_of_plug in Hn. change (ancestors (f :: C)) with (fr_id f :: ancestors C) in *.
    rewrite lst_cons in *. pose proof (lst_elem_of (fr_id f) (ancestors C)) as Hin.
    specialize (Hrl (lst (fr_id f) (ancestors C))). rewrite Hn in Hrl.
    destruct (m' !! lst (fr_id f) (ancestors C)) as [n'|]; [|done].
    destruct Hrl as (_ & _ & _ & _ & Hl). destruct Hl as (E1 & E2 & E3).
    { intros Hx. by apply (Hanc _ Hx). }
    exists n'. repeat split; congruence.
  - rewrite plug_subtrees. apply Forall_app. split; [done|].
    assert (Hold : forall u, u ∈ path_trees C t ++ side C -> node_ok m' u).
    { intros u Hu. eapply (node_ok_relinked m m' (plug C t) u chs lks); [done| |done| |].
      - rewrite plug_subtrees. set_solver.
      - intros Hx. by apply (Hchs _ u Hx Hu).
      - intros x n Hx Hn. by apply (Hlks x n u). }
    apply Forall_app. split; apply Forall_forall; intros u Hu.
    + destruct (path_trees_shape C t t' u Hr Hu) as (v & Hv & E1 & E2 & _).
      apply (node_ok_shape m' v); [|done|done]. apply Hold. set_solver.
    + apply Hold. set_solver.
Qed.

(** ** Linking a subtree below a node *)

(** The stores of [treeInsertChild] on the nodes, for the children [xs]. *)
Definition link_child (m : gmap Z jgTreeNode) (par kid : Z) (xs : list Z) : gmap Z jgTreeNode :=
  alter (set_parent par) kid (alter (set_child (hd0 (xs ++ [kid]))) par
    (match last xs with
     | Some y => alter (set_left y) kid (alter (set_right kid) y m)
     | None => m
     end)).

Lemma link_child_relinked m par kid xs :
  relinked m (link_child m par kid xs) [par] (kid :: xs).
Proof.
  unfold link_child. eapply relinked_trans; [|eapply relinked_trans].
  2:{ apply (relinked_child _ par (hd0 (xs ++ [kid]))). set_solver. }
  2:{ apply relinked_link; [set_solver|done]. }
  destruct (last xs) as [y|] eqn:E; [|apply relinked_refl].
  apply last_Some in E as (l & ->).
  eapply relinked_trans; apply relinked_link; (set_solver || done).
Qed.

(** Looking up a node other than the parent after linking. *)
Lemma link_child_kid m par kid xs n :
  kid <> par -> kid ∉ xs -> m !! kid = Some n -> left_ n = NULL ->
  exists n', link_child m par kid xs !! kid = Some n' /\ parent n' = par /\
    left_ n' = lst NULL xs /\ right_ n' = right_ n /\ child n' = child n.
Proof.
  intros Hp Hx Hn Hl. unfold link_child, lst. rewrite lookup_alter_eq, lookup_alter_ne by done.
  destruct (last xs) as [y|] eqn:E.
  - assert (y <> kid). { intros ->. apply last_Some in E as (l & ->). set_solver. }
    rewrite lookup_alter_eq, lookup_alter_ne, Hn by done. cbn. eauto 10.
  - rewrite Hn. cbn. eauto 10.
Qed.

Lemma link_child_sibling m par kid xs x n :
  x <> par -> x <> kid -> m !! x = Some n ->
  exists n', link_child m par kid xs !! x = Some n' /\ parent n' = parent n /\
    left_ n' = left_ n /\ right_ n' = (if decide (last xs = Some x) then kid else right_ n).
Proof.
  intros Hp Hk Hn. unfold link_child. rewrite lookup_alter_ne, lookup_alter_ne by done.
  destruct (last xs) as [y|] eqn:E; [|eauto 10].
  rewrite lookup_alter_ne by done. destruct (decide (y = x)) as [->|Hne].
  - rewrite lookup_alter_eq, Hn, decide_True by done. cbn. eauto 10.
  - rewrite lookup_alter_ne, Hn, decide_False by congruence. eauto 10.
Qed.

Lemma link_child_row m par kid xs n :
  kid <> par -> kid ∉ xs -> par ∉ xs -> NoDup xs -> row m par xs ->
  m !! kid = Some n -> left_ n = NULL -> right_ n = NULL ->
  row (link_child m par kid xs) par (xs ++ [kid]).
Proof.
  intros Hp Hk Hpx Hnd Hrow Hn Hl Hr l1 x l2 E.
  destruct l2 as [|z l2 _] using rev_ind.
  - apply app_inj_tail in E as [<- <-].
    destruct (link_child_kid m par kid xs n) as (n' & H1 & H2 & H3 & H4 & _); [done..|].
    exists n'. rewrite H4, Hr. done.
  - rewrite app_comm_cons, app_assoc in E. apply app_inj_tail in E as [-> ->].
    destruct (Hrow l1 x l2 eq_refl) as (m1 & Hm1 & E1 & E2 & E3).
    destruct (link_child_sibling m par z (l1 ++ x :: l2) x m1) as (n' & H1 & H2 & H3 & H4);
      [set_solver|set_solver|done|].
    exists n'. split; [done|]. split; [congruence|]. split; [congruence|]. rewrite H4, E3.
    destruct l2 as [|y l2].
    + rewrite decide_True; [done|]. apply last_snoc.
    + rewrite decide_False; [done|]. rewrite last_app_cons, last_cons_cons. intros Hx.
      apply NoDup_app in Hnd as (_ & _ & [Hnx _]%NoDup_cons). apply Hnx.
      apply last_Some in Hx as (l' & ->). set_solver.
Qed.

(** The nodes outside the focus. *)
Lemma outside_focus C t u :
  NoDup (ids (plug C t)) -> u ∈ path_trees C t ++ side C -> root_id u ∉ ids t.
Proof.
  intros Hnd Hu Hin. rewrite ids_subtrees in Hnd, Hin. rewrite plug_subtrees, fmap_app in Hnd.
  apply NoDup_app in Hnd as (_ & Hd & _). apply (Hd _ Hin), list_elem_of_fmap. eauto.
Qed.

(** The nodes strictly below a node. *)
Lemma below_not_root x ts u : NoDup (ids (Br x ts)) -> u ∈ subl ts -> root_id u <> x.
Proof.
  rewrite ids_br. intros [Hx _]%NoDup_cons Hu <-. apply Hx.
  apply list_elem_of_bind in Hu as (v & Hu & Hv). apply list_elem_of_bind.
  exists v. split; [|done]. by apply root_of_subtree.
Qed.

Lemma focus_NoDup C t : NoDup (ids (plug C t)) -> NoDup (ids t).
Proof. rewrite plug_ids. intros (_ & _ & (? & _)%NoDup_app)%NoDup_app. done. Qed.

Lemma located_relinked m m' C x chs lks :
  located m C x -> relinked m m' chs lks -> x ∉ lks -> located m' C x.
Proof.
  intros (n & Hn & H1 & H2 & H3) Hrl Hx. specialize (Hrl x). rewrite Hn in Hrl.
  destruct (m' !! x) as [n'|] eqn:E; [|done]. destruct Hrl as (_ & _ & _ & _ & Hl).
  destruct (Hl Hx) as (E1 & E2 & E3). exists n'. repeat split; congruence.
Qed.

Lemma insert_ids C par ts K :
  ids (plug C (Br par (ts ++ [K]))) ≡ₚ ids K ++ ids (plug C (Br par ts)).
Proof.
  rewrite !plug_ids, !ids_br, idsl_app, idsl_cons. cbn [idsl mbind list_bind].
  rewrite app_nil_r. solve_Permutation.
Qed.

Lemma kid_ids_snoc x ts K : kid_ids (Br x (ts ++ [K])) = (root_id <$> ts) ++ [root_id K].
Proof. unfold kid_ids. cbn. by rewrite fmap_app. Qed.

Lemma root_not_kid x ts : NoDup (ids (Br x ts)) -> x ∉ root_id <$> ts.
Proof.
  rewrite ids_br. intros [Hn _]%NoDup_cons Hx. apply Hn.
  apply list_elem_of_fmap in Hx as (v & -> & Hv). apply list_elem_of_bind.
  exists v. split; [apply root_in_ids|done].
Qed.

Lemma kids_NoDup x ts : NoDup (ids (Br x ts)) -> NoDup (root_id <$> ts).
Proof.
  rewrite ids_br. intros [_ Hn]%NoDup_cons. clear x. induction ts as [|t ts IH]; [constructor|].
  rewrite idsl_cons in Hn. apply NoDup_app in Hn as (Ht & Hd & Hn). cbn. constructor; [|by apply IH].
  intros (v & E & Hv)%list_elem_of_fmap. apply (Hd (root_id t)); [apply root_in_ids|].
  rewrite E. apply list_elem_of_bind. exists v. split; [apply root_in_ids|done].
Qed.

(** Subtrees beside the path. *)
Lemma side_ids C u : u ∈ side C -> ids u ⊆ before C ++ after C.
Proof.
  induction C as [|f C IH]; [set_solver|]. unfold side. rewrite bind_cons. fold (side C).
  cbn [before after]. assert (G : forall l, u ∈ subl l -> ids u ⊆ idsl l).
  { intros l (v & Hu & Hv)%list_elem_of_bind x Hx. apply list_elem_of_bind.
    exists v. split; [|done]. by apply (ids_mono u v). }
  intros [[Hu|Hu]%elem_of_app|Hu]%elem_of_app x Hx.
  - specialize (G _ Hu x Hx). clear -G. set_solver.
  - specialize (G _ Hu x Hx). clear -G. set_solver.
  - specialize (IH Hu x Hx). clear -IH. set_solver.
Qed.

Lemma path_tree_roots C t : root_id <$> path_trees C t = ancestors C.
Proof. revert t. induction C as [|f C IH]; intros t; cbn; [done|]. by rewrite IH. Qed.

Lemma side_not_path C t u :
  NoDup (ids (plug C t)) -> u ∈ side C -> root_id u ∉ root_id t :: ancestors C.
Proof.
  intros Hnd Hu Hin. rewrite ids_subtrees in Hnd.
  rewrite plug_subtrees, !fmap_app, path_tree_roots in Hnd.
  apply NoDup_app in Hnd as (_ & Hd & (_ & Hd' & _)%NoDup_app).
  assert (Hs : root_id u ∈ root_id <$> side C) by (apply list_elem_of_fmap; eauto).
  apply elem_of_cons in Hin as [E|Hin]; [|by apply (Hd' (root_id u))].
  apply (Hd (root_id u)); [|set_solver]. rewrite <- ids_subtrees, E. apply root_in_ids.
Qed.

(** Being below a node, by the path and by the ids. *)
Lemma subtrees_trans u v t : u ∈ subtrees v -> v ∈ subtrees t -> u ∈ subtrees t.
Proof.
  intros Hu. induction t as [x ts IH] using gtree_ind'. rewrite subtrees_br.
  intros [->|Hv]%elem_of_cons; [by rewrite <- subtrees_br|]. right.
  apply list_elem_of_bind in Hv as (w & Hv & Hw). rewrite Forall_forall in IH.
  apply list_elem_of_bind. eauto.
Qed.

Lemma path_contains C t v : v ∈ path_trees C t -> t ∈ subtrees v.
Proof.
  revert t. induction C as [|f C IH]; intros t Hv; [by apply elem_of_nil in Hv|].
  cbn in Hv. assert (Ht : t ∈ subtrees (close f t)).
  { unfold close. rewrite subtrees_br, subl_app. right. apply elem_of_app. right.
    unfold subl. rewrite bind_cons. apply elem_of_app. left. apply self_in_subtrees. }
  apply elem_of_cons in Hv as [->|Hv]; [done|]. eapply subtrees_trans; [done|]. by apply IH.
Qed.

Lemma same_root_eq t u v :
  NoDup (ids t) -> u ∈ subtrees t -> v ∈ subtrees t -> root_id u = root_id v -> u = v.
Proof.
  rewrite ids_subtrees. intros Hnd Hu Hv E.
  apply list_elem_of_lookup in Hu as [i Hi]. apply list_elem_of_lookup in Hv as [k Hk].
  assert (i = k); [|congruence]. eapply (NoDup_lookup (root_id <$> subtrees t)); [done| |].
  - rewrite list_lookup_fmap, Hi. reflexivity.
  - rewrite list_lookup_fmap, Hk. cbn. by rewrite E.
Qed.

Lemma plug_app C1 C2 t : plug (C1 ++ C2) t = plug C2 (plug C1 t).
Proof. revert t. induction C1 as [|f C1 IH]; intros t; cbn; [done|]. apply IH. Qed.

Lemma below_iff m T D K E u :
  tree_ok m T -> T = plug D K -> T = plug E u ->
  root_id K ∈ root_id u :: ancestors E <-> root_id u ∈ ids K.
Proof.
  intros Hok HD HE. split.
  - intros [Heq|Hin]%elem_of_cons; [rewrite <- Heq; apply root_in_ids|].
    rewrite <- (path_tree_roots E u) in Hin. apply list_elem_of_fmap in Hin as (v & Hv & Hvin).
    assert (K = v) as ->.
    { apply (same_root_eq T); [apply Hok| | |done].
      - rewrite HD. apply plug_sub_focus.
      - rewrite HE. by apply plug_sub_path. }
    by apply root_of_subtree, (path_contains E).
  - intros Hin. destruct (subtree_of_root _ _ Hin) as (es & Hs).
    destruct (subtree_context _ _ Hs) as (F & HF).
    assert (Ha : ancestors E = ancestors (F ++ D)).
    { apply (pchain_inj m _ _ (root_id u)); apply spine_pchain.
      - apply tree_spine. by rewrite <- HE.
      - apply (tree_spine m (F ++ D) (Br (root_id u) es)). by rewrite plug_app, <- HF, <- HD. }
    rewrite Ha. unfold ancestors. rewrite fmap_app. fold (ancestors F).
    assert (Hr : root_id K = lst (root_id u) (ancestors F)) by (rewrite HF; by rewrite root_of_plug).
    rewrite Hr. pose proof (lst_elem_of (root_id u) (ancestors F)). set_solver.
Qed.

Section InsertTree.
Context (m : gmap Z jgTreeNode) (C : list frame) (par : Z) (ts : list gtree) (K : gtree).
Hypothesis Hok : tree_ok m (plug C (Br par ts)).
Hypothesis HK : tree_ok m K.
Hypothesis Hdis : ids K ## ids (plug C (Br par ts)).
Let m' := link_child m par (root_id K) (root_id <$> ts).
Let lks := root_id K :: (root_id <$> ts).

Lemma ins_NoDup : NoDup (ids (Br par ts)).
Proof. exact (focus_NoDup _ _ (tok_nodup _ _ Hok)). Qed.

Lemma ins_kid_fresh : root_id K <> par /\ root_id K ∉ root_id <$> ts.
Proof.
  pose proof (root_in_ids K) as HKr. split.
  - intros E. apply (Hdis (root_id K)); [done|]. rewrite E. apply path_in_ids. by left.
  - intros Hx. apply (Hdis (root_id K)); [done|].
    apply (kids_in_ids (Br par ts)); [apply plug_sub_focus|done].
Qed.

(** The relinked nodes hang below [par] or nowhere. *)
Lemma ins_parents x n u t0 :
  x ∈ lks -> m !! x = Some n -> tree_ok m t0 -> u ∈ subtrees t0 -> root_id u <> par ->
  parent n <> root_id u.
Proof.
  intros Hx Hn Ht0 Hu Hup. pose proof (nok_id _ _ (tok_sub _ _ _ Ht0 Hu)).
  apply elem_of_cons in Hx as [->|Hx].
  - destruct (tok_root _ _ HK) as (nk & Hnk & Hkpar & _). congruence.
  - destruct (kid_parent m _ (Br par ts) x Hok) as (n' & Hn' & Hp);
      [apply plug_sub_focus|done|]. cbn in Hp. congruence.
Qed.

Lemma ins_focus : node_ok m' (Br par (ts ++ [K])).
Proof.
  destruct ins_kid_fresh as [Hkp Hkx]. pose proof ins_NoDup as Hnd.
  destruct (tok_root _ _ HK) as (nk & Hnk & Hkpar & Hkl & Hkr).
  pose proof (focus_node _ _ _ Hok) as [Hparne (np & Hnp & _) Hrow].
  constructor; [done| |].
  - cbn [root_id] in *. rewrite kid_ids_snoc. unfold m', link_child.
    rewrite lookup_alter_ne, lookup_alter_eq by done.
    destruct (last (root_id <$> ts)) as [y|] eqn:E; [|rewrite Hnp; by eexists].
    rewrite lookup_alter_ne by done.
    rewrite lookup_alter_ne, Hnp; [by eexists|]. intros ->.
    apply (root_not_kid par ts Hnd). apply last_Some in E as (l & ->). set_solver.
  - rewrite kid_ids_snoc. apply (link_child_row m par (root_id K) (root_id <$> ts) nk); try done.
    + by apply root_not_kid.
    + by apply (kids_NoDup par).
Qed.

Lemma insert_tree_ok : tree_ok m' (plug C (Br par (ts ++ [K]))).
Proof.
  destruct ins_kid_fresh as [Hkp Hkx]. pose proof ins_NoDup as Hnd.
  pose proof (link_child_relinked m par (root_id K) (root_id <$> ts)) as Hrl.
  assert (Hout : forall u, u ∈ path_trees C (Br par ts) ++ side C -> root_id u <> par).
  { intros u Hu E. apply (outside_focus C (Br par ts) u); [apply Hok|done|]. rewrite E. by left. }
  apply (replace_focus m m' C (Br par ts) _ [par] lks); [done|done| |done| | | | |].
  - rewrite insert_ids. apply NoDup_app. split; [apply HK|]. split; [|apply Hok].
    intros x Hx Hy. by apply (Hdis x).
  - rewrite subtrees_br, subl_app. constructor; [apply ins_focus|].
    apply Forall_app. split; apply Forall_forall; intros u Hu.
    + assert (root_id u <> par) by by apply (below_not_root par ts).
      assert (u ∈ subtrees (plug C (Br par ts))) by (rewrite plug_subtrees, subtrees_br; set_solver).
      eapply (node_ok_relinked m m' _ u [par] lks); [apply Hok|done|done|set_solver|].
      intros x n Hx Hn. eapply ins_parents; [done|done|apply Hok|done|done].
    + unfold subl in Hu. rewrite bind_singleton in Hu.
      assert (root_id u <> par).
      { intros E. apply (Hdis par); [|apply path_in_ids; by left]. rewrite <- E. by apply root_of_subtree. }
      eapply (node_ok_relinked m m' K u [par] lks); [done|done|done|set_solver|].
      intros x n Hx Hn. eapply ins_parents; [done|done|apply HK|done|done].
  - apply (located_relinked _ _ _ _ _ _ (plug_located _ _ _ Hok) Hrl).
    cbn. apply not_elem_of_cons. split; [congruence|]. by apply root_not_kid.
  - intros x u Hx%list_elem_of_singleton Hu. subst x. by apply Hout.
  - intros x n u Hx Hn Hu. eapply ins_parents; [done|done|apply Hok| |by apply Hout].
    rewrite plug_subtrees. set_solver.
  - intros x Hx Ha. apply elem_of_cons in Hx as [->|Hx].
    + apply (Hdis (root_id K)); [apply root_in_ids|]. apply path_in_ids. by right.
    + pose proof (tok_nodup _ _ Hok) as Hall. rewrite plug_ids in Hall.
      apply NoDup_app in Hall as (_ & Hd & _). apply (Hd x); [by apply ancestors_ids|].
      apply elem_of_app. left. apply (kids_in_ids (Br par ts)); [apply self_in_subtrees|done].
Qed.

End InsertTree.

(** ** Unlinking a subtree *)

Definition unlink (n : jgTreeNode) : jgTreeNode := set_parent NULL (set_left NULL (set_right NULL n)).

(** The stores of [treeClip] for a node between the siblings [xl] and [xr]. *)
Definition clip_around (m : gmap Z jgTreeNode) (par : Z) (xl xr : list Z) : gmap Z jgTreeNode :=
  let m := match last xl with
           | Some y => alter (set_right (hd0 xr)) y m
           | None => alter (set_child (hd0 xr)) par m
           end in
  match xr with
  | r :: _ => alter (set_left (lst NULL xl)) r m
  | [] => m
  end.

Definition clip_links (m : gmap Z jgTreeNode) (par kid : Z) (xl xr : list Z) : gmap Z jgTreeNode :=
  alter unlink kid (clip_around m par xl xr).

Lemma clip_links_relinked m par kid xl xr :
  relinked m (clip_links m par kid xl xr) [par] (kid :: xl ++ xr).
Proof.
  unfold clip_links. eapply relinked_trans; [|apply relinked_link; [set_solver|done]].
  unfold clip_around.
  assert (H1 : relinked m (match last xl with
      | Some y => alter (set_right (hd0 xr)) y m
      | None => alter (set_child (hd0 xr)) par m end) [par] (kid :: xl ++ xr)).
  { destruct (last xl) as [y|] eqn:E; [|apply relinked_child; set_solver].
    apply last_Some in E as (l & ->). apply relinked_link; [set_solver|done]. }
  destruct xr as [|r xr]; [done|].
  eapply relinked_trans; [exact H1|]. apply relinked_link; [set_solver|done].
Qed.

Lemma clip_kid m par kid xl xr n :
  m !! kid = Some n -> kid <> par -> kid ∉ xl ++ xr ->
  clip_links m par kid xl xr !! kid = Some (unlink n).
Proof.
  intros Hn Hp Hx. unfold clip_links. rewrite lookup_alter_eq. unfold clip_around.
  assert (H1 : (match last xl with
      | Some y => alter (set_right (hd0 xr)) y m
      | None => alter (set_child (hd0 xr)) par m end) !! kid = Some n).
  { destruct (last xl) as [y|] eqn:E; rewrite lookup_alter_ne; [done| |done|congruence].
    intros ->. apply last_Some in E as (l & ->). set_solver. }
  destruct xr as [|r xr]; [by rewrite H1|].
  rewrite lookup_alter_ne, H1; [done|]. set_solver.
Qed.

Lemma clip_parent m par kid xl xr n :
  m !! par = Some n -> kid <> par -> par ∉ xl ++ xr -> child n = hd0 (xl ++ kid :: xr) ->
  exists n', clip_links m par kid xl xr !! par = Some n' /\ child n' = hd0 (xl ++ xr).
Proof.
  intros Hn Hp Hx Hc. unfold clip_links. rewrite lookup_alter_ne by done. unfold clip_around.
  assert (H1 : exists n', (match last xl with
      | Some y => alter (set_right (hd0 xr)) y m
      | None => alter (set_child (hd0 xr)) par m end) !! par = Some n' /\ child n' = hd0 (xl ++ xr)).
  { destruct (last xl) as [y|] eqn:E.
    - apply last_Some in E as (l & ->). rewrite lookup_alter_ne by set_solver.
      exists n. split; [done|]. rewrite Hc, !hd0_app. by destruct l.
    - apply last_None in E as ->. rewrite lookup_alter_eq, Hn. by eexists. }
  destruct xr as [|r xr]; [exact H1|]. rewrite lookup_alter_ne by set_solver. exact H1.
Qed.

(** A sibling: the two neighbours of the clipped node are joined. *)
Lemma clip_sibling m par kid xl xr x n :
  m !! x = Some n -> x <> par -> x <> kid ->
  exists n', clip_links m par kid xl xr !! x = Some n' /\ parent n' = parent n /\
    (left_ n' = if decide (head xr = Some x) then lst NULL xl else left_ n) /\
    (right_ n' = if decide (last xl = Some x) then hd0 xr else right_ n).
Proof.
  intros Hn Hp Hk. unfold clip_links. rewrite lookup_alter_ne by done. unfold clip_around.
  assert (H1 : exists n', (match last xl with
      | Some y => alter (set_right (hd0 xr)) y m
      | None => alter (set_child (hd0 xr)) par m end) !! x = Some n' /\ parent n' = parent n /\
      left_ n' = left_ n /\ right_ n' = if decide (last xl = Some x) then hd0 xr else right_ n).
  { destruct (last xl) as [y|] eqn:E; [|rewrite lookup_alter_ne by done; eauto 10].
    destruct (decide (y = x)) as [->|Hne].
    - rewrite lookup_alter_eq, Hn, decide_True by done. cbn. eauto 10.
    - rewrite lookup_alter_ne, decide_False by congruence. eauto 10. }
  destruct H1 as (n' & Hn' & H2 & H3 & H4). destruct xr as [|r xr].
  - rewrite decide_False by done. eauto 10.
  - cbn [head]. destruct (decide (r = x)) as [->|Hne].
    + rewrite lookup_alter_eq, Hn', decide_True by done. cbn. eauto 10.
    + rewrite lookup_alter_ne, decide_False by congruence. eauto 10.
Qed.

Lemma last_mid {A} (l1 l2 : list A) (x y : A) :
  NoDup (l1 ++ x :: l2) -> last (l1 ++ x :: l2) = Some y -> x = y <-> l2 = [].
Proof.
  intros Hnd Hl. split; [intros ->|intros ->; rewrite last_snoc in Hl; congruence].
  destruct l2 as [|z l2]; [done|]. rewrite last_app_cons, last_cons_cons in Hl.
  apply NoDup_app in Hnd as (_ & _ & [Hn _]%NoDup_cons). destruct Hn.
  apply last_Some in Hl as (l' & ->). set_solver.
Qed.

Lemma clip_row_left m par kid l1 x l2 xr :
  row m par ((l1 ++ x :: l2) ++ kid :: xr) -> NoDup ((l1 ++ x :: l2) ++ kid :: xr) ->
  par ∉ (l1 ++ x :: l2) ++ kid :: xr ->
  exists n, clip_links m par kid (l1 ++ x :: l2) xr !! x = Some n /\ parent n = par /\
    left_ n = lst NULL l1 /\ right_ n = hd0 (l2 ++ xr).
Proof.
  intros Hrow Hnd Hp. destruct (Hrow l1 x (l2 ++ kid :: xr)) as (n & Hn & E1 & E2 & E3);
    [by rewrite <- app_assoc|].
  apply NoDup_app in Hnd as (Hndl & Hd & Hndr).
  assert (Hx : x ∉ kid :: xr) by (apply Hd; set_solver).
  destruct (clip_sibling m par kid (l1 ++ x :: l2) xr x n) as (n' & Hn' & F1 & F2 & F3);
    [done|set_solver|set_solver|].
  exists n'. split; [done|]. split; [congruence|]. rewrite F2, F3, E2, E3. split.
  - rewrite decide_False; [done|]. destruct xr; set_solver.
  - destruct (last (l1 ++ x :: l2)) as [y|] eqn:E.
    + pose proof (last_mid l1 l2 x y Hndl E) as Hm. case_decide as Hy.
      * injection Hy as ->. by rewrite (proj1 Hm).
      * destruct l2; [|done]. destruct Hy. by rewrite (proj2 Hm).
    + apply last_None in E. by destruct l1.
Qed.

Lemma clip_row_right m par kid xl l1 x l2 :
  row m par (xl ++ kid :: l1 ++ x :: l2) -> NoDup (xl ++ kid :: l1 ++ x :: l2) ->
  par ∉ xl ++ kid :: l1 ++ x :: l2 ->
  exists n, clip_links m par kid xl (l1 ++ x :: l2) !! x = Some n /\ parent n = par /\
    left_ n = lst NULL (xl ++ l1) /\ right_ n = hd0 l2.
Proof.
  intros Hrow Hnd Hp. destruct (Hrow (xl ++ kid :: l1) x l2) as (n & Hn & E1 & E2 & E3);
    [by rewrite <- app_assoc|].
  apply NoDup_app in Hnd as (Hndl & Hd & [Hk Hndr]%NoDup_cons).
  assert (Hx : x ∉ xl) by (intros Hx; apply (Hd x Hx); set_solver).
  destruct (clip_sibling m par kid xl (l1 ++ x :: l2) x n) as (n' & Hn' & F1 & F2 & F3);
    [done|set_solver|set_solver|].
  exists n'. split; [done|]. split; [congruence|]. rewrite F2, F3, E2, E3. split.
  - destruct l1 as [|y l1].
    + by rewrite decide_True, app_nil_r.
    + rewrite decide_False; [unfold lst; by rewrite !last_app_cons, last_cons_cons|].
      cbn. intros [= ->]. cbn in Hndr. apply NoDup_cons in Hndr as [Hy _]. set_solver.
  - rewrite decide_False; [done|]. intros (l & ->)%last_Some. set_solver.
Qed.

Lemma clip_row m par kid xl xr :
  row m par (xl ++ kid :: xr) -> NoDup (xl ++ kid :: xr) -> par ∉ xl ++ kid :: xr ->
  row (clip_links m par kid xl xr) par (xl ++ xr).
Proof.
  intros Hrow Hnd Hp l1 x l2 E. apply app_eq_inv in E as [(k & -> & E)|(k & -> & ->)].
  - destruct k as [|y k]; cbn in E.
    + subst xr. rewrite app_nil_r in *.
      pose proof (clip_row_right m par kid l1 [] x l2 Hrow Hnd Hp) as Hc.
      by rewrite app_nil_r in Hc.
    + injection E as -> ->. by apply clip_row_left.
  - by apply clip_row_right.
Qed.

Section ClipTree.
Context (m : gmap Z jgTreeNode) (C : list frame) (f : frame) (K : gtree).
Hypothesis Hok : tree_ok m (plug (f :: C) K).
Let xl := root_id <$> fr_l f.
Let xr := root_id <$> fr_r f.
Let m' := clip_links m (fr_id f) (root_id K) xl xr.
Let rest := Br (fr_id f) (fr_l f ++ fr_r f).

Lemma clip_kid_ids : kid_ids (close f K) = xl ++ root_id K :: xr.
Proof. unfold kid_ids, close. cbn. by rewrite fmap_app, fmap_cons. Qed.

Lemma clip_focus_NoDup : NoDup (ids (close f K)).
Proof. exact (focus_NoDup C _ (tok_nodup _ _ Hok)). Qed.

Lemma clip_kids_NoDup : NoDup (xl ++ root_id K :: xr) /\ fr_id f ∉ xl ++ root_id K :: xr.
Proof.
  pose proof clip_focus_NoDup as Hnd. unfold close in Hnd. split.
  - pose proof (kids_NoDup _ _ Hnd) as H. by rewrite fmap_app, fmap_cons in H.
  - pose proof (root_not_kid _ _ Hnd) as H. by rewrite fmap_app, fmap_cons in H.
Qed.

Lemma clip_parents x n u :
  x ∈ root_id K :: xl ++ xr -> m !! x = Some n -> root_id u <> fr_id f -> parent n <> root_id u.
Proof.
  intros Hx Hn Hu. destruct (kid_parent m _ (close f K) x Hok) as (n' & Hn' & Hp).
  - apply (plug_sub_path (f :: C)). by left.
  - rewrite clip_kid_ids. set_solver.
  - cbn in Hp. congruence.
Qed.

Lemma clip_focus : node_ok m' rest.
Proof.
  destruct clip_kids_NoDup as [Hnd Hq].
  assert (Hf : node_ok m (close f K)) by (eapply tok_sub; [done|]; apply (plug_sub_path (f :: C)); by left).
  destruct Hf as [Hne (n & Hn & Hc) Hrow]. rewrite clip_kid_ids in Hc, Hrow. cbn in Hne, Hn, Hrow.
  constructor; [done| |]; unfold kid_ids, rest; cbn [kids root_id]; rewrite fmap_app.
  - apply (clip_parent m _ _ _ _ n); [done|set_solver|set_solver|done].
  - by apply clip_row.
Qed.

Lemma clip_ids : ids (plug C rest) ++ ids K ≡ₚ ids (plug (f :: C) K).
Proof.
  rewrite plug_close, !plug_ids. unfold rest, close. rewrite !ids_br, !idsl_app, idsl_cons.
  solve_Permutation.
Qed.

Lemma clip_rest_NoDup : NoDup (ids (plug C rest)) /\ ids (plug C rest) ## ids K.
Proof.
  pose proof (tok_nodup _ _ Hok) as Hnd. rewrite <- clip_ids in Hnd.
  apply NoDup_app in Hnd as (H1 & H2 & _). split; [done|]. intros x Hx Hy. by apply (H2 x).
Qed.

Lemma clip_tree_ok : tree_ok m' (plug C rest).
Proof.
  destruct clip_kids_NoDup as [Hnd Hq]. destruct clip_rest_NoDup as [Hndr _].
  pose proof (clip_links_relinked m (fr_id f) (root_id K) xl xr) as Hrl.
  pose proof Hok as Hok'. rewrite plug_close in Hok'.
  assert (Hout : forall u, u ∈ path_trees C (close f K) ++ side C -> root_id u <> fr_id f).
  { intros u Hu E. apply (outside_focus C (close f K) u); [apply Hok'|done|]. rewrite E. by left. }
  apply (replace_focus m m' C (close f K) rest [fr_id f] (root_id K :: xl ++ xr));
    [done|done|done|done| | | | |].
  - unfold rest. rewrite subtrees_br. constructor; [apply clip_focus|].
    apply Forall_forall. intros u Hu.
    assert (Hus : u ∈ subl (fr_l f ++ K :: fr_r f)).
    { rewrite subl_app in Hu |- *. unfold subl at 2. rewrite bind_cons. fold (subl (fr_r f)). set_solver. }
    assert (root_id u <> fr_id f) by exact (below_not_root _ _ u clip_focus_NoDup Hus).
    eapply (node_ok_relinked m m' _ u [fr_id f]); [apply Hok'| |done|set_solver|].
    + rewrite plug_subtrees. unfold close. rewrite subtrees_br. set_solver.
    + intros x n Hx Hn. by apply (clip_parents x n u).
  - apply (located_relinked _ _ _ _ _ _ (plug_located _ _ _ Hok') Hrl). cbn. set_solver.
  - intros x u Hx%list_elem_of_singleton Hu. subst x. by apply Hout.
  - intros x n u Hx Hn Hu. apply (clip_parents x n u Hx Hn). by apply Hout.
  - intros x Hx Ha. pose proof (tok_nodup _ _ Hok') as Hall. rewrite plug_ids in Hall.
    apply NoDup_app in Hall as (_ & Hd & _). apply (Hd x); [by apply ancestors_ids|].
    apply elem_of_app. left. apply (kids_in_ids (close f K)); [apply self_in_subtrees|].
    rewrite clip_kid_ids. set_solver.
Qed.

Lemma clip_subtree_ok : tree_ok m' K.
Proof.
  destruct clip_kids_NoDup as [Hnd Hq]. destruct clip_rest_NoDup as [_ Hdis].
  pose proof (clip_links_relinked m (fr_id f) (root_id K) xl xr) as Hrl.
  destruct (plug_located _ _ _ Hok) as (n & Hn & _). constructor.
  - exact (focus_NoDup _ _ (tok_nodup _ _ Hok)).
  - exists (unlink n). split; [|done].
    apply clip_kid; [done|set_solver|]. apply NoDup_app in Hnd as (? & Hd & [? _]%NoDup_cons).
    intros [Hx|Hx]%elem_of_app; [|done]. apply (Hd _ Hx). by left.
  - apply Forall_forall. intros u Hu. assert (root_id u <> fr_id f).
    { intros E. apply (Hdis (fr_id f)); [apply path_in_ids; by left|].
      rewrite <- E. by apply root_of_subtree. }
    eapply (node_ok_relinked m m' _ u [fr_id f]); [apply Hok| |done|set_solver|].
    + rewrite plug_subtrees. set_solver.
    + intros x k Hx Hk. by apply (clip_parents x k u).
Qed.

End ClipTree.
