(* ===== verification/JgrpCount.v ===== *)
(** * The job counters of the group tree

    Every group and array node of [mbd.jgrp.c] keeps counters of the jobs below
    it by state.  [data_ok] says that the first [NUM_JGRP_COUNTERS] counters of
    each block agree, as wrapped [int]s, with the statuses of the jobs below
    the node.  The lemmas follow a change along the path to the root; the
    properties state that insertion, removal and status changes keep the
    counters right. *)

From S2P Require Import Prelude Lsb ListSet Jgrp JgrpTree.

(** ** Tallies *)

(** What a job of status [st] adds to counter [i]. *)
Definition cnt (i st : Z) : Z :=
  if st =? JOB_STAT_NULL then 0
  else if i =? JGRP_COUNT_NJOBS then 1
  else if getIndexOfJStatus st =? i then 1 else 0.

Definition tally (i : Z) (l : list Z) : Z := zsum (cnt i <$> l).

(** The counters agree with the statuses [l], the last slot apart. *)
Definition counts_are (c l : list Z) : Prop :=
  length c = 9%nat /\
  forall i, 0 <= i < NUM_JGRP_COUNTERS -> c !! Z.to_nat i = Some (i32 (tally i l)).

(** [c'] is [c] with [delta i] added to each counter. *)
Definition shift (delta : Z -> Z) (c c' : list Z) : Prop :=
  length c' = length c /\
  forall i, 0 <= i < NUM_JGRP_COUNTERS ->
  exists v, c !! Z.to_nat i = Some v /\ c' !! Z.to_nat i = Some (i32 (v + delta i)).

#[local] Arguments getIndexOfJStatus : simpl never.

Lemma index_range st : 1 <= getIndexOfJStatus st <= 8.
Proof. unfold getIndexOfJStatus. repeat case_match; vm_compute; split; discriminate. Qed.

Lemma i32_add a b : i32 (i32 a + b) = i32 (a + b).
Proof.
  unfold i32. replace ((a + 2 ^ 31) mod 2 ^ 32 - 2 ^ 31 + b + 2 ^ 31)
    with ((a + 2 ^ 31) mod 2 ^ 32 + b) by lia.
  rewrite Z.add_mod_idemp_l by lia. f_equal. f_equal. lia.
Qed.

Lemma i32_idem a : i32 (i32 a) = i32 a.
Proof. pose proof (i32_add a 0) as H. by rewrite !Z.add_0_r in H. Qed.

Lemma i32_wraps y : exists q, i32 y = y + q * 2 ^ 32.
Proof.
  exists (- ((y + 2 ^ 31) / 2 ^ 32)). unfold i32.
  pose proof (Z.div_mod (y + 2 ^ 31) (2 ^ 32)). lia.
Qed.

Lemma i32_period a q : i32 (a + q * 2 ^ 32) = i32 a.
Proof.
  unfold i32. replace (a + q * 2 ^ 32 + 2 ^ 31) with (a + 2 ^ 31 + q * 2 ^ 32) by lia.
  by rewrite Z.mod_add by lia.
Qed.

Lemma i32_mul_add a f y : i32 (a + f * i32 y) = i32 (a + f * y).
Proof.
  destruct (i32_wraps y) as [q ->].
  replace (a + f * (y + q * 2 ^ 32)) with (a + f * y + f * q * 2 ^ 32) by lia. apply i32_period.
Qed.


Lemma tally_app i l1 l2 : tally i (l1 ++ l2) = tally i l1 + tally i l2.
Proof. unfold tally. by rewrite fmap_app, zsum_app. Qed.

Lemma tally_cons i x l : tally i (x :: l) = cnt i x + tally i l.
Proof. done. Qed.

Lemma tally_perm i l1 l2 : l1 ≡ₚ l2 -> tally i l1 = tally i l2.
Proof. induction 1; rewrite ?tally_cons; lia. Qed.

Lemma counts_shift delta c c' l l' :
  counts_are c l -> shift delta c c' -> (forall i, tally i l' = tally i l + delta i) ->
  counts_are c' l'.
Proof.
  intros [Hl Hc] [Hl' Hs] Ht. split; [lia|]. intros i Hi.
  destruct (Hs i Hi) as (v & Hv & ->). rewrite Hc in Hv by done. injection Hv as <-.
  by rewrite i32_add, Ht.
Qed.

Lemma bump_spec i d c :
  0 <= i < 9 -> length c = 9%nat ->
  exists c', bump i d c = Some c' /\ length c' = 9%nat /\
    forall k v, 0 <= k -> c !! Z.to_nat k = Some v ->
      c' !! Z.to_nat k = Some (if k =? i then i32 (v + d) else v).
Proof.
  intros Hi Hl. unfold bump. destruct (lookup_lt_is_Some_2 c (Z.to_nat i)) as [v Hv]; [lia|].
  rewrite Hv. cbn. eexists. split; [reflexivity|]. rewrite length_insert. split; [done|].
  intros k w Hk Hw. case_test.
  - subst k. rewrite list_lookup_insert_eq by lia. congruence.
  - rewrite list_lookup_insert_ne; [done|]. lia.
Qed.

(** One adjustment: status counter and job counter. *)
Lemma bump_pair st d c :
  length c = 9%nat ->
  exists c', (c ← bump (getIndexOfJStatus st) d c; bump JGRP_COUNT_NJOBS d c) = Some c' /\
    length c' = 9%nat /\
    forall k v, 0 <= k < NUM_JGRP_COUNTERS -> c !! Z.to_nat k = Some v ->
      c' !! Z.to_nat k = Some (if (k =? JGRP_COUNT_NJOBS) || (getIndexOfJStatus st =? k)
                               then i32 (v + d) else v).
Proof.
  intros Hl. pose proof (index_range st) as Hr. unfold JGRP_COUNT_NJOBS.
  destruct (bump_spec (getIndexOfJStatus st) d c) as (c1 & -> & Hl1 & H1); [lia|done|]. cbn [mbind option_bind].
  destruct (bump_spec 0 d c1) as (c2 & -> & Hl2 & H2); [lia|done|].
  exists c2. split; [done|]. split; [done|]. intros k v Hk Hv.
  rewrite (H2 k _ ltac:(lia) (H1 k v ltac:(lia) Hv)). f_equal.
  rewrite (Z.eqb_sym k (getIndexOfJStatus st)).
  destruct (Z.eqb_spec k 0), (Z.eqb_spec (getIndexOfJStatus st) k); [lia|done..].
Qed.

Lemma count_status_spec old new c l :
  counts_are c l ->
  exists c', count_status old new c = Some c' /\ shift (fun i => cnt i new - cnt i old) c c'.
Proof.
  intros [Hl Hc]. unfold count_status.
  assert (Hbound : forall i v, 0 <= i < NUM_JGRP_COUNTERS -> c !! Z.to_nat i = Some v -> i32 v = v).
  { intros i v Hi Hv. rewrite Hc in Hv by done. injection Hv as <-.
    apply i32_idem. }
  assert (Hsome : forall i, 0 <= i < NUM_JGRP_COUNTERS -> exists v, c !! Z.to_nat i = Some v) by eauto.
  assert (H1 : exists c1, (if negb (old =? JOB_STAT_NULL)
       then c ← bump (getIndexOfJStatus old) (-1) c; bump JGRP_COUNT_NJOBS (-1) c else Some c) = Some c1 /\
     length c1 = 9%nat /\ forall i v, 0 <= i < NUM_JGRP_COUNTERS -> c !! Z.to_nat i = Some v ->
       c1 !! Z.to_nat i = Some (i32 (v - cnt i old))).
  { unfold cnt. destruct (old =? JOB_STAT_NULL) eqn:E; cbn [negb].
    - exists c. split; [done|]. split; [done|]. intros i v Hi Hv. by rewrite Z.sub_0_r, (Hbound i).
    - destruct (bump_pair old (-1) c Hl) as (c1 & -> & Hl1 & H). exists c1. split; [done|].
      split; [done|]. intros i v Hi Hv. rewrite (H i v Hi Hv). f_equal.
      destruct (i =? JGRP_COUNT_NJOBS), (getIndexOfJStatus old =? i); cbn; try done.
      by rewrite Z.sub_0_r, (Hbound i). }
  destruct H1 as (c1 & -> & Hl1 & H1). cbn [mbind option_bind].
  assert (Hw : forall i v, 0 <= i < NUM_JGRP_COUNTERS -> c !! Z.to_nat i = Some v ->
            i32 (v - cnt i old + 0) = i32 (v - cnt i old)) by (intros; f_equal; lia).
  destruct (new =? JOB_STAT_NULL) eqn:E; cbn [negb].
  - exists c1. split; [done|]. split; [lia|]. intros i Hi. destruct (Hsome i Hi) as [v Hv].
    exists v. split; [done|]. rewrite (H1 i v Hi Hv). unfold cnt at 2. rewrite E. do 2 f_equal; lia.
  - destruct (bump_pair new 1 c1 Hl1) as (c2 & -> & Hl2 & H2). exists c2. split; [done|].
    split; [lia|]. intros i Hi. destruct (Hsome i Hi) as [v Hv]. exists v. split; [done|].
    rewrite (H2 i _ Hi (H1 i v Hi Hv)). unfold cnt at 3. rewrite E. f_equal.
    destruct (i =? JGRP_COUNT_NJOBS), (getIndexOfJStatus new =? i); cbn;
      rewrite ?i32_add; f_equal; lia.
Qed.

Lemma add_counts_spec factor a b l k :
  counts_are a l -> counts_are b k ->
  exists c, add_counts factor a b = Some c /\ shift (fun i => factor * tally i k) a c.
Proof.
  intros [Hla Ha] [Hlb Hb]. unfold add_counts. rewrite Hla, Hlb.
  change (Z.to_nat NUM_JGRP_COUNTERS) with 8%nat. cbn [Nat.ltb Nat.leb orb].
  eexists. split; [reflexivity|]. split.
  - rewrite length_app, length_zip_with, !length_take, length_drop. lia.
  - intros i Hi. exists (i32 (tally i l)). split; [by apply Ha|].
    assert (Z.to_nat i < 8)%nat by (unfold NUM_JGRP_COUNTERS in Hi; lia).
    rewrite lookup_app_l by (rewrite length_zip_with, !length_take; lia).
    rewrite lookup_zip_with, !lookup_take_lt by lia. rewrite Ha, Hb by done. cbn. f_equal.
    apply i32_mul_add.
Qed.

(** ** Blocks *)

(** The counter block of a node, if it is a group or an array. *)
Definition blk (m : gmap Z jgTreeNode) (x : Z) : option Z :=
  n ← m !! x;
  if (nodeType n =? JGRP_NODE_GROUP) || (nodeType n =? JGRP_NODE_ARRAY) then Some (ndInfo n) else None.

Lemma blk_relinked m m' chs lks x : relinked m m' chs lks -> blk m' x = blk m x.
Proof.
  intros H. specialize (H x). unfold blk. destruct (m !! x), (m' !! x); try done. cbn.
  destruct H as (-> & _ & -> & _). done.
Qed.

(** The update of the blocks along a path. *)
Fixpoint upd_path (f : list Z -> option (list Z)) (s : mstate) (l : list Z) : option mstate :=
  match l with
  | [] => Some s
  | x :: l =>
      s ← (match blk (nodes s) x with
           | Some d => b ← bases s !! d; c ← f (counts b);
                       Some (with_bases s (<[d := set_counts c b]> (bases s)))
           | None => Some s
           end);
      upd_path f s l
  end.

(** [B] on the path [l] is [B'] with the counters shifted, and equal elsewhere. *)
Definition shifted (m : gmap Z jgTreeNode) (l : list Z) (delta : Z -> Z)
    (B B' : gmap Z jgArrayBase) : Prop :=
  (forall x d, x ∈ l -> blk m x = Some d ->
     exists b c, B !! d = Some b /\ shift delta (counts b) c /\ B' !! d = Some (set_counts c b)) /\
  (forall d, (forall x, x ∈ l -> blk m x <> Some d) -> B' !! d = B !! d).

Lemma upd_path_spec f delta s l :
  NoDup l -> (forall x y d, x ∈ l -> y ∈ l -> blk (nodes s) x = Some d -> blk (nodes s) y = Some d -> x = y) ->
  (forall x d, x ∈ l -> blk (nodes s) x = Some d ->
     exists b c, bases s !! d = Some b /\ f (counts b) = Some c /\ shift delta (counts b) c) ->
  exists B', upd_path f s l = Some (with_bases s B') /\ shifted (nodes s) l delta (bases s) B'.
Proof.
  revert s. induction l as [|x l IH]; intros s Hnd Hinj Hdef; cbn [upd_path].
  { exists (bases s). split; [by destruct s|]. split; [set_solver|done]. }
  apply NoDup_cons in Hnd as [Hx Hnd].
  destruct (blk (nodes s) x) as [d|] eqn:Ex; cbn [mbind option_bind].
  - destruct (Hdef x d ltac:(by left) Ex) as (b & c & Hb & Hf & Hs). rewrite Hb. cbn. rewrite Hf. cbn.
    assert (Hne : forall y e, y ∈ l -> blk (nodes s) y = Some e -> d <> e).
    { intros y e Hy He ->. apply Hx. by rewrite (Hinj x y e ltac:(by left) ltac:(by right) Ex He). }
    destruct (IH (with_bases s (<[d := set_counts c b]> (bases s))) Hnd) as (B' & HB & Hsh & Hoth).
    { intros y z e Hy Hz. apply Hinj; by right. }
    { intros y e Hy He. cbn. rewrite lookup_insert_ne by (by apply (Hne y)). apply (Hdef y); [by right|done]. }
    cbn in HB, Hsh, Hoth. exists B'. split; [done|]. split.
    + intros y e [->|Hy]%elem_of_cons He.
      * replace e with d by congruence. exists b, c. split; [done|]. split; [done|].
        rewrite Hoth; [by rewrite lookup_insert_eq|]. intros y Hy He'. by apply (Hne y d Hy He').
      * destruct (Hsh y e Hy He) as (b' & c' & H1 & H2 & H3).
        rewrite lookup_insert_ne in H1 by (by apply (Hne y)). eauto.
    + intros e He. rewrite Hoth by (intros; apply He; by right).
      rewrite lookup_insert_ne; [done|]. intros ->. by apply (He x); [left|].
  - destruct (IH s Hnd) as (B' & HB & Hsh & Hoth).
    { intros y z e Hy Hz. apply Hinj; by right. }
    { intros y e Hy. apply Hdef. by right. }
    exists B'. split; [done|]. split.
    + intros y e [->|Hy]%elem_of_cons He; [congruence|eauto].
    + intros e He. apply Hoth. intros y Hy. apply He. by right.
Qed.

(** [count_up] is the update of the path to the root. *)
Lemma count_up_path s C x old new fuel :
  spine (nodes s) C x -> (S (length C) < fuel)%nat ->
  count_up fuel s x old new = upd_path (count_status old new) s (x :: ancestors C).
Proof.
  intros Hsp. remember (nodes s) as m eqn:Em. revert s Em x fuel Hsp.
  induction C as [|f C IH]; intros s Em x fuel Hsp Hf; (destruct fuel as [|k]; [simpl in Hf; lia|]);
    cbn [count_up upd_path]; destruct (spine_parent _ _ _ Hsp) as (Hne & n & Hn & Hp);
    rewrite (proj2 (Z.eqb_neq _ _) Hne); unfold blk at 1; rewrite <- Em, Hn;
    cbn [mbind option_bind]; rewrite Hp; unfold count_node;
    destruct ((nodeType n =? JGRP_NODE_GROUP) || (nodeType n =? JGRP_NODE_ARRAY));
    try (destruct (bases s !! ndInfo n) as [b|]; [|done]; cbn [mbind option_bind];
         destruct (count_status old new (counts b)) as [c|]; [|done]); cbn [mbind option_bind].
  - destruct k; [simpl in Hf; lia|]. done.
  - destruct k; [simpl in Hf; lia|]. done.
  - apply (IH (with_bases s _) Em (fr_id f)); [by destruct Hsp as (_ & _ & ?)|simpl in Hf; lia].
  - apply (IH s Em (fr_id f)); [by destruct Hsp as (_ & _ & ?)|simpl in Hf; lia].
Qed.

(** [op_up] updates the ancestors, when these have blocks that are not the
    block of the node. *)
Lemma op_up_path s C x n0 b0 factor fuel :
  spine (nodes s) C x -> (length C < fuel)%nat ->
  (nodeType n0 = JGRP_NODE_GROUP \/ nodeType n0 = JGRP_NODE_ARRAY) ->
  bases s !! ndInfo n0 = Some b0 ->
  (forall y, y ∈ ancestors C -> exists d, blk (nodes s) y = Some d /\ d <> ndInfo n0) ->
  op_up fuel s n0 factor (hd0 (ancestors C))
  = upd_path (fun c => add_counts factor c (counts b0)) s (ancestors C).
Proof.
  intros Hsp. remember (nodes s) as m eqn:Em. revert s Em x fuel Hsp.
  induction C as [|f C IH]; intros s Em x fuel Hsp Hf Hn0 Hb0 Hanc;
    (destruct fuel as [|k]; [simpl in Hf; lia|]); [done|].
  change (hd0 (ancestors (f :: C))) with (fr_id f).
  change (ancestors (f :: C)) with (fr_id f :: ancestors C) in *. cbn [op_up upd_path].
  destruct Hsp as (_ & _ & Hsp). destruct (spine_parent _ _ _ Hsp) as (Hne & n & Hn & Hp).
  rewrite (proj2 (Z.eqb_neq _ _) Hne).
  destruct (Hanc (fr_id f) ltac:(left)) as (d & Hd & Hned). rewrite <- Em, Hd.
  unfold blk in Hd. rewrite Hn in Hd |- *. cbn [mbind option_bind] in Hd |- *.
  assert (ndInfo n = d) as -> by (by repeat case_match; simplify_eq).
  replace ((nodeType n0 =? JGRP_NODE_GROUP) || (nodeType n0 =? JGRP_NODE_ARRAY)) with true
    by (by destruct Hn0 as [-> | ->]).
  rewrite Hb0. cbn [mbind option_bind]. rewrite Hp.
  destruct (bases s !! d) as [b|]; [|done]. cbn [mbind option_bind].
  destruct (add_counts factor (counts b) (counts b0)) as [c|]; [|done]. cbn [mbind option_bind].
  apply (IH (with_bases s _) Em (fr_id f)); [done|simpl in Hf; lia|done| |].
  - cbn. by rewrite lookup_insert_ne.
  - intros y Hy. apply Hanc. by right.
Qed.

(** ** The counter invariant *)

(** [own x]: the statuses of the jobs that hang directly on node [x]. *)
Definition stats (own : Z -> list Z) (t : gtree) : list Z := ids t ≫= own.

Definition block_ok (m : gmap Z jgTreeNode) (B : gmap Z jgArrayBase) (own : Z -> list Z)
    (u : gtree) : Prop :=
  forall d, blk m (root_id u) = Some d ->
  exists b, B !! d = Some b /\ counts_are (counts b) (stats own u).

Record data_ok (m : gmap Z jgTreeNode) (B : gmap Z jgArrayBase) (own : Z -> list Z) (t : gtree)
    : Prop := {
  dok_blocks : Forall (block_ok m B own) (subtrees t);
  dok_inner : forall u, u ∈ subtrees t -> kids u <> [] ->
    exists n, m !! root_id u = Some n /\ nodeType n = JGRP_NODE_GROUP;
  dok_inj : forall x y d, x ∈ ids t -> y ∈ ids t -> blk m x = Some d -> blk m y = Some d -> x = y }.

Lemma stats_close own f t :
  stats own (close f t) = own (fr_id f) ++ (idsl (fr_l f) ≫= own) ++ stats own t ++ (idsl (fr_r f) ≫= own).
Proof.
  unfold stats, close. rewrite ids_br, bind_cons, idsl_app, idsl_cons, !bind_app. done.
Qed.

Lemma bind_agree (own own' : Z -> list Z) l :
  (forall x, x ∈ l -> own' x = own x) -> l ≫= own' = l ≫= own.
Proof.
  intros H. induction l as [|x l IH]; [done|]. rewrite !bind_cons, IH, (H x); [done|by left|].
  intros y Hy. apply H. by right.
Qed.

(** A change of the focus changes the statuses below each ancestor alike. *)
Lemma path_stats own own' delta C t t' u' :
  (forall i, tally i (stats own' t') = tally i (stats own t) + delta i) ->
  (forall x, x ∈ before C ++ after C -> own' x = own x) -> u' ∈ path_trees C t' ->
  exists u, u ∈ path_trees C t /\ root_id u = root_id u' /\ root_id u ∈ ancestors C /\
    forall i, tally i (stats own' u') = tally i (stats own u) + delta i.
Proof.
  revert t t'. induction C as [|f C IH]; intros t t' Hd Hown Hu; [by apply elem_of_nil in Hu|].
  cbn [before after] in Hown.
  assert (Hc : forall i, tally i (stats own' (close f t')) = tally i (stats own (close f t)) + delta i).
  { intros i. rewrite !stats_close, !tally_app, Hd.
    rewrite (bind_agree own own' (idsl (fr_l f))) by (intros; apply Hown; set_solver).
    rewrite (bind_agree own own' (idsl (fr_r f))) by (intros; apply Hown; set_solver).
    rewrite (Hown (fr_id f)) by set_solver. lia. }
  cbn in Hu. apply elem_of_cons in Hu as [->|Hu].
  - exists (close f t). split; [by left|]. split; [done|]. split; [by left|]. done.
  - destruct (IH (close f t) (close f t') Hc) as (u & H1 & H2 & H3 & H4); [|done|].
    { intros x Hx. apply Hown. set_solver. }
    exists u. split; [by right|]. split; [done|]. split; [by right|done].
Qed.

Lemma block_kept m m' B B' own own' u :
  block_ok m B own u -> blk m' (root_id u) = blk m (root_id u) ->
  (forall d, blk m (root_id u) = Some d -> B' !! d = B !! d) ->
  (forall x, x ∈ ids u -> own' x = own x) -> block_ok m' B' own' u.
Proof.
  intros Hb Hblk HB Hown d Hd. rewrite Hblk in Hd. destruct (Hb d Hd) as (b & Hbb & Hc).
  exists b. rewrite HB by done. split; [done|]. unfold stats. by rewrite (bind_agree own own').
Qed.

Lemma block_shifted m m' B B' own own' delta u u' l :
  block_ok m B own u -> root_id u' = root_id u -> blk m' (root_id u) = blk m (root_id u) ->
  shifted m l delta B B' -> root_id u ∈ l ->
  (forall i, tally i (stats own' u') = tally i (stats own u) + delta i) -> block_ok m' B' own' u'.
Proof.
  intros Hb Hr Hblk [Hs _] Hl Ht d Hd. rewrite Hr, Hblk in Hd.
  destruct (Hb d Hd) as (b & Hbb & Hc). destruct (Hs _ d Hl Hd) as (b' & c & Hb' & Hsh & HB').
  exists (set_counts c b'). split; [done|]. cbn. rewrite Hbb in Hb'. injection Hb' as <-.
  by apply (counts_shift delta (counts b) c (stats own u)).
Qed.

Lemma focus_block m B own C t : data_ok m B own (plug C t) -> block_ok m B own t.
Proof. intros [H _ _]. rewrite Forall_forall in H. apply H, plug_sub_focus. Qed.

(** The blocks of all nodes outside the focus's subtree after an update of the
    path, and the block of the focus itself. *)
Lemma retally m m' B B' own own' delta C t t' :
  tree_ok m (plug C t) -> data_ok m B own (plug C t) -> root_id t' = root_id t ->
  (forall x, blk m' x = blk m x) -> shifted m (root_id t :: ancestors C) delta B B' ->
  (forall x, x ∈ before C ++ after C -> own' x = own x) ->
  (forall i, tally i (stats own' t') = tally i (stats own t) + delta i) ->
  Forall (block_ok m' B' own') (t' :: path_trees C t' ++ side C).
Proof.
  intros Hok Hdok Hr Hblk Hsh Hown Ht. pose proof Hdok as [Hblocks _ Hinj].
  rewrite Forall_forall in Hblocks. apply Forall_forall.
  intros u' [->|[Hu|Hu]%elem_of_app]%elem_of_cons.
  - apply (block_shifted m m' B B' own own' delta t t' (root_id t :: ancestors C)); try done.
    + by eapply focus_block.
    + by left.
  - destruct (path_stats own own' delta C t t' u' Ht Hown Hu) as (u & Hu1 & Hu2 & Hu3 & Hu4).
    apply (block_shifted m m' B B' own own' delta u u' (root_id t :: ancestors C)); try done.
    + apply Hblocks. by apply plug_sub_path.
    + by right.
  - assert (Hin : u' ∈ subtrees (plug C t)) by (rewrite plug_subtrees; set_solver).
    assert (Hside : ids u' ⊆ before C ++ after C) by by apply side_ids.
    apply (block_kept m m' B B' own own' u'); [by apply Hblocks|done| |].
    + intros d Hd. destruct Hsh as [_ Hsh]. apply Hsh. intros x Hx Hxd.
      assert (x = root_id u') as ->.
      { apply (Hinj x (root_id u') d); [by apply path_in_ids|by apply root_of_subtree|done|done]. }
      by apply (side_not_path C t u' (tok_nodup _ _ Hok) Hu).
    + intros x Hx. apply Hown. by apply Hside.
Qed.

(** The path of a well-formed tree meets the conditions of [upd_path_spec]. *)
Lemma path_blocks m B own C t x d :
  tree_ok m (plug C t) -> data_ok m B own (plug C t) -> x ∈ root_id t :: ancestors C ->
  blk m x = Some d -> exists b l, B !! d = Some b /\ counts_are (counts b) l.
Proof.
  intros Hok [Hb _ _] Hx Hd. apply path_in_ids in Hx.
  destruct (subtree_of_root _ _ Hx) as (ts & Hu). rewrite Forall_forall in Hb.
  destruct (Hb _ Hu d Hd) as (b & ? & ?). eauto.
Qed.

Lemma upd_path_ok f delta s own C t l :
  tree_ok (nodes s) (plug C t) -> data_ok (nodes s) (bases s) own (plug C t) ->
  l ⊆ root_id t :: ancestors C -> NoDup l ->
  (forall c k, counts_are c k -> exists c', f c = Some c' /\ shift delta c c') ->
  exists B', upd_path f s l = Some (with_bases s B') /\ shifted (nodes s) l delta (bases s) B'.
Proof.
  intros Hok Hd Hl Hnd Hf. apply upd_path_spec; [done| |].
  - intros x y d Hx Hy. apply (dok_inj _ _ _ _ Hd); apply path_in_ids; auto.
  - intros x d Hx Hb. destruct (path_blocks _ _ _ _ _ x d Hok Hd (Hl x Hx) Hb) as (b & k & Hbb & Hc).
    destruct (Hf _ _ Hc) as (c & ? & ?). eauto.
Qed.

(** The statuses of a job that exists, or of no job. *)
Definition present (st : Z) : list Z := if st =? JOB_STAT_NULL then [] else [st].

Lemma tally_present i st : tally i (present st) = cnt i st.
Proof.
  unfold present. destruct (st =? JOB_STAT_NULL) eqn:E.
  - unfold cnt. by rewrite E.
  - rewrite tally_cons. apply Z.add_0_r.
Qed.

(** Replacing what hangs on one node. *)
Definition own_at (own : Z -> list Z) (x : Z) (l : list Z) (y : Z) : list Z :=
  if y =? x then l else own y.

Lemma stats_own_at own x ts l i :
  x ∉ idsl ts -> tally i (stats (own_at own x l) (Br x ts))
  = tally i (stats own (Br x ts)) + (tally i l - tally i (own x)).
Proof.
  intros Hx. unfold stats. rewrite ids_br, !bind_cons, !tally_app.
  rewrite (bind_agree own (own_at own x l) (idsl ts)).
  - unfold own_at at 1. rewrite Z.eqb_refl. lia.
  - intros y Hy. unfold own_at. by rewrite (proj2 (Z.eqb_neq y x)) by (by intros ->).
Qed.

(** The blocks strictly below the focus are not on the path. *)
Lemma below_kept m B B' own own' delta C x ts u :
  tree_ok m (plug C (Br x ts)) -> data_ok m B own (plug C (Br x ts)) ->
  shifted m (x :: ancestors C) delta B B' -> u ∈ subl ts ->
  (forall y, y ∈ idsl ts -> own' y = own y) -> block_ok m B' own' u.
Proof.
  intros Hok [Hb _ Hinj] [_ Hsh] Hu Hown. rewrite Forall_forall in Hb.
  assert (Huin : u ∈ subtrees (plug C (Br x ts))) by (rewrite plug_subtrees, subtrees_br; set_solver).
  assert (Hsub : ids u ⊆ idsl ts).
  { apply list_elem_of_bind in Hu as (v & Hv1 & Hv2). intros y Hy. apply list_elem_of_bind.
    exists v. split; [|done]. by apply (ids_mono u v). }
  apply (block_kept m m B B' own); [by apply Hb|done| |auto].
  intros d Hd. apply Hsh. intros y Hy Hyd.
  assert (y = root_id u) as ->.
  { apply (Hinj y (root_id u) d); [by apply (path_in_ids C (Br x ts))|by apply root_of_subtree|done|done]. }
  pose proof (tok_nodup _ _ Hok) as Hnd. rewrite plug_ids, ids_br in Hnd.
  pose proof (Hsub _ (root_in_ids u)) as Hr.
  apply NoDup_app in Hnd as (_ & Hd1 & (Hd2 & _)%NoDup_app).
  apply elem_of_cons in Hy as [E|Hy].
  - rewrite E in Hr. by apply NoDup_cons in Hd2 as [? _].
  - apply (Hd1 (root_id u)); [by apply ancestors_ids|]. set_solver.
Qed.

Lemma outside_not_focus C x ts y :
  NoDup (ids (plug C (Br x ts))) -> y ∈ before C ++ after C -> y ∉ ids (Br x ts).
Proof.
  rewrite plug_ids. intros (_ & Hd & (_ & Hd' & _)%NoDup_app)%NoDup_app Hy Hin.
  apply elem_of_app in Hy as [Hy|Hy]; [apply (Hd y Hy); set_solver|by apply (Hd' y)].
Qed.

(** A path update with the right differences keeps the invariant when one
    node's own jobs change. *)
Lemma own_changed m B B' own delta C x ts l :
  tree_ok m (plug C (Br x ts)) -> data_ok m B own (plug C (Br x ts)) ->
  shifted m (x :: ancestors C) delta B B' ->
  (forall i, tally i l = tally i (own x) + delta i) ->
  data_ok m B' (own_at own x l) (plug C (Br x ts)).
Proof.
  intros Hok Hd Hsh Hl. pose proof (tok_nodup _ _ Hok) as Hnd.
  pose proof (focus_NoDup _ _ Hnd) as Hndf. rewrite ids_br in Hndf. apply NoDup_cons in Hndf as [Hxn _].
  assert (Hown : forall y, y <> x -> own_at own x l y = own y).
  { intros y Hy. unfold own_at. by rewrite (proj2 (Z.eqb_neq y x)). }
  split; [|apply Hd|apply Hd]. rewrite plug_subtrees, subtrees_br.
  pose proof (retally m m B B' own (own_at own x l) delta C (Br x ts) (Br x ts) Hok Hd eq_refl
    (fun _ => eq_refl) Hsh) as Hr.
  apply Forall_cons in Hr as [Hf Hrest].
  - constructor; [exact Hf|]. apply Forall_app. split; [|exact Hrest].
    apply Forall_forall. intros u Hu. eapply below_kept; [done|done|done|done|].
    intros y Hy. apply Hown. by intros ->.
  - intros y Hy. apply Hown. intros ->. apply (outside_not_focus C x ts x Hnd Hy). by left.
  - intros i. rewrite stats_own_at by done. rewrite Hl. lia.
Qed.

Lemma count_change s t own x l old new :
  tree_ok (nodes s) t -> data_ok (nodes s) (bases s) own t -> x ∈ ids t ->
  (forall i, tally i l = tally i (own x) + (cnt i new - cnt i old)) ->
  exists B', count_up (node_fuel s) s x old new = Some (with_bases s B') /\
    data_ok (nodes s) B' (own_at own x l) t /\
    forall e, (forall y, y ∈ ids t -> blk (nodes s) y <> Some e) -> B' !! e = bases s !! e.
Proof.
  intros Hok Hd Hx Hl. destruct (subtree_of_root _ _ Hx) as (ts & Hu).
  destruct (subtree_context _ _ Hu) as (C & ->). pose proof (path_fuel _ _ _ Hok) as Hpf.
  rewrite (count_up_path s C x) by (exact (tree_spine _ _ _ Hok) || (unfold node_fuel; lia)).
  destruct (upd_path_ok (count_status old new) (fun i => cnt i new - cnt i old) s own C (Br x ts)
      (x :: ancestors C)) as (B' & HB & Hsh); [done|done|done| | |].
  { exact (ancestors_NoDup C (Br x ts) (tok_nodup _ _ Hok)). }
  { intros c k Hc. by apply (count_status_spec old new c k). }
  exists B'. split; [exact HB|]. split; [eapply own_changed; [done|done|exact Hsh|exact Hl]|].
  intros e He. apply Hsh. intros y Hy. by apply He, path_in_ids.
Qed.

(** ** Linking and unlinking *)

(** A path of blocks whose counters are in order. *)
Record path_ok (m : gmap Z jgTreeNode) (B : gmap Z jgArrayBase) (l : list Z) : Prop := {
  pok_nodup : NoDup l;
  pok_block : forall x, x ∈ l -> exists d b k, blk m x = Some d /\ B !! d = Some b /\ counts_are (counts b) k;
  pok_inj : forall x y d, x ∈ l -> y ∈ l -> blk m x = Some d -> blk m y = Some d -> x = y }.

Lemma shifted_blk m m' l delta B B' :
  (forall x, blk m' x = blk m x) -> shifted m' l delta B B' -> shifted m l delta B B'.
Proof.
  intros H [H1 H2]. split.
  - intros x d Hx Hd. apply (H1 x d Hx). by rewrite H.
  - intros d Hd. apply H2. intros x Hx. rewrite H. auto.
Qed.

Lemma path_ok_blk m m' B l :
  (forall x, blk m' x = blk m x) -> path_ok m B l -> path_ok m' B l.
Proof.
  intros H [H1 H2 H3]. split; [done| |].
  - intros x Hx. destruct (H2 x Hx) as (d & b & k & ? & ?). exists d, b, k. by rewrite H.
  - intros x y d Hx Hy. rewrite !H. by apply H3.
Qed.

Lemma upd_path_pok f delta s l :
  path_ok (nodes s) (bases s) l ->
  (forall c k, counts_are c k -> exists c', f c = Some c' /\ shift delta c c') ->
  exists B', upd_path f s l = Some (with_bases s B') /\ shifted (nodes s) l delta (bases s) B'.
Proof.
  intros [H1 H2 H3] Hf. apply upd_path_spec; [done|done|]. intros x d Hx Hd.
  destruct (H2 x Hx) as (d' & b & k & Hd' & Hb & Hc). replace d' with d in * by congruence.
  destruct (Hf _ _ Hc) as (c & ? & ?). eauto.
Qed.

(** What kind of node is linked: a job with its status, or a block. *)
Definition root_kind (s : mstate) (own : Z -> list Z) (K : gtree) : Prop :=
  exists n, nodes s !! root_id K = Some n /\
  ((nodeType n = JGRP_NODE_JOB /\ kids K = [] /\ exists j, jobs s !! ndInfo n = Some j /\
      jgrpNode j = root_id K /\ own (root_id K) = present (jStatus j)) \/
   nodeType n = JGRP_NODE_GROUP \/ nodeType n = JGRP_NODE_ARRAY).

(** The counter updates of [treeInsertChild] and friends ([sign] 1) and of
    [treeClip] ([sign] -1). *)
Definition count_link (s : mstate) (node sign : Z) : option mstate :=
  n ← nodes s !! node;
  if nodeType n =? JGRP_NODE_JOB then
    j ← jobs s !! ndInfo n;
    updJgrpCountByJStatus s (ndInfo n) (if sign =? 1 then JOB_STAT_NULL else jStatus j)
      (if sign =? 1 then jStatus j else JOB_STAT_NULL)
  else updJgrpCountByOp s node sign.

Lemma count_link_spec s own C K sign :
  spine (nodes s) C (root_id K) -> (S (length C) < node_fuel s)%nat ->
  path_ok (nodes s) (bases s) (ancestors C) -> root_kind s own K ->
  block_ok (nodes s) (bases s) own K ->
  (forall x d, x ∈ ancestors C -> blk (nodes s) (root_id K) = Some d -> blk (nodes s) x <> Some d) ->
  sign = 1 \/ sign = -1 ->
  exists B', count_link s (root_id K) sign = Some (with_bases s B') /\
    shifted (nodes s) (ancestors C) (fun i => sign * tally i (stats own K)) (bases s) B'.
Proof.
  intros Hsp Hf Hpath (n & Hn & Hkind) Hblk Hdis Hsign. unfold count_link. rewrite Hn. cbn [mbind option_bind].
  destruct Hkind as [(Ht & Hk & j & Hj & Hjn & Hown)|Ht].
  - rewrite Ht. cbn [Z.eqb JGRP_NODE_JOB Pos.eqb]. rewrite Hj. cbn [mbind option_bind].
    unfold updJgrpCountByJStatus. rewrite Hj. cbn [mbind option_bind]. rewrite Hjn.
    rewrite (count_up_path s C) by done. cbn [upd_path].
    assert (Hb : blk (nodes s) (root_id K) = None) by (unfold blk; rewrite Hn; cbn; by rewrite Ht).
    rewrite Hb. cbn [mbind option_bind]. apply upd_path_pok; [done|]. intros c k Hc.
    destruct K as [x ts]. cbn in Hk, Hown. subst ts.
    assert (Hst : forall i, tally i (stats own (Br x [])) = cnt i (jStatus j)).
    { intros i. unfold stats. cbn. rewrite app_nil_r, Hown. apply tally_present. }
    destruct (count_status_spec (if sign =? 1 then JOB_STAT_NULL else jStatus j)
      (if sign =? 1 then jStatus j else JOB_STAT_NULL) c k Hc) as (c' & Hc' & Hl & Hs).
    exists c'. split; [done|]. split; [done|]. intros i Hi. destruct (Hs i Hi) as (v & Hv & ->).
    exists v. split; [done|]. do 2 f_equal. rewrite Hst.
    assert (cnt i JOB_STAT_NULL = 0) by done. destruct Hsign as [-> | ->]; cbn [Z.eqb Pos.eqb]; lia.
  - assert (Hnj : (nodeType n =? JGRP_NODE_JOB) = false) by (by destruct Ht as [-> | ->]).
    assert (Hb : blk (nodes s) (root_id K) = Some (ndInfo n)).
    { unfold blk. rewrite Hn. cbn. by destruct Ht as [-> | ->]. }
    destruct (Hblk _ Hb) as (b0 & Hb0 & Hc0).
    rewrite Hnj. unfold updJgrpCountByOp. rewrite Hn. cbn [mbind option_bind].
    destruct (spine_parent _ _ _ Hsp) as (_ & n' & Hn' & Hp). rewrite Hn in Hn'. injection Hn' as <-.
    rewrite Hp, (op_up_path s C (root_id K) n b0); [|done|lia|done|done|].
    + apply upd_path_pok; [done|]. intros c k Hc. by apply (add_counts_spec sign c (counts b0) k).
    + intros y Hy. destruct (pok_block _ _ _ Hpath y Hy) as (d & b & k & Hd & _).
      exists d. split; [done|]. intros ->. by apply (Hdis y (ndInfo n) Hy Hb).
Qed.
