(* ===== verification/JgrpOps.v ===== *)
(** * Operations on the job group tree

    The operations of [mbd.jgrp.c] that change the tree, proved against the
    invariant [jinv]: the links represent a tree and every counter block
    agrees with the statuses of the jobs below its node. *)

From S2P Require Import Prelude Lsb ListSet Jgrp JgrpTree JgrpCount.

Definition jinv (s : mstate) (own : Z -> list Z) (t : gtree) : Prop :=
  tree_ok (nodes s) t /\ data_ok (nodes s) (bases s) own t.

(** ** Stores *)

Lemma upd_node_alter s p f n :
  nodes s !! p = Some n -> upd_node s p f = Some (with_nodes s (alter f p (nodes s))).
Proof.
  intros Hn. unfold upd_node. rewrite Hn. cbn. f_equal. f_equal.
  apply map_eq. intros i. destruct (decide (i = p)) as [->|Hne].
  - by rewrite lookup_insert_eq, lookup_alter_eq, Hn.
  - by rewrite lookup_insert_ne, lookup_alter_ne.
Qed.

Lemma is_Some_alter (m : gmap Z jgTreeNode) f p x : is_Some (m !! x) -> is_Some (alter f p m !! x).
Proof. rewrite lookup_alter_is_Some. done. Qed.

Lemma upd_node_some s p f :
  is_Some (nodes s !! p) -> upd_node s p f = Some (with_nodes s (alter f p (nodes s))).
Proof. intros [n Hn]. by apply (upd_node_alter s p f n). Qed.

Lemma size_relinked m m' chs lks : relinked m m' chs lks -> size m' = size m.
Proof.
  intros H. rewrite <- !size_dom. f_equal. apply set_eq. intros x. rewrite !elem_of_dom.
  specialize (H x). destruct (m !! x), (m' !! x); try done; split; intros []; eauto; done.
Qed.

Lemma last_sibling_spec s par fuel l1 x l2 :
  row (nodes s) par (l1 ++ x :: l2) -> NULL ∉ l2 -> (length l2 < fuel)%nat ->
  last_sibling fuel s x = Some (lst x l2).
Proof.
  revert l1 x l2. induction fuel as [|k IH]; intros l1 x l2 Hrow Hnn Hf; [lia|]. cbn [last_sibling].
  destruct (Hrow l1 x l2 eq_refl) as (n & -> & _ & _ & Hr). cbn. rewrite Hr.
  destruct l2 as [|y l2]; [done|]. change (hd0 (y :: l2)) with y.
  rewrite (proj2 (Z.eqb_neq y NULL)) by set_solver. rewrite lst_cons.
  apply (IH (l1 ++ [x])); [by rewrite <- app_assoc|set_solver|simpl in Hf; lia].
Qed.

(** Appending to the row of children. *)
Lemma link_row s par kid xs :
  row (nodes s) par xs -> NULL ∉ xs -> (length xs < node_fuel s)%nat -> kid <> NULL ->
  is_Some (nodes s !! kid) -> is_Some (nodes s !! par) ->
  (if negb (hd0 xs =? NULL)
   then '(c, s) ← treeLinkSibling s (hd0 xs) kid; upd_node s par (set_child c)
   else upd_node s par (set_child kid))
  = Some (with_nodes s (alter (set_child (hd0 (xs ++ [kid]))) par
       (match last xs with
        | Some y => alter (set_left y) kid (alter (set_right kid) y (nodes s))
        | None => nodes s end))).
Proof.
  intros Hrow Hnn Hf Hkn Hk Hp. destruct xs as [|x xs].
  - cbn. by rewrite upd_node_some.
  - change (hd0 (x :: xs)) with x. change (hd0 ((x :: xs) ++ [kid])) with x.
    assert (Hx : x <> NULL) by set_solver. rewrite (proj2 (Z.eqb_neq _ _) Hx). cbn [negb].
    unfold treeLinkSibling.
    rewrite (proj2 (Z.eqb_neq x NULL) Hx), (proj2 (Z.eqb_neq kid NULL) Hkn).
    rewrite (last_sibling_spec s par _ [] x xs) by (done || set_solver || (simpl in Hf; lia)).
    cbn [mbind option_bind].
    assert (Hy : last (x :: xs) = Some (lst x xs)) by (rewrite last_cons; unfold lst; by destruct (last xs)).
    rewrite Hy.
    assert (Hys : is_Some (nodes s !! lst x xs)).
    { apply last_Some in Hy as (l & E). destruct (Hrow l (lst x xs) []) as (n & -> & _); [done|]. by eexists. }
    rewrite upd_node_some by done. cbn [mbind option_bind].
    rewrite upd_node_some by by apply is_Some_alter. cbn [mbind option_bind nodes with_nodes].
    rewrite upd_node_some by (cbn; by apply is_Some_alter, is_Some_alter). done.
Qed.

(** The links made by [treeInsertChild], before the counters. *)
Lemma insert_links s C par ts K :
  tree_ok (nodes s) (plug C (Br par ts)) -> tree_ok (nodes s) K -> ids K ## ids (plug C (Br par ts)) ->
  treeInsertChild s par (root_id K)
  = (s2 ← count_link (with_nodes s (link_child (nodes s) par (root_id K) (root_id <$> ts))) (root_id K) 1;
     Some (par, s2)).
Proof.
  intros Hok HK Hdis. destruct (ins_kid_fresh C par ts K Hdis) as [Hkp Hkx].
  pose proof (focus_node _ _ _ Hok) as [Hpn (np & Hnp & Hc) Hrow]. cbn [root_id] in Hpn, Hnp, Hrow.
  destruct (tok_root _ _ HK) as (nk & Hnk & _ & Hkl & Hkr).
  assert (Hkn : root_id K <> NULL) by (eapply ids_nonnull; [exact HK|apply root_in_ids]).
  assert (Hxs : forall x, x ∈ root_id <$> ts -> x ∈ ids (plug C (Br par ts))).
  { intros x Hx. by apply (kids_in_ids (Br par ts)); [apply plug_sub_focus|]. }
  unfold treeInsertChild.
  rewrite (proj2 (Z.eqb_neq par NULL) Hpn), (proj2 (Z.eqb_neq _ NULL) Hkn), Hnp. cbn [mbind option_bind].
  rewrite Hc. change (kid_ids (Br par ts)) with (root_id <$> ts) in *.
  rewrite link_row; [|done| | |done|by eexists|by eexists].
  2:{ intros Hn. by apply (ids_nonnull _ _ NULL Hok); [apply Hxs|]. }
  2:{ unfold node_fuel. apply Nat.lt_succ_r, NoDup_size.
      - apply (kids_NoDup par). exact (focus_NoDup _ _ (tok_nodup _ _ Hok)).
      - intros x Hx. eapply ids_dom; [exact Hok|auto]. }
  cbn [mbind option_bind]. set (m1 := alter _ par _).
  assert (Hm : alter (set_parent par) (root_id K) m1 = link_child (nodes s) par (root_id K) (root_id <$> ts))
    by done.
  assert (Hk1 : is_Some (m1 !! root_id K)).
  { apply is_Some_alter. destruct (last _); [by apply is_Some_alter, is_Some_alter|]; by eexists. }
  destruct (link_child_kid (nodes s) par (root_id K) (root_id <$> ts) nk Hkp Hkx Hnk Hkl)
    as (n' & Hn' & _ & _ & Hr' & _).
  unfold node_fuel at 1. cbn [adopt]. rewrite upd_node_some by done. cbn [mbind option_bind nodes with_nodes].
  rewrite Hm, Hn'. cbn [mbind option_bind]. rewrite Hr', Hkr, Z.eqb_refl. cbn [mbind option_bind].
  unfold count_linked, count_link, with_nodes. cbn. done.
Qed.

(** ** Insertion *)

Definition is_group (m : gmap Z jgTreeNode) (x : Z) : Prop :=
  exists n, m !! x = Some n /\ nodeType n = JGRP_NODE_GROUP.

(** Two separate trees whose counter blocks are different. *)
Definition apart (m : gmap Z jgTreeNode) (t1 t2 : gtree) : Prop :=
  ids t1 ## ids t2 /\
  forall x y d, x ∈ ids t1 -> y ∈ ids t2 -> blk m x = Some d -> blk m y = Some d -> False.

Lemma block_ok_blk m m' B own u :
  blk m' (root_id u) = blk m (root_id u) -> block_ok m B own u -> block_ok m' B own u.
Proof. intros H Hb d. rewrite H. apply Hb. Qed.

Lemma is_group_relinked m m' chs lks x : relinked m m' chs lks -> is_group m x -> is_group m' x.
Proof.
  intros H (n & Hn & Ht). specialize (H x). rewrite Hn in H.
  destruct (m' !! x) as [n'|] eqn:E; [|done]. exists n'. split; [done|]. by destruct H as (-> & _).
Qed.

(** The blocks from a node up to the root, all groups. *)
Lemma path_group_ok m B own C t :
  tree_ok m (plug C t) -> data_ok m B own (plug C t) -> (is_group m (root_id t) \/ kids t <> []) ->
  path_ok m B (root_id t :: ancestors C).
Proof.
  intros Hok Hd Hg. split.
  - exact (ancestors_NoDup C t (tok_nodup _ _ Hok)).
  - assert (G : forall x, x ∈ root_id t :: ancestors C -> is_group m x).
    { intros x [->|Hx]%elem_of_cons.
      - destruct Hg as [Hg|Hg]; [done|]. apply (dok_inner _ _ _ _ Hd t); [apply plug_sub_focus|done].
      - rewrite <- (path_tree_roots C t) in Hx. apply list_elem_of_fmap in Hx as (u & -> & Hu).
        apply (dok_inner _ _ _ _ Hd u); [by apply plug_sub_path|].
        clear -Hu. revert t Hu. induction C as [|f C IH]; intros t Hu; [by apply elem_of_nil in Hu|].
        cbn in Hu. apply elem_of_cons in Hu as [->|Hu]; [|eauto].
        unfold close. cbn. by destruct (fr_l f). }
    intros x Hx. destruct (G x Hx) as (n & Hn & Ht).
    assert (Hb : blk m x = Some (ndInfo n)) by (unfold blk; rewrite Hn; cbn; by rewrite Ht).
    destruct (path_blocks _ _ _ _ _ x _ Hok Hd Hx Hb) as (b & k & ? & ?). eauto 10.
  - intros x y d Hx Hy. apply (dok_inj _ _ _ _ Hd); by apply path_in_ids.
Qed.

Section Insertion.
Context (s : mstate) (own : Z -> list Z) (C : list frame) (par : Z) (ts : list gtree) (K : gtree).
Hypothesis HT : jinv s own (plug C (Br par ts)).
Hypothesis HK : jinv s own K.
Hypothesis Hap : apart (nodes s) K (plug C (Br par ts)).
Hypothesis Hgrp : is_group (nodes s) par.
Let m' := link_child (nodes s) par (root_id K) (root_id <$> ts).

Lemma ins_relinked : relinked (nodes s) m' [par] (root_id K :: (root_id <$> ts)).
Proof. apply link_child_relinked. Qed.

Lemma ins_blk x : blk m' x = blk (nodes s) x.
Proof. exact (blk_relinked _ _ _ _ _ ins_relinked). Qed.

Lemma ins_stats i :
  tally i (stats own (Br par (ts ++ [K]))) = tally i (stats own (Br par ts)) + 1 * tally i (stats own K).
Proof.
  unfold stats. rewrite !ids_br, !bind_cons, idsl_app, idsl_cons. cbn [idsl mbind list_bind].
  rewrite app_nil_r, bind_app, !tally_app. lia.
Qed.

(** The inner nodes of the new tree are groups. *)
Lemma ins_inner u : u ∈ subtrees (plug C (Br par (ts ++ [K]))) -> kids u <> [] -> is_group m' (root_id u).
Proof.
  intros Hu Hk. apply (is_group_relinked _ _ _ _ _ ins_relinked).
  destruct HT as [Hok Hd], HK as [_ HKd].
  rewrite plug_subtrees, subtrees_br, subl_app in Hu.
  apply elem_of_app in Hu as [[->|[Hu|Hu]%elem_of_app]%elem_of_cons|[Hu|Hu]%elem_of_app].
  - done.
  - apply (dok_inner _ _ _ _ Hd u); [|done]. rewrite plug_subtrees, subtrees_br. set_solver.
  - unfold subl in Hu. rewrite bind_singleton in Hu. by apply (dok_inner _ _ _ _ HKd u).
  - destruct (path_trees_shape C (Br par ts) (Br par (ts ++ [K])) u eq_refl Hu) as (v & Hv & E1 & E2 & _).
    rewrite <- E1. apply (dok_inner _ _ _ _ Hd v); [by apply plug_sub_path|].
    intros Hn. unfold kid_ids in E2. rewrite Hn in E2. by destruct (kids u).
  - apply (dok_inner _ _ _ _ Hd u); [|done]. rewrite plug_subtrees. set_solver.
Qed.

Lemma ins_data B' :
  shifted (nodes s) (par :: ancestors C) (fun i => 1 * tally i (stats own K)) (bases s) B' ->
  data_ok m' B' own (plug C (Br par (ts ++ [K]))).
Proof.
  intros Hsh. destruct HT as [Hok Hd], HK as [HKok HKd], Hap as [Hdis Hbd].
  split; [|apply ins_inner|].
  - rewrite plug_subtrees, subtrees_br, subl_app.
    pose proof (retally (nodes s) m' (bases s) B' own own _ C (Br par ts) (Br par (ts ++ [K])) Hok Hd eq_refl
      ins_blk Hsh (fun _ _ => eq_refl) ins_stats) as Hr.
    apply Forall_cons in Hr as [Hf Hrest]. constructor; [exact Hf|].
    apply Forall_app. split; [|exact Hrest]. apply Forall_app. split; apply Forall_forall; intros u Hu.
    + apply (block_ok_blk (nodes s)); [apply ins_blk|]. by eapply below_kept.
    + unfold subl in Hu. rewrite bind_singleton in Hu.
      apply (block_kept (nodes s) m' (bases s) B' own own u); [|apply ins_blk| |done].
      * pose proof (dok_blocks _ _ _ _ HKd) as HB. rewrite Forall_forall in HB. auto.
      * intros d Hdu. destruct Hsh as [_ Hsh]. apply Hsh. intros x Hx Hxd.
        apply (Hbd (root_id u) x d); [by apply root_of_subtree| |done|done].
        by apply (path_in_ids C (Br par ts)).
  - intros x y d Hx Hy. rewrite !ins_blk. rewrite insert_ids in Hx, Hy.
    apply elem_of_app in Hx as [Hx|Hx]; apply elem_of_app in Hy as [Hy|Hy]; intros H1 H2.
    + by apply (dok_inj _ _ _ _ HKd x y d).
    + exfalso. by apply (Hbd x y d).
    + exfalso. by apply (Hbd y x d).
    + by apply (dok_inj _ _ _ _ Hd x y d).
Qed.

Lemma insert_child :
  root_kind s own K ->
  exists s', treeInsertChild s par (root_id K) = Some (par, s') /\
    jinv s' own (plug C (Br par (ts ++ [K]))) /\ nodes s' = m' /\ jobs s' = jobs s /\
    groupRoot s' = groupRoot s /\ depEntry s' = depEntry s.
Proof.
  intros Hkind. pose proof HT as [Hok Hd]. pose proof HK as [HKok HKd]. pose proof Hap as [Hdis Hbd].
  rewrite (insert_links s C par ts K Hok HKok Hdis). fold m'.
  pose proof (insert_tree_ok (nodes s) C par ts K Hok HKok Hdis) as Hok'. fold m' in Hok'.
  pose proof (tree_spine m' (Frame par ts [] :: C) K Hok') as Hsp.
  pose proof (path_fuel (with_nodes s m') (Frame par ts [] :: C) K Hok') as Hfuel.
  destruct (count_link_spec (with_nodes s m') own (Frame par ts [] :: C) K 1) as (B' & HB & Hsh).
  - exact Hsp.
  - unfold node_fuel. lia.
  - apply (path_ok_blk (nodes s)); [apply ins_blk|].
    exact (path_group_ok (nodes s) (bases s) own C (Br par ts) Hok Hd (or_introl Hgrp)).
  - destruct Hkind as (n & Hn & Hk). pose proof (ins_relinked (root_id K)) as Hrl.
    rewrite Hn in Hrl. destruct (m' !! root_id K) as [n'|] eqn:E; [|done].
    destruct Hrl as (Ht & _ & Hi & _). exists n'. rewrite Ht, Hi. done.
  - apply (block_ok_blk (nodes s)); [apply ins_blk|].
    pose proof (dok_blocks _ _ _ _ HKd) as HBk. rewrite Forall_forall in HBk. apply HBk, self_in_subtrees.
  - intros x d Hx Hkd Hxd. cbn [nodes with_nodes] in Hkd, Hxd. rewrite !ins_blk in Hkd, Hxd.
    apply (Hbd (root_id K) x d); [apply root_in_ids| |done|done]. by apply (path_in_ids C (Br par ts)).
  - by left.
  - rewrite HB. cbn. eexists. split; [reflexivity|]. split; [|done]. split; [exact Hok'|].
    apply ins_data. apply (shifted_blk _ _ _ _ _ _ ins_blk Hsh).
Qed.

End Insertion.

(** ** Removal *)

Lemma clip_around_parent m par xl xr x :
  parent <$> clip_around m par xl xr !! x = parent <$> m !! x.
Proof.
  assert (G : forall m f p, (forall n, parent (f n) = parent n) ->
            parent <$> (alter f p m : gmap Z jgTreeNode) !! x = parent <$> m !! x).
  { intros m0 f p Hf. destruct (decide (x = p)) as [->|Hne].
    - rewrite lookup_alter_eq. destruct (m0 !! p); cbn; by rewrite ?Hf.
    - by rewrite lookup_alter_ne. }
  unfold clip_around. destruct xr as [|r xr], (last xl); by rewrite !G.
Qed.

Lemma clip_around_relinked m par xl xr : relinked m (clip_around m par xl xr) [par] (xl ++ xr).
Proof.
  unfold clip_around.
  assert (H1 : relinked m (match last xl with
      | Some y => alter (set_right (hd0 xr)) y m
      | None => alter (set_child (hd0 xr)) par m end) [par] (xl ++ xr)).
  { destruct (last xl) as [y|] eqn:E; [|apply relinked_child; set_solver].
    apply last_Some in E as (l & ->). apply relinked_link; [set_solver|done]. }
  destruct xr as [|r xr]; [done|].
  eapply relinked_trans; [exact H1|]. apply relinked_link; [set_solver|done].
Qed.

Lemma spine_relinked m m' C x chs lks :
  spine m C x -> relinked m m' chs lks -> (forall y, y ∈ x :: ancestors C -> y ∉ lks) -> spine m' C x.
Proof.
  intros Hsp Hrl. revert x Hsp. induction C as [|f C IH]; intros x (Hx & Hl & Hs) Hn;
    (split; [done|]; split; [eapply located_relinked; [done..|apply Hn; by left]|]); [done|].
  apply IH; [done|]. intros y Hy. apply Hn. right. exact Hy.
Qed.

(** The observer of a removal moves off the subtree that goes. *)
Lemma observe_clip s T C K :
  tree_ok (nodes s) T -> T = plug C K ->
  forall s3, spine (nodes s3) C (root_id K) -> (forall x, parent <$> nodes s3 !! x = parent <$> nodes s !! x) ->
  size (nodes s3) = size (nodes s) -> (depEntry s3 = NULL \/ depEntry s3 ∈ ids T) ->
  treeObserverInvoke s3 (root_id K) TREE_EVENT_CLIP
  = Some (with_depEntry s3 (if decide (depEntry s3 ∈ ids K) then hd0 (after C) else depEntry s3)).
Proof.
  intros Hok HT s3 Hsp Hpar Hsize Hdep. unfold treeObserverInvoke, treeObserverEvalDep.
  assert (HKn : root_id K <> NULL) by (subst T; exact (nok_id _ _ (focus_node _ _ _ Hok))).
  assert (Hfuel : (length C < node_fuel s3)%nat).
  { unfold node_fuel. rewrite Hsize. subst T. pose proof (path_fuel _ _ _ Hok). lia. }
  assert (Hunder : (if depEntry s3 =? root_id K then Some true else isAncestor s3 (root_id K) (depEntry s3))
                   = Some (bool_decide (depEntry s3 ∈ ids K))).
  { destruct Hdep as [HN|Hin].
    - rewrite HN, (proj2 (Z.eqb_neq _ _)) by done.
      unfold isAncestor. rewrite Z.eqb_refl, orb_true_r. f_equal. symmetry.
      apply bool_decide_eq_false_2. intros Hin. apply (ids_nonnull (nodes s) T NULL Hok); [|done].
      subst T. rewrite plug_ids. set_solver.
    - destruct (subtree_of_root _ _ Hin) as (es & Hs). destruct (subtree_context _ _ Hs) as (E & HE).
      pose proof (below_iff (nodes s) T C K E (Br (depEntry s3) es) Hok HT HE) as Hiff. cbn [root_id] in Hiff.
      rewrite (bool_decide_ext _ _ (iff_sym Hiff)).
      destruct (Z.eqb_spec (depEntry s3) (root_id K)) as [->|Hne].
      + f_equal. symmetry. apply bool_decide_eq_true_2. by left.
      + rewrite (ancestor_pchain s3 (root_id K) (ancestors E)).
        * f_equal. apply bool_decide_ext. rewrite elem_of_cons. split; [tauto|]. intros [?|]; [congruence|done].
        * apply (pchain_parents (nodes s)); [done|]. apply spine_pchain.
          apply (tree_spine (nodes s) E (Br (depEntry s3) es)). by rewrite <- HE.
        * unfold node_fuel. rewrite Hsize. unfold ancestors. rewrite length_fmap.
          rewrite HE in Hok. pose proof (path_fuel s E _ Hok). lia.
        * done. }
  rewrite Hunder. cbn [mbind option_bind]. destruct (decide (depEntry s3 ∈ ids K)) as [Hin|Hn].
  - rewrite bool_decide_eq_true_2 by done.
    rewrite (nextSib_spine s3 C) by (done || (subst T; by eapply after_nonnull)). done.
  - rewrite bool_decide_eq_false_2 by done. by destruct s3.
Qed.

Lemma clip_left_store s par xl xr :
  (forall y, y ∈ xl -> y <> NULL /\ is_Some (nodes s !! y)) -> par <> NULL -> is_Some (nodes s !! par) ->
  (if negb (lst NULL xl =? NULL) then upd_node s (lst NULL xl) (set_right (hd0 xr))
   else if negb (par =? NULL) then upd_node s par (set_child (hd0 xr)) else Some s)
  = Some (with_nodes s (match last xl with
      | Some y => alter (set_right (hd0 xr)) y (nodes s)
      | None => alter (set_child (hd0 xr)) par (nodes s) end)).
Proof.
  intros Hl Hp Hps. unfold lst. destruct (last xl) as [y|] eqn:E; cbn.
  - destruct (Hl y) as [Hy1 Hy2]; [apply last_Some in E as (l & ->); set_solver|].
    rewrite (proj2 (Z.eqb_neq _ _) Hy1). cbn. by rewrite upd_node_some.
  - rewrite (proj2 (Z.eqb_neq _ _) Hp). cbn. by rewrite upd_node_some.
Qed.

Lemma clip_right_store s m v xr :
  (forall y, y ∈ xr -> y <> NULL /\ is_Some (m !! y)) ->
  (if negb (hd0 xr =? NULL) then upd_node (with_nodes s m) (hd0 xr) (set_left v) else Some (with_nodes s m))
  = Some (with_nodes s (match xr with r :: _ => alter (set_left v) r m | [] => m end)).
Proof.
  intros Hr. destruct xr as [|r xr]; [done|]. change (hd0 (r :: xr)) with r.
  destruct (Hr r ltac:(left)) as [H1 H2]. rewrite (proj2 (Z.eqb_neq _ _) H1). cbn.
  by rewrite upd_node_some.
Qed.

(** The stores of [treeClip] around the counters and the observer. *)
Lemma clip_stores s C f K :
  tree_ok (nodes s) (plug (f :: C) K) ->
  treeClip s (root_id K)
  = (s2 ← count_link (with_nodes s (clip_around (nodes s) (fr_id f) (root_id <$> fr_l f) (root_id <$> fr_r f)))
            (root_id K) (-1);
     s3 ← treeObserverInvoke s2 (root_id K) TREE_EVENT_CLIP;
     s4 ← upd_node s3 (root_id K) unlink;
     Some (root_id K, s4)).
Proof.
  intros Hok. unfold treeClip.
  rewrite (proj2 (Z.eqb_neq _ _)) by exact (nok_id _ _ (focus_node _ _ _ Hok)).
  destruct (plug_located _ _ _ Hok) as (n & Hn & Hp & Hl & Hr). rewrite Hn. cbn [mbind option_bind].
  destruct (clip_kids_NoDup (nodes s) C f K Hok) as [Hnd Hq].
  assert (Hids : forall x, x ∈ ids (plug (f :: C) K) -> x <> NULL /\ is_Some (nodes s !! x))
    by (intros x Hx; split; [by eapply ids_nonnull|by eapply ids_dom]).
  assert (Hkid : forall x, x ∈ (root_id <$> fr_l f) ++ root_id K :: (root_id <$> fr_r f) ->
            x <> NULL /\ is_Some (nodes s !! x)).
  { intros x Hx. apply Hids, (kids_in_ids (close f K)); [apply (plug_sub_path (f :: C)); by left|].
    by rewrite clip_kid_ids. }
  destruct (Hids (fr_id f)) as [Hf1 Hf2]; [apply path_in_ids; right; by left|].
  cbn in Hp, Hl, Hr. rewrite Hp, Hl, Hr.
  set (xl := root_id <$> fr_l f) in *. set (xr := root_id <$> fr_r f) in *.
  rewrite clip_left_store by (done || (intros; apply Hkid; set_solver)).
  cbn [mbind option_bind nodes with_nodes]. set (m1 := match last xl with Some _ => _ | None => _ end).
  assert (Hm1 : m1 !! root_id K = Some n).
  { unfold m1. destruct (last xl) as [y|] eqn:E; (rewrite lookup_alter_ne; [done|]).
    - apply last_Some in E as (l & ->). intros ->. apply NoDup_app in Hnd as (_ & Hd & _).
      apply (Hd (root_id K)); set_solver.
    - intros E'. apply Hq. rewrite E'. set_solver. }
  rewrite Hm1. cbn [mbind option_bind]. rewrite Hl, Hr.
  rewrite clip_right_store.
  2:{ intros y Hy. split; [apply Hkid; set_solver|]. unfold m1.
      destruct (last xl); apply is_Some_alter, Hkid; set_solver. }
  cbn [mbind option_bind nodes with_nodes].
  change (match xr with [] => m1 | r :: _ => alter (set_left (lst NULL xl)) r m1 end)
    with (clip_around (nodes s) (fr_id f) xl xr).
  unfold count_link at 1. cbn [nodes with_nodes Z.eqb Pos.eqb]. by destruct (clip_around _ _ _ _ !! root_id K).
Qed.

Section Removal.
Context (s : mstate) (own : Z -> list Z) (C : list frame) (f : frame) (K : gtree).
Hypothesis HT : jinv s own (plug (f :: C) K).
Let m' := clip_links (nodes s) (fr_id f) (root_id K) (root_id <$> fr_l f) (root_id <$> fr_r f).
Let rest := Br (fr_id f) (fr_l f ++ fr_r f).

Lemma rem_relinked :
  relinked (nodes s) m' [fr_id f] (root_id K :: (root_id <$> fr_l f) ++ (root_id <$> fr_r f)).
Proof. apply clip_links_relinked. Qed.

Lemma rem_blk x : blk m' x = blk (nodes s) x.
Proof. exact (blk_relinked _ _ _ _ _ rem_relinked). Qed.

Lemma rem_stats i :
  tally i (stats own rest) = tally i (stats own (close f K)) + -1 * tally i (stats own K).
Proof.
  rewrite stats_close, !tally_app. unfold stats, rest.
  rewrite !ids_br, !bind_cons, idsl_app, bind_app, !tally_app. lia.
Qed.

Lemma rem_inner u : u ∈ subtrees (plug C rest) -> kids u <> [] -> is_group m' (root_id u).
Proof.
  intros Hu Hk. apply (is_group_relinked _ _ _ _ _ rem_relinked). destruct HT as [Hok Hd].
  assert (G : forall v, v ∈ subtrees (plug (f :: C) K) -> root_id v = root_id u -> kids v <> [] ->
     is_group (nodes s) (root_id u)) by (intros v Hv <- Hkv; by apply (dok_inner _ _ _ _ Hd v)).
  assert (Hclose : kids (close f K) <> []) by (unfold close; cbn; by destruct (fr_l f)).
  rewrite plug_subtrees in Hu. unfold rest in Hu. rewrite subtrees_br, subl_app in Hu.
  apply elem_of_app in Hu as [[->|Hu]%elem_of_cons|[Hu|Hu]%elem_of_app].
  - apply (G (close f K)); [|done|done]. apply (plug_sub_path (f :: C)). by left.
  - apply (G u); [|done|done]. rewrite plug_close, plug_subtrees. unfold close.
    rewrite subtrees_br, subl_app. unfold subl at 2. rewrite bind_cons. fold (subl (fr_r f)). set_solver.
  - destruct (path_trees_shape C (close f K) rest u eq_refl Hu) as (v & Hv & E1 & E2 & _).
    apply (G v); [|done|].
    + apply (plug_sub_path (f :: C)). by right.
    + intros Hn. unfold kid_ids in E2. rewrite Hn in E2. by destruct (kids u).
  - apply (G u); [|done|done]. rewrite plug_close, plug_subtrees. set_solver.
Qed.

Lemma rem_data B' :
  shifted (nodes s) (ancestors (f :: C)) (fun i => -1 * tally i (stats own K)) (bases s) B' ->
  data_ok m' B' own (plug C rest) /\ data_ok m' B' own K.
Proof.
  intros Hsh. pose proof HT as [Hok Hd]. pose proof Hok as Hok'. pose proof Hd as Hd'.
  rewrite plug_close in Hok', Hd'.
  assert (Hbelow : forall u, u ∈ subl (fr_l f ++ K :: fr_r f) -> block_ok m' B' own u).
  { intros u Hu. apply (block_ok_blk (nodes s)); [apply rem_blk|].
    by eapply (below_kept (nodes s) (bases s) B' own own _ C (fr_id f)). }
  assert (Hsub : forall u, u ∈ subl (fr_l f) \/ u ∈ subtrees K \/ u ∈ subl (fr_r f) ->
     u ∈ subl (fr_l f ++ K :: fr_r f)).
  { intros u Hu. rewrite subl_app. unfold subl at 2. rewrite bind_cons. fold (subl (fr_r f)). set_solver. }
  split; split.
  - rewrite plug_subtrees. unfold rest. rewrite subtrees_br, subl_app.
    pose proof (retally (nodes s) m' (bases s) B' own own _ C (close f K) rest Hok' Hd' eq_refl
      rem_blk Hsh (fun _ _ => eq_refl) rem_stats) as Hr.
    apply Forall_cons in Hr as [Hf Hrest]. constructor; [exact Hf|].
    apply Forall_app. split; [|exact Hrest]. apply Forall_forall. intros u Hu.
    apply Hbelow, Hsub. set_solver.
  - apply rem_inner.
  - intros x y d Hx Hy. rewrite !rem_blk. apply (dok_inj _ _ _ _ Hd); rewrite <- clip_ids; set_solver.
  - apply Forall_forall. intros u Hu. apply Hbelow, Hsub. auto.
  - intros u Hu Hk. apply (is_group_relinked _ _ _ _ _ rem_relinked).
    apply (dok_inner _ _ _ _ Hd); [|done]. rewrite plug_subtrees. set_solver.
  - intros x y d Hx Hy. rewrite !rem_blk. apply (dok_inj _ _ _ _ Hd); rewrite <- clip_ids; set_solver.
Qed.

(** The state in which the counters and the observer run. *)
Let m1 := clip_around (nodes s) (fr_id f) (root_id <$> fr_l f) (root_id <$> fr_r f).

Lemma rem_around : relinked (nodes s) m1 [fr_id f] ((root_id <$> fr_l f) ++ (root_id <$> fr_r f)).
Proof. apply clip_around_relinked. Qed.

Lemma rem_around_blk x : blk m1 x = blk (nodes s) x.
Proof. exact (blk_relinked _ _ _ _ _ rem_around). Qed.

Lemma rem_spine : spine m1 (f :: C) (root_id K).
Proof.
  pose proof HT as [Hok _]. destruct (clip_kids_NoDup (nodes s) C f K Hok) as [Hnd Hq].
  eapply spine_relinked; [by apply tree_spine|apply rem_around|]. intros y Hy Hin.
  apply elem_of_cons in Hy as [->|Hy].
  - apply NoDup_app in Hnd as (_ & Hd1 & [Hd2 _]%NoDup_cons).
    apply elem_of_app in Hin as [Hin|Hin]; [apply (Hd1 _ Hin); by left|done].
  - pose proof (tok_nodup _ _ Hok) as Hall. rewrite plug_close, plug_ids in Hall.
    apply NoDup_app in Hall as (_ & Hd1 & (Hd2 & _)%NoDup_app).
    assert (Hyk : y ∈ kid_ids (close f K)) by (rewrite clip_kid_ids; set_solver).
    apply elem_of_cons in Hy as [->|Hy]; [by apply (root_not_kid (fr_id f) (fr_l f ++ K :: fr_r f))|].
    apply (Hd1 y); [by apply ancestors_ids|]. apply elem_of_app. left.
    by apply (kids_in_ids (close f K)); [apply self_in_subtrees|].
Qed.

Lemma rem_count :
  root_kind s own K ->
  exists B', count_link (with_nodes s m1) (root_id K) (-1) = Some (with_bases (with_nodes s m1) B') /\
    shifted (nodes s) (ancestors (f :: C)) (fun i => -1 * tally i (stats own K)) (bases s) B'.
Proof.
  intros Hkind. pose proof HT as [Hok Hd]. pose proof (path_fuel s (f :: C) K Hok) as Hfuel.
  destruct (count_link_spec (with_nodes s m1) own (f :: C) K (-1)) as (B' & HB & Hsh).
  - exact rem_spine.
  - unfold node_fuel. cbn [nodes with_nodes]. rewrite (size_relinked _ _ _ _ rem_around). lia.
  - apply (path_ok_blk (nodes s)); [apply rem_around_blk|].
    apply (path_group_ok (nodes s) (bases s) own C (close f K)); [done|done|].
    right. unfold close. cbn. by destruct (fr_l f).
  - destruct Hkind as (n & Hn & Hk). pose proof (rem_around (root_id K)) as Hrl.
    rewrite Hn in Hrl. destruct (m1 !! root_id K) as [n'|] eqn:E; [|done].
    destruct Hrl as (Ht & _ & Hi & _). exists n'. rewrite Ht, Hi. done.
  - apply (block_ok_blk (nodes s)); [apply rem_around_blk|]. by eapply focus_block.
  - intros x d Hx Hkd Hxd. cbn [nodes with_nodes] in Hkd, Hxd. rewrite !rem_around_blk in Hkd, Hxd.
    assert (Hal : NoDup (root_id K :: ancestors (f :: C))) by (apply ancestors_NoDup, Hok).
    apply NoDup_cons in Hal as [Hal _]. apply Hal.
    rewrite (dok_inj _ _ _ _ Hd (root_id K) x d); [done| | |done|done]; apply path_in_ids; [by left|by right].
  - by right.
  - exists B'. split; [exact HB|]. exact (shifted_blk _ _ _ _ _ _ rem_around_blk Hsh).
Qed.

Lemma clip_subtree :
  root_kind s own K -> (depEntry s = NULL \/ depEntry s ∈ ids (plug (f :: C) K)) ->
  exists s', treeClip s (root_id K) = Some (root_id K, s') /\
    jinv s' own (plug C rest) /\ jinv s' own K /\ nodes s' = m' /\ jobs s' = jobs s /\
    depEntry s' = if decide (depEntry s ∈ ids K) then hd0 (after (f :: C)) else depEntry s.
Proof.
  intros Hkind Hdep. pose proof HT as [Hok Hd]. rewrite (clip_stores s C f K Hok). fold m1.
  destruct (rem_count Hkind) as (B' & HB & Hsh). rewrite HB. cbn [mbind option_bind].
  rewrite (observe_clip s _ (f :: C) K Hok eq_refl); [|exact rem_spine|intros; apply clip_around_parent
    |exact (size_relinked _ _ _ _ rem_around)|done].
  cbn [mbind option_bind]. rewrite upd_node_some.
  2:{ cbn. destruct rem_spine as (_ & (n & Hn & _) & _). by eexists. }
  cbn. eexists. split; [reflexivity|]. destruct (rem_data B' Hsh) as [D1 D2].
  split; [split; [exact (clip_tree_ok _ _ _ _ Hok)|exact D1]|].
  split; [split; [exact (clip_subtree_ok _ _ _ _ Hok)|exact D2]|]. done.
Qed.

End Removal.

(** ** New nodes *)

Lemma tree_ok_ext m m' t : (forall x, x ∈ ids t -> m' !! x = m !! x) -> tree_ok m t -> tree_ok m' t.
Proof.
  intros H [H1 H2 H3]. split; [done| |].
  - rewrite H by apply root_in_ids. done.
  - rewrite Forall_forall in H3. apply Forall_forall. intros u Hu. destruct (H3 u Hu) as [Ha Hb Hc]. split.
    + done.
    + rewrite H by by apply root_of_subtree. done.
    + intros l1 x l2 E. rewrite H; [by apply Hc|]. apply (kids_in_ids u); [done|]. rewrite E. set_solver.
Qed.

Lemma blk_ext m m' (x : Z) : m' !! x = m !! x -> blk m' x = blk m x.
Proof. unfold blk. by intros ->. Qed.

Lemma data_ok_ext m m' B B' own own' t :
  (forall x, x ∈ ids t -> m' !! x = m !! x) ->
  (forall x d, x ∈ ids t -> blk m x = Some d -> B' !! d = B !! d) ->
  (forall x, x ∈ ids t -> own' x = own x) -> data_ok m B own t -> data_ok m' B' own' t.
Proof.
  intros Hm HB Ho [H1 H2 H3]. split.
  - rewrite Forall_forall in H1. apply Forall_forall. intros u Hu.
    assert (Hr : root_id u ∈ ids t) by by apply root_of_subtree.
    apply (block_kept m m' B B' own own' u); [auto|by apply blk_ext, Hm|by intros; eapply HB|].
    intros x Hx. apply Ho. by apply (ids_mono u t).
  - intros u Hu Hk. rewrite Hm by by apply root_of_subtree. auto.
  - intros x y d Hx Hy. rewrite !(blk_ext m m') by auto. by apply H3.
Qed.

(** A node just made, with nothing below it: a job, or a block of zeros. *)
Definition new_node_ok (m : gmap Z jgTreeNode) (B : gmap Z jgArrayBase) (own : Z -> list Z) (a : Z) : Prop :=
  a <> NULL /\ exists n, m !! a = Some n /\ parent n = NULL /\ child n = NULL /\ left_ n = NULL /\
    right_ n = NULL /\
    (nodeType n = JGRP_NODE_JOB \/
     nodeType n = JGRP_NODE_ARRAY /\ own a = [] /\ exists b, B !! ndInfo n = Some b /\ counts b = zero_counts).

Lemma new_node_jinv s own a : new_node_ok (nodes s) (bases s) own a -> jinv s own (Br a []).
Proof.
  intros (Ha & n & Hn & Hp & Hc & Hl & Hr & Ht). split.
  - split; [repeat constructor; set_solver|by exists n|]. repeat constructor; cbn; [done|by exists n|].
    intros l1 x l2 E. by destruct l1.
  - split.
    + repeat constructor. intros d Hd. unfold blk in Hd. cbn [root_id] in Hd. rewrite Hn in Hd. cbn in Hd.
      destruct Ht as [Ht|(Ht & Ho & b & Hb & Hz)]; rewrite Ht in Hd; [done|]. injection Hd as <-.
      exists b. split; [done|]. rewrite Hz. unfold stats. cbn. rewrite Ho. split; [done|].
      intros i Hi. unfold NUM_JGRP_COUNTERS in Hi. unfold zero_counts.
      apply lookup_replicate. split; [done|]. unfold NUM_JGRP_COUNTERS. lia.
    + intros u Hu%list_elem_of_singleton Hk. by subst u.
    + intros x y d Hx Hy _ _. cbn in Hx, Hy. set_solver.
Qed.

(** The name of the node of a job, and the data of an array of its owner. *)
Definition job_title (j : jData) : option string := Some (if has (options j) SUB_JOB_NAME then jobName j else command j).
Definition array_data (jp : Z) (j : jData) (cs : list Z) : jgArrayBase :=
  JgArrayBase 0 0 0 0 (jUserId j) (Some (jUserName j))
    (if has (options2 j) SUB2_HOST_NT then AUTH_HOST_NT else if has (options2 j) SUB2_HOST_UX then AUTH_HOST_UX else 0)
    FreeJarray cs jp 0.

(** The state in which [putOntoTree] links the new node. *)
Definition put_ready (s s5 : mstate) (a d jp : Z) (j : jData) : Prop :=
  groupRoot s5 = groupRoot s /\ depEntry s5 = depEntry s /\
  jobs s5 = <[jp := set_jgrpNode a (set_jNumRef (i32 (jNumRef j + 1)) j)]> (jobs s) /\
  if jNodeType j =? JGRP_NODE_JOB
  then nodes s5 = <[a := JgTreeNode NULL NULL NULL NULL JGRP_NODE_JOB (job_title j) jp]> (nodes s) /\ bases s5 = bases s
  else nodes s5 = <[a := JgTreeNode NULL NULL NULL NULL JGRP_NODE_ARRAY (job_title j) d]> (nodes s) /\
       exists b, bases s5 = <[d := b]> (bases s) /\ counts b = zero_counts /\ b = array_data jp j zero_counts.

(** The end of [putOntoTree]. *)
Definition put_finish (s : mstate) (jp : Z) : option mstate :=
  s ← upd_job s jp (set_runCount 1);
  upd_job s jp (fun j => set_pend
    (if dptRoot j =? NULL then Z.lor (jFlags j) JFLAG_READY2 else jFlags j)
    (if newReason j =? 0 then PEND_JOB_NEW else newReason j) j).

(** The jobs [js] are the [nextJob] chain from [p]. *)
Fixpoint chained (J : gmap Z jData) (p : Z) (js : list Z) : Prop :=
  match js with
  | [] => p = NULL
  | q :: js => p = q /\ q <> NULL /\ exists j, J !! q = Some j /\ chained J (nextJob j) js
  end.

(** The statuses of jobs. *)
Definition statuses (J : gmap Z jData) (js : list Z) : list Z :=
  js ≫= fun q => match J !! q with Some j => present (jStatus j) | None => [] end.

(** [J'] is [J] with the jobs [js] tied to node [a]. *)
Definition tied (a : Z) (js : list Z) (J J' : gmap Z jData) : Prop :=
  forall q, J' !! q = if decide (q ∈ js) then set_jgrpNode a <$> J !! q else J !! q.

Lemma chained_ext J J' p js :
  (forall q, q ∈ js -> J' !! q = J !! q) -> chained J p js -> chained J' p js.
Proof.
  revert p. induction js as [|q js IH]; intros p H; [done|]. intros (E & Hq & j & Hj & Hc).
  split; [done|]. split; [done|]. exists j. split; [rewrite H; [done|by left]|].
  apply IH; [|done]. intros. apply H. by right.
Qed.

Lemma statuses_ext J J' js : (forall q, q ∈ js -> J' !! q = J !! q) -> statuses J' js = statuses J js.
Proof.
  induction js as [|q js IH]; intros H; [done|]. unfold statuses in *. rewrite !bind_cons, IH.
  - by rewrite H by left.
  - intros. apply H. by right.
Qed.

Lemma chained_dom J p js q : chained J p js -> q ∈ js -> is_Some (J !! q).
Proof.
  revert p. induction js as [|x js IH]; intros p; [by intros _ ?%elem_of_nil|].
  intros (_ & _ & j & Hj & Hc) [->|Hq]%elem_of_cons; [by exists j|by eapply IH].
Qed.

(** Counting one element at a node that is not linked yet. *)
Lemma put_element_step s own a q j :
  jinv s own (Br a []) -> let s1 := with_jobs s (<[q := set_jgrpNode a j]> (jobs s)) in
  exists B', updJgrpCountByJStatus s1 q JOB_STAT_NULL (jStatus j) = Some (with_bases s1 B') /\
    jinv (with_bases s1 B') (own_at own a (own a ++ present (jStatus j))) (Br a []) /\
    forall e, blk (nodes s) a <> Some e -> B' !! e = bases s !! e.
Proof.
  intros [Hok Hd] s1. unfold updJgrpCountByJStatus.
  change (jobs s1) with (<[q := set_jgrpNode a j]> (jobs s)). rewrite lookup_insert_eq. cbn [mbind option_bind].
  destruct (count_change s1 (Br a []) own a (own a ++ present (jStatus j)) JOB_STAT_NULL (jStatus j) Hok Hd)
    as (B' & HB & Hd' & HF); [by left| |].
  - intros i. rewrite tally_app, tally_present. change (cnt i JOB_STAT_NULL) with 0. lia.
  - exists B'. split; [exact HB|]. split; [by split|].
    intros e He. apply HF. by intros y ->%list_elem_of_singleton.
Qed.

(** The elements of an array are tied to its node and counted there. *)
Lemma put_elements_spec fuel s own a p js :
  (length js < fuel)%nat -> jinv s own (Br a []) -> chained (jobs s) p js -> NoDup js ->
  exists s', put_elements fuel s a p = Some s' /\ nodes s' = nodes s /\ groupRoot s' = groupRoot s /\
    depEntry s' = depEntry s /\ jinv s' (own_at own a (own a ++ statuses (jobs s) js)) (Br a []) /\
    (forall e, blk (nodes s) a <> Some e -> bases s' !! e = bases s !! e) /\ tied a js (jobs s) (jobs s').
Proof.
  revert fuel s own p. induction js as [|q js IH]; intros fuel s own p Hf Hi Hc Hnd;
    (destruct fuel as [|k]; [simpl in Hf; lia|]); cbn [put_elements].
  - cbn in Hc. subst p. exists s. do 4 (split; [done|]). split; [|split; [done|]].
    + destruct Hi as [Hok Hd]. split; [done|]. eapply data_ok_ext; [..|exact Hd]; try done.
      intros x ->%list_elem_of_singleton. unfold own_at. by rewrite Z.eqb_refl, app_nil_r.
    + intros q. by rewrite decide_False by set_solver.
  - destruct Hc as (-> & Hq & j & Hj & Hc). apply NoDup_cons in Hnd as [Hqn Hnd].
    rewrite (proj2 (Z.eqb_neq q NULL) Hq). unfold upd_job. rewrite Hj. cbn [mbind option_bind].
    destruct (put_element_step s own a q j Hi) as (B' & HB & Hi' & HF).
    set (J1 := <[q := set_jgrpNode a j]> (jobs s)) in *. change (jobs (with_jobs s J1)) with J1.
    assert (Hq1 : J1 !! q = Some (set_jgrpNode a j)) by apply lookup_insert_eq. rewrite Hq1.
    cbn [mbind option_bind]. change (jStatus (set_jgrpNode a j)) with (jStatus j). rewrite HB. cbn [mbind option_bind].
    assert (Hsame : forall x, x ∈ js -> J1 !! x = jobs s !! x).
    { intros x Hx. apply lookup_insert_ne. set_solver. }
    destruct (IH k _ _ (nextJob j) ltac:(simpl in Hf; lia) Hi' (chained_ext _ _ _ _ Hsame Hc) Hnd)
      as (s' & H1 & H2 & H3 & H4 & [Hok5 H5] & H6 & H7).
    exists s'. do 4 (split; [assumption|]). split; [split; [done|]|split].
    + eapply data_ok_ext; [done|done| |exact H5]. intros x ->%list_elem_of_singleton.
      change (jobs (with_bases (with_jobs s J1) B')) with J1. unfold own_at. rewrite !Z.eqb_refl, <- app_assoc.
      rewrite (statuses_ext (jobs s) J1 js Hsame). unfold statuses. by rewrite bind_cons, Hj.
    + intros e He. rewrite H6 by done. by apply HF.
    + intros x. rewrite (H7 x). change (jobs (with_bases (with_jobs s J1) B')) with J1.
      destruct (decide (x = q)) as [->|Hne].
      * by rewrite decide_False, Hq1, decide_True, Hj by set_solver.
      * unfold J1. rewrite lookup_insert_ne by done.
        destruct (decide (x ∈ js)); [rewrite decide_True|rewrite decide_False]; set_solver.
Qed.

Lemma put_prepare s a d jp j :
  jobs s !! jp = Some j -> jp <> NULL ->
  jNodeType j = JGRP_NODE_JOB \/ jNodeType j = JGRP_NODE_ARRAY ->
  exists s4, put_ready s s4 a d jp j /\
    putOntoTree s a d jp
    = (s5 ← put_elements (job_fuel s4) s4 a (nextJob j);
       '(_, s6) ← treeInsertChild s5 (groupRoot s5) a; put_finish s6 jp).
Proof.
  intros Hj Hjp Ht. unfold putOntoTree. rewrite Hj. cbn [mbind option_bind].
  unfold createjDataRef. rewrite (proj2 (Z.eqb_neq jp NULL) Hjp).
  destruct Ht as [Ht|Ht]; rewrite Ht; unfold treeNewNode, upd_node, upd_job, upd_base; cbn;
    repeat (rewrite ?Hj, ?lookup_insert_eq; cbn).
  - eexists. split; [|reflexivity]. unfold put_ready. rewrite Ht. cbn. rewrite !insert_insert_eq. eauto 10.
  - destruct (has (options2 j) SUB2_HOST_NT) eqn:E1; [|destruct (has (options2 j) SUB2_HOST_UX) eqn:E2];
      repeat (rewrite ?lookup_insert_eq; cbn);
      (eexists; split; [|reflexivity]); unfold put_ready; rewrite Ht; cbn; rewrite !insert_insert_eq;
      (split; [done|]; split; [done|]; split; [done|]; split; [done|];
       eexists; split; [reflexivity|]; split; [done|]; unfold array_data; by rewrite ?E1, ?E2).
Qed.

Lemma put_finish_spec s jp j :
  jobs s !! jp = Some j ->
  exists s', put_finish s jp = Some s' /\ nodes s' = nodes s /\ bases s' = bases s /\
    jobs s' !! jp = Some (set_pend
      (if dptRoot j =? NULL then Z.lor (jFlags j) JFLAG_READY2 else jFlags j)
      (if newReason j =? 0 then PEND_JOB_NEW else newReason j) (set_runCount 1 j)) /\
    forall q, q <> jp -> jobs s' !! q = jobs s !! q.
Proof.
  intros Hj. unfold put_finish, upd_job. rewrite Hj. cbn. rewrite lookup_insert_eq. cbn.
  eexists. split; [reflexivity|]. cbn. do 2 (split; [done|]). split; [by rewrite lookup_insert_eq|].
  intros q Hq. by rewrite !lookup_insert_ne.
Qed.

Lemma has_ready2 flags : has (Z.lor flags JFLAG_READY2) JFLAG_READY2 = true.
Proof.
  unfold has. apply negb_true_iff, Z.eqb_neq. intros E.
  assert (Hbit : Z.testbit (Z.land (Z.lor flags JFLAG_READY2) JFLAG_READY2) 21 = true).
  { rewrite Z.land_spec, Z.lor_spec. by rewrite orb_true_r. }
  by rewrite E, Z.bits_0 in Hbit.
Qed.

(** What [put_ready] gives for the insertion: [s4] is the state before the
    elements are entered, [s5] the one after. *)
Section PutNode.
Context (s s4 : mstate) (own : Z -> list Z) (a d jp : Z) (j : jData) (nm : option string).
Hypothesis Ht : jNodeType j = JGRP_NODE_JOB \/ jNodeType j = JGRP_NODE_ARRAY.
Hypothesis Hrest : if jNodeType j =? JGRP_NODE_JOB
  then nodes s4 = <[a := JgTreeNode NULL NULL NULL NULL JGRP_NODE_JOB nm jp]> (nodes s) /\ bases s4 = bases s
  else nodes s4 = <[a := JgTreeNode NULL NULL NULL NULL JGRP_NODE_ARRAY nm d]> (nodes s) /\
       exists b, bases s4 = <[d := b]> (bases s) /\ counts b = zero_counts.
Let own0 := own_at own a (if jNodeType j =? JGRP_NODE_JOB then present (jStatus j) else []).

Lemma put_new_node : a <> NULL -> jinv s4 own0 (Br a []).
Proof.
  intros Ha. apply new_node_jinv. split; [done|].
  unfold own0, own_at. rewrite Z.eqb_refl. destruct Ht as [Ht'|Ht']; rewrite Ht' in Hrest |- *.
  - destruct Hrest as [-> _]. rewrite lookup_insert_eq. eexists. split; [reflexivity|].
    do 4 (split; [done|]). by left.
  - destruct Hrest as (-> & b & -> & Hc). rewrite lookup_insert_eq. eexists. split; [reflexivity|].
    do 4 (split; [done|]). right. split; [done|]. split; [done|]. exists b.
    split; [apply lookup_insert_eq|done].
Qed.

Lemma put_kind s5 own' :
  nodes s5 = nodes s4 -> jobs s5 !! jp = Some (set_jgrpNode a (set_jNumRef (i32 (jNumRef j + 1)) j)) ->
  (jNodeType j = JGRP_NODE_JOB -> own' a = present (jStatus j)) -> root_kind s5 own' (Br a []).
Proof.
  intros Hn Hjobs Hown. unfold root_kind. cbn [root_id]. rewrite Hn.
  destruct Ht as [Ht'|Ht']; rewrite Ht' in Hrest.
  - destruct Hrest as [-> _]. rewrite lookup_insert_eq. eexists. split; [reflexivity|]. left.
    split; [done|]. split; [done|]. cbn. rewrite Hjobs. eexists. split; [done|]. split; [done|].
    by apply Hown.
  - destruct Hrest as [-> _]. rewrite lookup_insert_eq. eexists. split; [reflexivity|]. by right; right.
Qed.

Lemma put_blk e : blk (nodes s4) a = Some e -> e = d.
Proof.
  unfold blk. destruct Ht as [Ht'|Ht']; rewrite Ht' in Hrest; destruct Hrest as [-> _];
    rewrite lookup_insert_eq; cbn; congruence.
Qed.

(** The rest of the tree is not affected. *)
Lemma put_frame s5 own' t :
  jinv s own t -> nodes s !! a = None -> bases s !! d = None -> nodes s5 = nodes s4 ->
  (forall e, blk (nodes s4) a <> Some e -> bases s5 !! e = bases s4 !! e) ->
  (forall x, x <> a -> own' x = own x) ->
  (forall x, x ∈ ids t -> nodes s5 !! x = nodes s !! x) /\ jinv s5 own' t /\ apart (nodes s5) (Br a []) t.
Proof.
  intros [Hok Hd] Hna Hnd Hn5 Hb5 Hown.
  assert (Hfresh : forall x, x ∈ ids t -> x <> a).
  { intros x Hx ->. destruct (ids_dom _ _ _ Hok Hx) as [n Hn]. congruence. }
  assert (Hnodes : forall x, x ∈ ids t -> nodes s5 !! x = nodes s !! x).
  { intros x Hx. rewrite Hn5. destruct Ht as [Ht'|Ht']; rewrite Ht' in Hrest; destruct Hrest as [-> _];
      rewrite lookup_insert_ne; try done; by apply not_eq_sym, Hfresh. }
  assert (Hbases : forall x e, x ∈ ids t -> blk (nodes s) x = Some e -> e <> d /\ bases s5 !! e = bases s !! e).
  { intros x e Hx He. destruct (subtree_of_root _ _ Hx) as (us & Hu).
    pose proof (dok_blocks _ _ _ _ Hd) as HB. rewrite Forall_forall in HB.
    destruct (HB _ Hu e He) as (b & Hb & _). assert (Hed : e <> d) by congruence. split; [done|].
    rewrite Hb5 by (intros E%put_blk; congruence).
    destruct Ht as [Ht'|Ht']; rewrite Ht' in Hrest; [by destruct Hrest as [_ ->]|].
    destruct Hrest as (_ & b' & -> & _). by rewrite lookup_insert_ne. }
  split; [done|]. split; [split|split].
  - by apply (tree_ok_ext (nodes s)).
  - apply (data_ok_ext (nodes s) _ (bases s) _ own); auto. intros x e Hx He. by apply (Hbases x e).
  - intros x ->%list_elem_of_singleton Hx. by apply (Hfresh a).
  - intros x y e Hx%list_elem_of_singleton Hy Hxe Hye. subst x.
    rewrite (blk_ext (nodes s)) in Hye by auto. destruct (Hbases y e Hy Hye) as [Hne _].
    rewrite Hn5 in Hxe. by apply Hne, put_blk.
Qed.

End PutNode.

(** ** Deciding the invariant on concrete states *)

Fixpoint row_fromb (m : gmap Z jgTreeNode) (par lft : Z) (xs : list Z) : bool :=
  match xs with
  | [] => true
  | x :: xs =>
      match m !! x with
      | Some n => (parent n =? par) && (left_ n =? lft) && (right_ n =? hd0 xs)
      | None => false
      end && row_fromb m par x xs
  end.

Definition node_okb (m : gmap Z jgTreeNode) (t : gtree) : bool :=
  negb (root_id t =? NULL) &&
  match m !! root_id t with Some n => child n =? hd0 (kid_ids t) | None => false end &&
  row_fromb m (root_id t) NULL (kid_ids t).

Definition tree_okb (m : gmap Z jgTreeNode) (t : gtree) : bool :=
  bool_decide (NoDup (ids t)) &&
  match m !! root_id t with
  | Some n => (parent n =? NULL) && (left_ n =? NULL) && (right_ n =? NULL)
  | None => false
  end && forallb (node_okb m) (subtrees t).

Definition counts_areb (c l : list Z) : bool :=
  bool_decide (length c = 9%nat) &&
  forallb (fun i => bool_decide (c !! Z.to_nat i = Some (i32 (tally i l)))) (seqZ 0 NUM_JGRP_COUNTERS).

Definition block_okb (m : gmap Z jgTreeNode) (B : gmap Z jgArrayBase) (own : Z -> list Z) (u : gtree) : bool :=
  match blk m (root_id u) with
  | Some d => match B !! d with Some b => counts_areb (counts b) (stats own u) | None => false end
  | None => true
  end.

Definition innerb (m : gmap Z jgTreeNode) (u : gtree) : bool :=
  match kids u with
  | [] => true
  | _ => match m !! root_id u with Some n => nodeType n =? JGRP_NODE_GROUP | None => false end
  end.

Definition data_okb (m : gmap Z jgTreeNode) (B : gmap Z jgArrayBase) (own : Z -> list Z) (t : gtree) : bool :=
  forallb (block_okb m B own) (subtrees t) && forallb (innerb m) (subtrees t) &&
  forallb (fun x => forallb (fun y =>
    (x =? y) || match blk m x, blk m y with Some d, Some e => negb (d =? e) | _, _ => true end) (ids t)) (ids t).

Lemma row_fromb_ok m par l0 xs :
  row_fromb m par (lst NULL l0) xs = true ->
  forall l1 x l2, xs = l1 ++ x :: l2 ->
  exists n, m !! x = Some n /\ parent n = par /\ left_ n = lst NULL (l0 ++ l1) /\ right_ n = hd0 l2.
Proof.
  revert l0. induction xs as [|y xs IH]; intros l0 H l1 x l2 E; [by destruct l1|].
  cbn in H. apply andb_prop in H as [H1 H2]. destruct l1 as [|z l1]; injection E as -> ->.
  - destruct (m !! x) as [n|]; [|done]. exists n. rewrite app_nil_r. bool_prop. done.
  - destruct (IH (l0 ++ [z])) with (l1 := l1) (x := x) (l2 := l2) as (n & Hn); [by rewrite lst_snoc|done|].
    rewrite <- app_assoc in Hn. eauto.
Qed.

Lemma forallb_In {A} (f : A -> bool) (l : list A) x : forallb f l = true -> x ∈ l -> f x = true.
Proof. intros H Hx. rewrite forallb_forall in H. apply H. by apply list_elem_of_In. Qed.

Lemma tree_okb_ok m t : tree_okb m t = true -> tree_ok m t.
Proof.
  unfold tree_okb. intros [[H1 H2]%andb_prop H3]%andb_prop. split.
  - by apply bool_decide_eq_true in H1.
  - destruct (m !! root_id t) as [n|] eqn:E; [|done]. exists n. bool_prop. done.
  - apply Forall_forall. intros u Hu. pose proof (forallb_In _ _ _ H3 Hu) as H. unfold node_okb in H.
    apply andb_prop in H as [[Ha Hb]%andb_prop Hc]. split.
    + intros E. by rewrite E in Ha.
    + destruct (m !! root_id u) as [n|] eqn:E; [|done]. exists n. bool_prop. done.
    + intros l1 x l2 E. by apply (row_fromb_ok m (root_id u) [] (kid_ids u)).
Qed.

Lemma data_okb_ok m B own t : data_okb m B own t = true -> data_ok m B own t.
Proof.
  unfold data_okb. intros [[H1 H2]%andb_prop H3]%andb_prop. split.
  - apply Forall_forall. intros u Hu d Hd. pose proof (forallb_In _ _ _ H1 Hu) as H. unfold block_okb in H.
    rewrite Hd in H. destruct (B !! d) as [b|]; [|done]. exists b. split; [done|].
    apply andb_prop in H as [Ha Hb]. apply bool_decide_eq_true in Ha. split; [done|].
    intros i Hi. assert (Hin : i ∈ seqZ 0 NUM_JGRP_COUNTERS) by (apply elem_of_seqZ; lia).
    pose proof (forallb_In _ _ _ Hb Hin) as Hc. by apply bool_decide_eq_true in Hc.
  - intros u Hu Hk. pose proof (forallb_In _ _ _ H2 Hu) as H. unfold innerb in H.
    destruct (kids u); [done|]. destruct (m !! root_id u) as [n|] eqn:E; [|done].
    exists n. bool_prop. done.
  - intros x y d Hx Hy Hxd Hyd. pose proof (forallb_In _ _ _ (forallb_In _ _ _ H3 Hx) Hy) as H.
    cbn in H. rewrite Hxd, Hyd, Z.eqb_refl, orb_false_r in H. by apply Z.eqb_eq.
Qed.

Lemma jinvb_ok s own t : tree_okb (nodes s) t && data_okb (nodes s) (bases s) own t = true -> jinv s own t.
Proof. intros [H1 H2]%andb_prop. split; [by apply tree_okb_ok|by apply data_okb_ok]. Qed.

(** ** Loops over the tree *)

(** The loop [for (n = p; n; n = treeLexNext(n))] of the clients. *)
Fixpoint lex_walk (fuel : nat) (s : mstate) (p : Z) : option (list Z) :=
  match fuel with
  | O => None
  | S k =>
      if p =? NULL then Some [] else
      nx ← treeLexNext s p; rest ← lex_walk k s nx; Some (p :: rest)
  end.

Lemma lex_walk_from s t l1 l2 fuel :
  tree_ok (nodes s) t -> ids t = l1 ++ l2 -> (length l2 < fuel)%nat ->
  lex_walk fuel s (hd0 l2) = Some l2.
Proof.
  intros Hok. revert l1 l2. induction fuel as [|k IH]; intros l1 l2 E Hf; [lia|]. cbn [lex_walk].
  destruct l2 as [|x l2]; [done|]. change (hd0 (x :: l2)) with x.
  assert (Hx : x <> NULL) by (eapply ids_nonnull; [done|]; rewrite E; set_solver).
  rewrite (proj2 (Z.eqb_neq _ _) Hx), (lex_next s t l1 x l2) by done. cbn [mbind option_bind].
  rewrite (IH (l1 ++ [x])) by (by rewrite <- app_assoc || (simpl in Hf; lia)). done.
Qed.

Lemma permit_up_spec s auth owns C x fuel :
  spine (nodes s) C x -> (S (length C) < fuel)%nat ->
  (forall y, y ∈ x :: ancestors C -> exists n, nodes s !! y = Some n /\ node_owner s auth n = Some (owns y)) ->
  permit_up fuel s auth x = Some (existsb owns (x :: ancestors C)).
Proof.
  revert x fuel. induction C as [|f C IH]; intros x fuel Hsp Hf How; (destruct fuel as [|k]; [lia|]);
    cbn [permit_up]; destruct (spine_parent _ _ _ Hsp) as (Hne & n & Hn & Hp);
    rewrite (proj2 (Z.eqb_neq _ _) Hne), Hn; cbn [mbind option_bind];
    (destruct (How x ltac:(left)) as (n' & Hn' & Hown); rewrite Hn in Hn'; injection Hn' as <-; rewrite Hown);
    cbn [mbind option_bind existsb]; rewrite Hp; destruct (owns x); try done.
  - destruct k; [simpl in Hf; lia|]. done.
  - apply (IH (fr_id f)); [by destruct Hsp as (_ & _ & ?)|simpl in Hf; lia|].
    intros y Hy. apply How. right. exact Hy.
Qed.

(** * Properties *)

(** A root group with a pending job and an array of two jobs, and a running
    job not yet on the tree. *)
Definition sample_node (p c l r t d : Z) : jgTreeNode := JgTreeNode p c l r t (Some "n"%string) d.
Definition sample_base (f : FREE_JGARRAY_FUNC_T) (c : list Z) (arr : Z) : jgArrayBase :=
  JgArrayBase 0 JGRP_ACTIVE 0 0 0 (Some "lsfadmin"%string) 0 f c arr 0.
Definition sample_job (st node type next : Z) : jData :=
  JData 500 "alice" 1 st 0 0 "normal" None 1 node type next 0 0 0 "j" "sleep" NULL 0 0 0 0 0.

Definition sample_state : mstate := MState
  (list_to_map [(1, sample_node 0 2 0 0 JGRP_NODE_GROUP 101); (2, sample_node 1 0 0 3 JGRP_NODE_JOB 201);
                (3, sample_node 1 0 2 0 JGRP_NODE_ARRAY 103); (4, sample_node 0 0 0 0 JGRP_NODE_JOB 204)])
  (list_to_map [(101, sample_base FreeGrpNode [3; 2; 0; 1; 0; 0; 0; 0; 0] NULL);
                (103, sample_base FreeJarray [2; 1; 0; 1; 0; 0; 0; 0; 0] 300)])
  (list_to_map [(201, sample_job JOB_STAT_PEND 2 JGRP_NODE_JOB NULL);
                (204, sample_job JOB_STAT_RUN 4 JGRP_NODE_JOB NULL);
                (205, sample_job JOB_STAT_PEND NULL JGRP_NODE_JOB NULL);
                (300, sample_job JOB_STAT_PEND 3 JGRP_NODE_ARRAY 301);
                (301, sample_job JOB_STAT_RUN 3 JGRP_NODE_JOB 302);
                (302, sample_job JOB_STAT_PEND 3 JGRP_NODE_JOB NULL)])
  1 2 [] (LState [] 1000).

Definition sample_own (x : Z) : list Z :=
  if x =? 2 then [JOB_STAT_PEND] else if x =? 3 then [JOB_STAT_RUN; JOB_STAT_PEND]
  else if x =? 4 then [JOB_STAT_RUN] else [].

Definition sample_tree : gtree := Br 1 [Br 2 []; Br 3 []].

Lemma sample_jinv : jinv sample_state sample_own sample_tree.
Proof. apply jinvb_ok. vm_compute. reflexivity. Qed.

(** [treeInsertChild] appends a separate subtree to the children of a group:
    the links represent the enlarged tree and every counter block, the
    ancestors' included, again agrees with the jobs below its node.  (C2) *)
Theorem treeInsertChild_correct s own C par ts K :
  jinv s own (plug C (Br par ts)) -> jinv s own K -> apart (nodes s) K (plug C (Br par ts)) ->
  is_group (nodes s) par -> root_kind s own K ->
  exists s', treeInsertChild s par (root_id K) = Some (par, s') /\
    jinv s' own (plug C (Br par (ts ++ [K]))) /\ jobs s' = jobs s /\ depEntry s' = depEntry s.
Proof.
  intros HT HK Hap Hg Hk.
  destruct (insert_child s own C par ts K HT HK Hap Hg Hk) as (s' & H1 & H2 & _ & H3 & _ & H4). eauto.
Qed.

Lemma treeInsertChild_correct_witness :
  exists s', treeInsertChild sample_state 1 4 = Some (1, s') /\
    jinv s' sample_own (Br 1 [Br 2 []; Br 3 []; Br 4 []]).
Proof.
  destruct (treeInsertChild_correct sample_state sample_own [] 1 [Br 2 []; Br 3 []] (Br 4 []))
    as (s' & H & Hj & _).
  - exact sample_jinv.
  - apply jinvb_ok. vm_compute. reflexivity.
  - split; [intros x ->%list_elem_of_singleton; apply (bool_decide_unpack _); vm_compute; exact I|].
    intros x y d Hx%list_elem_of_singleton. subst x. vm_compute. discriminate.
  - eexists. split; vm_compute; reflexivity.
  - eexists. split; [vm_compute; reflexivity|]. left. split; [reflexivity|]. split; [reflexivity|].
    eexists. split; [vm_compute; reflexivity|]. split; reflexivity.
  - exists s'. split; [exact H|exact Hj].
Defined.

(** [treeClip] takes a subtree off its parent: the rest and the subtree are
    both well formed with counters that agree with their jobs, the neighbours
    are joined, and the observer of the dependency scan, if it stood inside the
    subtree, moves to the node that follows it in the lexical order.  (C1) *)
Theorem treeClip_correct s own C f K :
  jinv s own (plug (f :: C) K) -> root_kind s own K ->
  depEntry s = NULL \/ depEntry s ∈ ids (plug (f :: C) K) ->
  exists s', treeClip s (root_id K) = Some (root_id K, s') /\
    jinv s' own (plug C (Br (fr_id f) (fr_l f ++ fr_r f))) /\ jinv s' own K /\ jobs s' = jobs s /\
    depEntry s' = if decide (depEntry s ∈ ids K) then hd0 (after (f :: C)) else depEntry s.
Proof.
  intros HT Hk Hd.
  destruct (clip_subtree s own C f K HT Hk Hd) as (s' & H1 & H2 & H3 & _ & H4 & H5). eauto 10.
Qed.

Lemma treeClip_correct_witness :
  exists s', treeClip sample_state 2 = Some (2, s') /\ jinv s' sample_own (Br 1 [Br 3 []]) /\
    depEntry s' = 3.
Proof.
  destruct (treeClip_correct sample_state sample_own [] (Frame 1 [] [Br 3 []]) (Br 2 []))
    as (s' & H & Hj & _ & _ & Hd).
  - exact sample_jinv.
  - eexists. split; [vm_compute; reflexivity|]. left. split; [reflexivity|]. split; [reflexivity|].
    eexists. split; [vm_compute; reflexivity|]. split; reflexivity.
  - right. apply (bool_decide_unpack _). vm_compute. exact I.
  - exists s'. split; [exact H|]. split; [exact Hj|]. rewrite Hd. reflexivity.
Defined.

(** [updJgrpCountByJStatus] keeps the counters in agreement when a job of a
    node changes its status, appears ([oldStatus] null) or goes ([newStatus]
    null), at every group and array up to the root; it never runs out of the
    counter arrays, whatever the statuses are.  (C3) *)
Theorem updJgrpCountByJStatus_correct s own t job j old new others :
  jinv s own t -> jobs s !! job = Some j -> jgrpNode j ∈ ids t ->
  own (jgrpNode j) ≡ₚ present old ++ others ->
  exists s', updJgrpCountByJStatus s job old new = Some s' /\
    jinv s' (own_at own (jgrpNode j) (present new ++ others)) t /\ nodes s' = nodes s /\ jobs s' = jobs s.
Proof.
  intros [Hok Hd] Hj Hx Hown. unfold updJgrpCountByJStatus. rewrite Hj. cbn [mbind option_bind].
  destruct (count_change s t own (jgrpNode j) (present new ++ others) old new Hok Hd Hx) as (B' & HB & Hd' & _).
  - intros i. rewrite (tally_perm i _ _ Hown), !tally_app, !tally_present. lia.
  - exists (with_bases s B'). split; [exact HB|]. split; [|done]. by split.
Qed.

Lemma updJgrpCountByJStatus_correct_witness :
  exists s', updJgrpCountByJStatus sample_state 302 JOB_STAT_PEND JOB_STAT_RUN = Some s' /\
    jinv s' (own_at sample_own 3 [JOB_STAT_RUN; JOB_STAT_RUN]) sample_tree.
Proof.
  destruct (updJgrpCountByJStatus_correct sample_state sample_own sample_tree 302
    (sample_job JOB_STAT_PEND 3 JGRP_NODE_JOB NULL) JOB_STAT_PEND JOB_STAT_RUN [JOB_STAT_RUN])
    as (s' & H & Hj & _).
  - exact sample_jinv.
  - vm_compute. reflexivity.
  - apply (bool_decide_unpack _). vm_compute. exact I.
  - apply Permutation_swap.
  - exists s'. split; [exact H|exact Hj].
Defined.

(** Following [treeLexNext] from the root visits every node of the tree
    exactly once, parents before children and siblings from left to right, and
    then ends.  *)
Theorem treeLexNext_correct s t :
  tree_ok (nodes s) t -> lex_walk (node_fuel s) s (root_id t) = Some (ids t) /\ NoDup (ids t).
Proof.
  intros Hok. split; [|apply Hok].
  assert (Hhd : root_id t = hd0 (ids t)) by (by destruct t). rewrite Hhd.
  apply (lex_walk_from s t []); [done|done|]. unfold node_fuel. apply Nat.lt_succ_r, NoDup_size; [apply Hok|].
  intros x Hx. by eapply ids_dom.
Qed.

Lemma treeLexNext_correct_witness :
  lex_walk (node_fuel sample_state) sample_state 1 = Some [1; 2; 3].
Proof. apply (treeLexNext_correct sample_state sample_tree). apply tree_okb_ok. vm_compute. reflexivity. Defined.

(** The user to whom a node belongs. *)
Inductive owned_by (s : mstate) (y : Z) (u : string) : Prop :=
  | owned_group n b : nodes s !! y = Some n -> nodeType n = JGRP_NODE_GROUP \/ nodeType n = JGRP_NODE_ARRAY ->
      bases s !! ndInfo n = Some b -> userName b = Some u -> owned_by s y u
  | owned_job n j : nodes s !! y = Some n -> nodeType n = JGRP_NODE_JOB ->
      jobs s !! ndInfo n = Some j -> jUserName j = u -> owned_by s y u.

Lemma node_owner_owned s auth y u : owned_by s y u ->
  exists n, nodes s !! y = Some n /\ node_owner s auth n = Some (bool_decide (lsfUserName auth = u)).
Proof.
  unfold node_owner, isSameUser. intros [n b Hn Ht Hb Hu|n j Hn Ht Hj Hu]; exists n; (split; [done|]).
  - replace (_ || _) with true by (destruct Ht as [->| ->]; done). by rewrite Hb; cbn; rewrite Hu.
  - rewrite Ht. cbn. rewrite Hj. cbn. rewrite Hu. by destruct (has (options2 j) SUB2_HOST_NT), (has (options2 j) SUB2_HOST_UX).
Qed.

(** A user may operate on a node exactly during replay, as root or as a
    manager, or when the node or one of the nodes above it belongs to the user.  (C37) *)
Theorem jgrpPermitOk_correct isAuthManager replay s auth C t :
  tree_ok (nodes s) (plug C t) -> (forall y, y ∈ root_id t :: ancestors C -> exists u, owned_by s y u) ->
  exists ok, jgrpPermitOk isAuthManager replay s auth (root_id t) = Some ok /\
    (ok = true <-> replay = true \/ uid auth = 0 \/ isAuthManager auth = true \/
                   exists y, y ∈ root_id t :: ancestors C /\ owned_by s y (lsfUserName auth)).
Proof.
  intros Hok How. unfold jgrpPermitOk.
  rewrite (proj2 (Z.eqb_neq _ _)) by exact (nok_id _ _ (focus_node _ _ _ Hok)).
  destruct replay; [exists true; by split; [|tauto]|]. destruct (Z.eqb_spec (uid auth) 0); [exists true; by split; [|tauto]|].
  destruct (isAuthManager auth); [exists true; by split; [|tauto]|]. cbn [orb]. pose proof (path_fuel _ _ _ Hok).
  set (owns := fun y => match nodes s !! y with Some n => default false (node_owner s auth n) | None => false end).
  assert (Hown : forall y u, owned_by s y u -> owns y = bool_decide (lsfUserName auth = u)).
  { intros y u Hu. destruct (node_owner_owned s auth y u Hu) as (nd & Hn & E). unfold owns. by rewrite Hn, E. }
  exists (existsb owns (root_id t :: ancestors C)). split.
  - apply permit_up_spec; [by apply tree_spine|unfold node_fuel; lia|]. intros y Hy. destruct (How y Hy) as [u Hu].
    rewrite (Hown y u Hu). by apply node_owner_owned.
  - rewrite existsb_exists. split.
    + intros (y & Hy & E). apply list_elem_of_In in Hy. do 3 right. exists y. split; [done|]. destruct (How y Hy) as [u Hu].
      rewrite (Hown y u Hu) in E. apply bool_decide_eq_true in E. by rewrite E.
    + intros [?|[?|[?|(y & Hy & Hu)]]]; [done..|]. exists y. split; [by apply list_elem_of_In|]. rewrite (Hown y _ Hu). by apply bool_decide_eq_true.
Qed.

Lemma jgrpPermitOk_correct_witness :
  jgrpPermitOk (fun _ => false) false sample_state (LsfAuth 7 "lsfadmin") 2 = Some true /\
  jgrpPermitOk (fun _ => false) false sample_state (LsfAuth 7 "bob") 2 = Some false.
Proof.
  assert (Hok : tree_ok (nodes sample_state) sample_tree) by (apply tree_okb_ok; vm_compute; reflexivity).
  assert (How : forall y, y ∈ [2; 1] -> exists u, owned_by sample_state y u).
  { intros y [->|[->|E%elem_of_nil]%elem_of_cons]%elem_of_cons; [| |done].
    - eexists. eapply owned_job; vm_compute; reflexivity.
    - eexists. eapply owned_group; [vm_compute; reflexivity|left; reflexivity|vm_compute; reflexivity|reflexivity]. }
  split.
  - destruct (jgrpPermitOk_correct (fun _ => false) false sample_state (LsfAuth 7 "lsfadmin") [Frame 1 [] [Br 3 []]] (Br 2 []) Hok How) as (ok & E & H).
    cbn [root_id] in E. rewrite E. f_equal. apply H. do 3 right. exists 1. split; [set_solver|]. eapply owned_group; [vm_compute; reflexivity|left; reflexivity|vm_compute; reflexivity|reflexivity].
  - destruct (jgrpPermitOk_correct (fun _ => false) false sample_state (LsfAuth 7 "bob") [Frame 1 [] [Br 3 []]] (Br 2 []) Hok How) as (ok & E & _).
    cbn [root_id] in E. rewrite E. vm_compute in E. symmetry. exact E.
Defined.

(** *** What links and counters leave alone *)

(** Links and counters change, but nodes keep their type, name and data, and the
    data keep everything but the counters. *)
Definition tag (n : jgTreeNode) : Z * option string * Z := (nodeType n, name n, ndInfo n).
Definition keeps (s s' : mstate) : Prop :=
  (forall x, tag <$> nodes s' !! x = tag <$> nodes s !! x) /\
  forall e, set_counts [] <$> bases s' !! e = set_counts [] <$> bases s !! e.

Lemma keeps_refl s : keeps s s.
Proof. done. Qed.
Lemma keeps_trans s1 s2 s3 : keeps s1 s2 -> keeps s2 s3 -> keeps s1 s3.
Proof. intros [H1 H2] [H3 H4]. split; intros x; [by rewrite H3|by rewrite H4]. Qed.

Lemma keeps_node s p f s' : (forall n, tag (f n) = tag n) -> upd_node s p f = Some s' -> keeps s s'.
Proof.
  intros Hf. unfold upd_node. destruct (nodes s !! p) as [n|] eqn:E; [|done]. intros [= <-]. split; [|done]. intros x. cbn.
  destruct (decide (x = p)) as [->|Hne]; [rewrite lookup_insert_eq, E; cbn; by rewrite Hf|by rewrite lookup_insert_ne].
Qed.
Lemma keeps_job s p f s' : upd_job s p f = Some s' -> keeps s s'.
Proof. unfold upd_job. destruct (jobs s !! p); [|done]. by intros [= <-]. Qed.
Lemma keeps_base s e b c : bases s !! e = Some b -> keeps s (with_bases s (<[e := set_counts c b]> (bases s))).
Proof.
  intros E. split; [done|]. intros x. cbn. destruct (decide (x = e)) as [->|Hne]; [by rewrite lookup_insert_eq, E|by rewrite lookup_insert_ne].
Qed.

Lemma count_up_keeps fuel s g o n s' : count_up fuel s g o n = Some s' -> keeps s s'.
Proof.
  revert s g. induction fuel as [|k IH]; intros s g; cbn [count_up]; [done|]. destruct (g =? NULL); [by intros [= <-]|].
  destruct (nodes s !! g) as [nd|]; [|done]. cbn [mbind option_bind]. unfold count_node. destruct (_ || _); [|cbn; apply IH].
  destruct (bases s !! ndInfo nd) as [b|] eqn:E; [|done]. cbn [mbind option_bind]. destruct (count_status o n (counts b)); [|done]. cbn.
  intros H%IH. eapply keeps_trans; [by apply keeps_base|exact H].
Qed.
Lemma count_status_keeps s p o n s' : updJgrpCountByJStatus s p o n = Some s' -> keeps s s'.
Proof. unfold updJgrpCountByJStatus. destruct (jobs s !! p); [|done]. apply count_up_keeps. Qed.
Lemma op_up_keeps fuel s g f p s' : op_up fuel s g f p = Some s' -> keeps s s'.
Proof.
  revert s p. induction fuel as [|k IH]; intros s p; cbn [op_up]; [done|]. destruct (p =? NULL); [by intros [= <-]|].
  destruct (nodes s !! p) as [nd|]; [|done]. cbn [mbind option_bind]. destruct (_ || _); [|cbn; apply IH].
  destruct (bases s !! ndInfo g) as [b|]; [|done]. cbn [mbind option_bind]. destruct (bases s !! ndInfo nd) as [pb|] eqn:E; [|done]. cbn [mbind option_bind].
  destruct (add_counts _ _ _); [|done]. cbn. intros H%IH. eapply keeps_trans; [by apply keeps_base|exact H].
Qed.

Lemma put_elements_keeps fuel s a p s' : put_elements fuel s a p = Some s' -> keeps s s'.
Proof.
  revert s p. induction fuel as [|k IH]; intros s p; cbn [put_elements]; [done|]. destruct (p =? NULL); [by intros [= <-]|].
  destruct (upd_job s p _) as [s1|] eqn:E1; [|done]. cbn [mbind option_bind]. destruct (jobs s1 !! p) as [q|]; [|done]. cbn [mbind option_bind].
  destruct (updJgrpCountByJStatus _ _ _ _) as [s2|] eqn:E2; [|done]. cbn [mbind option_bind]. intros H%IH.
  eapply keeps_trans; [by eapply keeps_job|]. eapply keeps_trans; [by eapply count_status_keeps|done].
Qed.

Lemma adopt_keeps fuel s par p s' : adopt fuel s par p = Some s' -> keeps s s'.
Proof.
  revert s p. induction fuel as [|k IH]; intros s p; cbn [adopt]; [done|]. destruct (upd_node s p _) as [s1|] eqn:E1; [|done]. cbn [mbind option_bind].
  destruct (nodes s1 !! p) as [n|]; [|done]. cbn [mbind option_bind]. apply keeps_node in E1; [|done].
  destruct (right_ n =? NULL); [by intros [= <-]|]. intros H%IH. by eapply keeps_trans.
Qed.
Lemma link_keeps s a b r s' : treeLinkSibling s a b = Some (r, s') -> keeps s s'.
Proof.
  unfold treeLinkSibling. destruct (a =? NULL); [by intros [= _ <-]|]. destruct (b =? NULL); [by intros [= _ <-]|].
  destruct (last_sibling _ _ _) as [l|]; [|done]. cbn [mbind option_bind]. destruct (upd_node s l _) as [s1|] eqn:E1; [|done]. cbn [mbind option_bind].
  destruct (upd_node s1 b _) as [s2|] eqn:E2; [|done]. cbn. intros [= _ <-]. eapply keeps_trans; (eapply keeps_node; [|eassumption]; done).
Qed.
Lemma count_linked_keeps s p s' : count_linked s p = Some s' -> keeps s s'.
Proof.
  unfold count_linked, updJgrpCountByOp. destruct (nodes s !! p) as [n|]; [|done]. cbn [mbind option_bind]. destruct (nodeType n =? JGRP_NODE_JOB).
  - destruct (jobs s !! ndInfo n); [|done]. apply count_status_keeps.
  - apply op_up_keeps.
Qed.

Lemma insert_keeps s par kid r s' : treeInsertChild s par kid = Some (r, s') -> keeps s s'.
Proof.
  unfold treeInsertChild. destruct (par =? NULL); [by intros [= _ <-]|]. destruct (kid =? NULL); [by intros [= _ <-]|].
  destruct (nodes s !! par) as [p|]; [|done]. cbn [mbind option_bind].
  destruct (if negb (child p =? NULL) then _ else _) as [s1|] eqn:E1; [|done]. cbn [mbind option_bind].
  assert (H1 : keeps s s1).
  { destruct (negb (child p =? NULL)); [|eapply keeps_node; [|exact E1]; done]. destruct (treeLinkSibling _ _ _) as [[c s0]|] eqn:E0; [|done]. cbn in E1.
    eapply keeps_trans; [by eapply link_keeps|eapply keeps_node; [|exact E1]; done]. }
  destruct (adopt _ _ _ _) as [s2|] eqn:E2; [|done]. cbn [mbind option_bind]. destruct (count_linked s2 kid) as [s3|] eqn:E3; [|done]. cbn.
  intros [= _ <-]. eapply keeps_trans; [exact H1|]. eapply keeps_trans; [by eapply adopt_keeps|by eapply count_linked_keeps].
Qed.

(** The node [a] stands for the job, and for an array its data lead to it. *)
Definition stands_for (s : mstate) (a d jp : Z) (j : jData) : Prop :=
  exists n, nodes s !! a = Some n /\ nodeType n = jNodeType j /\ name n = job_title j /\
    if jNodeType j =? JGRP_NODE_JOB then ndInfo n = jp
    else ndInfo n = d /\ exists cs, bases s !! d = Some (array_data jp j cs).

Lemma put_stands s s4 s' a d jp j : put_ready s s4 a d jp j -> jNodeType j = JGRP_NODE_JOB \/ jNodeType j = JGRP_NODE_ARRAY -> keeps s4 s' ->
  stands_for s' a d jp j.
Proof.
  intros (_ & _ & _ & Hr) Ht [Hn Hb]. unfold stands_for. specialize (Hn a). destruct Ht as [Ht|Ht]; rewrite Ht in Hr |- *; cbn in Hr |- *.
  - destruct Hr as [E _]. rewrite E, lookup_insert_eq in Hn. destruct (nodes s' !! a) as [n|]; [|done]. injection Hn as H1 H2 H3. by exists n.
  - destruct Hr as (E & b & Hb4 & _ & ->). rewrite E, lookup_insert_eq in Hn. destruct (nodes s' !! a) as [n|]; [|done]. injection Hn as H1 H2 H3. exists n.
    split; [done|]. split; [done|]. split; [done|]. split; [done|]. specialize (Hb d). rewrite Hb4, lookup_insert_eq in Hb.
    destruct (bases s' !! d) as [[]|]; [|done]. cbn in Hb. injection Hb as -> -> -> -> -> -> -> -> -> ->. by eexists.
Qed.

(** [putOntoTree] of a job or of an array with the elements [js] makes a new
    last child of the root group, ties the job, its node and the elements to
    each other, counts the job or the elements at the array and at the root,
    takes a reference on the job and marks it runnable when it has no
    dependency condition.  (C4) *)
Theorem putOntoTree_correct s own ts a d jp j js :
  jinv s own (Br (groupRoot s) ts) -> is_group (nodes s) (groupRoot s) ->
  jobs s !! jp = Some j -> jp <> NULL -> chained (jobs s) (nextJob j) js -> NoDup (jp :: js) ->
  jNodeType j = JGRP_NODE_JOB /\ js = [] \/ jNodeType j = JGRP_NODE_ARRAY ->
  a <> NULL -> nodes s !! a = None -> bases s !! d = None ->
  exists s' j', putOntoTree s a d jp = Some s' /\
    jinv s' (own_at own a (if jNodeType j =? JGRP_NODE_JOB then present (jStatus j)
                           else statuses (jobs s) js)) (Br (groupRoot s) (ts ++ [Br a []])) /\
    stands_for s' a d jp j /\
    jobs s' !! jp = Some j' /\ jgrpNode j' = a /\ jNumRef j' = i32 (jNumRef j + 1) /\ runCount j' = 1 /\
    jStatus j' = jStatus j /\ newReason j' = (if newReason j =? 0 then PEND_JOB_NEW else newReason j) /\ (dptRoot j = NULL -> has (jFlags j') JFLAG_READY2 = true) /\
    forall q, q ∈ js -> jobs s' !! q = set_jgrpNode a <$> jobs s !! q.
Proof.
  intros HT Hg Hj Hjp Hch [Hjn Hnd]%NoDup_cons Ht' Ha Hna Hnb.
  assert (Ht : jNodeType j = JGRP_NODE_JOB \/ jNodeType j = JGRP_NODE_ARRAY) by tauto.
  destruct (put_prepare s a d jp j Hj Hjp Ht) as (s4 & Hready & ->). pose proof Hready as (Hroot & Hdep & Hjobs & Hrest0).
  set (nm := job_title j) in Hrest0.
  assert (Hrest : if jNodeType j =? JGRP_NODE_JOB
    then nodes s4 = <[a := JgTreeNode NULL NULL NULL NULL JGRP_NODE_JOB nm jp]> (nodes s) /\ bases s4 = bases s
    else nodes s4 = <[a := JgTreeNode NULL NULL NULL NULL JGRP_NODE_ARRAY nm d]> (nodes s) /\
         exists b, bases s4 = <[d := b]> (bases s) /\ counts b = zero_counts).
  { destruct (jNodeType j =? JGRP_NODE_JOB); [done|]. destruct Hrest0 as (? & b & ? & ? & _). split; [done|]. by exists b. }
  set (j1 := set_jgrpNode a (set_jNumRef (i32 (jNumRef j + 1)) j)) in *.
  assert (Hsame : forall q, q ∈ js -> jobs s4 !! q = jobs s !! q).
  { intros q Hq. rewrite Hjobs. apply lookup_insert_ne. set_solver. }
  pose proof (chained_ext _ _ _ _ Hsame Hch) as Hch4.
  assert (Hfuel : (length js < job_fuel s4)%nat).
  { unfold job_fuel. apply Nat.lt_succ_r, NoDup_size; [done|]. intros q. by apply (chained_dom _ _ _ _ Hch4). }
  destruct (put_elements_spec _ s4 _ a (nextJob j) js Hfuel (put_new_node s s4 own a d jp j nm Ht Hrest Ha)
    Hch4 Hnd) as (s5 & Hput & Hn5 & Hr5 & _ & Hi5 & Hb5 & Htie).
  pose proof (put_elements_keeps _ _ _ _ _ Hput) as Hk5. rewrite Hput.
  rewrite (statuses_ext _ _ _ Hsame) in Hi5. cbn [mbind option_bind]. rewrite Hr5, Hroot.
  set (own' := own_at own a _).
  destruct (put_frame s s4 own a d jp j nm Ht Hrest s5 own' _ HT Hna Hnb Hn5 Hb5) as (Hnodes & HT5 & Hap).
  { intros x Hx. unfold own', own_at. by rewrite (proj2 (Z.eqb_neq x a)). }
  assert (Hjp5 : jobs s5 !! jp = Some j1) by (by rewrite (Htie jp), decide_False, Hjobs, lookup_insert_eq by done).
  destruct (insert_child s5 own' [] (groupRoot s) ts (Br a [])) as (s6 & H6 & Hj6 & _ & Hjobs6 & _ & _).
  - exact HT5.
  - destruct Hi5 as [H1 H2]. split; [done|]. eapply data_ok_ext; [..|exact H2]; try done.
    intros x ->%list_elem_of_singleton. unfold own', own_at. rewrite !Z.eqb_refl.
    destruct Ht' as [[-> ->]| ->]; cbn; [by rewrite app_nil_r|done].
  - exact Hap.
  - destruct Hg as (n & Hn & Hgt). exists n. split; [|done]. rewrite Hnodes; [done|by left].
  - apply (put_kind s s4 a d jp j nm Ht Hrest); [done|done|]. intros E. unfold own', own_at. by rewrite Z.eqb_refl, E.
  - cbn [root_id] in H6. pose proof (insert_keeps _ _ _ _ _ H6) as Hk6. rewrite H6. cbn [mbind option_bind]. rewrite <- Hjobs6 in Hjp5.
    destruct (put_finish_spec s6 jp j1 Hjp5) as (s' & Hf & Hn' & Hb' & Hj' & Hq').
    eexists s', _. split; [exact Hf|]. split; [unfold jinv; by rewrite Hn', Hb'|].
    split; [apply (put_stands s s4); [done|done|]; eapply keeps_trans; [exact Hk5|]; destruct Hk6 as [Hk6 Hk6']; split; [by rewrite Hn'|by rewrite Hb']|].
    split; [exact Hj'|]. cbn. do 5 (split; [done|]). split; [intros ->; apply has_ready2|].
    intros q Hq. rewrite Hq' by set_solver. by rewrite Hjobs6, (Htie q), decide_True, Hsame.
Qed.

(** An array of two elements, with the numbers 400, 401 and 402. *)
Definition array_state : mstate := with_jobs sample_state
  (<[400 := sample_job JOB_STAT_PEND NULL JGRP_NODE_ARRAY 401]>
   (<[401 := sample_job JOB_STAT_PEND NULL JGRP_NODE_JOB 402]>
    (<[402 := sample_job JOB_STAT_PSUSP NULL JGRP_NODE_JOB NULL]> (jobs sample_state)))).

Lemma putOntoTree_correct_witness :
  exists s' j', putOntoTree array_state 5 105 400 = Some s' /\
    jinv s' (own_at sample_own 5 [JOB_STAT_PEND; JOB_STAT_PSUSP]) (Br 1 [Br 2 []; Br 3 []; Br 5 []]) /\
    stands_for s' 5 105 400 (sample_job JOB_STAT_PEND NULL JGRP_NODE_ARRAY 401) /\ jobs s' !! 400 = Some j' /\ jgrpNode j' = 5.
Proof.
  destruct (putOntoTree_correct array_state sample_own [Br 2 []; Br 3 []] 5 105 400
    (sample_job JOB_STAT_PEND NULL JGRP_NODE_ARRAY 401) [401; 402]) as (s' & j' & H & Hi & Hs & Hj & Hn & _).
  - exact sample_jinv.
  - eexists. split; vm_compute; reflexivity.
  - vm_compute. reflexivity.
  - discriminate.
  - split; [reflexivity|]. split; [discriminate|]. eexists. split; [vm_compute; reflexivity|].
    split; [reflexivity|]. split; [discriminate|]. eexists. split; [vm_compute; reflexivity|]. reflexivity.
  - apply (bool_decide_unpack _). vm_compute. exact I.
  - right. reflexivity.
  - discriminate.
  - vm_compute. reflexivity.
  - vm_compute. reflexivity.
  - exists s', j'. split; [exact H|]. split; [exact Hi|]. split; [exact Hs|]. split; [exact Hj|exact Hn].
Defined.
