(* ===== verification/JgrpPath.v ===== *)
(** * Group paths, [lsbatch/daemons/mbd.jgrp.c]

    The functions that take a group specification apart ([parentGroup],
    [parentOfJob], [myName]) and those that build the path of a node from the
    names of its ancestors.  A C string is the list of its characters; the
    static result buffers hold [MAXPATHLEN] bytes, and [lsberrno] is the second
    component of the results.  The path builders write with [sprintf] and
    [strcpy] into such a buffer without a length check; a path that does not
    fit is [None]. *)

From Stdlib Require Import Ascii.
From S2P Require Import Prelude Lsb ListSet Jgrp JgrpTree JgrpCount JgrpOps.

Abbreviation cstr := (list ascii).
Definition slash : ascii := "/"%char.
Definition MAXPATHLEN : Z := 4096.
Definition LSBE_JGRP_NULL : Z := 92.
Definition LSBE_JGRP_BAD : Z := 93.

Definition is_slash (c : ascii) : bool := Ascii.eqb c slash.

(** [for (; i >= 0 && test(buf[i]); i--)], counted as [i + 1]. *)
Fixpoint scan_back (test : ascii -> bool) (buf : cstr) (n : nat) : nat :=
  match n with
  | O => O
  | S k =>
      match buf !! k with
      | Some c => if test c then scan_back test buf k else n
      | None => n
      end
  end.

Definition too_long (spec : cstr) : bool := MAXPATHLEN <=? Z.of_nat (length spec).

(** [parentGroup]: the string returned and [lsberrno]. *)
Definition parentGroup (err : Z) (group_spec : option cstr) : cstr * Z :=
  match group_spec with
  | None => ([], LSBE_JGRP_BAD)
  | Some spec =>
      if too_long spec then ([], LSBE_NO_MEM) else
      let i := scan_back is_slash spec (length spec) in
      if (i =? 0)%nat then ([], LSBE_JGRP_NULL) else
      (take (scan_back (fun c => negb (is_slash c)) spec i) spec, err)
  end.

(** [parentOfJob] returns [NULL] on errors. *)
Definition parentOfJob (err : Z) (group_spec : option cstr) : option cstr * Z :=
  match group_spec with
  | None => (None, LSBE_JGRP_NULL)
  | Some spec =>
      if too_long spec then (None, LSBE_NO_MEM) else
      (Some (take (scan_back (fun c => negb (is_slash c)) spec (length spec)) spec), err)
  end.

Definition myName (err : Z) (group_spec : option cstr) : cstr * Z :=
  match group_spec with
  | None => ([], LSBE_JGRP_BAD)
  | Some spec =>
      if too_long spec then ([], LSBE_NO_MEM) else
      let i := scan_back is_slash spec (length spec) in
      let my := take i spec in
      if (i =? 0)%nat then (my, LSBE_JGRP_BAD) else
      (drop (scan_back (fun c => negb (is_slash c)) my i) my, err)
  end.

(** *** Paths of nodes *)

(** One round of the loop of [jgrpNodeParentPath]. *)
Definition path_step (nm full : cstr) (first : bool) : cstr * bool :=
  if bool_decide (nm = [slash]) then (slash :: full, first)
  else if first then (nm, false) else (nm ++ slash :: full, false).

Fixpoint path_up (fuel : nat) (s : mstate) (jgrpPtr : Z) (full : cstr) (first : bool) : option cstr :=
  match fuel with
  | O => None
  | S k =>
      if jgrpPtr =? NULL then Some full else
      n ← nodes s !! jgrpPtr;
      nm ← name n;
      let '(full, first) := path_step (String.list_ascii_of_string nm) full first in
      if too_long full then None else path_up k s (parent n) full first
  end.

(** [jgrpNodeParentPath]: [None] of the pair is the [NULL] result. *)
Definition jgrpNodeParentPath (s : mstate) (err jgrpNode : Z) : option (option cstr * Z) :=
  if jgrpNode =? NULL then Some (None, LSBE_JGRP_NULL) else
  n ← nodes s !! jgrpNode;
  full ← path_up (node_fuel s) s (parent n) [] true;
  Some (Some full, err).

(** [jgrpNodeParentPath_r] fills the caller's buffer and returns a code. *)
Definition jgrpNodeParentPath_r (s : mstate) (err jgrpNode : Z) : option (Z * option cstr * Z) :=
  if jgrpNode =? NULL then Some (-1, None, LSBE_JGRP_NULL) else
  n ← nodes s !! jgrpNode;
  full ← path_up (node_fuel s) s (parent n) [] true;
  Some (0, Some full, err).

Definition fullJobName (s : mstate) (jp : jData) : option cstr :=
  if jgrpNode jp =? NULL then Some [] else
  n ← nodes s !! jgrpNode jp; nm ← name n;
  let l := String.list_ascii_of_string nm in if too_long l then None else Some l.

(** [fullJobName_r] writes the same name into the caller's buffer of [cap]
    bytes, or nothing when there is no job: [Some None]. *)
Definition fullJobName_r (s : mstate) (jp : option jData) (cap : Z) : option (option cstr) :=
  match jp with
  | None => Some None
  | Some jp =>
      if jgrpNode jp =? NULL then Some (Some []) else
      n ← nodes s !! jgrpNode jp; nm ← name n;
      let l := String.list_ascii_of_string nm in
      if cap <=? Z.of_nat (length l) then None else Some (Some l)
  end.

(** * Lemmas *)

Lemma scan_back_le test buf n : (scan_back test buf n <= n)%nat.
Proof. induction n as [|n IH]; cbn; [lia|]. destruct (buf !! n); [case_match; lia|lia]. Qed.

(** What the scan skips passes the test; it stops behind a character that
    fails it, or at the start. *)
Lemma scan_back_spec test buf n :
  (n <= length buf)%nat ->
  Forall (fun c => test c = true) (drop (scan_back test buf n) (take n buf)) /\
  (scan_back test buf n = 0%nat \/
   exists c, buf !! (scan_back test buf n - 1)%nat = Some c /\ test c = false).
Proof.
  induction n as [|n IH]; intros Hn; cbn [scan_back].
  - split; [by rewrite take_0, drop_nil|by left].
  - destruct (lookup_lt_is_Some_2 buf n) as [c Hc]; [lia|]. rewrite Hc.
    destruct (test c) eqn:T.
    + destruct IH as [H1 H2]; [lia|]. split; [|done].
      rewrite (take_S_r _ _ _ Hc), drop_app_le.
      * apply Forall_app. split; [done|]. by constructor.
      * rewrite length_take. pose proof (scan_back_le test buf n). lia.
    + split; [|right; exists c; by rewrite Nat.sub_succ, Nat.sub_0_r].
      rewrite drop_ge; [constructor|]. rewrite length_take. lia.
Qed.

(** A prefix that is empty or ends behind a character that fails the test. *)
Definition ends_in (test : ascii -> bool) (p : cstr) : Prop :=
  p = [] \/ exists q c, p = q ++ [c] /\ test c = false.

Lemma take_ends_in test buf n :
  (n <= length buf)%nat -> ends_in test (take (scan_back test buf n) buf).
Proof.
  intros Hn. pose proof (scan_back_le test buf n).
  destruct (scan_back_spec test buf n Hn) as [_ [->|(c & Hc & T)]]; [by left|].
  destruct (scan_back test buf n) as [|k]; [by left|]. right.
  rewrite Nat.sub_succ, Nat.sub_0_r in Hc. exists (take k buf), c. split; [by apply take_S_r|done].
Qed.

(** Cutting a string at two positions. *)
Lemma cut2 (l : cstr) i k :
  (i <= k)%nat -> l = take i l ++ drop i (take k l) ++ drop k l.
Proof.
  intros Hik. rewrite app_assoc. rewrite <- (take_drop k l) at 1. f_equal.
  rewrite <- (take_drop i (take k l)) at 1. f_equal. by rewrite take_take, Nat.min_l.
Qed.

Lemma forallb_scan spec i :
  Forall (fun c => is_slash c = true) (drop i spec) ->
  (i = 0%nat \/ exists c, spec !! (i - 1)%nat = Some c /\ is_slash c = false) ->
  forallb is_slash spec = (i =? 0)%nat.
Proof.
  intros Hs [->|(c & Hc & T)].
  - rewrite drop_0 in Hs. apply forallb_forall. rewrite Forall_forall in Hs.
    intros x Hx. apply Hs. by apply list_elem_of_In.
  - destruct i as [|i].
    + destruct spec as [|c' spec]; [done|]. cbn in Hc. injection Hc as ->. cbn. rewrite T.
      rewrite drop_0 in Hs. apply Forall_cons in Hs as [Hs _]. congruence.
    + rewrite Nat.sub_succ, Nat.sub_0_r in Hc. cbn.
      destruct (forallb is_slash spec) eqn:F; [|done]. rewrite forallb_forall in F.
      rewrite F in T; [done|]. apply list_elem_of_In. by eapply list_elem_of_lookup_2.
Qed.

Lemma scan_back_take test buf n :
  (n <= length buf)%nat -> scan_back test (take n buf) n = scan_back test buf n.
Proof.
  intros Hn. assert (G : forall k, (k <= n)%nat -> scan_back test (take n buf) k = scan_back test buf k).
  { induction k as [|k IH]; intros Hk; [done|]. cbn. rewrite lookup_take_lt by lia.
    destruct (buf !! k); [|done]. case_match; [apply IH; lia|done]. }
  by apply G.
Qed.

(** The names joined by slashes. *)
Fixpoint join (names : list cstr) : cstr :=
  match names with
  | [] => []
  | [nm] => nm
  | nm :: names => nm ++ slash :: join names
  end.

Lemma join_cons nm l : join (nm :: l) = match l with [] => nm | _ => nm ++ slash :: join l end.
Proof. by destruct l. Qed.

Lemma join_length_app l acc : (length (join acc) <= length (join (l ++ acc)))%nat.
Proof.
  induction l as [|nm l IH]; [done|]. cbn [app]. rewrite join_cons.
  destruct (l ++ acc) as [|x r] eqn:E.
  - apply app_eq_nil in E as [-> ->]. cbn. lia.
  - rewrite length_app. cbn [length]. lia.
Qed.

Lemma path_step_name nm acc :
  nm <> [slash] -> path_step nm (join acc) (bool_decide (acc = [])) = (join (nm :: acc), false).
Proof.
  intros Hn. unfold path_step. rewrite bool_decide_eq_false_2 by done. rewrite join_cons.
  destruct acc; [done|]. by rewrite bool_decide_eq_false_2.
Qed.

Section PathUp.
Context (s : mstate) (nameof : Z -> cstr).

Lemma path_up_join C x fuel ns acc :
  spine (nodes s) C x -> (length C < fuel)%nat ->
  (forall y, y ∈ ancestors C -> exists n nm, nodes s !! y = Some n /\ name n = Some nm /\
     String.list_ascii_of_string nm = nameof y) ->
  nameof <$> ancestors C = ns ++ [[slash]] -> Forall (fun nm => nm <> [slash]) ns ->
  Z.of_nat (length (slash :: join (reverse ns ++ acc))) < MAXPATHLEN ->
  path_up fuel s (hd0 (ancestors C)) (join acc) (bool_decide (acc = []))
  = Some (slash :: join (reverse ns ++ acc)).
Proof.
  revert x fuel ns acc. induction C as [|f C IH]; intros x fuel ns acc Hsp Hf Hnm E Hns Hlen;
    [by destruct ns|]. destruct fuel as [|k]; [simpl in Hf; lia|].
  change (hd0 (ancestors (f :: C))) with (fr_id f). cbn [path_up].
  destruct Hsp as (_ & _ & Hsp). destruct (spine_parent _ _ _ Hsp) as (Hne & n & Hn & Hp).
  rewrite (proj2 (Z.eqb_neq _ _) Hne), Hn. cbn [mbind option_bind].
  destruct (Hnm (fr_id f) ltac:(left)) as (n' & nm & Hn' & Hnn & Hname).
  rewrite Hn in Hn'. injection Hn' as <-. rewrite Hnn. cbn [mbind option_bind]. rewrite Hname, Hp.
  change (nameof <$> ancestors (f :: C)) with (nameof (fr_id f) :: (nameof <$> ancestors C)) in E.
  destruct ns as [|n1 ns]; injection E as E1 E2.
  - apply fmap_nil_inv in E2. assert (C = []) as -> by (by destruct C). rewrite E1. unfold path_step.
    rewrite bool_decide_eq_true_2 by done. cbn [reverse rev_append app] in *. unfold too_long.
    rewrite (proj2 (Z.leb_gt _ _)) by exact Hlen. destruct k; [simpl in Hf; lia|]. done.
  - apply Forall_cons in Hns as [Hn1 Hns]. rewrite E1, (path_step_name n1 acc) by done.
    rewrite reverse_cons, <- app_assoc in Hlen |- *. cbn [app] in Hlen |- *.
    unfold too_long. rewrite (proj2 (Z.leb_gt _ _)).
    2:{ pose proof (join_length_app (reverse ns) (n1 :: acc)). cbn [length] in Hlen. lia. }
    change false with (bool_decide (n1 :: acc = [])).
    apply (IH (fr_id f)); [done|simpl in Hf; lia| |done|done|done].
    intros y Hy. apply Hnm. by right.
Qed.

End PathUp.

(** * Properties *)

(** A group specification shorter than the buffer falls apart into its parent,
    its last component and its trailing slashes: the last component is
    non-empty and has no slash, the parent is empty or ends in a slash.  A
    specification of slashes only gives two empty strings and an error.
    [parentOfJob] cuts behind the last slash.  *)
Theorem parentGroup_myName_split err spec :
  Z.of_nat (length spec) < MAXPATHLEN ->
  let par := (parentGroup err (Some spec)).1 in
  let my := (myName err (Some spec)).1 in
  (if forallb is_slash spec
   then par = [] /\ my = [] /\ (parentGroup err (Some spec)).2 = LSBE_JGRP_NULL /\
        (myName err (Some spec)).2 = LSBE_JGRP_BAD
   else my <> [] /\ Forall (fun c => is_slash c = false) my /\ ends_in (fun c => negb (is_slash c)) par /\
        exists trail, spec = par ++ my ++ trail /\ Forall (fun c => is_slash c = true) trail) /\
  exists p rest, parentOfJob err (Some spec) = (Some p, err) /\ spec = p ++ rest /\
    Forall (fun c => is_slash c = false) rest /\ ends_in (fun c => negb (is_slash c)) p.
Proof.
  intros Hlen. cbn [parentGroup myName parentOfJob]. unfold too_long.
  rewrite (proj2 (Z.leb_gt _ _)) by lia. split.
  - pose proof (scan_back_le is_slash spec (length spec)) as Hi.
    destruct (scan_back_spec is_slash spec (length spec)) as [Hs Hstop]; [done|].
    rewrite take_ge in Hs by done. set (i := scan_back is_slash spec (length spec)) in *.
    rewrite (forallb_scan spec i Hs Hstop). destruct (Nat.eqb_spec i 0) as [->|Hi0]; cbn; [by rewrite take_0|].
    pose proof (scan_back_le (fun c => negb (is_slash c)) spec i) as Hk.
    destruct (scan_back_spec (fun c => negb (is_slash c)) spec i) as [Hs2 Hstop2]; [done|].
    rewrite scan_back_take by done. set (k := scan_back (fun c => negb (is_slash c)) spec i) in *.
    assert (Hki : (k < i)%nat).
    { destruct Hstop as [?|(c & Hc & T)]; [lia|]. destruct (decide (k = i)) as [Eki|]; [|lia].
      destruct Hstop2 as [?|(c' & Hc' & T')]; [lia|]. rewrite Eki, Hc in Hc'. injection Hc' as <-.
      by rewrite T in T'. }
    split; [|split; [|split]].
    + intros En. apply (f_equal length) in En. rewrite length_drop, length_take in En. cbn in En. lia.
    + eapply Forall_impl; [exact Hs2|]. cbn. intros c Hc. by apply negb_true_iff.
    + by apply take_ends_in.
    + exists (drop i spec). split; [apply cut2; lia|done].
  - eexists _, (drop _ spec). split; [reflexivity|]. split; [symmetry; apply take_drop|].
    split; [|by apply take_ends_in].
    destruct (scan_back_spec (fun c => negb (is_slash c)) spec (length spec)) as [Hs _]; [done|].
    rewrite (take_ge spec) in Hs by done. eapply Forall_impl; [exact Hs|]. cbn.
    intros c Hc. by apply negb_true_iff.
Qed.

Lemma parentGroup_myName_split_witness :
  let spec := String.list_ascii_of_string "/risk/var//" in
  (parentGroup 0 (Some spec)).1 = String.list_ascii_of_string "/risk/" /\
  (myName 0 (Some spec)).1 = String.list_ascii_of_string "var" /\
  exists p rest, parentOfJob 0 (Some spec) = (Some p, 0) /\ spec = p ++ rest.
Proof.
  destruct (parentGroup_myName_split 0 (String.list_ascii_of_string "/risk/var//")) as [_ H];
    [vm_compute; reflexivity|]. split; [reflexivity|]. split; [reflexivity|].
  destruct H as (p & rest & H1 & H2 & _). exists p, rest. split; [exact H1|exact H2].
Defined.

(** The parent path of a node below groups [n1], ..., [nk] of the root group,
    outermost last, is the absolute path of its parent, provided it fits the
    buffer; the reentrant variant writes the same path.  *)
Theorem jgrpNodeParentPath_correct s err C t nameof ns :
  tree_ok (nodes s) (plug C t) ->
  (forall y, y ∈ ancestors C -> exists n nm, nodes s !! y = Some n /\ name n = Some nm /\
     String.list_ascii_of_string nm = nameof y) ->
  nameof <$> ancestors C = ns ++ [[slash]] -> Forall (fun nm => nm <> [slash]) ns ->
  Z.of_nat (length (slash :: join (reverse ns))) < MAXPATHLEN ->
  jgrpNodeParentPath s err (root_id t) = Some (Some (slash :: join (reverse ns)), err) /\
  jgrpNodeParentPath_r s err (root_id t) = Some (0, Some (slash :: join (reverse ns)), err).
Proof.
  intros Hok Hnm E Hns Hlen. pose proof (path_fuel _ _ _ Hok).
  pose proof (tree_spine _ _ _ Hok) as Hsp. destruct (spine_parent _ _ _ Hsp) as (Hne & n & Hn & Hp).
  assert (Hup : path_up (node_fuel s) s (parent n) [] true = Some (slash :: join (reverse ns))).
  { rewrite Hp. pose proof (path_up_join s nameof C (root_id t) (node_fuel s) ns []) as Hj.
    rewrite app_nil_r in Hj. apply Hj; [done|unfold node_fuel; lia|done|done|done|done]. }
  unfold jgrpNodeParentPath, jgrpNodeParentPath_r.
  rewrite (proj2 (Z.eqb_neq _ _) Hne), Hn. cbn [mbind option_bind]. rewrite Hup. done.
Qed.

(** Root, group [risk] below it, group [var] below that, a job in the latter. *)
Definition path_state : mstate := MState
  (list_to_map [(1, JgTreeNode 0 2 0 0 JGRP_NODE_GROUP (Some "/"%string) 101);
                (2, JgTreeNode 1 3 0 0 JGRP_NODE_GROUP (Some "risk"%string) 102);
                (3, JgTreeNode 2 4 0 0 JGRP_NODE_GROUP (Some "var"%string) 103);
                (4, JgTreeNode 3 0 0 0 JGRP_NODE_JOB (Some "job"%string) 204)])
  empty empty 1 NULL [] (LState [] 1000).

Lemma path_state_ok : tree_ok (nodes path_state) (plug [Frame 3 [] []; Frame 2 [] []; Frame 1 [] []] (Br 4 [])).
Proof. apply tree_okb_ok. vm_compute. reflexivity. Qed.

Lemma jgrpNodeParentPath_correct_witness :
  jgrpNodeParentPath path_state 0 4 = Some (Some (String.list_ascii_of_string "/risk/var"), 0).
Proof.
  apply (jgrpNodeParentPath_correct path_state 0 [Frame 3 [] []; Frame 2 [] []; Frame 1 [] []] (Br 4 [])
    (fun y => String.list_ascii_of_string (if y =? 1 then "/" else if y =? 2 then "risk" else "var"))
    [String.list_ascii_of_string "var"; String.list_ascii_of_string "risk"]).
  - exact path_state_ok.
  - intros y [->|[->|Hy%list_elem_of_singleton]%elem_of_cons]%elem_of_cons; [| |rewrite Hy];
      (do 2 eexists; split; [vm_compute; reflexivity|split; reflexivity]).
  - reflexivity.
  - apply (bool_decide_unpack _). vm_compute. exact I.
  - vm_compute. reflexivity.
Defined.
