(* ===== verification/JgrpSelect.v ===== *)
(** * Selecting jobs for a query, [lsbatch/daemons/mbd.jgrp.c]

    [makeTreeNodeList] collects the jobs below a group that match a request in
    an array that doubles when it is full.  The property states that the array
    ends up holding exactly the matching jobs in tree order. *)

From S2P Require Import Prelude Lsb ListSet Jgrp JgrpTree JgrpCount JgrpOps.

(** The array in use holds [l]. *)
Record holds (g : jgrpInfo) (l : list Z) : Prop := {
  hl_num : numNodes g = Z.of_nat (length l);
  hl_pre : take (length l) (jgrpList g) = l;
  hl_size : Z.of_nat (length (jgrpList g)) = arraySize g;
  hl_fit : numNodes g <= arraySize g }.

(** The fields a selection depends on. *)
Definition same_filter (g g' : jgrpInfo) : Prop :=
  ji_jobName g' = ji_jobName g /\ ji_idxList g' = ji_idxList g /\ allqueues g' = allqueues g /\
  allusers g' = allusers g /\ allhosts g' = allhosts g /\ uGrp g' = uGrp g.

(** The jobs of a [nextJob] chain. *)
Fixpoint job_chain (fuel : nat) (s : mstate) (p : Z) : option (list Z) :=
  match fuel with
  | O => None
  | S k =>
      if p =? NULL then Some [] else
      j ← jobs s !! p; rest ← job_chain k s (nextJob j); Some (p :: rest)
  end.

(** The jobs a node offers to a request: an array its elements, or the array
    itself when the request asks for arrays only. *)
Definition offers (s : mstate) (rq : jobInfoReq) (n : jgTreeNode) : option (list Z) :=
  if nodeType n =? JGRP_NODE_ARRAY then
    b ← bases s !! ndInfo n; t ← jobs s !! jobArray b;
    if has (rq_options rq) JGRP_ARRAY_INFO then Some [jobArray b]
    else job_chain (job_fuel s) s (nextJob t)
  else if nodeType n =? JGRP_NODE_JOB then
    if has (rq_options rq) JGRP_ARRAY_INFO then Some [] else
    _ ← jobs s !! ndInfo n; Some [ndInfo n]
  else Some [].

Section Selecting.
Context (gMember : string -> Z -> bool) (getHGrpData : string -> option Z)
  (equalHost_ matchName : string -> string -> bool).
Let alloc_ok : Z -> bool := fun _ => true.

Definition selected (s : mstate) (rq : jobInfoReq) (g : jgrpInfo) (p : Z) : bool :=
  match jobs s !! p with
  | Some j => isSelected gMember getHGrpData equalHost_ rq j g
  | None => false
  end.

Definition name_matches (g : jgrpInfo) (n : jgTreeNode) : bool :=
  match ji_jobName g, name n with
  | EmptyString, _ => true
  | nm, Some v => matchName nm v
  | _, None => false
  end.

Lemma same_filter_selected s rq g g' : same_filter g g' -> selected s rq g' = selected s rq g.
Proof.
  intros (_ & E2 & E3 & E4 & E5 & E6). unfold selected, isSelected. by rewrite E2, E3, E4, E5, E6.
Qed.

Lemma same_filter_trans g1 g2 g3 : same_filter g1 g2 -> same_filter g2 g3 -> same_filter g1 g3.
Proof. unfold same_filter. intros (?&?&?&?&?&?) (?&?&?&?&?&?). repeat split; congruence. Qed.

Lemma same_filter_refl g : same_filter g g.
Proof. by repeat split. Qed.

(** Writing behind the part in use. *)
Lemma push_holds (arr l : list Z) ptr :
  (length l < length arr)%nat -> take (length l) arr = l ->
  take (S (length l)) (<[length l := ptr]> arr) = l ++ [ptr].
Proof.
  intros Hl Ht. rewrite (take_S_r _ _ ptr) by (by apply list_lookup_insert_eq).
  by rewrite take_insert_ge, Ht by lia.
Qed.

Lemma store_holds g l ptr :
  holds g l -> exists g', storeToJgrpList alloc_ok ptr g = (true, g') /\
    holds g' (l ++ [ptr]) /\ same_filter g g'.
Proof.
  intros [Hn Hp Hs Hf].
  assert (Hpush : forall arr sz, Z.of_nat (length arr) = sz -> numNodes g < sz -> take (length l) arr = l ->
    holds (JgrpInfo (<[Z.to_nat (numNodes g) := ptr]> arr) (numNodes g + 1) sz (ji_jobName g) (ji_idxList g)
             (allqueues g) (allusers g) (allhosts g) (uGrp g)) (l ++ [ptr])).
  { intros arr sz Hsz Hlt Ht. split; cbn; rewrite ?length_app, ?length_insert; cbn; try lia.
    replace (Z.to_nat (numNodes g)) with (length l) by lia. rewrite Nat.add_1_r.
    apply push_holds; [lia|done]. }
  unfold storeToJgrpList, alloc_ok, DEFAULT_LISTSIZE. case_test.
  - cbn. assert (l = []) as -> by (apply nil_length_inv; lia). cbn in Hn. rewrite Hn. cbn.
    eexists. split; [reflexivity|]. split; [|done]. rewrite Hn in Hpush. by apply (Hpush (replicate 200 NULL)).
  - cbn. case_test.
    + eexists. split; [reflexivity|]. split; [|done]. cbn. apply Hpush.
      * rewrite length_app, length_replicate. lia.
      * lia.
      * rewrite take_app_le; [done|]. lia.
    + eexists. split; [reflexivity|]. split; [|done]. apply Hpush; [done|lia|done].
Qed.

Lemma store_if_holds s rq g l p :
  holds g l -> exists g', (if selected s rq g p then storeToJgrpList alloc_ok p g else (true, g)) = (true, g') /\
    holds g' (l ++ filter (fun q => selected s rq g q = true) [p]) /\ same_filter g g'.
Proof.
  intros Hh. rewrite filter_cons, filter_nil. destruct (selected s rq g p) eqn:E.
  - rewrite decide_True by done. by apply store_holds.
  - rewrite decide_False, app_nil_r by congruence. exists g. split; [done|]. split; [done|].
    apply same_filter_refl.
Qed.

Lemma store_elements_holds fuel s rq p js g l :
  job_chain fuel s p = Some js -> holds g l ->
  exists g', store_elements gMember getHGrpData equalHost_ alloc_ok fuel s rq p g = Some (true, g') /\
    holds g' (l ++ filter (fun q => selected s rq g q = true) js) /\ same_filter g g'.
Proof.
  revert p js g l. induction fuel as [|k IH]; intros p js g l Hc Hh; [done|].
  cbn [job_chain store_elements] in *. destruct (p =? NULL).
  - injection Hc as <-. exists g. rewrite filter_nil, app_nil_r. split; [done|]. split; [done|].
    apply same_filter_refl.
  - destruct (jobs s !! p) as [j|] eqn:Ej; [|done]. cbn [mbind option_bind] in *.
    destruct (job_chain k s (nextJob j)) as [rest|] eqn:Er; [|done]. injection Hc as <-.
    destruct (store_if_holds s rq g l p Hh) as (g1 & H1 & Hh1 & Hf1).
    unfold selected in H1 at 1. rewrite Ej in H1. rewrite H1.
    destruct (IH _ rest g1 _ Er Hh1) as (g2 & H2 & Hh2 & Hf2). exists g2. split; [done|].
    split; [|by eapply same_filter_trans].
    rewrite (same_filter_selected s rq g g1 Hf1) in Hh2.
    by rewrite <- app_assoc, <- filter_app in Hh2.
Qed.

Lemma store_node_holds s rq n os g l :
  offers s rq n = Some os -> holds g l ->
  exists g', store_node gMember getHGrpData equalHost_ alloc_ok s rq n g = Some (true, g') /\
    holds g' (l ++ filter (fun q => selected s rq g q = true) os) /\ same_filter g g'.
Proof.
  intros Ho Hh. unfold offers in Ho. unfold store_node.
  assert (Hnone : exists g', Some (true, g) = Some (true, g') /\
     holds g' (l ++ filter (fun q => selected s rq g q = true) []) /\ same_filter g g').
  { exists g. rewrite filter_nil, app_nil_r. split; [done|]. split; [done|]. apply same_filter_refl. }
  destruct (nodeType n =? JGRP_NODE_ARRAY).
  - destruct (bases s !! ndInfo n) as [b|]; [|done]. cbn [mbind option_bind] in *.
    destruct (jobs s !! jobArray b) as [t|] eqn:Et; [|done]. cbn [mbind option_bind] in *.
    destruct (has (rq_options rq) JGRP_ARRAY_INFO); [|by eapply store_elements_holds].
    injection Ho as <-. destruct (store_if_holds s rq g l (jobArray b) Hh) as (g1 & H1 & H2).
    unfold selected in H1 at 1. rewrite Et in H1. rewrite H1. eauto.
  - destruct (nodeType n =? JGRP_NODE_JOB); [|by injection Ho as <-].
    destruct (has (rq_options rq) JGRP_ARRAY_INFO); [by injection Ho as <-|].
    destruct (jobs s !! ndInfo n) as [j|] eqn:Ej; [|done]. cbn [mbind option_bind] in *. injection Ho as <-.
    destruct (store_if_holds s rq g l (ndInfo n) Hh) as (g1 & H1 & H2).
    unfold selected in H1 at 1. rewrite Ej in H1. rewrite H1. eauto.
Qed.

(** What a row of nodes contributes; [offer] gives what each offers. *)
Definition matching (s : mstate) (rq : jobInfoReq) (g : jgrpInfo) (offer : Z -> list Z) (xs : list Z)
    : list Z :=
  xs ≫= fun x => match nodes s !! x with
                 | Some n => if name_matches g n
                             then filter (fun q => selected s rq g q = true) (offer x) else []
                 | None => []
                 end.

Lemma same_filter_matching s rq g g' offer xs :
  same_filter g g' -> matching s rq g' offer xs = matching s rq g offer xs.
Proof.
  intros Hf. unfold matching. apply list_bind_ext; [|done]. intros x. destruct (nodes s !! x); [|done].
  unfold name_matches. pose proof (proj1 Hf) as Hn. rewrite Hn. by rewrite (same_filter_selected s rq g g').
Qed.

Lemma node_list_holds s par rq offer fuel l1 xs g l :
  row (nodes s) par (l1 ++ xs) -> NULL ∉ xs -> (length xs < fuel)%nat ->
  (forall x, x ∈ xs -> exists n nm, nodes s !! x = Some n /\ name n = Some nm /\
     offers s rq n = Some (offer x)) -> holds g l ->
  exists g', node_list_loop gMember getHGrpData equalHost_ matchName alloc_ok fuel s rq (hd0 xs) g
             = Some (LSBE_NO_ERROR, g') /\
    holds g' (l ++ matching s rq g offer xs) /\ same_filter g g'.
Proof.
  revert l1 xs g l. induction fuel as [|k IH]; intros l1 xs g l Hrow Hnn Hf Hof Hh; [lia|].
  destruct xs as [|x xs].
  { exists g. cbn. rewrite app_nil_r. split; [done|]. split; [done|]. apply same_filter_refl. }
  change (hd0 (x :: xs)) with x. cbn [node_list_loop].
  rewrite (proj2 (Z.eqb_neq x NULL)) by set_solver.
  destruct (Hof x ltac:(left)) as (n & nm & Hn & Hnm & Ho). rewrite Hn. cbn [mbind option_bind].
  destruct (Hrow l1 x xs eq_refl) as (n' & Hn' & _ & _ & Hr). rewrite Hn in Hn'. injection Hn' as <-.
  assert (Hstep : exists g1, (match ji_jobName g with
      | EmptyString => store_node gMember getHGrpData equalHost_ alloc_ok s rq n g
      | nm => v ← name n; if matchName nm v
              then store_node gMember getHGrpData equalHost_ alloc_ok s rq n g else Some (true, g)
      end) = Some (true, g1) /\ holds g1 (l ++ matching s rq g offer [x]) /\ same_filter g g1).
  { unfold matching. rewrite bind_singleton, Hn. unfold name_matches. rewrite Hnm.
    destruct (store_node_holds s rq n (offer x) g l Ho Hh) as (g1 & H1 & H2).
    destruct (ji_jobName g) as [|c r]; [eauto|]. cbn [mbind option_bind].
    destruct (matchName (String c r) nm); [eauto|]. exists g. rewrite app_nil_r.
    split; [done|]. split; [done|]. apply same_filter_refl. }
  destruct Hstep as (g1 & -> & Hh1 & Hf1). cbn [mbind option_bind]. rewrite Hr.
  destruct (IH (l1 ++ [x]) xs g1 (l ++ matching s rq g offer [x])) as (g2 & H2 & Hh2 & Hf2).
  - by rewrite <- app_assoc.
  - set_solver.
  - simpl in Hf. lia.
  - intros y Hy. apply Hof. by right.
  - done.
  - exists g2. split; [done|]. split; [|by eapply same_filter_trans].
    rewrite (same_filter_matching s rq g g1 offer xs Hf1), <- app_assoc in Hh2.
    unfold matching in Hh2 |- *. by rewrite <- bind_app in Hh2.
Qed.

End Selecting.

(** ** What a request asks for *)

(** One of these bits is set. *)
Definition any_bit (v : Z) (bits : list Z) : Prop := exists b, b ∈ bits /\ Z.testbit v b = true.
Definition waits (st : Z) : Prop := any_bit st [0; 1].
Definition started (st : Z) : Prop := any_bit st [2; 3; 4].
Definition over (st : Z) : Prop := any_bit st [5; 6].

(** [ALL_JOB] and the two [JOBID_ONLY] flags ask for all, [CUR_JOB] and
    [LAST_JOB] for what is not over, the others for one kind of jobs. *)
Definition status_asked (opts st : Z) : Prop :=
  any_bit opts [0; 7; 13] \/ any_bit opts [4; 5] /\ (started st \/ waits st) \/ any_bit opts [2] /\ waits st \/
  any_bit opts [3; 6] /\ started st \/ any_bit opts [1] /\ over st.

Section Asking.
Context (gMember : string -> Z -> bool) (getHGrpData : string -> option Z)
  (equalHost_ matchName : string -> string -> bool).

(** The request names a host of the job, or a group with one; the hosts are
    looked at up to the first that is not known. *)
Definition host_asked (rq : jobInfoReq) (hosts : list (option string)) : Prop :=
  exists before h after, hosts = (Some <$> before) ++ Some h :: after /\
    match getHGrpData (rq_host rq) with Some gp => gMember h gp = true | None => equalHost_ (rq_host rq) h = true end.

Record answers (rq : jobInfoReq) (g : jgrpInfo) (j : jData) : Prop := {
  ans_status : status_asked (rq_options rq) (jStatus j);
  ans_queue : allqueues g = true \/ queue j = rq_queue rq;
  ans_user : allusers g = true \/ jUserName j = rq_userName rq \/ exists gp, uGrp g = Some gp /\ gMember (jUserName j) gp = true;
  ans_host : allhosts g = true \/ ~ waits (jStatus j) /\ exists hosts, hPtr j = Some hosts /\ host_asked rq hosts;
  ans_index : ji_idxList g = [] \/ exists x, x ∈ ji_idxList g /\ start x <= LSB_ARRAY_IDX (jobId j) <= end_ x /\
                (step x | LSB_ARRAY_IDX (jobId j) - start x) }.

Lemma has_bit v b : 0 <= b -> has v (2 ^ b) = Z.testbit v b.
Proof.
  intros Hb. unfold has. destruct (Z.testbit v b) eqn:E.
  - apply negb_true_iff, Z.eqb_neq. intros H. assert (H' : Z.testbit (Z.land v (2 ^ b)) b = true) by (by rewrite Z.land_spec, Z.pow2_bits_true, andb_true_r).
    by rewrite H, Z.bits_0 in H'.
  - apply negb_false_iff, Z.eqb_eq. apply Z.bits_inj'. intros k Hk. rewrite Z.land_spec, Z.bits_0, Z.pow2_bits_eqb by done.
    destruct (Z.eqb_spec b k) as [<-|]; [by rewrite E|by rewrite andb_false_r].
Qed.

Lemma has_lor v a b : has v (Z.lor a b) = has v a || has v b.
Proof.
  unfold has. rewrite Z.land_lor_distr_r. destruct (Z.eqb_spec (Z.land v a) 0) as [->|Ha]; cbn [negb orb].
  - done.
  - apply negb_true_iff, Z.eqb_neq. intros H. apply Ha. by apply Z.lor_eq_0_iff in H as [? _].
Qed.

Lemma any_bit_nil v : any_bit v [] <-> False.
Proof. split; [|done]. by intros (x & ?%elem_of_nil & _). Qed.
Lemma any_bit_cons v b bs : any_bit v (b :: bs) <-> Z.testbit v b = true \/ any_bit v bs.
Proof.
  split.
  - intros (x & [->|Hx]%elem_of_cons & H); [by left|]. right. by exists x.
  - intros [H|(x & Hx & H)]; [exists b|exists x]; (split; [set_solver|done]).
Qed.

Lemma IS_PEND_waits st : IS_PEND st = true <-> waits st.
Proof. unfold IS_PEND, waits. change JOB_STAT_PEND with (2 ^ 0). change JOB_STAT_PSUSP with (2 ^ 1). rewrite !has_bit, orb_true_iff, !any_bit_cons, any_bit_nil by done. tauto. Qed.
Lemma IS_START_started st : IS_START st = true <-> started st.
Proof.
  unfold IS_START, started. change JOB_STAT_RUN with (2 ^ 2). change JOB_STAT_SSUSP with (2 ^ 3). change JOB_STAT_USUSP with (2 ^ 4).
  rewrite !has_bit, !orb_true_iff, !any_bit_cons, any_bit_nil by done. tauto.
Qed.
Lemma IS_FINISH_over st : IS_FINISH st = true <-> over st.
Proof. unfold IS_FINISH, over. change JOB_STAT_DONE with (2 ^ 6). change JOB_STAT_EXIT with (2 ^ 5). rewrite !has_bit, orb_true_iff, !any_bit_cons, any_bit_nil by done. tauto. Qed.

Lemma skip_asked opts st : skipJgrpByReq opts st = false <-> status_asked opts st.
Proof.
  assert (E : skipJgrpByReq opts st = negb (has opts (Z.lor ALL_JOB (Z.lor JOBID_ONLY_ALL JOBID_ONLY)) || has opts (Z.lor CUR_JOB LAST_JOB) && (IS_START st || IS_PEND st)
    || has opts PEND_JOB && IS_PEND st || has opts (Z.lor SUSP_JOB RUN_JOB) && IS_START st || has opts DONE_JOB && IS_FINISH st)).
  { unfold skipJgrpByReq. destruct (has opts (Z.lor ALL_JOB _)); [done|]. cbn [orb]. destruct (_ && (_ || _)); [done|]. cbn [orb].
    destruct (_ && IS_PEND st); [done|]. cbn [orb]. destruct (_ && IS_START st); [done|]. cbn [orb]. by destruct (_ && _). }
  rewrite E, negb_false_iff. unfold status_asked. rewrite !has_lor.
  change ALL_JOB with (2 ^ 0). change JOBID_ONLY_ALL with (2 ^ 13). change JOBID_ONLY with (2 ^ 7). change CUR_JOB with (2 ^ 4). change LAST_JOB with (2 ^ 5).
  change PEND_JOB with (2 ^ 2). change SUSP_JOB with (2 ^ 3). change RUN_JOB with (2 ^ 6). change DONE_JOB with (2 ^ 1). rewrite !has_bit by done.
  rewrite !orb_true_iff, !andb_true_iff, !orb_true_iff, IS_PEND_waits, IS_START_started, IS_FINISH_over, !any_bit_cons, !any_bit_nil. tauto.
Qed.

Lemma host_loop_asked test hosts : host_loop test hosts = true <-> exists before h after, hosts = (Some <$> before) ++ Some h :: after /\ test h = true.
Proof.
  induction hosts as [|[h|] hosts IH]; cbn [host_loop].
  - split; [done|]. intros (before & h & after & E & _). by destruct before.
  - destruct (test h) eqn:Et.
    + split; [|done]. intros _. by exists [], h, hosts.
    + rewrite IH. split.
      * intros (before & h' & after & -> & H). by exists (h :: before), h', after.
      * intros ([|h0 bs] & h' & after & E & H); cbn in E; injection E as -> ->; [congruence|]. by exists bs, h', after.
  - split; [done|]. intros ([|h0 before] & h & after & E & _); cbn in E; simplify_eq.
Qed.

Lemma idx_loop_asked idx l : idx_loop idx l = true <-> exists x, x ∈ l /\ start x <= idx <= end_ x /\ (step x | idx - start x).
Proof.
  induction l as [|x l IH]; cbn [idx_loop]; [split; [done|]; by intros (x & ?%elem_of_nil & _)|].
  assert (Hrem : (Z.rem (idx - start x) (step x) =? 0) = true <-> (step x | idx - start x)).
  { rewrite Z.eqb_eq. destruct (decide (step x = 0)) as [->|Hs]; [|by apply Z.rem_divide]. rewrite Z.rem_0_r_ext by done. split; [intros ->; by exists 0|]. by intros [k ->]; lia. }
  destruct (Z.ltb_spec idx (start x)); cbn [orb]; [|destruct (Z.ltb_spec (end_ x) idx)].
  1, 2: rewrite IH; split; [intros (y & Hy & H'); exists y; split; [by right|done]|intros (y & [->|Hy]%elem_of_cons & H' & H''); [lia|by exists y]].
  destruct (Z.rem (idx - start x) (step x) =? 0).
  - split; [|done]. intros _. exists x. split; [by left|]. split; [lia|by apply Hrem].
  - rewrite IH. split.
    + intros (y & Hy & H'). exists y. by split; [right|].
    + intros (y & [->|Hy]%elem_of_cons & H1 & H2); [by apply Hrem in H2|by exists y].
Qed.

(** The test of the code is the specification. *)
Lemma isSelected_answers rq j g : isSelected gMember getHGrpData equalHost_ rq j g = true <-> answers rq g j.
Proof.
  unfold isSelected. pose proof (skip_asked (rq_options rq) (jStatus j)) as Hst. destruct (skipJgrpByReq _ _).
  { split; [done|]. intros [H _ _ _ _]. by apply Hst in H. }
  assert (Hq : negb (allqueues g) && negb (bool_decide (queue j = rq_queue rq)) = false <-> allqueues g = true \/ queue j = rq_queue rq).
  { destruct (allqueues g); cbn; [tauto|]. rewrite negb_false_iff, bool_decide_eq_true. intuition congruence. }
  destruct (_ && _); [split; [done|]; intros [_ H _ _ _]; by apply Hq in H|].
  assert (Hu : negb (allusers g) && negb (bool_decide (jUserName j = rq_userName rq)) && match uGrp g with None => true | Some g => negb (gMember (jUserName j) g) end = false
    <-> allusers g = true \/ jUserName j = rq_userName rq \/ exists gp, uGrp g = Some gp /\ gMember (jUserName j) gp = true).
  { destruct (allusers g); cbn; [tauto|]. case_bool_decide; cbn; [tauto|]. destruct (uGrp g) as [gp|].
    - rewrite negb_false_iff. split; [intros H'; right; right; by exists gp|]. intros [?|[?|(gp' & E & H')]]; [done|done|]. by simplify_eq.
    - split; [done|]. intros [?|[?|(gp' & E & _)]]; done. }
  destruct (_ && _); [split; [done|]; intros [_ _ H _ _]; by apply Hu in H|].
  match goal with |- (if ?b then _ else _) = true <-> _ => assert (Hh : b = false <-> allhosts g = true \/ ~ waits (jStatus j) /\ exists hosts, hPtr j = Some hosts /\ host_asked rq hosts) end.
  { destruct (allhosts g); cbn [negb andb]; [tauto|]. rewrite orb_false_iff, <- not_true_iff_false, IS_PEND_waits. destruct (hPtr j) as [hosts|].
    - rewrite negb_false_iff, host_loop_asked. unfold host_asked. split.
      + intros (Hw & before & h & after & E & Ht). right. split; [done|]. exists hosts. split; [done|]. exists before, h, after. split; [done|]. by destruct (getHGrpData _).
      + intros [?|(Hw & hosts' & [= <-] & before & h & after & E & Ht)]; [done|]. split; [done|]. exists before, h, after. split; [done|]. by destruct (getHGrpData _).
    - split; [by intros [_ ?]|]. intros [?|(_ & hosts & ? & _)]; done. }
  destruct (_ && _); [split; [done|]; intros [_ _ _ H _]; by apply Hh in H|].
  assert (Hi : match ji_idxList g with [] => true | l => idx_loop (LSB_ARRAY_IDX (jobId j)) l end = true <-> ji_idxList g = [] \/ exists x, x ∈ ji_idxList g /\
    start x <= LSB_ARRAY_IDX (jobId j) <= end_ x /\ (step x | LSB_ARRAY_IDX (jobId j) - start x)).
  { destruct (ji_idxList g) as [|x l]; [tauto|]. rewrite idx_loop_asked. intuition discriminate. }
  rewrite Hi. split; [intros H; constructor; tauto|by intros [_ _ _ _ H]].
Qed.

(** The jobs of a node that a request may get: an array stands for its elements,
    or for itself when arrays are asked for. *)
Inductive offered (s : mstate) (rq : jobInfoReq) (n : jgTreeNode) : list Z -> Prop :=
  | offered_array b t : nodeType n = JGRP_NODE_ARRAY -> bases s !! ndInfo n = Some b -> jobs s !! jobArray b = Some t ->
      Z.testbit (rq_options rq) 12 = true -> offered s rq n [jobArray b]
  | offered_elements b t js : nodeType n = JGRP_NODE_ARRAY -> bases s !! ndInfo n = Some b -> jobs s !! jobArray b = Some t ->
      Z.testbit (rq_options rq) 12 = false -> chained (jobs s) (nextJob t) js -> NoDup js -> offered s rq n js
  | offered_job j : nodeType n = JGRP_NODE_JOB -> jobs s !! ndInfo n = Some j -> Z.testbit (rq_options rq) 12 = false -> offered s rq n [ndInfo n]
  | offered_no_job : nodeType n = JGRP_NODE_JOB -> Z.testbit (rq_options rq) 12 = true -> offered s rq n []
  | offered_group : nodeType n = JGRP_NODE_GROUP -> offered s rq n [].

Lemma chained_job_chain s js : forall p fuel, chained (jobs s) p js -> (length js < fuel)%nat -> job_chain fuel s p = Some js.
Proof.
  induction js as [|q js IH]; intros p fuel Hc Hf; (destruct fuel as [|k]; [cbn in Hf; lia|]); cbn [job_chain].
  - cbn in Hc. by rewrite Hc.
  - destruct Hc as (-> & Hq & j & Hj & Hc). rewrite (proj2 (Z.eqb_neq _ _) Hq), Hj. cbn [mbind option_bind]. by rewrite (IH _ k Hc) by (cbn in Hf; lia).
Qed.

Lemma offered_offers s rq n os : offered s rq n os -> offers s rq n = Some os.
Proof.
  unfold offers. change JGRP_ARRAY_INFO with (2 ^ 12). rewrite has_bit by done. intros [b t Ht Hb Hj Ho|b t js Ht Hb Hj Ho Hc Hnd|j Ht Hj Ho|Ht Ho|Ht]; rewrite Ht;
    change (JGRP_NODE_ARRAY =? JGRP_NODE_ARRAY) with true; change (JGRP_NODE_JOB =? JGRP_NODE_ARRAY) with false; change (JGRP_NODE_JOB =? JGRP_NODE_JOB) with true;
    cbv iota; rewrite ?Hb; cbn [mbind option_bind]; rewrite ?Hj, ?Ho; try done; cbn [mbind option_bind]; rewrite ?Ho; try done.
  apply chained_job_chain; [done|]. unfold job_fuel. apply Nat.lt_succ_r, NoDup_size; [done|]. intros q Hq. by eapply chained_dom.
Qed.
End Asking.

(** * Properties *)

(** [makeTreeNodeList] terminates without an error when memory suffices; it
    appends to the jobs already collected, in tree order, exactly the jobs of the
    children of the group whose name matches that answer the request by their
    status, queue, user, host and index: the elements of an array, or the array
    itself when only arrays are asked for.  The list doubles as it fills and no
    write goes past its end.  (C38) *)
Theorem makeTreeNodeList_correct gMember getHGrpData equalHost_ matchName s C par ts rq g l (title : Z -> string) (offer : Z -> list Z) (asked : Z -> bool) :
  tree_ok (nodes s) (plug C (Br par ts)) -> holds g l ->
  (forall x, x ∈ root_id <$> ts -> exists n, nodes s !! x = Some n /\ name n = Some (title x) /\ offered s rq n (offer x)) ->
  (forall p, asked p = true <-> exists j, jobs s !! p = Some j /\ answers gMember getHGrpData equalHost_ rq g j) ->
  exists g', makeTreeNodeList gMember getHGrpData equalHost_ matchName (fun _ => true) s par rq g
             = Some (LSBE_NO_ERROR, g') /\
    holds g' (l ++ ((root_id <$> ts) ≫= fun x =>
      if bool_decide (ji_jobName g = ""%string) || matchName (ji_jobName g) (title x) then List.filter asked (offer x) else [])).
Proof.
  intros Hok Hh Hof Has. pose proof (focus_node _ _ _ Hok) as [Hid (n & Hn & Hc) Hrow].
  pose proof (kids_in_ids _ _ (plug_sub_focus C (Br par ts))) as Hsub.
  unfold kid_ids in *. cbn [root_id kids] in *.
  unfold makeTreeNodeList. rewrite (proj2 (Z.eqb_neq par NULL)) by done. rewrite Hn.
  cbn [mbind option_bind]. rewrite Hc.
  destruct (node_list_holds gMember getHGrpData equalHost_ matchName s par rq offer (node_fuel s) []
    (root_id <$> ts) g l) as (g' & H1 & H2 & _); [done| | | |done|].
  - intros Hin. by apply (ids_nonnull _ _ NULL Hok (Hsub _ Hin)).
  - unfold node_fuel. apply Nat.lt_succ_r, NoDup_size.
    + apply (kids_NoDup par). pose proof (tok_nodup _ _ Hok) as Hnd. rewrite plug_ids in Hnd.
      apply NoDup_app in Hnd as (_ & _ & Hnd). by apply NoDup_app in Hnd as (Hnd & _).
    + intros x Hx. exact (ids_dom _ _ _ Hok (Hsub _ Hx)).
  - intros x Hx. destruct (Hof x Hx) as (nx & Hnx & Ht & Ho). exists nx, (title x). split; [done|]. split; [done|]. by apply offered_offers.
  - exists g'. split; [done|]. replace ((root_id <$> ts) ≫= _) with (matching gMember getHGrpData equalHost_ matchName s rq g offer (root_id <$> ts)); [done|].
    clear H1 H2. unfold matching. revert Hof. generalize (root_id <$> ts). intros xs Hof.
    induction xs as [|x xs IH]; [done|]. rewrite !bind_cons, IH by (intros y Hy; apply Hof; by right). f_equal.
    destruct (Hof x ltac:(left)) as (nx & -> & Ht & _). unfold name_matches. rewrite Ht.
    assert (Hf : forall ps, filter (fun q => selected gMember getHGrpData equalHost_ s rq g q = true) ps = List.filter asked ps).
    { induction ps as [|q ps IHp]; [done|]. rewrite filter_cons. cbn [List.filter]. rewrite IHp.
      assert (E : selected gMember getHGrpData equalHost_ s rq g q = asked q).
      { apply eq_true_iff_eq. rewrite Has. unfold selected. destruct (jobs s !! q) as [j|]; [|by split; [|intros (j & ? & _)]].
        rewrite isSelected_answers. split; [intros ?; by exists j|]. by intros (j' & [= <-] & ?). }
      rewrite E. destruct (asked q); [by rewrite decide_True|by rewrite decide_False]. }
    destruct (ji_jobName g) as [|c r]; [by rewrite bool_decide_eq_true_2|]. rewrite bool_decide_eq_false_2 by done. cbn [orb].
    by destruct (matchName (String c r) (title x)).
Qed.

(** All pending jobs of the sample group: job 201 and element 302. *)
Lemma makeTreeNodeList_correct_witness :
  let rq := JobInfoReq PEND_JOB "" "" "" "" in
  let g := JgrpInfo [] 0 0 "" [] true true true None in
  exists g', makeTreeNodeList (fun _ _ => false) (fun _ => None) (fun _ _ => false) (fun _ _ => false)
               (fun _ => true) sample_state 1 rq g = Some (LSBE_NO_ERROR, g') /\
    holds g' [201; 302].
Proof.
  destruct (makeTreeNodeList_correct (fun _ _ => false) (fun _ => None) (fun _ _ => false)
    (fun _ _ => false) sample_state [] 1 [Br 2 []; Br 3 []] (JobInfoReq PEND_JOB "" "" "" "")
    (JgrpInfo [] 0 0 "" [] true true true None) [] (fun _ => "n"%string) (fun x => if x =? 2 then [201] else [301; 302])
    (selected (fun _ _ => false) (fun _ => None) (fun _ _ => false) sample_state (JobInfoReq PEND_JOB "" "" "" "") (JgrpInfo [] 0 0 "" [] true true true None)))
    as (g' & H1 & H2).
  - exact (proj1 sample_jinv).
  - by split.
  - cbn. intros x [->|[->|[]%elem_of_nil]%elem_of_cons]%elem_of_cons; eexists; (split; [vm_compute; reflexivity|]); (split; [reflexivity|]).
    + eapply offered_job; vm_compute; reflexivity.
    + eapply offered_elements; [vm_compute; reflexivity..| |apply (bool_decide_unpack _); vm_compute; exact I].
      split; [reflexivity|]. split; [discriminate|]. eexists. split; [vm_compute; reflexivity|].
      split; [reflexivity|]. split; [discriminate|]. eexists. split; [vm_compute; reflexivity|]. reflexivity.
  - intros p. unfold selected. destruct (jobs sample_state !! p) as [j|]; [|by split; [|intros (j & ? & _)]].
    rewrite isSelected_answers. split; [intros ?; by exists j|]. by intros (j' & [= <-] & ?).
  - exists g'. split; [exact H1|exact H2].
Defined.
