(* ===== verification/Float32.v ===== *)
(** * IEEE binary32 and binary64 arithmetic as the time windows use it

    [float] and [double] values are the specification floats of the Standard
    Library, rounded to nearest even at 24 and 53 bits; every operation is
    executable.  The file also shows that a time of day in whole minutes has a
    [float] of its own and that comparing such floats is comparing minutes. *)

From Stdlib Require Import SpecFloat.
From S2P Require Import Prelude.

(** ** Formats *)

(** Conversions to [float] and to [double], from integers and from each
    other. *)
Definition f32_of_Z (z : Z) : spec_float := binary_normalize 24 128 z 0 false.
Definition f64_of_Z (z : Z) : spec_float := binary_normalize 53 1024 z 0 false.

Definition convert (prec emax : Z) (f : spec_float) : spec_float :=
  match f with
  | S754_finite s m e => binary_normalize prec emax (cond_Zopp s (Zpos m)) e s
  | _ => f
  end.
Definition to_float : spec_float -> spec_float := convert 24 128.
Definition to_double : spec_float -> spec_float := convert 53 1024.

Definition fadd : spec_float -> spec_float -> spec_float := SFadd 24 128.
Definition fsub : spec_float -> spec_float -> spec_float := SFsub 24 128.
Definition fmul : spec_float -> spec_float -> spec_float := SFmul 24 128.
Definition dadd : spec_float -> spec_float -> spec_float := SFadd 53 1024.
Definition dsub : spec_float -> spec_float -> spec_float := SFsub 53 1024.
Definition dmul : spec_float -> spec_float -> spec_float := SFmul 53 1024.
Definition ddiv : spec_float -> spec_float -> spec_float := SFdiv 53 1024.

(** Conversion to an integer type, towards zero. *)
Definition to_int (f : spec_float) : Z :=
  match f with
  | S754_finite s m e =>
      cond_Zopp s (if 0 <=? e then Zpos m * 2 ^ e else Zpos m / 2 ^ (- e))
  | _ => 0
  end.

(** ** Times of day *)

(** The float of [m] minutes after midnight as both [parse_time] and
    [getDayHour] compute it: hours plus minutes over 60 in [double], rounded to
    [float]. *)
Definition hm (h m : Z) : spec_float :=
  to_float (dadd (to_double (f32_of_Z h)) (ddiv (to_double (f32_of_Z m)) (f64_of_Z 60))).

Definition hour (t : Z) : spec_float := hm (t / 60) (t mod 60).

(** Canonical floats are ordered by exponent, then mantissa. *)
Definition key (f : spec_float) : Z :=
  match f with
  | S754_finite s m e => cond_Zopp s ((e + 149) * 2 ^ 24 + Zpos m)
  | _ => 0
  end.

Definition canonical (f : spec_float) : bool :=
  match f with
  | S754_finite _ m e => (Zpos m <? 2 ^ 24) && (-149 <=? e)
  | S754_zero _ => true
  | _ => false
  end.

Lemma SFcompare_key f g :
  canonical f = true -> canonical g = true -> SFcompare f g = Some (key f ?= key g).
Proof.
  destruct f as [s1|s1| |s1 m1 e1], g as [s2|s2| |s2 m2 e2]; cbn [canonical]; try done;
    rewrite ?andb_true_iff, ?Z.ltb_lt, ?Z.leb_le; intros Hf Hg; cbn [SFcompare key];
    apply f_equal; symmetry.
  - destruct s2; cbn [cond_Zopp]; [apply Z.compare_gt_iff|apply Z.compare_lt_iff]; lia.
  - destruct s1; cbn [cond_Zopp]; [apply Z.compare_lt_iff|apply Z.compare_gt_iff]; lia.
  - change (Pos.compare_cont Eq m1 m2) with (Pos.compare m1 m2).
    destruct s1, s2; cbn [cond_Zopp]; try ((apply Z.compare_lt_iff || apply Z.compare_gt_iff); lia);
      destruct (Z.compare_spec e1 e2) as [->| |];
      try (apply Z.compare_lt_iff; lia); try (apply Z.compare_gt_iff; lia);
      destruct (Pos.compare_spec m1 m2) as [->| |]; cbn [CompOpp];
      try (apply Z.compare_eq_iff; lia); try (apply Z.compare_lt_iff; lia); apply Z.compare_gt_iff; lia.
Qed.

(** One pass over all the minutes from -1:00 to 25:00. *)
Fixpoint ascending (n : nat) (t k : Z) : bool :=
  match n with
  | O => true
  | S n => let f := hour t in
           let k' := key f in canonical f && (k <? k') && ascending n (t + 1) k'
  end.

Lemma hours_ascending : ascending 1561 (-60) (key (hour (-60)) - 1) = true.
Proof. vm_compute. reflexivity. Qed.

(** The times the windows use, -1:00 and 25:00 being the sentinels. *)
Definition minute (t : Z) : Prop := -60 <= t <= 1500.

Lemma ascending_spec n t0 k t :
  ascending n t0 k = true -> t0 <= t < t0 + Z.of_nat n ->
  canonical (hour t) = true /\ k < key (hour t) /\ (t0 < t -> key (hour (t - 1)) < key (hour t)).
Proof.
  revert t0 k. induction n as [|n IH]; intros t0 k; [lia|]. cbn [ascending].
  rewrite !andb_true_iff, Z.ltb_lt. intros [[Hc Hk] Ha] Ht.
  destruct (decide (t = t0)) as [->|Hne]; [split; [done|]; split; [done|lia]|].
  destruct (IH _ _ Ha) as (H1 & H2 & H3); [lia|]. split; [done|]. split; [lia|].
  intros _. destruct (decide (t = t0 + 1)) as [->|]; [by replace (t0 + 1 - 1) with t0 by lia|].
  apply H3. lia.
Qed.

Lemma hour_canonical t : minute t -> canonical (hour t) = true.
Proof. intros Ht. apply (ascending_spec _ _ _ t hours_ascending). unfold minute in Ht. lia. Qed.

Lemma hour_key_step a : -60 <= a < 1500 -> key (hour a) < key (hour (a + 1)).
Proof.
  intros Ha. destruct (ascending_spec _ _ _ (a + 1) hours_ascending) as (_ & _ & H); [lia|].
  replace (a + 1 - 1) with a in H by lia. apply H. lia.
Qed.

Lemma hour_key_lt a b : -60 <= a -> a < b -> b <= 1500 -> key (hour a) < key (hour b).
Proof.
  intros Ha Hab. pattern b. apply (Zlt_lower_bound_ind _ (a + 1)); [|lia]. clear b Hab.
  intros b IH Hab Hb. destruct (decide (b = a + 1)) as [->|].
  - apply hour_key_step. lia.
  - pose proof (IH (b - 1) ltac:(lia) ltac:(lia)) as H1. pose proof (hour_key_step (b - 1) ltac:(lia)) as H2.
    replace (b - 1 + 1) with b in H2 by lia. lia.
Qed.

(** Comparing times as floats is comparing them in minutes. *)
Lemma hour_compare a b : minute a -> minute b -> SFcompare (hour a) (hour b) = Some (a ?= b).
Proof.
  intros Ha Hb. rewrite SFcompare_key by by apply hour_canonical. f_equal. unfold minute in *.
  destruct (Z.compare_spec a b) as [->|H|H].
  - by rewrite Z.compare_refl.
  - apply Z.compare_lt_iff, hour_key_lt; lia.
  - apply Z.compare_gt_iff, hour_key_lt; lia.
Qed.

Lemma hour_ltb a b : minute a -> minute b -> SFltb (hour a) (hour b) = (a <? b).
Proof. intros Ha Hb. unfold SFltb. rewrite hour_compare by done. done. Qed.

Lemma hour_leb a b : minute a -> minute b -> SFleb (hour a) (hour b) = (a <=? b).
Proof. intros Ha Hb. unfold SFleb. rewrite hour_compare by done. by destruct (a ?= b) eqn:E; unfold Z.leb; rewrite E. Qed.

Lemma hour_eqb a b : minute a -> minute b -> SFeqb (hour a) (hour b) = (a =? b).
Proof.
  intros Ha Hb. unfold SFeqb. rewrite hour_compare by done.
  destruct (Z.compare_spec a b), (Z.eqb_spec a b); try done; lia.
Qed.

Create Rewrite HintDb hours.
#[export] Hint Rewrite hour_ltb hour_leb hour_eqb using (unfold minute in *; lia) : hours.
