(* ===== verification/FloatOrd.v ===== *)
(** * The order of floats

    Floats that are not NaN are ordered like integers: [rank] maps a [float] to
    an integer so that the comparisons of C compare ranks.  Every arithmetic
    operation at the precision of [float] gives a float of that kind. *)

From Stdlib Require Import SpecFloat.
From S2P Require Import Prelude Float32.

(** ** Ranks *)

Definition rank (f : spec_float) : Z :=
  match f with S754_infinity s => cond_Zopp s (2 ^ 40) | _ => key f end.

Definition is_nan (f : spec_float) : bool := match f with S754_nan => true | _ => false end.

(** A [float] as the machine stores it. *)
Definition float32 (f : spec_float) : bool :=
  match f with
  | S754_finite _ m e => (Zpos m <? 2 ^ 24) && (-149 <=? e) && (e <=? 104)
  | _ => true
  end.

(** ... that is a number or infinite. *)
Definition ordered (f : spec_float) : bool := float32 f && negb (is_nan f).

Lemma SFcompare_rank f g : ordered f = true -> ordered g = true -> SFcompare f g = Some (rank f ?= rank g).
Proof.
  assert (range : forall s m e, float32 (S754_finite s m e) = true -> canonical (S754_finite s m e) = true /\
    - 2 ^ 40 < key (S754_finite s m e) < 2 ^ 40).
  { intros s m e H. cbn in *. bool_prop. split; [apply andb_true_iff; split; [apply Z.ltb_lt|apply Z.leb_le]; lia|].
    destruct s; cbn [cond_Zopp]; lia. }
  unfold ordered. destruct f as [s1|s1| |s1 m1 e1], g as [s2|s2| |s2 m2 e2]; rewrite ?andb_false_r; try done;
    rewrite ?andb_true_r; intros Hf Hg.
  - by destruct s2.
  - rewrite SFcompare_key; [done|done|apply (range _ _ _ Hg)].
  - by destruct s1.
  - by destruct s1, s2.
  - destruct (range _ _ _ Hg) as [_ H]. cbn [SFcompare rank]. f_equal. symmetry. set (k := key _) in *. clearbody k.
    destruct s1; [apply Z.compare_lt_iff|apply Z.compare_gt_iff]; unfold cond_Zopp; lia.
  - rewrite SFcompare_key; [done|apply (range _ _ _ Hf)|done].
  - destruct (range _ _ _ Hf) as [_ H]. cbn [SFcompare rank]. f_equal. symmetry. set (k := key _) in *. clearbody k.
    destruct s2; [apply Z.compare_gt_iff|apply Z.compare_lt_iff]; unfold cond_Zopp; lia.
  - apply SFcompare_key; [apply (range _ _ _ Hf)|apply (range _ _ _ Hg)].
Qed.

Lemma SFleb_rank f g : ordered f = true -> ordered g = true -> SFleb f g = (rank f <=? rank g).
Proof.
  intros Hf Hg. unfold SFleb. rewrite SFcompare_rank by done. unfold Z.leb. by destruct (rank f ?= rank g).
Qed.

Lemma SFltb_rank f g : ordered f = true -> ordered g = true -> SFltb f g = (rank f <? rank g).
Proof.
  intros Hf Hg. unfold SFltb. rewrite SFcompare_rank by done. unfold Z.ltb. by destruct (rank f ?= rank g).
Qed.

Lemma SFeqb_rank f g : ordered f = true -> ordered g = true -> SFeqb f g = (rank f =? rank g).
Proof.
  intros Hf Hg. unfold SFeqb. rewrite SFcompare_rank by done. rewrite Z.eqb_compare. by destruct (rank f ?= rank g).
Qed.

(** ** Operations give floats *)

Lemma digits2_bound p : Zpos p < 2 ^ Zpos (digits2_pos p).
Proof.
  induction p as [p IH|p IH|]; cbn [digits2_pos]; rewrite ?Pos2Z.inj_succ, ?Z.pow_succ_r by lia; lia.
Qed.

Lemma shr_1_m r : 0 <= shr_m r -> shr_m (shr_1 r) = shr_m r / 2.
Proof. destruct r as [[|[p|p|]|[p|p|]] r0 s]; cbn; try lia; intros _; (apply Z.div_unique with 1; lia) || (apply Z.div_unique with 0; lia). Qed.

Lemma iter_shr p r : 0 <= shr_m r -> shr_m (SpecFloat.iter_pos shr_1 p r) = shr_m r / 2 ^ Zpos p.
Proof.
  revert r. assert (nn : forall r k, 0 <= shr_m r -> 0 <= shr_m r / 2 ^ Zpos k) by (intros; apply Z.div_pos; lia).
  induction p as [p IH|p IH|]; intros r Hr; cbn [SpecFloat.iter_pos].
  - assert (0 <= shr_m (shr_1 r)) by (rewrite shr_1_m by done; apply Z.div_pos; lia).
    rewrite IH by (rewrite IH by done; by apply nn). rewrite IH, shr_1_m by done.
    rewrite !Z.div_div by lia. apply (f_equal (Z.div _)).
    rewrite <- (Z.pow_1_r 2) at 1. rewrite <- !Z.pow_add_r by lia. apply (f_equal (Z.pow 2)). lia.
  - rewrite IH by (rewrite IH by done; by apply nn). rewrite IH by done.
    rewrite Z.div_div by lia. apply (f_equal (Z.div _)). rewrite <- Z.pow_add_r by lia. apply (f_equal (Z.pow 2)). lia.
  - by rewrite shr_1_m.
Qed.

Lemma shr_fexp_float m e l :
  0 <= m -> let '(r, e') := shr_fexp 24 128 m e l in 0 <= shr_m r < 2 ^ 24 /\ -149 <= e'.
Proof.
  intros Hm. unfold shr_fexp, shr, fexp, emin.
  assert (Hr : shr_m (shr_record_of_loc m l) = m) by (by destruct l as [|[]]).
  assert (Hd : m < 2 ^ Zdigits2 m /\ 0 <= Zdigits2 m).
  { destruct m as [|p|p]; [done|split; [apply digits2_bound|cbn; lia]|lia]. }
  set (d := Zdigits2 m) in *. clearbody d. destruct Hd as [Hd H0].
  destruct (Z.max (d + e - 24) (3 - 128 - 24) - e) as [|p|p] eqn:En.
  - rewrite Hr. split; [|lia]. split; [done|]. apply (Z.lt_le_trans _ _ _ Hd), Z.pow_le_mono_r; lia.
  - rewrite iter_shr, Hr by (by rewrite Hr). split; [|lia]. split; [apply Z.div_pos; lia|].
    apply Z.div_lt_upper_bound; [lia|]. rewrite <- Z.pow_add_r by lia. apply (Z.lt_le_trans _ _ _ Hd), Z.pow_le_mono_r; lia.
  - rewrite Hr. split; [|lia]. split; [done|]. apply (Z.lt_le_trans _ _ _ Hd), Z.pow_le_mono_r; lia.
Qed.

Lemma round_aux_float s m e l : 0 <= m -> ordered (binary_round_aux 24 128 s m e l) = true.
Proof.
  intros Hm. unfold binary_round_aux. pose proof (shr_fexp_float m e l Hm) as H1.
  destruct (shr_fexp 24 128 m e l) as [r e1]. set (m1 := round_nearest_even _ _).
  assert (0 <= m1) by (unfold m1, round_nearest_even; repeat case_match; lia).
  pose proof (shr_fexp_float m1 e1 loc_Exact ltac:(done)) as H2.
  destruct (shr_fexp 24 128 m1 e1 loc_Exact) as [r2 e2]. destruct H2 as [H2 H3].
  destruct (shr_m r2) as [|p|p]; [done| |lia]. change (128 - 24) with 104. destruct (Z.leb_spec e2 104); [|done].
  unfold ordered. cbn. rewrite andb_true_r, !andb_true_iff, Z.ltb_lt, !Z.leb_le. lia.
Qed.

Lemma round_aux_float32 s m e l : 0 <= m -> float32 (binary_round_aux 24 128 s m e l) = true.
Proof. intros Hm. pose proof (round_aux_float s m e l Hm) as H. by apply andb_true_iff in H as [? _]. Qed.

Lemma normalize_float m e s : ordered (binary_normalize 24 128 m e s) = true.
Proof.
  destruct m as [|p|p]; [done|..]; unfold binary_normalize, binary_round; destruct (shl_align _ _ _); by apply round_aux_float.
Qed.

Lemma to_float_float f : is_nan f = false -> ordered (to_float f) = true.
Proof. destruct f; try done. intros _. apply normalize_float. Qed.

Lemma f32_of_Z_float z : ordered (f32_of_Z z) = true.
Proof. apply normalize_float. Qed.

Lemma fdiv_float32 x y : float32 (SFdiv 24 128 x y) = true.
Proof.
  destruct x as [s1|s1| |s1 m1 e1], y as [s2|s2| |s2 m2 e2]; try done. cbn [SFdiv]. unfold SFdiv_core_binary.
  set (m' := match _ with Z0 => _ | _ => _ end).
  assert (0 <= m') by (unfold m'; case_match; [lia|apply Z.shiftl_nonneg; lia|lia]).
  pose proof (Z.div_pos m' (Zpos m2) ltac:(done) ltac:(lia)) as Hq.
  unfold Z.div in Hq. destruct (Z.div_eucl m' (Zpos m2)) as [q r].
  by apply round_aux_float32.
Qed.
