(* ===== verification/Fairshare.v ===== *)
(** * Fairshare, [lsbatch/daemons/mbd.fairshare.c]: accounts and priorities

    The users and groups that share a queue form a tree of share accounts.
    Every account has a dynamic priority, its shares over the load it has
    caused, and the children of an account are kept in ascending order of
    priority.  This file holds the accounts, the formula, the list of siblings
    and its upkeep, the load counters along a path to the root, and their decay.

    The accounts live in a map from addresses.  A child list is the sequence of
    accounts of its ring from the front; the operations of [list.c] on such
    rings are the subject of [ListLib.v].  The messages to the log are left
    out. *)

From Stdlib Require Import SpecFloat.
From S2P Require Import Prelude Lsb Float32 FloatOrd.

(** ** Data *)

Definition FS_IS_DEFAULT : Z := 0x1.
Definition FS_ALL_DEFAULT : Z := 0x2.
Definition FS_LEAF_GROUP : Z := 0x4.
Definition FS_SKIPABLE : Z := 0x8.
Definition FS_OUT_OTHERS : Z := 0x1.
Definition FS_IN_OTHERS : Z := 0x2.
Definition CALCULATE_INTERVAL : Z := 900.

(** [struct shareDistributePolicy]: its flags, the children ([None] for a null
    list) and the names of the users below ([None] for a null table). *)
Record shareDistributePolicy := ShareDistributePolicy {
  sp_flags : Z; sAcctList : option (list Z); usersTab : option (gset string) }.

(** [struct shareAcct]; [jListEntCache] is the key of the cached entry. *)
Record shareAcct := ShareAcct {
  name : string; path : string; share : Z; flags : Z; parent : Z; sharePolicy : option shareDistributePolicy;
  priority : spec_float; numStartJobs : Z; newUsedCpuTime : spec_float; histCpuTime : spec_float; runTime : Z;
  numSkippedChild : Z; jListEntCache : option string }.

Abbreviation accounts := (gmap Z shareAcct).

Definition set_flags (f : Z) (a : shareAcct) : shareAcct :=
  ShareAcct (name a) (path a) (share a) f (parent a) (sharePolicy a) (priority a) (numStartJobs a)
    (newUsedCpuTime a) (histCpuTime a) (runTime a) (numSkippedChild a) (jListEntCache a).
Definition set_priority (p : spec_float) (a : shareAcct) : shareAcct :=
  ShareAcct (name a) (path a) (share a) (flags a) (parent a) (sharePolicy a) p (numStartJobs a)
    (newUsedCpuTime a) (histCpuTime a) (runTime a) (numSkippedChild a) (jListEntCache a).
Definition set_load (n : Z) (u h : spec_float) (r : Z) (a : shareAcct) : shareAcct :=
  ShareAcct (name a) (path a) (share a) (flags a) (parent a) (sharePolicy a) (priority a) n
    u h r (numSkippedChild a) (jListEntCache a).
Definition set_share (n : Z) (a : shareAcct) : shareAcct :=
  ShareAcct (name a) (path a) n (flags a) (parent a) (sharePolicy a) (priority a) (numStartJobs a)
    (newUsedCpuTime a) (histCpuTime a) (runTime a) (numSkippedChild a) (jListEntCache a).
Definition set_policy (p : option shareDistributePolicy) (a : shareAcct) : shareAcct :=
  ShareAcct (name a) (path a) (share a) (flags a) (parent a) p (priority a) (numStartJobs a)
    (newUsedCpuTime a) (histCpuTime a) (runTime a) (numSkippedChild a) (jListEntCache a).
Definition set_skipped (n : Z) (a : shareAcct) : shareAcct :=
  ShareAcct (name a) (path a) (share a) (flags a) (parent a) (sharePolicy a) (priority a) (numStartJobs a)
    (newUsedCpuTime a) (histCpuTime a) (runTime a) n (jListEntCache a).
Definition set_cache (c : option string) (a : shareAcct) : shareAcct :=
  ShareAcct (name a) (path a) (share a) (flags a) (parent a) (sharePolicy a) (priority a) (numStartJobs a)
    (newUsedCpuTime a) (histCpuTime a) (runTime a) (numSkippedChild a) c.

Definition upd (m : accounts) (p : Z) (f : shareAcct -> shareAcct) : option accounts :=
  a ← m !! p; Some (<[p := f a]> m).

(** The children of an account. *)
Definition children (a : shareAcct) : list Z :=
  match sharePolicy a with Some p => default [] (sAcctList p) | None => [] end.
Definition FS_IS_LEAF_NODE (a : shareAcct) : bool := match children a with [] => true | _ => false end.

Definition set_children (l : list Z) (a : shareAcct) : shareAcct :=
  match sharePolicy a with
  | Some p => set_policy (Some (ShareDistributePolicy (sp_flags p) (Some l) (usersTab p))) a
  | None => a
  end.

(** The factors of the queue ([struct fsFactors], -1 for unset), those of the
    cluster, [clsDecay], and [pow] of the C library. *)
Record factors := Factors {
  cpuTimeFactor : spec_float; runTimeFactor : spec_float; runJobFactor : spec_float; histHours : spec_float }.
Record fsenv := FsEnv { fsFactors : factors; cluster : factors; clsDecay : spec_float; pow : spec_float -> spec_float -> spec_float }.

(** ** The priority *)

Definition fzero : spec_float := S754_zero false.
Definition fdiv : spec_float -> spec_float -> spec_float := SFdiv 24 128.
Definition set_factor (f : spec_float) : bool := negb (SFeqb f (f32_of_Z (-1))).
(** The constant [0.01]. *)
Definition hundredth : spec_float := ddiv (f64_of_Z 1) (f64_of_Z 100).

(** Note that the factor for jobs of a queue is only tested: the one for run
    time is used. *)
Definition load_metric (E : fsenv) (a : shareAcct) : spec_float :=
  let q := fsFactors E in
  let cpuTimeFactor_t := if set_factor (cpuTimeFactor q) then cpuTimeFactor q else cpuTimeFactor (cluster E) in
  let runTimeFactor_t := if set_factor (runTimeFactor q) then runTimeFactor q else runTimeFactor (cluster E) in
  let runJobFactor_t := if set_factor (runJobFactor q) then runTimeFactor q else runJobFactor (cluster E) in
  let load :=
    to_float (dadd
      (dadd (dmul (ddiv (to_double (fadd (newUsedCpuTime a) (histCpuTime a))) (f64_of_Z 3600)) (to_double cpuTimeFactor_t))
            (dmul (ddiv (f64_of_Z (runTime a)) (f64_of_Z 3600)) (to_double runTimeFactor_t)))
      (to_double (fmul (f32_of_Z (i32 (numStartJobs a + 1))) runJobFactor_t))) in
  if SFltb (to_double load) hundredth then to_float hundredth else load.

Definition calcDynamicPriority (E : fsenv) (a : shareAcct) : spec_float :=
  fdiv (f32_of_Z (share a)) (load_metric E a).

(** ** The order of siblings *)

Definition prio_of (m : accounts) (p : Z) : option spec_float := a ← m !! p; Some (priority a).

(** [inShareAcctList]: before the first account that is not less. *)
Fixpoint insert_acct (m : accounts) (p : spec_float) (x : Z) (l : list Z) : option (list Z) :=
  match l with
  | [] => Some [x]
  | c :: l' =>
      pc ← prio_of m c;
      if SFleb p pc then Some (x :: l) else l' ← insert_acct m p x l'; Some (c :: l')
  end.

Definition inShareAcctList (m : accounts) (holder x : Z) : option accounts :=
  h ← m !! holder;
  a ← m !! x;
  l ← insert_acct m (priority a) x (children h);
  upd m holder (set_children l).

(** The list before and behind an account. *)
Fixpoint split_at (x : Z) (l : list Z) : option (list Z * list Z) :=
  match l with
  | [] => None
  | c :: l => if c =? x then Some ([], l) else '(a, b) ← split_at x l; Some (c :: a, b)
  end.

(** The search to the right: the accounts that are passed, and the rest. *)
Fixpoint pass_right (m : accounts) (p : spec_float) (l : list Z) : option (list Z * list Z) :=
  match l with
  | [] => Some ([], [])
  | c :: l' =>
      pc ← prio_of m c;
      if SFleb p pc then Some ([], l) else '(a, b) ← pass_right m p l'; Some (c :: a, b)
  end.

(** The search to the left, through the reversed list. *)
Fixpoint pass_left (m : accounts) (p : spec_float) (l : list Z) : option (list Z * list Z) :=
  match l with
  | [] => Some ([], [])
  | c :: l' =>
      pc ← prio_of m c;
      if SFleb pc p then Some ([], l) else '(a, b) ← pass_left m p l'; Some (c :: a, b)
  end.

(** Is the account to the right smaller, the one to the left greater? *)
Definition right_less (m : accounts) (p : spec_float) (post : list Z) : option bool :=
  match post with [] => Some false | r :: _ => pr ← prio_of m r; Some (SFltb pr p) end.
Definition left_more (m : accounts) (p : spec_float) (pre : list Z) : option bool :=
  match last pre with None => Some false | Some c => pc ← prio_of m c; Some (SFltb p pc) end.

(** The new list of siblings. *)
Definition adjust (m : accounts) (x : Z) (p : spec_float) (l : list Z) : option (list Z) :=
  '(pre, post) ← split_at x l;
  less ← right_less m p post;
  more ← left_more m p pre;
  if bool_decide (pre = []) || less then
    '(a, b) ← pass_right m p post; Some (pre ++ a ++ x :: b)
  else if bool_decide (post = []) || more then
    '(a, b) ← pass_left m p (rev pre); Some (rev b ++ x :: rev a ++ post)
  else Some l.

Definition adjustOrderByPriority (m : accounts) (x : Z) : option accounts :=
  a ← m !! x;
  if parent a =? NULL then Some m else
  h ← m !! parent a;
  l ← adjust m x (priority a) (children h);
  upd m (parent a) (set_children l).

(** ** Load *)

(** [struct shareAcctUpd]: the type and the member of the union it selects. *)
Inductive shareAcctUpd :=
| SHARE_ACCT_UPD_CPUTIME (newUsedCpuTime : spec_float)
| SHARE_ACCT_UPD_DECAYED_CPUTIME (decayedCpuTime : spec_float)
| SHARE_ACCT_UPD_RUNTIME (runTime : Z)
| SHARE_ACCT_UPD_DECAYTIMES (decayTimes : Z)
| SHARE_ACCT_UPD_NUMSTARTJOBS (numStartJobs : Z).

(** The account itself and those above it. *)
Fixpoint along_path (fuel : nat) (m : accounts) (p : Z) (f : shareAcct -> shareAcct) : option accounts :=
  match fuel with
  | O => None
  | S k =>
      if p =? NULL then Some m else
      a ← m !! p;
      along_path k (<[p := f a]> m) (parent a) f
  end.
Definition path_fuel (m : accounts) : nat := S (size m).
Arguments path_fuel : simpl never.

Definition add_cpu (d : spec_float) (a : shareAcct) : shareAcct :=
  let u := fadd (newUsedCpuTime a) d in
  set_load (numStartJobs a) (if SFltb u fzero then fzero else u) (histCpuTime a) (runTime a) a.
Definition add_hist (d : spec_float) (a : shareAcct) : shareAcct :=
  set_load (numStartJobs a) (newUsedCpuTime a) (fadd (histCpuTime a) d) (runTime a) a.
Definition add_run (d : Z) (a : shareAcct) : shareAcct :=
  let r := i32 (runTime a + d) in
  set_load (numStartJobs a) (newUsedCpuTime a) (histCpuTime a) (if r <? 0 then 0 else r) a.
Definition add_jobs (d : Z) (a : shareAcct) : shareAcct :=
  let n := i32 (numStartJobs a + d) in
  set_load (if n <? 0 then 0 else n) (newUsedCpuTime a) (histCpuTime a) (runTime a) a.

(** The rate of decay of the queue's accounts; [None] if nothing decays. *)
Definition decay_rate (E : fsenv) : option spec_float :=
  let h := histHours (fsFactors E) in
  if SFeqb h fzero then None
  else if SFltb fzero h
  then Some (to_float (pow E (f64_of_Z 10) (ddiv (f64_of_Z (-1)) (to_double (fmul h (f32_of_Z 4))))))
  else Some (clsDecay E).

Definition decay (E : fsenv) (times : Z) (a : shareAcct) : shareAcct :=
  match decay_rate E with
  | None => a
  | Some r =>
      let multiplier := pow E (to_double r) (f64_of_Z (i32 (times - 1))) in
      let h := fadd (fmul (histCpuTime a) r) (newUsedCpuTime a) in
      set_load (numStartJobs a) fzero (to_float (dmul (to_double h) multiplier)) (runTime a) a
  end.

Definition updShareAcctStats (E : fsenv) (m : accounts) (p : Z) (u : shareAcctUpd) : option accounts :=
  match u with
  | SHARE_ACCT_UPD_CPUTIME d => along_path (path_fuel m) m p (add_cpu d)
  | SHARE_ACCT_UPD_DECAYED_CPUTIME d => along_path (path_fuel m) m p (add_hist d)
  | SHARE_ACCT_UPD_RUNTIME d => along_path (path_fuel m) m p (add_run d)
  | SHARE_ACCT_UPD_DECAYTIMES n => upd m p (decay E n)
  | SHARE_ACCT_UPD_NUMSTARTJOBS d => along_path (path_fuel m) m p (add_jobs d)
  end.

Fixpoint priority_path (fuel : nat) (E : fsenv) (m : accounts) (p : Z) : option accounts :=
  match fuel with
  | O => None
  | S k =>
      if p =? NULL then Some m else
      m ← upd m p (fun a => set_priority (calcDynamicPriority E a) a);
      m ← adjustOrderByPriority m p;
      a ← m !! p;
      priority_path k E m (parent a)
  end.
Definition updSAcctPriorityByPath (E : fsenv) (m : accounts) (p : Z) : option accounts :=
  priority_path (path_fuel m) E m p.

(** ** Decay *)

(** [curAcct->flags &= ~FS_SKIPABLE] for the accounts of a list. *)
Fixpoint clear_skip (m : accounts) (l : list Z) : option accounts :=
  match l with
  | [] => Some m
  | c :: l => m ← upd m c (fun a => set_flags (Z.ldiff (flags a) FS_SKIPABLE) a); clear_skip m l
  end.

(** The account behind [c] in the ring of its siblings; [None] is the header. *)
Definition next_sibling (l : list Z) (c : Z) : option (option Z) :=
  '(_, post) ← split_at c l; Some (head post).

(** An account decays, is flagged, and moves to its new place. *)
Definition decay_one (E : fsenv) (times : Z) (m : accounts) (c : Z) : option accounts :=
  m ← updShareAcctStats E m c (SHARE_ACCT_UPD_DECAYTIMES times);
  m ← upd m c (fun a => set_flags (Z.lor (flags a) FS_SKIPABLE) a);
  m ← upd m c (fun a => set_priority (calcDynamicPriority E a) a);
  adjustOrderByPriority m c.

(** The second loop of [traverseUpd4Decay] from the account [c] on.  The next
    account is fetched before [c] may move. *)
Fixpoint decay_siblings (fuel : nat) (E : fsenv) (times : Z) (m : accounts) (par : Z) (c : option Z) : option accounts :=
  match fuel, c with
  | _, None => Some m
  | O, _ => None
  | S k, Some c =>
      h ← m !! par;
      nxt ← next_sibling (children h) c;
      a ← m !! c;
      if has (flags a) FS_SKIPABLE then decay_siblings k E times m par nxt else
      m ← decay_one E times m c;
      decay_siblings k E times m par nxt
  end.

(** A loop over accounts. *)
Fixpoint each (f : accounts -> Z -> option accounts) (m : accounts) (l : list Z) : option accounts :=
  match l with [] => Some m | c :: l => m ← f m c; each f m l end.

(** [traverseUpd4Decay] of the first account of the list of [par].  An empty
    list would give the list's header for an account. *)
Fixpoint decay_level (fuel : nat) (E : fsenv) (times : Z) (m : accounts) (par : Z) : option accounts :=
  match fuel with
  | O => None
  | S k =>
      h ← m !! par;
      match children h with
      | [] => None
      | l =>
          m ← clear_skip m l;
          m ← decay_siblings (S (2 * length l)) E times m par (head l);
          h ← m !! par;
          each (fun m c =>
                  a ← m !! c;
                  match sharePolicy a with
                  | Some (ShareDistributePolicy _ (Some _) _) => decay_level k E times m c
                  | _ => Some m
                  end) m (children h)
      end
  end.

(** [traverseUpd4Decay] of the root. *)
Definition traverseUpd4Decay (E : fsenv) (times : Z) (m : accounts) (root : Z) : option accounts :=
  m ← updShareAcctStats E m root (SHARE_ACCT_UPD_DECAYTIMES times);
  a ← m !! root;
  match sharePolicy a with
  | Some (ShareDistributePolicy _ (Some _) _) => decay_level (path_fuel m) E times m root
  | _ => Some m
  end.

(** [updAllSAcctForDecay] over the trees of the queues, each with its factors;
    [lastDecayTime] is the static variable. *)
Definition no_decay (E : fsenv) : bool :=
  let h := histHours (fsFactors E) in
  SFeqb h fzero || (SFltb h fzero && SFeqb (histHours (cluster E)) fzero).

Fixpoint decay_policies (times : Z) (m : accounts) (l : list (fsenv * Z)) : option accounts :=
  match l with
  | [] => Some m
  | (E, root) :: l =>
      m ← (if no_decay E then Some m else traverseUpd4Decay E times m root);
      decay_policies times m l
  end.

Definition updAllSAcctForDecay (eventTime lastDecayTime : Z) (m : accounts) (policies : list (fsenv * Z))
    : option (Z * accounts) :=
  let lastDecayTime := if lastDecayTime =? 0 then eventTime else lastDecayTime in
  if eventTime - lastDecayTime <? CALCULATE_INTERVAL then Some (lastDecayTime, m) else
  let decayTimes := i32 (Z.quot (eventTime - lastDecayTime) CALCULATE_INTERVAL) in
  m ← decay_policies decayTimes m policies;
  Some (eventTime, m).

(** ** Jobs *)

(** What is read of a job: its user, the hosts it runs on, the account it is
    attached to, and its use of CPU time. *)
Record fsJob := FsJob {
  userName : string; numHostPtr : Z; sa : Z; cpuTime : spec_float; utime : Z; stime : Z }.
Definition set_sa (p : Z) (j : fsJob) : fsJob := FsJob (userName j) (numHostPtr j) p (cpuTime j) (utime j) (stime j).

(** [attachJob2FSTree]; [found] is the answer of [getSAcctForJob] when no
    account is given.  Note that the priorities are brought up to date for the
    account that was given only. *)
Definition attachJob2FSTree (E : fsenv) (m : accounts) (j : fsJob) (given found : Z) : option (fsJob * accounts) :=
  let sAcct := if given =? NULL then found else given in
  if sAcct =? NULL then Some (j, m) else
  m ← updShareAcctStats E m sAcct (SHARE_ACCT_UPD_NUMSTARTJOBS (numHostPtr j));
  m ← updSAcctPriorityByPath E m given;
  Some (set_sa sAcct j, m).

Definition detachedJobFromFSTree (E : fsenv) (m : accounts) (j : fsJob) : option (fsJob * accounts) :=
  if sa j =? NULL then Some (j, m) else
  m ← updShareAcctStats E m (sa j) (SHARE_ACCT_UPD_NUMSTARTJOBS (i32 (- numHostPtr j)));
  m ← updSAcctPriorityByPath E m (sa j);
  Some (set_sa NULL j, m).

(** [MIN_CPU_TIME] *)
Definition MIN_CPU_TIME : spec_float := ddiv (f64_of_Z 1) (f64_of_Z 10000).

Definition accumHistCpuTime (E : fsenv) (m : accounts) (j : fsJob) : option accounts :=
  if sa j =? NULL then Some m else
  let used := i32 (utime j + stime j) in
  let updatedCpuTime :=
    if 0 <? used then SFabs (fsub (cpuTime j) (f32_of_Z used))
    else if SFltb MIN_CPU_TIME (to_double (cpuTime j)) then cpuTime j else fzero in
  if SFltb (to_double updatedCpuTime) MIN_CPU_TIME then Some m
  else updShareAcctStats E m (sa j) (SHARE_ACCT_UPD_CPUTIME updatedCpuTime).
