(* ===== verification/FairTree.v ===== *)
(** * Fairshare: the tree of accounts and its order

    Well-formed trees, the equivalence of trees that differ in the order of
    siblings and in everything but the links, and the proofs that the upkeep
    of priorities keeps every list of siblings in ascending order. *)

From Stdlib Require Import SpecFloat Sorting.Sorted.
From S2P Require Import Prelude Lsb Float32 FloatOrd Fairshare.

(** ** Well-formed trees *)

(** The accounts from [p] up to the root. *)
Inductive up_path (m : accounts) : Z -> list Z -> Prop :=
| up_null : up_path m NULL []
| up_acct p a l : p <> NULL -> m !! p = Some a -> up_path m (parent a) l -> up_path m p (p :: l).

Record wf (m : accounts) : Prop := {
  wf_null : m !! NULL = None;
  wf_kid : forall p h c, m !! p = Some h -> c ∈ children h -> exists a, m !! c = Some a /\ parent a = p;
  wf_par : forall p a, m !! p = Some a -> parent a <> NULL -> exists h, m !! parent a = Some h /\ p ∈ children h;
  wf_nodup : forall p h, m !! p = Some h -> NoDup (children h);
  wf_up : forall p a, m !! p = Some a -> exists l, up_path m p l }.

(** The same accounts with the same links, up to the order of siblings. *)
Definition alike (a b : shareAcct) : Prop := parent a = parent b /\ children a ≡ₚ children b.
Definition same_tree (m m' : accounts) : Prop := forall p, option_Forall2 alike (m !! p) (m' !! p).

#[global] Instance alike_equiv : Equivalence alike.
Proof.
  split.
  - intros a. by split.
  - intros a b [H1 H2]. split; by symmetry.
  - intros a b c [H1 H2] [H3 H4]. split; [congruence|by etrans].
Qed.
#[global] Instance same_tree_equiv : Equivalence same_tree.
Proof.
  split.
  - intros m p. reflexivity.
  - intros m m' H p. symmetry. apply H.
  - intros m1 m2 m3 H1 H2 p. exact (transitivity (H1 p) (H2 p)).
Qed.

Lemma same_tree_lookup m m' p a : same_tree m m' -> m !! p = Some a -> exists a', m' !! p = Some a' /\ alike a a'.
Proof. intros H Ha. specialize (H p). rewrite Ha in H. inversion H; subst. by eexists. Qed.

Lemma same_tree_none m m' p : same_tree m m' -> m !! p = None -> m' !! p = None.
Proof. intros H Ha. specialize (H p). rewrite Ha in H. by inversion H. Qed.

#[global] Instance up_path_proper : Proper (same_tree ==> eq ==> eq ==> iff) up_path.
Proof.
  assert (forall m m' p l, same_tree m m' -> up_path m p l -> up_path m' p l) as H.
  { intros m m' p l Hs Hp. induction Hp as [|p a l Hn Ha _ IH]; [constructor|].
    destruct (same_tree_lookup m m' p a Hs Ha) as (a' & Ha' & Hpar & _). econstructor; [done|done|by rewrite <- Hpar]. }
  intros m m' Hs p ? <- l ? <-. split; apply H; [done|by symmetry].
Qed.

#[global] Instance wf_proper : Proper (same_tree ==> iff) wf.
Proof.
  assert (forall m m', same_tree m m' -> wf m -> wf m') as H.
  { intros m m' Hs Hw. assert (Hs' : same_tree m' m) by by symmetry. split.
    - by apply (same_tree_none m), (wf_null m Hw).
    - intros p h' c Hh' Hc. destruct (same_tree_lookup _ _ _ _ Hs' Hh') as (h & Hh & _ & Hk). rewrite Hk in Hc.
      destruct (wf_kid m Hw p h c Hh Hc) as (a & Ha & <-). destruct (same_tree_lookup _ _ _ _ Hs Ha) as (a' & Ha' & Hp & _). by exists a'.
    - intros p a' Ha' Hp. destruct (same_tree_lookup _ _ _ _ Hs' Ha') as (a & Ha & Hpa & _). rewrite Hpa in Hp |- *.
      destruct (wf_par m Hw p a Ha Hp) as (h & Hh & Hin). destruct (same_tree_lookup _ _ _ _ Hs Hh) as (h' & Hh' & _ & Hk).
      exists h'. by rewrite <- Hk.
    - intros p h' Hh'. destruct (same_tree_lookup _ _ _ _ Hs' Hh') as (h & Hh & _ & Hk). rewrite Hk. by apply (wf_nodup m Hw p).
    - intros p a' Ha'. destruct (same_tree_lookup _ _ _ _ Hs' Ha') as (a & Ha & _). destruct (wf_up m Hw p a Ha) as [l Hl].
      exists l. by rewrite Hs'. }
  intros m m' Hs. split; apply H; [done|by symmetry].
Qed.

Lemma same_tree_insert m p a b : m !! p = Some a -> alike a b -> same_tree m (<[p := b]> m).
Proof.
  intros Ha Hb q. destruct (decide (q = p)) as [->|Hne]; [rewrite lookup_insert_eq, Ha; by constructor|].
  rewrite lookup_insert_ne by done. reflexivity.
Qed.

Lemma up_path_fun m p l l' : up_path m p l -> up_path m p l' -> l = l'.
Proof.
  intros H. revert l'. induction H as [|p a l Hn Ha _ IH]; intros l' H'; inversion H'; subst; try done.
  f_equal. apply IH. congruence.
Qed.

Lemma up_path_suffix m p l q : up_path m p l -> q ∈ l -> exists l1 l2, l = l1 ++ l2 /\ up_path m q l2 /\ l2 <> [].
Proof.
  intros H Hq. induction H as [|p a l Hn Ha Hl IH]; [by apply elem_of_nil in Hq|].
  apply elem_of_cons in Hq as [->|Hq].
  - exists [], (p :: l). split; [done|]. split; [by econstructor|done].
  - destruct (IH Hq) as (l1 & l2 & -> & H2 & H3). by exists (p :: l1), l2.
Qed.

Lemma up_path_nodup m p l : up_path m p l -> NoDup l.
Proof.
  intros H. induction H as [|p a l Hn Ha Hl IH]; constructor; [|done]. intros Hin.
  destruct (up_path_suffix m (parent a) l p Hl Hin) as (l1 & l2 & E & H2 & _).
  pose proof (up_path_fun m p _ _ (up_acct m p a l Hn Ha Hl) H2) as E2. subst l.
  apply (f_equal length) in E2. cbn in E2. rewrite length_app in E2. lia.
Qed.

Lemma up_path_dom m p l q : up_path m p l -> q ∈ l -> exists a, m !! q = Some a.
Proof.
  intros H Hq. destruct (up_path_suffix m p l q H Hq) as (l1 & l2 & _ & H2 & H3). inversion H2; subst; [done|]. by eexists.
Qed.

Lemma up_path_fuel m p l : up_path m p l -> (length l < path_fuel m)%nat.
Proof.
  intros H. unfold path_fuel. rewrite <- size_dom.
  assert (length l <= size (dom m))%nat; [|lia].
  rewrite <- (size_list_to_set (C := gset Z) l) by by eapply up_path_nodup.
  apply subseteq_size. intros q Hq%elem_of_list_to_set. destruct (up_path_dom m p l q H Hq) as [a Ha]. by eapply elem_of_dom_2.
Qed.

(** ** Walking up *)

Lemma along_path_spec m p l f fuel :
  up_path m p l -> (forall a, alike a (f a)) -> (length l < fuel)%nat ->
  exists m', along_path fuel m p f = Some m' /\ same_tree m m' /\
    forall q, m' !! q = if bool_decide (q ∈ l) then f <$> m !! q else m !! q.
Proof.
  intros Hp Hf. revert fuel m Hp. revert p. induction l as [|q l IH]; intros p fuel m Hp Hfu; (destruct fuel as [|fuel]; [lia|]).
  - inversion Hp; subst. exists m. split; [done|]. split; [done|]. intros q. by rewrite bool_decide_eq_false_2 by apply not_elem_of_nil.
  - inversion Hp as [|? a ? Hn Ha Hl]; subst. cbn [along_path]. rewrite (proj2 (Z.eqb_neq _ _) Hn), Ha. cbn [mbind option_bind].
    pose proof (same_tree_insert m q a (f a) Ha (Hf a)) as Hs.
    pose proof (up_path_nodup _ _ _ Hp) as Hnd. apply NoDup_cons in Hnd as [Hq Hnd].
    destruct (IH (parent a) fuel (<[q := f a]> m)) as (m' & Hm' & Hs' & Hlk); [by rewrite <- Hs|cbn in Hfu; lia|].
    exists m'. split; [done|]. split; [by etrans|]. intros r. rewrite Hlk. destruct (decide (r = q)) as [->|Hne].
    + rewrite bool_decide_eq_false_2, bool_decide_eq_true_2 by (done || set_solver). by rewrite lookup_insert_eq, Ha.
    + rewrite lookup_insert_ne by done. by rewrite (bool_decide_ext (r ∈ l) (r ∈ q :: l)) by set_solver.
Qed.

(** ** The order of siblings *)

(** The rank of an account's priority, and lists in ascending order of rank. *)
Definition rk (m : accounts) (p : Z) : Z := match m !! p with Some a => rank (priority a) | None => 0 end.
Definition ascending (m : accounts) (l : list Z) : Prop := StronglySorted (fun x y => rk m x <= rk m y) l.

(** Every priority is a number. *)
Definition numbers (m : accounts) : Prop := forall p a, m !! p = Some a -> ordered (priority a) = true.
Definition in_order (m : accounts) : Prop := forall p h, m !! p = Some h -> ascending m (children h).
(** ... and stays one when it is computed anew. *)
Definition loads_ok (E : fsenv) (m : accounts) : Prop :=
  forall p a, m !! p = Some a -> is_nan (calcDynamicPriority E a) = false.

Lemma calc_ordered E a : is_nan (calcDynamicPriority E a) = false -> ordered (calcDynamicPriority E a) = true.
Proof. intros H. unfold ordered. rewrite H. unfold calcDynamicPriority, fdiv. by rewrite fdiv_float32. Qed.

Lemma prio_of_rk m c : numbers m -> is_Some (m !! c) -> exists pc, prio_of m c = Some pc /\ ordered pc = true /\ rank pc = rk m c.
Proof. intros Hn [a Ha]. exists (priority a). unfold prio_of, rk. rewrite Ha. split; [done|]. by split; [apply (Hn c)|]. Qed.

Lemma ascending_app m l1 l2 :
  ascending m (l1 ++ l2) <-> ascending m l1 /\ ascending m l2 /\ forall x y, x ∈ l1 -> y ∈ l2 -> rk m x <= rk m y.
Proof.
  induction l1 as [|c l1 IH]; cbn [app].
  - split; [|by intros (_ & ? & _)]. intros H. split; [constructor|]. split; [done|]. intros x y []%elem_of_nil.
  - split.
    + intros [H1 H2]%StronglySorted_inv. apply IH in H1 as (H1 & H3 & H4). apply Forall_app in H2 as [H5 H6].
      split; [by constructor|]. split; [done|]. intros x y [->|Hx]%elem_of_cons Hy; [by apply (proj1 (Forall_forall _ _) H6)|by apply H4].
    + intros (H1 & H2 & H3). apply StronglySorted_inv in H1 as [H1 H4]. constructor.
      * apply IH. split; [done|]. split; [done|]. intros x y Hx Hy. apply H3; [by right|done].
      * apply Forall_app. split; [done|]. apply Forall_forall. intros y Hy. apply H3; [by left|done].
Qed.

Lemma ascending_cons m c l : ascending m (c :: l) <-> ascending m l /\ forall y, y ∈ l -> rk m c <= rk m y.
Proof.
  unfold ascending. split.
  - intros [H1 H2]%StronglySorted_inv. split; [done|]. by apply Forall_forall.
  - intros [H1 H2]. constructor; [done|]. by apply Forall_forall.
Qed.

Lemma ascending_ext m m' l : (forall x, x ∈ l -> rk m x = rk m' x) -> ascending m l -> ascending m' l.
Proof.
  intros H. induction l as [|c l IH]; [constructor|]. rewrite !ascending_cons. intros [H1 H2].
  split; [apply IH; [|done]; intros x Hx; apply H; by right|].
  intros y Hy. rewrite <- !H by (by constructor). auto.
Qed.

Lemma pass_right_spec m p l :
  numbers m -> Forall (fun c => is_Some (m !! c)) l -> ordered p = true -> ascending m l ->
  exists a b, pass_right m p l = Some (a, b) /\ l = a ++ b /\
    (forall x, x ∈ a -> rk m x < rank p) /\ (forall x, x ∈ b -> rank p <= rk m x).
Proof.
  intros Hn Hl Hp. induction l as [|c l IH]; intros Hs; cbn [pass_right].
  { exists [], []. split; [done|]. split; [done|]. split; intros x []%elem_of_nil. }
  apply Forall_cons in Hl as [Hc Hl]. apply ascending_cons in Hs as [Hs Hle].
  destruct (prio_of_rk m c Hn Hc) as (pc & -> & Hpc & Er). cbn [mbind option_bind]. rewrite SFleb_rank, Er by done.
  destruct (Z.leb_spec (rank p) (rk m c)).
  - exists [], (c :: l). split; [done|]. split; [done|]. split; [intros x []%elem_of_nil|].
    intros x [->|Hx]%elem_of_cons; [done|]. specialize (Hle x Hx). lia.
  - destruct (IH Hl Hs) as (a & b & -> & -> & Ha & Hb). cbn [mbind option_bind]. exists (c :: a), b.
    split; [done|]. split; [done|]. split; [|done]. intros x [->|Hx]%elem_of_cons; [done|auto].
Qed.

Lemma pass_left_spec m p l :
  numbers m -> Forall (fun c => is_Some (m !! c)) l -> ordered p = true -> ascending m l ->
  exists a b, pass_left m p (rev l) = Some (rev b, rev a) /\ l = a ++ b /\
    (forall x, x ∈ a -> rk m x <= rank p) /\ (forall x, x ∈ b -> rank p < rk m x).
Proof.
  intros Hn Hl Hp. induction l as [|c l IH] using rev_ind; intros Hs.
  { exists [], []. split; [done|]. split; [done|]. split; intros x []%elem_of_nil. }
  rewrite rev_app_distr. cbn [rev app pass_left].
  apply Forall_app in Hl as [Hl Hc]. apply Forall_cons_1 in Hc as [Hc _]. apply ascending_app in Hs as (Hs & _ & Hle).
  destruct (prio_of_rk m c Hn Hc) as (pc & -> & Hpc & Er). cbn [mbind option_bind]. rewrite SFleb_rank, Er by done.
  destruct (Z.leb_spec (rk m c) (rank p)).
  - exists (l ++ [c]), []. rewrite rev_app_distr, app_nil_r. split; [done|]. split; [done|]. split; [|intros x []%elem_of_nil].
    intros x [Hx| ->%list_elem_of_singleton]%elem_of_app; [|done]. specialize (Hle x c Hx ltac:(by left)). lia.
  - destruct (IH Hl Hs) as (a & b & -> & -> & Ha & Hb). cbn [mbind option_bind]. exists a, (b ++ [c]).
    rewrite rev_app_distr, app_assoc. split; [done|]. split; [done|]. split; [done|].
    intros x [Hx| ->%list_elem_of_singleton]%elem_of_app; [auto|done].
Qed.

Lemma split_at_spec x l : x ∈ l -> exists a b, split_at x l = Some (a, b) /\ l = a ++ x :: b.
Proof.
  induction l as [|c l IH]; [by intros []%elem_of_nil|]. intros Hx. cbn [split_at].
  destruct (Z.eqb_spec c x) as [->|Hne]; [by exists [], l|].
  apply elem_of_cons in Hx as [->|Hx]; [done|]. destruct (IH Hx) as (a & b & -> & ->). by exists (c :: a), b.
Qed.

(** Putting an account between smaller and larger ones. *)
Lemma ascending_between m x a b :
  ascending m (a ++ b) -> (forall y, y ∈ a -> rk m y <= rk m x) -> (forall y, y ∈ b -> rk m x <= rk m y) ->
  ascending m (a ++ x :: b).
Proof.
  rewrite !ascending_app, ascending_cons. intros (H1 & H2 & H3) Ha Hb. split; [done|]. split; [done|].
  intros y z Hy [->|Hz]%elem_of_cons; auto.
Qed.

Lemma right_less_spec m p x post :
  numbers m -> Forall (fun c => is_Some (m !! c)) post -> ascending m post -> ordered p = true -> rank p = rk m x ->
  exists b, right_less m p post = Some b /\ (b = false -> forall y, y ∈ post -> rk m x <= rk m y) /\
    (b = true -> exists r t, post = r :: t /\ rk m r < rk m x).
Proof.
  intros Hn Hl Hs Hp Er. destruct post as [|r t]; [by exists false; split; [|split; [intros _ y []%elem_of_nil|]]|].
  apply Forall_cons_1 in Hl as [Hr _]. apply ascending_cons in Hs as [_ Hle]. cbn [right_less].
  destruct (prio_of_rk m r Hn Hr) as (pr & -> & Hpr & E). cbn [mbind option_bind]. rewrite SFltb_rank, E, Er by done.
  exists (rk m r <? rk m x). split; [done|]. split; intros Hb; bool_prop; [|by exists r, t].
  intros y [->|Hy]%elem_of_cons; [done|]. specialize (Hle y Hy). lia.
Qed.

Lemma left_more_spec m p x pre :
  numbers m -> Forall (fun c => is_Some (m !! c)) pre -> ascending m pre -> ordered p = true -> rank p = rk m x ->
  exists b, left_more m p pre = Some b /\ (b = false -> forall y, y ∈ pre -> rk m y <= rk m x).
Proof.
  intros Hn Hl Hs Hp Er. unfold left_more.
  destruct pre as [|c t _] using rev_ind; [by exists false; split; [|intros _ y []%elem_of_nil]|].
  rewrite last_snoc. apply Forall_app in Hl as [_ Hr]. apply Forall_cons_1 in Hr as [Hr _]. apply ascending_app in Hs as (_ & _ & Hle).
  destruct (prio_of_rk m c Hn Hr) as (pr & -> & Hpr & E). cbn [mbind option_bind]. rewrite SFltb_rank, E, Er by done.
  exists (rk m x <? rk m c). split; [done|]. intros Hb; bool_prop.
  intros y [Hy| ->%list_elem_of_singleton]%elem_of_app; [|done]. specialize (Hle y c Hy ltac:(by left)). lia.
Qed.

Lemma filter_around (x : Z) pre post :
  NoDup (pre ++ x :: post) -> filter (fun y => y <> x) (pre ++ x :: post) = pre ++ post.
Proof.
  intros Hnd. apply NoDup_app in Hnd as (Hp & Hx & Hq). apply NoDup_cons in Hq as [Hx2 _].
  rewrite filter_app, filter_cons_False by naive_solver.
  rewrite !(filter_all (fun y => y <> x)); [done|..]; apply Forall_forall; intros y Hy ->; [done|].
  apply (Hx x Hy). by left.
Qed.

(** One account is out of place: it is put where it belongs. *)
Lemma adjust_spec m x l pre post p :
  numbers m -> Forall (fun c => is_Some (m !! c)) l -> l = pre ++ x :: post -> split_at x l = Some (pre, post) ->
  ascending m (pre ++ post) -> ordered p = true -> rank p = rk m x -> NoDup l ->
  exists l', adjust m x p l = Some l' /\ l' ≡ₚ l /\ ascending m l' /\
    filter (fun y => y <> x) l' = filter (fun y => y <> x) l.
Proof.
  intros Hn Hl El Esp Hs Hp Er Hnd.
  assert (Hfil : forall a b, a ++ b = pre ++ post -> a ++ x :: b ≡ₚ l -> filter (fun y => y <> x) (a ++ x :: b) = filter (fun y => y <> x) l).
  { intros a b E Hpm. rewrite filter_around by (by rewrite Hpm). rewrite El, filter_around by (by rewrite <- El). done. } unfold adjust. rewrite Esp. cbn [mbind option_bind].
  pose proof Hl as Hl'. rewrite El in Hl'. apply Forall_app in Hl' as [Hpre Hpost]. apply Forall_cons_1 in Hpost as [_ Hpost].
  pose proof Hs as Hs'. apply ascending_app in Hs' as (Hs1 & Hs2 & Hs3).
  destruct (right_less_spec m p x post) as (rl & -> & Hrf & Hrt); try done.
  destruct (left_more_spec m p x pre) as (lm & -> & Hlf); try done.
  cbn [mbind option_bind]. destruct (bool_decide (pre = []) || rl) eqn:Eb.
  - destruct (pass_right_spec m p post Hn Hpost Hp Hs2) as (a & b & -> & -> & Ha & Hb). cbn [mbind option_bind]. eexists.
    split; [done|]. assert (Hpm : (pre ++ a) ++ x :: b ≡ₚ l) by (rewrite El, <- app_assoc; by rewrite (Permutation_middle a b x)).
    rewrite app_assoc. split; [done|]. split; [|apply Hfil; [by rewrite <- app_assoc|done]]. rewrite Er in Ha, Hb.
    apply ascending_between; [by rewrite <- app_assoc|intros y [Hy|Hy]%elem_of_app|done].
    + apply orb_true_iff in Eb as [Eb| ->]; [apply bool_decide_eq_true in Eb; subst pre; by apply elem_of_nil in Hy|].
      destruct (Hrt eq_refl) as (r & t & E & Hr). specialize (Hs3 y r Hy). rewrite E in Hs3. specialize (Hs3 ltac:(by left)). lia.
    + specialize (Ha y Hy). lia.
  - apply orb_false_iff in Eb as [Eb ->]. destruct (bool_decide (post = []) || lm) eqn:Ec.
    + destruct (pass_left_spec m p pre Hn Hpre Hp Hs1) as (a & b & -> & -> & Ha & Hb). cbn [mbind option_bind]. rewrite !rev_involutive.
      assert (Hpm : a ++ x :: b ++ post ≡ₚ l) by (rewrite El, <- app_assoc; by rewrite (Permutation_middle b post x)).
      eexists. split; [done|]. split; [done|]. split; [|apply Hfil; [by rewrite app_assoc|done]].
      rewrite Er in Ha, Hb. apply ascending_between; [by rewrite app_assoc|done|intros y [Hy|Hy]%elem_of_app].
      * specialize (Hb y Hy). lia.
      * by apply Hrf.
    + apply orb_false_iff in Ec as [Ec ->]. exists l. split; [done|]. split; [done|]. split; [|done]. rewrite El.
      apply ascending_between; auto.
Qed.

(** Everything of an account but the order of its children. *)
Definition same_acct (a b : shareAcct) : Prop :=
  b = a \/ exists l, children a <> [] /\ l ≡ₚ children a /\ b = set_children l a.

(** All lists are in order, [x] apart. *)
Definition in_order_but (x : Z) (m : accounts) : Prop :=
  forall p h, m !! p = Some h -> ascending m (filter (fun y => y <> x) (children h)).

Lemma children_set l a : children a <> [] -> children (set_children l a) = l.
Proof. unfold children, set_children. by destruct (sharePolicy a) as [[]|]. Qed.

Lemma set_children_fields l a :
  parent (set_children l a) = parent a /\ priority (set_children l a) = priority a /\ flags (set_children l a) = flags a /\
  numStartJobs (set_children l a) = numStartJobs a /\ newUsedCpuTime (set_children l a) = newUsedCpuTime a /\
  histCpuTime (set_children l a) = histCpuTime a /\ runTime (set_children l a) = runTime a /\ share (set_children l a) = share a /\
  name (set_children l a) = name a.
Proof. unfold set_children. by destruct (sharePolicy a) as [[]|]. Qed.

Lemma same_acct_fields a b : same_acct a b ->
  parent b = parent a /\ priority b = priority a /\ flags b = flags a /\ numStartJobs b = numStartJobs a /\
  newUsedCpuTime b = newUsedCpuTime a /\ histCpuTime b = histCpuTime a /\ runTime b = runTime a /\ share b = share a /\
  name b = name a.
Proof. intros [->|(l & _ & _ & ->)]; [done|apply set_children_fields]. Qed.

Lemma same_acct_alike a b : same_acct a b -> alike a b.
Proof. intros [->|(l & Hne & Hl & ->)]; [done|]. split; [symmetry; apply set_children_fields|]. by rewrite children_set. Qed.

Lemma same_acct_load E a b : same_acct a b -> calcDynamicPriority E b = calcDynamicPriority E a.
Proof.
  intros H. destruct (same_acct_fields a b H) as (_ & _ & _ & H1 & H2 & H3 & H4 & H5 & _).
  unfold calcDynamicPriority, load_metric. by rewrite H1, H2, H3, H4, H5.
Qed.

(** A change of lists only. *)
Definition same_accts (m m' : accounts) : Prop := forall p, option_Forall2 same_acct (m !! p) (m' !! p).

Lemma same_accts_tree m m' : same_accts m m' -> same_tree m m'.
Proof. intros H p. destruct (H p) as [a b Hab|]; constructor. by apply same_acct_alike. Qed.

Lemma same_accts_rk m m' p : same_accts m m' -> rk m' p = rk m p.
Proof. intros H. unfold rk. destruct (H p) as [a b Hab|]; [|done]. by destruct (same_acct_fields a b Hab) as (_ & -> & _). Qed.

Lemma same_accts_numbers m m' : same_accts m m' -> numbers m -> numbers m'.
Proof.
  intros H Hn p b Hb. specialize (H p). rewrite Hb in H. inversion H as [a ? Hab Ea|]; subst.
  destruct (same_acct_fields a b Hab) as (_ & -> & _). by apply (Hn p).
Qed.

Lemma same_accts_loads E m m' : same_accts m m' -> loads_ok E m -> loads_ok E m'.
Proof.
  intros H Hn p b Hb. specialize (H p). rewrite Hb in H. inversion H as [a ? Hab Ea|]; subst.
  rewrite (same_acct_load E a b Hab). by apply (Hn p).
Qed.

Lemma not_child m x a p h : wf m -> m !! x = Some a -> parent a <> p -> m !! p = Some h -> x ∉ children h.
Proof. intros Hw Ha Hp Hh Hin. destruct (wf_kid m Hw p h x Hh Hin) as (a' & Ha' & E). congruence. Qed.

(** The others of a list keep their order. *)
Definition keep_order (x : Z) (m m' : accounts) : Prop :=
  forall q h h', m !! q = Some h -> m' !! q = Some h' ->
    filter (fun y => y <> x) (children h') = filter (fun y => y <> x) (children h).

(** The list with [x] is put in order; nothing else changes. *)
Lemma adjustOrder_spec m x a :
  wf m -> numbers m -> m !! x = Some a -> in_order_but x m ->
  exists m', adjustOrderByPriority m x = Some m' /\ same_accts m m' /\ in_order m' /\ keep_order x m m'.
Proof.
  intros Hw Hn Ha Ho. unfold adjustOrderByPriority. rewrite Ha. cbn [mbind option_bind].
  assert (Hother : forall p h, m !! p = Some h -> parent a <> p -> ascending m (children h)).
  { intros p h Hh Hp. pose proof (not_child m x a p h Hw Ha Hp Hh) as Hx. specialize (Ho p h Hh).
    rewrite filter_all in Ho; [done|]. apply Forall_forall. by intros y Hy ->. }
  destruct (Z.eqb_spec (parent a) NULL) as [Hroot|Hpar].
  { exists m. split; [done|]. split; [intros p; destruct (m !! p); constructor; by left|].
    split; [|intros q h h' Hh Hh'; congruence].
    intros p h Hh. apply (Hother p h Hh). intros E. rewrite <- E, Hroot, (wf_null m Hw) in Hh. done. }
  destruct (wf_par m Hw x a Ha Hpar) as (h & Hh & Hin). rewrite Hh. cbn [mbind option_bind].
  destruct (split_at_spec x (children h) Hin) as (pre & post & Esp & El).
  assert (Hl : Forall (fun c => is_Some (m !! c)) (children h)).
  { apply Forall_forall. intros c Hc. destruct (wf_kid m Hw _ h c Hh Hc) as (b & Hb & _). by eexists. }
  destruct (adjust_spec m x (children h) pre post (priority a)) as (l' & -> & Hperm & Hasc & Hfil); try done.
  { rewrite <- (filter_around x), <- El; [by apply (Ho (parent a))|rewrite <- El; by apply (wf_nodup m Hw (parent a))]. }
  { by apply (Hn x). }
  { unfold rk. by rewrite Ha. }
  { by apply (wf_nodup m Hw (parent a)). }
  assert (Hne : children h <> []) by (intros E; rewrite E in Hin; by apply elem_of_nil in Hin).
  cbn [mbind option_bind]. unfold upd. rewrite Hh. cbn [mbind option_bind].
  assert (Hs : same_accts m (<[parent a := set_children l' h]> m)).
  { intros p. destruct (decide (p = parent a)) as [->|Hpne].
    - rewrite lookup_insert_eq, Hh. constructor. right. by exists l'.
    - rewrite lookup_insert_ne by done. destruct (m !! p); constructor. by left. }
  eexists. split; [done|]. split; [done|]. split.
  - intros p k Hk. apply (ascending_ext m); [intros y _; symmetry; by apply same_accts_rk|].
    destruct (decide (p = parent a)) as [->|Hpne]; [rewrite lookup_insert_eq in Hk; injection Hk as <-; by rewrite children_set|].
    rewrite lookup_insert_ne in Hk by done. by apply (Hother p).
  - intros q k k' Hk Hk'. destruct (decide (q = parent a)) as [->|Hpne]; [|rewrite lookup_insert_ne in Hk' by done; congruence].
    rewrite lookup_insert_eq in Hk'. injection Hk' as <-. rewrite children_set by done. congruence.
Qed.

Lemma same_acct_trans a b c : same_acct a b -> same_acct b c -> same_acct a c.
Proof.
  intros Hab [->|(l & Hne & Hl & ->)]; [done|]. right. exists l. pose proof (proj2 (same_acct_alike a b Hab)) as Hk.
  split; [intros E; rewrite E in Hk; by apply Permutation_nil_l in Hk|]. split; [by rewrite Hk|].
  destruct Hab as [->|(l' & _ & _ & ->)]; [done|]. unfold set_children. destruct (sharePolicy a) as [[]|] eqn:E; cbn; [done|by rewrite E].
Qed.

Lemma same_acct_prio p a b : same_acct a b -> same_acct (set_priority p a) (set_priority p b).
Proof.
  intros [->|(l & Hne & Hl & ->)]; [by left|]. right. exists l. split; [done|]. split; [done|].
  unfold set_children. cbn. by destruct (sharePolicy a) as [[]|].
Qed.

Lemma ascending_filter m (x : Z) l : ascending m l -> ascending m (filter (fun y => y <> x) l).
Proof.
  induction l as [|c l IH]; [done|]. rewrite ascending_cons. intros [H1 H2].
  destruct (decide (c <> x)); [rewrite filter_cons_True by done|rewrite filter_cons_False by done; auto].
  apply ascending_cons. split; [auto|]. intros y [_ Hy]%list_elem_of_filter. auto.
Qed.

(** Another priority for one account leaves the others in order. *)
Lemma replace_spec m p a b :
  wf m -> numbers m -> in_order m -> m !! p = Some a -> parent b = parent a -> children b = children a -> ordered (priority b) = true ->
  same_tree m (<[p := b]> m) /\ numbers (<[p := b]> m) /\ in_order_but p (<[p := b]> m).
Proof.
  intros Hw Hn Ho Ha Hpar Hk Hp.
  assert (Hrk : forall y, y <> p -> rk m y = rk (<[p := b]> m) y) by (intros y Hy; unfold rk; by rewrite lookup_insert_ne).
  split; [eapply same_tree_insert; [done|split; [done|by rewrite Hk]]|]. split.
  - intros q c Hc. destruct (decide (q = p)) as [->|Hne]; [rewrite lookup_insert_eq in Hc; by injection Hc as <-|].
    rewrite lookup_insert_ne in Hc by done. by apply (Hn q).
  - intros q h Hh. assert (exists h0, m !! q = Some h0 /\ children h = children h0) as (h0 & Hh0 & ->).
    { destruct (decide (q = p)) as [->|Hne]; [rewrite lookup_insert_eq in Hh; injection Hh as <-; by exists a|].
      rewrite lookup_insert_ne in Hh by done. by exists h. }
    apply (ascending_ext m); [|by apply ascending_filter, (Ho q)]. intros y [Hy _]%list_elem_of_filter. by apply Hrk.
Qed.

(** New priorities for the accounts of [l]. *)
Definition upd_prio (E : fsenv) (l : list Z) (m m' : accounts) : Prop :=
  forall q, option_Forall2 (fun a b => same_acct (if bool_decide (q ∈ l) then set_priority (calcDynamicPriority E a) a else a) b)
    (m !! q) (m' !! q).

Lemma upd_prio_cons E p l m a m2 m' :
  p ∉ l -> m !! p = Some a -> same_accts (<[p := set_priority (calcDynamicPriority E a) a]> m) m2 -> upd_prio E l m2 m' ->
  upd_prio E (p :: l) m m'.
Proof.
  intros Hp Ha Hs Hu q. specialize (Hs q). specialize (Hu q). destruct (decide (q = p)) as [->|Hne].
  - rewrite lookup_insert_eq in Hs. rewrite Ha. inversion Hs as [? b Hab E1 E2|]; subst. rewrite <- E2 in Hu.
    inversion Hu as [? c Hbc E3 E4|]; subst. constructor. rewrite bool_decide_eq_true_2 by (by left).
    rewrite bool_decide_eq_false_2 in Hbc by done. by eapply same_acct_trans.
  - rewrite lookup_insert_ne in Hs by done. rewrite (bool_decide_ext (q ∈ p :: l) (q ∈ l)) by set_solver.
    destruct (m !! q) as [d|]; inversion Hs as [? b Hab E1 E2|E1 E2]; subst; rewrite <- ?E2, <- ?E1 in Hu;
      inversion Hu as [? c Hbc E3 E4|]; subst; constructor. case_bool_decide; [|by eapply same_acct_trans].
    rewrite (same_acct_load E d b Hab) in Hbc. eapply same_acct_trans; [by apply same_acct_prio|done].
Qed.

Lemma priority_path_spec E fuel m p l :
  up_path m p l -> wf m -> numbers m -> loads_ok E m -> in_order m -> (length l < fuel)%nat ->
  exists m', priority_path fuel E m p = Some m' /\ same_tree m m' /\ numbers m' /\ in_order m' /\ upd_prio E l m m'.
Proof.
  intros Hp. revert p m fuel Hp. induction l as [|x l IH]; intros p m fuel Hp Hw Hn Hl Ho Hf; (destruct fuel as [|fuel]; [lia|]).
  { inversion Hp; subst. exists m. split; [done|]. split; [done|]. split; [done|]. split; [done|].
    intros q. rewrite bool_decide_eq_false_2 by apply not_elem_of_nil. destruct (m !! q); constructor. by left. }
  inversion Hp as [|? a ? Hnull Ha Hup]; subst. cbn [priority_path]. rewrite (proj2 (Z.eqb_neq _ _) Hnull).
  unfold upd. rewrite Ha. cbn [mbind option_bind]. set (m1 := <[x := _]> m).
  destruct (replace_spec m x a (set_priority (calcDynamicPriority E a) a)) as (Hs1 & Hn1 & Ho1); try done; [by apply calc_ordered, (Hl x)|].
  fold m1 in Hs1, Hn1, Ho1. assert (Hw1 : wf m1) by (by rewrite <- Hs1).
  destruct (adjustOrder_spec m1 x (set_priority (calcDynamicPriority E a) a)) as (m2 & -> & Hs2 & Ho2 & _); try done;
    [by apply lookup_insert_eq|]. cbn [mbind option_bind].
  pose proof (same_accts_tree _ _ Hs2) as Hs2'. destruct (same_tree_lookup m m2 x a) as (a2 & Ha2 & Hpar & _); [by etrans|done|].
  rewrite Ha2. cbn [mbind option_bind]. rewrite <- Hpar.
  assert (Hl1 : loads_ok E m1).
  { intros q b Hb. unfold m1 in Hb. destruct (decide (q = x)) as [->|Hne]; [rewrite lookup_insert_eq in Hb; injection Hb as <-; exact (Hl x a Ha)|].
    rewrite lookup_insert_ne in Hb by done. by apply (Hl q). }
  destruct (IH (parent a) m2 fuel) as (m' & -> & Hs' & Hn' & Ho' & Hu'); try done.
  - by rewrite <- Hs2', <- Hs1.
  - by rewrite <- Hs2'.
  - by eapply same_accts_numbers.
  - by eapply same_accts_loads.
  - cbn in Hf. lia.
  - exists m'. split; [done|]. split; [by rewrite Hs1, Hs2'|]. split; [done|]. split; [done|].
    eapply upd_prio_cons; [|done|done|done]. pose proof (up_path_nodup _ _ _ Hp) as Hnd. by apply NoDup_cons in Hnd as [? _].
Qed.
