(* ===== verification/FairLoad.v ===== *)
(** * Fairshare: the load of jobs

    Attaching a job to an account and detaching it counts its hosts at the
    account and at all accounts above it, and brings their priorities and the
    order of their siblings up to date. *)

From Stdlib Require Import SpecFloat.
From S2P Require Import Prelude Lsb Float32 FloatOrd Fairshare FairTree.

(** The counters of jobs agree: an inner account has as many as its children
    together. *)
Definition njobs (m : accounts) (p : Z) : Z := match m !! p with Some a => numStartJobs a | None => 0 end.
Definition balanced (m : accounts) : Prop :=
  forall p h, m !! p = Some h -> children h <> [] -> numStartJobs h = zsum (njobs m <$> children h).

(** What holds between operations. *)
Record fs_ok (E : fsenv) (m : accounts) : Prop := {
  ok_wf : wf m; ok_numbers : numbers m; ok_order : in_order m }.

(** No priority is undefined, with the present load and with [d] jobs more on
    the path [l]. *)
Definition defined_with (E : fsenv) (d : Z) (l : list Z) (m : accounts) : Prop :=
  forall p a, m !! p = Some a ->
    (p ∈ l -> is_nan (calcDynamicPriority E (add_jobs d a)) = false) /\ is_nan (calcDynamicPriority E a) = false.

(** ** Paths *)

(** Below an account of the path, the path has exactly one child. *)
Lemma path_child m x l p :
  up_path m x l -> p ∈ l -> p <> x ->
  exists c, c ∈ l /\ (parent <$> m !! c) = Some p /\ forall c', c' ∈ l -> (parent <$> m !! c') = Some p -> c' = c.
Proof.
  intros H. induction H as [|x a l Hn Ha Hl IH]; [by intros []%elem_of_nil|]. intros Hp Hne.
  apply elem_of_cons in Hp as [->|Hp]; [done|]. destruct (decide (p = parent a)) as [->|Hpa].
  - exists x. split; [by left|]. split; [by rewrite Ha|]. intros c' [->|Hc]%elem_of_cons Hpc; [done|]. exfalso.
    destruct (up_path_suffix m (parent a) l c' Hl Hc) as (l1 & l2 & -> & H2 & Hne2). inversion H2 as [|? b ? Hn2 Hb H3]; subst; [done|].
    rewrite Hb in Hpc. injection Hpc as Epar. rewrite Epar in H3.
    pose proof (up_path_fun m (parent a) _ _ Hl H3) as E2. apply (f_equal length) in E2. rewrite length_app in E2. cbn in E2. lia.
  - destruct (IH Hp Hpa) as (c & Hc & Hpc & Hu). exists c. split; [by right|]. split; [done|].
    intros c' [->|Hc']%elem_of_cons Hpc'; [|by apply Hu]. rewrite Ha in Hpc'. by injection Hpc' as <-.
Qed.

Lemma path_closed m x l c p : up_path m x l -> c ∈ l -> (parent <$> m !! c) = Some p -> p <> NULL -> p ∈ l.
Proof.
  intros H Hc Hp Hne. destruct (up_path_suffix m x l c H Hc) as (l1 & l2 & -> & H2 & Hne2).
  inversion H2 as [|? b l' Hn Hb H3]; subst; [done|]. rewrite Hb in Hp. injection Hp as <-.
  apply elem_of_app. right. right. inversion H3; subst; [done|]. by left.
Qed.

Lemma zsum_one (f : Z -> Z) d k (L : list Z) :
  NoDup L -> zsum ((fun c => if bool_decide (c = k) then f c + d else f c) <$> L) =
    zsum (f <$> L) + if bool_decide (k ∈ L) then d else 0.
Proof.
  induction L as [|c L IH]; intros Hnd; [by rewrite bool_decide_eq_false_2 by apply not_elem_of_nil|].
  apply NoDup_cons in Hnd as [Hc Hnd]. rewrite !fmap_cons, !zsum_cons, (IH Hnd). destruct (decide (c = k)) as [->|Hne].
  - rewrite (bool_decide_eq_true_2 (k = k)), (bool_decide_eq_true_2 (k ∈ k :: L)) by (done || by left).
    rewrite bool_decide_eq_false_2 by done. lia.
  - rewrite (bool_decide_eq_false_2 (c = k)) by done.
    rewrite (bool_decide_ext (k ∈ c :: L) (k ∈ L)) by (rewrite elem_of_cons; naive_solver). lia.
Qed.

(** ** Counting *)

Lemma add_jobs_alike d a : alike a (add_jobs d a).
Proof. by split. Qed.

(** Accounts with the hosts of [d] counted on the path [l], and with the
    priorities of the path computed anew. *)
Definition counted_acct (E : fsenv) (d : Z) (on_path fresh : bool) (a b : shareAcct) : Prop :=
  let a1 := if on_path then add_jobs d a else a in
  same_acct (if on_path && fresh then set_priority (calcDynamicPriority E a1) a1 else a1) b.
Definition counted_tree (E : fsenv) (d : Z) (l : list Z) (fresh : bool) (m m' : accounts) : Prop :=
  forall q, option_Forall2 (counted_acct E d (bool_decide (q ∈ l)) fresh) (m !! q) (m' !! q).

Lemma counted_njobs E d l fresh m m' q a :
  counted_tree E d l fresh m m' -> m !! q = Some a ->
  njobs m' q = numStartJobs (if bool_decide (q ∈ l) then add_jobs d a else a).
Proof.
  intros H Ha. specialize (H q). unfold njobs. rewrite Ha in *. inversion H as [? b Hab E1 E2|]; subst.
  unfold counted_acct in Hab. destruct (same_acct_fields _ _ Hab) as (_ & _ & _ & -> & _). by destruct (bool_decide (q ∈ l)), fresh.
Qed.

(** One walk of [updShareAcctStats] and one of [updSAcctPriorityByPath]. *)
Lemma count_jobs E d m x l :
  fs_ok E m -> up_path m x l -> defined_with E d l m ->
  exists m1 m2, updShareAcctStats E m x (SHARE_ACCT_UPD_NUMSTARTJOBS d) = Some m1 /\
    updSAcctPriorityByPath E m1 x = Some m2 /\ same_tree m m2 /\ fs_ok E m2 /\ counted_tree E d l true m m2.
Proof.
  intros [Hw Hn Ho] Hp Hd. cbn [updShareAcctStats].
  destruct (along_path_spec m x l (add_jobs d) (path_fuel m)) as (m1 & -> & Hs1 & Hlk); [done|apply add_jobs_alike|by eapply up_path_fuel|].
  exists m1. unfold updSAcctPriorityByPath. assert (Hp1 : up_path m1 x l) by (by rewrite <- Hs1).
  assert (Hacc : forall q b, m1 !! q = Some b -> exists a, m !! q = Some a /\ b = (if bool_decide (q ∈ l) then add_jobs d a else a)).
  { intros q b Hb. rewrite Hlk in Hb. destruct (m !! q) as [a|]; [|by case_bool_decide]. exists a. split; [done|]. case_bool_decide; by injection Hb as <-. }
  assert (Hrk : forall q, rk m q = rk m1 q).
  { intros q. unfold rk. rewrite Hlk. case_bool_decide; [|done]. by destruct (m !! q). }
  destruct (priority_path_spec E (path_fuel m1) m1 x l) as (m2 & -> & Hs2 & Hn2 & Ho2 & Hu); try done.
  - by rewrite <- Hs1.
  - intros q b Hb. destruct (Hacc q b Hb) as (a & Ha & ->). pose proof (Hn q a Ha). by case_bool_decide.
  - intros q b Hb. destruct (Hacc q b Hb) as (a & Ha & ->). destruct (Hd q a Ha). case_bool_decide; auto.
  - intros q h Hh. destruct (Hacc q h Hh) as (a & Ha & ->). apply (ascending_ext m); [by intros|].
    replace (children (if bool_decide (q ∈ l) then add_jobs d a else a)) with (children a) by (by case_bool_decide). by apply (Ho q).
  - by eapply up_path_fuel.
  - exists m2. split; [done|]. split; [done|]. split; [by etrans|]. split; [split; [by rewrite <- Hs2, <- Hs1|done|done]|].
    intros q. specialize (Hu q). rewrite Hlk in Hu.
    destruct (bool_decide (q ∈ l)) eqn:Eq, (m !! q); cbn in Hu; inversion Hu; constructor; done.
Qed.

(** The counters leave room for [d] jobs more. *)
Definition room (d : Z) (m : accounts) : Prop :=
  0 <= d /\ forall p a, m !! p = Some a -> 0 <= numStartJobs a /\ numStartJobs a + d < 2 ^ 31.

Lemma add_jobs_count d a : 0 <= numStartJobs a + d < 2 ^ 31 -> numStartJobs (add_jobs d a) = numStartJobs a + d.
Proof. intros H. unfold add_jobs. rewrite i32_small by lia. cbn. destruct (Z.ltb_spec (numStartJobs a + d) 0); lia. Qed.

Lemma same_tree_children m m' q h' :
  same_tree m m' -> m' !! q = Some h' -> exists h, m !! q = Some h /\ children h ≡ₚ children h' /\ parent h = parent h'.
Proof.
  intros Hs Hh. destruct (same_tree_lookup m' m q h') as (h & Hh0 & Hp & Hk); [by symmetry|done|].
  exists h. by rewrite Hk, Hp.
Qed.

(** The children of an account have together one account of the path, if the
    account is on it and is not its end. *)
Lemma path_sum f d m x l p h :
  wf m -> up_path m x l -> m !! p = Some h -> p <> x ->
  zsum ((fun c => f c + if bool_decide (c ∈ l) then d else 0) <$> children h) =
    zsum (f <$> children h) + if bool_decide (p ∈ l) then d else 0.
Proof.
  intros Hw Hp Hh Hxp. assert (Hpn : p <> NULL) by (intros ->; by rewrite (wf_null m Hw) in Hh).
  assert (Hpar : forall c, c ∈ children h -> (parent <$> m !! c) = Some p).
  { intros c Hc. destruct (wf_kid m Hw p h c Hh Hc) as (b & -> & <-). done. }
  destruct (decide (p ∈ l)) as [Hpl|Hpl].
  - destruct (path_child m x l p Hp Hpl Hxp) as (k & Hkl & Hkp & Hu). rewrite (bool_decide_eq_true_2 (p ∈ l)) by done.
    rewrite (list_fmap_ext _ (fun c => if bool_decide (c = k) then f c + d else f c) (children h)).
    + rewrite zsum_one by by apply (wf_nodup m Hw p). rewrite bool_decide_eq_true_2; [done|].
      destruct (up_path_dom m x l k Hp Hkl) as [kb Hkb]. rewrite Hkb in Hkp. injection Hkp as Hkp.
      destruct (wf_par m Hw k kb Hkb) as (h2 & Hh2 & Hin); [by rewrite Hkp|]. rewrite Hkp in Hh2. congruence.
    + intros i c Hi%list_elem_of_lookup_2. rewrite (bool_decide_ext (c ∈ l) (c = k)) by naive_solver. case_bool_decide; lia.
  - rewrite bool_decide_eq_false_2, Z.add_0_r by done. f_equal. apply list_fmap_ext. intros i c Hi%list_elem_of_lookup_2.
    rewrite bool_decide_eq_false_2; [lia|]. intros Hc. by apply Hpl, (path_closed m x l c p Hp Hc (Hpar c Hi)).
Qed.

(** The sums are right again when a path from a leaf has been counted. *)
Lemma counted_balanced E d l x a fresh m m' :
  wf m -> up_path m x l -> m !! x = Some a -> children a = [] -> room d m -> same_tree m m' ->
  counted_tree E d l fresh m m' -> balanced m -> balanced m'.
Proof.
  intros Hw Hp Ha Hleaf [Hd0 Hd] Hs Hc Hb p h' Hh' Hne. destruct (same_tree_children m m' p h' Hs Hh') as (h & Hh & Hk & _).
  assert (Hkne : children h <> []) by (intros E0; rewrite E0 in Hk; by apply Permutation_nil_l in Hk).
  assert (Hnum : forall q b, m !! q = Some b -> njobs m' q = njobs m q + if bool_decide (q ∈ l) then d else 0).
  { intros q b Hq. rewrite (counted_njobs E d l fresh m m' q b Hc Hq). destruct (Hd q b Hq). unfold njobs. rewrite Hq.
    case_bool_decide; [apply add_jobs_count|]; lia. }
  replace (numStartJobs h') with (njobs m' p) by (unfold njobs; by rewrite Hh'). rewrite (Hnum p h Hh).
  replace (njobs m p) with (numStartJobs h) by (unfold njobs; by rewrite Hh). rewrite (Hb p h Hh Hkne).
  rewrite <- Hk, <- (path_sum (njobs m) d m x l p h) by (done || intros ->; congruence).
  f_equal. apply list_fmap_ext. intros i c Hi%list_elem_of_lookup_2. destruct (wf_kid m Hw p h c Hh Hi) as (b & Hbb & _).
  symmetry. by apply (Hnum c b).
Qed.

(** The priority depends on the load and the shares only. *)
Lemma calc_load E a b :
  numStartJobs a = numStartJobs b -> newUsedCpuTime a = newUsedCpuTime b -> histCpuTime a = histCpuTime b -> runTime a = runTime b ->
  share a = share b -> calcDynamicPriority E a = calcDynamicPriority E b.
Proof. intros H1 H2 H3 H4 H5. unfold calcDynamicPriority, load_metric. by rewrite H1, H2, H3, H4, H5. Qed.

(** ** Attaching and detaching *)

#[local] Opaque calcDynamicPriority.

(** (C14) Attaching a job to a leaf account counts its hosts at the account and
    at every account above it and nowhere else, so that inner accounts still
    have the sums of their children; the priorities on the path are those of
    the new load, all others stay, and every list of siblings is again in
    ascending order of priority. *)
Theorem attachJob2FSTree_correct E m j x a found l :
  fs_ok E m -> balanced m -> x <> NULL -> up_path m x l -> m !! x = Some a -> children a = [] ->
  defined_with E (numHostPtr j) l m -> room (numHostPtr j) m ->
  exists m', attachJob2FSTree E m j x found = Some (set_sa x j, m') /\ same_tree m m' /\ fs_ok E m' /\ balanced m' /\
    forall q b b', m !! q = Some b -> m' !! q = Some b' ->
      numStartJobs b' = numStartJobs b + (if bool_decide (q ∈ l) then numHostPtr j else 0) /\
      priority b' = (if bool_decide (q ∈ l) then calcDynamicPriority E b' else priority b).
Proof.
  intros Hok Hb Hx Hp Ha Hleaf Hd Hr. unfold attachJob2FSTree. rewrite (proj2 (Z.eqb_neq _ _) Hx), (proj2 (Z.eqb_neq _ _) Hx).
  destruct (count_jobs E (numHostPtr j) m x l Hok Hp Hd) as (m1 & m2 & -> & H2 & Hs & Hok2 & Hc). cbn [mbind option_bind]. rewrite H2.
  cbn [mbind option_bind]. exists m2. split; [done|]. split; [done|]. split; [done|].
  split; [by eapply counted_balanced; [by destruct Hok|..]|]. intros q b b' Hq Hq'.
  specialize (Hc q). rewrite Hq, Hq' in Hc. inversion Hc as [? ? Hab E1 E2|]; subst. unfold counted_acct in Hab. rewrite andb_true_r in Hab.
  destruct (same_acct_fields _ _ Hab) as (_ & -> & _ & -> & _). rewrite (same_acct_load E _ _ Hab).
  destruct Hr as [Hd0 Hr]. destruct (Hr q b Hq). destruct (bool_decide (q ∈ l)); cbn [andb]; [|split; [lia|done]]. split; [|done].
  transitivity (numStartJobs (add_jobs (numHostPtr j) b)); [done|apply add_jobs_count; lia].
Qed.

(** The load of an account apart from its place and its priority. *)
Definition load_of (a : shareAcct) : Z * spec_float * spec_float * Z := (numStartJobs a, newUsedCpuTime a, histCpuTime a, runTime a).

Lemma counted_load E d l m m' q a b :
  counted_tree E d l true m m' -> m !! q = Some a -> m' !! q = Some b ->
  load_of b = load_of (if bool_decide (q ∈ l) then add_jobs d a else a) /\ share b = share a /\
  priority b = (if bool_decide (q ∈ l) then calcDynamicPriority E b else priority a).
Proof.
  intros Hc Ha Hb. specialize (Hc q). rewrite Ha, Hb in Hc. inversion Hc as [? ? Hab E1 E2|]; subst. unfold counted_acct in Hab. rewrite andb_true_r in Hab.
  rewrite (same_acct_load E _ _ Hab). destruct (same_acct_fields _ _ Hab) as (_ & -> & _ & H1 & H2 & H3 & H4 & -> & _). unfold load_of.
  rewrite H1, H2, H3, H4. by destruct (bool_decide (q ∈ l)).
Qed.

(** Detaching a job that has been attached undoes it: every account has
    the load it had, the priorities on the path are those of that load, and
    the lists are in order. *)
Theorem attach_detach_roundtrip E m j x found l :
  fs_ok E m -> x <> NULL -> up_path m x l -> 0 <= numHostPtr j < 2 ^ 31 ->
  defined_with E (numHostPtr j) l m -> room (numHostPtr j) m ->
  exists m1 m2, attachJob2FSTree E m j x found = Some (set_sa x j, m1) /\
    detachedJobFromFSTree E m1 (set_sa x j) = Some (set_sa NULL j, m2) /\ same_tree m m2 /\ fs_ok E m2 /\
    forall q b b2, m !! q = Some b -> m2 !! q = Some b2 -> load_of b2 = load_of b /\
      priority b2 = (if bool_decide (q ∈ l) then calcDynamicPriority E b else priority b).
Proof.
  intros Hok Hx Hp Hj Hd [_ Hr]. set (d := numHostPtr j) in *. unfold attachJob2FSTree. fold d. rewrite (proj2 (Z.eqb_neq _ _) Hx), (proj2 (Z.eqb_neq _ _) Hx).
  destruct (count_jobs E d m x l Hok Hp Hd) as (m0 & m1 & -> & H1 & Hs & Hok1 & Hc). cbn [mbind option_bind]. rewrite H1.
  cbn [mbind option_bind]. exists m1. unfold detachedJobFromFSTree. cbn [sa set_sa]. rewrite (proj2 (Z.eqb_neq _ _) Hx).
  change (numHostPtr (set_sa x j)) with d. rewrite (i32_small (- d)) by lia.
  assert (Hback : forall q a b, m !! q = Some a -> m1 !! q = Some b -> load_of (add_jobs (- d) b) = load_of (if bool_decide (q ∈ l) then a else add_jobs (- d) a) /\ share b = share a).
  { intros q a b Ha Hb. destruct (counted_load E d l m m1 q a b Hc Ha Hb) as (Hl & Hsh & _). split; [|done].
    destruct (Hr q a Ha). unfold load_of in *. injection Hl as Hl1 Hl2 Hl3 Hl4. cbn. rewrite Hl1, Hl2, Hl3, Hl4.
    destruct (bool_decide (q ∈ l)); [|done]. rewrite add_jobs_count by lia. rewrite i32_small by lia. cbn.
    replace (numStartJobs a + d + - d) with (numStartJobs a) by lia. destruct (Z.ltb_spec (numStartJobs a) 0); [lia|done]. }
  assert (Hcalc : forall a b, load_of a = load_of b -> share a = share b -> calcDynamicPriority E a = calcDynamicPriority E b).
  { intros a b Hl Hsh. unfold load_of in Hl. injection Hl as Hl1 Hl2 Hl3 Hl4. by apply calc_load. }
  destruct (count_jobs E (- d) m1 x l) as (m2 & m3 & -> & H3 & Hs3 & Hok3 & Hc3); [done|by rewrite <- Hs| |].
  { intros q b Hb. destruct (same_tree_lookup m1 m q b) as (a & Ha & _); [by symmetry|done|]. destruct (Hd q a Ha) as [Hda Hda0].
    destruct (Hback q a b Ha Hb) as [Hlb Hsb]. destruct (counted_load E d l m m1 q a b Hc Ha Hb) as (Hl & _ & _). split.
    - intros Hq. rewrite bool_decide_eq_true_2 in Hlb by done. by rewrite (Hcalc _ a Hlb Hsb).
    - destruct (decide (q ∈ l)) as [Hq|Hq]; [rewrite bool_decide_eq_true_2 in Hl by done|rewrite bool_decide_eq_false_2 in Hl by done];
        rewrite (Hcalc b _ Hl Hsb); auto. }
  cbn [mbind option_bind]. rewrite H3. cbn [mbind option_bind]. exists m3. split; [done|]. split; [done|]. split; [by etrans|]. split; [done|].
  intros q a b3 Ha Hb3. destruct (same_tree_lookup m m1 q a Hs Ha) as (b & Hb & _).
  destruct (counted_load E d l m m1 q a b Hc Ha Hb) as (Hl & Hsh & Hpr).
  destruct (counted_load E (- d) l m1 m3 q b b3 Hc3 Hb Hb3) as (Hl3 & Hsh3 & Hpr3). destruct (Hback q a b Ha Hb) as [Hlb _].
  destruct (bool_decide (q ∈ l)); [|by rewrite Hl3, Hl, Hpr3, Hpr]. rewrite Hl3, Hlb. split; [done|]. rewrite Hpr3.
  apply Hcalc; [by rewrite Hl3, Hlb|by rewrite Hsh3, Hsh].
Qed.

(** ** A small tree *)

Definition leaf_acct (n : string) (s par : Z) (p : spec_float) : shareAcct :=
  ShareAcct n n s 0 par None p 0 fzero fzero 0 0 None.
Definition inner_acct (n : string) (s par : Z) (p : spec_float) (l : list Z) : shareAcct :=
  ShareAcct n n s 0 par (Some (ShareDistributePolicy 0 (Some l) None)) p 0 fzero fzero 0 0 None.

Definition sample_factors : fsenv :=
  let unset := f32_of_Z (-1) in
  FsEnv (Factors unset unset unset unset) (Factors (f32_of_Z 1) (f32_of_Z 1) (f32_of_Z 3) (f32_of_Z 5))
    (f32_of_Z 1) (fun x _ => x).

(** The queue 1 with the user 2 and the group 3 of the users 4 and 5. *)
Definition sample_accts : accounts :=
  let p s := fdiv (f32_of_Z s) (f32_of_Z 3) in
  list_to_map [(1, inner_acct "q" 0 0 (p 0) [2; 3]); (2, leaf_acct "ann" 10 1 (p 10));
               (3, inner_acct "grp" 30 1 (p 30) [4; 5]); (4, leaf_acct "bob" 1 3 (p 1)); (5, leaf_acct "cy" 2 3 (p 2))].

(** Case analysis on the accounts of the sample. *)
Ltac sample_cases H :=
  apply elem_of_list_to_map_2 in H; cbn in H; rewrite !elem_of_cons, elem_of_nil in H;
  destruct H as [[= -> ->]|[[= -> ->]|[[= -> ->]|[[= -> ->]|[[= -> ->]|[]]]]]].

Lemma sample_path p : p ∈ [1; 2; 3; 4; 5] -> exists l, up_path sample_accts p l.
Proof.
  assert (H1 : up_path sample_accts 1 [1]) by (econstructor; [done|reflexivity|constructor]).
  assert (H3 : up_path sample_accts 3 [3; 1]) by (econstructor; [done|reflexivity|exact H1]).
  rewrite !elem_of_cons, elem_of_nil. intros [->|[->|[->|[->|[->|[]]]]]]; eexists; try eassumption.
  - econstructor; [done|reflexivity|exact H1].
  - econstructor; [done|reflexivity|exact H3].
  - econstructor; [done|reflexivity|exact H3].
Qed.

Lemma sample_wf : wf sample_accts.
Proof.
  split.
  - reflexivity.
  - intros p h c H Hc. sample_cases H; cbn in Hc; rewrite ?elem_of_cons, ?elem_of_nil in Hc;
      repeat (destruct Hc as [->|Hc]); try done; eexists; split; reflexivity.
  - intros p a H Hp. sample_cases H; cbn in Hp |- *; try done; eexists; (split; [reflexivity|cbn; set_solver]).
  - intros p h H. sample_cases H; cbn; repeat constructor; set_solver.
  - intros p a H. apply sample_path. sample_cases H; set_solver.
Qed.

Lemma sample_fs_ok : fs_ok sample_factors sample_accts.
Proof.
  split; [exact sample_wf|..].
  - intros p a H. sample_cases H; vm_compute; reflexivity.
  - intros p h H. sample_cases H; cbn; repeat constructor; vm_compute; discriminate.
Qed.

Definition sample_fsjob : fsJob := FsJob "bob" 2 0 fzero 0 0.

Lemma sample_defined l : defined_with sample_factors 2 l sample_accts.
Proof. intros p a H. sample_cases H; vm_compute; done. Qed.

Lemma sample_room : room 2 sample_accts.
Proof. split; [lia|]. intros p a H. sample_cases H; cbn; lia. Qed.

Lemma attachJob2FSTree_correct_witness : exists m', 
  attachJob2FSTree sample_factors sample_accts sample_fsjob 4 0 = Some (set_sa 4 sample_fsjob, m') /\
  same_tree sample_accts m' /\ fs_ok sample_factors m' /\ balanced m' /\
  forall q b b', sample_accts !! q = Some b -> m' !! q = Some b' ->
    numStartJobs b' = numStartJobs b + (if bool_decide (q ∈ [4; 3; 1]) then 2 else 0) /\
    priority b' = (if bool_decide (q ∈ [4; 3; 1]) then calcDynamicPriority sample_factors b' else priority b).
Proof.
  eapply (attachJob2FSTree_correct sample_factors sample_accts sample_fsjob 4).
  - exact sample_fs_ok.
  - intros p h H. sample_cases H; done.
  - done.
  - repeat (econstructor; [done|reflexivity|]). constructor.
  - reflexivity.
  - reflexivity.
  - apply sample_defined.
  - exact sample_room.
Defined.

Lemma attach_detach_roundtrip_witness : exists m1 m2,
  attachJob2FSTree sample_factors sample_accts sample_fsjob 4 0 = Some (set_sa 4 sample_fsjob, m1) /\
  detachedJobFromFSTree sample_factors m1 (set_sa 4 sample_fsjob) = Some (set_sa NULL sample_fsjob, m2) /\
  same_tree sample_accts m2 /\ fs_ok sample_factors m2 /\
  forall q b b2, sample_accts !! q = Some b -> m2 !! q = Some b2 -> load_of b2 = load_of b /\
    priority b2 = (if bool_decide (q ∈ [4; 3; 1]) then calcDynamicPriority sample_factors b else priority b).
Proof.
  eapply (attach_detach_roundtrip sample_factors sample_accts sample_fsjob 4).
  - exact sample_fs_ok.
  - done.
  - repeat (econstructor; [done|reflexivity|]). constructor.
  - cbn. lia.
  - apply sample_defined.
  - exact sample_room.
Defined.

(** When the account has to be looked up, its priority stays that of the old
    load. *)
Lemma attach_found_stale :
  (r ← attachJob2FSTree sample_factors sample_accts sample_fsjob 0 4; a ← snd r !! 4;
   Some (numStartJobs a, SFeqb (priority a) (calcDynamicPriority sample_factors a))) = Some (2, false).
Proof. vm_compute. reflexivity. Qed.
