(* ===== verification/FairDecay.v ===== *)
(** * Fairshare: decay

    Every [CALCULATE_INTERVAL] the CPU time of all accounts decays, level by
    level, while the accounts of a level change their places in the list that
    is being walked.  A flag marks those that have been dealt with.  The proofs
    show that the walk ends, that every account decays exactly once, and that
    all lists are in order afterwards. *)

From Stdlib Require Import SpecFloat.
From S2P Require Import Prelude Lsb Float32 FloatOrd Fairshare FairTree FairLoad.

(** ** Accounts up to flags *)

Definition like (a b : shareAcct) : Prop := exists f, same_acct (set_flags f a) b.
Definition likes (m m' : accounts) : Prop := forall q, option_Forall2 like (m !! q) (m' !! q).

Lemma set_flags_acct f a b : same_acct a b -> same_acct (set_flags f a) (set_flags f b).
Proof.
  intros [->|(l & Hne & Hl & ->)]; [by left|]. right. exists l. split; [done|]. split; [done|].
  unfold set_children. cbn. by destruct (sharePolicy a) as [[]|].
Qed.

Lemma like_refl a : like a a.
Proof. exists (flags a). left. by destruct a. Qed.
Lemma same_like a b : same_acct a b -> like a b.
Proof. intros H. exists (flags a). replace (set_flags (flags a) a) with a by (by destruct a). done. Qed.
Lemma flags_like f a : like a (set_flags f a).
Proof. exists f. by left. Qed.
Lemma like_trans a b c : like a b -> like b c -> like a c.
Proof. intros [f H1] [g H2]. exists g. eapply same_acct_trans; [|exact H2]. by apply (set_flags_acct g) in H1. Qed.

Lemma like_fields a b : like a b ->
  parent b = parent a /\ children a ≡ₚ children b /\ priority b = priority a /\ load_of b = load_of a /\ share b = share a /\
  (forall f u, sharePolicy b = Some (ShareDistributePolicy f (Some []) u) -> exists f u, sharePolicy a = Some (ShareDistributePolicy f (Some []) u)).
Proof.
  intros [g H]. destruct (same_acct_fields _ _ H) as (H1 & H2 & _ & H3 & H4 & H5 & H6 & H7 & _). split; [done|].
  split; [apply (same_acct_alike _ _ H)|]. split; [done|]. split; [unfold load_of; by rewrite H3, H4, H5, H6|]. split; [done|].
  intros f u E. destruct H as [->|(l & Hne & Hl & ->)]; [cbn in E; by eauto|].
  unfold set_children, children in *. cbn in *. destruct (sharePolicy a) as [[f0 l0 u0]|]; [|done]. cbn in *. injection E as _ -> _.
  by apply Permutation_nil_l in Hl.
Qed.

Lemma like_calc E a b : like a b -> calcDynamicPriority E b = calcDynamicPriority E a.
Proof.
  intros H. destruct (like_fields a b H) as (_ & _ & _ & Hl & Hs & _). unfold load_of in Hl. injection Hl as H1 H2 H3 H4.
  unfold calcDynamicPriority, load_metric. by rewrite H1, H2, H3, H4, Hs.
Qed.

Lemma like_decay E n a b : like a b -> like (decay E n a) (decay E n b).
Proof.
  intros [f [->|(l & Hne & Hl & ->)]]; exists f; unfold decay; destruct (decay_rate E) as [r|]; cbn; try by left.
  - right. exists l. split; [done|]. split; [done|]. unfold set_children. cbn. by destruct (sharePolicy a) as [[]|].
  - right. exists l. split; [done|]. split; [done|]. unfold set_children. cbn. by destruct (sharePolicy a) as [[]|].
Qed.

Lemma decay_fields E n a : parent (decay E n a) = parent a /\ children (decay E n a) = children a /\ flags (decay E n a) = flags a /\
  priority (decay E n a) = priority a /\ sharePolicy (decay E n a) = sharePolicy a.
Proof. unfold decay. by destruct (decay_rate E). Qed.

Lemma likes_tree m m' : likes m m' -> same_tree m m'.
Proof. intros H q. destruct (H q) as [a b Hab|]; constructor. destruct (like_fields a b Hab) as (H1 & H2 & _). by split. Qed.

Lemma likes_refl m : likes m m.
Proof. intros q. destruct (m !! q); constructor. apply like_refl. Qed.

Lemma likes_numbers m m' : likes m m' -> numbers m -> numbers m'.
Proof.
  intros H Hn p b Hb. specialize (H p). rewrite Hb in H. inversion H as [a ? Hab Ea|]; subst.
  destruct (like_fields a b Hab) as (_ & _ & -> & _). by apply (Hn p).
Qed.

(** An account that has decayed and has its new priority. *)
Definition decayed (E : fsenv) (n : Z) (a b : shareAcct) : Prop :=
  like (set_priority (calcDynamicPriority E (decay E n a)) (decay E n a)) b.

Lemma decayed_like E n a b c : decayed E n a b -> like b c -> decayed E n a c.
Proof. apply like_trans. Qed.

Lemma like_decayed E n a b c : like a b -> decayed E n b c -> decayed E n a c.
Proof.
  intros Hab Hbc. unfold decayed in *. eapply like_trans; [|exact Hbc]. pose proof (like_decay E n a b Hab) as Hd.
  rewrite (like_calc E _ _ Hd). destruct Hd as [f Hd]. exists f. by apply (same_acct_prio (calcDynamicPriority E (decay E n a))) in Hd.
Qed.

Definition flagged (m : accounts) (p : Z) : bool := match m !! p with Some a => has (flags a) FS_SKIPABLE | None => false end.

Lemma skip_set f : has (Z.lor f FS_SKIPABLE) FS_SKIPABLE = true.
Proof. unfold has. rewrite Z.land_lor_distr_l. change (Z.land FS_SKIPABLE FS_SKIPABLE) with 8. apply negb_true_iff, Z.eqb_neq. intros H%Z.lor_eq_0_iff. lia. Qed.
Lemma skip_cleared f : has (Z.ldiff f FS_SKIPABLE) FS_SKIPABLE = false.
Proof. unfold has. rewrite Z.ldiff_land, <- Z.land_assoc, (Z.land_comm (Z.lnot _)). change (Z.land FS_SKIPABLE (Z.lnot FS_SKIPABLE)) with 0. by rewrite Z.land_0_r. Qed.

(** ** One level *)

#[local] Opaque calcDynamicPriority decay.

(** The accounts of [todo] have decayed, the others are as before. *)
Definition level (E : fsenv) (n : Z) (todo : Z -> Prop) (m m' : accounts) : Prop :=
  forall q, option_Forall2 (fun a b => (todo q -> decayed E n a b) /\ (~ todo q -> like a b)) (m !! q) (m' !! q).

Lemma level_tree E n todo m m' : (forall q, todo q \/ ~ todo q) -> level E n todo m m' -> same_tree m m'.
Proof.
  intros Hdec Hl q. destruct (Hl q) as [a b [H1 H2]|]; constructor. destruct (Hdec q) as [Hq|Hq].
  - destruct (like_fields _ _ (H1 Hq)) as (H3 & H4 & _). destruct (decay_fields E n a) as (H5 & H6 & _). cbn in H3.
    change (children (decay E n a) ≡ₚ children b) in H4. rewrite H6 in H4. by split; [congruence|].
  - destruct (like_fields _ _ (H2 Hq)) as (H3 & H4 & _). by split.
Qed.

Lemma decay_one_spec E n m c a :
  wf m -> numbers m -> in_order m -> m !! c = Some a -> is_nan (calcDynamicPriority E (decay E n a)) = false ->
  exists m', decay_one E n m c = Some m' /\ level E n (fun q => q = c) m m' /\ numbers m' /\ in_order m' /\ keep_order c m m' /\
    forall q, flagged m' q = bool_decide (q = c) || flagged m q.
Proof.
  intros Hw Hn Ho Ha Hnan. set (a2 := set_flags (Z.lor (flags a) FS_SKIPABLE) (decay E n a)).
  set (b := set_priority (calcDynamicPriority E a2) a2). destruct (decay_fields E n a) as (F1 & F2 & F3 & F4 & F5).
  assert (Hcalc : calcDynamicPriority E a2 = calcDynamicPriority E (decay E n a)) by apply (like_calc E _ _ (flags_like _ (decay E n a))).
  destruct (replace_spec m c a b Hw Hn Ho Ha F1 F2) as (Hs & Hn1 & Ho1); [cbn; rewrite Hcalc; by apply calc_ordered|].
  destruct (adjustOrder_spec (<[c := b]> m) c b) as (m' & Hadj & Hs2 & Ho2 & Hk); [by rewrite <- Hs|done|by apply lookup_insert_eq|done|].
  exists m'. split.
  { unfold decay_one, updShareAcctStats, upd. rewrite Ha. cbn [mbind option_bind]. rewrite lookup_insert_eq. cbn [mbind option_bind].
    rewrite insert_insert_eq, lookup_insert_eq. cbn [mbind option_bind]. rewrite insert_insert_eq, F3. exact Hadj. }
  split.
  { intros q. specialize (Hs2 q). destruct (decide (q = c)) as [->|Hne].
    - rewrite lookup_insert_eq in Hs2. rewrite Ha. inversion Hs2 as [? b2 Hb2 E1 E2|]; subst. constructor. split; [intros _|intros Hq; by destruct Hq].
      unfold decayed. eapply like_trans; [|apply same_like, Hb2]. unfold b. rewrite Hcalc.
      exists (Z.lor (flags a) FS_SKIPABLE). by left.
    - rewrite lookup_insert_ne in Hs2 by done. destruct Hs2 as [x y Hxy|]; constructor. split; [intros Hq; destruct (Hne Hq)|]. intros _. by apply same_like. }
  split; [by eapply same_accts_numbers|]. split; [done|]. split.
  { intros q h h' Hh Hh'. destruct (decide (q = c)) as [->|Hne].
    - rewrite (Hk c b h'); [|by apply lookup_insert_eq|done]. replace h with a by congruence. by rewrite <- F2.
    - apply (Hk q h h'); [by rewrite lookup_insert_ne|done]. }
  intros q. unfold flagged. specialize (Hs2 q). destruct (decide (q = c)) as [->|Hne].
  - rewrite bool_decide_eq_true_2 by done. rewrite lookup_insert_eq in Hs2. inversion Hs2 as [? b2 Hb2 E1 E2|]; subst.
    destruct (same_acct_fields _ _ Hb2) as (_ & _ & -> & _). apply skip_set.
  - rewrite bool_decide_eq_false_2 by done. rewrite lookup_insert_ne in Hs2 by done. destruct Hs2 as [x y Hxy|]; [|done].
    by destruct (same_acct_fields _ _ Hxy) as (_ & _ & -> & _).
Qed.

Lemma level_ext E n T T' m m' : (forall q, T q <-> T' q) -> level E n T m m' -> level E n T' m m'.
Proof. intros H Hl q. destruct (Hl q) as [a b [H1 H2]|]; constructor. split; intros Hq; [apply H1|apply H2]; by rewrite (H q). Qed.

Lemma level_trans E n T1 T2 m m1 m2 :
  (forall q, T1 q \/ ~ T1 q) -> (forall q, T1 q -> ~ T2 q) -> level E n T1 m m1 -> level E n T2 m1 m2 -> level E n (fun q => T1 q \/ T2 q) m m2.
Proof.
  intros Hdec Hdis H1 H2 q. specialize (H1 q). specialize (H2 q). destruct H1 as [a b [Ha Hb]|]; inversion H2 as [? c [Hc Hd]|]; subst; constructor.
  split.
  - intros Hq. destruct (Hdec q) as [Hq1|Hq1]; [eapply decayed_like; [by apply Ha|by apply Hd, Hdis]|].
    destruct Hq as [Hq|Hq]; [done|]. eapply like_decayed; [by apply Hb|by apply Hc].
  - intros Hq. eapply like_trans; [apply Hb|apply Hd]; tauto.
Qed.

Lemma level_refl E n T m : (forall q, ~ T q) -> level E n T m m.
Proof. intros H q. destruct (m !! q); constructor. split; intros Hq; [by destruct (H q)|apply like_refl]. Qed.

Lemma split_at_first x pre post : x ∉ pre -> split_at x (pre ++ x :: post) = Some (pre, post).
Proof.
  induction pre as [|c pre IH]; intros H; cbn [app split_at]; [by rewrite Z.eqb_refl|].
  apply not_elem_of_cons in H as [H1 H2]. rewrite (proj2 (Z.eqb_neq c x)) by congruence. by rewrite (IH H2).
Qed.

Lemma split_unique (x : Z) a b a' b' : a ++ x :: b = a' ++ x :: b' -> x ∉ a -> x ∉ a' -> a = a' /\ b = b'.
Proof.
  intros E Ha Ha'. pose proof (split_at_first x a b Ha) as H1. rewrite E, (split_at_first x a' b' Ha') in H1. by injection H1 as <- <-.
Qed.

(** The steps the walk may still take over a list. *)
Definition weight (m : accounts) (l : list Z) : nat := sum_list ((fun q => if flagged m q then 1 else 2)%nat <$> l).

Lemma weight_le m m1 (c : Z) L :
  NoDup L -> flagged m1 c = true -> (forall q, q <> c -> flagged m1 q = flagged m q) ->
  (weight m1 L <= weight m (filter (fun y => y <> c) L) + 1)%nat.
Proof.
  intros Hnd Hc Hq. assert (Hne : forall l, c ∉ l -> weight m1 l = weight m (filter (fun y => y <> c) l)).
  { intros l. induction l as [|q l IH]; intros H; [done|]. apply not_elem_of_cons in H as [H1 H2]. rewrite filter_cons_True by congruence.
    unfold weight in *. cbn. rewrite (Hq q) by congruence. by rewrite (IH H2). }
  induction L as [|q L IH]; [cbn; lia|]. apply NoDup_cons in Hnd as [Hn Hnd]. destruct (decide (q = c)) as [->|Hqc].
  - rewrite filter_cons_False by naive_solver. rewrite <- (Hne L Hn). unfold weight. cbn. rewrite Hc. lia.
  - rewrite filter_cons_True by done. specialize (IH Hnd). unfold weight in *. cbn. rewrite (Hq q Hqc). lia.
Qed.

Lemma weight_pos m c l : (weight m l < weight m (c :: l))%nat.
Proof. unfold weight. cbn. destruct (flagged m c); lia. Qed.

(** Where the walk goes on when [c] has moved. *)
Lemma after_move (c x : Z) pre t l1 :
  NoDup (pre ++ c :: x :: t) -> l1 ≡ₚ pre ++ c :: x :: t ->
  filter (fun y => y <> c) l1 = filter (fun y => y <> c) (pre ++ c :: x :: t) ->
  exists P Q, l1 = P ++ x :: Q /\ NoDup (x :: Q) /\ (forall y, y ∈ P -> y = c \/ y ∈ pre) /\ filter (fun y => y <> c) Q = t.
Proof.
  intros Hnd Hp Hf. assert (Hnd1 : NoDup l1) by (by rewrite Hp). rewrite filter_around in Hf by done.
  assert (Hx : x ∈ l1) by (rewrite Hp; set_solver).
  apply list_elem_of_split in Hx as (P & Q & ->). exists P, Q. apply NoDup_app in Hnd1 as (Hn1 & Hn2 & Hn3).
  apply NoDup_app in Hnd as (Hm1 & Hm2 & Hm3). apply NoDup_cons in Hm3 as [Hm3 Hm4].
  assert (Hxc : x <> c) by (intros ->; apply Hm3; by left).
  rewrite filter_app, filter_cons_True in Hf by done. apply split_unique in Hf as [Hf1 Hf2].
  - split; [done|]. split; [done|]. split; [|done]. intros y Hy. destruct (decide (y = c)) as [->|Hyc]; [by left|right].
    rewrite <- Hf1. apply list_elem_of_filter. done.
  - intros [_ Hx]%list_elem_of_filter. apply (Hn2 x Hx). by left.
  - intros Hx. apply (Hm2 x Hx). right. by left.
Qed.

(** The accounts of a walk whose decay is still to come can decay. *)
Definition can_decay (E : fsenv) (n : Z) (T : Z -> Prop) (m : accounts) : Prop :=
  forall q a, T q -> m !! q = Some a -> is_nan (calcDynamicPriority E (decay E n a)) = false.

Lemma can_decay_level E n T T' m m' :
  (forall q, T' q -> ~ T q) -> level E n T m m' -> can_decay E n T' m -> can_decay E n T' m'.
Proof.
  intros Hd Hl Hc q b Hq Hb. specialize (Hl q). rewrite Hb in Hl. inversion Hl as [a ? [_ Hab] Ea|]; subst.
  rewrite (like_calc E _ _ (like_decay E n a b (Hab (Hd q Hq)))). by apply (Hc q).
Qed.

Lemma eq_or (c q : Z) : q = c \/ q <> c.
Proof. destruct (decide (q = c)); auto. Qed.

(** The account [c] has decayed and moved: the walk goes on at [x], which was
    behind it, and has everything before it that is still to be done. *)
Lemma walk_on E n m m1 par h pre c x t :
  wf m -> m !! par = Some h -> children h = pre ++ c :: x :: t -> (forall y, y ∈ pre -> flagged m y = true) ->
  can_decay E n (fun q => q ∈ c :: x :: t /\ flagged m q = false) m ->
  level E n (fun q => q = c) m m1 -> keep_order c m m1 -> (forall q, flagged m1 q = bool_decide (q = c) || flagged m q) ->
  exists h1 P Q, m1 !! par = Some h1 /\ children h1 = P ++ x :: Q /\ (forall y, y ∈ P -> flagged m1 y = true) /\
    can_decay E n (fun q => q ∈ x :: Q /\ flagged m1 q = false) m1 /\ (weight m1 (x :: Q) <= weight m (x :: t) + 1)%nat /\
    forall y, y <> c -> y ∈ x :: Q <-> y ∈ x :: t.
Proof.
  intros Hw Hh El Hpre Hcan Hl1 Hk1 Hf1. pose proof (wf_nodup m Hw par h Hh) as Hnd. rewrite El in Hnd.
  assert (Hs1 : same_tree m m1) by (eapply level_tree; [|exact Hl1]; apply eq_or).
  destruct (same_tree_lookup m m1 par h Hs1 Hh) as (h1 & Hh1 & _ & Hperm). specialize (Hk1 par h h1 Hh Hh1). rewrite El in Hperm, Hk1.
  destruct (after_move c x pre t (children h1)) as (P & Q & El1 & HndQ & HP & HQ); [done|by symmetry|done|].
  assert (Hxc : x <> c) by (intros ->; apply NoDup_app in Hnd as (_ & _ & [H _]%NoDup_cons); apply H; by left).
  assert (Hin : forall y, y <> c -> y ∈ x :: Q <-> y ∈ x :: t).
  { intros y Hy. rewrite <- HQ, !elem_of_cons, list_elem_of_filter. naive_solver. }
  exists h1, P, Q. split; [done|]. split; [done|]. split; [|split; [|split; [|done]]].
  - intros y Hy. rewrite Hf1. destruct (HP y Hy) as [->|Hy']; [by rewrite bool_decide_eq_true_2|]. rewrite (Hpre y Hy'). apply orb_true_r.
  - refine (can_decay_level E n (fun q => q = c) _ m m1 _ Hl1 _).
    + cbn. intros q [_ Hq] ->. rewrite Hf1, bool_decide_eq_true_2 in Hq by done. done.
    + intros q b [Hq Hqf] Hb. rewrite Hf1 in Hqf. apply orb_false_iff in Hqf as [Hqc Hqf]. apply bool_decide_eq_false in Hqc.
      apply (Hcan q); [|done]. split; [right; by apply Hin|done].
  - pose proof (weight_le m m1 c (x :: Q) HndQ) as Hle. rewrite filter_cons_True, HQ in Hle by done. apply Hle.
    + by rewrite Hf1, bool_decide_eq_true_2.
    + intros q Hq. by rewrite Hf1, bool_decide_eq_false_2.
Qed.

Lemma decay_siblings_spec E n fuel m par h pre suf :
  wf m -> numbers m -> in_order m -> m !! par = Some h -> children h = pre ++ suf ->
  (forall x, x ∈ pre -> flagged m x = true) -> can_decay E n (fun q => q ∈ suf /\ flagged m q = false) m -> (weight m suf <= fuel)%nat ->
  exists m', decay_siblings fuel E n m par (head suf) = Some m' /\ numbers m' /\ in_order m' /\
    level E n (fun q => q ∈ suf /\ flagged m q = false) m m'.
Proof.
  revert m h pre suf. induction fuel as [|fuel IH]; intros m h pre suf Hw Hn Ho Hh El Hpre Hcan Hwt;
    (destruct suf as [|c post]; [exists m; split; [done|]; split; [done|]; split; [done|]; apply level_refl; by intros q [[]%elem_of_nil _]|]).
  { pose proof (weight_pos m c post). lia. }
  pose proof (wf_nodup m Hw par h Hh) as Hnd. rewrite El in Hnd. apply NoDup_app in Hnd as (_ & Hcpre & _).
  cbn [decay_siblings head]. rewrite Hh. cbn [mbind option_bind]. unfold next_sibling.
  rewrite El, split_at_first by (intros H; apply (Hcpre c H); by left). cbn [mbind option_bind].
  destruct (wf_kid m Hw par h c Hh) as (a & Ha & Hpar); [rewrite El; set_solver|]. rewrite Ha. cbn [mbind option_bind].
  pose proof (weight_pos m c post). assert (Hfc : flagged m c = has (flags a) FS_SKIPABLE) by (unfold flagged; by rewrite Ha).
  destruct (has (flags a) FS_SKIPABLE) eqn:Efl.
  - destruct (IH m h (pre ++ [c]) post) as (m' & -> & Hn' & Ho' & Hl'); try done.
    + by rewrite <- app_assoc.
    + intros x [Hx| ->%list_elem_of_singleton]%elem_of_app; auto.
    + intros q b [Hq Hqf]. apply Hcan. split; [by right|done].
    + lia.
    + exists m'. split; [done|]. split; [done|]. split; [done|]. eapply level_ext; [|exact Hl']. intros q. cbn. split; [set_solver|].
      intros [[->|Hq]%elem_of_cons Hqf]; [congruence|done].
  - destruct (decay_one_spec E n m c a) as (m1 & -> & Hl1 & Hn1 & Ho1 & Hk1 & Hf1); try done; [apply (Hcan c); [split; [by left|done]|done]|].
    cbn [mbind option_bind]. destruct post as [|x t].
    { exists m1. split; [by destruct fuel|]. split; [done|]. split; [done|]. eapply level_ext; [|exact Hl1]. intros q. cbn.
      split; [by intros ->; split; [left|]|by intros [->%list_elem_of_singleton _]]. }
    destruct (walk_on E n m m1 par h pre c x t) as (h1 & P & Q & Hh1 & El1 & HP & Hcan1 & Hle & Hin); try done.
    destruct (IH m1 h1 P (x :: Q)) as (m2 & Hrun & Hn2 & Ho2 & Hl2); try done.
    + assert (Hs1 : same_tree m m1) by (eapply level_tree; [|exact Hl1]; apply eq_or). by rewrite <- Hs1.
    + etrans; [exact Hle|]. revert Hwt. unfold weight. cbn. rewrite Hfc. lia.
    + exists m2. cbn [head] in Hrun |- *. split; [done|]. split; [done|]. split; [done|].
      refine (level_ext E n _ _ m m2 _ (level_trans E n (fun q => q = c) _ m m1 m2 (eq_or c) _ Hl1 Hl2)).
      * intros q. cbn. rewrite Hf1. destruct (decide (q = c)) as [->|Hq]; [split; [|by left]; intros _; split; [by left|done]|].
        rewrite bool_decide_eq_false_2, (Hin q Hq) by done. rewrite (elem_of_cons (x :: t) q c). naive_solver.
      * cbn. intros q -> [_ Hq]. rewrite Hf1, bool_decide_eq_true_2 in Hq by done. done.
Qed.

(** The flags of a list are cleared, and nothing else is changed. *)
Lemma clear_skip_spec m l :
  Forall (fun c => is_Some (m !! c)) l ->
  exists m', clear_skip m l = Some m' /\
    forall q, m' !! q = if bool_decide (q ∈ l) then (fun a => set_flags (Z.ldiff (flags a) FS_SKIPABLE) a) <$> m !! q else m !! q.
Proof.
  revert m. induction l as [|c l IH]; intros m Hl.
  { exists m. split; [done|]. intros q. by rewrite bool_decide_eq_false_2 by apply not_elem_of_nil. }
  apply Forall_cons in Hl as [[a Ha] Hl]. cbn [clear_skip]. unfold upd. rewrite Ha. cbn [mbind option_bind].
  set (g := fun a => set_flags (Z.ldiff (flags a) FS_SKIPABLE) a). fold (g a).
  destruct (IH (<[c := g a]> m)) as (m' & -> & Hlk).
  { eapply Forall_impl; [exact Hl|]. intros x Hx. cbn. by apply lookup_insert_is_Some'; right. }
  exists m'. split; [done|]. intros q. rewrite Hlk. fold g. destruct (decide (q = c)) as [->|Hne].
  - rewrite lookup_insert_eq, (bool_decide_eq_true_2 (c ∈ c :: l)), Ha by (by left). cbn. case_bool_decide; [|done].
    cbn. f_equal. unfold g. cbn. by rewrite Z.ldiff_ldiff_l, Z.lor_diag.
  - rewrite lookup_insert_ne by done. by rewrite (bool_decide_ext (q ∈ c :: l) (q ∈ l)) by (rewrite elem_of_cons; naive_solver).
Qed.

(** ** The whole tree *)

(** [q] is below [par]. *)
Definition under (m : accounts) (par q : Z) : Prop := exists l, up_path m q (q :: l) /\ par ∈ l.

#[global] Instance under_proper : Proper (same_tree ==> eq ==> eq ==> iff) under.
Proof. intros m m' Hs p ? <- q ? <-. unfold under. by setoid_rewrite Hs. Qed.

Lemma under_or m par q : wf m -> under m par q \/ ~ under m par q.
Proof.
  intros Hw. destruct (m !! q) as [a|] eqn:Ha; [|right; intros (l & H & _); inversion H; congruence].
  destruct (wf_up m Hw q a Ha) as [l' Hl]. inversion Hl as [|? b l Hn Hb Hup]; subst; [by rewrite (wf_null m Hw) in Ha|].
  destruct (decide (par ∈ l)) as [Hp|Hp]; [left; by exists l|right]. intros (l2 & H2 & Hp2).
  apply Hp. pose proof (up_path_fun m q _ _ Hl H2) as E. by injection E as ->.
Qed.

Lemma under_inv m par q : under m par q -> exists l, up_path m q (q :: l) /\ par ∈ l /\ q ∉ l.
Proof. intros (l & Hl & Hp). exists l. split; [done|]. split; [done|]. apply up_path_nodup, NoDup_cons in Hl. by destruct Hl. Qed.

Lemma child_path m par h c lp :
  wf m -> m !! par = Some h -> c ∈ children h -> up_path m par lp -> up_path m c (c :: lp).
Proof.
  intros Hw Hh Hc Hlp. destruct (wf_kid m Hw par h c Hh Hc) as (a & Ha & Hp). econstructor; [|done|by rewrite Hp].
  intros ->. by rewrite (wf_null m Hw) in Ha.
Qed.

(** Below an account are its children and what is below them. *)
Lemma under_child m par h q :
  wf m -> m !! par = Some h -> under m par q <-> exists c, c ∈ children h /\ (q = c \/ under m c q).
Proof.
  intros Hw Hh. assert (Hpn : par <> NULL) by (intros ->; by rewrite (wf_null m Hw) in Hh).
  destruct (wf_up m Hw par h Hh) as [lp Hlp]. split.
  - intros (l & Hl & Hp & Hq)%under_inv. assert (Hpq : par <> q) by congruence.
    destruct (path_child m q (q :: l) par Hl) as (k & Hk & Hkp & _); [by right|done|].
    destruct (up_path_dom m q _ k Hl Hk) as [kb Hkb]. rewrite Hkb in Hkp. injection Hkp as Hkp.
    destruct (wf_par m Hw k kb Hkb) as (h2 & Hh2 & Hin); [by rewrite Hkp|]. rewrite Hkp, Hh in Hh2. injection Hh2 as <-.
    exists k. split; [done|]. apply elem_of_cons in Hk as [->|Hk]; [by left|right; by exists l].
  - intros (c & Hc & [->|(l & Hl & Hcl & Hql)%under_inv]).
    + exists lp. split; [by eapply child_path|]. inversion Hlp; subst; [done|by left].
    + exists l. split; [done|]. destruct (wf_kid m Hw par h c Hh Hc) as (a & Ha & Hp).
      assert (par ∈ q :: l) as [->|?]%elem_of_cons; [|exfalso|done].
      { apply (path_closed m q (q :: l) c); [done|by right|by rewrite Ha; cbn; rewrite Hp|done]. }
      inversion Hl as [|? b ? Hn Hb Hup]; subst. destruct (up_path_suffix m (parent b) l c Hup Hcl) as (l1 & l2 & -> & H2 & Hne2).
      inversion H2 as [|? d l3 Hn3 Hd Hup3]; subst; [done|]. replace (parent d) with (parent a) in Hup3 by congruence.
      inversion Hup3; subst; [done|]. apply Hql. set_solver.
Qed.

(** ... and below at most one of them. *)
Lemma under_one m par h c c' q :
  wf m -> m !! par = Some h -> c ∈ children h -> c' ∈ children h -> q = c \/ under m c q -> q = c' \/ under m c' q -> c = c'.
Proof.
  intros Hw Hh Hc Hc' Hq Hq'. assert (Hu : under m par q) by (apply (under_child m par h q Hw Hh); by exists c).
  apply under_inv in Hu as (l & Hl & Hp & Hql). assert (Hpq : par <> q) by congruence.
  destruct (path_child m q (q :: l) par Hl) as (k & _ & _ & Huniq); [by right|done|].
  assert (Hon : forall x, x ∈ children h -> q = x \/ under m x q -> x = k).
  { intros x Hx Hqx. destruct (wf_kid m Hw par h x Hh Hx) as (a & Ha & Hpa). apply Huniq; [|by rewrite Ha; cbn; rewrite Hpa].
    destruct Hqx as [->|(l2 & Hl2 & Hx2)]; [by left|]. pose proof (up_path_fun m q _ _ Hl Hl2) as E. injection E as <-. by right. }
  rewrite (Hon c Hc Hq). symmetry. by apply Hon.
Qed.

Definition no_empty (m : accounts) : Prop :=
  forall q a f u, m !! q = Some a -> sharePolicy a <> Some (ShareDistributePolicy f (Some []) u).

Lemma level_no_empty E n T m m' : (forall q, T q \/ ~ T q) -> level E n T m m' -> no_empty m -> no_empty m'.
Proof.
  intros Hdec Hl Hne q b f u Hb Hpol. specialize (Hl q). rewrite Hb in Hl. inversion Hl as [a ? [H1 H2] Ea|]; subst.
  destruct (Hdec q) as [Hq|Hq].
  - destruct (like_fields _ _ (H1 Hq)) as (_ & _ & _ & _ & _ & H). destruct (H f u Hpol) as (f' & u' & E2). cbn in E2.
    destruct (decay_fields E n a) as (_ & _ & _ & _ & E5). rewrite E5 in E2. by apply (Hne q a f' u').
  - destruct (like_fields _ _ (H2 Hq)) as (_ & _ & _ & _ & _ & H). destruct (H f u Hpol) as (f' & u' & E2). by apply (Hne q a f' u').
Qed.

Lemma same_tree_size m m' : same_tree m m' -> size m' = size m.
Proof.
  intros H. rewrite <- !size_dom. f_equal. apply set_eq. intros q. rewrite !elem_of_dom.
  destruct (H q) as [x y Hxy|]; [split; intros _; by eexists|done].
Qed.

(** The first pass over a level. *)
Lemma decay_first E n m par h :
  wf m -> numbers m -> in_order m -> m !! par = Some h -> can_decay E n (fun q => q ∈ children h) m ->
  exists m1 m2, clear_skip m (children h) = Some m1 /\
    decay_siblings (S (2 * length (children h))) E n m1 par (head (children h)) = Some m2 /\ numbers m2 /\ in_order m2 /\
    level E n (fun q => q ∈ children h) m m2.
Proof.
  intros Hw Hn Ho Hh Hcan. destruct (clear_skip_spec m (children h)) as (m1 & -> & Hlk).
  { apply Forall_forall. intros c Hc. destruct (wf_kid m Hw par h c Hh Hc) as (a & Ha & _). by eexists. }
  exists m1. assert (Hacc : forall q b, m1 !! q = Some b -> exists f a, m !! q = Some a /\ b = set_flags f a).
  { intros q b Hb. rewrite Hlk in Hb. destruct (m !! q) as [a|]; [|by case_bool_decide].
    case_bool_decide; injection Hb as <-; [by eexists _, a|]. exists (flags a), a. split; [done|by destruct a]. }
  assert (Hrk : forall q, rk m q = rk m1 q).
  { intros q. unfold rk. rewrite Hlk. case_bool_decide; [|done]. by destruct (m !! q). }
  assert (Hl1 : level E n (fun _ => False) m m1).
  { intros q. rewrite Hlk. destruct (m !! q) as [a|]; [|case_bool_decide; constructor].
    case_bool_decide; constructor; (split; [done|intros _]); [apply flags_like|apply like_refl]. }
  assert (Hs1 : same_tree m m1) by (eapply level_tree; [|exact Hl1]; tauto).
  assert (Hun : forall q, q ∈ children h -> flagged m1 q = false).
  { intros q Hq. unfold flagged. rewrite Hlk, bool_decide_eq_true_2 by done. destruct (m !! q); [|done]. apply skip_cleared. }
  assert (exists h1, m1 !! par = Some h1 /\ children h1 = children h) as (h1 & Hh1 & Ek).
  { destruct (same_tree_lookup m m1 par h Hs1 Hh) as (h1 & Hh1 & _). exists h1. split; [done|].
    destruct (Hacc par h1 Hh1) as (f & a & Ha & ->). by replace a with h by congruence. }
  destruct (decay_siblings_spec E n (S (2 * length (children h))) m1 par h1 [] (children h)) as (m2 & -> & Hn2 & Ho2 & Hl2); try done.
  - by rewrite <- Hs1.
  - intros q b Hb. destruct (Hacc q b Hb) as (f & a & Ha & ->). exact (Hn q a Ha).
  - intros q b Hb. destruct (Hacc q b Hb) as (f & a & Ha & ->). apply (ascending_ext m); [by intros|exact (Ho q a Ha)].
  - by intros x []%elem_of_nil.
  - intros q b [Hq _] Hb. destruct (Hacc q b Hb) as (f & a & Ha & ->).
    rewrite (like_calc E _ _ (like_decay E n a _ (flags_like f a))). by apply (Hcan q).
  - transitivity (2 * length (children h))%nat; [|lia]. clear -Hun. unfold weight. induction (children h) as [|c l IH]; [done|].
    cbn. rewrite (Hun c) by (by left). cut (sum_list ((λ q : Z, if flagged m1 q then 1 else 2) <$> l) <= 2 * length l)%nat; [lia|].
    apply IH. intros q Hq. apply Hun. by right.
  - exists m2. split; [done|]. split; [done|]. split; [done|]. split; [done|].
    refine (level_ext E n _ _ m m2 _ (level_trans E n (fun _ => False) _ m m1 m2 _ _ Hl1 Hl2)); [|tauto|done].
    intros q. cbn. split; [intros [[]|[? _]]; done|]. intros Hq. right. split; [done|auto].
Qed.

(** What a level needs and what it gives, for the proofs over all levels. *)
Definition level_done (E : fsenv) (n : Z) (T : Z -> Prop) (m : accounts) (r : option accounts) : Prop :=
  exists m', r = Some m' /\ numbers m' /\ in_order m' /\ level E n T m m'.

(** The loop over the children of [par], each with what is below it. *)
Lemma each_level E n par h m0 (f : accounts -> Z -> option accounts) L :
  wf m0 -> m0 !! par = Some h -> NoDup L -> (forall c, c ∈ L -> c ∈ children h) ->
  (forall m c, same_tree m0 m -> numbers m -> in_order m -> no_empty m -> c ∈ L -> can_decay E n (under m0 c) m ->
     level_done E n (under m0 c) m (f m c)) ->
  forall m, same_tree m0 m -> numbers m -> in_order m -> no_empty m -> can_decay E n (fun q => exists c, c ∈ L /\ under m0 c q) m ->
  level_done E n (fun q => exists c, c ∈ L /\ under m0 c q) m (each f m L).
Proof.
  intros Hw Hh Hnd HL Hf. induction L as [|c L IH]; intros m Hs Hn Ho Hne Hcan; cbn [each].
  { exists m. split; [done|]. split; [done|]. split; [done|]. apply level_refl. intros q (c & []%elem_of_nil & _). }
  apply NoDup_cons in Hnd as [Hc Hnd].
  destruct (Hf m c) as (m1 & -> & Hn1 & Ho1 & Hl1); try done; [by left|intros q a Hq; apply Hcan; exists c; split; [by left|done]|].
  assert (Hdis : forall q, under m0 c q -> ~ exists c', c' ∈ L /\ under m0 c' q).
  { intros q Hq (c' & Hc' & Hq'). apply Hc. replace c with c'; [done|].
    apply (under_one m0 par h c' c q Hw Hh); [apply HL; by right|apply HL; by left|by right|by right]. }
  cbn [mbind option_bind]. destruct (IH Hnd) with (m := m1) as (m2 & -> & Hn2 & Ho2 & Hl2); try done.
  - intros c' Hc'. apply HL. by right.
  - intros m' c' Hs' Hn' Ho' Hne' Hc' Hcan'. apply Hf; try done. by right.
  - etrans; [exact Hs|]. eapply level_tree; [|exact Hl1]. intros q. by apply under_or.
  - eapply level_no_empty; [|exact Hl1|done]. intros q. by apply under_or.
  - refine (can_decay_level E n (under m0 c) _ m m1 _ Hl1 _).
    + intros q Hq Hu. by apply (Hdis q Hu).
    + intros q a (c' & Hc' & Hq) Ha. apply (Hcan q a); [|done]. exists c'. split; [by right|done].
  - exists m2. split; [done|]. split; [done|]. split; [done|].
    refine (level_ext E n _ _ m m2 _ (level_trans E n (under m0 c) _ m m1 m2 _ Hdis Hl1 Hl2)); [|intros q; by apply under_or].
    intros q. split; [intros [Hq|(c' & Hc' & Hq)]; [exists c|exists c']; (split; [|done]); [by left|by right]|].
    intros (c' & [->|Hc']%elem_of_cons & Hq); [by left|right; by exists c'].
Qed.

Lemma decay_level_spec E n fuel m par h lp :
  wf m -> numbers m -> in_order m -> no_empty m -> m !! par = Some h -> children h <> [] -> up_path m par lp ->
  (size m < fuel + length lp)%nat -> can_decay E n (under m par) m ->
  level_done E n (under m par) m (decay_level fuel E n m par).
Proof.
  revert m par h lp. induction fuel as [|fuel IH]; intros m par h lp Hw Hn Ho Hne Hh Hk Hlp Hf Hcan.
  { pose proof (up_path_fuel m par lp Hlp). unfold path_fuel in *. lia. }
  destruct (decay_first E n m par h) as (m1 & m2 & H1 & H2 & Hn2 & Ho2 & Hl2); try done.
  { intros q a Hq. apply Hcan. apply (under_child m par h q Hw Hh). exists q. auto. }
  assert (Hor : forall q, q ∈ children h \/ q ∉ children h) by (intros q; destruct (decide (q ∈ children h)); auto).
  assert (Hs2 : same_tree m m2) by (eapply level_tree; [|exact Hl2]; done).
  destruct (same_tree_lookup m m2 par h Hs2 Hh) as (h2 & Hh2 & _ & Hk2).
  set (f := fun m c => a ← m !! c; match sharePolicy a with Some (ShareDistributePolicy _ (Some _) _) => decay_level fuel E n m c | _ => Some m end).
  assert (Hrun : decay_level (S fuel) E n m par = each f m2 (children h2)).
  { cbn [decay_level]. rewrite Hh. cbn [mbind option_bind]. destruct (children h) as [|c0 l0]; [done|]. rewrite H1. cbn [mbind option_bind].
    rewrite H2. cbn [mbind option_bind]. rewrite Hh2. done. }
  assert (Hdisj : forall q, q ∈ children h -> ~ exists c, c ∈ children h2 /\ under m c q).
  { intros q Hq (c & Hc & Hu). rewrite <- Hk2 in Hc. assert (q = c) as -> by (apply (under_one m par h q c q Hw Hh); auto).
    apply under_inv in Hu as (l & _ & H & H'). done. }
  rewrite Hrun. destruct (each_level E n par h m f (children h2)) with (m := m2) as (m3 & -> & Hn3 & Ho3 & Hl3); try done.
  - apply (wf_nodup m2) with par; [by rewrite <- Hs2|done].
  - intros c Hc. by rewrite Hk2.
  - intros m' c Hs' Hn' Ho' Hne' Hc Hcan'. rewrite <- Hk2 in Hc. destruct (wf_kid m Hw par h c Hh Hc) as (a & Ha & Hpa).
    destruct (same_tree_lookup m m' c a Hs' Ha) as (a' & Ha' & _ & Hka). unfold f. rewrite Ha'. cbn [mbind option_bind].
    assert (Hnone : children a' = [] -> level_done E n (under m c) m' (Some m')).
    { intros E0. exists m'. split; [done|]. split; [done|]. split; [done|]. apply level_refl. intros q Hq.
      apply (under_child m c a q Hw Ha) in Hq as (x & Hx & _). rewrite Hka, E0 in Hx. by apply elem_of_nil in Hx. }
    destruct (sharePolicy a') as [[fl [l|] u]|] eqn:Ep; [|by apply Hnone; unfold children; rewrite Ep..].
    assert (Hu : forall q, under m' c q <-> under m c q) by (intros q; by rewrite Hs').
    destruct (IH m' c a' (c :: lp)) as (m3 & Hr & Hn3 & Ho3 & Hl3); try done.
    + by rewrite <- Hs'.
    + unfold children. rewrite Ep. cbn. intros ->. by apply (Hne' c a' fl u).
    + rewrite <- Hs'. exact (child_path m par h c lp Hw Hh Hc Hlp).
    + rewrite (same_tree_size m m' Hs'). cbn. lia.
    + intros q b Hq%Hu. by apply Hcan'.
    + exists m3. split; [done|]. split; [done|]. split; [done|]. by eapply level_ext.
  - exact (level_no_empty E n _ m m2 Hor Hl2 Hne).
  - refine (can_decay_level E n (fun q => q ∈ children h) _ m m2 _ Hl2 _).
    + intros q Hq Hin. by apply (Hdisj q).
    + intros q b (c & Hc & Hq) Hb. apply (Hcan q); [|done]. apply (under_child m par h q Hw Hh). exists c. rewrite Hk2. auto.
  - exists m3. split; [done|]. split; [done|]. split; [done|].
    refine (level_ext E n _ _ m m3 _ (level_trans E n _ _ m m2 m3 Hor Hdisj Hl2 Hl3)). intros q. cbn. rewrite (under_child m par h q Hw Hh).
    split; [intros [Hq|(c & Hc & Hq)]; [exists q; auto|exists c; rewrite Hk2; auto]|].
    intros (c & Hc & [->|Hq]); [by left|right; exists c; by rewrite <- Hk2].
Qed.

Lemma decayed_fields E n a b : decayed E n a b -> load_of b = load_of (decay E n a) /\ priority b = calcDynamicPriority E b.
Proof.
  intros H. rewrite (like_calc E _ _ H). destruct (like_fields _ _ H) as (_ & _ & -> & -> & _). split; [done|]. by apply calc_load.
Qed.

(** The root decays, and keeps its priority. *)
Lemma decay_root E n m root a :
  numbers m -> in_order m -> no_empty m -> m !! root = Some a ->
  let m1 := <[root := decay E n a]> m in
  same_tree m m1 /\ numbers m1 /\ in_order m1 /\ no_empty m1 /\
  forall q b1, m1 !! q = Some b1 -> exists b, m !! q = Some b /\ b1 = (if bool_decide (q = root) then decay E n b else b).
Proof.
  intros Hn Ho Hne Ha m1. destruct (decay_fields E n a) as (F1 & F2 & F3 & F4 & F5).
  assert (Hlk : forall q b1, m1 !! q = Some b1 -> exists b, m !! q = Some b /\ b1 = (if bool_decide (q = root) then decay E n b else b)).
  { intros q b1 Hb. unfold m1 in Hb. destruct (decide (q = root)) as [->|Hq]; [rewrite lookup_insert_eq in Hb; injection Hb as <-; exists a; by rewrite bool_decide_eq_true_2|].
    rewrite lookup_insert_ne in Hb by done. exists b1. by rewrite bool_decide_eq_false_2. }
  assert (Hsame : forall q b1, m1 !! q = Some b1 -> exists b, m !! q = Some b /\ priority b1 = priority b /\ children b1 = children b /\ sharePolicy b1 = sharePolicy b).
  { intros q b1 Hb. destruct (Hlk q b1 Hb) as (b & Hb0 & ->). exists b. destruct (decay_fields E n b) as (_ & G2 & _ & G4 & G5). by case_bool_decide. }
  assert (Hrk : forall q, rk m q = rk m1 q).
  { intros q. unfold rk, m1. destruct (decide (q = root)) as [->|Hq]; [by rewrite lookup_insert_eq, Ha, F4|by rewrite lookup_insert_ne]. }
  split; [eapply same_tree_insert; [done|split; [done|by rewrite F2]]|]. split; [|split; [|split; [|done]]].
  - intros q b1 Hb. destruct (Hsame q b1 Hb) as (b & Hb0 & -> & _). by apply (Hn q).
  - intros q b1 Hb. destruct (Hsame q b1 Hb) as (b & Hb0 & _ & -> & _). apply (ascending_ext m); [by intros|by apply (Ho q)].
  - intros q b1 f u Hb. destruct (Hsame q b1 Hb) as (b & Hb0 & _ & _ & ->). by apply (Hne q).
Qed.

(** (C15) The decay of a tree ends; it lets the CPU time of every account decay
    exactly once, although accounts change places in the lists that are
    walked; below the root the priorities are those of the new load, accounts
    of other trees stay as they are, and all lists are in ascending order of
    priority. *)
Theorem traverseUpd4Decay_correct E n m root a :
  wf m -> numbers m -> in_order m -> no_empty m -> m !! root = Some a -> parent a = NULL -> can_decay E n (under m root) m ->
  exists m', traverseUpd4Decay E n m root = Some m' /\ same_tree m m' /\ numbers m' /\ in_order m' /\
    forall q b b', m !! q = Some b -> m' !! q = Some b' ->
      (q = root \/ under m root q -> load_of b' = load_of (decay E n b)) /\
      (under m root q -> priority b' = calcDynamicPriority E b') /\
      (~ under m root q -> priority b' = priority b /\ (q <> root -> load_of b' = load_of b)).
Proof.
  intros Hw Hn Ho Hne Ha Hroot Hcan. unfold traverseUpd4Decay, updShareAcctStats, upd. rewrite Ha. cbn [mbind option_bind].
  destruct (decay_fields E n a) as (_ & F2 & _ & _ & F5). rewrite lookup_insert_eq. cbn [mbind option_bind].
  destruct (decay_root E n m root a) as (Hs & Hn1 & Ho1 & Hne1 & Hlk); try done. set (m1 := <[root := decay E n a]> m) in *.
  assert (Hnr : ~ under m root root) by (intros (l & _ & H1 & H2)%under_inv; done).
  assert (Hu : forall q, under m1 root q <-> under m root q) by (intros q; by rewrite Hs).
  cut (level_done E n (under m1 root) m1 (match sharePolicy (decay E n a) with Some (ShareDistributePolicy _ (Some _) _) => decay_level (path_fuel m1) E n m1 root | _ => Some m1 end)).
  - intros (m' & -> & Hn' & Ho' & Hl). assert (Hs' : same_tree m m').
    { etrans; [exact Hs|]. eapply level_tree; [|exact Hl]. intros q. apply under_or. by rewrite <- Hs. }
    exists m'. split; [done|]. split; [done|]. split; [done|]. split; [done|]. intros q b b' Hb Hb'.
    destruct (same_tree_lookup m m1 q b Hs Hb) as (b1 & Hb1 & _). destruct (Hlk q b1 Hb1) as (b0 & Hb0 & E1). replace b0 with b in E1 by congruence.
    specialize (Hl q). rewrite Hb1, Hb' in Hl. inversion Hl as [? ? [L1 L2] E2 E3|]; subst. rewrite Hu in L1, L2.
    assert (Hd : under m root q -> load_of b' = load_of (decay E n b) /\ priority b' = calcDynamicPriority E b').
    { intros Hq. apply decayed_fields. rewrite bool_decide_eq_false_2 in L1 by (intros ->; done). auto. }
    assert (Hk : ~ under m root q -> priority b' = priority b /\ load_of b' = load_of (if bool_decide (q = root) then decay E n b else b)).
    { intros Hq. destruct (like_fields _ _ (L2 Hq)) as (_ & _ & -> & -> & _). destruct (decay_fields E n b) as (_ & _ & _ & G4 & _). by case_bool_decide. }
    split; [intros [->|Hq]; [|by apply Hd]; destruct (Hk Hnr) as [_ ->]; by rewrite bool_decide_eq_true_2|]. split; [intros Hq; by apply Hd|].
    intros Hq. destruct (Hk Hq) as [-> ->]. split; [done|]. intros Hqr. by rewrite bool_decide_eq_false_2.
  - rewrite F5. destruct (sharePolicy a) as [[fl [l|] u]|] eqn:Ep.
    2, 3: exists m1; split; [done|]; split; [done|]; split; [done|]; apply level_refl; intros q Hq%Hu;
      apply (under_child m root a q Hw Ha) in Hq as (x & Hx & _); unfold children in Hx; rewrite Ep in Hx; by apply elem_of_nil in Hx.
    assert (Hp1 : up_path m1 root [root]).
    { rewrite <- Hs. econstructor; [intros E0; by rewrite E0, (wf_null m Hw) in Ha|done|]. rewrite Hroot. constructor. }
    apply (decay_level_spec E n (path_fuel m1) m1 root (decay E n a) [root]); try done.
    + by rewrite <- Hs.
    + unfold m1. apply lookup_insert_eq.
    + rewrite F2. unfold children. rewrite Ep. cbn. intros ->. by apply (Hne root a fl u).
    + unfold path_fuel. cbn. lia.
    + intros q b Hq%Hu Hb. destruct (Hlk q b Hb) as (b0 & Hb0 & ->). rewrite bool_decide_eq_false_2 by (intros ->; done). by apply (Hcan q).
Qed.

Lemma traverseUpd4Decay_correct_witness : exists m',
  traverseUpd4Decay sample_factors 2 sample_accts 1 = Some m' /\ same_tree sample_accts m' /\ numbers m' /\ in_order m' /\
  forall q b b', sample_accts !! q = Some b -> m' !! q = Some b' ->
    (q = 1 \/ under sample_accts 1 q -> load_of b' = load_of (decay sample_factors 2 b)) /\
    (under sample_accts 1 q -> priority b' = calcDynamicPriority sample_factors b') /\
    (~ under sample_accts 1 q -> priority b' = priority b /\ (q <> 1 -> load_of b' = load_of b)).
Proof.
  destruct sample_fs_ok as [Hw Hn Ho]. eapply traverseUpd4Decay_correct; try done.
  - intros p a f u H. sample_cases H; done.
  - intros p a _ H. sample_cases H; vm_compute; reflexivity.
Defined.
