(* ===== verification/FairElect.v ===== *)
(** * Fairshare: electing the next job

    A scheduling round puts the pending jobs of a fairshare queue into a job
    set, by user, and elects one after the other: at every level of the tree
    the child with the highest priority that has a job, and among children of
    equal priority the one whose job comes first.  Accounts without jobs are
    marked so that later elections skip them.

    The table of users is a map; the order in which its entries are visited is
    that of the hash table and is left open: an instance of [TabOrder] gives
    it.  A list of jobs is the sequence of its ring from the front, so that
    [listGetBackEntry] is its last element. *)

From Stdlib Require Import SpecFloat.
From S2P Require Import Prelude Lsb Float32 FloatOrd Fairshare FairTree FairLoad FairDecay.

(** The order in which the entries of a hash table are visited. *)
Class TabOrder := {
  tab_order : gset string -> list string;
  tab_order_perm X : tab_order X ≡ₚ elements X }.

(** ** The job set *)

Record jobFSRef := JobFSRef { job : Z; idx : Z }.
Record fsQueueJobSet := FsQueueJobSet { jobsTab : gmap string (list jobFSRef); nJobs : Z }.

Definition sch_fs_newJobSet : fsQueueJobSet := FsQueueJobSet ∅ 0.

(** [addToFSJobSet] of the job [j] of [user]. *)
Definition addToFSJobSet (js : fsQueueJobSet) (user : string) (j : Z) : fsQueueJobSet :=
  let n := i32 (nJobs js + 1) in
  let l := default [] (jobsTab js !! user) in
  FsQueueJobSet (<[user := JobFSRef j n :: l]> (jobsTab js)) n.

Section Elect.
Context `{TabOrder}.

(** The loops over users of [getJobFromFSJobSet]: the first job is taken as it
    comes, later ones are compared; a user whose list has become empty then
    gives a null reference. *)
Fixpoint first_of (tab : gmap string (list jobFSRef)) (keys : list string) (job0 : option jobFSRef) (ent0 : option string)
    : option (option jobFSRef * option string) :=
  match keys with
  | [] => Some (job0, ent0)
  | k :: keys =>
      l ← tab !! k;
      match job0 with
      | None => first_of tab keys (last l) (Some k)
      | Some j0 =>
          j ← last l;
          if idx j <? idx j0 then first_of tab keys (Some j) (Some k) else first_of tab keys job0 ent0
      end
  end.

(** The job of an account, the entry it is in, and the account with its cache. *)
Definition getJobFromFSJobSet (js : fsQueueJobSet) (a : shareAcct) : option (option jobFSRef * option string * shareAcct) :=
  let tab := jobsTab js in
  if has (flags a) FS_LEAF_GROUP then
    sp ← sharePolicy a;
    users ← usersTab sp;
    let keys :=
      if has (sp_flags sp) FS_OUT_OTHERS then filter (fun k => k ∉ users) (tab_order (dom tab))
      else if bool_decide (users = ∅) then tab_order (dom tab)
      else filter (fun k => k ∈ dom tab) (tab_order users) in
    '(job0, ent0) ← first_of tab keys None None;
    Some (job0, match job0 with Some _ => ent0 | None => None end, a)
  else
    match jListEntCache a with
    | None =>
        match tab !! name a with
        | None => Some (None, None, a)
        | Some l => Some (last l, Some (name a), set_cache (Some (name a)) a)
        end
    | Some k => l ← tab !! k; Some (last l, Some k, a)
    end.

(** ** Marks *)

(** The loop of [updSAcctSkippedFlag] from [p] up. *)
Fixpoint skip_up (fuel : nat) (m : accounts) (p : Z) : option accounts :=
  match fuel with
  | O => None
  | S k =>
      if p =? NULL then Some m else
      a ← m !! p;
      let n := i32 (numSkippedChild a + 1) in
      if n =? Z.of_nat (length (children a))
      then skip_up k (<[p := set_flags (Z.lor (flags a) FS_SKIPABLE) (set_skipped n a)]> m) (parent a)
      else Some (<[p := set_skipped n a]> m)
  end.

Definition updSAcctSkippedFlag (m : accounts) (node : Z) : option accounts :=
  if node =? NULL then Some m else
  a ← m !! node;
  if FS_IS_LEAF_NODE a then
    if numSkippedChild a =? 1 then Some m
    else skip_up (path_fuel m) (<[node := set_flags (Z.lor (flags a) FS_SKIPABLE) (set_skipped 1 a)]> m) (parent a)
  else Some m.

Definition resetSkipFlag (a : shareAcct) : shareAcct :=
  let a := set_flags (Z.ldiff (flags a) FS_SKIPABLE) (set_skipped 0 a) in
  if FS_IS_LEAF_NODE a then set_cache None a else a.

(** [traverseFSTree]: the account, then its children from the back. *)
Fixpoint traverseFSTree (fuel : nat) (m : accounts) (p : Z) (func : shareAcct -> shareAcct) : option accounts :=
  match fuel with
  | O => None
  | S k =>
      m ← upd m p func;
      a ← m !! p;
      each (fun m c => traverseFSTree k m c func) m (rev (children a))
  end.

Definition sch_fs_init (m : accounts) (root : Z) : option accounts := traverseFSTree (path_fuel m) m root resetSkipFlag.

(** ** The election *)

(** What an election gives: the job, the account it belongs to, its entry, and
    the accounts. *)
Definition choice : Type := option jobFSRef * Z * option string * accounts.

(** The loop over the children; [best] is [jobRef0], [*sAcctOut],
    [*jobSetEntOut] and [sAcct0]. *)
Fixpoint elect_among (rec : accounts -> Z -> option choice) (m : accounts) (l : list Z)
    (best : option (jobFSRef * Z * option string * Z)) : option choice :=
  match l with
  | [] => Some (match best with Some (j, s, e, _) => (Some j, s, e, m) | None => (None, NULL, None, m) end)
  | c :: l =>
      match best with
      | Some (j0, s0, e0, c0) =>
          pc ← prio_of m c;
          p0 ← prio_of m c0;
          if SFeqb pc p0 then
            '(j, s, e, m) ← rec m c;
            match j with
            | Some j => elect_among rec m l (Some (if idx j <? idx j0 then (j, s, e, c) else (j0, s0, e0, c0)))
            | None => elect_among rec m l best
            end
          else Some (Some j0, s0, e0, m)
      | None =>
          '(j, s, e, m) ← rec m c;
          match j with
          | Some j => elect_among rec m l (Some (j, s, e, c))
          | None => elect_among rec m l None
          end
      end
  end.

Fixpoint electAJob (fuel : nat) (js : fsQueueJobSet) (m : accounts) (node : Z) : option choice :=
  match fuel with
  | O => None
  | S k =>
      a ← m !! node;
      if has (flags a) FS_SKIPABLE then Some (None, NULL, None, m)
      else if has (flags a) FS_IS_DEFAULT then m ← updSAcctSkippedFlag m node; Some (None, NULL, None, m)
      else if FS_IS_LEAF_NODE a then
        '(j, e, a) ← getJobFromFSJobSet js a;
        let m := <[node := a]> m in
        m ← match j with None => updSAcctSkippedFlag m node | Some _ => Some m end;
        Some (j, node, e, m)
      else elect_among (electAJob k js) m (rev (children a)) None
  end.

(** The jobs of users without an account. *)
Fixpoint rest_of (tab : gmap string (list jobFSRef)) (keys : list string) (job0 : option jobFSRef) (ent0 : option string)
    : option (option jobFSRef * option string) :=
  match keys with
  | [] => Some (job0, ent0)
  | k :: keys =>
      l ← tab !! k;
      match job0, last l with
      | None, j => rest_of tab keys j (Some k)
      | Some j0, Some j => if idx j <? idx j0 then rest_of tab keys (Some j) (Some k) else rest_of tab keys job0 ent0
      | Some _, None => rest_of tab keys job0 ent0
      end
  end.

Definition rmJobFromFSJobSet (js : fsQueueJobSet) (m : accounts) (sAcct : Z) (j : jobFSRef) (ent : string)
    : option (fsQueueJobSet * accounts) :=
  l ← jobsTab js !! ent;
  let l := filter (fun r => idx r <> idx j) l in
  m ← match l with [] => updSAcctSkippedFlag m sAcct | _ => Some m end;
  Some (FsQueueJobSet (<[ent := l]> (jobsTab js)) (i32 (nJobs js - 1)), m).

(** [sch_fs_electJob]: the job and the account it is attached to. *)
Definition sch_fs_electJob (js : fsQueueJobSet) (m : accounts) (root : Z)
    : option (option (jobFSRef * Z) * fsQueueJobSet * accounts) :=
  if nJobs js <? 1 then Some (None, js, m) else
  '(j0, s0, e0, m) ← electAJob (path_fuel m) js m root;
  '(j0, e0) ← match j0 with
              | None => rest_of (jobsTab js) (tab_order (dom (jobsTab js))) None e0
              | Some _ => Some (j0, e0)
              end;
  match j0 with
  | None => Some (None, js, m)
  | Some j => e ← e0; '(js, m) ← rmJobFromFSJobSet js m s0 j e; Some (Some (j, s0), js, m)
  end.

End Elect.
