(* ===== verification/FairChoice.v ===== *)
(** * Fairshare: which job is elected

    A reference definition of the election that knows neither marks nor caches
    and looks at all children, and the proof that [electAJob] gives the same
    job.  It rests on the marks being right: an account is marked when there is
    nothing left below it. *)

From Stdlib Require Import SpecFloat Sorting.Sorted.
From S2P Require Import Prelude Lsb Float32 FloatOrd Fairshare FairTree FairLoad FairDecay FairElect.

(** ** The reference *)

(** A higher rank is better, and with equal ranks the earlier job. *)
Definition better (x y : Z * jobFSRef * Z) : bool :=
  let '(rx, jx, _) := x in let '(ry, jy, _) := y in (ry <? rx) || ((ry =? rx) && (idx jx <? idx jy)).
Definition pick (cur o : option (Z * jobFSRef * Z)) : option (Z * jobFSRef * Z) :=
  match o with
  | None => cur
  | Some x => Some (match cur with Some y => if better x y then x else y | None => x end)
  end.

(** The best job below an account and the account it belongs to. *)
Fixpoint best (n : nat) (tab : gmap string (list jobFSRef)) (m : accounts) (p : Z) : option (jobFSRef * Z) :=
  match n with
  | O => None
  | S n =>
      a ← m !! p;
      if has (flags a) FS_IS_DEFAULT then None else
      match children a with
      | [] => l ← tab !! name a; j ← last l; Some (j, p)
      | l => '(_, j, s) ← foldl pick None ((fun c => '(j, s) ← best n tab m c; Some (rk m c, j, s)) <$> rev l); Some (j, s)
      end
  end.

(** ** Marks *)

(** Accounts apart from their marks and caches. *)
Definition erase (a : shareAcct) : shareAcct := set_cache None (set_skipped 0 (set_flags (Z.ldiff (flags a) FS_SKIPABLE) a)).
Definition marks_only (m m' : accounts) : Prop := erase <$> m = erase <$> m'.

Lemma erase_fields a b : erase a = erase b ->
  parent b = parent a /\ children b = children a /\ priority b = priority a /\ name b = name a /\
  has (flags b) FS_IS_DEFAULT = has (flags a) FS_IS_DEFAULT /\ has (flags b) FS_LEAF_GROUP = has (flags a) FS_LEAF_GROUP.
Proof.
  intros H. unfold erase in H. cbn in H. injection H as H1 _ _ Hf Hp Hpol Hpr _ _ _ _.
  assert (Hbit : forall k, Z.land k FS_SKIPABLE = 0 -> has (flags b) k = has (flags a) k).
  { intros k Hk. unfold has. assert (E : forall f, Z.land f k = Z.land (Z.ldiff f FS_SKIPABLE) k); [|by rewrite (E (flags a)), (E (flags b)), Hf].
    intros f. rewrite Z.ldiff_land, <- Z.land_assoc, (Z.land_comm (Z.lnot _)). f_equal.
    apply Z.bits_inj'. intros i Hi. apply (f_equal (fun z => Z.testbit z i)) in Hk. rewrite Z.land_spec, Z.bits_0 in Hk.
    rewrite Z.land_spec, Z.lnot_spec by done. by destruct (Z.testbit k i), (Z.testbit FS_SKIPABLE i). }
  unfold children. rewrite Hpol. by rewrite !Hbit.
Qed.

Lemma marks_lookup m m' q b : marks_only m m' -> m' !! q = Some b -> exists a, m !! q = Some a /\ erase a = erase b.
Proof.
  intros H Hb. apply (f_equal (.!! q)) in H. rewrite !lookup_fmap, Hb in H. destruct (m !! q) as [a|]; [|done].
  exists a. split; [done|]. by apply (inj Some) in H.
Qed.

Lemma marks_sym m m' : marks_only m m' -> marks_only m' m.
Proof. by symmetry. Qed.
Lemma marks_trans m1 m2 m3 : marks_only m1 m2 -> marks_only m2 m3 -> marks_only m1 m3.
Proof. intros H1 H2. unfold marks_only in *. congruence. Qed.

Lemma marks_insert m p a b : m !! p = Some a -> erase a = erase b -> marks_only m (<[p := b]> m).
Proof. intros Ha E. unfold marks_only. rewrite fmap_insert, <- E. symmetry. apply insert_id. by rewrite lookup_fmap, Ha. Qed.

Lemma marks_tree m m' : marks_only m m' -> same_tree m m'.
Proof.
  intros H q. destruct (m' !! q) as [b|] eqn:Hb.
  - destruct (marks_lookup m m' q b H Hb) as (a & -> & E). constructor. destruct (erase_fields a b E) as (H1 & H2 & _). split; [congruence|by rewrite H2].
  - destruct (m !! q) as [a|] eqn:Ha; [|constructor]. destruct (marks_lookup m' m q a (marks_sym _ _ H) Ha) as (b & Hb' & _). congruence.
Qed.

Lemma marks_rk m m' p : marks_only m m' -> rk m' p = rk m p.
Proof.
  intros H. unfold rk. destruct (m' !! p) as [b|] eqn:Hb.
  - destruct (marks_lookup m m' p b H Hb) as (a & -> & E). by destruct (erase_fields a b E) as (_ & _ & -> & _).
  - destruct (m !! p) as [a|] eqn:Ha; [|done]. destruct (marks_lookup m' m p a (marks_sym _ _ H) Ha) as (b & Hb' & _). congruence.
Qed.

Lemma best_marks n tab m m' p : marks_only m m' -> best n tab m' p = best n tab m p.
Proof.
  intros H. revert p. induction n as [|n IH]; intros p; [done|]. cbn [best]. destruct (m' !! p) as [b|] eqn:Hb.
  - destruct (marks_lookup m m' p b H Hb) as (a & -> & E). cbn [mbind option_bind]. destruct (erase_fields a b E) as (_ & -> & _ & -> & -> & _).
    destruct (has (flags a) FS_IS_DEFAULT); [done|]. destruct (children a) as [|c l]; [done|]. f_equal. f_equal.
    apply list_fmap_ext. intros i x _. by rewrite IH, (marks_rk m m').
  - destruct (m !! p) as [a|] eqn:Ha; [|done]. destruct (marks_lookup m' m p a (marks_sym _ _ H) Ha) as (b & Hb' & _). congruence.
Qed.

(** The marks of an account are right: a leaf is marked once, when it has no
    job; an inner account counts its marked children, and is marked when all
    of them are. *)
Definition nflag (m : accounts) (l : list Z) : Z := countb (flagged m) l.
Definition empty_leaf (tab : gmap string (list jobFSRef)) (a : shareAcct) : Prop :=
  has (flags a) FS_IS_DEFAULT = true \/ (tab !! name a ≫= last) = None.
Definition skip_at (tab : gmap string (list jobFSRef)) (m : accounts) (p : Z) : Prop :=
  forall a, m !! p = Some a ->
    match children a with
    | [] => numSkippedChild a = (if flagged m p then 1 else 0) /\ (flagged m p = true -> empty_leaf tab a)
    | l => numSkippedChild a = nflag m l /\ (flagged m p = true <-> nflag m l = Z.of_nat (length l))
    end.

Lemma foldl_pick_none (l : list (option (Z * jobFSRef * Z))) : Forall (fun o => o = None) l -> foldl pick None l = None.
Proof. induction 1 as [|o l -> _ IH]; done. Qed.

Lemma nflag_all m l : nflag m l = Z.of_nat (length l) <-> forall x, x ∈ l -> flagged m x = true.
Proof.
  unfold nflag. induction l as [|c l IH]; [split; [intros _ x []%elem_of_nil|done]|]. rewrite countb_cons. cbn [length].
  pose proof (countb_le_length (flagged m) l). destruct (flagged m c) eqn:E.
  - transitivity (countb (flagged m) l = Z.of_nat (length l)); [lia|]. rewrite IH. split; intros Hx x; [|by intros; apply Hx; right].
    intros [->|?]%elem_of_cons; auto.
  - split; [lia|]. intros Hx. rewrite (Hx c) in E by (by left). done.
Qed.

(** A marked account has nothing to offer. *)
Lemma flagged_best n tab m p : (forall q, skip_at tab m q) -> flagged m p = true -> best n tab m p = None.
Proof.
  intros Hsk. revert p. induction n as [|n IH]; intros p Hf; [done|]. cbn [best]. destruct (m !! p) as [a|] eqn:Ha; [|done].
  cbn [mbind option_bind]. destruct (has (flags a) FS_IS_DEFAULT) eqn:Ed; [done|]. specialize (Hsk p a Ha).
  destruct (children a) as [|c l].
  - destruct Hsk as [_ He]. destruct (He Hf) as [H|H]; [congruence|]. destruct (tab !! name a) as [j|]; [|done]. cbn in H |- *. by rewrite H.
  - destruct Hsk as [_ [Hall _]]. specialize (Hall Hf). rewrite nflag_all in Hall. rewrite foldl_pick_none; [done|].
    apply Forall_fmap, Forall_forall. intros x Hx. cbn. rewrite IH; [done|]. apply Hall. by apply list_elem_of_In, in_rev, list_elem_of_In.
Qed.

Lemma flagged_insert m p b q : flagged (<[p := b]> m) q = if bool_decide (q = p) then has (flags b) FS_SKIPABLE else flagged m q.
Proof. unfold flagged. case_bool_decide as E; [by rewrite E, lookup_insert_eq|by rewrite lookup_insert_ne]. Qed.

Lemma nflag_new m p b L :
  NoDup L -> flagged m p = false -> has (flags b) FS_SKIPABLE = true ->
  nflag (<[p := b]> m) L = nflag m L + if bool_decide (p ∈ L) then 1 else 0.
Proof.
  intros Hnd Hp Hb. unfold nflag, countb. rewrite <- zsum_one by done. f_equal. apply list_fmap_ext. intros i x _.
  rewrite flagged_insert. case_bool_decide as E; [by rewrite E, Hp, Hb|done].
Qed.

Lemma nflag_ext m m' L : (forall q, flagged m' q = flagged m q) -> nflag m' L = nflag m L.
Proof. intros H. apply countb_ext. auto. Qed.

Lemma erase_mark f n a : Z.ldiff f FS_SKIPABLE = Z.ldiff (flags a) FS_SKIPABLE -> erase a = erase (set_flags f (set_skipped n a)).
Proof. intros H. unfold erase. cbn. by rewrite H. Qed.

Lemma mark_flag f : Z.ldiff (Z.lor f FS_SKIPABLE) FS_SKIPABLE = Z.ldiff f FS_SKIPABLE.
Proof. apply Z.bits_inj'. intros i Hi. rewrite !Z.ldiff_spec, Z.lor_spec. by destruct (Z.testbit f i), (Z.testbit FS_SKIPABLE i). Qed.

Lemma no_self m p a : wf m -> m !! p = Some a -> (p ∉ children a) /\ parent a <> p.
Proof.
  intros Hw Ha. assert (Hnull : p <> NULL) by (intros ->; by rewrite (wf_null m Hw) in Ha). assert (Hp : parent a <> p).
  { intros E. destruct (wf_up m Hw p a Ha) as [l Hl]. pose proof (up_path_nodup _ _ _ Hl) as Hnd.
    inversion Hl as [|p' b l' Hn Hb H2 E1 E2]; [congruence|]. assert (Eb : b = a) by congruence. rewrite Eb, E in H2.
    inversion H2 as [|p2 b2 l2 Hn2 Hb2 H3 E3 E4]; [congruence|]. rewrite <- E2, <- E4 in Hnd. apply NoDup_cons in Hnd as [H _]. apply H. by left. }
  split; [|done]. intros Hin. destruct (wf_kid m Hw p a p Ha Hin) as (a' & Ha' & E). congruence.
Qed.

Lemma children_fit m p a : wf m -> m !! p = Some a -> Z.of_nat (length (children a)) <= Z.of_nat (size m).
Proof.
  intros Hw Ha. pose proof (wf_nodup m Hw p a Ha) as Hnd. rewrite <- size_dom, <- (size_list_to_set (C := gset Z) (children a)) by done.
  apply inj_le, subseteq_size. intros q Hq%elem_of_list_to_set. destruct (wf_kid m Hw p a q Ha Hq) as (b & Hb & _). by eapply elem_of_dom_2.
Qed.

(** The account [p] has one marked child more than it knows of. *)
Definition one_more (m : accounts) (p : Z) : Prop :=
  forall a, m !! p = Some a -> children a <> [] /\ flagged m p = false /\ numSkippedChild a + 1 = nflag m (children a).

(** Marking [p] leaves its parent one behind. *)
Lemma mark_spec tab m p a b :
  wf m -> m !! p = Some a -> flagged m p = false -> (forall q, q <> p -> skip_at tab m q) ->
  erase a = erase b -> has (flags b) FS_SKIPABLE = true ->
  (match children a with
   | [] => numSkippedChild b = 1 /\ empty_leaf tab a
   | l => numSkippedChild b = Z.of_nat (length l) /\ nflag m l = Z.of_nat (length l)
   end) ->
  (forall q, q <> parent a -> skip_at tab (<[p := b]> m) q) /\ one_more (<[p := b]> m) (parent a).
Proof.
  intros Hw Ha Hp Hsk Eab Hb Hloc. destruct (erase_fields a b Eab) as (_ & Hk & _ & Hnm & Hdef & _).
  assert (Hel : empty_leaf tab a -> empty_leaf tab b) by (unfold empty_leaf; by rewrite Hnm, Hdef).
  destruct (no_self m p a Hw Ha) as [Hself Hpar]. split.
  - intros q Hq c Hc. rewrite flagged_insert. destruct (decide (q = p)) as [->|Hqp].
    + rewrite lookup_insert_eq in Hc. injection Hc as <-. rewrite bool_decide_eq_true_2, Hb, Hk by done. destruct (children a) as [|x l] eqn:El.
      * destruct Hloc as [-> He]. split; [done|auto].
      * destruct Hloc as [-> Hn]. cbv zeta. rewrite nflag_new by (done || (rewrite <- El; by apply (wf_nodup m Hw p))).
        rewrite bool_decide_eq_false_2, Z.add_0_r by done. by rewrite Hn.
    + rewrite lookup_insert_ne in Hc by done. rewrite bool_decide_eq_false_2 by done. specialize (Hsk q Hqp c Hc).
      assert (Hin : p ∉ children c) by (intros Hin; destruct (wf_kid m Hw q c p Hc Hin) as (a' & Ha' & E); congruence).
      pose proof (wf_nodup m Hw q c Hc) as Hnd. destruct (children c) as [|x l]; [done|]. cbv zeta.
      by rewrite nflag_new, bool_decide_eq_false_2, Z.add_0_r by done.
  - intros h Hh. rewrite lookup_insert_ne in Hh by done. rewrite flagged_insert, bool_decide_eq_false_2 by done.
    destruct (wf_par m Hw p a Ha) as (h' & Hh' & Hin); [intros E; rewrite E, (wf_null m Hw) in Hh; done|]. assert (h' = h) as -> by congruence.
    rewrite nflag_new by (done || by apply (wf_nodup m Hw (parent a))). rewrite bool_decide_eq_true_2 by done.
    specialize (Hsk (parent a) Hpar h Hh). destruct (children h) as [|x l]; [by apply elem_of_nil in Hin|]. destruct Hsk as [-> Hall]. split; [done|].
    split; [|done]. destruct (flagged m (parent a)); [|done]. rewrite nflag_all in Hall. rewrite (proj1 Hall eq_refl p Hin) in Hp. done.
Qed.

Lemma skip_up_spec tab fuel m p l :
  up_path m p l -> wf m -> Z.of_nat (size m) < 2 ^ 31 -> (length l < fuel)%nat ->
  (forall q, q <> p -> skip_at tab m q) -> one_more m p ->
  exists m', skip_up fuel m p = Some m' /\ marks_only m m' /\ (forall q, skip_at tab m' q) /\
    forall q, (jListEntCache <$> m' !! q) = (jListEntCache <$> m !! q).
Proof.
  intros Hl. revert p m fuel Hl. induction l as [|x l IH]; intros p m fuel Hl Hw Hsz Hf Hsk H1; (destruct fuel as [|fuel]; [lia|]).
  { inversion Hl; subst. exists m. split; [done|]. split; [done|]. split; [|done]. intros q. destruct (decide (q = NULL)) as [->|]; [|by apply Hsk].
    intros a Ha. by rewrite (wf_null m Hw) in Ha. }
  inversion Hl as [|? a ? Hn Ha Hup]; subst. destruct (H1 a Ha) as (Hne & Hp & Hcnt). cbn [skip_up]. rewrite (proj2 (Z.eqb_neq _ _) Hn), Ha.
  cbn [mbind option_bind]. pose proof (children_fit m x a Hw Ha). pose proof (countb_nonneg (flagged m) (children a)). pose proof (countb_le_length (flagged m) (children a)).
  unfold nflag in Hcnt. rewrite i32_small by lia. rewrite Hcnt. change (countb (flagged m) (children a)) with (nflag m (children a)) in *.
  set (n := nflag m (children a)) in *. destruct (Z.eqb_spec n (Z.of_nat (length (children a)))) as [En|En].
  - set (b := set_flags (Z.lor (flags a) FS_SKIPABLE) (set_skipped n a)).
    assert (Eab : erase a = erase b) by (apply erase_mark, mark_flag).
    pose proof (marks_insert m x a b Ha Eab) as Hm. pose proof (marks_tree _ _ Hm) as Hs.
    destruct (mark_spec tab m x a b) as [Hsk' H1']; try done; [apply skip_set|by subst n; destruct (children a)|].
    destruct (IH (parent a) (<[x := b]> m) fuel) as (m' & -> & Hm' & Hall & Hc); try done; [by rewrite <- Hs|by rewrite <- Hs|by rewrite (same_tree_size _ _ Hs)|cbn in Hf; lia|].
    exists m'. split; [done|]. split; [by eapply marks_trans|]. split; [done|]. intros q. rewrite Hc.
    destruct (decide (q = x)) as [->|Hq]; [by rewrite lookup_insert_eq, Ha|by rewrite lookup_insert_ne].
  - set (b := set_skipped n a). assert (Eab : erase a = erase b) by done.
    assert (Hfl : forall q, flagged (<[x := b]> m) q = flagged m q).
    { intros q. rewrite flagged_insert. case_bool_decide as E; [rewrite E; unfold flagged; by rewrite Ha|done]. }
    eexists. split; [done|]. split; [by eapply marks_insert|]. split.
    + intros q c Hc. rewrite Hfl. destruct (decide (q = x)) as [->|Hq].
      * rewrite lookup_insert_eq in Hc. injection Hc as <-. change (children b) with (children a). destruct (children a) as [|y k] eqn:El; [done|].
        cbv zeta. rewrite (nflag_ext _ _ _ Hfl). fold n. split; [done|]. rewrite Hp. split; [done|]. intros E. by destruct En.
      * rewrite lookup_insert_ne in Hc by done. specialize (Hsk q Hq c Hc). destruct (children c); [done|]. cbv zeta. by rewrite (nflag_ext _ _ _ Hfl).
    + intros q. destruct (decide (q = x)) as [->|Hq]; [by rewrite lookup_insert_eq, Ha|by rewrite lookup_insert_ne].
Qed.

(** Marking a leaf that has nothing to offer keeps all marks right. *)
Lemma updSkipped_spec tab m p a :
  wf m -> Z.of_nat (size m) < 2 ^ 31 -> m !! p = Some a -> children a = [] -> (forall q, skip_at tab m q) -> empty_leaf tab a ->
  exists m', updSAcctSkippedFlag m p = Some m' /\ marks_only m m' /\ (forall q, skip_at tab m' q) /\
    forall q, (jListEntCache <$> m' !! q) = (jListEntCache <$> m !! q).
Proof.
  intros Hw Hsz Ha Hk Hsk He. unfold updSAcctSkippedFlag. destruct (Z.eqb_spec p NULL) as [->|Hn]; [by rewrite (wf_null m Hw) in Ha|].
  rewrite Ha. cbn [mbind option_bind]. unfold FS_IS_LEAF_NODE. rewrite Hk. pose proof (Hsk p a Ha) as Hp. rewrite Hk in Hp. destruct Hp as [Hp _].
  destruct (flagged m p) eqn:Ef; rewrite Hp; cbn [Z.eqb]; [by exists m|]. set (b := set_flags (Z.lor (flags a) FS_SKIPABLE) (set_skipped 1 a)).
  assert (Eab : erase a = erase b) by (apply erase_mark, mark_flag).
  pose proof (marks_insert m p a b Ha Eab) as Hm. pose proof (marks_tree _ _ Hm) as Hs.
  destruct (mark_spec tab m p a b) as [Hsk' H1']; try done; [apply skip_set|by rewrite Hk|].
  destruct (wf_up m Hw p a Ha) as [l Hl]. inversion Hl as [|? a' l' _ Ha' Hup]; subst; [done|]. assert (a' = a) as -> by congruence.
  destruct (skip_up_spec tab (path_fuel m) (<[p := b]> m) (parent a) l') as (m' & -> & Hm' & Hall & Hc); try done.
  - by rewrite <- Hs.
  - by rewrite <- Hs.
  - by rewrite (same_tree_size _ _ Hs).
  - pose proof (up_path_fuel _ _ _ Hl) as H. cbn in H. lia.
  - exists m'. split; [done|]. split; [by eapply marks_trans|]. split; [done|]. intros q. rewrite Hc.
    destruct (decide (q = p)) as [->|Hq]; [by rewrite lookup_insert_eq, Ha|by rewrite lookup_insert_ne].
Qed.

(** ** The election *)

(** What the election relies on: the tree, the order of siblings, the marks
    and the caches are right, and every leaf is a user. *)
Definition cache_at (tab : gmap string (list jobFSRef)) (m : accounts) (p : Z) : Prop :=
  forall a, m !! p = Some a -> children a = [] ->
    jListEntCache a = None \/ jListEntCache a = Some (name a) /\ is_Some (tab !! name a).
Definition users_only (m : accounts) : Prop := forall p a, m !! p = Some a -> has (flags a) FS_LEAF_GROUP = false.

Record elect_ok (tab : gmap string (list jobFSRef)) (m : accounts) : Prop := {
  eo_wf : wf m; eo_numbers : numbers m; eo_order : in_order m; eo_size : Z.of_nat (size m) < 2 ^ 31;
  eo_skip : forall q, skip_at tab m q; eo_cache : forall q, cache_at tab m q; eo_users : users_only m }.

Lemma marks_children m m' p a : marks_only m m' -> m !! p = Some a -> exists b, m' !! p = Some b /\ erase a = erase b.
Proof. intros H Ha. destruct (marks_lookup m' m p a (marks_sym _ _ H) Ha) as (b & Hb & E). by exists b. Qed.

(** The part that only marks and caches cannot disturb. *)
Record accts_ok (m : accounts) : Prop := {
  to_wf : wf m; to_numbers : numbers m; to_order : in_order m; to_size : Z.of_nat (size m) < 2 ^ 31; to_users : users_only m }.

Lemma elect_tree tab m : elect_ok tab m -> accts_ok m.
Proof. by intros []. Qed.

Lemma marks_ok tab m m' :
  marks_only m m' -> accts_ok m -> (forall q, skip_at tab m' q) -> (forall q, cache_at tab m' q) -> elect_ok tab m'.
Proof.
  intros Hm [Hw Hn Ho Hs Hu] Hsk Hc. pose proof (marks_tree _ _ Hm) as Ht. split; try done.
  - by rewrite <- Ht.
  - intros p b Hb. destruct (marks_lookup m m' p b Hm Hb) as (a & Ha & E). destruct (erase_fields a b E) as (_ & _ & -> & _). exact (Hn p a Ha).
  - intros p b Hb. destruct (marks_lookup m m' p b Hm Hb) as (a & Ha & E). destruct (erase_fields a b E) as (_ & -> & _).
    apply (ascending_ext m); [|exact (Ho p a Ha)]. intros x _. by rewrite (marks_rk m m').
  - by rewrite (same_tree_size _ _ Ht).
  - intros p b Hb. destruct (marks_lookup m m' p b Hm Hb) as (a & Ha & E). destruct (erase_fields a b E) as (_ & _ & _ & _ & _ & ->). exact (Hu p a Ha).
Qed.

Lemma cache_keep tab m m' :
  marks_only m m' -> (forall q, (jListEntCache <$> m' !! q) = (jListEntCache <$> m !! q)) ->
  (forall q, cache_at tab m q) -> forall q, cache_at tab m' q.
Proof.
  intros Hm He Hc q b Hb Hk. destruct (marks_lookup m m' q b Hm Hb) as (a & Ha & E). destruct (erase_fields a b E) as (_ & Ek & _ & En & _).
  specialize (He q). rewrite Hb, Ha in He. cbn in He. injection He as ->. rewrite En. apply (Hc q a Ha). congruence.
Qed.

(** Marking an empty leaf keeps everything the election relies on. *)
Lemma updSkipped_ok tab m p a :
  elect_ok tab m -> m !! p = Some a -> children a = [] -> empty_leaf tab a ->
  exists m', updSAcctSkippedFlag m p = Some m' /\ marks_only m m' /\ elect_ok tab m'.
Proof.
  intros Hok Ha Hk He. destruct (updSkipped_spec tab m p a (eo_wf _ _ Hok) (eo_size _ _ Hok) Ha Hk (eo_skip _ _ Hok) He) as (m' & Hr & Hm & Hsk & Hc).
  exists m'. split; [done|]. split; [done|]. apply (marks_ok tab m m' Hm (elect_tree _ _ Hok) Hsk). exact (cache_keep tab m m' Hm Hc (eo_cache _ _ Hok)).
Qed.

(** The entry of a job below [s] is that of the user [s]. *)
Definition entry_of (m : accounts) (s : Z) (e : option string) : Prop :=
  exists a, m !! s = Some a /\ children a = [] /\ e = Some (name a).
Definition elected (tab : gmap string (list jobFSRef)) (m : accounts) (o : option (jobFSRef * Z)) (r : option choice) : Prop :=
  exists j s e m', r = Some (j, s, e, m') /\ marks_only m m' /\ elect_ok tab m' /\ j = fst <$> o /\
    match o with Some (_, s0) => s = s0 /\ entry_of m s e | None => s = NULL \/ exists a, m !! s = Some a /\ children a = [] /\ empty_leaf tab a end.

Lemma entry_marks m m' s e : marks_only m m' -> entry_of m s e -> entry_of m' s e.
Proof.
  intros Hm (a & Ha & Hk & ->). destruct (marks_children m m' s a Hm Ha) as (b & Hb & E). destruct (erase_fields a b E) as (_ & Ek & _ & En & _).
  exists b. rewrite En, Ek. done.
Qed.

Lemma foldl_pick_keep (l : list (option (Z * jobFSRef * Z))) r j s :
  Forall (fun o => match o with Some (r', _, _) => r' < r | None => True end) l -> foldl pick (Some (r, j, s)) l = Some (r, j, s).
Proof.
  induction 1 as [|[[[r' j'] s']|] l Hr _ IH]; [done| |done]. cbn. rewrite (proj2 (Z.ltb_ge _ _)), (proj2 (Z.eqb_neq _ _)) by lia. done.
Qed.

Lemma elected_marks tab m m1 o r : marks_only m m1 -> elected tab m1 o r -> elected tab m o r.
Proof.
  intros Hm (j & s & e & m' & -> & Hm' & Hok & Hj & Ho). exists j, s, e, m'. split; [done|]. split; [by eapply marks_trans|]. split; [done|]. split; [done|].
  destruct o as [[j0 s0]|].
  - destruct Ho as [-> He]. split; [done|]. by apply (entry_marks m1 m _ _ (marks_sym _ _ Hm)).
  - destruct Ho as [->|(b & Hb & Hk & He)]; [by left|right]. destruct (marks_lookup m m1 s b Hm Hb) as (a & Ha & E).
    destruct (erase_fields a b E) as (_ & Ek & _ & En & Ed & _). exists a. unfold empty_leaf in *. rewrite <- Ek, <- En, <- Ed. done.
Qed.

(** The loop over the children, from the highest priority down. *)
Definition best_ref (m : accounts) (cur : option (jobFSRef * Z * option string * Z)) : option (Z * jobFSRef * Z) :=
  '(j, s, _, c) ← cur; Some (rk m c, j, s).
Definition cur_ok (m : accounts) (l : list Z) (cur : option (jobFSRef * Z * option string * Z)) : Prop :=
  match cur with Some (_, s, e, c0) => is_Some (m !! c0) /\ (forall c, c ∈ l -> rk m c <= rk m c0) /\ entry_of m s e | None => True end.

Section Loop.
Context (tab : gmap string (list jobFSRef)) (m : accounts) (rec : accounts -> Z -> option choice) (f : Z -> option (jobFSRef * Z)).

Let g (c : Z) : option (Z * jobFSRef * Z) := '(j, s) ← f c; Some (rk m c, j, s).
Let out (o : option (Z * jobFSRef * Z)) : option (jobFSRef * Z) := '(_, j, s) ← o; Some (j, s).

(** Looking at one child more. *)
Lemma elect_step c l cur m1 :
  (forall cur m1, marks_only m m1 -> elect_ok tab m1 -> cur_ok m l cur ->
     elected tab m1 (out (foldl pick (best_ref m cur) (g <$> l))) (elect_among rec m1 l cur)) ->
  elected tab m1 (f c) (rec m1 c) -> marks_only m m1 -> is_Some (m !! c) -> (forall x, x ∈ l -> rk m x <= rk m c) -> cur_ok m l cur ->
  match cur with Some (_, _, _, c0) => rk m c = rk m c0 | None => True end ->
  elected tab m1 (out (foldl pick (best_ref m cur) (g <$> c :: l)))
    ('(j, s, e, m2) ← rec m1 c;
     elect_among rec m2 l (match j, cur with
                           | Some j, Some (j0, s0, e0, c0) => Some (if idx j <? idx j0 then (j, s, e, c) else (j0, s0, e0, c0))
                           | Some j, None => Some (j, s, e, c)
                           | None, _ => cur
                           end)).
Proof.
  intros IH (j & s & e & m2 & -> & Hm2 & Hok2 & -> & Hj) Hm1 Hc Hle Hcur Hrk. cbn [mbind option_bind].
  assert (Hm : marks_only m m2) by by eapply marks_trans. apply (elected_marks tab m1 m2); [done|].
  cbn [fmap list_fmap foldl]. destruct (f c) as [[j1 s1]|] eqn:Ef; cbn [fmap option_fmap option_map fst].
  - destruct Hj as [-> He]. apply (entry_marks m1 m _ _ (marks_sym _ _ Hm1)) in He.
    assert (Hnew : cur_ok m l (Some (j1, s1, e, c))) by done.
    replace (g c) with (Some (rk m c, j1, s1)) by (unfold g; by rewrite Ef).
    destruct cur as [[[[j0 s0] e0] c0]|]; [|exact (IH _ m2 Hm Hok2 Hnew)].
    cbn [best_ref mbind option_bind pick better]. rewrite Hrk, Z.ltb_irrefl, Z.eqb_refl. cbn [orb andb].
    destruct (idx j1 <? idx j0); [rewrite <- Hrk; exact (IH _ m2 Hm Hok2 Hnew)|exact (IH _ m2 Hm Hok2 Hcur)].
  - replace (g c) with (@None (Z * jobFSRef * Z)) by (unfold g; by rewrite Ef). exact (IH cur m2 Hm Hok2 Hcur).
Qed.

Lemma elect_among_spec l :
  (forall m1 c, marks_only m m1 -> elect_ok tab m1 -> c ∈ l -> elected tab m1 (f c) (rec m1 c)) ->
  numbers m -> (forall c, c ∈ l -> is_Some (m !! c)) -> StronglySorted (fun x y => rk m y <= rk m x) l ->
  forall cur m1, marks_only m m1 -> elect_ok tab m1 -> cur_ok m l cur ->
    elected tab m1 (out (foldl pick (best_ref m cur) (g <$> l))) (elect_among rec m1 l cur).
Proof.
  induction l as [|c l IH]; intros Hrec Hnum Hin Hs cur m1 Hm1 Hok Hcur.
  { cbn. destruct cur as [[[[j s] e] c0]|]; cbn; eexists _, _, _, m1; (split; [done|]); (split; [done|]); (split; [done|]); (split; [done|]); [|by left].
    split; [done|]. apply (entry_marks m m1 _ _ Hm1), Hcur. }
  apply StronglySorted_inv in Hs as [Hs Hle]. rewrite Forall_forall in Hle.
  assert (Hcur' : cur_ok m l cur) by (destruct cur as [[[[j s] e] c0]|]; [destruct Hcur as (? & H & ?); split_and!; auto; intros; apply H; by right|done]).
  specialize (IH (fun m1 c H1 H2 Hc => Hrec m1 c H1 H2 (list_elem_of_further _ _ _ Hc)) Hnum (fun c Hc => Hin c (list_elem_of_further _ _ _ Hc)) Hs).
  assert (Hc : is_Some (m !! c)) by (apply Hin; by left).
  assert (Hstep := elect_step c l cur m1 IH (Hrec m1 c Hm1 Hok (list_elem_of_here _ _)) Hm1 Hc Hle Hcur').
  destruct cur as [[[[j0 s0] e0] c0]|]; cbn [elect_among].
  - destruct Hcur as (Hc0 & Hall & He). assert (Hn1 : numbers m1) by apply (eo_numbers _ _ Hok).
    assert (Hdom : forall x, is_Some (m !! x) -> is_Some (m1 !! x)).
    { intros x [a Ha]. destruct (marks_children m m1 x a Hm1 Ha) as (b & -> & _). by eexists. }
    destruct (prio_of_rk m1 c Hn1 (Hdom c Hc)) as (pc & -> & Hoc & Rc). destruct (prio_of_rk m1 c0 Hn1 (Hdom c0 Hc0)) as (p0 & -> & Ho0 & R0).
    rewrite (marks_rk m m1) in Rc, R0 by done. cbn [mbind option_bind]. rewrite SFeqb_rank, Rc, R0 by done.
    destruct (Z.eqb_spec (rk m c) (rk m c0)) as [E|E].
    + specialize (Hstep E). destruct (rec m1 c) as [[[[[j|] s] e] m2]|]; exact Hstep.
    + cbn [best_ref mbind option_bind]. rewrite foldl_pick_keep; [eexists _, _, _, m1; split; [done|]; split; [done|]; split; [done|]; split; [done|]|].
      * split; [done|]. by apply (entry_marks m m1 _ _ Hm1).
      * assert (Hlt : rk m c < rk m c0) by (specialize (Hall c (list_elem_of_here _ _)); lia).
        apply Forall_fmap, Forall_forall. intros x Hx. cbn. unfold g. destruct (f x) as [[jx sx]|]; [|done]. cbn.
        apply elem_of_cons in Hx as [->|Hx]; [done|]. specialize (Hle x Hx). cbn in Hle. lia.
  - specialize (Hstep I). destruct (rec m1 c) as [[[[[j|] s] e] m2]|]; exact Hstep.
Qed.

End Loop.

Section Elect.
Context `{TabOrder}.

(** The job of a user: the last one of the list, through the cache or not. *)
Lemma getJob_user js m p a :
  elect_ok (jobsTab js) m -> m !! p = Some a -> children a = [] ->
  exists e b, getJobFromFSJobSet js a = Some (jobsTab js !! name a ≫= last, e, b) /\ erase a = erase b /\
    elect_ok (jobsTab js) (<[p := b]> m) /\ (is_Some (jobsTab js !! name a) -> e = Some (name a)).
Proof.
  intros Hok Ha Hk. unfold getJobFromFSJobSet. rewrite (eo_users _ _ Hok p a Ha).
  destruct (eo_cache _ _ Hok p a Ha Hk) as [Hn|[Hc [l Hl]]].
  - rewrite Hn. destruct (jobsTab js !! name a) as [l|] eqn:El.
    + exists (Some (name a)), (set_cache (Some (name a)) a). split; [done|]. split; [done|]. split; [|done].
      set (b := set_cache (Some (name a)) a). pose proof (marks_insert m p a b Ha eq_refl) as Hm.
      assert (Hfl : forall q, flagged (<[p := b]> m) q = flagged m q).
      { intros q. rewrite flagged_insert. case_bool_decide as E; [rewrite E; unfold flagged; by rewrite Ha|done]. }
      apply (marks_ok _ m); [done|by eapply elect_tree| |].
      * intros q c Hc. rewrite Hfl. assert (Hq : exists c0, m !! q = Some c0 /\ children c = children c0 /\ numSkippedChild c = numSkippedChild c0 /\ (empty_leaf (jobsTab js) c0 -> empty_leaf (jobsTab js) c)).
        { destruct (decide (q = p)) as [->|]; [|rewrite lookup_insert_ne in Hc by done; by exists c]. rewrite lookup_insert_eq in Hc. injection Hc as <-. by exists a. }
        destruct Hq as (c0 & Hc0 & -> & -> & Hel). pose proof (eo_skip _ _ Hok q c0 Hc0) as Hsk. destruct (children c0); [destruct Hsk; auto|].
        cbv zeta. by rewrite (nflag_ext _ _ _ Hfl).
      * intros q c Hc Hkc. destruct (decide (q = p)) as [->|]; [|rewrite lookup_insert_ne in Hc by done; exact (eo_cache _ _ Hok q c Hc Hkc)].
        rewrite lookup_insert_eq in Hc. injection Hc as <-. right. split; [done|]. by exists l.
    + exists None, a. rewrite insert_id by done. split; [done|]. split; [done|]. split; [done|]. by intros [].
  - rewrite Hc, Hl. exists (Some (name a)), a. rewrite insert_id by done. done.
Qed.

Lemma descending_rev m l : ascending m l -> StronglySorted (fun x y => rk m y <= rk m x) (rev l).
Proof.
  induction l as [|x l IH]; intros Hs; [constructor|]. apply ascending_cons in Hs as [Hs Hx]. cbn [rev]. specialize (IH Hs).
  assert (Hall : forall y, y ∈ rev l -> rk m x <= rk m y) by (intros y Hy; apply Hx; by apply list_elem_of_In, in_rev, list_elem_of_In).
  clear Hs Hx. induction IH as [|y k Hk IH Hy]; cbn; constructor; [constructor|constructor| |].
  - apply IH. intros z Hz. apply Hall. by right.
  - apply Forall_app. split; [done|]. constructor; [|done]. apply Hall. by left.
Qed.

Lemma elect_spec fuel js m p a lp :
  elect_ok (jobsTab js) m -> m !! p = Some a -> up_path m p lp -> (size m < fuel + length lp)%nat ->
  elected (jobsTab js) m (best fuel (jobsTab js) m p) (electAJob fuel js m p).
Proof.
  revert m p a lp. induction fuel as [|fuel IH]; intros m p a lp Hok Ha Hlp Hf.
  { pose proof (up_path_fuel m p lp Hlp). unfold path_fuel in *. lia. }
  pose proof (eo_skip _ _ Hok) as Hsk. pose proof (eo_wf _ _ Hok) as Hw.
  destruct (has (flags a) FS_SKIPABLE) eqn:Esk.
  { rewrite flagged_best by (done || (unfold flagged; by rewrite Ha)). cbn [electAJob]. rewrite Ha. cbn [mbind option_bind]. rewrite Esk.
    exists None, NULL, None, m. split_and!; auto. done. }
  cbn [electAJob best]. rewrite Ha. cbn [mbind option_bind]. rewrite Esk. destruct (has (flags a) FS_IS_DEFAULT) eqn:Ed.
  { unfold updSAcctSkippedFlag. destruct (Z.eqb_spec p NULL) as [->|Hn]; [by rewrite (wf_null m Hw) in Ha|].
    destruct (children a) as [|c0 l0] eqn:Ek; [|exists None, NULL, None, m; rewrite Ha; cbn [mbind option_bind]; unfold FS_IS_LEAF_NODE; rewrite Ek; split_and!; auto; done].
    destruct (updSkipped_ok _ m p a Hok Ha Ek (or_introl Ed)) as (m' & Hr & Hm & Hok'). unfold updSAcctSkippedFlag in Hr.
    rewrite (proj2 (Z.eqb_neq _ _) Hn) in Hr. rewrite Hr. exists None, NULL, None, m'. split_and!; auto. }
  unfold FS_IS_LEAF_NODE. destruct (children a) as [|c0 l0] eqn:Ek.
  - destruct (getJob_user js m p a Hok Ha Ek) as (e & b & -> & Eab & Hokb & He). cbn [mbind option_bind].
    pose proof (marks_insert m p a b Ha Eab) as Hmb. destruct (erase_fields a b Eab) as (_ & Ekb & _ & Enb & _).
    destruct (jobsTab js !! name a ≫= last) as [j|] eqn:Ej.
    + destruct (jobsTab js !! name a) as [l|] eqn:El; [|done]. cbn in Ej |- *. rewrite Ej. cbn.
      exists (Some j), p, e, (<[p := b]> m). split_and!; auto. exists a. split_and!; auto.
    + destruct (updSkipped_ok _ (<[p := b]> m) p b Hokb) as (m' & -> & Hm & Hok'); [apply lookup_insert_eq|congruence|right; by rewrite Enb|].
      replace (l ← jobsTab js !! name a; j ← last l; Some (j, p)) with (@None (jobFSRef * Z)) by (destruct (jobsTab js !! name a) as [l|]; [cbn in Ej |- *; by rewrite Ej|done]).
      exists None, p, e, m'. split_and!; auto; [by eapply marks_trans|]. right. exists a. split_and!; auto. by right.
  - rewrite <- Ek. refine (elect_among_spec (jobsTab js) m (electAJob fuel js) (best fuel (jobsTab js) m) (rev (children a)) _ (eo_numbers _ _ Hok) _ _ None m eq_refl Hok I).
    + intros m1 c Hm1 Hok1 Hc. assert (Hin : c ∈ children a) by (by apply list_elem_of_In, in_rev, list_elem_of_In).
      destruct (wf_kid m Hw p a c Ha Hin) as (b & Hb & _). destruct (marks_children m m1 c b Hm1 Hb) as (b' & Hb' & _).
      rewrite <- (best_marks fuel _ m m1 c Hm1). pose proof (marks_tree _ _ Hm1) as Hs.
      apply (IH m1 c b' (c :: lp)); [done|done| |rewrite (same_tree_size _ _ Hs); cbn; lia]. rewrite <- Hs. exact (child_path m p a c lp Hw Ha Hin Hlp).
    + intros c Hc. assert (Hin : c ∈ children a) by (by apply list_elem_of_In, in_rev, list_elem_of_In).
      destruct (wf_kid m Hw p a c Ha Hin) as (b & Hb & _). by eexists.
    + apply descending_rev, (eo_order _ _ Hok p a Ha).
Qed.

End Elect.
