(* ===== verification/FairRound.v ===== *)
(** * Fairshare: a scheduling round

    The round resets the marks ([sch_fs_init]), puts the pending jobs into the
    job set ([addToFSJobSet]) and elects until there is no job left
    ([sch_fs_electJob]).  Every election gives the best job of the tree, or the
    earliest job of a user outside of it, and takes just that job away; the
    round comes to every job exactly once. *)

From Stdlib Require Import SpecFloat.
From S2P Require Import Prelude Lsb Float32 FloatOrd Fairshare FairTree FairLoad FairDecay FairElect FairChoice.

(** ** The jobs of a set *)

Definition all_jobs (tab : gmap string (list jobFSRef)) : list jobFSRef := concat (snd <$> map_to_list tab).

Record js_ok (js : fsQueueJobSet) : Prop := {
  js_nodup : NoDup (idx <$> all_jobs (jobsTab js));
  js_count : nJobs js = Z.of_nat (length (all_jobs (jobsTab js)));
  js_fits : nJobs js < 2 ^ 31 }.

Lemma concat_perm {A} (l l' : list (list A)) : l ≡ₚ l' -> concat l ≡ₚ concat l'.
Proof. induction 1; cbn; [done|by f_equiv|by rewrite !app_assoc, (Permutation_app_comm x)|by etrans]. Qed.

Lemma all_jobs_new tab k l : tab !! k = None -> all_jobs (<[k := l]> tab) ≡ₚ l ++ all_jobs tab.
Proof. intros Hk. unfold all_jobs. change (l ++ _) with (concat (snd <$> (k, l) :: map_to_list tab)). apply concat_perm, Permutation_map, map_to_list_insert, Hk. Qed.

Lemma all_jobs_split tab k l : tab !! k = Some l -> all_jobs tab ≡ₚ l ++ all_jobs (delete k tab).
Proof. intros Hk. rewrite <- (insert_delete_id tab k l Hk) at 1. apply all_jobs_new, lookup_delete_eq. Qed.

Lemma all_jobs_insert tab k l : all_jobs (<[k := l]> tab) ≡ₚ l ++ all_jobs (delete k tab).
Proof. rewrite <- insert_delete_eq. apply all_jobs_new, lookup_delete_eq. Qed.

Lemma last_in {A} (l : list A) x : last l = Some x -> x ∈ l.
Proof. intros H. rewrite last_lookup in H. by eapply list_elem_of_lookup_2. Qed.

Lemma all_jobs_none tab : (forall k l, tab !! k = Some l -> last l = None) -> all_jobs tab = [].
Proof.
  intros Hk. unfold all_jobs. assert (Forall (fun p => p.2 = []) (map_to_list tab)) as Hl.
  { apply Forall_forall. intros [k l] Hin%elem_of_map_to_list. apply last_None, (Hk k l Hin). }
  induction Hl as [|[k l] t Hp _ IH]; [done|]. cbn in *. by rewrite Hp.
Qed.

Lemma take_out {A} (f : A -> Z) (x : A) l : NoDup (f <$> l) -> x ∈ l -> l ≡ₚ x :: filter (fun y => f y <> f x) l.
Proof.
  induction l as [|y l IH]; intros Hnd Hx; [by apply elem_of_nil in Hx|]. cbn [fmap list_fmap] in Hnd. apply NoDup_cons in Hnd as [Hy Hnd].
  rewrite filter_cons. apply elem_of_cons in Hx as [->|Hx].
  - rewrite decide_False by tauto. f_equiv. rewrite (filter_all _ l); [done|].
    apply Forall_forall. intros z Hz E. apply Hy. rewrite <- E. by apply list_elem_of_fmap_2.
  - rewrite decide_True by (intros E; apply Hy; rewrite E; by apply list_elem_of_fmap_2). rewrite (IH Hnd Hx) at 1. apply Permutation_swap.
Qed.

(** Taking the job [j] of the user [k] out. *)
Definition without (j : jobFSRef) (l : list jobFSRef) : list jobFSRef := filter (fun r => idx r <> idx j) l.

Lemma all_jobs_remove tab k l j :
  NoDup (idx <$> all_jobs tab) -> tab !! k = Some l -> last l = Some j ->
  all_jobs tab ≡ₚ j :: all_jobs (<[k := without j l]> tab).
Proof.
  intros Hnd Hl Hj. rewrite all_jobs_insert, (all_jobs_split tab k l Hl) in *. rewrite fmap_app in Hnd. apply NoDup_app in Hnd as [Hnd _].
  change (?x :: ?a ++ ?b) with ((x :: a) ++ b). f_equiv. by apply take_out, last_in.
Qed.

(** ** A set with fewer jobs *)

Definition fewer (tab tab' : gmap string (list jobFSRef)) : Prop :=
  forall k, (is_Some (tab !! k) -> is_Some (tab' !! k)) /\ ((tab !! k ≫= last) = None -> (tab' !! k ≫= last) = None).

Lemma fewer_remove tab k l j : tab !! k = Some l -> fewer tab (<[k := without j l]> tab).
Proof.
  intros Hl q. destruct (decide (q = k)) as [->|Hq]; [|by rewrite lookup_insert_ne]. rewrite lookup_insert_eq, Hl. cbn. split; [by eexists|].
  intros ->%last_None. done.
Qed.

Lemma fewer_empty tab tab' a : fewer tab tab' -> empty_leaf tab a -> empty_leaf tab' a.
Proof. intros Hf [H|H]; [by left|right; by apply Hf]. Qed.

Lemma fewer_ok tab tab' m : fewer tab tab' -> elect_ok tab m -> elect_ok tab' m.
Proof.
  intros Hf [Hw Hn Ho Hs Hsk Hc Hu]. split; try done.
  - intros q a Ha. specialize (Hsk q a Ha). destruct (children a); [|done]. destruct Hsk as [E He]. split; [done|]. intros H%He. by eapply fewer_empty.
  - intros q a Ha Hk. destruct (Hc q a Ha Hk) as [H|[H1 H2]]; [by left|right]. split; [done|]. by apply Hf.
Qed.

(** ** The reference election finds a job of the tree *)

Lemma foldl_pick_in l cur x : foldl pick cur l = Some x -> cur = Some x \/ Some x ∈ l.
Proof.
  revert cur. induction l as [|o l IH]; intros cur Hx; [by left|]. cbn in Hx. destruct (IH _ Hx) as [E|E]; [|right; by right].
  destruct o as [y|]; cbn in E; [|by left]. destruct cur as [z|]; [destruct (better y z)|]; [rewrite E; right; by left|by left|rewrite E; right; by left].
Qed.

Lemma best_leaf n tab m p j s : best n tab m p = Some (j, s) ->
  exists a l, m !! s = Some a /\ children a = [] /\ has (flags a) FS_IS_DEFAULT = false /\ tab !! name a = Some l /\ last l = Some j.
Proof.
  revert p. induction n as [|n IH]; intros p Hb; [done|]. cbn [best] in Hb. destruct (m !! p) as [a|] eqn:Ha; [|done]. cbn [mbind option_bind] in Hb.
  destruct (has (flags a) FS_IS_DEFAULT) eqn:Ed; [done|]. destruct (children a) as [|c l] eqn:Ek.
  - destruct (tab !! name a) as [l|] eqn:El; [|done]. cbn in Hb. destruct (last l) as [j'|] eqn:Ej; [|done]. cbn in Hb. injection Hb as -> ->. by exists a, l.
  - destruct (foldl pick None _) as [[[r j'] s']|] eqn:Ef; [|done]. cbn in Hb. injection Hb as -> ->.
    apply foldl_pick_in in Ef as [|Hin]; [done|]. apply list_elem_of_fmap in Hin as (x & Hx & _).
    destruct (best n tab m x) as [[j1 s1]|] eqn:Eb; [|done]. cbn in Hx. injection Hx as _ -> ->. exact (IH x Eb).
Qed.

(** ** Users without an account *)

(** The earliest of the first jobs of some users. *)
Definition earliest (tab : gmap string (list jobFSRef)) (keys : list string) (o : option (string * jobFSRef)) : Prop :=
  match o with
  | None => forall k, k ∈ keys -> (tab !! k ≫= last) = None
  | Some (e, j) => (tab !! e ≫= last) = Some j /\ forall k j', k ∈ keys -> (tab !! k ≫= last) = Some j' -> idx j <= idx j'
  end.

Lemma rest_of_some tab keys e j :
  (forall k, k ∈ keys -> is_Some (tab !! k)) -> (tab !! e ≫= last) = Some j ->
  exists e' j', rest_of tab keys (Some j) (Some e) = Some (Some j', Some e') /\ earliest tab keys (Some (e', j')) /\ idx j' <= idx j.
Proof.
  revert e j. induction keys as [|k keys IH]; intros e j Hk He.
  { exists e, j. split; [done|]. split; [|done]. split; [done|]. intros k j' []%elem_of_nil. }
  destruct (Hk k (list_elem_of_here _ _)) as [l Hl]. cbn [rest_of]. rewrite Hl. cbn [mbind option_bind].
  assert (Hk' : forall q, q ∈ keys -> is_Some (tab !! q)) by (intros q Hq; apply Hk; by right).
  assert (Hold : forall e0 j0 jk, last l = jk -> (tab !! e0 ≫= last) = Some j0 -> (forall j1, jk = Some j1 -> idx j0 <= idx j1) ->
    idx j0 <= idx j ->
    exists e' j', rest_of tab keys (Some j0) (Some e0) = Some (Some j', Some e') /\ earliest tab (k :: keys) (Some (e', j')) /\ idx j' <= idx j).
  { intros e0 j0 jk Ejk He0 Hle Hj. destruct (IH e0 j0 Hk' He0) as (e' & j' & Hr & [H1 H2] & H3). exists e', j'. split; [done|]. split; [|lia]. split; [done|].
    intros q j1 [->|Hq]%elem_of_cons Hj1; [|by apply (H2 q)]. rewrite Hl in Hj1. cbn in Hj1. specialize (Hle j1). rewrite Ejk in Hj1. specialize (Hle Hj1). lia. }
  destruct (last l) as [jk|] eqn:El; [|exact (Hold e j None eq_refl He ltac:(done) ltac:(lia))].
  destruct (Z.ltb_spec (idx jk) (idx j)) as [Hlt|Hge].
  - apply (Hold k jk (Some jk)); [done|by rewrite Hl|intros j1 [= ->]; lia|lia].
  - apply (Hold e j (Some jk)); [done|done|intros j1 [= ->]; lia|lia].
Qed.

Lemma rest_of_spec tab keys e0 :
  (forall k, k ∈ keys -> is_Some (tab !! k)) ->
  exists o e, rest_of tab keys None e0 = Some (snd <$> o, e) /\ earliest tab keys o /\ (is_Some o -> e = fst <$> o).
Proof.
  revert e0. induction keys as [|k keys IH]; intros e0 Hk.
  { exists None, e0. split; [done|]. split; [intros k []%elem_of_nil|by intros []]. }
  destruct (Hk k (list_elem_of_here _ _)) as [l Hl]. cbn [rest_of]. rewrite Hl. cbn [mbind option_bind].
  assert (Hk' : forall q, q ∈ keys -> is_Some (tab !! q)) by (intros q Hq; apply Hk; by right).
  destruct (last l) as [jk|] eqn:El.
  - destruct (rest_of_some tab keys k jk Hk') as (e' & j' & -> & [H1 H2] & H3); [by rewrite Hl|].
    exists (Some (e', j')), (Some e'). split; [done|]. split; [|done]. split; [done|].
    intros q j1 [->|Hq]%elem_of_cons Hj1; [|by apply (H2 q)]. rewrite Hl in Hj1. cbn in Hj1. assert (j1 = jk) by congruence. subst. lia.
  - destruct (IH (Some k) Hk') as (o & e & -> & Ho & He). exists o, e. split; [done|]. split; [|done]. destruct o as [[e' j']|].
    + destruct Ho as [H1 H2]. split; [done|]. intros q j1 [->|Hq]%elem_of_cons Hj1; [|by apply (H2 q)]. rewrite Hl in Hj1. cbn in Hj1. congruence.
    + intros q [->|Hq]%elem_of_cons; [by rewrite Hl|by apply Ho].
Qed.

(** ** Taking a job away *)

Lemma rmJob_spec js m s k l j :
  js_ok js -> elect_ok (jobsTab js) m -> jobsTab js !! k = Some l -> last l = Some j ->
  (s = NULL \/ exists a, m !! s = Some a /\ children a = [] /\ (empty_leaf (jobsTab js) a \/ name a = k)) ->
  exists js' m', rmJobFromFSJobSet js m s j k = Some (js', m') /\ marks_only m m' /\ elect_ok (jobsTab js') m' /\ js_ok js' /\
    all_jobs (jobsTab js) ≡ₚ j :: all_jobs (jobsTab js') /\ jobsTab js' = <[k := without j l]> (jobsTab js).
Proof.
  intros [Hnd Hcnt Hfit] Hok Hl Hj Hs. unfold rmJobFromFSJobSet. rewrite Hl. cbn [mbind option_bind]. fold (without j l).
  pose proof (all_jobs_remove _ k l j Hnd Hl Hj) as Hp. pose proof (fewer_remove _ k l j Hl) as Hf. set (tab' := <[k := without j l]> (jobsTab js)) in *.
  assert (Hm : exists m', match without j l with [] => updSAcctSkippedFlag m s | _ :: _ => Some m end = Some m' /\ marks_only m m' /\ elect_ok tab' m').
  { pose proof (fewer_ok _ _ m Hf Hok) as Hok'. destruct (without j l) as [|r t] eqn:Ew; [|by exists m].
    destruct Hs as [->|(a & Ha & Hk & He)]; [by exists m|]. apply (updSkipped_ok tab' m s a Hok' Ha Hk). destruct He as [He|He].
    - by apply (fewer_empty _ _ a Hf).
    - right. unfold tab'. by rewrite He, lookup_insert_eq. }
  destruct Hm as (m' & -> & Hm & Hok'). cbn [mbind option_bind]. exists (FsQueueJobSet tab' (i32 (nJobs js - 1))), m'.
  assert (Hlen : Z.of_nat (length (all_jobs (jobsTab js))) = 1 + Z.of_nat (length (all_jobs tab'))) by (rewrite Hp; cbn; lia).
  split_and!; auto. split; cbn.
  - rewrite Hp in Hnd. cbn in Hnd. by apply NoDup_cons in Hnd as [_ Hnd].
  - rewrite i32_small; lia.
  - rewrite i32_small; lia.
Qed.

Section Round.
Context `{TabOrder}.

(** What an election does to the job set [js] and the tree [m]. *)
Definition election (js : fsQueueJobSet) (m : accounts) (root : Z) (r : option (jobFSRef * Z)) (js' : fsQueueJobSet) (m' : accounts) : Prop :=
  marks_only m m' /\ elect_ok (jobsTab js') m' /\ js_ok js' /\
  match r with
  | None => js' = js /\ all_jobs (jobsTab js) = []
  | Some (j, s) =>
      all_jobs (jobsTab js) ≡ₚ j :: all_jobs (jobsTab js') /\
      match best (path_fuel m) (jobsTab js) m root with
      | Some o => (j, s) = o
      | None => exists k, earliest (jobsTab js) (elements (dom (jobsTab js))) (Some (k, j))
      end
  end.

Lemma electJob_spec js m root a :
  js_ok js -> elect_ok (jobsTab js) m -> m !! root = Some a ->
  exists r js' m', sch_fs_electJob js m root = Some (r, js', m') /\ election js m root r js' m'.
Proof.
  intros Hjs Hok Ha. unfold sch_fs_electJob. destruct (Z.ltb_spec (nJobs js) 1) as [Hz|Hz].
  { exists None, js, m. split; [done|]. split_and!; auto; [done|]. rewrite (js_count js Hjs) in Hz. apply nil_length_inv. lia. }
  destruct (wf_up m (eo_wf _ _ Hok) root a Ha) as [lp Hlp].
  destruct (elect_spec (path_fuel m) js m root a lp Hok Ha Hlp) as (j0 & s0 & e0 & m1 & -> & Hm1 & Hok1 & -> & Hs); [unfold path_fuel; lia|].
  cbn [mbind option_bind]. destruct (best (path_fuel m) (jobsTab js) m root) as [[j s]|] eqn:Eb; cbn [fmap option_fmap option_map fst].
  - cbn [mbind option_bind]. destruct Hs as [-> He]. destruct (best_leaf _ _ _ _ _ _ Eb) as (b & l & Hb & Hk & _ & Hl & Hj).
    destruct He as (b' & Hb' & _ & ->). assert (b' = b) as -> by congruence. cbn [mbind option_bind].
    destruct (marks_children m m1 s b Hm1 Hb) as (b1 & Hb1 & E1). destruct (erase_fields b b1 E1) as (_ & Ek & _ & En & _).
    destruct (rmJob_spec js m1 s (name b) l j) as (js' & m2 & -> & Hm2 & Hok2 & Hjs2 & Hp & _); try done.
    { right. exists b1. split_and!; auto. congruence. }
    cbn [mbind option_bind]. exists (Some (j, s)), js', m2. split; [done|]. split; [by eapply marks_trans|]. rewrite Eb. split_and!; auto.
  - assert (Hdom : forall k, k ∈ tab_order (dom (jobsTab js)) <-> is_Some (jobsTab js !! k)) by (intros k; by rewrite tab_order_perm, elem_of_elements, elem_of_dom).
    destruct (rest_of_spec (jobsTab js) (tab_order (dom (jobsTab js))) e0) as (o & e & -> & Ho & He); [intros k; apply Hdom|].
    cbn [mbind option_bind]. destruct o as [[k j]|]; cbn [fmap option_fmap option_map snd].
    + rewrite (He ltac:(done)). cbn [mbind option_bind fmap option_fmap option_map fst]. destruct Ho as [Hj Hle].
      destruct (jobsTab js !! k) as [l|] eqn:El; [|done]. cbn in Hj.
      destruct (rmJob_spec js m1 s0 k l j) as (js' & m2 & -> & Hm2 & Hok2 & Hjs2 & Hp & _); try done.
      { destruct Hs as [->|(b & Hb & Hk & Hel)]; [by left|right]. destruct (marks_children m m1 s0 b Hm1 Hb) as (b1 & Hb1 & E1).
        destruct (erase_fields b b1 E1) as (_ & Ek & _ & En & Ed & _). exists b1. unfold empty_leaf in *. rewrite Ek, En, Ed. auto. }
      cbn [mbind option_bind]. exists (Some (j, s0)), js', m2. split; [done|]. split; [by eapply marks_trans|]. rewrite Eb. split_and!; auto. exists k.
      split; [by rewrite El|]. intros q j'. rewrite elem_of_elements, elem_of_dom, <- Hdom. apply Hle.
    + exists None, js, m1. split; [done|]. split_and!; auto. apply all_jobs_none. intros k l Hl.
      specialize (Ho k). rewrite Hl in Ho. apply Ho, Hdom. by eexists.
Qed.

(** (C13) One election on a tree of user accounts, where no leaf stands for a
    whole group or for others: with no job in the set it gives none.
    Otherwise it gives the best job of the tree (the reference [best], which
    looks at every account) and its account, or, when no account has a job, the
    earliest of the first jobs of all users; it takes exactly that job out of
    the set, counts it, and changes only marks and caches of the tree, which
    stay right for the next election. *)
Theorem sch_fs_electJob_correct js m root a :
  js_ok js -> elect_ok (jobsTab js) m -> m !! root = Some a ->
  exists r js' m', sch_fs_electJob js m root = Some (r, js', m') /\ election js m root r js' m'.
Proof. apply electJob_spec. Qed.

(** ** The round *)

(** The loop over [sch_fs_electJob] of [scheduleJobs], the elected jobs in
    order; the dispatch of the jobs is left out. *)
Fixpoint elect_all (fuel : nat) (js : fsQueueJobSet) (m : accounts) (root : Z) : option (list jobFSRef) :=
  match fuel with
  | O => None
  | S k =>
      '(r, js, m) ← sch_fs_electJob js m root;
      match r with None => Some [] | Some (j, _) => l ← elect_all k js m root; Some (j :: l) end
  end.

Lemma elect_all_spec fuel js m root a :
  js_ok js -> elect_ok (jobsTab js) m -> m !! root = Some a -> (length (all_jobs (jobsTab js)) < fuel)%nat ->
  exists l, elect_all fuel js m root = Some l /\ l ≡ₚ all_jobs (jobsTab js).
Proof.
  revert js m a. induction fuel as [|fuel IH]; intros js m a Hjs Hok Ha Hf; [lia|]. cbn [elect_all].
  destruct (electJob_spec js m root a Hjs Hok Ha) as (r & js' & m' & -> & Hm & Hok' & Hjs' & Hr). cbn [mbind option_bind].
  destruct r as [[j s]|]; [|destruct Hr as [_ ->]; by exists []]. destruct Hr as [Hp _].
  destruct (marks_children m m' root a Hm Ha) as (a' & Ha' & _).
  destruct (IH js' m' a' Hjs' Hok' Ha') as (l & -> & Hl); [rewrite Hp in Hf; cbn in Hf; lia|]. cbn [mbind option_bind]. exists (j :: l). split; [done|]. by rewrite Hl, Hp.
Qed.

End Round.

(** ** Filling the set *)

Definition fill_set (js : fsQueueJobSet) (l : list (string * Z)) : fsQueueJobSet := foldl (fun js '(u, j) => addToFSJobSet js u j) js l.

(** While a set is filled its indices are the numbers up to its count. *)
Record filling (js : fsQueueJobSet) (l : list Z) : Prop := {
  fi_jobs : job <$> all_jobs (jobsTab js) ≡ₚ l;
  fi_nodup : NoDup (idx <$> all_jobs (jobsTab js));
  fi_count : nJobs js = Z.of_nat (length l);
  fi_idx : Forall (fun r => idx r <= nJobs js) (all_jobs (jobsTab js)) }.

Lemma addToFSJobSet_jobs js u j :
  all_jobs (jobsTab (addToFSJobSet js u j)) ≡ₚ JobFSRef j (i32 (nJobs js + 1)) :: all_jobs (jobsTab js).
Proof.
  cbn. rewrite all_jobs_insert. cbn. f_equiv. destruct (jobsTab js !! u) as [l|] eqn:El; cbn; [by rewrite (all_jobs_split _ u l El)|].
  by rewrite delete_id.
Qed.

Lemma addToFSJobSet_filling js l u j :
  filling js l -> Z.of_nat (length l) + 1 < 2 ^ 31 -> filling (addToFSJobSet js u j) (j :: l).
Proof.
  intros [Hj Hnd Hc Hi] Hfit. pose proof (addToFSJobSet_jobs js u j) as Hp. assert (Hn : nJobs (addToFSJobSet js u j) = nJobs js + 1) by (cbn; rewrite i32_small; lia).
  rewrite i32_small in Hp by lia. split.
  - by rewrite Hp, <- Hj.
  - rewrite Hp. cbn [fmap list_fmap idx]. apply NoDup_cons. split; [|done]. intros (r & E & Hr)%list_elem_of_fmap. rewrite Forall_forall in Hi. specialize (Hi r Hr). lia.
  - rewrite Hn, Hc. cbn [length]. lia.
  - rewrite Hp, Hn. constructor; [done|]. eapply Forall_impl; [exact Hi|]. cbn. lia.
Qed.

Lemma fill_filling l js k : filling js k -> Z.of_nat (length k + length l) < 2 ^ 31 -> filling (fill_set js l) (reverse (l.*2) ++ k).
Proof.
  revert js k. induction l as [|[u j] l IH]; intros js k Hf Hfit; [done|]. cbn [fill_set foldl fmap list_fmap snd]. rewrite reverse_cons, <- app_assoc.
  apply IH; [apply addToFSJobSet_filling; [done|cbn in Hfit; lia]|cbn in *; lia].
Qed.

Lemma fill_set_ok l : Z.of_nat (length l) < 2 ^ 31 ->
  js_ok (fill_set sch_fs_newJobSet l) /\ job <$> all_jobs (jobsTab (fill_set sch_fs_newJobSet l)) ≡ₚ l.*2.
Proof.
  intros Hfit. destruct (fill_filling l sch_fs_newJobSet []) as [Hj Hnd Hc Hi]; [split; [done|constructor|done|constructor]|cbn; lia|]. rewrite app_nil_r in *. split; [split|].
  - done.
  - rewrite Hc. f_equal. rewrite <- (length_fmap job). by rewrite Hj.
  - rewrite Hc, length_reverse, length_fmap. done.
  - by rewrite Hj, reverse_Permutation.
Qed.

(** ** Resetting the marks *)

(** [func] has been applied to the accounts of [T] and to no other. *)
Definition visits (func : shareAcct -> shareAcct) (T : Z -> Prop) (m : accounts) (r : option accounts) : Prop :=
  exists m', r = Some m' /\ forall q, (T q -> m' !! q = func <$> m !! q) /\ (~ T q -> m' !! q = m !! q).

Definition links_kept (func : shareAcct -> shareAcct) : Prop := forall a, parent (func a) = parent a /\ children (func a) = children a.

Lemma visits_tree func T m m' :
  links_kept func -> (forall q, T q \/ ~ T q) -> (forall q, (T q -> m' !! q = func <$> m !! q) /\ (~ T q -> m' !! q = m !! q)) -> same_tree m m'.
Proof.
  intros Hl Hor Hv q. destruct (Hv q) as [H1 H2]. destruct (Hor q) as [H|H]; [rewrite (H1 H)|rewrite (H2 H); reflexivity].
  destruct (m !! q) as [a|]; constructor. destruct (Hl a) as [E1 E2]. split; [done|by rewrite E2].
Qed.

Lemma each_visits func (T : Z -> Z -> Prop) m0 (f : accounts -> Z -> option accounts) L :
  links_kept func -> (forall c q, T c q \/ ~ T c q) -> NoDup L ->
  (forall c c' q, c ∈ L -> c' ∈ L -> T c q -> T c' q -> c = c') ->
  (forall m c, same_tree m0 m -> c ∈ L -> visits func (T c) m (f m c)) ->
  forall m, same_tree m0 m -> visits func (fun q => exists c, c ∈ L /\ T c q) m (each f m L).
Proof.
  intros Hk Hor Hnd Hdis Hf. induction L as [|c L IH]; intros m Hs; cbn [each].
  { exists m. split; [done|]. intros q. split; [by intros (c & []%elem_of_nil & _)|done]. }
  apply NoDup_cons in Hnd as [Hc Hnd]. destruct (Hf m c Hs (list_elem_of_here _ _)) as (m1 & -> & H1). cbn [mbind option_bind].
  destruct (IH Hnd) with (m := m1) as (m2 & -> & H2).
  - intros x y q Hx Hy. apply Hdis; by right.
  - intros m' x Hs' Hx. apply Hf; [done|by right].
  - etrans; [exact Hs|]. exact (visits_tree func (T c) m m1 Hk (Hor c) H1).
  - exists m2. split; [done|]. intros q. destruct (H1 q) as [H1y H1n], (H2 q) as [H2y H2n]. split.
    + intros (x & [->|Hx]%elem_of_cons & Hq).
      * rewrite H2n, H1y by (done || (intros (y & Hy & Hq'); apply Hc; by rewrite (Hdis c y q (list_elem_of_here _ _) (list_elem_of_further _ _ _ Hy) Hq Hq'))). done.
      * rewrite H2y, H1n by ((by exists x) || (intros Hq'; apply Hc; by rewrite (Hdis c x q (list_elem_of_here _ _) (list_elem_of_further _ _ _ Hx) Hq' Hq))). done.
    + intros Hno. rewrite H2n, H1n; [done| |].
      * intros Hq. apply Hno. exists c. split; [by left|done].
      * intros (x & Hx & Hq). apply Hno. exists x. split; [by right|done].
Qed.

Definition below (m : accounts) (p q : Z) : Prop := q = p \/ under m p q.

Lemma traverse_spec func fuel m p a lp :
  links_kept func -> wf m -> m !! p = Some a -> up_path m p lp -> (size m < fuel + length lp)%nat ->
  visits func (below m p) m (traverseFSTree fuel m p func).
Proof.
  intros Hk. revert m p a lp. induction fuel as [|fuel IH]; intros m p a lp Hw Ha Hlp Hf.
  { pose proof (up_path_fuel m p lp Hlp). unfold path_fuel in *. lia. }
  cbn [traverseFSTree]. unfold upd. rewrite Ha. cbn [mbind option_bind]. rewrite lookup_insert_eq. cbn [mbind option_bind]. destruct (Hk a) as [Ep Ec]. rewrite Ec.
  assert (Hin : forall c, c ∈ rev (children a) <-> c ∈ children a) by (intros c; by rewrite !list_elem_of_In, <- in_rev).
  assert (Hs1 : same_tree m (<[p := func a]> m)) by (apply (same_tree_insert m p a); [done|]; split; [done|by rewrite Ec]).
  destruct (each_visits func (below m) m (fun m c => traverseFSTree fuel m c func) (rev (children a)) Hk) with (m := <[p := func a]> m) as (m' & -> & Hv); try done.
  - intros c q. destruct (decide (q = c)) as [->|Hq]; [left; by left|]. destruct (under_or m c q Hw) as [H|H]; [left; by right|right; by intros [?|?]].
  - apply NoDup_ListNoDup, NoDup_rev, NoDup_ListNoDup, (wf_nodup m Hw p a Ha).
  - intros c c' q Hc Hc'. apply (under_one m p a c c' q Hw Ha); by apply Hin.
  - intros m1 c Hsm Hc%Hin. destruct (wf_kid m Hw p a c Ha Hc) as (b & Hb & _). destruct (same_tree_lookup m m1 c b Hsm Hb) as (b1 & Hb1 & _).
    destruct (IH m1 c b1 (c :: lp)) as (m2 & Hr & H2); [by rewrite <- Hsm|done| |rewrite (same_tree_size _ _ Hsm); cbn; lia|].
    + rewrite <- Hsm. exact (child_path m p a c lp Hw Ha Hc Hlp).
    + exists m2. split; [done|]. intros q. specialize (H2 q). unfold below in *. by rewrite Hsm.
  - exists m'. split; [done|]. intros q. destruct (Hv q) as [Hy Hn]. unfold below at 1 2. rewrite (under_child m p a q Hw Ha).
    assert (Hp : ~ exists c, c ∈ rev (children a) /\ below m c p).
    { intros (c & Hc%Hin & Hb). assert (Hu : under m p p) by (apply (under_child m p a p Hw Ha); by exists c). apply under_inv in Hu as (l & _ & H1 & H2). done. }
    destruct (decide (q = p)) as [->|Hq].
    + rewrite (Hn Hp), lookup_insert_eq, Ha. split; [done|intros H; exfalso; auto].
    + rewrite lookup_insert_ne in Hy, Hn by done. split.
      * intros [?|(c & Hc & Hb)]; [done|]. apply Hy. exists c. by rewrite Hin.
      * intros H. apply Hn. intros (c & Hc%Hin & Hb). apply H. right. by exists c.
Qed.

Lemma reset_fields a : parent (resetSkipFlag a) = parent a /\ children (resetSkipFlag a) = children a /\ numSkippedChild (resetSkipFlag a) = 0 /\
  has (flags (resetSkipFlag a)) FS_SKIPABLE = false /\ erase a = erase (resetSkipFlag a) /\
  (children a = [] -> jListEntCache (resetSkipFlag a) = None).
Proof.
  assert (Hl : Z.ldiff (Z.ldiff (flags a) FS_SKIPABLE) FS_SKIPABLE = Z.ldiff (flags a) FS_SKIPABLE) by (apply Z.bits_inj'; intros i Hi; rewrite !Z.ldiff_spec; by destruct (Z.testbit _ i), (Z.testbit _ i)).
  unfold resetSkipFlag, FS_IS_LEAF_NODE, erase. change (children (set_flags _ _)) with (children a).
  destruct (children a) eqn:Ek; cbn; rewrite Hl; split_and!; (done || exact Ek || apply skip_cleared).
Qed.

Lemma countb_none {A} (f : A -> bool) l : (forall x, f x = false) -> countb f l = 0.
Proof. intros Hf. induction l as [|x l IH]; [done|]. rewrite countb_cons, IH, Hf. done. Qed.

Lemma init_ok tab m root a :
  accts_ok m -> m !! root = Some a -> (forall q b, m !! q = Some b -> below m root q) ->
  exists m', sch_fs_init m root = Some m' /\ marks_only m m' /\ elect_ok tab m'.
Proof.
  intros Hok Ha Hall. pose proof (to_wf _ Hok) as Hw. destruct (wf_up m Hw root a Ha) as [lp Hlp].
  destruct (traverse_spec resetSkipFlag (path_fuel m) m root a lp) as (m' & Hr & Hv); try done.
  { intros b. destruct (reset_fields b) as (? & ? & _). done. }
  { unfold path_fuel. lia. }
  assert (Hlk : forall q, m' !! q = resetSkipFlag <$> m !! q).
  { intros q. destruct (Hv q) as [Hy Hn]. destruct (m !! q) as [b|] eqn:Hb; [apply Hy, (Hall q b Hb)|].
    rewrite Hn; [done|]. intros [->|(l & Hl & _)]; [congruence|]. inversion Hl; congruence. }
  assert (Hm : marks_only m m').
  { unfold marks_only. apply map_eq. intros q. rewrite !lookup_fmap, Hlk. destruct (m !! q) as [b|]; [|done]. cbn. f_equal. apply reset_fields. }
  assert (Hfl : forall q, flagged m' q = false) by (intros q; unfold flagged; rewrite Hlk; destruct (m !! q) as [b|]; [apply reset_fields|done]).
  exists m'. split; [done|]. split; [done|]. apply (marks_ok tab m m' Hm Hok); intros q b Hb; rewrite Hlk in Hb; apply fmap_Some in Hb as (b0 & Hb0 & ->);
    destruct (reset_fields b0) as (_ & Ek & En & _ & _ & Ec); rewrite Ek.
  - rewrite Hfl, En. destruct (children b0) as [|c l]; [by split|]. cbv zeta.
    assert (H0 : nflag m' (c :: l) = 0) by (by apply countb_none).
    rewrite H0. split; [done|]. cbn [length]. split; [done|lia].
  - intros Hk. left. auto.
Qed.

(** (C12) A whole round: on a tree of users whose siblings are in order,
    resetting the marks, filling a new set with the pending jobs and electing
    until there is none left comes to every pending job exactly once. *)
Theorem fairshare_round_complete `{TabOrder} m root a l :
  accts_ok m -> m !! root = Some a -> (forall q b, m !! q = Some b -> below m root q) -> Z.of_nat (length l) < 2 ^ 31 ->
  exists m' out, sch_fs_init m root = Some m' /\
    elect_all (S (length l)) (fill_set sch_fs_newJobSet l) m' root = Some out /\ job <$> out ≡ₚ l.*2.
Proof.
  intros Hok Ha Hall Hfit. destruct (fill_set_ok l Hfit) as [Hjs Hj]. destruct (init_ok (jobsTab (fill_set sch_fs_newJobSet l)) m root a Hok Ha Hall) as (m' & -> & Hm & Hok').
  destruct (marks_children m m' root a Hm Ha) as (a' & Ha' & _). destruct (elect_all_spec (S (length l)) _ m' root a' Hjs Hok' Ha') as (out & Ho & Hp).
  - rewrite <- (length_fmap job), Hj, length_fmap. lia.
  - exists m', out. split; [done|]. split; [done|]. by rewrite Hp, Hj.
Qed.

(** ** A small round *)

#[local] Instance elements_order : TabOrder := { tab_order := elements; tab_order_perm X := reflexivity _ }.

Lemma sample_accts_ok : accts_ok sample_accts.
Proof.
  destruct sample_fs_ok as [Hw Hn Ho]. split; [done|done|done|vm_compute; reflexivity|]. intros p a H. sample_cases H; reflexivity.
Qed.

Lemma sample_below q b : sample_accts !! q = Some b -> below sample_accts 1 q.
Proof.
  assert (H1 : up_path sample_accts 1 [1]) by (econstructor; [done|reflexivity|constructor]).
  assert (H3 : up_path sample_accts 3 [3; 1]) by (econstructor; [done|reflexivity|exact H1]).
  intros H. sample_cases H; [by left|right..].
  - exists [1]. split; [by econstructor|set_solver].
  - exists [1]. split; [exact H3|set_solver].
  - exists [3; 1]. split; [by econstructor|set_solver].
  - exists [3; 1]. split; [by econstructor|set_solver].
Qed.

(** Three jobs of users of the tree and one of a user outside of it. *)
Definition sample_pending : list (string * Z) := [("ann", 11); ("bob", 12); ("eve", 13); ("cy", 14)].

(** The group goes first and in it the user with more shares; the user outside
    comes last. *)
Example sample_round : (m ← sch_fs_init sample_accts 1; elect_all 5 (fill_set sch_fs_newJobSet sample_pending) m 1) =
  Some [JobFSRef 14 4; JobFSRef 12 2; JobFSRef 11 1; JobFSRef 13 3].
Proof. vm_compute. reflexivity. Qed.

Lemma fairshare_round_complete_witness : exists m' out, sch_fs_init sample_accts 1 = Some m' /\
  elect_all 5 (fill_set sch_fs_newJobSet sample_pending) m' 1 = Some out /\ job <$> out ≡ₚ [11; 12; 13; 14].
Proof.
  refine (fairshare_round_complete sample_accts 1 _ sample_pending sample_accts_ok _ sample_below _); [reflexivity|cbn; lia].
Defined.

Lemma sch_fs_electJob_correct_witness : exists r js' m',
  sch_fs_electJob (fill_set sch_fs_newJobSet sample_pending) sample_accts 1 = Some (r, js', m') /\
  election (fill_set sch_fs_newJobSet sample_pending) sample_accts 1 r js' m'.
Proof.
  eapply sch_fs_electJob_correct; [apply fill_set_ok; cbn; lia| |reflexivity].
  destruct sample_accts_ok as [Hw Hn Ho Hs Hu]. split; try done.
  - intros q a H. unfold flagged, nflag. sample_cases H; cbn; split; (done || (split; discriminate) || discriminate).
  - intros q a H _. left. sample_cases H; reflexivity.
Defined.
