(* ===== verification/Grp.v ===== *)
(** * User and host groups, [lsbatch/daemons/mbd.grp.c]

    A group has members, kept in a hash table, and other groups as members; a
    group with neither stands for everybody.  This file holds the questions
    asked of groups: who is a member, how many members there are, their list as
    an array or as text, and the replies to requests for group information.

    Groups live in a map from addresses.  The table of members is the list of
    its names in the order in which [h_firstEnt_] and [h_nextEnt_] visit them.
    The static variables of the C functions are threaded through; an access out
    of a buffer is [None], and so is an access through [NULL]. *)

From Stdlib Require Import Ascii.
From stdpp Require Import strings.
From S2P Require Import Prelude Lsb.

(** ** Data *)

Definition MAX_LSB_NAME_LEN : Z := 60.
Definition USER_GRP : Z := 0x1.
Definition HOST_GRP : Z := 0x2.
Definition GRP_RECURSIVE : Z := 0x8.
Definition GRP_ALL : Z := 0x10.
Definition LSBE_BAD_GROUP : Z := 28.
Definition LSBE_LSBLIB : Z := 49.

(** [struct userShares] and [struct gData]; [ugrpAttrs] are the shares of the
    group, [None] for a null pointer. *)
Record userShares := UserShares { us_name : string; us_share : Z }.
Record gData := GData { group : string; memberTab : list string; gPtr : list Z; ugrpAttrs : option (list userShares) }.

Abbreviation groups := (gmap Z gData).

Definition numEnts (g : gData) : Z := Z.of_nat (length (memberTab g)).
Definition numGroups (g : gData) : Z := Z.of_nat (length (gPtr g)).

(** A group that stands for everybody. *)
Definition USER_GROUP_IS_ALL_USERS (g : gData) : bool := (numGroups g =? 0) && (numEnts g =? 0).

(** Enough for any chain of groups. *)
Definition grp_fuel (G : groups) : nat := S (size G).
Arguments grp_fuel : simpl never.

(** ** Membership *)

(** The first element that [f] accepts ends the loop. *)
Fixpoint any (f : Z -> option bool) (l : list Z) : option bool :=
  match l with
  | [] => Some false
  | c :: l => b ← f c; if b : bool then Some true else any f l
  end.

Definition gDirectMember (G : groups) (word : option string) (gp : Z) : option bool :=
  match word with
  | None => Some false
  | Some w =>
      if gp =? NULL then Some false else
      g ← G !! gp;
      if USER_GROUP_IS_ALL_USERS g then Some true else Some (bool_decide (w ∈ memberTab g))
  end.

Fixpoint gMember (fuel : nat) (G : groups) (word : option string) (gp : Z) : option bool :=
  match fuel with
  | O => None
  | S k =>
      if bool_decide (word = None) || (gp =? NULL) then Some false else
      d ← gDirectMember G word gp;
      if d : bool then Some true else
      g ← G !! gp;
      any (gMember k G word) (gPtr g)
  end.

Fixpoint gMemberForShare (fuel : nat) (G : groups) (word : option string) (gp : Z) : option bool :=
  match fuel with
  | O => None
  | S k =>
      if bool_decide (word = None) || (gp =? NULL) then Some false else
      d ← gDirectMember G word gp;
      if d : bool then Some true else
      g ← G !! gp;
      any (fun c => s ← G !! c; if bool_decide (word = Some (group s)) then Some true else gMemberForShare k G word c) (gPtr g)
  end.

(** [getGroup] over the groups of the kind asked for. *)
Fixpoint getGroup (G : groups) (gplist : list Z) (member : option string) : option Z :=
  match gplist with
  | [] => Some NULL
  | gp :: l => b ← gMember (grp_fuel G) G member gp; if b : bool then Some gp else getGroup G l member
  end.

(** [getGrpData], and [getUGrpData] and [getHGrpData] with their lists. *)
Fixpoint getGrpData (G : groups) (l : list Z) (name : option string) : option Z :=
  match name with
  | None => Some NULL
  | Some w =>
      match l with
      | [] => Some NULL
      | gp :: l => g ← G !! gp; if String.eqb w (group g) then Some gp else getGrpData G l name
      end
  end.

(** ** Counting and listing *)

(** [sumMembers]: the value returned and the static [num]. *)
Fixpoint sum_groups (rec : Z -> Z -> option (Z * Z)) (l : list Z) (num : Z) : option (Z * Z) :=
  match l with
  | [] => Some (num, num)
  | c :: l => '(v, num) ← rec c num; if v =? 0 then Some (0, num) else sum_groups rec l num
  end.
Fixpoint sumMembers (fuel : nat) (G : groups) (gp : Z) (r first : bool) (num : Z) : option (Z * Z) :=
  match fuel with
  | O => None
  | S k =>
      let num := if first then 0 else num in
      g ← G !! gp;
      if (numGroups g =? 0) && (numEnts g =? 0) && r then Some (0, num) else
      let num := i32 (num + numEnts g) in
      if negb r then let num := i32 (num + numGroups g) in Some (num, num)
      else sum_groups (fun c num => sumMembers k G c r false num) (gPtr g) num
  end.

(** [countEntries]: the static [num], which is also the value returned. *)
Fixpoint count_groups (rec : Z -> Z -> option Z) (l : list Z) (num : Z) : option Z :=
  match l with [] => Some num | c :: l => num ← rec c num; count_groups rec l num end.
Fixpoint countEntries (fuel : nat) (G : groups) (gp : Z) (first : bool) (num : Z) : option Z :=
  match fuel with
  | O => None
  | S k =>
      let num := if first then 0 else num in
      g ← G !! gp;
      count_groups (fun c num => countEntries k G c false num) (gPtr g) (i32 (num + numEnts g))
  end.

(** [fillMembers]: the array and the static [mcnt]. *)
Fixpoint put_names (l : list string) (tab : list string) (mcnt : nat) : option (list string * nat) :=
  match l with
  | [] => Some (tab, mcnt)
  | w :: l => if (mcnt <? length tab)%nat then put_names l (<[mcnt := w]> tab) (S mcnt) else None
  end.
Fixpoint fill_groups (rec : Z -> list string -> nat -> option (list string * nat)) (l : list Z) (tab : list string) (mcnt : nat)
    : option (list string * nat) :=
  match l with [] => Some (tab, mcnt) | c :: l => '(tab, mcnt) ← rec c tab mcnt; fill_groups rec l tab mcnt end.
Fixpoint fillMembers (fuel : nat) (G : groups) (gp : Z) (tab : list string) (first : bool) (mcnt : nat) : option (list string * nat) :=
  match fuel with
  | O => None
  | S k =>
      let mcnt := if first then O else mcnt in
      g ← G !! gp;
      '(tab, mcnt) ← put_names (memberTab g) tab mcnt;
      fill_groups (fun c tab mcnt => fillMembers k G c tab false mcnt) (gPtr g) tab mcnt
  end.

(** [expandGrp]; an entry that has not been written is the empty name here. *)
Definition expandGrp (G : groups) (gp : Z) (gName : string) : option (list string * Z) :=
  num ← countEntries (grp_fuel G) G gp true 0;
  if num =? 0 then Some ([gName], 1) else
  '(tab, _) ← fillMembers (grp_fuel G) G gp (replicate (Z.to_nat num) "") true O;
  Some (tab, num).

(** ** Text *)

(** [strcat] into a buffer of [cap] bytes. *)
Definition strcat (cap : Z) (buf s : string) : option string :=
  if Z.of_nat (String.length buf + String.length s) + 1 <=? cap then Some (buf +:+ s) else None.

Fixpoint cat_names (cap : Z) (l : list string) (buf : string) : option string :=
  match l with
  | [] => Some buf
  | w :: l => buf ← strcat cap buf w; buf ← strcat cap buf " "; cat_names cap l buf
  end.
(** A group that is named and not expanded. *)
Definition cat_group (cap : Z) (G : groups) (c : Z) (buf : string) : option string :=
  s ← G !! c;
  buf ← strcat cap buf (group s);
  ch ← String.get (String.length (group s) - 1) (group s);
  strcat cap buf (if Ascii.eqb ch "/"%char then " " else "/ ").
Fixpoint cat_groups (rec : Z -> string -> option string) (l : list Z) (buf : string) : option string :=
  match l with [] => Some buf | c :: l => buf ← rec c buf; cat_groups rec l buf end.
Fixpoint catMembers (fuel : nat) (cap : Z) (G : groups) (gp : Z) (cbuf : string) (r : bool) : option string :=
  match fuel with
  | O => None
  | S k =>
      g ← G !! gp;
      cbuf ← cat_names cap (memberTab g) cbuf;
      cat_groups (fun c buf => if negb r then cat_group cap G c buf else catMembers k cap G c buf r) (gPtr g) cbuf
  end.

Definition getGroupMembers (G : groups) (gp : Z) (r : bool) : option string :=
  '(numMembers, _) ← sumMembers (grp_fuel G) G gp r true 0;
  if numMembers =? 0 then Some "all" else
  catMembers (grp_fuel G) (numMembers * MAX_LSB_NAME_LEN) G gp "" r.

Definition catGnames (G : groups) (gp : Z) : option string :=
  g ← G !! gp;
  if numGroups g <=? 0 then Some " " else
  let cap := numGroups g * MAX_LSB_NAME_LEN in
  cat_groups (fun c buf => s ← G !! c; buf ← strcat cap buf (group s); strcat cap buf "/ ") (gPtr g) "".

(** ** Requests *)

(** [struct groupInfoEnt] *)
Record groupInfoEnt := GroupInfoEnt { gi_group : string; memberList : string; gi_userShares : list userShares }.

Section Requests.
(** [users] gives the group of a user record ([uData->gData]); a record that
    [getUserData] makes for a name it does not know has none. *)
Context (G : groups) (users : gmap string Z) (hostgroups usergroups : list Z).

Definition getGroupInfoEntFromUdata (name : string) (recursive : bool) : option groupInfoEnt :=
  let gp := default NULL (users !! name) in
  l ← getGroupMembers G gp recursive;
  g ← G !! gp;
  Some (GroupInfoEnt name l (default [] (ugrpAttrs g))).

(** All groups. *)
Fixpoint all_info (l : list Z) (recursive : bool) : option (list groupInfoEnt) :=
  match l with
  | [] => Some []
  | gp :: l =>
      g ← G !! gp;
      e ← getGroupInfoEntFromUdata (group g) recursive;
      r ← all_info l recursive;
      Some (e :: r)
  end.

Definition is_ugroup (name : string) : option bool := any (fun gp => g ← G !! gp; Some (String.eqb (group g) name)) usergroups.

(** The groups asked for, up to the first name that is none. *)
Fixpoint named_info (names : list string) (recursive : bool) : option (list groupInfoEnt) :=
  match names with
  | [] => Some []
  | n :: names =>
      b ← is_ugroup n;
      if negb b then Some [] else
      e ← getGroupInfoEntFromUdata n recursive;
      r ← named_info names recursive;
      Some (e :: r)
  end.

Definition getGroupInfoEnt (names : option (list string)) (recursive : bool) : option (list groupInfoEnt) :=
  match names with
  | None => all_info usergroups recursive
  | Some names => named_info names recursive
  end.

Definition copyHostGroup (gp : Z) (recursive : bool) : option groupInfoEnt :=
  g ← G !! gp;
  l ← getGroupMembers G gp recursive;
  Some (GroupInfoEnt (group g) l []).

Definition SKIP_HOST_GROUP (name : string) : bool := match String.index 0 "others" name with Some _ => true | None => false end.

(** The reply array has [cap] entries. *)
Fixpoint getAllHostGroup (cap : nat) (gplist : list Z) (recursive : bool) (out : list groupInfoEnt) : option (list groupInfoEnt) :=
  match gplist with
  | [] => Some out
  | gp :: l =>
      g ← G !! gp;
      if SKIP_HOST_GROUP (group g) then getAllHostGroup cap l recursive out else
      e ← copyHostGroup gp recursive;
      if (length out <? cap)%nat then getAllHostGroup cap l recursive (out ++ [e]) else None
  end.

(** The group with a name; [None] in the second option if there is none. *)
Fixpoint find_hgroup (gplist : list Z) (name : string) : option (option Z) :=
  match gplist with
  | [] => Some None
  | gp :: l =>
      g ← G !! gp;
      if SKIP_HOST_GROUP (group g) then find_hgroup l name
      else if String.eqb (group g) name then Some (Some gp) else find_hgroup l name
  end.

Fixpoint getSpecifiedHostGroup (cap : nat) (names : list string) (recursive : bool) (out : list groupInfoEnt)
    : option (list groupInfoEnt) :=
  match names with
  | [] => Some out
  | n :: names =>
      f ← find_hgroup hostgroups n;
      match f with
      | None => Some out
      | Some gp =>
          e ← copyHostGroup gp recursive;
          if (length out <? cap)%nat then getSpecifiedHostGroup cap names recursive (out ++ [e]) else None
      end
  end.

(** [checkGroups]: the reply code and the groups; [cap] is the number of
    entries of the array the caller gives for host groups. *)
Definition checkGroups (options : Z) (names : list string) (cap : nat) : option (Z * list groupInfoEnt) :=
  if negb (has options HOST_GRP) && negb (has options USER_GRP) then Some (LSBE_LSBLIB, []) else
  let recursive := has options GRP_RECURSIVE in
  let bad := fun out : list groupInfoEnt => (Z.of_nat (length out) =? 0) || negb (Z.of_nat (length out) =? Z.of_nat (length names)) in
  '(err, out) ←
    (if has options HOST_GRP then
       if has options GRP_ALL then out ← getAllHostGroup cap hostgroups recursive []; Some (LSBE_NO_ERROR, out)
       else out ← getSpecifiedHostGroup cap names recursive []; Some (if bad out then LSBE_BAD_GROUP else LSBE_NO_ERROR, out)
     else Some (LSBE_NO_ERROR, []));
  if negb (err =? LSBE_NO_ERROR) then Some (err, out) else
  if has options USER_GRP then
    if has options GRP_ALL then out ← getGroupInfoEnt None recursive; Some (LSBE_NO_ERROR, out)
    else out ← getGroupInfoEnt (Some names) recursive; Some (if bad out then LSBE_BAD_GROUP else LSBE_NO_ERROR, out)
  else Some (err, out).

End Requests.
