(* ===== verification/GrpTheory.v ===== *)
(** * User and host groups: what the questions answer

    Groups that contain each other would send the recursive functions round for
    ever; on groups without such cycles all of them end within the fuel they
    are given.  Their answers are related to the relation of membership and to
    the list of members a group unfolds to. *)

From Stdlib Require Import Ascii.
From stdpp Require Import strings.
From S2P Require Import Prelude Lsb Grp.

(** ** Groups without cycles *)

(** Every group a group names exists and is lower than it. *)
Definition acyclic (G : groups) (rank : Z -> nat) : Prop :=
  G !! NULL = None /\ forall p g c, G !! p = Some g -> c ∈ gPtr g -> is_Some (G !! c) /\ (rank c < rank p)%nat.

(** No chain of groups from [p] down is longer than [n]. *)
Inductive deep (G : groups) : nat -> Z -> Prop :=
| deep_S n p g : p <> NULL -> G !! p = Some g -> (forall c, c ∈ gPtr g -> deep G n c) -> deep G (S n) p.

Lemma acyclic_deep_but G rank p (X : gset Z) :
  acyclic G rank -> is_Some (G !! p) -> (forall x, x ∈ X -> x ∈ dom G /\ (rank p < rank x)%nat) -> deep G (size (dom G) - size X) p.
Proof.
  intros [Hnull Hac]. remember (size (dom G) - size X)%nat as n eqn:En. revert p X En. induction n as [|n IH]; intros p X En [g Hg] HX.
  - exfalso. assert (Hlt : (size X < size (dom G))%nat); [|lia]. apply subset_size. split; [intros x Hx; by apply HX|].
    intros Hsub. specialize (Hsub p (elem_of_dom_2 _ _ _ Hg)). apply HX in Hsub as [_ H]. lia.
  - econstructor; [by intros ->; rewrite Hnull in Hg|exact Hg|]. intros c Hc. destruct (Hac p g c Hg Hc) as [Hin Hlt].
    assert (HpX : p ∉ X) by (intros H%HX; lia). apply (IH c ({[p]} ∪ X)); [|done|].
    + rewrite size_union, size_singleton by set_solver. lia.
    + intros x [->%elem_of_singleton|Hx]%elem_of_union; [split; [by eapply elem_of_dom_2|done]|]. apply HX in Hx as [? ?]. split; [done|lia].
Qed.

Lemma deep_fuel G rank p : acyclic G rank -> is_Some (G !! p) -> deep G (grp_fuel G) p.
Proof.
  intros Hac Hp. assert (Hd : deep G (size (dom G) - size (∅ : gset Z)) p) by (apply (acyclic_deep_but G rank); [done|done|set_solver]).
  rewrite size_empty, Nat.sub_0_r, size_dom in Hd. unfold grp_fuel. clear Hac Hp.
  induction Hd as [n p g Hn Hg _ IH]. by econstructor.
Qed.

(** ** Unfolding *)

(** The members of a group and of the groups it names, in the order in which
    they are visited; and whether there is one that stands for everybody. *)
Fixpoint flat (n : nat) (G : groups) (p : Z) : list string :=
  match n, G !! p with
  | S k, Some g => memberTab g ++ concat (flat k G <$> gPtr g)
  | _, _ => []
  end.
Fixpoint open (n : nat) (G : groups) (p : Z) : bool :=
  match n, G !! p with
  | S k, Some g => USER_GROUP_IS_ALL_USERS g || existsb (open k G) (gPtr g)
  | _, _ => false
  end.

Lemma flat_S k G p g : G !! p = Some g -> flat (S k) G p = memberTab g ++ concat (flat k G <$> gPtr g).
Proof. intros Hg. cbn. by rewrite Hg. Qed.
Lemma open_S k G p g : G !! p = Some g -> open (S k) G p = USER_GROUP_IS_ALL_USERS g || existsb (open k G) (gPtr g).
Proof. intros Hg. cbn. by rewrite Hg. Qed.

(** The groups below a group, itself included. *)
Inductive below (G : groups) (p : Z) : Z -> Prop :=
| below_refl : below G p p
| below_sub q g c : below G p q -> G !! q = Some g -> c ∈ gPtr g -> below G p c.

Lemma below_trans G p q r : below G p q -> below G q r -> below G p r.
Proof. intros Hp Hq. induction Hq as [|x g c _ IH Hg Hc]; [done|]. by eapply below_sub. Qed.

Lemma below_inv G p q : below G p q -> q = p \/ exists g c, G !! p = Some g /\ c ∈ gPtr g /\ below G c q.
Proof.
  induction 1 as [|q g c _ IH Hg Hc]; [by left|right]. destruct IH as [->|(h & x & Hh & Hx & Hq)].
  - exists g, c. split_and!; [done|done|constructor].
  - exists h, x. split_and!; [done|done|by eapply below_sub].
Qed.

Definition member_of (G : groups) (w : string) (p : Z) : Prop := exists q g, below G p q /\ G !! q = Some g /\ w ∈ memberTab g.
Definition everybody (G : groups) (p : Z) : Prop := exists q g, below G p q /\ G !! q = Some g /\ USER_GROUP_IS_ALL_USERS g = true.

(** Reading a property of the groups below off the group itself. *)
Lemma below_cases G (P : gData -> Prop) p g :
  G !! p = Some g ->
  (exists q h, below G p q /\ G !! q = Some h /\ P h) <-> P g \/ exists c, c ∈ gPtr g /\ exists q h, below G c q /\ G !! q = Some h /\ P h.
Proof.
  intros Hg. split.
  - intros (q & h & Hb & Hh & HP). apply below_inv in Hb as [->|(g' & c & Hg' & Hc & Hb)]; [left; congruence|].
    right. exists c. replace g' with g in Hc by congruence. split; [done|]. by exists q, h.
  - intros [HP|(c & Hc & q & h & Hb & Hh & HP)]; [exists p, g; split_and!; [constructor|done|done]|].
    exists q, h. split_and!; [|done|done]. eapply below_trans; [|exact Hb]. eapply below_sub; [constructor|exact Hg|done].
Qed.

Lemma flat_member n G p w : deep G n p -> w ∈ flat n G p <-> member_of G w p.
Proof.
  induction 1 as [n p g Hn Hg _ IH]. rewrite (flat_S n G p g Hg). unfold member_of. rewrite (below_cases G (fun h => w ∈ memberTab h) p g Hg), elem_of_app.
  f_equiv. rewrite list_elem_of_In, in_concat. setoid_rewrite <- list_elem_of_In. split.
  - intros (x & (c & -> & Hc)%list_elem_of_fmap & Hw). exists c. split; [done|]. by apply (IH c Hc).
  - intros (c & Hc & Hw). exists (flat n G c). split; [by apply list_elem_of_fmap_2|by apply (IH c Hc)].
Qed.

Lemma open_everybody n G p : deep G n p -> open n G p = true <-> everybody G p.
Proof.
  induction 1 as [n p g Hn Hg _ IH]. rewrite (open_S n G p g Hg). unfold everybody.
  rewrite (below_cases G (fun h => USER_GROUP_IS_ALL_USERS h = true) p g Hg), orb_true_iff. f_equiv.
  rewrite existsb_exists. split; intros (c & Hc & Ho); exists c; rewrite list_elem_of_In in *; (split; [done|]); by apply IH; [apply list_elem_of_In|].
Qed.

(** ** Membership *)

Lemma any_spec (f : Z -> option bool) (b : Z -> bool) l : (forall c, c ∈ l -> f c = Some (b c)) -> any f l = Some (existsb b l).
Proof.
  induction l as [|c l IH]; intros Hf; [done|]. cbn [any existsb]. rewrite (Hf c) by (by left). cbn [mbind option_bind].
  destruct (b c); [done|]. apply IH. intros x Hx. apply Hf. by right.
Qed.

Lemma existsb_concat (w : string) (f : Z -> list string) l : existsb (fun c => bool_decide (w ∈ f c)) l = bool_decide (w ∈ concat (f <$> l)).
Proof.
  induction l as [|c l IH]; [done|]. cbn [existsb fmap list_fmap concat]. rewrite IH, <- bool_decide_or. apply bool_decide_ext. by rewrite elem_of_app.
Qed.

Lemma existsb_or {A} (f g : A -> bool) l : existsb (fun c => f c || g c) l = existsb f l || existsb g l.
Proof. induction l as [|c l IH]; [done|]. cbn. rewrite IH. by destruct (f c), (g c), (existsb f l). Qed.

Lemma elem_app_bool (w : string) l1 l2 : bool_decide (w ∈ l1 ++ l2) = bool_decide (w ∈ l1) || bool_decide (w ∈ l2).
Proof. rewrite <- bool_decide_or. apply bool_decide_ext, elem_of_app. Qed.

Lemma gMember_spec n G p w : deep G n p -> gMember n G (Some w) p = Some (open n G p || bool_decide (w ∈ flat n G p)).
Proof.
  induction 1 as [n p g Hn Hg _ IH]. rewrite (open_S n G p g Hg), (flat_S n G p g Hg). cbn [gMember].
  unfold gDirectMember. rewrite (proj2 (Z.eqb_neq _ _) Hn), Hg, bool_decide_eq_false_2 by done. cbn [orb mbind option_bind].
  destruct (USER_GROUP_IS_ALL_USERS g) eqn:Ea; [done|]. cbn [mbind option_bind orb]. rewrite elem_app_bool.
  case_bool_decide; [by rewrite orb_true_r|]. cbn [orb].
  rewrite (any_spec _ (fun c => open n G c || bool_decide (w ∈ flat n G c))) by (intros c Hc; exact (IH c Hc)). f_equal.
  by rewrite existsb_or, existsb_concat.
Qed.

(** (C34) [gMember] ends on groups without cycles and answers whether the word is
    a member of the group or of a group below it, or one of them stands for
    everybody; nothing is a member of no group, and no word is a member. *)
Theorem gMember_correct G rank p word :
  acyclic G rank -> p = NULL \/ is_Some (G !! p) ->
  exists b, gMember (grp_fuel G) G word p = Some b /\
    (b = true <-> exists w, word = Some w /\ p <> NULL /\ (member_of G w p \/ everybody G p)).
Proof.
  intros Hac Hp. destruct word as [w|]; [|exists false; split; [done|]; split; [done|by intros (? & ? & _)]].
  destruct (decide (p = NULL)) as [->|Hn]; [exists false; split; [done|]; split; [done|by intros (? & _ & ? & _)]|].
  destruct Hp as [?|Hp]; [done|]. pose proof (deep_fuel G rank p Hac Hp) as Hd. eexists. split; [by apply gMember_spec|].
  rewrite orb_true_iff, bool_decide_eq_true, (open_everybody _ G p Hd), (flat_member _ G p w Hd). split.
  - intros H. exists w. split_and!; [done|done|]. tauto.
  - intros (w' & [= <-] & _ & H). tauto.
Qed.

(** ** Counting *)

Lemma count_concat (n : nat) G (l : list Z) (rec : Z -> Z -> option Z) num :
  (forall c num, c ∈ l -> 0 <= num -> num + Z.of_nat (length (flat n G c)) < 2 ^ 31 -> rec c num = Some (num + Z.of_nat (length (flat n G c)))) ->
  0 <= num -> num + Z.of_nat (length (concat (flat n G <$> l))) < 2 ^ 31 ->
  count_groups rec l num = Some (num + Z.of_nat (length (concat (flat n G <$> l)))).
Proof.
  revert num. induction l as [|c l IH]; intros num Hrec Hn Hfit; [cbn; f_equal; lia|]. cbn [fmap list_fmap concat count_groups] in *.
  rewrite length_app in *. rewrite (Hrec c num) by (lia || by left). cbn [mbind option_bind]. rewrite IH; [f_equal; lia| |lia|lia].
  intros x m Hx. apply Hrec. by right.
Qed.

Lemma countEntries_spec n G p (first : bool) num :
  deep G n p -> 0 <= num -> (if first then 0 else num) + Z.of_nat (length (flat n G p)) < 2 ^ 31 ->
  countEntries n G p first num = Some ((if first then 0 else num) + Z.of_nat (length (flat n G p))).
Proof.
  intros Hd. revert first num. induction Hd as [n p g Hn Hg _ IH]. intros first num Hnum. rewrite (flat_S n G p g Hg), length_app. intros Hfit.
  cbn [countEntries]. rewrite Hg. cbn [mbind option_bind]. unfold numEnts. rewrite i32_small by (destruct first; lia).
  rewrite (count_concat n G); [f_equal; lia| |destruct first; lia|lia]. intros c m Hc Hm Hf. exact (IH c Hc false m Hm Hf).
Qed.

(** ** Listing *)

(** Writing [l] over [old] in the middle of an array. *)
Lemma put_names_spec l pre old post :
  length old = length l -> put_names l (pre ++ old ++ post) (length pre) = Some (pre ++ l ++ post, length pre + length l)%nat.
Proof.
  revert pre old. induction l as [|w l IH]; intros pre old Hlen; [destruct old; [cbn; by rewrite Nat.add_0_r|done]|].
  destruct old as [|o old]; [done|]. cbn [put_names]. rewrite (proj2 (Nat.ltb_lt _ _)) by (rewrite !length_app; cbn; lia).
  cbn [app]. rewrite insert_app_r_alt, Nat.sub_diag by done. cbn [list_insert insert]. specialize (IH (pre ++ [w]) old ltac:(cbn in Hlen; lia)).
  rewrite length_app, <- !(assoc_L (++)) in IH. cbn in IH. rewrite Nat.add_1_r in IH. cbn. rewrite IH. f_equal. f_equal. lia.
Qed.

Definition fills (rec : list string -> nat -> option (list string * nat)) (l : list string) : Prop :=
  forall pre old post, length old = length l -> rec (pre ++ old ++ post) (length pre) = Some (pre ++ l ++ post, length pre + length l)%nat.

Lemma fills_app rec1 rec2 l1 l2 : fills rec1 l1 -> fills rec2 l2 -> fills (fun tab k => '(tab, k) ← rec1 tab k; rec2 tab k) (l1 ++ l2).
Proof.
  intros H1 H2 pre old post Hlen. rewrite length_app in *. assert (old = take (length l1) old ++ drop (length l1) old) as E by (by rewrite take_drop).
  specialize (H1 pre (take (length l1) old) (drop (length l1) old ++ post)). rewrite (assoc_L (++) (take _ old)), <- E, length_take in H1.
  rewrite H1 by lia. cbn [mbind option_bind]. specialize (H2 (pre ++ l1) (drop (length l1) old) post). rewrite <- !(assoc_L (++)), length_app, length_drop in H2.
  rewrite H2 by lia. f_equal. f_equal; [by rewrite <- !(assoc_L (++))|lia].
Qed.

Lemma fills_groups n G l (rec : Z -> list string -> nat -> option (list string * nat)) :
  (forall c, c ∈ l -> fills (rec c) (flat n G c)) -> fills (fill_groups rec l) (concat (flat n G <$> l)).
Proof.
  induction l as [|c l IH]; intros Hrec; [intros pre [|? ?] post Hl; [cbn; by rewrite Nat.add_0_r|done]|].
  apply (fills_app (rec c) (fill_groups rec l)); [apply Hrec; by left|]. apply IH. intros x Hx. apply Hrec. by right.
Qed.

Lemma fillMembers_spec n G p : deep G n p -> fills (fun tab k => fillMembers n G p tab false k) (flat n G p).
Proof.
  induction 1 as [n p g Hn Hg _ IH]. rewrite (flat_S n G p g Hg). intros pre old post Hlen. cbn [fillMembers]. rewrite Hg. cbn [mbind option_bind].
  refine (fills_app (put_names (memberTab g)) (fill_groups _ (gPtr g)) _ _ _ _ pre old post Hlen); [intros pre' old' post'; apply put_names_spec|].
  apply fills_groups. exact IH.
Qed.

(** [expandGrp] on groups without cycles: a group with nobody below it gives
    its own name; any other the names of all members below it, in order.  The
    array that is allocated for the counted entries is filled exactly. *)
Theorem expandGrp_correct G rank p gName :
  acyclic G rank -> is_Some (G !! p) -> Z.of_nat (length (flat (grp_fuel G) G p)) < 2 ^ 31 ->
  exists tab, expandGrp G p gName = Some (tab, Z.of_nat (length tab)) /\
    tab = (if decide (flat (grp_fuel G) G p = []) then [gName] else flat (grp_fuel G) G p) /\
    forall w, w ∈ flat (grp_fuel G) G p <-> member_of G w p.
Proof.
  intros Hac Hp Hfit. pose proof (deep_fuel G rank p Hac Hp) as Hd. unfold expandGrp. rewrite countEntries_spec by (done || lia).
  cbn [mbind option_bind]. rewrite Z.add_0_l. set (l := flat (grp_fuel G) G p) in *. eexists. split; [|split; [reflexivity|intros w; by apply flat_member]].
  destruct (decide (l = [])) as [E|E]; [by rewrite E|]. rewrite (proj2 (Z.eqb_neq _ _)) by (destruct l; [done|cbn; lia]). rewrite Nat2Z.id.
  pose proof (fillMembers_spec (grp_fuel G) G p Hd [] (replicate (length l) "") []) as Hf. cbn [app] in Hf. rewrite !app_nil_r, length_replicate in Hf.
  specialize (Hf eq_refl). change (grp_fuel G) with (S (size G)) in *. cbn [fillMembers length] in *. rewrite Hf. done.
Qed.

(** ** Summing *)

(** A group in which nobody stands for everybody has members. *)
Lemma closed_members n G p : deep G n p -> open n G p = false -> flat n G p <> [].
Proof.
  induction 1 as [n p g Hn Hg _ IH]. rewrite (open_S n G p g Hg), (flat_S n G p g Hg), orb_false_iff. intros [Ha Ho].
  destruct (memberTab g) as [|w l] eqn:Em; [|done]. destruct (gPtr g) as [|c l] eqn:Ec; [unfold USER_GROUP_IS_ALL_USERS, numGroups, numEnts in Ha; by rewrite Em, Ec in Ha|].
  cbn in Ho |- *. apply orb_false_iff in Ho as [Ho _]. intros [E _]%app_eq_nil. by apply (IH c (list_elem_of_here _ _)).
Qed.

(** What the sum is, for a group or for a list of groups. *)
Definition sums (o : bool) (l : list string) (num : Z) (r : option (Z * Z)) : Prop :=
  exists num', r = Some (if o then 0 else num + Z.of_nat (length l), num') /\ (o = false -> num' = num + Z.of_nat (length l)).

Lemma sum_concat n G (l : list Z) (rec : Z -> Z -> option (Z * Z)) num :
  (forall c num, c ∈ l -> 0 <= num -> num + Z.of_nat (length (flat n G c)) < 2 ^ 31 -> sums (open n G c) (flat n G c) num (rec c num)) ->
  (forall c, c ∈ l -> open n G c = false -> flat n G c <> []) ->
  0 <= num -> num + Z.of_nat (length (concat (flat n G <$> l))) < 2 ^ 31 ->
  sums (existsb (open n G) l) (concat (flat n G <$> l)) num (sum_groups rec l num).
Proof.
  revert num. induction l as [|c l IH]; intros num Hrec Hne Hn Hfit; [exists num; cbn; split; [do 2 f_equal; lia|lia]|].
  cbn [fmap list_fmap concat sum_groups existsb] in *. rewrite length_app in Hfit.
  destruct (Hrec c num) as (num1 & -> & H1); [by left|done|lia|]. cbn [mbind option_bind]. destruct (open n G c) eqn:Eo; [by exists num1|].
  cbn [orb]. rewrite (H1 eq_refl). assert (flat n G c <> []) by (by apply Hne; [left|]).
  assert (0 < Z.of_nat (length (flat n G c))) by (destruct (flat n G c); [done|cbn; lia]). rewrite (proj2 (Z.eqb_neq _ _)) by lia.
  destruct (IH (num + Z.of_nat (length (flat n G c)))) as (num2 & -> & H2); [intros x m Hx; apply Hrec; by right|intros x Hx; apply Hne; by right|lia|lia|].
  exists num2. rewrite length_app. split; [do 2 f_equal; destruct (existsb (open n G) l); lia|intros E; rewrite (H2 E); lia].
Qed.

Lemma sumMembers_spec n G p (first : bool) num :
  deep G n p -> 0 <= num -> (if first then 0 else num) + Z.of_nat (length (flat n G p)) < 2 ^ 31 ->
  sums (open n G p) (flat n G p) (if first then 0 else num) (sumMembers n G p true first num).
Proof.
  intros Hd. revert first num. induction Hd as [n p g Hn Hg Hc IH]. intros first num Hnum. rewrite (flat_S n G p g Hg), (open_S n G p g Hg), length_app.
  intros Hfit. cbn [sumMembers]. rewrite Hg. cbn [mbind option_bind]. fold (USER_GROUP_IS_ALL_USERS g).
  destruct (USER_GROUP_IS_ALL_USERS g); [cbn; eexists; split; [done|done]|]. cbn [andb negb orb]. unfold numEnts. rewrite i32_small by (destruct first; lia).
  destruct (sum_concat n G (gPtr g) (fun c num => sumMembers n G c true false num) ((if first then 0 else num) + Z.of_nat (length (memberTab g)))) as (num' & -> & H').
  - intros c m Hin Hm Hf. exact (IH c Hin false m Hm Hf).
  - intros c Hin. apply closed_members. auto.
  - destruct first; lia.
  - lia.
  - exists num'. rewrite length_app. split; [do 2 f_equal; destruct (existsb (open n G) (gPtr g)); lia|intros E; rewrite (H' E); lia].
Qed.

(** ** Text *)

(** Names with a blank behind each, and the bytes they take. *)
Definition text (l : list string) : string := foldr (fun w s => w +:+ " " +:+ s) "" l.
Definition text_len (l : list string) : Z := zsum ((fun w => Z.of_nat (String.length w) + 1) <$> l).

Lemma str_app_cons x (a b : string) : String x a +:+ b = String x (a +:+ b).
Proof. done. Qed.
Lemma str_app_assoc (a b c : string) : (a +:+ b) +:+ c = a +:+ (b +:+ c).
Proof. induction a as [|x a IH]; [done|]. by rewrite !str_app_cons, IH. Qed.
Lemma str_app_nil (a : string) : a +:+ "" = a.
Proof. induction a as [|x a IH]; [done|]. by rewrite str_app_cons, IH. Qed.
Lemma str_app_length (a b : string) : String.length (a +:+ b) = (String.length a + String.length b)%nat.
Proof. induction a as [|x a IH]; [done|]. rewrite str_app_cons. cbn. by rewrite IH. Qed.

Lemma text_app l1 l2 : text (l1 ++ l2) = text l1 +:+ text l2.
Proof. induction l1 as [|w l1 IH]; [done|]. cbn. unfold text in *. rewrite IH. by rewrite !str_app_assoc. Qed.
Lemma text_length l : Z.of_nat (String.length (text l)) = text_len l.
Proof.
  induction l as [|w l IH]; [done|]. unfold text_len in *. cbn [fmap list_fmap]. rewrite zsum_cons, <- IH.
  change (text (w :: l)) with (w +:+ " " +:+ text l). rewrite !str_app_length. cbn [String.length]. lia.
Qed.
Lemma text_len_app l1 l2 : text_len (l1 ++ l2) = text_len l1 + text_len l2.
Proof. unfold text_len. by rewrite fmap_app, zsum_app. Qed.
Lemma text_len_nonneg l : 0 <= text_len l.
Proof. rewrite <- text_length. lia. Qed.

Lemma strcat_fits cap buf s : Z.of_nat (String.length buf) + Z.of_nat (String.length s) + 1 <= cap -> strcat cap buf s = Some (buf +:+ s).
Proof. intros H. unfold strcat. by rewrite (proj2 (Z.leb_le _ _)) by lia. Qed.

(** A function that appends [l] to a buffer of [cap] bytes that has room. *)
Definition appends (cap : Z) (f : string -> option string) (l : list string) : Prop :=
  forall buf, Z.of_nat (String.length buf) + text_len l + 1 <= cap -> f buf = Some (buf +:+ text l).

Lemma appends_app cap f1 f2 l1 l2 : appends cap f1 l1 -> appends cap f2 l2 -> appends cap (fun buf => buf ← f1 buf; f2 buf) (l1 ++ l2).
Proof.
  intros H1 H2 buf. rewrite text_len_app. intros Hfit. pose proof (text_len_nonneg l2). rewrite H1 by lia. cbn [mbind option_bind].
  rewrite H2 by (rewrite str_app_length, Nat2Z.inj_add, text_length; lia). by rewrite text_app, str_app_assoc.
Qed.

Lemma appends_nil cap : appends cap Some [].
Proof. intros buf _. by rewrite str_app_nil. Qed.

Lemma appends_names cap l : appends cap (cat_names cap l) l.
Proof.
  induction l as [|w l IH]; intros buf Hfit; [by rewrite str_app_nil|]. unfold text_len in *. cbn [fmap list_fmap] in Hfit. rewrite zsum_cons in Hfit.
  pose proof (text_len_nonneg l). unfold text_len in *. cbn [cat_names]. rewrite strcat_fits by lia. cbn [mbind option_bind].
  rewrite strcat_fits by (rewrite str_app_length; cbn; lia). cbn [mbind option_bind].
  rewrite IH by (unfold text_len; rewrite !str_app_length; cbn; lia). f_equal. cbn. by rewrite !str_app_assoc.
Qed.

Lemma appends_groups cap (f : Z -> list string) (rec : Z -> string -> option string) l :
  (forall c, c ∈ l -> appends cap (rec c) (f c)) -> appends cap (cat_groups rec l) (concat (f <$> l)).
Proof.
  induction l as [|c l IH]; intros Hrec; [apply appends_nil|]. apply (appends_app cap (rec c) (cat_groups rec l)); [apply Hrec; by left|].
  apply IH. intros x Hx. apply Hrec. by right.
Qed.

Lemma catMembers_spec n G p cap : deep G n p -> appends cap (fun buf => catMembers n cap G p buf true) (flat n G p).
Proof.
  induction 1 as [n p g Hn Hg _ IH]. rewrite (flat_S n G p g Hg). intros buf Hfit. cbn [catMembers]. rewrite Hg. cbn [mbind option_bind].
  refine (appends_app cap (cat_names cap (memberTab g)) (cat_groups _ (gPtr g)) _ _ (appends_names cap _) _ buf Hfit).
  apply appends_groups. exact IH.
Qed.

(** How a group that is not expanded is shown. *)
Definition shown (G : groups) (c : Z) : string :=
  match G !! c with
  | Some s => match String.get (String.length (group s) - 1) (group s) with
              | Some ch => if Ascii.eqb ch "/"%char then group s else group s +:+ "/"
              | None => ""
              end
  | None => ""
  end.
(** A group is shown only by a name. *)
Definition named (G : groups) : Prop := forall p g, G !! p = Some g -> group g <> "".

Lemma last_char w : w <> "" -> exists ch, String.get (String.length w - 1) w = Some ch.
Proof.
  induction w as [|x w IH]; [done|]. intros _. destruct w as [|y w]; [by exists x|]. destruct IH as [ch Hch]; [done|]. exists ch. cbn in *. by rewrite Nat.sub_0_r in Hch.
Qed.

Lemma appends_group G cap c s : G !! c = Some s -> group s <> "" -> appends cap (cat_group cap G c) [shown G c].
Proof.
  intros Hs Hne buf. unfold shown, cat_group. rewrite Hs. destruct (last_char (group s) Hne) as [ch Hch]. cbn [mbind option_bind]. rewrite Hch.
  unfold text_len. cbn [fmap list_fmap]. rewrite zsum_cons. intros Hfit. change (zsum []) with 0 in Hfit.
  assert (Hlen : Z.of_nat (String.length buf) + Z.of_nat (String.length (group s)) + 2 <= cap /\ (Ascii.eqb ch "/"%char = false -> Z.of_nat (String.length buf) + Z.of_nat (String.length (group s)) + 3 <= cap)).
  { destruct (Ascii.eqb ch "/"%char); [split; [lia|done]|]. rewrite str_app_length in Hfit. cbn in Hfit. lia. }
  destruct Hlen as [H1 H2]. rewrite strcat_fits by lia. cbn [mbind option_bind]. destruct (Ascii.eqb ch "/"%char); cbn [text foldr].
  - rewrite strcat_fits by (rewrite str_app_length; cbn; lia). by rewrite str_app_nil, str_app_assoc.
  - rewrite strcat_fits by (rewrite str_app_length; specialize (H2 eq_refl); cbn; lia). by rewrite str_app_nil, !str_app_assoc.
Qed.

(** The names a group is listed with. *)
Definition listing (G : groups) (p : Z) (r : bool) : list string :=
  if r then flat (grp_fuel G) G p
  else match G !! p with Some g => memberTab g ++ (shown G <$> gPtr g) | None => [] end.

Lemma text_len_bound k l : Forall (fun w => Z.of_nat (String.length w) <= k) l -> text_len l <= (k + 1) * Z.of_nat (length l).
Proof. induction 1 as [|w l Hw _ IH]; [cbn; lia|]. unfold text_len in *. cbn [fmap list_fmap length]. rewrite zsum_cons. lia. Qed.

Lemma concat_singletons {A} (f : Z -> A) l : concat ((fun c => [f c]) <$> l) = f <$> l.
Proof. induction l as [|c l IH]; [done|]. cbn. by rewrite IH. Qed.

Lemma catMembers_direct k G p g cap :
  G !! p = Some g -> named G -> (forall c, c ∈ gPtr g -> is_Some (G !! c)) ->
  appends cap (fun buf => catMembers (S k) cap G p buf false) (memberTab g ++ (shown G <$> gPtr g)).
Proof.
  intros Hg Hn Hc buf Hfit. cbn [catMembers]. rewrite Hg. cbn [mbind option_bind negb].
  refine (appends_app cap (cat_names cap (memberTab g)) (cat_groups _ (gPtr g)) _ _ (appends_names cap _) _ buf Hfit).
  rewrite <- concat_singletons. apply appends_groups. intros c Hin. destruct (Hc c Hin) as [s Hs]. apply (appends_group G cap c s); [done|by apply (Hn c)].
Qed.

(** (C35) [getGroupMembers] on groups without cycles whose names leave two bytes of
    [MAX_LSB_NAME_LEN] free: a group that stands for everybody, or when it is
    expanded has one below it that does, gives [all]; any other the text of its
    members, and the text with its terminator fits the buffer that is allocated
    for it. *)
Theorem getGroupMembers_correct G rank p r :
  acyclic G rank -> is_Some (G !! p) -> named G -> Z.of_nat (length (listing G p r)) < 2 ^ 31 ->
  Forall (fun w => Z.of_nat (String.length w) <= MAX_LSB_NAME_LEN - 2) (listing G p r) ->
  getGroupMembers G p r =
    Some (if (r && open (grp_fuel G) G p) || bool_decide (listing G p r = []) then "all" else text (listing G p r)).
Proof.
  intros Hac Hp Hnm Hfit Hlen. pose proof (deep_fuel G rank p Hac Hp) as Hd. unfold getGroupMembers. apply text_len_bound in Hlen.
  assert (Hbuf : listing G p r <> [] -> Z.of_nat (String.length "") + text_len (listing G p r) + 1 <= Z.of_nat (length (listing G p r)) * MAX_LSB_NAME_LEN).
  { unfold MAX_LSB_NAME_LEN in *. destruct (listing G p r) as [|w l]; [done|]. cbn [length String.length] in *. lia. }
  destruct r; cbn [andb].
  - change (listing G p true) with (flat (grp_fuel G) G p) in *. destruct (sumMembers_spec (grp_fuel G) G p true 0 Hd) as (num & -> & _); [lia|lia|]. cbn [mbind option_bind].
    destruct (open (grp_fuel G) G p) eqn:Eo; [done|]. pose proof (closed_members _ G p Hd Eo) as Hne. rewrite bool_decide_eq_false_2 by done. cbn [orb].
    rewrite Z.add_0_l, (proj2 (Z.eqb_neq _ _)) by (destruct (flat _ G p); [done|cbn; lia]). by rewrite (catMembers_spec _ G p _ Hd) by auto.
  - destruct Hp as [g Hg]. unfold listing in *. rewrite Hg in *. change (grp_fuel G) with (S (size G)). cbn [sumMembers]. rewrite Hg. cbn [mbind option_bind].
    rewrite andb_false_r, length_app, length_fmap in *. unfold numEnts, numGroups. cbn [negb orb]. rewrite Z.add_0_l, (i32_small (Z.of_nat (length (memberTab g)))), i32_small by lia.
    rewrite <- Nat2Z.inj_add. case_bool_decide as E.
    + apply app_eq_nil in E as [E1 E2]. apply fmap_nil_inv in E2. rewrite E1, E2. done.
    + cbn [mbind option_bind]. rewrite (proj2 (Z.eqb_neq _ _)) by (intros E0; apply E, nil_length_inv; rewrite length_app, length_fmap; lia).
      apply (catMembers_direct (size G) G p g); [done|done|intros c Hc; by apply (proj2 Hac p g c)|auto].
Qed.

(** ** Requests for host groups *)

(** The groups that the names stand for, up to the first name that is none. *)
Fixpoint known_groups (G : groups) (hostgroups : list Z) (names : list string) : list Z :=
  match names with
  | [] => []
  | n :: names =>
      match find_hgroup G hostgroups n with Some (Some gp) => gp :: known_groups G hostgroups names | _ => [] end
  end.

(** [info] is what is copied for each of the groups. *)
Definition copied (G : groups) (hostgroups : list Z) (r : bool) (info : Z -> groupInfoEnt) : Prop :=
  forall gp, gp ∈ hostgroups -> copyHostGroup G gp r = Some (info gp).

Lemma copied_group G hostgroups r info gp : copied G hostgroups r info -> gp ∈ hostgroups -> exists g, G !! gp = Some g /\ gi_group (info gp) = group g.
Proof.
  intros Hc Hin. specialize (Hc gp Hin). unfold copyHostGroup in Hc. destruct (G !! gp) as [g|]; [|done]. cbn in Hc.
  destruct (getGroupMembers G gp r); [|done]. cbn in Hc. apply (inj Some) in Hc. exists g. by rewrite <- Hc.
Qed.

Lemma find_hgroup_spec G l n :
  (forall gp, gp ∈ l -> is_Some (G !! gp)) ->
  exists f, find_hgroup G l n = Some f /\
    match f with
    | Some gp => gp ∈ l /\ (group <$> G !! gp) = Some n /\ SKIP_HOST_GROUP n = false
    | None => forall gp g, gp ∈ l -> G !! gp = Some g -> group g = n -> SKIP_HOST_GROUP n = true
    end.
Proof.
  induction l as [|x l IH]; intros Hl; [exists None; split; [done|by intros ? ? []%elem_of_nil]|].
  destruct (Hl x) as [g Hg]; [by left|]. destruct IH as (f & Hf & Hspec); [intros y Hy; apply Hl; by right|]. cbn [find_hgroup]. rewrite Hg. cbn [mbind option_bind].
  assert (Hrest : (group g = n -> SKIP_HOST_GROUP n = true) -> exists f, find_hgroup G l n = Some f /\
    match f with Some gp => gp ∈ x :: l /\ (group <$> G !! gp) = Some n /\ SKIP_HOST_GROUP n = false
    | None => forall gp g, gp ∈ x :: l -> G !! gp = Some g -> group g = n -> SKIP_HOST_GROUP n = true end).
  { intros Hx. exists f. split; [done|]. destruct f as [gp|]; [destruct Hspec as (? & ? & ?); split_and!; [by right|done|done]|].
    intros y h [->|Hy]%elem_of_cons Hh E; [apply Hx; congruence|by apply (Hspec y h)]. }
  destruct (SKIP_HOST_GROUP (group g)) eqn:Es; [apply Hrest; by intros <-|]. destruct (String.eqb_spec (group g) n) as [E|E]; [|apply Hrest; by intros].
  exists (Some x). split; [done|]. rewrite Hg, <- E. split_and!; [by left|done|done].
Qed.

Lemma known_groups_names G hostgroups names : (forall gp, gp ∈ hostgroups -> is_Some (G !! gp)) ->
  exists rest, names = ((fun gp => default "" (group <$> G !! gp)) <$> known_groups G hostgroups names) ++ rest /\
    (forall gp, gp ∈ known_groups G hostgroups names -> gp ∈ hostgroups) /\
    match rest with [] => True | n :: _ => find_hgroup G hostgroups n = Some None end.
Proof.
  intros Hl. induction names as [|n names IH]; [exists []; split_and!; [done|by intros ? []%elem_of_nil|done]|]. cbn [known_groups].
  destruct (find_hgroup_spec G hostgroups n Hl) as (f & Hf & Hs). rewrite Hf. destruct f as [gp|]; [|exists (n :: names); split_and!; [done|by intros ? []%elem_of_nil|done]].
  destruct IH as (rest & E & Hin & Hr), Hs as (Hgp & Hn & _). exists rest. split_and!; [|by intros x [->|Hx]%elem_of_cons; auto|done].
  cbn. rewrite Hn. cbn. by f_equal.
Qed.

Lemma getSpecified_spec G hostgroups r info cap names out :
  copied G hostgroups r info ->
  (length out <= cap)%nat ->
  getSpecifiedHostGroup G hostgroups cap names r out =
    if (length out + length (known_groups G hostgroups names) <=? cap)%nat then Some (out ++ (info <$> known_groups G hostgroups names)) else None.
Proof.
  intros Hc. assert (Hl : forall gp, gp ∈ hostgroups -> is_Some (G !! gp)) by (intros gp Hin; destruct (copied_group G hostgroups r info gp Hc Hin) as (g & Hg & _); by exists g).
  revert out. induction names as [|n names IH]; intros out Hout.
  { cbn. rewrite app_nil_r, Nat.add_0_r. by rewrite (proj2 (Nat.leb_le _ _)). }
  cbn [getSpecifiedHostGroup known_groups]. destruct (find_hgroup_spec G hostgroups n Hl) as (f & -> & Hs). cbn [mbind option_bind]. destruct f as [gp|].
  - destruct Hs as (Hgp & _). rewrite (Hc gp Hgp). cbn [mbind option_bind length fmap list_fmap]. destruct (Nat.ltb_spec (length out) cap) as [Hlt|Hge].
    + rewrite IH by (rewrite length_app; cbn; lia). rewrite length_app. cbn [length]. replace (length out + 1 + _)%nat with (length out + S (length (known_groups G hostgroups names)))%nat by lia.
      by rewrite <- (assoc_L (++)).
    + by rewrite (proj2 (Nat.leb_gt _ _)) by lia.
  - cbn. rewrite app_nil_r, Nat.add_0_r. by rewrite (proj2 (Nat.leb_le _ _)).
Qed.

(** A request for host groups by name: the reply holds the groups named, in
    the order of the names, up to the first name that is not a host group; the
    code says whether that were all of them and at least one.  The reply array
    is written within its bounds exactly if no more names than it has entries
    are known: nothing else limits them. *)
Theorem checkGroups_host_correct G users hostgroups usergroups options names cap info :
  has options HOST_GRP = true -> has options USER_GRP = false -> has options GRP_ALL = false ->
  copied G hostgroups (has options GRP_RECURSIVE) info ->
  let known := known_groups G hostgroups names in
  checkGroups G users hostgroups usergroups options names cap =
    (if (length known <=? cap)%nat
     then Some (if bool_decide (known <> []) && bool_decide (length known = length names) then LSBE_NO_ERROR else LSBE_BAD_GROUP, info <$> known)
     else None) /\
  (exists rest, names = (gi_group <$> (info <$> known)) ++ rest /\ match rest with [] => True | n :: _ => find_hgroup G hostgroups n = Some None end).
Proof.
  intros Hh Hu Ha Hc known. split.
  - unfold checkGroups. rewrite Hh, Hu, Ha. cbn [negb andb]. rewrite (getSpecified_spec G hostgroups _ info cap names [] Hc) by (cbn; lia). fold known. cbn [length plus app].
    destruct (Nat.leb_spec (length known) cap) as [Hle|Hgt]; [|done]. cbn [mbind option_bind]. rewrite length_fmap. fold known.
    destruct known as [|x k] eqn:Ek; [done|]. rewrite bool_decide_eq_true_2 by done.
    rewrite (proj2 (Z.eqb_neq (Z.of_nat (length (x :: k))) 0)) by (cbn; lia). cbn [orb andb].
    case_bool_decide as E; [by rewrite E, Z.eqb_refl|]. by rewrite (proj2 (Z.eqb_neq (Z.of_nat (length (x :: k))) (Z.of_nat (length names)))) by lia.
  - destruct (known_groups_names G hostgroups names) as (rest & E & Hin & Hr).
    + intros gp Hgp. destruct (copied_group _ _ _ _ gp Hc Hgp) as (g & Hg & _). by exists g.
    + exists rest. split; [|done]. fold known in E, Hin. rewrite <- list_fmap_compose. rewrite E at 1. f_equal. apply list_fmap_ext. intros i gp Hgp%list_elem_of_lookup_2.
      destruct (copied_group _ _ _ _ gp Hc (Hin gp Hgp)) as (g & Hg & Hn). cbn. by rewrite Hg, Hn.
Qed.

(** ** Small groups *)

(** The group 1 of two users and the group 2 of one; 3 stands for everybody. *)
Definition sample_groups : groups :=
  list_to_map [(1, GData "staff" ["ann"; "bob"] [2] None); (2, GData "dev" ["cy"] [] None); (3, GData "any" [] [] None)].
Definition sample_rank (p : Z) : nat := if p =? 1 then 1%nat else 0%nat.

Ltac group_cases H :=
  apply elem_of_list_to_map_2 in H; cbn in H; rewrite !elem_of_cons, elem_of_nil in H;
  destruct H as [[= -> ->]|[[= -> ->]|[[= -> ->]|[]]]].

Lemma sample_acyclic : acyclic sample_groups sample_rank.
Proof.
  split; [done|]. intros p g c H Hc. group_cases H; cbn in Hc; [|by apply elem_of_nil in Hc..].
  apply list_elem_of_singleton in Hc as ->. split; [by eexists|]. cbn. lia.
Qed.

Lemma gMember_correct_witness : exists b, gMember 4 sample_groups (Some "cy") 1 = Some b /\
  (b = true <-> exists w, Some "cy" = Some w /\ 1 <> NULL /\ (member_of sample_groups w 1 \/ everybody sample_groups 1)).
Proof. refine (gMember_correct sample_groups sample_rank 1 (Some "cy") sample_acyclic _). right. by eexists. Defined.

Lemma expandGrp_correct_witness : exists tab, expandGrp sample_groups 1 "staff" = Some (tab, Z.of_nat (length tab)) /\
  tab = ["ann"; "bob"; "cy"] /\ forall w, w ∈ ["ann"; "bob"; "cy"] <-> member_of sample_groups w 1.
Proof. refine (expandGrp_correct sample_groups sample_rank 1 "staff" sample_acyclic _ _); [by eexists|done]. Defined.

Lemma getGroupMembers_correct_witness : getGroupMembers sample_groups 1 true = Some "ann bob cy ".
Proof.
  refine (getGroupMembers_correct sample_groups sample_rank 1 true sample_acyclic _ _ _ _); [by eexists| |done|].
  - intros p g H. group_cases H; done.
  - change (Forall (fun w => Z.of_nat (String.length w) <= 58) ["ann"; "bob"; "cy"]). repeat constructor; cbn; lia.
Defined.

Definition sample_info (gp : Z) : groupInfoEnt := default (GroupInfoEnt "" "" []) (copyHostGroup sample_groups gp false).

Lemma checkGroups_host_correct_witness :
  checkGroups sample_groups ∅ [1; 2] [] HOST_GRP ["dev"; "nobody"] 2 =
    Some (LSBE_BAD_GROUP, [GroupInfoEnt "dev" "cy " []]) /\
  (exists rest, ["dev"; "nobody"] = ["dev"] ++ rest /\ match rest with [] => True | n :: _ => find_hgroup sample_groups [1; 2] n = Some None end).
Proof.
  refine (checkGroups_host_correct sample_groups ∅ [1; 2] [] HOST_GRP ["dev"; "nobody"] 2 sample_info _ _ _ _); [done|done|done|].
  intros gp Hin. rewrite !elem_of_cons, elem_of_nil in Hin. destruct Hin as [->|[->|[]]]; reflexivity.
Defined.

(** A name one byte shorter than the limit leaves no room for the terminator. *)
Example long_name_overflows :
  let w := "aaaaaaaaaaaaaaaaaaaaaaaaaaaaaaaaaaaaaaaaaaaaaaaaaaaaaaaaaaa" in
  String.length w = 59%nat /\ getGroupMembers {[1 := GData "g" [w] [] None]} 1 true = None.
Proof. split; reflexivity. Qed.

(** A host group that is named more often than there are host groups. *)
Example repeated_name_overflows : checkGroups sample_groups ∅ [2] [] HOST_GRP ["dev"; "dev"] (length [2]) = None.
Proof. reflexivity. Qed.
