(* ===== verification/Account.v ===== *)
(** * The accounts of queues, users and hosts, [lsbatch/daemons/mbd.misc.c]

    mbatchd counts, for every queue, user, user group and host, the slots of
    the jobs by status, and within a queue by user and by host.  The counters
    are changed by differences whenever the status of a job changes
    ([updCounters]), when a job takes or gives up a reservation
    ([updResCounters]) and when it moves to another queue ([updSwitchJob]).

    The same functions keep the reasons why jobs are pending and the number of
    slots that are left, which are read by the scheduler and by queries; those
    are left out here, as are the messages to the log and the lists of jobs with
    reservations.  The tables of accounts are finite maps from the names of
    users and hosts. *)

From Stdlib Require Import SpecFloat.
From stdpp Require Import strings.
From S2P Require Import Prelude Lsb Float32 FloatOrd Fairshare Grp.

(** ** Data *)

Definition JOB_STAT_RESERVE : Z := 0x20000000.
Definition known_status (s : Z) : Z := MASK_STATUS (Z.ldiff s JOB_STAT_UNKWN).
Definition USER_GROUP : Z := 0x1.
Definition USER_INIT : Z := 0x4.
Definition HOST_STAT_FULL : Z := 0x10.
Definition HOST_STAT_EXCLUSIVE : Z := 0x100.
Definition HOST_STAT_REMOTE : Z := 0x80000000.

(** The counters [numJobs], [numPEND], [numRUN], [numSSUSP], [numUSUSP] and
    [numRESERVE] of a queue, a user or a host, and differences of them. *)
Record counts := Counts { c_Jobs : Z; c_PEND : Z; c_RUN : Z; c_SSUSP : Z; c_USUSP : Z; c_RESERVE : Z }.

(** [struct userAcct] and [struct hostAcct] *)
Record userAcct := UserAcct { ua_RUN : Z; ua_SSUSP : Z; ua_USUSP : Z; ua_RESERVE : Z; ua_PEND : Z; ua_NonPrmptRsv : Z }.
Record hostAcct := HostAcct { ha_RUN : Z; ha_SSUSP : Z; ha_USUSP : Z; ha_RESERVE : Z; ha_NonPrmptRsv : Z }.

(** What is read of [struct qData], [struct uData] and [struct hData].  The
    limit of jobs per processor of a user is only tested for being set; the
    ancestors are the groups of the set in the order of its iterator. *)
Record qData := QData { q_counts : counts; q_uAcct : gmap string userAcct; q_hAcct : gmap string hostAcct }.
Record uData := UData {
  u_user : string; u_counts : counts; u_PENDJobs : Z; u_limited : bool; u_flags : Z; u_gPtr : list Z;
  u_hAcct : gmap string hostAcct; u_ancestors : list Z }.
Record hData := HData {
  h_host : string; h_counts : counts; h_maxJobs : Z; h_uJobLimit : Z; h_status : Z; h_uAcct : gmap string userAcct }.

(** A job: its status, hosts, queue and user, the number of slots it asks for,
    and the fields the fairshare functions use. *)
Record jobData := JData { j_status : Z; j_hPtr : list Z; j_numReq : Z; j_qPtr : Z; j_uPtr : Z; j_fs : fsJob }.

(** The queues, users, hosts and fairshare accounts; the user groups, and the
    records of users by name. *)
Record acctSt := AcctSt { qs : gmap Z qData; us : gmap Z uData; hs : gmap Z hData; fsTree : accounts }.
Record grpEnv := GrpEnv { ge_groups : groups; ge_usergroups : list Z; ge_uDataList : gmap string Z }.

Definition set_counts (c : counts) (q : qData) : qData := QData c (q_uAcct q) (q_hAcct q).
Definition set_uAcct (t : gmap string userAcct) (q : qData) : qData := QData (q_counts q) t (q_hAcct q).
Definition set_hAcct (t : gmap string hostAcct) (q : qData) : qData := QData (q_counts q) (q_uAcct q) t.
Definition set_uflags (f : Z) (u : uData) : uData :=
  UData (u_user u) (u_counts u) (u_PENDJobs u) (u_limited u) f (u_gPtr u) (u_hAcct u) (u_ancestors u).
Definition set_gPtr (l : list Z) (u : uData) : uData :=
  UData (u_user u) (u_counts u) (u_PENDJobs u) (u_limited u) (u_flags u) l (u_hAcct u) (u_ancestors u).
Definition set_status (st : Z) (j : jobData) : jobData := JData st (j_hPtr j) (j_numReq j) (j_qPtr j) (j_uPtr j) (j_fs j).
Definition set_qPtr (q : Z) (j : jobData) : jobData := JData (j_status j) (j_hPtr j) (j_numReq j) q (j_uPtr j) (j_fs j).
Definition set_fs (f : fsJob) (j : jobData) : jobData := JData (j_status j) (j_hPtr j) (j_numReq j) (j_qPtr j) (j_uPtr j) f.
Definition with_qs (m : gmap Z qData) (s : acctSt) : acctSt := AcctSt m (us s) (hs s) (fsTree s).
Definition with_us (m : gmap Z uData) (s : acctSt) : acctSt := AcctSt (qs s) m (hs s) (fsTree s).
Definition with_hs (m : gmap Z hData) (s : acctSt) : acctSt := AcctSt (qs s) (us s) m (fsTree s).
Definition with_fs (m : accounts) (s : acctSt) : acctSt := AcctSt (qs s) (us s) (hs s) m.

Definition num (j : jobData) : Z := numHostPtr (j_fs j).

(** ** Counters *)

(** A counter never becomes negative. *)
Definition addValue (cur n : Z) : Z := let v := i32 (cur + n) in if 0 <=? v then v else 0.
Definition addOneAbs (cur n : Z) : Z := if 0 <? n then i32 (cur + 1) else if n <? 0 then i32 (cur - 1) else cur.

Definition addCounts (d c : counts) : counts :=
  Counts (addValue (c_Jobs c) (c_Jobs d)) (addValue (c_PEND c) (c_PEND d)) (addValue (c_RUN c) (c_RUN d))
    (addValue (c_SSUSP c) (c_SSUSP d)) (addValue (c_USUSP c) (c_USUSP d)) (addValue (c_RESERVE c) (c_RESERVE d)).

(** None of the counters of started jobs changes. *)
Definition no_start (d : counts) : bool := (c_RUN d =? 0) && (c_SSUSP d =? 0) && (c_USUSP d =? 0) && (c_RESERVE d =? 0).

(** ** Accounts *)

Definition addUAcct (d : counts) : userAcct := UserAcct (c_RUN d) (c_SSUSP d) (c_USUSP d) (c_RESERVE d) (c_PEND d) 0.

Definition updUAcct (j : jobData) (user : string) (d : counts) (tab : gmap string userAcct) : gmap string userAcct :=
  match tab !! user with
  | Some a =>
      <[user := UserAcct (addValue (ua_RUN a) (c_RUN d)) (addValue (ua_SSUSP a) (c_SSUSP d)) (addValue (ua_USUSP a) (c_USUSP d))
                  (addValue (ua_RESERVE a) (c_RESERVE d)) (addValue (ua_PEND a) (c_PEND d))
                  (if negb (c_RESERVE d =? 0) && negb (has (j_status j) JOB_STAT_PEND)
                   then addValue (ua_NonPrmptRsv a) (c_RESERVE d) else ua_NonPrmptRsv a)]> tab
  | None => if negb (no_start d) || negb (c_PEND d =? 0) then <[user := addUAcct d]> tab else tab
  end.

Definition addHAcct (d : counts) : hostAcct :=
  HostAcct (addOneAbs 0 (c_RUN d)) (addOneAbs 0 (c_SSUSP d)) (addOneAbs 0 (c_USUSP d)) (addOneAbs 0 (c_RESERVE d)) 0.

(** One host of [updHAcct]. *)
Definition upd_host_acct (j : jobData) (h : hData) (d : counts) (tab : gmap string hostAcct) : gmap string hostAcct :=
  match tab !! h_host h with
  | Some a =>
      <[h_host h := HostAcct (addOneAbs (ha_RUN a) (c_RUN d)) (addOneAbs (ha_SSUSP a) (c_SSUSP d)) (addOneAbs (ha_USUSP a) (c_USUSP d))
                      (addOneAbs (ha_RESERVE a) (c_RESERVE d))
                      (if negb (c_RESERVE d =? 0) && negb (has (j_status j) JOB_STAT_PEND)
                       then addOneAbs (ha_NonPrmptRsv a) (c_RESERVE d) else ha_NonPrmptRsv a)]> tab
  | None =>
      if (0 <? c_RUN d) || (0 <? c_SSUSP d) || (0 <? c_USUSP d) || (0 <? c_RESERVE d) then <[h_host h := addHAcct d]> tab else tab
  end.

Fixpoint updHAcct (hosts : gmap Z hData) (j : jobData) (l : list Z) (d : counts) (tab : gmap string hostAcct) : option (gmap string hostAcct) :=
  match l with
  | [] => Some tab
  | p :: l =>
      h ← hosts !! p;
      updHAcct hosts j l d (if has (h_status h) HOST_STAT_REMOTE then tab else upd_host_acct j h d tab)
  end.

(** ** Queues *)

(** The accounts of the ancestors of a user. *)
Fixpoint upd_ancestors (users : gmap Z uData) (j : jobData) (l : list Z) (d : counts) (tab : gmap string userAcct) : option (gmap string userAcct) :=
  match l with
  | [] => Some tab
  | g :: l => u ← users !! g; upd_ancestors users j l d (updUAcct j (u_user u) d tab)
  end.

Definition updQaccount (j : jobData) (d : counts) (s : acctSt) : option acctSt :=
  q ← qs s !! j_qPtr j;
  u ← us s !! j_uPtr j;
  tab ← upd_ancestors (us s) j (u_ancestors u) d (updUAcct j (u_user u) d (q_uAcct q));
  htab ← (if no_start d && (c_PEND d =? 0) then Some (q_hAcct q) else updHAcct (hs s) j (j_hPtr j) d (q_hAcct q));
  Some (with_qs (<[j_qPtr j := QData (addCounts d (q_counts q)) tab htab]> (qs s)) s).

(** ** Users *)

(** A division by a job that asks for no slot fails. *)
Definition updUserData1 (s : acctSt) (j : jobData) (p : Z) (d : counts) : option acctSt :=
  u ← us s !! p;
  if j_numReq j =? 0 then None else
  let countPENDJobs := Z.quot (c_PEND d) (j_numReq j) in
  htab ← (if negb (no_start d) && u_limited u then updHAcct (hs s) j (j_hPtr j) d (u_hAcct u) else Some (u_hAcct u));
  Some (with_us (<[p := UData (u_user u) (addCounts d (u_counts u)) (addValue (u_PENDJobs u) countPENDJobs) (u_limited u)
                          (u_flags u) (u_gPtr u) htab (u_ancestors u)]> (us s)) s).

(** The groups a user is a member of, as [updUserData] finds them once. *)
Fixpoint member_groups (E : grpEnv) (name : string) (l : list Z) : option (list Z) :=
  match l with
  | [] => Some []
  | gp :: l =>
      b ← gMember (grp_fuel (ge_groups E)) (ge_groups E) (Some name) gp;
      r ← member_groups E name l;
      if b : bool then g ← ge_groups E !! gp; u ← ge_uDataList E !! group g; Some (u :: r) else Some r
  end.

Fixpoint upd_groups (s : acctSt) (j : jobData) (l : list Z) (d : counts) : option acctSt :=
  match l with
  | [] => Some s
  | g :: l =>
      if g =? NULL then upd_groups s j l d else
      u ← us s !! g;
      s ← updUserData1 (with_us (<[g := set_uflags (Z.lor (u_flags u) USER_GROUP) u]> (us s)) s) j g d;
      upd_groups s j l d
  end.

Definition updUserData (E : grpEnv) (j : jobData) (d : counts) (s : acctSt) : option acctSt :=
  u ← us s !! j_uPtr j;
  s ← updUserData1 (with_us (<[j_uPtr j := set_uflags (Z.ldiff (u_flags u) USER_GROUP) u]> (us s)) s) j (j_uPtr j) d;
  match ge_usergroups E with
  | [] => Some s
  | l =>
      u ← us s !! j_uPtr j;
      u ← (if has (u_flags u) USER_INIT then Some u
           else gs ← member_groups E (userName (j_fs j)) l; Some (set_uflags (Z.lor (u_flags u) USER_INIT) (set_gPtr gs u)));
      upd_groups (with_us (<[j_uPtr j := u]> (us s)) s) j (u_gPtr u) d
  end.

(** ** Hosts *)

(** A host that is full or free again. *)
Definition host_full (h : hData) : Z :=
  let st := if h_maxJobs h <=? c_Jobs (h_counts h) then Z.lor (h_status h) HOST_STAT_FULL else Z.ldiff (h_status h) HOST_STAT_FULL in
  if c_Jobs (h_counts h) <=? 0 then Z.ldiff st HOST_STAT_EXCLUSIVE else st.

Definition upd_host (j : jobData) (user : string) (d : counts) (h : hData) : hData :=
  let tab := if (h_uJobLimit h <? INFINIT_INT) && negb (no_start d)
             then updUAcct j user (Counts 0 0 (c_RUN d) (c_SSUSP d) (c_USUSP d) (c_RESERVE d)) (h_uAcct h) else h_uAcct h in
  let c := h_counts h in
  let c := Counts (addValue (c_Jobs c) (c_Jobs d)) (c_PEND c) (addValue (c_RUN c) (c_RUN d)) (addValue (c_SSUSP c) (c_SSUSP d))
             (addValue (c_USUSP c) (c_USUSP d)) (addValue (c_RESERVE c) (c_RESERVE d)) in
  let h := HData (h_host h) c (h_maxJobs h) (h_uJobLimit h) (h_status h) tab in
  HData (h_host h) c (h_maxJobs h) (h_uJobLimit h) (host_full h) tab.

Fixpoint upd_hosts (hosts : gmap Z hData) (j : jobData) (user : string) (l : list Z) (d : counts) : option (gmap Z hData) :=
  match l with
  | [] => Some hosts
  | p :: l =>
      if p =? NULL then Some hosts else
      h ← hosts !! p;
      upd_hosts (if has (h_status h) HOST_STAT_REMOTE then hosts else <[p := upd_host j user d h]> hosts) j user l d
  end.

(** The differences are per host. *)
Definition updHostData (j : jobData) (d : counts) (s : acctSt) : option acctSt :=
  u ← us s !! j_uPtr j;
  m ← upd_hosts (hs s) j (u_user u) (j_hPtr j) d;
  Some (with_hs m s).

(** ** Changes of status *)

Section Changes.
(** The user groups, and the factors of the queues for their fairshare trees. *)
Context (E : grpEnv) (fsE : Z -> fsenv).

(** Queue, user and hosts, in the two orders in which they are brought up to
    date; [d] counts slots and [h] jobs per host. *)
Definition upd_quh (j : jobData) (d h : counts) (s : acctSt) : option acctSt :=
  s ← updQaccount j d s; s ← updUserData E j d s; updHostData j h s.
Definition upd_qhu (j : jobData) (d h : counts) (s : acctSt) : option acctSt :=
  s ← updQaccount j d s; s ← updHostData j h s; updUserData E j d s.

(** A job that has ended leaves its fairshare account. *)
Definition leave_tree (logit : bool) (j : jobData) (s : acctSt) : option (jobData * acctSt) :=
  if logit then
    m ← accumHistCpuTime (fsE (j_qPtr j)) (fsTree s) (j_fs j);
    '(f, m) ← detachedJobFromFSTree (fsE (j_qPtr j)) m (j_fs j);
    Some (set_fs f j, with_fs m s)
  else Some (j, s).

Definition to_run (j : jobData) (old : Z) (s : acctSt) : option acctSt :=
  let n := num j in let r := j_numReq j in
  if has old JOB_STAT_PEND || has old JOB_STAT_PSUSP then upd_quh j (Counts (i32 (- r + n)) (- r) n 0 0 0) (Counts 1 0 1 0 0 0) s
  else if has old JOB_STAT_SSUSP then upd_quh j (Counts 0 0 n (- n) 0 0) (Counts 0 0 1 (-1) 0 0) s
  else if has old JOB_STAT_USUSP then upd_quh j (Counts 0 0 n 0 (- n) 0) (Counts 0 0 1 0 (-1) 0) s
  else Some s.

Definition to_ssusp (j : jobData) (old : Z) (s : acctSt) : option acctSt :=
  let n := num j in let r := j_numReq j in
  if has old JOB_STAT_RUN then upd_quh j (Counts 0 0 (- n) n 0 0) (Counts 0 0 (-1) 1 0 0) s
  else if has old JOB_STAT_USUSP then upd_quh j (Counts 0 0 0 n (- n) 0) (Counts 0 0 0 1 (-1) 0) s
  else if has old JOB_STAT_PEND then upd_quh j (Counts (i32 (- r + n)) (- r) 0 n 0 0) (Counts 1 0 0 1 0 0) s
  else Some s.

Definition to_ususp (j : jobData) (old : Z) (s : acctSt) : option acctSt :=
  let n := num j in let r := j_numReq j in
  if has old JOB_STAT_RUN then upd_quh j (Counts 0 0 (- n) 0 n 0) (Counts 0 0 (-1) 0 1 0) s
  else if has old JOB_STAT_SSUSP then upd_quh j (Counts 0 0 0 (- n) n 0) (Counts 0 0 0 (-1) 1 0) s
  else if has old JOB_STAT_PEND then upd_quh j (Counts (i32 (- r + n)) (- r) 0 0 n 0) (Counts 1 0 0 0 1 0) s
  else Some s.

Definition to_end (j : jobData) (old : Z) (s : acctSt) : option acctSt :=
  let n := num j in let r := j_numReq j in
  if has old JOB_STAT_WAIT then upd_qhu j (Counts (- n) 0 (- n) 0 0 0) (Counts (-1) 0 (-1) 0 0 0) s
  else if has old JOB_STAT_RUN then upd_qhu j (Counts (- n) 0 (- n) 0 0 0) (Counts (-1) 0 (-1) 0 0 0) s
  else if has old JOB_STAT_USUSP then upd_qhu j (Counts (- n) 0 0 0 (- n) 0) (Counts (-1) 0 0 0 (-1) 0) s
  else if has old JOB_STAT_SSUSP then upd_qhu j (Counts (- n) 0 0 (- n) 0 0) (Counts (-1) 0 0 (-1) 0 0) s
  else if IS_PEND old then s ← updQaccount j (Counts (- r) (- r) 0 0 0 0) s; updUserData E j (Counts (- r) (- r) 0 0 0 0) s
  else Some s.

Definition to_pend (j : jobData) (old : Z) (s : acctSt) : option acctSt :=
  let n := num j in let r := j_numReq j in
  if has old JOB_STAT_RUN then upd_qhu j (Counts (i32 (r - n)) r (- n) 0 0 0) (Counts (-1) 0 (-1) 0 0 0) s
  else if has old JOB_STAT_USUSP then upd_qhu j (Counts (i32 (- n + r)) r 0 0 (- n) 0) (Counts (-1) 0 0 0 (-1) 0) s
  else if has old JOB_STAT_SSUSP then upd_qhu j (Counts (i32 (- n + r)) r 0 (- n) 0 0) (Counts (-1) 0 0 (-1) 0 0) s
  else Some s.

(** [updCounters] of a job that has its new status; [logit] is
    [eventTime == LOG_IT].  The cases that only write to the log, among them
    those of [JOB_STAT_RUN | JOB_STAT_WAIT], change nothing. *)
Definition updCounters (j : jobData) (oldStatus : Z) (logit : bool) (s : acctSt) : option (jobData * acctSt) :=
  if IS_FINISH oldStatus then Some (j, s)
  else if known_status (j_status j) =? known_status oldStatus then Some (j, s)
  else if IS_PEND (j_status j) && IS_PEND oldStatus then Some (j, s)
  else
    let st := known_status (j_status j) in
    if st =? JOB_STAT_RUN then s ← to_run j oldStatus s; Some (j, s)
    else if st =? JOB_STAT_SSUSP then s ← to_ssusp j oldStatus s; Some (j, s)
    else if st =? JOB_STAT_USUSP then s ← to_ususp j oldStatus s; Some (j, s)
    else if (st =? JOB_STAT_EXIT) || (st =? JOB_STAT_DONE) then
      '(j, s) ← leave_tree logit j s; s ← to_end j oldStatus s; Some (j, s)
    else if st =? JOB_STAT_PEND then s ← to_pend j oldStatus s; Some (j, s)
    else Some (j, s).

(** ** Reservations *)

(** [updResCounters], before the job takes the status [new]. *)
Definition updResCounters (j : jobData) (new : Z) (s : acctSt) : option acctSt :=
  let n := num j in let r := j_numReq j in
  let res := has (j_status j) JOB_STAT_RESERVE in let res' := has new JOB_STAT_RESERVE in
  if negb (IS_PEND (j_status j)) && negb (IS_START (j_status j)) then Some s else
  let st := known_status (j_status j) in
  if st =? JOB_STAT_SSUSP then
    if negb res && res' && IS_START new then upd_quh j (Counts 0 0 0 (- n) 0 n) (Counts 0 0 0 (-1) 0 1) s
    else if res && negb res' && (IS_START new || has new JOB_STAT_PEND) then upd_quh j (Counts 0 0 0 n 0 (- n)) (Counts 0 0 0 1 0 (-1)) s
    else if res && IS_FINISH new then upd_quh j (Counts (- n) 0 0 0 0 (- n)) (Counts (-1) 0 0 0 0 (-1)) s
    else Some s
  else if st =? JOB_STAT_USUSP then
    if negb res && res' && IS_START new then upd_quh j (Counts 0 0 0 0 (- n) n) (Counts 0 0 0 0 (-1) 1) s
    else if res && negb res' && IS_START new then upd_quh j (Counts 0 0 0 0 n (- n)) (Counts 0 0 0 0 1 (-1)) s
    else if res && IS_FINISH new then upd_quh j (Counts (- n) 0 0 0 0 (- n)) (Counts (-1) 0 0 0 0 (-1)) s
    else Some s
  else if (st =? JOB_STAT_PEND) || (st =? JOB_STAT_PSUSP) then
    if res && negb res' && IS_PEND new then upd_qhu j (Counts 0 n 0 0 0 (- n)) (Counts (-1) 0 0 0 0 (-1)) s
    else if negb res && res' && IS_PEND new then upd_qhu j (Counts 0 (- n) 0 0 0 n) (Counts 1 0 0 0 0 1) s
    else if IS_PEND (j_status j) && res && IS_FINISH new then upd_qhu j (Counts (- r) (i32 (- r + n)) 0 0 0 (- n)) (Counts (-1) 0 0 0 0 (-1)) s
    else Some s
  else Some s.

(** ** Moving to another queue *)

(** Leaving the queue [qfp] and entering [qtp]; nothing is counted while the
    event log is replayed. *)
Definition move_job (replay : bool) (j : jobData) (qfp qtp : Z) (out into : jobData -> acctSt -> option acctSt) (s : acctSt)
    : option (jobData * acctSt) :=
  let j := set_qPtr qfp j in
  s ← (if replay then Some s else out j s);
  let j := set_qPtr qtp j in
  s ← (if replay then Some s else into j s);
  Some (j, s).

Definition switch_counts (replay : bool) (j : jobData) (qfp qtp oldNumReq : Z) (s : acctSt) : option (jobData * acctSt) :=
  let n := num j in let r := j_numReq j in
  let st := MASK_STATUS (j_status j) in
  let pend k j s := s ← updQaccount j (Counts k k 0 0 0 0) s; updUserData E j (Counts k k 0 0 0 0) s in
  if (st =? JOB_STAT_PEND) || (st =? JOB_STAT_PSUSP) then move_job replay j qfp qtp (pend (- oldNumReq)) (pend r) s
  else if (st =? JOB_STAT_RUN) || (st =? Z.lor JOB_STAT_RUN JOB_STAT_UNKWN) then
    move_job replay j qfp qtp (fun j => upd_qhu j (Counts (- n) 0 (- n) 0 0 0) (Counts (-1) 0 (-1) 0 0 0))
      (fun j => upd_qhu j (Counts n 0 n 0 0 0) (Counts 1 0 1 0 0 0)) s
  else if (st =? JOB_STAT_SSUSP) || (st =? Z.lor JOB_STAT_SSUSP JOB_STAT_UNKWN) then
    move_job replay j qfp qtp (fun j => upd_qhu j (Counts (- n) 0 0 (- n) 0 0) (Counts (-1) 0 0 (-1) 0 0))
      (fun j => upd_qhu j (Counts n 0 0 n 0 0) (Counts 1 0 0 1 0 0)) s
  else if (st =? JOB_STAT_USUSP) || (st =? Z.lor JOB_STAT_USUSP JOB_STAT_UNKWN) then
    move_job replay j qfp qtp (fun j => upd_qhu j (Counts (- n) 0 0 0 (- n) 0) (Counts (-1) 0 0 0 (-1) 0))
      (fun j => upd_qhu j (Counts n 0 0 0 n 0) (Counts 1 0 0 0 1 0)) s
  else Some (j, s).

Definition updSwitchJob (replay : bool) (j : jobData) (qfp qtp oldNumReq : Z) (s : acctSt) : option (jobData * acctSt) :=
  let reserved := has (j_status j) JOB_STAT_RESERVE in
  '(j, s) ← (if reserved then
               let j := set_qPtr qfp j in
               s ← updResCounters j (Z.ldiff (j_status j) JOB_STAT_RESERVE) s;
               Some (set_status (Z.ldiff (j_status j) JOB_STAT_RESERVE) (set_qPtr qtp j), s)
             else Some (j, s));
  '(j, s) ← switch_counts replay j qfp qtp oldNumReq s;
  if reserved then
    s ← updResCounters j (Z.lor (j_status j) JOB_STAT_RESERVE) s;
    Some (set_status (Z.lor (j_status j) JOB_STAT_RESERVE) j, s)
  else Some (j, s).

End Changes.
