(* ===== verification/AccountOk.v ===== *)
(** * Accounts: agreement with the jobs

    What the counters should be: sums over all jobs of what a job counts for in
    its status.  The functions that change them by differences keep them so, on
    every transition they provide for. *)

From Stdlib Require Import SpecFloat.
From stdpp Require Import strings.
From S2P Require Import Prelude Lsb Float32 FloatOrd Fairshare Grp Account.

(** ** Sums of counters *)

Definition czero : counts := Counts 0 0 0 0 0 0.
Definition cplus (a b : counts) : counts :=
  Counts (c_Jobs a + c_Jobs b) (c_PEND a + c_PEND b) (c_RUN a + c_RUN b) (c_SSUSP a + c_SSUSP b) (c_USUSP a + c_USUSP b) (c_RESERVE a + c_RESERVE b).
Definition cscale (k : Z) (a : counts) : counts :=
  Counts (k * c_Jobs a) (k * c_PEND a) (k * c_RUN a) (k * c_SSUSP a) (k * c_USUSP a) (k * c_RESERVE a).
Definition cminus (a b : counts) : counts := cplus a (cscale (-1) b).

(** A property of every counter. *)
Definition call (P : Z -> Prop) (a : counts) : Prop :=
  P (c_Jobs a) /\ P (c_PEND a) /\ P (c_RUN a) /\ P (c_SSUSP a) /\ P (c_USUSP a) /\ P (c_RESERVE a).

Lemma counts_eq a b : c_Jobs a = c_Jobs b -> c_PEND a = c_PEND b -> c_RUN a = c_RUN b -> c_SSUSP a = c_SSUSP b -> c_USUSP a = c_USUSP b ->
  c_RESERVE a = c_RESERVE b -> a = b.
Proof. destruct a, b. cbn. by intros -> -> -> -> -> ->. Qed.

(** Equalities of counters are linear in each of them. *)
Ltac counts_lia := apply counts_eq; cbn; lia.

Lemma cplus_comm a b : cplus a b = cplus b a.
Proof. counts_lia. Qed.
Lemma cplus_assoc a b c : cplus a (cplus b c) = cplus (cplus a b) c.
Proof. counts_lia. Qed.
Lemma cplus_zero a : cplus a czero = a.
Proof. counts_lia. Qed.

Definition in_range (n : Z) : Prop := 0 <= n < 2 ^ 31.

(** Counters that stay in range are just added to. *)
Lemma addValue_exact a b : in_range (a + b) -> addValue a b = a + b.
Proof. unfold in_range, addValue. intros H. rewrite i32_small by lia. by rewrite (proj2 (Z.leb_le _ _)) by lia. Qed.
Lemma addCounts_exact d c : call in_range (cplus c d) -> addCounts d c = cplus c d.
Proof. intros (H1 & H2 & H3 & H4 & H5 & H6). unfold addCounts. cbn in *. by rewrite !addValue_exact. Qed.

(** The sum of a weight over the jobs. *)
Abbreviation jobs := (gmap Z jobData).
Definition csum (w : jobData -> counts) (J : jobs) : counts := foldr (fun p => cplus (w p.2)) czero (map_to_list J).

Lemma cfold_perm {A} (w : A -> counts) l l' : l ≡ₚ l' -> foldr (fun p => cplus (w p)) czero l = foldr (fun p => cplus (w p)) czero l'.
Proof. induction 1 as [|x l l' _ IH|x y l|l1 l2 l3 _ IH1 _ IH2]; cbn [foldr]; [done|by rewrite IH|counts_lia|congruence]. Qed.

Lemma csum_new w J k j : J !! k = None -> csum w (<[k := j]> J) = cplus (w j) (csum w J).
Proof. intros Hk. unfold csum. by rewrite (cfold_perm (fun p => w p.2) _ _ (map_to_list_insert J k j Hk)). Qed.

Lemma csum_split w J k j : J !! k = Some j -> csum w J = cplus (w j) (csum w (delete k J)).
Proof. intros Hk. rewrite <- (insert_delete_id J k j Hk) at 1. apply csum_new, lookup_delete_eq. Qed.

Lemma csum_change w J k j j' : J !! k = Some j -> csum w (<[k := j']> J) = cplus (csum w J) (cminus (w j') (w j)).
Proof.
  intros Hk. rewrite (csum_split w J k j Hk), <- insert_delete_eq, csum_new by apply lookup_delete_eq. unfold cminus. counts_lia.
Qed.

Lemma csum_ext w w' J : (forall k j, J !! k = Some j -> w j = w' j) -> csum w J = csum w' J.
Proof.
  induction J as [|k j J Hk IH] using map_ind; intros Hw; [done|]. rewrite !csum_new by done. f_equal; [apply (Hw k), lookup_insert_eq|].
  apply IH. intros q x Hq. apply (Hw q). rewrite lookup_insert_ne; [done|]. by intros ->; rewrite Hk in Hq.
Qed.

(** Weights between zero and the size of a job give sums in range. *)
Definition jsize (j : jobData) : Z := num j + j_numReq j.
Definition small (J : jobs) : Prop := zsum ((fun p => jsize p.2) <$> map_to_list J) < 2 ^ 31.

Lemma csum_range w J :
  (forall k j, J !! k = Some j -> call (fun n => 0 <= n <= jsize j) (w j)) -> small J -> call in_range (csum w J).
Proof.
  intros Hw Hs. assert (Hb : call (fun n => 0 <= n <= zsum ((fun p => jsize p.2) <$> map_to_list J)) (csum w J)); [|unfold small, call, in_range in *; lia].
  unfold csum. assert (Hl : forall p, p ∈ map_to_list J -> call (fun n => 0 <= n <= jsize p.2) (w p.2)) by (intros [k j] Hp%elem_of_map_to_list; by apply (Hw k)).
  clear Hw Hs. induction (map_to_list J) as [|p l IH]; [unfold call; cbn; lia|]. cbn [foldr fmap list_fmap]. rewrite zsum_cons.
  specialize (Hl p (list_elem_of_here _ _)) as Hp. specialize (IH (fun q Hq => Hl q (list_elem_of_further _ _ _ Hq))).
  unfold call in *. cbn [cplus c_Jobs c_PEND c_RUN c_SSUSP c_USUSP c_RESERVE]. lia.
Qed.

(** ** What a job counts for *)

Inductive jkind := KPend | KRun | KSSusp | KUSusp | KEnd | KOther.
#[global] Instance jkind_eq_dec : EqDecision jkind.
Proof. solve_decision. Defined.

Definition kind (st : Z) : jkind :=
  let k := known_status st in
  if (k =? JOB_STAT_PEND) || (k =? JOB_STAT_PSUSP) then KPend
  else if k =? JOB_STAT_RUN then KRun
  else if k =? JOB_STAT_SSUSP then KSSusp
  else if k =? JOB_STAT_USUSP then KUSusp
  else if (k =? JOB_STAT_EXIT) || (k =? JOB_STAT_DONE) then KEnd
  else KOther.

(** The slots a job counts for in its queue and for its user, and what it counts
    for on each of its hosts.  A reservation counts its slots apart. *)
Definition kind_weight (k : jkind) (res : bool) (n r : Z) : counts :=
  match k, res with
  | KPend, false => Counts r r 0 0 0 0
  | KPend, true => Counts r (r - n) 0 0 0 n
  | KRun, _ => Counts n 0 n 0 0 0
  | KSSusp, false => Counts n 0 0 n 0 0
  | KUSusp, false => Counts n 0 0 0 n 0
  | KSSusp, true | KUSusp, true => Counts n 0 0 0 0 n
  | _, _ => czero
  end.
Definition host_weight (k : jkind) (res : bool) : counts :=
  match k, res with
  | KPend, false => czero
  | KPend, true => Counts 1 0 0 0 0 1
  | _, _ => kind_weight k res 1 1
  end.

Definition weight (j : jobData) : counts := kind_weight (kind (j_status j)) (has (j_status j) JOB_STAT_RESERVE) (num j) (j_numReq j).
Definition hweight (j : jobData) : counts := host_weight (kind (j_status j)) (has (j_status j) JOB_STAT_RESERVE).

Definition cif (b : bool) (c : counts) : counts := if b then c else czero.
Definition occ (h : Z) (j : jobData) : Z := countb (fun x => x =? h) (j_hPtr j).

(** The groups whose accounts in a queue a user counts for, by name, and the
    records of groups it counts for. *)
Definition acct_names (s : acctSt) (j : jobData) : list string :=
  match us s !! j_uPtr j with
  | Some u => u_user u :: omap (fun g => u_user <$> us s !! g) (u_ancestors u)
  | None => []
  end.
Definition user_recs (s : acctSt) (j : jobData) : list Z :=
  match us s !! j_uPtr j with Some u => j_uPtr j :: u_gPtr u | None => [] end.

Definition wq (q : Z) (j : jobData) : counts := cif (j_qPtr j =? q) (weight j).
Definition wqu (s : acctSt) (q : Z) (name : string) (j : jobData) : counts :=
  cif ((j_qPtr j =? q) && bool_decide (name ∈ acct_names s j)) (weight j).
Definition wu (s : acctSt) (u : Z) (j : jobData) : counts := cif (bool_decide (u ∈ user_recs s j)) (weight j).
Definition wh (h : Z) (j : jobData) : counts := cscale (occ h j) (hweight j).

(** An account that is missing counts nothing. *)
Definition acct_counts (o : option userAcct) (c : counts) : Prop :=
  match o with
  | Some a => ua_RUN a = c_RUN c /\ ua_SSUSP a = c_SSUSP c /\ ua_USUSP a = c_USUSP c /\ ua_RESERVE a = c_RESERVE c /\ ua_PEND a = c_PEND c
  | None => c_RUN c = 0 /\ c_SSUSP c = 0 /\ c_USUSP c = 0 /\ c_RESERVE c = 0 /\ c_PEND c = 0
  end.

Record agrees (J : jobs) (s : acctSt) : Prop := {
  ag_queue : forall q Q, qs s !! q = Some Q -> q_counts Q = csum (wq q) J;
  ag_acct : forall q Q name, qs s !! q = Some Q -> acct_counts (q_uAcct Q !! name) (csum (wqu s q name) J);
  ag_user : forall u U, us s !! u = Some U -> u_counts U = csum (wu s u) J;
  ag_host : forall h H, hs s !! h = Some H -> h_counts H = csum (wh h) J }.

(** What is expected of a job: its queue, user, groups and hosts are known and
    the hosts local, its groups have been looked up, and it holds as many hosts
    as it says. *)
Record job_ok (s : acctSt) (j : jobData) : Prop := {
  jo_queue : is_Some (qs s !! j_qPtr j);
  jo_user : exists u, us s !! j_uPtr j = Some u /\ has (u_flags u) USER_INIT = true /\
    Forall (fun g => is_Some (us s !! g)) (u_ancestors u) /\ Forall (fun g => g <> NULL /\ is_Some (us s !! g)) (u_gPtr u);
  jo_names : NoDup (acct_names s j);
  jo_recs : NoDup (user_recs s j);
  jo_hosts : Forall (fun h => h <> NULL /\ exists H, hs s !! h = Some H /\ has (h_status H) HOST_STAT_REMOTE = false) (j_hPtr j);
  jo_num : num j = Z.of_nat (length (j_hPtr j));
  jo_req : 0 < j_numReq j < 2 ^ 31;
  jo_res : kind (j_status j) = KPend -> has (j_status j) JOB_STAT_RESERVE = true -> num j <= j_numReq j }.

Definition jobs_ok (s : acctSt) (J : jobs) : Prop := forall k j, J !! k = Some j -> job_ok s j.

(** ** What the updates leave alone *)

Definition same_user (a b : uData) : Prop :=
  u_user b = u_user a /\ u_gPtr b = u_gPtr a /\ u_ancestors b = u_ancestors a /\ has (u_flags b) USER_INIT = has (u_flags a) USER_INIT.
Definition same_host (a b : hData) : Prop := has (h_status b) HOST_STAT_REMOTE = has (h_status a) HOST_STAT_REMOTE.

Record static (s s' : acctSt) : Prop := {
  st_queue : forall q, is_Some (qs s !! q) <-> is_Some (qs s' !! q);
  st_user : forall u, option_Forall2 same_user (us s !! u) (us s' !! u);
  st_host : forall h, option_Forall2 same_host (hs s !! h) (hs s' !! h) }.

Lemma same_user_refl a : same_user a a.
Proof. done. Qed.
Lemma same_user_trans a b c : same_user a b -> same_user b c -> same_user a c.
Proof. intros (?&?&?&?) (?&?&?&?). unfold same_user. split_and!; congruence. Qed.
#[local] Hint Resolve same_user_refl : core.

#[global] Instance static_preorder : PreOrder static.
Proof.
  split.
  - intros s. split; [done|intros u; destruct (us s !! u); by constructor|intros h; destruct (hs s !! h); by constructor].
  - intros s1 s2 s3 [Q1 U1 H1] [Q2 U2 H2]. split.
    + intros q. by rewrite Q1.
    + intros u. specialize (U1 u). specialize (U2 u). destruct U1 as [a b Hab|]; inversion U2 as [b' c Hbc|]; constructor. by eapply same_user_trans.
    + intros h. specialize (H1 h). specialize (H2 h). destruct H1 as [a b Hab|]; inversion H2 as [b' c Hbc|]; constructor. unfold same_host in *. congruence.
Qed.

Lemma static_user s s' u U : static s s' -> us s !! u = Some U -> exists U', us s' !! u = Some U' /\ same_user U U'.
Proof. intros [_ Hu _] HU. specialize (Hu u). rewrite HU in Hu. inversion Hu; subst. by eexists. Qed.
Lemma static_user_inv s s' u U' : static s s' -> us s' !! u = Some U' -> exists U, us s !! u = Some U /\ same_user U U'.
Proof. intros [_ Hu _] HU. specialize (Hu u). rewrite HU in Hu. inversion Hu; subst. by eexists. Qed.

Lemma static_name s s' g : static s s' -> (u_user <$> us s' !! g) = (u_user <$> us s !! g).
Proof. intros [_ Hu _]. specialize (Hu g). inversion Hu as [a b (E & _)|]; [cbn; by rewrite E|done]. Qed.

Lemma static_omap s s' (l : list Z) : static s s' -> omap (fun g => u_user <$> us s' !! g) l = omap (fun g => u_user <$> us s !! g) l.
Proof. intros Hs. induction l as [|g l IH]; [done|]. cbn [omap list_omap]. rewrite (static_name s s' g Hs). destruct (u_user <$> us s !! g); [f_equal|]; exact IH. Qed.

Lemma static_names s s' j : static s s' -> acct_names s' j = acct_names s j.
Proof.
  intros Hs. unfold acct_names. pose proof (st_user _ _ Hs (j_uPtr j)) as Hu. inversion Hu as [a b (E1 & _ & E3 & _)|]; [|done].
  rewrite E1, E3. f_equal. by apply static_omap.
Qed.
Lemma static_recs s s' j : static s s' -> user_recs s' j = user_recs s j.
Proof. intros Hs. unfold user_recs. pose proof (st_user _ _ Hs (j_uPtr j)) as Hu. inversion Hu as [a b (_ & E2 & _)|]; [by rewrite E2|done]. Qed.

Lemma static_job_ok s s' j : static s s' -> job_ok s j -> job_ok s' j.
Proof.
  intros Hs [Hq (u & Hu & Hi & Ha & Hg) Hn Hr Hh Hnum Hreq Hres]. destruct (static_user s s' _ u Hs Hu) as (u' & Hu' & _ & Eg & Ea & Ei).
  assert (Hsome : forall g, is_Some (us s !! g) -> is_Some (us s' !! g)) by (intros g [U HU]; destruct (static_user s s' g U Hs HU) as (? & -> & _); by eexists).
  split; try done.
  - by apply (st_queue _ _ Hs).
  - exists u'. rewrite Eg, Ea, Ei. split_and!; [done|done|eapply Forall_impl; [exact Ha|exact Hsome]|]. eapply Forall_impl; [exact Hg|]. intros g [? ?]. split; [done|by apply Hsome].
  - by rewrite (static_names s s').
  - by rewrite (static_recs s s').
  - eapply Forall_impl; [exact Hh|]. intros h (Hne & H & HH & Hrem). split; [done|]. pose proof (st_host _ _ Hs h) as Hst. rewrite HH in Hst.
    inversion Hst as [a b E|]; subst. exists b. unfold same_host in E. rewrite E. done.
Qed.

(** ** The weights are in bounds *)

Lemma weight_bounds s j : job_ok s j -> call (fun n => 0 <= n <= jsize j) (weight j).
Proof.
  intros [_ _ _ _ _ Hn Hr Hres]. unfold weight, jsize, call. destruct (kind (j_status j)) eqn:Ek, (has (j_status j) JOB_STAT_RESERVE) eqn:Er; cbn; try lia.
  specialize (Hres eq_refl eq_refl). lia.
Qed.

Lemma cif_bounds s j b : job_ok s j -> call (fun n => 0 <= n <= jsize j) (cif b (weight j)).
Proof. intros Hj. pose proof (weight_bounds s j Hj) as H. destruct b; [done|]. destruct Hj as [_ _ _ _ _ Hn Hr _]. unfold call, jsize. cbn. lia. Qed.

Lemma wh_bounds s j h : job_ok s j -> call (fun n => 0 <= n <= jsize j) (wh h j).
Proof.
  intros [_ _ _ _ _ Hn Hr Hres]. unfold wh, hweight, jsize, call. pose proof (countb_nonneg (fun x => x =? h) (j_hPtr j)). pose proof (countb_le_length (fun x => x =? h) (j_hPtr j)).
  unfold occ. destruct (kind (j_status j)), (has (j_status j) JOB_STAT_RESERVE); cbn; lia.
Qed.

(** ** Effects *)

(** An entry of a table of user accounts. *)
Definition uentry (j : jobData) (d : counts) (o : option userAcct) : option userAcct :=
  updUAcct j "" d (match o with Some a => {["" := a]} | None => ∅ end) !! "".

Lemma updUAcct_lookup j user d tab name :
  updUAcct j user d tab !! name = if bool_decide (name = user) then uentry j d (tab !! name) else tab !! name.
Proof.
  unfold uentry, updUAcct. case_bool_decide as E.
  - subst. destruct (tab !! user) as [a|] eqn:Ha; [by rewrite lookup_singleton_eq, !lookup_insert_eq|]. rewrite lookup_empty.
    destruct (negb (no_start d) || negb (c_PEND d =? 0)); [by rewrite !lookup_insert_eq|by rewrite Ha, lookup_empty].
  - destruct (tab !! user) as [a|]; [by rewrite lookup_insert_ne|]. destruct (negb (no_start d) || negb (c_PEND d =? 0)); [by rewrite lookup_insert_ne|done].
Qed.

Lemma upd_ancestors_spec users j l d tab :
  Forall (fun g => is_Some (users !! g)) l -> NoDup (omap (fun g => u_user <$> users !! g) l) ->
  exists tab', upd_ancestors users j l d tab = Some tab' /\
    forall name, tab' !! name = if bool_decide (name ∈ omap (fun g => u_user <$> users !! g) l) then uentry j d (tab !! name) else tab !! name.
Proof.
  intros Hl. revert tab. induction Hl as [|g l [U HU] _ IH]; intros tab Hnd.
  { exists tab. split; [done|]. intros name. by rewrite bool_decide_eq_false_2 by apply not_elem_of_nil. }
  cbn in Hnd |- *. rewrite HU in Hnd |- *. cbn in Hnd |- *. apply NoDup_cons in Hnd as [Hin Hnd]. destruct (IH (updUAcct j (u_user U) d tab) Hnd) as (tab' & -> & Hlk).
  exists tab'. split; [done|]. intros name. rewrite Hlk, updUAcct_lookup. destruct (decide (name = u_user U)) as [->|Hne].
  - rewrite (bool_decide_eq_false_2 _ Hin), !bool_decide_eq_true_2 by (done || by left). done.
  - rewrite (bool_decide_eq_false_2 _ Hne). by rewrite (bool_decide_ext (name ∈ u_user U :: _) (name ∈ omap (fun g => u_user <$> users !! g) l)) by (rewrite elem_of_cons; tauto).
Qed.

Lemma updHAcct_total hosts j l d tab : Forall (fun h => is_Some (hosts !! h)) l -> is_Some (updHAcct hosts j l d tab).
Proof. intros Hl. revert tab. induction Hl as [|h l [H HH] _ IH]; intros tab; [by eexists|]. cbn [updHAcct]. rewrite HH. cbn [mbind option_bind]. apply IH. Qed.

Lemma job_hosts s j : job_ok s j -> Forall (fun h => is_Some (hs s !! h)) (j_hPtr j).
Proof. intros Hj. eapply Forall_impl; [apply (jo_hosts _ _ Hj)|]. intros h (_ & H & -> & _). by eexists. Qed.

(** The queue of the job, and the accounts of its user in it. *)
Lemma updQaccount_spec s j d :
  job_ok s j ->
  exists Q tab htab, qs s !! j_qPtr j = Some Q /\
    updQaccount j d s = Some (with_qs (<[j_qPtr j := QData (addCounts d (q_counts Q)) tab htab]> (qs s)) s) /\
    forall name, tab !! name = if bool_decide (name ∈ acct_names s j) then uentry j d (q_uAcct Q !! name) else q_uAcct Q !! name.
Proof.
  intros Hj. destruct (jo_queue _ _ Hj) as [Q HQ]. destruct (jo_user _ _ Hj) as (u & Hu & _ & Ha & _). pose proof (jo_names _ _ Hj) as Hnd.
  unfold updQaccount, acct_names in *. rewrite HQ, Hu in *. cbn [mbind option_bind]. apply NoDup_cons in Hnd as [Hin Hnd].
  destruct (upd_ancestors_spec (us s) j (u_ancestors u) d (updUAcct j (u_user u) d (q_uAcct Q)) Ha Hnd) as (tab & -> & Hlk). cbn [mbind option_bind].
  assert (Ht : exists htab, (if no_start d && (c_PEND d =? 0) then Some (q_hAcct Q) else updHAcct (hs s) j (j_hPtr j) d (q_hAcct Q)) = Some htab).
  { destruct (no_start d && (c_PEND d =? 0)); [by eexists|]. apply updHAcct_total, job_hosts, Hj. }
  destruct Ht as [htab ->]. exists Q, tab, htab. split_and!; [done|done|]. intros name. rewrite Hlk, updUAcct_lookup.
  destruct (decide (name = u_user u)) as [->|Hne].
  - rewrite (bool_decide_eq_false_2 _ Hin), !bool_decide_eq_true_2 by (done || by left). done.
  - rewrite (bool_decide_eq_false_2 _ Hne). by rewrite (bool_decide_ext (name ∈ u_user u :: _) (name ∈ omap (fun g => u_user <$> us s !! g) (u_ancestors u))) by (rewrite elem_of_cons; tauto).
Qed.

Lemma has_lor_other f k m : Z.land k m = 0 -> has (Z.lor f k) m = has f m.
Proof. intros H. unfold has. by rewrite Z.land_lor_distr_l, H, Z.lor_0_r. Qed.
Lemma has_ldiff_other f k m : Z.land k m = 0 -> has (Z.ldiff f k) m = has f m.
Proof.
  intros H. unfold has. f_equal. f_equal. apply Z.bits_inj'. intros i Hi. apply (f_equal (fun z => Z.testbit z i)) in H.
  rewrite Z.land_spec, Z.bits_0 in H. rewrite !Z.land_spec, Z.ldiff_spec. by destruct (Z.testbit k i), (Z.testbit m i), (Z.testbit f i).
Qed.

(** The users of [L] get [d], nothing else of users changes that matters. *)
Definition users_upd (d : counts) (L : list Z) (s s' : acctSt) : Prop :=
  qs s' = qs s /\ hs s' = hs s /\ fsTree s' = fsTree s /\
  forall u, option_Forall2 (fun a b => same_user a b /\ u_counts b = if bool_decide (u ∈ L) then addCounts d (u_counts a) else u_counts a) (us s !! u) (us s' !! u).

Lemma users_upd_static d L s s' : users_upd d L s s' -> static s s'.
Proof.
  intros (Eq & Eh & _ & Hu). split; [by rewrite Eq|intros u|intros h; rewrite Eh; destruct (hs s !! h); by constructor].
  destruct (Hu u) as [a b [H _]|]; by constructor.
Qed.

Lemma users_upd_one d g L s s1 s2 : g ∉ L -> users_upd d [g] s s1 -> users_upd d L s1 s2 -> users_upd d (g :: L) s s2.
Proof.
  intros Hg (Q1 & H1 & F1 & U1) (Q2 & H2 & F2 & U2). split_and!; [congruence|congruence|congruence|]. intros u. specialize (U1 u). specialize (U2 u).
  destruct U1 as [a b [Hab Eab]|]; inversion U2 as [b' c [Hbc Ebc]|]; constructor. split; [by eapply same_user_trans|]. rewrite Ebc, Eab.
  destruct (decide (u = g)) as [->|Hne].
  - by rewrite (bool_decide_eq_false_2 (g ∈ L)), !bool_decide_eq_true_2 by (done || by left).
  - rewrite (bool_decide_eq_false_2 (u ∈ [g])) by (by rewrite list_elem_of_singleton). by rewrite (bool_decide_ext (u ∈ g :: L) (u ∈ L)) by (rewrite elem_of_cons; tauto).
Qed.

(** A record with other flags gets [d]. *)
Lemma updUserData1_spec s j p u f d :
  us s !! p = Some u -> has f USER_INIT = has (u_flags u) USER_INIT -> Forall (fun h => is_Some (hs s !! h)) (j_hPtr j) -> 0 < j_numReq j ->
  exists s', updUserData1 (with_us (<[p := set_uflags f u]> (us s)) s) j p d = Some s' /\ users_upd d [p] s s'.
Proof.
  intros Hu Hf Hh Hr. unfold updUserData1. cbn [us with_us hs]. rewrite lookup_insert_eq. cbn [mbind option_bind]. rewrite (proj2 (Z.eqb_neq _ _)) by lia.
  assert (Ht : exists htab, (if negb (no_start d) && u_limited (set_uflags f u) then updHAcct (hs s) j (j_hPtr j) d (u_hAcct (set_uflags f u)) else Some (u_hAcct (set_uflags f u))) = Some htab).
  { destruct (negb (no_start d) && u_limited (set_uflags f u)); [by apply updHAcct_total|by eexists]. }
  destruct Ht as [htab ->]. cbn [mbind option_bind]. eexists. split; [done|]. split_and!; [done|done|done|]. intros q. cbn [us with_us].
  rewrite insert_insert_eq. destruct (decide (q = p)) as [->|Hne].
  - rewrite Hu, lookup_insert_eq. constructor. split; [done|]. by rewrite bool_decide_eq_true_2 by by left.
  - rewrite lookup_insert_ne by done. rewrite bool_decide_eq_false_2 by (by rewrite list_elem_of_singleton). destruct (us s !! q); by constructor.
Qed.

Lemma upd_groups_spec s j L d :
  NoDup L -> Forall (fun g => g <> NULL /\ is_Some (us s !! g)) L -> Forall (fun h => is_Some (hs s !! h)) (j_hPtr j) -> 0 < j_numReq j ->
  exists s', upd_groups s j L d = Some s' /\ users_upd d L s s'.
Proof.
  revert s. induction L as [|g L IH]; intros s Hnd HL Hh Hr.
  { exists s. split; [done|]. split_and!; [done|done|done|]. intros u. rewrite bool_decide_eq_false_2 by apply not_elem_of_nil. destruct (us s !! u); by constructor. }
  apply NoDup_cons in Hnd as [Hg Hnd]. apply Forall_cons in HL as [[Hne [U HU]] HL]. cbn [upd_groups]. rewrite (proj2 (Z.eqb_neq _ _) Hne), HU. cbn [mbind option_bind].
  destruct (updUserData1_spec s j g U (Z.lor (u_flags U) USER_GROUP) d HU) as (s1 & -> & H1); [by apply has_lor_other|done|done|]. cbn [mbind option_bind].
  pose proof (users_upd_static _ _ _ _ H1) as Hs. destruct (IH s1 Hnd) as (s2 & -> & H2).
  - eapply Forall_impl; [exact HL|]. intros x (Hx & U' & HU'). split; [done|]. destruct (static_user s s1 x U' Hs HU') as (? & -> & _). by eexists.
  - destruct H1 as (_ & -> & _). done.
  - done.
  - exists s2. split; [done|]. by apply (users_upd_one d g L s s1 s2).
Qed.

(** Without user groups nobody is in one. *)
Definition groups_ok (E : grpEnv) (s : acctSt) : Prop := ge_usergroups E = [] -> forall u U, us s !! u = Some U -> u_gPtr U = [].

Lemma updUserData_spec E s j d :
  job_ok s j -> groups_ok E s -> exists s', updUserData E j d s = Some s' /\ users_upd d (user_recs s j) s s'.
Proof.
  intros Hj HE. destruct (jo_user _ _ Hj) as (u & Hu & Hi & _ & Hg). pose proof (jo_recs _ _ Hj) as Hnd. pose proof (job_hosts s j Hj) as Hh.
  pose proof (jo_req _ _ Hj) as Hr. unfold updUserData, user_recs in *. rewrite Hu in *. cbn [mbind option_bind]. apply NoDup_cons in Hnd as [Hin Hnd].
  destruct (updUserData1_spec s j (j_uPtr j) u (Z.ldiff (u_flags u) USER_GROUP) d Hu) as (s1 & -> & H1); [by apply has_ldiff_other|done|lia|]. cbn [mbind option_bind].
  pose proof (users_upd_static _ _ _ _ H1) as Hs. destruct (static_user s s1 _ u Hs Hu) as (u1 & Hu1 & _ & Eg & _ & Ei).
  destruct (ge_usergroups E) as [|g0 l0] eqn:El; [exists s1; split; [done|]; rewrite (HE El _ u Hu); done|].
  rewrite Hu1. cbn [mbind option_bind]. rewrite Ei, Hi. cbn [mbind option_bind]. rewrite Eg.
  destruct (upd_groups_spec (with_us (<[j_uPtr j := u1]> (us s1)) s1) j (u_gPtr u) d Hnd) as (s2 & -> & H2).
  - cbn [us with_us]. rewrite insert_id by done. eapply Forall_impl; [exact Hg|]. intros x (Hx & U' & HU'). split; [done|].
    destruct (static_user s s1 x U' Hs HU') as (? & -> & _). by eexists.
  - destruct H1 as (_ & Eh & _). cbn. by rewrite Eh.
  - lia.
  - exists s2. split; [done|]. apply (users_upd_one d _ _ s s1 s2); [done|done|]. cbn [us with_us] in H2.
    assert (E1 : with_us (<[j_uPtr j := u1]> (us s1)) s1 = s1) by (unfold with_us; rewrite insert_id by done; by destruct s1). by rewrite E1 in H2.
Qed.

(** ** Hosts *)

(** [n] times [d]. *)
Definition add_hcounts (d c : counts) : counts :=
  Counts (addValue (c_Jobs c) (c_Jobs d)) (c_PEND c) (addValue (c_RUN c) (c_RUN d)) (addValue (c_SSUSP c) (c_SSUSP d))
    (addValue (c_USUSP c) (c_USUSP d)) (addValue (c_RESERVE c) (c_RESERVE d)).
Definition hosts_upd (d : counts) (L : list Z) (m m' : gmap Z hData) : Prop :=
  forall h, option_Forall2 (fun a b => same_host a b /\ h_counts b = Nat.iter (length (filter (fun x => x = h) L)) (add_hcounts d) (h_counts a)) (m !! h) (m' !! h).

Lemma host_full_remote h : has (host_full h) HOST_STAT_REMOTE = has (h_status h) HOST_STAT_REMOTE.
Proof.
  unfold host_full. destruct (c_Jobs (h_counts h) <=? 0), (h_maxJobs h <=? c_Jobs (h_counts h)); rewrite ?has_ldiff_other, ?has_lor_other by done; done.
Qed.

Lemma upd_hosts_spec m j user L d :
  Forall (fun h => h <> NULL /\ exists H, m !! h = Some H /\ has (h_status H) HOST_STAT_REMOTE = false) L ->
  exists m', upd_hosts m j user L d = Some m' /\ hosts_upd d L m m'.
Proof.
  revert m. induction L as [|p L IH]; intros m HL.
  { exists m. split; [done|]. intros h. cbn. destruct (m !! h); by constructor. }
  apply Forall_cons in HL as [(Hne & H & HH & Hrem) HL]. cbn [upd_hosts]. rewrite (proj2 (Z.eqb_neq _ _) Hne), HH. cbn [mbind option_bind]. rewrite Hrem.
  assert (Hsame : same_host H (upd_host j user d H)) by (unfold same_host, upd_host; cbn [h_status]; by rewrite host_full_remote).
  destruct (IH (<[p := upd_host j user d H]> m)) as (m' & -> & Hm).
  { eapply Forall_impl; [exact HL|]. intros q (Hq & Hd & HD & Hr). split; [done|]. destruct (decide (q = p)) as [->|Hqp].
    - exists (upd_host j user d H). rewrite lookup_insert_eq. split; [done|]. unfold same_host in Hsame. congruence.
    - exists Hd. by rewrite lookup_insert_ne. }
  exists m'. split; [done|]. intros h. specialize (Hm h). rewrite filter_cons. destruct (decide (h = p)) as [->|Hhp].
  - rewrite lookup_insert_eq in Hm. rewrite HH, decide_True by done. inversion Hm as [a b [Hs Ec]|]; subst. constructor. split; [unfold same_host in *; congruence|].
    cbn [length]. rewrite Nat.iter_succ_r, Ec. done.
  - rewrite lookup_insert_ne in Hm by done. by rewrite decide_False by congruence.
Qed.

(** Adding step by step, when both ends are in range. *)
Lemma iter_exact d c n :
  c_PEND d = 0 -> call in_range c -> call in_range (cplus c (cscale (Z.of_nat n) d)) -> Nat.iter n (add_hcounts d) c = cplus c (cscale (Z.of_nat n) d).
Proof.
  intros Hp Hc. induction n as [|n IH]; intros Hn; [cbn; counts_lia|]. assert (Hmid : call in_range (cplus c (cscale (Z.of_nat n) d))).
  { unfold call, in_range, cplus, cscale in *. cbn [c_Jobs c_PEND c_RUN c_SSUSP c_USUSP c_RESERVE] in *. nia. }
  rewrite Nat.iter_succ, IH by done. unfold call, add_hcounts in *. cbn [cplus cscale c_Jobs c_PEND c_RUN c_SSUSP c_USUSP c_RESERVE] in *.
  rewrite !addValue_exact by (unfold in_range in *; lia). apply counts_eq; cbn [cplus cscale c_Jobs c_PEND c_RUN c_SSUSP c_USUSP c_RESERVE]; lia.
Qed.

(** ** A change of one job *)

(** Queue, users and hosts of [j] have been changed by [d], and [h] per host. *)
Record effect (j : jobData) (d h : counts) (s s' : acctSt) : Prop := {
  ef_queue : exists Q tab htab, qs s !! j_qPtr j = Some Q /\
    qs s' = <[j_qPtr j := QData (addCounts d (q_counts Q)) tab htab]> (qs s) /\
    forall name, tab !! name = if bool_decide (name ∈ acct_names s j) then uentry j d (q_uAcct Q !! name) else q_uAcct Q !! name;
  ef_user : forall u, option_Forall2 (fun a b => same_user a b /\ u_counts b = if bool_decide (u ∈ user_recs s j) then addCounts d (u_counts a) else u_counts a) (us s !! u) (us s' !! u);
  ef_host : hosts_upd h (j_hPtr j) (hs s) (hs s');
  ef_fs : fsTree s' = fsTree s }.

Lemma effect_static j d h s s' : effect j d h s s' -> static s s'.
Proof.
  intros [(Q & tab & htab & HQ & Eq & _) Hu Hh _]. split.
  - intros q. rewrite Eq. destruct (decide (q = j_qPtr j)) as [->|Hne]; [rewrite lookup_insert_eq, HQ; split; by eexists|by rewrite lookup_insert_ne].
  - intros u. destruct (Hu u) as [a b [H _]|]; by constructor.
  - intros x. destruct (Hh x) as [a b [H _]|]; by constructor.
Qed.

Lemma queue_static s Q j d tab htab :
  qs s !! j_qPtr j = Some Q -> static s (with_qs (<[j_qPtr j := QData (addCounts d (q_counts Q)) tab htab]> (qs s)) s).
Proof.
  intros HQ. split; cbn; [|intros u; destruct (us s !! u); by constructor|intros h; destruct (hs s !! h); by constructor].
  intros q. destruct (decide (q = j_qPtr j)) as [->|Hne]; [rewrite lookup_insert_eq, HQ; split; by eexists|by rewrite lookup_insert_ne].
Qed.

Lemma quh_effect E j d h s : job_ok s j -> groups_ok E s -> exists s', upd_quh E j d h s = Some s' /\ effect j d h s s'.
Proof.
  intros Hj HE. unfold upd_quh. destruct (updQaccount_spec s j d Hj) as (Q & tab & htab & HQ & -> & Htab). cbn [mbind option_bind].
  set (s1 := with_qs _ s). pose proof (queue_static s Q j d tab htab HQ) as Hs1. fold s1 in Hs1. pose proof (static_job_ok _ _ _ Hs1 Hj) as Hj1.
  destruct (updUserData_spec E s1 j d Hj1 HE) as (s2 & -> & U2). cbn [mbind option_bind]. pose proof (users_upd_static _ _ _ _ U2) as Hs2.
  destruct (jo_user _ _ (static_job_ok _ _ _ Hs2 Hj1)) as (u & Hu & _). unfold updHostData. rewrite Hu. cbn [mbind option_bind].
  destruct (upd_hosts_spec (hs s2) j (u_user u) (j_hPtr j) h (jo_hosts _ _ (static_job_ok _ _ _ Hs2 Hj1))) as (m & -> & Hm). cbn [mbind option_bind].
  eexists. split; [done|]. destruct U2 as (Eq & Eh & Ef & Hu2). split; cbn [qs us hs fsTree with_hs].
  - exists Q, tab, htab. by rewrite Eq.
  - exact Hu2.
  - by rewrite Eh in Hm.
  - by rewrite Ef.
Qed.

Lemma qhu_effect E j d h s : job_ok s j -> groups_ok E s -> exists s', upd_qhu E j d h s = Some s' /\ effect j d h s s'.
Proof.
  intros Hj HE. unfold upd_qhu. destruct (updQaccount_spec s j d Hj) as (Q & tab & htab & HQ & -> & Htab). cbn [mbind option_bind].
  set (s1 := with_qs _ s). pose proof (queue_static s Q j d tab htab HQ) as Hs1. fold s1 in Hs1. pose proof (static_job_ok _ _ _ Hs1 Hj) as Hj1.
  destruct (jo_user _ _ Hj1) as (u & Hu & _). unfold updHostData. rewrite Hu. cbn [mbind option_bind].
  destruct (upd_hosts_spec (hs s1) j (u_user u) (j_hPtr j) h (jo_hosts _ _ Hj1)) as (m & -> & Hm). cbn [mbind option_bind].
  assert (Hs2 : static s1 (with_hs m s1)) by (split; [done|intros x; exact (st_user s1 s1 (reflexivity s1) x)|intros x; change (option_Forall2 same_host (hs s1 !! x) (m !! x)); destruct (Hm x) as [a b [H _]|]; by constructor]).
  destruct (updUserData_spec E (with_hs m s1) j d (static_job_ok _ _ _ Hs2 Hj1) HE) as (s3 & -> & Eq & Eh & Ef & Hu3).
  eexists. split; [done|]. split.
  - exists Q, tab, htab. by rewrite Eq.
  - exact Hu3.
  - by rewrite Eh.
  - by rewrite Ef.
Qed.

(** Without a change of hosts. *)
Lemma qu_effect E j d s :
  job_ok s j -> groups_ok E s -> (forall x H, hs s !! x = Some H -> call in_range (h_counts H)) ->
  exists s', (s ← updQaccount j d s; updUserData E j d s) = Some s' /\ effect j d czero s s'.
Proof.
  intros Hj HE Hr. destruct (updQaccount_spec s j d Hj) as (Q & tab & htab & HQ & -> & Htab). cbn [mbind option_bind].
  set (s1 := with_qs _ s). pose proof (queue_static s Q j d tab htab HQ) as Hs1. fold s1 in Hs1. pose proof (static_job_ok _ _ _ Hs1 Hj) as Hj1.
  destruct (updUserData_spec E s1 j d Hj1 HE) as (s2 & -> & Eq & Eh & Ef & Hu2). eexists. split; [done|]. split.
  - exists Q, tab, htab. by rewrite Eq.
  - exact Hu2.
  - rewrite Eh. intros x. cbn [hs s1 with_qs]. destruct (hs s !! x) as [H|] eqn:EH; constructor. split; [done|].
    rewrite iter_exact; [counts_lia|done|by apply (Hr x)|]. specialize (Hr x H EH). unfold call, in_range in *. cbn. lia.
  - by rewrite Ef.
Qed.

Lemma uentry_counts j d o c : acct_counts o c -> call in_range (cplus c d) -> acct_counts (uentry j d o) (cplus c d).
Proof.
  intros Ho (_ & R2 & R3 & R4 & R5 & R6). unfold uentry, updUAcct. cbn in R2, R3, R4, R5, R6. destruct o as [a|].
  - rewrite lookup_singleton_eq, lookup_insert_eq. destruct Ho as (E1 & E2 & E3 & E4 & E5). cbn. rewrite E1, E2, E3, E4, E5, !addValue_exact by done. done.
  - destruct Ho as (E1 & E2 & E3 & E4 & E5). rewrite lookup_empty. destruct (negb (no_start d) || negb (c_PEND d =? 0)) eqn:Ed.
    + rewrite lookup_insert_eq. cbn. lia.
    + rewrite lookup_empty. unfold no_start in Ed. cbn. lia.
Qed.
