(* ===== verification/AccountStep.v ===== *)
(** * Accounts: the transitions

    The table of transitions of [updCounters], the reservations of
    [updResCounters] and the moves of [updSwitchJob] all change the counters by
    the difference of what the job counts for before and after; so the counters
    agree with the jobs after any sequence of them. *)

From Stdlib Require Import SpecFloat.
From stdpp Require Import strings.
From S2P Require Import Prelude Lsb Float32 FloatOrd Fairshare Grp Account AccountOk.

(** A job that differs in its status at most. *)
Definition same_job (j j' : jobData) : Prop :=
  j_hPtr j' = j_hPtr j /\ j_numReq j' = j_numReq j /\ j_qPtr j' = j_qPtr j /\ j_uPtr j' = j_uPtr j /\ num j' = num j.

(** A job that is at the same place. *)
Definition same_place (j j' : jobData) : Prop := j_hPtr j' = j_hPtr j /\ j_qPtr j' = j_qPtr j /\ j_uPtr j' = j_uPtr j.

Lemma same_job_names s j j' : same_job j j' -> acct_names s j' = acct_names s j /\ user_recs s j' = user_recs s j.
Proof. intros (_ & _ & _ & E & _). unfold acct_names, user_recs. by rewrite E. Qed.

Lemma small_change J k j j' : J !! k = Some j -> same_job j j' -> small J -> small (<[k := j']> J).
Proof.
  intros Hk (_ & Er & _ & _ & En). unfold small. rewrite <- (insert_delete_id J k j Hk) at 1. rewrite <- (insert_delete_eq J k j').
  rewrite (map_to_list_insert _ k j (lookup_delete_eq J k)), (map_to_list_insert _ k j' (lookup_delete_eq J k)). cbn [fmap list_fmap].
  rewrite !zsum_cons. cbn [snd]. unfold jsize. by rewrite Er, En.
Qed.

(** The counters of an agreeing state are in range. *)
Lemma host_range J s x H : agrees J s -> jobs_ok s J -> small J -> hs s !! x = Some H -> call in_range (h_counts H).
Proof. intros Ha Hok Hs HH. rewrite (ag_host _ _ Ha x H HH). apply csum_range; [|done]. intros k j Hk. apply (wh_bounds s), (Hok k j Hk). Qed.

Section Change.
Context (J : jobs) (s s' : acctSt) (k : Z) (j0 j : jobData).
Hypotheses (Hk : J !! k = Some j0) (Hag : agrees J s) (Hok : jobs_ok s J) (Hsm : small J) (Hj : job_ok s j) (Hsame : same_job j0 j).
Let J' := <[k := j]> J.

Lemma changed_ok : jobs_ok s J'.
Proof using Hj Hok. intros i x Hi. unfold J' in Hi. destruct (decide (i = k)) as [->|Hne]; [rewrite lookup_insert_eq in Hi; by injection Hi as <-|]. rewrite lookup_insert_ne in Hi by done. by apply (Hok i). Qed.

Lemma changed_range w : (forall x, job_ok s x -> call (fun n => 0 <= n <= jsize x) (w x)) -> call in_range (csum w J').
Proof using Hk Hok Hsm Hj Hsame.
  intros Hw. apply csum_range; [|by apply (small_change J k j0)]. intros i x Hi. apply Hw, (changed_ok i x Hi).
Qed.

Abbreviation d := (cminus (weight j) (weight j0)).
Abbreviation h := (cminus (hweight j) (hweight j0)).

(** A sum of weights of some of the jobs, the job that changes among them or
    not. *)
Lemma changed_sum w (b : jobData -> bool) :
  (forall x, w x = cif (b x) (weight x)) -> b j = b j0 ->
  csum w J' = cplus (csum w J) (cif (b j) d) /\ call in_range (csum w J').
Proof using Hk Hok Hsm Hj Hsame.
  intros Hw Eb. split; [|apply changed_range; intros x Hx; rewrite Hw; by apply (cif_bounds s)].
  unfold J'. rewrite (csum_change _ J k j0 j Hk), !Hw, Eb. destruct (b j0); [done|]. cbn [cif]. unfold cminus. counts_lia.
Qed.

Lemma changed_eq c c' w (b : jobData -> bool) :
  (forall x, w x = cif (b x) (weight x)) -> b j = b j0 -> c = csum w J ->
  c' = (if b j then addCounts d c else c) -> c' = csum w J'.
Proof using Hk Hok Hsm Hj Hsame.
  intros Hw Eb -> ->. destruct (changed_sum w b Hw Eb) as [Es Hr]. destruct (b j); cbn [cif] in Es; rewrite Es in *.
  - by apply addCounts_exact.
  - by rewrite cplus_zero.
Qed.

Lemma changed_occ x : cminus (wh x j) (wh x j0) = cscale (Z.of_nat (length (filter (fun y => y = x) (j_hPtr j)))) h.
Proof using Hsame.
  destruct Hsame as (Eh & _). assert (Ecnt : forall y, occ x y = Z.of_nat (length (filter (fun z => z = x) (j_hPtr y)))).
  { intros y. unfold occ. induction (j_hPtr y) as [|z l IH]; [done|]. rewrite countb_cons, filter_cons, IH.
    destruct (Z.eqb_spec z x); [rewrite decide_True by done; cbn; lia|by rewrite decide_False by done]. }
  unfold wh. rewrite !Ecnt, Eh. unfold cminus. counts_lia.
Qed.

Lemma hweight_no_pend : c_PEND h = 0.
Proof using. unfold hweight. by destruct (kind (j_status j)), (has (j_status j) JOB_STAT_RESERVE), (kind (j_status j0)), (has (j_status j0) JOB_STAT_RESERVE). Qed.

(** The functions may be given the job in another status. *)
Lemma effect_agrees jx : same_place j jx -> effect jx d h s s' -> agrees J' s' /\ jobs_ok s' J'.
Proof using Hk Hag Hok Hsm Hj Hsame.
  intros (Xh & Xq & Xu) Hef. pose proof (effect_static _ _ _ _ _ Hef) as Hst. destruct Hef as [(Q0 & tab & htab & HQ0 & Eq & Htab) Hu Hh _].
  assert (Xn : acct_names s jx = acct_names s j) by (unfold acct_names; by rewrite Xu). assert (Xr : user_recs s jx = user_recs s j) by (unfold user_recs; by rewrite Xu).
  rewrite Xq in HQ0, Eq. rewrite Xh in Hh. rewrite Xn in Htab. rewrite Xr in Hu.
  destruct (same_job_names s j0 j Hsame) as [En Er]. pose proof Hsame as (_ & _ & Eqp & _ & _).
  split; [split|intros i x Hi; apply (static_job_ok s s' x Hst), (changed_ok i x Hi)].
  - intros q Q HQ. rewrite Eq in HQ. destruct (decide (q = j_qPtr j)) as [->|Hne].
    + rewrite lookup_insert_eq in HQ. injection HQ as <-. apply (changed_eq (q_counts Q0) _ _ (fun x => j_qPtr x =? j_qPtr j)); [done|by rewrite Eqp|by apply (ag_queue _ _ Hag)|].
      by rewrite Z.eqb_refl.
    + rewrite lookup_insert_ne in HQ by done. apply (changed_eq (q_counts Q) _ _ (fun x => j_qPtr x =? q)); [done|by rewrite Eqp|by apply (ag_queue _ _ Hag)|].
      by rewrite (proj2 (Z.eqb_neq _ _)) by done.
  - intros q Q name HQ. rewrite Eq in HQ. rewrite (csum_ext (wqu s' q name) (wqu s q name)) by (intros; unfold wqu; by rewrite (static_names s s')).
    destruct (changed_sum (wqu s q name) (fun x => (j_qPtr x =? q) && bool_decide (name ∈ acct_names s x)) (fun _ => eq_refl) ltac:(cbn; by rewrite Eqp, En)) as [Es Hr].
    rewrite Es in Hr |- *. destruct (decide (q = j_qPtr j)) as [->|Hne].
    + rewrite lookup_insert_eq in HQ. injection HQ as <-. cbn [q_uAcct]. rewrite Htab. rewrite Z.eqb_refl in Hr |- *. cbn [andb] in Hr |- *. pose proof (ag_acct _ _ Hag _ _ name HQ0) as Ha.
      case_bool_decide; cbn [cif] in *; [by apply uentry_counts|by rewrite cplus_zero].
    + rewrite lookup_insert_ne in HQ by done. rewrite (proj2 (Z.eqb_neq (j_qPtr j) q)) by congruence. cbn [andb cif]. rewrite cplus_zero. exact (ag_acct _ _ Hag q Q name HQ).
  - intros u U' HU'. rewrite (csum_ext (wu s' u) (wu s u)) by (intros; unfold wu; by rewrite (static_recs s s')).
    specialize (Hu u). rewrite HU' in Hu. inversion Hu as [U ? [_ Ec] EU|]; subst.
    apply (changed_eq (u_counts U) _ _ (fun x => bool_decide (u ∈ user_recs s x))); [done|by rewrite Er|by apply (ag_user _ _ Hag)|exact Ec].
  - intros x H' HH'. specialize (Hh x). rewrite HH' in Hh. inversion Hh as [H ? [_ Ec] EH|]; subst. rewrite Ec.
    pose proof (changed_range (wh x) ltac:(intros; by apply (wh_bounds s))) as Hr. unfold J' in Hr |- *. rewrite (csum_change (wh x) J k j0 j Hk), changed_occ in Hr |- *.
    rewrite <- (ag_host _ _ Hag x H (eq_sym EH)) in Hr |- *. apply iter_exact; [apply hweight_no_pend|by apply (host_range J s x)|done].
Qed.

End Change.

(** ** The table of transitions *)

(** The statuses that count, by their bits. *)
Lemma has_known st b : Z.land b MASK_INT_JOB_STAT = b -> Z.land b JOB_STAT_UNKWN = 0 -> has st b = has (known_status st) b.
Proof.
  intros Hm Hu. unfold has, known_status, MASK_STATUS. f_equal. f_equal. apply Z.bits_inj'. intros i Hi.
  apply (f_equal (fun z => Z.testbit z i)) in Hm, Hu. rewrite Z.land_spec in Hm, Hu. rewrite Z.bits_0 in Hu.
  rewrite !Z.land_spec, Z.ldiff_spec. by destruct (Z.testbit st i), (Z.testbit b i), (Z.testbit JOB_STAT_UNKWN i), (Z.testbit MASK_INT_JOB_STAT i).
Qed.

Definition all_known : list Z := [JOB_STAT_PEND; JOB_STAT_PSUSP; JOB_STAT_RUN; JOB_STAT_SSUSP; JOB_STAT_USUSP; JOB_STAT_EXIT; JOB_STAT_DONE].

Lemma kind_known st : kind st <> KOther -> known_status st ∈ all_known.
Proof.
  unfold kind. intros Hk. destruct (decide (known_status st ∈ all_known)) as [|Hni]; [done|]. destruct Hk.
  unfold all_known in Hni. rewrite !not_elem_of_cons in Hni. destruct Hni as (H1 & H2 & H3 & H4 & H5 & H6 & H7 & _).
  by rewrite !(proj2 (Z.eqb_neq _ _)) by done.
Qed.

(** The changes of status that [updCounters] provides for; a reservation is
    given up before. *)
Definition handled (old new : Z) : bool :=
  negb (has old JOB_STAT_RESERVE) && negb (has new JOB_STAT_RESERVE) &&
  match kind old, kind new with
  | KPend, KPend | KPend, KRun | KPend, KEnd | KEnd, KEnd => true
  | KPend, (KSSusp | KUSusp) => has old JOB_STAT_PEND
  | (KRun | KSSusp | KUSusp), (KRun | KSSusp | KUSusp | KEnd) => true
  | (KRun | KSSusp | KUSusp), KPend => has new JOB_STAT_PEND
  | _, _ => false
  end.

(** What [updCounters] may do for a change from [j0] to [j]. *)
Definition moved (j0 j : jobData) (s s' : acctSt) : Prop :=
  effect j (cminus (weight j) (weight j0)) (cminus (hweight j) (hweight j0)) s s' \/
  (s' = s /\ weight j = weight j0 /\ hweight j = hweight j0).

Definition hosts_in_range (s : acctSt) : Prop := forall x H, hs s !! x = Some H -> call in_range (h_counts H).

Section Table.
Context (E : grpEnv) (fsE : Z -> fsenv) (s : acctSt) (j : jobData) (old : Z).
Hypotheses (Hj : job_ok s j) (HE : groups_ok E s) (Hr : hosts_in_range s) (Hn : num j < 2 ^ 31).
Abbreviation j0 := (set_status old j).

Lemma quh_moved d h :
  d = cminus (weight j) (weight j0) -> h = cminus (hweight j) (hweight j0) ->
  exists s', upd_quh E j d h s = Some s' /\ moved j0 j s s'.
Proof using Hj HE. intros -> ->. destruct (quh_effect E j (cminus (weight j) (weight j0)) (cminus (hweight j) (hweight j0)) s Hj HE) as (s' & -> & He). exists s'. split; [done|by left]. Qed.

Lemma qhu_moved d h :
  d = cminus (weight j) (weight j0) -> h = cminus (hweight j) (hweight j0) ->
  exists s', upd_qhu E j d h s = Some s' /\ moved j0 j s s'.
Proof using Hj HE. intros -> ->. destruct (qhu_effect E j (cminus (weight j) (weight j0)) (cminus (hweight j) (hweight j0)) s Hj HE) as (s' & -> & He). exists s'. split; [done|by left]. Qed.

Lemma qu_moved d :
  d = cminus (weight j) (weight j0) -> czero = cminus (hweight j) (hweight j0) ->
  exists s', (s ← updQaccount j d s; updUserData E j d s) = Some s' /\ moved j0 j s s'.
Proof using Hj HE Hr. intros -> Eh. destruct (qu_effect E j (cminus (weight j) (weight j0)) s Hj HE Hr) as (s' & -> & He). exists s'. split; [done|left]. by rewrite <- Eh. Qed.

Lemma stay_moved : weight j = weight j0 -> hweight j = hweight j0 -> exists s', Some s = Some s' /\ moved j0 j s s'.
Proof using. intros. exists s. split; [done|by right]. Qed.

(** The differences are those of the weights. *)
Ltac differences Ho Hw Ro Rw :=
  unfold weight, hweight, kind; cbn [set_status j_status j_numReq]; change (num j0) with (num j);
  rewrite Ho, Hw, Ro, Rw; destruct (jo_req _ _ Hj) as [Hq1 Hq2]; pose proof (jo_num _ _ Hj) as Hq3; rewrite ?i32_small by lia; counts_lia.

(** The branch for a pair of known statuses, by evaluation of the tests. *)
Ltac table_case Ho Hw Ro Rw :=
  repeat match goal with
  | |- context [has old ?b] => rewrite (has_known old b eq_refl eq_refl), Ho
  | |- context [has (j_status j) ?b] => rewrite (has_known (j_status j) b eq_refl eq_refl), Hw
  end;
  repeat match goal with
  | |- context [has ?a ?b] => let v := eval vm_compute in (has a b) in change (has a b) with v
  | |- context [?a =? ?b] => let v := eval vm_compute in (a =? b) in change (a =? b) with v
  end; cbn [orb andb negb];
  first [apply stay_moved | apply quh_moved | apply qhu_moved | apply qu_moved]; differences Ho Hw Ro Rw.

Lemma end_moved :
  handled old (j_status j) = true -> kind (j_status j) = KEnd -> IS_FINISH old = false -> exists s', to_end E j old s = Some s' /\ moved j0 j s s'.
Proof using Hj HE Hr Hn.
  unfold handled. destruct (has old JOB_STAT_RESERVE) eqn:Ro, (has (j_status j) JOB_STAT_RESERVE) eqn:Rw; try done. cbn [negb andb]. intros Hh Hk.
  rewrite Hk in Hh. assert (Ho : known_status old ∈ all_known) by (apply kind_known; intros Ek; by rewrite Ek in Hh).
  assert (Hw : known_status (j_status j) ∈ all_known) by (apply kind_known; intros Ek; by rewrite Ek in Hk). clear Hh.
  unfold kind in Hk. unfold all_known in Ho, Hw. rewrite !elem_of_cons, elem_of_nil in Ho, Hw. unfold to_end, IS_FINISH, IS_PEND.
  rewrite (has_known old JOB_STAT_DONE), (has_known old JOB_STAT_EXIT) by done. intros Hf.
  destruct Hw as [Hw|[Hw|[Hw|[Hw|[Hw|[Hw|[Hw|[]]]]]]]]; rewrite Hw in Hk; try discriminate Hk; clear Hk;
    (destruct Ho as [Ho|[Ho|[Ho|[Ho|[Ho|[Ho|[Ho|[]]]]]]]]; rewrite Ho in Hf; try discriminate Hf; table_case Ho Hw Ro Rw).
Qed.

(** Every pair of known statuses that [P] allows, and what it computes to. *)
Ltac table_pairs Hh :=
  match type of Hh with
  | context [kind old] =>
      assert (Ho : known_status old ∈ all_known) by (apply kind_known; intros Ek; rewrite Ek in Hh; by destruct (kind (j_status j)));
      assert (Hw : known_status (j_status j) ∈ all_known) by (apply kind_known; intros Ek; rewrite Ek in Hh; by destruct (kind old));
      unfold kind in Hh; unfold all_known in Ho, Hw; rewrite !elem_of_cons, elem_of_nil in Ho, Hw
  end.

Lemma status_moved :
  handled old (j_status j) = true -> kind (j_status j) <> KEnd ->
  exists s', updCounters E fsE j old false s = Some (j, s') /\ moved j0 j s s'.
Proof using Hj HE Hr Hn.
  unfold handled. destruct (has old JOB_STAT_RESERVE) eqn:Ro, (has (j_status j) JOB_STAT_RESERVE) eqn:Rw; try done. cbn [negb andb]. intros Hh Hk.
  rewrite (has_known old JOB_STAT_PEND), (has_known (j_status j) JOB_STAT_PEND) in Hh by done.
  assert (Hs : exists s', (if IS_FINISH old || (known_status (j_status j) =? known_status old) || IS_PEND (j_status j) && IS_PEND old then Some s
    else if known_status (j_status j) =? JOB_STAT_RUN then to_run E j old s
    else if known_status (j_status j) =? JOB_STAT_SSUSP then to_ssusp E j old s
    else if known_status (j_status j) =? JOB_STAT_USUSP then to_ususp E j old s
    else if known_status (j_status j) =? JOB_STAT_PEND then to_pend E j old s else Some s) = Some s' /\ moved j0 j s s').
  { table_pairs Hh. unfold kind in Hk. unfold to_run, to_ssusp, to_ususp, to_pend, IS_FINISH, IS_PEND.
    destruct Hw as [Hw|[Hw|[Hw|[Hw|[Hw|[Hw|[Hw|[]]]]]]]]; rewrite Hw in Hk, Hh |- *; try (by destruct Hk); clear Hk;
      (destruct Ho as [Ho|[Ho|[Ho|[Ho|[Ho|[Ho|[Ho|[]]]]]]]]; rewrite Ho in Hh |- *; try discriminate Hh; table_case Ho Hw Ro Rw). }
  destruct Hs as (s' & Es & Hm). exists s'. split; [|done]. revert Es. unfold updCounters.
  assert (Ee : (known_status (j_status j) =? JOB_STAT_EXIT) || (known_status (j_status j) =? JOB_STAT_DONE) = false).
  { apply not_true_is_false. intros Ee. apply Hk. unfold kind. by apply orb_true_iff in Ee as [Ee%Z.eqb_eq|Ee%Z.eqb_eq]; rewrite Ee. }
  rewrite Ee. destruct (IS_FINISH old), (known_status (j_status j) =? known_status old), (IS_PEND (j_status j) && IS_PEND old); cbn [orb]; try (by intros [= ->]).
  by repeat case_match; intros Es; rewrite ?Es; simplify_eq.
Qed.

End Table.

(** ** The table of reservations *)

(** A job keeps its status but for the reservation, or ends. *)
Definition handled_res (st new : Z) : bool :=
  match kind st, kind new with
  | KPend, KPend | KSSusp, KSSusp | KUSusp, KUSusp => xorb (has st JOB_STAT_RESERVE) (has new JOB_STAT_RESERVE)
  | (KPend | KSSusp | KUSusp), KEnd => has st JOB_STAT_RESERVE
  | _, _ => false
  end.

Section Reserve.
Context (E : grpEnv) (s : acctSt) (j : jobData) (new : Z).
Hypotheses (Hj : job_ok s j) (HE : groups_ok E s) (Hn : num j < 2 ^ 31).
Abbreviation j' := (set_status new j).
Abbreviation d := (cminus (weight j') (weight j)).
Abbreviation h := (cminus (hweight j') (hweight j)).

Lemma quh_reserve d0 h0 : d0 = d -> h0 = h -> exists s', upd_quh E j d0 h0 s = Some s' /\ effect j d h s s'.
Proof using Hj HE. intros -> ->. by apply quh_effect. Qed.
Lemma qhu_reserve d0 h0 : d0 = d -> h0 = h -> exists s', upd_qhu E j d0 h0 s = Some s' /\ effect j d h s s'.
Proof using Hj HE. intros -> ->. by apply qhu_effect. Qed.

Ltac res_case Ho Hw Ro Rw :=
  repeat match goal with
  | |- context [has (j_status j) ?b] => rewrite (has_known (j_status j) b eq_refl eq_refl), Ho
  | |- context [has new ?b] => rewrite (has_known new b eq_refl eq_refl), Hw
  end;
  repeat match goal with
  | |- context [has ?a ?b] => let v := eval vm_compute in (has a b) in change (has a b) with v
  | |- context [?a =? ?b] => let v := eval vm_compute in (a =? b) in change (a =? b) with v
  end; cbn [orb andb negb];
  first [apply quh_reserve | apply qhu_reserve];
  unfold weight, hweight, kind; cbn [set_status j_status j_numReq]; change (num j') with (num j);
  rewrite Ho, Hw, ?Ro, ?Rw; destruct (jo_req _ _ Hj) as [Hq1 Hq2]; pose proof (jo_num _ _ Hj) as Hq3; rewrite ?i32_small by lia; counts_lia.

Lemma updResCounters_effect :
  handled_res (j_status j) new = true -> exists s', updResCounters E j new s = Some s' /\ effect j d h s s'.
Proof using Hj HE Hn.
  unfold handled_res. intros Hh.
  assert (Ho : known_status (j_status j) ∈ all_known) by (apply kind_known; intros Ek; rewrite Ek in Hh; by destruct (kind new)).
  assert (Hw : known_status new ∈ all_known) by (apply kind_known; intros Ek; rewrite Ek in Hh; by destruct (kind (j_status j))).
  unfold kind in Hh; unfold all_known in Ho, Hw; rewrite !elem_of_cons, elem_of_nil in Ho, Hw.
  unfold updResCounters, IS_PEND, IS_START, IS_FINISH. destruct (has (j_status j) JOB_STAT_RESERVE) eqn:Ro, (has new JOB_STAT_RESERVE) eqn:Rw; cbn [xorb] in Hh;
    (destruct Ho as [Ho|[Ho|[Ho|[Ho|[Ho|[Ho|[Ho|[]]]]]]]]; rewrite Ho in Hh |- *; try (by destruct Hw as [Hw|[Hw|[Hw|[Hw|[Hw|[Hw|[Hw|[]]]]]]]]; rewrite Hw in Hh));
    (destruct Hw as [Hw|[Hw|[Hw|[Hw|[Hw|[Hw|[Hw|[]]]]]]]]; rewrite Hw in Hh; try discriminate Hh; res_case Ho Hw Ro Rw).
Qed.

End Reserve.

(** ** Jobs that count for nothing *)

Lemma null_weights st j : kind st = KOther -> weight (set_status st j) = czero /\ hweight (set_status st j) = czero.
Proof. intros Hk. unfold weight, hweight. cbn [set_status j_status]. rewrite Hk. by destruct (has st JOB_STAT_RESERVE). Qed.

Definition no_weight (j : jobData) : Prop := weight j = czero /\ hweight j = czero.

Lemma no_weight_sums s j : no_weight j -> (forall q, wq q j = czero) /\ (forall q n, wqu s q n j = czero) /\ (forall u, wu s u j = czero) /\ (forall x, wh x j = czero).
Proof.
  intros [Hw Hh]. unfold wq, wqu, wu, wh. rewrite Hw, Hh. split_and!; intros; try (by case_match); try (by destruct (_ : bool)); counts_lia.
Qed.

(** Adding such a job, or replacing it by another one, changes no sum. *)
Lemma null_agrees J s k j : no_weight j -> (forall j0, J !! k = Some j0 -> no_weight j0) -> agrees J s -> agrees (<[k := j]> J) s.
Proof.
  intros Hj Hold [Aq Aa Au Ah]. destruct (no_weight_sums s j Hj) as (W1 & W2 & W3 & W4).
  assert (Hsum : forall w, w j = czero -> (forall j0, no_weight j0 -> w j0 = czero) -> csum w (<[k := j]> J) = csum w J).
  { intros w Ew E0. destruct (J !! k) as [j0|] eqn:Hk.
    - rewrite (csum_change w J k j0 j Hk), Ew, (E0 j0) by auto. counts_lia.
    - rewrite csum_new, Ew by done. counts_lia. }
  split.
  - intros q Q HQ. rewrite Hsum; [by apply Aq|done|intros j0 H0; apply (no_weight_sums s j0 H0)].
  - intros q Q n HQ. rewrite Hsum; [by apply Aa|done|intros j0 H0; apply (no_weight_sums s j0 H0)].
  - intros u U HU. rewrite Hsum; [by apply Au|done|intros j0 H0; apply (no_weight_sums s j0 H0)].
  - intros x H HH. rewrite Hsum; [by apply Ah|done|intros j0 H0; apply (no_weight_sums s j0 H0)].
Qed.

(** A change that leaves the weights alone. *)
Lemma same_sums_agrees J s k j0 j :
  J !! k = Some j0 -> weight j = weight j0 -> (forall x, wh x j = wh x j0) -> j_qPtr j = j_qPtr j0 -> j_uPtr j = j_uPtr j0 -> agrees J s -> agrees (<[k := j]> J) s.
Proof.
  intros Hk Hw Hh Eq Eu [Aq Aa Au Ah].
  assert (Hsum : forall w, w j = w j0 -> csum w (<[k := j]> J) = csum w J) by (intros w Ew; rewrite (csum_change w J k j0 j Hk), Ew; unfold cminus; counts_lia).
  assert (Enm : acct_names s j = acct_names s j0) by (unfold acct_names; by rewrite Eu). assert (Erc : user_recs s j = user_recs s j0) by (unfold user_recs; by rewrite Eu).
  split.
  - intros q Q HQ. rewrite Hsum; [by apply Aq|unfold wq; by rewrite Eq, Hw].
  - intros q Q n HQ. rewrite Hsum; [by apply Aa|unfold wqu; by rewrite Eq, Hw, Enm].
  - intros u U HU. rewrite Hsum; [by apply Au|unfold wu; by rewrite Hw, Erc].
  - intros x H HH. rewrite Hsum; [by apply Ah|done].
Qed.

Lemma same_weight_agrees J s k j0 j :
  J !! k = Some j0 -> weight j = weight j0 -> hweight j = hweight j0 -> same_job j0 j -> agrees J s -> agrees (<[k := j]> J) s.
Proof. intros Hk Hw Hh (Eh & _ & Eq & Eu & _). apply (same_sums_agrees J s k j0); [done..| |done|done]. intros x. unfold wh, occ. by rewrite Eh, Hh. Qed.
