(* ===== verification/AccountRun.v ===== *)
(** * Accounts: the counters always agree with the jobs

    Submitting a job, changing its status, reserving slots, moving it to another
    queue and counting all jobs again after the event log has been replayed. *)

From Stdlib Require Import SpecFloat.
From stdpp Require Import strings relations.
From S2P Require Import Prelude Lsb Float32 FloatOrd Fairshare Grp Account AccountOk AccountStep.

(** ** Counting a job *)

Section Count.
Context (E : grpEnv) (fsE : Z -> fsenv).

(** The end of [handleNewJob]: a new job counts as pending. *)
Definition count_new (j : jobData) (s : acctSt) : option acctSt :=
  let d := Counts (j_numReq j) (j_numReq j) 0 0 0 0 in
  s ← updQaccount j d s; updUserData E j d s.

(** [HOST_STAT_EXCLUSIVE] for the hosts of a job. *)
Fixpoint set_exclusive (l : list Z) (m : gmap Z hData) : option (gmap Z hData) :=
  match l with
  | [] => Some m
  | p :: l =>
      h ← m !! p;
      set_exclusive l (<[p := HData (h_host h) (h_counts h) (h_maxJobs h) (h_uJobLimit h) (Z.lor (h_status h) HOST_STAT_EXCLUSIVE) (h_uAcct h)]> m)
  end.

(** One job of the loop of [init_log]; [excl] is [SUB_EXCLUSIVE]. *)
Definition recount_job (excl : bool) (j : jobData) (s : acctSt) : option acctSt :=
  s ← count_new (set_status JOB_STAT_PEND j) s;
  if has (j_status j) JOB_STAT_PEND then Some s else
  '(j, s) ← updCounters E fsE j JOB_STAT_PEND false s;
  if excl && IS_START (j_status j) then m ← set_exclusive (j_hPtr j) (hs s); Some (with_hs m s) else Some s.

Fixpoint recount (l : list (bool * jobData)) (s : acctSt) : option acctSt :=
  match l with
  | [] => Some s
  | (excl, j) :: l => s ← recount_job excl j s; recount l s
  end.

End Count.

(** ** Consistency *)

(** The counters agree with the jobs, the records the jobs refer to exist, and
    the sums fit into an [int]. *)
Record consistent (E : grpEnv) (J : jobs) (s : acctSt) : Prop := {
  co_agrees : agrees J s;
  co_jobs : jobs_ok s J;
  co_small : small J;
  co_groups : groups_ok E s }.

Lemma static_groups E s s' : static s s' -> groups_ok E s -> groups_ok E s'.
Proof. intros Hs HE El u U HU. destruct (static_user_inv s s' u U Hs HU) as (U0 & HU0 & _ & -> & _). by apply (HE El u). Qed.

Lemma zsum_nonneg l : Forall (fun n => 0 <= n) l -> 0 <= zsum l.
Proof. induction 1; [done|]. rewrite zsum_cons. lia. Qed.

Lemma small_num E J s k j : consistent E J s -> J !! k = Some j -> num j < 2 ^ 31.
Proof.
  intros [_ Hok Hsm _] Hk. pose proof (Hok k j Hk) as Hj. unfold small in Hsm. rewrite <- (insert_delete_id J k j Hk), (map_to_list_insert _ k j (lookup_delete_eq J k)) in Hsm.
  cbn [fmap list_fmap] in Hsm. rewrite zsum_cons in Hsm. cbn [snd] in Hsm. pose proof (jo_req _ _ Hj). unfold jsize in Hsm at 1.
  assert (0 <= zsum ((fun p => jsize p.2) <$> map_to_list (delete k J))); [|lia]. apply zsum_nonneg. apply Forall_fmap, Forall_forall. intros [i x] Hx%elem_of_map_to_list.
  cbn. apply lookup_delete_Some in Hx as [_ Hx]. pose proof (jo_num _ _ (Hok i x Hx)). pose proof (jo_req _ _ (Hok i x Hx)). unfold jsize. lia.
Qed.

Lemma consistent_hosts E J s : consistent E J s -> hosts_in_range s.
Proof. intros [Ha Hok Hsm _] x H. by apply (host_range J). Qed.

Lemma job_ok_status s j new : (kind new = KPend -> has new JOB_STAT_RESERVE = true -> num j <= j_numReq j) -> job_ok s j -> job_ok s (set_status new j).
Proof. intros Hr [H1 H2 H3 H4 H5 H6 H7 _]. by split. Qed.

Lemma set_status_back j new : set_status (j_status j) (set_status new j) = j.
Proof. by destruct j. Qed.
Lemma same_status j new : same_job j (set_status new j).
Proof. done. Qed.

Section Run.
Context (E : grpEnv) (fsE : Z -> fsenv).

Lemma effect_consistent J s s' k j0 j jx :
  consistent E J s -> J !! k = Some j0 -> same_job j0 j -> job_ok s j -> same_place j jx ->
  effect jx (cminus (weight j) (weight j0)) (cminus (hweight j) (hweight j0)) s s' -> consistent E (<[k := j]> J) s'.
Proof using.
  intros [Ha Hok Hsm HE] Hk Hs Hj Hp He. pose proof (effect_static _ _ _ _ _ He) as Hst.
  destruct (effect_agrees J s s' k j0 j Hk Ha Hok Hsm Hj Hs jx Hp He) as [Ha' Hok']. split; [done|done|by apply (small_change J k j0)|by apply (static_groups E s)].
Qed.

Lemma moved_consistent J s s' k j0 j :
  consistent E J s -> J !! k = Some j0 -> same_job j0 j -> job_ok s j -> moved j0 j s s' -> consistent E (<[k := j]> J) s'.
Proof using.
  intros Hc Hk Hs Hj [He|(-> & Hw & Hh)]; [by apply (effect_consistent J s s' k j0 j j)|]. destruct Hc as [Ha Hok Hsm HE].
  split; [by apply (same_weight_agrees J s k j0)|by apply changed_ok|by apply (small_change J k j0)|done].
Qed.

(** ** Changes of status *)

Lemma leave_tree_same logit j s j1 s1 :
  leave_tree fsE logit j s = Some (j1, s1) ->
  same_job j j1 /\ j_status j1 = j_status j /\ weight j1 = weight j /\ hweight j1 = hweight j /\ qs s1 = qs s /\ us s1 = us s /\ hs s1 = hs s.
Proof using.
  unfold leave_tree. destruct logit; [|by intros [= <- <-]]. destruct (accumHistCpuTime _ _ _) as [m|]; [|done]. cbn [mbind option_bind].
  unfold detachedJobFromFSTree. destruct (sa (j_fs j) =? NULL); [by intros [= <- <-]; destruct j|].
  destruct (updShareAcctStats _ _ _ _) as [m1|]; [|done]. cbn [mbind option_bind]. destruct (updSAcctPriorityByPath _ _ _) as [m2|]; [|done].
  by intros [= <- <-].
Qed.

(** Only the records of queues, users and hosts matter. *)
Lemma consistent_fs J s s1 : qs s1 = qs s -> us s1 = us s -> hs s1 = hs s -> consistent E J s -> consistent E J s1.
Proof using.
  destruct s as [q u h m], s1 as [q1 u1 h1 m1]. cbn. intros -> -> -> [[A1 A2 A3 A4] Hok Hsm HE]. split; [by split|intros k j Hk|done|done].
  by destruct (Hok k j Hk) as [B1 B2 B3 B4 B5 B6 B7 B8]; split.
Qed.

Lemma updCounters_logit logit j old s : kind (j_status j) <> KEnd -> updCounters E fsE j old logit s = updCounters E fsE j old false s.
Proof using.
  intros Hk. unfold updCounters. destruct ((known_status (j_status j) =? JOB_STAT_EXIT) || (known_status (j_status j) =? JOB_STAT_DONE)) eqn:Ee; [|done].
  destruct Hk. unfold kind. by apply orb_true_iff in Ee as [Ee%Z.eqb_eq|Ee%Z.eqb_eq]; rewrite Ee.
Qed.

Lemma kind_end st : kind st = KEnd -> known_status st = JOB_STAT_EXIT \/ known_status st = JOB_STAT_DONE.
Proof using.
  unfold kind. destruct (Z.eqb_spec (known_status st) JOB_STAT_EXIT), (Z.eqb_spec (known_status st) JOB_STAT_DONE); [auto..|]. by repeat case_match.
Qed.

(** The statuses with the bits of an ended job are those of the kind. *)
Lemma finish_kind st : kind st <> KOther -> IS_FINISH st = bool_decide (kind st = KEnd).
Proof using.
  intros Hk%kind_known. unfold IS_FINISH, kind. rewrite (has_known st JOB_STAT_DONE), (has_known st JOB_STAT_EXIT) by done.
  unfold all_known in Hk. rewrite !elem_of_cons, elem_of_nil in Hk. by destruct Hk as [Ho|[Ho|[Ho|[Ho|[Ho|[Ho|[Ho|[]]]]]]]]; rewrite Ho.
Qed.

Lemma updCounters_end j old logit s :
  kind (j_status j) = KEnd -> IS_FINISH old = false ->
  updCounters E fsE j old logit s = '(j, s) ← leave_tree fsE logit j s; s ← to_end E j old s; Some (j, s).
Proof using.
  intros Hk Hf. unfold updCounters. rewrite Hf. unfold IS_PEND, IS_FINISH in *. apply orb_false_iff in Hf as [F1 F2].
  rewrite (has_known old JOB_STAT_DONE) in F1 by done. rewrite (has_known old JOB_STAT_EXIT) in F2 by done.
  rewrite (has_known (j_status j) JOB_STAT_PEND), (has_known (j_status j) JOB_STAT_PSUSP) by done.
  destruct (kind_end _ Hk) as [Ee|Ee]; rewrite Ee; (destruct (Z.eqb_spec JOB_STAT_EXIT (known_status old)) as [Eo|]; [by rewrite <- Eo in F2|]) || idtac;
    (destruct (Z.eqb_spec JOB_STAT_DONE (known_status old)) as [Eo|]; [by rewrite <- Eo in F1|]) || idtac; done.
Qed.

(** The job that ends can leave its fairshare account. *)
Definition can_leave (logit : bool) (new : Z) (j : jobData) (s : acctSt) : Prop :=
  kind new = KEnd -> IS_FINISH (j_status j) = false -> is_Some (leave_tree fsE logit (set_status new j) s).

Lemma status_step J s k j new logit :
  consistent E J s -> J !! k = Some j -> handled (j_status j) new = true -> can_leave logit new j s ->
  exists j' s', updCounters E fsE (set_status new j) (j_status j) logit s = Some (j', s') /\
    j_status j' = new /\ same_job j j' /\ consistent E (<[k := j']> J) s'.
Proof using.
  intros Hc Hk Hh Hlv. pose proof (co_jobs _ _ _ Hc k j Hk) as Hj. set (jn := set_status new j).
  assert (Hnr : has new JOB_STAT_RESERVE = false) by (unfold handled in Hh; destruct (has (j_status j) _), (has new _); done).
  assert (Hjn : job_ok s jn) by (apply job_ok_status; [by rewrite Hnr|done]).
  assert (Hko : kind (j_status j) <> KOther) by (intros Ek; unfold handled in Hh; rewrite Ek in Hh; destruct (negb _), (negb _); done).
  destruct (decide (kind new = KEnd)) as [He|Hne].
  2: { rewrite (updCounters_logit logit jn) by done. destruct (status_moved E fsE s jn (j_status j) Hjn (co_groups _ _ _ Hc) (consistent_hosts _ _ _ Hc) (small_num _ _ _ _ _ Hc Hk) Hh Hne) as (s' & -> & Hm).
       unfold jn in Hm. rewrite set_status_back in Hm. exists jn, s'. split_and!; [done..|]. by apply (moved_consistent J s s' k j). }
  destruct (IS_FINISH (j_status j)) eqn:Hf.
  { exists jn, s. unfold updCounters. rewrite Hf. split_and!; [done..|]. apply (moved_consistent J s s k j); [done..|]. right.
    rewrite (finish_kind _ Hko) in Hf. apply bool_decide_eq_true in Hf. unfold weight, hweight, jn. cbn. rewrite Hf, He. by destruct (has (j_status j) _), (has new _). }
  rewrite (updCounters_end jn) by done. destruct (Hlv He Hf) as [[j1 s1] El]. unfold jn. rewrite El. cbn [mbind option_bind]. cbv beta iota.
  destruct (leave_tree_same logit jn s j1 s1 El) as (Hs1 & Est & Ew & Ewh & Eq & Eu & Ehs). pose proof (consistent_fs J s s1 Eq Eu Ehs Hc) as Hc1.
  assert (Hj1 : job_ok s1 j1). { destruct Hs1 as (X1 & X2 & X3 & X4 & X5). pose proof (co_jobs _ _ _ Hc1 k j Hk) as [B1 B2 B3 B4 B5 B6 B7 _]. unfold acct_names, user_recs in *.
    split; unfold acct_names, user_recs; rewrite ?X1, ?X2, ?X3, ?X4, ?X5, ?Est; cbn [jn set_status j_status]; [done..|by rewrite Hnr]. }
  assert (Hn1 : num j1 < 2 ^ 31) by (destruct Hs1 as (_ & _ & _ & _ & ->); exact (small_num _ _ _ _ _ Hc Hk)).
  destruct (end_moved E s1 j1 (j_status j) Hj1 (co_groups _ _ _ Hc1) (consistent_hosts _ _ _ Hc1) Hn1) as (s' & -> & Hm); [by rewrite Est|by rewrite Est|done|].
  exists j1, s'. split_and!; [done|done|by destruct j|]. apply (moved_consistent J s1 s' k j); [done|done|by destruct j|done|].
  destruct Hs1 as (X1 & X2 & X3 & X4 & X5). unfold moved in *. unfold weight, hweight in Hm |- *. cbn [set_status j_status j_numReq] in Hm. unfold num in Hm, X5 |- *. cbn [set_status j_fs] in Hm. by rewrite X5, X2 in Hm |- *.
Qed.

(** ** Reservations *)

Lemma reserve_step J s k j new :
  consistent E J s -> J !! k = Some j -> handled_res (j_status j) new = true ->
  (kind new = KPend -> has new JOB_STAT_RESERVE = true -> num j <= j_numReq j) ->
  exists s', updResCounters E j new s = Some s' /\ static s s' /\ consistent E (<[k := set_status new j]> J) s'.
Proof using.
  intros Hc Hk Hh Hr. pose proof (co_jobs _ _ _ Hc k j Hk) as Hj.
  destruct (updResCounters_effect E s j new Hj (co_groups _ _ _ Hc) (small_num _ _ _ _ _ Hc Hk) Hh) as (s' & -> & He).
  exists s'. split_and!; [done|by apply effect_static in He|]. apply (effect_consistent J s s' k j (set_status new j) j); [done..|by apply job_ok_status|done|done].
Qed.

(** ** New jobs *)

(** The same job without a status that counts. *)
Abbreviation null j := (set_status JOB_STAT_NULL j).

Lemma null_no_weight j : no_weight (null j).
Proof using. by apply null_weights. Qed.

Definition zroom (J : jobs) (n : Z) : Prop := zsum ((fun p => jsize p.2) <$> map_to_list J) + n < 2 ^ 31.

Lemma small_new J k j : J !! k = None -> zroom J (jsize j) -> small (<[k := j]> J).
Proof using. intros Hk Hr. unfold small, zroom in *. rewrite (map_to_list_insert _ k j Hk). cbn [fmap list_fmap]. rewrite zsum_cons. cbn [snd]. lia. Qed.

Lemma null_consistent J s k j :
  consistent E J s -> J !! k = None -> zroom J (jsize j) -> job_ok s j -> consistent E (<[k := null j]> J) s.
Proof using.
  intros [Ha Hok Hsm HE] Hk Hr Hj. split; [|intros i x Hi|by apply small_new|done].
  - apply null_agrees; [apply null_no_weight|intros j0 H0; by rewrite Hk in H0|done].
  - destruct (decide (i = k)) as [->|Hne]; [rewrite lookup_insert_eq in Hi; injection Hi as <-; by apply job_ok_status|]. rewrite lookup_insert_ne in Hi by done. by apply (Hok i).
Qed.

Lemma cminus_null j : cminus (weight j) (weight (null j)) = weight j /\ cminus (hweight j) (hweight (null j)) = hweight j.
Proof using. destruct (null_no_weight j) as [-> ->]. split; unfold cminus; counts_lia. Qed.
Lemma null_cminus j : cminus (weight (null j)) (weight j) = cscale (-1) (weight j) /\ cminus (hweight (null j)) (hweight j) = cscale (-1) (hweight j).
Proof using. destruct (null_no_weight j) as [-> ->]. split; unfold cminus; counts_lia. Qed.

Lemma null_same j : same_job (null j) j.
Proof using. done. Qed.

(** A job that did not count, and now counts for its weight. *)
Lemma enter_consistent J s s' k j jx :
  consistent E (<[k := null j]> J) s -> job_ok s j -> same_place j jx -> effect jx (weight j) (hweight j) s s' -> consistent E (<[k := j]> J) s'.
Proof using.
  intros Hc Hj Hp He. rewrite <- (insert_insert_eq J k j (null j)). apply (effect_consistent _ s s' k (null j) j jx); [done|apply lookup_insert_eq|done..|].
  destruct (cminus_null j) as [-> ->]. done.
Qed.

(** A job that counted for its weight, and does no longer. *)
Lemma leave_consistent J s s' k j jx :
  consistent E J s -> J !! k = Some j -> same_place j jx -> effect jx (cscale (-1) (weight j)) (cscale (-1) (hweight j)) s s' -> consistent E (<[k := null j]> J) s'.
Proof using.
  intros Hc Hk Hp He. pose proof (co_jobs _ _ _ Hc k j Hk) as Hj. apply (effect_consistent _ s s' k j (null j) jx); [done..|by apply job_ok_status|done|].
  destruct (null_cminus j) as [-> ->]. done.
Qed.

Definition pending (j : jobData) : Prop := kind (j_status j) = KPend /\ has (j_status j) JOB_STAT_RESERVE = false.

Lemma pending_weight j : pending j -> weight j = Counts (j_numReq j) (j_numReq j) 0 0 0 0 /\ hweight j = czero.
Proof using. intros [Hk Hr]. unfold weight, hweight. by rewrite Hk, Hr. Qed.

Lemma job_ok_null s j : pending j -> job_ok s (null j) -> job_ok s j.
Proof using. intros [_ Hr] [H1 H2 H3 H4 H5 H6 H7 _]. split; [done..|]. by rewrite Hr. Qed.

(** A job that is known but counts for nothing yet. *)
Lemma count_step J s k j :
  consistent E J s -> J !! k = Some (null j) -> pending j -> exists s', count_new E j s = Some s' /\ consistent E (<[k := j]> J) s'.
Proof using.
  intros Hc Hk Hp. pose proof (job_ok_null s j Hp (co_jobs _ _ _ Hc k _ Hk)) as Hj. unfold count_new. destruct (pending_weight j Hp) as [Ew Eh].
  destruct (qu_effect E j (Counts (j_numReq j) (j_numReq j) 0 0 0 0) s Hj (co_groups _ _ _ Hc) (consistent_hosts _ _ _ Hc)) as (s' & -> & He).
  exists s'. split; [done|]. apply (enter_consistent J s s' k j j); [by rewrite insert_id|done..|]. by rewrite Ew, Eh.
Qed.

Lemma new_step J s k j :
  consistent E J s -> J !! k = None -> zroom J (jsize j) -> job_ok s j -> pending j ->
  exists s', count_new E j s = Some s' /\ consistent E (<[k := j]> J) s'.
Proof using.
  intros Hc Hk Hr Hj Hp. destruct (count_step (<[k := null j]> J) s k j) as (s' & Es & Hc'); [by apply null_consistent|apply lookup_insert_eq|done|].
  exists s'. by rewrite insert_insert_eq in Hc'.
Qed.

(** ** Counting all jobs again *)

Lemma set_exclusive_spec l m :
  Forall (fun h => is_Some (m !! h)) l ->
  exists m', set_exclusive l m = Some m' /\ forall x, option_Forall2 (fun a b => same_host a b /\ h_counts b = h_counts a) (m !! x) (m' !! x).
Proof using.
  revert m. induction l as [|p l IH]; intros m Hl; [exists m; split; [done|]; intros x; destruct (m !! x); by constructor|].
  apply Forall_cons in Hl as [[H HH] Hl]. cbn [set_exclusive]. rewrite HH. cbn [mbind option_bind]. set (H' := HData _ _ _ _ _ _).
  destruct (IH (<[p := H']> m)) as (m' & -> & Hm').
  { eapply Forall_impl; [exact Hl|]. intros x [X HX]. destruct (decide (x = p)) as [->|Hne]; [rewrite lookup_insert_eq; by eexists|rewrite lookup_insert_ne by done; by eexists]. }
  exists m'. split; [done|]. intros x. specialize (Hm' x). destruct (decide (x = p)) as [->|Hne]; [|by rewrite lookup_insert_ne in Hm'].
  rewrite lookup_insert_eq in Hm'. rewrite HH. inversion Hm' as [a b [Hs Ec]|]; subst. constructor. split; [|done]. unfold same_host in *. rewrite Hs. unfold H'. cbn. by apply has_lor_other.
Qed.

Lemma hosts_consistent J s m :
  (forall x, option_Forall2 (fun a b => same_host a b /\ h_counts b = h_counts a) (hs s !! x) (m !! x)) -> consistent E J s -> consistent E J (with_hs m s).
Proof using.
  intros Hm [[A1 A2 A3 A4] Hok Hsm HE].
  assert (Hst : static s (with_hs m s)) by (split; [done|intros x; exact (st_user s s (reflexivity s) x)|intros x; cbn; destruct (Hm x) as [a b [H _]|]; by constructor]).
  split; [|intros k j Hk; by apply (static_job_ok s), (Hok k)|done|done]. split; [done|done|done|].
  intros x H' HH. cbn in HH. specialize (Hm x). rewrite HH in Hm. inversion Hm as [a b [_ Ec] Ea|]; subst. rewrite Ec. by apply A4.
Qed.

(** The statuses of jobs that [recount_job] brings to account. *)
Definition countable (j : jobData) : Prop := handled JOB_STAT_PEND (j_status j) = true /\ kind (j_status j) <> KEnd.

Lemma recount_step J s k excl j :
  consistent E J s -> J !! k = Some (null j) -> countable j ->
  exists s', recount_job E fsE excl j s = Some s' /\ consistent E (<[k := j]> J) s'.
Proof using.
  intros Hc Hk [Hh Hne]. unfold recount_job. destruct (count_step J s k (set_status JOB_STAT_PEND j) Hc) as (s1 & -> & Hc1); [by destruct j|done|]. cbn [mbind option_bind].
  pose proof (lookup_insert_eq J k (set_status JOB_STAT_PEND j)) as Hk1.
  destruct (status_step _ s1 k _ (j_status j) false Hc1 Hk1 Hh) as (j' & s2 & Eu & Ej & Hsj & Hc2); [by intros He; destruct Hne|].
  assert (Esj : set_status (j_status j) (set_status JOB_STAT_PEND j) = j) by by destruct j. rewrite Esj in Eu. cbn [j_status set_status] in Eu. rewrite insert_insert_eq in Hc2.
  assert (Ej' : j' = j). { revert Eu. unfold updCounters. destruct ((known_status (j_status j) =? JOB_STAT_EXIT) || (known_status (j_status j) =? JOB_STAT_DONE)) eqn:Ee.
    - destruct Hne. unfold kind. by apply orb_true_iff in Ee as [Ee%Z.eqb_eq|Ee%Z.eqb_eq]; rewrite Ee.
    - repeat case_match; intros Eu; try (by simplify_eq); apply bind_Some in Eu as (? & _ & Eu); by simplify_eq. }
  subst j'. rewrite Eu. cbn [mbind option_bind]. cbv beta iota. destruct (has (j_status j) JOB_STAT_PEND) eqn:Hpe.
  - exists s1. split; [done|]. assert (E1 : s2 = s1); [|by rewrite <- E1]. revert Eu. unfold updCounters, IS_PEND. rewrite Hpe. change (IS_FINISH JOB_STAT_PEND) with false. cbn [orb andb]. destruct (known_status (j_status j) =? known_status JOB_STAT_PEND); by intros [= ->].
  - destruct (excl && IS_START (j_status j)); [|by exists s2]. pose proof (co_jobs _ _ _ Hc2 k j (lookup_insert_eq _ _ _)) as Hj.
    destruct (set_exclusive_spec (j_hPtr j) (hs s2)) as (m & -> & Hm); [by apply job_hosts|]. exists (with_hs m s2). split; [done|]. by apply hosts_consistent.
Qed.

Lemma recount_all (l : list (Z * (bool * jobData))) J s :
  consistent E J s -> NoDup l.*1 -> (forall k b j, (k, (b, j)) ∈ l -> J !! k = Some (null j) /\ countable j) ->
  exists s', recount E fsE l.*2 s = Some s' /\ consistent E (list_to_map (prod_map id snd <$> l) ∪ J) s'.
Proof using.
  revert J s. induction l as [|[k [b j]] l IH]; intros J s Hc Hnd Hl.
  { exists s. split; [done|]. cbn. by rewrite (left_id_L ∅ (∪)). }
  cbn [fmap list_fmap fst snd] in Hnd |- *. apply NoDup_cons in Hnd as [Hnk Hnd]. destruct (Hl k b j (list_elem_of_here _ _)) as [Hk Hcb].
  cbn [recount]. destruct (recount_step J s k b j Hc Hk Hcb) as (s1 & -> & Hc1). cbn [mbind option_bind].
  destruct (IH (<[k := j]> J) s1 Hc1 Hnd) as (s' & -> & Hc').
  { intros i b' x Hx. destruct (Hl i b' x (list_elem_of_further _ _ _ Hx)) as [H1 H2]. split; [|done].
    rewrite lookup_insert_ne; [done|]. intros <-. apply Hnk. by apply (list_elem_of_fmap_2 fst _ (k, (b', x))). }
  exists s'. split; [done|]. cbn [list_to_map foldr prod_map id fst snd]. rewrite <- insert_union_l, insert_union_r; [done|].
  apply not_elem_of_list_to_map_1. by rewrite <- list_fmap_compose.
Qed.

(** ** Moving to another queue *)

(** The statuses [updSwitchJob] knows. *)
Definition switchable : list Z :=
  [JOB_STAT_PEND; JOB_STAT_PSUSP; JOB_STAT_RUN; Z.lor JOB_STAT_RUN JOB_STAT_UNKWN; JOB_STAT_SSUSP; Z.lor JOB_STAT_SSUSP JOB_STAT_UNKWN;
   JOB_STAT_USUSP; Z.lor JOB_STAT_USUSP JOB_STAT_UNKWN].

Lemma known_masked st : known_status st = Z.ldiff (MASK_STATUS st) JOB_STAT_UNKWN.
Proof using.
  unfold known_status, MASK_STATUS. apply Z.bits_inj'. intros i Hi. rewrite Z.ldiff_spec, !Z.land_spec, Z.ldiff_spec.
  by destruct (Z.testbit st i), (Z.testbit MASK_INT_JOB_STAT i), (Z.testbit JOB_STAT_UNKWN i).
Qed.

Lemma mask_reserve st : MASK_STATUS (Z.ldiff st JOB_STAT_RESERVE) = MASK_STATUS st /\ MASK_STATUS (Z.lor st JOB_STAT_RESERVE) = MASK_STATUS st.
Proof using.
  assert (Hb : forall i, Z.testbit MASK_INT_JOB_STAT i && Z.testbit JOB_STAT_RESERVE i = false) by (intros i; by rewrite <- Z.land_spec, Z.bits_0).
  unfold MASK_STATUS. split; apply Z.bits_inj'; intros i Hi; specialize (Hb i); rewrite !Z.land_spec, ?Z.ldiff_spec, ?Z.lor_spec;
    by destruct (Z.testbit st i), (Z.testbit MASK_INT_JOB_STAT i), (Z.testbit JOB_STAT_RESERVE i).
Qed.

Lemma kind_reserve st : kind (Z.ldiff st JOB_STAT_RESERVE) = kind st /\ kind (Z.lor st JOB_STAT_RESERVE) = kind st.
Proof using. destruct (mask_reserve st) as [E1 E2]. unfold kind. by rewrite !known_masked, E1, E2. Qed.

Lemma has_reserve st : has (Z.ldiff st JOB_STAT_RESERVE) JOB_STAT_RESERVE = false /\ has (Z.lor st JOB_STAT_RESERVE) JOB_STAT_RESERVE = true.
Proof using.
  unfold has. split.
  - replace (Z.land (Z.ldiff st JOB_STAT_RESERVE) JOB_STAT_RESERVE) with 0; [done|]. apply Z.bits_inj'. intros i Hi. rewrite Z.land_spec, Z.ldiff_spec, Z.bits_0.
    by destruct (Z.testbit st i), (Z.testbit JOB_STAT_RESERVE i).
  - replace (Z.land (Z.lor st JOB_STAT_RESERVE) JOB_STAT_RESERVE) with JOB_STAT_RESERVE; [done|]. apply Z.bits_inj'. intros i Hi. rewrite Z.land_spec, Z.lor_spec.
    by destruct (Z.testbit st i), (Z.testbit JOB_STAT_RESERVE i).
Qed.

Lemma back_reserve st : has st JOB_STAT_RESERVE = true -> Z.lor (Z.ldiff st JOB_STAT_RESERVE) JOB_STAT_RESERVE = st.
Proof using.
  intros Hr. apply Z.bits_inj'. intros i Hi. rewrite Z.lor_spec, Z.ldiff_spec. change JOB_STAT_RESERVE with (2 ^ 29) in *. rewrite Z.pow2_bits_eqb by lia.
  destruct (Z.eqb_spec 29 i) as [<-|]; [|by destruct (Z.testbit st i)]. rewrite orb_true_r. symmetry. unfold has in Hr. apply negb_true_iff, Z.eqb_neq in Hr.
  destruct (Z.testbit st 29) eqn:Eb; [done|]. destruct Hr. apply Z.bits_inj'. intros n Hn. rewrite Z.land_spec, Z.bits_0, Z.pow2_bits_eqb by lia.
  destruct (Z.eqb_spec 29 n) as [<-|]; [by rewrite Eb|by rewrite andb_false_r].
Qed.

(** The job before the move; its number of slots may be changed by the move. *)
Definition moving (jf j : jobData) (qfp old : Z) : Prop :=
  j_qPtr jf = qfp /\ j_numReq jf = old /\ j_status j = j_status jf /\ j_hPtr j = j_hPtr jf /\ j_uPtr j = j_uPtr jf /\ j_fs j = j_fs jf.

(** Leaving a queue and entering another, by any functions of the right
    effects. *)
Lemma move_step J s k jf j qfp qtp old out into :
  consistent E J s -> J !! k = Some jf -> moving jf j qfp old -> job_ok s (set_qPtr qfp j) -> job_ok s (set_qPtr qtp j) -> small (<[k := set_qPtr qtp j]> J) ->
  (forall s, job_ok s (set_qPtr qfp j) -> groups_ok E s -> hosts_in_range s ->
     exists s', out (set_qPtr qfp j) s = Some s' /\ effect (set_qPtr qfp j) (cscale (-1) (weight jf)) (cscale (-1) (hweight jf)) s s') ->
  (forall s, job_ok s (set_qPtr qtp j) -> groups_ok E s -> hosts_in_range s ->
     exists s', into (set_qPtr qtp j) s = Some s' /\ effect (set_qPtr qtp j) (weight (set_qPtr qtp j)) (hweight (set_qPtr qtp j)) s s') ->
  exists s', move_job false j qfp qtp out into s = Some (set_qPtr qtp j, s') /\ consistent E (<[k := set_qPtr qtp j]> J) s'.
Proof using.
  intros Hc Hk (Mq & Mr & Mst & Mh & Mu & Mf) Hf Ht Hsm Hout Hinto. unfold move_job. destruct (Hout s Hf (co_groups _ _ _ Hc) (consistent_hosts _ _ _ Hc)) as (s1 & -> & H1).
  cbn [mbind option_bind]. pose proof (effect_static _ _ _ _ _ H1) as Hst. set (jt := set_qPtr qtp j) in *. change (set_qPtr qtp (set_qPtr qfp j)) with jt.
  pose proof (static_job_ok _ _ _ Hst Ht) as Ht1. assert (Hc1 : consistent E (<[k := null jf]> J) s1) by (apply (leave_consistent J s s1 k jf (set_qPtr qfp j)); done).
  assert (Hc2 : consistent E (<[k := null jt]> J) s1).
  { destruct Hc1 as [Ha Hok _ HE]. split; [| |by apply (small_change (<[k := jt]> J) k jt (null jt)) in Hsm; [rewrite insert_insert_eq in Hsm|apply lookup_insert_eq|]|done].
    - rewrite <- (insert_insert_eq J k (null jt) (null jf)). apply null_agrees; [apply null_no_weight| |done]. intros j0. rewrite lookup_insert_eq. intros [= <-]. apply null_no_weight.
    - intros i x Hi. destruct (decide (i = k)) as [->|Hne]; [rewrite lookup_insert_eq in Hi; injection Hi as <-; by apply job_ok_status|]. apply (Hok i). by rewrite lookup_insert_ne in Hi |- *. }
  destruct (Hinto s1 Ht1 (co_groups _ _ _ Hc2) (consistent_hosts _ _ _ Hc2)) as (s2 & -> & H2). exists s2. split; [done|]. by apply (enter_consistent J s1 s2 k jt jt).
Qed.

Section Move.
Context (J : jobs) (s : acctSt) (k : Z) (jf j : jobData) (qfp qtp old : Z).
Hypotheses (Hc : consistent E J s) (Hk : J !! k = Some jf) (Hmv : moving jf j qfp old) (Hf : job_ok s (set_qPtr qfp j)) (Ht : job_ok s (set_qPtr qtp j))
  (Hsm : small (<[k := set_qPtr qtp j]> J)).
Abbreviation jt := (set_qPtr qtp j).
Abbreviation moves r := (exists s', r = Some (jt, s') /\ consistent E (<[k := jt]> J) s').

Lemma move_qhu d h d' h' :
  d = cscale (-1) (weight jf) -> h = cscale (-1) (hweight jf) -> d' = weight jt -> h' = hweight jt ->
  moves (move_job false j qfp qtp (fun j => upd_qhu E j d h) (fun j => upd_qhu E j d' h') s).
Proof using Hc Hk Hmv Hf Ht Hsm. intros -> -> -> ->. apply (move_step J s k jf j qfp qtp old); try done; intros; by apply qhu_effect. Qed.

Lemma move_qu d d' :
  d = cscale (-1) (weight jf) -> czero = cscale (-1) (hweight jf) -> d' = weight jt -> czero = hweight jt ->
  moves (move_job false j qfp qtp (fun j s => s ← updQaccount j d s; updUserData E j d s) (fun j s => s ← updQaccount j d' s; updUserData E j d' s) s).
Proof using Hc Hk Hmv Hf Ht Hsm. intros -> E1 -> E2. apply (move_step J s k jf j qfp qtp old); try done; intros; rewrite <- ?E1, <- ?E2; by apply qu_effect. Qed.

Lemma switch_step : MASK_STATUS (j_status j) ∈ switchable -> has (j_status j) JOB_STAT_RESERVE = false -> moves (switch_counts E false j qfp qtp old s).
Proof using Hc Hk Hmv Hf Ht Hsm.
  intros Hst Hr. pose proof Hmv as (Mq & Mr & Mst & Mh & Mu & Mf). unfold switch_counts. unfold switchable in Hst. rewrite !elem_of_cons, elem_of_nil in Hst.
  destruct Hst as [Hm|[Hm|[Hm|[Hm|[Hm|[Hm|[Hm|[Hm|[]]]]]]]]]; rewrite Hm; cbn [Z.eqb orb];
    first [apply move_qhu | apply move_qu];
    unfold weight, hweight, kind, num; cbn [set_qPtr j_status j_numReq j_fs]; rewrite <- ?Mst, <- ?Mf, ?Mr, known_masked, Hm, Hr;
    repeat match goal with |- context [?a =? ?b] => let v := eval vm_compute in (a =? b) in change (a =? b) with v end; counts_lia.
Qed.

End Move.

Lemma moving_ok s jf j qfp qtp old : moving jf j qfp old -> job_ok s jf -> job_ok s (set_qPtr qtp j) -> job_ok s (set_qPtr qfp j).
Proof using. intros (<- & _) [Hq _ _ _ _ _ _ _] [_ H2 H3 H4 H5 H6 H7 H8]. by split. Qed.

(** A move is to a known queue, in a status that is known, and the total of
    slots stays in range; the slots of a job with a reservation stay the same. *)
Record may_switch (J : jobs) (s : acctSt) (k : Z) (jf j : jobData) (qfp qtp old : Z) : Prop := {
  ms_job : J !! k = Some jf;
  ms_moving : moving jf j qfp old;
  ms_ok : job_ok s (set_qPtr qtp j);
  ms_small : small (<[k := set_qPtr qtp j]> J);
  ms_status : MASK_STATUS (j_status j) ∈ switchable;
  ms_res : has (j_status j) JOB_STAT_RESERVE = true -> j_numReq j = old /\ kind (j_status j) <> KRun }.

Lemma switchable_kind st : MASK_STATUS st ∈ switchable -> kind st = KPend \/ kind st = KRun \/ kind st = KSSusp \/ kind st = KUSusp.
Proof using.
  intros Hm. unfold switchable in Hm. rewrite !elem_of_cons, elem_of_nil in Hm. unfold kind. rewrite known_masked.
  destruct Hm as [Hm|[Hm|[Hm|[Hm|[Hm|[Hm|[Hm|[Hm|[]]]]]]]]]; rewrite Hm;
    first [by left | by right; left | by right; right; left | by right; right; right].
Qed.

Lemma handled_reserve st : kind st = KPend \/ kind st = KSSusp \/ kind st = KUSusp ->
  (has st JOB_STAT_RESERVE = true -> handled_res st (Z.ldiff st JOB_STAT_RESERVE) = true) /\
  (has st JOB_STAT_RESERVE = false -> handled_res st (Z.lor st JOB_STAT_RESERVE) = true).
Proof using.
  intros Hk. unfold handled_res. destruct (kind_reserve st) as [-> ->]. destruct (has_reserve st) as [-> ->].
  split; intros ->; by destruct Hk as [->|[->| ->]].
Qed.

Lemma moving_same jf j qfp old : moving jf j qfp old -> j_numReq j = old -> set_qPtr qfp j = jf.
Proof using. destruct jf, j. intros (M1 & M2 & M3 & M4 & M5 & M6). cbn in *. intros. unfold set_qPtr. cbn. congruence. Qed.

Lemma switch_job_step J s k jf j qfp qtp old :
  consistent E J s -> may_switch J s k jf j qfp qtp old ->
  exists s', updSwitchJob E false j qfp qtp old s = Some (set_qPtr qtp j, s') /\ consistent E (<[k := set_qPtr qtp j]> J) s'.
Proof using.
  intros Hc [Hk Hmv Ht Hsm Hst Hres]. pose proof (moving_ok s jf j qfp qtp old Hmv (co_jobs _ _ _ Hc k jf Hk) Ht) as Hf. unfold updSwitchJob.
  destruct (has (j_status j) JOB_STAT_RESERVE) eqn:Hr; cbv beta iota zeta; cbn [mbind option_bind].
  2: { destruct (switch_step J s k jf j qfp qtp old Hc Hk Hmv Hf Ht Hsm Hst Hr) as (s' & -> & Hc'). by exists s'. }
  destruct (Hres eq_refl) as [Er Hnr]. pose proof (switchable_kind _ Hst) as Hkd. set (st0 := Z.ldiff (j_status j) JOB_STAT_RESERVE).
  assert (Ejf : set_qPtr qfp j = jf) by (apply (moving_same jf j qfp old Hmv Er)). rewrite Ejf in Hf |- *.
  assert (Est : j_status jf = j_status j) by (symmetry; apply Hmv). rewrite !Est. fold st0.
  assert (Hk3 : kind (j_status j) = KPend \/ kind (j_status j) = KSSusp \/ kind (j_status j) = KUSusp) by (destruct Hkd as [?|[?|?]]; [by left|done|by right]).
  destruct (handled_reserve (j_status j) Hk3) as [Hrel _].
  destruct (reserve_step J s k jf st0 Hc Hk) as (s1 & -> & Hs1 & Hc1); [rewrite Est; by apply Hrel|unfold st0; by rewrite (proj1 (has_reserve _))|]. cbn [mbind option_bind]. cbv beta iota zeta.
  set (j0 := set_status st0 (set_qPtr qtp jf)). set (J1 := <[k := set_status st0 jf]> J) in *.
  assert (Hk1 : J1 !! k = Some (set_status st0 jf)) by apply lookup_insert_eq.
  assert (Hmv0 : moving (set_status st0 jf) j0 qfp old) by (destruct Hmv as (M1 & M2 & M3 & M4 & M5 & M6); unfold moving; cbn; split_and!; congruence || done).
  assert (Et0 : set_qPtr qtp j0 = set_status st0 (set_qPtr qtp j)) by (unfold j0; rewrite <- Ejf; by destruct j).
  assert (Hj0 : forall q, job_ok s1 (set_qPtr q j) -> job_ok s1 (set_qPtr q j0)).
  { intros q Hq. replace (set_qPtr q j0) with (set_status st0 (set_qPtr q j)) by (unfold j0; rewrite <- Ejf; by destruct j). apply job_ok_status; [unfold st0; by rewrite (proj1 (has_reserve _))|done]. }
  destruct (switch_step J1 s1 k (set_status st0 jf) j0 qfp qtp old Hc1 Hk1 Hmv0) as (s2 & -> & Hc2).
  - apply Hj0. rewrite Ejf. by apply (static_job_ok s).
  - by apply Hj0, (static_job_ok s).
  - unfold J1. rewrite insert_insert_eq, Et0. apply (small_change (<[k := set_qPtr qtp j]> J) k (set_qPtr qtp j) (set_status st0 (set_qPtr qtp j))) in Hsm; [|apply lookup_insert_eq|done]. by rewrite insert_insert_eq in Hsm.
  - unfold j0. cbn [set_status j_status]. unfold st0. by rewrite (proj1 (mask_reserve _)).
  - apply (has_reserve (j_status j)).
  - cbn [mbind option_bind]. cbv beta iota zeta. rewrite Et0 in Hc2 |- *. cbn [set_status set_qPtr j_status]. unfold J1 in Hc2. rewrite insert_insert_eq in Hc2.
    destruct (handled_reserve st0) as [_ Htake]; [unfold st0; by rewrite (proj1 (kind_reserve _))|].
    destruct (reserve_step _ s2 k _ (Z.lor st0 JOB_STAT_RESERVE) Hc2 (lookup_insert_eq _ _ _)) as (s3 & -> & _ & Hc3); [by apply Htake, has_reserve| |].
    + unfold st0. rewrite (back_reserve _ Hr). intros Hkp _. by apply (jo_res _ _ Ht).
    + exists s3. rewrite insert_insert_eq in Hc3. unfold st0 in Hc3 |- *. rewrite (back_reserve _ Hr) in Hc3 |- *. by destruct j.
Qed.

End Run.
