(* ===== verification/AccountLookup.v ===== *)
(** * Accounts: the groups of a user are looked up when it is first counted

    After a restart the records of the users do not know the groups of the user;
    [updUserData] looks them up when it first counts a job for the user.  Counting
    with such records gives what counting with complete records gives, so what is
    proved of the latter holds after a restart. *)

From Stdlib Require Import SpecFloat.
From stdpp Require Import strings.
From S2P Require Import Prelude Lsb Float32 FloatOrd Fairshare Grp Account AccountOk AccountStep AccountRun.

Section Lookup.
Context (E : grpEnv) (fsE : Z -> fsenv).
(** The groups of the users, by their records. *)
Context (G : Z -> list Z).

Definition looked (p : Z) (u : uData) : uData :=
  if has (u_flags u) USER_INIT then u else set_uflags (Z.lor (u_flags u) USER_INIT) (set_gPtr (G p) u).
Definition look_users (m : gmap Z uData) : gmap Z uData := map_imap (fun p u => Some (looked p u)) m.

(** The state in which all groups have been looked up. *)
Definition look_up (s : acctSt) : acctSt := with_us (look_users (us s)) s.

Lemma look_users_lookup m p : look_users m !! p = looked p <$> m !! p.
Proof. unfold look_users. rewrite map_lookup_imap. by destruct (m !! p). Qed.

Lemma look_users_insert m p u : look_users (<[p := u]> m) = <[p := looked p u]> (look_users m).
Proof.
  apply map_eq. intros i. rewrite look_users_lookup. destruct (decide (i = p)) as [->|].
  - by rewrite !lookup_insert_eq.
  - rewrite !lookup_insert_ne by done. by rewrite look_users_lookup.
Qed.

Lemma looked_init p u : has (u_flags (looked p u)) USER_INIT = true.
Proof.
  unfold looked. destruct (has (u_flags u) USER_INIT) eqn:H; [done|]. cbn. unfold has in *. apply negb_true_iff, Z.eqb_neq. intros Hz.
  apply (f_equal (fun z => Z.testbit z 2)) in Hz. rewrite Z.land_spec, Z.lor_spec in Hz. cbn in Hz. by rewrite orb_true_r in Hz.
Qed.

Lemma looked_twice p u : looked p (looked p u) = looked p u.
Proof. unfold looked at 1. by rewrite looked_init. Qed.

Lemma looked_same p u : u_user (looked p u) = u_user u /\ u_ancestors (looked p u) = u_ancestors u /\ u_limited (looked p u) = u_limited u /\
  u_hAcct (looked p u) = u_hAcct u /\ u_counts (looked p u) = u_counts u /\ u_PENDJobs (looked p u) = u_PENDJobs u.
Proof. unfold looked. destruct (has _ _); by split_and!. Qed.

Lemma looked_update p u c n h : looked p (UData (u_user u) c n (u_limited u) (u_flags u) (u_gPtr u) h (u_ancestors u)) =
  UData (u_user (looked p u)) c n (u_limited (looked p u)) (u_flags (looked p u)) (u_gPtr (looked p u)) h (u_ancestors (looked p u)).
Proof. unfold looked. cbn [u_flags]. by destruct (has _ _). Qed.

Lemma looked_group p u : looked p (set_uflags (Z.lor (u_flags u) USER_GROUP) u) = set_uflags (Z.lor (u_flags (looked p u)) USER_GROUP) (looked p u).
Proof.
  unfold looked. cbn [u_flags set_uflags]. rewrite has_lor_other by done. destruct (has _ _); [done|]. cbn. unfold set_uflags, set_gPtr. cbn. f_equal.
  rewrite <- !Z.lor_assoc. f_equal.
Qed.

Lemma looked_no_group p u : looked p (set_uflags (Z.ldiff (u_flags u) USER_GROUP) u) = set_uflags (Z.ldiff (u_flags (looked p u)) USER_GROUP) (looked p u).
Proof.
  unfold looked. cbn [u_flags set_uflags]. rewrite has_ldiff_other by done. destruct (has _ _); [done|]. cbn. unfold set_uflags, set_gPtr. cbn. f_equal.
  apply Z.bits_inj'. intros n Hn. rewrite !Z.lor_spec, !Z.ldiff_spec, Z.lor_spec. generalize (Z.testbit (u_flags u) n). intros b.
  destruct (decide (n = 0)) as [->|Hn0]; [by destruct b|].
  replace (Z.testbit USER_GROUP n) with false by (change USER_GROUP with (2 ^ 0); symmetry; apply Z.pow2_bits_false; lia). by rewrite !andb_true_r.
Qed.

(** ** The updates *)

Lemma updHAcct_look s j l d tab : updHAcct (hs (look_up s)) j l d tab = updHAcct (hs s) j l d tab.
Proof. done. Qed.

Lemma upd_ancestors_look m j l d : forall tab, upd_ancestors (look_users m) j l d tab = upd_ancestors m j l d tab.
Proof.
  induction l as [|g l IH]; intros tab; [done|]. cbn [upd_ancestors]. rewrite look_users_lookup. destruct (m !! g) as [u|]; [|done]. cbn.
  destruct (looked_same g u) as (-> & _). apply IH.
Qed.

Lemma updQaccount_look j d s : updQaccount j d (look_up s) = look_up <$> updQaccount j d s.
Proof.
  unfold updQaccount. cbn [qs us hs look_up with_us]. destruct (qs s !! j_qPtr j) as [q|]; [|done]. cbn [mbind option_bind].
  rewrite look_users_lookup. destruct (us s !! j_uPtr j) as [u|]; [|done]. cbn [fmap option_fmap option_map mbind option_bind].
  destruct (looked_same (j_uPtr j) u) as (-> & -> & _). rewrite upd_ancestors_look. destruct (upd_ancestors _ _ _ _ _); [|done].
  cbn [mbind option_bind].
  by destruct (if no_start d && (c_PEND d =? 0) then Some (q_hAcct q) else updHAcct (hs s) j (j_hPtr j) d (q_hAcct q)).
Qed.

Lemma updUserData1_look s j p d : updUserData1 (look_up s) j p d = look_up <$> updUserData1 s j p d.
Proof.
  unfold updUserData1. cbn [us hs look_up with_us]. rewrite look_users_lookup. destruct (us s !! p) as [u|]; [|done].
  cbn [fmap option_fmap option_map mbind option_bind]. destruct (j_numReq j =? 0); [done|].
  pose proof (looked_same p u) as (Hn & Ha & Hl & Hh & Hc & Hp). rewrite Hl, Hh, Hc, Hp. 
  destruct (if negb (no_start d) && u_limited u then updHAcct (hs s) j (j_hPtr j) d (u_hAcct u) else Some (u_hAcct u)) as [h|]; [|done].
  cbn [fmap option_fmap option_map mbind option_bind]. unfold look_up, with_us. cbn [us qs hs fsTree]. rewrite look_users_insert, looked_update. by rewrite Hl.
Qed.

Lemma upd_groups_look j d l : forall s, upd_groups (look_up s) j l d = look_up <$> upd_groups s j l d.
Proof.
  induction l as [|g l IH]; intros s; [done|]. cbn [upd_groups]. destruct (g =? NULL); [apply IH|]. cbn [us look_up with_us].
  rewrite look_users_lookup. destruct (us s !! g) as [u|]; [|done]. cbn [fmap option_fmap option_map mbind option_bind].
  replace (with_us (<[g := _]> (look_users (us s))) (look_up s)) with (look_up (with_us (<[g := set_uflags (Z.lor (u_flags u) USER_GROUP) u]> (us s)) s))
    by (unfold look_up, with_us; cbn [us qs hs fsTree]; by rewrite look_users_insert, looked_group).
  rewrite updUserData1_look. destruct (updUserData1 _ j g d) as [s1|]; [|done]. apply IH.
Qed.

(** The groups of the user of a job are those that the look-up finds. *)
Definition groups_of (j : jobData) : Prop := member_groups E (userName (j_fs j)) (ge_usergroups E) = Some (G (j_uPtr j)).

Lemma updUserData_look j d s : groups_of j -> updUserData E j d (look_up s) = look_up <$> updUserData E j d s.
Proof.
  unfold groups_of, updUserData. intros Hg. cbn [us look_up with_us]. rewrite look_users_lookup. destruct (us s !! j_uPtr j) as [u|]; [|done].
  cbn [fmap option_fmap option_map mbind option_bind].
  replace (with_us (<[j_uPtr j := _]> (look_users (us s))) (look_up s))
    with (look_up (with_us (<[j_uPtr j := set_uflags (Z.ldiff (u_flags u) USER_GROUP) u]> (us s)) s))
    by (unfold look_up, with_us; cbn [us qs hs fsTree]; by rewrite look_users_insert, looked_no_group).
  rewrite updUserData1_look. destruct (updUserData1 _ j (j_uPtr j) d) as [s1|]; [|done]. cbn [fmap option_fmap option_map mbind option_bind].
  destruct (ge_usergroups E) as [|x l]; [done|]. cbn [us look_up with_us]. rewrite look_users_lookup. destruct (us s1 !! j_uPtr j) as [u1|] eqn:Eu; [|done].
  cbn [fmap option_fmap option_map mbind option_bind]. rewrite looked_init. cbn [mbind option_bind].
  set (u2 := if has (u_flags u1) USER_INIT then _ else _).
  assert (E2 : u2 = Some (looked (j_uPtr j) u1)) by (subst u2; unfold looked; rewrite Hg; cbn [mbind option_bind]; by destruct (has _ _)).
  rewrite E2. cbn [mbind option_bind]. rewrite <- upd_groups_look. f_equal. unfold look_up, with_us. cbn [us qs hs fsTree]. by rewrite look_users_insert, looked_twice.
Qed.

Lemma updHostData_look j d s : updHostData j d (look_up s) = look_up <$> updHostData j d s.
Proof.
  unfold updHostData. cbn [us hs look_up with_us]. rewrite look_users_lookup. destruct (us s !! j_uPtr j) as [u|]; [|done].
  cbn [fmap option_fmap option_map mbind option_bind]. destruct (looked_same (j_uPtr j) u) as (-> & _). by destruct (upd_hosts _ _ _ _ _).
Qed.

Lemma upd_quh_look j d h s : groups_of j -> upd_quh E j d h (look_up s) = look_up <$> upd_quh E j d h s.
Proof.
  intros Hg. unfold upd_quh. rewrite updQaccount_look. destruct (updQaccount j d s) as [s1|]; [|done]. cbn [fmap option_fmap option_map mbind option_bind].
  rewrite updUserData_look by done. destruct (updUserData E j d s1) as [s2|]; [|done]. apply updHostData_look.
Qed.

Lemma upd_qhu_look j d h s : groups_of j -> upd_qhu E j d h (look_up s) = look_up <$> upd_qhu E j d h s.
Proof.
  intros Hg. unfold upd_qhu. rewrite updQaccount_look. destruct (updQaccount j d s) as [s1|]; [|done]. cbn [fmap option_fmap option_map mbind option_bind].
  rewrite updHostData_look. destruct (updHostData j h s1) as [s2|]; [|done]. cbn [fmap option_fmap option_map mbind option_bind]. by apply updUserData_look.
Qed.

Lemma count_new_look j s : groups_of j -> count_new E j (look_up s) = look_up <$> count_new E j s.
Proof.
  intros Hg. unfold count_new. rewrite updQaccount_look. destruct (updQaccount j _ s) as [s1|]; [|done]. cbn [fmap option_fmap option_map mbind option_bind].
  by apply updUserData_look.
Qed.

Lemma to_end_look j old s : groups_of j -> to_end E j old (look_up s) = look_up <$> to_end E j old s.
Proof.
  intros Hg. unfold to_end. destruct (has old JOB_STAT_WAIT); [by apply upd_qhu_look|]. destruct (has old JOB_STAT_RUN); [by apply upd_qhu_look|].
  destruct (has old JOB_STAT_USUSP); [by apply upd_qhu_look|]. destruct (has old JOB_STAT_SSUSP); [by apply upd_qhu_look|].
  destruct (IS_PEND old); [|done]. rewrite updQaccount_look. destruct (updQaccount j _ s) as [s1|]; [|done]. cbn [fmap option_fmap option_map mbind option_bind].
  by apply updUserData_look.
Qed.

(** A change of status during the recount, which leaves the fairshare tree alone. *)
Lemma updCounters_look j old s : groups_of j ->
  updCounters E fsE j old false (look_up s) = prod_map id look_up <$> updCounters E fsE j old false s.
Proof.
  intros Hg. unfold updCounters, leave_tree. destruct (IS_FINISH old); [done|]. destruct (_ =? known_status old); [done|]. destruct (_ && _); [done|].
  assert (Hb : forall f, f (look_up s) = look_up <$> f s -> (s ← f (look_up s); Some (j, s)) = prod_map id look_up <$> (s ← f s; Some (j, s))).
  { intros f ->. by destruct (f s). }
  cbn [mbind option_bind]. repeat match goal with |- (if ?b then _ else _) = prod_map id look_up <$> (if ?b then _ else _) => destruct b; [apply Hb|] end; [..|done].
  - unfold to_run. repeat (case_match; [by apply upd_quh_look|]). done.
  - unfold to_ssusp. repeat (case_match; [by apply upd_quh_look|]). done.
  - unfold to_ususp. repeat (case_match; [by apply upd_quh_look|]). done.
  - by apply to_end_look.
  - unfold to_pend. repeat (case_match; [by apply upd_qhu_look|]). done.
Qed.

Lemma recount_job_look excl j s : groups_of j -> recount_job E fsE excl j (look_up s) = look_up <$> recount_job E fsE excl j s.
Proof.
  intros Hg. unfold recount_job. rewrite count_new_look by by destruct j. destruct (count_new E _ s) as [s1|]; [|done].
  cbn [fmap option_fmap option_map mbind option_bind]. destruct (has (j_status j) JOB_STAT_PEND); [done|]. rewrite updCounters_look by done.
  destruct (updCounters E fsE j _ false s1) as [[j' s2]|]; [|done]. cbn [fmap option_fmap option_map mbind option_bind prod_map fst snd id].
  destruct (excl && _); [|done]. cbn [hs look_up with_us]. by destruct (set_exclusive _ _).
Qed.

(** Counting all jobs again from records without groups. *)
Lemma recount_look l : forall s, Forall (fun p => groups_of p.2) l -> recount E fsE l (look_up s) = look_up <$> recount E fsE l s.
Proof.
  induction l as [|[excl j] l IH]; intros s Hl; [done|]. apply Forall_cons in Hl as [Hj Hl]. cbn [recount]. rewrite recount_job_look by done.
  destruct (recount_job E fsE excl j s) as [s1|]; [|done]. by apply IH.
Qed.
End Lookup.
