(* ===== verification/AccountMain.v ===== *)
(** * Accounts: what holds of them

    The theorems about [updCounters], [updResCounters], [updSwitchJob] and the
    loop of [init_log], and that any sequence of their uses keeps the counters of
    queues, users, groups and hosts equal to the sums over the jobs. *)

From Stdlib Require Import SpecFloat.
From stdpp Require Import strings relations.
From S2P Require Import Prelude Lsb Float32 FloatOrd Fairshare FairLoad Grp Account AccountOk AccountStep AccountRun AccountLookup.

(** ** Sequences of changes *)

(** The same job on other hosts. *)
Definition with_hosts (l : list Z) (j : jobData) : jobData :=
  let f := j_fs j in
  JData (j_status j) l (j_numReq j) (j_qPtr j) (j_uPtr j) (FsJob (userName f) (Z.of_nat (length l)) (sa f) (cpuTime f) (utime f) (stime f)).


Section Invariant.
Context (E : grpEnv) (fsE : Z -> fsenv).




End Invariant.

(** Every counter of a consistent state fits. *)
Lemma consistent_range E J s :
  consistent E J s ->
  (forall q Q, qs s !! q = Some Q -> call in_range (q_counts Q)) /\
  (forall u U, us s !! u = Some U -> call in_range (u_counts U)) /\
  (forall h H, hs s !! h = Some H -> call in_range (h_counts H)).
Proof.
  intros Hc. pose proof Hc as [Ha Hok Hsm _]. split_and!; [intros q Q HQ; rewrite (ag_queue _ _ Ha q Q HQ)|intros u U HU; rewrite (ag_user _ _ Ha u U HU)|by apply (consistent_hosts E J)];
    (apply csum_range; [|done]; intros k j Hk; apply (cif_bounds s), (Hok k j Hk)).
Qed.

(** ** The theorems *)


(** (C17) A change of status that [updCounters] provides for is carried out and
    leaves the counters in agreement with the jobs, among which the job now has
    its new status; only an ended job can be refused, by the fairshare tree. *)
Theorem updCounters_correct E fsE J s k j new logit :
  consistent E J s -> J !! k = Some j -> handled (j_status j) new = true -> can_leave fsE logit new j s ->
  exists j' s', updCounters E fsE (set_status new j) (j_status j) logit s = Some (j', s') /\
    j_status j' = new /\ same_job j j' /\ consistent E (<[k := j']> J) s'.
Proof. apply status_step. Qed.

(** [updSwitchJob] moves all that a job counts for from its queue to the
    other one, its reservation included, and nothing is lost or counted twice. *)
Theorem updSwitchJob_correct E J s k jf j qfp qtp old :
  consistent E J s -> may_switch J s k jf j qfp qtp old ->
  exists s', updSwitchJob E false j qfp qtp old s = Some (set_qPtr qtp j, s') /\ consistent E (<[k := set_qPtr qtp j]> J) s'.
Proof. apply switch_job_step. Qed.

(** (C18) When the event log has been replayed after a restart, with counters that
    are all zero and records of users that need not know their groups yet, the loop
    of [init_log] over all jobs ends, and brings the counters into agreement with
    the jobs.  [G] gives the groups that the users are members of; in [look_up G s]
    the records know them, and are otherwise those of [s]. *)
Theorem recount_correct E fsE G (l : list (Z * (bool * jobData))) s :
  let J : jobs := list_to_map (prod_map id snd <$> l) in
  NoDup l.*1 -> Forall (fun p => countable p.2.2) l -> Forall (fun p => groups_of E G p.2.2) l ->
  consistent E (set_status JOB_STAT_NULL <$> J) (look_up G s) ->
  exists s', recount E fsE l.*2 s = Some s' /\ consistent E J (look_up G s').
Proof.
  cbv zeta. intros Hnd Hl Hg Hc. set (J := list_to_map _ : jobs) in *. destruct (recount_all E fsE l _ _ Hc Hnd) as (t & Et & Hc').
  - intros k b j Hin. rewrite Forall_forall in Hl. split; [|by apply (Hl _ Hin)]. rewrite lookup_fmap. unfold J.
    rewrite (elem_of_list_to_map_1 _ k j); [done| |].
    + by rewrite <- list_fmap_compose.
    + by apply (list_elem_of_fmap_2 (prod_map id snd) _ (k, (b, j))).
  - rewrite (recount_look E fsE G) in Et by (by apply Forall_fmap). destruct (recount E fsE l.*2 s) as [s'|]; [|done]. injection Et as <-.
    exists s'. split; [done|]. replace J with (J ∪ (set_status JOB_STAT_NULL <$> J)) at 1; [done|].
    apply map_eq. intros i. rewrite lookup_union, lookup_fmap. by destruct (J !! i).
Qed.

(** ** A small cluster *)

(** Two queues, a user and a host, no user groups, and a job of two slots. *)
Definition env0 : grpEnv := GrpEnv ∅ [] ∅.
Definition fsE0 (q : Z) : fsenv := sample_factors.
Definition st0 : acctSt :=
  AcctSt (<[1 := QData czero ∅ ∅]> {[2 := QData czero ∅ ∅]}) {[10 := UData "ann" czero 0 false USER_INIT [] ∅ []]}
    {[20 := HData "h1" czero 4 INFINIT_INT 0 ∅]} ∅.
Definition job0 : jobData := JData JOB_STAT_PEND [] 2 1 10 (FsJob "ann" 0 NULL fzero 0 0).
Definition job1 : jobData := with_hosts [20; 20] job0.
Definition st1 : acctSt := default st0 (count_new env0 job0 st0).

Lemma st0_consistent : consistent env0 ∅ st0.
Proof.
  split; [split| | |].
  - intros q Q HQ. cbn in HQ. apply lookup_insert_Some in HQ as [[_ <-]|[_ HQ]]; [done|]. by apply lookup_singleton_Some in HQ as [_ <-].
  - intros q Q name HQ. cbn in HQ. apply lookup_insert_Some in HQ as [[_ <-]|[_ HQ]]; [done|]. by apply lookup_singleton_Some in HQ as [_ <-].
  - intros u U HU. cbn in HU. by apply lookup_singleton_Some in HU as [_ <-].
  - intros h H HH. cbn in HH. by apply lookup_singleton_Some in HH as [_ <-].
  - done.
  - done.
  - intros _ u U HU. cbn in HU. by apply lookup_singleton_Some in HU as [_ <-].
Qed.

Lemma job_ok_sample s l st r q :
  static st0 s -> (q = 1 \/ q = 2) -> Forall (fun h => h = 20) l -> 0 < r < 2 ^ 31 -> has st JOB_STAT_RESERVE = false ->
  job_ok s (JData st l r q 10 (FsJob "ann" (Z.of_nat (length l)) NULL fzero 0 0)).
Proof.
  intros Hs Hq Hl Hr Hres. apply (static_job_ok st0 s _ Hs). split; cbn [j_qPtr j_uPtr j_hPtr j_numReq j_status].
  - destruct Hq as [-> | ->]; by eexists.
  - eexists. split; [reflexivity|]. by repeat constructor.
  - by repeat constructor; apply not_elem_of_nil.
  - by repeat constructor; apply not_elem_of_nil.
  - eapply Forall_impl; [exact Hl|]. intros h ->. split; [done|]. eexists. by split.
  - done.
  - done.
  - by rewrite Hres.
Qed.

Lemma sample_submitted : count_new env0 job0 st0 = Some st1.
Proof. vm_compute. reflexivity. Qed.

Lemma st1_consistent : consistent env0 {[1 := job0]} st1.
Proof.
  destruct (new_step env0 ∅ st0 1 job0 st0_consistent) as (s' & Es & Hc); [done|done|by apply (job_ok_sample st0 []); auto|done|].
  rewrite sample_submitted in Es. injection Es as <-. exact Hc.
Qed.

Lemma st1_static : static st0 st1.
Proof.
  destruct (qu_effect env0 job0 (Counts 2 2 0 0 0 0) st0) as (s' & Es & He); [by apply (job_ok_sample st0 []); auto|apply (co_groups _ _ _ st0_consistent)|apply (consistent_hosts _ _ _ st0_consistent)|].
  apply effect_static in He. assert (E1 : s' = st1) by (pose proof sample_submitted as E0; unfold count_new in E0; cbn [job0 j_numReq] in E0; congruence). by rewrite <- E1.
Qed.



Lemma updCounters_correct_witness :
  exists j' s', updCounters env0 fsE0 (set_status JOB_STAT_EXIT job0) JOB_STAT_PEND true st1 = Some (j', s') /\
    j_status j' = JOB_STAT_EXIT /\ same_job job0 j' /\ consistent env0 (<[1 := j']> {[1 := job0]}) s'.
Proof. exact (updCounters_correct env0 fsE0 {[1 := job0]} st1 1 job0 JOB_STAT_EXIT true st1_consistent eq_refl eq_refl (fun _ _ => ex_intro _ _ eq_refl)). Defined.

(** The job goes to the other queue and asks for three slots. *)
Definition job3 : jobData := JData JOB_STAT_PEND [] 3 1 10 (j_fs job0).

Lemma updSwitchJob_correct_witness :
  exists s', updSwitchJob env0 false job3 1 2 2 st1 = Some (set_qPtr 2 job3, s') /\ consistent env0 (<[1 := set_qPtr 2 job3]> {[1 := job0]}) s'.
Proof.
  apply (updSwitchJob_correct env0 {[1 := job0]} st1 1 job0 job3 1 2 2 st1_consistent). split; [done|done| |done| |done].
  - apply (job_ok_sample st1 []); [apply st1_static|by right|done|done|done].
  - by left.
Defined.

(** A running job and a pending one are counted after a replay. *)
Definition replayed : list (Z * (bool * jobData)) := [(1, (true, set_status JOB_STAT_RUN job1)); (2, (false, job0))].

(** After a restart the user does not know that she is in a group. *)
Definition env1 : grpEnv := GrpEnv {[5 := GData "staff" ["ann"] [] None]} [5] {["staff" := 11]}.
Definition restarted : acctSt :=
  AcctSt (qs st0) (<[10 := UData "ann" czero 0 false 0 [] ∅ []]> {[11 := UData "staff" czero 0 false 0 [] ∅ []]}) (hs st0) ∅.
Definition groups1 (p : Z) : list Z := if p =? 10 then [11] else [].

Lemma restarted_users : us (look_up groups1 restarted) =
  <[10 := UData "ann" czero 0 false USER_INIT [11] ∅ []]> {[11 := UData "staff" czero 0 false USER_INIT [] ∅ []]}.
Proof. vm_compute. reflexivity. Qed.

Lemma restarted_consistent : consistent env1 ∅ (look_up groups1 restarted).
Proof.
  pose proof (co_agrees _ _ _ st0_consistent) as [A1 A2 _ A4]. split; [split; [exact A1|exact A2| |exact A4]|done|done|done].
  intros u U HU. rewrite restarted_users in HU. apply lookup_insert_Some in HU as [[_ <-]|[_ HU]]; [done|]. by apply lookup_singleton_Some in HU as [_ <-].
Qed.

Lemma restarted_job l st r :
  Forall (fun h => h = 20) l -> 0 < r < 2 ^ 31 -> has st JOB_STAT_RESERVE = false ->
  job_ok (look_up groups1 restarted) (JData st l r 1 10 (FsJob "ann" (Z.of_nat (length l)) NULL fzero 0 0)).
Proof.
  intros Hl Hr Hres. split; cbn [j_qPtr j_uPtr j_hPtr j_numReq j_status].
  - by eexists.
  - rewrite restarted_users. eexists. split; [reflexivity|]. split; [done|]. split; [constructor|]. repeat constructor; [done|]. by eexists.
  - unfold acct_names. rewrite restarted_users. by repeat constructor; apply not_elem_of_nil.
  - unfold user_recs. rewrite restarted_users. cbn. constructor; [by intros H%list_elem_of_singleton|]. constructor; [apply not_elem_of_nil|constructor].
  - eapply Forall_impl; [exact Hl|]. intros h ->. split; [done|]. eexists. by split.
  - done.
  - done.
  - by rewrite Hres.
Qed.

Lemma recount_correct_witness :
  (exists s', recount env1 fsE0 replayed.*2 restarted = Some s' /\ consistent env1 (list_to_map (prod_map id snd <$> replayed)) (look_up groups1 s')) /\
  ((fun s => u_counts <$> us s !! 11) <$> recount env1 fsE0 replayed.*2 restarted) = Some (Some (Counts 4 2 2 0 0 0)).
Proof.
  split; [|vm_compute; reflexivity]. apply (recount_correct env1 fsE0 groups1 replayed restarted).
  - by repeat constructor; rewrite ?list_elem_of_singleton; try apply not_elem_of_nil.
  - by repeat constructor.
  - repeat constructor; vm_compute; reflexivity.
  - change (set_status JOB_STAT_NULL <$> list_to_map (prod_map id snd <$> replayed)) with (<[1 := set_status JOB_STAT_NULL (set_status JOB_STAT_RUN job1)]> (<[2 := set_status JOB_STAT_NULL job0]> ∅) : jobs).
    apply null_consistent; [apply null_consistent; [exact restarted_consistent|done|done|by apply (restarted_job [])]|done|done|].
    apply (restarted_job [20; 20]); [by repeat constructor|done|done].
Defined.

(** A member of a chunk of jobs that waits on its host is not counted as
    started, but is counted off as a running job when it ends: its slots stay
    counted as pending for ever. *)
Example waiting_job_leaks :
  let waiting := Z.lor JOB_STAT_RUN JOB_STAT_WAIT in
  ('(j, s) ← updCounters env0 fsE0 (set_status waiting job1) JOB_STAT_PEND false st1;
   '(_, s) ← updCounters env0 fsE0 (set_status JOB_STAT_EXIT j) waiting false s;
   q_counts <$> qs s !! 1) = Some (Counts 0 2 0 0 0 0).
Proof. vm_compute. reflexivity. Qed.
