(* ===== verification/UserSets.v ===== *)
(** * Users and the sets built from the groups, [mbd.misc.c] and [mbd.grp.c]

    Every user and user group mbatchd meets has a record.  At start-up the
    groups are walked over and each record gets four sets of records: the groups
    it is a member of, directly or not ([parents], [ancestors]), and for a group
    its members, directly or not ([children], [descendants]).  The accounts of a
    user's groups and the limits of groups are found through these sets.

    The sets are bit sets over the positions of the records in a table; here
    they hold the addresses of the records.  A group that stands for everybody
    has the set of all users itself for its members, which later users enter. *)

From Stdlib Require Import Ascii SpecFloat.
From stdpp Require Import strings.
From S2P Require Import Prelude Lsb Float32 Grp Account.

(** ** Data *)

Definition MAX_GROUPS : nat := 150.
Arguments MAX_GROUPS : simpl never.
Definition INFINIT_FLOAT : spec_float := f32_of_Z 0x7fffffff.
Definition USER_UPDATE : Z := 0x2.
Definition USER_ALL : Z := 0x20.

(** The limits of a user. *)
Record limits := Limits { maxJobs : Z; pJobLimit : spec_float; maxPendJobs : Z; maxPendSlots : Z }.
Definition no_limits : limits := Limits INFINIT_INT INFINIT_FLOAT INFINIT_INT INFINIT_INT.

(** A pointer to a set: none, a set of the record's own, or [allUsersSet]. *)
Inductive setRef := NullSet | OwnSet (s : gset Z) | AllUsers.

(** What is used of [struct uData]. *)
Record uEnt := UEnt {
  user : string; uDataIndex : Z; e_flags : Z; e_gData : Z; lim : limits;
  children : setRef; descendants : setRef; parents : setRef; ancestors : setRef }.

(** [uDataList] by names, the records, [uDataPtrTb] up to [_cur_], the sets of
    all users, of the groups of all users and of the groups above those, the
    groups that observe [allUsersSet], and the next free address. *)
Record uState := UState {
  uDataList : gmap string Z; recs : gmap Z uEnt; uDataPtrTb : list Z;
  allUsersSet : gset Z; uGrpAllSet : gset Z; uGrpAllAncestorSet : gset Z; observing : list Z; free_addr : Z }.

Inductive which := Children | Descendants | Parents | Ancestors.
#[global] Instance which_eq_dec : EqDecision which.
Proof. solve_decision. Defined.

Definition get_set (w : which) (e : uEnt) : setRef :=
  match w with Children => children e | Descendants => descendants e | Parents => parents e | Ancestors => ancestors e end.
Definition put_set (w : which) (r : setRef) (e : uEnt) : uEnt :=
  match w with
  | Children => UEnt (user e) (uDataIndex e) (e_flags e) (e_gData e) (lim e) r (descendants e) (parents e) (ancestors e)
  | Descendants => UEnt (user e) (uDataIndex e) (e_flags e) (e_gData e) (lim e) (children e) r (parents e) (ancestors e)
  | Parents => UEnt (user e) (uDataIndex e) (e_flags e) (e_gData e) (lim e) (children e) (descendants e) r (ancestors e)
  | Ancestors => UEnt (user e) (uDataIndex e) (e_flags e) (e_gData e) (lim e) (children e) (descendants e) (parents e) r
  end.
Definition put_flags (f : Z) (e : uEnt) : uEnt :=
  UEnt (user e) (uDataIndex e) f (e_gData e) (lim e) (children e) (descendants e) (parents e) (ancestors e).
Definition put_gData (g : Z) (e : uEnt) : uEnt :=
  UEnt (user e) (uDataIndex e) (e_flags e) g (lim e) (children e) (descendants e) (parents e) (ancestors e).

Definition with_recs (m : gmap Z uEnt) (s : uState) : uState :=
  UState (uDataList s) m (uDataPtrTb s) (allUsersSet s) (uGrpAllSet s) (uGrpAllAncestorSet s) (observing s) (free_addr s).
Definition with_all (X : gset Z) (s : uState) : uState :=
  UState (uDataList s) (recs s) (uDataPtrTb s) X (uGrpAllSet s) (uGrpAllAncestorSet s) (observing s) (free_addr s).
Definition with_grpAll (X : gset Z) (s : uState) : uState :=
  UState (uDataList s) (recs s) (uDataPtrTb s) (allUsersSet s) X (uGrpAllAncestorSet s) (observing s) (free_addr s).

Definition upd_rec (u : Z) (f : uEnt -> uEnt) (s : uState) : option uState :=
  e ← recs s !! u; Some (with_recs (<[u := f e]> (recs s)) s).

Definition content (s : uState) (r : setRef) : gset Z :=
  match r with NullSet => ∅ | OwnSet X => X | AllUsers => allUsersSet s end.

(** ** Sets *)

(** [userSetOnNewUser], for the groups that observe the set of all users. *)
Definition userSetOnNewUser (x a : Z) (s : uState) : option uState :=
  e ← recs s !! a;
  match descendants e with
  | OwnSet X => Some (with_recs (<[a := put_set Descendants (OwnSet ({[x]} ∪ X)) e]> (recs s)) s)
  | _ => Some s
  end.
Fixpoint notify (x : Z) (l : list Z) (s : uState) : option uState :=
  match l with [] => Some s | a :: l => s ← userSetOnNewUser x a s; notify x l s end.

(** [setAddElement(allUsersSet, x)] *)
Definition add_all (x : Z) (s : uState) : option uState :=
  if decide (x ∈ allUsersSet s) then Some s else notify x (observing s) (with_all ({[x]} ∪ allUsersSet s) s).

(** [setAddElement] of [x] to a set of the record [u]; nothing is added to a
    null set.  [setOperate] with [LS_SET_UNION] of the same set of [v]. *)
Definition set_add (w : which) (u x : Z) (s : uState) : option uState :=
  e ← recs s !! u;
  match get_set w e with
  | NullSet => Some s
  | OwnSet X => Some (with_recs (<[u := put_set w (OwnSet ({[x]} ∪ X)) e]> (recs s)) s)
  | AllUsers => add_all x s
  end.
Definition set_union (w : which) (u v : Z) (s : uState) : option uState :=
  e ← recs s !! u;
  f ← recs s !! v;
  match get_set w e, get_set w f with
  | NullSet, _ | _, NullSet => None
  | OwnSet X, r => Some (with_recs (<[u := put_set w (OwnSet (X ∪ content s r)) e]> (recs s)) s)
  | AllUsers, r => Some (with_all (allUsersSet s ∪ content s r) s)
  end.

(** A set is made where there is none. *)
Definition make_set (w : which) (e : uEnt) : uEnt := match get_set w e with NullSet => put_set w (OwnSet ∅) e | _ => e end.
Definition checkuDataSet (u : Z) (s : uState) : option uState :=
  upd_rec u (fun e => make_set Ancestors (make_set Parents (make_set Descendants (make_set Children e)))) s.

(** ** Records *)

(** The groups of all users become parents of a new user. *)
Definition join_group (u g : Z) (s : uState) : option uState :=
  s ← upd_rec u (fun e => make_set Ancestors (make_set Parents e)) s;
  s ← set_add Parents u g s;
  s ← set_add Ancestors u g s;
  a ← recs s !! g;
  match ancestors a with NullSet => Some s | _ => set_union Ancestors u g s end.
Fixpoint join_groups (u : Z) (l : list Z) (s : uState) : option uState :=
  match l with [] => Some s | g :: l => s ← join_group u g s; join_groups u l s end.

(** The fields of a record that [initUData] sets and this file uses. *)
Definition initUData : uEnt := UEnt "" (-1) 0 NULL no_limits NullSet NullSet NullSet NullSet.

Definition addUserData (username : string) (l : limits) (override config : bool) (s : uState) : option (Z * uState) :=
  match uDataList s !! username, override with
  | Some u, false => Some (u, s)
  | o, _ =>
      let u := default (free_addr s) o in
      e ← (match o with Some u => recs s !! u | None => Some initUData end);
      let f := if config then Z.lor (e_flags e) USER_UPDATE else e_flags e in
      let e := UEnt username (Z.of_nat (length (uDataPtrTb s))) f (e_gData e) l (children e) (descendants e) (parents e) (ancestors e) in
      let s := UState (<[username := u]> (uDataList s)) (<[u := e]> (recs s)) (uDataPtrTb s ++ [u]) (allUsersSet s) (uGrpAllSet s)
                 (uGrpAllAncestorSet s) (observing s) (match o with Some _ => free_addr s | None => free_addr s + 1 end) in
      s ← (if negb (has f USER_GROUP) && negb (SKIP_HOST_GROUP username)
           then s ← add_all u s; join_groups u (elements (uGrpAllSet s)) s else Some s);
      Some (u, s)
  end.

Section Start.
(** The groups, the list of user groups, and [defaultLimitIgnoreUserGroup]. *)
Context (G : groups) (usergroups : list Z) (ignoreUserGroup : bool).

Definition getUserData (name : string) (s : uState) : option (Z * uState) :=
  match uDataList s !! name with
  | Some u => Some (u, s)
  | None =>
      match uDataList s !! "default" with
      | Some d =>
          uGrp ← getGrpData G usergroups (Some name);
          if negb (uGrp =? NULL) && ignoreUserGroup then addUserData name no_limits false false s
          else defUser ← recs s !! d; addUserData name (lim defUser) false false s
      | None => addUserData name no_limits false false s
      end
  end.

(** ** Groups *)

(** One group of [uDataGroupCreate]. *)
Definition group_create (gp : Z) (s : uState) : option uState :=
  g ← G !! gp;
  '(u, s) ← getUserData (group g) s;
  s ← upd_rec u (fun e => put_flags (Z.lor (e_flags e) USER_GROUP) e) s;
  let s := with_all (allUsersSet s ∖ {[u]}) s in
  s ← (if USER_GROUP_IS_ALL_USERS g then
         s ← upd_rec u (fun e => put_set Descendants AllUsers (put_set Children AllUsers (put_flags (Z.lor (e_flags e) USER_ALL) e))) s;
         Some (with_grpAll ({[u]} ∪ uGrpAllSet s) s)
       else Some s);
  upd_rec u (put_gData gp) s.
Fixpoint create_groups (l : list Z) (s : uState) : option uState :=
  match l with [] => Some s | gp :: l => s ← group_create gp s; create_groups l s end.
Definition uDataGroupCreate (s : uState) : option uState := create_groups usergroups s.

(** ** The walk over a group *)

(** [struct uStackEntry] *)
Record uStackEntry := Entry { myGData : Z; myUData : Z; parentGData : Z; parentUData : Z }.

(** A member of the group of [cur], or a group in it. *)
Definition link (cur u : Z) (s : uState) : option uState :=
  s ← checkuDataSet u s;
  s ← set_add Parents u cur s;
  s ← set_add Ancestors u cur s;
  s ← set_union Ancestors u cur s;
  s ← set_add Children cur u s;
  set_add Descendants cur u s.

Fixpoint visit_members (cur : Z) (l : list string) (s : uState) : option uState :=
  match l with
  | [] => Some s
  | n :: l => '(u, s) ← getUserData n s; s ← link cur u s; visit_members cur l s
  end.

(** The groups of a group are put on the stack, which has [MAX_GROUPS] entries. *)
Fixpoint visit_groups (curG cur : Z) (l : list Z) (stack : list uStackEntry) (s : uState) : option (list uStackEntry * uState) :=
  match l with
  | [] => Some (stack, s)
  | c :: l =>
      g ← G !! c;
      '(u, s) ← getUserData (group g) s;
      if (length stack <? MAX_GROUPS)%nat then
        s ← link cur u s;
        visit_groups curG cur l (stack ++ [Entry c u curG cur]) s
      else None
  end.

Fixpoint walk (fuel cur : nat) (stack : list uStackEntry) (s : uState) : option (list uStackEntry * uState) :=
  match stack !! cur with
  | None => Some (stack, s)
  | Some e =>
      match fuel with
      | O => None
      | S k =>
          s ← checkuDataSet (myUData e) s;
          g ← G !! myGData e;
          s ← visit_members (myUData e) (memberTab g) s;
          '(stack, s) ← visit_groups (myGData e) (myUData e) (gPtr g) stack s;
          walk k (S cur) stack s
      end
  end.

(** Back down the stack: the members of a group are members of its parent. *)
Fixpoint climb (l : list uStackEntry) (s : uState) : option uState :=
  match l with
  | [] => Some s
  | e :: l =>
      s ← checkuDataSet (parentUData e) s;
      s ← set_union Descendants (parentUData e) (myUData e) s;
      climb l s
  end.

Definition traverseGroupTree (grp : Z) (s : uState) : option uState :=
  g ← G !! grp;
  '(u, s) ← getUserData (group g) s;
  '(stack, s) ← walk MAX_GROUPS 0 [Entry grp u NULL NULL] s;
  climb (reverse (tail stack)) s.

(** ** All groups *)

(** [uDataTableGetNextEntry] over a table that may grow meanwhile. *)
Definition others (name : string) : bool := String.prefix "others" name.
Fixpoint traverse_all (fuel i : nat) (s : uState) : option uState :=
  match uDataPtrTb s !! i with
  | None => Some s
  | Some u =>
      match fuel with
      | O => None
      | S k =>
          e ← recs s !! u;
          s ← (if has (e_flags e) USER_GROUP && negb (others (user e)) then traverseGroupTree (e_gData e) s else Some s);
          traverse_all k (S i) s
      end
  end.

(** [! u->flags & USER_GROUP] is true of a record without any flag. *)
Definition not_user_group (f : Z) : bool := f =? 0.

Fixpoint add_parents (u : Z) (l : list Z) (s : uState) : option uState :=
  match l with [] => Some s | g :: l => s ← set_add Parents u g s; s ← set_add Ancestors u g s; add_parents u l s end.

Definition observe (a : Z) (s : uState) : uState :=
  if decide (a ∈ uGrpAllAncestorSet s) then s else
  UState (uDataList s) (recs s) (uDataPtrTb s) (allUsersSet s) (uGrpAllSet s) ({[a]} ∪ uGrpAllAncestorSet s) (observing s ++ [a]) (free_addr s).

Definition join_all (u : Z) (s : uState) : option uState :=
  e ← recs s !! u;
  s ← (if not_user_group (e_flags e) then add_parents u (elements (uGrpAllSet s)) s else Some s);
  Some (if has (e_flags e) USER_ALL then foldl (fun s a => observe a s) s (elements (content s (ancestors e))) else s).
Fixpoint join_every (l : list Z) (s : uState) : option uState :=
  match l with [] => Some s | u :: l => s ← join_all u s; join_every l s end.

(** The table grows by at most the names the groups hold. *)
Definition names_list : list string := map_to_list G ≫= (fun p => group p.2 :: memberTab p.2).
Definition table_fuel (s : uState) : nat := (length (uDataPtrTb s) + length names_list)%nat.
Definition setuDataCreate (s : uState) : option uState :=
  s ← traverse_all (table_fuel s) 0 s;
  join_every (uDataPtrTb s) s.

End Start.
