(* ===== verification/UserSetsOk.v ===== *)
(** * User sets: the invariant

    What is in a set belongs there: the relation of groups to what they hold,
    directly or through other groups, is read off the groups, and every step of
    the walk keeps the sets within it and only lets them grow. *)

From Stdlib Require Import Ascii SpecFloat.
From stdpp Require Import strings.
From S2P Require Import Prelude Lsb Float32 Grp GrpTheory Account UserSets.

(** ** What groups hold *)

(** The name of a group that stands for everybody. *)
Definition everyone (G : groups) (x : string) : Prop := exists p g, G !! p = Some g /\ group g = x /\ USER_GROUP_IS_ALL_USERS g = true.

(** [directly G x n]: the group named [x] has [n] for a member or a group of its
    own, or stands for everybody. *)
Inductive directly (G : groups) : string -> string -> Prop :=
| dir_member p g n : G !! p = Some g -> n ∈ memberTab g -> directly G (group g) n
| dir_group p g c h : G !! p = Some g -> c ∈ gPtr g -> G !! c = Some h -> directly G (group g) (group h)
| dir_all x n : everyone G x -> directly G x n.

(** [inside G x n]: the group named [x] holds [n], perhaps through other groups. *)
Inductive inside (G : groups) : string -> string -> Prop :=
| in_direct x n : directly G x n -> inside G x n
| in_trans x y z : inside G x y -> inside G y z -> inside G x z.

(** What an element [y] of a set of [x] has to be. *)
Definition rel (G : groups) (w : which) (x y : string) : Prop :=
  match w with
  | Parents => directly G y x
  | Ancestors => inside G y x
  | Children => directly G x y
  | Descendants => inside G x y
  end.

Lemma in_all G x n : everyone G x -> inside G x n.
Proof. intros H. by apply in_direct, dir_all. Qed.

(** ** The invariant *)

Record inv (G : groups) (s : uState) : Prop := {
  iv_list : forall n a, uDataList s !! n = Some a -> exists e, recs s !! a = Some e /\ user e = n;
  iv_fresh : forall a, is_Some (recs s !! a) -> a < free_addr s;
  iv_own : forall w u e X y, recs s !! u = Some e -> get_set w e = OwnSet X -> y ∈ X -> exists f, recs s !! y = Some f /\ rel G w (user e) (user f);
  iv_ref : forall w u e, recs s !! u = Some e -> get_set w e = AllUsers -> (w = Children \/ w = Descendants) /\ everyone G (user e);
  iv_all : forall y, y ∈ allUsersSet s -> is_Some (recs s !! y);
  iv_grpAll : forall a, a ∈ uGrpAllSet s -> exists e, recs s !! a = Some e /\ everyone G (user e);
  iv_allflag : forall a e, recs s !! a = Some e -> has (e_flags e) USER_ALL = true -> everyone G (user e);
  iv_obs : forall a, a ∈ observing s -> exists e, recs s !! a = Some e /\ forall n, inside G (user e) n;
  iv_tab : (forall n a, uDataList s !! n = Some a -> a ∈ uDataPtrTb s) /\ (forall a, a ∈ uDataPtrTb s -> is_Some (recs s !! a)) }.

(** ** Growth *)

(** The names the groups hold. *)
Definition names_of (G : groups) : gset string := list_to_set (names_list G).

Definition set_in (s : uState) (w : which) (u : Z) : gset Z := match recs s !! u with Some e => content s (get_set w e) | None => ∅ end.
Definition has_set (s : uState) (w : which) (u : Z) : Prop := match recs s !! u with Some e => get_set w e <> NullSet | None => False end.

(** The groups above those of all users are told of new users. *)
Definition anc_observe (s : uState) : Prop := forall a, a ∈ uGrpAllAncestorSet s -> a ∈ observing s.

Record grows (G : groups) (s s' : uState) : Prop := {
  gr_list : forall n a, uDataList s !! n = Some a -> uDataList s' !! n = Some a;
  gr_recs : forall a e, recs s !! a = Some e -> exists e', recs s' !! a = Some e' /\ user e' = user e;
  gr_flags : forall a e, recs s !! a = Some e -> exists e', recs s' !! a = Some e' /\ e_flags e' = e_flags e /\ e_gData e' = e_gData e;
  gr_back : forall a e', recs s' !! a = Some e' -> (exists e, recs s !! a = Some e /\ e_flags e' = e_flags e /\ e_gData e' = e_gData e) \/ e_flags e' = 0;
  gr_ref : forall w a e, recs s !! a = Some e -> get_set w e = AllUsers -> exists e', recs s' !! a = Some e' /\ get_set w e' = AllUsers;
  gr_has : forall w a, has_set s w a -> has_set s' w a;
  gr_set : forall w a, set_in s w a ⊆ set_in s' w a;
  gr_all : allUsersSet s ⊆ allUsersSet s';
  gr_grpAll : uGrpAllSet s ⊆ uGrpAllSet s';
  gr_tab : exists new, uDataPtrTb s' = uDataPtrTb s ++ new /\ (length new + size (dom (uDataList s)) <= size (dom (uDataList s')))%nat;
  gr_names : dom (uDataList s') ⊆ dom (uDataList s) ∪ names_of G;
  gr_obs : forall a, a ∈ observing s -> a ∈ observing s';
  gr_anc : anc_observe s -> anc_observe s' }.
Arguments gr_list {G s s'}. Arguments gr_recs {G s s'}. Arguments gr_flags {G s s'}. Arguments gr_back {G s s'}. Arguments gr_ref {G s s'}. Arguments gr_has {G s s'}. Arguments gr_set {G s s'}.
Arguments gr_all {G s s'}. Arguments gr_grpAll {G s s'}. Arguments gr_tab {G s s'}. Arguments gr_names {G s s'}. Arguments gr_obs {G s s'}. Arguments gr_anc {G s s'}.

#[global] Instance grows_preorder G : PreOrder (grows G).
Proof.
  split.
  - intros s. split; [done|intros a e He; by exists e|intros a e He; by exists e|intros a e He; left; by exists e|intros w a e He Hr; by exists e|done|done|done|done| |set_solver|done|done].
    exists []. rewrite app_nil_r. split; [done|cbn; lia].
  - intros s1 s2 s3 [L1 R1 K1 B1 F1 H1 S1 A1 G1 T1 N1 O1 Q1] [L2 R2 K2 B2 F2 H2 S2 A2 G2 T2 N2 O2 Q2]. split; [auto| | | | |auto| | | | |set_solver|auto|auto].
    + intros a e He. destruct (R1 a e He) as (e' & He' & Eu). destruct (R2 a e' He') as (e'' & He'' & Eu'). exists e''. split; [done|congruence].
    + intros a e He. destruct (K1 a e He) as (e' & He' & Eu). destruct (K2 a e' He') as (e'' & He'' & Eu'). exists e''. split; [done|]. destruct Eu, Eu'. split; congruence.
    + intros a e' He'. destruct (B2 a e' He') as [(e & He & E1 & E2)|E0]; [|by right]. rewrite E1, E2. exact (B1 a e He).
    + intros w a e He Hr. destruct (F1 w a e He Hr) as (e' & He' & Hr'). by apply (F2 w a e').
    + intros w a. etrans; [apply S1|apply S2].
    + etrans; [exact A1|exact A2].
    + etrans; [exact G1|exact G2].
    + destruct T1 as (n1 & E1 & L1'), T2 as (n2 & E2 & L2'). exists (n1 ++ n2). rewrite E2, E1, app_assoc, length_app. split; [done|lia].
Qed.

Lemma grows_some {G} s s' a : grows G s s' -> is_Some (recs s !! a) -> is_Some (recs s' !! a).
Proof. intros Hg [e He]. destruct (gr_recs Hg a e He) as (e' & He' & _). by exists e'. Qed.

Lemma get_put_eq w r e : get_set w (put_set w r e) = r.
Proof. by destruct w. Qed.
Lemma get_put_ne w v r e : w <> v -> get_set w (put_set v r e) = get_set w e.
Proof. by destruct w, v. Qed.

Lemma put_fields w r e : user (put_set w r e) = user e /\ e_flags (put_set w r e) = e_flags e /\ e_gData (put_set w r e) = e_gData e.
Proof. by destruct w. Qed.

(** A set of a record's own is replaced by a larger one. *)
Section Put.
Context (G : groups) (s : uState) (u : Z) (e : uEnt) (w : which) (Y : gset Z).
Hypotheses (Hi : inv G s) (He : recs s !! u = Some e) (Hr : get_set w e <> AllUsers) (Hsub : content s (get_set w e) ⊆ Y)
  (HY : forall y, y ∈ Y -> exists f, recs s !! y = Some f /\ rel G w (user e) (user f)).
Let s' := with_recs (<[u := put_set w (OwnSet Y) e]> (recs s)) s.

Lemma put_recs a f : recs s !! a = Some f -> exists f', recs s' !! a = Some f' /\ (user f' = user f /\ e_flags f' = e_flags f /\ e_gData f' = e_gData f) /\
  forall v, get_set v f' = if decide (a = u /\ v = w) then OwnSet Y else get_set v f.
Proof using He.
  intros Ha. unfold s'. cbn [recs with_recs]. destruct (decide (a = u)) as [->|Hne].
  - rewrite lookup_insert_eq. rewrite He in Ha. injection Ha as <-. eexists. split; [done|]. split; [apply put_fields|]. intros v.
    destruct (decide (v = w)) as [->|Hv]; [by rewrite decide_True, get_put_eq by done|]. rewrite decide_False by (by intros [_ ?]). by apply get_put_ne.
  - rewrite lookup_insert_ne by done. exists f. split_and!; [done..|]. intros v. by rewrite decide_False by (by intros [? _]).
Qed.

Lemma put_recs_inv a f' : recs s' !! a = Some f' -> exists f, recs s !! a = Some f /\ (user f' = user f /\ e_flags f' = e_flags f /\ e_gData f' = e_gData f) /\
  forall v, get_set v f' = if decide (a = u /\ v = w) then OwnSet Y else get_set v f.
Proof using He.
  intros Ha. assert (Hs : is_Some (recs s !! a)). { unfold s' in Ha. cbn in Ha. destruct (decide (a = u)) as [->|Hne]; [by exists e|]. rewrite lookup_insert_ne in Ha by done. by eexists. }
  destruct Hs as [f Hf]. destruct (put_recs a f Hf) as (f1 & H1 & E1 & E2). rewrite Ha in H1. injection H1 as <-. by exists f.
Qed.

Lemma put_inv : inv G s'.
Proof using Hi He HY.
  destruct Hi as [I1 I2 I3 I4 I5 I6 I8 I7 [I9 I10]]. split.
  - intros n a Ha. destruct (I1 n a Ha) as (f & Hf & Eu). destruct (put_recs a f Hf) as (f' & Hf' & (E & _) & _). exists f'. split; [done|congruence].
  - intros a [f' Hf']. destruct (put_recs_inv a f' Hf') as (f & Hf & _). by apply I2; eexists.
  - intros v a f' X y Ha Hv Hy. destruct (put_recs_inv a f' Ha) as (f & Hf & (Eu & _) & Eg). rewrite Eg in Hv.
    assert (Hz : exists h, recs s !! y = Some h /\ rel G v (user f) (user h)).
    { destruct (decide (a = u /\ v = w)) as [[-> ->]|_]; [injection Hv as <-; rewrite He in Hf; injection Hf as <-; by apply HY|by apply (I3 v a f X y)]. }
    destruct Hz as (h & Hh & Hrel). destruct (put_recs y h Hh) as (h' & Hh' & (Eh & _) & _). exists h'. rewrite Eu, Eh. done.
  - intros v a f' Ha Hv. destruct (put_recs_inv a f' Ha) as (f & Hf & (Eu & _) & Eg). rewrite Eg in Hv. rewrite Eu. destruct (decide (a = u /\ v = w)); [done|by apply (I4 v a f)].
  - intros y Hy. destruct (I5 y Hy) as [h Hh]. destruct (put_recs y h Hh) as (h' & Hh' & _). by eexists.
  - intros a Ha. destruct (I6 a Ha) as (f & Hf & Hv). destruct (put_recs a f Hf) as (f' & Hf' & (E & _) & _). exists f'. by rewrite E.
  - intros a f' Ha Hfl. destruct (put_recs_inv a f' Ha) as (f & Hf & (Eu & Efl & _) & _). rewrite Eu. rewrite Efl in Hfl. by apply (I8 a f).
  - intros a Ha. destruct (I7 a Ha) as (f & Hf & Hv). destruct (put_recs a f Hf) as (f' & Hf' & (E & _) & _). exists f'. by rewrite E.
  - split; [exact I9|]. intros a Ha. destruct (I10 a Ha) as [f Hf]. destruct (put_recs a f Hf) as (f' & Hf' & _). by eexists.
Qed.

Lemma put_grows : grows G s s'.
Proof using He Hsub Hr.
  split; [done| | | | | | |done|done| |apply union_subseteq_l|done|done].
  - intros a f Hf. destruct (put_recs a f Hf) as (f' & Hf' & (E & _) & _). by exists f'.
  - intros a f Hf. destruct (put_recs a f Hf) as (f' & Hf' & (_ & E) & _). by exists f'.
  - intros a f' Hf'. destruct (put_recs_inv a f' Hf') as (f & Hf & (_ & E) & _). left. by exists f.
  - intros v a f Hf Hv. destruct (put_recs a f Hf) as (f' & Hf' & _ & Eg). exists f'. split; [done|]. rewrite Eg. destruct (decide (a = u /\ v = w)) as [[-> ->]|_]; [|done]. rewrite He in Hf. by injection Hf as <-.
  - intros v a Hh. unfold has_set in *. destruct (recs s !! a) as [f|] eqn:Hf; [|done]. destruct (put_recs a f Hf) as (f' & -> & _ & Eg). rewrite Eg. by destruct (decide (a = u /\ v = w)).
  - intros v a. unfold set_in. destruct (recs s !! a) as [f|] eqn:Hf; [|apply empty_subseteq]. destruct (put_recs a f Hf) as (f' & -> & _ & Eg). rewrite Eg.
    destruct (decide (a = u /\ v = w)) as [[-> ->]|_]; [|by destruct (get_set v f)]. rewrite He in Hf. injection Hf as <-. exact Hsub.
  - exists []. rewrite app_nil_r. split; [done|cbn; lia].
Qed.

Lemma put_in : set_in s' w u = Y /\ has_set s' w u.
Proof using He. destruct (put_recs u e He) as (f' & Hf & _ & Eg). unfold set_in, has_set. rewrite Hf, Eg, decide_True by done. done. Qed.

End Put.

(** The set of all users grows. *)
Lemma all_grows G s Y :
  inv G s -> allUsersSet s ⊆ Y -> (forall y, y ∈ Y -> is_Some (recs s !! y)) -> inv G (with_all Y s) /\ grows G s (with_all Y s).
Proof.
  intros [I1 I2 I3 I4 I5 I6 I8 I7 [I9 I10]] Hsub HY. split; [by split|]. split; [done|intros a e He; by exists e|intros a e He; by exists e|intros a e He; left; by exists e|intros w a e He Hr; by exists e|done| |done|done| |apply union_subseteq_l|done|done].
  - intros w a. unfold set_in. cbn [recs with_all]. destruct (recs s !! a) as [e|]; [|done]. by destruct (get_set w e).
  - exists []. rewrite app_nil_r. split; [done|cbn; lia].
Qed.

(** ** The steps *)

(** From a good state to a good one, nothing lost. *)
Definition stepped (G : groups) (s : uState) (r : option uState) (P : uState -> Prop) : Prop :=
  exists s', r = Some s' /\ inv G s' /\ grows G s s' /\ P s'.

Lemma stepped_bind G s r P (f : uState -> option uState) Q :
  stepped G s r P -> (forall s', inv G s' -> grows G s s' -> P s' -> stepped G s' (f s') Q) -> stepped G s (s' ← r; f s') Q.
Proof.
  intros (s1 & -> & I1 & G1 & P1) Hf. destruct (Hf s1 I1 G1 P1) as (s2 & E2 & I2 & G2 & Q2). exists s2. split_and!; [exact E2|done|by etrans|done].
Qed.

Lemma stepped_weaken G s r (P Q : uState -> Prop) : (forall s', inv G s' -> grows G s s' -> P s' -> Q s') -> stepped G s r P -> stepped G s r Q.
Proof. intros Hw (s1 & E1 & I1 & G1 & P1). exists s1. split_and!; auto. Qed.

Lemma stepped_stay G s (P : uState -> Prop) : inv G s -> P s -> stepped G s (Some s) P.
Proof. intros Hi HP. by exists s. Qed.

Lemma put_stepped G s u e w Y :
  inv G s -> recs s !! u = Some e -> get_set w e <> AllUsers -> content s (get_set w e) ⊆ Y ->
  (forall y, y ∈ Y -> exists f, recs s !! y = Some f /\ rel G w (user e) (user f)) ->
  stepped G s (Some (with_recs (<[u := put_set w (OwnSet Y) e]> (recs s)) s)) (fun s' => set_in s' w u = Y /\ has_set s' w u).
Proof. intros Hi He Hr Hsub HY. eexists. split; [done|]. split_and!; [by apply put_inv|by apply put_grows|by apply put_in..]. Qed.

Lemma own_elem G s w u e y : inv G s -> recs s !! u = Some e -> y ∈ content s (get_set w e) -> exists f, recs s !! y = Some f /\ rel G w (user e) (user f).
Proof.
  intros Hi He Hy. destruct (get_set w e) as [|X|] eqn:Ew; cbn in Hy; [set_solver|by apply (iv_own G s Hi w u e X)|].
  destruct (iv_ref G s Hi w u e He Ew) as [Hw Hev]. destruct (iv_all G s Hi y Hy) as [f Hf]. exists f. split; [done|]. destruct Hw as [-> | ->]; [by apply dir_all|by apply in_all].
Qed.

Lemma own_add G s w u e x f :
  inv G s -> recs s !! u = Some e -> recs s !! x = Some f -> rel G w (user e) (user f) ->
  forall y, y ∈ {[x]} ∪ content s (get_set w e) -> exists f, recs s !! y = Some f /\ rel G w (user e) (user f).
Proof. intros Hi He Hx Hrel y [->%elem_of_singleton|Hy]%elem_of_union; [by exists f|by apply (own_elem G s w u)]. Qed.

(** Everybody is told of a new user. *)
Lemma notify_stepped G s x l f :
  inv G s -> recs s !! x = Some f -> (forall a, a ∈ l -> exists e, recs s !! a = Some e /\ forall n, inside G (user e) n) ->
  stepped G s (notify x l s) (fun _ => True).
Proof.
  revert s f. induction l as [|a l IH]; intros s f Hi Hx Hl; [by apply stepped_stay|]. cbn [notify]. destruct (Hl a (list_elem_of_here _ _)) as (e & He & Hin).
  apply (stepped_bind G s _ (fun _ => True)).
  - unfold userSetOnNewUser. rewrite He. cbn [mbind option_bind]. destruct (descendants e) as [|X|] eqn:Ed; [by apply stepped_stay| |by apply stepped_stay].
    eapply stepped_weaken; [done|]. apply put_stepped; [done|done|by cbn; rewrite Ed|cbn; rewrite Ed; cbn; set_solver|].
    intros y Hy. apply (own_add G s Descendants a e x f Hi He Hx (Hin (user f))). cbn. by rewrite Ed.
  - intros s' Hi' Hg _. destruct (gr_recs Hg x f Hx) as (f' & Hx' & _). apply (IH s' f'); [done|done|]. intros b Hb.
    destruct (Hl b (list_elem_of_further _ _ _ Hb)) as (eb & Heb & Hnb). destruct (gr_recs Hg b eb Heb) as (eb' & Heb' & Eu). exists eb'. by rewrite Eu.
Qed.

Lemma add_all_stepped G s x : inv G s -> is_Some (recs s !! x) -> stepped G s (add_all x s) (fun s' => x ∈ allUsersSet s').
Proof.
  intros Hi [f Hx]. unfold add_all. destruct (decide (x ∈ allUsersSet s)) as [Hin|Hnin]; [by apply stepped_stay|].
  destruct (all_grows G s ({[x]} ∪ allUsersSet s) Hi) as [Hi1 Hg1]; [set_solver| |].
  { intros y [->%elem_of_singleton|Hy]%elem_of_union; [by exists f|by apply (iv_all G s Hi)]. }
  destruct (notify_stepped G (with_all ({[x]} ∪ allUsersSet s) s) x (observing s) f Hi1 Hx (iv_obs _ _ Hi1)) as (s' & E & Hi' & Hg' & _).
  exists s'. split_and!; [done|done|by etrans|]. apply (gr_all Hg'). cbn. set_solver.
Qed.

Lemma set_add_stepped G s w u x e f :
  inv G s -> recs s !! u = Some e -> recs s !! x = Some f -> rel G w (user e) (user f) ->
  stepped G s (set_add w u x s) (fun s' => has_set s w u -> x ∈ set_in s' w u).
Proof.
  intros Hi He Hx Hrel. unfold set_add. rewrite He. cbn [mbind option_bind]. unfold has_set. rewrite He. destruct (get_set w e) as [|X|] eqn:Ew.
  - by apply stepped_stay.
  - eapply stepped_weaken; [|apply put_stepped; [done|done|by rewrite Ew|rewrite Ew; cbn; set_solver|]].
    + intros s' _ _ [-> _] _. set_solver.
    + intros y Hy. apply (own_add G s w u e x f Hi He Hx Hrel). by rewrite Ew.
  - eapply stepped_weaken; [|apply add_all_stepped; [done|by exists f]]. intros s' Hi' Hg Hin _. unfold set_in. destruct (gr_recs Hg u e He) as (e' & He' & _). rewrite He'.
    destruct (gr_ref Hg w u e He Ew) as (e2 & He2 & Er). rewrite He' in He2. injection He2 as <-. by rewrite Er.
Qed.

(** The elements of the same set of another record are added. *)
Lemma set_union_stepped G s w u v e f :
  inv G s -> recs s !! u = Some e -> recs s !! v = Some f -> has_set s w u -> has_set s w v -> (forall z, rel G w (user f) z -> rel G w (user e) z) ->
  stepped G s (set_union w u v s) (fun s' => set_in s w v ⊆ set_in s' w u).
Proof.
  intros Hi He Hf Hu Hv Hrel. unfold set_union, has_set, set_in in *. rewrite He, Hf in *. cbn [mbind option_bind]. destruct (get_set w e) as [|X|] eqn:Ew; [done| |].
  - assert (Hr : match get_set w f with NullSet => None | r => Some (with_recs (<[u := put_set w (OwnSet (X ∪ content s r)) e]> (recs s)) s) end
      = Some (with_recs (<[u := put_set w (OwnSet (X ∪ content s (get_set w f))) e]> (recs s)) s)) by by destruct (get_set w f). rewrite Hr.
    eapply stepped_weaken; [|apply put_stepped; [done|done|by rewrite Ew|rewrite Ew; cbn; set_solver|]].
    + intros s' _ _ [Es _]. unfold set_in in Es. destruct (recs s' !! u) as [e'|]; [rewrite Es; set_solver|]. rewrite Es. set_solver.
    + intros y [Hy|Hy]%elem_of_union.
      * apply (own_elem G s w u e y Hi He). by rewrite Ew.
      * destruct (own_elem G s w v f y Hi Hf Hy) as (h & Hh & Hrl). exists h. split; [done|by apply Hrel].
  - assert (Hr : match get_set w f with NullSet => None | r => Some (with_all (allUsersSet s ∪ content s r) s) end = Some (with_all (allUsersSet s ∪ content s (get_set w f)) s)) by by destruct (get_set w f).
    rewrite Hr. eexists. split; [done|]. destruct (all_grows G s (allUsersSet s ∪ content s (get_set w f)) Hi) as [Hi' Hg']; [set_solver| |].
    + intros y [Hy|Hy]%elem_of_union; [by apply (iv_all G s Hi)|]. destruct (own_elem G s w v f y Hi Hf Hy) as (h & Hh & _). by eexists.
    + split_and!; [done|done|]. cbn [recs with_all]. rewrite He, Ew. cbn. set_solver.
Qed.

Lemma make_set_stepped G s w u : inv G s -> is_Some (recs s !! u) -> stepped G s (upd_rec u (make_set w) s) (fun s' => has_set s' w u).
Proof.
  intros Hi [e He]. unfold upd_rec, make_set. rewrite He. cbn [mbind option_bind]. destruct (get_set w e) as [|X|] eqn:Ew.
  - eapply stepped_weaken; [|apply put_stepped; [done|done|by rewrite Ew|rewrite Ew; done|]]; [by intros s' _ _ [_ ?]|]. intros y Hy. set_solver.
  - rewrite insert_id by done. assert (Es : with_recs (recs s) s = s) by by destruct s. rewrite Es. apply stepped_stay; [done|]. unfold has_set. by rewrite He, Ew.
  - rewrite insert_id by done. assert (Es : with_recs (recs s) s = s) by by destruct s. rewrite Es. apply stepped_stay; [done|]. unfold has_set. by rewrite He, Ew.
Qed.

Lemma upd_rec_compose u f g s : upd_rec u (fun e => g (f e)) s = s ← upd_rec u f s; upd_rec u g s.
Proof.
  unfold upd_rec. destruct (recs s !! u) as [e|]; [|done]. cbn [mbind option_bind recs with_recs]. rewrite lookup_insert_eq. cbn [mbind option_bind]. by rewrite insert_insert_eq.
Qed.

Lemma make_sets_stepped G s u (f : uEnt -> uEnt) w P :
  stepped G s (upd_rec u f s) P -> is_Some (recs s !! u) -> (forall s1 s2, grows G s1 s2 -> P s1 -> P s2) ->
  stepped G s (upd_rec u (fun e => make_set w (f e)) s) (fun s' => has_set s' w u /\ P s').
Proof.
  intros Hf Hu Hmono. rewrite upd_rec_compose. apply (stepped_bind G s _ P _ _ Hf). intros s' Hi Hg HP.
  eapply stepped_weaken; [|apply make_set_stepped; [done|by apply (grows_some (G:=G) s)]]. intros s2 _ Hg2 Hh. split; [done|by apply (Hmono s')].
Qed.

Lemma has_set_grows {G} s1 s2 w u : grows G s1 s2 -> has_set s1 w u -> has_set s2 w u.
Proof. intros Hg. apply (gr_has Hg). Qed.
#[local] Hint Resolve has_set_grows : core.

Lemma checkuDataSet_stepped G s u : inv G s -> is_Some (recs s !! u) -> stepped G s (checkuDataSet u s) (fun s' => forall w, has_set s' w u).
Proof.
  intros Hi Hu. unfold checkuDataSet. eapply stepped_weaken; [|apply (make_sets_stepped G s u _ Ancestors (fun s' => has_set s' Parents u /\ has_set s' Descendants u /\ has_set s' Children u)); [|done|naive_solver]].
  { intros s' _ _ (H1 & H2 & H3 & H4) w. by destruct w. }
  apply (make_sets_stepped G s u _ Parents (fun s' => has_set s' Descendants u /\ has_set s' Children u)); [|done|naive_solver].
  apply (make_sets_stepped G s u _ Descendants (fun s' => has_set s' Children u)); [|done|naive_solver]. by apply make_set_stepped.
Qed.

(** ** New records *)

(** A record without sets under a new name. *)
Lemma new_rec_stepped G s name (e : uEnt) :
  inv G s -> uDataList s !! name = None -> name ∈ names_of G -> user e = name -> e_flags e = 0 -> (forall w, get_set w e = NullSet) ->
  let s' := UState (<[name := free_addr s]> (uDataList s)) (<[free_addr s := e]> (recs s)) (uDataPtrTb s ++ [free_addr s]) (allUsersSet s) (uGrpAllSet s)
              (uGrpAllAncestorSet s) (observing s) (free_addr s + 1) in
  inv G s' /\ grows G s s'.
Proof.
  intros [I1 I2 I3 I4 I5 I6 I8 I7 [I9 I10]] Hn Hnm Hu Hfl Hw s'. assert (Hfr : recs s !! free_addr s = None) by (destruct (recs s !! free_addr s) eqn:E; [assert (free_addr s < free_addr s) by (apply I2; by eexists); lia|done]).
  assert (Hk : forall a f, recs s !! a = Some f -> recs s' !! a = Some f) by (intros a f Ha; cbn; rewrite lookup_insert_ne; [done|congruence]).
  split.
  - split.
    + intros n a Ha. cbn in Ha. destruct (decide (n = name)) as [->|Hne]; [rewrite lookup_insert_eq in Ha; injection Ha as <-; exists e; cbn; by rewrite lookup_insert_eq|].
      rewrite lookup_insert_ne in Ha by done. destruct (I1 n a Ha) as (f & Hf & E). exists f. split; [by apply Hk|done].
    + intros a [f Ha]. cbn in Ha |- *. destruct (decide (a = free_addr s)) as [->|Hne]; [lia|]. rewrite lookup_insert_ne in Ha by done. assert (a < free_addr s) by (apply I2; by eexists). lia.
    + intros w a f X y Ha Hf Hy. cbn in Ha. destruct (decide (a = free_addr s)) as [->|Hne]; [rewrite lookup_insert_eq in Ha; injection Ha as <-; by rewrite Hw in Hf|].
      rewrite lookup_insert_ne in Ha by done. destruct (I3 w a f X y Ha Hf Hy) as (h & Hh & Hr). exists h. split; [by apply Hk|done].
    + intros w a f Ha Hf. cbn in Ha. destruct (decide (a = free_addr s)) as [->|Hne]; [rewrite lookup_insert_eq in Ha; injection Ha as <-; by rewrite Hw in Hf|].
      rewrite lookup_insert_ne in Ha by done. by apply (I4 w a).
    + intros y Hy. destruct (I5 y Hy) as [h Hh]. eexists. by apply Hk.
    + intros a Ha. destruct (I6 a Ha) as (f & Hf & H). exists f. split; [by apply Hk|done].
    + intros a f Ha Hf. cbn in Ha. destruct (decide (a = free_addr s)) as [->|Hne]; [rewrite lookup_insert_eq in Ha; injection Ha as <-; by rewrite Hfl in Hf|].
      rewrite lookup_insert_ne in Ha by done. by apply (I8 a).
    + intros a Ha. destruct (I7 a Ha) as (f & Hf & H). exists f. split; [by apply Hk|done].
    + split.
      * intros n a Ha. cbn in Ha |- *. apply elem_of_app. destruct (decide (n = name)) as [->|Hne]; [rewrite lookup_insert_eq in Ha; injection Ha as <-; right; by left|].
        rewrite lookup_insert_ne in Ha by done. left. by apply (I9 n).
      * intros a Ha. cbn in Ha |- *. apply elem_of_app in Ha as [Ha| ->%list_elem_of_singleton]; [destruct (I10 a Ha) as [f Hf]; exists f; by apply Hk|]. exists e. apply lookup_insert_eq.
  - split; [|intros a f Ha; exists f; split; [by apply Hk|done]|intros a f Ha; exists f; split; [by apply Hk|done]| |intros w a f Ha Hr; exists f; split; [by apply Hk|done]| | |done|done| | |done|done].
    + intros n a Ha. cbn. rewrite lookup_insert_ne; [done|congruence].
    + intros a f Ha. cbn in Ha. destruct (decide (a = free_addr s)) as [->|Hne]; [rewrite lookup_insert_eq in Ha; injection Ha as <-; by right|].
      rewrite lookup_insert_ne in Ha by done. left. by exists f.
    + intros w a. unfold has_set. destruct (recs s !! a) as [f|] eqn:Ha; [|done]. by rewrite (Hk a f Ha).
    + intros w a. unfold set_in. destruct (recs s !! a) as [f|] eqn:Ha; [|apply empty_subseteq]. by rewrite (Hk a f Ha).
    + exists [free_addr s]. split; [done|]. cbn [uDataList s']. rewrite dom_insert_L, size_union, size_singleton by (apply disjoint_singleton_l, not_elem_of_dom; done). cbn. lia.
    + cbn [uDataList s']. rewrite dom_insert_L. set_solver.
Qed.

Lemma join_group_stepped G s u g : inv G s -> is_Some (recs s !! u) -> g ∈ uGrpAllSet s -> stepped G s (join_group u g s) (fun _ => True).
Proof.
  intros Hi Hu Hg. unfold join_group. eapply (stepped_bind G s _ (fun s' => has_set s' Ancestors u /\ has_set s' Parents u)).
  { apply (make_sets_stepped G s u _ Ancestors (fun s' => has_set s' Parents u)); [by apply make_set_stepped|done|eauto]. }
  intros s1 I1 G1 [Ha Hp]. apply (gr_grpAll G1) in Hg. destruct (iv_grpAll _ _ I1 g Hg) as (f & Hf & Hev). destruct (grows_some (G:=G) s s1 u G1 Hu) as [e He].
  eapply (stepped_bind G s1); [by apply (set_add_stepped G s1 Parents u g e f); [done|done|done|apply dir_all]|]. intros s2 I2 G2 _.
  destruct (gr_recs G2 u e He) as (e2 & He2 & Eu2), (gr_recs G2 g f Hf) as (f2 & Hf2 & Ef2).
  eapply (stepped_bind G s2); [by apply (set_add_stepped G s2 Ancestors u g e2 f2); [done|done|done|apply in_all; rewrite Ef2]|]. intros s3 I3 G3 _.
  destruct (gr_recs G3 u e2 He2) as (e3 & He3 & Eu3), (gr_recs G3 g f2 Hf2) as (f3 & Hf3 & Ef3). rewrite Hf3. cbn [mbind option_bind].
  assert (Hun : has_set s3 Ancestors g -> stepped G s3 (set_union Ancestors u g s3) (fun _ => True)).
  { intros Hh. eapply stepped_weaken; [done|]. apply (set_union_stepped G s3 Ancestors u g e3 f3); [done|done|done| |done|].
    - apply (gr_has G3), (gr_has G2), Ha.
    - intros z Hz. eapply in_trans; [exact Hz|]. apply in_all. rewrite Ef3, Ef2. done. }
  destruct (ancestors f3) as [|X|] eqn:Ea; [by apply stepped_stay|apply Hun..]; unfold has_set; rewrite Hf3; cbn; by rewrite Ea.
Qed.

Lemma join_groups_stepped G s u l : inv G s -> is_Some (recs s !! u) -> (forall g, g ∈ l -> g ∈ uGrpAllSet s) -> stepped G s (join_groups u l s) (fun _ => True).
Proof.
  revert s. induction l as [|g l IH]; intros s Hi Hu Hl; [by apply stepped_stay|]. cbn [join_groups].
  apply (stepped_bind G s _ (fun _ => True)); [apply join_group_stepped; [done|done|apply Hl; by left]|]. intros s' Hi' Hg _.
  apply IH; [done|by apply (grows_some (G:=G) s)|]. intros x Hx. apply (gr_grpAll Hg), Hl. by right.
Qed.

(** The record of a name, and the state it is found in. *)
Definition found (G : groups) (s : uState) (name : string) (r : option (Z * uState)) : Prop :=
  exists u s', r = Some (u, s') /\ inv G s' /\ grows G s s' /\ uDataList s' !! name = Some u.

Lemma addUserData_found G s name l : inv G s -> uDataList s !! name = None -> name ∈ names_of G -> found G s name (addUserData name l false false s).
Proof.
  intros Hi Hn Hnm. unfold addUserData. rewrite Hn. cbn [default mbind option_bind]. cbv zeta beta iota. cbn [initUData e_flags e_gData children descendants parents ancestors].
  set (e := UEnt name _ 0 NULL l NullSet NullSet NullSet NullSet).
  destruct (new_rec_stepped G s name e Hi Hn Hnm eq_refl eq_refl) as [I1 G1]; [by intros []|]. set (s1 := UState _ _ _ _ _ _ _ _) in *.
  assert (Hu1 : is_Some (recs s1 !! free_addr s)) by (exists e; apply lookup_insert_eq). assert (Hl1 : uDataList s1 !! name = Some (free_addr s)) by apply lookup_insert_eq.
  assert (Hst : stepped G s1 (if negb (has 0 USER_GROUP) && negb (SKIP_HOST_GROUP name) then s ← add_all (free_addr s) s1; join_groups (free_addr s1 - 1) (elements (uGrpAllSet s)) s else Some s1) (fun _ => True)).
  { destruct (negb (has 0 USER_GROUP) && negb (SKIP_HOST_GROUP name)); [|by apply stepped_stay]. eapply stepped_bind; [by apply add_all_stepped|]. intros s2 I2 G2 _.
    replace (free_addr s1 - 1) with (free_addr s) by (cbn; lia). apply join_groups_stepped; [done|by apply (grows_some (G:=G) s1)|]. intros g Hg. by apply elem_of_elements. }
  replace (free_addr s1 - 1) with (free_addr s) in Hst by (cbn; lia). destruct Hst as (s2 & E2 & I2 & G2 & _). rewrite E2. cbn [mbind option_bind].
  exists (free_addr s), s2. split_and!; [done|done|by etrans|by apply (gr_list G2)].
Qed.

Lemma names_of_spec G p g : G !! p = Some g -> group g ∈ names_of G /\ forall n, n ∈ memberTab g -> n ∈ names_of G.
Proof.
  intros Hp. assert (Hn : forall n, n ∈ group g :: memberTab g -> n ∈ names_of G).
  { intros n Hn. apply elem_of_list_to_set. unfold names_list. apply list_elem_of_bind. exists (p, g). split; [done|by apply elem_of_map_to_list]. }
  split; [apply Hn; by left|]. intros n Hm. apply Hn. by right.
Qed.

Section Lookup.
Context (G : groups) (usergroups : list Z) (ignoreUserGroup : bool).
Hypothesis Hug : Forall (fun gp => is_Some (G !! gp)) usergroups.

Lemma getGrpData_total name : is_Some (getGrpData G usergroups (Some name)).
Proof using Hug.
  induction Hug as [|gp l [g Hg] _ IH]; [by eexists|]. cbn [getGrpData]. rewrite Hg. cbn [mbind option_bind]. destruct (String.eqb name (group g)); [by eexists|]. apply IH. by apply Forall_cons in Hug as [_ ?].
Qed.

Lemma getUserData_found s name : inv G s -> name ∈ names_of G -> found G s name (getUserData G usergroups ignoreUserGroup name s).
Proof using Hug.
  intros Hi Hnm. unfold getUserData. destruct (uDataList s !! name) as [u|] eqn:Hn; [by exists u, s|].
  destruct (uDataList s !! "default") as [d|] eqn:Hd; [|by apply addUserData_found]. destruct (getGrpData_total name) as [p ->]. cbn [mbind option_bind].
  destruct (negb (p =? NULL) && ignoreUserGroup); [by apply addUserData_found|]. destruct (iv_list _ _ Hi _ _ Hd) as (e & -> & _). cbn [mbind option_bind]. by apply addUserData_found.
Qed.

End Lookup.
