(* ===== verification/UserSetsWalk.v ===== *)
(** * User sets: the walk over a group

    The walk puts every way down from the group on its stack, so that all that
    is below a group becomes known to it: as descendants of the group and, the
    other way round, with the group among the ancestors. *)

From Stdlib Require Import Ascii SpecFloat.
From stdpp Require Import strings.
From S2P Require Import Prelude Lsb Float32 Grp GrpTheory Account UserSets UserSetsOk.

(** ** Links *)

(** [u] is known to be in the group of [cur], and in the groups of [A]. *)
Definition linked (s : uState) (A : gset Z) (cur u : Z) : Prop :=
  cur ∈ set_in s Parents u /\ {[cur]} ∪ A ⊆ set_in s Ancestors u /\ u ∈ set_in s Children cur /\ u ∈ set_in s Descendants cur.

Lemma linked_grows {G} s s' A cur u : grows G s s' -> linked s A cur u -> linked s' A cur u.
Proof.
  intros Hg (H1 & H2 & H3 & H4). pose proof (gr_set Hg) as Hs. split_and!; [by apply (Hs Parents u)| |by apply (Hs Children cur)|by apply (Hs Descendants cur)].
  etrans; [exact H2|apply Hs].
Qed.

(** The record of a name. *)
Definition known (s : uState) (name : string) (u : Z) : Prop := uDataList s !! name = Some u.
Lemma known_grows {G} s s' n u : grows G s s' -> known s n u -> known s' n u.
Proof. intros Hg. apply (gr_list Hg). Qed.
Lemma known_rec G s n u : inv G s -> known s n u -> exists e, recs s !! u = Some e /\ user e = n.
Proof. intros Hi. apply (iv_list _ _ Hi). Qed.

Definition all_sets (s : uState) (u : Z) : Prop := forall w, has_set s w u.
Lemma all_sets_grows {G} s s' u : grows G s s' -> all_sets s u -> all_sets s' u.
Proof. intros Hg Ha w. by apply (gr_has Hg). Qed.

Lemma link_stepped G s A cur u x n :
  inv G s -> known s x cur -> known s n u -> directly G x n -> all_sets s cur -> A ⊆ set_in s Ancestors cur ->
  stepped G s (link cur u s) (fun s' => linked s' A cur u /\ all_sets s' u).
Proof.
  intros Hi Hc Hu Hin Hac HA. unfold link. destruct (known_rec G s n u Hi Hu) as (e & He & Ee).
  eapply stepped_bind; [apply checkuDataSet_stepped; [done|by exists e]|]. intros s1 I1 G1 Hall.
  pose proof (all_sets_grows (G:=G) _ _ _ G1 Hac) as Hac1. apply (known_grows (G:=G) _ _ _ _ G1) in Hc, Hu. assert (HA1 : A ⊆ set_in s1 Ancestors cur) by (etrans; [exact HA|apply (gr_set G1)]).
  clear s e Hi He Ee G1 Hac HA. destruct (known_rec G s1 x cur I1 Hc) as (c1 & Hc1 & Ec1), (known_rec G s1 n u I1 Hu) as (e1 & He1 & Ee1).
  eapply stepped_bind; [apply (set_add_stepped G s1 Parents u cur e1 c1); [done|done|done|by cbn; rewrite Ec1, Ee1]|]. intros s2 I2 G2 P2. specialize (P2 (Hall _)).
  destruct (gr_recs G2 u e1 He1) as (e2 & He2 & Ee2), (gr_recs G2 cur c1 Hc1) as (c2 & Hc2 & Ec2).
  eapply stepped_bind; [apply (set_add_stepped G s2 Ancestors u cur e2 c2); [done|done|done|by cbn; rewrite Ec2, Ee2, Ec1, Ee1; apply in_direct]|]. intros s3 I3 G3 P3.
  specialize (P3 (gr_has G2 _ _ (Hall _))). destruct (gr_recs G3 u e2 He2) as (e3 & He3 & Ee3), (gr_recs G3 cur c2 Hc2) as (c3 & Hc3 & Ec3).
  assert (G13 : grows G s1 s3) by by etrans. pose proof (all_sets_grows (G:=G) _ _ _ G13 Hall) as Hall3. pose proof (all_sets_grows (G:=G) _ _ _ G13 Hac1) as Hac3.
  eapply stepped_bind; [apply (set_union_stepped G s3 Ancestors u cur e3 c3); [done|done|done|apply Hall3|apply Hac3|]|].
  { intros z Hz. eapply in_trans; [exact Hz|]. rewrite Ec3, Ec2, Ec1, Ee3, Ee2, Ee1. by apply in_direct. }
  intros s4 I4 G4 P4. destruct (gr_recs G4 u e3 He3) as (e4 & He4 & Ee4), (gr_recs G4 cur c3 Hc3) as (c4 & Hc4 & Ec4).
  assert (Hin4 : directly G (user c4) (user e4)) by by rewrite Ec4, Ec3, Ec2, Ec1, Ee4, Ee3, Ee2, Ee1.
  eapply stepped_bind; [by apply (set_add_stepped G s4 Children cur u c4 e4)|]. intros s5 I5 G5 P5. specialize (P5 (gr_has G4 _ _ (Hac3 _))).
  destruct (gr_recs G5 u e4 He4) as (e5 & He5 & Ee5), (gr_recs G5 cur c4 Hc4) as (c5 & Hc5 & Ec5).
  eapply stepped_weaken; [|apply (set_add_stepped G s5 Descendants cur u c5 e5); [done|done|done|by cbn; rewrite Ec5, Ee5; apply in_direct]].
  intros s6 I6 G6 P6. specialize (P6 (gr_has G5 _ _ (gr_has G4 _ _ (Hac3 _)))). assert (G36 : grows G s3 s6) by (etrans; [exact G4|etrans; [exact G5|exact G6]]).
  assert (G26 : grows G s2 s6) by (by etrans). assert (G46 : grows G s4 s6) by by etrans. split; [|by apply (all_sets_grows (G:=G) s3)]. split_and!.
  - apply (gr_set G26 Parents u), P2.
  - apply union_subseteq. split; [apply singleton_subseteq_l, (gr_set G36), P3|]. etrans; [exact HA1|]. etrans; [apply (gr_set G13)|]. etrans; [exact P4|apply (gr_set G46)].
  - apply (gr_set G6 Children cur), P5.
  - exact P6.
Qed.

Section Walk.
Context (G : groups) (usergroups : list Z) (ignoreUserGroup : bool).
Hypothesis Hug : Forall (fun gp => is_Some (G !! gp)) usergroups.

Lemma visit_members_stepped s A cur p g l :
  inv G s -> G !! p = Some g -> known s (group g) cur -> all_sets s cur -> A ⊆ set_in s Ancestors cur -> (forall n, n ∈ l -> n ∈ memberTab g) ->
  stepped G s (visit_members G usergroups ignoreUserGroup cur l s) (fun s' => forall n, n ∈ l -> exists u, known s' n u /\ linked s' A cur u).
Proof using Hug.
  intros Hi Hp. revert s Hi. induction l as [|n l IH]; intros s Hi Hc Hac HA Hl; [apply stepped_stay; [done|by intros n ?%elem_of_nil]|].
  cbn [visit_members]. destruct (getUserData_found G usergroups ignoreUserGroup Hug s n Hi ltac:(apply (names_of_spec G p g Hp), Hl; by left)) as (u & s1 & -> & I1 & G1 & Hu). cbn [mbind option_bind]. cbv beta iota.
  assert (HA1 : A ⊆ set_in s1 Ancestors cur) by (etrans; [exact HA|apply (gr_set G1)]).
  destruct (link_stepped G s1 A cur u (group g) n I1) as (s2 & -> & I2 & G2 & L2 & _); [by apply (known_grows (G:=G) s)|done|eapply dir_member; [done|apply Hl; by left]|by apply (all_sets_grows (G:=G) s)|done|].
  cbn [mbind option_bind]. assert (G02 : grows G s s2) by by etrans.
  destruct (IH s2 I2) as (s3 & -> & I3 & G3 & L3); [by apply (known_grows (G:=G) s)|by apply (all_sets_grows (G:=G) s)|by etrans; [exact HA|apply (gr_set G02)]|intros x Hx; apply Hl; by right|].
  exists s3. split_and!; [done|done|by etrans|]. intros x [->|Hx]%elem_of_cons; [|by apply L3]. exists u. split; [by apply (known_grows (G:=G) s1); [etrans|]|by apply (linked_grows (G:=G) s2)].
Qed.

(** What the stack holds for a group that is put on it. *)
Definition pushed (s : uState) (A : gset Z) (curG cur c : Z) (e : uStackEntry) : Prop :=
  exists g, G !! c = Some g /\ e = Entry c (myUData e) curG cur /\ known s (group g) (myUData e) /\ linked s A cur (myUData e).

Lemma pushed_grows s s' A curG cur c e : grows G s s' -> pushed s A curG cur c e -> pushed s' A curG cur c e.
Proof using. intros Hg (g & Hc & He & Hk & Hl). exists g. split_and!; [done|done|by apply (known_grows (G:=G) s)|by apply (linked_grows (G:=G) s)]. Qed.

Lemma visit_groups_stepped s A cur p g l stack :
  inv G s -> G !! p = Some g -> known s (group g) cur -> all_sets s cur -> A ⊆ set_in s Ancestors cur ->
  (forall c, c ∈ l -> c ∈ gPtr g /\ is_Some (G !! c)) -> (length stack + length l <= MAX_GROUPS)%nat ->
  exists new s', visit_groups G usergroups ignoreUserGroup p cur l stack s = Some (stack ++ new, s') /\ inv G s' /\ grows G s s' /\ Forall2 (pushed s' A p cur) l new.
Proof using Hug.
  intros Hi Hp. revert s Hi stack. induction l as [|c l IH]; intros s Hi stack Hc Hac HA Hl Hroom.
  { exists [], s. cbn [visit_groups]. rewrite app_nil_r. split_and!; done. }
  cbn [visit_groups]. destruct (Hl c (list_elem_of_here _ _)) as [Hin [h Hh]]. rewrite Hh. cbn [mbind option_bind].
  destruct (getUserData_found G usergroups ignoreUserGroup Hug s (group h) Hi (proj1 (names_of_spec G c h Hh))) as (u & s1 & -> & I1 & G1 & Hu). cbn [mbind option_bind]. cbv beta iota.
  cbn [length] in Hroom. rewrite (proj2 (Nat.ltb_lt _ _)) by lia. assert (HA1 : A ⊆ set_in s1 Ancestors cur) by (etrans; [exact HA|apply (gr_set G1)]).
  destruct (link_stepped G s1 A cur u (group g) (group h) I1) as (s2 & -> & I2 & G2 & L2 & _); [by apply (known_grows (G:=G) s)|done|by eapply dir_group|by apply (all_sets_grows (G:=G) s)|done|].
  cbn [mbind option_bind]. assert (G02 : grows G s s2) by by etrans.
  destruct (IH s2 I2 (stack ++ [Entry c u p cur])) as (new & s3 & -> & I3 & G3 & L3); [by apply (known_grows (G:=G) s)|by apply (all_sets_grows (G:=G) s)|by etrans; [exact HA|apply (gr_set G02)]|intros x Hx; apply Hl; by right|rewrite length_app; cbn; lia|].
  exists (Entry c u p cur :: new), s3. rewrite <- app_assoc. split_and!; [done|done|by etrans|]. constructor; [|done]. exists h.
  split_and!; [done|done|by apply (known_grows (G:=G) s1); [etrans|]|by apply (linked_grows (G:=G) s2)].
Qed.

(** ** The number of ways down *)

Fixpoint tsize (n : nat) (p : Z) : nat :=
  match n with
  | O => O
  | S k => match G !! p with Some g => S (sum_list_with (tsize k) (gPtr g)) | None => 1%nat end
  end.
Definition tree_size (p : Z) : nat := tsize (grp_fuel G) p.

Lemma sum_list_ext (f f' : Z -> nat) l : (forall c, c ∈ l -> f c = f' c) -> sum_list_with f l = sum_list_with f' l.
Proof using. induction l as [|c l IH]; intros H; [done|]. cbn. rewrite (H c) by by left. f_equal. apply IH. intros x Hx. apply H. by right. Qed.

Lemma tsize_more n p m : deep G n p -> (n <= m)%nat -> tsize m p = tsize n p.
Proof using.
  intros Hd. revert m. induction Hd as [n p g Hn Hg _ IH]. intros [|m] Hm; [lia|]. cbn [tsize]. rewrite Hg. f_equal. apply sum_list_ext. intros c Hc. apply IH; [done|lia].
Qed.

Context (rank : Z -> nat).
Hypothesis Hac : acyclic G rank.

Lemma tree_size_unfold p g : G !! p = Some g -> tree_size p = S (sum_list_with tree_size (gPtr g)).
Proof using Hac.
  intros Hp. unfold tree_size. pose proof (deep_fuel G rank p Hac ltac:(by eexists)) as Hd. change (grp_fuel G) with (S (size G)) in *. cbn [tsize]. rewrite Hp. f_equal.
  apply sum_list_ext. intros c Hc. inversion Hd as [n p' g' _ Hg' Hsub]; subst. rewrite Hp in Hg'. injection Hg' as <-. symmetry. exact (tsize_more (size G) c (S (size G)) (Hsub c Hc) ltac:(lia)).
Qed.

(** ** The stack *)

(** An entry of the stack with the groups above it on its way down. *)
Abbreviation item := (uStackEntry * gset Z)%type.
Definition item_ok (s : uState) (x : item) : Prop :=
  exists g, G !! myGData x.1 = Some g /\ known s (group g) (myUData x.1) /\ x.2 ⊆ set_in s Ancestors (myUData x.1).
Definition below_ok (s : uState) (q : list item) (i : nat) (x : item) : Prop :=
  exists g, G !! myGData x.1 = Some g /\ all_sets s (myUData x.1) /\
    (forall n, n ∈ memberTab g -> exists u, known s n u /\ linked s x.2 (myUData x.1) u) /\
    (forall c, c ∈ gPtr g -> exists j y, (i < j)%nat /\ q !! j = Some y /\ y.2 = {[myUData x.1]} ∪ x.2 /\ pushed s x.2 (myGData x.1) (myUData x.1) c y.1).
Definition parent_ok (s : uState) (x : item) : Prop :=
  exists a b, known s a (parentUData x.1) /\ known s b (myUData x.1) /\ inside G a b.

Record walk_inv (root : Z) (cur : nat) (q : list item) (s : uState) : Prop := {
  wi_inv : inv G s;
  wi_items : forall i x, q !! i = Some x -> item_ok s x;
  wi_done : forall i x, (i < cur)%nat -> q !! i = Some x -> below_ok s q i x;
  wi_parent : forall i x, (0 < i)%nat -> q !! i = Some x -> parent_ok s x;
  wi_root : exists x, q !! 0%nat = Some x /\ myGData x.1 = root;
  wi_size : (length q + sum_list_with (fun x : item => tree_size (myGData x.1) - 1) (drop cur q) <= MAX_GROUPS)%nat }.

Lemma item_ok_grows s s' x : grows G s s' -> item_ok s x -> item_ok s' x.
Proof using. intros Hg (g & H1 & H2 & H3). exists g. split_and!; [done|by apply (known_grows (G:=G) s)|]. etrans; [exact H3|apply (gr_set Hg)]. Qed.
Lemma parent_ok_grows s s' x : grows G s s' -> parent_ok s x -> parent_ok s' x.
Proof using. intros Hg (a & b & H1 & H2 & H3). exists a, b. split_and!; [by apply (known_grows (G:=G) s)|by apply (known_grows (G:=G) s)|done]. Qed.
Lemma below_ok_grows s s' q q' i x : grows G s s' -> below_ok s q i x -> below_ok s' (q ++ q') i x.
Proof using.
  intros Hg (g & H1 & H2 & H3 & H4). exists g. split_and!; [done|by apply (all_sets_grows (G:=G) s)| |].
  - intros n Hn. destruct (H3 n Hn) as (u & Hu & Hl). exists u. split; [by apply (known_grows (G:=G) s)|by apply (linked_grows (G:=G) s)].
  - intros c Hc. destruct (H4 c Hc) as (j & y & Hj & Hy & Ey & Hp). exists j, y. split_and!; [done|by apply lookup_app_l_Some|done|by apply (pushed_grows s)].
Qed.

(** One round of the loop. *)
Lemma walk_round root cur q s x :
  walk_inv root cur q s -> q !! cur = Some x ->
  exists new s1 s2 s3 g, checkuDataSet (myUData x.1) s = Some s1 /\ G !! myGData x.1 = Some g /\
    visit_members G usergroups ignoreUserGroup (myUData x.1) (memberTab g) s1 = Some s2 /\
    visit_groups G usergroups ignoreUserGroup (myGData x.1) (myUData x.1) (gPtr g) q.*1 s2 = Some ((q ++ new).*1, s3) /\
    grows G s s3 /\ walk_inv root (S cur) (q ++ new) s3.
Proof using Hug Hac.
  intros [Hi Hit Hd Hpa Hro Hsz] Hx. destruct (Hit cur x Hx) as (g & Hg & Hk & HA). destruct x as [e A]. cbn [fst snd] in *.
  destruct (known_rec G s _ _ Hi Hk) as (r & Hr & _). destruct (checkuDataSet_stepped G s (myUData e) Hi ltac:(by eexists)) as (s1 & E1 & I1 & G1 & Hall1).
  assert (HA1 : A ⊆ set_in s1 Ancestors (myUData e)) by (etrans; [exact HA|apply (gr_set G1)]).
  destruct (visit_members_stepped s1 A (myUData e) (myGData e) g (memberTab g) I1 Hg) as (s2 & E2 & I2 & G2 & L2); [by apply (known_grows (G:=G) s)|done|done|done|].
  assert (Hdrop : drop cur q = (e, A) :: drop (S cur) q) by by apply drop_S. rewrite Hdrop in Hsz. cbn [sum_list_with fst] in Hsz. rewrite (tree_size_unfold _ g Hg) in Hsz.
  assert (Hlen : (length (gPtr g) <= sum_list_with tree_size (gPtr g))%nat).
  { clear - Hac Hg. destruct Hac as [_ Ha]. assert (Hall : forall c, c ∈ gPtr g -> (1 <= tree_size c)%nat) by (intros c Hc; destruct (Ha _ g c Hg Hc) as [[h Hh] _]; unfold tree_size; change (grp_fuel G) with (S (size G)); cbn; rewrite Hh; lia).
    induction (gPtr g) as [|c l IH]; [done|]. cbn. assert (1 <= tree_size c)%nat by (apply Hall; by left). assert (length l <= sum_list_with tree_size l)%nat by (apply IH; intros; apply Hall; by right). lia. }
  assert (HA2 : A ⊆ set_in s2 Ancestors (myUData e)) by (etrans; [exact HA1|apply (gr_set G2)]). assert (G02 : grows G s s2) by by etrans.
  destruct (visit_groups_stepped s2 A (myUData e) (myGData e) g (gPtr g) q.*1 I2 Hg) as (new & s3 & E3 & I3 & G3 & L3).
  { by apply (known_grows (G:=G) s). } { by apply (all_sets_grows (G:=G) s1). } { done. }
  { intros c Hc. split; [done|]. destruct Hac as [_ Ha]. by apply (Ha _ g c Hg Hc). } { rewrite length_fmap. lia. }
  set (B := {[myUData e]} ∪ A). exists ((fun y => (y, B)) <$> new), s1, s2, s3, g. assert (G03 : grows G s s3) by by etrans.
  assert (Enew : ((fun y => (y, B)) <$> new).*1 = new) by (rewrite <- list_fmap_compose; apply list_fmap_id). rewrite fmap_app, Enew. split_and!; [done..|].
  assert (Hnew : forall i y, ((fun y => (y, B)) <$> new) !! i = Some y -> exists c, gPtr g !! i = Some c /\ y.2 = B /\ pushed s3 A (myGData e) (myUData e) c y.1).
  { intros i y (y0 & -> & Hy0)%list_lookup_fmap_Some. destruct (Forall2_lookup_r _ _ _ _ _ L3 Hy0) as (c & Hc & Hp). by exists c. }
  split; [done| | | | |].
  - intros i y [Hy|[_ Hy]]%lookup_app_Some; [by apply (item_ok_grows s), (Hit i)|]. destruct (Hnew _ _ Hy) as (c & _ & EB & h & Hh & Ee & Hkn & Hln). exists h. rewrite Ee, EB. cbn. split_and!; [done|by rewrite Ee in Hkn|].
    destruct Hln as (_ & Hl2 & _). by rewrite Ee in Hl2.
  - intros i y Hlt Hy. assert (Hil : (i < length q)%nat) by (apply lookup_lt_Some in Hx; lia). rewrite lookup_app_l in Hy by done. destruct (decide (i = cur)) as [->|Hne].
    + rewrite Hx in Hy. injection Hy as <-. exists g. cbn [fst snd]. split_and!; [done|by apply (all_sets_grows (G:=G) s1); [etrans|]| |].
      * intros n Hn. destruct (L2 n Hn) as (u & Hu & Hl). exists u. split; [by apply (known_grows (G:=G) s2)|by apply (linked_grows (G:=G) s2)].
      * intros c [k Hk']%list_elem_of_lookup. destruct (Forall2_lookup_l _ _ _ _ _ L3 Hk') as (y & Hy & Hp). exists (length q + k)%nat, (y, B). split_and!; [lia| |done|done].
        rewrite lookup_app_r by lia. replace (length q + k - length q)%nat with k by lia. rewrite list_lookup_fmap, Hy. done.
    + apply (below_ok_grows s); [done|]. apply Hd; [lia|done].
  - intros i y Hpos [Hy|[_ Hy]]%lookup_app_Some; [by apply (parent_ok_grows s), (Hpa i)|]. destruct (Hnew _ _ Hy) as (c & Hc & _ & h & Hh & Ee & Hkn & _).
    exists (group g), (group h). rewrite Ee. cbn. split_and!; [by apply (known_grows (G:=G) s)|by rewrite Ee in Hkn|]. eapply in_direct, dir_group; [done|by eapply list_elem_of_lookup_2|done].
  - destruct Hro as (y & Hy & Ey). exists y. split; [by apply lookup_app_l_Some|done].
  - rewrite length_app, length_fmap, drop_app_le by (apply lookup_lt_Some in Hx; lia). rewrite sum_list_with_app. rewrite <- (Forall2_length _ _ _ L3).
    assert (Hsum : (length (gPtr g) + sum_list_with (fun x : item => tree_size (myGData x.1) - 1) ((fun y => (y, B)) <$> new) = sum_list_with tree_size (gPtr g))%nat); [|lia].
    clear - L3 Hac. induction L3 as [|c y l l' Hp _ IH]; [done|]. cbn. destruct Hp as (h & Hh & Ee & _). rewrite Ee. cbn. rewrite (tree_size_unfold c h Hh) at 2. rewrite (tree_size_unfold c h Hh). lia.
Qed.

Lemma walk_spec root fuel cur q s :
  (fuel + cur = MAX_GROUPS)%nat -> walk_inv root cur q s ->
  exists q' s', walk G usergroups ignoreUserGroup fuel cur q.*1 s = Some (q'.*1, s') /\ grows G s s' /\ walk_inv root (length q') q' s'.
Proof using Hug Hac.
  revert cur q s. induction fuel as [|k IH]; intros cur q s Hf Hw.
  - assert (Hlen : (length q <= cur)%nat) by (destruct Hw; lia). exists q, s. cbn [walk]. rewrite list_lookup_fmap, lookup_ge_None_2 by done. split_and!; [done|done|].
    destruct Hw as [W1 W2 W3 W4 W5 W6]. split; [done|done| |done|done|]; [intros i x Hi; apply W3; lia|]. rewrite drop_ge in W6 by done. by rewrite drop_ge by done.
  - cbn [walk]. rewrite list_lookup_fmap. destruct (q !! cur) as [x|] eqn:Hx; cbn [fmap option_fmap option_map].
    + destruct (walk_round root cur q s x Hw Hx) as (new & s1 & s2 & s3 & g & -> & Hg & E2 & E3 & G3 & W3). cbn [mbind option_bind]. rewrite Hg. cbn [mbind option_bind].
      rewrite E2. cbn [mbind option_bind]. rewrite E3. cbn [mbind option_bind]. cbv beta iota. destruct (IH (S cur) (q ++ new) s3 ltac:(lia) W3) as (q' & s' & -> & G4 & W4).
      exists q', s'. split_and!; [done|by etrans|done].
    + apply lookup_ge_None in Hx. exists q, s. split_and!; [done|done|]. destruct Hw as [W1 W2 W3 W4 W5 W6]. split; [done|done| |done|done|]; [intros i x Hi; apply W3; lia|].
      rewrite drop_ge in W6 by done. by rewrite drop_ge by done.
Qed.

(** ** What is below *)

(** A name among the members of a group, or the name of a group in it. *)
Definition direct (g : gData) (n : string) : Prop := n ∈ memberTab g \/ exists c h, c ∈ gPtr g /\ G !! c = Some h /\ n = group h.
Definition holds_name (p : Z) (n : string) : Prop := exists q h, below G p q /\ G !! q = Some h /\ direct h n.

Lemma holds_name_cases p g n : G !! p = Some g -> holds_name p n <-> direct g n \/ exists c, c ∈ gPtr g /\ holds_name c n.
Proof using. apply (below_cases G (fun h => direct h n)). Qed.

Section Complete.
Context (root : Z) (q : list item) (s : uState).
Hypothesis Hw : walk_inv root (length q) q s.

Lemma item_below i x : q !! i = Some x -> below_ok s q i x.
Proof using Hw. intros Hx. apply (wi_done _ _ _ _ Hw i x); [by eapply lookup_lt_Some|done]. Qed.

(** Every group below the first is on the stack. *)
Lemma stack_complete p : below G root p -> exists i x, q !! i = Some x /\ myGData x.1 = p.
Proof using Hw.
  induction 1 as [|p g c _ IH Hg Hc]; [destruct (wi_root _ _ _ _ Hw) as (x & Hx & Ex); by exists 0%nat, x|].
  destruct IH as (i & x & Hx & Ex). destruct (item_below i x Hx) as (g' & Hg' & _ & _ & Hsub). rewrite Ex, Hg in Hg'. injection Hg' as <-.
  destruct (Hsub c Hc) as (j & y & _ & Hy & _ & h & _ & Ee & _). exists j, y. split; [done|]. by rewrite Ee.
Qed.

(** The links of an entry. *)
Lemma direct_linked i x g n : q !! i = Some x -> G !! myGData x.1 = Some g -> direct g n -> exists u, known s n u /\ linked s x.2 (myUData x.1) u.
Proof using Hw.
  intros Hx Hg Hd. destruct (item_below i x Hx) as (g' & Hg' & _ & Hm & Hsub). rewrite Hg in Hg'. injection Hg' as <-. destruct Hd as [Hn|(c & h & Hc & Hh & ->)]; [by apply Hm|].
  destruct (Hsub c Hc) as (j & y & _ & _ & _ & h' & Hh' & _ & Hk & Hl). rewrite Hh in Hh'. injection Hh' as <-. by exists (myUData y.1).
Qed.

Lemma ancestors_complete m i x n :
  q !! i = Some x -> deep G m (myGData x.1) -> holds_name (myGData x.1) n -> exists u, known s n u /\ {[myUData x.1]} ∪ x.2 ⊆ set_in s Ancestors u.
Proof using Hw Hug Hac.
  revert i x. induction m as [|m IH]; intros i x Hx Hd Hn; [inversion Hd|]. inversion Hd as [m' p g _ Hg Hsub]; subst.
  apply (holds_name_cases _ g n Hg) in Hn as [Hn|(c & Hc & Hn)].
  - destruct (direct_linked i x g n Hx Hg Hn) as (u & Hu & _ & Hl & _). by exists u.
  - destruct (item_below i x Hx) as (g' & Hg' & _ & _ & Hs). rewrite Hg in Hg'. injection Hg' as <-. destruct (Hs c Hc) as (j & y & _ & Hy & Ey & h & Hh & Ee & _ & _).
    assert (Eg : myGData y.1 = c) by by rewrite Ee. destruct (IH j y Hy) as (u & Hu & Hl); [rewrite Eg; by apply Hsub|by rewrite Eg|]. exists u. split; [done|]. rewrite Ey in Hl. set_solver.
Qed.

End Complete.

(** ** Back down the stack *)

(** What is below an entry has become known to its parent. *)
Definition lifted (s : uState) (x : item) : Prop :=
  forall n, holds_name (myGData x.1) n -> exists u, known s n u /\ u ∈ set_in s Descendants (parentUData x.1).

Lemma walk_inv_grows root cur q s s' : inv G s' -> grows G s s' -> walk_inv root cur q s -> walk_inv root cur q s'.
Proof using.
  intros Hi Hg [W1 W2 W3 W4 W5 W6]. split; [done|intros i x Hx; by apply (item_ok_grows s), (W2 i)| |intros i x Hp Hx; by apply (parent_ok_grows s), (W4 i)|done|done].
  intros i x Hlt Hx. rewrite <- (app_nil_r q). apply (below_ok_grows s); [done|by apply W3].
Qed.

(** Below an entry whose later entries have been lifted. *)
Lemma descendants_complete root q s i x n :
  walk_inv root (length q) q s -> q !! i = Some x -> (forall j y, (i < j)%nat -> q !! j = Some y -> lifted s y) ->
  holds_name (myGData x.1) n -> exists u, known s n u /\ u ∈ set_in s Descendants (myUData x.1).
Proof using.
  intros Hw Hx Hlater Hn. destruct (item_below root q s Hw i x Hx) as (g & Hg & _ & _ & Hs). destruct (proj1 (holds_name_cases _ g n Hg) Hn) as [Hd|(c & Hc & Hn')].
  - destruct (direct_linked root q s Hw i x g n Hx Hg Hd) as (u & Hu & _ & _ & _ & Hl). by exists u.
  - destruct (Hs c Hc) as (j & y & Hj & Hy & _ & h & Hh & Ee & _ & _). destruct (Hlater j y Hj Hy n) as (u & Hu & Hl); [rewrite Ee; exact Hn'|]. exists u. split; [done|]. by rewrite Ee in Hl.
Qed.

Lemma climb_spec root pre x0 post s :
  let q := x0 :: pre ++ post in
  walk_inv root (length q) q s -> (forall j y, (length pre < j)%nat -> q !! j = Some y -> lifted s y) ->
  exists s', climb (reverse pre.*1) s = Some s' /\ grows G s s' /\ walk_inv root (length q) q s' /\ forall j y, (0 < j)%nat -> q !! j = Some y -> lifted s' y.
Proof using.
  revert post s. induction pre as [|x pre IH] using rev_ind; intros post s q Hw Hl.
  { exists s. split_and!; [done|done|done|]. intros j y Hj. by apply Hl. }
  assert (Eq : q = x0 :: pre ++ (x :: post)) by (unfold q; by rewrite <- app_assoc). rewrite fmap_app, reverse_app. cbn [fmap list_fmap reverse app climb].
  set (k := S (length pre)). assert (Hx : q !! k = Some x) by (rewrite Eq; unfold k; change ((pre ++ x :: post) !! length pre = Some x); by rewrite lookup_app_r, Nat.sub_diag by done).
  destruct (wi_parent _ _ _ _ Hw k x ltac:(lia) Hx) as (a & b & Ha & Hb & Hin). pose proof (wi_inv _ _ _ _ Hw) as Hi.
  destruct (known_rec G s a _ Hi Ha) as (ea & Hea & Eua). destruct (checkuDataSet_stepped G s (parentUData x.1) Hi ltac:(by eexists)) as (s1 & E1 & I1 & G1 & Hall1).
  change (climb (reverse [x.1] ++ reverse pre.*1) s) with (climb (x.1 :: reverse pre.*1) s). cbn [climb]. rewrite E1. cbn [mbind option_bind].
  pose proof (walk_inv_grows root _ q s s1 I1 G1 Hw) as Hw1. destruct (item_below root q s1 Hw1 k x Hx) as (g & Hg & Hsets & _).
  apply (known_grows (G:=G) _ _ _ _ G1) in Ha, Hb. destruct (known_rec G s1 a _ I1 Ha) as (e1 & He1 & Ee1), (known_rec G s1 b _ I1 Hb) as (f1 & Hf1 & Ef1).
  destruct (set_union_stepped G s1 Descendants (parentUData x.1) (myUData x.1) e1 f1 I1 He1 Hf1 (Hall1 _) (Hsets _)) as (s2 & E2 & I2 & G2 & Hsub).
  { intros z Hz. cbn in *. eapply in_trans; [|exact Hz]. by rewrite Ee1, Ef1. }
  rewrite E2. cbn [mbind option_bind]. pose proof (walk_inv_grows root _ q s1 s2 I2 G2 Hw1) as Hw2. assert (G02 : grows G s s2) by by etrans.
  assert (Hlm : forall y, lifted s y -> lifted s2 y) by (intros y Hy n Hn; destruct (Hy n Hn) as (u & Hu & Hd); exists u; split; [by apply (known_grows (G:=G) s)|by apply (gr_set G02)]).
  assert (Hlx : lifted s2 x).
  { intros n Hn. destruct (descendants_complete root q s1 k x n Hw1 Hx) as (u & Hu & Hd); [|done|].
    - intros j y Hj Hy n' Hn'. destruct (Hl j y) with n' as (u & Hu & Hd); [rewrite length_app; cbn; lia|done|done|]. exists u. split; [by apply (known_grows (G:=G) s)|by apply (gr_set G1)].
    - exists u. split; [by apply (known_grows (G:=G) s1)|]. by apply Hsub. }
  rewrite Eq in Hw2. destruct (IH (x :: post) s2 Hw2) as (s3 & E3 & G3 & W3 & L3).
  - intros j y Hj Hy. rewrite <- Eq in Hy. destruct (decide (j = k)) as [->|Hne]; [rewrite Hx in Hy; by injection Hy as <-|]. apply Hlm, (Hl j); [rewrite length_app; cbn; lia|done].
  - exists s3. rewrite Eq. split_and!; [exact E3|by etrans|exact W3|exact L3].
Qed.

(** ** The whole walk *)

(** All that is below a group under [gp] has that group among its ancestors, and
    is among the descendants of that group; what is in it directly is among its
    children and has it among its parents. *)
Definition complete (s : uState) (gp : Z) : Prop :=
  forall p g n, below G gp p -> G !! p = Some g -> holds_name p n ->
    exists a u, known s (group g) a /\ known s n u /\ a ∈ set_in s Ancestors u /\ u ∈ set_in s Descendants a /\
      (direct g n -> a ∈ set_in s Parents u /\ u ∈ set_in s Children a).

Lemma complete_grows s s' gp : grows G s s' -> complete s gp -> complete s' gp.
Proof using.
  intros Hg Hc p g n Hb Hp Hn. destruct (Hc p g n Hb Hp Hn) as (a & u & Ha & Hu & H1 & H2 & H3). exists a, u.
  split_and!; [by apply (known_grows (G:=G) s)|by apply (known_grows (G:=G) s)|by apply (gr_set Hg)|by apply (gr_set Hg)|]. intros Hd. destruct (H3 Hd). split; by apply (gr_set Hg).
Qed.

Lemma start_inv grp g u s : inv G s -> G !! grp = Some g -> known s (group g) u -> (tree_size grp <= MAX_GROUPS)%nat -> walk_inv grp 0 [(Entry grp u NULL NULL, ∅)] s.
Proof using Hac.
  intros Hi Hg Hu Hsz. split; [done| |intros i x Hlt; lia| |by exists (Entry grp u NULL NULL, ∅)|].
  - intros i x Hx. apply list_lookup_singleton_Some in Hx as [-> <-]. exists g. split_and!; [done|done|apply empty_subseteq].
  - intros i x Hpos Hx. apply list_lookup_singleton_Some in Hx as [-> _]. lia.
  - cbn. rewrite (tree_size_unfold grp g Hg) in *. lia.
Qed.

Lemma walk_complete root q s :
  walk_inv root (length q) q s -> (forall j y, (0 < j)%nat -> q !! j = Some y -> lifted s y) -> complete s root.
Proof using Hug Hac.
  intros Hw Hl p g n Hb Hp Hn. destruct (stack_complete root q s Hw p Hb) as (i & x & Hx & Ex). destruct (wi_items _ _ _ _ Hw i x Hx) as (g' & Hg' & Hk & _).
  rewrite Ex, Hp in Hg'. injection Hg' as <-. exists (myUData x.1). rewrite <- Ex in Hn, Hp.
  destruct (ancestors_complete root q s Hw (grp_fuel G) i x n Hx (deep_fuel G rank _ Hac ltac:(by eexists)) Hn) as (u & Hu & Ha).
  destruct (descendants_complete root q s i x n Hw Hx) as (u' & Hu' & Hd); [intros j y Hj; apply Hl; lia|done|]. unfold known in Hu, Hu'. rewrite Hu in Hu'. injection Hu' as <-.
  exists u. split_and!; [done|done|set_solver|done|]. intros Hdir. destruct (direct_linked root q s Hw i x g n Hx Hp Hdir) as (u' & Hu' & H1 & _ & H3 & _).
  unfold known in Hu'. rewrite Hu in Hu'. by injection Hu' as <-.
Qed.

Lemma traverse_stepped s grp :
  inv G s -> is_Some (G !! grp) -> (tree_size grp <= MAX_GROUPS)%nat ->
  stepped G s (traverseGroupTree G usergroups ignoreUserGroup grp s) (fun s' => complete s' grp).
Proof using Hug Hac.
  intros Hi [g Hg] Hsz. unfold traverseGroupTree. rewrite Hg. cbn [mbind option_bind].
  destruct (getUserData_found G usergroups ignoreUserGroup Hug s (group g) Hi (proj1 (names_of_spec G grp g Hg))) as (u & s1 & -> & I1 & G1 & Hu). cbn [mbind option_bind]. cbv beta iota.
  destruct (walk_spec grp MAX_GROUPS 0 [(Entry grp u NULL NULL, ∅)] s1 ltac:(lia) (start_inv grp g u s1 I1 Hg Hu Hsz)) as (q & s2 & E2 & G2 & W2).
  change [(Entry grp u NULL NULL, ∅)].*1 with [Entry grp u NULL NULL] in E2. rewrite E2. cbn [mbind option_bind]. cbv beta iota.
  destruct q as [|x0 q]; [destruct (wi_root _ _ _ _ W2) as (? & ? & _); done|]. cbn [fmap list_fmap tail]. rewrite <- (app_nil_r q) in W2.
  destruct (climb_spec grp q x0 [] s2 W2) as (s3 & E3 & G3 & W3 & L3).
  { intros j y Hj Hy. rewrite app_nil_r in Hy. apply lookup_lt_Some in Hy. cbn in Hy. lia. }
  rewrite app_nil_r in W3, L3. exists s3. split_and!; [exact E3|apply (wi_inv _ _ _ _ W3)|by etrans; [|etrans]|by apply (walk_complete grp (x0 :: q))].
Qed.

End Walk.
