(* ===== verification/UserSetsMain.v ===== *)
(** * User sets: what start-up makes of the groups

    [uDataGroupCreate] marks the records of the groups and [setuDataCreate]
    fills the sets: exactly what a group holds, and all that is below it. *)

From Stdlib Require Import Ascii SpecFloat.
From stdpp Require Import strings.
From S2P Require Import Prelude Lsb Float32 Grp GrpTheory Account AccountOk UserSets UserSetsOk UserSetsWalk.

(** ** Marking the groups *)

(** A record gets other flags or another group, and sets may become those of all
    users. *)
Lemma mark_inv G s u e e' :
  inv G s -> recs s !! u = Some e -> user e' = user e ->
  (forall w, get_set w e' = get_set w e \/ get_set w e' = AllUsers /\ (w = Children \/ w = Descendants) /\ everyone G (user e)) ->
  (has (e_flags e') USER_ALL = true -> everyone G (user e)) ->
  inv G (with_recs (<[u := e']> (recs s)) s).
Proof.
  intros [I1 I2 I3 I4 I5 I6 I8 I7 [I9 I10]] He Eu Hs Hfl.
  assert (Hk : forall a f, recs s !! a = Some f -> exists f', <[u := e']> (recs s) !! a = Some f' /\ user f' = user f).
  { intros a f Hf. destruct (decide (a = u)) as [->|Hne]; [exists e'; rewrite lookup_insert_eq; split; [done|congruence]|exists f; by rewrite lookup_insert_ne]. }
  split; cbn [uDataList recs with_recs allUsersSet uGrpAllSet observing uDataPtrTb free_addr].
  - intros n a Ha. destruct (I1 n a Ha) as (f & Hf & E). destruct (Hk a f Hf) as (f' & Hf' & E'). exists f'. split; [done|congruence].
  - intros a [f Hf]. destruct (decide (a = u)) as [->|Hne]; [apply I2; by exists e|]. rewrite lookup_insert_ne in Hf by done. apply I2. by exists f.
  - intros w a f X y Ha Hf Hy. assert (Hz : exists h, recs s !! y = Some h /\ rel G w (user f) (user h)).
    { destruct (decide (a = u)) as [->|Hne]; [|rewrite lookup_insert_ne in Ha by done; by apply (I3 w a f X)]. rewrite lookup_insert_eq in Ha. injection Ha as <-.
      destruct (Hs w) as [Es|(Es & _)]; [|congruence]. rewrite Eu. apply (I3 w u e X y); [done|congruence|done]. }
    destruct Hz as (h & Hh & Hr). destruct (Hk y h Hh) as (h' & Hh' & E). exists h'. by rewrite E.
  - intros w a f Ha Hf. destruct (decide (a = u)) as [->|Hne]; [|rewrite lookup_insert_ne in Ha by done; by apply (I4 w a f)]. rewrite lookup_insert_eq in Ha. injection Ha as <-.
    rewrite Eu. destruct (Hs w) as [Es|(_ & Hw & Hev)]; [|done]. apply (I4 w u e); [done|congruence].
  - intros y Hy. destruct (I5 y Hy) as [h Hh]. destruct (Hk y h Hh) as (h' & Hh' & _). by exists h'.
  - intros a Ha. destruct (I6 a Ha) as (f & Hf & H). destruct (Hk a f Hf) as (f' & Hf' & E). exists f'. by rewrite E.
  - intros a f Ha Hf. destruct (decide (a = u)) as [->|Hne]; [|rewrite lookup_insert_ne in Ha by done; by apply (I8 a f)]. rewrite lookup_insert_eq in Ha. injection Ha as <-. rewrite Eu. by apply Hfl.
  - intros a Ha. destruct (I7 a Ha) as (f & Hf & H). destruct (Hk a f Hf) as (f' & Hf' & E). exists f'. by rewrite E.
  - split; [done|]. intros a Ha. destruct (I10 a Ha) as [f Hf]. destruct (Hk a f Hf) as (f' & Hf' & _). by exists f'.
Qed.

Lemma all_shrinks G s X : inv G s -> X ⊆ allUsersSet s -> inv G (with_all X s).
Proof. intros [I1 I2 I3 I4 I5 I6 I8 I7 I9] HX. split; try done. intros y Hy. apply I5. by apply HX. Qed.

Lemma grpAll_inv G s u e : inv G s -> recs s !! u = Some e -> everyone G (user e) -> inv G (with_grpAll ({[u]} ∪ uGrpAllSet s) s).
Proof. intros [I1 I2 I3 I4 I5 I6 I8 I7 I9] He Hev. split; try done. intros a [->%elem_of_singleton|Ha]%elem_of_union; [by exists e|by apply I6]. Qed.

Lemma upd_rec_some u f s e : recs s !! u = Some e -> upd_rec u f s = Some (with_recs (<[u := f e]> (recs s)) s).
Proof. intros He. unfold upd_rec. by rewrite He. Qed.

(** The record of a group is marked, points to the group and is in the table. *)
Definition marked (G : groups) (s : uState) (gp : Z) : Prop :=
  exists g u e, G !! gp = Some g /\ known s (group g) u /\ recs s !! u = Some e /\ has (e_flags e) USER_GROUP = true /\ e_gData e = gp /\ u ∈ uDataPtrTb s /\
    (USER_GROUP_IS_ALL_USERS g = true -> has (e_flags e) USER_ALL = true /\ u ∈ uGrpAllSet s).

(** Marked records are those of groups of the list. *)
Definition marks_ok (G : groups) (usergroups : list Z) (s : uState) : Prop :=
  forall u e, recs s !! u = Some e -> has (e_flags e) USER_GROUP = true -> e_gData e ∈ usergroups.

Section Mark.
Context (G : groups) (usergroups : list Z) (ignoreUserGroup : bool).
Hypothesis Hug : Forall (fun gp => is_Some (G !! gp)) usergroups.

Lemma has_lor_self f m : m <> 0 -> has (Z.lor f m) m = true.
Proof using.
  intros Hm. unfold has. apply negb_true_iff, Z.eqb_neq. intros E. apply Hm. apply Z.bits_inj'. intros i Hi. apply (f_equal (fun z => Z.testbit z i)) in E.
  rewrite Z.land_spec, Z.lor_spec, Z.bits_0 in E. rewrite Z.bits_0. by destruct (Z.testbit f i), (Z.testbit m i).
Qed.

(** What changes of the records when a group is marked. *)
Definition only_at (u : Z) (s s' : uState) : Prop :=
  (uDataList s' = uDataList s /\ uGrpAllSet s ⊆ uGrpAllSet s' /\ uGrpAllAncestorSet s' = uGrpAllAncestorSet s /\ observing s' = observing s) /\
  uDataPtrTb s' = uDataPtrTb s /\ forall a, a <> u -> recs s' !! a = recs s !! a.

Lemma group_create_spec s gp g :
  inv G s -> G !! gp = Some g -> gp ∈ usergroups ->
  exists u s1 s', group_create G usergroups ignoreUserGroup gp s = Some s' /\ inv G s' /\ grows G s s1 /\ known s1 (group g) u /\ only_at u s1 s' /\
    exists e', recs s' !! u = Some e' /\ has (e_flags e') USER_GROUP = true /\ e_gData e' = gp /\
      (USER_GROUP_IS_ALL_USERS g = true -> has (e_flags e') USER_ALL = true /\ u ∈ uGrpAllSet s').
Proof using Hug.
  intros Hi Hg Hin. unfold group_create. rewrite Hg. cbn [mbind option_bind].
  destruct (getUserData_found G usergroups ignoreUserGroup Hug s (group g) Hi (proj1 (names_of_spec G gp g Hg))) as (u & s1 & -> & I1 & G1 & Hu). cbn [mbind option_bind]. cbv beta iota.
  destruct (known_rec G s1 _ u I1 Hu) as (e & He & Eu). exists u, s1. rewrite (upd_rec_some u _ s1 e He). cbn [mbind option_bind].
  set (e1 := put_flags (Z.lor (e_flags e) USER_GROUP) e). set (s2 := with_recs (<[u := e1]> (recs s1)) s1).
  assert (I2 : inv G s2). { apply (mark_inv G s1 u e); [done..|intros w; left; by destruct w|]. intros Hf. apply (iv_allflag G s1 I1 u e He). unfold e1 in Hf. cbn in Hf. by rewrite has_lor_other in Hf. }
  set (s3 := with_all (allUsersSet s2 ∖ {[u]}) s2). assert (I3 : inv G s3) by (apply all_shrinks; [done|set_solver]). assert (H3 : recs s3 !! u = Some e1) by apply lookup_insert_eq.
  destruct (USER_GROUP_IS_ALL_USERS g) eqn:Hall.
  - rewrite (upd_rec_some u _ s3 e1 H3). cbn [mbind option_bind]. set (e2 := put_set Descendants AllUsers _).
    assert (Hev : everyone G (user e1)) by (exists gp, g; split_and!; [done|by cbn; rewrite Eu|done]).
    assert (I4 : inv G (with_recs (<[u := e2]> (recs s3)) s3)).
    { apply (mark_inv G s3 u e1); [done|done|done| |done]. intros w. destruct w; [right; by auto|right; by auto|by left|by left]. }
    assert (H4 : <[u := e2]> (recs s3) !! u = Some e2) by apply lookup_insert_eq. pose proof (grpAll_inv G _ u e2 I4 H4 Hev) as I5.
    erewrite upd_rec_some by exact H4. eexists. split; [done|]. split_and!; [|done|done| |].
    + apply (mark_inv G _ u e2 (put_gData gp e2) I5 H4); [done|intros w; left; by destruct w|done].
    + split_and!; [done|cbn; set_solver|done|done|done|]. intros a Ha. unfold s3, s2. cbn. by rewrite !lookup_insert_ne.
    + exists (put_gData gp e2). cbn [recs with_recs]. rewrite lookup_insert_eq. split_and!; [done| |done|].
      * cbn. rewrite has_lor_other by done. by apply has_lor_self.
      * intros _. split; [cbn; by apply has_lor_self|cbn; set_solver].
  - cbn [mbind option_bind]. rewrite (upd_rec_some u _ s3 e1 H3). eexists. split; [done|]. split_and!; [|done|done| |].
    + apply (mark_inv G s3 u e1 (put_gData gp e1) I3 H3); [done|intros w; left; by destruct w|exact (iv_allflag G s3 I3 u e1 H3)].
    + split_and!; [done|done|done|done|done|]. intros a Ha. unfold s3, s2. cbn. by rewrite !lookup_insert_ne.
    + exists (put_gData gp e1). cbn [recs with_recs]. rewrite lookup_insert_eq. split_and!; [done| |done|by intros ?]. by apply has_lor_self.
Qed.

Lemma marked_here s1 s' gp g u e' :
  inv G s' -> G !! gp = Some g -> known s1 (group g) u -> only_at u s1 s' -> recs s' !! u = Some e' -> has (e_flags e') USER_GROUP = true -> e_gData e' = gp ->
  (USER_GROUP_IS_ALL_USERS g = true -> has (e_flags e') USER_ALL = true /\ u ∈ uGrpAllSet s') -> marked G s' gp.
Proof using.
  intros Hi Hg Hu ((El & _) & Et & _) He Hf Hgd Hall. exists g, u, e'. assert (Hk : known s' (group g) u) by (unfold known; by rewrite El). split_and!; [done..| |done]. by apply (proj1 (iv_tab G s' Hi) (group g)).
Qed.

(** Other groups stay marked. *)
Lemma marked_grows s s' gp : grows G s s' -> marked G s gp -> marked G s' gp.
Proof using.
  intros Hgr (g & u & e & Hg & Hu & He & Hf & Hgd & Hin & Hall). destruct (gr_flags Hgr u e He) as (e' & He' & Ef & Eg). exists g, u, e'.
  split_and!; [done|by apply (known_grows (G:=G) s)|done|congruence|congruence| |].
  - destruct (gr_tab Hgr) as (new & -> & _). apply elem_of_app. by left.
  - intros Ha. destruct (Hall Ha). split; [congruence|by apply (gr_grpAll Hgr)].
Qed.

(** Groups have different names. *)
Definition distinct_names : Prop := forall gp gp' g g', gp ∈ usergroups -> gp' ∈ usergroups -> G !! gp = Some g -> G !! gp' = Some g' -> group g = group g' -> gp = gp'.

Lemma create_groups_spec l s :
  distinct_names -> (forall gp, gp ∈ l -> gp ∈ usergroups) -> NoDup l -> inv G s -> marks_ok G usergroups s ->
  exists s', create_groups G usergroups ignoreUserGroup l s = Some s' /\ inv G s' /\ marks_ok G usergroups s' /\ (forall gp, gp ∈ l -> marked G s' gp) /\
    (forall gp, gp ∈ usergroups -> gp ∉ l -> marked G s gp -> marked G s' gp) /\
    (anc_observe s -> anc_observe s').
Proof using Hug.
  intros Hdn. revert s. induction l as [|gp l IH]; intros s Hl Hnd Hi Hmk.
  { exists s. split_and!; [done|done|done|by intros gp ?%elem_of_nil|done|done]. }
  apply NoDup_cons in Hnd as [Hni Hnd]. assert (Hin : gp ∈ usergroups) by (apply Hl; by left). destruct (proj1 (Forall_forall _ _) Hug gp Hin) as [g Hg]. cbn [create_groups].
  destruct (group_create_spec s gp g Hi Hg Hin) as (u & s1 & s2 & -> & I2 & G1 & Hu & Ho & e' & He' & Hf' & Hgd' & Hall'). cbn [mbind option_bind].
  pose proof (marked_here s1 s2 gp g u e' I2 Hg Hu Ho He' Hf' Hgd' Hall') as Hm2.
  assert (Hmk2 : marks_ok G usergroups s2).
  { intros a x Ha Hfx. destruct (decide (a = u)) as [->|Hne]; [rewrite He' in Ha; injection Ha as <-; by rewrite Hgd'|]. destruct Ho as (_ & _ & Hr). rewrite (Hr a Hne) in Ha.
    destruct (gr_back G1 a x Ha) as [(y & Hy & Ef & Eg)|E0]; [rewrite Eg; apply (Hmk a y Hy); by rewrite <- Ef|by rewrite E0 in Hfx]. }
  destruct (IH s2) as (s3 & -> & I3 & Hmk3 & Hm3 & Hk3 & Ha3); [intros x Hx; apply Hl; by right|done|done|done|]. exists s3. split_and!; [done|done|done| | |].
  - intros x [->|Hx]%elem_of_cons; [by apply Hk3|by apply Hm3].
  - intros x Hx Hxl Hmx. apply not_elem_of_cons in Hxl as [Hxne Hxl]. apply Hk3; [done|done|]. apply (marked_grows s s1) in Hmx; [|done].
    destruct Hmx as (h & a & e & Hh & Ha & He & Hf & Hgd & Htab & Hah). destruct Ho as ((El & Eg & _) & Et & Hr). exists h, a, e. assert (Hau : a <> u).
    { intros ->. apply Hxne. apply (Hdn x gp h g Hx Hin Hh Hg). destruct (iv_list G s2 I2 (group h) u) as (y & Hy & Ey); [by rewrite El|].
      destruct (iv_list G s2 I2 (group g) u) as (z & Hz & Ez); [by rewrite El|]. congruence. }
    split_and!; [done|unfold known; by rewrite El|by rewrite Hr|done|done|by rewrite Et|]. intros Hx1. destruct (Hah Hx1). split; [done|by apply Eg].
  - intros Han. apply Ha3. destruct Ho as ((_ & _ & E1 & E2) & _). intros a. rewrite E1, E2. by apply (gr_anc G1 Han).
Qed.

End Mark.

(** ** All groups *)

(** The entries of the table and the names still to come. *)
Definition to_come (G : groups) (s : uState) : nat := (length (uDataPtrTb s) + size (names_of G ∖ dom (uDataList s)))%nat.

Lemma to_come_grows G s s' : grows G s s' -> (to_come G s' <= to_come G s)%nat.
Proof.
  intros Hg. unfold to_come. destruct (gr_tab Hg) as (new & -> & Hlen). rewrite length_app. pose proof (gr_names Hg) as Hn. set (D := dom (uDataList s)) in *. set (D' := dom (uDataList s')) in *.
  assert (Hsub : D ⊆ D') by (intros n [a Ha]%elem_of_dom; apply elem_of_dom; exists a; by apply (gr_list Hg)).
  assert (E1 : size D' = (size D + size (D' ∖ D))%nat) by (rewrite <- size_union by set_solver; f_equal; by apply union_difference_L).
  assert (E2 : size (names_of G ∖ D) = (size (names_of G ∖ D') + size (D' ∖ D))%nat); [|lia].
  rewrite <- size_union by set_solver. f_equal. apply set_eq. intros n. destruct (decide (n ∈ D')); set_solver.
Qed.

Lemma names_size G : (size (names_of G) <= length (names_list G))%nat.
Proof.
  unfold names_of. induction (names_list G) as [|n l IH]; [done|]. cbn [length]. rewrite list_to_set_cons, size_union_alt, size_singleton.
  assert (size (list_to_set l ∖ {[n]} : gset string) <= size (list_to_set l : gset string))%nat by (apply subseteq_size; set_solver). lia.
Qed.

Section All.
Context (G : groups) (usergroups : list Z) (ignoreUserGroup : bool) (rank : Z -> nat).
Hypotheses (Hug : Forall (fun gp => is_Some (G !! gp)) usergroups) (Hac : acyclic G rank)
  (Hsz : Forall (fun gp => (tree_size G gp <= MAX_GROUPS)%nat) usergroups).

Lemma marks_ok_grows s s' : grows G s s' -> marks_ok G usergroups s -> marks_ok G usergroups s'.
Proof using.
  intros Hg Hm u e' He' Hf. destruct (gr_back Hg u e' He') as [(e & He & Ef & Eg)|E0]; [rewrite Eg; apply (Hm u e He); by rewrite <- Ef|by rewrite E0 in Hf].
Qed.

(** The groups of the table from some place on are complete. *)
Definition table_complete (s : uState) (i : nat) : Prop :=
  forall j u e, (i <= j)%nat -> uDataPtrTb s !! j = Some u -> recs s !! u = Some e ->
    has (e_flags e) USER_GROUP = true -> others (user e) = false -> complete G s (e_gData e).

Lemma traverse_all_stepped fuel i s :
  inv G s -> marks_ok G usergroups s -> (to_come G s <= fuel + i)%nat ->
  stepped G s (traverse_all G usergroups ignoreUserGroup fuel i s) (fun s' => table_complete s' i).
Proof using Hug Hac Hsz.
  revert i s. induction fuel as [|k IH]; intros i s Hi Hm Hf.
  { unfold to_come in Hf. cbn [traverse_all]. rewrite lookup_ge_None_2 by lia. apply stepped_stay; [done|]. intros j u e Hj Hu. apply lookup_lt_Some in Hu. lia. }
  cbn [traverse_all]. destruct (uDataPtrTb s !! i) as [u|] eqn:Hu.
  2: { apply stepped_stay; [done|]. intros j x e Hj Hx. apply lookup_ge_None in Hu. apply lookup_lt_Some in Hx. lia. }
  destruct (proj2 (iv_tab G s Hi) u (list_elem_of_lookup_2 _ _ _ Hu)) as [e He]. rewrite He. cbn [mbind option_bind].
  eapply (stepped_bind G s _ (fun s1 => has (e_flags e) USER_GROUP = true -> others (user e) = false -> complete G s1 (e_gData e))).
  - destruct (has (e_flags e) USER_GROUP) eqn:Hfl; cbn [andb]; [|by apply stepped_stay]. destruct (others (user e)); cbn [negb]; [by apply stepped_stay|].
    pose proof (Hm u e He Hfl) as Hin. eapply stepped_weaken; [|apply (traverse_stepped G usergroups ignoreUserGroup Hug rank Hac s (e_gData e) Hi)]; [done| |].
    + exact (proj1 (Forall_forall _ _) Hug _ Hin).
    + exact (proj1 (Forall_forall _ _) Hsz _ Hin).
  - intros s1 I1 G1 Hc. pose proof (to_come_grows G s s1 G1) as Ht. eapply stepped_weaken; [|apply (IH (S i) s1 I1 (marks_ok_grows s s1 G1 Hm)); lia].
    intros s2 I2 G2 Hrest j x f Hj Hx Hfx Hfl Hot. destruct (decide (j = i)) as [->|Hne]; [|apply (Hrest j x f); [lia|done..]].
    assert (G02 : grows G s s2) by by etrans. destruct (gr_tab G02) as (new & Et & _). rewrite Et, (lookup_app_l_Some _ _ _ _ Hu) in Hx. injection Hx as <-.
    destruct (gr_flags G02 u e He) as (f1 & Hf1 & Efl & Egd), (gr_recs G02 u e He) as (f2 & Hf2 & Eus). rewrite Hfx in Hf1, Hf2. injection Hf1 as <-. injection Hf2 as <-.
    rewrite Egd. apply (complete_grows G s1 s2 _ G2), Hc; congruence.
Qed.

Lemma add_parents_stepped s u l :
  inv G s -> is_Some (recs s !! u) -> (forall g, g ∈ l -> g ∈ uGrpAllSet s) ->
  stepped G s (add_parents u l s) (fun s' => has_set s Parents u -> has_set s Ancestors u ->
    forall g, g ∈ l -> g ∈ set_in s' Parents u /\ g ∈ set_in s' Ancestors u).
Proof using.
  revert s. induction l as [|g l IH]; intros s Hi [e He] Hl; [apply stepped_stay; [done|by intros _ _ g ?%elem_of_nil]|]. cbn [add_parents].
  destruct (iv_grpAll G s Hi g (Hl g (list_elem_of_here _ _))) as (f & Hf & Hev).
  eapply stepped_bind; [by apply (set_add_stepped G s Parents u g e f); [done|done|done|apply dir_all]|]. intros s1 I1 G1 P1.
  destruct (gr_recs G1 u e He) as (e1 & He1 & Ee1), (gr_recs G1 g f Hf) as (f1 & Hf1 & Ef1).
  eapply stepped_bind; [by apply (set_add_stepped G s1 Ancestors u g e1 f1); [done|done|done|apply in_all; rewrite Ef1]|]. intros s2 I2 G2 P2.
  eapply stepped_weaken; [|apply IH; [done|by apply (grows_some (G:=G) s1); [|eexists]|]].
  - intros s3 I3 G3 P3 Hp Ha x [->|Hx]%elem_of_cons.
    + split; [apply (gr_set G3), (gr_set G2), P1, Hp|apply (gr_set G3), P2, (gr_has G1), Ha].
    + apply P3; [apply (gr_has G2), (gr_has G1), Hp|apply (gr_has G2), (gr_has G1), Ha|done].
  - intros x Hx. apply (gr_grpAll G2), (gr_grpAll G1), Hl. by right.
Qed.

Lemma observe_stepped s l :
  inv G s -> (forall a, a ∈ l -> exists e, recs s !! a = Some e /\ forall n, inside G (user e) n) ->
  stepped G s (Some (foldl (fun s a => observe a s) s l)) (fun s' => anc_observe s -> forall a, a ∈ l -> a ∈ observing s').
Proof using.
  revert s. induction l as [|a l IH]; intros s Hi Hl; [apply stepped_stay; [done|by intros _ a ?%elem_of_nil]|]. cbn [foldl].
  assert (Ho : inv G (observe a s) /\ grows G s (observe a s) /\ recs (observe a s) = recs s /\ (anc_observe s -> a ∈ observing (observe a s))).
  { unfold observe. destruct (decide (a ∈ uGrpAllAncestorSet s)) as [Hin|Hin]; [split_and!; [done|done|done|by intros H; apply H]|].
    split_and!; [| |done|intros _; apply elem_of_app; right; by left].
    - destruct Hi as [I1 I2 I3 I4 I5 I6 I8 I7 I9]. split; try done. intros x [Hx| ->%list_elem_of_singleton]%elem_of_app; [by apply I7|apply Hl; by left].
    - split; [done|intros x e He; by exists e|intros x e He; by exists e|intros x e He; left; by exists e|intros w x e He Hr; by exists e|done|done|done|done| |apply union_subseteq_l|intros x Hx; apply elem_of_app; by left|].
      + exists []. rewrite app_nil_r. split; [done|cbn; lia].
      + intros H x [->%elem_of_singleton|Hx]%elem_of_union; apply elem_of_app; [right; by left|left; by apply H]. }
  destruct Ho as (I1 & G1 & Er & Hin). destruct (IH (observe a s) I1) as (s' & E & I2 & G2 & P); [intros x Hx; rewrite Er; apply Hl; by right|].
  exists s'. split_and!; [done|done|by etrans|]. intros Han x [->|Hx]%elem_of_cons; [by apply (gr_obs G2), Hin|apply P; [by apply (gr_anc G1)|done]].
Qed.

(** What the second loop does for a record, from the state [s] on: a plain user
    enters the groups of all users, and what is above such a group will be told
    of new users. *)
Definition joined (s s' : uState) (u : Z) : Prop :=
  forall e, recs s !! u = Some e ->
    (e_flags e = 0 -> has_set s Parents u -> has_set s Ancestors u ->
       forall g, g ∈ uGrpAllSet s -> g ∈ set_in s' Parents u /\ g ∈ set_in s' Ancestors u) /\
    (has (e_flags e) USER_ALL = true -> anc_observe s -> forall a, a ∈ set_in s Ancestors u -> a ∈ observing s').

Lemma joined_grows s s1 s2 u : grows G s1 s2 -> joined s s1 u -> joined s s2 u.
Proof using.
  intros Hg Hj e He. destruct (Hj e He) as [J1 J2]. split.
  - intros Hf Hp Ha g Hx. destruct (J1 Hf Hp Ha g Hx). split; by apply (gr_set Hg).
  - intros Hf Han a Ha. by apply (gr_obs Hg), J2.
Qed.

Lemma joined_earlier s s1 s2 u : is_Some (recs s !! u) -> grows G s s1 -> joined s1 s2 u -> joined s s2 u.
Proof using.
  intros _ Hg Hj e He. destruct (gr_flags Hg u e He) as (e1 & He1 & Ef & _). destruct (Hj e1 He1) as [J1 J2]. rewrite Ef in J1, J2. split.
  - intros Hf Hp Ha g Hx. apply J1; [done|by apply (gr_has Hg)|by apply (gr_has Hg)|by apply (gr_grpAll Hg)].
  - intros Hf Han a Ha. apply J2; [done|by apply (gr_anc Hg)|by apply (gr_set Hg)].
Qed.

Lemma join_all_stepped s u : inv G s -> is_Some (recs s !! u) -> stepped G s (join_all u s) (fun s' => joined s s' u).
Proof using.
  intros Hi [e He]. unfold join_all. rewrite He. cbn [mbind option_bind]. unfold not_user_group. destruct (Z.eqb_spec (e_flags e) 0) as [E0|E0].
  - rewrite E0. eapply stepped_bind; [apply add_parents_stepped; [done|by exists e|intros g Hg; by apply elem_of_elements]|]. intros s1 I1 G1 P1.
    apply stepped_stay; [done|]. intros e' He'. rewrite He in He'. injection He' as <-. split; [|by rewrite E0]. intros _ Hp Ha g Hg. apply P1; [done|done|by apply elem_of_elements].
  - cbn [mbind option_bind]. destruct (has (e_flags e) USER_ALL) eqn:Ha.
    + eapply stepped_weaken; [|apply observe_stepped; [done|]].
      * intros s1 I1 G1 P1 e' He'. rewrite He in He'. injection He' as <-. split; [done|]. intros _ Han a Hin. apply P1; [done|].
        apply elem_of_elements. unfold set_in in Hin. by rewrite He in Hin.
      * intros a Hin%elem_of_elements. destruct (own_elem G s Ancestors u e a Hi He Hin) as (f & Hf & Hr). exists f. split; [done|].
        intros n. eapply in_trans; [exact Hr|]. apply in_all. exact (iv_allflag G s Hi u e He Ha).
    + apply stepped_stay; [done|]. intros e' He'. rewrite He in He'. injection He' as <-. by rewrite Ha.
Qed.

Lemma join_every_stepped s l :
  inv G s -> (forall u, u ∈ l -> is_Some (recs s !! u)) -> stepped G s (join_every l s) (fun s' => forall u, u ∈ l -> joined s s' u).
Proof using.
  revert s. induction l as [|u l IH]; intros s Hi Hl; [apply stepped_stay; [done|by intros u ?%elem_of_nil]|]. cbn [join_every].
  eapply stepped_bind; [apply join_all_stepped; [done|apply Hl; by left]|]. intros s1 I1 G1 J1.
  eapply stepped_weaken; [|apply IH; [done|]].
  - intros s2 I2 G2 J2 x [->|Hx]%elem_of_cons; [by apply (joined_grows s s1)|].
    apply (joined_earlier s s1); [apply Hl; by right|done|by apply J2].
  - intros x Hx. apply (grows_some (G:=G) s); [done|]. apply Hl. by right.
Qed.

(** A set with an element is there. *)
Lemma in_has_set s w u x : x ∈ set_in s w u -> has_set s w u.
Proof using. unfold set_in, has_set. destruct (recs s !! u) as [e|]; [|by intros ?%elem_of_empty]. destruct (get_set w e); [by intros ?%elem_of_empty|done|done]. Qed.

(** Each group of all users among the groups [L] has the plain users named in
    the groups of [L] for members, and every group above it is told of new
    users. *)
Definition enrolled (L : Z -> Prop) (s : uState) : Prop :=
  forall ge h, L ge -> G !! ge = Some h -> USER_GROUP_IS_ALL_USERS h = true ->
  exists a, known s (group h) a /\
    forall gp g p k, L gp -> G !! gp = Some g -> others (group g) = false -> below G gp p -> G !! p = Some k ->
      (forall n, holds_name G p n -> exists u, known s n u /\
         forall e, recs s !! u = Some e -> e_flags e = 0 -> a ∈ set_in s Parents u /\ a ∈ set_in s Ancestors u) /\
      (holds_name G p (group h) -> exists b, known s (group k) b /\ b ∈ observing s).

Lemma enrolled_after s s1 s2 :
  inv G s1 -> grows G s s1 -> grows G s1 s2 -> anc_observe s1 ->
  (forall gp g, marked G s gp -> G !! gp = Some g -> others (group g) = false -> complete G s1 gp) ->
  (forall u, u ∈ uDataPtrTb s1 -> joined s1 s2 u) -> enrolled (marked G s) s2.
Proof using.
  intros I1 G1 G2 Han Hc Hj ge h (h' & a & ea & Hh' & Ha & Hea & _ & _ & _ & Hall) Hh Hev. rewrite Hh in Hh'. injection Hh' as <-.
  destruct (Hall Hev) as [Hfl Hag]. apply (gr_grpAll G1) in Hag. apply (known_grows (G:=G) _ _ _ _ G1) in Ha.
  destruct (gr_flags G1 a ea Hea) as (a1 & Ha1 & Ef1 & _). exists a. split; [by apply (known_grows (G:=G) s1)|].
  intros gp g p k Hgp Hg Hot Hb Hp. pose proof (Hc gp g Hgp Hg Hot) as Hcg. split.
  - intros n (q & hq & Hbq & Hq & Hdir).
    destruct (Hcg q hq n) as (b & u & _ & Hu & Hba & _ & Hpar); [by eapply below_trans|done|by exists q, hq; split; [apply below_refl|]|].
    destruct (Hpar Hdir) as [Hbp _]. exists u. split; [by apply (known_grows (G:=G) s1)|]. intros e2 He2 Hf2.
    destruct (known_rec G s1 n u I1 Hu) as (e1 & He1 & _). destruct (gr_flags G2 u e1 He1) as (e2' & He2' & Ef & _). rewrite He2 in He2'. injection He2' as <-.
    destruct (Hj u (proj1 (iv_tab G s1 I1) n u Hu) e1 He1) as [J _]. apply J; [congruence|by eapply in_has_set|by eapply in_has_set|done].
  - intros Hn. destruct (Hcg p k (group h) Hb Hp Hn) as (b & u & Hb1 & Hu & Hba & _). unfold known in Hu, Ha. rewrite Hu in Ha. injection Ha as ->.
    exists b. split; [by apply (known_grows (G:=G) s1)|]. destruct (Hj a (proj1 (iv_tab G s1 I1) _ a Hu) a1 Ha1) as [_ J]. apply J; [congruence|done|done].
Qed.

Lemma setuDataCreate_stepped s :
  inv G s -> marks_ok G usergroups s -> anc_observe s ->
  stepped G s (setuDataCreate G usergroups ignoreUserGroup s)
    (fun s' => (forall gp g, marked G s gp -> G !! gp = Some g -> others (group g) = false -> complete G s' gp) /\ enrolled (marked G s) s').
Proof using Hug Hac Hsz.
  intros Hi Hm Han. unfold setuDataCreate. eapply stepped_bind.
  { apply (traverse_all_stepped (table_fuel G s) 0 s Hi Hm). unfold to_come, table_fuel. pose proof (names_size G). assert (size (names_of G ∖ dom (uDataList s)) <= size (names_of G))%nat by (apply subseteq_size; set_solver). lia. }
  intros s1 I1 G1 Hc.
  assert (Hc1 : forall gp g, marked G s gp -> G !! gp = Some g -> others (group g) = false -> complete G s1 gp).
  { intros gp g (g' & u & e & Hg' & Hu & He & Hfl & Hgd & Hin & _) Hg Hot. rewrite Hg in Hg'. injection Hg' as <-.
    destruct (gr_flags G1 u e He) as (f1 & Hf1 & Efl & Egd), (gr_recs G1 u e He) as (f2 & Hf2 & Eus).
    rewrite Hf1 in Hf2. injection Hf2 as <-. destruct (gr_tab G1) as (new & Et & _). apply list_elem_of_lookup in Hin as [j Hj].
    assert (Hj1 : uDataPtrTb s1 !! j = Some u) by (rewrite Et; by apply lookup_app_l_Some). rewrite <- Hgd, <- Egd. apply (Hc j u f1); [lia|done|done|congruence|].
    rewrite Eus. destruct (known_rec G s _ u Hi Hu) as (x & Hx & Ex). congruence. }
  eapply stepped_weaken; [|apply join_every_stepped; [done|apply (iv_tab G s1 I1)]]. intros s2 I2 G2 Hj. split.
  - intros gp g Hgp Hg Hot. by apply (complete_grows G s1 s2 _ G2), (Hc1 gp g).
  - apply (enrolled_after s s1 s2); [done|done|done|by apply (gr_anc G1)|done|done].
Qed.

End All.

(** ** The theorems *)

(** What is in a set belongs there. *)
Definition sets_sound (G : groups) (s : uState) : Prop :=
  forall w u e y, recs s !! u = Some e -> y ∈ set_in s w u -> exists f, recs s !! y = Some f /\ rel G w (user e) (user f).

Lemma inv_sound G s : inv G s -> sets_sound G s.
Proof. intros Hi w u e y He Hy. unfold set_in in Hy. rewrite He in Hy. by apply (own_elem G s w u). Qed.

(** (C33) On groups without cycles, when there are at most [MAX_GROUPS] ways down
    from a group, [traverseGroupTree] returns: the stack, which the code does not
    guard, does not overflow.  Every group under it then is among the ancestors
    of all names below that group, which are among its descendants, and the
    parents and children hold what is in a group directly; no set holds anything
    else, parents and children nothing that is only indirectly in a group, and
    no set loses anything. *)
Theorem traverseGroupTree_correct G usergroups ignoreUserGroup rank s grp :
  Forall (fun gp => is_Some (G !! gp)) usergroups -> acyclic G rank -> inv G s -> is_Some (G !! grp) -> (tree_size G grp <= MAX_GROUPS)%nat ->
  exists s', traverseGroupTree G usergroups ignoreUserGroup grp s = Some s' /\ complete G s' grp /\ sets_sound G s' /\ forall w u, set_in s w u ⊆ set_in s' w u.
Proof.
  intros Hug Hac Hi Hg Hsz. destruct (traverse_stepped G usergroups ignoreUserGroup Hug rank Hac s grp Hi Hg Hsz) as (s' & E & I' & G' & Hc).
  exists s'. split_and!; [done|done|by apply inv_sound|apply (gr_set G')].
Qed.

(** (C32) At start-up, from records none of which is marked as a group, on groups
    without cycles and with at most [MAX_GROUPS] ways down from each,
    [uDataGroupCreate] and [setuDataCreate] give every user group of the
    configuration that is not named [others...] sets that are complete for the
    names written in the groups, in a state in which all sets hold only what
    belongs there.  Plain users named in these groups have every group of all
    users among their parents and ancestors, and the groups above a group of all
    users observe the set of all users.  (That the users met before the
    observers are set up may be missing from the descendants of a group above a
    group of all users is shown by [late_user_missed] below.) *)
Theorem user_sets_correct G usergroups ignoreUserGroup rank s :
  Forall (fun gp => is_Some (G !! gp) /\ (tree_size G gp <= MAX_GROUPS)%nat) usergroups -> NoDup usergroups -> distinct_names G usergroups -> acyclic G rank ->
  inv G s -> (forall u e, recs s !! u = Some e -> has (e_flags e) USER_GROUP = false) -> anc_observe s ->
  exists s1 s2, uDataGroupCreate G usergroups ignoreUserGroup s = Some s1 /\ setuDataCreate G usergroups ignoreUserGroup s1 = Some s2 /\ sets_sound G s2 /\
    (forall gp g, gp ∈ usergroups -> G !! gp = Some g -> others (group g) = false -> complete G s2 gp) /\
    enrolled G (fun gp => gp ∈ usergroups) s2.
Proof.
  intros Hall Hnd Hdn Hac Hi Hun Han. assert (Hug : Forall (fun gp => is_Some (G !! gp)) usergroups) by (eapply Forall_impl; [exact Hall|by intros ? []]).
  assert (Hsz : Forall (fun gp => (tree_size G gp <= MAX_GROUPS)%nat) usergroups) by (eapply Forall_impl; [exact Hall|by intros ? []]).
  destruct (create_groups_spec G usergroups ignoreUserGroup Hug usergroups s Hdn (fun _ H => H) Hnd Hi) as (s1 & E1 & I1 & Hm1 & Hmk & _ & Han1); [intros u e He Hf; by rewrite (Hun u e He) in Hf|].
  destruct (setuDataCreate_stepped G usergroups ignoreUserGroup rank Hug Hac Hsz s1 I1 Hm1 (Han1 Han)) as (s2 & E2 & I2 & _ & Hc & He). exists s1, s2.
  split_and!; [exact E1|exact E2|by apply inv_sound|intros gp g Hin Hg Hot; by apply (Hc gp g (Hmk gp Hin))|].
  intros ge h Hge Hh Hev. destruct (He ge h (Hmk ge Hge) Hh Hev) as (a & Ha & H). exists a. split; [done|]. intros gp g p k Hgp. apply H. by apply Hmk.
Qed.

(** ** A small cluster *)

Definition two_levels : groups :=
  <[1 := GData "staff" ["ann"] [2; 3] None]> (<[2 := GData "lab" ["cy"] [] None]> {[3 := GData "every" [] [] None]}).
Definition two_levels_rank (p : Z) : nat := if p =? 1 then 1 else 0.
Definition no_users : uState := UState ∅ ∅ [] ∅ ∅ ∅ [] 1.

Lemma two_levels_acyclic : acyclic two_levels two_levels_rank.
Proof.
  split; [done|]. intros p g c Hp Hc. unfold two_levels in Hp. apply lookup_insert_Some in Hp as [[<- <-]|[_ Hp]].
  - cbn in Hc. apply elem_of_cons in Hc as [->|Hc]; [split; [by eexists|cbn; lia]|]. apply list_elem_of_singleton in Hc as ->. split; [by eexists|cbn; lia].
  - apply lookup_insert_Some in Hp as [[<- <-]|[_ Hp]]; [by apply elem_of_nil in Hc|]. apply lookup_singleton_Some in Hp as [<- <-]. by apply elem_of_nil in Hc.
Qed.

Lemma no_users_inv G : inv G no_users.
Proof. split; try done; try (by intros; set_solver); by intros ? [? ?]. Qed.

Lemma two_levels_groups : Forall (fun gp => is_Some (two_levels !! gp)) [1; 2; 3].
Proof. repeat constructor; by eexists. Qed.

Lemma traverseGroupTree_correct_witness :
  exists s', traverseGroupTree two_levels [1; 2; 3] false 1 no_users = Some s' /\ complete two_levels s' 1 /\ sets_sound two_levels s' /\ forall w u, set_in no_users w u ⊆ set_in s' w u.
Proof.
  apply (traverseGroupTree_correct two_levels [1; 2; 3] false two_levels_rank no_users 1 two_levels_groups two_levels_acyclic (no_users_inv _)); [by eexists|].
  apply Nat.leb_le. vm_compute. reflexivity.
Defined.

Lemma user_sets_correct_witness :
  exists s1 s2, uDataGroupCreate two_levels [1; 2; 3] false no_users = Some s1 /\ setuDataCreate two_levels [1; 2; 3] false s1 = Some s2 /\ sets_sound two_levels s2 /\
    complete two_levels s2 1 /\ enrolled two_levels (fun gp => gp ∈ [1; 2; 3]) s2.
Proof.
  destruct (user_sets_correct two_levels [1; 2; 3] false two_levels_rank no_users) as (s1 & s2 & E1 & E2 & Hs & Hc & He).
  - constructor; [|constructor; [|constructor; [|constructor]]]; (split; [by eexists|apply Nat.leb_le; vm_compute; reflexivity]).
  - apply (bool_decide_unpack _). vm_compute. exact I.
  - intros gp gp' g g' Hgp Hgp' Hg Hg' En. rewrite !elem_of_cons, elem_of_nil in Hgp, Hgp'.
    by destruct Hgp as [->|[->|[->|[]]]], Hgp' as [->|[->|[->|[]]]]; try done; injection Hg as <-; injection Hg' as <-.
  - exact two_levels_acyclic.
  - apply no_users_inv.
  - by intros u e He.
  - by intros a Ha.
  - exists s1, s2. split_and!; [exact E1|exact E2|exact Hs| |exact He]. eapply Hc; [by left|vm_compute; reflexivity|reflexivity].
Defined.

(** ** A stack that is too small *)

(** Twenty-six groups: one holds thirteen, and each of these the same twelve. *)
Definition letter (i : nat) : string := String (ascii_of_nat (64 + i)) "".
Definition diamond : groups :=
  list_to_map ((1, GData (letter 1) [] (Z.of_nat <$> seq 2 13) None)
    :: ((fun i => (Z.of_nat i, GData (letter i) [] (Z.of_nat <$> seq 15 12) None)) <$> seq 2 13)
    ++ ((fun i => (Z.of_nat i, GData (letter i) ["ann"] [] None)) <$> seq 15 12)).

(** The walk goes down every way, and there are more than the stack has entries
    for, which the code does not test. *)
Example diamond_overflows : tree_size diamond 1 = 170%nat /\ traverseGroupTree diamond (Z.of_nat <$> seq 1 26) false 1 no_users = None.
Proof. split; vm_compute; reflexivity. Qed.

(** ** A user met too late *)

(** The group [staff] holds the group of everybody; [zed] is first met in the
    walk over [lab].  It has [staff] among its ancestors, but is not among the
    descendants of [staff]. *)
Definition late : groups :=
  <[1 := GData "staff" [] [2] None]> (<[2 := GData "every" [] [] None]> {[3 := GData "lab" ["zed"] [] None]}).

Example late_user_missed :
  (s ← uDataGroupCreate late [1; 2; 3] false no_users;
   s ← setuDataCreate late [1; 2; 3] false s;
   Some (uDataList s !! "zed", elements (set_in s Ancestors 4), elements (set_in s Descendants 1))) = Some (Some 4, [3; 2; 1], [2]).
Proof. vm_compute. reflexivity. Qed.
