(* ===== verification/Window.v ===== *)
(** * Time windows, [lsf/intlib/window.c] and [lsbatch/daemons/mbd.window.c]

    Queues, hosts and dependency conditions are open in windows such as
    ["5:18:30-1:8:30"].  A week is an array of eight chains of windows, day 7
    being Sunday and entry 0 unused; a chain holds pairs of [float] hours, with
    -1.0 and 25.0 standing for before and after the day and the pair 25.0, 25.0
    for a day that is never open.  Chains are lists here; a [NULL] chain is the
    empty list.  Allocation succeeds. *)

From Stdlib Require Import SpecFloat Ascii.
From S2P Require Import Prelude CString Float32.

(** ** Windows *)

Record windows_t := Win { opentime : spec_float; closetime : spec_float }.

Definition new_wind : windows_t := Win (f32_of_Z 25) (f32_of_Z 25).

Definition MIN (x y : spec_float) : spec_float := if SFltb x y then x else y.
Definition MAX (x y : spec_float) : spec_float := if SFltb y x then x else y.

(** The result is the returned flag and the window as updated in place. *)
Definition mergeW (wp : windows_t) (ohour chour : spec_float) : bool * windows_t :=
  if SFeqb (opentime wp) (f32_of_Z (-1)) && SFeqb (closetime wp) (f32_of_Z 25) then (true, wp)
  else if SFeqb ohour (f32_of_Z (-1)) && SFeqb chour (f32_of_Z 25)
  then (true, Win (f32_of_Z (-1)) (f32_of_Z 25))
  else if SFeqb ohour (f32_of_Z 25) && SFeqb chour (f32_of_Z 25) then (true, wp)
  else if SFleb chour ohour then (true, wp)
  else if SFeqb (opentime wp) (f32_of_Z 25) && SFeqb (closetime wp) (f32_of_Z 25)
  then (true, Win ohour chour)
  else
    let ohour := if SFleb ohour (f32_of_Z 0) then f32_of_Z (-1) else ohour in
    let chour := if SFleb (f32_of_Z 24) chour then f32_of_Z 25 else chour in
    if negb (SFltb chour (opentime wp)) && negb (SFltb (closetime wp) ohour)
    then (true, Win (MIN ohour (opentime wp)) (MAX chour (closetime wp)))
    else (false, wp).

(** [insertW] tries every window of the chain; when one took the new window in,
    the others are entered again one by one behind the first. *)
Definition set_times (wp : windows_t) (ohour chour : spec_float) : windows_t :=
  if SFltb ohour chour then Win ohour chour else wp.

Fixpoint insert_loop (fuel : nat) (window : list windows_t) (ohour chour : spec_float)
    : option (list windows_t) :=
  match fuel with
  | O => None
  | S k =>
      let tried := (fun wp => mergeW wp ohour chour) <$> window in
      match snd <$> tried with
      | [] => Some [set_times new_wind ohour chour]
      | wp :: rest =>
          if existsb fst tried
          then foldl (fun acc w => acc ← acc; insert_loop k acc (opentime w) (closetime w))
                 (Some [wp]) rest
          else Some (wp :: rest ++ [set_times new_wind ohour chour])
      end
  end.

Definition insertW (window : list windows_t) (ohour chour : spec_float) : option (list windows_t) :=
  insert_loop (S (length window)) window ohour chour.

(** [insertW(&week[i], ...)] *)
Definition insert_day (week : list (list windows_t)) (i : Z) (ohour chour : spec_float)
    : option (list (list windows_t)) :=
  w ← week !! Z.to_nat i; w ← insertW w ohour chour; Some (<[Z.to_nat i := w]> week).

(** [for (j = 1; j < 8; j++) if ((week[j] == NULL) && (j != skip)) insertW(&week[j], 25.0, 25.0);]
    over the days given. *)
Fixpoint close_days (week : list (list windows_t)) (skip : Z) (js : list Z)
    : option (list (list windows_t)) :=
  match js with
  | [] => Some week
  | j :: js =>
      w ← week !! Z.to_nat j;
      week ← (match w with
              | [] => if negb (j =? skip) then insert_day week j (f32_of_Z 25) (f32_of_Z 25) else Some week
              | _ => Some week
              end);
      close_days week skip js
  end.

Definition days : list Z := [1; 2; 3; 4; 5; 6; 7].

(** The same window on each of the days; past midnight in two parts. *)
Fixpoint each_day (week : list (list windows_t)) (ohour chour : spec_float) (js : list Z)
    : option (list (list windows_t)) :=
  match js with
  | [] => Some week
  | i :: js =>
      week ← (if SFltb chour ohour then
                week ← insert_day week i ohour (f32_of_Z 25);
                insert_day week i (f32_of_Z (-1)) chour
              else insert_day week i ohour chour);
      each_day week ohour chour js
  end.

(** [for (i = oday; ; i++) { if (i == 8) i = 1; ... }] up to [cday]. *)
Fixpoint span_days (fuel : nat) (week : list (list windows_t)) (i oday cday : Z) (ohour chour : spec_float)
    : option (list (list windows_t)) :=
  match fuel with
  | O => None
  | S k =>
      let i := if i =? 8 then 1 else i in
      if i =? oday then
        week ← insert_day week i ohour (f32_of_Z 25); span_days k week (i + 1) oday cday ohour chour
      else if i =? cday then
        week ← insert_day week i (f32_of_Z (-1)) chour; close_days week 0 days
      else
        week ← insert_day week i (f32_of_Z (-1)) (f32_of_Z 25);
        span_days k week (i + 1) oday cday ohour chour
  end.

(** ** Reading times *)


(** [atof] of a string of digits, the only ones it is applied to. *)
Definition atof (w : list ascii) : spec_float := let '(v, _, _) := strtol w in f64_of_Z v.

(** [!isint_(word) || atoi(word) < 0] *)
Definition bad_int (w : list ascii) : bool := negb (isint_ w) || (atoi w <? 0).

Definition parse_hour (w : list ascii) : option spec_float :=
  if bad_int w then None else
  let h := to_float (atof w) in if SFltb (f32_of_Z 23) h then None else Some h.

(** [None] is the result -1. *)
Definition parse_time (word : list ascii) : option (spec_float * Z) :=
  '(hour, min, day) ←
    (match strrchr ":"%char word with
     | None => h ← parse_hour word; Some (h, f32_of_Z 0, 0)
     | Some (word, sp) =>
         if bad_int sp then None else
         let min := f32_of_Z (atoi sp) in
         if SFltb (f32_of_Z 59) min then None else
         match strrchr ":"%char word with
         | None => h ← parse_hour word; Some (h, min, 0)
         | Some (word, sp) =>
             h ← parse_hour sp;
             if bad_int word then None else
             let day := if atoi word =? 0 then 7 else atoi word in
             if (day <? 1) || (7 <? day) then None else Some (h, min, day)
         end
     end);
  Some (to_float (dadd (to_double hour) (ddiv (to_double min) (f64_of_Z 60))), day).

(** The code is 0 or -1; on an error the week is unchanged.  [None] would be an
    access outside the week. *)
Definition addWindow (wordpair : list ascii) (week : list (list windows_t))
    : option (Z * list (list windows_t)) :=
  match strchr "-"%char wordpair with
  | None => Some (-1, week)
  | Some (oword, cword) =>
      match parse_time cword, parse_time oword with
      | None, _ | _, None => Some (-1, week)
      | Some (chour, cday), Some (ohour, oday) =>
          if ((oday =? 0) || (cday =? 0)) && negb (oday =? cday) then Some (-1, week) else
          let '(ohour, chour) :=
            if (oday =? 0) && (cday =? 0) && SFeqb ohour chour
            then (f32_of_Z 25, f32_of_Z 25) else (ohour, chour) in
          if oday =? 0 then week ← each_day week ohour chour days; Some (0, week)
          else if oday =? cday then
            if SFltb chour ohour then Some (-1, week) else
            let '(ohour, chour) :=
              if SFeqb ohour chour then (f32_of_Z 25, f32_of_Z 25) else (ohour, chour) in
            week ← insert_day week oday ohour chour;
            week ← close_days week oday days; Some (0, week)
          else week ← span_days 8 week oday oday cday ohour chour; Some (0, week)
      end
  end.

(** ** Checking the time *)

Record dayhour := Dayhour { day : Z; dh_hour : spec_float }.

(** [tmp_edge < *wind_edge]; the sum of a [time_t] and a [float] is a
    [float]. *)
Definition checkWindow (dh : dayhour) (active : bool) (wind_edge : Z) (wp : windows_t) (now : Z)
    : bool * Z :=
  let edge t := to_int (fadd (f32_of_Z now) (fmul (fsub t (dh_hour dh)) (f32_of_Z 3600))) in
  if SFleb (opentime wp) (dh_hour dh) && SFltb (dh_hour dh) (closetime wp)
  then (true, Z.min (edge (closetime wp)) wind_edge)
  else (active, Z.min (edge (MIN (opentime wp) (f32_of_Z 24))) wind_edge).

Definition day_of_name (w : string) : option Z :=
  if String.eqb w "Sun" then Some 7 else if String.eqb w "Mon" then Some 1
  else if String.eqb w "Tue" then Some 2 else if String.eqb w "Wed" then Some 3
  else if String.eqb w "Thu" then Some 4 else if String.eqb w "Fri" then Some 5
  else if String.eqb w "Sat" then Some 6 else None.

(** [getDayHour] reads the text of [ctime], "Www Mmm dd hh:mm:ss yyyy". *)
Definition getDayHour (timep : list ascii) : option dayhour :=
  d ← day_of_name (String.string_of_list_ascii (take 3 timep));
  let h := to_float (atof (take 2 (drop 11 timep))) in
  let m := atof (take 2 (drop 14 timep)) in
  Some (Dayhour d (to_float (dadd (to_double h) (ddiv m (f64_of_Z 60))))).

Definition WINDOW_CLOSE : Z := 0.
Definition WINDOW_OPEN : Z := 1.

Record timeWindow := TimeWindow {
  tw_status : Z; tw_windows : option string; week : list (list windows_t); windEdge : Z }.

Definition newTimeWindow : timeWindow := TimeWindow WINDOW_OPEN None (replicate 8 []) 0.

(** The loop over the chain of the day: the final [windOpen] and edge. *)
Fixpoint check_chain (dh : dayhour) (now : Z) (edge : Z) (ws : list windows_t) : bool * Z :=
  match ws with
  | [] => (false, edge)
  | wp :: ws =>
      let '(open, edge) := checkWindow dh false edge wp now in
      if open : bool then (true, edge) else check_chain dh now edge ws
  end.

Definition updateTimeWindow (ctime : Z -> list ascii) (now : Z) (tw : timeWindow) : option timeWindow :=
  if (now <? windEdge tw) || (windEdge tw =? 0) then Some tw else
  dh ← getDayHour (ctime now);
  ws ← week tw !! Z.to_nat (day dh);
  let edge := to_int (dadd (f64_of_Z now) (dmul (dsub (f64_of_Z 24) (to_double (dh_hour dh))) (f64_of_Z 3600))) in
  match ws with
  | [] => Some (TimeWindow (tw_status tw) (tw_windows tw) (week tw) edge)
  | _ => let '(open, edge) := check_chain dh now edge ws in
         Some (TimeWindow (if open : bool then WINDOW_OPEN else WINDOW_CLOSE)
                 (tw_windows tw) (week tw) edge)
  end.

(** * Lemmas *)

(** A window in minutes, and the window of the code it stands for. *)
Definition Wn (p : Z * Z) : windows_t := Win (hour p.1) (hour p.2).

(** Never open, or a proper interval between the sentinels. *)
Definition slot_ok (p : Z * Z) : Prop := p = (1500, 1500) \/ -60 <= p.1 < p.2 /\ p.2 <= 1500.

Definition within (a b t : Z) : bool := (a <=? t) && (t <? b).
Definition covered (l : list (Z * Z)) (t : Z) : bool := existsb (fun p => within p.1 p.2 t) l.

(** No two windows of a chain overlap or touch. *)
Fixpoint separate (l : list (Z * Z)) : Prop :=
  match l with
  | [] => True
  | p :: l => Forall (fun q => p.2 < q.1 \/ q.2 < p.1) l /\ separate l
  end.

Definition midday (t : Z) : Prop := 0 <= t < 1440.

Lemma f_m1 : f32_of_Z (-1) = hour (-60). Proof. vm_compute. reflexivity. Qed.
Lemma f_0 : f32_of_Z 0 = hour 0. Proof. vm_compute. reflexivity. Qed.
Lemma f_24 : f32_of_Z 24 = hour 1440. Proof. vm_compute. reflexivity. Qed.
Lemma f_25 : f32_of_Z 25 = hour 1500. Proof. vm_compute. reflexivity. Qed.

Ltac zbool := repeat match goal with
  | |- context [?a <? ?b] => destruct (Z.ltb_spec a b)
  | |- context [?a <=? ?b] => destruct (Z.leb_spec a b)
  | |- context [?a =? ?b] => destruct (Z.eqb_spec a b)
  end; cbn [andb orb negb]; try done; try lia.

Lemma hour_if (b : bool) x y : (if b then hour x else hour y) = hour (if b then x else y).
Proof. by destruct b. Qed.

Lemma MIN_hour a b : minute a -> minute b -> MIN (hour a) (hour b) = hour (Z.min a b).
Proof. intros Ha Hb. unfold MIN. rewrite hour_ltb by done. rewrite hour_if. f_equal. zbool. Qed.

Lemma MAX_hour a b : minute a -> minute b -> MAX (hour a) (hour b) = hour (Z.max a b).
Proof. intros Ha Hb. unfold MAX. rewrite hour_ltb by done. rewrite hour_if. f_equal. zbool. Qed.

(** [mergeW] in minutes. *)
Definition merge_slot (p : Z * Z) (o c : Z) : bool * (Z * Z) :=
  if (p.1 =? -60) && (p.2 =? 1500) then (true, p)
  else if (o =? -60) && (c =? 1500) then (true, (-60, 1500))
  else if (o =? 1500) && (c =? 1500) then (true, p)
  else if c <=? o then (true, p)
  else if (p.1 =? 1500) && (p.2 =? 1500) then (true, (o, c))
  else
    let o := if o <=? 0 then -60 else o in
    let c := if 1440 <=? c then 1500 else c in
    if negb (c <? p.1) && negb (p.2 <? o) then (true, (Z.min o p.1, Z.max c p.2)) else (false, p).

Lemma slot_minutes p : slot_ok p -> minute p.1 /\ minute p.2.
Proof. unfold slot_ok, minute. intros [->|]; cbn [fst snd]; lia. Qed.

Lemma merge_hours p o c :
  slot_ok p -> minute o -> minute c ->
  mergeW (Wn p) (hour o) (hour c) = ((merge_slot p o c).1, Wn (merge_slot p o c).2).
Proof.
  intros [Hx Hy]%slot_minutes Ho Hc. destruct p as [x y]. cbn [fst snd] in *.
  assert (minute (-60) /\ minute 0 /\ minute 1440 /\ minute 1500) as (? & ? & ? & ?) by (unfold minute; lia).
  unfold mergeW, merge_slot, Wn. cbn [opentime closetime fst snd]. rewrite f_m1, f_0, f_24, f_25.
  rewrite !hour_eqb, !hour_leb, !hour_if by done.
  repeat (case_match; [done|]).
  assert (minute (if o <=? 0 then -60 else o)) as Ho' by (unfold minute in *; zbool).
  assert (minute (if 1440 <=? c then 1500 else c)) as Hc' by (unfold minute in *; zbool).
  rewrite !hour_ltb, MIN_hour, MAX_hour by done. by destruct (negb _ && negb _).
Qed.

Lemma merge_slot_ok p o c : slot_ok p -> minute o -> minute c -> slot_ok (merge_slot p o c).2.
Proof.
  destruct p as [x y]. unfold slot_ok, minute, merge_slot. cbn [fst snd]. intros Hp Ho Hc.
  repeat case_match; cbn [fst snd]; auto; right; destruct Hp as [[= -> ->]|Hp]; lia.
Qed.

(** A window that was not taken in lies apart; one that was taken in is added
    to the opening times. *)
Lemma merge_slot_apart p o c :
  slot_ok p -> minute o -> minute c -> (merge_slot p o c).1 = false ->
  (merge_slot p o c).2 = p /\ o < c /\ (p.2 < o \/ c < p.1).
Proof.
  destruct p as [x y]. unfold slot_ok, minute, merge_slot. cbn [fst snd]. intros Hp Ho Hc.
  repeat case_match; cbn [fst snd]; try done; intros _; split; auto; lia.
Qed.

Lemma merge_slot_covers p o c t :
  slot_ok p -> minute o -> minute c -> midday t ->
  within (merge_slot p o c).2.1 (merge_slot p o c).2.2 t
  = within p.1 p.2 t || ((merge_slot p o c).1 && within o c t).
Proof.
  destruct p as [x y]. unfold slot_ok, minute, merge_slot, within, midday. cbn [fst snd].
  intros Hp Ho Hc Ht.
  repeat case_match; cbn [fst snd andb]; destruct Hp as [[= -> ->]|Hp]; lia.
Qed.

(** Chains. *)
Lemma covered_app l1 l2 t : covered (l1 ++ l2) t = covered l1 t || covered l2 t.
Proof. apply existsb_app. Qed.

Lemma tried_spec l o c :
  Forall slot_ok l -> minute o -> minute c ->
  (fun wp => mergeW wp (hour o) (hour c)) <$> (Wn <$> l)
  = (fun r => (r.1, Wn r.2)) <$> ((fun p => merge_slot p o c) <$> l).
Proof.
  intros Hl Ho Hc. rewrite <- !list_fmap_compose. apply list_fmap_ext. intros i p Hp. cbn.
  apply merge_hours; [|done|done]. by eapply Forall_lookup_1.
Qed.

Lemma merge_all_covers l o c t :
  Forall slot_ok l -> minute o -> minute c -> midday t ->
  covered (snd <$> ((fun p => merge_slot p o c) <$> l)) t
  = covered l t || (existsb fst ((fun p => merge_slot p o c) <$> l) && within o c t).
Proof.
  intros Hl Ho Hc Ht. induction Hl as [|p l Hp Hl IH]; [done|].
  rewrite !fmap_cons. unfold covered in *. cbn [existsb]. rewrite IH, merge_slot_covers by done.
  destruct (within p.1 p.2 t), (existsb _ l), (within o c t), (merge_slot p o c).1; cbn; try done;
    by rewrite ?orb_true_r, ?orb_false_r, ?andb_true_r, ?andb_false_r.
Qed.

(** What entering a window promises. *)
Record entered (l : list (Z * Z)) (o c : Z) (l' : list (Z * Z)) : Prop := {
  en_ok : Forall slot_ok l';
  en_some : l' <> [];
  en_len : (length l' <= S (length l))%nat;
  en_cov : forall t, midday t -> covered l' t = covered l t || within o c t;
  en_sep : separate l -> separate l' }.

Definition fresh_slot (o c : Z) : Z * Z := if o <? c then (o, c) else (1500, 1500).

Lemma set_times_spec o c :
  minute o -> minute c -> set_times new_wind (hour o) (hour c) = Wn (fresh_slot o c).
Proof.
  intros Ho Hc. unfold set_times, fresh_slot, new_wind. rewrite hour_ltb, f_25 by done. by case_match.
Qed.

Lemma fresh_slot_ok o c : minute o -> minute c -> slot_ok (fresh_slot o c).
Proof. unfold slot_ok, fresh_slot, minute. intros. case_match; cbn; [right; lia|by left]. Qed.

Lemma fresh_slot_covers o c t :
  midday t -> within (fresh_slot o c).1 (fresh_slot o c).2 t = within o c t.
Proof. unfold fresh_slot, within, midday. intros. case_match; cbn [fst snd]; lia. Qed.

Lemma separate_app l1 l2 :
  separate l1 -> separate l2 ->
  Forall (fun p => Forall (fun q => p.2 < q.1 \/ q.2 < p.1) l2) l1 -> separate (l1 ++ l2).
Proof.
  intros H1 H2 H. induction H as [|p l1 Hp H IH]; [done|]. cbn in *. destruct H1 as [H1 H1'].
  split; [by apply Forall_app|auto].
Qed.

(** No window took the new one in: it is appended. *)
Lemma append_entered l o c :
  Forall slot_ok l -> minute o -> minute c ->
  Forall (fun p => o < c /\ (p.2 < o \/ c < p.1)) l -> entered l o c (l ++ [fresh_slot o c]).
Proof.
  intros Hl Ho Hc Ha. split.
  - apply Forall_app. split; [done|]. constructor; [by apply fresh_slot_ok|done].
  - by destruct l.
  - rewrite length_app. cbn. lia.
  - intros t Ht. rewrite covered_app. cbn. by rewrite fresh_slot_covers, orb_false_r.
  - intros Hs. apply separate_app; [done|done|]. eapply Forall_impl; [exact Ha|]. intros p [Hoc Hp].
    constructor; [|done]. unfold fresh_slot. rewrite (proj2 (Z.ltb_lt o c)) by done. cbn. lia.
Qed.

(** Entering the windows [rest] again, one by one. *)
Lemma reenter (ins : list windows_t -> spec_float -> spec_float -> option (list windows_t)) n rest acc :
  (forall l o c, Forall slot_ok l -> minute o -> minute c -> (length l < n)%nat ->
     exists l', ins (Wn <$> l) (hour o) (hour c) = Some (Wn <$> l') /\ entered l o c l') ->
  Forall slot_ok acc -> acc <> [] -> separate acc -> Forall slot_ok rest ->
  (length acc + length rest <= n)%nat ->
  exists l', foldl (fun acc w => acc ← acc; ins acc (opentime w) (closetime w)) (Some (Wn <$> acc)) (Wn <$> rest)
             = Some (Wn <$> l') /\
    Forall slot_ok l' /\ l' <> [] /\ (length l' <= length acc + length rest)%nat /\ separate l' /\
    forall t, midday t -> covered l' t = covered acc t || covered rest t.
Proof.
  intros Hins. revert acc. induction rest as [|p rest IH]; intros acc Ha Hn Hs Hr Hlen.
  - exists acc. cbn. repeat split; try done; [lia|]. intros. by rewrite orb_false_r.
  - apply Forall_cons in Hr as [Hp Hr]. cbn in Hlen |- *. destruct (slot_minutes p Hp) as [H1 H2].
    destruct (Hins acc p.1 p.2) as (l1 & -> & E); [done|done|done|lia|].
    pose proof (en_len _ _ _ _ E) as Hl1.
    destruct (IH l1) as (l' & -> & Hok & Hne & Hle & Hsep & Hc);
      [apply E|apply E|by apply E|done|lia|].
    exists l'. split; [done|]. split; [done|]. split; [done|]. split; [lia|]. split; [done|].
    intros t Ht. rewrite Hc, (en_cov _ _ _ _ E) by done. by rewrite orb_assoc.
Qed.

Lemma none_taken l o c :
  Forall slot_ok l -> minute o -> minute c ->
  existsb fst ((fun p => merge_slot p o c) <$> l) = false ->
  snd <$> ((fun p => merge_slot p o c) <$> l) = l /\ Forall (fun p => o < c /\ (p.2 < o \/ c < p.1)) l.
Proof.
  intros Hl Ho Hc. induction Hl as [|p l Hp Hl IH]; [done|]. rewrite !fmap_cons. cbn [existsb].
  intros [H1 H2]%orb_false_iff. destruct (merge_slot_apart p o c Hp Ho Hc H1) as (E & Ha).
  destruct (IH H2) as (IH1 & IH2). split; [by rewrite E, IH1|by constructor].
Qed.

Lemma insert_loop_spec fuel l o c :
  Forall slot_ok l -> minute o -> minute c -> (length l < fuel)%nat ->
  exists l', insert_loop fuel (Wn <$> l) (hour o) (hour c) = Some (Wn <$> l') /\ entered l o c l'.
Proof.
  revert l o c. induction fuel as [|k IH]; intros l o c Hl Ho Hc Hf; [lia|].
  cbn [insert_loop]. rewrite tried_spec by done. rewrite set_times_spec by done.
  set (r := (fun p => merge_slot p o c) <$> l).
  assert (Hsnd : snd <$> ((fun r => (r.1, Wn r.2)) <$> r) = Wn <$> (snd <$> r)) by by rewrite <- !list_fmap_compose.
  assert (Hfst : existsb fst ((fun r => (r.1, Wn r.2)) <$> r) = existsb fst r).
  { clear. induction r as [|x r IH]; cbn; [done|]. by rewrite IH. }
  rewrite Hsnd, Hfst. pose proof (merge_all_covers l o c) as Hcov. fold r in Hcov.
  assert (Hok : Forall slot_ok (snd <$> r)).
  { unfold r. rewrite <- list_fmap_compose. apply Forall_fmap. eapply Forall_impl; [exact Hl|].
    intros p Hp. by apply merge_slot_ok. }
  destruct l as [|p l]; [by exists [fresh_slot o c]; split; [|by apply (append_entered [])]|].
  destruct (snd <$> r) as [|q rest] eqn:Er; [done|].
  assert (Hlen : length (q :: rest) = length (p :: l)) by (rewrite <- Er; unfold r; by rewrite !length_fmap).
  cbn in Hlen, Hf. apply Forall_cons in Hok as [Hq Hok]. rewrite fmap_cons.
  destruct (existsb fst r) eqn:Em.
  - destruct (reenter (insert_loop k) k rest [q] IH) as (l' & H1 & H2 & H3 & H4 & H5 & H6);
      [by constructor|done|done|done|cbn; lia|].
    cbn in H4. exists l'. split; [exact H1|]. split; [done|done|cbn; lia| |done].
    intros t Ht. rewrite H6 by done. rewrite <- covered_app. cbn [app]. by rewrite Hcov.
  - destruct (none_taken (p :: l) o c Hl Ho Hc Em) as [E Ha]. fold r in E. rewrite Er in E.
    exists ((q :: rest) ++ [fresh_slot o c]). rewrite fmap_app. split; [done|].
    rewrite E. by apply append_entered.
Qed.

Lemma insertW_spec l o c :
  Forall slot_ok l -> minute o -> minute c ->
  exists l', insertW (Wn <$> l) (hour o) (hour c) = Some (Wn <$> l') /\ entered l o c l'.
Proof. intros Hl Ho Hc. unfold insertW. rewrite length_fmap. apply insert_loop_spec; auto. Qed.

(** ** Weeks *)

Definition wk (W : list (list (Z * Z))) : list (list windows_t) :=
  (fun l : list (Z * Z) => Wn <$> l) <$> W.

Lemma wk_lookup W i l : W !! i = Some l -> wk W !! i = Some (Wn <$> l).
Proof. intros Hl. unfold wk. by rewrite list_lookup_fmap, Hl. Qed.

Record week_ok (W : list (list (Z * Z))) : Prop := {
  wk_len : length W = 8%nat;
  wk_slots : forall i l, W !! i = Some l -> Forall slot_ok l /\ separate l }.

(** Is the week open on day [d] at minute [t]?  Has day [d] a chain? *)
Definition open_at (W : list (list (Z * Z))) (d t : Z) : bool :=
  match W !! Z.to_nat d with Some l => covered l t | None => false end.
Definition has_day (W : list (list (Z * Z))) (d : Z) : Prop := W !! Z.to_nat d <> Some [].

Definition weekday (d : Z) : Prop := 1 <= d <= 7.

(** [W'] opens in addition at [f], and has chains for the days [ds] and those
    of [W]. *)
Record grows (W W' : list (list (Z * Z))) (f : Z -> Z -> bool) (ds : list Z) : Prop := {
  gr_ok : week_ok W';
  gr_open : forall d t, weekday d -> midday t -> open_at W' d t = open_at W d t || f d t;
  gr_days : forall d, weekday d -> d ∈ ds \/ has_day W d -> has_day W' d }.

Lemma grows_trans W W1 W2 f g h ds es fs :
  grows W W1 f ds -> grows W1 W2 g es ->
  (forall d t, weekday d -> midday t -> h d t = f d t || g d t) -> fs ⊆ ds ++ es ->
  grows W W2 h fs.
Proof.
  intros [H1 H2 H3] [H4 H5 H6] Hh Hs. split; [done| |].
  - intros d t Hd Ht. rewrite H5, H2, Hh by done. by rewrite orb_assoc.
  - intros d Hd Hx. apply H6; [done|]. destruct Hx as [Hx|Hx]; [|auto].
    apply Hs, elem_of_app in Hx as [|]; auto.
Qed.

Lemma grows_ext W W' f g ds :
  grows W W' f ds -> (forall d t, weekday d -> midday t -> g d t = f d t) -> grows W W' g ds.
Proof. intros [H1 H2 H3] Hg. split; [done| |done]. intros. by rewrite H2, Hg. Qed.

Lemma grows_refl W : week_ok W -> grows W W (fun _ _ => false) [].
Proof.
  intros HW. split; [done| |].
  - intros. by rewrite orb_false_r.
  - by intros d _ [H%elem_of_nil|H].
Qed.

Lemma insert_day_spec W i o c :
  week_ok W -> weekday i -> minute o -> minute c ->
  exists W', insert_day (wk W) i (hour o) (hour c) = Some (wk W') /\
    grows W W' (fun d t => (d =? i) && within o c t) [i].
Proof.
  intros HW Hi Ho Hc. pose proof (wk_len _ HW) as Hlen. unfold weekday in *.
  destruct (lookup_lt_is_Some_2 W (Z.to_nat i)) as [l Hl]; [lia|].
  destruct (wk_slots _ HW _ _ Hl) as [Hok Hs].
  destruct (insertW_spec l o c Hok Ho Hc) as (l' & Hins & E).
  exists (<[Z.to_nat i := l']> W). unfold insert_day.
  rewrite (wk_lookup _ _ _ Hl). cbn [mbind option_bind]. rewrite Hins. cbn [mbind option_bind].
  unfold wk at 1. rewrite <- list_fmap_insert. split; [done|]. split.
  - split; [by rewrite length_insert|]. intros j x Hj.
    apply list_lookup_insert_Some in Hj as [(_ & <- & _)|[_ Hj]]; [|by eapply wk_slots].
    split; [apply E|by apply E].
  - intros d t Hd Ht. unfold open_at, weekday in *. destruct (Z.eqb_spec d i) as [->|Hne].
    + rewrite list_lookup_insert_eq, Hl by lia. by rewrite (en_cov _ _ _ _ E).
    + by rewrite list_lookup_insert_ne, orb_false_r by lia.
  - intros d Hd Hx. unfold has_day, weekday in *. destruct (decide (d = i)) as [->|Hne].
    + rewrite list_lookup_insert_eq by lia. intros [= ->]. by apply (en_some _ _ _ _ E).
    + rewrite list_lookup_insert_ne by lia. destruct Hx as [Hx|Hx]; [set_solver|done].
Qed.

Lemma minute_1500 : minute 1500. Proof. unfold minute. lia. Qed.
Lemma minute_m60 : minute (-60). Proof. unfold minute. lia. Qed.

Lemma close_days_spec W skip js :
  week_ok W -> Forall weekday js ->
  exists W', close_days (wk W) skip js = Some (wk W') /\
    grows W W' (fun _ _ => false) (filter (fun j => j <> skip) js).
Proof.
  intros HW Hjs. revert W HW. induction Hjs as [|j js Hj Hjs IH]; intros W HW.
  { exists W. split; [done|]. by apply grows_refl. }
  cbn [close_days]. pose proof (wk_len _ HW) as Hlen. unfold weekday in Hj.
  destruct (lookup_lt_is_Some_2 W (Z.to_nat j)) as [l Hl]; [lia|].
  rewrite (wk_lookup _ _ _ Hl). cbn [mbind option_bind].
  assert (Hstep : exists W1, (match Wn <$> l with
      | [] => if negb (j =? skip) then insert_day (wk W) j (f32_of_Z 25) (f32_of_Z 25) else Some (wk W)
      | _ => Some (wk W) end) = Some (wk W1) /\
      grows W W1 (fun _ _ => false) (filter (fun j => j <> skip) [j])).
  { assert (Hsame : has_day W j \/ j = skip ->
       grows W W (fun _ _ => false) (filter (fun j => j <> skip) [j])).
    { intros Hx. destruct (grows_refl W HW) as [G1 G2 G3]. split; [done|done|].
      intros d Hd [[Hne ->%list_elem_of_singleton]%list_elem_of_filter|Hd']; [|by apply G3; auto]. by destruct Hx. }
    destruct l as [|p l]; cbn [fmap list_fmap].
    - destruct (Z.eqb_spec j skip) as [->|Hne]; cbn [negb]; [exists W; auto|]. rewrite f_25.
      destruct (insert_day_spec W j 1500 1500 HW Hj minute_1500 minute_1500) as (W1 & H1 & G).
      exists W1. split; [done|]. rewrite filter_cons_True, filter_nil by done. eapply grows_ext; [exact G|]. intros d t _ Ht.
      unfold within, midday in *. lia.
    - exists W. split; [done|]. apply Hsame. left. unfold has_day. by rewrite Hl. }
  destruct Hstep as (W1 & -> & G1). cbn [mbind option_bind].
  destruct (IH W1 (gr_ok _ _ _ _ G1)) as (W2 & H2 & G2). exists W2. split; [done|].
  eapply grows_trans; [exact G1|exact G2|done|]. by rewrite <- filter_app.
Qed.

(** Daily opening times; past midnight when [c < o]. *)
Definition daily (o c t : Z) : bool := if c <? o then (o <=? t) || (t <? c) else within o c t.

Lemma each_day_spec W o c js :
  week_ok W -> Forall weekday js -> minute o -> minute c ->
  exists W', each_day (wk W) (hour o) (hour c) js = Some (wk W') /\
    grows W W' (fun d t => bool_decide (d ∈ js) && daily o c t) js.
Proof.
  intros HW Hjs Ho Hc. revert W HW. induction Hjs as [|j js Hj Hjs IH]; intros W HW.
  { exists W. split; [done|]. eapply grows_ext; [by apply grows_refl|done]. }
  cbn [each_day]. rewrite hour_ltb by done.
  assert (Hstep : exists W1, (if c <? o
      then week ← insert_day (wk W) j (hour o) (f32_of_Z 25); insert_day week j (f32_of_Z (-1)) (hour c)
      else insert_day (wk W) j (hour o) (hour c)) = Some (wk W1) /\
      grows W W1 (fun d t => (d =? j) && daily o c t) [j]).
  { unfold daily. rewrite f_25, f_m1. destruct (Z.ltb_spec c o); [|by apply insert_day_spec].
    destruct (insert_day_spec W j o 1500 HW Hj Ho minute_1500) as (W1 & -> & G1). cbn [mbind option_bind].
    destruct (insert_day_spec W1 j (-60) c (gr_ok _ _ _ _ G1) Hj minute_m60 Hc) as (W2 & -> & G2).
    exists W2. split; [done|]. eapply grows_trans; [exact G1|exact G2| |set_solver].
    intros d t _ Ht. unfold within, midday in *. lia. }
  destruct Hstep as (W1 & -> & G1). cbn [mbind option_bind].
  destruct (IH W1 (gr_ok _ _ _ _ G1)) as (W2 & H2 & G2). exists W2. split; [done|].
  eapply grows_trans; [exact G1|exact G2| |done]. intros d t _ _. cbn beta.
  destruct (Z.eqb_spec d j) as [->|Hne]; cbn [andb].
  - rewrite bool_decide_true by set_solver. destruct (daily o c t); cbn; [done|by rewrite andb_false_r].
  - cbn [orb]. f_equal. apply bool_decide_ext. set_solver.
Qed.

Lemma days_weekday : Forall weekday days.
Proof. rewrite Forall_forall. unfold days, weekday. intros d. rewrite !elem_of_cons, elem_of_nil. lia. Qed.

Lemma weekday_in d : weekday d -> d ∈ days.
Proof. unfold days, weekday. rewrite !elem_of_cons, elem_of_nil. lia. Qed.

Ltac modlia := Z.to_euclidean_division_equations; lia.

(** The loop over the days after the first, from day [i] on: full days up to
    day [cday], which is open until [c]. *)
Lemma span_days_spec n fuel W i oday cday o c :
  let i' := if i =? 8 then 1 else i in
  week_ok W -> weekday oday -> weekday cday -> 1 <= i <= 8 -> minute o -> minute c ->
  Z.of_nat n = (cday - i') mod 7 -> Z.of_nat n < (oday - i') mod 7 -> (n < fuel)%nat ->
  exists W', span_days fuel (wk W) i oday cday (hour o) (hour c) = Some (wk W') /\
    grows W W' (fun d t => ((d - i') mod 7 <? Z.of_nat n) || (((d - i') mod 7 =? Z.of_nat n) && (t <? c))) days.
Proof.
  cbn zeta. revert fuel W i. induction n as [|n IH]; intros fuel W i HW Hod Hcd Hi Ho Hc Hn Hod' Hf;
    (destruct fuel as [|k]; [lia|]); cbn [span_days];
    set (i' := if i =? 8 then 1 else i) in *;
    assert (Hi' : weekday i') by (unfold weekday, i'; destruct (Z.eqb_spec i 8); lia);
    unfold weekday in Hod, Hcd, Hi';
    rewrite (proj2 (Z.eqb_neq i' oday)) by modlia.
  - rewrite (proj2 (Z.eqb_eq i' cday)) by modlia. rewrite f_m1.
    destruct (insert_day_spec W i' (-60) c HW Hi' minute_m60 Hc) as (W1 & -> & G1). cbn [mbind option_bind].
    destruct (close_days_spec W1 0 days (gr_ok _ _ _ _ G1) days_weekday) as (W2 & -> & G2).
    exists W2. split; [done|]. eapply grows_trans; [exact G1|exact G2| |by apply list_subseteq_app_r].
    intros d t Hd Ht. unfold within, midday, weekday in *. clearbody i'. cbn beta.
    assert ((d - i') mod 7 = 0 <-> d = i') by modlia. pose proof (Z.mod_pos_bound (d - i') 7) as Hb.
    clear - Ht H Hb. revert H Hb. generalize ((d - i') mod 7). change (Z.of_nat 0) with 0. intros a H Hb.
    destruct (Z.eqb_spec d i'), (Z.eqb_spec a 0), (Z.ltb_spec a 0); lia.
  - rewrite (proj2 (Z.eqb_neq i' cday)) by modlia. rewrite f_m1, f_25.
    destruct (insert_day_spec W i' (-60) 1500 HW Hi' minute_m60 minute_1500) as (W1 & -> & G1).
    cbn [mbind option_bind].
    destruct (IH k W1 (i' + 1) (gr_ok _ _ _ _ G1)) as (W2 & -> & G2); try done; try lia.
    1,2: destruct (Z.eqb_spec (i' + 1) 8); modlia.
    exists W2. split; [done|]. eapply grows_trans; [exact G1|exact G2| |by apply list_subseteq_app_r].
    intros d t Hd Ht. unfold within, midday, weekday in *. clearbody i'. cbn beta.
    set (j := if i' + 1 =? 8 then 1 else i' + 1).
    assert (Ha : (d - i') mod 7 = if d =? i' then 0 else (d - j) mod 7 + 1)
      by (unfold j; destruct (Z.eqb_spec (i' + 1) 8), (Z.eqb_spec d i'); modlia).
    assert (Hb : d = i' -> (d - j) mod 7 = 6) by (unfold j; destruct (Z.eqb_spec (i' + 1) 8); modlia).
    assert (Hn6 : Z.of_nat n < 6) by modlia. rewrite Ha. clear - Ht Hb Hn6.
    revert Hb. generalize ((d - j) mod 7). intros b Hb. destruct (Z.eqb_spec d i'); zbool.
Qed.

(** ** Reading printed times *)

Definition show2 (n : Z) : list ascii := [digit_char (n / 10); digit_char (n mod 10)].
Definition show_day (d : Z) : list ascii := if d =? 0 then [] else [digit_char d; ":"%char].
Definition show_time (d t : Z) : list ascii := show_day d ++ show2 (t / 60) ++ ":"%char :: show2 (t mod 60).

Definition no_char (c : ascii) (w : list ascii) : bool := forallb (fun x => negb (Ascii.eqb x c)) w.

Lemma show2_reads n :
  0 <= n < 60 -> bad_int (show2 n) = false /\ atoi (show2 n) = n /\ SFltb (f32_of_Z 59) (f32_of_Z n) = false /\
    no_char ":" (show2 n) = true /\ no_char "-" (show2 n) = true.
Proof.
  intros Hn.
  pose proof (seqZ_forallb (fun n => negb (bad_int (show2 n)) && (atoi (show2 n) =? n) &&
    negb (SFltb (f32_of_Z 59) (f32_of_Z n)) && no_char ":" (show2 n) && no_char "-" (show2 n)) 0 60 n) as H.
  rewrite !andb_true_iff, !negb_true_iff, Z.eqb_eq in H.
  destruct H as ((((H1 & H2) & H3) & H4) & H5); [vm_compute; reflexivity|lia|auto].
Qed.

Definition eq_f (f g : spec_float) : bool :=
  match f, g with
  | S754_zero s, S754_zero s' => Bool.eqb s s'
  | S754_finite s m e, S754_finite s' m' e' => Bool.eqb s s' && (m =? m')%positive && (e =? e')
  | _, _ => false
  end.

Lemma eq_f_eq f g : eq_f f g = true -> f = g.
Proof.
  destruct f, g; cbn; try done; rewrite ?andb_true_iff.
  - by intros ->%eqb_prop.
  - intros ((->%eqb_prop & ->%Pos.eqb_eq) & ->%Z.eqb_eq). done.
Qed.

Lemma parse_hour_show h : 0 <= h < 24 -> parse_hour (show2 h) = Some (f32_of_Z h).
Proof.
  intros Hh.
  pose proof (seqZ_forallb (fun h => match parse_hour (show2 h) with
    | Some f => eq_f f (f32_of_Z h) | None => false end) 0 24 h) as H.
  specialize (H ltac:(vm_compute; reflexivity) ltac:(lia)). cbn beta in H.
  destruct (parse_hour (show2 h)) as [f|]; [|done]. by apply eq_f_eq in H as ->.
Qed.

Lemma show_day_reads d :
  1 <= d <= 7 -> bad_int [digit_char d] = false /\ atoi [digit_char d] = d /\
    no_char ":" [digit_char d] = true /\ no_char "-" [digit_char d] = true.
Proof.
  intros Hd.
  pose proof (seqZ_forallb (fun d => negb (bad_int [digit_char d]) && (atoi [digit_char d] =? d) &&
    no_char ":" [digit_char d] && no_char "-" [digit_char d]) 1 7 d) as H.
  rewrite !andb_true_iff, negb_true_iff, Z.eqb_eq in H.
  destruct H as (((H1 & H2) & H3) & H4); [vm_compute; reflexivity|lia|auto].
Qed.

Lemma no_char_app c w1 w2 : no_char c (w1 ++ w2) = no_char c w1 && no_char c w2.
Proof. apply forallb_app. Qed.

Lemma strrchr_none c w : no_char c w = true -> strrchr c w = None.
Proof.
  induction w as [|x w IH]; [done|]. cbn. intros [H1%negb_true_iff H2]%andb_true_iff.
  by rewrite IH, H1.
Qed.

Lemma strrchr_last c l r : no_char c r = true -> strrchr c (l ++ c :: r) = Some (l, r).
Proof.
  intros Hr. induction l as [|x l IH]; cbn.
  - by rewrite (strrchr_none c r Hr), Ascii.eqb_refl.
  - by rewrite IH.
Qed.

Lemma strchr_first c l r : no_char c l = true -> strchr c (l ++ c :: r) = Some (l, r).
Proof.
  induction l as [|x l IH]; cbn; [by rewrite Ascii.eqb_refl|].
  intros [H1%negb_true_iff H2]%andb_true_iff. by rewrite H1, IH.
Qed.

Lemma parse_show d t : 0 <= d <= 7 -> midday t -> parse_time (show_time d t) = Some (hour t, d).
Proof.
  intros Hd Ht. unfold midday in Ht.
  destruct (show2_reads (t mod 60)) as (M1 & M2 & M3 & M4 & _); [modlia|].
  assert (Hh : 0 <= t / 60 < 24) by modlia.
  destruct (show2_reads (t / 60)) as (_ & _ & _ & H4 & _); [lia|].
  unfold parse_time, show_time. rewrite app_assoc, strrchr_last by done.
  rewrite M1, M2, M3. unfold show_day. destruct (Z.eqb_spec d 0) as [->|Hne].
  - cbn [app]. rewrite strrchr_none by done. by rewrite parse_hour_show by done.
  - destruct (show_day_reads d) as (D1 & D2 & _); [lia|].
    change ([digit_char d; ":"%char] ++ show2 (t / 60)) with ([digit_char d] ++ ":"%char :: show2 (t / 60)).
    rewrite strrchr_last by done. rewrite parse_hour_show by done. cbn [mbind option_bind].
    rewrite D1, D2, (proj2 (Z.eqb_neq d 0)) by done.
    by rewrite (proj2 (Z.ltb_ge d 1)), (proj2 (Z.ltb_ge 7 d)) by lia.
Qed.

Lemma show_no_dash d t : 0 <= d <= 7 -> midday t -> no_char "-" (show_time d t) = true.
Proof.
  intros Hd Ht. unfold midday in Ht. unfold show_time. rewrite !no_char_app, !andb_true_iff.
  destruct (show2_reads (t mod 60)) as (_ & _ & _ & _ & M); [modlia|].
  destruct (show2_reads (t / 60)) as (_ & _ & _ & _ & H); [modlia|].
  split; [|by split]. unfold show_day. destruct (Z.eqb_spec d 0); [done|].
  destruct (show_day_reads d) as (_ & _ & _ & D); [lia|]. cbn in *. by rewrite D.
Qed.

(** ** Adding windows *)

(** The opening times a window stands for: every day from [o] to [c], or from
    minute [o] of day [oday] to minute [c] of the next day [cday]. *)
Definition in_span (oday o cday c d t : Z) : bool :=
  if oday =? 0 then daily o c t
  else within o (((cday - oday) mod 7) * 1440 + c) (((d - oday) mod 7) * 1440 + t).

(** Days on both sides or on none, and no window back in time on one day. *)
Definition span_ok (oday o cday c : Z) : bool :=
  Bool.eqb (oday =? 0) (cday =? 0) && negb (negb (oday =? 0) && (oday =? cday) && (c <? o)).

Lemma midday_minute t : midday t -> minute t.
Proof. unfold midday, minute. lia. Qed.

Lemma add_daily W o c :
  week_ok W -> midday o -> midday c ->
  exists W', each_day (wk W) (if SFeqb (hour o) (hour c) then f32_of_Z 25 else hour o)
               (if SFeqb (hour o) (hour c) then f32_of_Z 25 else hour c) days = Some (wk W') /\
    grows W W' (fun d t => daily o c t) days.
Proof.
  intros HW Ho Hc. rewrite hour_eqb by by apply midday_minute. rewrite f_25, !hour_if.
  destruct (each_day_spec W (if o =? c then 1500 else o) (if o =? c then 1500 else c) days HW days_weekday)
    as (W' & -> & G).
  1,2: destruct (o =? c); [apply minute_1500|by apply midday_minute].
  exists W'. split; [done|]. eapply grows_ext; [exact G|]. intros d t Hd Ht. cbn beta.
  rewrite bool_decide_true by by apply weekday_in. unfold daily, within, midday in *. cbn [andb].
  destruct (Z.eqb_spec o c); zbool.
Qed.

Lemma add_one_day W d o c :
  week_ok W -> weekday d -> midday o -> midday c -> o <= c ->
  exists W1 W', insert_day (wk W) d (if SFeqb (hour o) (hour c) then f32_of_Z 25 else hour o)
                  (if SFeqb (hour o) (hour c) then f32_of_Z 25 else hour c) = Some (wk W1) /\
    close_days (wk W1) d days = Some (wk W') /\ grows W W' (in_span d o d c) days.
Proof.
  intros HW Hd Ho Hc Hoc. rewrite hour_eqb by by apply midday_minute. rewrite f_25, !hour_if.
  destruct (insert_day_spec W d (if o =? c then 1500 else o) (if o =? c then 1500 else c) HW Hd)
    as (W1 & -> & G1).
  1,2: destruct (o =? c); [apply minute_1500|by apply midday_minute].
  destruct (close_days_spec W1 d days (gr_ok _ _ _ _ G1) days_weekday) as (W' & H2 & G2).
  exists W1, W'. split; [done|]. split; [done|]. eapply grows_trans; [exact G1|exact G2| |].
  - intros d' t Hd' Ht. cbn beta. unfold in_span, weekday, midday, within in *.
    rewrite (proj2 (Z.eqb_neq d 0)) by lia. replace ((d - d) mod 7) with 0 by modlia.
    assert (Hm : (d' - d) mod 7 = 0 <-> d' = d) by modlia. pose proof (Z.mod_pos_bound (d' - d) 7) as Hb.
    revert Hm Hb. generalize ((d' - d) mod 7). intros a Hm Hb. clear - Hd Hd' Ho Hc Hoc Ht Hm Hb.
    destruct (Z.eqb_spec o c), (Z.eqb_spec d' d); zbool.
  - intros d' Hd'. destruct (decide (d' = d)) as [->|]; [set_solver|].
    apply elem_of_app. right. by apply list_elem_of_filter.
Qed.

Lemma add_span W oday cday o c :
  week_ok W -> weekday oday -> weekday cday -> oday <> cday -> midday o -> midday c ->
  exists W', span_days 8 (wk W) oday oday cday (hour o) (hour c) = Some (wk W') /\
    grows W W' (in_span oday o cday c) days.
Proof.
  intros HW Hod Hcd Hne Ho Hc. pose proof (midday_minute _ Ho) as Ho'. pose proof (midday_minute _ Hc) as Hc'.
  change 8%nat with (S 7). remember 7%nat as k eqn:Ek. cbn [span_days]. unfold weekday in Hod, Hcd.
  rewrite (proj2 (Z.eqb_neq oday 8)), Z.eqb_refl by lia. rewrite f_25.
  destruct (insert_day_spec W oday o 1500 HW Hod Ho' minute_1500) as (W1 & -> & G1). cbn [mbind option_bind].
  set (i' := if oday + 1 =? 8 then 1 else oday + 1).
  assert (Hi : (cday - i') mod 7 = (cday - oday) mod 7 - 1 /\ 1 <= (cday - oday) mod 7 <= 6 /\ (oday - i') mod 7 = 6).
  { unfold i'. destruct (Z.eqb_spec (oday + 1) 8); modlia. }
  destruct (span_days_spec (Z.to_nat ((cday - i') mod 7)) k W1 (oday + 1) oday cday o c) as (W2 & H2 & G2);
    try done; try (fold i'; lia); [apply G1|].
  exists W2. split; [done|]. eapply grows_trans; [exact G1|exact G2| |by apply list_subseteq_app_r].
  intros d t Hd Ht. cbn beta. fold i'. unfold in_span, weekday, midday, within in *.
  rewrite (proj2 (Z.eqb_neq oday 0)) by lia. rewrite Z2Nat.id by lia. destruct Hi as (-> & Hn & _).
  assert (Ha : (d - oday) mod 7 = if d =? oday then 0 else (d - i') mod 7 + 1)
    by (unfold i'; destruct (Z.eqb_spec (oday + 1) 8), (Z.eqb_spec d oday); modlia).
  assert (Hb : d = oday -> (d - i') mod 7 = 6) by (unfold i'; destruct (Z.eqb_spec (oday + 1) 8); modlia).
  rewrite Ha. pose proof (Z.mod_pos_bound (d - i') 7) as Hp. revert Hb Hp Hn.
  generalize ((d - i') mod 7), ((cday - oday) mod 7). intros b n Hb Hp Hn. clear - Ho Hc Ht Hb Hp Hn.
  destruct (Z.eqb_spec d oday); zbool.
Qed.

(** ** The time of day *)

Definition day_name (d : Z) : list ascii :=
  String.list_ascii_of_string
    (if d =? 1 then "Mon" else if d =? 2 then "Tue" else if d =? 3 then "Wed" else if d =? 4 then "Thu"
     else if d =? 5 then "Fri" else if d =? 6 then "Sat" else "Sun").

(** The text of [ctime]: day, date, hours, minutes, the rest. *)
Definition ctime_text (d t : Z) (date rest : list ascii) : list ascii :=
  day_name d ++ date ++ show2 (t / 60) ++ ":"%char :: show2 (t mod 60) ++ rest.

Lemma atof_show n :
  0 <= n < 60 -> atof (show2 n) = to_double (f32_of_Z n) /\ to_float (atof (show2 n)) = f32_of_Z n.
Proof.
  intros Hn. pose proof (seqZ_forallb (fun n => eq_f (atof (show2 n)) (to_double (f32_of_Z n)) &&
    eq_f (to_float (atof (show2 n))) (f32_of_Z n)) 0 60 n) as H.
  rewrite andb_true_iff in H. destruct H as [H1 H2]; [vm_compute; reflexivity|lia|].
  split; by apply eq_f_eq.
Qed.

Lemma day_of_day_name d :
  weekday d -> length (day_name d) = 3%nat /\
    day_of_name (String.string_of_list_ascii (day_name d)) = Some d.
Proof.
  unfold weekday. intros Hd. assert (Hc : d = 1 \/ d = 2 \/ d = 3 \/ d = 4 \/ d = 5 \/ d = 6 \/ d = 7) by lia.
  by repeat (destruct Hc as [->|Hc]); [..|subst].
Qed.

Lemma getDayHour_spec d t date rest :
  weekday d -> midday t -> length date = 8%nat ->
  getDayHour (ctime_text d t date rest) = Some (Dayhour d (hour t)).
Proof.
  intros Hd Ht Hdate. destruct (day_of_day_name d Hd) as [Hl Hn]. unfold midday in Ht.
  unfold getDayHour, ctime_text.
  rewrite take_app_le, (take_ge (day_name d)) by lia. rewrite Hn. cbn [mbind option_bind].
  rewrite !drop_app, !Hl, !Hdate, (drop_ge (day_name d) 11), (drop_ge (day_name d) 14) by lia.
  rewrite (drop_ge date (11 - 3)), (drop_ge date (14 - 3)) by lia. cbn [Nat.sub app drop].
  change (take 2 (drop 0 (show2 (t / 60)) ++ ?r)) with (show2 (t / 60)).
  change (drop (3 - length (show2 (t / 60))) (":"%char :: ?r)) with r.
  change (drop 3 (show2 (t / 60)) ++ ?r) with r.
  change (take 2 (show2 (t mod 60) ++ rest)) with (show2 (t mod 60)).
  destruct (atof_show (t / 60)) as [_ ->]; [modlia|]. destruct (atof_show (t mod 60)) as [-> _]; [modlia|].
  done.
Qed.

Lemma check_chain_open d t now edge l :
  minute t -> Forall slot_ok l ->
  (check_chain (Dayhour d (hour t)) now edge (Wn <$> l)).1 = covered l t.
Proof.
  intros Ht Hl. revert edge. induction Hl as [|p l Hp Hl IH]; intros edge; [done|].
  destruct (slot_minutes p Hp) as [H1 H2]. unfold covered in *. rewrite fmap_cons. cbn [existsb check_chain].
  unfold checkWindow at 1. cbn [dh_hour Wn opentime closetime]. rewrite hour_leb, hour_ltb by done.
  unfold within at 1. by destruct (_ && _).
Qed.

(** * Properties *)

(** Entering a window into a chain of separate windows always ends: the result
    is a non-empty chain of proper windows, no two of which overlap or touch,
    open at exactly the minutes at which the chain was open or the new window
    is.  *)
Theorem insertW_correct l o c :
  Forall slot_ok l -> separate l -> minute o -> minute c ->
  exists l', insertW (Wn <$> l) (hour o) (hour c) = Some (Wn <$> l') /\
    Forall slot_ok l' /\ separate l' /\ l' <> [] /\
    forall t, midday t -> covered l' t = covered l t || within o c t.
Proof.
  intros Hl Hs Ho Hc. destruct (insertW_spec l o c Hl Ho Hc) as (l' & H & E).
  exists l'. split; [done|]. split; [apply E|]. split; [by apply E|]. split; apply E.
Qed.

(** 7:00-21:00 joins 20:00- and -8:30 into one window. *)
Lemma insertW_correct_witness :
  exists l', insertW (Wn <$> [(1200, 1500); (-60, 510)]) (hour 420) (hour 1260) = Some (Wn <$> l') /\
    Forall slot_ok l' /\ separate l' /\ l' <> [] /\
    forall t, midday t -> covered l' t = covered [(1200, 1500); (-60, 510)] t || within 420 1260 t.
Proof.
  apply insertW_correct.
  - apply Forall_cons; split; [right; cbn; lia|]. apply Forall_cons; split; [right; cbn; lia|constructor].
  - cbn. split; [apply Forall_cons; split; [cbn; lia|constructor]|split; [constructor|done]].
  - unfold minute. lia.
  - unfold minute. lia.
Defined.

(** [addWindow] of a printed window succeeds exactly when days are given on both
    sides or on none and the window does not end before it starts on one and
    the same day.  It then opens the week at exactly the minutes of the window
    in addition, past midnight and past the end of the week included, and
    leaves no day without a chain; otherwise the week is unchanged.  *)
Theorem addWindow_correct W oday o cday c :
  week_ok W -> 0 <= oday <= 7 -> 0 <= cday <= 7 -> midday o -> midday c ->
  let r := addWindow (show_time oday o ++ "-"%char :: show_time cday c) (wk W) in
  if span_ok oday o cday c
  then exists W', r = Some (0, wk W') /\ week_ok W' /\
    (forall d t, weekday d -> midday t -> open_at W' d t = open_at W d t || in_span oday o cday c d t) /\
    forall d, weekday d -> has_day W' d
  else r = Some (-1, wk W).
Proof.
  intros HW Hod Hcd Ho Hc r. subst r. unfold addWindow. rewrite strchr_first by by apply show_no_dash.
  rewrite !parse_show by done. unfold span_ok.
  assert (Hdone : forall W' f, (forall d t, f d t = in_span oday o cday c d t) -> grows W W' f days ->
    exists W'', Some (0, wk W') = Some (0, wk W'') /\ week_ok W'' /\
      (forall d t, weekday d -> midday t -> open_at W'' d t = open_at W d t || in_span oday o cday c d t) /\
      forall d, weekday d -> has_day W'' d).
  { intros W' f Hf [G1 G2 G3]. exists W'. split; [done|]. split; [done|]. split.
    - intros. by rewrite G2, Hf.
    - intros d Hd. apply G3; [done|]. left. by apply weekday_in. }
  destruct (Z.eqb_spec oday 0) as [->|Hoz], (Z.eqb_spec cday 0) as [->|Hcz];
    cbn [Bool.eqb andb orb negb]; try (by rewrite ?Z.eqb_refl, ?(proj2 (Z.eqb_neq _ _)) by lia).
  - cbn [Z.eqb negb]. destruct (add_daily W o c HW Ho Hc) as (W' & H & G).
    destruct (SFeqb (hour o) (hour c)); cbn [andb negb] in *; rewrite H; by eapply Hdone.
  - assert (Hwo : weekday oday) by (unfold weekday; lia). assert (Hwc : weekday cday) by (unfold weekday; lia).
    destruct (Z.eqb_spec oday cday) as [->|Hne]; cbn [andb negb].
    + rewrite hour_ltb by by apply midday_minute. destruct (Z.ltb_spec c o); cbn [negb]; [done|].
      destruct (add_one_day W cday o c) as (W1 & W' & H1 & H2 & G); try done.
      destruct (SFeqb (hour o) (hour c)); rewrite H1; cbn [mbind option_bind]; rewrite H2; by eapply Hdone.
    + destruct (add_span W oday cday o c) as (W' & -> & G); try done. by eapply Hdone.
Qed.

Lemma new_week_ok : week_ok (replicate 8 []).
Proof. split; [done|]. intros i l [-> _]%lookup_replicate_1. by split. Qed.

(** Friday evening to Monday morning, in a new week. *)
Lemma addWindow_correct_witness :
  exists W', addWindow (String.list_ascii_of_string "5:18:30-1:08:30") (wk (replicate 8 [])) = Some (0, wk W') /\
    open_at W' 7 720 = true /\ open_at W' 1 600 = false /\ has_day W' 3.
Proof.
  destruct (addWindow_correct (replicate 8 []) 5 1110 1 510) as (W' & H1 & H2 & H3 & H4).
  - exact new_week_ok.
  - lia.
  - lia.
  - unfold midday. lia.
  - unfold midday. lia.
  - exists W'. split; [exact H1|]. split; [|split].
    + rewrite H3 by (unfold weekday, midday; lia). reflexivity.
    + rewrite H3 by (unfold weekday, midday; lia). reflexivity.
    + apply H4. unfold weekday. lia.
Defined.

(** When its edge has passed, [updateTimeWindow] sets the status of a window to
    open exactly when the week is open at the present minute of the present
    day, as [ctime] prints them; on a day without a chain the status stays as
    it is.  (C39) *)
Theorem updateTimeWindow_correct ctime now tw W d t date rest l :
  week_ok W -> week tw = wk W -> weekday d -> midday t -> W !! Z.to_nat d = Some l ->
  ctime now = ctime_text d t date rest -> length date = 8%nat ->
  windEdge tw <= now -> windEdge tw <> 0 ->
  exists tw', updateTimeWindow ctime now tw = Some tw' /\ week tw' = week tw /\
    tw_windows tw' = tw_windows tw /\
    tw_status tw' = match l with
                    | [] => tw_status tw
                    | _ => if open_at W d t then WINDOW_OPEN else WINDOW_CLOSE
                    end.
Proof.
  intros HW Htw Hd Ht Hl Hct Hdate Hedge H0. unfold updateTimeWindow.
  rewrite (proj2 (Z.ltb_ge now (windEdge tw))), (proj2 (Z.eqb_neq _ _) H0) by done. cbn [orb].
  rewrite Hct, getDayHour_spec by done. cbn [mbind option_bind day dh_hour].
  rewrite Htw, (wk_lookup _ _ _ Hl). cbn [mbind option_bind].
  destruct l as [|p l]; [by eexists|]. destruct (wk_slots _ HW _ _ Hl) as [Hok _].
  unfold open_at. rewrite Hl.
  rewrite <- (check_chain_open d t now (to_int (dadd (f64_of_Z now) (dmul (dsub (f64_of_Z 24)
    (to_double (hour t))) (f64_of_Z 3600)))) (p :: l) (midday_minute _ Ht) Hok).
  rewrite fmap_cons. destruct (check_chain _ _ _ _) as [op e]. by eexists.
Qed.

(** Nine in the morning of a Wednesday. *)
Lemma updateTimeWindow_correct_witness :
  exists tw', updateTimeWindow (fun _ => String.list_ascii_of_string "Wed Nov 15 09:00:10 2023") 1700038810
      (TimeWindow WINDOW_OPEN None (wk [[]; []; []; [(1200, 1500); (-60, 510)]; []; []; []; []]) 1700000000)
    = Some tw' /\ tw_status tw' = WINDOW_CLOSE.
Proof.
  destruct (updateTimeWindow_correct (fun _ => String.list_ascii_of_string "Wed Nov 15 09:00:10 2023") 1700038810
    (TimeWindow WINDOW_OPEN None (wk [[]; []; []; [(1200, 1500); (-60, 510)]; []; []; []; []]) 1700000000)
    [[]; []; []; [(1200, 1500); (-60, 510)]; []; []; []; []] 3 540 (String.list_ascii_of_string " Nov 15 ")
    (String.list_ascii_of_string ":10 2023") [(1200, 1500); (-60, 510)]) as (tw' & H1 & _ & _ & H2).
  - split; [done|]. intros i l Hi.
    assert (Hc : l = [] \/ l = [(1200, 1500); (-60, 510)])
      by (do 8 (destruct i as [|i]; [injection Hi as <-; auto|]); done).
    destruct Hc as [->| ->]; [by split|]. split.
    + apply Forall_cons; split; [right; cbn; lia|]. apply Forall_cons; split; [right; cbn; lia|constructor].
    + cbn. split; [apply Forall_cons; split; [cbn; lia|constructor]|split; [constructor|done]].
  - done.
  - unfold weekday. lia.
  - unfold midday. lia.
  - done.
  - done.
  - done.
  - cbn. lia.
  - done.
  - exists tw'. split; [exact H1|exact H2].
Defined.

(** The edge is computed in [float], whose values near the present time are
    128 seconds apart: at 8:13 the window -8:30 ends 1020 seconds later, but
    the edge is set 992 seconds later. *)
Example edge_is_coarse :
  checkWindow (Dayhour 3 (hour 493)) false 1700092800 (Wn (-60, 510)) 1700036000 = (true, 1700036000 + 992).
Proof. vm_compute. reflexivity. Qed.
