(* ===== verification/Jidx.v ===== *)
(** * Job array indices, [lsf/intlib/jidx.c]

    An index specification such as ["[1-100:2,200]%5"] is read by a table-driven
    shift-reduce parser that yacc made from [idx.y]; the tables and the driver
    are what is compiled, and what is modelled here, with the scanner [yylex]
    of [callex.c] whose rules are those of [cal.l].  The theorems relate the
    automaton to a recursive reading of the grammar. *)

From Stdlib Require Import Ascii.
From S2P Require Import Prelude Lsb CString.

(** ** The scanner *)

(** The tokens of [tokdefs.h] that the scanner returns; a single character is
    its own code. *)
Definition ICON : Z := 1.
Definition RCON : Z := 2.
Definition OR : Z := 29.
Definition AND : Z := 30.
Definition LE : Z := 31.
Definition GE : Z := 32.
Definition EQ : Z := 33.
Definition DOTS : Z := 34.
Definition ESTRING : Z := 37.
Definition NAME : Z := 38.
Definition YYLMAX : Z := 200.

Definition code (c : ascii) : Z := Z.of_N (Ascii.N_of_ascii c).

Definition is_letter (c : ascii) : bool :=
  ((65 <=? code c) && (code c <=? 90)) || ((97 <=? code c) && (code c <=? 122)).
Definition is_letdig (c : ascii) : bool := is_letter c || is_digit c || (code c =? 95).
Definition is_white (c : ascii) : bool := (code c =? 32) || (code c =? 9) || (code c =? 10).
Definition newline (c : ascii) : bool := code c =? 10.

(** Length of the longest prefix of characters that satisfy a test. *)
Fixpoint span (test : ascii -> bool) (w : list ascii) : nat :=
  match w with c :: w => if test c then S (span test w) else O | [] => O end.

Fixpoint prefixb (p w : list ascii) : bool :=
  match p, w with
  | [], _ => true
  | x :: p, y :: w => Ascii.eqb x y && prefixb p w
  | _ :: _, [] => false
  end.

Definition chars (s : string) : list ascii := String.list_ascii_of_string s.

Definition lit (s : string) (w : list ascii) : nat :=
  if prefixb (chars s) w then length (chars s) else O.

(** [.*] and the text [e]: where the last [e] of the line ends. *)
Fixpoint until (e w : list ascii) : nat :=
  match w with
  | [] => O
  | c :: w' =>
      match (if newline c then O else until e w') with
      | S n => S (S n)
      | O => if prefixb e w then length e else O
      end
  end.

Definition enclosed (b e w : list ascii) : nat :=
  if prefixb b w then
    match until e (drop (length b) w) with O => O | n => (length b + n)%nat end
  else O.

Definition dquote : ascii := "034"%char.

(** The rules in their order: the length each matches. *)
Definition rules : list (list ascii -> nat) :=
  [lit "#"; enclosed (chars "/*") (chars "*/"); lit "||"; lit "&&"; lit "<="; lit ">="; lit "=="; lit "..";
   (fun w => match w with c :: w => if is_letter c then S (span is_letdig w) else O | [] => O end);
   span is_digit;
   (fun w => match span is_digit w with
             | O => O
             | n => match drop n w with
                    | "."%char :: w' => (n + 1 + span is_digit w')%nat
                    | _ => O
                    end
             end);
   enclosed (chars "'") (chars "'"); enclosed [dquote] [dquote]; span is_white;
   (fun w => match w with c :: _ => if newline c then O else 1%nat | [] => O end)].

(** [yylook]: the number of the rule with the longest match, the first of
    those, and the length. *)
Fixpoint best (i : nat) (rs : list (list ascii -> nat)) (w : list ascii) : nat * nat :=
  match rs with
  | [] => (O, O)
  | r :: rs => let '(j, n) := best (S i) rs w in if (n <=? r w)%nat then (i, r w) else (j, n)
  end.
Definition yylook (w : list ascii) : nat * nat := best 1 rules w.

(** *** Reserved words *)

(** The words and their tokens, in the order of the table. *)
Definition rwtable : list (string * Z) :=
  [("apr", 14); ("april", 14); ("aug", 18); ("august", 18); ("dates", 40); ("day", 28);
   ("dec", 22); ("december", 22); ("feb", 12); ("february", 12); ("fri", 8); ("friday", 8);
   ("fy", 24); ("h", 35); ("jan", 11); ("january", 11); ("jul", 17); ("july", 17); ("jun", 16);
   ("june", 16); ("m", 36); ("mar", 13); ("march", 13); ("may", 15); ("mon", 4); ("monday", 4);
   ("month", 26); ("nov", 21); ("november", 21); ("oct", 20); ("october", 20); ("quarter", 27);
   ("range", 39); ("sat", 9); ("saturday", 9); ("sep", 19); ("september", 19); ("sun", 10);
   ("sunday", 10); ("thu", 7); ("thursday", 7); ("tue", 5); ("tuesday", 5); ("wed", 6);
   ("wednesday", 6); ("week", 25); ("yy", 23); ("zzzz", 41)].

Fixpoint strcmp (a b : list ascii) : Z :=
  match a, b with
  | [], [] => 0
  | [], y :: _ => - code y
  | x :: _, [] => code x
  | x :: a, y :: b => if code x =? code y then strcmp a b else code x - code y
  end.

Definition set_lower (str : list ascii) : list ascii :=
  (fun c => if (65 <=? code c) && (code c <=? 90) then Ascii.ascii_of_N (Z.to_N (code c + 97 - 65)) else c) <$> str.

(** The binary search of [screen]; [high] is the entry of ["zzzz"], the last. *)
Fixpoint screen_loop (fuel : nat) (low high : Z) (w : list ascii) : option Z :=
  match fuel with
  | O => None
  | S k =>
      if high <? low then Some NAME else
      let mid := low + (high - low) / 2 in
      '(name, tok) ← rwtable !! Z.to_nat mid;
      let c := strcmp (chars name) w in
      if c =? 0 then Some tok
      else if c <? 0 then screen_loop k (mid + 1) high w
      else screen_loop k low (mid - 1) w
  end.
Definition screen (yytext : list ascii) : option Z :=
  screen_loop 8 0 (Z.of_nat (length rwtable) - 1) (set_lower yytext).

(** [yylex] on the rest of the text: the tokens and what [s_lookup] leaves in
    [token] for them.  The end of the text is the code 0, here the end of the
    list. *)
Record tok := Tok { tcode : Z; ttext : option (list ascii) }.

Fixpoint yylex (fuel : nat) (w : list ascii) : option (list tok) :=
  match fuel with
  | O => None
  | S k =>
      match w with
      | [] => Some []
      | c :: _ =>
          if code c =? 0 then Some [] else
          let '(nstr, yyleng) := yylook w in
          let yytext := take yyleng w in
          let rest := drop yyleng w in
          let ret t := ts ← yylex k rest; Some (t :: ts) in
          match nstr with
          | 1%nat | 2%nat | 14%nat => yylex k rest
          | 3%nat => ret (Tok OR None) | 4%nat => ret (Tok AND None) | 5%nat => ret (Tok LE None)
          | 6%nat => ret (Tok GE None) | 7%nat => ret (Tok EQ None) | 8%nat => ret (Tok DOTS None)
          | 9%nat => t ← screen yytext; ret (Tok t (if t =? NAME then Some yytext else None))
          | 10%nat => ret (Tok ICON (Some yytext))
          | 11%nat => ret (Tok RCON (Some yytext))
          | 12%nat | 13%nat => ret (Tok ESTRING (Some yytext))
          | 15%nat => ret (Tok (code c) None)
          | _ => None
          end
      end
  end.
Definition scan (w : list ascii) : option (list tok) := yylex (S (length w)) w.

(** ** The tables of the parser *)

Definition YYFLAG : Z := -3000.
Definition YYLAST : Z := 48.
Definition YYERRCODE : Z := 256.
Definition YYMAXDEPTH : Z := 150.
Definition IDX_NOERR : Z := 0.
Definition IDX_BOUND : Z := 1.
Definition IDX_MEM : Z := 2.

Definition yyexca : list Z := [-1; 1; 0; -1; -2; 0].
Definition yyact : list Z :=
  [12; 3; 14; 10; 15; 13; 4; 8; 10; 1; 5; 2; 11; 7; 6; 0; 0; 16; 0; 0; 0; 0; 18; 19; 17; 0; 0; 0; 0; 0;
   0; 0; 0; 0; 0; 0; 0; 0; 0; 0; 0; 0; 0; 0; 0; 0; 0; 9].
Definition yypact : list Z :=
  [-90; -3000; -31; 2; 7; -93; -39; -56; -41; 7; -3000; -3000; -3000; 2; 7; 7; -3000; -3000; -3000; -3000].
Definition yypgo : list Z := [0; 14; 13; 10; 11; 7; 9].
Definition yyr1 : list Z := [0; 6; 6; 4; 3; 3; 1; 1; 2; 2; 2; 2; 5].
Definition yyr2 : list Z := [0; 3; 7; 7; 3; 7; 3; 7; 3; 5; 5; 7; 3].
Definition yychk : list Z :=
  [-3000; -6; -4; 91; 37; -3; -1; -2; -5; 45; 1; -5; 93; 44; 58; 45; -5; -3; -5; -5].
Definition yydef : list Z := [0; -2; 1; 0; 0; 0; 4; 6; 8; 0; 12; 2; 3; 0; 0; 10; 9; 5; 7; 11].

(** A table access; outside the table there is no value. *)
Definition at_ (t : list Z) (i : Z) : option Z := if i <? 0 then None else t !! Z.to_nat i.

(** ** The driver [idxparse] *)

(** [YYSTYPE]; [Undef] is a value the parser has not set. *)
Inductive YYSTYPE := Undef | Ival (i : Z) | IdxType (i : idxList) | IdxPtr (l : list idxList).

Record yystate := YY {
  yys : list Z;           (* states, top first *)
  yyv : list YYSTYPE;
  yy_state : Z;
  yyval : YYSTYPE;
  yychar : Z;             (* -1: none read *)
  yyerrflag : Z;
  input : list tok;
  token : option (list ascii);   (* NULL until the first [s_lookup] *)
  idxerrno : Z;
  out_list : list idxList;      (* *idxList *)
  out_limit : Z }.              (* *maxJLimit *)

(** Where control goes next: to [yy_stack], to [yy_newstate], or out. *)
Inductive outcome :=
| Goes (st : yystate)
| Again (st : yystate)
| Accepts (st : yystate)
| Aborts (st : yystate).

Definition set_state (st : yystate) (n : Z) : yystate :=
  YY (yys st) (yyv st) n (yyval st) (yychar st) (yyerrflag st) (input st) (token st) (idxerrno st)
    (out_list st) (out_limit st).
Definition set_errflag (st : yystate) (n : Z) : yystate :=
  YY (yys st) (yyv st) (yy_state st) (yyval st) (yychar st) n (input st) (token st) (idxerrno st)
    (out_list st) (out_limit st).
Definition set_errno (st : yystate) (n : Z) : yystate :=
  YY (yys st) (yyv st) (yy_state st) (yyval st) (yychar st) (yyerrflag st) (input st) (token st) n
    (out_list st) (out_limit st).
Definition set_out (st : yystate) (l : list idxList) (m : Z) : yystate :=
  YY (yys st) (yyv st) (yy_state st) (yyval st) (yychar st) (yyerrflag st) (input st) (token st) (idxerrno st) l m.
Definition set_val (st : yystate) (v : YYSTYPE) : yystate :=
  YY (yys st) (yyv st) (yy_state st) v (yychar st) (yyerrflag st) (input st) (token st) (idxerrno st)
    (out_list st) (out_limit st).
Definition set_stack (st : yystate) (ps : list Z) (pv : list YYSTYPE) : yystate :=
  YY ps pv (yy_state st) (yyval st) (yychar st) (yyerrflag st) (input st) (token st) (idxerrno st)
    (out_list st) (out_limit st).
Definition set_char (st : yystate) (c : Z) (inp : list tok) (t : option (list ascii)) : yystate :=
  YY (yys st) (yyv st) (yy_state st) (yyval st) c (yyerrflag st) inp t (idxerrno st)
    (out_list st) (out_limit st).

(** [s_lookup], for the tokens that have a text. *)
Definition s_lookup (tk : option (list ascii)) (t : tok) : option (list ascii) :=
  match ttext t with Some w => Some w | None => tk end.

(** [if (yychar < 0 && (yychar = yylex()) < 0) yychar = 0;] *)
Definition read_char (st : yystate) : yystate :=
  if yychar st <? 0 then
    match input st with
    | [] => set_char st 0 [] (token st)
    | t :: ts => set_char st (Z.max 0 (tcode t)) ts (s_lookup (token st) t)
    end
  else st.

(** The state that [yychar] shifts to. *)
Definition shifts (st c : Z) : option (option Z) :=
  n ← at_ yypact st;
  let n := n + c in
  if (n <? 0) || (YYLAST <=? n) then Some None else
  n ← at_ yyact n;
  k ← at_ yychk n;
  Some (if k =? c then Some n else None).

(** The search of [yyexca] for a state with several default actions. *)
Fixpoint exca_find (fuel : nat) (i st : Z) : option Z :=
  match fuel with
  | O => None
  | S k => a ← at_ yyexca i; b ← at_ yyexca (i + 1);
           if (a =? -1) && (b =? st) then Some i else exca_find k (i + 2) st
  end.
Fixpoint exca_action (fuel : nat) (i c : Z) : option Z :=
  match fuel with
  | O => None
  | S k => a ← at_ yyexca (i + 2);
           if (0 <=? a) && negb (a =? c) then exca_action k (i + 2) c else at_ yyexca (i + 3)
  end.

(** [while (yy_ps >= yys)]: the first state that shifts the error token. *)
Fixpoint recover (ps : list Z) (pv : list YYSTYPE) : option (option (Z * list Z * list YYSTYPE)) :=
  match ps with
  | [] => Some None
  | s :: ps' =>
      p ← at_ yypact s;
      let n := p + YYERRCODE in
      found ← (if (0 <=? n) && (n <? YYLAST)
               then a ← at_ yyact n; k ← at_ yychk a; Some (if k =? YYERRCODE then Some a else None)
               else Some None);
      match found with
      | Some a => Some (Some (a, ps, pv))
      | None => recover ps' (tail pv)
      end
  end.

Definition yyerror_case (st : yystate) : option outcome :=
  if yyerrflag st <? 3 then
    r ← recover (yys st) (yyv st);
    match r with
    | Some (a, ps, pv) => Some (Goes (set_stack (set_state (set_errflag st 3) a) ps pv))
    | None => Some (Aborts (set_errflag st 3))
    end
  else if yychar st =? 0 then Some (Aborts st)
  else Some (Again (set_char st (-1) (input st) (token st))).

(** *** The actions of the grammar, [v k] being [yypvt[-k]] *)

Definition get_ival (v : option YYSTYPE) : option Z := match v with Some (Ival i) => Some i | _ => None end.
Definition get_idx (v : option YYSTYPE) : option idxList := match v with Some (IdxType i) => Some i | _ => None end.
Definition get_ptr (v : option YYSTYPE) : option (list idxList) :=
  match v with Some (IdxPtr l) => Some l | _ => None end.

(** The check of a region and its step. *)
Definition bounded (i : idxList) : bool :=
  negb ((start i <? 1) || (end_ i <? start i) || (step i <=? 0)).
Definition check_bounds (st : yystate) (i : idxList) : outcome :=
  if bounded i then Goes (set_val st (IdxType i)) else Aborts (set_errno (set_val st (IdxType i)) IDX_BOUND).

Definition action (n : Z) (st : yystate) (v : nat -> option YYSTYPE) : option outcome :=
  match n with
  | 1 => l ← get_ptr (v 0%nat); Some (Goes (set_out st l (out_limit st)))
  | 2 => l ← get_ptr (v 2%nat); m ← get_ival (v 0%nat); Some (Goes (set_out st l m))
  | 3 => l ← get_ptr (v 1%nat); Some (Goes (set_val st (IdxPtr l)))
  | 4 => i ← get_idx (v 0%nat); Some (Goes (set_val st (IdxPtr [i])))
  | 5 => i ← get_idx (v 2%nat); l ← get_ptr (v 0%nat); Some (Goes (set_val st (IdxPtr (i :: l))))
  | 6 => i ← get_idx (v 0%nat); Some (check_bounds st (IdxList (start i) (end_ i) 1))
  | 7 => i ← get_idx (v 2%nat); k ← get_ival (v 0%nat);
         Some (check_bounds st (IdxList (start i) (end_ i) k))
  | 8 => a ← get_ival (v 0%nat); Some (Goes (set_val st (IdxType (IdxList a a 1))))
  | 9 => b ← get_ival (v 0%nat); Some (Goes (set_val st (IdxType (IdxList 1 b 1))))
  | 10 => a ← get_ival (v 1%nat); Some (Goes (set_val st (IdxType (IdxList a INFINIT_INT 1))))
  | 11 => a ← get_ival (v 2%nat); b ← get_ival (v 0%nat);
          Some (Goes (set_val st (IdxType (IdxList a b 1))))
  | 12 => w ← token st; Some (Goes (set_val st (Ival (atoi w))))
  | _ => Some (Goes st)
  end.

(** The state after the reduction by a rule of the nonterminal [nt] when the
    state [s] is uncovered. *)
Definition goto (nt s : Z) : option Z :=
  g ← at_ yypgo nt;
  let n := g + s + 1 in
  fit ← (if YYLAST <=? n then Some None
         else a ← at_ yyact n; k ← at_ yychk a; Some (if k =? - nt then Some a else None));
  match fit with Some a => Some a | None => at_ yyact g end.

Definition reduce (n : Z) (st : yystate) : option outcome :=
  len ← at_ yyr2 n;
  let k := Z.to_nat (Z.shiftr len 1) in
  nt ← at_ yyr1 n;
  let ps := drop k (yys st) in
  s ← head ps;
  ns ← goto nt s;
  let val := default Undef (if (k =? 0)%nat then None else yyv st !! (k - 1)%nat) in
  let st' := set_val (set_state (set_stack st ps (drop k (yyv st))) ns) val in
  if Z.testbit len 0 then action n st' (fun i => yyv st !! i) else Some (Goes st').

Definition yydefault (st : yystate) : option outcome :=
  n ← at_ yydef (yy_state st);
  if n =? -2 then
    let st := read_char st in
    i ← exca_find 3 0 (yy_state st);
    n ← exca_action 3 i (yychar st);
    if n <? 0 then Some (Accepts st)
    else if n =? 0 then yyerror_case st else reduce n st
  else if n =? 0 then yyerror_case st else reduce n st.

Definition yy_newstate (st : yystate) : option outcome :=
  n ← at_ yypact (yy_state st);
  if n <=? YYFLAG then yydefault st else
  let st := read_char st in
  s ← shifts (yy_state st) (yychar st);
  match s with
  | Some n => Some (Goes (set_errflag (set_val (set_state (set_char st (-1) (input st) (token st)) n) Undef)
                            (if 0 <? yyerrflag st then yyerrflag st - 1 else yyerrflag st)))
  | None => yydefault st
  end.

(** [yy_stack]: push the state; the stacks have room for [YYMAXDEPTH]. *)
Definition yy_stack (st : yystate) : option outcome :=
  let st := set_stack st (yy_state st :: yys st) (yyval st :: yyv st) in
  if YYMAXDEPTH <? Z.of_nat (length (yys st)) then Some (Aborts st) else yy_newstate st.

Fixpoint yyrun (fuel : nat) (o : outcome) : option outcome :=
  match o with
  | Accepts _ | Aborts _ => Some o
  | Goes st => match fuel with O => None | S k => o ← yy_stack st; yyrun k o end
  | Again st => match fuel with O => None | S k => o ← yy_newstate st; yyrun k o end
  end.

Definition yyfuel (ts : list tok) : nat := (8 * length ts + 8)%nat.

(** [idxparse]: the value returned, the list, the limit and [idxerrno]. *)
Definition idxparse (ts : list tok) (tk : option (list ascii)) (errno limit : Z) : option (Z * list idxList * Z * Z) :=
  o ← yyrun (yyfuel ts) (Goes (YY [] [] 0 Undef (-1) 0 ts tk errno [] limit));
  match o with
  | Accepts st => Some (0, out_list st, out_limit st, idxerrno st)
  | Aborts st => Some (1, out_list st, out_limit st, idxerrno st)
  | _ => None
  end.

(** ** The grammar, read recursively *)

(** [icon : ICON] *)
Definition icon (ts : list tok) : option (Z * list tok) :=
  match ts with
  | t :: ts => if tcode t =? ICON then w ← ttext t; Some (atoi w, ts) else None
  | [] => None
  end.

(** Is the next token the character? *)
Definition next_is (c : ascii) (ts : list tok) : option (list tok) :=
  match ts with t :: ts => if tcode t =? code c then Some ts else None | [] => None end.

(** [region : icon | '-' icon | icon '-' | icon '-' icon] *)
Definition region (ts : list tok) : option (Z * Z * list tok) :=
  match next_is "-" ts with
  | Some ts => '(b, ts) ← icon ts; Some (1, b, ts)
  | None =>
      '(a, ts) ← icon ts;
      match next_is "-" ts with
      | Some ts => Some (match icon ts with Some (b, ts) => (a, b, ts) | None => (a, INFINIT_INT, ts) end)
      | None => Some (a, a, ts)
      end
  end.

(** [index : region | region ':' icon], in bounds; the error is the value of
    [idxerrno], which a syntax error leaves as it is. *)
Definition index (e : Z) (ts : list tok) : Z + idxList * list tok :=
  match region ts with
  | None => inl e
  | Some (a, b, ts) =>
      match (match next_is ":" ts with Some ts => icon ts | None => Some (1, ts) end) with
      | None => inl e
      | Some (k, ts) => if bounded (IdxList a b k) then inr (IdxList a b k, ts) else inl IDX_BOUND
      end
  end.

(** [indcies : index | index ',' indcies] *)
Fixpoint indices (fuel : nat) (e : Z) (ts : list tok) : Z + list idxList * list tok :=
  match fuel with
  | O => inl e
  | S k =>
      match index e ts with
      | inl e => inl e
      | inr (i, ts) =>
          match next_is "," ts with
          | None => inr ([i], ts)
          | Some ts => match indices k e ts with inl e => inl e | inr (l, ts) => inr (i :: l, ts) end
          end
      end
  end.

(** [arrayIndSpec : '[' indcies ']' | '[' indcies ']' '%' icon] and the end *)
Definition arrayIndSpec (e limit : Z) (ts : list tok) : Z + list idxList * Z :=
  match next_is "[" ts with
  | None => inl e
  | Some ts =>
      match indices (S (length ts)) e ts with
      | inl e => inl e
      | inr (l, ts) =>
          match next_is "]" ts with
          | None => inl e
          | Some [] => inr (l, limit)
          | Some ts => match next_is "%" ts ≫= icon with Some (m, []) => inr (l, m) | _ => inl e end
          end
      end
  end.

(** ** The automaton against the grammar *)

(** What the automaton shifts, as a table that can be read. *)
Definition shift_table (s c : Z) : option Z :=
  match s with
  | 0 => if c =? 91 then Some 3 else None
  | 2 => if c =? 37 then Some 4 else None
  | 3 | 13 => if c =? 1 then Some 10 else if c =? 45 then Some 9 else None
  | 4 | 9 | 14 | 15 => if c =? 1 then Some 10 else None
  | 5 => if c =? 93 then Some 12 else None
  | 6 => if c =? 44 then Some 13 else None
  | 7 => if c =? 58 then Some 14 else None
  | 8 => if c =? 45 then Some 15 else None
  | _ => None
  end.

Lemma shifts_table s c :
  s ∈ [0; 2; 3; 4; 5; 6; 7; 8; 9; 13; 14; 15] -> shifts s c = Some (shift_table s c).
Proof.
  intros Hs. destruct (decide (-100 <= c < 200)) as [Hc|Hc].
  - assert (H : forallb (fun c => bool_decide (shifts s c = Some (shift_table s c))) (seqZ (-100) 300) = true).
    { repeat (apply elem_of_cons in Hs as [->|Hs]; [vm_compute; reflexivity|]). by apply elem_of_nil in Hs. }
    by apply (seqZ_forallb _ _ _ c) in H; [apply bool_decide_eq_true in H|lia].
  - unfold shifts. assert (E : shift_table s c = None).
    { repeat (apply elem_of_cons in Hs as [->|Hs]; [unfold shift_table; case_tests; (done || lia)|]).
      by apply elem_of_nil in Hs. }
    rewrite E. assert (Hp : exists p, at_ yypact s = Some p /\ -100 < p < 100).
    { repeat (apply elem_of_cons in Hs as [->|Hs]; [eexists; split; [reflexivity|lia]|]).
      by apply elem_of_nil in Hs. }
    destruct Hp as (p & -> & Hp). cbn [mbind option_bind]. unfold YYLAST.
    destruct (Z.ltb_spec (p + c) 0), (Z.leb_spec 48 (p + c)); (done || lia).
Qed.

Definition tok_ok (t : tok) : Prop := 0 < tcode t /\ (tcode t = ICON -> is_Some (ttext t)).
Definition peek (ts : list tok) : Z := match ts with t :: _ => tcode t | [] => 0 end.

(** The automaton with the tokens [ts] to come, the first of which may already
    have been read. *)
Definition cfg (la : bool) (ps : list Z) (pv : list YYSTYPE) (s : Z) (v : YYSTYPE) (ts : list tok)
    (tk : option (list ascii)) (e : Z) (l : list idxList) (m : Z) : yystate :=
  if la then
    match ts with
    | [] => YY ps pv s v 0 0 [] tk e l m
    | t :: ts => YY ps pv s v (tcode t) 0 ts (s_lookup tk t) e l m
    end
  else YY ps pv s v (-1) 0 ts tk e l m.

Definition states : list Z := [0; 2; 3; 4; 5; 6; 7; 8; 9; 13; 14; 15].

Ltac tab :=
  repeat match goal with
  | |- context [at_ ?t ?i] =>
      is_const t; let v := eval vm_compute in (at_ t i) in
      lazymatch v with Some _ => change (at_ t i) with v end
  end; cbn [mbind option_bind].

Lemma read_cfg la ps pv s v ts tk e l m :
  Forall tok_ok ts -> read_char (cfg la ps pv s v ts tk e l m) = cfg true ps pv s v ts tk e l m.
Proof.
  intros H. destruct la, ts as [|t ts]; try done; unfold cfg, read_char; cbn [yychar];
    apply Forall_cons in H as [[H _] _].
  - destruct (Z.ltb_spec (tcode t) 0); [lia|done].
  - cbn. rewrite Z.max_r by lia. done.
Qed.

Lemma cfg_fields la ps pv s v ts tk e l m :
  let c := cfg la ps pv s v ts tk e l m in
  yys c = ps /\ yyv c = pv /\ yy_state c = s /\ yyval c = v /\ yyerrflag c = 0 /\
  (la = true -> yychar c = peek ts).
Proof. by destruct la, ts. Qed.

Lemma cfg_stack la ps pv ps' pv' s v ts tk e l m :
  set_stack (cfg la ps pv s v ts tk e l m) ps' pv' = cfg la ps' pv' s v ts tk e l m.
Proof. by destruct la, ts. Qed.

Lemma cfg_goto la ps pv s s' v v' ts tk e l m :
  set_val (set_state (cfg la ps pv s v ts tk e l m) s') v' = cfg la ps pv s' v' ts tk e l m.
Proof. by destruct la, ts. Qed.

Section Steps.
Context (la : bool) (ps : list Z) (pv : list YYSTYPE) (s : Z) (v : YYSTYPE) (ts : list tok)
  (tk : option (list ascii)) (e : Z) (l : list idxList) (m : Z).
Hypothesis (Hok : Forall tok_ok ts) (Hdepth : (length ps < 150)%nat).

Lemma stack_enter :
  yy_stack (cfg la ps pv s v ts tk e l m) = yy_newstate (cfg la (s :: ps) (v :: pv) s v ts tk e l m).
Proof.
  unfold yy_stack. destruct (cfg_fields la ps pv s v ts tk e l m) as (E1 & E2 & E3 & E4 & _).
  rewrite E1, E2, E3, E4, cfg_stack. destruct (cfg_fields la (s :: ps) (v :: pv) s v ts tk e l m) as (E & _).
  rewrite E. unfold YYMAXDEPTH. cbn [length]. destruct (Z.ltb_spec 150 (Z.of_nat (S (length ps)))); [lia|done].
Qed.

Lemma stack_read p :
  at_ yypact s = Some p -> YYFLAG < p -> s ∈ states ->
  yy_stack (cfg la ps pv s v ts tk e l m) =
  match shift_table s (peek ts) with
  | Some n => let st := cfg true (s :: ps) (v :: pv) s v ts tk e l m in
              Some (Goes (set_errflag (set_val (set_state (set_char st (-1) (input st) (token st)) n) Undef) 0))
  | None => yydefault (cfg true (s :: ps) (v :: pv) s v ts tk e l m)
  end.
Proof.
  intros Hp Hf Hs. rewrite stack_enter. unfold yy_newstate.
  destruct (cfg_fields la (s :: ps) (v :: pv) s v ts tk e l m) as (_ & _ & E & _). rewrite E, Hp.
  cbn [mbind option_bind]. rewrite (proj2 (Z.leb_gt _ _) Hf), read_cfg by done.
  destruct (cfg_fields true (s :: ps) (v :: pv) s v ts tk e l m) as (_ & _ & E3 & _ & E5 & E6).
  rewrite E3, E6, shifts_table, E5 by done. cbn [mbind option_bind]. by destruct (shift_table s (peek ts)).
Qed.

Lemma stack_default n :
  at_ yypact s = Some YYFLAG -> at_ yydef s = Some n -> 0 < n ->
  yy_stack (cfg la ps pv s v ts tk e l m) = reduce n (cfg la (s :: ps) (v :: pv) s v ts tk e l m).
Proof.
  intros Hp Hn Hpos. rewrite stack_enter. unfold yy_newstate, yydefault.
  destruct (cfg_fields la (s :: ps) (v :: pv) s v ts tk e l m) as (_ & _ & E & _). rewrite E, Hp, Hn.
  cbn [mbind option_bind]. rewrite Z.leb_refl. destruct (Z.eqb_spec n (-2)), (Z.eqb_spec n 0); (lia || done).
Qed.

Lemma stack_reduce p n :
  at_ yypact s = Some p -> YYFLAG < p -> s ∈ states -> shift_table s (peek ts) = None ->
  at_ yydef s = Some n -> 0 < n ->
  yy_stack (cfg la ps pv s v ts tk e l m) = reduce n (cfg true (s :: ps) (v :: pv) s v ts tk e l m).
Proof.
  intros Hp Hf Hs Hsh Hn Hpos. rewrite (stack_read p) by done. rewrite Hsh. unfold yydefault.
  destruct (cfg_fields true (s :: ps) (v :: pv) s v ts tk e l m) as (_ & _ & E & _). rewrite E, Hn.
  cbn [mbind option_bind]. destruct (Z.eqb_spec n (-2)), (Z.eqb_spec n 0); (lia || done).
Qed.

End Steps.

Lemma stack_shift la ps pv s v t ts tk e l m p n :
  Forall tok_ok (t :: ts) -> (length ps < 150)%nat ->
  at_ yypact s = Some p -> YYFLAG < p -> s ∈ states -> shift_table s (tcode t) = Some n ->
  yy_stack (cfg la ps pv s v (t :: ts) tk e l m) =
  Some (Goes (cfg false (s :: ps) (v :: pv) n Undef ts (s_lookup tk t) e l m)).
Proof.
  intros Hok Hd Hp Hf Hs Hsh. rewrite (stack_read _ _ _ _ _ _ _ _ _ _ Hok Hd p) by done. cbn [peek]. by rewrite Hsh.
Qed.

(** No state shifts the error token, so an error ends the parse. *)
Lemma recover_none ps : Forall (fun s => 0 <= s < 20) ps -> forall pv, recover ps pv = Some None.
Proof.
  induction 1 as [|s ps Hs _ IH]; intros pv; [done|]. cbn [recover].
  assert (H : forallb (fun s => match at_ yypact s with
    | Some p => negb ((0 <=? p + YYERRCODE) && (p + YYERRCODE <? YYLAST)) | None => false end) (seqZ 0 20) = true)
    by (vm_compute; reflexivity).
  apply (seqZ_forallb _ _ _ s) in H; [|lia]. cbn beta in H. destruct (at_ yypact s) as [p|]; [|done]. apply negb_true_iff in H.
  cbn [mbind option_bind]. rewrite H. cbn [mbind option_bind]. apply IH.
Qed.

Lemma stack_error la ps pv s v ts tk e l m p :
  Forall tok_ok ts -> (length ps < 150)%nat -> Forall (fun s => 0 <= s < 20) (s :: ps) ->
  at_ yypact s = Some p -> YYFLAG < p -> s ∈ states -> shift_table s (peek ts) = None -> at_ yydef s = Some 0 ->
  exists st, yy_stack (cfg la ps pv s v ts tk e l m) = Some (Aborts st) /\ idxerrno st = e.
Proof.
  intros Hok Hd Hps Hp Hf Hs Hsh Hn. rewrite (stack_read _ _ _ _ _ _ _ _ _ _ Hok Hd p) by done. rewrite Hsh.
  unfold yydefault. set (st := cfg true _ _ _ _ _ _ _ _ _).
  destruct (cfg_fields true (s :: ps) (v :: pv) s v ts tk e l m) as (E1 & _ & E3 & _ & E5 & _).
  fold st in E1, E3, E5. rewrite E3, Hn. cbn [mbind option_bind]. change (0 =? -2) with false. change (0 =? 0) with true.
  cbn iota. unfold yyerror_case. rewrite E5, E1, recover_none by done. cbn.
  eexists. split; [reflexivity|]. unfold st. by destruct ts.
Qed.

(** *** Runs *)

Definition Steps (n : nat) (o o' : outcome) : Prop := forall k, yyrun (n + k) o = yyrun k o'.
Definition Stops (n : nat) (o : outcome) (e : Z) : Prop :=
  exists st, idxerrno st = e /\ forall k, yyrun (n + k) o = Some (Aborts st).
Definition good (ps : list Z) : Prop := Forall (fun s => 0 <= s < 20) ps.

Lemma steps_trans n1 n2 o1 o2 o3 : Steps n1 o1 o2 -> Steps n2 o2 o3 -> Steps (n1 + n2) o1 o3.
Proof. intros H1 H2 k. by rewrite <- Nat.add_assoc, H1, H2. Qed.

Lemma stops_after n1 n2 o1 o2 e : Steps n1 o1 o2 -> Stops n2 o2 e -> Stops (n1 + n2) o1 e.
Proof. intros H1 (st & He & H2). exists st. split; [done|]. intros k. by rewrite <- Nat.add_assoc, H1, H2. Qed.

Lemma step_one st o : yy_stack st = Some o -> Steps 1 (Goes st) o.
Proof. intros H k. cbn. by rewrite H. Qed.

Lemma stop_one st st' e : yy_stack st = Some (Aborts st') -> idxerrno st' = e -> Stops 1 (Goes st) e.
Proof. intros H He. exists st'. split; [done|]. intros k. cbn. rewrite H. by destruct k. Qed.

Lemma yys_cfg la ps pv s v ts tk e l m : yys (cfg la ps pv s v ts tk e l m) = ps.
Proof. by destruct la, ts. Qed.
Lemma yyv_cfg la ps pv s v ts tk e l m : yyv (cfg la ps pv s v ts tk e l m) = pv.
Proof. by destruct la, ts. Qed.
Lemma val_cfg la ps pv s v v' ts tk e l m :
  set_val (cfg la ps pv s v ts tk e l m) v' = cfg la ps pv s v' ts tk e l m.
Proof. by destruct la, ts. Qed.
Lemma out_cfg la ps pv s v ts tk e l m l' m' :
  set_out (cfg la ps pv s v ts tk e l m) l' m' = cfg la ps pv s v ts tk e l' m'.
Proof. by destruct la, ts. Qed.
Lemma limit_cfg la ps pv s v ts tk e l m : out_limit (cfg la ps pv s v ts tk e l m) = m.
Proof. by destruct la, ts. Qed.

Create Rewrite HintDb cfg.
Hint Rewrite yys_cfg yyv_cfg val_cfg out_cfg limit_cfg cfg_stack cfg_goto : cfg.

(** Carry out a reduction by a rule that is given. *)
Ltac do_reduce H :=
  unfold reduce; tab; autorewrite with cfg;
  match goal with |- context [Z.to_nat (Z.shiftr ?x 1)] =>
    let v := eval vm_compute in (Z.to_nat (Z.shiftr x 1)) in change (Z.to_nat (Z.shiftr x 1)) with v end;
  cbn [drop head mbind option_bind]; rewrite H; cbn [mbind option_bind Nat.eqb Nat.sub lookup list_lookup default];
  autorewrite with cfg;
  match goal with |- context [Z.testbit ?x 0] => change (Z.testbit x 0) with true end; cbn iota;
  unfold action; cbn [lookup list_lookup mbind option_bind get_ival get_idx get_ptr]; autorewrite with cfg.

Ltac in_list := repeat (first [left; reflexivity|right]).

(** States in which the automaton wants a number. *)
Definition number_at (s g : Z) : Prop := (s, g) ∈ [(3, 8); (13, 8); (9, 16); (14, 18); (15, 19); (4, 11)].

Lemma icon_steps s g la ps pv v ts tk e l m a ts' :
  number_at s g -> Forall tok_ok ts -> (length ps + length ts < 150)%nat -> icon ts = Some (a, ts') ->
  exists tk', Steps 2 (Goes (cfg la ps pv s v ts tk e l m))
    (Goes (cfg false (s :: ps) (v :: pv) g (Ival a) ts' tk' e l m)) /\ length ts = S (length ts') /\ Forall tok_ok ts'.
Proof.
  intros Hs Hok Hd Hi. destruct ts as [|t ts]; [done|]. cbn in Hi.
  destruct (Z.eqb_spec (tcode t) ICON) as [Et|]; [|done]. destruct (ttext t) as [w|] eqn:Ew; [|done].
  injection Hi as <- <-. exists (Some w). pose proof Hok as [_ Hts]%Forall_cons. split; [|done].
  assert (Hsh : exists p, at_ yypact s = Some p /\ YYFLAG < p /\ s ∈ states /\ shift_table s ICON = Some 10 /\
    goto 5 s = Some g).
  { unfold number_at in Hs. repeat (apply elem_of_cons in Hs as [Hs|Hs]; [injection Hs as -> ->;
      eexists; split; [reflexivity|]; split; [done|]; split; [in_list|]; split; reflexivity|]).
    by apply elem_of_nil in Hs. }
  destruct Hsh as (p & Hp & Hf & Hin & Hsh & Hg). apply (steps_trans 1 1 _ (Goes (cfg false (s :: ps) (v :: pv) 10 Undef ts (Some w) e l m))).
  - apply step_one. rewrite (stack_shift _ _ _ _ _ _ _ _ _ _ _ p 10); try done; [unfold s_lookup; by rewrite Ew|simpl in *; lia|by rewrite Et].
  - apply step_one. rewrite (stack_default) with (n := 12); [|simpl in *; lia|done..].
    do_reduce Hg. by destruct ts.
Qed.

Lemma icon_none ts : Forall tok_ok ts -> icon ts = None -> peek ts <> 1.
Proof.
  intros Hok Hi. destruct ts as [|t ts]; [done|]. apply Forall_cons in Hok as [[_ Ht] _]. cbn in *. intros E.
  rewrite E in Hi. change (1 =? ICON) with true in Hi. cbn iota in Hi. destruct (Ht E) as [w Hw]. by rewrite Hw in Hi.
Qed.

Lemma icon_stops s la ps pv v ts tk e l m :
  s = 9 \/ s = 14 \/ s = 4 -> good ps -> Forall tok_ok ts -> (length ps < 150)%nat -> icon ts = None ->
  Stops 1 (Goes (cfg la ps pv s v ts tk e l m)) e.
Proof.
  intros Hs Hg Hok Hd Hi. pose proof (icon_none ts Hok Hi) as Hp.
  assert (H : exists p, at_ yypact s = Some p /\ YYFLAG < p /\ s ∈ states /\ 0 <= s < 20 /\
    shift_table s (peek ts) = None /\ at_ yydef s = Some 0).
  { destruct Hs as [->|[->| ->]]; (eexists; split; [reflexivity|]; split; [done|]; split; [in_list|]; split; [lia|];
      split; [|reflexivity]; cbn; by destruct (Z.eqb_spec (peek ts) 1)). }
  destruct H as (p & Hpa & Hf & Hin & Hb & Hsh & Hdef).
  destruct (stack_error la ps pv s v ts tk e l m p) as (st & H & He); try done.
  - by apply Forall_cons.
  - by eapply stop_one.
Qed.

Lemma next_is_some c ts ts' :
  next_is c ts = Some ts' -> exists t, ts = t :: ts' /\ tcode t = code c.
Proof.
  destruct ts as [|t ts]; [done|]. cbn. destruct (Z.eqb_spec (tcode t) (code c)); [|done]. intros [= ->]. eauto.
Qed.

Lemma next_is_none c ts : code c <> 0 -> next_is c ts = None -> peek ts <> code c.
Proof. intros Hc. destruct ts as [|t ts]; cbn; [done|]. by destruct (Z.eqb_spec (tcode t) (code c)). Qed.

(** The two states before an index. *)
Definition index_at (s : Z) : Prop := s = 3 \/ s = 13.

(** A step of the automaton that shifts the character [c]. *)
Lemma char_steps c s n la ps pv v ts ts' tk e l m :
  next_is c ts = Some ts' -> (exists p, at_ yypact s = Some p /\ YYFLAG < p) -> s ∈ states ->
  shift_table s (code c) = Some n -> Forall tok_ok ts -> (length ps + length ts < 150)%nat ->
  exists tk', Steps 1 (Goes (cfg la ps pv s v ts tk e l m))
    (Goes (cfg false (s :: ps) (v :: pv) n Undef ts' tk' e l m)) /\ length ts = S (length ts') /\ Forall tok_ok ts'.
Proof.
  intros (t & -> & Et)%next_is_some (p & Hp & Hf) Hs Hsh Hok Hd. pose proof Hok as [_ Hts]%Forall_cons.
  eexists. split; [|done]. apply step_one. rewrite (stack_shift _ _ _ _ _ _ _ _ _ _ _ p n); try done;
    [simpl in *; lia|by rewrite Et].
Qed.

Ltac pact := eexists; split; [reflexivity|done].

Lemma good_cons s ps : 0 <= s < 20 -> good ps -> good (s :: ps).
Proof. intros. by apply Forall_cons. Qed.

(** After the first number of a region, in state 8. *)
Lemma dash_steps s ps pv v a ts tk e l m :
  goto 2 s = Some 7 -> good ps -> Forall tok_ok ts -> (S (length ps) + length ts < 150)%nat ->
  let '(b, ts') := match next_is "-" ts with
                   | Some ts => match icon ts with Some (b, ts) => (b, ts) | None => (INFINIT_INT, ts) end
                   | None => (a, ts)
                   end in
  exists n la' tk', Steps n (Goes (cfg false (s :: ps) (v :: pv) 8 (Ival a) ts tk e l m))
      (Goes (cfg la' (s :: ps) (v :: pv) 7 (IdxType (IdxList a b 1)) ts' tk' e l m)) /\
    Forall tok_ok ts' /\ (n <= 1 + 3 * (length ts - length ts'))%nat /\ (length ts' <= length ts)%nat.
Proof.
  intros Hg2 Hg Hok Hd. destruct (next_is "-" ts) as [ts2|] eqn:En1.
  - destruct (char_steps "-" 8 15 false (s :: ps) (v :: pv) (Ival a) ts ts2 tk e l m) as (tk2 & H2 & El2 & Hok2);
      try done; [pact|in_list|].
    destruct (icon ts2) as [[b ts3]|] eqn:Ei2.
    + destruct (icon_steps 15 19 false (8 :: s :: ps) (Ival a :: v :: pv) Undef ts2 tk2 e l m b ts3)
        as (tk3 & H3 & El3 & Hok3); [unfold number_at; in_list|done|simpl in *; lia|done|].
      exists 4%nat, false, tk3. split; [|split; [done|lia]].
      apply (steps_trans 1 3 _ _ _ H2), (steps_trans 2 1 _ _ _ H3), step_one.
      rewrite stack_default with (n := 11); [|simpl in *; lia|done..]. by do_reduce Hg2.
    + exists 2%nat, true, tk2. split; [|split; [done|lia]].
      apply (steps_trans 1 1 _ _ _ H2), step_one. pose proof (icon_none _ Hok2 Ei2).
      rewrite stack_reduce with (p := 7) (n := 10); try done; [by do_reduce Hg2|simpl in *; lia|in_list|].
      cbn. by destruct (Z.eqb_spec (peek ts2) 1).
  - apply next_is_none in En1; [|done]. exists 1%nat, true, tk. split; [|split; [done|lia]]. apply step_one.
    rewrite stack_reduce with (p := -41) (n := 8); try done; [by do_reduce Hg2|simpl in *; lia|in_list|].
    cbn. change (code "-") with 45 in En1. by destruct (Z.eqb_spec (peek ts) 45).
Qed.

Lemma region_steps s la ps pv v ts tk e l m :
  index_at s -> good ps -> Forall tok_ok ts -> (length ps + length ts < 150)%nat ->
  match region ts with
  | Some (a, b, ts') => exists n la' tk',
      Steps n (Goes (cfg la ps pv s v ts tk e l m))
        (Goes (cfg la' (s :: ps) (v :: pv) 7 (IdxType (IdxList a b 1)) ts' tk' e l m)) /\
      Forall tok_ok ts' /\ (n <= 3 * (length ts - length ts'))%nat /\ (length ts' < length ts)%nat
  | None => exists n, Stops n (Goes (cfg la ps pv s v ts tk e l m)) e /\ (n <= 2)%nat
  end.
Proof.
  intros Hs Hg Hok Hd. unfold region.
  assert (Hst : 0 <= s < 20 /\ s ∈ states /\ goto 2 s = Some 7 /\ number_at s 8 /\ at_ yypact s = Some 2 /\
    at_ yydef s = Some 0 /\ forall c, shift_table s c = if c =? 1 then Some 10 else if c =? 45 then Some 9 else None).
  { destruct Hs as [->| ->]; (split; [lia|]; split; [in_list|]; split; [reflexivity|];
      split; [unfold number_at; in_list|]; done). }
  destruct Hst as (Hb & Hin & Hg2 & Hnum & Hpact & Hdef & Hsh).
  destruct (next_is "-" ts) as [ts1|] eqn:En.
  - destruct (char_steps "-" s 9 la ps pv v ts ts1 tk e l m) as (tk1 & H1 & El & Hok1); try done; [by exists 2|].
    destruct (icon ts1) as [[b ts2]|] eqn:Ei; cbn [mbind option_bind].
    + destruct (icon_steps 9 16 false (s :: ps) (v :: pv) Undef ts1 tk1 e l m b ts2) as (tk2 & H2 & El2 & Hok2);
        [unfold number_at; in_list|done|simpl in *; lia|done|].
      exists 4%nat, false, tk2. split; [|split; [done|lia]]. apply (steps_trans 1 3 _ _ _ H1).
      apply (steps_trans 2 1 _ _ _ H2), step_one. rewrite stack_default with (n := 9); [|simpl in *; lia|done..].
      by do_reduce Hg2.
    + exists 2%nat. split; [|lia]. apply (stops_after 1 1 _ _ _ H1). apply icon_stops; eauto using good_cons; simpl in *; lia.
  - apply next_is_none in En; [|done]. destruct (icon ts) as [[a ts1]|] eqn:Ei; cbn [mbind option_bind].
    + destruct (icon_steps s 8 la ps pv v ts tk e l m a ts1) as (tk1 & H1 & El & Hok1); try done.
      pose proof (dash_steps s ps pv v a ts1 tk1 e l m Hg2 Hg Hok1 ltac:(lia)) as H2.
      replace (match next_is "-" ts1 with
        | Some ts => Some (match icon ts with Some (b, ts) => (a, b, ts) | None => (a, INFINIT_INT, ts) end)
        | None => Some (a, a, ts1) end)
        with (let '(b, ts') := match next_is "-" ts1 with
          | Some ts => match icon ts with Some (b, ts) => (b, ts) | None => (INFINIT_INT, ts) end
          | None => (a, ts1) end in Some (a, b, ts'))
        by (destruct (next_is "-" ts1) as [ts2|]; [by destruct (icon ts2) as [[]|]|done]).
      destruct (match next_is "-" ts1 with Some _ => _ | None => _ end) as [b ts'].
      destruct H2 as (n & la' & tk' & H2 & Hok2 & Hn & Hl). exists (2 + n)%nat, la', tk'.
      split; [exact (steps_trans _ _ _ _ _ H1 H2)|split; [done|lia]].
    + exists 1%nat. split; [|lia]. pose proof (icon_none _ Hok Ei). change (code "-") with 45 in En.
      destruct (stack_error la ps pv s v ts tk e l m 2) as (st & H' & He); try done; [lia|by apply good_cons| |by eapply stop_one].
      rewrite Hsh. destruct (Z.eqb_spec (peek ts) 1), (Z.eqb_spec (peek ts) 45); done.
Qed.

(** Reductions 6 and 7 check the bounds. *)
Lemma bounds_step st o i n :
  yy_stack st = Some (check_bounds o i) -> n = 1%nat ->
  if bounded i then Steps n (Goes st) (Goes (set_val o (IdxType i))) else Stops n (Goes st) IDX_BOUND.
Proof.
  intros H ->. unfold check_bounds in H. destruct (bounded i); [by apply step_one|]. by eapply stop_one.
Qed.

Lemma colon_steps s la ps pv v a b ts tk e l m :
  index_at s -> good ps -> Forall tok_ok ts -> (S (length ps) + length ts < 150)%nat ->
  match (match next_is ":" ts with Some ts => icon ts | None => Some (1, ts) end) with
  | None => exists n, Stops n (Goes (cfg la (s :: ps) (v :: pv) 7 (IdxType (IdxList a b 1)) ts tk e l m)) e /\ (n <= 2)%nat
  | Some (k, ts') => exists n la' tk',
      (if bounded (IdxList a b k)
       then Steps n (Goes (cfg la (s :: ps) (v :: pv) 7 (IdxType (IdxList a b 1)) ts tk e l m))
              (Goes (cfg la' (s :: ps) (v :: pv) 6 (IdxType (IdxList a b k)) ts' tk' e l m))
       else Stops n (Goes (cfg la (s :: ps) (v :: pv) 7 (IdxType (IdxList a b 1)) ts tk e l m)) IDX_BOUND) /\
      Forall tok_ok ts' /\ (n <= 1 + 3 * (length ts - length ts'))%nat /\ (length ts' <= length ts)%nat
  end.
Proof.
  intros Hs Hg Hok Hd. assert (Hg1 : goto 1 s = Some 6 /\ 0 <= s < 20) by (destruct Hs as [->| ->]; done).
  destruct Hg1 as [Hg1 Hb]. destruct (next_is ":" ts) as [ts1|] eqn:En.
  - destruct (char_steps ":" 7 14 la (s :: ps) (v :: pv) (IdxType (IdxList a b 1)) ts ts1 tk e l m) as (tk1 & H1 & El & Hok1);
      try done; [pact|in_list|].
    destruct (icon ts1) as [[k ts2]|] eqn:Ei.
    + destruct (icon_steps 14 18 false (7 :: s :: ps) (IdxType (IdxList a b 1) :: v :: pv) Undef ts1 tk1 e l m k ts2)
        as (tk2 & H2 & El2 & Hok2); [unfold number_at; in_list|done|simpl in *; lia|done|].
      exists 4%nat, false, tk2. split; [|split; [done|lia]]. pose proof (steps_trans 1 2 _ _ _ H1 H2) as H12.
      pose proof (bounds_step (cfg false (14 :: 7 :: s :: ps) (Undef :: IdxType (IdxList a b 1) :: v :: pv) 18 (Ival k) ts2 tk2 e l m)
        (cfg false (s :: ps) (v :: pv) 6 (IdxType (IdxList a b 1)) ts2 tk2 e l m) (IdxList a b k) 1) as H3.
      rewrite val_cfg in H3. destruct (bounded (IdxList a b k)).
      * apply (steps_trans 3 1 _ _ _ H12), H3; [|done]. rewrite stack_default with (n := 7); [|simpl in *; lia|done..].
        by do_reduce Hg1.
      * apply (stops_after 3 1 _ _ _ H12), H3; [|done]. rewrite stack_default with (n := 7); [|simpl in *; lia|done..].
        by do_reduce Hg1.
    + exists 2%nat. split; [|lia]. apply (stops_after 1 1 _ _ _ H1). apply icon_stops; [by eauto|..|done]; [|done|simpl in *; lia].
      apply good_cons; [lia|]. by apply good_cons.
  - apply next_is_none in En; [|done]. change (code ":") with 58 in En.
    exists 1%nat, true, tk. split; [|split; [done|lia]].
    pose proof (bounds_step (cfg la (s :: ps) (v :: pv) 7 (IdxType (IdxList a b 1)) ts tk e l m)
      (cfg true (s :: ps) (v :: pv) 6 (IdxType (IdxList a b 1)) ts tk e l m) (IdxList a b 1) 1) as H3.
    rewrite val_cfg in H3. apply H3; [|done].
    rewrite stack_reduce with (p := -56) (n := 6); try done; [by do_reduce Hg1|simpl in *; lia|in_list|].
    cbn. by destruct (Z.eqb_spec (peek ts) 58).
Qed.

Lemma index_steps s la ps pv v ts tk e l m :
  index_at s -> good ps -> Forall tok_ok ts -> (length ps + length ts < 150)%nat ->
  match index e ts with
  | inr (i, ts') => exists n la' tk',
      Steps n (Goes (cfg la ps pv s v ts tk e l m)) (Goes (cfg la' (s :: ps) (v :: pv) 6 (IdxType i) ts' tk' e l m)) /\
      Forall tok_ok ts' /\ (n <= 4 * (length ts - length ts'))%nat /\ (length ts' < length ts)%nat
  | inl e' => exists n, Stops n (Goes (cfg la ps pv s v ts tk e l m)) e' /\ (n <= 4 * length ts + 2)%nat
  end.
Proof.
  intros Hs Hg Hok Hd. pose proof (region_steps s la ps pv v ts tk e l m Hs Hg Hok Hd) as H1. unfold index.
  destruct (region ts) as [[[a b] ts1]|].
  - destruct H1 as (n1 & la1 & tk1 & H1 & Hok1 & Hn1 & Hl1).
    pose proof (colon_steps s la1 ps pv v a b ts1 tk1 e l m Hs Hg Hok1 ltac:(lia)) as H2.
    destruct (match next_is ":" ts1 with Some ts => icon ts | None => Some (1, ts1) end) as [[k ts2]|].
    + destruct H2 as (n2 & la2 & tk2 & H2 & Hok2 & Hn2 & Hl2). destruct (bounded (IdxList a b k)).
      * exists (n1 + n2)%nat, la2, tk2. split; [by eapply steps_trans|]. split; [done|lia].
      * exists (n1 + n2)%nat. split; [by eapply stops_after|lia].
    + destruct H2 as (n2 & H2 & Hn2). exists (n1 + n2)%nat. split; [by eapply stops_after|lia].
  - destruct H1 as (n & H1 & Hn). exists n. split; [done|lia].
Qed.

Lemma indices_steps fuel s la ps pv v ts tk e l m :
  (length ts < fuel)%nat -> index_at s -> good ps -> Forall tok_ok ts -> (length ps + length ts < 150)%nat ->
  match indices fuel e ts with
  | inr (il, ts') => exists n la' tk',
      Steps n (Goes (cfg la ps pv s v ts tk e l m))
        (Goes (cfg la' (s :: ps) (v :: pv) (if s =? 3 then 5 else 17) (IdxPtr il) ts' tk' e l m)) /\
      Forall tok_ok ts' /\ (n <= 5 * (length ts - length ts'))%nat /\ (length ts' < length ts)%nat
  | inl e' => exists n, Stops n (Goes (cfg la ps pv s v ts tk e l m)) e' /\ (n <= 5 * length ts + 2)%nat
  end.
Proof.
  revert s la ps pv v ts tk. induction fuel as [|fuel IH]; intros s la ps pv v ts tk Hf Hs Hg Hok Hd; [lia|].
  assert (Hg3 : goto 3 s = Some (if s =? 3 then 5 else 17) /\ 0 <= s < 20) by (destruct Hs as [->| ->]; done).
  destruct Hg3 as [Hg3 Hb]. pose proof (index_steps s la ps pv v ts tk e l m Hs Hg Hok Hd) as H1. cbn [indices].
  destruct (index e ts) as [e'|[i ts1]]; [destruct H1 as (n & H1 & Hn); exists n; split; [done|lia]|].
  destruct H1 as (n1 & la1 & tk1 & H1 & Hok1 & Hn1 & Hl1). destruct (next_is "," ts1) as [ts2|] eqn:En.
  - destruct (char_steps "," 6 13 la1 (s :: ps) (v :: pv) (IdxType i) ts1 ts2 tk1 e l m) as (tk2 & H2 & El & Hok2);
      try done; [pact|in_list|simpl in *; lia|].
    pose proof (IH 13 false (6 :: s :: ps) (IdxType i :: v :: pv) Undef ts2 tk2 ltac:(lia) (or_intror eq_refl)
      (good_cons 6 _ ltac:(lia) (good_cons s _ Hb Hg)) Hok2 ltac:(simpl in *; lia)) as H3.
    pose proof (steps_trans _ _ _ _ _ H1 H2) as H12. destruct (indices fuel e ts2) as [e'|[il ts3]].
    + destruct H3 as (n3 & H3 & Hn3). eexists. split; [by eapply stops_after|lia].
    + destruct H3 as (n3 & la3 & tk3 & H3 & Hok3 & Hn3 & Hl3).
      exists (n1 + 1 + n3 + 1)%nat, la3, tk3. split; [|split; [done|lia]]. pose proof (steps_trans _ _ _ _ _ H12 H3) as H.
      apply (steps_trans _ 1 _ _ _ H), step_one. change (if 13 =? 3 then 5 else 17) with 17.
      rewrite stack_default with (n := 5); [|simpl in *; lia|done..]. by do_reduce Hg3.
  - apply next_is_none in En; [|done]. change (code ",") with 44 in En.
    exists (n1 + 1)%nat, true, tk1. split; [|split; [done|lia]]. apply (steps_trans _ 1 _ _ _ H1), step_one.
    rewrite stack_reduce with (p := -39) (n := 4); try done; [by do_reduce Hg3|simpl in *; lia|in_list|].
    cbn. by destruct (Z.eqb_spec (peek ts1) 44).
Qed.

(** State 1 accepts at the end of the text. *)
Lemma accept_step la v ts tk e l m :
  Forall tok_ok ts ->
  match ts with
  | [] => exists st, yy_stack (cfg la [0] [Undef] 1 v ts tk e l m) = Some (Accepts st) /\
                     out_list st = l /\ out_limit st = m /\ idxerrno st = e
  | _ => exists st, yy_stack (cfg la [0] [Undef] 1 v ts tk e l m) = Some (Aborts st) /\ idxerrno st = e
  end.
Proof.
  intros Hok. rewrite stack_enter by (simpl; lia). unfold yy_newstate, yydefault.
  destruct (cfg_fields la [1; 0] [v; Undef] 1 v ts tk e l m) as (_ & _ & E & _). rewrite E. tab.
  change (YYFLAG <=? YYFLAG) with true. change (-2 =? -2) with true. cbn iota. rewrite read_cfg by done.
  destruct (cfg_fields true [1; 0] [v; Undef] 1 v ts tk e l m) as (E1 & _ & E3 & _ & E5 & E6). rewrite E3, E6 by done.
  change (exca_find 3 0 1) with (Some 0). cbn [mbind option_bind]. destruct ts as [|t ts].
  - eexists. split; [reflexivity|]. done.
  - apply Forall_cons in Hok as [[Ht _] _]. cbn [peek exca_action].
    change (at_ yyexca (0 + 2)) with (Some 0). cbn [mbind option_bind]. change (0 <=? 0) with true. cbn [andb].
    destruct (Z.eqb_spec 0 (tcode t)); [lia|]. cbn [negb]. change (at_ yyexca (0 + 2 + 2)) with (Some (-2)).
    change (at_ yyexca (0 + 2 + 3)) with (Some 0). cbn. eexists. split; [reflexivity|done].
Qed.

(** The parse comes to the end [r], an error or the list and the limit. *)
Definition Ends (e : Z) (n : nat) (o : outcome) (r : Z + list idxList * Z) : Prop :=
  match r with
  | inl e' => Stops n o e'
  | inr (il, m) => exists st, (forall k, yyrun (n + k) o = Some (Accepts st)) /\
                     out_list st = il /\ out_limit st = m /\ idxerrno st = e
  end.

Lemma ends_after e n1 n2 o1 o2 r : Steps n1 o1 o2 -> Ends e n2 o2 r -> Ends e (n1 + n2) o1 r.
Proof.
  intros H1 H2. destruct r as [e'|[il m]]; [by eapply stops_after|]. destruct H2 as (st & H2 & E).
  exists st. split; [|done]. intros k. by rewrite <- Nat.add_assoc, H1, H2.
Qed.

Lemma accept_ends la v ts tk e l m :
  Forall tok_ok ts ->
  Ends e 1 (Goes (cfg la [0] [Undef] 1 v ts tk e l m)) (match ts with [] => inr (l, m) | _ => inl e end).
Proof.
  intros Hok. pose proof (accept_step la v ts tk e l m Hok) as H. destruct ts as [|t ts].
  - destruct H as (st & H & E). exists st. split; [|done]. intros k. cbn [yyrun Nat.add]. rewrite H. by destruct k.
  - destruct H as (st & H & E). by eapply stop_one.
Qed.

Definition limit_spec (e m : Z) (il : list idxList) (ts : list tok) : Z + list idxList * Z :=
  match ts with
  | [] => inr (il, m)
  | _ => match next_is "%" ts ≫= icon with Some (m, []) => inr (il, m) | _ => inl e end
  end.

Lemma limit_ends la il ts tk e l m :
  Forall tok_ok ts -> (length ts < 140)%nat ->
  exists n, Ends e n (Goes (cfg la [0] [Undef] 2 (IdxPtr il) ts tk e l m)) (limit_spec e m il ts) /\ (n <= 5)%nat.
Proof.
  intros Hok Hd. unfold limit_spec. destruct (next_is "%" ts) as [ts1|] eqn:En; cbn [mbind option_bind].
  - destruct (char_steps "%" 2 4 la [0] [Undef] (IdxPtr il) ts ts1 tk e l m) as (tk1 & H1 & El & Hok1);
      try done; [pact|in_list|simpl; lia|].
    destruct ts as [|t0 ts0]; [done|]. destruct (icon ts1) as [[m' ts2]|] eqn:Ei.
    + destruct (icon_steps 4 11 false [2; 0] [IdxPtr il; Undef] Undef ts1 tk1 e l m m' ts2) as (tk2 & H2 & El2 & Hok2);
        [unfold number_at; in_list|done|simpl in *; lia|done|].
      assert (H3 : Steps 1 (Goes (cfg false [4; 2; 0] [Undef; IdxPtr il; Undef] 11 (Ival m') ts2 tk2 e l m))
        (Goes (cfg false [0] [Undef] 1 (IdxPtr il) ts2 tk2 e il m'))).
      { apply step_one. rewrite stack_default with (n := 2); [|simpl; lia|done..]. by do_reduce (eq_refl : goto 6 0 = Some 1). }
      exists (1 + 2 + 1 + 1)%nat. split; [|lia]. eapply ends_after; [exact (steps_trans _ _ _ _ _ (steps_trans _ _ _ _ _ H1 H2) H3)|].
      pose proof (accept_ends false (IdxPtr il) ts2 tk2 e il m' Hok2) as H. by destruct ts2.
    + exists 2%nat. split; [|lia]. eapply (stops_after 1 1 _ _ _ H1), icon_stops; [by eauto| |done|simpl; lia|done].
      apply good_cons; [lia|]. apply good_cons; [lia|constructor].
  - apply next_is_none in En; [|done]. change (code "%") with 37 in En.
    assert (H1 : Steps 1 (Goes (cfg la [0] [Undef] 2 (IdxPtr il) ts tk e l m))
        (Goes (cfg true [0] [Undef] 1 (IdxPtr il) ts tk e il m))).
    { apply step_one. rewrite stack_reduce with (p := -31) (n := 1); try done;
        [by do_reduce (eq_refl : goto 6 0 = Some 1)|simpl; lia|in_list|]. cbn. by destruct (Z.eqb_spec (peek ts) 37). }
    exists (1 + 1)%nat. split; [|lia]. eapply ends_after; [exact H1|].
    pose proof (accept_ends true (IdxPtr il) ts tk e il m Hok) as H. by destruct ts.
Qed.

(** From the list of indices, over the closing bracket, to the end. *)
Lemma close_ends la il ts tk e m :
  Forall tok_ok ts -> (length ts < 140)%nat ->
  exists n, Ends e n (Goes (cfg la [3; 0] [Undef; Undef] 5 (IdxPtr il) ts tk e [] m))
    (match next_is "]" ts with Some ts => limit_spec e m il ts | None => inl e end) /\ (n <= 7)%nat.
Proof.
  intros Hok Hd. destruct (next_is "]" ts) as [ts1|] eqn:En.
  - destruct (char_steps "]" 5 12 la [3; 0] [Undef; Undef] (IdxPtr il) ts ts1 tk e [] m) as (tk1 & H1 & El & Hok1);
      try done; [pact|in_list|simpl; lia|].
    assert (H2 : Steps 1 (Goes (cfg false [5; 3; 0] [IdxPtr il; Undef; Undef] 12 Undef ts1 tk1 e [] m))
      (Goes (cfg false [0] [Undef] 2 (IdxPtr il) ts1 tk1 e [] m))).
    { apply step_one. rewrite stack_default with (n := 3); [|simpl; lia|done..]. by do_reduce (eq_refl : goto 4 0 = Some 2). }
    destruct (limit_ends false il ts1 tk1 e [] m Hok1 ltac:(lia)) as (n & H3 & Hn).
    exists (1 + 1 + n)%nat. split; [|lia]. eapply ends_after; [exact (steps_trans _ _ _ _ _ H1 H2)|exact H3].
  - apply next_is_none in En; [|done]. change (code "]") with 93 in En.
    destruct (stack_error la [3; 0] [Undef; Undef] 5 (IdxPtr il) ts tk e [] m (-93)) as (st & H3 & He);
      try done; [simpl; lia|repeat constructor; lia|in_list|cbn; by destruct (Z.eqb_spec (peek ts) 93)|].
    exists 1%nat. split; [by eapply stop_one|lia].
Qed.

Lemma spec_ends ts tk e m :
  Forall tok_ok ts -> (length ts < 140)%nat ->
  exists n, Ends e n (Goes (cfg false [] [] 0 Undef ts tk e [] m)) (arrayIndSpec e m ts) /\ (n <= yyfuel ts)%nat.
Proof.
  intros Hok Hd. unfold arrayIndSpec, yyfuel. destruct (next_is "[" ts) as [ts1|] eqn:En.
  - destruct (char_steps "[" 0 3 false [] [] Undef ts ts1 tk e [] m) as (tk1 & H1 & El & Hok1);
      try done; [pact|in_list|simpl; lia|].
    pose proof (indices_steps (S (length ts1)) 3 false [0] [Undef] Undef ts1 tk1 e [] m ltac:(lia) (or_introl eq_refl)
      (good_cons 0 [] ltac:(lia) ltac:(constructor)) Hok1 ltac:(simpl; lia)) as H2.
    destruct (indices (S (length ts1)) e ts1) as [e'|[il ts2]].
    + destruct H2 as (n2 & H2 & Hn2). exists (1 + n2)%nat. split; [by eapply stops_after|lia].
    + destruct H2 as (n2 & la2 & tk2 & H2 & Hok2 & Hn2 & Hl2). change (if 3 =? 3 then 5 else 17) with 5 in H2.
      destruct (close_ends la2 il ts2 tk2 e m Hok2 ltac:(lia)) as (n3 & H3 & Hn3).
      exists (1 + n2 + n3)%nat. split; [|lia]. eapply ends_after; [exact (steps_trans _ _ _ _ _ H1 H2)|].
      destruct (next_is "]" ts2) as [[|]|]; exact H3.
  - apply next_is_none in En; [|done]. change (code "[") with 91 in En.
    destruct (stack_error false [] [] 0 Undef ts tk e [] m (-90)) as (st & H3 & He);
      try done; [simpl; lia|repeat constructor; lia|in_list|cbn; by destruct (Z.eqb_spec (peek ts) 91)|].
    exists 1%nat. split; [by eapply stop_one|lia].
Qed.

(** The automaton does what the grammar says. *)
Lemma idxparse_grammar ts tk e m :
  Forall tok_ok ts -> (length ts < 140)%nat ->
  match arrayIndSpec e m ts with
  | inr (il, m') => idxparse ts tk e m = Some (0, il, m', e)
  | inl e' => exists l' m', idxparse ts tk e m = Some (1, l', m', e')
  end.
Proof.
  intros Hok Hd. destruct (spec_ends ts tk e m Hok Hd) as (n & H & Hn). unfold idxparse.
  change (YY [] [] 0 Undef (-1) 0 ts tk e [] m) with (cfg false [] [] 0 Undef ts tk e [] m).
  replace (yyfuel ts) with (n + (yyfuel ts - n))%nat by lia. destruct (arrayIndSpec e m ts) as [e'|[il m']].
  - destruct H as (st & He & H). rewrite H, <- He. cbn [mbind option_bind]. eauto.
  - destruct H as (st & H & E1 & E2 & E3). rewrite H. cbn [mbind option_bind]. by rewrite E1, E2, E3.
Qed.

(** ** The scanner *)

(** The rules are tried from the last to the first, so it is enough that one of
    them matches. *)
Lemma best_pos rs w i r : r ∈ rs -> (0 < r w)%nat -> (0 < snd (best i rs w))%nat.
Proof.
  revert i. induction rs as [|r' rs IH]; intros i Hr Hw; [by apply elem_of_nil in Hr|]. cbn.
  destruct (best (S i) rs w) as [j n] eqn:E. destruct (Nat.leb_spec n (r' w)); cbn.
  - apply elem_of_cons in Hr as [->|Hr]; [done|]. specialize (IH (S i) Hr Hw). rewrite E in IH. cbn in IH. lia.
  - lia.
Qed.

Lemma best_range rs w i : (0 < length rs)%nat -> (i <= fst (best i rs w) < i + length rs)%nat \/ fst (best i rs w) = O.
Proof.
  revert i. induction rs as [|r rs IH]; intros i H; [simpl in H; lia|]. cbn. destruct rs as [|r' rs].
  - cbn. left. lia.
  - specialize (IH (S i) ltac:(simpl; lia)). destruct (best (S i) (r' :: rs) w) as [j n]. cbn [fst] in IH.
    case_match; cbn; destruct IH as [IH|IH]; simpl in *; [left; lia|left; lia|left; lia|by right].
Qed.

Lemma best_nonzero rs w i : (0 < snd (best i rs w))%nat -> (i <> 0)%nat -> fst (best i rs w) <> O.
Proof.
  revert i. induction rs as [|r rs IH]; intros i; [simpl; lia|]. cbn. specialize (IH (S i)).
  destruct (best (S i) rs w) as [j n]. cbn [fst snd] in IH. case_match; cbn; [done|]. intros. apply IH; lia.
Qed.

Lemma yylook_pos c w : (0 < snd (yylook (c :: w)))%nat.
Proof.
  unfold yylook. destruct (newline c) eqn:E.
  - apply (best_pos _ _ _ (span is_white)); [unfold rules; in_list|]. cbn. unfold newline in E. unfold is_white.
    rewrite E, !orb_true_r. lia.
  - eapply best_pos; [unfold rules; do 14 right; left; reflexivity|]. cbn. rewrite E. lia.
Qed.

Lemma screen_total w : exists t, screen w = Some t.
Proof.
  unfold screen. generalize (set_lower w). clear w. intros w.
  assert (H : forall k low high, 0 <= low -> high < 48 -> high - low + 1 < 2 ^ Z.of_nat k ->
    exists t, screen_loop (S k) low high w = Some t); [|by apply H].
  induction k as [|k IH]; intros low high Hl Hh Hf; cbn [screen_loop].
  - cbn in Hf. destruct (Z.ltb_spec high low); [eauto|lia].
  - destruct (Z.ltb_spec high low); [eauto|]. rewrite Nat2Z.inj_succ, Z.pow_succ_r in Hf by lia.
    pose proof (Z.div_mod (high - low) 2 ltac:(lia)) as Hd. pose proof (Z.mod_pos_bound (high - low) 2 ltac:(lia)).
    set (h := (high - low) / 2) in *. destruct (lookup_lt_is_Some_2 rwtable (Z.to_nat (low + h))) as [[nm t] E].
    { change (length rwtable) with 48%nat. lia. }
    rewrite E. cbn [mbind option_bind]. case_match; [eauto|]. case_match; apply IH; lia.
Qed.

Lemma screen_token w t : screen w = Some t -> 0 < t /\ t <> ICON.
Proof.
  unfold screen. generalize (set_lower w) 8%nat (Z.of_nat (length rwtable) - 1). clear w. intros w fuel high.
  set (low := 0) at 1. clearbody low. revert low high. induction fuel as [|k IH]; intros low high; cbn [screen_loop]; [done|]. destruct (high <? low); [intros E%(inj Some); unfold NAME, ICON in *; lia|].
  destruct (rwtable !! Z.to_nat (low + (high - low) / 2)) as [[nm t']|] eqn:E; [|done]. cbn [mbind option_bind].
  case_match; [|case_match; apply IH]. intros [= ->]. apply list_elem_of_lookup_2 in E.
  assert (Hall : forallb (fun p => (0 <? snd p) && negb (snd p =? ICON)) rwtable = true) by (vm_compute; reflexivity).
  rewrite forallb_forall in Hall. specialize (Hall (nm, t)). rewrite <- list_elem_of_In in Hall.
  specialize (Hall E). cbn in Hall. bool_prop. split; [lia|]. intros ->. done.
Qed.

(** The scanner always comes to the end, with no more tokens than characters. *)
Lemma yylex_total fuel w :
  (length w < fuel)%nat -> Forall (fun c => code c <> 1) w ->
  exists ts, yylex fuel w = Some ts /\ Forall tok_ok ts /\ (length ts <= length w)%nat.
Proof.
  revert w. induction fuel as [|k IH]; intros w Hf Hw; [lia|]. cbn [yylex]. destruct w as [|c w]; [by exists []|].
  destruct (Z.eqb_spec (code c) 0) as [|Hc]; [exists []; split; [done|]; split; [constructor|simpl; lia]|].
  pose proof (yylook_pos c w) as Hp. pose proof (best_range rules (c :: w) 1 ltac:(simpl; lia)) as Hr.
  fold (yylook (c :: w)) in Hr. change (length rules) with 15%nat in Hr.
  pose proof (fun H => best_nonzero rules (c :: w) 1 H ltac:(done)) as Hz. fold (yylook (c :: w)) in Hz.
  destruct (yylook (c :: w)) as [nstr n] eqn:El. cbn [fst snd] in *.
  destruct (IH (drop n (c :: w))) as (ts & E & Hok & Hl); [rewrite length_drop; simpl in *; lia|by apply Forall_drop|].
  rewrite length_drop in Hl. rewrite E. cbn [mbind option_bind]. pose proof Hw as [Hc1 _]%Forall_cons.
  assert (Hcons : forall t, tok_ok t -> exists ts', Some (t :: ts) = Some ts' /\ Forall tok_ok ts' /\ (length ts' <= length (c :: w))%nat).
  { intros t Ht. exists (t :: ts). split; [done|]. split; [by constructor|]. simpl in *. lia. }
  assert (Hskip : exists ts', Some ts = Some ts' /\ Forall tok_ok ts' /\ (length ts' <= length (c :: w))%nat).
  { exists ts. split; [done|]. split; [done|]. lia. }
  destruct Hr as [Hr|Hr]; [|specialize (Hz ltac:(lia)); lia].
  destruct nstr as [|[|[|[|[|[|[|[|[|[|[|[|[|[|[|[|nstr]]]]]]]]]]]]]]]]; try lia; try exact Hskip;
    try (apply Hcons; split; cbn; (done || by eexists)).
  - destruct (screen_total (take n (c :: w))) as [t Et]. rewrite Et. cbn [mbind option_bind].
    destruct (screen_token _ _ Et) as [Ht1 Ht2]. by apply Hcons.
  - apply Hcons. split; cbn; [unfold code in *; lia|done].
Qed.

(** *** Scanning what has been printed *)

Definition show_idx (i : idxList) : list ascii :=
  show_num (start i) ++ "-"%char :: show_num (end_ i) ++ ":"%char :: show_num (step i).
Fixpoint show_indices (l : list idxList) : list ascii :=
  match l with
  | [] => []
  | [i] => show_idx i
  | i :: l => show_idx i ++ ","%char :: show_indices l
  end.
Definition show_spec (l : list idxList) (limit : option Z) : list ascii :=
  "["%char :: show_indices l ++ "]"%char :: match limit with Some m => "%"%char :: show_num m | None => [] end.

Definition num_tok (n : Z) : tok := Tok ICON (Some (show_num n)).
Definition chr_tok (c : ascii) : tok := Tok (code c) None.
Definition idx_toks (i : idxList) : list tok :=
  [num_tok (start i); chr_tok "-"; num_tok (end_ i); chr_tok ":"; num_tok (step i)].
Fixpoint list_toks (l : list idxList) : list tok :=
  match l with
  | [] => []
  | [i] => idx_toks i
  | i :: l => idx_toks i ++ chr_tok "," :: list_toks l
  end.

Fixpoint best_of (i : nat) (vs : list nat) : nat * nat :=
  match vs with
  | [] => (O, O)
  | v :: vs => let '(j, n) := best_of (S i) vs in if (n <=? v)%nat then (i, v) else (j, n)
  end.

Lemma best_values rs w i : best i rs w = best_of i ((fun r => r w) <$> rs).
Proof. revert i. induction rs as [|r rs IH]; intros i; [done|]. cbn. by rewrite IH. Qed.

Lemma span_all test ds r :
  Forall (fun c => test c = true) ds -> (hd_error r ≫= fun c => if test c then Some c else None) = None ->
  span test (ds ++ r) = length ds.
Proof.
  intros Hds Hr. induction Hds as [|c ds Hc _ IH]; [|cbn; by rewrite Hc, IH].
  destruct r as [|c r]; [done|]. cbn in *. by destruct (test c).
Qed.

(** The character after a numeral: no digit and no point. *)
Definition stopper (r : list ascii) : bool :=
  match r with [] => true | c :: _ => negb (is_digit c) && negb (Ascii.eqb c ".") end.

Lemma yylook_number ds r :
  ds <> [] -> Forall (fun c => is_digit c = true) ds -> stopper r = true -> yylook (ds ++ r) = (10%nat, length ds).
Proof.
  intros Hne Hds Hr. unfold yylook. rewrite best_values.
  assert (Hspan : span is_digit (ds ++ r) = length ds).
  { apply span_all; [done|]. destruct r as [|c r]; [done|]. cbn in *. destruct (is_digit c); done. }
  assert (E : ((fun rl => rl (ds ++ r)) <$> rules) =
    [0; 0; 0; 0; 0; 0; 0; 0; 0; length ds; 0; 0; 0; 0; 1]%nat).
  { destruct ds as [|d ds]; [done|]. apply Forall_cons in Hds as [Hd _]. unfold rules. cbn [fmap list_fmap].
    rewrite Hspan. cbn [length]. change (S (length ds)) with (length (d :: ds)). rewrite drop_app_length.
    replace (match r with "."%char :: w' => (length (d :: ds) + 1 + span is_digit w')%nat | _ => O end) with O
      by (destruct r as [|c r]; [done|]; cbn in Hr; destruct c as [[] [] [] [] [] [] [] []]; done).
    clear -Hd. destruct d as [[] [] [] [] [] [] [] []]; (discriminate Hd || reflexivity). }
  rewrite E. destruct ds as [|d ds]; [done|]. reflexivity.
Qed.

Lemma yylook_char c w : c ∈ chars "[]-:,%" -> yylook (c :: w) = (15%nat, 1%nat).
Proof.
  intros Hc. unfold yylook. rewrite best_values.
  repeat (apply elem_of_cons in Hc as [->|Hc]; [reflexivity|]). by apply elem_of_nil in Hc.
Qed.

Lemma scan_char c w ts : c ∈ chars "[]-:,%" -> scan w = Some ts -> scan (c :: w) = Some (chr_tok c :: ts).
Proof.
  intros Hc Hs. unfold scan in *. cbn [length]. revert Hs. generalize (S (length w)). intros f Hs. cbn [yylex].
  assert (H0 : (code c =? 0) = false).
  { repeat (apply elem_of_cons in Hc as [->|Hc]; [reflexivity|]). by apply elem_of_nil in Hc. }
  rewrite H0, yylook_char by done. cbn [drop]. rewrite drop_0, Hs. done.
Qed.

Lemma yylex_fuel n k w ts : yylex n w = Some ts -> (n <= k)%nat -> yylex k w = Some ts.
Proof.
  revert k w ts. induction n as [|n IH]; intros k w ts H Hk; [done|]. destruct k as [|k]; [lia|].
  cbn [yylex] in *. destruct w as [|c w]; [done|]. destruct (code c =? 0); [done|].
  destruct (yylook (c :: w)) as [nstr m].
  destruct (yylex n (drop m (c :: w))) as [ts'|] eqn:E.
  - rewrite (IH k _ ts' E ltac:(lia)). exact H.
  - exfalso. cbn [mbind option_bind] in H.
    destruct nstr as [|[|[|[|[|[|[|[|[|[|[|[|[|[|[|[|nstr]]]]]]]]]]]]]]]]; try done.
    destruct (screen (take m (c :: w))); done.
Qed.

Lemma scan_number n w ts : 0 <= n -> stopper w = true -> scan w = Some ts -> scan (show_num n ++ w) = Some (num_tok n :: ts).
Proof.
  intros Hn Hw Hs. destruct (show_num_reads n Hn) as (Hne & Hds & _). unfold scan in *. cbn [yylex].
  destruct (show_num n ++ w) as [|c w'] eqn:E; [by destruct (show_num n)|]. rewrite <- E.
  assert (Hc : (code c =? 0) = false).
  { destruct (show_num n) as [|d ds]; [done|]. injection E as -> _. apply Forall_cons in Hds as [Hd _].
    clear -Hd. destruct c as [[] [] [] [] [] [] [] []]; (discriminate Hd || reflexivity). }
  rewrite Hc, yylook_number by done. rewrite drop_app_length, take_app_length.
  rewrite (yylex_fuel _ _ _ _ Hs); [done|]. rewrite length_app. destruct (show_num n); [done|]. simpl. lia.
Qed.

Definition idx_ok (i : idxList) : Prop := bounded i = true /\ end_ i < 2 ^ 31 /\ step i < 2 ^ 31.

Lemma idx_ok_bounds i : idx_ok i -> 0 <= start i < 2 ^ 31 /\ 0 <= end_ i < 2 ^ 31 /\ 0 <= step i < 2 ^ 31.
Proof. intros (H & ? & ?). unfold bounded in H. bool_prop. lia. Qed.

Lemma scan_idx i w ts : idx_ok i -> stopper w = true -> scan w = Some ts -> scan (show_idx i ++ w) = Some (idx_toks i ++ ts).
Proof.
  intros Hi Hw Hs. apply idx_ok_bounds in Hi. unfold show_idx, idx_toks. rewrite <- !app_assoc, <- !app_comm_cons, <- app_assoc.
  cbn [app]. apply scan_number; [lia|done|]. apply scan_char; [in_list|]. apply scan_number; [lia|done|].
  apply scan_char; [in_list|]. by apply scan_number; [lia| |].
Qed.

Lemma scan_indices l w ts :
  Forall idx_ok l -> l <> [] -> stopper w = true -> scan w = Some ts -> scan (show_indices l ++ w) = Some (list_toks l ++ ts).
Proof.
  intros Hl Hne Hw Hs. induction Hl as [|i l Hi _ IH]; [done|]. destruct l as [|j l]; [by apply scan_idx|].
  specialize (IH ltac:(done)).
  change (show_indices (i :: j :: l)) with (show_idx i ++ ","%char :: show_indices (j :: l)).
  change (list_toks (i :: j :: l)) with (idx_toks i ++ chr_tok "," :: list_toks (j :: l)).
  rewrite <- !app_assoc, <- !app_comm_cons. apply scan_idx; [done|done|]. apply scan_char; [in_list|done].
Qed.

Lemma icon_num n ts : 0 <= n < 2 ^ 31 -> icon (num_tok n :: ts) = Some (n, ts).
Proof.
  intros H. unfold icon, num_tok. cbn [tcode ttext]. change (ICON =? ICON) with true.
  cbn [mbind option_bind]. by rewrite atoi_show.
Qed.
Lemma icon_chr c ts : c ∈ chars "[]-:,%" -> icon (chr_tok c :: ts) = None.
Proof. intros Hc. repeat (apply elem_of_cons in Hc as [->|Hc]; [reflexivity|]). by apply elem_of_nil in Hc. Qed.
Lemma next_is_num c n ts : c ∈ chars "[]-:,%" -> next_is c (num_tok n :: ts) = None.
Proof. intros Hc. repeat (apply elem_of_cons in Hc as [->|Hc]; [reflexivity|]). by apply elem_of_nil in Hc. Qed.
Lemma next_is_chr c ts : next_is c (chr_tok c :: ts) = Some ts.
Proof. unfold next_is, chr_tok. cbn [tcode]. by rewrite Z.eqb_refl. Qed.

Lemma index_toks e i ts : idx_ok i -> index e (idx_toks i ++ ts) = inr (i, ts).
Proof.
  intros Hi. destruct (idx_ok_bounds i Hi) as (H1 & H2 & H3). destruct Hi as (Hb & _).
  unfold index, region, idx_toks. cbn [app]. rewrite next_is_num by in_list. rewrite icon_num by done.
  cbn [mbind option_bind]. rewrite next_is_chr, icon_num by done. cbn iota. rewrite next_is_chr, icon_num by done.
  destruct i as [a b k]. cbn [start end_ step] in *. by rewrite Hb.
Qed.

Lemma indices_toks fuel e l t ts :
  Forall idx_ok l -> l <> [] -> (length l <= fuel)%nat -> tcode t = code "]" ->
  indices fuel e (list_toks l ++ t :: ts) = inr (l, t :: ts).
Proof.
  intros Hl. revert fuel. induction Hl as [|i l Hi _ IH]; intros fuel Hne Hf Ht; [done|].
  destruct fuel as [|fuel]; [simpl in Hf; lia|]. destruct l as [|j l].
  - cbn [indices list_toks]. rewrite index_toks by done. cbn [next_is]. by rewrite Ht.
  - change (list_toks (i :: j :: l)) with (idx_toks i ++ chr_tok "," :: list_toks (j :: l)).
    rewrite <- app_assoc. cbn [indices]. rewrite index_toks by done.
    change (next_is "," ((chr_tok "," :: list_toks (j :: l)) ++ t :: ts)) with (Some (list_toks (j :: l) ++ t :: ts)).
    cbn iota. rewrite (IH fuel); [done|done|simpl in *; lia|done].
Qed.

Lemma list_toks_length l : l <> [] -> length (list_toks l) = (6 * length l - 1)%nat.
Proof.
  induction l as [|i l IH]; [done|]. intros _. destruct l as [|j l]; [done|].
  change (list_toks (i :: j :: l)) with (idx_toks i ++ chr_tok "," :: list_toks (j :: l)).
  rewrite length_app. cbn [length]. rewrite IH by done. simpl. lia.
Qed.

Definition limit_toks (limit : option Z) : list tok :=
  match limit with Some m => [chr_tok "%"; num_tok m] | None => [] end.
Definition spec_toks (l : list idxList) (limit : option Z) : list tok :=
  chr_tok "[" :: list_toks l ++ chr_tok "]" :: limit_toks limit.

Lemma scan_tokens l limit :
  Forall idx_ok l -> l <> [] -> (forall m, limit = Some m -> 0 <= m) ->
  scan (show_spec l limit) = Some (spec_toks l limit).
Proof.
  intros Hl Hne Hm. unfold show_spec, spec_toks. apply scan_char; [in_list|]. apply scan_indices; [done|done|done|].
  apply scan_char; [in_list|]. destruct limit as [m|]; [|done]. apply scan_char; [in_list|].
  rewrite <- (app_nil_r (show_num m)). apply scan_number; [by apply Hm|done|done].
Qed.

Lemma tok_ok_num n : tok_ok (num_tok n).
Proof. split; [done|]. intros _. by eexists. Qed.
Lemma tok_ok_chr c : c ∈ chars "[]-:,%" -> tok_ok (chr_tok c).
Proof. intros Hc. repeat (apply elem_of_cons in Hc as [->|Hc]; [done|]). by apply elem_of_nil in Hc. Qed.

Lemma spec_toks_ok l limit : Forall tok_ok (spec_toks l limit).
Proof.
  apply Forall_cons. split; [apply tok_ok_chr; in_list|]. apply Forall_app. split.
  - induction l as [|i l IH]; [constructor|].
    assert (Hi : Forall tok_ok (idx_toks i)) by (repeat constructor; try done; intros _; by eexists).
    destruct l as [|j l]; [done|].
    change (list_toks (i :: j :: l)) with (idx_toks i ++ chr_tok "," :: list_toks (j :: l)).
    apply Forall_app. split; [done|]. apply Forall_cons. split; [apply tok_ok_chr; in_list|done].
  - apply Forall_cons. split; [apply tok_ok_chr; in_list|]. destruct limit; cbn; [|constructor].
    apply Forall_cons. split; [apply tok_ok_chr; in_list|]. apply Forall_cons. split; [apply tok_ok_num|constructor].
Qed.

Lemma spec_grammar e m0 l limit :
  Forall idx_ok l -> l <> [] -> (forall m, limit = Some m -> 0 <= m < 2 ^ 31) ->
  arrayIndSpec e m0 (spec_toks l limit) = inr (l, default m0 limit).
Proof.
  intros Hl Hne Hm. unfold arrayIndSpec, spec_toks.
  change (next_is "[" (chr_tok "[" :: list_toks l ++ chr_tok "]" :: limit_toks limit))
    with (Some (list_toks l ++ chr_tok "]" :: limit_toks limit)). cbn iota.
  rewrite indices_toks; [|done|done| |done].
  - change (next_is "]" (chr_tok "]" :: limit_toks limit)) with (Some (limit_toks limit)). cbn iota.
    destruct limit as [m|]; [|done]. cbn [limit_toks]. rewrite next_is_chr. cbn [mbind option_bind].
    by rewrite icon_num by (by apply Hm).
  - rewrite length_app, list_toks_length by done. simpl. destruct l; [done|simpl; lia].
Qed.

(** * Properties *)

(** The table-driven parser computes what the grammar says, for every text of
    fewer than 140 characters without the control character 1: it accepts
    exactly the index specifications, returns their regions and limit, and
    otherwise returns 1 with [idxerrno] telling a bound that is violated from a
    syntax error.  For these texts the parser's stack suffices; for longer ones
    it may not, see [idxparse_overflow].  (C10) *)
Theorem idxparse_correct w tk e m :
  (length w < 140)%nat -> Forall (fun c => code c <> 1) w ->
  exists ts, scan w = Some ts /\
  match arrayIndSpec e m ts with
  | inr (il, m') => idxparse ts tk e m = Some (0, il, m', e)
  | inl e' => exists l' m', idxparse ts tk e m = Some (1, l', m', e')
  end.
Proof.
  intros Hw Hc. destruct (yylex_total (S (length w)) w ltac:(lia) Hc) as (ts & Hs & Hok & Hl).
  exists ts. split; [exact Hs|]. apply idxparse_grammar; [done|lia].
Qed.

Lemma idxparse_correct_witness :
  exists ts, scan (chars "[1-10:2, 7]%5") = Some ts /\
    idxparse ts None 0 INFINIT_INT = Some (0, [IdxList 1 10 2; IdxList 7 7 1], 5, 0).
Proof.
  destruct (idxparse_correct (chars "[1-10:2, 7]%5") None 0 INFINIT_INT) as (ts & Hs & H).
  - vm_compute. lia.
  - repeat constructor; done.
  - exists ts. split; [exact Hs|]. vm_compute in Hs. injection Hs as <-. exact H.
Defined.

(** What is printed is read back: the text of a list of at most 22 regions in
    bounds, with or without a limit, is parsed to this list and limit.  The
    number is a bound of the proof; the parser itself fails from 74 printed
    regions on, see [idxparse_overflow].  (C11) *)
Theorem idxparse_show l limit tk e m0 :
  Forall idx_ok l -> l <> [] -> (length l <= 22)%nat -> (forall m, limit = Some m -> 0 <= m < 2 ^ 31) ->
  (ts ← scan (show_spec l limit); idxparse ts tk e m0) = Some (0, l, default m0 limit, e).
Proof.
  intros Hl Hne Hlen Hm. rewrite scan_tokens by (try done; intros; by apply Hm). cbn [mbind option_bind].
  pose proof (idxparse_grammar (spec_toks l limit) tk e m0 (spec_toks_ok l limit)) as H.
  rewrite spec_grammar in H by done. apply H. unfold spec_toks. cbn [length]. rewrite length_app, list_toks_length by done.
  destruct limit; simpl; lia.
Qed.

Lemma idxparse_show_witness :
  (ts ← scan (chars "[1-10:2,7-7:1]%5"); idxparse ts None 0 INFINIT_INT)
  = Some (0, [IdxList 1 10 2; IdxList 7 7 1], 5, 0).
Proof.
  apply (idxparse_show [IdxList 1 10 2; IdxList 7 7 1] (Some 5) None 0 INFINIT_INT).
  - repeat constructor.
  - done.
  - simpl. lia.
  - intros m [= <-]. lia.
Defined.

(** The stack of the parser holds 150 entries, and the rule for the regions is
    recursive on the right: 73 printed regions are read, 74 are refused. *)
Lemma idxparse_overflow :
  (ts ← scan (show_spec (repeat (IdxList 1 1 1) 73) None); idxparse ts None 0 INFINIT_INT)
    = Some (0, repeat (IdxList 1 1 1) 73, INFINIT_INT, 0) /\
  exists l, (ts ← scan (show_spec (repeat (IdxList 1 1 1) 74) None); idxparse ts None 0 INFINIT_INT)
    = Some (1, l, INFINIT_INT, 0).
Proof. split; [by vm_compute|]. eexists. by vm_compute. Qed.

(** The character 1 is taken for a number whose text is what the last number
    left; before the first number there is none, and the access fails. *)
Lemma idxparse_control :
  (ts ← scan ("["%char :: "001"%char :: "]"%char :: []); idxparse ts None 0 INFINIT_INT) = None /\
  (ts ← scan ("["%char :: "001"%char :: "]"%char :: []); idxparse ts (Some (show_num 7)) 0 INFINIT_INT)
    = Some (0, [IdxList 7 7 1], INFINIT_INT, 0).
Proof. by vm_compute. Qed.
