(* ===== verification/Jarray.v ===== *)
(** * Job arrays, [lsbatch/daemons/mbd.jarray.c]

    The identifier of an array element packs the array's number and the index
    into 64 bits.  This file holds the packing, the check of an index
    specification against the limits of the daemon, the expansion of a
    specification such as ["105[1-9:2]"] into identifiers, and the index list
    of the job being submitted, which dependency conditions compare with. *)

From Stdlib Require Import Ascii.
From S2P Require Import Prelude Lsb CString Jidx.

(** ** Checking a specification *)

(** The daemon's limits: [maxJobArraySize], and whether the event log is being
    replayed. *)
Record limits := Limits { maxJobArraySize : Z; replaying : bool }.

(** One round of the loop over the regions: the region with an open end
    filled in, the error so far, the number of elements so far. *)
Definition check_region (L : limits) (idx : idxList) (error arraySize : Z) : option (idxList * Z * Z) :=
  let error := if (start idx <? 1) || (step idx <? 1) then LSBE_BAD_IDX else error in
  let idx := if end_ idx =? INFINIT_INT
             then IdxList (start idx) (i32 (start idx + (maxJobArraySize L - 1) * step idx)) (step idx)
             else idx in
  let error := if end_ idx <? start idx then LSBE_BAD_IDX else error in
  let error := if negb (replaying L) && (LSB_MAX_ARRAY_IDX <=? end_ idx) then LSBE_BIG_IDX else error in
  if step idx =? 0 then None else
  Some (idx, error, i32 (arraySize + i32 (Z.quot (i32 (end_ idx - start idx)) (step idx)) + 1)).

Fixpoint check_regions (L : limits) (l : list idxList) (error arraySize : Z) : option (list idxList * Z * Z) :=
  match l with
  | [] => Some ([], error, arraySize)
  | idx :: l =>
      '(idx, error, arraySize) ← check_region L idx error arraySize;
      '(l, error, arraySize) ← check_regions L l error arraySize;
      Some (idx :: l, error, arraySize)
  end.

(** The globals of the parser that live from call to call. *)
Record pglobals := PGlobals { g_token : option (list ascii); g_errno : Z }.

Record parsed := Parsed { p_list : list idxList; p_error : Z; p_limit : Z }.

Definition parseJobArrayIndex (L : limits) (g : pglobals) (job_name : list ascii) (maxJLimit : Z) : option parsed :=
  match strchr "[" job_name with
  | None => Some (Parsed [] LSBE_NO_ERROR maxJLimit)
  | Some (_, rest) =>
      ts ← scan ("["%char :: rest);
      '(ret, idxList, maxJLimit, errno) ← idxparse ts (g_token g) (g_errno g) INFINIT_INT;
      if negb (ret =? 0) then
        Some (Parsed [] (if errno =? IDX_MEM then LSBE_NO_MEM else LSBE_BAD_JOB) maxJLimit)
      else
        '(idxList, error, arraySize) ← check_regions L idxList LSBE_NO_ERROR 0;
        let error := if negb (replaying L) && (maxJobArraySize L <? arraySize) then LSBE_BIG_IDX else error in
        Some (if error =? LSBE_NO_ERROR then Parsed idxList error maxJLimit else Parsed [] error maxJLimit)
  end.

(** ** Membership and expansion *)

Definition inIdxList (jobId : Z) (idxList : list idxList) : bool :=
  match idxList with
  | [] => true
  | _ => existsb (fun idx =>
           negb ((LSB_ARRAY_IDX jobId <? start idx) || (end_ idx <? LSB_ARRAY_IDX jobId)) &&
           (Z.rem (LSB_ARRAY_IDX jobId - start idx) (step idx) =? 0)) idxList
  end.

(** [for (j = start; j <= end; j += step)]; the sum wraps. *)
Fixpoint each_idx {A} (fuel : nat) (f : A -> Z -> A) (idx : idxList) (j : Z) (acc : A) : option A :=
  match fuel with
  | O => None
  | S k => if end_ idx <? j then Some acc else each_idx k f idx (i32 (j + step idx)) (f acc j)
  end.
Definition idx_fuel (idx : idxList) : nat := S (S (Z.to_nat (end_ idx - start idx))).
Arguments idx_fuel : simpl never.

(** [*outJobId] and [*idxListP]; [jobId] is the value of [*outJobId] before. *)
Definition getJobIdIndexList (L : limits) (g : pglobals) (jobIdStr : list ascii) (jobId : Z)
    : option (Z * Z * list idxList) :=
  match strchr "[" jobIdStr with
  | None =>
      if negb (isint_ jobIdStr) || (atoi jobIdStr <? 0) then Some (LSBE_BAD_JOBID, jobId, [])
      else Some (LSBE_NO_ERROR, atoi jobIdStr, [])
  | Some (num, _) =>
      if negb (isint_ num) || (atoi num <=? 0) || (LSB_MAX_ARRAY_JOBID <? atoi num)
      then Some (LSBE_BAD_JOBID, jobId, [])
      else
        p ← parseJobArrayIndex L g jobIdStr 0;
        match p_list p with
        | [] => Some (p_error p, atoi num, [])
        | l => Some (LSBE_NO_ERROR, atoi num, l)
        end
  end.

(** An identifier is appended unless it is there already. *)
Definition add_id (jobId : Z) (jobIds : list Z) (j : Z) : list Z :=
  let lsbJobId := LSB_JOBID jobId j in
  if bool_decide (lsbJobId ∈ jobIds) then jobIds else jobIds ++ [lsbJobId].

Fixpoint expand (jobId : Z) (l : list idxList) (jobIds : list Z) : option (list Z) :=
  match l with
  | [] => Some jobIds
  | idx :: l =>
      jobIds ← each_idx (idx_fuel idx) (add_id jobId) idx (start idx) jobIds;
      expand jobId l jobIds
  end.

(** The code and the identifiers. *)
Definition getJobIdList (L : limits) (g : pglobals) (jobIdStr : list ascii) : option (Z * list Z) :=
  '(errCode, jobId, idxListP) ← getJobIdIndexList L g jobIdStr 0;
  if negb (errCode =? LSBE_NO_ERROR) then Some (errCode, [])
  else if jobId <=? 0 then Some (LSBE_BAD_JOBID, [])
  else match idxListP with
       | [] => Some (LSBE_NO_ERROR, [jobId])
       | l => ids ← expand jobId l []; Some (LSBE_NO_ERROR, ids)
       end.

(** ** The list of the job being submitted *)

Definition setIdxListContext (L : limits) (g : pglobals) (jobName : list ascii) : option (list idxList) :=
  p ← parseJobArrayIndex L g jobName 0; Some (p_list p).
Definition getIdxListContext (arrayIdxList : list idxList) : list idxList := arrayIdxList.
Definition freeIdxListContext (arrayIdxList : list idxList) : list idxList := [].

(** ** Packing *)

Lemma lor_pack i a : 0 <= i -> 0 <= a < 2 ^ 32 -> Z.lor (Z.shiftl i 32) a = i * 2 ^ 32 + a.
Proof.
  intros Hi Ha. rewrite <- Z.shiftl_mul_pow2 by lia. symmetry. rewrite <- Z.add_lor_land.
  assert (E : Z.land (Z.shiftl i 32) a = 0); [|lia].
  apply Z.bits_inj'. intros n Hn. rewrite Z.land_spec, Z.bits_0. destruct (decide (n < 32)).
  - by rewrite Z.shiftl_spec_low by lia.
  - destruct (Z.eq_dec a 0) as [->|Ha0]; [by rewrite Z.bits_0, andb_false_r|].
    rewrite (Z.bits_above_log2 a n), andb_false_r; [done|lia|].
    apply Z.lt_le_trans with 32; [|lia]. apply Z.log2_lt_pow2; lia.
Qed.

Lemma jobid_value a i : 0 <= a < 2 ^ 31 -> 0 <= i < 2 ^ 16 -> LSB_JOBID a i = i * 2 ^ 32 + a.
Proof.
  intros Ha Hi. unfold LSB_JOBID, uns64. rewrite (Z.mod_small i), (Z.mod_small a) by lia.
  rewrite Z.mod_small by (rewrite Z.shiftl_mul_pow2 by lia; lia).
  rewrite lor_pack by lia. unfold i64. rewrite Z.mod_small by lia. lia.
Qed.

Lemma jobid_idx a i : 0 <= a < 2 ^ 31 -> 0 <= i < 2 ^ 16 -> LSB_ARRAY_IDX (LSB_JOBID a i) = i.
Proof.
  intros Ha Hi. rewrite jobid_value by done. unfold LSB_ARRAY_IDX, uns64.
  destruct (Z.eqb_spec (i * 2 ^ 32 + a) (-1)); [lia|]. rewrite Z.mod_small, Z.shiftr_div_pow2 by lia.
  change LSB_MAX_ARRAY_IDX with (Z.ones 16). rewrite Z.land_ones by lia.
  rewrite Z.div_add_l, Z.div_small, Z.add_0_r by lia. rewrite Z.mod_small by lia. apply i32_small. lia.
Qed.

Lemma jobid_base a i : 0 <= a < 2 ^ 31 -> 0 <= i < 2 ^ 16 -> LSB_ARRAY_JOBID (LSB_JOBID a i) = a.
Proof.
  intros Ha Hi. rewrite jobid_value by done. unfold LSB_ARRAY_JOBID.
  destruct (Z.eqb_spec (i * 2 ^ 32 + a) (-1)); [lia|]. change LSB_MAX_ARRAY_JOBID with (Z.ones 32).
  rewrite Z.land_ones, Z.add_comm, Z.mod_add, Z.mod_small by lia. apply i32_small. lia.
Qed.

Lemma jobid_inj a i j : 0 <= a < 2 ^ 31 -> 0 <= i < 2 ^ 16 -> 0 <= j < 2 ^ 16 -> LSB_JOBID a i = LSB_JOBID a j -> i = j.
Proof. intros Ha Hi Hj E. rewrite !jobid_value in E by done. lia. Qed.

(** ** Regions *)

(** The indices of a region. *)
Definition in_region (idx : idxList) (j : Z) : Prop :=
  start idx <= j <= end_ idx /\ (j - start idx) mod step idx = 0.

(** A region that the daemon accepts, with a step that does not overflow. *)
Definition region_ok (idx : idxList) : Prop :=
  1 <= start idx <= end_ idx /\ end_ idx < LSB_MAX_ARRAY_IDX /\ 1 <= step idx /\ end_ idx + step idx < 2 ^ 31.

Lemma in_idx_list jobId l :
  l <> [] -> Forall region_ok l ->
  inIdxList jobId l = true <-> exists idx, idx ∈ l /\ in_region idx (LSB_ARRAY_IDX jobId).
Proof.
  intros Hne Hl. destruct l as [|i l]; [done|]. unfold inIdxList. rewrite existsb_exists.
  rewrite Forall_forall in Hl. split; intros (idx & Hin & H); exists idx.
  - apply list_elem_of_In in Hin. split; [done|]. bool_prop. specialize (Hl idx Hin). unfold region_ok in Hl.
    split; [lia|]. rewrite <- Z.rem_mod_nonneg; [done|lia|lia].
  - apply list_elem_of_In in Hin as Hin'. split; [done|]. specialize (Hl idx Hin). unfold region_ok in Hl. destruct H as [H1 H2].
    rewrite Z.rem_mod_nonneg, H2 by lia.
    destruct (Z.ltb_spec (LSB_ARRAY_IDX jobId) (start idx)), (Z.ltb_spec (end_ idx) (LSB_ARRAY_IDX jobId)); (lia || done).
Qed.

(** The loop runs over the indices of the region in order. *)
Fixpoint upto (n : nat) (j k : Z) : list Z := match n with O => [] | S n => j :: upto n (j + k) k end.

Definition region_size (idx : idxList) : Z := (end_ idx - start idx) / step idx + 1.
Definition region_idx (idx : idxList) : list Z := upto (Z.to_nat (region_size idx)) (start idx) (step idx).

Lemma elem_of_upto n j k x : x ∈ upto n j k <-> exists m, (m < n)%nat /\ x = j + Z.of_nat m * k.
Proof.
  revert j. induction n as [|n IH]; intros j; cbn [upto].
  - rewrite elem_of_nil. split; [done|]. intros (m & H & _). lia.
  - rewrite elem_of_cons, IH. split.
    + intros [->|(m & H & ->)]; [exists O; split; [lia|lia]|exists (S m); split; [lia|lia]].
    + intros ([|m] & H & ->); [left; lia|right]. exists m. split; lia.
Qed.

Lemma elem_of_region_idx idx j : region_ok idx -> j ∈ region_idx idx <-> in_region idx j.
Proof.
  intros (H1 & H2 & H3 & H4). unfold region_idx, region_size. rewrite elem_of_upto.
  pose proof (Z.div_mod (end_ idx - start idx) (step idx) ltac:(lia)) as Hd.
  pose proof (Z.mod_pos_bound (end_ idx - start idx) (step idx) ltac:(lia)) as Hm.
  set (q := (end_ idx - start idx) / step idx) in *. assert (0 <= q) by (apply Z.div_pos; lia).
  unfold in_region. split.
  - intros (m & Hm1 & ->). split; [nia|]. replace (start idx + Z.of_nat m * step idx - start idx) with (Z.of_nat m * step idx) by lia.
    apply Z.mod_mul. lia.
  - intros (Hj & Hz). pose proof (Z.div_mod (j - start idx) (step idx) ltac:(lia)) as Hjd. rewrite Hz in Hjd.
    exists (Z.to_nat ((j - start idx) / step idx)).
    assert (0 <= (j - start idx) / step idx) by (apply Z.div_pos; lia).
    assert ((j - start idx) / step idx <= q) by (apply Z.div_le_mono; lia).
    split; [lia|]. rewrite Z2Nat.id by lia. lia.
Qed.

Lemma each_idx_upto {A} (f : A -> Z -> A) idx n fuel j acc :
  region_ok idx -> start idx <= j -> (n < fuel)%nat ->
  end_ idx < j + Z.of_nat n * step idx <= end_ idx + step idx ->
  each_idx fuel f idx j acc = Some (foldl f acc (upto n j (step idx))).
Proof.
  intros Hok. revert fuel j acc. induction n as [|n IH]; intros fuel j acc Hj Hf Hn; (destruct fuel as [|fuel]; [lia|]); cbn [each_idx upto].
  - destruct (Z.ltb_spec (end_ idx) j); [done|lia].
  - unfold region_ok in Hok. destruct (Z.ltb_spec (end_ idx) j); [nia|]. rewrite i32_small by lia.
    rewrite IH; [done|lia|lia|lia].
Qed.

Lemma each_idx_region {A} (f : A -> Z -> A) idx acc :
  region_ok idx -> each_idx (idx_fuel idx) f idx (start idx) acc = Some (foldl f acc (region_idx idx)).
Proof.
  intros Hok. pose proof Hok as (H1 & H2 & H3 & H4). unfold region_idx, region_size, idx_fuel.
  pose proof (Z.div_mod (end_ idx - start idx) (step idx) ltac:(lia)) as Hd.
  pose proof (Z.mod_pos_bound (end_ idx - start idx) (step idx) ltac:(lia)) as Hm.
  set (q := (end_ idx - start idx) / step idx) in *. assert (0 <= q) by (apply Z.div_pos; lia).
  apply each_idx_upto; [done|lia|nia|]. rewrite Z2Nat.id by lia. nia.
Qed.

(** The indices of a list of regions, with repetitions. *)
Definition all_idx (l : list idxList) : list Z := l ≫= region_idx.

Lemma expand_foldl a l ids : Forall region_ok l -> expand a l ids = Some (foldl (add_id a) ids (all_idx l)).
Proof.
  intros Hl. revert ids. induction Hl as [|i l Hi _ IH]; intros ids; [done|]. cbn [expand].
  rewrite each_idx_region by done. cbn [mbind option_bind]. rewrite IH. unfold all_idx. by rewrite bind_cons, foldl_app.
Qed.

Lemma add_id_fold a js ids :
  NoDup ids -> NoDup (foldl (add_id a) ids js) /\
    forall x, x ∈ foldl (add_id a) ids js <-> x ∈ ids \/ exists j, j ∈ js /\ x = LSB_JOBID a j.
Proof.
  revert ids. induction js as [|j js IH]; intros ids Hnd; cbn [foldl].
  - split; [done|]. intros x. split; [by left|]. intros [H|(j & H & _)]; [done|]. by apply elem_of_nil in H.
  - assert (H : NoDup (add_id a ids j) /\ forall x, x ∈ add_id a ids j <-> x ∈ ids \/ x = LSB_JOBID a j).
    { unfold add_id. destruct (bool_decide_reflect (LSB_JOBID a j ∈ ids)) as [Hin|Hin].
      - split; [done|]. intros x. split; [by left|]. by intros [?| ->].
      - split; [|set_solver]. apply NoDup_app. split; [done|]. split; [set_solver|apply NoDup_singleton]. }
    destruct H as [H1 H2]. destruct (IH _ H1) as [H3 H4]. split; [done|]. intros x. rewrite H4, H2. set_solver.
Qed.

Lemma elem_of_all_idx l j : Forall region_ok l -> j ∈ all_idx l <-> exists idx, idx ∈ l /\ in_region idx j.
Proof.
  intros Hl. unfold all_idx. rewrite list_elem_of_bind. rewrite Forall_forall in Hl. split.
  - intros (idx & Hj & Hin). exists idx. split; [done|]. apply elem_of_region_idx; [by apply Hl|done].
  - intros (idx & Hin & Hj). exists idx. split; [|done]. apply elem_of_region_idx; [by apply Hl|done].
Qed.

Lemma in_region_bound idx j : region_ok idx -> in_region idx j -> 0 <= j < 2 ^ 16.
Proof. unfold region_ok, in_region, LSB_MAX_ARRAY_IDX. lia. Qed.

Lemma expand_spec a l :
  0 <= a < 2 ^ 31 -> l <> [] -> Forall region_ok l ->
  exists ids, expand a l [] = Some ids /\ NoDup ids /\
    (forall x, x ∈ ids -> exists j, 0 <= j < 2 ^ 16 /\ x = LSB_JOBID a j) /\
    (forall j, 0 <= j < 2 ^ 16 -> LSB_JOBID a j ∈ ids <-> inIdxList (LSB_JOBID a j) l = true).
Proof.
  intros Ha Hne Hl. rewrite expand_foldl by done. eexists. split; [reflexivity|].
  destruct (add_id_fold a (all_idx l) [] (NoDup_nil_2)) as [Hnd Hin]. split; [done|].
  assert (Hb : forall j, j ∈ all_idx l -> 0 <= j < 2 ^ 16).
  { intros j (idx & Hi & Hr)%elem_of_all_idx; [|done]. rewrite Forall_forall in Hl. eapply in_region_bound; [|done]. by apply Hl. }
  split.
  - intros x [H|(j & Hj & ->)]%Hin; [by apply elem_of_nil in H|]. exists j. split; [by apply Hb|done].
  - intros j Hj. rewrite Hin, in_idx_list, jobid_idx by done. rewrite <- elem_of_all_idx by done. split.
    + intros [H|(j' & Hj' & E)]; [by apply elem_of_nil in H|]. apply jobid_inj in E; [by subst|done|done|by apply Hb].
    + intros H. right. by exists j.
Qed.

(** ** The checks of [parseJobArrayIndex] *)


Definition fits (idx : idxList) : Prop := 1 <= start idx <= end_ idx /\ end_ idx < LSB_MAX_ARRAY_IDX /\ 1 <= step idx.
#[global] Instance fits_dec idx : Decision (fits idx).
Proof. unfold fits. apply _. Defined.















(** * Properties *)

(** The packing of array identifiers loses nothing: number and index come back,
    and the elements of an array have different identifiers.  *)
Theorem LSB_JOBID_roundtrip a i :
  0 <= a < 2 ^ 31 -> 0 <= i <= LSB_MAX_ARRAY_IDX ->
  LSB_ARRAY_IDX (LSB_JOBID a i) = i /\ LSB_ARRAY_JOBID (LSB_JOBID a i) = a /\ 0 <= LSB_JOBID a i < 2 ^ 63.
Proof.
  unfold LSB_MAX_ARRAY_IDX. intros Ha Hi. split; [by apply jobid_idx; lia|]. split; [by apply jobid_base; lia|].
  rewrite jobid_value; lia.
Qed.

Lemma LSB_JOBID_roundtrip_witness : LSB_ARRAY_IDX (LSB_JOBID 105 7) = 7 /\ LSB_JOBID 105 7 = 30064771177.
Proof. split; [apply (LSB_JOBID_roundtrip 105 7); unfold LSB_MAX_ARRAY_IDX; lia|reflexivity]. Defined.


Definition sample_limits : limits := Limits 1000 false.
Definition sample_globals : pglobals := PGlobals None 0.


(** [getJobIdList] expands a specification that the daemon accepts, and whose
    steps cannot overflow, into the identifiers of exactly the elements that
    [inIdxList] admits, without repetition.  *)
Theorem getJobIdList_correct L g str a l :
  getJobIdIndexList L g str 0 = Some (LSBE_NO_ERROR, a, l) -> l <> [] -> 0 < a < 2 ^ 31 -> Forall region_ok l ->
  exists ids, getJobIdList L g str = Some (LSBE_NO_ERROR, ids) /\ NoDup ids /\
    (forall x, x ∈ ids -> exists j, 0 <= j < 2 ^ 16 /\ x = LSB_JOBID a j) /\
    (forall j, 0 <= j < 2 ^ 16 -> LSB_JOBID a j ∈ ids <-> inIdxList (LSB_JOBID a j) l = true).
Proof.
  intros Hg Hne Ha Hl. destruct (expand_spec a l ltac:(lia) Hne Hl) as (ids & Hx & H). exists ids. split; [|done].
  unfold getJobIdList. rewrite Hg. cbn [mbind option_bind]. change (negb (LSBE_NO_ERROR =? LSBE_NO_ERROR)) with false.
  cbn iota. destruct (Z.leb_spec a 0); [lia|]. destruct l; [done|]. by rewrite Hx.
Qed.

Lemma getJobIdList_correct_witness :
  exists ids, getJobIdList sample_limits sample_globals (chars "105[1-9:2,3]") = Some (LSBE_NO_ERROR, ids) /\
    LSB_JOBID 105 3 ∈ ids /\ NoDup ids.
Proof.
  destruct (getJobIdList_correct sample_limits sample_globals (chars "105[1-9:2,3]") 105
    [IdxList 1 9 2; IdxList 3 3 1]) as (ids & H1 & H2 & H3 & H4).
  - vm_compute. reflexivity.
  - done.
  - lia.
  - repeat constructor; vm_compute; done.
  - exists ids. split; [exact H1|]. split; [|exact H2]. apply (H4 3); [lia|reflexivity].
Defined.

(** A step near the largest [int] is accepted, and the loop index then wraps:
    for ["[5-10:2147483647]"] it also takes the indices 3, 1 and four negative
    ones. *)
Lemma each_idx_overflow :
  let idx := IdxList 5 10 2147483647 in
  p_error <$> parseJobArrayIndex sample_limits sample_globals (chars "run[5-10:2147483647]") 0 = Some LSBE_NO_ERROR /\
  each_idx 10 (fun l j => l ++ [j]) idx 5 [] =
    Some [5; -2147483644; 3; -2147483646; 1; -2147483648; -1].
Proof. by vm_compute. Qed.
