(* ===== verification/Dep.v ===== *)
(** * Dependency conditions, [lsbatch/daemons/mbd.dep.c]: evaluation

    A condition such as [done(101) && numended(102, > 5)] is kept as a tree of
    [struct dptNode]s.  Its leaves hold references to jobs, to index lists of
    arrays, to time windows or to the counters of an array, and every node
    caches its last value.  [evalDepCond] evaluates the tree for the job that
    waits; it updates time windows and drops the reference to an array that has
    become void.  The nodes of a tree are shared with nothing else, so a tree is
    an inductive value here; jobs, arrays and index lists are shared and live in
    the state. *)

From Stdlib Require Import Ascii SpecFloat.
From S2P Require Import Prelude Lsb ListSet Jgrp CString Float32 Window Jidx Jarray.

(** ** Types *)

Inductive dptType :=
| DPT_AND | DPT_OR | DPT_NOT | DPT_LEFT_ | DPT_RIGHT_ | DPT_DONE | DPT_EXIT | DPT_STARTED | DPT_NAME
| DPT_ENDED | DPT_NUMPEND | DPT_NUMHOLD | DPT_NUMRUN | DPT_NUMEXIT | DPT_NUMDONE | DPT_NUMSTART
| DPT_NUMENDED | DPT_COMMA | DPT_GT | DPT_GE | DPT_LT | DPT_LE | DPT_EQ | DPT_NE | DPT_POST_DONE
| DPT_POST_ERR | DPT_TRUE | DPT_WINDOW.
#[global] Instance dptType_eq_dec : EqDecision dptType.
Proof. solve_decision. Defined.

Definition ARRAY_DEP_ONE_TO_ONE : Z := 1.
Definition JFLAG_LASTRUN_SUCC : Z := 0x002.
Definition JOB_STAT_PRE_EXEC : Z := 0x04000000.

Definition IS_POST_DONE (s : Z) : bool := Z.land s JOB_STAT_PDONE =? JOB_STAT_PDONE.
Definition IS_POST_ERR (s : Z) : bool := Z.land s JOB_STAT_PERR =? JOB_STAT_PERR.
Definition IS_POST_FINISH (s : Z) : bool := IS_POST_DONE s || IS_POST_ERR s.

Record jobIdx := JobIdx { ji_numRef : Z; ji_idxList : list idxList; depJobList : list listSet }.

(** [struct dptNode] by the member of its union; [Null] is the null pointer. *)
Inductive dptNode :=
| Null
| Opr (type : dptType) (value updFlag : Z) (left right : dptNode)
| Job (type : dptType) (value updFlag : Z) (opType : dptType) (exitCode opFlag jobRec jobidx : Z)
| Wind (type : dptType) (value updFlag : Z) (timeW : timeWindow)
| Grp (type : dptType) (value updFlag : Z) (opType : dptType) (num jgArrayBase : Z).

(** The daemon's state, the index lists that conditions share, and the table
    of jobs by identifier. *)
Record dstate := DState { ms : mstate; idxs : gmap Z jobIdx; jobIdHT : gmap Z Z }.

Definition with_ms (s : dstate) (m : mstate) : dstate := DState m (idxs s) (jobIdHT s).
Definition with_idxs (s : dstate) (i : gmap Z jobIdx) : dstate := DState (ms s) i (jobIdHT s).

(** [getJobData] of [mbd.job.c]; [NULL] if there is no such job. *)
Definition getJobData (s : dstate) (jobId : Z) : Z :=
  if jobId <=? 0 then NULL else default NULL (jobIdHT s !! jobId).

(** *** References to index lists *)

Definition createjobIdxRef (s : dstate) (p : Z) : option dstate :=
  if p =? NULL then Some s else
  i ← idxs s !! p;
  Some (with_idxs s (<[p := JobIdx (i32 (ji_numRef i + 1)) (ji_idxList i) (depJobList i)]> (idxs s))).

Fixpoint destroy_jobs (m : mstate) (l : list listSet) : option mstate :=
  match l with
  | [] => Some m
  | c :: l => m ← (if elem c =? NULL then Some m else destroyjDataRef m (elem c)); destroy_jobs m l
  end.

Definition destroyjobIdxRef (s : dstate) (p : Z) : option dstate :=
  if p =? NULL then Some s else
  i ← idxs s !! p;
  let n := i32 (ji_numRef i - 1) in
  if n <=? 0 then
    m ← destroy_jobs (ms s) (depJobList i);
    let m := with_void m (voidJobList m) (listSetFree (lcells m) (depJobList i)) in
    Some (DState m (delete p (idxs s)) (jobIdHT s))
  else Some (with_idxs s (<[p := JobIdx n (ji_idxList i) (depJobList i)]> (idxs s))).

(** ** Tests at the leaves *)

Definition opExpr (opType : dptType) (operand1 operand2 : Z) : bool :=
  match opType with
  | DPT_LT => operand1 <? operand2
  | DPT_LE => operand1 <=? operand2
  | DPT_GT => operand2 <? operand1
  | DPT_GE => operand2 <=? operand1
  | DPT_EQ => operand1 =? operand2
  | DPT_NE => negb (operand1 =? operand2)
  | DPT_TRUE => true
  | _ => false
  end.

Definition getCounterOfDep (type : dptType) (counts : list Z) : option Z :=
  let at_count i := counts !! Z.to_nat i in
  match type with
  | DPT_NUMPEND => at_count JGRP_COUNT_PEND
  | DPT_NUMRUN => at_count JGRP_COUNT_NRUN
  | DPT_NUMHOLD => at_count JGRP_COUNT_NPSUSP
  | DPT_NUMEXIT => at_count JGRP_COUNT_NEXIT
  | DPT_NUMDONE => at_count JGRP_COUNT_NDONE
  | DPT_NUMSTART =>
      a ← at_count JGRP_COUNT_NJOBS; b ← at_count JGRP_COUNT_PEND; c ← at_count JGRP_COUNT_NPSUSP;
      Some (i32 (a - b - c))
  | DPT_NUMENDED => a ← at_count JGRP_COUNT_NEXIT; b ← at_count JGRP_COUNT_NDONE; Some (i32 (a + b))
  | _ => Some 0
  end.

(** [depJob == NULL || depJob->endTime < t] *)
Definition later (depJob : option jData) (t : Z) : bool :=
  match depJob with None => true | Some d => endTime d <? t end.

Definition evalJobDep (type opType : dptType) (exitCode : Z) (jpbw : jData) (depJob : option jData) : bool :=
  match type with
  | DPT_DONE => later depJob (endTime jpbw) &&
      (has (jStatus jpbw) JOB_STAT_DONE || (IS_PEND (jStatus jpbw) && has (jFlags jpbw) JFLAG_LASTRUN_SUCC))
  | DPT_POST_DONE => later depJob (endTime jpbw) && (IS_POST_DONE (jStatus jpbw) && has (jStatus jpbw) JOB_STAT_DONE)
  | DPT_POST_ERR => later depJob (endTime jpbw) && (IS_POST_ERR (jStatus jpbw) && has (jStatus jpbw) JOB_STAT_DONE)
  | DPT_EXIT =>
      later depJob (endTime jpbw) && opExpr opType (Z.shiftr (exitStatus jpbw) 8) exitCode &&
      (IS_FINISH (jStatus jpbw) || (IS_PEND (jStatus jpbw) && negb (has (jFlags jpbw) JFLAG_LASTRUN_SUCC))) &&
      negb (has (jStatus jpbw) JOB_STAT_DONE)
  | DPT_ENDED => later depJob (endTime jpbw) && (IS_FINISH (jStatus jpbw) || IS_PEND (jStatus jpbw))
  | DPT_STARTED =>
      negb (startTime jpbw =? 0) && later depJob (startTime jpbw) && negb (has (jStatus jpbw) JOB_STAT_PRE_EXEC)
  | _ => false
  end.

(** ** Evaluation *)

Section Eval.
Context (ctime : Z -> list ascii) (now : Z).

(** The value that one job gives to a leaf. *)
Definition job_value (type opType : dptType) (exitCode : Z) (jpbw : jData) (depJob : option jData) : Z :=
  if evalJobDep type opType exitCode jpbw depJob then DP_TRUE
  else if has (jStatus jpbw) JOB_STAT_VOID ||
          (IS_FINISH (jStatus jpbw) &&
           negb (negb (IS_POST_FINISH (jStatus jpbw)) && has (jStatus jpbw) JOB_STAT_DONE &&
                 (bool_decide (type = DPT_POST_DONE) || bool_decide (type = DPT_POST_ERR))))
  then DP_INVALID else DP_FALSE.

(** [while (jpbw)]; [arr] says that the leaf's job is an array that is looked at
    element by element, [ptr] is the position in [depJobList] if it is used. *)
Fixpoint job_loop (fuel : nat) (s : dstate) (type opType : dptType) (exitCode opFlag jidx : Z) (arr : bool)
    (depJob : option jData) (jpbw : Z) (ptr : list listSet) (value : Z) : option Z :=
  match fuel with
  | O => None
  | S k =>
      if jpbw =? NULL then Some value else
      j ← jobs (ms s) !! jpbw;
      skip ← (if jidx =? NULL then Some false
              else i ← idxs s !! jidx;
                   Some (negb (inIdxList (jobId j) (ji_idxList i)) && negb (opFlag =? ARRAY_DEP_ONE_TO_ONE)));
      let next value :=
        if arr then
          match ptr with
          | [] => job_loop k s type opType exitCode opFlag jidx arr depJob (nextJob j) [] value
          | _ :: [] => job_loop k s type opType exitCode opFlag jidx arr depJob NULL [] value
          | _ :: ((c :: _) as ptr') => job_loop k s type opType exitCode opFlag jidx arr depJob (elem c) ptr' value
          end
        else job_loop k s type opType exitCode opFlag jidx arr depJob NULL ptr value in
      if skip : bool then next value else
      let v := job_value type opType exitCode j depJob in
      if v =? DP_TRUE then next DP_TRUE else Some v
  end.

(** The search of [depJobList] for the element of the same index; without one
    the last element stays. *)
Fixpoint same_idx (s : dstate) (arrayIdx : Z) (jpbw : Z) (pos : list listSet) : option Z :=
  j ← jobs (ms s) !! jpbw;
  if arrayIdx =? LSB_ARRAY_IDX (jobId j) then Some jpbw
  else match pos with [] => Some jpbw | c :: pos => same_idx s arrayIdx (elem c) pos end.

(** The first job a leaf looks at; [inl] is an answer without looking. *)
Definition first_job (s : dstate) (opFlag jobRec jidx : Z) (depJob : option jData) : option (Z + Z * list listSet) :=
  j ← jobs (ms s) !! jobRec;
  if negb (jNodeType j =? JGRP_NODE_ARRAY) then Some (inr (jobRec, [])) else
  l ← (if jidx =? NULL then Some [] else i ← idxs s !! jidx; Some (depJobList i));
  match l with
  | c :: _ => if negb (opFlag =? ARRAY_DEP_ONE_TO_ONE) then Some (inr (elem c, l)) else
      d ← depJob;
      let arrayIdx := LSB_ARRAY_IDX (jobId d) in
      let p := getJobData s (LSB_JOBID (jobId j) arrayIdx) in
      if negb (p =? NULL) then Some (inr (p, [])) else
      '(e, pos) ← listSetIteratorBegin (listSetIteratorAttach l);
      p ← same_idx s arrayIdx e pos; Some (inr (p, []))
  | [] => if negb (opFlag =? ARRAY_DEP_ONE_TO_ONE) then Some (inr (nextJob j, [])) else
      d ← depJob;
      let arrayIdx := LSB_ARRAY_IDX (jobId d) in
      let p := getJobData s (LSB_JOBID (jobId j) arrayIdx) in
      if negb (p =? NULL) then Some (inr (p, []))
      else if jidx =? NULL then Some (inl DP_INVALID)
      else None
  end.

Definition eval_job (s : dstate) (type opType : dptType) (exitCode opFlag jobRec jidx : Z)
    (depJob : option jData) (value : Z) : option Z :=
  if jobRec =? NULL then Some DP_INVALID else
  j ← jobs (ms s) !! jobRec;
  f ← first_job s opFlag jobRec jidx depJob;
  match f with
  | inl v => Some v
  | inr (p, ptr) =>
      job_loop (S (length ptr) + job_fuel (ms s)) s type opType exitCode opFlag jidx
        ((jNodeType j =? JGRP_NODE_ARRAY) && negb (opFlag =? ARRAY_DEP_ONE_TO_ONE)) depJob p ptr value
  end.

(** A leaf on the counters of an array: the value, the reference afterwards and
    the state. *)
Definition eval_grp (s : dstate) (type opType : dptType) (num jgArrayBase : Z) : option (Z * Z * dstate) :=
  if jgArrayBase =? NULL then Some (DP_INVALID, NULL, s) else
  b ← bases (ms s) !! jgArrayBase;
  if status b =? JGRP_VOID then
    m ← destroyJgArrayBaseRef (ms s) jgArrayBase; Some (DP_INVALID, NULL, with_ms s m)
  else
    n ← (if num =? INFINIT_INT
         then n ← counts b !! Z.to_nat JGRP_COUNT_NJOBS; Some (if n <=? 0 then INFINIT_INT else n)
         else Some num);
    c ← getCounterOfDep type (counts b);
    Some (if opExpr opType c n then DP_TRUE else DP_FALSE, jgArrayBase, s).

Fixpoint evalDepCond (s : dstate) (depJob : option jData) (node : dptNode) : option (Z * dptNode * dstate) :=
  match node with
  | Null => None
  | Opr DPT_OR _ u l r =>
      '(v, l, s) ← evalDepCond s depJob l;
      if (v =? DP_REJECT) || (v =? DP_TRUE) then Some (v, Opr DPT_OR v u l r, s)
      else if v =? DP_FALSE then
        '(v, r, s) ← evalDepCond s depJob r;
        let v := if (v =? DP_REJECT) || (v =? DP_TRUE) then v else DP_FALSE in
        Some (v, Opr DPT_OR v u l r, s)
      else '(v, r, s) ← evalDepCond s depJob r; Some (v, Opr DPT_OR v u l r, s)
  | Opr DPT_AND _ u l r =>
      '(v, l, s) ← evalDepCond s depJob l;
      if (v =? DP_INVALID) || (v =? DP_REJECT) then Some (v, Opr DPT_AND v u l r, s)
      else if v =? DP_FALSE then
        '(v, r, s) ← evalDepCond s depJob r;
        let v := if (v =? DP_INVALID) || (v =? DP_REJECT) then v else DP_FALSE in
        Some (v, Opr DPT_AND v u l r, s)
      else '(v, r, s) ← evalDepCond s depJob r; Some (v, Opr DPT_AND v u l r, s)
  | Opr DPT_NOT _ u l r =>
      '(v, l, s) ← evalDepCond s depJob l;
      let v := if v =? DP_REJECT then v
               else if (v =? DP_FALSE) || (v =? DP_INVALID) then DP_TRUE
               else if v =? DP_TRUE then DP_FALSE else v in
      Some (v, Opr DPT_NOT v u l r, s)
  | Job ((DPT_DONE | DPT_POST_DONE | DPT_POST_ERR | DPT_ENDED | DPT_STARTED | DPT_EXIT) as type)
        value u opType exitCode opFlag jobRec jidx =>
      v ← eval_job s type opType exitCode opFlag jobRec jidx depJob value;
      Some (v, Job type v u opType exitCode opFlag jobRec jidx, s)
  | Wind DPT_WINDOW _ u tw =>
      tw ← updateTimeWindow ctime now tw;
      let v := if tw_status tw =? WINDOW_OPEN then DP_TRUE else DP_FALSE in
      Some (v, Wind DPT_WINDOW v u tw, s)
  | Grp ((DPT_NUMPEND | DPT_NUMHOLD | DPT_NUMRUN | DPT_NUMEXIT | DPT_NUMDONE | DPT_NUMSTART | DPT_NUMENDED) as type)
        _ u opType num d =>
      '(v, d, s) ← eval_grp s type opType num d;
      Some (v, Grp type v u opType num d, s)
  | Opr _ v _ _ _ | Job _ v _ _ _ _ _ _ | Wind _ v _ _ | Grp _ v _ _ _ _ => Some (v, node, s)
  end.

End Eval.

(** ** Other operations on conditions *)

Fixpoint resetDepCond (node : dptNode) : option dptNode :=
  match node with
  | Null => None
  | Opr ((DPT_AND | DPT_OR) as t) _ u l r => l ← resetDepCond l; r ← resetDepCond r; Some (Opr t DP_FALSE u l r)
  | Opr DPT_NOT _ u l r => l ← resetDepCond l; Some (Opr DPT_NOT DP_FALSE u l r)
  | Opr t _ u l r => Some (Opr t DP_FALSE u l r)
  | Job t _ u o e f j i => Some (Job t DP_FALSE u o e f j i)
  | Wind t _ u w => Some (Wind t DP_FALSE u w)
  | Grp t _ u o n d => Some (Grp t DP_FALSE u o n d)
  end.

(** The references that [freeDepCond] gives back. *)
Fixpoint freeDepCond (s : dstate) (node : dptNode) : option dstate :=
  match node with
  | Null => Some s
  | Opr (DPT_AND | DPT_OR) _ _ l r => s ← freeDepCond s l; freeDepCond s r
  | Opr DPT_NOT _ _ l _ => freeDepCond s l
  | Job (DPT_DONE | DPT_EXIT | DPT_STARTED | DPT_ENDED | DPT_POST_DONE | DPT_POST_ERR) _ _ _ _ _ jobRec jidx =>
      m ← destroyjDataRef (ms s) jobRec; destroyjobIdxRef (with_ms s m) jidx
  | Grp (DPT_NUMPEND | DPT_NUMHOLD | DPT_NUMRUN | DPT_NUMEXIT | DPT_NUMDONE | DPT_NUMSTART | DPT_NUMENDED) _ _ _ _ d =>
      m ← destroyJgArrayBaseRef (ms s) d; Some (with_ms s m)
  | _ => Some s
  end.

(** ** The meaning of a condition *)

(** The connectives on true, false and invalid. *)
Definition and3 (a b : Z) : Z :=
  if (a =? DP_INVALID) || (b =? DP_INVALID) then DP_INVALID
  else if (a =? DP_FALSE) || (b =? DP_FALSE) then DP_FALSE else DP_TRUE.
Definition or3 (a b : Z) : Z :=
  if (a =? DP_TRUE) || (b =? DP_TRUE) then DP_TRUE
  else if (a =? DP_INVALID) && (b =? DP_INVALID) then DP_INVALID else DP_FALSE.
Definition not3 (a : Z) : Z := if a =? DP_TRUE then DP_FALSE else DP_TRUE.

(** All of the values are true, or the first that is not. *)
Fixpoint all3 (vs : list Z) : Z :=
  match vs with [] => DP_TRUE | v :: vs => if v =? DP_TRUE then all3 vs else v end.

Fixpoint elements (fuel : nat) (s : mstate) (p : Z) : option (list Z) :=
  match fuel with
  | O => None
  | S k => if p =? NULL then Some [] else j ← jobs s !! p; l ← elements k s (nextJob j); Some (p :: l)
  end.

(** The jobs that a leaf is about. *)
Definition leaf_jobs (s : dstate) (opFlag jobRec jidx : Z) (depJob : option jData) : option (Z + list Z) :=
  j ← jobs (ms s) !! jobRec;
  f ← first_job s opFlag jobRec jidx depJob;
  match f with
  | inl v => Some (inl v)
  | inr (p, ptr) =>
      if (jNodeType j =? JGRP_NODE_ARRAY) && negb (opFlag =? ARRAY_DEP_ONE_TO_ONE) then
        match ptr with
        | [] => l ← elements (job_fuel (ms s)) (ms s) p; Some (inr l)
        | _ => Some (inr (elems ptr))
        end
      else Some (inr [p])
  end.

(** Is the job among the indices the leaf names? *)
Definition relevant (s : dstate) (opFlag jidx : Z) (j : jData) : option bool :=
  if jidx =? NULL then Some true
  else i ← idxs s !! jidx; Some (inIdxList (jobId j) (ji_idxList i) || (opFlag =? ARRAY_DEP_ONE_TO_ONE)).

Fixpoint leaf_values (s : dstate) (type opType : dptType) (exitCode opFlag jidx : Z) (depJob : option jData)
    (js : list Z) : option (list Z) :=
  match js with
  | [] => Some []
  | p :: js =>
      if p =? NULL then None else
      j ← jobs (ms s) !! p;
      r ← relevant s opFlag jidx j;
      vs ← leaf_values s type opType exitCode opFlag jidx depJob js;
      Some (if r : bool then job_value type opType exitCode j depJob :: vs else vs)
  end.

(** The value of a leaf; one that is about no job has none. *)
Definition den_job (s : dstate) (type opType : dptType) (exitCode opFlag jobRec jidx : Z)
    (depJob : option jData) : option Z :=
  if jobRec =? NULL then Some DP_INVALID else
  f ← leaf_jobs s opFlag jobRec jidx depJob;
  match f with
  | inl v => Some v
  | inr js => vs ← leaf_values s type opType exitCode opFlag jidx depJob js;
              match vs with [] => None | _ => Some (all3 vs) end
  end.

Definition den_grp (s : dstate) (type opType : dptType) (num d : Z) : option Z :=
  if d =? NULL then Some DP_INVALID else
  b ← bases (ms s) !! d;
  if status b =? JGRP_VOID then Some DP_INVALID else
  n ← (if num =? INFINIT_INT
       then n ← counts b !! Z.to_nat JGRP_COUNT_NJOBS; Some (if n <=? 0 then INFINIT_INT else n)
       else Some num);
  c ← getCounterOfDep type (counts b);
  Some (if opExpr opType c n then DP_TRUE else DP_FALSE).

Definition job_type (t : dptType) : bool :=
  match t with DPT_DONE | DPT_POST_DONE | DPT_POST_ERR | DPT_ENDED | DPT_STARTED | DPT_EXIT => true | _ => false end.
Definition grp_type (t : dptType) : bool :=
  match t with
  | DPT_NUMPEND | DPT_NUMHOLD | DPT_NUMRUN | DPT_NUMEXIT | DPT_NUMDONE | DPT_NUMSTART | DPT_NUMENDED => true
  | _ => false
  end.

Fixpoint den (ctime : Z -> list ascii) (now : Z) (s : dstate) (depJob : option jData) (n : dptNode) : option Z :=
  match n with
  | Opr DPT_AND _ _ l r => a ← den ctime now s depJob l; b ← den ctime now s depJob r; Some (and3 a b)
  | Opr DPT_OR _ _ l r => a ← den ctime now s depJob l; b ← den ctime now s depJob r; Some (or3 a b)
  | Opr DPT_NOT _ _ l _ => a ← den ctime now s depJob l; Some (not3 a)
  | Job t _ _ o e f j i => if job_type t then den_job s t o e f j i depJob else None
  | Wind DPT_WINDOW _ _ tw =>
      tw ← updateTimeWindow ctime now tw; Some (if tw_status tw =? WINDOW_OPEN then DP_TRUE else DP_FALSE)
  | Grp t _ _ o k d => if grp_type t then den_grp s t o k d else None
  | _ => None
  end.

Definition three (v : Z) : Prop := v = DP_TRUE \/ v = DP_FALSE \/ v = DP_INVALID.

(** References to the counters of arrays held by the leaves of a tree. *)
Fixpoint held (n : dptNode) (d : Z) : Z :=
  match n with
  | Opr _ _ _ l r => held l d + held r d
  | Grp _ _ _ _ _ d' => if (d' =? d) && negb (d =? NULL) then 1 else 0
  | _ => 0
  end.

(** [h d] references to the block [d] are counted; a void block has given up
    its job and can be freed. *)
Definition refs_ok (s : dstate) (h : Z -> Z) : Prop :=
  forall d, 0 < h d -> exists b, bases (ms s) !! d = Some b /\ h d <= numRef b < 2 ^ 31 /\
    (status b = JGRP_VOID -> jobArray b = NULL /\ freeJgArray b <> NoFree).

(** Evaluation takes away references to void blocks only. *)
Record drops (s s' : dstate) : Prop := {
  dr_idxs : idxs s' = idxs s;
  dr_ht : jobIdHT s' = jobIdHT s;
  dr_jobs : jobs (ms s') = jobs (ms s);
  dr_nodes : nodes (ms s') = nodes (ms s);
  dr_root : groupRoot (ms s') = groupRoot (ms s);
  dr_entry : depEntry (ms s') = depEntry (ms s);
  dr_live : forall d b, bases (ms s) !! d = Some b -> status b <> JGRP_VOID -> bases (ms s') !! d = Some b;
  dr_void : forall d b', bases (ms s') !! d = Some b' ->
              exists b, bases (ms s) !! d = Some b /\ status b' = status b /\ counts b' = counts b }.

(** ** Leaves on jobs *)

Lemma elements_length fuel s p js : elements fuel s p = Some js -> (length js < fuel)%nat.
Proof.
  revert p js. induction fuel as [|k IH]; intros p js; cbn; [done|]. destruct (p =? NULL); [intros [= <-]; simpl; lia|].
  destruct (jobs s !! p) as [j|]; [|done]. cbn. destruct (elements k s (nextJob j)) as [l|] eqn:E; [|done].
  intros [= <-]. apply IH in E. simpl. lia.
Qed.

Lemma job_value_three type opType exitCode j depJob : three (job_value type opType exitCode j depJob).
Proof. unfold job_value, three. repeat case_match; auto. Qed.

(** The value after looking at jobs of the values [vs]. *)
Fixpoint run3 (v : Z) (vs : list Z) : Z :=
  match vs with [] => v | x :: vs => if x =? DP_TRUE then run3 DP_TRUE vs else x end.

Lemma run3_all3 v vs : vs <> [] -> run3 v vs = all3 vs.
Proof.
  intros Hne. assert (H : forall vs, run3 DP_TRUE vs = all3 vs) by (clear; induction vs as [|x vs IH]; cbn; [done|by rewrite IH]).
  destruct vs as [|x vs]; [done|]. cbn. by rewrite H.
Qed.

Lemma all3_three vs : Forall three vs -> three (all3 vs).
Proof. induction 1 as [|v vs Hv _ IH]; cbn; [by left|]. by destruct (v =? DP_TRUE). Qed.

Section Loop.
Context (s : dstate) (type opType : dptType) (exitCode opFlag jidx : Z) (depJob : option jData).

Let values := leaf_values s type opType exitCode opFlag jidx depJob.

Lemma values_three js vs : values js = Some vs -> Forall three vs.
Proof.
  revert vs. unfold values. induction js as [|p js IH]; intros vs; cbn [leaf_values]; [by intros [= <-]|].
  destruct (p =? NULL); [done|]. destruct (jobs (ms s) !! p) as [j|]; [|done]. cbn [mbind option_bind].
  destruct (relevant s opFlag jidx j) as [r|]; [|done]. cbn [mbind option_bind].
  destruct (leaf_values _ _ _ _ _ _ _ js) as [vs'|]; [|done]. cbn [mbind option_bind]. intros [= <-].
  destruct r; [|by apply IH]. constructor; [apply job_value_three|by apply IH].
Qed.

(** One round of the loop. *)
Lemma loop_round k arr p js vs ptr v next ptr' :
  values (p :: js) = Some vs ->
  (forall j, jobs (ms s) !! p = Some j ->
     (if (arr : bool) then match ptr with [] => (nextJob j, [] : list listSet) | _ :: [] => (NULL, []) | _ :: ((c :: _) as l) => (elem c, l) end
      else (NULL, ptr)) = (next, ptr' : list listSet)) ->
  (forall v' vs', values js = Some vs' ->
     job_loop k s type opType exitCode opFlag jidx arr depJob next ptr' v' = Some (run3 v' vs')) ->
  job_loop (S k) s type opType exitCode opFlag jidx arr depJob p ptr v = Some (run3 v vs).
Proof.
  unfold values. cbn [leaf_values]. intros Hv Hn Hk. cbn [job_loop]. destruct (p =? NULL); [done|].
  destruct (jobs (ms s) !! p) as [j|] eqn:Ej; [|done]. cbn [mbind option_bind] in *. specialize (Hn j eq_refl).
  destruct (relevant s opFlag jidx j) as [r|] eqn:Er; [|done]. cbn [mbind option_bind] in *.
  destruct (leaf_values _ _ _ _ _ _ _ js) as [vs'|] eqn:Ev; [|done]. cbn [mbind option_bind] in *. injection Hv as <-.
  assert (Hskip : (if jidx =? NULL then Some false
            else i ← idxs s !! jidx;
                 Some (negb (inIdxList (jobId j) (ji_idxList i)) && negb (opFlag =? ARRAY_DEP_ONE_TO_ONE)))
            = Some (negb r)).
  { unfold relevant in Er. destruct (jidx =? NULL); [by injection Er as <-|]. destruct (idxs s !! jidx); [|done].
    cbn [mbind option_bind] in *. injection Er as <-. by rewrite negb_orb. }
  rewrite Hskip. cbn [mbind option_bind].
  assert (Hnext : forall v', (if arr then
          match ptr with
          | [] => job_loop k s type opType exitCode opFlag jidx arr depJob (nextJob j) [] v'
          | _ :: [] => job_loop k s type opType exitCode opFlag jidx arr depJob NULL [] v'
          | _ :: ((c :: _) as ptr') => job_loop k s type opType exitCode opFlag jidx arr depJob (elem c) ptr' v'
          end
        else job_loop k s type opType exitCode opFlag jidx arr depJob NULL ptr v') = Some (run3 v' vs')).
  { intros v'. rewrite <- (Hk v' vs' eq_refl). destruct arr; [destruct ptr as [|c [|c' ptr]]|]; by injection Hn as <- <-. }
  destruct r; cbn [negb]; [|apply Hnext]. cbn [run3]. cbn zeta.
  destruct (job_value type opType exitCode j depJob =? DP_TRUE); [apply Hnext|done].
Qed.

Lemma loop_end k arr ptr v : job_loop (S k) s type opType exitCode opFlag jidx arr depJob NULL ptr v = Some v.
Proof. done. Qed.

Lemma loop_single k p ptr v vs :
  values [p] = Some vs -> job_loop (S (S k)) s type opType exitCode opFlag jidx false depJob p ptr v = Some (run3 v vs).
Proof.
  intros Hv. eapply loop_round; [exact Hv|by intros|]. intros v' vs' [= <-]. apply loop_end.
Qed.

Lemma loop_list k c ptr v vs :
  values (elems (c :: ptr)) = Some vs -> (length ptr < k)%nat ->
  job_loop (S k) s type opType exitCode opFlag jidx true depJob (elem c) (c :: ptr) v = Some (run3 v vs).
Proof.
  revert k c v vs. induction ptr as [|c' ptr IH]; intros k c v vs Hv Hk; (destruct k as [|k]; [lia|]).
  - eapply loop_round; [exact Hv|by intros|]. intros v' vs' [= <-]. apply loop_end.
  - eapply loop_round; [exact Hv|by intros|]. intros v' vs' Hv'. apply IH; [done|simpl in *; lia].
Qed.

Lemma loop_chain n k p js v vs :
  elements n (ms s) p = Some js -> (length js < k)%nat -> values js = Some vs ->
  job_loop k s type opType exitCode opFlag jidx true depJob p [] v = Some (run3 v vs).
Proof.
  revert k p js v vs. induction n as [|n IH]; intros k p js v vs He Hk Hv; [done|]. cbn [elements] in He.
  destruct k as [|k]; [lia|]. destruct (Z.eqb_spec p NULL) as [->|Hp].
  - injection He as <-. injection Hv as <-. apply loop_end.
  - destruct (jobs (ms s) !! p) as [j|] eqn:Ej; [|done]. cbn [mbind option_bind] in He.
    destruct (elements n (ms s) (nextJob j)) as [l|] eqn:El; [|done]. injection He as <-.
    eapply loop_round; [exact Hv|intros j' Hj'; rewrite Ej in Hj'; injection Hj' as <-; reflexivity|].
    intros v' vs' Hv'. eapply IH; [exact El|simpl in *; lia|done].
Qed.

Lemma first_job_cases jobRec f :
  first_job s opFlag jobRec jidx depJob = Some f ->
  match f with inl v => v = DP_INVALID | inr (p, []) => True | inr (p, c :: _) => p = elem c end.
Proof.
  unfold first_job. destruct (jobs (ms s) !! jobRec) as [j|]; [|done]. cbn [mbind option_bind].
  destruct (negb (jNodeType j =? JGRP_NODE_ARRAY)); [by intros [= <-]|].
  destruct (if jidx =? NULL then Some [] else i ← idxs s !! jidx; Some (depJobList i)) as [[|c l]|]; cbn [mbind option_bind]; [| |done];
    (destruct (negb (opFlag =? ARRAY_DEP_ONE_TO_ONE)); [by intros [= <-]|]); destruct depJob as [d|]; [|done| |done];
    cbn [mbind option_bind]; (destruct (negb (getJobData _ _ =? NULL)); [by intros [= <-]|]).
  - destruct (jidx =? NULL); [|done]. by intros [= <-].
  - cbn. destruct (same_idx _ _ _ _) as [p|]; [|done]. by intros [= <-].
Qed.

(** A leaf that has a value evaluates to it, whatever it was before. *)
Lemma eval_job_den jobRec v w :
  den_job s type opType exitCode opFlag jobRec jidx depJob = Some v ->
  eval_job s type opType exitCode opFlag jobRec jidx depJob w = Some v /\ three v.
Proof.
  unfold den_job, eval_job, leaf_jobs. destruct (jobRec =? NULL); [intros [= <-]; split; [done|by right; right]|].
  destruct (jobs (ms s) !! jobRec) as [j|] eqn:Ej; [|done]. cbn [mbind option_bind].
  destruct (first_job s opFlag jobRec jidx depJob) as [[u|[p ptr]]|] eqn:Ef; cbn [mbind option_bind]; [|..|done].
  - intros [= <-]. split; [done|]. right. right. exact (first_job_cases _ _ Ef).
  - intros H. destruct ((jNodeType j =? JGRP_NODE_ARRAY) && negb (opFlag =? ARRAY_DEP_ONE_TO_ONE)) eqn:Ea; cbn [mbind option_bind] in H.
    + destruct ptr as [|c ptr].
      * destruct (elements (job_fuel (ms s)) (ms s) p) as [js|] eqn:Ee; [|done]. cbn [mbind option_bind] in H.
        destruct (leaf_values _ _ _ _ _ _ _ js) as [[|x vs]|] eqn:Ev; [done| |done]. cbn [mbind option_bind] in H. injection H as <-.
        split; [|exact (all3_three (x :: vs) (values_three _ _ Ev))]. pose proof (elements_length _ _ _ _ Ee).
        rewrite (loop_chain (job_fuel (ms s)) _ _ js _ (x :: vs)); [by rewrite run3_all3|done|simpl; lia|exact Ev].
      * cbn [mbind option_bind] in H. destruct (leaf_values _ _ _ _ _ _ _ (elems (c :: ptr))) as [[|x vs]|] eqn:Ev; [done| |done].
        cbn [mbind option_bind] in H. injection H as <-. split; [|exact (all3_three (x :: vs) (values_three _ _ Ev))].
        pose proof (first_job_cases _ _ Ef) as Hp. cbn in Hp.
        subst p. cbn [Nat.add]. rewrite (loop_list _ _ _ _ (x :: vs)); [by rewrite run3_all3|exact Ev|simpl; lia].
    + destruct (leaf_values _ _ _ _ _ _ _ [p]) as [[|x vs]|] eqn:Ev; [done| |done]. cbn [mbind option_bind] in H. injection H as <-.
      split; [|exact (all3_three (x :: vs) (values_three _ _ Ev))].
      unfold job_fuel. rewrite Nat.add_succ_r. cbn [Nat.add]. rewrite (loop_single _ _ _ _ (x :: vs)); [by rewrite run3_all3|exact Ev].
Qed.

End Loop.

(** ** Leaves on counters *)

Lemma destroy_void m d b :
  bases m !! d = Some b -> d <> NULL -> status b = JGRP_VOID -> jobArray b = NULL -> freeJgArray b <> NoFree ->
  1 <= numRef b < 2 ^ 31 ->
  destroyJgArrayBaseRef m d = Some (with_bases m
    (if numRef b =? 1 then delete d (bases m) else <[d := set_numRef (numRef b - 1) b]> (bases m))).
Proof.
  intros Hb Hd Hv Hj Hf Hn. unfold destroyJgArrayBaseRef, upd_base.
  rewrite (proj2 (Z.eqb_neq d NULL) Hd), Hb. cbn [mbind option_bind bases with_bases].
  rewrite lookup_insert_eq. cbn [mbind option_bind status set_numRef]. rewrite Hv, i32_small by lia. cbn [numRef freeJgArray set_numRef].
  change (JGRP_VOID =? JGRP_VOID) with true. cbn [andb]. destruct (Z.eqb_spec (numRef b) 1) as [E|E].
  - rewrite (proj2 (Z.leb_le _ _)) by lia. destruct (freeJgArray b); [done|..]; unfold freeGrpNode, freeJarray;
      rewrite (proj2 (Z.eqb_neq d NULL) Hd); cbn [bases with_bases]; rewrite lookup_insert_eq; cbn [mbind option_bind];
      cbn [jobArray set_numRef numRef]; rewrite ?Hj; cbn; rewrite (proj2 (Z.leb_le _ _)) by lia;
      unfold with_bases; cbn; by rewrite delete_insert_eq.
  - rewrite (proj2 (Z.leb_gt _ _)) by lia. done.
Qed.

Lemma drops_refl s : drops s s.
Proof. split; try done. intros d b' H. by exists b'. Qed.

Lemma drops_trans s1 s2 s3 : drops s1 s2 -> drops s2 s3 -> drops s1 s3.
Proof.
  intros [A1 A2 A3 A4 A7 A8 A5 A6] [B1 B2 B3 B4 B7 B8 B5 B6]. split; try congruence.
  - intros d b Hb Hv. apply B5; [by apply A5|done].
  - intros d b3 (b2 & H2 & E2 & F2)%B6. destruct (A6 d b2 H2) as (b1 & H1 & E1 & F1). exists b1. split; [done|]. split; congruence.
Qed.

Lemma drops_void s d b :
  bases (ms s) !! d = Some b -> status b = JGRP_VOID ->
  drops s (with_ms s (with_bases (ms s)
    (if numRef b =? 1 then delete d (bases (ms s)) else <[d := set_numRef (numRef b - 1) b]> (bases (ms s))))).
Proof.
  intros Hb Hv. split; try done; cbn [bases with_bases ms with_ms].
  - intros d' b' Hb' Hv'. destruct (decide (d' = d)) as [->|Hne]; [rewrite Hb in Hb'; by injection Hb' as <-|].
    case_match; [by rewrite lookup_delete_ne by done|by rewrite lookup_insert_ne by done].
  - intros d' b' Hb'. destruct (decide (d' = d)) as [->|Hne].
    + case_match; [by rewrite lookup_delete_eq in Hb'|]. rewrite lookup_insert_eq in Hb'. injection Hb' as <-. by exists b.
    + exists b'. split; [|done]. case_match; [by rewrite lookup_delete_ne in Hb' by done|by rewrite lookup_insert_ne in Hb' by done].
Qed.

(** Meaning is kept by evaluation elsewhere, as long as the blocks are there. *)
Lemma first_job_drops s s' opFlag jobRec jidx depJob :
  drops s s' -> first_job s' opFlag jobRec jidx depJob = first_job s opFlag jobRec jidx depJob.
Proof.
  intros [E1 E2 E3 _ _ _ _ _]. unfold first_job, getJobData. rewrite E1, E2, E3.
  assert (H : forall i pos p, same_idx s' i p pos = same_idx s i p pos).
  { intros i. induction pos as [|c pos IH]; intros p; cbn [same_idx]; rewrite E3; destruct (jobs (ms s) !! p); try done.
    cbn. by rewrite IH. }
  destruct (jobs (ms s) !! jobRec); [|done]. cbn [mbind option_bind]. destruct (negb _); [done|].
  destruct (if jidx =? NULL then Some [] else i ← idxs s !! jidx; Some (depJobList i)) as [[|c l]|]; [done| |done].
  cbn [mbind option_bind]. destruct (negb _); [done|]. destruct depJob; [|done]. cbn. by rewrite H.
Qed.

Lemma elements_drops s s' n p : drops s s' -> elements n (ms s') p = elements n (ms s) p.
Proof.
  intros [_ _ E _ _ _ _ _]. revert p. induction n as [|n IH]; intros p; [done|]. cbn. rewrite E.
  case_match; [done|]. destruct (jobs (ms s) !! p); [|done]. cbn. by rewrite IH.
Qed.

Lemma values_drops s s' t o e f i dj js : drops s s' -> leaf_values s' t o e f i dj js = leaf_values s t o e f i dj js.
Proof.
  intros [E1 _ E3 _ _ _ _ _]. induction js as [|p js IH]; [done|]. cbn. rewrite E3. case_match; [done|].
  destruct (jobs (ms s) !! p); [|done]. cbn. unfold relevant. by rewrite E1, IH.
Qed.

Lemma den_job_drops s s' t o e f j i dj : drops s s' -> den_job s' t o e f j i dj = den_job s t o e f j i dj.
Proof.
  intros Hd. unfold den_job, leaf_jobs. rewrite (first_job_drops s s') by done. pose proof (dr_jobs _ _ Hd) as E3.
  rewrite E3. case_match; [done|]. destruct (jobs (ms s) !! j) as [jd|]; [|done]. cbn [mbind option_bind].
  destruct (first_job s f j i dj) as [[v|[p ptr]]|]; [done| |done]. cbn [mbind option_bind].
  replace (job_fuel (ms s')) with (job_fuel (ms s)) by (unfold job_fuel; by rewrite E3).
  rewrite (elements_drops s s') by done.
  destruct (_ && _); [destruct ptr; [destruct (elements _ _ _) as [js|]; [|done]|]|]; cbn [mbind option_bind];
    by rewrite (values_drops s s').
Qed.

Lemma held_nonneg n d : 0 <= held n d.
Proof. induction n; cbn; try lia. case_match; lia. Qed.

Lemma held_null d : (if (NULL =? d) && negb (d =? NULL) then 1 else 0) = 0.
Proof. by destruct (Z.eqb_spec NULL d) as [<-|]. Qed.

Lemma updateTimeWindow_again ctime now tw tw' :
  updateTimeWindow ctime now tw = Some tw' ->
  exists tw2, updateTimeWindow ctime now tw' = Some tw2 /\ tw_status tw2 = tw_status tw'.
Proof.
  unfold updateTimeWindow. destruct ((now <? windEdge tw) || (windEdge tw =? 0)) eqn:E.
  - intros [= <-]. rewrite E. eauto.
  - destruct (getDayHour (ctime now)) as [dh|]; [|done]. cbn [mbind option_bind].
    destruct (week tw !! Z.to_nat (day dh)) as [ws|] eqn:Ew; [|done]. cbn [mbind option_bind]. cbn zeta.
    generalize (to_int (dadd (f64_of_Z now) (dmul (dsub (f64_of_Z 24) (to_double (dh_hour dh))) (f64_of_Z 3600)))).
    intros edge0. destruct ws as [|w ws].
    + intros <-%(inj Some). cbn [windEdge week tw_status tw_windows]. destruct ((now <? edge0) || (edge0 =? 0)); [by eexists|]. rewrite Ew. cbn [mbind option_bind]. by eexists.
    + destruct (check_chain dh now edge0 (w :: ws)) as [op edge] eqn:Ec. intros <-%(inj Some).
      cbn [windEdge week tw_status tw_windows]. destruct ((now <? edge) || (edge =? 0)); [by eexists|]. rewrite Ew. cbn [mbind option_bind].
      rewrite Ec. by eexists.
Qed.

Section Meaning.
Context (ctime : Z -> list ascii) (now : Z) (depJob : option jData).
Let Den := den ctime now.
Let Run := evalDepCond ctime now.

Lemma den_drops s s' n :
  drops s s' -> (forall d, 0 < held n d -> is_Some (bases (ms s') !! d)) -> Den s' depJob n = Den s depJob n.
Proof.
  intros Hd. unfold Den. induction n as [|t v u l IHl r IHr|t v u o e f j i|t v u w|t v u o k d]; intros Hh; try done.
  - pose proof (held_nonneg l). pose proof (held_nonneg r).
    assert (Hl : forall d, 0 < held l d -> is_Some (bases (ms s') !! d)).
    { intros d Hp. apply Hh. cbn. specialize (H0 d). lia. }
    assert (Hr : forall d, 0 < held r d -> is_Some (bases (ms s') !! d)).
    { intros d Hp. apply Hh. cbn. specialize (H d). lia. }
    destruct t; cbn [den]; try done; by rewrite ?IHl, ?IHr.
  - cbn [den]. by rewrite (den_job_drops s s').
  - cbn [den]. destruct (grp_type t); [|done]. unfold den_grp. destruct (Z.eqb_spec d NULL) as [|Hn]; [done|].
    destruct (Hh d) as [b' Hb'].
    { cbn. rewrite Z.eqb_refl, (proj2 (Z.eqb_neq d NULL) Hn). cbn. lia. }
    destruct (dr_void _ _ Hd d b' Hb') as (b & Hb & Es & Ec). rewrite Hb, Hb'. cbn [mbind option_bind]. by rewrite Es, Ec.
Qed.

(** What evaluation does to a tree and the state. *)
Definition evaluates (s : dstate) (h : Z -> Z) (n : dptNode) (v : Z) (n' : dptNode) (s' : dstate) : Prop :=
  Run s depJob n = Some (v, n', s') /\ drops s s' /\ (forall d, held n' d <= held n d) /\
  refs_ok s' (fun d => h d - held n d + held n' d) /\ Den s' depJob n' = Some v.

Lemma refs_ext s h h' : (forall d, h d = h' d) -> refs_ok s h -> refs_ok s h'.
Proof. intros E H d Hd. rewrite <- E in Hd. destruct (H d Hd) as (b & H1 & H2 & H3). exists b. by rewrite <- E. Qed.

Lemma eval_grp_spec s h t v u o k d x :
  refs_ok s h -> (forall d', held (Grp t v u o k d) d' <= h d') -> grp_type t = true -> den_grp s t o k d = Some x ->
  exists n' s', evaluates s h (Grp t v u o k d) x n' s'.
Proof.
  intros Hr Hh Ht Hx.
  assert (Hev : forall y d' s', eval_grp s t o k d = Some (y, d', s') ->
    Run s depJob (Grp t v u o k d) = Some (y, Grp t y u o k d', s')).
  { intros y d' s' E. unfold Run. destruct t; try done; cbn [evalDepCond]; by rewrite E. }
  assert (Hden : forall s y d', Den s depJob (Grp t y u o k d') = den_grp s t o k d') by (intros; unfold Den; cbn; by rewrite Ht).
  assert (Hkeep : eval_grp s t o k d = Some (x, d, s) -> exists n' s', evaluates s h (Grp t v u o k d) x n' s').
  { intros E. exists (Grp t x u o k d), s. split; [by apply Hev|]. split; [apply drops_refl|]. split; [done|].
    split; [|by rewrite Hden]. eapply refs_ext; [|exact Hr]. intros d'. cbn. lia. }
  unfold den_grp, eval_grp in *. destruct (Z.eqb_spec d NULL) as [->|Hn].
  - injection Hx as <-. by apply Hkeep.
  - assert (Hd : 0 < h d).
    { specialize (Hh d). cbn in Hh. rewrite Z.eqb_refl, (proj2 (Z.eqb_neq d NULL) Hn) in Hh. cbn in Hh. lia. }
    destruct (Hr d Hd) as (b & Hb & Hnum & Hvoid). rewrite Hb in Hx, Hkeep, Hev. cbn [mbind option_bind] in *.
    destruct (Z.eqb_spec (status b) JGRP_VOID) as [Ev|Ev].
    + injection Hx as <-. destruct (Hvoid Ev) as [Hj Hf]. rewrite (destroy_void _ _ b) in Hev by (done || lia).
      cbn [mbind option_bind] in Hev. eexists (Grp t DP_INVALID u o k NULL), _.
      split; [by apply Hev|]. split; [by apply drops_void|]. split; [|split; [|by rewrite Hden]].
      * intros d'. cbn [held]. rewrite held_null. destruct ((d =? d') && negb (d' =? NULL)); lia.
      * intros d' Hd'. cbn [held] in Hd'. cbn [ms with_ms bases with_bases].
        cbn [held]. rewrite held_null in Hd' |- *. destruct (decide (d' = d)) as [->|Hne].
        -- rewrite Z.eqb_refl, (proj2 (Z.eqb_neq d NULL) Hn) in Hd' |- *. cbn [negb andb] in *. destruct (Z.eqb_spec (numRef b) 1); [lia|].
           rewrite lookup_insert_eq. eexists. split; [reflexivity|]. cbn. split; [lia|done].
        -- rewrite (proj2 (Z.eqb_neq d d') ltac:(done)) in Hd' |- *. cbn [andb] in *. destruct (Hr d' ltac:(lia)) as (b' & Hb' & Hn' & Hv'). exists b'. split; [|split; [lia|done]].
           destruct (numRef b =? 1); [by rewrite lookup_delete_ne|by rewrite lookup_insert_ne].
    + destruct (if k =? INFINIT_INT then _ else _) as [n|]; [|done]. cbn [mbind option_bind] in *.
      destruct (getCounterOfDep t (counts b)) as [c|]; [|done]. cbn [mbind option_bind] in *. injection Hx as <-. by apply Hkeep.
Qed.

(** Binary connectives: the left operand and, if needed, the right one. *)
Lemma eval_both s h l r a b :
  refs_ok s h -> (forall d, held l d + held r d <= h d) ->
  (forall s h v, refs_ok s h -> (forall d, held l d <= h d) -> Den s depJob l = Some v ->
     three v /\ exists n' s', evaluates s h l v n' s') ->
  (forall s h v, refs_ok s h -> (forall d, held r d <= h d) -> Den s depJob r = Some v ->
     three v /\ exists n' s', evaluates s h r v n' s') ->
  Den s depJob l = Some a -> Den s depJob r = Some b ->
  three a /\ three b /\ exists l' s1 r' s2,
    Run s depJob l = Some (a, l', s1) /\ Run s1 depJob r = Some (b, r', s2) /\
    (drops s s1 /\ (forall d, held l' d <= held l d) /\
     refs_ok s1 (fun d => h d - (held l d + held r d) + (held l' d + held r d)) /\
     Den s1 depJob l' = Some a /\ Den s1 depJob r = Some b) /\
    (drops s s2 /\ (forall d, held l' d + held r' d <= held l d + held r d) /\
     refs_ok s2 (fun d => h d - (held l d + held r d) + (held l' d + held r' d)) /\
     Den s2 depJob l' = Some a /\ Den s2 depJob r' = Some b).
Proof.
  intros Hr Hh IHl IHr Ha Hb.
  destruct (IHl s h a Hr) as (Ta & l' & s1 & El & D1 & L1 & R1 & V1); [|done|].
  { intros d. specialize (Hh d). pose proof (held_nonneg r d). lia. }
  assert (Hb1 : Den s1 depJob r = Some b).
  { rewrite (den_drops s s1); [done|done|]. intros d Hd. destruct (R1 d) as (x & Hx & _); [|by exists x].
    pose proof (held_nonneg l' d). specialize (Hh d). lia. }
  destruct (IHr s1 _ b R1) as (Tb & r' & s2 & Er & D2 & L2 & R2 & V2); [|done|].
  { intros d. pose proof (held_nonneg l' d). specialize (Hh d). lia. }
  split; [done|]. split; [done|]. exists l', s1, r', s2. split; [exact El|]. split; [exact Er|]. split.
  - split; [done|]. split; [done|]. split; [|by split]. eapply refs_ext; [|exact R1]. intros d. cbn. lia.
  - split; [by eapply drops_trans|]. split; [intros d; specialize (L1 d); specialize (L2 d); lia|]. split; [|split; [|done]].
    + eapply refs_ext; [|exact R2]. intros d. cbn. lia.
    + rewrite (den_drops s1 s2); [done|done|]. intros d Hd. destruct (R2 d) as (x & Hx & _); [|by exists x].
      pose proof (held_nonneg r' d). specialize (Hh d). specialize (L2 d). lia.
Qed.

Lemma eval_spec n s h v :
  refs_ok s h -> (forall d, held n d <= h d) -> Den s depJob n = Some v ->
  three v /\ exists n' s', evaluates s h n v n' s'.
Proof.
  revert s h v. induction n as [|t w u l IHl r IHr|t w u o e f j i|t w u tw|t w u o k d]; intros s h v Hr Hh Hv; [done|..].
  - destruct t; try done; unfold Den in Hv; cbn [den] in Hv.
    1,2: destruct (den ctime now s depJob l) as [a|] eqn:Ea; [|done]; cbn [mbind option_bind] in Hv;
      destruct (den ctime now s depJob r) as [b|] eqn:Eb; [|done]; cbn [mbind option_bind] in Hv;
      injection Hv as <-;
      destruct (eval_both s h l r a b Hr Hh IHl IHr Ea Eb) as (Ta & Tb & l' & s1 & r' & s2 & El & Er & (A1 & A2 & A3 & A4 & A5) & (B1 & B2 & B3 & B4 & B5));
      unfold Run in El, Er; unfold Den in A4, A5, B4, B5;
      (split; [unfold and3, or3, three in *; repeat case_match; auto|]);
      unfold evaluates, Run, Den; cbn [evalDepCond]; rewrite El; cbn [mbind option_bind]; rewrite Er; cbn [mbind option_bind];
      destruct Ta as [->|[->| ->]], Tb as [->|[->| ->]]; cbn -[den held refs_ok];
      eexists _, _; (split; [reflexivity|]); cbn [held]; cbn [den]; rewrite ?A4, ?A5, ?B4, ?B5;
      (split; [first [exact A1|exact B1]|]); (split; [first [exact B2|intros d; specialize (A2 d); lia]|]);
      (split; [first [exact A3|exact B3]|reflexivity]).
    destruct (den ctime now s depJob l) as [a|] eqn:Ea; [|done]. cbn [mbind option_bind] in Hv. injection Hv as <-.
    destruct (IHl s h a Hr) as (Ta & l' & s1 & El & D1 & L1 & R1 & V1); [|done|].
    { intros d. specialize (Hh d). pose proof (held_nonneg r d). cbn in Hh. lia. }
    split; [unfold not3, three; case_match; auto|]. unfold Run in El. unfold Den in V1.
    exists (Opr DPT_NOT (not3 a) u l' r), s1. unfold evaluates, Run, Den. cbn [evalDepCond]. rewrite El. cbn [mbind option_bind].
    split; [destruct Ta as [->|[->| ->]]; reflexivity|]. split; [done|]. cbn [held den]. rewrite V1.
    split; [intros d; specialize (L1 d); lia|]. split; [|done]. eapply refs_ext; [|exact R1]. intros d. cbn. lia.
  - unfold Den in Hv. cbn [den] in Hv. destruct (job_type t) eqn:Et; [|done].
    destruct (eval_job_den s t o e f i depJob j v w Hv) as [He Tv]. split; [done|].
    exists (Job t v u o e f j i), s. unfold evaluates, Run, Den. cbn [den held]. rewrite Et.
    split; [|split; [apply drops_refl|]; split; [done|]; split; [|done]].
    + destruct t; try done; cbn [evalDepCond]; by rewrite He.
    + eapply refs_ext; [|exact Hr]. intros d. cbn. lia.
  - destruct t; try done. unfold Den in Hv. cbn [den] in Hv. destruct (updateTimeWindow ctime now tw) as [tw'|] eqn:Eu; [|done].
    cbn [mbind option_bind] in Hv. apply (inj Some) in Hv as <-. split; [unfold three; case_match; auto|].
    destruct (updateTimeWindow_again _ _ _ _ Eu) as (tw2 & Eu2 & Es).
    eexists (Wind DPT_WINDOW _ u tw'), s. unfold evaluates, Run, Den. cbn [evalDepCond den]. rewrite Eu, Eu2.
    cbn [mbind option_bind held]. rewrite Es. split; [reflexivity|]. split; [apply drops_refl|]. split; [done|]. split; [|done].
    eapply refs_ext; [|exact Hr]. intros d. cbn. lia.
  - unfold Den in Hv. cbn [den] in Hv. destruct (grp_type t) eqn:Et; [|done].
    split; [|by eapply eval_grp_spec]. unfold den_grp in Hv. unfold three. destruct (d =? NULL); [injection Hv as <-; auto|].
    destruct (bases (ms s) !! d); [|done]. cbn [mbind option_bind] in Hv. destruct (_ =? JGRP_VOID); [injection Hv as <-; auto|].
    destruct (if k =? INFINIT_INT then _ else _); [|done]. cbn [mbind option_bind] in Hv.
    destruct (getCounterOfDep _ _); [|done]. cbn [mbind option_bind] in Hv. injection Hv as <-. case_match; auto.
Qed.
(** ** The references that are given back *)

(** How many references to the void array [d] are at the leaves that are looked at:
    the right operand is left alone when the left one decides. *)
Fixpoint taken (s : dstate) (n : dptNode) (d : Z) : Z :=
  match n with
  | Opr DPT_AND _ _ l r => taken s l d + (if decide (Den s depJob l = Some DP_INVALID) then 0 else taken s r d)
  | Opr DPT_OR _ _ l r => taken s l d + (if decide (Den s depJob l = Some DP_TRUE) then 0 else taken s r d)
  | Opr DPT_NOT _ _ l _ => taken s l d
  | Grp _ _ _ _ _ d' =>
      if decide (d' = d /\ d <> NULL /\ status <$> bases (ms s) !! d = Some JGRP_VOID) then 1 else 0
  | _ => 0
  end.

(** [k d] references to each block have been given back, and a block that has none
    left is freed. *)
Definition gave_back (k : Z -> Z) (s s' : dstate) : Prop :=
  forall d, bases (ms s') !! d =
    b ← bases (ms s) !! d;
    if k d =? 0 then Some b else if numRef b - k d <=? 0 then None else Some (set_numRef (numRef b - k d) b).

Lemma taken_nonneg s n d : 0 <= taken s n d.
Proof.
  induction n as [|t v u l IHl r IHr|t v u o e f j i|t v u w|t v u o k d']; cbn [taken]; try lia; [|by case_decide].
  destruct t; try lia; case_decide; lia.
Qed.

Lemma gave_back_none s k : (forall d, k d = 0) -> gave_back k s s.
Proof. intros Hk d. rewrite Hk. cbn. by destruct (bases (ms s) !! d). Qed.

Lemma gave_back_trans s s1 s2 k1 k2 : (forall d, 0 <= k1 d) -> (forall d, 0 <= k2 d) -> gave_back k1 s s1 -> gave_back k2 s1 s2 ->
  gave_back (fun d => k1 d + k2 d) s s2.
Proof.
  intros P1 P2 H1 H2 d. rewrite (H2 d), (H1 d). specialize (P1 d). specialize (P2 d). destruct (bases (ms s) !! d) as [b|]; [|done]. cbn [mbind option_bind].
  destruct (Z.eqb_spec (k1 d) 0) as [->|].
  - cbn [mbind option_bind]. by rewrite Z.add_0_l.
  - rewrite (proj2 (Z.eqb_neq (k1 d + k2 d) 0)) by lia. destruct (Z.leb_spec (numRef b - k1 d) 0).
    + cbn. by rewrite (proj2 (Z.leb_le _ _)) by lia.
    + cbn [mbind option_bind numRef set_numRef]. destruct (Z.eqb_spec (k2 d) 0) as [->|]; [by rewrite Z.add_0_r, (proj2 (Z.leb_gt _ _)) by lia|].
      replace (numRef b - k1 d - k2 d) with (numRef b - (k1 d + k2 d)) by lia. by destruct (_ <=? 0).
Qed.

Lemma gave_back_ext s s' k k' : (forall d, k d = k' d) -> gave_back k s s' -> gave_back k' s s'.
Proof. intros E H d. rewrite <- E. apply H. Qed.

Lemma taken_drops s s' n d :
  drops s s' -> (forall d, 0 < held n d -> is_Some (bases (ms s') !! d)) -> taken s' n d = taken s n d.
Proof.
  intros Hd. induction n as [|t v u l IHl r IHr|t v u o e f j i|t v u w|t v u o k d']; intros Hh; try done; cbn [taken].
  - pose proof (held_nonneg l) as Pl. pose proof (held_nonneg r) as Pr.
    assert (Hl : forall d, 0 < held l d -> is_Some (bases (ms s') !! d)) by (intros x Hp; apply Hh; cbn; specialize (Pr x); lia).
    assert (Hr : forall d, 0 < held r d -> is_Some (bases (ms s') !! d)) by (intros x Hp; apply Hh; cbn; specialize (Pl x); lia).
    rewrite IHl, IHr by done. destruct t; try done; by rewrite (den_drops s s').
  - destruct (decide (d' = d /\ d <> NULL)) as [[-> Hn]|Hno]; [|by rewrite !decide_False by tauto].
    destruct (Hh d) as [b' Hb']; [cbn; rewrite Z.eqb_refl, (proj2 (Z.eqb_neq d NULL) Hn); cbn; lia|].
    destruct (dr_void _ _ Hd d b' Hb') as (b & Hb & Es & _). rewrite Hb, Hb'. cbn. by rewrite Es.
Qed.

(** What is true of the tree and the blocks after an evaluation. *)
Definition accounted (s : dstate) (n n' : dptNode) (s' : dstate) : Prop :=
  (forall d, held n' d = held n d - taken s n d) /\ gave_back (taken s n) s s'.

Lemma grp_accounted s h t v u o k d x n' s' :
  refs_ok s h -> (forall d', held (Grp t v u o k d) d' <= h d') -> grp_type t = true ->
  Run s depJob (Grp t v u o k d) = Some (x, n', s') -> accounted s (Grp t v u o k d) n' s'.
Proof.
  intros Hr Hh Ht HR.
  assert (Hev : exists y d', eval_grp s t o k d = Some (y, d', s') /\ n' = Grp t y u o k d').
  { unfold Run in HR. destruct t; try done; cbn [evalDepCond] in HR; destruct (eval_grp s _ o k d) as [[[y d'] s1]|]; try done;
      cbn [mbind option_bind] in HR; injection HR as <- <- <-; by exists y, d'. }
  destruct Hev as (y & d' & He & ->). unfold eval_grp in He.
  assert (Hkeep : forall b, bases (ms s) !! d = Some b -> status b <> JGRP_VOID -> d' = d -> s' = s -> accounted s (Grp t v u o k d) (Grp t y u o k d') s').
  { intros b Hb Hv -> ->. assert (Hz : forall x, taken s (Grp t v u o k d) x = 0).
    { intros z. cbn [taken]. apply decide_False. intros (-> & _ & E). rewrite Hb in E. by injection E. }
    split; [intros z; rewrite Hz; cbn; lia|by apply gave_back_none]. }
  destruct (Z.eqb_spec d NULL) as [->|Hn].
  - injection He as <- <- <-. assert (Hz : forall x, taken s (Grp t v u o k NULL) x = 0) by (intros z; cbn [taken]; apply decide_False; intros (<- & ? & _); done).
    split; [intros z; rewrite Hz; cbn; lia|by apply gave_back_none].
  - assert (Hd : 0 < h d) by (specialize (Hh d); cbn in Hh; rewrite Z.eqb_refl, (proj2 (Z.eqb_neq d NULL) Hn) in Hh; cbn in Hh; lia).
    destruct (Hr d Hd) as (b & Hb & Hnum & Hvoid). rewrite Hb in He. cbn [mbind option_bind] in He.
    destruct (Z.eqb_spec (status b) JGRP_VOID) as [Ev|Ev].
    2: { destruct (if k =? INFINIT_INT then n ← counts b !! Z.to_nat JGRP_COUNT_NJOBS; Some (if n <=? 0 then INFINIT_INT else n) else Some k); [|done].
         cbn [mbind option_bind] in He. destruct (getCounterOfDep t (counts b)); [|done]. cbn [mbind option_bind] in He. injection He as <- <- <-. by eapply Hkeep. }
    destruct (Hvoid Ev) as [Hj Hf]. rewrite (destroy_void _ _ b) in He by (done || lia). cbn [mbind option_bind] in He. injection He as <- <- <-.
    assert (Hz : forall z, taken s (Grp t v u o k d) z = if decide (d = z) then 1 else 0).
    { intros z. cbn [taken]. destruct (decide (d = z)) as [<-|]; [rewrite decide_True; [done|]; split; [done|]; split; [done|]; rewrite Hb; cbn; by rewrite Ev|].
      apply decide_False. tauto. }
    split.
    + intros z. rewrite Hz. cbn [held]. rewrite held_null. destruct (decide (d = z)) as [<-|Hne].
      * by rewrite Z.eqb_refl, (proj2 (Z.eqb_neq d NULL) Hn).
      * by rewrite (proj2 (Z.eqb_neq d z) Hne).
    + intros z. rewrite Hz. cbn [ms with_ms bases with_bases]. destruct (decide (d = z)) as [<-|Hne].
      * rewrite Hb. cbn. destruct (Z.eqb_spec (numRef b) 1) as [E1|E1].
        -- rewrite lookup_delete_eq, (proj2 (Z.leb_le _ _)) by lia. done.
        -- rewrite lookup_insert_eq, (proj2 (Z.leb_gt _ _)) by lia. done.
      * cbn. destruct (numRef b =? 1); [rewrite lookup_delete_ne by done|rewrite lookup_insert_ne by done]; by destruct (bases (ms s) !! z).
Qed.

Lemma eval_accounted n : forall s h v n' s',
  refs_ok s h -> (forall d, held n d <= h d) -> Den s depJob n = Some v -> Run s depJob n = Some (v, n', s') -> accounted s n n' s'.
Proof.
  induction n as [|t w u l IHl r IHr|t w u o e f j i|t w u tw|t w u o k d]; intros s h v n' s' Hr Hh Hv HR; [done|..].
  - destruct t; try done; unfold Den in Hv; cbn [den] in Hv.
    1,2: destruct (den ctime now s depJob l) as [a|] eqn:Ea; [|done]; cbn [mbind option_bind] in Hv;
      destruct (den ctime now s depJob r) as [b|] eqn:Eb; [|done]; cbn [mbind option_bind] in Hv; injection Hv as <-;
      destruct (eval_both s h l r a b Hr Hh (fun s h v => eval_spec l s h v) (fun s h v => eval_spec r s h v) Ea Eb)
        as (Ta & Tb & l' & s1 & r' & s2 & El & Er & (A1 & A2 & A3 & A4 & A5) & _);
      pose proof (held_nonneg l) as Pl; pose proof (held_nonneg r) as Pr; pose proof (held_nonneg l') as Pl';
      destruct (IHl s h a l' s1 Hr (fun d => ltac:(specialize (Hh d); specialize (Pr d); cbn in Hh; lia)) Ea El) as [L1 L2];
      destruct (IHr s1 (fun d => h d - (held l d + held r d) + (held l' d + held r d)) b r' s2 A3
        (fun d => ltac:(specialize (Hh d); specialize (Pl' d); cbn in Hh |- *; lia)) A5 Er) as [R1 R2];
      assert (Hp : forall d, 0 < held r d -> is_Some (bases (ms s1) !! d))
        by (intros d Hd; destruct (A3 d) as (x & Hx & _); [specialize (Hh d); specialize (Pl' d); cbn in Hh; lia|by exists x]);
      assert (T : forall d, taken s1 r d = taken s r d) by (intros d; by apply taken_drops);
      pose proof (gave_back_trans s s1 s2 _ _ (taken_nonneg s l) (taken_nonneg s1 r) L2 R2) as R3;
      unfold Run in HR, El, Er; cbn [evalDepCond] in HR; rewrite El in HR; cbn [mbind option_bind] in HR; rewrite Er in HR; cbn [mbind option_bind] in HR;
      destruct Ta as [->|[->| ->]], Tb as [->|[->| ->]]; cbn -[den held refs_ok] in HR; injection HR as <- <-;
      (split; [intros x; cbn [held taken]; unfold Den; rewrite Ea; rewrite L1, ?R1, ?T; repeat case_decide; (done || lia)|]);
      (eapply gave_back_ext; [|first [exact R3|exact L2]]); intros x; cbn [taken]; unfold Den; rewrite Ea; rewrite ?T; repeat case_decide; (done || lia).
    destruct (den ctime now s depJob l) as [a|] eqn:Ea; [|done]. cbn [mbind option_bind] in Hv. injection Hv as <-.
    assert (Hl : forall d, held l d <= h d) by (intros d; specialize (Hh d); pose proof (held_nonneg r d); cbn in Hh; lia).
    destruct (eval_spec l s h a Hr Hl Ea) as (Ta & l' & s1 & El & _). destruct (IHl s h a l' s1 Hr Hl Ea El) as [L1 L2].
    unfold Run in HR, El. cbn [evalDepCond] in HR. rewrite El in HR. cbn [mbind option_bind] in HR. injection HR as _ <- <-.
    split; [intros x; cbn [held taken]; rewrite L1; lia|done].
  - unfold Den in Hv. cbn [den] in Hv. destruct (job_type t) eqn:Et; [|done].
    assert (E : exists y, n' = Job t y u o e f j i /\ s' = s).
    { unfold Run in HR. destruct t; try done; cbn [evalDepCond] in HR; destruct (eval_job s _ o e f j i depJob w); try done;
        cbn [mbind option_bind] in HR; injection HR as _ <- <-; by eexists. }
    destruct E as (y & -> & ->). split; [done|]. by apply gave_back_none.
  - destruct t; try done. unfold Run in HR. cbn [evalDepCond] in HR. destruct (updateTimeWindow ctime now tw); [|done]. cbn [mbind option_bind] in HR.
    injection HR as _ <- <-. split; [done|]. by apply gave_back_none.
  - unfold Den in Hv. cbn [den] in Hv. destruct (grp_type t) eqn:Et; [|done]. by eapply grp_accounted.
Qed.
End Meaning.

(** * Properties *)

(** The stored order of the operands does not matter. *)
Lemma and3_comm a b : and3 a b = and3 b a.
Proof. unfold and3. by rewrite (orb_comm (a =? DP_INVALID)), (orb_comm (a =? DP_FALSE)). Qed.
Lemma or3_comm a b : or3 a b = or3 b a.
Proof. unfold or3. by rewrite (orb_comm (a =? DP_TRUE)), (andb_comm (a =? DP_INVALID)). Qed.

(** [evalDepCond] computes the three-valued meaning of a condition, whatever
    values are cached in its nodes: a leaf on jobs is true if all jobs it is
    about satisfy it and otherwise false or invalid by the first that does not,
    and the connectives are those of the tables above.  It always returns, never
    rejects, and changes no job.  It gives back exactly the references to void
    arrays at the leaves that it looks at, [taken] of them for each array: they
    are gone from the tree, the counts are lower by as many, and an array without
    references is freed; nothing else of the arrays changes, and the tree that is
    left means the same.  The tests of a leaf on one job and on counters are those
    of [job_value] and [getCounterOfDep].  (C6) *)
Theorem evalDepCond_correct ctime now s depJob n v :
  refs_ok s (held n) -> den ctime now s depJob n = Some v ->
  three v /\ exists n' s',
    evalDepCond ctime now s depJob n = Some (v, n', s') /\ drops s s' /\
    (forall d, held n' d = held n d - taken ctime now depJob s n d) /\
    gave_back (taken ctime now depJob s n) s s' /\
    refs_ok s' (held n') /\ den ctime now s' depJob n' = Some v.
Proof.
  intros Hr Hv. destruct (eval_spec ctime now depJob n s (held n) v Hr) as (Tv & n' & s' & E & D & _ & R & V); [done|done|].
  destruct (eval_accounted ctime now depJob n s (held n) v n' s' Hr (fun d => Z.le_refl _) Hv E) as [A B].
  split; [done|]. exists n', s'. split; [exact E|]. split; [done|]. split; [done|]. split; [done|]. split; [|exact V].
  eapply refs_ext; [|exact R]. intros d. cbn. lia.
Qed.

(** Two jobs, one done and one pending, and two arrays of which one is void. *)
Definition sample_jdata (id st endt : Z) : jData :=
  JData 500 "alice" id st 0 0 "normal" None 1 NULL JGRP_NODE_JOB NULL 0 0 0 "j" "sleep" NULL 0 0 0 endt 0.
Definition sample_jbase (st : Z) (c : list Z) : jgArrayBase :=
  JgArrayBase 1 st 0 0 500 None 0 FreeJarray c NULL 0.
Definition sample_dstate : dstate := DState
  (MState ∅ (list_to_map [(101, sample_jbase JGRP_ACTIVE [4; 1; 0; 0; 0; 0; 1; 2; 0]);
                          (102, sample_jbase JGRP_VOID [0; 0; 0; 0; 0; 0; 0; 0; 0])])
     (list_to_map [(201, sample_jdata 1 JOB_STAT_DONE 50); (202, sample_jdata 2 JOB_STAT_PEND 0)])
     NULL NULL [] (LState [] 1000)) ∅ ∅.
(** [done(201) && (numended(101, >= 3) || !numdone(102))] as it is stored. *)
Definition sample_cond : dptNode :=
  Opr DPT_AND DP_FALSE 1
    (Opr DPT_OR DP_FALSE 0
       (Opr DPT_NOT DP_FALSE 0 (Grp DPT_NUMDONE DP_FALSE 0 DPT_NE 0 102) Null)
       (Grp DPT_NUMENDED DP_FALSE 0 DPT_GE 3 101))
    (Job DPT_DONE DP_FALSE 0 DPT_TRUE 0 0 201 NULL).

Lemma evalDepCond_correct_witness :
  exists n' s', evalDepCond (fun _ => []) 100 sample_dstate (Some (sample_jdata 3 JOB_STAT_PEND 0)) sample_cond
    = Some (DP_TRUE, n', s') /\ bases (ms s') !! 102 = None.
Proof.
  destruct (evalDepCond_correct (fun _ => []) 100 sample_dstate (Some (sample_jdata 3 JOB_STAT_PEND 0)) sample_cond DP_TRUE)
    as (_ & n' & s' & E & _).
  - intros d Hd. unfold sample_cond in Hd. cbn [held] in Hd.
    assert (d = 101 \/ d = 102) as [->| ->] by (destruct (Z.eqb_spec 101 d), (Z.eqb_spec 102 d); cbn in Hd; lia).
    + eexists. split; [vm_compute; reflexivity|]. cbn. split; [lia|done].
    + eexists. split; [vm_compute; reflexivity|]. cbn. split; [lia|done].
  - vm_compute. reflexivity.
  - exists n', s'. split; [exact E|]. vm_compute in E. injection E as <- <-. reflexivity.
Defined.

(** A leaf on an array whose indices no element has keeps the value it had when
    it was last evaluated: here the same condition gives both answers. *)
Lemma evalDepCond_stale :
  let s := DState (MState ∅ ∅ (list_to_map [(300, JData 500 "alice" 7 JOB_STAT_PEND 0 0 "normal" None 1 NULL
             JGRP_NODE_ARRAY NULL 0 0 0 "j" "sleep" NULL 0 0 0 0 0)]) NULL NULL [] (LState [] 1000)) ∅ ∅ in
  let leaf v := Job DPT_DONE v 0 DPT_TRUE 0 0 300 NULL in
  (fun x => fst (fst x)) <$> evalDepCond (fun _ => []) 100 s None (leaf DP_TRUE) = Some DP_TRUE /\
  (fun x => fst (fst x)) <$> evalDepCond (fun _ => []) 100 s None (leaf DP_FALSE) = Some DP_FALSE.
Proof. by vm_compute. Qed.

(** An element that waits one to one for an array in which its index is missing
    looks at the last element of the list instead. *)
Lemma first_job_other :
  let el i := JData 500 "alice" (LSB_JOBID 7 i) JOB_STAT_DONE 0 0 "normal" None 1 NULL
     JGRP_NODE_JOB NULL 0 0 0 "j" "sleep" NULL 0 0 0 0 0 in
  let arr := JData 500 "alice" 7 JOB_STAT_PEND 0 0 "normal" None 1 NULL
     JGRP_NODE_ARRAY 301 0 0 0 "j" "sleep" NULL 0 0 0 0 0 in
  let s := DState (MState ∅ ∅ (list_to_map [(300, arr); (301, el 1); (302, el 2)]) NULL NULL [] (LState [] 1000))
     (list_to_map [(9, JobIdx 1 [] [Cell 21 301; Cell 22 302])]) ∅ in
  first_job s ARRAY_DEP_ONE_TO_ONE 300 9 (Some (el 5)) = Some (inr (302, [])).
Proof. by vm_compute. Qed.
