(* ===== verification/JgrpDep.v ===== *)
(** * The dependency scan, [checkJgrpDep] of [lsbatch/daemons/mbd.jgrp.c]

    The scan walks the group tree from where it stopped last time, evaluates
    the conditions of the pending jobs with [evalDepCond] and marks every job
    ready, or notes why it is not.  It leaves off between two nodes when the
    clock says it has taken too long.  The conditions are the trees of
    [Dep.v], kept under the pointers that jobs have in [shared->dptRoot]; the
    elements of an array share one.  An evaluation changes the tree it is given
    and may give references back, so both are part of the state that the scan
    hands on.  [DepScan.v] proves what the scan does. *)

From Stdlib Require Import Ascii.
From S2P Require Import Prelude Lsb ListSet Jgrp JgrpTree JgrpCount JgrpOps CString Window Jidx Jarray Dep.

(** ** The scan *)

(** The state of the daemon with the conditions of its jobs. *)
Record cstate := CState { ds : dstate; conds : gmap Z dptNode }.

Definition cms (s : cstate) : mstate := ms (ds s).
Definition with_cms (s : cstate) (m : mstate) : cstate := CState (with_ms (ds s) m) (conds s).
Definition mark_job (s : cstate) (p : Z) (f : jData -> jData) : option cstate :=
  m ← upd_job (cms s) p f; Some (with_cms s m).

(** [jFlags |= flag], [jFlags &= ~flags] and [newReason = reason]. *)
Definition add_flag (flag : Z) (j : jData) : jData := set_pend (Z.lor (jFlags j) flag) (newReason j) j.
Definition clear_flags (flags : Z) (j : jData) : jData :=
  set_pend (Z.land (jFlags j) (Z.lnot flags)) (newReason j) j.
Definition set_reason (reason : Z) (j : jData) : jData := set_pend (jFlags j) reason j.

Section CheckJgrpDep.
Context (ctime : Z -> list ascii) (now : Z).
(** What the clock says at the test after [i] rounds: [time(0) - entryTime > 3]. *)
Context (late : Z -> bool).

(** [evalDepCond] on the tree at [c]; the evaluated tree stays there. *)
Definition eval_root (s : cstate) (c jpbw : Z) : option (Z * cstate) :=
  n ← conds s !! c;
  '(v, n, d) ← evalDepCond ctime now (ds s) (jobs (cms s) !! jpbw) n;
  Some (v, CState d (<[c := n]> (conds s))).

(** The body of the loop over the jobs of a node. *)
Definition dep_job (s : cstate) (jpbw : Z) : option cstate :=
  j ← jobs (cms s) !! jpbw;
  if negb (JOB_PEND j) then Some s else
  s ← mark_job s jpbw (clear_flags (Z.lor JFLAG_READY1 JFLAG_READY2));
  s ← mark_job s jpbw (add_flag JFLAG_READY1);
  j ← jobs (cms s) !! jpbw;
  if has (jFlags j) JFLAG_WAIT_SWITCH then mark_job s jpbw (set_reason PEND_JOB_SWITCH)
  else if dptRoot j =? NULL then mark_job s jpbw (add_flag JFLAG_READY2)
  else
    '(depCond, s) ← eval_root s (dptRoot j) jpbw;
    if depCond =? DP_FALSE then mark_job s jpbw (set_reason PEND_JOB_DEPEND)
    else if depCond =? DP_INVALID then
      s ← mark_job s jpbw (set_reason PEND_JOB_DEP_INVALID); mark_job s jpbw (add_flag JFLAG_DEPCOND_INVALID)
    else if depCond =? DP_REJECT then
      s ← mark_job s jpbw (set_reason PEND_JOB_DEP_REJECT); mark_job s jpbw (add_flag JFLAG_DEPCOND_REJECT)
    else if depCond =? DP_TRUE then mark_job s jpbw (add_flag JFLAG_READY2)
    else Some s.

(** The loop over the jobs of a node, counting rounds in [iterNum]. *)
Fixpoint dep_jobs (fuel : nat) (s : cstate) (jpbw iterNum : Z) : option (cstate * Z) :=
  match fuel with
  | O => None
  | S k =>
      if jpbw =? NULL then Some (s, iterNum) else
      s ← dep_job s jpbw;
      j ← jobs (cms s) !! jpbw;
      dep_jobs k s (nextJob j) (i32 (iterNum + 1))
  end.

Definition dep_node (s : cstate) (nPtr iterNum : Z) : option (cstate * Z) :=
  n ← nodes (cms s) !! nPtr;
  if nodeType n =? JGRP_NODE_JOB then dep_jobs (job_fuel (cms s)) s (ndInfo n) iterNum
  else if nodeType n =? JGRP_NODE_ARRAY then
    b ← bases (cms s) !! ndInfo n;
    t ← jobs (cms s) !! jobArray b;
    dep_jobs (job_fuel (cms s)) s (nextJob t) iterNum
  else Some (s, iterNum).

(** The walk; the result is the node to go on with, [NULL] at the end. *)
Fixpoint dep_walk (fuel : nat) (s : cstate) (nPtr iterNum : Z) : option (cstate * Z) :=
  match fuel with
  | O => None
  | S k =>
      if nPtr =? NULL then Some (s, NULL) else
      '(s, iterNum) ← dep_node s nPtr iterNum;
      nx ← treeLexNext (cms s) nPtr;
      let iterNum := i32 (iterNum + 1) in
      if negb (nx =? NULL) && (1000 <? iterNum) && late iterNum then Some (s, nx)
      else dep_walk k s nx iterNum
  end.

(** [change] is [FALSE] after the first pass, so there is exactly one. *)
Definition checkJgrpDep (s : cstate) : option cstate :=
  let '(nPtr, s) := if negb (depEntry (cms s) =? NULL) then (depEntry (cms s), s)
                    else (groupRoot (cms s), with_cms s (with_depEntry (cms s) (groupRoot (cms s)))) in
  '(s, nPtr) ← dep_walk (node_fuel (cms s)) s nPtr 0;
  Some (with_cms s (with_depEntry (cms s) (if nPtr =? NULL then groupRoot (cms s) else nPtr))).

End CheckJgrpDep.

(** ** Marks *)

(** What the scan makes of a job whose condition has the value [c]. *)
Definition dep_result (c : Z) (j : jData) : jData :=
  if negb (JOB_PEND j) then j else
  let flags := Z.lor (Z.land (jFlags j) (Z.lnot (Z.lor JFLAG_READY1 JFLAG_READY2))) JFLAG_READY1 in
  if has flags JFLAG_WAIT_SWITCH then set_pend flags PEND_JOB_SWITCH j
  else if (dptRoot j =? NULL) || (c =? DP_TRUE) then set_pend (Z.lor flags JFLAG_READY2) (newReason j) j
  else if c =? DP_FALSE then set_pend flags PEND_JOB_DEPEND j
  else if c =? DP_INVALID then set_pend (Z.lor flags JFLAG_DEPCOND_INVALID) PEND_JOB_DEP_INVALID j
  else if c =? DP_REJECT then set_pend (Z.lor flags JFLAG_DEPCOND_REJECT) PEND_JOB_DEP_REJECT j
  else set_pend flags (newReason j) j.

(** Two states that differ in the marks of the scan only: the flags it sets and
    the pending reasons. *)
Definition marks : Z :=
  Z.lor JFLAG_READY1 (Z.lor JFLAG_READY2 (Z.lor JFLAG_DEPCOND_INVALID JFLAG_DEPCOND_REJECT)).
Definition unmark (j : jData) : jData := set_pend (Z.land (jFlags j) (Z.lnot marks)) 0 j.
Definition same_but_marks (s s' : mstate) : Prop :=
  nodes s' = nodes s /\ bases s' = bases s /\ groupRoot s' = groupRoot s /\
  forall q, unmark <$> jobs s' !! q = unmark <$> jobs s !! q.

Lemma same_marks_refl s : same_but_marks s s.
Proof. by repeat split. Qed.

Lemma same_marks_trans s1 s2 s3 : same_but_marks s1 s2 -> same_but_marks s2 s3 -> same_but_marks s1 s3.
Proof. intros (A1 & A2 & A3 & A4) (B1 & B2 & B3 & B4). repeat split; congruence. Qed.

Lemma unmark_pend f r j :
  Z.land f (Z.lnot marks) = Z.land (jFlags j) (Z.lnot marks) -> unmark (set_pend f r j) = unmark j.
Proof. intros E. unfold unmark. cbn [jFlags set_pend]. by rewrite E. Qed.

Lemma keep_lor a x :
  Z.land x (Z.lnot marks) = 0 -> Z.land (Z.lor a x) (Z.lnot marks) = Z.land a (Z.lnot marks).
Proof. intros E. by rewrite Z.land_lor_distr_l, E, Z.lor_0_r. Qed.

Lemma keep_clear a :
  Z.land (Z.land a (Z.lnot (Z.lor JFLAG_READY1 JFLAG_READY2))) (Z.lnot marks) = Z.land a (Z.lnot marks).
Proof. rewrite <- Z.land_assoc. f_equal. Qed.

(** Only marks change. *)
Lemma unmark_result c j : unmark (dep_result c j) = unmark j.
Proof.
  unfold dep_result. destruct (negb (JOB_PEND j)); [done|]. cbn zeta.
  repeat case_match; apply unmark_pend; rewrite !keep_lor by done; apply keep_clear.
Qed.

Lemma nextJob_unmark j : nextJob (unmark j) = nextJob j.
Proof. done. Qed.

Lemma chained_next J J' p js :
  (forall q, unmark <$> J' !! q = unmark <$> J !! q) -> chained J p js -> chained J' p js.
Proof.
  intros H. revert p. induction js as [|q js IH]; intros p; [done|]. intros (E & Hq & j & Hj & Hc).
  split; [done|]. split; [done|]. specialize (H q). rewrite Hj in H.
  destruct (J' !! q) as [j'|]; [|done]. apply (inj Some) in H. exists j'. split; [done|]. apply IH.
  by rewrite <- nextJob_unmark, H.
Qed.

(** ** Marks do not matter to conditions *)

(** Two jobs that differ in marks only. *)
Definition alike (j j' : jData) : Prop := unmark j' = unmark j.
Definition alike_opt (o o' : option jData) : Prop := unmark <$> o' = unmark <$> o.

Lemma alike_fields j j' : alike j j' ->
  jobId j' = jobId j /\ jStatus j' = jStatus j /\ jNodeType j' = jNodeType j /\ nextJob j' = nextJob j /\ dptRoot j' = dptRoot j /\
  startTime j' = startTime j /\ endTime j' = endTime j /\ exitStatus j' = exitStatus j /\
  has (jFlags j') JFLAG_LASTRUN_SUCC = has (jFlags j) JFLAG_LASTRUN_SUCC.
Proof.
  unfold alike. intros H. pose proof (f_equal jobId H) as H1. pose proof (f_equal jStatus H) as H2.
  pose proof (f_equal jNodeType H) as H3. pose proof (f_equal nextJob H) as H4. pose proof (f_equal startTime H) as H5.
  pose proof (f_equal dptRoot H) as H9. pose proof (f_equal endTime H) as H6. pose proof (f_equal exitStatus H) as H7. pose proof (f_equal jFlags H) as H8.
  cbn [unmark set_pend jobId jStatus jNodeType nextJob dptRoot startTime endTime exitStatus jFlags] in *.
  do 8 (split; [assumption|]). unfold has.
  assert (E : forall f, Z.land f JFLAG_LASTRUN_SUCC = Z.land (Z.land f (Z.lnot marks)) JFLAG_LASTRUN_SUCC).
  { intros f. rewrite <- Z.land_assoc. f_equal. }
  by rewrite (E (jFlags j')), (E (jFlags j)), H8.
Qed.

Lemma alike_opt_cases o o' : alike_opt o o' ->
  (o = None /\ o' = None) \/ exists j j', o = Some j /\ o' = Some j' /\ alike j j'.
Proof.
  unfold alike_opt. destruct o as [j|], o' as [j'|]; cbn; intros H; [right|done|done|by left].
  apply (inj Some) in H. by exists j, j'.
Qed.

Lemma later_alike o o' t : alike_opt o o' -> later o' t = later o t.
Proof.
  intros [[-> ->]|(j & j' & -> & -> & H)]%alike_opt_cases; [done|]. apply alike_fields in H as (_ & _ & _ & _ & _ & _ & H & _).
  cbn. by rewrite H.
Qed.

Lemma job_value_alike t o e j j' d d' :
  alike j j' -> alike_opt d d' -> job_value t o e j' d' = job_value t o e j d.
Proof.
  intros (_ & H2 & _ & _ & _ & H5 & H6 & H7 & H8)%alike_fields Hd. unfold job_value, evalJobDep.
  by rewrite H2, H5, H6, H7, H8, !(later_alike d d').
Qed.

Section Marks.
Context (s s' : dstate).
Hypothesis (Hms : same_but_marks (ms s) (ms s')) (Hidx : idxs s' = idxs s) (Hht : jobIdHT s' = jobIdHT s).

Lemma jobs_alike p : alike_opt (jobs (ms s) !! p) (jobs (ms s') !! p).
Proof. destruct Hms as (_ & _ & _ & H). apply H. Qed.

(** Case analysis on a job in both states. *)
Ltac both p :=
  destruct (alike_opt_cases _ _ (jobs_alike p)) as [[-> ->]|(?j & ?j' & -> & -> & ?Ha)]; [done|];
  cbn [mbind option_bind].

Lemma same_idx_marks i pos p : same_idx s' i p pos = same_idx s i p pos.
Proof.
  revert p. induction pos as [|c pos IH]; intros p; cbn [same_idx]; both p;
    apply alike_fields in Ha as (-> & _); by rewrite ?IH.
Qed.

Lemma first_job_marks f jr i d d' :
  alike_opt d d' -> first_job s' f jr i d' = first_job s f jr i d.
Proof.
  intros Hd. unfold first_job, getJobData. both jr. apply alike_fields in Ha as (H1 & _ & H3 & H4 & _).
  rewrite H1, H3, H4, Hidx, Hht. destruct (negb _); [done|].
  destruct (if i =? NULL then Some [] else x ← idxs s !! i; Some (depJobList x)) as [l|]; [|done]. cbn [mbind option_bind].
  destruct (alike_opt_cases _ _ Hd) as [[-> ->]|(x & x' & -> & -> & Hx)]; [done|].
  apply alike_fields in Hx as (Hx & _). destruct l as [|c l]; cbn; rewrite Hx; [done|]. by rewrite same_idx_marks.
Qed.

Lemma elements_marks n p : elements n (ms s') p = elements n (ms s) p.
Proof.
  revert p. induction n as [|n IH]; intros p; [done|]. cbn [elements]. destruct (p =? NULL); [done|]. both p.
  apply alike_fields in Ha as (_ & _ & _ & -> & _). by rewrite IH.
Qed.

Lemma values_marks t o e f i d d' js :
  alike_opt d d' -> leaf_values s' t o e f i d' js = leaf_values s t o e f i d js.
Proof.
  intros Hd. induction js as [|p js IH]; [done|]. cbn [leaf_values]. destruct (p =? NULL); [done|]. both p.
  rewrite (job_value_alike t o e j j' d d') by done. apply alike_fields in Ha as (H1 & _). unfold relevant.
  by rewrite H1, Hidx, IH.
Qed.

Lemma jobs_size : job_fuel (ms s') = job_fuel (ms s).
Proof.
  unfold job_fuel. f_equal. rewrite <- !(size_dom (D := gset Z)). f_equal. apply set_eq. intros p.
  rewrite !elem_of_dom. destruct (alike_opt_cases _ _ (jobs_alike p)) as [[-> ->]|(j & j' & -> & -> & _)]; [done|].
  split; by eexists.
Qed.

Lemma den_marks ctime now d d' n : alike_opt d d' -> den ctime now s' d' n = den ctime now s d n.
Proof.
  intros Hd. induction n as [|t v u l IHl r IHr|t v u o e f j i|t v u w|t v u o k b]; try done; cbn [den].
  - by rewrite IHl, IHr.
  - destruct (job_type t); [|done]. unfold den_job, leaf_jobs. destruct (j =? NULL); [done|].
    rewrite (first_job_marks f j i d d'), jobs_size by done. both j. apply alike_fields in Ha as (_ & _ & -> & _).
    destruct (first_job s f j i d) as [[x|[p ptr]]|]; [done| |done]. cbn [mbind option_bind]. rewrite elements_marks.
    destruct (_ && _); [destruct ptr; [destruct (elements _ _ _); [|done]|]|]; cbn [mbind option_bind];
      by rewrite (values_marks t o e f i d d').
  - destruct (grp_type t); [|done]. unfold den_grp. destruct Hms as (_ & -> & _). done.
Qed.

End Marks.

