(* ===== verification/DepScan.v ===== *)
(** * What the dependency scan does

    The scan of [JgrpDep.v] proved against the meaning that [Dep.v] gives to
    conditions.  Evaluating a condition for one job may take references to void
    arrays out of the tree; the lemmas here show that this changes the meaning
    of no condition for any job, that the references still in the trees are
    counted, and hence that every job is marked by what its condition means in
    the state in which the scan starts. *)

From Stdlib Require Import Ascii.
From S2P Require Import Prelude Lsb ListSet Jgrp JgrpTree JgrpCount JgrpOps CString Window Jidx Jarray Dep JgrpDep.

(** ** Evaluation for one job keeps the meaning for all *)

Section Others.
Context (ctime : Z -> list ascii) (now : Z) (dj : option jData).

Lemma eval_den_others n : forall s h v n' s',
  refs_ok s h -> (forall d, held n d <= h d) -> den ctime now s dj n = Some v ->
  evalDepCond ctime now s dj n = Some (v, n', s') -> forall dj2, den ctime now s' dj2 n' = den ctime now s dj2 n.
Proof.
  induction n as [|t w u l IHl r IHr|t w u o e f j i|t w u tw|t w u o k d]; intros s h v n' s' Hr Hh Hv HR dj2; [done|..].
  - pose proof (held_nonneg l) as Pl. pose proof (held_nonneg r) as Pr.
    assert (Hl : forall d, held l d <= h d) by (intros d; specialize (Hh d); specialize (Pr d); cbn in Hh; lia).
    destruct t; try done; cbn [den] in Hv.
    1,2: destruct (den ctime now s dj l) as [a|] eqn:Ea; [|done]; cbn [mbind option_bind] in Hv;
      destruct (den ctime now s dj r) as [b|] eqn:Eb; [|done]; cbn [mbind option_bind] in Hv; injection Hv as <-;
      destruct (eval_spec ctime now dj l s h a Hr Hl Ea) as (Ta & l' & s1 & El & D1 & L1 & R1 & _);
      pose proof (held_nonneg l') as Pl';
      assert (Hr1 : forall d, 0 < held r d -> is_Some (bases (ms s1) !! d))
        by (intros d Hd; destruct (R1 d) as (x & Hx & _); [specialize (Hh d); specialize (Pl' d); cbn in Hh; lia|by exists x]);
      assert (Eb1 : den ctime now s1 dj r = Some b) by (by rewrite (den_drops ctime now dj s s1));
      destruct (eval_spec ctime now dj r s1 _ b R1) as (Tb & r' & s2 & Er & D2 & L2 & R2 & _);
      [intros d; specialize (Hh d); specialize (Pl' d); cbn in Hh |- *; lia|exact Eb1|];
      pose proof (held_nonneg r') as Pr';
      assert (Hl2 : forall d, 0 < held l' d -> is_Some (bases (ms s2) !! d))
        by (intros d Hd; destruct (R2 d) as (x & Hx & _); [specialize (Hh d); specialize (Pr' d); cbn in Hh; lia|by exists x]);
      pose proof (IHl s h a l' s1 Hr Hl Ea El dj2) as Il;
      pose proof (IHr s1 _ b r' s2 R1 (fun d => ltac:(specialize (Hh d); specialize (Pl' d); cbn in Hh |- *; lia)) Eb1 Er dj2) as Ir;
      pose proof (den_drops ctime now dj2 s s1 r D1 Hr1) as Jr;
      pose proof (den_drops ctime now dj2 s1 s2 l' D2 Hl2) as Jl;
      cbn [evalDepCond] in HR; rewrite El in HR; cbn [mbind option_bind] in HR; rewrite Er in HR; cbn [mbind option_bind] in HR;
      destruct Ta as [->|[->| ->]], Tb as [->|[->| ->]]; cbn -[den held refs_ok] in HR; injection HR as <- <-;
      cbn [den]; rewrite ?Jl, ?Il, ?Ir, ?Jr; reflexivity.
    destruct (den ctime now s dj l) as [a|] eqn:Ea; [|done]. cbn [mbind option_bind] in Hv. injection Hv as <-.
    destruct (eval_spec ctime now dj l s h a Hr Hl Ea) as (Ta & l' & s1 & El & _).
    pose proof (IHl s h a l' s1 Hr Hl Ea El dj2) as Il. cbn [evalDepCond] in HR. rewrite El in HR. cbn [mbind option_bind] in HR.
    injection HR as _ <- <-. cbn [den]. by rewrite Il.
  - cbn [den] in Hv. destruct (job_type t) eqn:Et; [|done].
    assert (E : exists y, n' = Job t y u o e f j i /\ s' = s).
    { destruct t; try done; cbn [evalDepCond] in HR; destruct (eval_job s _ o e f j i dj w); try done;
        cbn [mbind option_bind] in HR; injection HR as _ <- <-; by eexists. }
    by destruct E as (y & -> & ->).
  - destruct t; try done. cbn [evalDepCond] in HR. destruct (updateTimeWindow ctime now tw) as [tw'|] eqn:Eu; [|done].
    cbn [mbind option_bind] in HR. injection HR as _ <- <-. destruct (updateTimeWindow_again _ _ _ _ Eu) as (tw2 & Eu2 & Es).
    cbn [den]. rewrite Eu, Eu2. cbn [mbind option_bind]. by rewrite Es.
  - cbn [den] in Hv |- *. destruct (grp_type t) eqn:Et; [|done].
    destruct (eval_grp_spec ctime now dj s h t w u o k d v Hr Hh Et Hv) as (m & s1 & E & _ & _ & _ & V).
    rewrite E in HR. injection HR as -> ->.
    assert (Hn : exists y d', n' = Grp t y u o k d').
    { destruct t; try done; cbn [evalDepCond] in E; destruct (eval_grp s _ o k d) as [[[y d'] s2]|]; try done;
        cbn [mbind option_bind] in E; injection E as _ <- _; by eexists _, _. }
    destruct Hn as (y & d' & ->). cbn [den] in V |- *. rewrite Et in V |- *. by rewrite V, Hv.
Qed.

End Others.

(** ** References counted over all conditions *)

Definition total (cs : gmap Z dptNode) (d : Z) : Z := map_fold (fun _ n acc => held n d + acc) 0 cs.

Lemma total_insert_new cs c n d : cs !! c = None -> total (<[c := n]> cs) d = held n d + total cs d.
Proof. intros H. unfold total. rewrite map_fold_insert_L; [done| |done]. intros. lia. Qed.

Lemma total_split cs c n d : cs !! c = Some n -> total cs d = held n d + total (delete c cs) d.
Proof. intros H. rewrite <- (total_insert_new _ c) by apply lookup_delete_eq. by rewrite insert_delete_id. Qed.

Lemma total_insert cs c n n' d : cs !! c = Some n -> total (<[c := n']> cs) d = total cs d - held n d + held n' d.
Proof.
  intros H. rewrite (total_split cs c n), <- insert_delete_eq, total_insert_new by (done || apply lookup_delete_eq). lia.
Qed.

Lemma total_nonneg cs d : 0 <= total cs d.
Proof.
  induction cs as [|c n cs H IH] using map_ind; [done|]. rewrite total_insert_new by done.
  pose proof (held_nonneg n d). lia.
Qed.

Lemma total_held cs c n d : cs !! c = Some n -> held n d <= total cs d.
Proof. intros H. rewrite (total_split cs c n) by done. pose proof (total_nonneg (delete c cs) d). lia. Qed.

(** ** What a job's mark says *)

Lemma has_pow2 f k : 0 <= k -> has f (2 ^ k) = Z.testbit f k.
Proof.
  intros Hk. unfold has. destruct (Z.testbit f k) eqn:E.
  - apply negb_true_iff, Z.eqb_neq. intros Hz. pose proof (f_equal (fun z => Z.testbit z k) Hz) as H. cbn in H.
    rewrite Z.land_spec, Z.pow2_bits_true, E, Z.bits_0 in H by done. done.
  - apply negb_false_iff, Z.eqb_eq. apply Z.bits_inj'. intros m Hm. rewrite Z.land_spec, Z.bits_0.
    destruct (decide (m = k)) as [->|]; [by rewrite E|]. by rewrite Z.pow2_bits_false, andb_false_r by congruence.
Qed.

(** What the marks tell after the scan. *)
Lemma ready_result v j :
  JOB_PEND j = true -> has (jFlags j) JFLAG_WAIT_SWITCH = false -> dptRoot j <> NULL -> three v ->
  has (jFlags (dep_result v j)) JFLAG_READY2 = true <-> v = DP_TRUE.
Proof.
  intros Hp Hw Hd Hv. unfold dep_result. rewrite Hp. cbn [negb]. cbn zeta. set (flags := Z.lor _ JFLAG_READY1).
  assert (Hbit : forall x, Z.testbit flags x = (Z.testbit (jFlags j) x && negb (Z.testbit (Z.lor JFLAG_READY1 JFLAG_READY2) x))
     || Z.testbit JFLAG_READY1 x).
  { intros x. destruct (Z.ltb_spec x 0); [by rewrite !Z.testbit_neg_r|]. unfold flags.
    by rewrite Z.lor_spec, Z.land_spec, Z.lnot_spec by lia. }
  change JFLAG_WAIT_SWITCH with (2 ^ 31) in *. change JFLAG_READY2 with (2 ^ 21). rewrite has_pow2 in Hw by lia.
  rewrite (has_pow2 flags 31), (Hbit 31), Hw by lia. change (Z.testbit JFLAG_READY1 31) with false. cbn [andb orb].
  rewrite (proj2 (Z.eqb_neq _ _) Hd). cbn [orb].
  destruct Hv as [->|[->| ->]]; rewrite ?Z.eqb_refl; change (DP_FALSE =? DP_TRUE) with false;
    change (DP_INVALID =? DP_TRUE) with false; change (DP_INVALID =? DP_FALSE) with false;
    cbn [jFlags set_pend]; rewrite has_pow2 by lia.
  - rewrite Z.lor_spec, Z.pow2_bits_true, orb_true_r by lia. done.
  - rewrite (Hbit 21). change (Z.testbit (Z.lor JFLAG_READY1 (2 ^ 21)) 21) with true.
    cbn [negb]. rewrite andb_false_r. done.
  - rewrite Z.lor_spec, (Hbit 21). change (Z.testbit (Z.lor JFLAG_READY1 (2 ^ 21)) 21) with true.
    cbn [negb]. rewrite andb_false_r. done.
Qed.

Lemma den_three ctime now s d n v : den ctime now s d n = Some v -> three v.
Proof.
  revert v. induction n as [|t w u l IHl r IHr|t w u o e f j i|t w u tw|t w u o k b]; intros v; cbn [den]; [done|..].
  - destruct t; try done; destruct (den ctime now s d l) as [a|]; try done; cbn [mbind option_bind].
    + destruct (den ctime now s d r); [|done]. intros [= <-]. unfold and3, three. repeat case_match; auto.
    + destruct (den ctime now s d r); [|done]. intros [= <-]. unfold or3, three. repeat case_match; auto.
    + intros [= <-]. unfold not3, three. case_match; auto.
  - destruct (job_type t); [|done]. intros H. by destruct (eval_job_den s t o e f i d j v w H).
  - destruct t; try done. destruct (updateTimeWindow ctime now tw); [|done]. cbn [mbind option_bind].
    intros <-%(inj Some). unfold three. case_match; auto.
  - destruct (grp_type t); [|done]. unfold den_grp, three. destruct (b =? NULL); [intros [= <-]; auto|].
    destruct (bases (ms s) !! b); [|done]. cbn [mbind option_bind]. destruct (_ =? JGRP_VOID); [intros [= <-]; auto|].
    destruct (if k =? INFINIT_INT then _ else _); [|done]. cbn [mbind option_bind].
    destruct (getCounterOfDep _ _); [|done]. cbn [mbind option_bind]. intros [= <-]. case_match; auto.
Qed.

(** ** Steps of the scan *)

(** The jobs of a node; an array on the tree is not void. *)
Definition node_jobs (s : mstate) (x : Z) (js : list Z) : Prop :=
  exists n, nodes s !! x = Some n /\
  if nodeType n =? JGRP_NODE_JOB then chained (jobs s) (ndInfo n) js
  else if nodeType n =? JGRP_NODE_ARRAY then
    exists b t, bases s !! ndInfo n = Some b /\ status b <> JGRP_VOID /\
      jobs s !! jobArray b = Some t /\ chained (jobs s) (nextJob t) js
  else js = [].

(** Every reference to the counters of an array that a condition holds is counted. *)
Definition counted_refs (s : cstate) : Prop := refs_ok (ds s) (total (conds s)).

Section Scan.
Context (ctime : Z -> list ascii) (now : Z) (late : Z -> bool).

(** What the condition of job [q] means. *)
Definition meaning (s : cstate) (q : Z) : option Z :=
  j ← jobs (cms s) !! q; n ← conds s !! dptRoot j; den ctime now (ds s) (Some j) n.

(** A condition that will be looked at has a meaning. *)
Definition meaningful (s : cstate) (q : Z) : Prop :=
  forall j, jobs (cms s) !! q = Some j -> JOB_PEND j = true -> has (jFlags j) JFLAG_WAIT_SWITCH = false ->
    dptRoot j <> NULL -> is_Some (meaning s q).

(** Arrays after a part of the scan: those that are not void are untouched, and
    of the others the counts are lower by the references that the conditions
    have given back; without references they are gone. *)
Record arrays_kept (s s' : cstate) : Prop := {
  ak_live : forall d b, bases (cms s) !! d = Some b -> status b <> JGRP_VOID -> bases (cms s') !! d = Some b;
  ak_less : forall d, total (conds s') d <= total (conds s) d;
  ak_gave : gave_back (fun d => total (conds s) d - total (conds s') d) (ds s) (ds s') }.

(** What any part of the scan leaves as it was. *)
Record kept (s s' : cstate) : Prop := {
  k_nodes : nodes (cms s') = nodes (cms s);
  k_root : groupRoot (cms s') = groupRoot (cms s);
  k_arrays : arrays_kept s s';
  k_refs : counted_refs s';
  k_meaning : forall q, meaning s' q = meaning s q;
  k_jobs : forall q, unmark <$> jobs (cms s') !! q = unmark <$> jobs (cms s) !! q }.

Lemma arrays_kept_trans s1 s2 s3 : arrays_kept s1 s2 -> arrays_kept s2 s3 -> arrays_kept s1 s3.
Proof.
  intros [A1 A2 A3] [B1 B2 B3]. split; [eauto|intros d; specialize (A2 d); specialize (B2 d); lia|].
  eapply gave_back_ext; [|eapply gave_back_trans; [| |exact A3|exact B3]]; intros d; specialize (A2 d); specialize (B2 d); cbn; lia.
Qed.

Lemma arrays_kept_same s s' : bases (cms s') = bases (cms s) -> conds s' = conds s -> arrays_kept s s'.
Proof.
  intros Hb Hc. split; [by rewrite Hb|by rewrite Hc|]. intros d. unfold cms in Hb. rewrite Hb, Hc, Z.sub_diag. cbn.
  by destruct (bases (ms (ds s)) !! d).
Qed.

Lemma kept_trans s1 s2 s3 : kept s1 s2 -> kept s2 s3 -> kept s1 s3.
Proof.
  intros [A1 A2 A3 A4 A5 A6] [B1 B2 B3 B4 B5 B6]. split; [congruence|congruence|by eapply arrays_kept_trans|done|..]; intros q.
  - by rewrite B5, A5.
  - by rewrite B6, A6.
Qed.

(** Setting marks. *)
Lemma kept_marks s m :
  counted_refs s -> same_but_marks (cms s) m -> kept s (with_cms s m).
Proof.
  intros Hr Hm. pose proof Hm as (H1 & H2 & H3 & H4). split; [exact H1|exact H3|by apply arrays_kept_same| | |exact H4].
  - intros d Hd. destruct (Hr d Hd) as (b & Hb & ?). exists b. split; [|done]. cbn. by rewrite H2.
  - intros q. unfold meaning. cbn [cms ds with_cms conds ms with_ms].
    destruct (alike_opt_cases _ _ (H4 q)) as [[E ->]|(j & j' & E & -> & Ha)]; rewrite ?E; unfold cms in E; rewrite ?E; [done|].
    cbn [mbind option_bind]. pose proof (alike_fields _ _ Ha) as (_ & _ & _ & _ & Hd & _). rewrite Hd.
    destruct (conds s !! dptRoot j); [|done]. cbn [mbind option_bind].
    apply den_marks; try done. unfold alike_opt. cbn. f_equal. exact Ha.
Qed.

Lemma kept_refl s : counted_refs s -> kept s s.
Proof.
  intros Hr. pose proof (kept_marks s (cms s) Hr (same_marks_refl _)) as H. by destruct s as [[m i h] c].
Qed.

(** Evaluating the condition of a job. *)
Lemma eval_root_spec s q j n v :
  counted_refs s -> jobs (cms s) !! q = Some j -> conds s !! dptRoot j = Some n -> den ctime now (ds s) (Some j) n = Some v ->
  exists s', eval_root ctime now s (dptRoot j) q = Some (v, s') /\ kept s s' /\ jobs (cms s') = jobs (cms s) /\
    depEntry (cms s') = depEntry (cms s).
Proof.
  intros Hr Hj Hn Hv. assert (Hh : forall d, held n d <= total (conds s) d) by (intros d; by eapply total_held).
  destruct (eval_spec ctime now (Some j) n (ds s) _ v Hr Hh Hv) as (_ & n' & d' & E & D & L & R & _).
  destruct (eval_accounted ctime now (Some j) n (ds s) _ v n' d' Hr Hh Hv E) as [A B].
  pose proof (eval_den_others ctime now (Some j) n (ds s) _ v n' d' Hr Hh Hv E) as O.
  assert (T : forall d, total (<[dptRoot j := n']> (conds s)) d = total (conds s) d - held n d + held n' d)
    by (intros d; by apply total_insert).
  exists (CState d' (<[dptRoot j := n']> (conds s))). unfold eval_root. rewrite Hn, Hj. cbn [mbind option_bind]. rewrite E.
  split; [done|]. split; [|split; [exact (dr_jobs _ _ D)|exact (dr_entry _ _ D)]].
  assert (R' : refs_ok d' (total (<[dptRoot j := n']> (conds s)))) by (eapply refs_ext; [|exact R]; intros d; by rewrite T).
  split; [exact (dr_nodes _ _ D)|exact (dr_root _ _ D)| |exact R'| |].
  - split; cbn [cms ds conds]; [exact (dr_live _ _ D)|intros d; rewrite T; specialize (L d); lia|].
    eapply gave_back_ext; [|exact B]. intros d. cbn. rewrite T, A. lia.
  - intros q'. unfold meaning, cms. cbn [ds conds]. rewrite (dr_jobs _ _ D).
    destruct (jobs (ms (ds s)) !! q') as [j'|]; [|done]. cbn [mbind option_bind].
    destruct (decide (dptRoot j' = dptRoot j)) as [->|Hne].
    + rewrite lookup_insert_eq, Hn. cbn [mbind option_bind]. apply O.
    + rewrite lookup_insert_ne by done. destruct (conds s !! dptRoot j') as [n2|] eqn:E2; [|done]. cbn [mbind option_bind].
      apply den_drops; [done|]. intros d Hd. destruct (R' d) as (b & Hb & _); [|by exists b].
      pose proof (total_held (<[dptRoot j := n']> (conds s)) (dptRoot j') n2 d) as Ht.
      rewrite lookup_insert_ne in Ht by done. specialize (Ht E2). lia.
  - intros q1. unfold cms. cbn [ds]. by rewrite (dr_jobs _ _ D).
Qed.

(** What becomes of a job, and the jobs [v] dealt with in the light of [s]. *)
Definition result (s : cstate) (q : Z) (j : jData) : jData := dep_result (default DP_FALSE (meaning s q)) j.

Definition scanned (v : list Z) (s s' : cstate) : Prop :=
  kept s s' /\ depEntry (cms s') = depEntry (cms s) /\
  forall q, jobs (cms s') !! q = if decide (q ∈ v) then result s q <$> jobs (cms s) !! q else jobs (cms s) !! q.

Lemma scanned_nil s : counted_refs s -> scanned [] s s.
Proof. intros Hr. split; [by apply kept_refl|]. by split. Qed.

Lemma scanned_app v1 v2 s s1 s2 : v1 ## v2 -> scanned v1 s s1 -> scanned v2 s1 s2 -> scanned (v1 ++ v2) s s2.
Proof.
  intros Hd (K1 & E1 & J1) (K2 & E2 & J2). split; [by eapply kept_trans|]. split; [congruence|]. intros q. rewrite J2, J1.
  destruct (decide (q ∈ v2)) as [Hq|Hq].
  - rewrite decide_False, decide_True by set_solver. destruct (jobs (cms s) !! q); [|done]. cbn.
    unfold result. by rewrite (k_meaning _ _ K1).
  - destruct (decide (q ∈ v1)); [rewrite decide_True by set_solver|rewrite decide_False by set_solver]; done.
Qed.

(** *** One job *)

Definition put (s : cstate) (p : Z) (j : jData) : cstate := with_cms s (with_jobs (cms s) (<[p := j]> (jobs (cms s)))).

Lemma mark_job_put s p j f : jobs (cms s) !! p = Some j -> mark_job s p f = Some (put s p (f j)).
Proof. intros Hj. unfold mark_job, upd_job. by rewrite Hj. Qed.

Lemma put_lookup s p j : jobs (cms (put s p j)) !! p = Some j.
Proof. apply lookup_insert_eq. Qed.

Lemma put_put s p j j' : put (put s p j) p j' = put s p j'.
Proof. unfold put, with_cms, cms, with_jobs. cbn. by rewrite insert_insert_eq. Qed.

Lemma kept_put s p j j' : counted_refs s -> jobs (cms s) !! p = Some j -> unmark j' = unmark j -> kept s (put s p j').
Proof.
  intros Hr Hj E. apply kept_marks; [done|]. do 3 (split; [done|]). intros q. cbn [jobs with_jobs].
  destruct (decide (q = p)) as [->|Hne]; [rewrite lookup_insert_eq, Hj; cbn; by rewrite E|by rewrite lookup_insert_ne].
Qed.

(** A job is done with once it is marked by its meaning. *)
Lemma finish s s2 p j j2 :
  kept s s2 -> depEntry (cms s2) = depEntry (cms s) -> jobs (cms s) !! p = Some j -> unmark j2 = unmark j ->
  jobs (cms s2) = <[p := j2]> (jobs (cms s)) ->
  jobs (cms (put s2 p (result s p j))) !! p = Some (result s p j) /\ scanned [p] s (put s2 p (result s p j)).
Proof.
  intros K He Hj E2 Hs2. split; [apply put_lookup|]. split; [|split; [done|]].
  - eapply kept_trans; [exact K|]. eapply kept_put; [exact (k_refs _ _ K)|rewrite Hs2; apply lookup_insert_eq|].
    unfold result. by rewrite unmark_result.
  - intros q. cbn [put with_cms cms ds with_ms ms with_jobs jobs]. unfold put, with_cms, cms, with_jobs. cbn.
    unfold cms in Hs2. rewrite Hs2, insert_insert_eq. destruct (decide (q ∈ [p])) as [->%list_elem_of_singleton|Hq].
    + unfold cms in Hj. by rewrite lookup_insert_eq, Hj.
    + rewrite lookup_insert_ne; [done|set_solver].
Qed.

Lemma wait_kept f : has (Z.lor (Z.land f (Z.lnot (Z.lor JFLAG_READY1 JFLAG_READY2))) JFLAG_READY1) JFLAG_WAIT_SWITCH
  = has f JFLAG_WAIT_SWITCH.
Proof. unfold has. rewrite Z.land_lor_distr_l, Z.lor_0_r, <- Z.land_assoc. done. Qed.

Lemma dep_job_spec s p j :
  counted_refs s -> meaningful s p -> jobs (cms s) !! p = Some j ->
  exists s', dep_job ctime now s p = Some s' /\ jobs (cms s') !! p = Some (result s p j) /\ scanned [p] s s'.
Proof.
  intros Hr Hm Hj. unfold dep_job. rewrite Hj. cbn [mbind option_bind].
  destruct (JOB_PEND j) eqn:Hp; cbn [negb].
  2: { assert (E : result s p j = j) by (unfold result, dep_result; by rewrite Hp). rewrite E. exists s. split; [done|]. split; [done|].
       split; [by apply kept_refl|]. split; [done|]. intros q. destruct (decide (q ∈ [p])) as [->%list_elem_of_singleton|]; [|done].
       rewrite Hj. cbn. by rewrite E. }
  rewrite (mark_job_put _ _ _ _ Hj). cbn [mbind option_bind]. rewrite (mark_job_put _ _ _ _ (put_lookup _ _ _)), put_put.
  cbn [mbind option_bind]. set (j1 := add_flag _ _). rewrite put_lookup. cbn [mbind option_bind].
  assert (U : unmark j1 = unmark j) 
    by (apply (unmark_pend (Z.lor (Z.land (jFlags j) (Z.lnot (Z.lor JFLAG_READY1 JFLAG_READY2))) JFLAG_READY1) (newReason j) j);
        rewrite keep_lor by done; apply keep_clear).
  pose proof (kept_put s p j j1 Hr Hj U) as K1.
  assert (Hf : jFlags j1 = Z.lor (Z.land (jFlags j) (Z.lnot (Z.lor JFLAG_READY1 JFLAG_READY2))) JFLAG_READY1) by done.
  assert (Hfin : forall s2 f, kept (put s p j1) s2 -> jobs (cms s2) = jobs (cms (put s p j1)) -> depEntry (cms s2) = depEntry (cms s) ->
     f j1 = result s p j -> exists s', mark_job s2 p f = Some s' /\ jobs (cms s') !! p = Some (result s p j) /\ scanned [p] s s').
  { intros s2 f K E1 E2 E3. rewrite (mark_job_put s2 p j1) by (rewrite E1; apply put_lookup). rewrite E3. eexists. split; [reflexivity|].
    apply (finish s s2 p j j1); [by eapply kept_trans|done..]. }
  pose proof (kept_refl _ (k_refs _ _ K1)) as Hr1. assert (Hres : result s p j = dep_result (default DP_FALSE (meaning s p)) j) by done.
  unfold dep_result in Hres. rewrite Hp in Hres. cbn [negb] in Hres. cbn zeta in Hres. rewrite <- Hf in Hres.
  destruct (has (jFlags j1) JFLAG_WAIT_SWITCH) eqn:Hw; [by apply Hfin|]. change (dptRoot j1) with (dptRoot j).
  destruct (Z.eqb_spec (dptRoot j) NULL) as [Hn|Hn]; cbn [orb] in Hres; [by apply Hfin|].
  destruct (Hm j Hj Hp) as [v Hv]; [by rewrite <- wait_kept, <- Hf|done|]. rewrite Hv in Hres. cbn [default] in Hres.
  rewrite <- (k_meaning _ _ K1) in Hv. unfold meaning in Hv. rewrite put_lookup in Hv. cbn [mbind option_bind] in Hv.
  destruct (conds (put s p j1) !! dptRoot j1) as [n|] eqn:Hc; [|done]. cbn [mbind option_bind] in Hv.
  destruct (eval_root_spec _ p j1 n v (k_refs _ _ K1) (put_lookup _ _ _) Hc Hv) as (s2 & E & K2 & J2 & D2).
  change (dptRoot j1) with (dptRoot j) in E. rewrite E. cbn [mbind option_bind].
  assert (H2 : jobs (cms s2) !! p = Some j1) by (rewrite J2; apply put_lookup).
  apply den_three in Hv as [->|[->| ->]].
  - by apply Hfin.
  - by apply Hfin.
  - change (DP_INVALID =? DP_FALSE) with false. change (DP_INVALID =? DP_INVALID) with true. cbn iota.
    rewrite (mark_job_put _ _ _ _ H2). cbn [mbind option_bind]. rewrite (mark_job_put _ _ _ _ (put_lookup _ _ _)), put_put.
    destruct (Hfin s2 (fun j => add_flag JFLAG_DEPCOND_INVALID (set_reason PEND_JOB_DEP_INVALID j))) as (s' & Es & H); [done..|].
    rewrite (mark_job_put _ _ _ _ H2) in Es. by exists s'.
Qed.

Lemma meaningful_scanned v s s' q : scanned v s s' -> q ∉ v -> meaningful s q -> meaningful s' q.
Proof.
  intros (K & _ & J) Hq Hm j Hj. rewrite (k_meaning _ _ K). rewrite J, decide_False in Hj by done. by apply Hm.
Qed.

(** *** Loops *)

Lemma dep_jobs_spec fuel s p js i :
  (length js < fuel)%nat -> counted_refs s -> chained (jobs (cms s)) p js -> NoDup js -> (forall q, q ∈ js -> meaningful s q) ->
  exists s' i', dep_jobs ctime now fuel s p i = Some (s', i') /\ scanned js s s'.
Proof.
  revert fuel s p i. induction js as [|q js IH]; intros fuel s p i Hf Hr Hc Hnd Hm;
    (destruct fuel as [|k]; [simpl in Hf; lia|]); cbn [dep_jobs].
  - cbn in Hc. subst p. exists s, i. split; [done|]. by apply scanned_nil.
  - destruct Hc as (-> & Hq & j & Hj & Hc). apply NoDup_cons in Hnd as [Hqn Hnd].
    rewrite (proj2 (Z.eqb_neq q NULL) Hq).
    destruct (dep_job_spec s q j Hr (Hm q ltac:(by left)) Hj) as (s1 & -> & Hj1 & Hs1). cbn [mbind option_bind]. rewrite Hj1.
    cbn [mbind option_bind]. replace (nextJob (result s q j)) with (nextJob j)
      by (by rewrite <- (nextJob_unmark (result s q j)); unfold result; rewrite unmark_result).
    pose proof Hs1 as (K1 & _).
    destruct (IH k s1 (nextJob j) (i32 (i + 1))) as (s2 & i2 & H2 & Hs2); [simpl in Hf; lia|exact (k_refs _ _ K1)| |done| |].
    + eapply chained_next; [|exact Hc]. apply (k_jobs _ _ K1).
    + intros x Hx. apply (meaningful_scanned _ _ _ _ Hs1); [set_solver|apply Hm; by right].
    + exists s2, i2. split; [done|]. apply (scanned_app [q] js s s1 s2); [set_solver|done|done].
Qed.

Lemma dep_node_spec s x js i :
  counted_refs s -> node_jobs (cms s) x js -> NoDup js -> (forall q, q ∈ js -> meaningful s q) ->
  exists s' i', dep_node ctime now s x i = Some (s', i') /\ scanned js s s'.
Proof.
  intros Hr (n & Hn & Hj) Hnd Hm. unfold dep_node. rewrite Hn. cbn [mbind option_bind].
  assert (Hfuel : forall p, chained (jobs (cms s)) p js -> (length js < job_fuel (cms s))%nat).
  { intros p Hc. unfold job_fuel. apply Nat.lt_succ_r, NoDup_size; [done|]. intros q.
    by apply (chained_dom _ _ _ _ Hc). }
  destruct (nodeType n =? JGRP_NODE_JOB); [by apply dep_jobs_spec; eauto|].
  destruct (nodeType n =? JGRP_NODE_ARRAY).
  - destruct Hj as (b & t & -> & _ & Ht & Hc). cbn [mbind option_bind]. rewrite Ht. cbn [mbind option_bind].
    apply dep_jobs_spec; eauto.
  - subst js. exists s, i. split; [done|]. by apply scanned_nil.
Qed.

Lemma node_jobs_kept s s' x js : kept s s' -> node_jobs (cms s) x js -> node_jobs (cms s') x js.
Proof.
  intros K (n & Hn & Hj). exists n. rewrite (k_nodes _ _ K). split; [done|]. pose proof (k_jobs _ _ K) as H4.
  destruct (nodeType n =? JGRP_NODE_JOB); [by eapply chained_next|].
  destruct (nodeType n =? JGRP_NODE_ARRAY); [|done]. destruct Hj as (b & t & Hb & Hv & Ht & Hc).
  pose proof (H4 (jobArray b)) as H. rewrite Ht in H. destruct (jobs (cms s') !! jobArray b) as [t'|] eqn:Et; [|done].
  apply (inj Some) in H. exists b, t'. split; [by apply (ak_live _ _ (k_arrays _ _ K))|]. split; [done|]. split; [done|].
  rewrite <- nextJob_unmark, H. by eapply chained_next.
Qed.

(** The walk deals with the nodes up to where it stops. *)
Lemma dep_walk_spec t jobsof fuel s l1 l2 i :
  counted_refs s -> tree_ok (nodes (cms s)) t -> ids t = l1 ++ l2 -> (length l2 < fuel)%nat ->
  (forall x, x ∈ l2 -> node_jobs (cms s) x (jobsof x)) -> NoDup (l2 ≫= jobsof) ->
  (forall q, q ∈ l2 ≫= jobsof -> meaningful s q) ->
  exists v r s', dep_walk ctime now late fuel s (hd0 l2) i = Some (s', hd0 r) /\ l2 = v ++ r /\
    scanned (v ≫= jobsof) s s' /\ (l2 <> [] -> v <> []) /\ ((forall k, late k = false) -> r = []).
Proof.
  revert s l1 l2 i. induction fuel as [|k IH]; intros s l1 l2 i Hr Hok E Hf Hj Hnd Hm; [lia|].
  cbn [dep_walk]. destruct l2 as [|x l2].
  { exists [], [], s. split; [done|]. split; [done|]. split; [by apply scanned_nil|done]. }
  change (hd0 (x :: l2)) with x. rewrite bind_cons in Hnd, Hm. apply NoDup_app in Hnd as (Hx & Hdis & Hnd).
  rewrite (proj2 (Z.eqb_neq x NULL)) by (apply (ids_nonnull _ _ x Hok); rewrite E; set_solver).
  destruct (dep_node_spec s x (jobsof x) i) as (s1 & i1 & -> & Hs1); [done|apply Hj; by left|done|set_solver|].
  cbn [mbind option_bind]. pose proof Hs1 as (K1 & _). pose proof (k_nodes _ _ K1) as Hn1.
  rewrite (lex_next (cms s1) t l1 x l2) by (by rewrite ?Hn1). cbn [mbind option_bind].
  destruct (_ && late _) eqn:El.
  - exists [x], l2, s1. split; [done|]. split; [done|]. rewrite bind_singleton. split; [done|]. split; [done|].
    intros Hl. rewrite Hl, andb_false_r in El. done.
  - destruct (IH s1 (l1 ++ [x]) l2 (i32 (i1 + 1))) as (v & r & s' & H1 & -> & H3 & _ & H5);
      [exact (k_refs _ _ K1)|by rewrite Hn1|by rewrite <- app_assoc|simpl in Hf; lia| |done| |].
    + intros y Hy. apply (node_jobs_kept s); [done|]. apply Hj. by right.
    + intros q Hq. apply (meaningful_scanned _ _ _ _ Hs1); [intros Hq1; by apply (Hdis q)|set_solver].
    + exists (x :: v), r, s'. split; [done|]. split; [done|]. rewrite bind_cons. split; [|done].
      apply (scanned_app _ _ s s1); [|done|done]. intros q Hq1 Hq2. apply (Hdis q Hq1).
      rewrite bind_app. set_solver.
Qed.

End Scan.

(** ** One call *)

(** The state in which a call finds the rest of the tree: the node it starts at
    and those behind it in the lexical order, with their jobs. *)
Record scan_ready (ctime : Z -> list ascii) (now : Z) (s : cstate) (t : gtree) (jobsof : Z -> list Z) (x : Z) (l2 : list Z) : Prop := {
  sr_tree : tree_ok (nodes (cms s)) t;
  sr_order : exists l1, ids t = l1 ++ x :: l2;
  sr_entry : x = (if depEntry (cms s) =? NULL then groupRoot (cms s) else depEntry (cms s));
  sr_jobs : forall y, y ∈ x :: l2 -> node_jobs (cms s) y (jobsof y);
  sr_nodup : NoDup ((x :: l2) ≫= jobsof);
  sr_refs : counted_refs s;
  sr_conds : forall q, q ∈ (x :: l2) ≫= jobsof -> meaningful ctime now s q }.

Lemma kept_entry ctime now s z : counted_refs s -> kept ctime now s (with_cms s (with_depEntry (cms s) z)).
Proof. intros Hr. by apply kept_marks. Qed.

Lemma checkJgrpDep_spec ctime now late s t jobsof x l2 :
  scan_ready ctime now s t jobsof x l2 ->
  exists v r s', checkJgrpDep ctime now late s = Some s' /\ x :: l2 = v ++ r /\ v <> [] /\
    depEntry (cms s') = match r with y :: _ => y | [] => groupRoot (cms s) end /\ kept ctime now s s' /\
    (forall q, jobs (cms s') !! q = if decide (q ∈ v ≫= jobsof)
                              then result ctime now s q <$> jobs (cms s) !! q else jobs (cms s) !! q) /\
    ((forall k, late k = false) -> r = []).
Proof.
  intros [Hok [l1 E] Hx Hj Hnd Hr Hm]. unfold checkJgrpDep.
  set (s0 := if depEntry (cms s) =? NULL then with_cms s (with_depEntry (cms s) (groupRoot (cms s))) else s).
  assert (Hs0 : (if negb (depEntry (cms s) =? NULL) then (depEntry (cms s), s)
                 else (groupRoot (cms s), with_cms s (with_depEntry (cms s) (groupRoot (cms s))))) = (x, s0)).
  { unfold s0. rewrite Hx. by destruct (depEntry (cms s) =? NULL). }
  assert (K0 : kept ctime now s s0) by (unfold s0; destruct (_ =? NULL); [by apply kept_entry|by apply kept_refl]).
  assert (Hj0 : jobs (cms s0) = jobs (cms s)) by (unfold s0; by destruct (_ =? NULL)). rewrite Hs0.
  change x with (hd0 (x :: l2)) at 1. pose proof (k_nodes _ _ _ _ K0) as Hn0.
  destruct (dep_walk_spec ctime now late t jobsof (node_fuel (cms s0)) s0 l1 (x :: l2) 0)
    as (v & r & s' & -> & Ev & (K & _ & Hjobs) & Hv & Hl); [exact (k_refs _ _ _ _ K0)|by rewrite Hn0|done| | |done| |].
  - unfold node_fuel. rewrite Hn0. apply Nat.lt_succ_r, NoDup_size.
    + pose proof (tok_nodup _ _ Hok) as Hd. rewrite E in Hd. by apply NoDup_app in Hd as (_ & _ & Hd).
    + intros y Hy. apply (ids_dom _ _ _ Hok). rewrite E. set_solver.
  - intros y Hy. eapply node_jobs_kept; [exact K0|]. by apply Hj.
  - intros q Hq j Hq0. rewrite (k_meaning _ _ _ _ K0). rewrite Hj0 in Hq0. by apply Hm.
  - cbn [mbind option_bind]. eexists v, r, _. split; [reflexivity|]. split; [done|]. split; [by apply Hv|].
    pose proof (kept_trans _ _ _ _ _ K0 K) as K2. split; [|split; [|split; [|done]]].
    + cbn. rewrite (k_root _ _ _ _ K2). destruct r as [|y r]; [done|]. change (hd0 (y :: r)) with y.
      rewrite (proj2 (Z.eqb_neq y NULL)); [done|]. apply (ids_nonnull _ _ y Hok). rewrite E, Ev. set_solver.
    + eapply kept_trans; [exact K2|]. apply kept_entry. exact (k_refs _ _ _ _ K).
    + intros q. change (jobs (cms s') !! q = if decide (q ∈ v ≫= jobsof) then result ctime now s q <$> jobs (cms s) !! q else jobs (cms s) !! q).
      rewrite (Hjobs q), Hj0. destruct (decide _); [|done]. destruct (jobs (cms s) !! q); [|done].
      cbn. unfold result. by rewrite (k_meaning _ _ _ _ K0).
Qed.

(** ** Several calls *)

(** Calls one after the other, each with its clock. *)
Fixpoint scans (ctime : Z -> list ascii) (now : Z) (clocks : list (Z -> bool)) (s : cstate) : option cstate :=
  match clocks with
  | [] => Some s
  | late :: clocks => s ← checkJgrpDep ctime now late s; scans ctime now clocks s
  end.

(** A call that is cut short leaves the rest for the next one. *)
Lemma ready_rest ctime now s s' t jobsof x l2 v y r :
  scan_ready ctime now s t jobsof x l2 -> x :: l2 = v ++ y :: r -> depEntry (cms s') = y -> kept ctime now s s' ->
  (forall q, q ∉ v ≫= jobsof -> jobs (cms s') !! q = jobs (cms s) !! q) -> scan_ready ctime now s' t jobsof y r.
Proof.
  intros [Hok [l1 E] Hx Hj Hnd Hr Hm] Ev Hy K Hq. rewrite Ev in Hj, Hnd, Hm, E. rewrite bind_app in Hnd, Hm.
  apply NoDup_app in Hnd as (_ & Hdis & Hnd). split; [by rewrite (k_nodes _ _ _ _ K)| | | |done|exact (k_refs _ _ _ _ K)|].
  - exists (l1 ++ v). by rewrite <- app_assoc.
  - rewrite Hy, (proj2 (Z.eqb_neq y NULL)); [done|]. apply (ids_nonnull _ _ y Hok). rewrite E. set_solver.
  - intros z Hz. eapply node_jobs_kept; [exact K|]. apply Hj. set_solver.
  - intros q Hin j Hqj. rewrite (k_meaning _ _ _ _ K). rewrite Hq in Hqj; [|intros Hv; by apply (Hdis q)].
    apply Hm; [|done]. set_solver.
Qed.

Lemma scans_spec ctime now clocks s t jobsof x l2 :
  scan_ready ctime now s t jobsof x l2 -> (length (x :: l2) <= length clocks)%nat ->
  exists n s', (1 <= n <= length (x :: l2))%nat /\ scans ctime now (take n clocks) s = Some s' /\
    depEntry (cms s') = groupRoot (cms s) /\ kept ctime now s s' /\
    (forall q, jobs (cms s') !! q = if decide (q ∈ (x :: l2) ≫= jobsof)
                              then result ctime now s q <$> jobs (cms s) !! q else jobs (cms s) !! q).
Proof.
  remember (length l2) as m eqn:Em. revert clocks s x l2 Em. induction m as [m IH] using lt_wf_ind. intros clocks s x l2 -> Hs Hc.
  destruct clocks as [|late clocks]; [simpl in Hc; lia|].
  destruct (checkJgrpDep_spec ctime now late s t jobsof x l2 Hs) as (v & r & s1 & E1 & Ev & Hv & D1 & K1 & J1 & _).
  destruct r as [|y r].
  { rewrite app_nil_r in Ev. subst v. exists 1%nat, s1. split; [simpl; lia|]. cbn. rewrite E1. done. }
  assert (Hs1 : scan_ready ctime now s1 t jobsof y r).
  { eapply ready_rest; [exact Hs|exact Ev|exact D1|exact K1|]. intros q Hq. by rewrite J1, decide_False. }
  pose proof (f_equal length Ev) as Hlen. rewrite length_app in Hlen. destruct v as [|z v]; [done|]. simpl in Hlen, Hc.
  destruct (IH (length r) ltac:(lia) clocks s1 y r eq_refl Hs1 ltac:(simpl; lia)) as (n & s2 & Hn & E2 & D2 & K2 & J2).
  exists (S n), s2. split; [simpl in *; lia|]. cbn [take scans]. rewrite E1. cbn [mbind option_bind]. split; [done|].
  split; [by rewrite D2, (k_root _ _ _ _ K1)|]. split; [by eapply kept_trans|]. rewrite Ev.
  pose proof (sr_nodup _ _ _ _ _ _ _ Hs) as Hnd. rewrite Ev, bind_app in Hnd. apply NoDup_app in Hnd as (_ & Hdis & _).
  intros q. rewrite J2, J1, bind_app. specialize (Hdis q). destruct (decide (q ∈ (y :: r) ≫= jobsof)) as [Hq|Hq].
  - rewrite decide_False, decide_True by set_solver. destruct (jobs (cms s) !! q); [|done]. cbn.
    unfold result. by rewrite (k_meaning _ _ _ _ K1).
  - destruct (decide (q ∈ (z :: v) ≫= jobsof)); [rewrite decide_True by set_solver|rewrite decide_False by set_solver]; done.
Qed.

(** * Properties *)

(** One call of [checkJgrpDep] deals with the nodes of the tree in lexical
    order from where the last call stopped, each once, and stops only between
    nodes; it remembers the node to go on with, the root once it has seen the
    last one.  Every job of these nodes is marked by what its condition means
    before the call, although evaluating the conditions changes them and gives
    back references on the way; no other job changes, an array that is not void
    is left alone, and of a void one the count is lower by exactly the
    references that the conditions have lost.  If the clock never runs out the
    rest of the tree is dealt with.  The conditions that are looked at must
    have a meaning, and the references to arrays in all conditions must be
    counted; they still are afterwards.  (C5) *)
Theorem checkJgrpDep_correct ctime now late s t jobsof x l2 :
  scan_ready ctime now s t jobsof x l2 ->
  exists v r s', checkJgrpDep ctime now late s = Some s' /\ x :: l2 = v ++ r /\ v <> [] /\
    depEntry (cms s') = match r with y :: _ => y | [] => groupRoot (cms s) end /\
    nodes (cms s') = nodes (cms s) /\ groupRoot (cms s') = groupRoot (cms s) /\
    (forall q, jobs (cms s') !! q = if decide (q ∈ v ≫= jobsof)
                              then result ctime now s q <$> jobs (cms s) !! q else jobs (cms s) !! q) /\
    arrays_kept s s' /\ counted_refs s' /\ ((forall k, late k = false) -> r = []).
Proof.
  intros Hs. destruct (checkJgrpDep_spec ctime now late s t jobsof x l2 Hs) as (v & r & s' & E & Ev & Hv & D & K & J & L).
  exists v, r, s'. destruct K. by repeat (split; [done|]).
Qed.

(** Job 201 of the sample tree waits until the array has running jobs and an
    array that is void by now has any. *)
Definition waiting_job : jData :=
  JData 500 "alice" 1 JOB_STAT_PEND 0 0 "normal" None 1 2 JGRP_NODE_JOB NULL 0 0 0 "j" "sleep" 900 0 0 0 0 0.
Definition waiting_cond : dptNode :=
  Opr DPT_AND DP_FALSE 1 (Opr DPT_NOT DP_FALSE 0 (Grp DPT_NUMDONE DP_FALSE 0 DPT_NE 0 105) Null)
    (Grp DPT_NUMRUN DP_FALSE 1 DPT_NE 0 103).
Definition waiting_state : cstate := CState (DState
  (MState (nodes sample_state) (<[105 := sample_jbase JGRP_VOID [0; 0; 0; 0; 0; 0; 0; 0; 0]]>
     (<[103 := set_numRef 1 (sample_base FreeJarray [2; 1; 0; 1; 0; 0; 0; 0; 0] 300)]> (bases sample_state)))
     (<[201 := waiting_job]> (jobs sample_state)) 1 2 [] (LState [] 1000)) ∅ ∅) {[ 900 := waiting_cond ]}.
Definition waiting_jobs (x : Z) : list Z := if x =? 2 then [201] else if x =? 3 then [301; 302] else [].

Lemma waiting_refs : counted_refs waiting_state.
Proof.
  assert (T : forall d, total (conds waiting_state) d = held waiting_cond d).
  { intros d. change (conds waiting_state) with (<[900 := waiting_cond]> (∅ : gmap Z dptNode)).
    rewrite total_insert_new by done. change (total ∅ d) with 0. lia. }
  intros d Hd. rewrite T in Hd |- *. unfold waiting_cond in Hd |- *. cbn [held] in Hd |- *.
  assert (d = 103 \/ d = 105) as [->| ->] by (destruct (Z.eqb_spec 103 d), (Z.eqb_spec 105 d); cbn in Hd; lia).
  - eexists. split; [vm_compute; reflexivity|]. cbn. split; [lia|done].
  - eexists. split; [vm_compute; reflexivity|]. cbn. split; [lia|done].
Qed.

Lemma waiting_ready : scan_ready (fun _ => []) 100 waiting_state sample_tree waiting_jobs 2 [3].
Proof.
  split.
  - exact (proj1 sample_jinv).
  - by exists [1].
  - reflexivity.
  - intros y [->|[->|[]%elem_of_nil]%elem_of_cons]%elem_of_cons.
    + eexists. split; [vm_compute; reflexivity|]. cbn. split; [done|]. split; [done|].
      eexists. split; [vm_compute; reflexivity|]. done.
    + eexists. split; [vm_compute; reflexivity|]. cbn. eexists _, _. split; [vm_compute; reflexivity|]. split; [done|].
      split; [vm_compute; reflexivity|]. cbn. split; [done|]. split; [done|]. eexists.
      split; [vm_compute; reflexivity|]. cbn. split; [done|]. split; [done|]. eexists.
      split; [vm_compute; reflexivity|]. done.
  - apply (bool_decide_unpack _). vm_compute. exact I.
  - apply waiting_refs.
  - intros q Hq. change ((2 :: [3]) ≫= waiting_jobs) with [201; 301; 302] in Hq.
    intros j Hj. rewrite !elem_of_cons in Hq. destruct Hq as [->|[->|[->|[]%elem_of_nil]]];
      vm_compute in Hj; injection Hj as <-; [|done|done]. intros _ _ _. vm_compute. by eexists.
Qed.

Lemma checkJgrpDep_correct_witness :
  exists s', checkJgrpDep (fun _ => []) 100 (fun _ => false) waiting_state = Some s' /\
    depEntry (cms s') = 1 /\ bases (cms s') !! 105 = None /\ arrays_kept waiting_state s'.
Proof.
  destruct (checkJgrpDep_correct (fun _ => []) 100 (fun _ => false) waiting_state sample_tree waiting_jobs 2 [3])
    as (v & r & s' & H1 & H2 & _ & H4 & _ & _ & _ & H8 & _ & H9).
  - exact waiting_ready.
  - rewrite H9 in H4 by done. exists s'. split; [exact H1|]. split; [exact H4|]. split; [|exact H8].
    vm_compute in H1. injection H1 as <-. reflexivity.
Defined.

(** However often the clock cuts the scan short: after at most as many calls
    as there are nodes from where it stands, nothing else happening in
    between, it has come round to the root, and each pending job of these nodes
    with a condition, not waiting to be switched, is marked ready exactly if its
    condition means true.  (C9) *)
Theorem checkJgrpDep_marks_ready ctime now clocks s t jobsof x l2 :
  scan_ready ctime now s t jobsof x l2 -> (length (x :: l2) <= length clocks)%nat ->
  exists n s', (1 <= n <= length (x :: l2))%nat /\ scans ctime now (take n clocks) s = Some s' /\
    depEntry (cms s') = groupRoot (cms s) /\
    forall q j, q ∈ (x :: l2) ≫= jobsof -> jobs (cms s) !! q = Some j -> JOB_PEND j = true ->
      has (jFlags j) JFLAG_WAIT_SWITCH = false -> dptRoot j <> NULL ->
      exists j', jobs (cms s') !! q = Some j' /\
        (has (jFlags j') JFLAG_READY2 = true <-> meaning ctime now s q = Some DP_TRUE).
Proof.
  intros Hs Hc. destruct (scans_spec ctime now clocks s t jobsof x l2 Hs Hc) as (n & s' & Hn & E & D & _ & J).
  exists n, s'. split; [done|]. split; [done|]. split; [done|]. intros q j Hq Hj Hp Hw Hd.
  rewrite J, decide_True, Hj by done. cbn [fmap option_fmap option_map]. eexists. split; [reflexivity|].
  destruct (sr_conds _ _ _ _ _ _ _ Hs q Hq j Hj Hp Hw Hd) as [v Hv]. unfold result. rewrite Hv. cbn [default].
  assert (Hthree : three v).
  { unfold meaning in Hv. rewrite Hj in Hv. cbn [mbind option_bind] in Hv. destruct (conds s !! dptRoot j); [|done]. by eapply den_three. }
  rewrite (ready_result v j Hp Hw Hd Hthree). split; [by intros ->|]. intros H. by injection H.
Qed.

Lemma checkJgrpDep_marks_ready_witness :
  exists n s' j', (1 <= n <= 2)%nat /\ scans (fun _ => []) 100 (take n [fun _ => true; fun _ => false]) waiting_state = Some s' /\
    jobs (cms s') !! 201 = Some j' /\ has (jFlags j') JFLAG_READY2 = true.
Proof.
  destruct (checkJgrpDep_marks_ready (fun _ => []) 100 [fun _ => true; fun _ => false] waiting_state sample_tree waiting_jobs 2 [3])
    as (n & s' & Hn & H1 & _ & H3).
  - exact waiting_ready.
  - simpl. lia.
  - destruct (H3 201 waiting_job) as (j' & Hj' & Hr);
      [vm_compute; by left|vm_compute; reflexivity|reflexivity|reflexivity|done|].
    exists n, s', j'. split; [exact Hn|]. split; [exact H1|]. split; [exact Hj'|]. apply Hr. vm_compute. reflexivity.
Defined.
