(* ===== verification/DepFree.v ===== *)
(** * Freeing a dependency condition, [freeDepCond] of [lsbatch/daemons/mbd.dep.c]

    The leaves of a condition hold references to jobs, to index lists and to
    the counters of arrays; an index list holds references to the jobs of its
    [depJobList] in turn.  All of them are counted in the blocks they lead to,
    and a block whose last reference goes is freed, a job or an array only if
    it is void.  This file proves that freeing a condition gives back exactly
    the references of its leaves, whatever the condition is made of. *)

From Stdlib Require Import Ascii.
From S2P Require Import Prelude Lsb ListSet Jgrp JgrpTree JgrpCount JgrpOps CString Window Jidx Jarray Dep.

(** ** Blocks with a count of references *)

(** [gone] says whether a block is freed with its last reference. *)
Class Counted (A : Type) := {
  num : A -> Z;
  set_num : Z -> A -> A;
  gone : A -> bool;
  num_set n x : num (set_num n x) = n;
  set_set n m x : set_num n (set_num m x) = set_num n x;
  gone_set n x : gone (set_num n x) = gone x }.

#[global] Instance job_counted : Counted jData.
Proof. refine {| num := jNumRef; set_num := set_jNumRef; gone j := has (jStatus j) JOB_STAT_VOID |}; done. Defined.
#[global] Instance idx_counted : Counted jobIdx.
Proof.
  refine {| num := ji_numRef; set_num n i := JobIdx n (Dep.ji_idxList i) (depJobList i); gone _ := true |}; done.
Defined.
#[global] Instance base_counted : Counted jgArrayBase.
Proof. refine {| num := numRef; set_num := set_numRef; gone b := status b =? JGRP_VOID |}; done. Defined.

(** One reference to [a]; there are none to the null pointer. *)
Definition one (a p : Z) : Z := if (a =? p) && negb (p =? NULL) then 1 else 0.

Lemma one_nonneg a p : 0 <= one a p.
Proof. unfold one. case_match; lia. Qed.
Lemma one_null p : one NULL p = 0.
Proof. unfold one. destruct (Z.eqb_spec NULL p) as [<-|]; [by rewrite Z.eqb_refl|done]. Qed.
Lemma one_same a : a <> NULL -> one a a = 1.
Proof. intros H. unfold one. by rewrite Z.eqb_refl, (proj2 (Z.eqb_neq a NULL) H). Qed.
Lemma one_other a p : a <> p -> one a p = 0.
Proof. intros H. unfold one. by rewrite (proj2 (Z.eqb_neq a p) H). Qed.

Section Blocks.
Context {A : Type} `{Counted A}.
Implicit Types (M : gmap Z A) (k h : Z -> Z).

(** [k p] references to each block [p] have been given back. *)
Definition lowered k M M' : Prop :=
  forall p, M' !! p = x ← M !! p;
    if k p =? 0 then Some x else if gone x && (num x - k p <=? 0) then None else Some (set_num (num x - k p) x).

(** At least [h p] references to each block [p] are counted. *)
Definition backed h M : Prop := forall p, 0 < h p -> exists x, M !! p = Some x /\ h p <= num x < 2 ^ 31.

Lemma lowered_none k M : (forall p, k p = 0) -> lowered k M M.
Proof. intros Hk p. rewrite Hk. cbn. by destruct (M !! p). Qed.

Lemma lowered_ext k k' M M' : (forall p, k p = k' p) -> lowered k M M' -> lowered k' M M'.
Proof. intros E HL p. rewrite <- E. apply HL. Qed.

Lemma backed_ext h h' M : (forall p, h p = h' p) -> backed h M -> backed h' M.
Proof. intros E HB p Hp. rewrite <- E in Hp. destruct (HB p Hp) as (x & ? & ?). exists x. by rewrite <- E. Qed.

Lemma lowered_trans k1 k2 M M1 M2 :
  (forall p, 0 <= k1 p) -> (forall p, 0 <= k2 p) -> lowered k1 M M1 -> lowered k2 M1 M2 ->
  lowered (fun p => k1 p + k2 p) M M2.
Proof.
  intros P1 P2 H1 H2 p. rewrite (H2 p), (H1 p). specialize (P1 p). specialize (P2 p).
  destruct (M !! p) as [x|]; [|done]. cbn [mbind option_bind].
  destruct (Z.eqb_spec (k1 p) 0) as [->|]; [cbn [mbind option_bind]; by rewrite Z.add_0_l|].
  rewrite (proj2 (Z.eqb_neq (k1 p + k2 p) 0)) by lia. destruct (gone x) eqn:Eg; cbn [andb].
  - destruct (Z.leb_spec (num x - k1 p) 0); [cbn; by rewrite (proj2 (Z.leb_le _ _)) by lia|]. cbn [mbind option_bind].
    destruct (Z.eqb_spec (k2 p) 0) as [->|]; [by rewrite Z.add_0_r, (proj2 (Z.leb_gt _ _)) by lia|].
    rewrite gone_set, num_set, set_set, Eg. cbn [andb]. by rewrite Z.sub_add_distr.
  - cbn [mbind option_bind]. destruct (Z.eqb_spec (k2 p) 0) as [->|]; [by rewrite Z.add_0_r|].
    rewrite gone_set, num_set, set_set, Eg. cbn [andb]. by rewrite Z.sub_add_distr.
Qed.

Lemma backed_lowered k h M M' :
  lowered k M M' -> (forall p, 0 <= k p) -> backed h M -> backed (fun p => h p - k p) M'.
Proof.
  intros HL Hk HB p Hp. specialize (Hk p). destruct (HB p ltac:(lia)) as (x & Hx & Hn). rewrite (HL p), Hx. cbn [mbind option_bind].
  destruct (Z.eqb_spec (k p) 0) as [->|]; [exists x; split; [done|lia]|].
  rewrite (proj2 (Z.leb_gt _ _)), andb_false_r by lia. eexists. split; [reflexivity|]. rewrite num_set. lia.
Qed.

(** The block after one reference less. *)
Definition drop_one (p : Z) (x : A) (M : gmap Z A) : gmap Z A :=
  if gone x && (num x - 1 <=? 0) then delete p M else <[p := set_num (num x - 1) x]> M.

Lemma lowered_one p x M : M !! p = Some x -> p <> NULL -> lowered (one p) M (drop_one p x M).
Proof.
  intros Hx Hp q. unfold drop_one. destruct (decide (p = q)) as [<-|Hne].
  - rewrite Hx, one_same by done. cbn. destruct (gone x && _); [apply lookup_delete_eq|apply lookup_insert_eq].
  - rewrite one_other by done. cbn. destruct (gone x && _); [rewrite lookup_delete_ne by done|rewrite lookup_insert_ne by done];
      by destruct (M !! q).
Qed.

End Blocks.

(** ** The references of a condition *)

Fixpoint job_refs (n : dptNode) (p : Z) : Z :=
  match n with
  | Opr (DPT_AND | DPT_OR) _ _ l r => job_refs l p + job_refs r p
  | Opr DPT_NOT _ _ l _ => job_refs l p
  | Job t _ _ _ _ _ j _ => if job_type t then one j p else 0
  | _ => 0
  end.
Fixpoint idx_refs (n : dptNode) (p : Z) : Z :=
  match n with
  | Opr (DPT_AND | DPT_OR) _ _ l r => idx_refs l p + idx_refs r p
  | Opr DPT_NOT _ _ l _ => idx_refs l p
  | Job t _ _ _ _ _ _ i => if job_type t then one i p else 0
  | _ => 0
  end.
Fixpoint array_refs (n : dptNode) (p : Z) : Z :=
  match n with
  | Opr (DPT_AND | DPT_OR) _ _ l r => array_refs l p + array_refs r p
  | Opr DPT_NOT _ _ l _ => array_refs l p
  | Grp t _ _ _ _ d => if grp_type t then one d p else 0
  | _ => 0
  end.

(** The references to jobs that index lists hold. *)
Fixpoint listed (l : list listSet) (p : Z) : Z :=
  match l with [] => 0 | c :: l => one (elem c) p + listed l p end.
Definition owned (I : gmap Z jobIdx) (p : Z) : Z := map_fold (fun _ i acc => listed (depJobList i) p + acc) 0 I.

Lemma refs_nonneg n p : 0 <= job_refs n p /\ 0 <= idx_refs n p /\ 0 <= array_refs n p.
Proof.
  induction n as [|t v u l IHl r IHr|t v u o e f j i|t v u w|t v u o k d]; cbn; try lia.
  - destruct t; lia.
  - destruct (job_type t); [|lia]. pose proof (one_nonneg j p). pose proof (one_nonneg i p). lia.
  - destruct (grp_type t); [|lia]. pose proof (one_nonneg d p). lia.
Qed.

Lemma listed_nonneg l p : 0 <= listed l p.
Proof. induction l as [|c l IH]; cbn; [lia|]. pose proof (one_nonneg (elem c) p). lia. Qed.

Lemma owned_insert_new I a i p : I !! a = None -> owned (<[a := i]> I) p = listed (depJobList i) p + owned I p.
Proof. intros E. unfold owned. rewrite map_fold_insert_L; [done| |done]. intros. lia. Qed.

Lemma owned_split I a i p : I !! a = Some i -> owned I p = listed (depJobList i) p + owned (delete a I) p.
Proof. intros E. rewrite <- (owned_insert_new _ a) by apply lookup_delete_eq. by rewrite insert_delete_id. Qed.

Lemma owned_nonneg I p : 0 <= owned I p.
Proof.
  induction I as [|a i I E IH] using map_ind; [done|]. rewrite owned_insert_new by done.
  pose proof (listed_nonneg (depJobList i) p). lia.
Qed.

Lemma owned_insert I a i j p : I !! a = Some i -> depJobList j = depJobList i -> owned (<[a := j]> I) p = owned I p.
Proof.
  intros E Ej. rewrite (owned_split I a i) by done. rewrite <- insert_delete_eq, owned_insert_new by apply lookup_delete_eq.
  by rewrite Ej.
Qed.

(** All references are counted: [hj], [hi] and [hd] of conditions, and those of
    the index lists. *)
Record all_counted (hj hi hd : Z -> Z) (s : dstate) : Prop := {
  ac_jobs : backed (fun p => hj p + owned (idxs s) p) (jobs (ms s));
  ac_idxs : backed hi (idxs s);
  ac_bases : backed hd (bases (ms s));
  ac_void : forall d b, bases (ms s) !! d = Some b -> status b = JGRP_VOID -> jobArray b = NULL /\ freeJgArray b <> NoFree }.

(** [kj], [ki] and [kd] references of leaves have been given back, and those of
    the index lists that are freed. *)
Record given_back (kj ki kd : Z -> Z) (s s' : dstate) : Prop := {
  gb_jobs : lowered (fun p => kj p + (owned (idxs s) p - owned (idxs s') p)) (jobs (ms s)) (jobs (ms s'));
  gb_owned : forall p, owned (idxs s') p <= owned (idxs s) p;
  gb_idxs : lowered ki (idxs s) (idxs s');
  gb_bases : lowered kd (bases (ms s)) (bases (ms s'));
  gb_nodes : nodes (ms s') = nodes (ms s);
  gb_root : groupRoot (ms s') = groupRoot (ms s);
  gb_entry : depEntry (ms s') = depEntry (ms s);
  gb_ht : jobIdHT s' = jobIdHT s }.

Definition nothing (p : Z) : Z := 0.

Lemma given_back_refl s : given_back nothing nothing nothing s s.
Proof. split; try done; apply lowered_none; intros p; unfold nothing; lia. Qed.

Lemma given_back_ext kj ki kd kj' ki' kd' s s' :
  (forall p, kj p = kj' p) -> (forall p, ki p = ki' p) -> (forall p, kd p = kd' p) ->
  given_back kj ki kd s s' -> given_back kj' ki' kd' s s'.
Proof.
  intros E1 E2 E3 []. split; try done; (eapply lowered_ext; [|eassumption]); intros p; cbn; by rewrite ?E1, ?E2, ?E3.
Qed.

Lemma given_back_trans kj ki kd kj' ki' kd' s1 s2 s3 :
  (forall p, 0 <= kj p /\ 0 <= ki p /\ 0 <= kd p) -> (forall p, 0 <= kj' p /\ 0 <= ki' p /\ 0 <= kd' p) ->
  given_back kj ki kd s1 s2 -> given_back kj' ki' kd' s2 s3 ->
  given_back (fun p => kj p + kj' p) (fun p => ki p + ki' p) (fun p => kd p + kd' p) s1 s3.
Proof.
  intros P P' [A1 A2 A3 A4 A5 A6 A7 A8] [B1 B2 B3 B4 B5 B6 B7 B8]. split; try congruence.
  - eapply lowered_ext; [|eapply lowered_trans; [| |exact A1|exact B1]]; intros p; destruct (P p), (P' p);
      specialize (A2 p); specialize (B2 p); cbn; lia.
  - intros p. specialize (A2 p). specialize (B2 p). lia.
  - eapply lowered_trans; [apply P|apply P'|done|done].
  - eapply lowered_trans; [apply P|apply P'|done|done].
Qed.

Lemma all_counted_after hj hi hd kj ki kd s s' :
  (forall p, 0 <= kj p /\ 0 <= ki p /\ 0 <= kd p) -> all_counted hj hi hd s -> given_back kj ki kd s s' ->
  all_counted (fun p => hj p - kj p) (fun p => hi p - ki p) (fun p => hd p - kd p) s'.
Proof.
  intros P [A1 A2 A3 A4] [B1 B2 B3 B4 _ _ _ _]. split.
  - eapply backed_ext; [|eapply backed_lowered; [exact B1| |exact A1]]; intros p; destruct (P p); specialize (B2 p); cbn; lia.
  - eapply backed_lowered; [done|apply P|done].
  - eapply backed_lowered; [done|apply P|done].
  - intros d b Hb Hv. rewrite (B4 d) in Hb. destruct (bases (ms s) !! d) as [b0|] eqn:E; [|done]. cbn [mbind option_bind] in Hb.
    destruct (kd d =? 0); [injection Hb as ->; eauto|]. destruct (_ && _); [done|]. injection Hb as <-. by apply (A4 d b0).
Qed.

(** ** Giving back one reference *)

Lemma destroy_job_spec m p j :
  jobs m !! p = Some j -> p <> NULL -> 1 <= jNumRef j < 2 ^ 31 ->
  exists m', destroyjDataRef m p = Some m' /\ jobs m' = drop_one p j (jobs m) /\ nodes m' = nodes m /\ bases m' = bases m /\
    groupRoot m' = groupRoot m /\ depEntry m' = depEntry m.
Proof.
  intros Hj Hp Hn. unfold destroyjDataRef, upd_job. rewrite (proj2 (Z.eqb_neq p NULL) Hp), Hj. cbn [mbind option_bind jobs with_jobs].
  rewrite lookup_insert_eq. cbn [mbind option_bind]. cbn [jStatus set_jNumRef jNumRef]. rewrite i32_small by lia.
  unfold drop_one. cbn [gone num job_counted set_num]. destruct (_ && _).
  - destruct (listSetDel _ _ _) as [l c]. eexists. split; [reflexivity|]. cbn. by rewrite delete_insert_eq.
  - by eexists.
Qed.

Lemma destroy_jobs_spec l : forall m h,
  backed (fun p => h p + listed l p) (jobs m) -> (forall p, 0 <= h p) ->
  exists m', destroy_jobs m l = Some m' /\ lowered (listed l) (jobs m) (jobs m') /\ nodes m' = nodes m /\ bases m' = bases m /\
    groupRoot m' = groupRoot m /\ depEntry m' = depEntry m.
Proof.
  induction l as [|c l IH]; intros m h Hb Hh; cbn [destroy_jobs]; [exists m; split; [done|]; split; [by apply lowered_none|done]|].
  destruct (Z.eqb_spec (elem c) NULL) as [En|En].
  - cbn [mbind option_bind]. destruct (IH m h) as (m' & H1 & H2 & H3); [|done|].
    + eapply backed_ext; [|exact Hb]. intros p. cbn. rewrite En, one_null. lia.
    + exists m'. split; [done|]. split; [|done]. eapply lowered_ext; [|exact H2]. intros p. cbn. rewrite En, one_null. lia.
  - destruct (Hb (elem c)) as (j & Hj & Hn).
    { cbn. rewrite one_same by done. pose proof (listed_nonneg l (elem c)). specialize (Hh (elem c)). lia. }
    cbn [listed num job_counted] in Hn. rewrite one_same in Hn by done. pose proof (listed_nonneg l (elem c)). pose proof (Hh (elem c)).
    destruct (destroy_job_spec m (elem c) j Hj En ltac:(lia)) as (m1 & -> & J1 & N1 & B1 & G1 & D1). cbn [mbind option_bind].
    pose proof (lowered_one (elem c) j _ Hj En) as L1. rewrite <- J1 in L1.
    destruct (IH m1 h) as (m' & H1 & H2 & N2 & B2 & G2 & D2); [|done|].
    + eapply backed_ext; [|eapply backed_lowered; [exact L1|apply one_nonneg|exact Hb]]. intros p. cbn. lia.
    + exists m'. split; [done|]. split; [|repeat split; congruence].
      eapply lowered_trans; [apply one_nonneg|apply listed_nonneg|exact L1|exact H2].
Qed.

Lemma free_job_ref s hj hi hd p :
  all_counted hj hi hd s -> (forall q, one p q <= hj q) ->
  exists m, destroyjDataRef (ms s) p = Some m /\ given_back (one p) nothing nothing s (with_ms s m).
Proof.
  intros Ha Hh. destruct (Z.eqb_spec p NULL) as [->|Hp].
  - exists (ms s). split; [done|]. eapply given_back_ext; [| | |destruct s; apply given_back_refl]; try done. intros q. by rewrite one_null.
  - pose proof (Hh p) as H1. rewrite one_same in H1 by done. pose proof (owned_nonneg (idxs s) p) as H2.
    destruct (ac_jobs _ _ _ _ Ha p ltac:(lia)) as (j & Hj & Hn). cbn [num job_counted] in Hn.
    destruct (destroy_job_spec (ms s) p j Hj Hp ltac:(lia)) as (m & E & J & N & B & G & D). exists m. split; [done|].
    split; try done; cbn [ms with_ms idxs].
    + rewrite J. eapply lowered_ext; [|by apply lowered_one]. intros q. cbn. lia.
    + by apply lowered_none.
    + rewrite B. by apply lowered_none.
Qed.

Lemma free_idx_ref s hj hi hd p :
  all_counted hj hi hd s -> (forall q, 0 <= hj q) -> (forall q, one p q <= hi q) ->
  exists s', destroyjobIdxRef s p = Some s' /\ given_back nothing (one p) nothing s s'.
Proof.
  intros Ha Hh Hi. unfold destroyjobIdxRef. destruct (Z.eqb_spec p NULL) as [->|Hp].
  - exists s. split; [done|]. eapply given_back_ext; [| | |apply given_back_refl]; try done. intros q. by rewrite one_null.
  - specialize (Hi p). rewrite one_same in Hi by done. destruct (ac_idxs _ _ _ _ Ha p ltac:(lia)) as (i & Hx & Hn). rewrite Hx.
    cbn [num idx_counted] in Hn. cbn [mbind option_bind]. rewrite i32_small by lia. pose proof (lowered_one p i _ Hx Hp) as L.
    unfold drop_one in L. cbn [gone num idx_counted set_num andb] in L. destruct (ji_numRef i - 1 <=? 0).
    + destruct (destroy_jobs_spec (depJobList i) (ms s) (fun q => hj q + owned (delete p (idxs s)) q)) as (m & E & J & N & B & G & D).
      * eapply backed_ext; [|exact (ac_jobs _ _ _ _ Ha)]. intros q. cbn. rewrite (owned_split (idxs s) p i) by done. lia.
      * intros q. pose proof (owned_nonneg (delete p (idxs s)) q). specialize (Hh q). lia.
      * rewrite E. cbn [mbind option_bind]. eexists. split; [reflexivity|].
        split; cbn [ms idxs jobIdHT jobs bases nodes groupRoot depEntry with_void]; try done.
        -- eapply lowered_ext; [|exact J]. intros q. cbn. rewrite (owned_split (idxs s) p i) by done. unfold nothing. lia.
        -- intros q. rewrite (owned_split (idxs s) p i q) by done. pose proof (listed_nonneg (depJobList i) q). lia.
        -- rewrite B. by apply lowered_none.
    + eexists. split; [reflexivity|]. assert (O : forall q, owned (<[p := JobIdx (ji_numRef i - 1) (Dep.ji_idxList i) (depJobList i)]> (idxs s)) q = owned (idxs s) q)
        by (intros q; by eapply owned_insert).
      split; cbn [ms idxs jobIdHT with_idxs]; try done.
      * apply lowered_none. intros q. rewrite O. unfold nothing. lia.
      * intros q. by rewrite O.
      * by apply lowered_none.
Qed.

Lemma free_array_ref s hj hi hd d :
  all_counted hj hi hd s -> (forall q, one d q <= hd q) ->
  exists m, destroyJgArrayBaseRef (ms s) d = Some m /\ given_back nothing nothing (one d) s (with_ms s m).
Proof.
  intros Ha Hh. destruct (Z.eqb_spec d NULL) as [->|Hd].
  - exists (ms s). split; [done|]. eapply given_back_ext; [| | |destruct s; apply given_back_refl]; try done. intros q. by rewrite one_null.
  - specialize (Hh d). rewrite one_same in Hh by done. destruct (ac_bases _ _ _ _ Ha d ltac:(lia)) as (b & Hb & Hn).
    cbn [num base_counted] in Hn. pose proof (lowered_one d b _ Hb Hd) as L. unfold drop_one in L. cbn [gone num base_counted set_num] in L.
    assert (Hgb : forall B, lowered (one d) (bases (ms s)) B -> given_back nothing nothing (one d) s (with_ms s (with_bases (ms s) B))).
    { intros B HB. split; try done; cbn [ms with_ms idxs jobs with_bases]; apply lowered_none; intros q; unfold nothing; lia. }
    destruct (Z.eqb_spec (status b) JGRP_VOID) as [Ev|Ev]; cbn [andb] in L.
    + destruct (ac_void _ _ _ _ Ha d b Hb Ev) as [Hj Hf]. rewrite (destroy_void _ _ b) by (done || lia). eexists. split; [reflexivity|].
      apply Hgb. destruct (Z.eqb_spec (numRef b) 1); [rewrite (proj2 (Z.leb_le _ _)) in L by lia|rewrite (proj2 (Z.leb_gt _ _)) in L by lia]; done.
    + eexists. split; [|by apply Hgb]. unfold destroyJgArrayBaseRef, upd_base. rewrite (proj2 (Z.eqb_neq d NULL) Hd), Hb.
      cbn [mbind option_bind bases with_bases]. rewrite lookup_insert_eq. cbn [mbind option_bind status set_numRef].
      rewrite (proj2 (Z.eqb_neq _ _) Ev), i32_small by lia. done.
Qed.

(** ** A whole condition *)

Lemma free_spec n : forall s hj hi hd,
  all_counted hj hi hd s -> (forall p, job_refs n p <= hj p /\ idx_refs n p <= hi p /\ array_refs n p <= hd p) ->
  exists s', freeDepCond s n = Some s' /\ given_back (job_refs n) (idx_refs n) (array_refs n) s s'.
Proof.
  induction n as [|t v u l IHl r IHr|t v u o e f j i|t v u w|t v u o k d]; intros s hj hi hd Ha Hh;
    try (exists s; split; [done|apply given_back_refl]).
  - destruct t; try (exists s; split; [done|apply given_back_refl]); cbn [freeDepCond];
      [..|by apply (IHl s hj hi hd)];
      (destruct (IHl s hj hi hd Ha) as (s1 & -> & G1);
       [intros p; specialize (Hh p); pose proof (refs_nonneg r p); cbn in Hh; lia|]); cbn [mbind option_bind];
      pose proof (all_counted_after _ _ _ _ _ _ _ _ (refs_nonneg l) Ha G1) as A1;
      (destruct (IHr s1 _ _ _ A1) as (s2 & -> & G2); [intros p; specialize (Hh p); cbn in Hh |- *; lia|]);
      exists s2; (split; [done|]); exact (given_back_trans _ _ _ _ _ _ _ _ _ (refs_nonneg l) (refs_nonneg r) G1 G2).
  - destruct (job_type t) eqn:Et; [|by destruct t; try done; exists s; (split; [done|apply given_back_refl])].
    cbn [job_refs idx_refs array_refs] in *. rewrite Et in Hh.
    destruct (free_job_ref s hj hi hd j Ha) as (m & E & G1); [apply Hh|].
    assert (P : forall p, 0 <= one j p /\ 0 <= nothing p /\ 0 <= nothing p) by (intros p; unfold nothing; pose proof (one_nonneg j p); lia).
    pose proof (all_counted_after _ _ _ _ _ _ _ _ P Ha G1) as A1.
    destruct (free_idx_ref (with_ms s m) _ _ _ i A1) as (s2 & E2 & G2);
      [intros q; cbn; destruct (Hh q); lia|intros q; cbn; unfold nothing; destruct (Hh q); lia|].
    exists s2. split; [destruct t; try done; cbn [freeDepCond]; by rewrite E|].
    eapply given_back_ext; [| | |eapply (given_back_trans _ _ _ _ _ _ _ _ _ P); [|exact G1|exact G2]]; intros p;
      cbn; rewrite ?Et; unfold nothing; pose proof (one_nonneg i p); lia.
  - destruct (grp_type t) eqn:Et; [|by destruct t; try done; exists s; (split; [done|apply given_back_refl])].
    cbn [job_refs idx_refs array_refs] in *. rewrite Et in Hh.
    destruct (free_array_ref s hj hi hd d Ha) as (m & E & G); [apply Hh|]. exists (with_ms s m).
    split; [destruct t; try done; cbn [freeDepCond]; by rewrite E|].
    eapply given_back_ext; [| | |exact G]; intros p; cbn; by rewrite ?Et.
Qed.

(** * Properties *)

(** (C8) [freeDepCond] gives back exactly the references that the leaves of a
    condition hold: for every job, index list and array the count is lower by
    the number of leaves that lead there; an index list without references is
    freed and gives back its references to jobs in turn; a void job or array
    without references is freed.  Nothing else of these blocks changes, and the
    references held elsewhere are still counted. *)
Theorem freeDepCond_correct s n hj hi hd :
  all_counted hj hi hd s -> (forall p, job_refs n p <= hj p /\ idx_refs n p <= hi p /\ array_refs n p <= hd p) ->
  exists s', freeDepCond s n = Some s' /\ given_back (job_refs n) (idx_refs n) (array_refs n) s s' /\
    all_counted (fun p => hj p - job_refs n p) (fun p => hi p - idx_refs n p) (fun p => hd p - array_refs n p) s'.
Proof.
  intros Ha Hh. destruct (free_spec n s hj hi hd Ha Hh) as (s' & E & G). exists s'. split; [done|]. split; [done|].
  eapply all_counted_after; [apply refs_nonneg|exact Ha|exact G].
Qed.

(** A condition on two elements of an array and on the counters of another one,
    which is void. *)
Definition free_job (id type next : Z) : jData :=
  JData 500 "alice" id JOB_STAT_PEND 0 0 "normal" None 1 NULL type next 0 0 0 "j" "sleep" NULL 0 0 0 0 0.
Definition free_state : dstate := DState
  (MState ∅ {[ 102 := sample_jbase JGRP_VOID [0; 0; 0; 0; 0; 0; 0; 0; 0] ]}
     (list_to_map [(300, free_job 7 JGRP_NODE_ARRAY 301); (301, free_job (LSB_JOBID 7 1) JGRP_NODE_JOB 302);
                   (302, free_job (LSB_JOBID 7 2) JGRP_NODE_JOB NULL)]) NULL NULL [] (LState [] 1000))
  {[ 9 := JobIdx 1 [] [Cell 21 301; Cell 22 302] ]} ∅.
Definition free_cond : dptNode :=
  Opr DPT_AND DP_FALSE 1 (Grp DPT_NUMDONE DP_FALSE 0 DPT_NE 0 102) (Job DPT_DONE DP_FALSE 0 DPT_TRUE 0 0 300 9).

Lemma free_state_counted : all_counted (job_refs free_cond) (idx_refs free_cond) (array_refs free_cond) free_state.
Proof.
  split.
  - intros p Hp. assert (O : owned (idxs free_state) p = one 301 p + (one 302 p + 0)).
    { change (idxs free_state) with (<[9 := JobIdx 1 [] [Cell 21 301; Cell 22 302]]> (∅ : gmap Z jobIdx)).
      rewrite owned_insert_new by done. change (owned ∅ p) with 0. cbn [listed depJobList elem]. lia. }
    cbn beta in Hp |- *. rewrite O in Hp |- *. change (job_refs free_cond p) with (0 + one 300 p) in Hp |- *.
    assert (p = 300 \/ p = 301 \/ p = 302) as [->|[->| ->]].
    { destruct (Z.eqb_spec p 300), (Z.eqb_spec p 301), (Z.eqb_spec p 302); try lia. by rewrite !one_other in Hp by lia. }
    all: eexists; (split; [vm_compute; reflexivity|]); by vm_compute.
  - intros p Hp. change (idx_refs free_cond p) with (0 + one 9 p) in Hp |- *.
    destruct (decide (p = 9)) as [->|]; [|by rewrite one_other in Hp by lia].
    eexists. split; [vm_compute; reflexivity|]. by vm_compute.
  - intros p Hp. change (array_refs free_cond p) with (one 102 p + 0) in Hp |- *.
    destruct (decide (p = 102)) as [->|]; [|by rewrite one_other in Hp by lia].
    eexists. split; [vm_compute; reflexivity|]. by vm_compute.
  - intros d b Hb _. cbn in Hb. apply lookup_singleton_Some in Hb as [_ <-]. by split.
Qed.

Lemma freeDepCond_correct_witness :
  exists s', freeDepCond free_state free_cond = Some s' /\ bases (ms s') !! 102 = None /\ idxs s' !! 9 = None /\
    (jNumRef <$> jobs (ms s') !! 302) = Some 0.
Proof.
  destruct (freeDepCond_correct free_state free_cond (job_refs free_cond) (idx_refs free_cond) (array_refs free_cond))
    as (s' & E & G & _).
  - exact free_state_counted.
  - intros p. lia.
  - exists s'. split; [exact E|]. vm_compute in E. injection E as <-. by vm_compute.
Defined.
