(* ===== verification/DepParse.v ===== *)
(** * Dependency conditions, [lsbatch/daemons/mbd.dep.c]: parsing

    The text of a condition is cut into tokens by [getToken] and read by an
    operator-precedence parser with two stacks of nodes.  A leaf looks its jobs
    up with [matchJobs] and takes references to them.

    The state of a parse holds the rest of the text, the two stacks, the
    daemon's state and the local variables of [parseDepCond] that live from
    token to token.  A node that is changed after it has been pushed (the exit
    code of [exit()]) is changed where it is, in the operand on top of the
    stack.  The stacks grow as needed; the name of the bad job for the error
    message is left out. *)

From Stdlib Require Import Ascii SpecFloat.
From S2P Require Import Prelude Lsb ListSet Jgrp CString Float32 Window Jidx Jarray Dep.

(** ** Tokens *)

Definition isalnum (c : ascii) : bool := is_letter c || is_digit c.
Definition is_one_of (s : string) (c : ascii) : bool := existsb (Ascii.eqb c) (chars s).
Definition IS_QUOTE (c : ascii) : bool := Ascii.eqb c dquote || Ascii.eqb c "'".
Definition IS_VALIDCHAR (c : ascii) : bool := isalnum c || is_one_of "*_.:%,@/[]-" c.
Definition IS_DELIM (c : ascii) : bool := is_one_of ", " c.

Definition tokenTable : list (string * dptType * bool) :=
  [("(", DPT_LEFT_, false); (")", DPT_RIGHT_, false); ("&&", DPT_AND, false); ("||", DPT_OR, false);
   ("exit", DPT_EXIT, true); ("started", DPT_STARTED, true); ("ended", DPT_ENDED, true);
   ("time", DPT_WINDOW, true); ("done", DPT_DONE, true); ("post_done", DPT_POST_DONE, true);
   ("post_err", DPT_POST_ERR, true); ("numpend", DPT_NUMPEND, true); ("numhold", DPT_NUMHOLD, true);
   ("numrun", DPT_NUMRUN, true); ("numexit", DPT_NUMEXIT, true); ("numdone", DPT_NUMDONE, true);
   ("numstart", DPT_NUMSTART, true); ("numended", DPT_NUMENDED, true); (",", DPT_COMMA, false);
   (">=", DPT_GE, false); ("<=", DPT_LE, false); ("==", DPT_EQ, false); ("!=", DPT_NE, false);
   ("<", DPT_LT, false); (">", DPT_GT, false); ("!", DPT_NOT, false)]%string.

(** The first entry whose name starts the text. *)
Fixpoint table_match (t : list (string * dptType * bool)) (w : list ascii) : option (list ascii * dptType * bool) :=
  match t with
  | [] => None
  | (name, ty, chk) :: t => if prefixb (chars name) w then Some (chars name, ty, chk) else table_match t w
  end.

Definition WINDOW_CONF : Z := 2.
Definition TOKEN_MAX : nat := Z.to_nat (4 * 4096 - 1).

(** The characters up to and with the closing quote. *)
Fixpoint quoted (room : nat) (q : ascii) (w : list ascii) : list ascii * list ascii :=
  match room, w with
  | O, _ | _, [] => ([], w)
  | S k, c :: w => if Ascii.eqb c q then ([c], w) else let '(t, r) := quoted k q w in (c :: t, r)
  end.

Fixpoint plain (room : nat) (w : list ascii) : list ascii * list ascii :=
  match room, w with
  | O, _ | _, [] => ([], w)
  | S k, c :: w' => if IS_VALIDCHAR c && negb (IS_DELIM c) then let '(t, r) := plain k w' in (c :: t, r) else ([], w)
  end.

(** A name that goes on from the characters [pre] already in the buffer. *)
Definition name_token (pre w : list ascii) : list ascii * dptType * list ascii :=
  match w with
  | c :: w' =>
      if IS_QUOTE c then let '(t, r) := quoted (TOKEN_MAX - length pre - 1) c w' in (pre ++ c :: t, DPT_NAME, r)
      else let '(t, r) := plain (TOKEN_MAX - length pre) w in (pre ++ t, DPT_NAME, r)
  | [] => (pre, DPT_NAME, [])
  end.

(** The token, its type and the rest; [None] at the end of the text. *)
Definition getToken (w : list ascii) : option (list ascii * dptType * list ascii) :=
  match skip_space w with
  | [] => None
  | w =>
      Some (match table_match tokenTable w with
            | Some (name, ty, chk) =>
                let rest := drop (length name) w in
                if chk && match rest with c :: _ => isalnum c || Ascii.eqb c "*" | [] => false end
                then name_token name rest else (name, ty, rest)
            | None => name_token [] w
            end)
  end.

(** ** Nodes and stacks *)

Definition newNode (s : dstate) (t : dptType) (data : Z) : option (dptNode * dstate) :=
  match t with
  | DPT_OR | DPT_AND | DPT_LEFT_ | DPT_NOT => Some (Opr t DP_FALSE 0 Null Null, s)
  | DPT_DONE | DPT_POST_DONE | DPT_POST_ERR | DPT_ENDED | DPT_STARTED =>
      m ← createjDataRef (ms s) data; Some (Job t DP_FALSE 0 DPT_AND 0 0 data NULL, with_ms s m)
  | DPT_EXIT => m ← createjDataRef (ms s) data; Some (Job t DP_FALSE 0 DPT_TRUE 0 0 data NULL, with_ms s m)
  | DPT_NUMPEND | DPT_NUMHOLD | DPT_NUMRUN | DPT_NUMEXIT | DPT_NUMDONE | DPT_NUMSTART | DPT_NUMENDED =>
      m ← createJgArrayBaseRef (ms s) data; Some (Grp t DP_FALSE 0 DPT_NE 0 data, with_ms s m)
  | _ => None
  end.

Definition node_type (n : dptNode) : option dptType :=
  match n with Null => None | Opr t _ _ _ _ | Job t _ _ _ _ _ _ _ | Wind t _ _ _ | Grp t _ _ _ _ _ => Some t end.

(** Operators and operands, top first. *)
Record stacks := Stacks { ops : list dptNode; opnds : list dptNode }.

(** [op->dptLeft = operand1; op->dptRight = operand2] *)
Definition link (op l r : dptNode) : dptNode :=
  match op with
  | Opr DPT_NOT v u _ r0 => Opr DPT_NOT v u l r0
  | Opr t v u _ _ => Opr t v u l r
  | n => n
  end.

Definition merge_top (st : stacks) : option stacks :=
  match ops st, opnds st with
  | op :: ops, operand1 :: opnds =>
      if bool_decide (node_type op = Some DPT_NOT) then Some (Stacks ops (link op operand1 Null :: opnds))
      else match opnds with
           | operand2 :: opnds => Some (Stacks ops (link op operand1 operand2 :: opnds))
           | [] => None
           end
  | _, _ => None
  end.

(** [MERGE_LEFT]: until the opening parenthesis, which is dropped. *)
Fixpoint merge_left (fuel : nat) (st : stacks) : option stacks :=
  match fuel with
  | O => None
  | S k =>
      match ops st with
      | [] => None
      | op :: rest =>
          if bool_decide (node_type op = Some DPT_LEFT_) then Some (Stacks rest (opnds st))
          else st ← merge_top st; merge_left k st
      end
  end.

(** [MERGE_ALL]: as long as it goes. *)
Fixpoint merge_all (fuel : nat) (st : stacks) : stacks :=
  match fuel with
  | O => st
  | S k => match merge_top st with Some st => merge_all k st | None => st end
  end.

Definition merge_fuel (st : stacks) : nat := S (length (ops st)).
Arguments merge_fuel : simpl never.

(** ** Looking jobs up *)

(** What the parser reads of the rest of the daemon.  [beyond] is the byte that
    follows [preceTable] in memory. *)
Record env := Env {
  lim : limits; globs : pglobals; getUserData : string -> Z; jobDepLastSub : bool;
  arrayIdxList : list idxList; ctime : Z -> list ascii; now : Z; beyond : Z }.

(** [strstr(w, "[*]")]: the text before it. *)
Fixpoint before_star (w : list ascii) : option (list ascii) :=
  if prefixb (chars "[*]") w then Some []
  else match w with [] => None | c :: w => l ← before_star w; Some (c :: l) end.

Definition set_depJobs (s : dstate) (p : Z) (l : list listSet) : option dstate :=
  i ← idxs s !! p; Some (with_idxs s (<[p := JobIdx (ji_numRef i) (ji_idxList i) l]> (idxs s))).

(** [depJobList = listSetInsert(createjDataRef(jp), depJobList)] *)
Definition add_dep (s : dstate) (jidx jp : Z) : option dstate :=
  m ← createjDataRef (ms s) jp;
  i ← idxs s !! jidx;
  let '(l, c) := listSetInsert (lcells m) jp (depJobList i) in
  set_depJobs (with_ms s (with_void m (voidJobList m) c)) jidx l.

(** The loop over one region; [must] says that every element has to exist, and
    the answer whether one was missing. *)
Fixpoint dep_region (fuel : nat) (s : dstate) (must : bool) (jidx jobId : Z) (idx : idxList) (i : Z)
    : option (bool * dstate) :=
  match fuel with
  | O => None
  | S k =>
      if end_ idx <? i then Some (false, s) else
      let p := getJobData s (LSB_JOBID jobId i) in
      if p =? NULL then
        if must then Some (true, s) else dep_region k s must jidx jobId idx (i32 (i + step idx))
      else s ← add_dep s jidx p; dep_region k s must jidx jobId idx (i32 (i + step idx))
  end.

Fixpoint dep_regions (s : dstate) (jidx jobId : Z) (l : list idxList) : option (bool * dstate) :=
  match l with
  | [] => Some (false, s)
  | idx :: l =>
      '(missing, s) ← dep_region (idx_fuel idx) s true jidx jobId idx (start idx);
      if missing : bool then Some (true, s) else dep_regions s jidx jobId l
  end.

(** The jobs of the user below the root: all of them, or the one submitted
    last.  [found] is [foundJobRec] up to [numJob]. *)
Fixpoint by_user (fuel : nat) (m : mstate) (nPtr uPtr_ : Z) (lastOnly : bool) (latest : Z) (found : list Z)
    : option (list Z) :=
  match fuel with
  | O => None
  | S k =>
      if nPtr =? NULL then Some found else
      n ← nodes m !! nPtr;
      p ← (if nodeType n =? JGRP_NODE_ARRAY then b ← bases m !! ndInfo n; Some (jobArray b) else Some (ndInfo n));
      j ← jobs m !! p;
      if uPtr j =? uPtr_ then
        if lastOnly then
          if latest <? submitTime j then by_user k m (right_ n) uPtr_ lastOnly (submitTime j) [p]
          else by_user k m (right_ n) uPtr_ lastOnly latest found
        else by_user k m (right_ n) uPtr_ lastOnly latest (found ++ [p])
      else by_user k m (right_ n) uPtr_ lastOnly latest found
  end.

(** The result of [matchJobs]: the jobs ([None] for [NULL]), [*numFoundJob] if
    it is set, [*replyCode], [*jobIdx], [*flag], and the state. *)
Record matched := Matched {
  m_jobs : option (list Z); m_num : option Z; m_reply : Z; m_idx : Z; m_flag : option Z; m_next : Z; m_state : dstate }.

(** A new [struct jobIdx] at the address [a]. *)
Definition new_idx (s : dstate) (a : Z) (l : list idxList) : dstate := with_idxs s (<[a := JobIdx 0 l []]> (idxs s)).

(** The label [Ret]. *)
Definition match_ret (s : dstate) (nxt : Z) (found : list Z) (open_list : bool) (reply jidx : Z) (flag : option Z)
    : option matched :=
  match found with
  | [] =>
      '(jidx, s) ← (if open_list && negb (jidx =? NULL) then s ← destroyjobIdxRef s jidx; Some (NULL, s) else Some (jidx, s));
      Some (Matched None (Some 0) (if reply =? LSBE_DEPEND_SYNTAX then LSBE_NO_JOB else reply) jidx flag nxt s)
  | _ => Some (Matched (Some found) (Some (Z.of_nat (length found))) reply jidx flag nxt s)
  end.

(** The label [checkIdx]: the arrays must have the same first region. *)
Definition check_idx (E : env) (s : dstate) (nxt : Z) (found : list Z) (open_list : bool) (reply jidx : Z)
    (flag : option Z) : option matched :=
  match found with
  | p :: _ =>
      if bool_decide (flag = Some ARRAY_DEP_ONE_TO_ONE) then
        j ← jobs (ms s) !! p;
        d ← parseJobArrayIndex (lim E) (globs E) (chars (jobName j)) 0;
        match p_list d, getIdxListContext (arrayIdxList E) with
        | a :: _, b :: _ =>
            if (start a =? start b) && (end_ a =? end_ b) && (step a =? step b) then
              '(_, s) ← dep_region (idx_fuel a) (new_idx s nxt []) false nxt (jobId j) a (start a);
              match_ret s (nxt + 1) found open_list reply nxt flag
            else match_ret s nxt [] open_list LSBE_DEP_ARRAY_SIZE jidx flag
        | _, _ => match_ret s nxt [] open_list LSBE_DEP_ARRAY_SIZE jidx flag
        end
      else match_ret s nxt found open_list reply jidx flag
  | [] => match_ret s nxt [] open_list reply jidx flag
  end.

(** The number, or the name, that the text gives. *)
Definition job_ref (jobp : list ascii) : Z * option (list ascii) :=
  match jobp with
  | c :: w =>
      if IS_QUOTE c then (0, Some (match strchr c w with Some (l, _) => l | None => w end))
      else if isint_ jobp then (atoi jobp, None) else (0, Some jobp)
  | [] => (0, Some [])
  end.

Definition match_id (E : env) (s : dstate) (nxt jobId_ : Z) (idxl : list idxList) (reply jidx : Z) (flag : option Z)
    : option matched :=
  let rec := getJobData s jobId_ in
  let open_list := negb (bool_decide (idxl = [])) in
  if rec =? NULL then match_ret s nxt [] open_list reply jidx flag else
  j ← jobs (ms s) !! rec;
  if bool_decide (flag = Some ARRAY_DEP_ONE_TO_ONE) then
    if jNodeType j =? JGRP_NODE_ARRAY then check_idx E s nxt [rec] open_list reply jidx flag
    else match_ret s nxt [] open_list reply jidx flag
  else
    '(idxl, jidx, nxt, s) ←
      (if bool_decide (idxl = []) && (jNodeType j =? JGRP_NODE_ARRAY) then
         d ← parseJobArrayIndex (lim E) (globs E) (chars (jobName j)) 0;
         match p_list d with
         | [] => Some ([], jidx, nxt, s)
         | l => Some (l, nxt, nxt + 1, new_idx s nxt l)
         end
       else Some (idxl, jidx, nxt, s));
    match idxl with
    | [] => match_ret s nxt [rec] false reply jidx flag
    | _ => '(missing, s) ← dep_regions s jidx jobId_ idxl;
           if missing : bool then match_ret s nxt [] true reply jidx flag
           else match_ret s nxt [rec] false reply jidx flag
    end.

Definition match_name (E : env) (s : dstate) (nxt : Z) (name : list ascii) (user : string) (open_list : bool)
    (reply jidx : Z) (flag : option Z) : option matched :=
  match name with
  | [] => match_ret s nxt [] open_list reply jidx flag
  | _ =>
      if groupRoot (ms s) =? NULL then match_ret s nxt [] open_list reply jidx flag else
      r ← nodes (ms s) !! groupRoot (ms s);
      let wildCard := match last name with Some c => Ascii.eqb c "*" | None => false end in
      found ← by_user (node_fuel (ms s)) (ms s) (child r) (getUserData E user) (jobDepLastSub E && negb wildCard) 0 [];
      check_idx E s nxt found open_list reply jidx flag
  end.

Definition matchJobs (E : env) (s : dstate) (nxt : Z) (jobp : list ascii) (user : string) (reply : Z)
    (flag : option Z) : option matched :=
  let '(jobp, flag) := match before_star jobp with
                       | Some w => (w, match flag with Some _ => Some ARRAY_DEP_ONE_TO_ONE | None => None end)
                       | None => (jobp, flag)
                       end in
  p ← parseJobArrayIndex (lim E) (globs E) jobp 0;
  if negb (p_error p =? LSBE_NO_ERROR) then Some (Matched None None reply NULL flag nxt s) else
  let idxl := p_list p in
  let '(jidx, nxt, s) := match idxl with [] => (NULL, nxt, s) | _ => (nxt, nxt + 1, new_idx s nxt idxl) end in
  let jobp := match strchr "[" jobp with Some (l, _) => l | None => jobp end in
  match job_ref jobp with
  | (jobId, None) =>
      if jobId =? 0 then match_ret s nxt [] (negb (bool_decide (idxl = []))) reply jidx flag
      else match_id E s nxt jobId idxl reply jidx flag
  | (_, Some name) => match_name E s nxt name user (negb (bool_decide (idxl = []))) reply jidx flag
  end.

(** ** The parser *)

Record pstate := PState {
  text : list ascii; stk : stacks; pds : dstate; nextIdx : Z; numJob : Z; opFlag_ : Z; replyCode : Z }.

(** A step of the parser: [None] is an access that C leaves undefined (or fuel
    that has run out), [inl] the jump to [Error]. *)
Definition parser (A : Type) : Type := pstate -> option (pstate + A * pstate).
Definition pret {A} (a : A) : parser A := fun p => Some (inr (a, p)).
Definition perror {A} : parser A := fun p => Some (inl p).
Definition pbind {A B} (m : parser A) (f : A -> parser B) : parser B := fun p =>
  match m p with None => None | Some (inl p) => Some (inl p) | Some (inr (a, p)) => f a p end.

Declare Scope parser_scope.
Delimit Scope parser_scope with P.
Notation "x <- m ;; k" := (pbind m (fun x => k)) (at level 20, m at level 99, k at level 200) : parser_scope.
Notation "' x <- m ;; k" := (pbind m (fun x => k))
  (at level 20, x pattern, m at level 99, k at level 200) : parser_scope.
Notation "m ;;; k" := (pbind m (fun _ => k)) (at level 100, right associativity) : parser_scope.
#[local] Open Scope parser_scope.

Definition with_text (p : pstate) (w : list ascii) : pstate :=
  PState w (stk p) (pds p) (nextIdx p) (numJob p) (opFlag_ p) (replyCode p).
Definition with_stk (p : pstate) (s : stacks) : pstate :=
  PState (text p) s (pds p) (nextIdx p) (numJob p) (opFlag_ p) (replyCode p).
Definition with_pds (p : pstate) (s : dstate) : pstate :=
  PState (text p) (stk p) s (nextIdx p) (numJob p) (opFlag_ p) (replyCode p).
Definition with_flag (p : pstate) (f : Z) : pstate :=
  PState (text p) (stk p) (pds p) (nextIdx p) (numJob p) f (replyCode p).
Definition with_reply (p : pstate) (r : Z) : pstate :=
  PState (text p) (stk p) (pds p) (nextIdx p) (numJob p) (opFlag_ p) r.

(** [getToken(&dependCond, &tempType)], which must give a token. *)
Definition token_ : parser (list ascii * dptType) := fun p =>
  match getToken (text p) with
  | None => Some (inl p)
  | Some (t, ty, w) => Some (inr ((t, ty), with_text p w))
  end.
(** ... of the type [t]. *)
Definition expect (t : dptType) : parser (list ascii) :=
  '(w, ty) <- token_ ;; if bool_decide (ty = t) then pret w else perror.

Definition push_opnd (n : dptNode) : parser unit := fun p =>
  Some (inr (tt, with_stk p (Stacks (ops (stk p)) (n :: opnds (stk p))))).
Definition push_op (n : dptNode) : parser unit := fun p =>
  Some (inr (tt, with_stk p (Stacks (n :: ops (stk p)) (opnds (stk p))))).
Definition pop_op : parser (option dptNode) := fun p =>
  match ops (stk p) with
  | [] => Some (inr (None, p))
  | n :: l => Some (inr (Some n, with_stk p (Stacks l (opnds (stk p)))))
  end.
(** [mergeNode(level)] with [goto Error] if it fails. *)
Definition merging (f : stacks -> option stacks) : parser unit := fun p =>
  match f (stk p) with None => Some (inl p) | Some s => Some (inr (tt, with_stk p s)) end.
Definition mergeTop : parser unit := merging merge_top.
Definition mergeLeft : parser unit := merging (fun s => merge_left (merge_fuel s) s).
Definition mergeAll : parser unit := merging (fun s => Some (merge_all (merge_fuel s) s)).

Definition node_ (t : dptType) (data : Z) : parser dptNode := fun p =>
  match newNode (pds p) t data with None => None | Some (n, s) => Some (inr (n, with_pds p s)) end.

(** [node->dptJobIdx = createjobIdxRef(jobIdx)] *)
Definition set_jidx (i : Z) (n : dptNode) : parser dptNode := fun p =>
  match createjobIdxRef (pds p) i with
  | None => None
  | Some s => Some (inr (match n with Job t v u o e f j _ => Job t v u o e f j i | n => n end, with_pds p s))
  end.

Definition set_opFlag (f : Z) (n : dptNode) : dptNode :=
  match n with Job t v u o e _ j i => Job t v u o e f j i | n => n end.

(** The exit code and its comparison, in the node or in all nodes of the list. *)
Fixpoint set_exit (o : dptType) (e : Z) (n : dptNode) : dptNode :=
  match n with
  | Opr t v u l r => Opr t v u (set_exit o e l) (set_exit o e r)
  | Job t v u _ _ f j i => Job t v u o e f j i
  | n => n
  end.
Definition set_num (o : dptType) (k : Z) (n : dptNode) : dptNode :=
  match n with Grp t v u _ _ d => Grp t v u o k d | n => n end.
Definition on_top (f : dptNode -> dptNode) : parser unit := fun p =>
  match opnds (stk p) with
  | [] => None
  | n :: l => Some (inr (tt, with_stk p (Stacks (ops (stk p)) (f n :: l))))
  end.

Definition tighter (E : env) (t : dptType) : Z :=
  match t with DPT_AND => 2 | DPT_OR => 1 | DPT_NOT => 3 | _ => beyond E end.

(** [preceTable[prev->type] > preceTable[node->type]] reads the table for an
    operator, or the byte behind it when [prev] is a parenthesis. *)
Definition operator (E : env) (t : dptType) : parser unit :=
  node <- node_ t NULL ;;
  prev <- pop_op ;;
  match prev with
  | None => push_op node
  | Some prev =>
      match node_type prev with
      | None => fun _ => None
      | Some pt =>
          if tighter E t <? tighter E pt then push_op prev ;;; mergeTop ;;; push_op node
          else push_op prev ;;; push_op node
      end
  end.

(** The call of [matchJobs] by a leaf. *)
Definition match_ (E : env) (user : string) (tok : list ascii) (with_op : bool) : parser (option (list Z) * Z) := fun p =>
  match matchJobs E (pds p) (nextIdx p) tok user (replyCode p) (if with_op then Some (opFlag_ p) else None) with
  | None => None
  | Some m =>
      let p := PState (text p) (stk p) (m_state m) (m_next m) (default (numJob p) (m_num m))
                 (if with_op then default (opFlag_ p) (m_flag m) else opFlag_ p) (m_reply m) in
      match m_jobs m with
      | None => if replaying (lim E) then Some (inr ((None, m_idx m), p)) else Some (inl p)
      | Some l => Some (inr ((Some l, m_idx m), p))
      end
  end.

(** [createMoreNodes] *)
Fixpoint more_nodes (t : dptType) (jidx : Z) (js : list Z) (first : bool) : parser unit :=
  match js with
  | [] => pret tt
  | j :: js =>
      n <- node_ t j ;; n <- set_jidx jidx n ;; push_opnd n ;;;
      (if first then pret tt else a <- node_ DPT_AND NULL ;; push_op a ;;; mergeTop) ;;;
      more_nodes t jidx js false
  end.
Definition createMoreNodes (t : dptType) (numJob : Z) (jobRec : option (list Z)) (jidx : Z) : parser unit :=
  match jobRec with
  | None => fun _ => None
  | Some l => if Z.of_nat (length l) <? numJob then fun _ => None else more_nodes t jidx (take (Z.to_nat numJob) l) true
  end.

(** The nodes of a leaf on jobs. *)
Definition job_nodes (t : dptType) (jobRec : option (list Z)) (jidx : Z) (one_to_one : bool) : parser unit := fun p =>
  (if 1 <? numJob p then createMoreNodes t (numJob p) jobRec jidx
   else
     match jobRec with
     | Some (j :: _) =>
         if 0 <? numJob p then
           n <- node_ t j ;; n <- set_jidx jidx n ;;
           (if one_to_one then
              fun p => push_opnd (if opFlag_ p =? ARRAY_DEP_ONE_TO_ONE then set_opFlag (opFlag_ p) n else n) (with_flag p 0)
            else push_opnd n)
         else n <- node_ t NULL ;; push_opnd n
     | _ => n <- node_ t NULL ;; push_opnd n
     end) p.

Definition comparison (t : dptType) : bool :=
  match t with DPT_GT | DPT_GE | DPT_LT | DPT_LE | DPT_EQ | DPT_NE => true | _ => false end.

(** After the job of [exit] or a counter: the closing parenthesis, or a comma,
    a comparison ([==] if there is none), a number and the parenthesis. *)
Definition bound_ (star : bool) (set : dptType -> Z -> parser unit) : parser unit :=
  '(_, ty) <- token_ ;;
  match ty with
  | DPT_RIGHT_ => pret tt
  | DPT_COMMA =>
      '(w, ty) <- token_ ;;
      '(op, w) <- (if comparison ty then w <- expect DPT_NAME ;; pret (ty, w)
                   else if bool_decide (ty = DPT_NAME) then pret (DPT_EQ, w) else perror) ;;
      (if isint_ w then set op (atoi w)
       else if star && bool_decide (w = chars "*") then set op INFINIT_INT
       else perror) ;;;
      expect DPT_RIGHT_ ;;; pret tt
  | _ => perror
  end.

(** The cases of [parseDepCond]. *)
Definition job_leaf (E : env) (user : string) (flags : Z) (t : dptType) : parser unit :=
  if has flags WINDOW_CONF then perror else
  expect DPT_LEFT_ ;;;
  '(tok, _) <- token_ ;;
  '(jobRec, jidx) <- match_ E user tok true ;;
  job_nodes t jobRec jidx true ;;;
  if bool_decide (t = DPT_EXIT) then bound_ false (fun o e => on_top (set_exit o e))
  else expect DPT_RIGHT_ ;;; pret tt.

Definition name_leaf (E : env) (user : string) (flags : Z) (tok : list ascii) : parser unit :=
  if has flags WINDOW_CONF then perror else
  '(jobRec, jidx) <- match_ E user tok false ;;
  job_nodes DPT_DONE jobRec jidx false.

(** The first pass over the windows, which only adds up their lengths: the
    words up to the closing parenthesis. *)
Fixpoint window_words (fuel : nat) (w : list ascii) : option (option (list (list ascii) * list ascii)) :=
  match fuel with
  | O => None
  | S k =>
      match getToken w with
      | None => Some None
      | Some (t, ty, w) =>
          match ty with
          | DPT_RIGHT_ => Some (Some ([], w))
          | DPT_NAME => r ← window_words k w;
                        Some (match r with Some (l, w) => Some (t :: l, w) | None => None end)
          | _ => Some None
          end
      end
  end.

(** The second pass: each word is appended to the text and added to the week;
    a word that is refused ends in an error. *)
Fixpoint add_words (words : list (list ascii)) (windows : list ascii) (week : list (list windows_t))
    : option (option (list ascii * list (list windows_t))) :=
  match words with
  | [] => Some (Some (windows, week))
  | t :: words =>
      let windows := match windows with [] => t | _ => windows ++ " "%char :: t end in
      '(rc, week) ← addWindow t week;
      if rc <? 0 then Some None else add_words words windows week
  end.

Definition window_leaf (E : env) (fuel : nat) : parser unit :=
  expect DPT_LEFT_ ;;; fun p =>
  match window_words fuel (text p) with
  | None => None
  | Some None => Some (inl p)
  | Some (Some (words, rest)) =>
      match add_words words [] (week newTimeWindow) with
      | None => None
      | Some None => Some (inl p)
      | Some (Some (windows, wk)) =>
          match updateTimeWindow (ctime E) (now E)
                  (TimeWindow (tw_status newTimeWindow) (Some (String.string_of_list_ascii windows)) wk (now E)) with
          | None => None
          | Some tw => push_opnd (Wind DPT_WINDOW DP_FALSE 0 tw) (with_text p rest)
          end
      end
  end.

(** The node of a leaf on counters.  Without such an array, or with a job that
    is none, the parse goes on during replay only. *)
Definition grp_node (E : env) (t : dptType) (tok : list ascii) : parser unit := fun p =>
  let jp := if isint_ tok then getJobData (pds p) (atoi tok) else NULL in
  let bad := with_reply p LSBE_ARRAY_NULL in
  if jp =? NULL then
    if replaying (lim E) then (n <- node_ t NULL ;; push_opnd n) bad else Some (inl bad)
  else
    match (j ← jobs (ms (pds p)) !! jp; n ← nodes (ms (pds p)) !! jgrpNode j; Some n) with
    | None => None
    | Some n =>
        let p' := if nodeType n =? JGRP_NODE_ARRAY then p else bad in
        if negb (nodeType n =? JGRP_NODE_ARRAY) && negb (replaying (lim E)) then Some (inl bad)
        else (n <- node_ t (ndInfo n) ;; push_opnd n) p'
    end.

Definition grp_leaf (E : env) (t : dptType) : parser unit :=
  expect DPT_LEFT_ ;;;
  '(tok, _) <- token_ ;;
  grp_node E t tok ;;;
  bound_ true (fun o k => on_top (set_num o k)).

Definition one_token (E : env) (user : string) (flags : Z) (fuel : nat) (tok : list ascii) (t : dptType) : parser unit :=
  match t with
  | DPT_AND | DPT_OR | DPT_NOT => operator E t
  | DPT_LEFT_ => n <- node_ t NULL ;; push_op n
  | DPT_RIGHT_ => mergeLeft
  | DPT_WINDOW => window_leaf E fuel
  | DPT_DONE | DPT_POST_DONE | DPT_POST_ERR | DPT_EXIT | DPT_STARTED | DPT_ENDED => job_leaf E user flags t
  | DPT_NAME => name_leaf E user flags tok
  | DPT_NUMPEND | DPT_NUMHOLD | DPT_NUMRUN | DPT_NUMEXIT | DPT_NUMDONE | DPT_NUMSTART | DPT_NUMENDED => grp_leaf E t
  | _ => perror
  end.

Fixpoint tokens (fuel : nat) (E : env) (user : string) (flags : Z) : parser unit := fun p =>
  match fuel with
  | O => None
  | S k =>
      match getToken (text p) with
      | None => Some (inr (tt, p))
      | Some (tok, t, w) => (one_token E user flags k tok t ;;; tokens k E user flags) (with_text p w)
      end
  end.

Definition set_updFlag (n : dptNode) : dptNode :=
  match n with
  | Null => Null
  | Opr t v _ l r => Opr t v 1 l r
  | Job t v _ o e f j i => Job t v 1 o e f j i
  | Wind t v _ w => Wind t v 1 w
  | Grp t v _ o k d => Grp t v 1 o k d
  end.

Fixpoint free_all (s : dstate) (l : list dptNode) : option dstate :=
  match l with [] => Some s | n :: l => s ← freeDepCond s n; free_all s l end.

(** The label [Error]: the nodes of both stacks are freed from the bottom. *)
Definition parse_error (p : pstate) : option (option dptNode * Z * dstate) :=
  s ← free_all (pds p) (rev (ops (stk p)));
  s ← free_all s (rev (opnds (stk p)));
  Some (None, replyCode p, s).

(** [parseDepCond]: the root or [NULL], the reply code and the state. *)
Definition parseDepCond (E : env) (s : dstate) (nxt : Z) (dependCond : list ascii) (user : string) (flags : Z)
    : option (option dptNode * Z * dstate) :=
  let fuel := S (length dependCond) in
  r ← (tokens fuel E user flags ;;; mergeAll)
        (PState dependCond (Stacks [] []) s nxt 0 0 LSBE_DEPEND_SYNTAX);
  match r with
  | inl p => parse_error p
  | inr (_, p) =>
      match opnds (stk p), ops (stk p) with
      | [], _ => parse_error p
      | root :: [], [] => Some (Some (set_updFlag root), LSBE_NO_ERROR, pds p)
      | root :: n :: l, _ =>
          s ← freeDepCond (pds p) n; parse_error (with_stk (with_pds p s) (Stacks (ops (stk p)) l))
      | root :: [], n :: l =>
          s ← freeDepCond (pds p) n; parse_error (with_stk (with_pds p s) (Stacks l []))
      end
  end.

(** ** Conditions as terms *)

(** Conditions on single jobs, and the way they are written out in full. *)
Inductive cond :=
| CJob (t : dptType) (id : Z)
| CExit (op : dptType) (code id : Z)
| CAnd (a b : cond)
| COr (a b : cond)
| CNot (a : cond).

Definition word (t : dptType) : list ascii :=
  chars (match t with
         | DPT_DONE => "done" | DPT_ENDED => "ended" | DPT_STARTED => "started" | DPT_EXIT => "exit"
         | DPT_POST_DONE => "post_done" | DPT_POST_ERR => "post_err"
         | DPT_GT => ">" | DPT_GE => ">=" | DPT_LT => "<" | DPT_LE => "<=" | DPT_EQ => "==" | DPT_NE => "!="
         | _ => "?"
         end%string).

Fixpoint show_cond (c : cond) : list ascii :=
  match c with
  | CJob t id => word t ++ "("%char :: show_num id ++ [")"%char]
  | CExit op code id =>
      word DPT_EXIT ++ "("%char :: show_num id ++ ","%char :: word op ++ show_num code ++ [")"%char]
  | CAnd a b => "("%char :: show_cond a ++ "&"%char :: "&"%char :: show_cond b ++ [")"%char]
  | COr a b => "("%char :: show_cond a ++ "|"%char :: "|"%char :: show_cond b ++ [")"%char]
  | CNot a => "("%char :: "!"%char :: show_cond a ++ [")"%char]
  end.

(** The tree that is built; the operand read last is the left one. *)
Fixpoint tree (s : dstate) (c : cond) : dptNode :=
  match c with
  | CJob t id => Job t DP_FALSE 0 (if bool_decide (t = DPT_EXIT) then DPT_TRUE else DPT_AND) 0 0 (getJobData s id) NULL
  | CExit op code id => Job DPT_EXIT DP_FALSE 0 op code 0 (getJobData s id) NULL
  | CAnd a b => Opr DPT_AND DP_FALSE 0 (tree s b) (tree s a)
  | COr a b => Opr DPT_OR DP_FALSE 0 (tree s b) (tree s a)
  | CNot a => Opr DPT_NOT DP_FALSE 0 (tree s a) Null
  end.

(** The jobs a condition names, and the state with a reference to each. *)
Fixpoint ids_of (c : cond) : list Z :=
  match c with
  | CJob _ id | CExit _ _ id => [id]
  | CAnd a b | COr a b => ids_of a ++ ids_of b
  | CNot a => ids_of a
  end.

Definition refer (s : dstate) (id : Z) : dstate :=
  match createjDataRef (ms s) (getJobData s id) with Some m => with_ms s m | None => s end.
Definition refer_all (s : dstate) (c : cond) : dstate := foldl refer s (ids_of c).

(** A condition that can be evaluated: the types are those of leaves, the
    numbers can be written, and the jobs exist and are no arrays. *)
Definition job_known (s : dstate) (id : Z) : Prop :=
  0 < id < 2 ^ 31 /\ getJobData s id <> NULL /\
  exists j, jobs (ms s) !! getJobData s id = Some j /\ jNodeType j <> JGRP_NODE_ARRAY.
Fixpoint cond_ok (s : dstate) (c : cond) : Prop :=
  match c with
  | CJob t id => job_type t = true /\ job_known s id
  | CExit op code id => comparison op = true /\ 0 <= code < 2 ^ 31 /\ job_known s id
  | CAnd a b | COr a b => cond_ok s a /\ cond_ok s b
  | CNot a => cond_ok s a
  end.

(** ** Tokens of what has been written *)

Lemma digit_valid c : is_digit c = true ->
  IS_QUOTE c = false /\ (IS_VALIDCHAR c && negb (IS_DELIM c)) = true /\ is_space c = false /\
  forall w, table_match tokenTable (c :: w) = None.
Proof. intros H. destruct c as [[] [] [] [] [] [] [] []]; (discriminate H || by repeat split). Qed.

Lemma plain_digits room ds c w :
  Forall (fun c => is_digit c = true) ds -> (length ds < room)%nat -> IS_VALIDCHAR c && negb (IS_DELIM c) = false ->
  plain room (ds ++ c :: w) = (ds, c :: w).
Proof.
  intros Hd. revert room. induction Hd as [|d ds Hd _ IH]; intros room Hr Hc; (destruct room as [|room]; [simpl in Hr; lia|]).
  - cbn [app plain]. by rewrite Hc.
  - cbn [app plain]. destruct (digit_valid d Hd) as (_ & -> & _ & _). rewrite IH; [done|simpl in Hr; lia|done].
Qed.

(** A numeral below 2^31 fits into the buffer. *)
Lemma show_loop_length fuel n acc k :
  0 <= n < 10 ^ Z.of_nat k -> (length (show_loop fuel n acc) <= length acc + k)%nat \/ (k = 0)%nat.
Proof.
  revert n acc k. induction fuel as [|f IH]; intros n acc k Hn; cbn [show_loop]; [left; lia|].
  destruct k as [|k]; [by right|]. left. destruct (Z.ltb_spec n 10); [simpl; lia|].
  rewrite Nat2Z.inj_succ, Z.pow_succ_r in Hn by lia.
  destruct (IH (n / 10) (digit_char (n mod 10) :: acc) k) as [H'| ->].
  - split; [apply Z.div_pos; lia|]. apply Z.div_lt_upper_bound; lia.
  - simpl in *. lia.
  - cbn in Hn. lia.
Qed.

Lemma show_num_length n : 0 <= n < 2 ^ 31 -> (length (show_num n) <= 10)%nat.
Proof.
  intros Hn. destruct (show_loop_length (S (Z.to_nat n)) n [] 10) as [H|H]; [|exact H|done].
  cbn. lia.
Qed.

Lemma getToken_number n c w :
  0 <= n < 2 ^ 31 -> IS_VALIDCHAR c && negb (IS_DELIM c) = false ->
  getToken (show_num n ++ c :: w) = Some (show_num n, DPT_NAME, c :: w).
Proof.
  intros Hn Hc. destruct (show_num_reads n ltac:(lia)) as (Hne & Hd & _). pose proof (show_num_length n Hn) as Hl.
  unfold getToken. destruct (show_num n) as [|d ds] eqn:E; [done|]. cbn [app].
  pose proof Hd as [Hd1 _]%Forall_cons. destruct (digit_valid d Hd1) as (Hq & _ & Hs & Ht).
  cbn [skip_space]. rewrite Hs, Ht. unfold name_token. rewrite Hq.
  change (d :: ds ++ c :: w) with ((d :: ds) ++ c :: w). rewrite plain_digits; [done|done| |done].
  assert (11 < TOKEN_MAX)%nat; [|cbn [length] in *; lia]. unfold TOKEN_MAX. apply Nat2Z.inj_lt. rewrite Z2Nat.id; lia.
Qed.

Lemma getToken_word t w :
  job_type t = true -> getToken (word t ++ "("%char :: w) = Some (word t, t, "("%char :: w).
Proof. destruct t; done. Qed.

Lemma getToken_op op w :
  comparison op = true -> match w with c :: _ => is_digit c | [] => false end = true ->
  getToken (word op ++ w) = Some (word op, op, w).
Proof.
  intros Ho Hw. destruct w as [|c w]; [done|]. destruct op; try done;
    destruct c as [[] [] [] [] [] [] [] []]; (discriminate Hw || reflexivity).
Qed.

Lemma getToken_not w : match w with c :: _ => negb (Ascii.eqb c "=") | [] => true end = true ->
  getToken ("!"%char :: w) = Some (["!"%char], DPT_NOT, w).
Proof.
  intros Hw. destruct w as [|c w]; [done|]. destruct c as [[] [] [] [] [] [] [] []]; (discriminate Hw || reflexivity).
Qed.

(** ** Reading a leaf *)

Lemma strchr_digits c ds : is_digit c = false -> Forall (fun c => is_digit c = true) ds -> strchr c ds = None.
Proof.
  intros Hc. induction 1 as [|d ds Hd _ IH]; [done|]. cbn. destruct (Ascii.eqb_spec d c) as [->|]; [congruence|]. by rewrite IH.
Qed.

Lemma before_star_digits ds : Forall (fun c => is_digit c = true) ds -> before_star ds = None.
Proof.
  induction 1 as [|d ds Hd _ IH]; [done|]. cbn [before_star].
  assert (E : prefixb (chars "[*]") (d :: ds) = false)
    by (destruct d as [[] [] [] [] [] [] [] []]; (discriminate Hd || reflexivity)).
  by rewrite E, IH.
Qed.

(** A job that is no array is found by its number. *)
Lemma matchJobs_number E s nxt id user reply flag :
  job_known s id -> flag <> Some ARRAY_DEP_ONE_TO_ONE ->
  matchJobs E s nxt (show_num id) user reply flag =
  Some (Matched (Some [getJobData s id]) (Some 1) reply NULL flag nxt s).
Proof.
  intros (Hid & Hp & j & Hj & Ha) Hf. destruct (show_num_reads id ltac:(lia)) as (Hne & Hd & _).
  unfold matchJobs. rewrite before_star_digits by done. unfold parseJobArrayIndex. rewrite strchr_digits by done.
  cbn [mbind option_bind p_error p_list]. change (negb (LSBE_NO_ERROR =? LSBE_NO_ERROR)) with false. cbn iota.
  assert (Hr : job_ref (show_num id) = (id, None)).
  { unfold job_ref. destruct (show_num id) as [|d ds] eqn:Ed; [done|]. pose proof Hd as [Hd1 _]%Forall_cons.
    destruct (digit_valid d Hd1) as (-> & _). rewrite <- Ed, isint_show, atoi_show by lia. done. }
  rewrite Hr, (proj2 (Z.eqb_neq id 0)) by lia. unfold match_id. rewrite (proj2 (Z.eqb_neq _ _) Hp), Hj.
  cbn [mbind option_bind]. rewrite bool_decide_eq_false_2, (proj2 (Z.eqb_neq _ _) Ha) by done.
  rewrite bool_decide_eq_true_2 by done. done.
Qed.

(** The state after a leaf on job [id] has been read, up to the text [w]. *)
Definition after_leaf (p : pstate) (n : dptNode) (id : Z) (w : list ascii) : pstate :=
  PState w (Stacks (ops (stk p)) (n :: opnds (stk p))) (refer (pds p) id) (nextIdx p) 1 0 (replyCode p).

Lemma refer_known s id : job_known s id ->
  createjDataRef (ms s) (getJobData s id) = Some (ms (refer s id)) /\ idxs (refer s id) = idxs s /\ jobIdHT (refer s id) = jobIdHT s.
Proof.
  intros (_ & Hp & j & Hj & _). unfold refer, createjDataRef. rewrite (proj2 (Z.eqb_neq _ _) Hp). unfold upd_job. by rewrite Hj.
Qed.

Lemma node_known t p id :
  job_type t = true -> job_known (pds p) id ->
  node_ t (getJobData (pds p) id) p =
  Some (inr (Job t DP_FALSE 0 (if bool_decide (t = DPT_EXIT) then DPT_TRUE else DPT_AND) 0 0 (getJobData (pds p) id) NULL,
             with_pds p (refer (pds p) id))).
Proof.
  intros Ht Hk. destruct (refer_known _ _ Hk) as (H & Hi & Hh).
  assert (E : forall m, Some m = createjDataRef (ms (pds p)) (getJobData (pds p) id) -> with_ms (pds p) m = refer (pds p) id).
  { intros m Hm. unfold refer. by rewrite <- Hm. }
  unfold node_, newNode. destruct t; try done; rewrite H; cbn [mbind option_bind]; by rewrite (E _ (eq_sym H)).
Qed.

(** The nodes of one job. *)
Lemma job_nodes_one t p id :
  job_type t = true -> job_known (pds p) id -> numJob p = 1 -> opFlag_ p = 0 ->
  job_nodes t (Some [getJobData (pds p) id]) NULL true p =
  Some (inr (tt, after_leaf p (Job t DP_FALSE 0 (if bool_decide (t = DPT_EXIT) then DPT_TRUE else DPT_AND) 0 0
                                 (getJobData (pds p) id) NULL) id (text p))).
Proof.
  intros Ht Hk Hn Hf. unfold job_nodes. rewrite Hn. change (1 <? 1) with false. change (0 <? 1) with true. cbn iota.
  unfold pbind at 1. rewrite node_known by done. unfold pbind, set_jidx, createjobIdxRef. change (NULL =? NULL) with true.
  cbn iota. cbn [with_pds opFlag_]. rewrite Hf. change (0 =? ARRAY_DEP_ONE_TO_ONE) with false. cbn iota. unfold push_opnd, after_leaf, with_stk, with_flag.
  cbn. by rewrite Hn.
Qed.

(** The leaf up to its job, after the word. *)
Lemma job_leaf_number E user t p id w :
  job_type t = true -> job_known (pds p) id -> opFlag_ p = 0 ->
  text p = "("%char :: show_num id ++ w -> match w with c :: _ => IS_VALIDCHAR c && negb (IS_DELIM c) | [] => true end = false ->
  (expect DPT_LEFT_ ;;; '(tok, _) <- token_ ;; '(jobRec, jidx) <- match_ E user tok true ;; job_nodes t jobRec jidx true) p =
  Some (inr (tt, after_leaf p (Job t DP_FALSE 0 (if bool_decide (t = DPT_EXIT) then DPT_TRUE else DPT_AND) 0 0
                                 (getJobData (pds p) id) NULL) id w)).
Proof.
  intros Ht Hk Hf Hw Hc. pose proof Hk as (Hid & _). unfold expect, pbind, token_. rewrite Hw.
  change (getToken ("("%char :: show_num id ++ w)) with (Some (["("%char], DPT_LEFT_, show_num id ++ w)).
  cbn [with_text text]. destruct w as [|c w]; [done|]. rewrite bool_decide_eq_true_2 by done. unfold pret. cbn [with_text text].
  rewrite getToken_number by (done || lia). unfold match_. cbn [with_text text pds nextIdx replyCode opFlag_].
  rewrite matchJobs_number; [|done|by rewrite Hf]. cbn [m_state m_next m_num m_flag m_reply m_jobs m_idx default].
  exact (job_nodes_one t (PState (c :: w) (stk p) (pds p) (nextIdx p) 1 (opFlag_ p) (replyCode p)) id Ht Hk eq_refl Hf).
Qed.

Lemma job_leaf_split E user t p :
  job_leaf E user 0 t p =
  ((expect DPT_LEFT_ ;;; '(tok, _) <- token_ ;; '(jobRec, jidx) <- match_ E user tok true ;; job_nodes t jobRec jidx true) ;;;
   (if bool_decide (t = DPT_EXIT) then bound_ false (fun o e => on_top (set_exit o e)) else expect DPT_RIGHT_ ;;; pret tt)) p.
Proof.
  unfold job_leaf. change (has 0 WINDOW_CONF) with false. cbn iota. unfold pbind.
  destruct (expect DPT_LEFT_ p) as [[q|[x q]]|]; [done| |done].
  destruct (token_ q) as [[q1|[[tok ty] q1]]|]; [done| |done].
  destruct (match_ E user tok true q1) as [[q2|[[jr ji] q2]]|]; [done| |done].
  by destruct (job_nodes t jr ji true q2) as [[q3|[y q3]]|].
Qed.

Lemma close_paren p w : text p = ")"%char :: w -> (expect DPT_RIGHT_ ;;; pret tt) p = Some (inr (tt, with_text p w)).
Proof. intros H. unfold expect, pbind, token_. by rewrite H. Qed.

(** One token of the main loop. *)
Lemma tokens_step k E user flags p tok t w p' :
  getToken (text p) = Some (tok, t, w) -> one_token E user flags k tok t (with_text p w) = Some (inr (tt, p')) ->
  tokens (S k) E user flags p = tokens k E user flags p'.
Proof. intros H1 H2. cbn [tokens]. rewrite H1. unfold pbind. by rewrite H2. Qed.

Lemma leaf_tokens k E user t id p w :
  job_type t = true -> job_known (pds p) id -> opFlag_ p = 0 -> text p = show_cond (CJob t id) ++ w ->
  tokens (S k) E user 0 p = tokens k E user 0 (after_leaf p (tree (pds p) (CJob t id)) id w).
Proof.
  intros Ht Hk Hf Hw. cbn [show_cond] in Hw. rewrite <- app_assoc, <- app_comm_cons, <- app_assoc in Hw.
  eapply tokens_step; [rewrite Hw; by apply getToken_word|].
  replace (one_token E user 0 k (word t) t) with (job_leaf E user 0 t) by (by destruct t).
  rewrite job_leaf_split. unfold pbind at 1. rewrite (job_leaf_number E user t _ id ([")"%char] ++ w)); try done.
  destruct (bool_decide (t = DPT_EXIT)) eqn:Ee.
  - unfold bound_, pbind, token_. cbn [after_leaf text app]. cbn [tree]. by rewrite Ee.
  - rewrite (close_paren _ w) by done. cbn [tree]. by rewrite Ee.
Qed.

Lemma exit_tokens k E user op code id p w :
  comparison op = true -> 0 <= code < 2 ^ 31 -> job_known (pds p) id -> opFlag_ p = 0 ->
  text p = show_cond (CExit op code id) ++ w ->
  tokens (S k) E user 0 p = tokens k E user 0 (after_leaf p (tree (pds p) (CExit op code id)) id w).
Proof.
  intros Ho Hc Hk Hf Hw. cbn [show_cond] in Hw. repeat rewrite <- ?app_assoc, <- ?app_comm_cons in Hw.
  eapply tokens_step; [rewrite Hw; by apply getToken_word|]. change (one_token E user 0 k (word DPT_EXIT) DPT_EXIT) with (job_leaf E user 0 DPT_EXIT).
  rewrite job_leaf_split. unfold pbind at 1.
  rewrite (job_leaf_number E user DPT_EXIT _ id (","%char :: word op ++ show_num code ++ [")"%char] ++ w)); try done.
  rewrite bool_decide_eq_true_2 by done. unfold bound_, pbind, token_. cbn [after_leaf text].
  change (getToken (","%char :: ?x)) with (Some ([","%char], DPT_COMMA, x)).
  cbn [with_text text]. destruct (show_num_reads code ltac:(lia)) as (Hne & Hd & _).
  rewrite getToken_op; [|done|destruct (show_num code); [done|]; by apply Forall_cons in Hd as [Hd _]].
  rewrite Ho. unfold expect, pbind, token_. cbn [with_text text]. cbn [app]. rewrite getToken_number by done.
  rewrite bool_decide_eq_true_2 by done. unfold pret. rewrite isint_show, atoi_show by done.
  cbn. reflexivity.
Qed.

(** ** References do not change what conditions see *)

Lemma refer_ht s id : jobIdHT (refer s id) = jobIdHT s /\ idxs (refer s id) = idxs s.
Proof. unfold refer. by destruct (createjDataRef _ _). Qed.

Lemma refer_jobs s id p :
  exists f, (forall j, jStatus (f j) = jStatus j /\ jNodeType (f j) = jNodeType j /\ jFlags (f j) = jFlags j /\
    startTime (f j) = startTime j /\ endTime (f j) = endTime j /\ exitStatus (f j) = exitStatus j) /\
  jobs (ms (refer s id)) !! p = f <$> jobs (ms s) !! p.
Proof.
  unfold refer, createjDataRef. destruct (getJobData s id =? NULL).
  { exists (fun j => j). split; [done|]. by destruct (jobs (ms s) !! p) eqn:E; cbn; rewrite ?E. }
  unfold upd_job. destruct (jobs (ms s) !! getJobData s id) as [j|] eqn:E; cbn.
  - destruct (decide (p = getJobData s id)) as [->|Hne].
    + exists (fun j => set_jNumRef (i32 (jNumRef j + 1)) j). split; [done|]. by rewrite lookup_insert_eq, E.
    + exists (fun j => j). split; [done|]. rewrite lookup_insert_ne by done. by destruct (jobs (ms s) !! p).
  - exists (fun j => j). split; [done|]. by destruct (jobs (ms s) !! p).
Qed.

Lemma refer_known_job s i id : job_known s id -> job_known (refer s i) id.
Proof.
  intros (H1 & H2 & j & H3 & H4). assert (E : getJobData (refer s i) id = getJobData s id)
    by (unfold getJobData; by destruct (refer_ht s i) as [-> _]).
  split; [done|]. rewrite E. split; [done|]. destruct (refer_jobs s i (getJobData s id)) as (f & Hf & ->).
  rewrite H3. exists (f j). split; [done|]. destruct (Hf j) as (_ & -> & _). done.
Qed.

Lemma refer_cond s i c : cond_ok s c -> cond_ok (refer s i) c /\ tree (refer s i) c = tree s c.
Proof.
  assert (E : forall id, getJobData (refer s i) id = getJobData s id)
    by (intros; unfold getJobData; by destruct (refer_ht s i) as [-> _]).
  induction c as [t id|o e id|a IHa b IHb|a IHa b IHb|a IHa]; cbn [cond_ok tree]; rewrite ?E.
  - intros [H1 H2]. by split; [split; [|apply refer_known_job]|].
  - intros (H1 & H2 & H3). by split; [split; [|split; [|apply refer_known_job]]|].
  - intros [Ha%IHa Hb%IHb]. destruct Ha as [Ha ->], Hb as [Hb ->]. done.
  - intros [Ha%IHa Hb%IHb]. destruct Ha as [Ha ->], Hb as [Hb ->]. done.
  - intros Ha%IHa. destruct Ha as [Ha ->]. done.
Qed.

Lemma refer_all_cond s a c : cond_ok s c -> cond_ok (refer_all s a) c /\ tree (refer_all s a) c = tree s c.
Proof.
  unfold refer_all. generalize (ids_of a). clear a. intros l. revert s. induction l as [|i l IH]; intros s Hc; [done|].
  cbn [foldl]. destruct (refer_cond s i c Hc) as [H1 H2]. destruct (IH _ H1) as [H3 H4]. by rewrite H4.
Qed.

(** ** Reading a condition *)

(** The state after a condition has been read. *)
Definition after (p : pstate) (c : cond) (w : list ascii) : pstate :=
  PState w (Stacks (ops (stk p)) (tree (pds p) c :: opnds (stk p))) (refer_all (pds p) c) (nextIdx p) 1 0 (replyCode p).

(** An operator below a parenthesis, if the byte behind the table is small. *)
Lemma operator_in_paren E t p v u l r rest :
  t = DPT_AND \/ t = DPT_OR \/ t = DPT_NOT -> beyond E <= 1 -> ops (stk p) = Opr DPT_LEFT_ v u l r :: rest ->
  operator E t p = Some (inr (tt, with_stk p (Stacks (Opr t DP_FALSE 0 Null Null :: ops (stk p)) (opnds (stk p))))).
Proof.
  intros Ht Hb Ho. unfold operator, pbind, node_, pop_op. assert (Hn : newNode (pds p) t NULL = Some (Opr t DP_FALSE 0 Null Null, pds p))
    by (by destruct Ht as [->|[->| ->]]).
  rewrite Hn. cbn [with_pds stk]. rewrite Ho. cbn [node_type].
  assert (Hlt : (tighter E t <? tighter E DPT_LEFT_) = false).
  { apply Z.ltb_ge. destruct Ht as [->|[->| ->]]; cbn; lia. }
  rewrite Hlt. done.
Qed.

Lemma show_cond_head s c : cond_ok s c -> exists x w, show_cond c = x :: w /\ Ascii.eqb x "=" = false.
Proof.
  destruct c as [t id| | | |]; [intros [Ht _]; destruct t; try done|..]; intros; eexists _, _; (split; [reflexivity|done]).
Qed.

(** One token of a single kind at the head of the text. *)
Lemma tokens_left k E user p w :
  text p = "("%char :: w ->
  tokens (S k) E user 0 p = tokens k E user 0
    (PState w (Stacks (Opr DPT_LEFT_ DP_FALSE 0 Null Null :: ops (stk p)) (opnds (stk p))) (pds p) (nextIdx p) (numJob p) (opFlag_ p) (replyCode p)).
Proof. intros H. eapply tokens_step; [by rewrite H|]. done. Qed.

Lemma tokens_binary k E user p w t rest v u l r :
  beyond E <= 1 -> ops (stk p) = Opr DPT_LEFT_ v u l r :: rest ->
  (t = DPT_AND /\ text p = "&"%char :: "&"%char :: w \/ t = DPT_OR /\ text p = "|"%char :: "|"%char :: w \/
   t = DPT_NOT /\ text p = "!"%char :: w /\ exists x w', w = x :: w' /\ Ascii.eqb x "=" = false) ->
  tokens (S k) E user 0 p = tokens k E user 0
    (PState w (Stacks (Opr t DP_FALSE 0 Null Null :: ops (stk p)) (opnds (stk p))) (pds p) (nextIdx p) (numJob p) (opFlag_ p) (replyCode p)).
Proof.
  intros Hb Ho Ht.
  assert (Hop : t = DPT_AND \/ t = DPT_OR \/ t = DPT_NOT) by tauto.
  assert (Hg : exists tok, getToken (text p) = Some (tok, t, w)).
  { destruct Ht as [[-> ->]|[[-> ->]|(-> & -> & x & w' & -> & Hx)]]; [eexists; reflexivity..|].
    eexists. apply getToken_not. by rewrite Hx. }
  destruct Hg as [tok Hg]. eapply tokens_step; [exact Hg|].
  replace (one_token E user 0 k tok t) with (operator E t) by (by destruct Hop as [->|[->| ->]]).
  rewrite (operator_in_paren E t (with_text p w) v u l r rest) by done. done.
Qed.

Lemma tokens_right k E user p w st :
  text p = ")"%char :: w -> merge_left (merge_fuel (stk p)) (stk p) = Some st ->
  tokens (S k) E user 0 p = tokens k E user 0 (PState w st (pds p) (nextIdx p) (numJob p) (opFlag_ p) (replyCode p)).
Proof.
  intros H Hm. eapply tokens_step; [by rewrite H|]. unfold one_token, mergeLeft, merging. cbn [with_text stk]. by rewrite Hm.
Qed.

(** Both operands of a binary operator and the closing parenthesis. *)
Lemma tokens_pair E user t a b sep :
  t = DPT_AND /\ sep = "&"%char \/ t = DPT_OR /\ sep = "|"%char -> beyond E <= 1 ->
  (forall k p w, cond_ok (pds p) a -> opFlag_ p = 0 -> text p = show_cond a ++ w -> (length (show_cond a) <= k)%nat ->
     exists k', (k <= k' + length (show_cond a))%nat /\ tokens k E user 0 p = tokens k' E user 0 (after p a w)) ->
  (forall k p w, cond_ok (pds p) b -> opFlag_ p = 0 -> text p = show_cond b ++ w -> (length (show_cond b) <= k)%nat ->
     exists k', (k <= k' + length (show_cond b))%nat /\ tokens k E user 0 p = tokens k' E user 0 (after p b w)) ->
  forall k p w, cond_ok (pds p) a -> cond_ok (pds p) b -> opFlag_ p = 0 ->
  text p = "("%char :: show_cond a ++ sep :: sep :: show_cond b ++ ")"%char :: w ->
  (length (show_cond a) + length (show_cond b) + 4 <= k)%nat ->
  exists k', (k <= k' + (length (show_cond a) + length (show_cond b) + 4))%nat /\
    tokens k E user 0 p = tokens k' E user 0
      (PState w (Stacks (ops (stk p)) (Opr t DP_FALSE 0 (tree (pds p) b) (tree (pds p) a) :: opnds (stk p)))
         (refer_all (refer_all (pds p) a) b) (nextIdx p) 1 0 (replyCode p)).
Proof.
  intros Ht Hb IHa IHb k p w Ha Hbk Hf Hw Hk. destruct k as [|k]; [lia|].
  rewrite (tokens_left _ _ _ _ _ Hw). set (p1 := PState _ _ _ _ _ _ _).
  destruct (IHa k p1 (sep :: sep :: show_cond b ++ ")"%char :: w)) as (k1 & Hk1 & ->); try done; [lia|].
  destruct k1 as [|k1]; [lia|].
  erewrite (tokens_binary k1 E user (after p1 a _) (show_cond b ++ ")"%char :: w) t); [|done|reflexivity|
    destruct Ht as [[-> ->]|[-> ->]]; [by left|by right; left]].
  set (p2 := PState _ _ _ _ _ _ _). destruct (refer_all_cond (pds p) a b Hbk) as [Hb' Et].
  destruct (IHb k1 p2 (")"%char :: w)) as (k2 & Hk2 & ->); try done; [lia|]. destruct k2 as [|k2]; [lia|].
  erewrite (tokens_right k2 E user (after p2 b _) w); [|reflexivity|].
  - exists k2. split; [lia|]. reflexivity.
  - by destruct Ht as [[-> _]|[-> _]]; cbn; rewrite Et.
Qed.

Lemma tokens_cond E user c :
  beyond E <= 1 -> forall k p w, cond_ok (pds p) c -> opFlag_ p = 0 -> text p = show_cond c ++ w ->
  (length (show_cond c) <= k)%nat ->
  exists k', (k <= k' + length (show_cond c))%nat /\ tokens k E user 0 p = tokens k' E user 0 (after p c w).
Proof.
  intros Hb. induction c as [t id|o e id|a IHa b IHb|a IHa b IHb|a IHa]; intros k p w Hc Hf Hw Hk.
  - destruct Hc as [Ht Hc]. destruct k as [|k]; [exfalso; revert Hk; destruct t; simpl; lia|].
    rewrite (leaf_tokens k E user t id p w) by done. exists k. split; [|done]. revert Hk. destruct t; simpl; lia.
  - destruct Hc as (Ho & He & Hc). destruct k as [|k]; [simpl in Hk; lia|].
    rewrite (exit_tokens k E user o e id p w) by done. exists k. split; [simpl; lia|done].
  - destruct Hc as [Ha Hbk]. cbn [show_cond] in *. rewrite app_comm_cons in Hw. repeat rewrite <- ?app_assoc, <- ?app_comm_cons in Hw.
    cbn [length] in *. rewrite !length_app in *. cbn [length] in *. rewrite !length_app in *. cbn [length] in *.
    destruct (tokens_pair E user DPT_AND a b "&" ltac:(by left) Hb IHa IHb k p w) as (k' & H1 & H2); try done; [lia|].
    exists k'. split; [lia|]. rewrite H2. unfold after, refer_all. cbn [tree ids_of]. by rewrite foldl_app.
  - destruct Hc as [Ha Hbk]. cbn [show_cond] in *. rewrite app_comm_cons in Hw. repeat rewrite <- ?app_assoc, <- ?app_comm_cons in Hw.
    cbn [length] in *. rewrite !length_app in *. cbn [length] in *. rewrite !length_app in *. cbn [length] in *.
    destruct (tokens_pair E user DPT_OR a b "|" ltac:(by right) Hb IHa IHb k p w) as (k' & H1 & H2); try done; [lia|].
    exists k'. split; [lia|]. rewrite H2. unfold after, refer_all. cbn [tree ids_of]. by rewrite foldl_app.
  - cbn [show_cond cond_ok] in *. cbn [app] in Hw. rewrite <- app_assoc in Hw. cbn [length] in *. rewrite length_app in *. cbn [length] in *.
    destruct k as [|[|k]]; [lia|lia|]. rewrite (tokens_left _ _ _ _ _ Hw). set (p1 := PState _ _ _ _ _ _ _).
    destruct (show_cond_head _ _ Hc) as (x & w' & Ex & Hx).
    erewrite (tokens_binary k E user p1 (show_cond a ++ [")"%char] ++ w) DPT_NOT);
      [|done|reflexivity|right; right; split; [done|]; split; [done|]; rewrite Ex; by eexists _, _].
    set (p2 := PState _ _ _ _ _ _ _).
    destruct (IHa k p2 ([")"%char] ++ w)) as (k2 & Hk2 & ->); try done; [lia|]. destruct k2 as [|k2]; [lia|].
    erewrite (tokens_right k2 E user (after p2 a _) w); [|reflexivity|by cbn]. exists k2. split; [lia|]. reflexivity.
Qed.

(** ** Meaning of what has been read *)









Lemma parse_cond E s nxt c user :
  cond_ok s c -> beyond E <= 1 ->
  parseDepCond E s nxt (show_cond c) user 0 = Some (Some (set_updFlag (tree s c)), LSBE_NO_ERROR, refer_all s c).
Proof.
  intros Hc Hb. unfold parseDepCond. set (p0 := PState _ _ _ _ _ _ _).
  destruct (tokens_cond E user c Hb (S (length (show_cond c))) p0 []) as (k & Hk & H); try done; [by rewrite app_nil_r|lia|].
  unfold pbind. rewrite H. destruct k as [|k]; [lia|]. done.
Qed.

(** ** Giving the references back *)

(** Reference counts that leave room for [k] more, and are right about jobs
    that are void. *)
Definition counted (s : dstate) (k : Z) : Prop :=
  forall p j, jobs (ms s) !! p = Some j ->
    0 <= jNumRef j /\ jNumRef j + k < 2 ^ 31 /\ (has (jStatus j) JOB_STAT_VOID = true -> 0 < jNumRef j).

Lemma refer_job s id j :
  getJobData s id <> NULL -> jobs (ms s) !! getJobData s id = Some j ->
  refer s id = with_ms s (with_jobs (ms s) (<[getJobData s id := set_jNumRef (i32 (jNumRef j + 1)) j]> (jobs (ms s)))).
Proof. intros Hp Hj. unfold refer, createjDataRef, upd_job. by rewrite (proj2 (Z.eqb_neq _ _) Hp), Hj. Qed.

Lemma refer_counted s id k : job_known s id -> counted s (k + 1) -> 0 <= k -> counted (refer s id) k.
Proof.
  intros (_ & Hp & j & Hj & _) Hc Hk p j' Hj'. rewrite (refer_job s id j) in Hj' by done. cbn in Hj'.
  destruct (Hc _ _ Hj) as (H1 & H2 & H3). destruct (decide (p = getJobData s id)) as [->|Hne].
  - rewrite lookup_insert_eq in Hj'. injection Hj' as <-. cbn [jNumRef set_jNumRef jStatus]. rewrite i32_small by lia. lia.
  - rewrite lookup_insert_ne in Hj' by done. destruct (Hc _ _ Hj') as (? & ? & ?). split; [done|]. split; [lia|done].
Qed.

Lemma free_job s id :
  job_known s id -> counted s 1 -> (m ← destroyjDataRef (ms (refer s id)) (getJobData s id); Some (with_ms (refer s id) m)) = Some s.
Proof.
  intros (_ & Hp & j & Hj & _) Hc. destruct (Hc _ _ Hj) as (H1 & H2 & H3). rewrite (refer_job s id j) by done.
  unfold destroyjDataRef, upd_job. rewrite (proj2 (Z.eqb_neq _ _) Hp). cbn [ms with_ms jobs with_jobs].
  rewrite lookup_insert_eq. cbn [mbind option_bind jobs with_jobs]. rewrite lookup_insert_eq. cbn [mbind option_bind].
  cbn [jNumRef set_jNumRef jStatus]. rewrite !(i32_small (jNumRef j + 1)) by lia. rewrite !i32_small by lia.
  replace (jNumRef j + 1 - 1) with (jNumRef j) by lia. rewrite !insert_insert_eq.
  replace (set_jNumRef (jNumRef j) (set_jNumRef (jNumRef j + 1) j)) with j by (by destruct j).
  rewrite (insert_id (jobs (ms s)) (getJobData s id) j Hj).
  destruct (has (jStatus j) JOB_STAT_VOID) eqn:Ev; cbn [andb]; [rewrite (proj2 (Z.leb_gt _ _)) by lia|];
    cbn [mbind option_bind]; destruct s as [[] ? ?]; done.
Qed.

Lemma cond_ok_ids s c : cond_ok s c -> Forall (job_known s) (ids_of c).
Proof.
  induction c as [t id|o e id|a IHa b IHb|a IHa b IHb|a IHa]; cbn [cond_ok ids_of].
  - intros [_ ?]. by apply Forall_singleton.
  - intros (_ & _ & ?). by apply Forall_singleton.
  - intros [? ?]. apply Forall_app; auto.
  - intros [? ?]. apply Forall_app; auto.
  - done.
Qed.

Lemma refer_list_counted l s k :
  Forall (job_known s) l -> counted s (k + Z.of_nat (length l)) -> 0 <= k -> counted (foldl refer s l) k.
Proof.
  revert s k. induction l as [|i l IH]; intros s k Hl Hk H0; cbn [foldl length] in *; [by rewrite Z.add_0_r in Hk|].
  apply Forall_cons in Hl as [Hi Hl]. apply IH; [|apply refer_counted; [done| |lia]|done].
  - eapply Forall_impl; [exact Hl|]. intros x. apply refer_known_job.
  - replace (k + Z.of_nat (length l) + 1) with (k + Z.of_nat (S (length l))) by lia. done.
Qed.

Lemma refer_all_counted s c k :
  cond_ok s c -> counted s (k + Z.of_nat (length (ids_of c))) -> 0 <= k -> counted (refer_all s c) k.
Proof. intros Hc. apply refer_list_counted, cond_ok_ids, Hc. Qed.

Lemma free_tree c s :
  cond_ok s c -> counted s (Z.of_nat (length (ids_of c))) -> freeDepCond (refer_all s c) (tree s c) = Some s.
Proof.
  assert (pair : forall a b s, (forall s, cond_ok s a -> counted s (Z.of_nat (length (ids_of a))) -> freeDepCond (refer_all s a) (tree s a) = Some s) ->
    (forall s, cond_ok s b -> counted s (Z.of_nat (length (ids_of b))) -> freeDepCond (refer_all s b) (tree s b) = Some s) ->
    cond_ok s a -> cond_ok s b -> counted s (Z.of_nat (length (ids_of a)) + Z.of_nat (length (ids_of b))) ->
    (s' ← freeDepCond (refer_all s (CAnd a b)) (tree s b); freeDepCond s' (tree s a)) = Some s).
  { intros a b s' IHa IHb Ha Hb Hn. destruct (refer_all_cond s' a b Hb) as [Hb' Et].
    replace (refer_all s' (CAnd a b)) with (refer_all (refer_all s' a) b) by (unfold refer_all; cbn [ids_of]; by rewrite foldl_app).
    rewrite <- Et, IHb; [|done|apply refer_all_counted; [done|by rewrite Z.add_comm|lia]]. cbn [mbind option_bind].
    apply IHa; [done|]. intros p j Hj. destruct (Hn p j Hj) as (? & ? & ?). split; [done|]. split; [lia|done]. }
  revert s. induction c as [t id|o e id|a IHa b IHb|a IHa b IHb|a IHa]; intros s Hc Hn; cbn [cond_ok tree ids_of] in *.
  - destruct Hc as [Ht Hk]. pose proof (free_job s id Hk Hn) as H. change (refer_all s (CJob t id)) with (refer s id).
    destruct (destroyjDataRef (ms (refer s id)) (getJobData s id)) as [m|] eqn:E; [|done]. cbn [mbind option_bind] in H.
    apply (inj Some) in H. destruct t; try done; cbn [freeDepCond]; rewrite E; cbn [mbind option_bind]; by rewrite H.
  - destruct Hc as (_ & _ & Hk). pose proof (free_job s id Hk Hn) as H. change (refer_all s (CExit o e id)) with (refer s id).
    destruct (destroyjDataRef (ms (refer s id)) (getJobData s id)) as [m|] eqn:E; [|done]. cbn [mbind option_bind] in H.
    apply (inj Some) in H. cbn [freeDepCond]. rewrite E. cbn [mbind option_bind]. by rewrite H.
  - destruct Hc as [Ha Hb]. rewrite length_app, Nat2Z.inj_add in Hn.
    change ((s' ← freeDepCond (refer_all s (CAnd a b)) (tree s b); freeDepCond s' (tree s a)) = Some s). by apply pair.
  - destruct Hc as [Ha Hb]. rewrite length_app, Nat2Z.inj_add in Hn.
    change ((s' ← freeDepCond (refer_all s (CAnd a b)) (tree s b); freeDepCond s' (tree s a)) = Some s). by apply pair.
  - by apply IHa.
Qed.

(** ** A job table to try things on *)

Definition sample_env : env := Env (Limits 1000 false) (PGlobals None 0) (fun _ => 77) false [] (fun _ => []) 100 0.
Definition sample_parse : dstate :=
  DState (MState ∅ ∅ (list_to_map [(201, sample_jdata 1 JOB_STAT_DONE 50); (202, sample_jdata 2 JOB_STAT_PEND 0)])
            NULL NULL [] (LState [] 1000)) ∅ (list_to_map [(1, 201); (2, 202)]).
Definition sample_cond : cond := COr (CNot (CExit DPT_GE 5 2)) (CAnd (CJob DPT_DONE 1) (CJob DPT_ENDED 2)).

Lemma sample_known id : id = 1 \/ id = 2 -> job_known sample_parse id.
Proof.
  intros [->| ->]; (split; [lia|]; split; [by vm_compute|]); eexists; (split; [vm_compute; reflexivity|by vm_compute]).
Qed.

Lemma sample_cond_ok : cond_ok sample_parse sample_cond.
Proof. cbn [cond_ok sample_cond]. repeat split; try apply sample_known; try lia; auto. Qed.

(** ** What the parser does with every condition *)



(** Nothing leaks between parsing and freeing: the references that the
    parser takes to the jobs of a condition are exactly those that
    [freeDepCond] gives back, and the daemon's state is again what it was. *)
Theorem parse_free_roundtrip E s nxt c user :
  cond_ok s c -> beyond E <= 1 -> counted s (Z.of_nat (length (ids_of c))) ->
  exists root s', parseDepCond E s nxt (show_cond c) user 0 = Some (Some root, LSBE_NO_ERROR, s') /\
    freeDepCond s' root = Some s.
Proof.
  intros Hc Hb Hn. eexists _, _. split; [by apply parse_cond|].
  pose proof (free_tree c s Hc Hn) as H. by destruct (tree s c).
Qed.

Lemma parse_free_roundtrip_witness :
  exists root s', parseDepCond sample_env sample_parse 5000 (show_cond sample_cond) "u" 0 = Some (Some root, LSBE_NO_ERROR, s') /\
    freeDepCond s' root = Some sample_parse.
Proof.
  apply parse_free_roundtrip; [exact sample_cond_ok|cbn; lia|].
  intros p j H. apply elem_of_list_to_map_2 in H. cbn in H. rewrite !elem_of_cons, elem_of_nil in H.
  destruct H as [[= -> ->]|[[= -> ->]|[]]]; vm_compute; by repeat split.
Defined.

(** ** Where the parser goes its own way *)

(** A word that stands for a job by its name: no quotes, no index, no number. *)
Definition bare_name (w : list ascii) : bool :=
  match w with c :: _ => negb (IS_QUOTE c) | [] => false end &&
  match strchr "[" w with Some _ => false | None => true end && negb (isint_ w).
Definition ends_in_star (w : list ascii) : bool := match last w with Some c => Ascii.eqb c "*" | None => false end.

Lemma before_star_bracket w : strchr "[" w = None -> before_star w = None.
Proof.
  induction w as [|c w IH]; [done|]. cbn [strchr before_star]. destruct (Ascii.eqb c "[") eqn:E; [done|].
  intros H. assert (strchr "[" w = None) as Hw by (by destruct (strchr "[" w) as [[]|]). rewrite (IH Hw).
  change (prefixb (chars "[*]") (c :: w)) with (Ascii.eqb "[" c && prefixb (chars "*]") w).
  by rewrite Ascii.eqb_sym, E.
Qed.

(** A bare name is looked up among the jobs of the user, by its last character. *)
Lemma matchJobs_bare E s nxt w user reply flag : bare_name w = true ->
  matchJobs E s nxt w user reply flag =
  if groupRoot (ms s) =? NULL then match_ret s nxt [] false reply NULL flag else
  r ← nodes (ms s) !! groupRoot (ms s);
  found ← by_user (node_fuel (ms s)) (ms s) (child r) (getUserData E user) (jobDepLastSub E && negb (ends_in_star w)) 0 [];
  check_idx E s nxt found false reply NULL flag.
Proof.
  unfold bare_name. destruct w as [|c w]; [done|]. intros H.
  destruct (IS_QUOTE c) eqn:Eq; [done|]. cbn [negb andb] in H.
  destruct (strchr "[" (c :: w)) as [?|] eqn:Es; [done|]. cbn [andb] in H.
  destruct (isint_ (c :: w)) eqn:Ei; [done|].
  unfold matchJobs. rewrite (before_star_bracket _ Es). unfold parseJobArrayIndex. rewrite Es.
  cbn [mbind option_bind p_error p_list negb]. unfold job_ref. rewrite Eq, Ei. done.
Qed.

(** A name is never compared with the names of jobs: of two names that
    both end in a star, or both do not, the same jobs are found. *)
Theorem matchJobs_ignores_name E s nxt a b user reply flag :
  bare_name a = true -> bare_name b = true -> ends_in_star a = ends_in_star b ->
  matchJobs E s nxt a user reply flag = matchJobs E s nxt b user reply flag.
Proof. intros Ha Hb H. by rewrite !matchJobs_bare, H. Qed.

Lemma matchJobs_ignores_name_witness :
  matchJobs sample_env sample_parse 5000 (chars "nightly") "u" LSBE_DEPEND_SYNTAX None =
  matchJobs sample_env sample_parse 5000 (chars "weekly") "u" LSBE_DEPEND_SYNTAX None.
Proof. apply matchJobs_ignores_name; reflexivity. Defined.

(** A character that starts no token: [getToken] gives the empty name, and the
    text stays where it is. *)
Definition stuck (w : list ascii) : Prop := getToken w = Some ([], DPT_NAME, w).

Lemma stuck_char c w :
  is_space c = false -> IS_QUOTE c = false -> IS_VALIDCHAR c && negb (IS_DELIM c) = false ->
  table_match tokenTable (c :: w) = None -> stuck (c :: w).
Proof.
  intros Hs Hq Hv Ht. unfold stuck, getToken. cbn [skip_space]. rewrite Hs, Ht. unfold name_token. rewrite Hq.
  change (TOKEN_MAX - length [])%nat with TOKEN_MAX. unfold plain.
  destruct TOKEN_MAX eqn:E; [by apply (f_equal Nat.eqb) in E; apply (f_equal (fun f => f O)) in E|].
  by rewrite Hv.
Qed.

Lemma quoted_rest room q w : (length (snd (quoted room q w)) <= length w)%nat.
Proof.
  revert w. induction room as [|k IH]; intros [|c w]; try done. cbn [quoted]. destruct (Ascii.eqb c q); cbn; [lia|].
  pose proof (IH w). destruct (quoted k q w); cbn in *; lia.
Qed.

Lemma plain_rest room w : (length (snd (plain room w)) <= length w)%nat.
Proof.
  revert w. induction room as [|k IH]; intros [|c w]; try done. cbn [plain].
  destruct (IS_VALIDCHAR c && negb (IS_DELIM c)); [|done]. pose proof (IH w). destruct (plain k w); cbn in *; lia.
Qed.

Lemma name_token_rest pre w : (length (snd (name_token pre w)) <= length w)%nat.
Proof.
  destruct w as [|c w]; [done|]. unfold name_token. destruct (IS_QUOTE c).
  - pose proof (quoted_rest (TOKEN_MAX - length pre - 1) c w). destruct (quoted _ c w); cbn in *; lia.
  - pose proof (plain_rest (TOKEN_MAX - length pre) (c :: w)). destruct (plain _ (c :: w)); cbn in *; lia.
Qed.

Lemma table_match_prefix t w name ty chk :
  table_match t w = Some (name, ty, chk) -> Forall (fun e => chars (fst (fst e)) <> []) t ->
  name <> [] /\ (length name <= length w)%nat.
Proof.
  induction t as [|[[n y] k] t IH]; [done|]. cbn [table_match]. intros H Hf. apply Forall_cons in Hf as [Hn Hf].
  destruct (prefixb (chars n) w) eqn:E; [|by apply IH]. injection H as <- <- <-. split; [done|].
  clear -E. revert w E. induction (chars n) as [|c p IH]; intros [|d w] E; try (cbn; lia); [done|].
  cbn [prefixb] in E. apply andb_prop in E as [_ E]. apply IH in E. cbn. lia.
Qed.

(** A token takes something off the text, or it is the empty name. *)
Lemma getToken_progress w t ty w' : getToken w = Some (t, ty, w') -> (length w' < length w)%nat \/ stuck w'.
Proof.
  unfold getToken. pose proof (skip_space_length w) as Hs. destruct (skip_space w) as [|c v] eqn:Ev; [done|].
  intros H. apply (inj Some) in H. destruct (table_match tokenTable (c :: v)) as [[[name y] chk]|] eqn:Et.
  - left. apply table_match_prefix in Et as [Hn Hl]; [|repeat constructor; done].
    assert (length (drop (length name) (c :: v)) < length w)%nat by (rewrite length_drop; destruct name; cbn in *; [done|lia]).
    destruct (_ && _); [|by injection H as <- <- <-].
    pose proof (name_token_rest name (drop (length name) (c :: v))) as Hr. rewrite H in Hr. cbn in Hr. lia.
  - destruct (IS_QUOTE c) eqn:Eq; [|destruct (IS_VALIDCHAR c && negb (IS_DELIM c)) eqn:Ec].
    + left. unfold name_token in H. rewrite Eq in H. pose proof (quoted_rest (TOKEN_MAX - length (@nil ascii) - 1) c v) as Hr.
      destruct (quoted _ c v) as [a b]. cbn in Hr, Hs. injection H as <- <- <-. lia.
    + left. unfold name_token in H. rewrite Eq in H. change (TOKEN_MAX - length [])%nat with (S (pred TOKEN_MAX)) in H.
      cbn [plain] in H. rewrite Ec in H. pose proof (plain_rest (pred TOKEN_MAX) v) as Hr.
      destruct (plain (pred TOKEN_MAX) v) as [a b]. cbn in Hr, Hs. injection H as <- <- <-. lia.
    + right. assert (stuck (c :: v)) as St by (apply stuck_char; [by eapply skip_space_head|done..]).
      unfold stuck, getToken in St. cbn [skip_space] in St. rewrite (skip_space_head _ _ _ Ev), Et in St.
      apply (inj Some) in St. rewrite St in H. injection H as <- <- <-. apply stuck_char; [by eapply skip_space_head|done..].
Qed.

(** One step of the scan over the windows. *)
Definition next_window (w w' : list ascii) : Prop := exists t, getToken w = Some (t, DPT_NAME, w').

Lemma window_words_stuck fuel w : stuck w -> window_words fuel w = None.
Proof. intros H. induction fuel as [|fuel IH]; [done|]. cbn [window_words]. by rewrite H, IH. Qed.

(** The scan of the windows of [time(...)] ends unless it comes to a
    character that starts no token, and then it never does: no number of
    steps is enough. *)
Theorem window_scan_ends w :
  (exists r, window_words (S (length w)) w = Some r) \/
  (exists w', rtc next_window w w' /\ stuck w') /\ forall fuel, window_words fuel w = None.
Proof.
  enough (forall k w, (length w < k)%nat -> (exists r, window_words k w = Some r) \/
    (exists w', rtc next_window w w' /\ stuck w') /\ forall fuel, window_words fuel w = None) as H by (apply H; lia).
  clear w. induction k as [|k IH]; intros w Hk; [lia|]. cbn [window_words].
  destruct (getToken w) as [[[t ty] w']|] eqn:Et; [|left; by eexists].
  destruct (decide (ty = DPT_NAME)) as [->|Hn]; [|left; destruct ty; (done || by eexists)].
  assert (forall fuel, window_words fuel w' = None -> window_words (S fuel) w = None) as Hstep.
  { intros fuel Hf. cbn [window_words]. by rewrite Et, Hf. }
  assert ((exists v, rtc next_window w' v /\ stuck v) /\ (forall fuel, window_words fuel w' = None) ->
          (exists v, rtc next_window w v /\ stuck v) /\ forall fuel, window_words fuel w = None) as Hdiv.
  { intros [(v & Hv & Sv) Hf]. split; [exists v; split; [|done]; eapply rtc_l; [by exists t|done]|].
    intros [|fuel]; [done|]. by apply Hstep. }
  destruct (getToken_progress w t DPT_NAME w' Et) as [Hl|Hst].
  - destruct (IH w') as [[r ->]|Hd]; [lia|left; by eexists|right; by apply Hdiv].
  - right. apply Hdiv. split; [exists w'; by split|]. intros fuel. by apply window_words_stuck.
Qed.

Lemma time_hash_diverges fuel : window_words fuel (chars "#)") = None.
Proof. apply window_words_stuck, stuck_char; reflexivity. Qed.

(** An operator merges only the one above it: [a && !b || c] is read as
    [a && (!b || c)]. *)
Lemma precedence_lost :
  (r ← parseDepCond sample_env sample_parse 5000 (chars "done(1)&&!ended(2)||exit(2)") "u" 0; Some (fst (fst r))) =
  Some (Some (Opr DPT_AND DP_FALSE 1
    (Opr DPT_OR DP_FALSE 0 (Job DPT_EXIT DP_FALSE 0 DPT_TRUE 0 0 202 NULL)
      (Opr DPT_NOT DP_FALSE 0 (Job DPT_ENDED DP_FALSE 0 DPT_AND 0 0 202 NULL) Null))
    (Job DPT_DONE DP_FALSE 0 DPT_AND 0 0 201 NULL))).
Proof. vm_compute. reflexivity. Qed.

(** An opening parenthesis that is not closed becomes the root. *)
Lemma unclosed_accepted :
  (r ← parseDepCond sample_env sample_parse 5000 (chars "done(1) (done(1)") "u" 0; Some (fst (fst r))) =
  Some (Some (Opr DPT_LEFT_ DP_FALSE 1
    (Job DPT_DONE DP_FALSE 0 DPT_AND 0 0 201 NULL) (Job DPT_DONE DP_FALSE 0 DPT_AND 0 0 201 NULL))).
Proof. vm_compute. reflexivity. Qed.
