(* ===== verification/Stdio.v ===== *)
(** * Formatted input and output of C

    The conversions of [printf] and [scanf] that the event log uses: [%d], [%f]
    with a width and a precision, [%lf] and [%n], and [atof].  Code that reads a
    line or writes a file is a computation [M] on the pointer into the line or
    on the file; it may fail with an error code, which keeps the state, or do
    something C leaves undefined. *)

From Stdlib Require Import Ascii SpecFloat.
From S2P Require Import Prelude CString Float32.

(** ** Computations *)

Definition M (S A : Type) : Type := S -> option ((Z + A) * S).

Definition ret {S A} (a : A) : M S A := fun s => Some (inr a, s).
Definition fail {S A} (code : Z) : M S A := fun s => Some (inl code, s).
Definition undef {S A} : M S A := fun _ => None.
Definition bind {S A B} (m : M S A) (f : A -> M S B) : M S B := fun s =>
  match m s with
  | Some (inr a, s') => f a s'
  | Some (inl code, s') => Some (inl code, s')
  | None => None
  end.

Declare Scope log_scope.
Delimit Scope log_scope with log.
Notation "'let!' x ':=' m 'in' k" := (bind m (fun x => k))
  (at level 10, x pattern, m at level 100, k at level 200) : log_scope.
Notation "m ';;' k" := (bind m (fun _ => k)) (at level 100, k at level 200, right associativity) : log_scope.
#[global] Open Scope log_scope.

Lemma bind_val {S A B} (m : M S A) (f : A -> M S B) s a s' : m s = Some (inr a, s') -> bind m f s = f a s'.
Proof. unfold bind. by intros ->. Qed.

Lemma bind_fail {S A B} (m : M S A) (f : A -> M S B) s code s' : m s = Some (inl code, s') -> bind m f s = Some (inl code, s').
Proof. unfold bind. by intros ->. Qed.

(** ** Numerals *)

(** The decimal numeral of a number that is not negative, as [%u] prints it. *)
Definition dec_text (n : Z) : list ascii := show_loop (S (Z.to_nat (Z.log2 n))) n [].

(** [%d] *)
Definition int_text (z : Z) : list ascii := if z <? 0 then "-"%char :: dec_text (- z) else dec_text z.

Lemma show_loop_dec fuel n w :
  0 <= n < 10 ^ Z.of_nat fuel -> (0 < fuel)%nat ->
  exists ds, show_loop fuel n w = ds ++ w /\ ds <> [] /\ Forall (fun c => is_digit c = true) ds /\
    forall r, read_digits 0 (ds ++ r) = read_digits n r.
Proof.
  revert n w. induction fuel as [|k IH]; intros n w Hn Hf; [lia|]. cbn [show_loop].
  pose proof (Z.mod_pos_bound n 10 ltac:(lia)) as Hm.
  assert (Hd : is_digit (digit_char (n mod 10)) = true) by (unfold is_digit; by rewrite digit_digit_char).
  destruct (Z.ltb_spec n 10).
  - exists [digit_char (n mod 10)]. split; [done|]. split; [done|]. split; [by repeat constructor|].
    intros r. cbn. rewrite digit_digit_char by done. by rewrite Z.mod_small by lia.
  - rewrite Nat2Z.inj_succ, Z.pow_succ_r in Hn by lia.
    destruct (IH (n / 10) (digit_char (n mod 10) :: w)) as (ds & E & _ & Hall & Hr).
    + split; [apply Z.div_pos; lia|apply Z.div_lt_upper_bound; lia].
    + destruct k; [cbn in Hn; lia|lia].
    + exists (ds ++ [digit_char (n mod 10)]). split; [by rewrite E, <- app_assoc|].
      split; [by destruct ds|]. split; [apply Forall_app; split; [done|by repeat constructor]|].
      intros r. rewrite <- app_assoc, Hr. cbn. rewrite digit_digit_char by done.
      f_equal. pose proof (Z.div_mod n 10). lia.
Qed.

Lemma dec_text_reads n :
  0 <= n -> dec_text n <> [] /\ Forall (fun c => is_digit c = true) (dec_text n) /\
    forall r, read_digits 0 (dec_text n ++ r) = read_digits n r.
Proof.
  intros Hn. destruct (show_loop_dec (S (Z.to_nat (Z.log2 n))) n []) as (ds & E & H); [|lia|unfold dec_text; by rewrite E, app_nil_r].
  split; [done|]. rewrite Nat2Z.inj_succ, Z2Nat.id by apply Z.log2_nonneg.
  destruct (decide (n = 0)) as [->|]; [done|]. pose proof (Z.log2_spec n ltac:(lia)) as [_ H].
  pose proof (Z.log2_nonneg n). assert (2 ^ Z.succ (Z.log2 n) <= 10 ^ Z.succ (Z.log2 n)) by (apply Z.pow_le_mono_l; lia). lia.
Qed.

(** [%d] of [scanf]: blanks are skipped, then an optional sign and digits; the
    number and what is left.  [None] is a matching failure. *)
Definition read_sign (w : list ascii) : bool * list ascii :=
  match w with
  | c :: w' => if Ascii.eqb c "-" then (true, w') else if Ascii.eqb c "+" then (false, w') else (false, w)
  | [] => (false, [])
  end.

Definition scan_int (w : list ascii) : option (Z * list ascii) :=
  let '(neg, w) := read_sign (skip_space w) in
  match w with
  | c :: _ => if is_digit c then let '(v, rest) := read_digits 0 w in Some (if neg : bool then - v else v, rest) else None
  | [] => None
  end.

(** Blanks in front of what is read. *)
Definition blank (w : list ascii) : Prop := Forall (fun c => is_space c = true) w.

Lemma skip_space_blank b w : blank b -> skip_space (b ++ w) = skip_space w.
Proof. induction 1 as [|c b Hc _ IH]; [done|]. cbn [app skip_space]. by rewrite Hc. Qed.

Lemma skip_space_none c w : is_space c = false -> skip_space (c :: w) = c :: w.
Proof. intros H. cbn. by rewrite H. Qed.

Lemma eqb_ne (c d : ascii) : c <> d -> Ascii.eqb c d = false.
Proof. apply Ascii.eqb_neq. Qed.

Lemma scan_int_text b z r :
  blank b -> hd_error r ≫= digit = None -> scan_int (b ++ int_text z ++ r) = Some (z, r).
Proof.
  intros Hb Hr. unfold scan_int. rewrite skip_space_blank by done. unfold int_text.
  destruct (Z.ltb_spec z 0) as [Hz|Hz].
  - destruct (dec_text_reads (- z) ltac:(lia)) as (Hne & Hall & Hrd). rewrite <- app_comm_cons.
    rewrite skip_space_none by done. cbn [read_sign Ascii.eqb Bool.eqb]. specialize (Hrd r). rewrite (read_digits_stop (- z) r) in Hrd by done.
    destruct (dec_text (- z)) as [|c w]; [done|]. apply Forall_cons in Hall as [Hc _]. cbn [app] in *. rewrite Hc, Hrd. f_equal. f_equal. lia.
  - destruct (dec_text_reads z ltac:(lia)) as (Hne & Hall & Hrd). specialize (Hrd r). rewrite (read_digits_stop z r) in Hrd by done.
    destruct (dec_text z) as [|c w]; [done|]. apply Forall_cons in Hall as [Hc _]. cbn [app] in *.
    destruct (digit_not_space _ Hc) as (Hs & Hm & Hp). rewrite skip_space_none by done. cbn [read_sign].
    rewrite !eqb_ne by done. by rewrite Hc, Hrd.
Qed.

(** Characters of a numeral: digits and the sign. *)
Definition num_char (c : ascii) : bool := is_digit c || Ascii.eqb c "-" || Ascii.eqb c ".".

Lemma int_text_chars z : Forall (fun c => num_char c = true) (int_text z).
Proof.
  assert (H : forall n, 0 <= n -> Forall (fun c => num_char c = true) (dec_text n)).
  { intros n Hn. destruct (dec_text_reads n Hn) as (_ & Hall & _). eapply Forall_impl; [exact Hall|]. intros c Hc. unfold num_char. by rewrite Hc. }
  unfold int_text. destruct (Z.ltb_spec z 0); [constructor; [done|]|]; apply H; lia.
Qed.

Lemma int_text_ne z : int_text z <> [].
Proof. unfold int_text. destruct (Z.ltb_spec z 0); [done|]. apply dec_text_reads. lia. Qed.

(** ** Floating-point numbers *)

(** Quotient rounded to the nearest integer, ties to even. *)
Definition div_even (a d : Z) : Z :=
  let q := a / d in
  match 2 * (a mod d) ?= d with
  | Lt => q
  | Gt => q + 1
  | Eq => if Z.even q then q else q + 1
  end.

(** The value [m] 2^[e] in units of 10^-[p]. *)
Definition scaled (p : nat) (m e : Z) : Z :=
  if 0 <=? e then m * 2 ^ e * 10 ^ Z.of_nat p else div_even (m * 10 ^ Z.of_nat p) (2 ^ (- e)).

(** [n] in units of 10^-[p] as a decimal numeral. *)
Fixpoint pad_digits (p : nat) (n : Z) : list ascii :=
  match p with O => [] | S k => pad_digits k (n / 10) ++ [digit_char (n mod 10)] end.

Definition fixed_text (p : nat) (n : Z) : list ascii :=
  dec_text (n / 10 ^ Z.of_nat p) ++
  match p with O => [] | _ => "."%char :: pad_digits p (n mod 10 ^ Z.of_nat p) end.

Definition sign_text (s : bool) : list ascii := if s then ["-"%char] else [].

(** [%.pf] *)
Definition float_text (p : nat) (x : spec_float) : list ascii :=
  match x with
  | S754_nan => String.list_ascii_of_string "nan"
  | S754_infinity s => sign_text s ++ String.list_ascii_of_string "inf"
  | S754_zero s => sign_text s ++ fixed_text p 0
  | S754_finite s m e => sign_text s ++ fixed_text p (scaled p (Zpos m) e)
  end.

(** [%w.pf]: blanks on the left up to the width. *)
Definition fmt_f (w p : nat) (x : spec_float) : list ascii :=
  let t := float_text p x in replicate (w - length t) " "%char ++ t.

(** [n] 10^-[k] rounded to a format; [strtod] rounds once. *)
Definition dec_round (prec emax : Z) (s : bool) (n k : Z) : spec_float :=
  match n with
  | Zpos m => if k <=? 0 then binary_normalize prec emax (cond_Zopp s (Zpos m * 10 ^ (- k))) 0 s
              else SFdiv prec emax (S754_finite s m 0) (S754_finite false (Z.to_pos (10 ^ k)) 0)
  | _ => S754_zero s
  end.

(** Digits, with their number. *)
Fixpoint count_digits (acc k : Z) (w : list ascii) : Z * Z * list ascii :=
  match w with
  | c :: w' => match digit c with Some d => count_digits (10 * acc + d) (k + 1) w' | None => (acc, k, w) end
  | [] => (acc, k, [])
  end.

(** Digits with an optional point: the digits, how many follow the point, the
    rest. *)
Definition read_fixed (w : list ascii) : option (Z * Z * list ascii) :=
  let '(ip, k1, w1) := count_digits 0 0 w in
  match w1 with
  | c :: w2 =>
      if Ascii.eqb c "." then
        let '(v, k2, w3) := count_digits ip 0 w2 in if k1 + k2 =? 0 then None else Some (v, k2, w3)
      else if k1 =? 0 then None else Some (ip, 0, w1)
  | [] => if k1 =? 0 then None else Some (ip, 0, w1)
  end.

(** An optional exponent.  [scanf] takes the letter as the promise of one, [strtod]
    reads as far as the number goes. *)
Definition read_exponent (strict : bool) (w : list ascii) : option (Z * list ascii) :=
  match w with
  | c :: w1 =>
      if Ascii.eqb c "e" || Ascii.eqb c "E" then
        let '(neg, w2) := read_sign w1 in
        let '(v, k, w3) := count_digits 0 0 w2 in
        if k =? 0 then if strict then None else Some (0, w) else Some (if neg : bool then - v else v, w3)
      else Some (0, w)
  | [] => Some (0, [])
  end.

(** The letters of [inf], [infinity] and [nan], in either case. *)
Definition lower (c : ascii) : ascii :=
  let n := Ascii.N_of_ascii c in if ((65 <=? n) && (n <=? 90))%N then Ascii.ascii_of_N (n + 32) else c.
Fixpoint after_word (pat w : list ascii) : option (list ascii) :=
  match pat, w with
  | [], _ => Some w
  | p :: pat, c :: w => if Ascii.eqb (lower c) p then after_word pat w else None
  | _, [] => None
  end.

(** A number: [None] for the hexadecimal notation and for a tagged [nan], which
    are left out; [Some None] when there is no number. *)
Definition scan_number (strict : bool) (prec emax : Z) (neg : bool) (w : list ascii) : option (option (spec_float * list ascii)) :=
  match after_word (String.list_ascii_of_string "0x") w with
  | Some _ => None
  | None =>
      match after_word (String.list_ascii_of_string "inf") w with
      | Some r =>
          Some (match after_word (String.list_ascii_of_string "inity") r with
                | Some r' => Some (S754_infinity neg, r')
                | None => match r with
                          | c :: _ => if strict && Ascii.eqb (lower c) "i" then None else Some (S754_infinity neg, r)
                          | [] => Some (S754_infinity neg, r)
                          end
                end)
      | None =>
          match after_word (String.list_ascii_of_string "nan") w with
          | Some r => match r with
                      | c :: _ => if Ascii.eqb c "(" then None else Some (Some (S754_nan, r))
                      | [] => Some (Some (S754_nan, r))
                      end
          | None =>
              Some ('(n, k, r) ← read_fixed w; '(e, r') ← read_exponent strict r; Some (dec_round prec emax neg n (k - e), r'))
          end
      end
  end.

Definition scan_float (strict : bool) (prec emax : Z) (w : list ascii) : option (option (spec_float * list ascii)) :=
  let '(neg, w) := read_sign (skip_space w) in scan_number strict prec emax neg w.

(** [atof], 0 when there is no number. *)
Definition atof (w : list ascii) : option spec_float :=
  o ← scan_float false 53 1024 w; Some (match o with Some (x, _) => x | None => S754_zero false end).

(** What comes back of a float printed with [p] digits. *)
Definition logged (prec emax : Z) (p : nat) (x : spec_float) : spec_float :=
  match x with
  | S754_finite s m e => dec_round prec emax s (scaled p (Zpos m) e) (Z.of_nat p)
  | _ => x
  end.

(** What follows a field of a line: nothing, or a blank. *)
Definition stops (r : list ascii) : Prop := hd_error r = None \/ hd_error r = Some " "%char.

Lemma stops_digit r : stops r -> hd_error r ≫= digit = None.
Proof. by intros [->| ->]. Qed.

Lemma count_digits_read ds a k r :
  Forall (fun c => is_digit c = true) ds -> hd_error r ≫= digit = None ->
  count_digits a k (ds ++ r) = (fst (read_digits a ds), k + Z.of_nat (length ds), r).
Proof.
  intros Hds Hr. revert a k. induction Hds as [|c ds Hc _ IH]; intros a k.
  - cbn [app length read_digits fst]. rewrite Z.add_0_r. destruct r as [|c r]; [done|]. cbn in *. by rewrite Hr.
  - cbn [app count_digits read_digits]. unfold is_digit in Hc. destruct (digit c) as [d|]; [|done]. rewrite IH. cbn [length]. do 2 f_equal. lia.
Qed.

Lemma pad_digits_all p n : Forall (fun c => is_digit c = true) (pad_digits p n) /\ length (pad_digits p n) = p.
Proof.
  revert n. induction p as [|p IH]; intros n; [done|]. cbn [pad_digits]. destruct (IH (n / 10)) as [H1 H2]. split.
  - apply Forall_app. split; [done|]. constructor; [|done]. unfold is_digit.
    by rewrite digit_digit_char by (apply Z.mod_pos_bound; lia).
  - rewrite length_app, H2. cbn. lia.
Qed.

Lemma read_digits_app a ds c d : Forall (fun c => is_digit c = true) ds -> digit c = Some d ->
  fst (read_digits a (ds ++ [c])) = 10 * fst (read_digits a ds) + d.
Proof.
  intros Hds Hc. revert a. induction Hds as [|x ds Hx _ IH]; intros a; cbn [app read_digits]; [by rewrite Hc|].
  unfold is_digit in Hx. destruct (digit x); [|done]. apply IH.
Qed.

Lemma pad_digits_read p n a : 0 <= n < 10 ^ Z.of_nat p -> fst (read_digits a (pad_digits p n)) = a * 10 ^ Z.of_nat p + n.
Proof.
  revert n. induction p as [|p IH]; intros n Hn; [cbn in *; lia|]. cbn [pad_digits].
  rewrite Nat2Z.inj_succ, Z.pow_succ_r in * by lia.
  rewrite (read_digits_app a _ _ (n mod 10)); [|apply pad_digits_all|apply digit_digit_char, Z.mod_pos_bound; lia].
  rewrite IH; [|split; [apply Z.div_pos; lia|apply Z.div_lt_upper_bound; lia]]. pose proof (Z.div_mod n 10). lia.
Qed.

Lemma dec_text_read n : 0 <= n -> fst (read_digits 0 (dec_text n)) = n.
Proof. intros Hn. destruct (dec_text_reads n Hn) as (_ & _ & H). specialize (H []). rewrite app_nil_r in H. by rewrite H. Qed.

Lemma dec_text_len n : 0 <= n -> 0 < Z.of_nat (length (dec_text n)).
Proof. intros Hn. destruct (dec_text_reads n Hn) as (H & _). destruct (dec_text n); [done|cbn; lia]. Qed.

Lemma read_fixed_text p n r :
  0 <= n -> stops r -> read_fixed (fixed_text p n ++ r) = Some (n, Z.of_nat p, r).
Proof.
  intros Hn Hr. unfold read_fixed, fixed_text. set (q := n / 10 ^ Z.of_nat p).
  assert (Hq : 0 <= q) by (apply Z.div_pos; lia). destruct (dec_text_reads q Hq) as (_ & Hall & _). pose proof (dec_text_len q Hq).
  rewrite <- app_assoc, count_digits_read; [|done|destruct p; [by apply stops_digit|done]]. rewrite dec_text_read by done.
  destruct p as [|p].
  - cbn [app]. unfold q. cbn. rewrite Z.div_1_r. rewrite (proj2 (Z.eqb_neq _ _)) by (unfold q in *; cbn in *; rewrite Z.div_1_r in *; lia).
    destruct Hr as [Hr|Hr]; destruct r as [|c r]; try done. by injection Hr as ->.
  - rewrite <- app_comm_cons. cbn [Ascii.eqb Bool.eqb].
    rewrite count_digits_read; [|apply pad_digits_all|by apply stops_digit]. rewrite (proj2 (pad_digits_all _ _)).
    rewrite pad_digits_read by (apply Z.mod_pos_bound; lia).
    rewrite (proj2 (Z.eqb_neq _ _)) by lia. do 3 f_equal. unfold q. pose proof (Z.div_mod n (10 ^ Z.of_nat (S p))). lia.
Qed.

(** The first characters of a numeral are not those of a word. *)
Lemma digit_no_word c w pat p : is_digit c = true -> is_digit p = false -> lower c = c -> after_word (p :: pat) (c :: w) = None.
Proof.
  intros Hc Hp Hl. cbn [after_word]. rewrite Hl. destruct (Ascii.eqb_spec c p) as [->|]; [congruence|done].
Qed.

Lemma digit_lower c : is_digit c = true -> lower c = c.
Proof. by destruct c as [[] [] [] [] [] [] [] []]. Qed.

Lemma fixed_no_hex p n r : 0 <= n -> stops r -> after_word (String.list_ascii_of_string "0x") (fixed_text p n ++ r) = None.
Proof.
  intros Hn Hr. unfold fixed_text. set (q := n / 10 ^ Z.of_nat p).
  assert (Hq : 0 <= q) by (apply Z.div_pos; lia). destruct (dec_text_reads q Hq) as (Hne & Hall & _).
  destruct (dec_text q) as [|c w]; [done|]. apply Forall_cons in Hall as [Hc Hall]. cbn [app String.list_ascii_of_string after_word].
  destruct (Ascii.eqb (lower c) "0"); [|done].
  destruct w as [|d w].
  - destruct p; cbn [app]; [|done]. destruct Hr as [Hr|Hr]; destruct r as [|x r]; try done. by injection Hr as ->.
  - apply Forall_cons in Hall as [Hd _]. cbn [app]. rewrite digit_lower by done. destruct (Ascii.eqb_spec d "x") as [->|]; done.
Qed.

Lemma fixed_text_digit p n : 0 <= n -> exists c v, fixed_text p n = c :: v /\ is_digit c = true.
Proof.
  intros Hn. unfold fixed_text. assert (Hq : 0 <= n / 10 ^ Z.of_nat p) by (apply Z.div_pos; lia).
  destruct (dec_text_reads _ Hq) as (Hne & Hall & _). destruct (dec_text _) as [|c v]; [done|]. apply Forall_cons in Hall as [Hc _].
  cbn [app]. eauto.
Qed.

Lemma scan_number_fixed strict prec emax s p n r :
  0 <= n -> stops r -> scan_number strict prec emax s (fixed_text p n ++ r) = Some (Some (dec_round prec emax s n (Z.of_nat p), r)).
Proof.
  intros Hn Hr. unfold scan_number. rewrite fixed_no_hex by done. destruct (fixed_text_digit p n Hn) as (c & v & Ec & Hc).
  rewrite Ec. cbn [String.list_ascii_of_string app]. rewrite !digit_no_word by (done || by apply digit_lower).
  rewrite app_comm_cons, <- Ec, read_fixed_text by done. cbn [mbind option_bind].
  replace (read_exponent strict r) with (Some (0, r)) by (destruct Hr as [Hr|Hr]; destruct r as [|d r]; try done; by injection Hr as ->).
  cbn [mbind option_bind]. by rewrite Z.sub_0_r.
Qed.

Lemma read_sign_fixed s p n r : 0 <= n -> read_sign (skip_space ((sign_text s ++ fixed_text p n) ++ r)) = (s, fixed_text p n ++ r).
Proof.
  intros Hn. destruct (fixed_text_digit p n Hn) as (c & v & -> & Hc). destruct (digit_not_space _ Hc) as (Hs & Hm & Hp).
  destruct s; cbn [sign_text app]; [by rewrite skip_space_none|]. rewrite skip_space_none by done. cbn [read_sign]. by rewrite !eqb_ne by done.
Qed.

Lemma scaled_nonneg p m e : 0 <= scaled p (Zpos m) e.
Proof.
  unfold scaled. case_test; [apply Z.mul_nonneg_nonneg; [|lia]; apply Z.mul_nonneg_nonneg; lia|].
  unfold div_even. assert (0 <= Zpos m * 10 ^ Z.of_nat p / 2 ^ (- e)) by (apply Z.div_pos; lia).
  destruct (_ ?= _); try case_test; lia.
Qed.

(** What [%w.pf] has printed is read back as the nearest number. *)
Lemma scan_float_text strict prec emax b w p x r :
  blank b -> stops r -> scan_float strict prec emax (b ++ fmt_f w p x ++ r) = Some (Some (logged prec emax p x, r)).
Proof.
  intros Hb Hr. unfold fmt_f. set (k := (w - length (float_text p x))%nat).
  assert (Hk : blank (replicate k " "%char)) by (apply Forall_replicate; done).
  unfold scan_float. rewrite skip_space_blank by done. rewrite <- app_assoc, skip_space_blank by done.
  destruct x as [s|s| |s m e]; cbn [float_text logged].
  - rewrite read_sign_fixed, scan_number_fixed by (done || lia). done.
  - destruct s; cbn; destruct Hr as [Hr|Hr]; destruct r as [|d r]; try done; injection Hr as ->; cbn; by destruct strict.
  - cbn. destruct Hr as [Hr|Hr]; destruct r as [|d r]; try done. by injection Hr as ->.
  - rewrite read_sign_fixed, scan_number_fixed by (done || apply scaled_nonneg). done.
Qed.
