(* ===== verification/Words.v ===== *)
(** * Lines, words and quoted strings, [lsf/lib/lib.words.c]

    The reading of lines from the configuration files and the event log, quoted
    strings in such lines, the removal of line feeds, and words.  A file that is
    read is the list of the characters that are left; a file that is written
    may have room for so many characters only. *)

From Stdlib Require Import Ascii.
From S2P Require Import Prelude CString Stdio.

Definition quote : ascii := Ascii.ascii_of_N 34.
Definition newline : ascii := Ascii.ascii_of_N 10.
Definition backslash : ascii := Ascii.ascii_of_N 92.
Definition nul : ascii := Ascii.ascii_of_N 0.

#[global] Arguments Ascii.eqb : simpl never.
#[global] Arguments quote : simpl never.
#[global] Arguments newline : simpl never.
#[global] Arguments nul : simpl never.
#[global] Arguments backslash : simpl never.

Definition MAXLINELEN : Z := 4096.

(** The string up to the terminating zero. *)
Fixpoint c_str (w : list ascii) : list ascii :=
  match w with
  | c :: w' => if Ascii.eqb c nul then [] else c :: c_str w'
  | [] => []
  end.

(** ** Lines *)

(** The rest of the line after a comment sign: whether the file has ended, the
    line count, what is left. *)
Fixpoint skip_comment (count : Z) (fp : list ascii) : bool * Z * list ascii :=
  match fp with
  | [] => (true, count, [])
  | c :: fp' => if Ascii.eqb c newline then (false, count + 1, fp') else skip_comment count fp'
  end.

Definition blanked (c : ascii) : ascii := if is_space c then " "%char else c.

(** The characters of the next line, last one first, with whether the file has
    ended, the line count and what is left. *)
Fixpoint read_line (confFormat quotes : bool) (count : Z) (line : list ascii) (fp : list ascii)
  : list ascii * bool * Z * list ascii :=
  match fp with
  | [] => (line, true, count, [])
  | cin :: fp1 =>
      if Ascii.eqb cin newline then (line, false, count + 1, fp1) else
      let quotes := if Ascii.eqb cin quote then negb quotes else quotes in
      if confFormat && Ascii.eqb cin "#" && negb quotes then
        let '(eof, count, fp2) := skip_comment count fp1 in (line, eof, count, fp2)
      else if confFormat && Ascii.eqb cin backslash then
        match fp1 with
        | [] => (line, true, count, [])
        | cin2 :: fp2 =>
            if Ascii.eqb cin2 newline then read_line confFormat quotes (count + 1) (" "%char :: line) fp2
            else if is_space cin2 then read_line confFormat quotes count (" "%char :: line) fp2
            else read_line confFormat quotes count (cin2 :: backslash :: line) fp2
        end
      else read_line confFormat quotes count (blanked cin :: line) fp1
  end.

(** [while (lpos > 0 && line[--lpos] == ' ')] on the reversed line: the position
    it stops at. *)
Fixpoint trim (line : list ascii) : nat :=
  match line with
  | [] => 0
  | c :: line' => if Ascii.eqb c " " then trim line' else length line'
  end.

(** The next line and what the file and the count are then; [None] at the end. *)
Definition getNextLineD_ (confFormat : bool) (count : Z) (fp : list ascii) : option (list ascii) * Z * list ascii :=
  let '(line, eof, count, fp) := read_line confFormat false count [] fp in
  let lpos := trim line in
  if negb eof || (length line =? 1)%nat || (0 <? lpos)%nat then
    (Some (c_str (take (S lpos) (rev line))), (if eof && (0 <? lpos)%nat then count + 1 else count), fp)
  else (None, count, fp).

(** Lines of blanks are passed over. *)
Fixpoint getNextLineC_ (fuel : nat) (confFormat : bool) (count : Z) (fp : list ascii) : option (option (list ascii) * Z * list ascii) :=
  match fuel with
  | O => None
  | S fuel =>
      let '(nextLine, count, fp) := getNextLineD_ confFormat count fp in
      match nextLine with
      | None => Some (None, count, fp)
      | Some w => if forallb (fun c => Ascii.eqb c " ") w then getNextLineC_ fuel confFormat count fp else Some (Some w, count, fp)
      end
  end.

Definition getNextLine_ (confFormat : bool) (fp : list ascii) : option (option (list ascii) * list ascii) :=
  '(l, _, fp') ← getNextLineC_ (S (length fp)) confFormat 0 fp; Some (l, fp').

(** ** Quoted strings *)

(** Up to the opening quote. *)
Fixpoint skip_to_quote (q : list ascii) : option (list ascii) :=
  match q with
  | [] => None
  | c :: q' => if Ascii.eqb c quote then Some q' else skip_to_quote q'
  end.

(** The copy to a buffer with [cap] bytes left; [None] is a write past its end,
    [Some None] a string that does not end. *)
Fixpoint strip_body (cap : nat) (q : list ascii) {struct q} : option (option (list ascii * list ascii)) :=
  match q with
  | [] => Some None
  | c :: q1 =>
      if Ascii.eqb c quote then
        match q1 with
        | c2 :: q2 => if Ascii.eqb c2 quote then
                        match cap with
                        | O => None
                        | S cap => o ← strip_body cap q2; Some ('(s, r) ← o; Some (quote :: s, r))
                        end
                      else match cap with O => None | S _ => Some (Some ([], q1)) end
        | [] => match cap with O => None | S _ => Some (Some ([], q1)) end
        end
      else
        match cap with
        | O => None
        | S cap => o ← strip_body cap q1; Some ('(s, r) ← o; Some (c :: s, r))
        end
  end.

(** The string in quotes and what follows the closing quote. *)
Definition stripQStr (cap : nat) (q : list ascii) : option (option (list ascii * list ascii)) :=
  match skip_to_quote q with
  | None => Some None
  | Some q => strip_body cap q
  end.

(** A stream that is written.  [room] is the number of characters it takes until
    an operation reports an error, if it ever does; as streams are buffered, less
    than these may have reached the disk when an error is reported, and an error
    may only be reported when the stream is closed. *)
Record wfile := WFile { written : list ascii; room : option nat }.

(** [n] characters at once stand for as many calls of [putc]. *)
Definition wr (code : Z) (t : list ascii) : M wfile unit := fun f =>
  match room f with
  | None => Some (inr tt, WFile (written f ++ t) None)
  | Some k => if (length t <=? k)%nat then Some (inr tt, WFile (written f ++ t) (Some (k - length t)%nat))
              else Some (inl code, WFile (written f ++ take k t) (Some 0%nat))
  end.
Definition putc (code : Z) (c : ascii) : M wfile unit := wr code [c].

Fixpoint put_quoted (code : Z) (str : list ascii) : M wfile unit :=
  match str with
  | [] => ret tt
  | c :: str => (if Ascii.eqb c quote then putc code quote else ret tt);; putc code c;; put_quoted code str
  end.

Definition addQStr (code : Z) (str : option (list ascii)) : M wfile unit :=
  putc code " ";; putc code quote;;
  match str with
  | Some str => put_quoted code str;; putc code quote
  | None => undef
  end.

(** ** Line feeds *)

(** From the end of the string, every line feed is closed up. *)
Fixpoint sub_from (i : nat) (s : list ascii) : list ascii :=
  match i with
  | O => s
  | S i => sub_from i (match s !! i with Some c => if Ascii.eqb c newline then delete i s else s | None => s end)
  end.
Definition subNewLine_ (instr : list ascii) : list ascii := sub_from (length instr) instr.

(** ** Words *)

(** The word buffer has four lines; a longer word is written past its end. *)
Definition word_buf : Z := 4 * MAXLINELEN.

Fixpoint take_until (stop : ascii -> bool) (w : list ascii) : list ascii * list ascii :=
  match w with
  | c :: w' => if stop c then ([], w) else let '(a, r) := take_until stop w' in (c :: a, r)
  | [] => ([], [])
  end.

Fixpoint skip_while (skip : ascii -> bool) (w : list ascii) : list ascii :=
  match w with c :: w' => if skip c then skip_while skip w' else w | [] => [] end.

(** The word in front, none at the end of the line, and the rest of the line. *)
Definition next_word (skip stop : ascii -> bool) (line : list ascii) : option (option (list ascii) * list ascii) :=
  let '(word, rest) := take_until stop (skip_while skip line) in
  if Z.of_nat (length word) <? word_buf then Some (match word with [] => None | _ => Some word end, rest) else None.

Definition getNextWord_ : list ascii -> option (option (list ascii) * list ascii) := next_word is_space is_space.

Definition getNextWord1_ : list ascii -> option (option (list ascii) * list ascii) :=
  next_word is_space (fun c => is_space c || Ascii.eqb c "," || Ascii.eqb c "]" || Ascii.eqb c "[").

Fixpoint charInSet (c : ascii) (set : list ascii) : bool :=
  match set with [] => false | d :: set => if Ascii.eqb c d then true else charInSet c set end.

Definition getNextWordSet (line set : list ascii) : option (option (list ascii) * list ascii) :=
  next_word (fun c => charInSet c set) (fun c => charInSet c set) line.

(** ** Quoted strings come back *)

(** The characters between the quotes. *)
Definition qtext (s : list ascii) : list ascii := s ≫= fun c => if Ascii.eqb c quote then [quote; quote] else [c].

Definition no_quote (w : list ascii) : Prop := Forall (fun c => Ascii.eqb c quote = false) w.

Lemma skip_to_quote_skips pre r : no_quote pre -> skip_to_quote (pre ++ quote :: r) = Some r.
Proof. induction 1 as [|c pre Hc _ IH]; [done|]. cbn [app skip_to_quote]. by rewrite Hc. Qed.

Lemma strip_body_quoted cap s r :
  (length s < cap)%nat -> hd_error r <> Some quote -> strip_body cap (qtext s ++ quote :: r) = Some (Some (s, r)).
Proof.
  revert cap. induction s as [|c s IH]; intros cap Hc Hr.
  - destruct cap; [lia|]. destruct r as [|d r]; [done|]. change (qtext [] ++ quote :: d :: r) with (quote :: d :: r). cbn [strip_body].
    rewrite Ascii.eqb_refl. destruct (Ascii.eqb_spec d quote) as [->|]; [by destruct Hr|done].
  - destruct cap as [|cap]; [cbn in Hc; lia|]. cbn [qtext mbind list_bind]. fold (qtext s).
    destruct (Ascii.eqb_spec c quote) as [->|Hne]; cbn [app]; rewrite <- ?app_assoc.
    + cbn [strip_body]. rewrite Ascii.eqb_refl, IH by (done || (cbn in Hc; lia)). done.
    + cbn [strip_body]. rewrite eqb_ne, IH by (done || (cbn in Hc; lia)). done.
Qed.

Lemma stripQStr_quoted cap pre s r :
  no_quote pre -> (length s < cap)%nat -> hd_error r <> Some quote ->
  stripQStr cap (pre ++ quote :: qtext s ++ quote :: r) = Some (Some (s, r)).
Proof. intros Hp Hc Hr. unfold stripQStr. rewrite skip_to_quote_skips by done. by apply strip_body_quoted. Qed.

(** A buffer as long as the line is always enough, as the quotes are not
    copied. *)
Lemma strip_body_fits cap q : (length q <= cap)%nat -> is_Some (strip_body cap q).
Proof.
  revert cap. induction q as [q IH] using (induction_ltof1 _ (@length ascii)). unfold ltof in IH. intros cap Hc.
  destruct q as [|c q1]; [by eexists|]. cbn [length] in Hc. destruct cap as [|cap]; [lia|].
  cbn [strip_body]. destruct (Ascii.eqb c quote).
  - destruct q1 as [|d q2]; [by eexists|]. destruct (Ascii.eqb d quote); [|by eexists]. cbn [length] in *.
    destruct (IH q2 ltac:(cbn; lia) cap ltac:(lia)) as [o ->]. by eexists.
  - destruct (IH q1 ltac:(cbn; lia) cap ltac:(lia)) as [o ->]. by eexists.
Qed.

Lemma skip_to_quote_shorter q r : skip_to_quote q = Some r -> (length r < length q)%nat.
Proof.
  revert r. induction q as [|c q IH]; intros r; [done|]. cbn. destruct (Ascii.eqb c quote); [intros [= ->]; lia|].
  intros H. specialize (IH _ H). lia.
Qed.

Lemma stripQStr_fits q : is_Some (stripQStr (length q) q).
Proof.
  unfold stripQStr. destruct (skip_to_quote q) eqn:E; [|by eexists]. apply strip_body_fits.
  apply skip_to_quote_shorter in E. lia.
Qed.

(** ** Line feeds are removed *)

Lemma sub_from_filter i s : (i <= length s)%nat ->
  sub_from i s = filter (fun c => Ascii.eqb c newline = false) (take i s) ++ drop i s.
Proof.
  revert s. induction i as [|i IH]; intros s Hi; [done|]. cbn [sub_from].
  destruct (lookup_lt_is_Some_2 s i ltac:(lia)) as [c Hc]. rewrite Hc. rewrite (take_S_r _ _ _ Hc), filter_app.
  destruct (Ascii.eqb c newline) eqn:E.
  - rewrite filter_cons_False, filter_nil, app_nil_r by (by rewrite E).
    rewrite IH by (rewrite length_delete by (by rewrite Hc); lia).
    rewrite delete_take_drop, take_app_le, take_take, Nat.min_id by (rewrite length_take; lia).
    f_equal. rewrite drop_app_ge by (rewrite length_take; lia).
    rewrite length_take, Nat.min_l, Nat.sub_diag, drop_0 by lia. done.
  - rewrite filter_cons_True, filter_nil by done. rewrite IH by lia. rewrite <- app_assoc. f_equal.
    by rewrite (drop_S _ _ _ Hc).
Qed.

Lemma subNewLine_filter s : subNewLine_ s = filter (fun c => Ascii.eqb c newline = false) s.
Proof. unfold subNewLine_. rewrite sub_from_filter, firstn_all, drop_all, app_nil_r by lia. done. Qed.

Lemma subNewLine_id s : Forall (fun c => Ascii.eqb c newline = false) s -> subNewLine_ s = s.
Proof. intros H. rewrite subNewLine_filter. by apply filter_all. Qed.

(** ** Lines of text come back *)

(** Characters that are copied as they are. *)
Definition plain (c : ascii) : bool := Ascii.eqb c " " || negb (is_space c) && negb (Ascii.eqb c nul).
Definition plain_text (t : list ascii) : Prop := Forall (fun c => plain c = true) t.

Lemma plain_blanked c : plain c = true -> blanked c = c /\ Ascii.eqb c newline = false /\ Ascii.eqb c nul = false.
Proof.
  unfold plain, blanked. intros H. bool_prop. destruct H as [H|H].
  - apply Ascii.eqb_eq in H as ->. done.
  - bool_prop. rewrite H. split; [done|]. split; [|done]. destruct (Ascii.eqb_spec c newline) as [->|]; [done|done].
Qed.

(** The quotes matter in configuration files only. *)
Lemma read_line_quotes q q' count acc fp : read_line false q count acc fp = read_line false q' count acc fp.
Proof.
  revert q q' acc. induction fp as [|c fp IH]; intros q q' acc; [done|]. cbn [read_line]. destruct (Ascii.eqb c newline); [done|].
  cbn [andb]. apply IH.
Qed.

Lemma read_line_plain q count acc t r :
  plain_text t -> read_line false q count acc (t ++ r) = read_line false q count (rev t ++ acc) r.
Proof.
  intros Ht. revert acc. induction Ht as [|c t Hc _ IH]; intros acc; [done|]. destruct (plain_blanked _ Hc) as (Hb & Hn & _).
  cbn [app read_line andb]. rewrite Hn, Hb, (read_line_quotes _ q), IH. cbn [rev]. by rewrite <- app_assoc.
Qed.

(** A text whose last character is not a blank. *)
Definition full (t : list ascii) : Prop := exists u c, t = u ++ [c] /\ Ascii.eqb c " " = false.

Lemma trim_blanks b l : Forall (fun c => Ascii.eqb c " " = true) b -> trim (b ++ l) = trim l.
Proof. induction 1 as [|c b Hc _ IH]; [done|]. cbn. by rewrite Hc. Qed.

Lemma trim_full t : full t -> trim (rev t) = (length t - 1)%nat.
Proof.
  intros (u & c & -> & Hc). rewrite rev_app_distr. cbn. rewrite Hc, length_rev, length_app. cbn. lia.
Qed.

Lemma c_str_plain t : plain_text t -> c_str t = t.
Proof. induction 1 as [|c t Hc _ IH]; [done|]. cbn. destruct (plain_blanked _ Hc) as (_ & _ & ->). by rewrite IH. Qed.

Lemma full_length t : full t -> (0 < length t)%nat.
Proof. intros (u & c & -> & _). rewrite length_app. cbn. lia. Qed.

Lemma full_not_blank t : full t -> forallb (fun c => Ascii.eqb c " ") t = false.
Proof. intros (u & c & -> & Hc). rewrite forallb_app. cbn. rewrite Hc. by rewrite andb_false_r. Qed.

(** Blanks at the end of a line are dropped. *)
Lemma getNextLineC_line fuel count t b r :
  plain_text t -> full t -> Forall (fun c => Ascii.eqb c " " = true) b ->
  getNextLineC_ (S fuel) false count (t ++ b ++ newline :: r) = Some (Some t, count + 1, r).
Proof.
  intros Hp Hf Hb. cbn [getNextLineC_]. unfold getNextLineD_.
  assert (Hpb : plain_text b) by (eapply Forall_impl; [exact Hb|]; intros c ->%Ascii.eqb_eq; done).
  rewrite !read_line_plain by done. cbn [read_line]. rewrite Ascii.eqb_refl, app_nil_r.
  rewrite trim_blanks by by apply Forall_rev. rewrite trim_full by done. cbn [negb orb andb].
  pose proof (full_length t Hf). replace (S (length t - 1)) with (length t) by lia.
  rewrite rev_app_distr, !rev_involutive, take_app_length, c_str_plain, full_not_blank by done. done.
Qed.

Lemma getNextLine_line t b r :
  plain_text t -> full t -> Forall (fun c => Ascii.eqb c " " = true) b ->
  getNextLine_ false (t ++ b ++ newline :: r) = Some (Some t, r).
Proof. intros Hp Hf Hb. unfold getNextLine_. by rewrite getNextLineC_line. Qed.

(** A line of blanks is passed over. *)
Lemma getNextLineC_blank fuel count b r : Forall (fun c => Ascii.eqb c " " = true) b ->
  getNextLineC_ (S fuel) false count (b ++ newline :: r) = getNextLineC_ fuel false (count + 1) r.
Proof.
  intros Hb. cbn [getNextLineC_]. unfold getNextLineD_.
  assert (Hpb : plain_text b) by (eapply Forall_impl; [exact Hb|]; intros c ->%Ascii.eqb_eq; done).
  rewrite read_line_plain by done. cbn [read_line]. rewrite Ascii.eqb_refl. cbn [negb orb]. rewrite app_nil_r.
  rewrite rev_involutive. rewrite c_str_plain by by apply Forall_take. cbn [andb].
  replace (forallb _ (take _ b)) with true; [done|]. symmetry. apply forallb_forall. intros c Hc%list_elem_of_In.
  by eapply Forall_forall in Hb; [|eapply elem_of_take in Hc as (i & Hi & _); by eapply list_elem_of_lookup_2].
Qed.

(** The last line needs no line feed. *)
Lemma getNextLine_last t : plain_text t -> full t -> getNextLine_ false t = Some (Some t, []).
Proof.
  intros Hp Hf. unfold getNextLine_. cbn [getNextLineC_]. unfold getNextLineD_.
  pose proof (read_line_plain false 0 [] t [] Hp) as Er. rewrite !app_nil_r in Er. rewrite Er. cbn [read_line].
  rewrite trim_full, length_rev by done. pose proof (full_length t Hf).
  assert (E : (negb true || (length t =? 1)%nat || (0 <? length t - 1)%nat) = true).
  { cbn [negb orb]. destruct (Nat.eqb_spec (length t) 1); [done|]. cbn [orb]. apply Nat.ltb_lt. lia. }
  rewrite E. replace (S (length t - 1)) with (length t) by lia.
  rewrite rev_involutive, firstn_all, c_str_plain, full_not_blank by done. done.
Qed.

(** At the end of the file there is no line. *)
Lemma getNextLine_end : getNextLine_ false [] = Some (None, []).
Proof. done. Qed.

(** ** A line is always found *)

(** Reading takes something from the file, unless it has ended. *)
Lemma skip_comment_shorter count fp : (length (snd (skip_comment count fp)) <= length fp)%nat.
Proof. induction fp as [|c fp IH]; [done|]. cbn [skip_comment]. destruct (Ascii.eqb c newline); cbn; lia. Qed.

Lemma read_line_shorter conf q count acc fp :
  let '(_, _, _, fp') := read_line conf q count acc fp in fp = [] \/ (length fp' < length fp)%nat.
Proof.
  enough (H : forall n fp q count acc, (length fp <= n)%nat -> let '(_, _, _, fp') := read_line conf q count acc fp in fp = [] \/ (length fp' < length fp)%nat)
    by (by apply (H (length fp))).
  clear. intros n. induction n as [|n IH]; intros fp q count acc Hn; destruct fp as [|c fp]; cbn [length] in Hn; [by left|lia|by left|].
  cbn [read_line]. destruct (Ascii.eqb c newline); [right; cbn; lia|]. cbv zeta.
  assert (Hs : forall q count acc fp', (length fp' <= n)%nat -> (length fp' <= length fp)%nat ->
    let '(_, _, _, fp2) := read_line conf q count acc fp' in c :: fp = [] \/ (length fp2 < length (c :: fp))%nat).
  { intros q' count' acc' [|c' fp'] H1 H2; [right; cbn; lia|]. specialize (IH (c' :: fp') q' count' acc' H1).
    destruct (read_line conf q' count' acc' (c' :: fp')) as [[[? ?] ?] fp2]. right. cbn [length] in *. destruct IH as [IH|IH]; [done|lia]. }
  destruct (conf && _ && _).
  - pose proof (skip_comment_shorter count fp) as Hc. destruct (skip_comment count fp) as [[? ?] fp']. right. cbn in *. lia.
  - destruct (conf && _); [|apply Hs; lia]. destruct fp as [|c2 fp]; [right; cbn; lia|]. cbn [length] in *.
    destruct (Ascii.eqb c2 newline); [apply Hs; cbn; lia|]. destruct (is_space c2); apply Hs; cbn; lia.
Qed.

Lemma getNextLineD_shorter conf count fp : let '(l, _, fp') := getNextLineD_ conf count fp in l = None \/ (length fp' < length fp)%nat.
Proof.
  unfold getNextLineD_. pose proof (read_line_shorter conf false count [] fp) as H.
  destruct (read_line conf false count [] fp) as [[[line eof] count'] fp'] eqn:E. destruct H as [->|H].
  - cbn in E. injection E as <- <- _ <-. by left.
  - destruct (_ || _); [by right|by left].
Qed.

(** The reader ends on every file: one step per character left is enough. *)
Lemma getNextLine_total conf fp : is_Some (getNextLine_ conf fp).
Proof.
  unfold getNextLine_. enough (H : forall fuel count fp, (length fp < fuel)%nat -> is_Some (getNextLineC_ fuel conf count fp)).
  { destruct (H (S (length fp)) 0 fp ltac:(lia)) as [[[l c] f] ->]. by eexists. }
  intros fuel. induction fuel as [|k IH]; intros count w Hf; [lia|]. cbn [getNextLineC_].
  pose proof (getNextLineD_shorter conf count w) as H. destruct (getNextLineD_ conf count w) as [[[l|] c'] w']; [|by eexists].
  destruct H as [H|H]; [done|]. destruct (forallb _ l); [|by eexists]. apply IH. lia.
Qed.

(** ** Writing *)

(** Computations with the same effect. *)
Definition eqM {S A} (m m' : M S A) : Prop := forall s, m s = m' s.
#[global] Instance eqM_equiv S A : Equivalence (@eqM S A).
Proof. split; unfold eqM; [done|congruence|congruence]. Qed.
#[global] Instance bind_proper S A B : Proper (eqM ==> pointwise_relation A eqM ==> eqM) (@bind S A B).
Proof. intros m m' Hm f f' Hf s. unfold bind. rewrite Hm. destruct (m' s) as [[[code|a] s']|]; try done. apply Hf. Qed.

Lemma bind_assoc {S A B C} (m : M S A) (f : A -> M S B) (g : B -> M S C) :
  eqM (bind (bind m f) g) (bind m (fun a => bind (f a) g)).
Proof. intros s. unfold bind. by destruct (m s) as [[[code|a] s']|]. Qed.

Lemma bind_ret {S A B} (a : A) (f : A -> M S B) : eqM (bind (ret a) f) (f a).
Proof. done. Qed.

Lemma wr_nil code : eqM (wr code []) (ret tt).
Proof. intros [t [k|]]; unfold wr; cbn; rewrite app_nil_r; [by rewrite Nat.sub_0_r|done]. Qed.

(** Writing one text and then another is writing both. *)
Lemma wr_app code t u : eqM (wr code t;; wr code u) (wr code (t ++ u)).
Proof.
  intros [w [k|]]; unfold bind, wr; cbn [room written]; [|by rewrite app_assoc].
  rewrite length_app. destruct (Nat.leb_spec (length t) k) as [Hk|Hk]; cbn [room written].
  - destruct (Nat.leb_spec (length u) (k - length t)), (Nat.leb_spec (length t + length u) k); try lia.
    + rewrite <- app_assoc. do 4 f_equal. lia.
    + rewrite take_app_ge, app_assoc by lia. done.
  - destruct (Nat.leb_spec (length t + length u) k); [lia|]. by rewrite take_app_le by lia.
Qed.

Lemma wr_step code (m k : M wfile unit) t u : eqM m (wr code t) -> eqM k (wr code u) -> eqM (m;; k) (wr code (t ++ u)).
Proof. intros Hm Hk. transitivity (wr code t;; wr code u); [|apply wr_app]. apply bind_proper; [done|]. by intros ?. Qed.

Definition qstr (s : list ascii) : list ascii := quote :: qtext s ++ [quote].

Lemma put_quoted_wr code s : eqM (put_quoted code s) (wr code (qtext s)).
Proof.
  induction s as [|c s IH]; [symmetry; apply wr_nil|]. cbn [put_quoted qtext mbind list_bind]. fold (qtext s).
  destruct (Ascii.eqb_spec c quote) as [->|].
  - apply (wr_step code _ _ [quote] (quote :: qtext s)); [done|]. by apply (wr_step code _ _ [quote]).
  - etransitivity; [apply bind_ret|]. by apply (wr_step code _ _ [c]).
Qed.

Lemma addQStr_wr code s : eqM (addQStr code (Some s)) (wr code (" "%char :: qstr s)).
Proof.
  unfold addQStr, qstr. apply (wr_step code _ _ [" "%char]); [done|]. apply (wr_step code _ _ [quote]); [done|].
  apply wr_step; [apply put_quoted_wr|done].
Qed.
