(* ===== verification/Conf.v ===== *)
(** * Configuration sections, [lsf/intlib/conf.c] and [lsf/lib/lib.confmisc.c]

    The reading of the sections of configuration files into lists of keywords: the
    tables with a line of keywords and rows of values, the lists of assignments, and
    the lists of administrators.  The two files have the same functions with a few
    differences; those of [lib.confmisc.c] are in [Module Confmisc] where they
    differ.  Values in parentheses are read by [getNextValueQ_] of
    [lsf/lib/lib.words.c]. *)

From Stdlib Require Import Ascii.
From S2P Require Import Prelude CString Stdio Words.

Definition LSE_NO_ERR : Z := 0.
Definition LSE_CONF_SYNTAX : Z := 67.

(** ** Values *)

(** Up to the first, or the last, occurrence of a character; [None] if there is
    none. *)
Fixpoint strchr_cut (c : ascii) (w : list ascii) : option (list ascii) :=
  match w with
  | [] => None
  | d :: w => if Ascii.eqb d c then Some [] else (fun u => d :: u) <$> strchr_cut c w
  end.
Fixpoint strrchr_cut (c : ascii) (w : list ascii) : option (list ascii) :=
  match w with
  | [] => None
  | d :: w => match strrchr_cut c w with
              | Some u => Some (d :: u)
              | None => if Ascii.eqb d c then Some [] else None
              end
  end.

(** The words up to the closing character; the value is in a buffer of [alloc]
    bytes, of which [valuelen] are accounted for.  Writing past the buffer, or
    losing the end of the value with it, is undefined. *)
Fixpoint value_loop (fuel : nat) (ch2 : ascii) (value : list ascii) (valuelen alloc : Z) (line : list ascii)
  : option (option (list ascii) * Z * list ascii) :=
  match fuel with
  | O => None
  | S fuel =>
      '(word, line) ← getNextWord_ line;
      match word with
      | None => Some (None, LSE_CONF_SYNTAX, line)
      | Some sp =>
          if bool_decide (sp = [ch2]) then Some (Some value, LSE_NO_ERR, line) else
          let grow := valuelen - 1 <? Z.of_nat (length value) + Z.of_nat (length sp) + 2 in
          let alloc := if grow then valuelen + Z.of_nat (length sp) + MAXLINELEN else alloc in
          let valuelen := if grow then valuelen + MAXLINELEN else valuelen in
          let value' := value ++ " "%char :: sp in
          if alloc <=? Z.of_nat (length value) then None
          else if alloc <=? Z.of_nat (length value') then None
          else match strrchr_cut ch2 value' with
               | Some v => Some (Some v, LSE_NO_ERR, line)
               | None => value_loop fuel ch2 value' valuelen alloc line
               end
      end
  end.

(** The value or NULL, [lserrno], and the rest of the line. *)
Definition getNextValueQ_ (ch1 ch2 : ascii) (line : list ascii) : option (option (list ascii) * Z * list ascii) :=
  '(word, line) ← getNextWord_ line;
  match word with
  | None => Some (None, LSE_NO_ERR, line)
  | Some [] => None
  | Some (c :: w) =>
      if negb (Ascii.eqb c ch1) then Some (Some (c :: w), LSE_NO_ERR, line) else
      '(word, line) ← (match w with [] => getNextWord_ line | _ => Some (Some w, line) end);
      match word with
      | None => Some (None, LSE_CONF_SYNTAX, line)
      | Some sp =>
          let n := Z.of_nat (length sp) in
          let valuelen := if MAXLINELEN <? n then 2 * n else MAXLINELEN in
          if valuelen <=? n then None else
          match strchr_cut ch2 sp with
          | Some v => Some (Some v, LSE_NO_ERR, line)
          | None => value_loop (S (length line)) ch2 sp valuelen valuelen line
          end
      end
  end.

Definition getNextValue : list ascii -> option (option (list ascii) * Z * list ascii) := getNextValueQ_ "(" ")".

(** ** Keywords *)

Definition tolower (c : ascii) : ascii :=
  let n := N_of_ascii c in if (65 <=? n)%N && (n <=? 90)%N then Ascii.ascii_of_N (n + 32) else c.
Definition strcasecmp (a b : list ascii) : bool := bool_decide (map tolower a = map tolower b).

(** A pointer to a string: null, or to one that is there, or has been freed. *)
Inductive cptr := Null | Str (s : list ascii) | Freed.
Record keymap := Keymap { key : list ascii; val : cptr; position : Z }.
Definition set_val (v : cptr) (k : keymap) : keymap := Keymap (key k) v (position k).
Definition set_position (p : Z) (k : keymap) : keymap := Keymap (key k) (val k) p.

Definition is_null (v : cptr) : bool := match v with Null => true | _ => false end.
(** [free] of a pointer that is not null; freeing twice is undefined. *)
Definition free (v : cptr) : option unit := match v with Freed => None | _ => Some tt end.

(** Whether the word is a keyword that has no position yet; the list with it. *)
Fixpoint place_key (word : list ascii) (pos : Z) (l : list keymap) : bool * list keymap :=
  match l with
  | [] => (false, [])
  | k :: l =>
      if strcasecmp word (key k) then
        if position k =? -1 then (true, set_position pos k :: l) else (false, k :: l)
      else let '(b, l) := place_key word pos l in (b, k :: l)
  end.

Fixpoint match_loop (fuel : nat) (keyList : list keymap) (sp : list ascii) (pos : Z) : option (bool * list keymap) :=
  match fuel with
  | O => None
  | S fuel =>
      '(word, sp) ← getNextWord_ sp;
      match word with
      | None => Some (true, keyList)
      | Some word =>
          let '(found, keyList) := place_key word pos keyList in
          if found : bool then match_loop fuel keyList sp (pos + 1) else Some (false, keyList)
      end
  end.

Definition keyMatch (keyList : list keymap) (line : list ascii) (exact : bool) : option (bool * list keymap) :=
  '(ok, keyList) ← match_loop (S (length line)) (map (set_position (-1)) keyList) line 0;
  Some (ok && (negb exact || forallb (fun k => negb (position k =? -1)) keyList), keyList).

(** ** Rows of a table *)

(** [-] stands for the empty value. *)
Definition dash (value : list ascii) : list ascii := if bool_decide (value = ["-"%char]) then [] else value.

(** The first keyword with this position gets the value. *)
Fixpoint place_value (value : list ascii) (pos : Z) (l : list keymap) : option (list keymap) :=
  match l with
  | [] => None
  | k :: l => if position k =? pos then Some (set_val (Str (dash value)) k :: l) else cons k <$> place_value value pos l
  end.

Definition clear (l : list keymap) : list keymap := map (set_val Null) l.

(** [inl] is a position without a keyword. *)
Fixpoint values_loop (fuel : nat) (keyList : list keymap) (line : list ascii) (pos : Z) : option (list keymap + list keymap * Z) :=
  match fuel with
  | O => None
  | S fuel =>
      '(value, _, line) ← getNextValue line;
      match value with
      | None => Some (inr (keyList, pos))
      | Some value =>
          match place_value value pos keyList with
          | None => Some (inl keyList)
          | Some keyList => values_loop fuel keyList line (pos + 1)
          end
      end
  end.

Definition numv (l : list keymap) : Z := countb (fun k => negb (position k =? -1)) l.

(** 0 or -1, and the list. *)
Definition mapValues (keyList : list keymap) (line : list ascii) : option (Z * list keymap) :=
  o ← values_loop (S (length line)) (clear keyList) line 0;
  Some (match o with
        | inl l => (-1, clear l)
        | inr (l, pos) => if pos =? numv keyList then (0, l) else (-1, clear l)
        end).

(** ** Sections *)

Definition word_is (name : list ascii) (word : option (list ascii)) : option bool :=
  match word with Some w => Some (strcasecmp w name) | None => None end.
Definition END_WORD : list ascii := ["e"; "n"; "d"]%char.
Definition BEGIN_WORD : list ascii := ["b"; "e"; "g"; "i"; "n"]%char.

(** The name behind [end] is only looked at for a message. *)
Definition isSectionEnd (linep : list ascii) : option bool :=
  '(word, linep) ← getNextWord_ linep;
  b ← word_is END_WORD word;
  if b : bool then _ ← getNextWord_ linep; Some true else Some false.

Definition next_line (LineNum : Z) (fp : list ascii) : option (option (list ascii) * Z * list ascii) :=
  getNextLineC_ (S (length fp)) true LineNum fp.

(** What is behind [begin] in the next line that begins so. *)
Fixpoint begin_loop (fuel : nat) (LineNum : Z) (fp : list ascii) : option (option (list ascii) * Z * list ascii) :=
  match fuel with
  | O => None
  | S fuel =>
      '(sp, LineNum, fp) ← next_line LineNum fp;
      match sp with
      | None => Some (None, LineNum, fp)
      | Some sp =>
          '(wp, sp) ← getNextWord_ sp;
          if match wp with Some w => strcasecmp w BEGIN_WORD | None => false end then Some (Some sp, LineNum, fp) else begin_loop fuel LineNum fp
      end
  end.
Definition getBeginLine (LineNum : Z) (fp : list ascii) := begin_loop (S (length fp)) LineNum fp.

Fixpoint skip_loop (fuel : nat) (LineNum : Z) (fp : list ascii) : option (Z * list ascii) :=
  match fuel with
  | O => None
  | S fuel =>
      '(cp, LineNum, fp) ← next_line LineNum fp;
      match cp with
      | None => Some (LineNum, fp)
      | Some cp => b ← isSectionEnd cp; if b : bool then Some (LineNum, fp) else skip_loop fuel LineNum fp
      end
  end.
Definition doSkipSection (LineNum : Z) (fp : list ascii) : option (Z * list ascii) := skip_loop (S (length fp)) LineNum fp.

(** -1 if there is no such keyword. *)
Fixpoint putValue (keyList : list keymap) (k value : list ascii) : option (Z * list keymap) :=
  match keyList with
  | [] => Some (-1, [])
  | e :: l =>
      if strcasecmp (key e) k then _ ← free (val e); Some (0, set_val (Str (dash value)) e :: l)
      else '(r, l) ← putValue l k value; Some (r, e :: l)
  end.

(** The text behind the first occurrence of a character. *)
Fixpoint behind (c : ascii) (w : list ascii) : option (list ascii) :=
  match w with [] => None | d :: w => if Ascii.eqb d c then Some w else behind c w end.

Definition line_key (linep : list ascii) : option (list ascii) :=
  '(word, _) ← getNextWord_ linep;
  match word with None => None | Some w => Some (match strchr_cut "=" w with Some u => u | None => w end) end.

(** The value of an assignment, without the parentheses around it. *)
Definition unparen (value : list ascii) : list ascii :=
  match value with
  | c :: v => if Ascii.eqb c "(" then match strrchr_cut ")" v with Some u => u | None => v end else value
  | [] => []
  end.
Definition skip_spaces (w : list ascii) : list ascii := skip_while (fun c => Ascii.eqb c " ") w.

(** The end of a section of which all keywords may be required; the strings of a
    section that is not complete are freed. *)
Definition section_done (freed : cptr) (keyList : list keymap) (exact : bool) : option (Z * list keymap) :=
  if negb exact || forallb (fun k => negb (is_null (val k))) keyList then Some (0, keyList) else
  if forallb (fun k => match val k with Freed => false | _ => true end) keyList then
    Some (-1, map (fun k => if is_null (val k) then k else set_val freed k) keyList)
  else None.

(** 0 or -1, the list, the line number and what is left of the file. *)
Fixpoint readHvalues (fuel : nat) (keyList : list keymap) (linep : list ascii) (LineNum : Z) (fp : list ascii) (exact : bool)
  : option (Z * list keymap * Z * list ascii) :=
  match fuel with
  | O => None
  | S fuel =>
      k ← line_key linep;
      match behind "=" linep with
      | None => '(LineNum, fp) ← doSkipSection LineNum fp; Some (-1, keyList, LineNum, fp)
      | Some value =>
          let value := skip_spaces value in
          match value with
          | [] => Some (-1, keyList, LineNum, fp)
          | _ =>
              '(r, keyList) ← putValue keyList k (unparen value);
              if r <? 0 then '(LineNum, fp) ← doSkipSection LineNum fp; Some (-1, keyList, LineNum, fp) else
              '(linep, LineNum, fp) ← next_line LineNum fp;
              match linep with
              | None => Some (-1, keyList, LineNum, fp)
              | Some linep =>
                  b ← isSectionEnd linep;
                  if b : bool then '(r, keyList) ← section_done Freed keyList exact; Some (r, keyList, LineNum, fp)
                  else readHvalues fuel keyList linep LineNum fp exact
              end
          end
      end
  end.

(** ** Administrators *)

Record passwd := Passwd { pw_name : list ascii; pw_uid : Z; pw_gid : Z }.

(** The arrays have [numAds] elements, of which [nAdmins] are in use. *)
Record admins := Admins { nAdmins : Z; adminIds : list Z; adminGIds : list Z; adminNames : list (list ascii) }.

Definition isInlist (names : list (list ascii)) (userName : list ascii) : bool := existsb (fun n => bool_decide (n = userName)) names.

(** A new administrator at the end of the arrays, which are doubled when they are
    full. *)
Definition add_admin (name : list ascii) (uid gid : Z) (a : admins) (numAds : Z) : option (admins * Z) :=
  if nAdmins a <? numAds then
    let a := Admins (nAdmins a + 1) (adminIds a ++ [uid]) (adminGIds a ++ [gid]) (adminNames a ++ [name]) in
    Some (a, if numAds <=? nAdmins a then numAds * 2 else numAds)
  else None.

Section Users.
(** The data base of users. *)
Context (getpwnam : list ascii -> option passwd).
Definition putInLists (word : list ascii) (a : admins) (numAds : Z) : option (Z * admins * Z) :=
  match getpwnam word with
  | None => Some (0, a, numAds)
  | Some pw =>
      if isInlist (adminNames a) (pw_name pw) then Some (0, a, numAds) else
      '(a, numAds) ← add_admin (pw_name pw) (pw_uid pw) (pw_gid pw) a numAds; Some (0, a, numAds)
  end.
End Users.

Module Confmisc.

(** Old values are freed first. *)
Definition mapValues (keyList : list keymap) (line : list ascii) : option (Z * list keymap) :=
  if forallb (fun k => match val k with Freed => false | _ => true end) keyList then Conf.mapValues keyList line else None.

(** A line without a value or a keyword is passed over. *)
Fixpoint readHvalues (fuel : nat) (keyList : list keymap) (linep : list ascii) (LineNum : Z) (fp : list ascii) (exact : bool)
  : option (Z * list keymap * Z * list ascii) :=
  match fuel with
  | O => None
  | S fuel =>
      k ← line_key linep;
      keyList ← (match behind "=" linep with
                 | None => Some keyList
                 | Some value => snd <$> putValue keyList k (unparen (skip_spaces value))
                 end);
      '(linep, LineNum, fp) ← next_line LineNum fp;
      match linep with
      | None => Some (-1, keyList, LineNum, fp)
      | Some linep =>
          b ← isSectionEnd linep;
          if b : bool then '(r, keyList) ← section_done Null keyList exact; Some (r, keyList, LineNum, fp)
          else readHvalues fuel keyList linep LineNum fp exact
      end
  end.

Section Users.
Context (getpwlsfuser_ : list ascii -> option passwd).
Definition putInLists (word : list ascii) (a : admins) (numAds : Z) : option (Z * admins * Z) :=
  let pw := getpwlsfuser_ word in
  if isInlist (adminNames a) word then Some (0, a, numAds) else
  '(a, numAds) ← add_admin word (match pw with None => -1 | Some p => pw_uid p end) (match pw with None => -1 | Some p => pw_gid p end) a numAds;
  Some (0, a, numAds).
End Users.

End Confmisc.
