(* ===== verification/ConfOk.v ===== *)
(** * Configuration sections: what is read

    A table has a line of keywords and rows of values; [keyMatch] accepts exactly
    the lines of distinct keywords of the list, and [mapValues] then gives every
    keyword the value of its column.  A section of assignments gives every keyword
    its last value. *)

From Stdlib Require Import Ascii.
From S2P Require Import Prelude CString Stdio Words Conf.

(** ** Words *)

Definition blank (b : list ascii) : Prop := Forall (fun c => is_space c = true) b.
Definition good_word (w : list ascii) : Prop := w <> [] /\ Forall (fun c => is_space c = false) w /\ Z.of_nat (length w) < word_buf.
Definition stops (r : list ascii) : Prop := match r with [] => True | c :: _ => is_space c = true end.

Lemma skip_while_blank b r : blank b -> skip_while is_space (b ++ r) = skip_while is_space r.
Proof. induction 1 as [|c b Hc _ IH]; [done|]. cbn [app skip_while]. by rewrite Hc. Qed.

Lemma take_until_space w r : Forall (fun c => is_space c = false) w -> stops r -> take_until is_space (w ++ r) = (w, r).
Proof.
  induction 1 as [|c w Hc _ IH]; intros Hr.
  - destruct r as [|c r]; [done|]. cbn in Hr. cbn [app take_until]. by rewrite Hr.
  - cbn [app take_until]. rewrite Hc, IH by done. done.
Qed.

Lemma getNextWord_at b w r : blank b -> good_word w -> stops r -> getNextWord_ (b ++ w ++ r) = Some (Some w, r).
Proof.
  intros Hb (Hne & Hw & Hl) Hr. unfold getNextWord_, next_word. rewrite skip_while_blank by done.
  destruct w as [|c w]; [done|]. replace (skip_while is_space ((c :: w) ++ r)) with ((c :: w) ++ r).
  2: { cbn [app skip_while]. inversion Hw as [|? ? Hc _]. by rewrite Hc. }
  rewrite take_until_space by done. by rewrite (proj2 (Z.ltb_lt _ _)).
Qed.

Lemma getNextWord_none b : blank b -> getNextWord_ b = Some (None, []).
Proof. intros Hb. unfold getNextWord_, next_word. rewrite <- (app_nil_r b), skip_while_blank by done. done. Qed.

(** Words with the blanks before each. *)
Fixpoint spread (l : list (list ascii * list ascii)) : list ascii := match l with [] => [] | (b, w) :: l => b ++ w ++ spread l end.
Definition spaced (l : list (list ascii * list ascii)) : Prop := Forall (fun p => blank (fst p)) l /\ Forall (fun p => fst p <> []) (tail l).

Lemma spaced_tail p l : spaced (p :: l) -> spaced l.
Proof. intros [H1 H2]. inversion H1. split; [done|]. cbn in H2. destruct l; [constructor|]. by inversion H2. Qed.

Lemma spaced_stops p l : spaced (p :: l) -> stops (spread l).
Proof.
  intros [H1 H2]. destruct l as [|[b w] l]; [done|]. cbn in H2. inversion H1 as [|? ? _ H1']. inversion H1' as [|? ? Hb _]. inversion H2 as [|? ? Hne _].
  cbn in *. destruct b as [|c b]; [done|]. by inversion Hb.
Qed.

Lemma spread_word b w l : spaced ((b, w) :: l) -> good_word w -> getNextWord_ (spread ((b, w) :: l)) = Some (Some w, spread l).
Proof. intros Hs Hw. apply getNextWord_at; [by destruct Hs as [Hb _]; inversion Hb|done|by eapply spaced_stops]. Qed.

Lemma spread_length l : Forall (fun p => snd p <> []) l -> (length l <= length (spread l))%nat.
Proof.
  induction 1 as [|[b w] l Hw _ IH]; [done|]. cbn [spread length fst snd] in *. rewrite !length_app. destruct w; [done|]. cbn [length]. lia.
Qed.

(** ** Values *)

(** A value is a word, or words in parentheses, which may be none, with blanks
    before each and before the closing parenthesis. *)
Inductive cell := Word (w : list ascii) | Group (ws : list (list ascii * list ascii)) (b : list ascii).
Definition group_text (ws : list (list ascii * list ascii)) (b r : list ascii) : list ascii := spread ws ++ b ++ ")"%char :: r.
Definition cell_text (c : cell) : list ascii := match c with Word w => w | Group ws b => "("%char :: group_text ws b [] end.

(** The words of a group with one blank between them. *)
Definition joined (ws : list (list ascii)) : list ascii := match ws with [] => [] | w :: ws => w ++ (ws ≫= cons " "%char) end.
Definition cell_value (c : cell) : list ascii := match c with Word w => w | Group ws _ => joined (map snd ws) end.

(** A word of a group has no closing parenthesis, and with one it is shorter than
    a line. *)
Definition group_word (w : list ascii) : Prop :=
  w <> [] /\ Forall (fun c => is_space c = false) w /\ Forall (fun c => Ascii.eqb c ")" = false) w /\ Z.of_nat (length w) + 1 < MAXLINELEN.
Definition group_ok (ws : list (list ascii * list ascii)) (b : list ascii) : Prop :=
  Forall group_word (map snd ws) /\ spaced ws /\ blank b.
Definition cell_ok (c : cell) : Prop :=
  match c with
  | Word w => good_word w /\ match w with c :: _ => Ascii.eqb c "(" = false | [] => True end
  | Group ws b => group_ok ws b
  end.

Lemma strchr_cut_at c w r : Forall (fun d => Ascii.eqb d c = false) w -> strchr_cut c (w ++ c :: r) = Some w.
Proof. induction 1 as [|d w Hd _ IH]; cbn [app strchr_cut]; [by rewrite Ascii.eqb_refl|]. by rewrite Hd, IH. Qed.
Lemma strchr_cut_none c w : Forall (fun d => Ascii.eqb d c = false) w -> strchr_cut c w = None.
Proof. induction 1 as [|d w Hd _ IH]; [done|]. cbn [strchr_cut]. by rewrite Hd, IH. Qed.
Lemma strrchr_cut_last c w : strrchr_cut c (w ++ [c]) = Some w.
Proof. induction w as [|d w IH]; cbn [app strrchr_cut]; [by rewrite Ascii.eqb_refl|]. by rewrite IH. Qed.
Lemma strrchr_cut_none c w : Forall (fun d => Ascii.eqb d c = false) w -> strrchr_cut c w = None.
Proof. induction 1 as [|d w Hd _ IH]; [done|]. cbn [strrchr_cut]. by rewrite IH, Hd. Qed.

Definition open_ (c : ascii) : Prop := Ascii.eqb c ")" = false.

(** The first word of a group, with the parenthesis if that follows at once. *)
Definition head_blank (ws : list (list ascii * list ascii)) (b : list ascii) : list ascii := match ws with [] => b | (a, _) :: _ => a end.
Definition head_word (ws : list (list ascii * list ascii)) (b : list ascii) : list ascii :=
  match ws, b with [], _ => [")"%char] | [(_, w)], [] => w ++ [")"%char] | (_, w) :: _, _ => w end.
Definition head_rest (ws : list (list ascii * list ascii)) (b r : list ascii) : list ascii :=
  match ws, b with [], _ => r | [_], [] => r | _ :: ws, _ => group_text ws b r end.

Lemma group_text_head ws b r : group_text ws b r = head_blank ws b ++ head_word ws b ++ head_rest ws b r.
Proof.
  unfold group_text. destruct ws as [|[a w] [|[a' w'] ws]]; [done| |]; (destruct b as [|c b]; cbn [spread app head_blank head_word head_rest]);
    unfold group_text; cbn [spread]; by rewrite ?app_nil_r, <- ?app_assoc.
Qed.

Lemma group_ok_tail p ws b : group_ok (p :: ws) b -> group_ok ws b.
Proof. intros (H1 & H2 & H3). split; [by inversion H1|]. split; [by eapply spaced_tail|done]. Qed.

Lemma head_word_ok ws b : group_ok ws b -> blank (head_blank ws b) /\ head_word ws b <> [] /\
  Forall (fun c => is_space c = false) (head_word ws b) /\ Z.of_nat (length (head_word ws b)) < MAXLINELEN.
Proof.
  intros (H1 & [H2 _] & H3). destruct ws as [|[a w] ws]; [split; [done|]; split; [done|]; split; [by repeat constructor|done]|].
  inversion H1 as [|? ? (Hw1 & Hw2 & _ & Hw4) _]. inversion H2 as [|? ? Hb _]. subst. split; [done|]. cbn [snd] in *.
  assert (H : head_word ((a, w) :: ws) b = w \/ head_word ((a, w) :: ws) b = w ++ [")"%char]) by (destruct ws, b; auto).
  destruct H as [-> | ->]; [split; [done|]; split; [done|lia]|]. split; [by destruct w|]. rewrite length_app. cbn [length]. split; [|lia].
  apply Forall_app. split; [done|]. by repeat constructor.
Qed.

Lemma head_good ws b : group_ok ws b -> good_word (head_word ws b).
Proof.
  intros (_ & H1 & H2 & H3)%head_word_ok. split; [done|]. split; [done|]. unfold word_buf, MAXLINELEN in *. lia.
Qed.

Lemma head_rest_stops ws b r : group_ok ws b -> stops r -> stops (head_rest ws b r).
Proof.
  intros (_ & Hs & Hb) Hr. destruct ws as [|p [|[a w] ws]]; [done| |].
  - destruct b as [|c b]; [done|]. by inversion Hb.
  - pose proof (spaced_stops _ _ Hs) as H. destruct Hs as [_ Hne]. inversion Hne as [|? ? Ha _]. subst. cbn [fst] in Ha. cbn [head_rest].
    unfold group_text. cbn [spread] in *. by destruct a.
Qed.

(** The loop appends word after word, and the buffer is always large enough. *)
Lemma value_loop_reads ws b : forall fuel value valuelen alloc r,
  group_ok ws b -> Forall open_ value -> stops r ->
  Z.of_nat (length value) < valuelen <= alloc -> (length ws < fuel)%nat ->
  value_loop fuel ")" value valuelen alloc (group_text ws b r) = Some (Some (value ++ (map snd ws ≫= cons " "%char)), LSE_NO_ERR, r).
Proof.
  induction ws as [|[a w] ws IH]; intros fuel value valuelen alloc r Hok Hv Hr Hb Hf; (destruct fuel as [|fuel]; [cbn in Hf; lia|]);
    cbn [value_loop]; rewrite group_text_head, getNextWord_at; [|by apply head_word_ok|by apply head_good|by apply head_rest_stops| |by apply head_word_ok|by apply head_good|by apply head_rest_stops].
  - cbn [mbind option_bind head_word head_rest map list_bind]. rewrite bool_decide_eq_true_2 by done. by rewrite app_nil_r.
  - pose proof (head_word_ok _ _ Hok) as (_ & _ & _ & Hl). pose proof Hok as (Hg & _). inversion Hg as [|? ? (Hw1 & _ & Hw3 & _) _]. subst. cbn [snd] in *.
    set (sp := head_word _ b) in *. cbn [mbind option_bind]. rewrite bool_decide_eq_false_2.
    2: { assert (H : exists x, sp = w ++ x) by (subst sp; destruct ws, b; cbn [head_word]; eauto; exists []; by rewrite app_nil_r).
         destruct H as [x ->]. destruct w as [|c w]; [done|]. inversion Hw3 as [|? ? Hc _]. intros E. injection E as -> _. by rewrite Ascii.eqb_refl in Hc. }
    set (grow := valuelen - 1 <? _). set (alloc' := if grow then _ else alloc). set (valuelen' := if grow then valuelen + MAXLINELEN else valuelen).
    assert (Hb' : Z.of_nat (length (value ++ " "%char :: sp)) < valuelen' <= alloc').
    { rewrite length_app. cbn [length]. subst valuelen' alloc' grow. destruct (Z.ltb_spec (valuelen - 1) (Z.of_nat (length value) + Z.of_nat (length sp) + 2)); lia. }
    assert (Ha : Z.of_nat (length value) < alloc') by (rewrite length_app in Hb'; lia).
    rewrite (proj2 (Z.leb_gt _ _)), (proj2 (Z.leb_gt _ _)) by lia. clearbody alloc' valuelen'. clear grow.
    assert (Hglue : ws = [] /\ b = [] \/ sp = w /\ head_rest ((a, w) :: ws) b r = group_text ws b r)
      by (subst sp; destruct ws, b; auto).
    destruct Hglue as [[-> ->]|[Es ->]].
    + subst sp. cbn [head_word head_rest map mbind list_bind]. rewrite app_nil_r.
      replace (value ++ " "%char :: w ++ [")"%char]) with ((value ++ " "%char :: w) ++ [")"%char]) by (by rewrite <- app_assoc). by rewrite strrchr_cut_last.
    + assert (Ho : Forall open_ (value ++ " "%char :: sp)) by (rewrite Es; apply Forall_app; split; [done|]; by constructor).
      rewrite strrchr_cut_none by done. rewrite IH; [|by eapply group_ok_tail|done|done|done|cbn in Hf |- *; lia].
      rewrite Es. cbn [map mbind list_bind]. by rewrite <- app_assoc.
Qed.

Lemma group_text_fuel ws b r : group_ok ws b -> (length ws < length (group_text ws b r))%nat.
Proof.
  intros (Hg & _). unfold group_text. rewrite !length_app. cbn [length]. enough (length ws <= length (spread ws))%nat by lia. apply spread_length.
  apply (proj1 (Forall_map snd group_word ws)) in Hg. eapply Forall_impl; [exact Hg|]. by intros p [? _].
Qed.

(** Once the first word is found. *)
Lemma group_read ws b r : group_ok ws b -> stops r ->
  (let sp := head_word ws b in let line := head_rest ws b r in
   let n := Z.of_nat (length sp) in
   let valuelen := if MAXLINELEN <? n then 2 * n else MAXLINELEN in
   if valuelen <=? n then None else
   match strchr_cut ")" sp with
   | Some v => Some (Some v, LSE_NO_ERR, line)
   | None => value_loop (S (length line)) ")" sp valuelen valuelen line
   end) = Some (Some (joined (map snd ws)), LSE_NO_ERR, r).
Proof.
  intros Hok Hr. pose proof (head_word_ok _ _ Hok) as (_ & _ & _ & Hl). cbv zeta. rewrite (proj2 (Z.ltb_ge _ _)), (proj2 (Z.leb_gt _ _)) by lia.
  destruct ws as [|[a w] ws]; [done|]. pose proof Hok as (Hg & _). inversion Hg as [|? ? (_ & _ & Hw3 & _) _]. subst. cbn [snd] in *.
  assert (Hglue : ws = [] /\ b = [] \/ head_word ((a, w) :: ws) b = w /\ head_rest ((a, w) :: ws) b r = group_text ws b r)
    by (destruct ws, b; auto).
  destruct Hglue as [[-> ->]|[E1 ->]]; [|rewrite E1 in *].
  - cbn [head_word head_rest map joined mbind list_bind snd]. rewrite strchr_cut_at by done. by rewrite app_nil_r.
  - rewrite strchr_cut_none by done. cbn [map joined snd]. apply group_ok_tail in Hok. apply value_loop_reads; try done.
    pose proof (group_text_fuel ws b r Hok). lia.
Qed.

(** A value is read back, whatever its length. *)
Lemma getNextValue_cell b c r : blank b -> cell_ok c -> stops r ->
  getNextValue (b ++ cell_text c ++ r) = Some (Some (cell_value c), LSE_NO_ERR, r).
Proof.
  intros Hb Hc Hr. unfold getNextValue, getNextValueQ_. destruct c as [w|ws e].
  - destruct Hc as [Hw Hh]. cbn [cell_text cell_value]. rewrite getNextWord_at by done. cbn [mbind option_bind].
    destruct w as [|c w]; [by destruct Hw|]. by rewrite Hh.
  - cbn [cell_ok cell_text cell_value] in *. pose proof (head_word_ok _ _ Hc) as (Hh1 & Hh2 & Hh3 & Hh4).
    replace (("("%char :: group_text ws e []) ++ r) with ("("%char :: group_text ws e r) by (unfold group_text; cbn [app]; by rewrite <- !app_assoc).
    pose proof (group_text_head ws e r) as Et. pose proof (head_rest_stops ws e r Hc Hr) as Hs. destruct (head_blank ws e) as [|c0 h] eqn:Eh.
    + cbn [app] in Et. rewrite Et. change ("("%char :: head_word ws e ++ head_rest ws e r) with (("("%char :: head_word ws e) ++ head_rest ws e r).
      rewrite getNextWord_at; [|done| |done].
      2: { split; [done|]. split; [by constructor|]. unfold word_buf, MAXLINELEN in *. cbn [length]. lia. }
      cbn [mbind option_bind]. rewrite Ascii.eqb_refl. cbn [negb]. destruct (head_word ws e) as [|c1 h1] eqn:Ew; [done|]. rewrite <- Ew. cbn [mbind option_bind].
      by apply group_read.
    + change ("("%char :: group_text ws e r) with (["("%char] ++ group_text ws e r). rewrite getNextWord_at; [|done| |].
      2: { split; [done|]. split; [by repeat constructor|done]. }
      2: { rewrite Et. cbn. by inversion Hh1. }
      cbn [mbind option_bind]. rewrite Ascii.eqb_refl. cbn [negb]. rewrite Et, getNextWord_at; [|done|by apply head_good|done]. cbn [mbind option_bind].
      by apply group_read.
Qed.

(** ** The line of keywords *)

Definition fold_case (w : list ascii) : list ascii := map tolower w.

Lemma strcasecmp_fold a b : strcasecmp a b = bool_decide (fold_case a = fold_case b).
Proof. done. Qed.

(** The column of a keyword. *)
Fixpoint column (words : list (list ascii)) (k : list ascii) : option nat :=
  match words with
  | [] => None
  | w :: ws => if strcasecmp w k then Some O else S <$> column ws k
  end.
Definition pos_of (words : list (list ascii)) (k : list ascii) : Z := match column words k with Some i => Z.of_nat i | None => -1 end.
Definition placed (words : list (list ascii)) (k : keymap) : keymap := set_position (pos_of words (key k)) k.

Lemma column_Some words k i : column words k = Some i -> exists w, words !! i = Some w /\ fold_case w = fold_case k.
Proof.
  revert i. induction words as [|w ws IH]; intros i; cbn [column]; [done|]. rewrite strcasecmp_fold. case_bool_decide as E.
  - intros [= <-]. by exists w.
  - destruct (column ws k) as [j|]; [|done]. intros [= <-]. by apply IH.
Qed.

Lemma column_None words k : column words k = None <-> fold_case k ∉ map fold_case words.
Proof.
  induction words as [|w ws IH]; cbn [column map]; [split; [intros _; by apply not_elem_of_nil|done]|]. rewrite strcasecmp_fold, not_elem_of_cons. case_bool_decide as E.
  - split; [done|]. intros [H _]. by destruct H.
  - destruct (column ws k); cbn; [split; [done|]|split; [|done]]; intros H; [by destruct H as [_ H%IH]|]. split; [intros H'; by apply E|by apply IH].
Qed.

Lemma column_app words w k : column (words ++ [w]) k =
  match column words k with Some i => Some i | None => if strcasecmp w k then Some (length words) else None end.
Proof.
  induction words as [|v ws IH]; cbn [column app length]; [by destruct (strcasecmp w k)|]. destruct (strcasecmp v k); [done|]. rewrite IH.
  destruct (column ws k); [done|]. by destruct (strcasecmp w k).
Qed.

Lemma pos_of_neg words k : (pos_of words k =? -1) = bool_decide (fold_case k ∉ map fold_case words).
Proof.
  unfold pos_of. pose proof (column_None words k) as H. destruct (column words k) as [i|].
  - rewrite bool_decide_eq_false_2; [apply Z.eqb_neq; lia|]. intros H'. by apply H in H'.
  - rewrite bool_decide_eq_true_2; [done|by apply H].
Qed.

Section Table.
Context (keyList : list keymap).
Definition names : list (list ascii) := map (fun k => fold_case (key k)) keyList.
(** The keywords of the list differ. *)
Hypothesis Hkeys : NoDup names.

(** The words of a line that is accepted. *)
Definition known (words : list (list ascii)) : Prop := NoDup (map fold_case words) /\ forall w, w ∈ words -> fold_case w ∈ names.

Lemma place_key_list w pos (p : keymap -> Z) l : NoDup (map (fun k => fold_case (key k)) l) ->
  fst (place_key w pos (map (fun k => set_position (p k) k) l)) = existsb (fun k => strcasecmp w (key k) && (p k =? -1)) l /\
  (existsb (fun k => strcasecmp w (key k) && (p k =? -1)) l = true ->
   snd (place_key w pos (map (fun k => set_position (p k) k) l)) =
     map (fun k => set_position (if strcasecmp w (key k) then pos else p k) k) l).
Proof.
  induction l as [|k l IH]; [done|]. intros Hnd. cbn [map] in Hnd. apply NoDup_cons in Hnd as [Hk Hnd]. specialize (IH Hnd) as [IH1 IH2].
  cbn [map place_key existsb key position set_position val]. destruct (strcasecmp w (key k)) eqn:E; cbn [andb].
  - assert (Hno : forall k', k' ∈ l -> strcasecmp w (key k') = false).
    { intros k' Hk'. rewrite strcasecmp_fold in *. apply bool_decide_eq_true in E. apply bool_decide_eq_false. intros E'. apply Hk. rewrite <- E, E'.
      apply list_elem_of_In, in_map_iff. exists k'. split; [done|]. by apply list_elem_of_In. }
    assert (Hex : existsb (fun k => strcasecmp w (key k) && (p k =? -1)) l = false).
    { apply not_true_iff_false. intros (k' & Hin & H)%existsb_exists. rewrite Hno in H by by apply list_elem_of_In. done. }
    rewrite Hex, orb_false_r. destruct (p k =? -1); cbn [fst snd]; [|done]. split; [done|]. intros _. f_equal. apply map_ext_in. intros k' Hk'.
    by rewrite Hno by by apply list_elem_of_In.
  - destruct (place_key w pos _) as [b l'] eqn:Ep. cbn [fst snd orb] in *. split; [done|]. intros H. by rewrite IH2.
Qed.

Lemma place_key_next words w : known words ->
  let '(b, l) := place_key w (Z.of_nat (length words)) (map (placed words) keyList) in
  b = bool_decide (fold_case w ∈ names /\ fold_case w ∉ map fold_case words) /\ (b = true -> l = map (placed (words ++ [w])) keyList).
Proof.
  intros [Hnd Hin]. destruct (place_key_list w (Z.of_nat (length words)) (fun k => pos_of words (key k)) keyList Hkeys) as [H1 H2].
  unfold placed at 1. destruct (place_key _ _ _) as [b l]. cbn [fst snd] in *. rewrite <- H1 in H2. split.
  - rewrite H1. apply eq_true_iff_eq. rewrite existsb_exists, bool_decide_eq_true. split.
    + intros (k & Hk & Hb). apply andb_true_iff in Hb as [Hc Hp]. rewrite strcasecmp_fold in Hc. apply bool_decide_eq_true in Hc. rewrite pos_of_neg, <- Hc in Hp.
      apply bool_decide_eq_true in Hp. split; [|done]. rewrite Hc. apply list_elem_of_In. by apply (in_map (fun k => fold_case (key k))).
    + intros [Hn Hw]. apply list_elem_of_In, in_map_iff in Hn as (k & Hk & Hkin). exists k. split; [done|]. rewrite strcasecmp_fold, pos_of_neg, Hk.
      by rewrite !bool_decide_eq_true_2 by done.
  - intros Hb. rewrite (H2 Hb). apply map_ext_in. intros k Hk. unfold placed. f_equal. unfold pos_of at 2. rewrite column_app.
    rewrite H1 in Hb. apply existsb_exists in Hb as (k0 & Hk0 & Hb). apply andb_true_iff in Hb as [Hc0 Hp0]. destruct (strcasecmp w (key k)) eqn:E.
    + rewrite strcasecmp_fold in Hc0, E. apply bool_decide_eq_true in Hc0, E. rewrite pos_of_neg, <- Hc0 in Hp0. apply bool_decide_eq_true in Hp0.
      rewrite (proj2 (column_None words (key k))); [done|]. by rewrite <- E.
    + unfold pos_of. by destruct (column words (key k)).
Qed.

Lemma match_loop_words fuel words ws : known words -> spaced ws -> Forall (fun p => good_word (snd p)) ws -> (length ws < fuel)%nat ->
  (known (words ++ map snd ws) -> match_loop fuel (map (placed words) keyList) (spread ws) (Z.of_nat (length words)) = Some (true, map (placed (words ++ map snd ws)) keyList)) /\
  (~ known (words ++ map snd ws) -> exists l, match_loop fuel (map (placed words) keyList) (spread ws) (Z.of_nat (length words)) = Some (false, l)).
Proof.
  revert words fuel. induction ws as [|[b w] ws IH]; intros words fuel Hk Hs Hg Hf; (destruct fuel as [|fuel]; [cbn in Hf; lia|]).
  - cbn [map]. rewrite app_nil_r. split; [|intros H; by destruct H]. intros _. cbn [match_loop spread]. by rewrite getNextWord_none by constructor.
  - cbn [match_loop]. inversion Hg as [|? ? Hw Hg']. subst. rewrite spread_word by done. cbn [mbind option_bind map snd].
    pose proof (place_key_next words w Hk) as Hp. destruct (place_key _ _ _) as [b' l]. destruct Hp as [-> Hl]. cbn [length] in Hf.
    case_bool_decide as Hw'.
    + rewrite (Hl eq_refl). replace (Z.of_nat (length words) + 1) with (Z.of_nat (length (words ++ [w]))) by (rewrite length_app; cbn; lia).
      rewrite (cons_middle w words), app_assoc. apply IH; [|by eapply spaced_tail|done|lia]. destruct Hk as [Hn Hi], Hw' as [Hw1 Hw2]. split.
      * rewrite map_app. cbn [map]. apply NoDup_app. split; [done|]. split; [|apply NoDup_singleton]. intros x Hx Hx'. apply list_elem_of_singleton in Hx' as ->. done.
      * intros v [Hv|Hv]%elem_of_app; [by apply Hi|]. by apply list_elem_of_singleton in Hv as ->.
    + split; [|intros _; by eexists]. intros [Hn Hi]. exfalso. apply Hw'. split; [apply Hi; set_solver|].
      rewrite map_app in Hn. cbn [map] in Hn. apply NoDup_app in Hn as (_ & Hn & _). intros H. apply (Hn _ H). set_solver.
Qed.

Lemma spread_fuel ws : Forall (fun p => good_word (snd p)) ws -> (length ws < S (length (spread ws)))%nat.
Proof.
  intros H. enough (length ws <= length (spread ws))%nat by lia. apply spread_length. eapply Forall_impl; [exact H|]. by intros p [? _].
Qed.

(** The line of keywords is accepted exactly if its words are distinct keywords,
    and all of them if all are required; then every keyword has its column. *)
Theorem keyMatch_correct ws exact : spaced ws -> Forall (fun p => good_word (snd p)) ws ->
  let words := map snd ws in
  exists ok l, keyMatch keyList (spread ws) exact = Some (ok, l) /\
    (ok = true <-> known words /\ (exact = true -> forall n, n ∈ names -> n ∈ map fold_case words)) /\
    (known words -> l = map (placed words) keyList).
Proof.
  intros Hs Hg words. unfold keyMatch. destruct (match_loop_words (S (length (spread ws))) [] ws) as [Ht Hf]; [|done|done|by apply spread_fuel|].
  { split; [apply NoDup_nil_2|]. intros w Hw. by apply elem_of_nil in Hw. }
  cbn [app length] in Ht, Hf. change (Z.of_nat 0) with 0 in Ht, Hf. fold words in Ht, Hf. change (map (set_position (-1)) keyList) with (map (placed []) keyList).
  assert (Hdec : known words \/ ~ known words).
  { destruct (decide (NoDup (map fold_case words))); [|right; by intros [? _]].
    destruct (decide (Forall (fun w => fold_case w ∈ names) words)) as [H|H]; rewrite Forall_forall in H; [by left|right; by intros [_ ?]]. }
  destruct Hdec as [Hk|Hk].
  - rewrite (Ht Hk). cbn [mbind option_bind andb]. eexists _, _. split; [done|]. split; [|done]. rewrite orb_true_iff, negb_true_iff, forallb_forall. split.
    + intros H. split; [done|]. intros -> n Hn. destruct H as [H|H]; [done|]. apply list_elem_of_In, in_map_iff in Hn as (k & <- & Hin).
      specialize (H (placed words k) (in_map _ _ _ Hin)). unfold placed in H. cbn [position set_position] in H. rewrite pos_of_neg in H.
      apply negb_true_iff, bool_decide_eq_false in H. by apply dec_stable.
    + intros [_ H]. destruct exact; [right|by left]. intros k' (k & <- & Hin)%in_map_iff. unfold placed. cbn [position set_position]. rewrite pos_of_neg.
      apply negb_true_iff, bool_decide_eq_false. intros Hn. apply Hn, H; [done|]. apply list_elem_of_In. by apply (in_map (fun k => fold_case (key k))).
  - destruct (Hf Hk) as [l ->]. cbn. eexists _, l. split; [done|]. split; [|done]. split; [done|]. by intros [? _].
Qed.

(** ** The rows *)

Context (words : list (list ascii)).
Hypothesis Hknown : known words.

(** The keyword with the value of its column, as far as there are values. *)
Definition filled (vs : list (list ascii)) (k : keymap) : keymap :=
  Keymap (key k) (match column words (key k) with Some i => match vs !! i with Some v => Str (dash v) | None => Null end | None => Null end) (pos_of words (key k)).

Lemma pos_of_inj k k' i : pos_of words k = Z.of_nat i -> pos_of words k' = Z.of_nat i -> fold_case k = fold_case k'.
Proof.
  unfold pos_of. destruct (column words k) as [j|] eqn:E; [|lia]. destruct (column words k') as [j'|] eqn:E'; [|lia]. intros H H'.
  assert (j = i) as -> by lia. assert (j' = i) as -> by lia. apply column_Some in E as (w & Hw & <-), E' as (w' & Hw' & <-). by simplify_eq.
Qed.

Lemma column_at i w : words !! i = Some w -> exists k, k ∈ keyList /\ column words (key k) = Some i.
Proof.
  intros Hi. destruct Hknown as [Hnd Hin]. pose proof (Hin w ltac:(by eapply list_elem_of_lookup_2)) as Hw. apply list_elem_of_In, in_map_iff in Hw as (k & Hk & Hkin).
  exists k. split; [by apply list_elem_of_In|]. destruct (column words (key k)) as [j|] eqn:E.
  - apply column_Some in E as (w' & Hw' & E'). f_equal. eapply NoDup_lookup; [exact Hnd| |]; rewrite list_lookup_fmap; [by rewrite Hw'|]. rewrite Hi. cbn. f_equal. congruence.
  - apply column_None in E. exfalso. apply E. rewrite Hk. apply list_elem_of_In, in_map. apply list_elem_of_In. by eapply list_elem_of_lookup_2.
Qed.

Lemma place_value_list v i (g : keymap -> keymap) l :
  NoDup (map (fun k => fold_case (key k)) l) -> (forall k, position (g k) = pos_of words (key k)) ->
  place_value v (Z.of_nat i) (map g l) =
    if existsb (fun k => pos_of words (key k) =? Z.of_nat i) l
    then Some (map (fun k => if pos_of words (key k) =? Z.of_nat i then set_val (Str (dash v)) (g k) else g k) l) else None.
Proof.
  intros Hnd Hg. induction l as [|k l IH]; [done|]. cbn [map] in Hnd. apply NoDup_cons in Hnd as [Hk Hnd]. specialize (IH Hnd).
  cbn [map place_value existsb]. rewrite Hg. destruct (Z.eqb_spec (pos_of words (key k)) (Z.of_nat i)) as [E|E]; cbn [orb].
  - do 2 f_equal. apply map_ext_in. intros k' Hk'. rewrite (proj2 (Z.eqb_neq _ _)); [done|]. intros E'. apply Hk.
    rewrite (pos_of_inj _ _ _ E E'). apply list_elem_of_In. by apply (in_map (fun k => fold_case (key k))).
  - rewrite IH. by destruct (existsb _ l).
Qed.

Lemma place_value_next v vs : place_value v (Z.of_nat (length vs)) (map (filled vs) keyList) =
  if (length vs <? length words)%nat then Some (map (filled (vs ++ [v])) keyList) else None.
Proof.
  rewrite place_value_list by done. destruct (Nat.ltb_spec (length vs) (length words)) as [H|H].
  - destruct (lookup_lt_is_Some_2 words (length vs) H) as [w Hw]. destruct (column_at _ _ Hw) as (k0 & Hk0 & Hc0).
    replace (existsb _ keyList) with true.
    2: { symmetry. apply existsb_exists. exists k0. split; [by apply list_elem_of_In|]. unfold pos_of. rewrite Hc0. apply Z.eqb_refl. }
    f_equal. apply map_ext. intros k. unfold filled, pos_of. destruct (column words (key k)) as [i|].
    + destruct (Z.eqb_spec (Z.of_nat i) (Z.of_nat (length vs))) as [E|E].
      * assert (i = length vs) as -> by lia. unfold set_val. cbn [key position]. rewrite lookup_app_r by lia. by rewrite Nat.sub_diag.
      * destruct (decide (i < length vs)%nat) as [Hi|Hi]; [by rewrite lookup_app_l|]. rewrite !lookup_ge_None_2; [done|rewrite length_app; cbn; lia|lia].
    + by rewrite (proj2 (Z.eqb_neq _ _)) by lia.
  - replace (existsb _ keyList) with false; [done|]. symmetry. apply not_true_iff_false. intros (k & _ & E%Z.eqb_eq)%existsb_exists.
    unfold pos_of in E. destruct (column words (key k)) as [i|] eqn:Ec; [|lia]. apply column_Some in Ec as (w & Hw & _). apply lookup_lt_Some in Hw. lia.
Qed.

(** The text of a row. *)
Definition row_words (cells : list (list ascii * cell)) : list (list ascii * list ascii) := map (fun c => (fst c, cell_text (snd c))) cells.

Lemma values_loop_row fuel vs cells : spaced (row_words cells) -> Forall (fun c => cell_ok (snd c)) cells -> (length cells < fuel)%nat ->
  let all := vs ++ map (fun c => cell_value (snd c)) cells in (length vs <= length words)%nat ->
  exists o, values_loop fuel (map (filled vs) keyList) (spread (row_words cells)) (Z.of_nat (length vs)) = Some o /\
    if (length all <=? length words)%nat then o = inr (map (filled all) keyList, Z.of_nat (length all))
    else exists vs', o = inl (map (filled vs') keyList).
Proof.
  revert fuel vs. induction cells as [|[b c] cells IH]; intros fuel vs Hs Hc Hf all Hvs; (destruct fuel as [|fuel]; [cbn in Hf; lia|]); subst all.
  - cbn [map row_words spread values_loop]. rewrite app_nil_r. unfold getNextValue, getNextValueQ_. rewrite getNextWord_none by constructor. cbn [mbind option_bind].
    eexists. split; [done|]. by rewrite (proj2 (Nat.leb_le _ _)).
  - inversion Hc as [|? ? Hc1 Hc2]. subst. cbn [values_loop]. change (row_words ((b, c) :: cells)) with ((b, cell_text c) :: row_words cells) in *. cbn [spread].
    rewrite getNextValue_cell; [|destruct Hs as [H _]; by inversion H|done|by eapply spaced_stops]. cbn [mbind option_bind]. rewrite place_value_next.
    cbn [map snd]. destruct (Nat.ltb_spec (length vs) (length words)).
    + destruct (IH fuel (vs ++ [cell_value c])) as (o & Ho & H'); [by eapply spaced_tail|done|cbn in Hf; lia|rewrite length_app; cbn; lia|].
      rewrite length_app in Ho. cbn [length] in Ho. replace (Z.of_nat (length vs) + 1) with (Z.of_nat (length vs + 1)) by lia. exists o. split; [done|].
      by rewrite <- app_assoc in H'.
    + eexists. split; [done|]. rewrite length_app. cbn [length]. rewrite (proj2 (Nat.leb_gt _ _)) by lia. by exists vs.
Qed.

Lemma numv_words : numv (map (placed words) keyList) = Z.of_nat (length words).
Proof.
  unfold numv. assert (E : forall l, countb (fun k => negb (position k =? -1)) (map (placed words) l) =
    Z.of_nat (length (List.filter (fun k => bool_decide (fold_case (key k) ∈ map fold_case words)) l))).
  { induction l as [|k l IH]; [done|]. cbn [map List.filter]. change (placed words k :: map (placed words) l) with ([placed words k] ++ map (placed words) l). rewrite countb_app, IH. unfold placed, countb. cbn [fmap list_fmap position set_position].
    rewrite pos_of_neg. destruct (decide (fold_case (key k) ∈ map fold_case words)) as [H|H].
    - rewrite bool_decide_eq_false_2, bool_decide_eq_true_2 by tauto. cbn. lia.
    - rewrite bool_decide_eq_true_2, bool_decide_eq_false_2 by tauto. cbn. lia. }
  rewrite E. f_equal. rewrite <- (length_map (fun k => fold_case (key k))), <- (length_map fold_case words). apply Permutation_length.
  destruct Hknown as [Hnd Hin]. apply NoDup_Permutation; [|done|].
  - unfold names in Hkeys. clear -Hkeys. induction keyList as [|k l IH]; [apply NoDup_nil_2|]. cbn [map] in Hkeys. apply NoDup_cons in Hkeys as [Hk Hl]. cbn [List.filter].
    case_bool_decide; [|by apply IH]. cbn [map]. apply NoDup_cons. split; [|by apply IH]. intros H'. apply Hk.
    apply list_elem_of_In, in_map_iff in H' as (k' & E & Hk'). apply filter_In in Hk' as [Hk' _]. rewrite <- E. apply list_elem_of_In. by apply (in_map (fun k => fold_case (key k))).
  - intros n. rewrite !list_elem_of_In, in_map_iff. split.
    + intros (k & <- & [_ H]%filter_In). apply bool_decide_eq_true in H. by apply list_elem_of_In.
    + intros Hn. apply in_map_iff in Hn as (w & <- & Hw). pose proof (Hin w ltac:(by apply list_elem_of_In)) as Hw'. apply list_elem_of_In, in_map_iff in Hw' as (k & Hk & Hkin).
      exists k. split; [done|]. apply filter_In. split; [done|]. apply bool_decide_eq_true. rewrite Hk. apply list_elem_of_In. by apply in_map.
Qed.

Lemma clear_filled vs : clear (map (filled vs) keyList) = clear (map (placed words) keyList).
Proof. unfold clear. rewrite !map_map. done. Qed.

(** (C30) A row of complete values, words or groups of words in parentheses with
    any blanks in them and possibly empty: with one value for every column, each
    keyword gets the value of its column (a group with single blanks between its
    words), and the others none; with more or fewer the row is refused, with no
    values.  A row that ends in a group without its closing parenthesis is not
    of this form, see [open_paren_ignored]. *)
Theorem mapValues_correct cells : spaced (row_words cells) -> Forall (fun c => cell_ok (snd c)) cells ->
  mapValues (map (placed words) keyList) (spread (row_words cells)) =
    Some (if (length cells =? length words)%nat then (0, map (filled (map (fun c => cell_value (snd c)) cells)) keyList)
          else (-1, clear (map (placed words) keyList))).
Proof.
  intros Hs Hc. unfold mapValues. replace (clear (map (placed words) keyList)) with (map (filled []) keyList) at 1.
  2: { unfold clear. rewrite map_map. apply map_ext. intros k. unfold filled, placed, set_val, set_position. cbn [key val position]. f_equal.
       by destruct (column words (key k)). }
  assert (Hf : (length cells < S (length (spread (row_words cells))))%nat).
  { enough (length (row_words cells) <= length (spread (row_words cells)))%nat by (unfold row_words in *; rewrite length_map in *; lia). apply spread_length.
    unfold row_words. apply Forall_map. eapply Forall_impl; [exact Hc|]. intros [b c] Hok. cbn. destruct c; [by destruct Hok as [[? _] _]|done]. }
  destruct (values_loop_row _ [] cells Hs Hc Hf) as (o & Ho & H); [cbn; lia|]. cbn [length app] in *. change (Z.of_nat 0) with 0 in Ho. rewrite Ho. cbn [mbind option_bind]. f_equal.
  rewrite length_map in *. rewrite numv_words. destruct (Nat.leb_spec (length cells) (length words)) as [Hle|Hgt].
  - rewrite H. destruct (Nat.eqb_spec (length cells) (length words)) as [->|]; [by rewrite Z.eqb_refl|]. rewrite (proj2 (Z.eqb_neq _ _)) by lia. by rewrite clear_filled.
  - destruct H as [vs' ->]. rewrite (proj2 (Nat.eqb_neq _ _)) by lia. by rewrite clear_filled.
Qed.
End Table.

(** ** Sections of assignments *)

(** The text of a line without comments and continuations, and what is read of
    it: other white space is read as blanks, those at the end are dropped. *)
Definition raw_char (c : ascii) : bool :=
  negb (Ascii.eqb c newline) && negb (Ascii.eqb c nul) && negb (Ascii.eqb c "#") && negb (Ascii.eqb c backslash).
Definition all_blank (b : list ascii) : Prop := Forall (fun c => Ascii.eqb c " " = true) b.
Definition reads_as (u t : list ascii) : Prop :=
  Forall (fun c => raw_char c = true) u /\ full t /\ Z.of_nat (length t) < word_buf /\ exists b, all_blank b /\ map blanked u = t ++ b.

Lemma read_line_conf u : Forall (fun c => raw_char c = true) u -> forall q count acc r,
  exists q', read_line true q count acc (u ++ r) = read_line true q' count (rev (map blanked u) ++ acc) r.
Proof.
  induction 1 as [|c u Hc _ IH]; intros q count acc r; [by exists q|]. unfold raw_char in Hc. rewrite !andb_true_iff, !negb_true_iff in Hc. destruct Hc as [[[Hn _] Hh] Hb].
  cbn [app read_line andb]. rewrite Hn, Hb, Hh. cbn [andb].
  destruct (IH (if Ascii.eqb c quote then negb q else q) count (blanked c :: acc) r) as [q' ->]. exists q'. cbn [map rev]. by rewrite <- app_assoc.
Qed.

Lemma blanked_nul u : Forall (fun c => raw_char c = true) u -> c_str (map blanked u) = map blanked u.
Proof.
  induction 1 as [|c u Hc _ IH]; [done|]. cbn [map c_str]. replace (Ascii.eqb (blanked c) nul) with false; [by rewrite IH|].
  unfold blanked. destruct (is_space c); [done|]. unfold raw_char in Hc. rewrite !andb_true_iff, !negb_true_iff in Hc. by destruct Hc as [[[_ ->] _] _].
Qed.

Lemma c_str_prefix t b : c_str (t ++ b) = t ++ b -> c_str t = t.
Proof. induction t as [|c t IH]; [done|]. cbn [app c_str]. destruct (Ascii.eqb c nul); [done|]. intros [= H]. by rewrite IH. Qed.

Lemma next_line_conf u t n r : reads_as u t -> next_line n (u ++ newline :: r) = Some (Some t, n + 1, r).
Proof.
  intros (Hu & Hf & _ & b & Hb & E). unfold next_line. cbn [getNextLineC_]. unfold getNextLineD_. destruct (read_line_conf u Hu false n [] (newline :: r)) as [q ->].
  cbn [read_line]. rewrite Ascii.eqb_refl, app_nil_r, E, rev_app_distr, trim_blanks by by apply Forall_rev. rewrite trim_full by done. cbn [negb orb andb].
  pose proof (full_length t Hf). replace (S (length t - 1)) with (length t) by lia.
  rewrite rev_app_distr, !rev_involutive, take_app_length, full_not_blank; [|rewrite (c_str_prefix t b); [done|]; rewrite <- E; by apply blanked_nul].
  rewrite (c_str_prefix t b); [done|]. rewrite <- E. by apply blanked_nul.
Qed.

(** The lines of a section: an assignment, with blanks around the sign and
    parentheses around the value or not, or words without an assignment. *)
Inductive entry := Assign (k before after : list ascii) (paren : bool) (v : list ascii) | Bare (t : list ascii).
Definition value_text (paren : bool) (v : list ascii) : list ascii := if paren then "("%char :: v ++ [")"%char] else v.
Definition entry_text (a : entry) : list ascii :=
  match a with Assign k before after paren v => k ++ before ++ "="%char :: after ++ value_text paren v | Bare t => t end.
Definition entry_ok (a : entry) : Prop :=
  Z.of_nat (length (entry_text a)) < word_buf /\
  match a with
  | Assign k before after paren v =>
      k <> [] /\ Forall (fun c => is_space c = false /\ Ascii.eqb c "=" = false) k /\ all_blank before /\ all_blank after /\
      (before = [] \/ strcasecmp k END_WORD = false) /\
      (paren = true \/ match v with [] => True | c :: _ => Ascii.eqb c " " = false /\ Ascii.eqb c "(" = false end)
  | Bare t => Forall (fun c => Ascii.eqb c "=" = false) t /\ isSectionEnd t = Some false
  end.

Lemma take_until_app stop a w : Forall (fun c => stop c = false) a ->
  take_until stop (a ++ w) = (a ++ fst (take_until stop w), snd (take_until stop w)).
Proof. induction 1 as [|c a Hc _ IH]; cbn [app take_until]; [by destruct (take_until stop w)|]. by rewrite Hc, IH. Qed.

Lemma take_until_length stop w : (length (fst (take_until stop w)) <= length w)%nat.
Proof. induction w as [|c w IH]; [done|]. cbn [take_until]. destruct (stop c); [cbn; lia|]. destruct (take_until stop w). cbn in *. lia. Qed.

Lemma all_blank_space b : all_blank b -> blank b.
Proof. intros H. eapply Forall_impl; [exact H|]. by intros c ->%Ascii.eqb_eq. Qed.

(** The first word of an assignment is the key, or begins with it. *)
Lemma assign_word k before after paren v : entry_ok (Assign k before after paren v) ->
  exists w r, getNextWord_ (entry_text (Assign k before after paren v)) = Some (Some (k ++ w), r) /\
    (w = [] /\ before <> [] \/ exists w', w = "="%char :: w').
Proof.
  intros (Hl & Hne & Hk & Hb & _). cbn [entry_text] in *. set (x := after ++ _) in *.
  assert (Hk' : Forall (fun c => is_space c = false) k) by (eapply Forall_impl; [exact Hk|]; by intros c [? _]).
  unfold getNextWord_, next_word. replace (skip_while is_space (k ++ before ++ "="%char :: x)) with (k ++ before ++ "="%char :: x).
  2: { destruct k as [|c k]; [done|]. inversion Hk' as [|? ? Hc _]. cbn [app skip_while]. by rewrite Hc. }
  rewrite take_until_app by done. destruct before as [|c before].
  - cbn [app take_until] in *. change (is_space "=") with false. cbv iota. pose proof (take_until_length is_space x).
    destruct (take_until is_space x) as [w r]. cbn [fst snd] in *.
    rewrite (proj2 (Z.ltb_lt _ _)); [|rewrite length_app in *; cbn [length] in *; lia]. exists ("="%char :: w), r. split; [by destruct k|]. right. by exists w.
  - apply all_blank_space in Hb. inversion Hb as [|? ? Hc _]. subst. cbn [app take_until]. rewrite Hc. cbn [fst snd]. rewrite app_nil_r.
    rewrite (proj2 (Z.ltb_lt _ _)); [|rewrite length_app in Hl; lia]. exists [], (c :: before ++ "="%char :: x). rewrite app_nil_r.
    split; [by destruct k|]. by left.
Qed.

Lemma assign_key k before after paren v : entry_ok (Assign k before after paren v) -> line_key (entry_text (Assign k before after paren v)) = Some k.
Proof.
  intros Ha. unfold line_key. destruct (assign_word _ _ _ _ _ Ha) as (w & r & -> & Hw). cbn [mbind option_bind].
  assert (Hk : Forall (fun c => Ascii.eqb c "=" = false) k) by (destruct Ha as (_ & _ & Hk & _); eapply Forall_impl; [exact Hk|]; by intros c [_ ?]).
  destruct Hw as [[-> _]|[w' ->]]; [by rewrite app_nil_r, strchr_cut_none|by rewrite strchr_cut_at].
Qed.

Lemma behind_app c a r : Forall (fun d => Ascii.eqb d c = false) a -> behind c (a ++ r) = behind c r.
Proof. induction 1 as [|d a Hd _ IH]; [done|]. cbn [app behind]. by rewrite Hd. Qed.

Lemma skip_spaces_blank b r : all_blank b -> skip_spaces (b ++ r) = skip_spaces r.
Proof. induction 1 as [|c b Hc _ IH]; [done|]. unfold skip_spaces in *. cbn [app skip_while]. by rewrite Hc. Qed.

Lemma assign_value k before after paren v : entry_ok (Assign k before after paren v) ->
  exists x, behind "=" (entry_text (Assign k before after paren v)) = Some x /\ skip_spaces x = value_text paren v /\ unparen (value_text paren v) = v.
Proof.
  intros (_ & _ & Hk & Hb & Ha & _ & Hv). cbn [entry_text]. exists (after ++ value_text paren v). split; [|split].
  - rewrite behind_app by (eapply Forall_impl; [exact Hk|]; by intros c [_ ?]).
    rewrite behind_app by (eapply Forall_impl; [exact Hb|]; by intros c ->%Ascii.eqb_eq). cbn [behind]. by rewrite Ascii.eqb_refl.
  - rewrite skip_spaces_blank by done. unfold value_text, skip_spaces. destruct paren; [done|]. destruct Hv as [?|Hv]; [done|].
    destruct v as [|c v]; [done|]. destruct Hv as [H1 _]. cbn [skip_while]. by rewrite H1.
  - unfold value_text. destruct paren; [cbn [unparen]; by rewrite Ascii.eqb_refl, strrchr_cut_last|]. destruct Hv as [?|Hv]; [done|].
    destruct v as [|c v]; [done|]. destruct Hv as [_ H2]. cbn [unparen]. by rewrite H2.
Qed.

Lemma tolower_eq c : tolower c = "="%char -> c = "="%char.
Proof.
  unfold tolower. destruct (_ && _) eqn:E; [|done]. apply andb_true_iff in E as [E1%N.leb_le E2%N.leb_le]. intros H.
  apply (f_equal N_of_ascii) in H. rewrite N_ascii_embedding in H by lia. change (N_of_ascii "=") with 61%N in H. lia.
Qed.

Lemma entry_not_end a : entry_ok a -> isSectionEnd (entry_text a) = Some false.
Proof.
  destruct a as [k before after paren v|t]; [|by intros (_ & _ & ?)]. intros Ha. unfold isSectionEnd.
  destruct (assign_word _ _ _ _ _ Ha) as (w & r & -> & Hw). cbn [mbind option_bind word_is].
  destruct Hw as [[-> Hb]|[w' ->]].
  - destruct Ha as (_ & _ & _ & _ & _ & [->|He] & _); [done|]. by rewrite app_nil_r, He.
  - unfold strcasecmp. rewrite bool_decide_eq_false_2; [done|].
    intros E. assert (Hin : "="%char ∈ map tolower (k ++ "="%char :: w')).
    { rewrite map_app. apply elem_of_app. right. cbn [map]. apply elem_of_cons. by left. }
    rewrite E in Hin. repeat (apply elem_of_cons in Hin as [Hin|Hin]; [done|]). by apply elem_of_nil in Hin.
Qed.

Lemma bare_key t : isSectionEnd t = Some false -> is_Some (line_key t).
Proof. unfold isSectionEnd, line_key. destruct (getNextWord_ t) as [[[w|] r]|]; cbn; [eauto|done|done]. Qed.

(** The first keyword of this name, all names being different, gets the value. *)
Definition assigned (l : list keymap) (k v : list ascii) : list keymap :=
  map (fun e => if strcasecmp (key e) k then set_val (Str (dash v)) e else e) l.
Definition has_key (l : list keymap) (k : list ascii) : bool := existsb (fun e => strcasecmp (key e) k) l.
Definition live (l : list keymap) : Prop := Forall (fun e => val e <> Freed) l.

Lemma assigned_names l k v : names (assigned l k v) = names l.
Proof. unfold names, assigned. rewrite map_map. apply map_ext. intros e. by destruct (strcasecmp _ _). Qed.

Lemma assigned_live l k v : live l -> live (assigned l k v).
Proof. intros H. apply Forall_map. eapply Forall_impl; [exact H|]. intros e He. cbn. by destruct (strcasecmp _ _). Qed.

Lemma assigned_has_key l k v b : has_key (assigned l k v) b = has_key l b.
Proof.
  unfold has_key, assigned. induction l as [|e l IH]; [done|]. cbn [map existsb]. rewrite IH. f_equal. by destruct (strcasecmp (key e) k).
Qed.

Lemma putValue_assigned l k v : NoDup (names l) -> live l -> putValue l k v = Some (if has_key l k then 0 else -1, assigned l k v).
Proof.
  induction l as [|e l IH]; [done|]. intros Hnd Hl. unfold names in Hnd. cbn [map] in Hnd. apply NoDup_cons in Hnd as [He Hnd]. inversion Hl as [|? ? Hle Hl']. subst.
  cbn [putValue has_key assigned existsb map]. destruct (strcasecmp (key e) k) eqn:E; cbn [orb].
  - assert (Hf : free (val e) = Some tt) by (by destruct (val e)). rewrite Hf. cbn [mbind option_bind]. do 3 f_equal. unfold strcasecmp in E. apply bool_decide_eq_true in E.
    rewrite <- (map_id l) at 1. apply map_ext_in. intros e' He'. unfold strcasecmp. rewrite bool_decide_eq_false_2; [done|]. intros E'. apply He. unfold fold_case. rewrite E, <- E'.
    apply list_elem_of_In. by apply (in_map (fun k => fold_case (key k))).
  - rewrite IH by done. cbn [mbind option_bind]. done.
Qed.

(** The lines of a section behind the first, each with what is read of it, the
    end, and what follows. *)
Definition section_text (l : list (list ascii * entry)) (e r : list ascii) : list ascii :=
  (l ≫= fun a => fst a ++ [newline]) ++ e ++ newline :: r.
Definition line_ok (a : list ascii * entry) : Prop := reads_as (fst a) (entry_text (snd a)) /\ entry_ok (snd a).
Definition end_line (e : list ascii) : Prop := exists t, reads_as e t /\ isSectionEnd t = Some true.

Lemma section_text_cons a l e r : section_text (a :: l) e r = fst a ++ newline :: section_text l e r.
Proof. unfold section_text. change ((a :: l) ≫= ?f) with (f a ++ (l ≫= f)). by rewrite <- !app_assoc. Qed.

Lemma section_text_length l e r : (length l < length (section_text l e r))%nat.
Proof.
  induction l as [|a l IH]; [unfold section_text; cbn; rewrite length_app; cbn; lia|]. rewrite section_text_cons, length_app. cbn [length]. lia.
Qed.

Lemma skip_loop_section e r l : forall fuel n, Forall line_ok l -> end_line e -> (length l < fuel)%nat ->
  skip_loop fuel n (section_text l e r) = Some (n + Z.of_nat (length l) + 1, r).
Proof.
  induction l as [|a l IH]; intros fuel n Hl He Hf; (destruct fuel as [|fuel]; [lia|]); cbn [skip_loop].
  - destruct He as (t & He1 & He2). unfold section_text. cbn [mbind list_bind app]. rewrite (next_line_conf _ t) by done. cbn [mbind option_bind]. rewrite He2. cbn. by rewrite Z.add_0_r.
  - inversion Hl as [|? ? [Ha1 Ha2] Hl']. subst. rewrite section_text_cons, (next_line_conf _ (entry_text (snd a))) by done. cbn [mbind option_bind].
    rewrite entry_not_end by done. cbn [mbind option_bind]. rewrite IH by (done || (cbn in Hf; lia)). f_equal. f_equal. cbn [length]. lia.
Qed.

Lemma doSkipSection_section e r l n : Forall line_ok l -> end_line e ->
  doSkipSection n (section_text l e r) = Some (n + Z.of_nat (length l) + 1, r).
Proof. intros Hl He. unfold doSkipSection. apply skip_loop_section; [done|done|]. pose proof (section_text_length l e r). lia. Qed.

(** Whether all keywords have a value, and the list then. *)
Definition complete (l : list keymap) (exact : bool) : bool := negb exact || forallb (fun k => negb (is_null (val k))) l.
Definition finished (freed : cptr) (l : list keymap) (exact : bool) : Z * list keymap :=
  if complete l exact then (0, l) else (-1, map (fun k => if is_null (val k) then k else set_val freed k) l).

Lemma section_done_live freed l exact : live l -> section_done freed l exact = Some (finished freed l exact).
Proof.
  intros Hl. unfold section_done, finished, complete. destruct (_ || _); [done|]. replace (forallb _ l) with true; [done|]. symmetry.
  apply forallb_forall. intros e He. eapply Forall_forall in Hl; [|by apply list_elem_of_In]. by destruct (val e).
Qed.

Lemma assigned_unknown l k v : has_key l k = false -> assigned l k v = l.
Proof.
  unfold has_key, assigned. induction l as [|e l IH]; [done|]. cbn [existsb map]. intros H. apply orb_false_iff in H as [-> H]. by rewrite IH.
Qed.

(** How a section ends: at its last line, at a line that refuses it, with the rest
    passed over, or at an empty value, where the rest is left in the file. *)
Inductive ending := AtEnd | Refused | Left (rest : list (list ascii * entry)).
Fixpoint run_section (l : list keymap) (a : entry) (lines : list (list ascii * entry)) : ending * list keymap :=
  match a with
  | Bare _ => (Refused, l)
  | Assign _ _ _ false [] => (Left lines, l)
  | Assign k _ _ _ v =>
      if has_key l k then
        match lines with [] => (AtEnd, assigned l k v) | b :: lines => run_section (assigned l k v) (snd b) lines end
      else (Refused, l)
  end.

(** The result, the keywords, the number of lines read and what is left. *)
Definition section_result (l : list keymap) (a : entry) (lines : list (list ascii * entry)) (n : Z) (e r : list ascii) (exact : bool)
  : Z * list keymap * Z * list ascii :=
  let '(o, l) := run_section l a lines in
  match o with
  | AtEnd => let '(code, l) := finished Freed l exact in (code, l, n + Z.of_nat (length lines) + 1, r)
  | Refused => (-1, l, n + Z.of_nat (length lines) + 1, r)
  | Left rest => (-1, l, n + Z.of_nat (length lines) - Z.of_nat (length rest), section_text rest e r)
  end.

Lemma section_result_next l k before after paren v b lines n e r exact : value_text paren v <> [] -> has_key l k = true ->
  section_result l (Assign k before after paren v) (b :: lines) n e r exact = section_result (assigned l k v) (snd b) lines (n + 1) e r exact.
Proof.
  intros Hv Hk. unfold section_result. cbn [run_section]. rewrite Hk. cbn [length].
  replace (match paren with true => _ | false => _ end) with (run_section (assigned l k v) (snd b) lines) by (by destruct paren, v).
  destruct (run_section _ _ _) as [[| |rest] l']; [destruct (finished _ _ _)| |]; do 2 f_equal; lia.
Qed.

(** One line of a section that is not its last. *)
Lemma readHvalues_value fuel l k before after paren v n fp exact : entry_ok (Assign k before after paren v) -> NoDup (names l) -> live l ->
  value_text paren v <> [] ->
  readHvalues (S fuel) l (entry_text (Assign k before after paren v)) n fp exact =
    if has_key l k then
      '(linep, n, fp) ← next_line n fp;
      match linep with
      | None => Some (-1, assigned l k v, n, fp)
      | Some linep =>
          b ← isSectionEnd linep;
          if b : bool then '(c, l) ← section_done Freed (assigned l k v) exact; Some (c, l, n, fp)
          else readHvalues fuel (assigned l k v) linep n fp exact
      end
    else '(n, fp) ← doSkipSection n fp; Some (-1, l, n, fp).
Proof.
  intros Ha Hnd Hl Hne. cbn [readHvalues]. rewrite assign_key by done. destruct (assign_value _ _ _ _ _ Ha) as (x & -> & -> & Hu). cbn [mbind option_bind].
  destruct (value_text paren v) as [|c y] eqn:Ev; [done|]. rewrite <- Ev in *. rewrite Hu, putValue_assigned by done. cbn [mbind option_bind].
  destruct (has_key l k) eqn:Ek; [done|]. by rewrite assigned_unknown.
Qed.

(** (C31) A section whose lines are assignments, with or without blanks around the
    sign and parentheses around the value, or words without an assignment.  If all
    are assignments of keywords of the list, with a value, every keyword gets its
    last value, the file is left behind the section and the result is 0, or -1
    when a required keyword has no value.  The first unknown keyword, or line
    without an assignment, ends the reading with -1: the keywords keep the values
    up to there, and the rest of the section is passed over.  The first empty
    value ends it with -1 too, but the file is left right behind that line. *)
Theorem readHvalues_correct e r exact lines : end_line e -> forall fuel keyList a n,
  NoDup (names keyList) -> live keyList -> entry_ok a -> Forall line_ok lines -> (length lines < fuel)%nat ->
  readHvalues fuel keyList (entry_text a) n (section_text lines e r) exact = Some (section_result keyList a lines n e r exact).
Proof.
  intros He. induction lines as [|b lines IH]; intros fuel keyList a n Hnd Hl Ha Hls Hf; (destruct fuel as [|fuel]; [lia|]);
    (destruct a as [k before after paren v|t];
     [destruct (decide (value_text paren v = [])) as [Hv|Hv];
       [|rewrite readHvalues_value by done; destruct (has_key keyList k) eqn:Ek; [|rewrite doSkipSection_section by done; unfold section_result; cbn [run_section]; rewrite Ek; by destruct paren, v]]|]).
  1,4: assert (paren = false /\ v = []) as [-> ->] by (by destruct paren, v); cbn [readHvalues]; rewrite assign_key by done;
    destruct (assign_value _ _ _ _ _ Ha) as (x & -> & -> & _); cbn [mbind option_bind value_text]; unfold section_result; cbn [run_section];
    do 2 f_equal; f_equal; lia.
  2,4: destruct Ha as (_ & Ht & Hse); cbn [readHvalues entry_text]; destruct (bare_key t Hse) as [k ->]; cbn [mbind option_bind];
    rewrite <- (app_nil_r t), behind_app by done; cbn [behind]; rewrite doSkipSection_section by done; done.
  - destruct He as (t & He1 & He2). unfold section_text. cbn [mbind list_bind app]. rewrite (next_line_conf _ t) by done. cbn [mbind option_bind]. rewrite He2.
    cbn [mbind option_bind]. rewrite section_done_live by by apply assigned_live. cbn [mbind option_bind]. unfold section_result. cbn [run_section length]. rewrite Ek.
    destruct (finished _ _ _) as [c l'] eqn:Efin. destruct paren, v; try done; rewrite Efin; by rewrite Z.add_0_r.
  - inversion Hls as [|? ? [Hb1 Hb2] Hls']. subst. rewrite section_text_cons, (next_line_conf _ (entry_text (snd b))) by done. cbn [mbind option_bind].
    rewrite entry_not_end by done. cbn [mbind option_bind]. rewrite IH; [|by rewrite assigned_names|by apply assigned_live|done|done|cbn in Hf; lia].
    by rewrite section_result_next.
Qed.

(** The reader of [lib.confmisc.c] passes over unknown keywords and lines without an
    assignment, and takes empty values. *)
Definition run_line (l : list keymap) (a : entry) : list keymap := match a with Assign k _ _ _ v => assigned l k v | Bare _ => l end.

Theorem Confmisc_readHvalues_correct e r exact lines : end_line e -> forall fuel keyList a n,
  NoDup (names keyList) -> live keyList -> entry_ok a -> Forall line_ok lines -> (length lines < fuel)%nat ->
  Confmisc.readHvalues fuel keyList (entry_text a) n (section_text lines e r) exact =
    let '(code, l) := finished Null (foldl run_line keyList (a :: map snd lines)) exact in
    Some (code, l, n + Z.of_nat (length lines) + 1, r).
Proof.
  intros He. induction lines as [|b lines IH]; intros fuel keyList a n Hnd Hl Ha Hls Hf; (destruct fuel as [|fuel]; [lia|]);
    (assert (Hrun : exists k, line_key (entry_text a) = Some k /\
       match behind "=" (entry_text a) with None => Some keyList | Some value => snd <$> putValue keyList k (unparen (skip_spaces value)) end = Some (run_line keyList a));
     [destruct a as [k before after paren v|t];
       [exists k; rewrite assign_key by done; destruct (assign_value _ _ _ _ _ Ha) as (x & -> & -> & ->); by rewrite putValue_assigned
       |destruct Ha as (_ & Ht & Hse); destruct (bare_key t Hse) as [k Hk]; exists k; cbn [entry_text]; rewrite Hk; split; [done|];
        rewrite <- (app_nil_r t), behind_app by done; done]|]);
    (assert (Hnd' : NoDup (names (run_line keyList a))) by (destruct a; [by cbn [run_line]; rewrite assigned_names|done]));
    (assert (Hl' : live (run_line keyList a)) by (destruct a; [by apply assigned_live|done]));
    destruct Hrun as (k & Hk & Hr); cbn [Confmisc.readHvalues]; rewrite Hk; cbn [mbind option_bind]; rewrite Hr; cbn [mbind option_bind].
  - destruct He as (t & He1 & He2). unfold section_text. cbn [mbind list_bind app]. rewrite (next_line_conf _ t) by done. cbn [mbind option_bind]. rewrite He2. cbn [mbind option_bind].
    rewrite section_done_live by done. cbn [mbind option_bind length map foldl]. destruct (finished _ _ _). by rewrite Z.add_0_r.
  - inversion Hls as [|? ? [Hb1 Hb2] Hls']. subst. rewrite section_text_cons, (next_line_conf _ (entry_text (snd b))) by done. cbn [mbind option_bind].
    rewrite entry_not_end by done. cbn [mbind option_bind]. rewrite IH; [|done|done|done|done|cbn in Hf; lia]. cbn [length map foldl].
    replace (n + 1 + Z.of_nat (length lines) + 1) with (n + Z.of_nat (S (length lines)) + 1) by lia. done.
Qed.

(** ** Administrators *)

Definition admins_ok (a : admins) (numAds : Z) : Prop :=
  0 <= nAdmins a < numAds /\ Z.of_nat (length (adminIds a)) = nAdmins a /\ length (adminGIds a) = length (adminIds a) /\
  length (adminNames a) = length (adminIds a) /\ NoDup (adminNames a).

Lemma isInlist_elem names n : isInlist names n = bool_decide (n ∈ names).
Proof.
  apply eq_true_iff_eq. unfold isInlist. rewrite existsb_exists, bool_decide_eq_true, list_elem_of_In. split.
  - intros (m & Hm & E%bool_decide_eq_true). by subst.
  - intros H. exists n. split; [done|]. by apply bool_decide_eq_true.
Qed.

Lemma add_admin_ok name uid gid a numAds : admins_ok a numAds -> name ∉ adminNames a -> exists numAds',
  add_admin name uid gid a numAds = Some (Admins (nAdmins a + 1) (adminIds a ++ [uid]) (adminGIds a ++ [gid]) (adminNames a ++ [name]), numAds') /\
  admins_ok (Admins (nAdmins a + 1) (adminIds a ++ [uid]) (adminGIds a ++ [gid]) (adminNames a ++ [name])) numAds'.
Proof.
  intros (Hn & H1 & H2 & H3 & H4) Hnew. unfold add_admin. rewrite (proj2 (Z.ltb_lt _ _)) by lia. eexists. split; [done|]. cbn [nAdmins].
  unfold admins_ok. cbn [nAdmins adminIds adminGIds adminNames]. rewrite !length_app. cbn [length]. split; [destruct (Z.leb_spec numAds (nAdmins a + 1)); lia|].
  split; [lia|]. split; [lia|]. split; [lia|]. apply NoDup_app. split; [done|]. split; [|apply NoDup_singleton]. intros x Hx Hx'.
  apply list_elem_of_singleton in Hx' as ->. done.
Qed.

(** An administrator is added once, and the arrays have room for the next one. *)
Theorem putInLists_correct getpwnam word a numAds : admins_ok a numAds -> exists a' numAds',
  putInLists getpwnam word a numAds = Some (0, a', numAds') /\ admins_ok a' numAds' /\
  adminNames a' = match getpwnam word with
                  | Some pw => if bool_decide (pw_name pw ∈ adminNames a) then adminNames a else adminNames a ++ [pw_name pw]
                  | None => adminNames a
                  end.
Proof.
  intros Ha. unfold putInLists. destruct (getpwnam word) as [pw|]; [|by exists a, numAds]. rewrite isInlist_elem. case_bool_decide as Hin; [by exists a, numAds|].
  destruct (add_admin_ok (pw_name pw) (pw_uid pw) (pw_gid pw) a numAds Ha Hin) as (numAds' & -> & H). cbn. eexists _, _. split; [done|]. by split.
Qed.

Theorem Confmisc_putInLists_correct getpwlsfuser_ word a numAds : admins_ok a numAds -> exists a' numAds',
  Confmisc.putInLists getpwlsfuser_ word a numAds = Some (0, a', numAds') /\ admins_ok a' numAds' /\
  adminNames a' = if bool_decide (word ∈ adminNames a) then adminNames a else adminNames a ++ [word].
Proof.
  intros Ha. unfold Confmisc.putInLists. rewrite isInlist_elem. case_bool_decide as Hin; [by exists a, numAds|].
  destruct (add_admin_ok word (match getpwlsfuser_ word with None => -1 | Some p => pw_uid p end)
    (match getpwlsfuser_ word with None => -1 | Some p => pw_gid p end) a numAds Ha Hin) as (numAds' & -> & H). cbn. eexists _, _. split; [done|]. by split.
Qed.

(** ** Examples *)

Definition text (s : string) : list ascii := String.list_ascii_of_string s.
Definition sample_keys : list keymap := [Keymap (text "HOSTNAME") Null 0; Keymap (text "RESOURCES") Null 0; Keymap (text "TYPE") Null 0].
Definition sample_words : list (list ascii * list ascii) := [([], text "type"); (text " ", text "hostname")].
Definition sample_cells : list (list ascii * cell) := [([], Group [(text " ", text "linux"); (text "  ", text "x86")] []); (text "  ", Word (text "hosta"))].

Lemma sample_keys_distinct : NoDup (names sample_keys).
Proof. apply (bool_decide_eq_true_1 (NoDup (names sample_keys))). vm_compute. reflexivity. Qed.

Lemma sample_words_known : known sample_keys (map snd sample_words).
Proof.
  split; [apply (bool_decide_eq_true_1 (NoDup _)); vm_compute; reflexivity|]. intros w Hw. apply (Forall_forall (fun w => fold_case w ∈ names sample_keys)) with (2 := Hw).
  apply (bool_decide_eq_true_1 (Forall _ _)). vm_compute. reflexivity.
Qed.

Lemma keyMatch_correct_witness : exists ok l, keyMatch sample_keys (spread sample_words) false = Some (ok, l) /\
  (ok = true <-> known sample_keys (map snd sample_words) /\ (false = true -> forall n, n ∈ names sample_keys -> n ∈ map fold_case (map snd sample_words))) /\
  (known sample_keys (map snd sample_words) -> l = map (placed (map snd sample_words)) sample_keys).
Proof.
  apply (keyMatch_correct sample_keys sample_keys_distinct sample_words false).
  - split; repeat constructor; discriminate.
  - repeat constructor; discriminate.
Defined.

Lemma mapValues_correct_witness : mapValues (map (placed (map snd sample_words)) sample_keys) (spread (row_words sample_cells)) =
  Some (0, [Keymap (text "HOSTNAME") (Str (text "hosta")) 1; Keymap (text "RESOURCES") Null (-1); Keymap (text "TYPE") (Str (text "linux x86")) 0]).
Proof.
  rewrite (mapValues_correct sample_keys sample_keys_distinct (map snd sample_words) sample_words_known sample_cells).
  - vm_compute. reflexivity.
  - split; repeat constructor; discriminate.
  - repeat constructor; discriminate.
Defined.

(** [hostname = hosta b] with two more lines, one of them with a tab. *)
Definition sample_first : entry := Assign (text "hostname") (text " ") (text " ") false (text "hosta b").
Definition sample_lines : list (list ascii * entry) :=
  [("T"%char :: text "ype" ++ ["009"%char; "="%char] ++ text "  (linux x86)  ", Assign (text "Type") (text " ") (text "  ") true (text "linux x86"));
   (text "RESOURCES=-", Assign (text "RESOURCES") [] [] false (text "-"))].
Lemma sample_lines_ok : Forall line_ok sample_lines.
Proof.
  repeat constructor; try discriminate; try (by eexists (text "Type =  (linux x86"), _); try (by eexists (text "RESOURCES="), _);
    try (by exists (text "  "); split; [repeat constructor|vm_compute]); try (by exists []; split; [constructor|vm_compute]);
    try (by right); try (by left); right; done.
Qed.
Lemma sample_end : end_line (text "End Host").
Proof.
  exists (text "End Host"). split; [|vm_compute; reflexivity]. split; [repeat constructor|]. split; [by eexists (text "End Hos"), _|].
  split; [done|]. exists []. split; [constructor|]. vm_compute. reflexivity.
Qed.

Lemma readHvalues_correct_witness : readHvalues 3 sample_keys (text "hostname = hosta b") 7 (section_text sample_lines (text "End Host") (text "more")) true =
  Some (0, [Keymap (text "HOSTNAME") (Str (text "hosta b")) 0; Keymap (text "RESOURCES") (Str []) 0; Keymap (text "TYPE") (Str (text "linux x86")) 0], 10, text "more").
Proof.
  etransitivity; [refine (readHvalues_correct (text "End Host") (text "more") true sample_lines sample_end 3 sample_keys sample_first 7 _ _ _ _ _)|].
  - exact sample_keys_distinct.
  - repeat constructor; discriminate.
  - split; [done|]. repeat constructor; try discriminate; right; done.
  - exact sample_lines_ok.
  - cbn. lia.
  - vm_compute. reflexivity.
Defined.

(** An empty value leaves the rest of the section to whoever reads the file next. *)
Example empty_value_left :
  readHvalues 3 sample_keys (text "hostname =") 7 (section_text sample_lines (text "End Host") []) true =
    Some (-1, sample_keys, 7, section_text sample_lines (text "End Host") []).
Proof. vm_compute. reflexivity. Qed.

(** A word of exactly [MAXLINELEN] characters behind the parenthesis is written one
    byte past the buffer; a shorter or a longer one is not. *)
Definition letters (n : Z) : list ascii := replicate (Z.to_nat n) "a"%char.
Example value_overflows :
  getNextValue ("("%char :: letters 4096 ++ text " b)") = None /\
  is_Some (getNextValue ("("%char :: letters 4095 ++ text " b)")) /\ is_Some (getNextValue ("("%char :: letters 4097 ++ text " b)")).
Proof. split; [vm_compute; reflexivity|]. split; (eexists; vm_compute; reflexivity). Qed.

(** A long word in a value makes the buffer longer than accounted for, and the next
    one makes it shorter than the value. *)
Example value_buffer_shrinks : getNextValue (text "(a " ++ letters 16000 ++ text " b)") = None.
Proof. vm_compute. reflexivity. Qed.

(** A parenthesis that is not closed is not noticed behind the last column. *)
Example open_paren_ignored :
  fst <$> mapValues (map (placed (map snd sample_words)) sample_keys) (text "linux hosta (extra words") = Some 0.
Proof. vm_compute. reflexivity. Qed.
