(* ===== verification/LogBase.v ===== *)
(** * Records of the event log: reading and writing of fields

    A record of [lsb.events] is a line of numbers and quoted strings with blanks
    between them.  This file has the steps from which the functions of
    [lsbatch/lib/lsb.log.c] are made - a conversion of [sscanf] at the pointer
    into the line, the pointer's move over the character that follows, the
    macros [copyQStr] and [saveQStr], a formatted write - and the laws that
    relate them to lists of fields, which are the format of the log. *)

From Stdlib Require Import Ascii SpecFloat.
From S2P Require Import Prelude CString Float32 Stdio Words Lsb.

Definition LSBE_UNKNOWN_EVENT : Z := 44.
Definition LSBE_EVENT_FORMAT : Z := 45.
Definition LSBE_EOF : Z := 46.
Definition LSBE_SYS_CALL : Z := 51.

Definition MAX_VERSION_LEN : Z := 12.
Definition MAX_CMD_DESC_LEN : Z := 256.
Definition MAX_JOB_DESC_LEN : Z := 4096.
Definition MAXFILENAMELEN : Z := 4096.
Definition MAXPATHLEN : Z := 4096.
Definition MAXHOSTNAMELEN : Z := 64.
Definition MAXLSFNAMELEN : Z := 40.
Definition LSF_RLIM_NLIMITS : nat := 11.

(** ** Reading *)

(** The pointer into the line: what is left of it, or [None] behind the
    terminating zero, where nothing may be read. *)
Definition line : Type := option (list ascii).

Definition int32 (z : Z) : bool := (- 2 ^ 31 <=? z) && (z <? 2 ^ 31).

(** [sscanf(line, "%d%n", ...)] and the move to the end of the number; a number
    that is no [int] is undefined. *)
Definition scan_d : M line Z := fun l =>
  w ← l;
  match scan_int w with
  | Some (v, r) => if int32 v then Some (inr v, Some r) else None
  | None => Some (inl LSBE_EVENT_FORMAT, l)
  end.

(** The same for [%f] and [%lf]. *)
Definition scan_real (prec emax : Z) : M line spec_float := fun l =>
  w ← l; o ← scan_float true prec emax w;
  Some (match o with
        | Some (x, r) => (inr x, Some r)
        | None => (inl LSBE_EVENT_FORMAT, l)
        end).
Definition scan_f : M line spec_float := scan_real 24 128.
Definition scan_lf : M line spec_float := scan_real 53 1024.

(** The 1 of [line += ccount + 1]. *)
Definition next : M line unit := fun l =>
  w ← l; Some (inr tt, match w with [] => None | _ :: r => Some r end).

(** A conversion after which the pointer is left where it was. *)
Definition peek {A} (m : M line A) : M line A := fun l =>
  '(o, l') ← m l; Some (match o with inr a => (inr a, l) | inl e => (inl e, l') end).

(** [stripQStr] into a buffer of [cap] bytes, and the move to behind the closing
    quote. *)
Definition strip (cap : nat) : M line (list ascii) := fun l =>
  w ← l; o ← stripQStr cap w;
  Some (match o with
        | Some (s, r) => (inr s, Some r)
        | None => (inl LSBE_EVENT_FORMAT, l)
        end).

(** A string of the record, read through a buffer of a fixed size. *)
Definition strip_next (cap : Z) : M line (list ascii) :=
  let! s := strip (Z.to_nat cap) in next;; ret s.

Definition saveQStr : M line (list ascii) := fun l =>
  w ← l; (let! s := strip (length w) in next;; ret s) l.

(** The string is to be shorter than [maxLen] and, where [nonNil] is set, not
    empty. *)
Definition fits (maxLen : Z) (nonNil : bool) (s : list ascii) : bool :=
  negb ((maxLen <=? Z.of_nat (length s)) || nonNil && match s with [] => true | _ => false end).
Definition copyQStr (maxLen : Z) (nonNil : bool) : M line (list ascii) :=
  let! s := saveQStr in if fits maxLen nonNil s then ret s else fail LSBE_EVENT_FORMAT.

(** A field that is there if an option is set. *)
Definition when {A} (b : bool) (m : M line A) (d : A) : M line A := if b then m else ret d.

(** [for (i = 0; i < n; i++)] over elements that are read. *)
Fixpoint read_n {A} (n : nat) (m : M line A) : M line (list A) :=
  match n with
  | O => ret []
  | S n => let! x := m in let! xs := read_n n m in ret (x :: xs)
  end.

Lemma read_n_S {A} n (m : M line A) : read_n (S n) m = (let! x := m in let! xs := read_n n m in ret (x :: xs)).
Proof. done. Qed.

(** [calloc] of [n] elements fails on a negative number, which is huge as a
    size. *)
Definition calloc (n : Z) : M line unit := if n <? 0 then fail LSBE_NO_MEM else ret tt.

(** ** Writing *)

Definition fprint (t : list ascii) : M wfile unit := wr LSBE_SYS_CALL t.
(** [" %d %d"] for as many numbers. *)
Definition fprint_d (zs : list Z) : M wfile unit := fprint (zs ≫= fun z => " "%char :: int_text z).
(** [" %w.pf"] *)
Definition fprint_f (w p : nat) (x : spec_float) : M wfile unit := fprint (" "%char :: fmt_f w p x).
(** [" \"%s\""], quotes in the string are not doubled. *)
Definition fprint_s (s : list ascii) : M wfile unit := fprint (" "%char :: quote :: s ++ [quote]).
Definition addQ (s : option (list ascii)) : M wfile unit := addQStr LSBE_SYS_CALL s.
Definition unless {S} (b : bool) (m : M S unit) : M S unit := if b then ret tt else m.

(** [for (i = 0; i < n; i++)] over an array. *)
Fixpoint each (f : nat -> M wfile unit) (i n : nat) : M wfile unit :=
  match n with
  | O => ret tt
  | S n => f i;; each f (S i) n
  end.

(** ** Fields *)

Inductive field :=
  | FInt (z : Z)
  | FStr (s : list ascii)
  | FFix (w p : nat) (x : spec_float)
  | FBlank.

Definition body (f : field) : list ascii :=
  match f with
  | FInt z => int_text z
  | FStr s => qstr s
  | FFix w p x => fmt_f w p x
  | FBlank => []
  end.

Definition render (fs : list field) : list ascii := fs ≫= fun f => " "%char :: body f.

(** Fields that are read as they were written. *)
Definition good (f : field) : bool :=
  match f with
  | FInt z => int32 z
  | FStr s => forallb plain s
  | _ => true
  end.

(** The pointer in front of a field, and behind the one before it. *)
Definition at_ (fs : list field) : line :=
  match fs with [] => None | f :: fs => Some (body f ++ render fs) end.
Definition after (fs : list field) : line := Some (render fs).

Lemma render_app fs gs : render (fs ++ gs) = render fs ++ render gs.
Proof. apply bind_app. Qed.

Lemma render_cons f fs : render (f :: fs) = " "%char :: body f ++ render fs.
Proof. done. Qed.

Lemma stops_render fs : stops (render fs).
Proof. destruct fs; [by left|by right]. Qed.
#[export] Hint Resolve stops_render : vlc.

Lemma next_after fs : next (after fs) = Some (inr tt, at_ fs).
Proof. by destruct fs. Qed.

(** Numbers, at either position. *)
Lemma scan_d_gen b z fs : blank b -> good (FInt z) = true -> scan_d (Some (b ++ int_text z ++ render fs)) = Some (inr z, after fs).
Proof.
  intros Hb Hz. unfold scan_d. cbn [mbind option_bind]. rewrite scan_int_text by (done || apply stops_digit, stops_render).
  cbn [good] in Hz. by rewrite Hz.
Qed.
Lemma scan_d_at z fs : good (FInt z) = true -> scan_d (at_ (FInt z :: fs)) = Some (inr z, after fs).
Proof. apply (scan_d_gen []). constructor. Qed.
Lemma scan_d_after z fs : good (FInt z) = true -> scan_d (after (FInt z :: fs)) = Some (inr z, after fs).
Proof. apply (scan_d_gen [" "%char]). by repeat constructor. Qed.

Lemma scan_real_gen b prec emax w p x fs :
  blank b -> scan_real prec emax (Some (b ++ fmt_f w p x ++ render fs)) = Some (inr (logged prec emax p x), after fs).
Proof. intros Hb. unfold scan_real. cbn [mbind option_bind]. by rewrite scan_float_text by auto with vlc. Qed.
Lemma scan_real_at prec emax w p x fs : scan_real prec emax (at_ (FFix w p x :: fs)) = Some (inr (logged prec emax p x), after fs).
Proof. apply (scan_real_gen []). constructor. Qed.
Lemma scan_real_after prec emax w p x fs : scan_real prec emax (after (FFix w p x :: fs)) = Some (inr (logged prec emax p x), after fs).
Proof. apply (scan_real_gen [" "%char]). by repeat constructor. Qed.

Lemma peek_val {A} (m : M line A) l a l' : m l = Some (inr a, l') -> peek m l = Some (inr a, l).
Proof. unfold peek. by intros ->. Qed.

(** Strings; fields without quotes in front are passed over. *)
Definition skippable (f : field) : bool := match f with FInt _ | FBlank => true | _ => false end.

Lemma num_char_no_quote c : num_char c = true -> Ascii.eqb c quote = false.
Proof. by destruct c as [[] [] [] [] [] [] [] []]. Qed.

Lemma skippable_no_quote f : skippable f = true -> no_quote (body f).
Proof.
  destruct f; try done; intros _; cbn [body]; [|constructor]. eapply Forall_impl; [apply int_text_chars|]. apply num_char_no_quote.
Qed.

Lemma render_no_quote ns : Forall (fun f => skippable f = true) ns -> no_quote (render ns).
Proof.
  induction 1 as [|f ns Hf _ IH]; [constructor|]. rewrite render_cons. constructor; [done|].
  apply Forall_app. split; [by apply skippable_no_quote|done].
Qed.

Lemma strip_gen cap pre s fs : no_quote pre -> (length s < cap)%nat ->
  strip cap (Some (pre ++ qstr s ++ render fs)) = Some (inr s, after fs).
Proof.
  intros Hp Hc. unfold strip. cbn [mbind option_bind]. unfold qstr. rewrite <- app_comm_cons, <- app_assoc.
  cbn [app]. rewrite stripQStr_quoted; [done|done|done|]. by destruct fs.
Qed.

Lemma qtext_length s : (length s <= length (qtext s))%nat.
Proof. induction s as [|c s IH]; [done|]. cbn [qtext mbind list_bind]. fold (qtext s). rewrite length_app. destruct (Ascii.eqb c quote); cbn; lia. Qed.

Lemma saveQ_gen pre s fs : no_quote pre -> saveQStr (Some (pre ++ qstr s ++ render fs)) = Some (inr s, at_ fs).
Proof.
  intros Hp. unfold saveQStr. cbn [mbind option_bind]. erewrite bind_val; [|apply strip_gen; [done|]].
  - erewrite bind_val; [|apply next_after]. done.
  - rewrite !length_app. unfold qstr. cbn [length]. rewrite length_app. pose proof (qtext_length s). cbn. lia.
Qed.

Lemma saveQ_after ns s fs : Forall (fun f => skippable f = true) ns -> saveQStr (after (ns ++ FStr s :: fs)) = Some (inr s, at_ fs).
Proof.
  intros Hn. unfold after. rewrite render_app, render_cons.
  change (render ns ++ " "%char :: body (FStr s) ++ render fs) with (render ns ++ [" "%char] ++ qstr s ++ render fs).
  rewrite app_assoc. apply saveQ_gen. apply Forall_app. split; [by apply render_no_quote|by repeat constructor].
Qed.

Lemma saveQ_at ns s fs : Forall (fun f => skippable f = true) ns -> saveQStr (at_ (ns ++ FStr s :: fs)) = Some (inr s, at_ fs).
Proof.
  intros Hn. destruct ns as [|f ns]; [apply (saveQ_gen []); constructor|]. apply Forall_cons in Hn as [Hf Hn]. cbn [app at_].
  rewrite render_app, render_cons.
  change (render ns ++ " "%char :: body (FStr s) ++ render fs) with (render ns ++ [" "%char] ++ qstr s ++ render fs).
  rewrite !app_assoc, <- app_assoc. apply saveQ_gen.
  repeat (apply Forall_app; split); [by apply skippable_no_quote|by apply render_no_quote|by repeat constructor].
Qed.

Lemma copyQ_val maxLen nonNil l s l' :
  saveQStr l = Some (inr s, l') -> fits maxLen nonNil s = true -> copyQStr maxLen nonNil l = Some (inr s, l').
Proof. intros Hs Hf. unfold copyQStr. erewrite bind_val; [|exact Hs]. by rewrite Hf. Qed.

Lemma strip_next_at cap s fs : (Z.of_nat (length s) <? cap) = true -> strip_next cap (at_ (FStr s :: fs)) = Some (inr s, at_ fs).
Proof.
  intros Hc. bool_prop. unfold strip_next. erewrite bind_val; [|apply (strip_gen (Z.to_nat cap) []); [constructor|lia]].
  erewrite bind_val; [|apply next_after]. done.
Qed.

Lemma strip_next_blank cap s fs : (Z.of_nat (length s) <? cap) = true -> strip_next cap (at_ (FBlank :: FStr s :: fs)) = Some (inr s, at_ fs).
Proof.
  intros Hc. bool_prop. unfold strip_next. erewrite bind_val; [|apply (strip_gen (Z.to_nat cap) [" "%char]); [by repeat constructor|lia]].
  erewrite bind_val; [|apply next_after]. done.
Qed.

(** Repeated fields. *)
Lemma read_n_at {A} (m : M line A) (f : A -> list field) (xs : list A) fs :
  (forall x gs, x ∈ xs -> m (at_ (f x ++ gs)) = Some (inr x, at_ gs)) ->
  read_n (length xs) m (at_ ((xs ≫= f) ++ fs)) = Some (inr xs, at_ fs).
Proof.
  induction xs as [|x xs IH]; intros H; [done|]. cbn [length read_n mbind list_bind]. rewrite <- app_assoc.
  erewrite bind_val; [|apply H; by left]. erewrite bind_val; [|apply IH; intros y gs Hy; apply H; by right]. done.
Qed.

(** ** Writing fields *)

Definition writes (m : M wfile unit) (fs : list field) : Prop := eqM m (fprint (render fs)).

Lemma writes_bind m k fs gs : writes m fs -> writes k gs -> writes (m;; k) (fs ++ gs).
Proof. unfold writes, fprint. rewrite render_app. apply wr_step. Qed.

Lemma writes_d zs : writes (fprint_d zs) (FInt <$> zs).
Proof. unfold writes, fprint_d. intros f. f_equal. unfold render. induction zs as [|z zs IH]; [done|]. cbn. by rewrite IH. Qed.

Lemma writes_f w p x : writes (fprint_f w p x) [FFix w p x].
Proof. intros f. unfold fprint_f, render. cbn. by rewrite app_nil_r. Qed.

Lemma writes_q s : writes (addQ (Some s)) [FStr s].
Proof. intros f. unfold addQ. rewrite addQStr_wr. unfold fprint, render. cbn. by rewrite app_nil_r. Qed.

Lemma writes_nil : writes (ret tt) [].
Proof. intros f. symmetry. apply wr_nil. Qed.

Lemma qtext_plain s : Forall (fun c => Ascii.eqb c quote = false) s -> qtext s = s.
Proof. induction 1 as [|c s Hc _ IH]; [done|]. cbn [qtext mbind list_bind]. fold (qtext s). by rewrite Hc, IH. Qed.

Lemma writes_s s : forallb (fun c => negb (Ascii.eqb c quote)) s = true -> writes (fprint_s s) [FStr s].
Proof.
  intros Hs f. unfold fprint_s, render. cbn. unfold qstr. rewrite qtext_plain; [by rewrite app_nil_r|].
  apply Forall_forall. intros c Hc. eapply forallb_forall in Hs; [|by apply list_elem_of_In]. by apply negb_true_iff.
Qed.

Lemma writes_when (b : bool) m fs : (b = true -> writes m fs) -> writes (unless (negb b) m) (if b then fs else []).
Proof. destruct b; cbn; [auto|]. intros _. apply writes_nil. Qed.

Lemma writes_each {A} (f : nat -> M wfile unit) (g : A -> list field) (xs : list A) i :
  (forall j x, xs !! j = Some x -> writes (f (i + j)%nat) (g x)) -> writes (each f i (length xs)) (xs ≫= g).
Proof.
  revert i. induction xs as [|x xs IH]; intros i H; [apply writes_nil|]. cbn [length each mbind list_bind]. apply writes_bind.
  - rewrite <- (Nat.add_0_r i). by apply H.
  - apply IH. intros j y Hy. rewrite Nat.add_succ_l, <- Nat.add_succ_r. by apply H.
Qed.

(** ** Fields that several records have *)

(** [sscanf(line, "%d%n", ...)] followed by [line += ccount + 1]. *)
Definition read_d : M line Z := let! z := scan_d in next;; ret z.

Lemma read_d_at z fs : good (FInt z) = true -> read_d (at_ (FInt z :: fs)) = Some (inr z, at_ fs).
Proof.
  intros Hz. unfold read_d. erewrite bind_val; [|by apply scan_d_at]. erewrite bind_val; [|apply next_after]. done.
Qed.

(** Arrays of numbers. *)
Definition write_ints (zs : list Z) (n : nat) : M wfile unit :=
  each (fun i => match zs !! i with Some z => fprint_d [z] | None => undef end) 0 n.

Lemma writes_ints zs n : length zs = n -> writes (write_ints zs n) (FInt <$> zs).
Proof.
  intros <-. replace (FInt <$> zs) with (zs ≫= fun z => [FInt z]).
  - apply writes_each. intros j z Hz. cbn. rewrite Hz. apply (writes_d [z]).
  - induction zs as [|z zs IH]; [done|]. cbn. by rewrite IH.
Qed.

Lemma read_ints_at zs n fs : length zs = n -> forallb good (FInt <$> zs) = true ->
  read_n n read_d (at_ ((FInt <$> zs) ++ fs)) = Some (inr zs, at_ fs).
Proof.
  intros <- Hg. replace (FInt <$> zs) with (zs ≫= fun z => [FInt z]) in *.
  - apply read_n_at. intros z gs Hz. apply read_d_at. eapply forallb_forall in Hg; [exact Hg|].
    apply list_elem_of_In, list_elem_of_bind. exists z. split; [by left|done].
  - clear Hg. induction zs as [|z zs IH]; [done|]. cbn. by rewrite IH.
Qed.

(** Arrays of strings, such as the names of hosts. *)
Definition write_strs (ss : list (list ascii)) (n : Z) : M wfile unit := each (fun i => addQ (ss !! i)) 0 (Z.to_nat n).
Definition read_strs (cap n : Z) : M line (list (list ascii)) := read_n (Z.to_nat n) (strip_next cap).
Definition save_strs (n : Z) : M line (list (list ascii)) := read_n (Z.to_nat n) saveQStr.

(** The array holds as many strings as the counter says, and each fits the buffer
    through which it is read. *)
Definition okstrs (cap n : Z) (ss : list (list ascii)) : bool :=
  (n =? Z.of_nat (length ss)) && forallb (fun s => Z.of_nat (length s) <? cap) ss.

Lemma bind_strs (ss : list (list ascii)) : FStr <$> ss = ss ≫= fun s => [FStr s].
Proof. induction ss as [|s ss IH]; [done|]. cbn. by rewrite IH. Qed.

Lemma writes_strs cap ss n : okstrs cap n ss = true -> writes (write_strs ss n) (FStr <$> ss).
Proof.
  unfold okstrs. intros H. bool_prop. subst n. unfold write_strs. rewrite Nat2Z.id, bind_strs. apply writes_each.
  intros j s Hs. cbn. rewrite Hs. apply writes_q.
Qed.

Lemma read_strs_at cap n ss fs : okstrs cap n ss = true ->
  read_strs cap n (at_ ((FStr <$> ss) ++ fs)) = Some (inr ss, at_ fs).
Proof.
  unfold okstrs. intros H. bool_prop. subst n. unfold read_strs. rewrite Nat2Z.id, bind_strs. apply read_n_at.
  intros s gs Hs. apply strip_next_at. eapply forallb_forall in H0; [exact H0|]. by apply list_elem_of_In.
Qed.

Lemma save_strs_at cap n ss fs : okstrs cap n ss = true ->
  save_strs n (at_ ((FStr <$> ss) ++ fs)) = Some (inr ss, at_ fs).
Proof.
  unfold okstrs. intros H. bool_prop. subst n. unfold save_strs. rewrite Nat2Z.id, bind_strs. apply read_n_at.
  intros s gs Hs. apply (saveQ_at []). constructor.
Qed.

(** Where the string is there if an option is set. *)
Lemma when_saveQ (b : bool) (s : option (list ascii)) fs :
  (if b then bool_decide (is_Some s) else bool_decide (s = None)) = true ->
  when b (let! x := saveQStr in ret (Some x)) None (at_ ((if b then [FStr (default [] s)] else []) ++ fs)) = Some (inr s, at_ fs).
Proof.
  destruct b; cbn [when app]; intros H; bool_prop.
  - destruct H as [x ->]. erewrite bind_val; [|apply (saveQ_at []); constructor]. done.
  - by subst.
Qed.

Lemma when_read_d (b : bool) z fs : (if b then good (FInt z) else z =? 0) = true ->
  when b read_d 0 (at_ ((if b then [FInt z] else []) ++ fs)) = Some (inr z, at_ fs).
Proof. destruct b; cbn [when app]; intros H; [by apply read_d_at|]. bool_prop. by subst. Qed.

Lemma writes_opt_q (b : bool) (s : option (list ascii)) :
  (if b then bool_decide (is_Some s) else bool_decide (s = None)) = true ->
  writes (unless (negb b) (addQ s)) (if b then [FStr (default [] s)] else []).
Proof. intros H. apply writes_when. intros ->. bool_prop. destruct H as [x ->]. apply writes_q. Qed.

(** ** Files to be copied *)

Record xFile := XFile { subFn : list ascii; execFn : list ascii; xf_options : Z }.

Definition write_xf (xf : list xFile) (n : Z) : M wfile unit :=
  each (fun i => match xf !! i with
                 | Some x => fprint_s (subFn x);; fprint_s (execFn x);; fprint_d [xf_options x]
                 | None => undef
                 end) 0 (Z.to_nat n).

Definition read_xf (n : Z) : M line (list xFile) :=
  read_n (Z.to_nat n)
    (let! s := copyQStr MAXFILENAMELEN false in
     let! e := copyQStr MAXFILENAMELEN false in
     let! o := read_d in ret (XFile s e o)).

Definition xf_fields (x : xFile) : list field := [FStr (subFn x); FStr (execFn x); FInt (xf_options x)].

(** Names of files are written without doubling of quotes, so they may have none. *)
Definition okxf (n : Z) (xf : list xFile) : bool :=
  (n =? Z.of_nat (length xf)) &&
  forallb (fun x => forallb (fun c => negb (Ascii.eqb c quote)) (subFn x) && forallb (fun c => negb (Ascii.eqb c quote)) (execFn x) &&
                    fits MAXFILENAMELEN false (subFn x) && fits MAXFILENAMELEN false (execFn x)) xf.

Lemma writes_xf n xf : okxf n xf = true -> writes (write_xf xf n) (xf ≫= xf_fields).
Proof.
  unfold okxf. intros H. bool_prop. subst n. unfold write_xf. rewrite Nat2Z.id. apply writes_each. intros j x Hx. cbn [Nat.add].
  rewrite Hx. eapply forallb_forall in H0; [|eapply list_elem_of_In, list_elem_of_lookup_2; exact Hx]. cbn beta in H0. bool_prop.
  apply (writes_bind _ _ [_]); [by apply writes_s|]. apply (writes_bind _ _ [_]); [by apply writes_s|]. apply (writes_d [_]).
Qed.

Lemma read_xf_at n xf fs : okxf n xf = true -> forallb good (xf ≫= xf_fields) = true ->
  read_xf n (at_ ((xf ≫= xf_fields) ++ fs)) = Some (inr xf, at_ fs).
Proof.
  unfold okxf. intros H Hg. bool_prop. subst n. unfold read_xf. rewrite Nat2Z.id. apply read_n_at. intros x gs Hx.
  eapply forallb_forall in H0; [|by apply list_elem_of_In]. cbn beta in H0. bool_prop. unfold xf_fields. cbn [app].
  erewrite bind_val; [|apply copyQ_val; [apply (saveQ_at []); constructor|done]].
  erewrite bind_val; [|apply copyQ_val; [apply (saveQ_at []); constructor|done]].
  erewrite bind_val; [|apply read_d_at]; [by destruct x|]. eapply forallb_forall in Hg; [exact Hg|].
  apply list_elem_of_In, list_elem_of_bind. exists x. split; [set_solver|done].
Qed.

(** ** Whole records *)

(** Take a conjunction of tests apart. *)
Ltac tests := repeat match goal with
  | H : (_ && _)%bool = true |- _ => let H' := fresh H in apply andb_true_iff in H as [H H']
  end.


(** A pointer to a string of the record. *)
Definition saveQ : M line (option (list ascii)) := let! s := saveQStr in ret (Some s).
Definition isSome {A} (p : option A) : bool := match p with Some _ => true | None => false end.
Definition str (p : option (list ascii)) : list ascii := default [] p.

(** [version >= _VOLCLAVA_VERSION2_1_] and so on; the versions are whole numbers. *)
Definition since (n : Z) (version : spec_float) : bool := SFleb (f32_of_Z n) version.
Definition VOLCLAVA_VERSION2_1 : Z := 21.
Definition VOLCLAVA_VERSION2_2 : Z := 22.

(** A string that older versions do not have. *)
Definition oknew (new : bool) (s : list ascii) : bool := new || bool_decide (s = []).
Definition oknewp (new : bool) (p : option (list ascii)) : bool := isSome p && new.

(** The number is read back from its [p] digits. *)
#[global] Instance spec_float_eq_dec : EqDecision spec_float.
Proof. solve_decision. Defined.
Definition okf (p : nat) (x : spec_float) : bool := bool_decide (logged 24 128 p x = x).
Definition oklf (p : nat) (x : spec_float) : bool := bool_decide (logged 53 1024 p x = x).

(** The reader takes the record from the line, whatever it leaves of it. *)
Definition reads {A} (m : M line A) (fs : list field) (a : A) : Prop := exists l, m (at_ fs) = Some (inr a, l).

(** The writer puts the fields and ends the line. *)
Definition writes_line (m : M wfile unit) (fs : list field) : Prop := eqM m (fprint (render fs ++ [newline])).

Lemma writes_end : writes_line (fprint [newline]) [].
Proof. done. Qed.

Lemma writes_line_bind m k fs gs : writes m fs -> writes_line k gs -> writes_line (m;; k) (fs ++ gs).
Proof. unfold writes, writes_line, fprint. rewrite render_app, <- app_assoc. apply wr_step. Qed.

Lemma writes_eq m fs gs : writes m fs -> fs = gs -> writes m gs.
Proof. by intros ? <-. Qed.
Lemma writes_line_eq m fs gs : writes_line m fs -> fs = gs -> writes_line m gs.
Proof. by intros ? <-. Qed.

Lemma writes_blank : writes (fprint [" "%char]) [FBlank].
Proof. done. Qed.

Lemma writes_ptr p : isSome p = true -> writes (addQ p) [FStr (str p)].
Proof. destruct p; [|done]. intros _. apply writes_q. Qed.

Lemma plain_subNewLine s : forallb plain s = true -> subNewLine_ s = s.
Proof.
  intros H. apply subNewLine_id, Forall_forall. intros c Hc. eapply forallb_forall in H; [|by apply list_elem_of_In].
  by apply plain_blanked in H as (_ & ? & _).
Qed.

Lemma writes_ptr_nl p : isSome p = true -> good (FStr (str p)) = true -> writes (addQ (subNewLine_ <$> p)) [FStr (str p)].
Proof. destruct p; [|done]. intros _ H. cbn in *. rewrite plain_subNewLine by done. apply writes_q. Qed.

Lemma writes_opt_q_nl (b : bool) p :
  (if b then bool_decide (is_Some p) else bool_decide (p = None)) = true ->
  forallb good (if b then [FStr (default [] p)] else []) = true ->
  writes (unless (negb b) (addQ (subNewLine_ <$> p))) (if b then [FStr (default [] p)] else []).
Proof.
  intros H Hg. apply writes_when. intros ->. cbn -[good] in Hg. rewrite andb_true_r in Hg. bool_prop. destruct H as [x ->].
  by apply (writes_ptr_nl (Some x)).
Qed.

Lemma writes_opt_d (b : bool) z : writes (unless (negb b) (fprint_d [z])) (if b then [FInt z] else []).
Proof. apply writes_when. intros _. apply writes_d. Qed.

Lemma writes_q_nl s : good (FStr s) = true -> writes (addQ (Some (subNewLine_ s))) [FStr s].
Proof. intros H. cbn in H. rewrite plain_subNewLine by done. apply writes_q. Qed.

Lemma saveQ_ptr p fs : isSome p = true -> saveQ (at_ (FStr (str p) :: fs)) = Some (inr p, at_ fs).
Proof.
  destruct p as [s|]; [|done]. intros _. unfold saveQ. erewrite bind_val; [|apply (saveQ_at []); constructor]. done.
Qed.

Lemma saveQ_ptr_skip z p fs : isSome p = true -> saveQ (at_ (FInt z :: FStr (str p) :: fs)) = Some (inr p, at_ fs).
Proof.
  destruct p as [s|]; [|done]. intros _. unfold saveQ. erewrite bind_val; [|apply (saveQ_at [_]); by repeat constructor]. done.
Qed.

Lemma scan_f_at w p x fs : okf p x = true -> scan_f (at_ (FFix w p x :: fs)) = Some (inr x, after fs).
Proof. unfold okf. intros H. bool_prop. unfold scan_f. by rewrite scan_real_at, H. Qed.
Lemma scan_f_after w p x fs : okf p x = true -> scan_f (after (FFix w p x :: fs)) = Some (inr x, after fs).
Proof. unfold okf. intros H. bool_prop. unfold scan_f. by rewrite scan_real_after, H. Qed.
Lemma scan_lf_at w p x fs : oklf p x = true -> scan_lf (at_ (FFix w p x :: fs)) = Some (inr x, after fs).
Proof. unfold oklf. intros H. bool_prop. unfold scan_lf. by rewrite scan_real_at, H. Qed.
Lemma scan_lf_after w p x fs : oklf p x = true -> scan_lf (after (FFix w p x :: fs)) = Some (inr x, after fs).
Proof. unfold oklf. intros H. bool_prop. unfold scan_lf. by rewrite scan_real_after, H. Qed.

Lemma when_val {A} b (m : M line A) d l a l' : b = true -> m l = Some (inr a, l') -> when b m d l = Some (inr a, l').
Proof. by intros ->. Qed.

(** An array of strings that is there if the counter is not zero. *)
Lemma when_strs cap n ss fs : okstrs cap n ss = true ->
  when (negb (n =? 0)) (calloc n;; read_strs cap n) [] (at_ ((FStr <$> ss) ++ fs)) = Some (inr ss, at_ fs).
Proof.
  intros H. pose proof H as H'. unfold okstrs in H'. tests. bool_prop. destruct (Z.eqb_spec n 0) as [->|Hn]; cbn [negb when].
  - destruct ss; [done|]. cbn in *. lia.
  - unfold calloc. rewrite (proj2 (Z.ltb_ge _ _)) by lia. rewrite (bind_val _ _ _ tt (at_ ((FStr <$> ss) ++ fs))) by done. by apply read_strs_at.
Qed.

Lemma when_new b maxLen nonNil s l l' :
  oknew b s = true -> (b = true -> copyQStr maxLen nonNil l = Some (inr s, l')) ->
  when b (copyQStr maxLen nonNil) [] l = Some (inr s, if b then l' else l).
Proof. destruct b; cbn; [auto|]. intros H _. bool_prop. by subst. Qed.

(** The cast of a time to [int]. *)
Lemma good_i32 z : good (FInt z) = true -> i32 z = z.
Proof. cbn. unfold int32. intros H. bool_prop. apply i32_small. lia. Qed.

Lemma reads_bind {A B} (m : M line A) (k : A -> M line B) l a l' (b : B) :
  m l = Some (inr a, l') -> (exists l'', k a l' = Some (inr b, l'')) -> exists l'', bind m k l = Some (inr b, l'').
Proof. intros Hm [l'' Hk]. exists l''. by rewrite (bind_val _ _ _ _ _ Hm). Qed.

#[global] Arguments at_ : simpl never.
#[global] Arguments write_ints : simpl never.
#[global] Arguments write_strs : simpl never.
#[global] Arguments write_xf : simpl never.
#[global] Arguments read_n : simpl never.
#[global] Arguments unless : simpl never.
#[global] Arguments subNewLine_ : simpl never.
#[global] Arguments has : simpl never.
#[global] Arguments after : simpl never.
#[global] Arguments good : simpl never.
#[global] Arguments fits : simpl never.
#[global] Arguments okf : simpl never.
#[global] Arguments oklf : simpl never.
#[global] Arguments okstrs : simpl never.
#[global] Arguments okxf : simpl never.
#[global] Arguments since : simpl never.
#[global] Arguments str : simpl never.

(** ** Automation *)

Ltac rd_str :=
  first [ apply (saveQ_at []); constructor
        | apply (saveQ_at [_]); repeat constructor
        | apply (saveQ_at [_; _]); repeat constructor
        | apply (saveQ_after [_]); repeat constructor ].

(** One step of a reader. *)
Ltac rd_one :=
  first [ apply scan_d_at; assumption
        | apply scan_d_after; assumption
        | apply next_after
        | apply read_d_at; assumption
        | apply copyQ_val; [rd_str|assumption]
        | apply saveQ_ptr; assumption
        | apply saveQ_ptr_skip; assumption
        | apply strip_next_at; assumption
        | apply strip_next_blank; assumption
        | apply when_saveQ; assumption
        | apply when_read_d; assumption
        | apply scan_f_at; assumption
        | apply scan_f_after; assumption
        | apply scan_lf_at; assumption
        | apply scan_lf_after; assumption
        | eapply read_strs_at; eassumption
        | eapply save_strs_at; eassumption
        | apply read_ints_at; assumption
        | apply read_xf_at; assumption
        | eapply peek_val; first [apply scan_d_at; assumption | apply scan_d_after; assumption]
        | rd_str ].

Ltac rd := eapply reads_bind; [rd_one|]; cbv beta.

(** One step of a writer. *)
Ltac wr_one :=
  first [ apply writes_d | apply writes_f | apply writes_blank
        | apply writes_q_nl; assumption
        | apply writes_q
        | apply writes_ptr; assumption
        | apply writes_ptr_nl; assumption
        | eapply writes_strs; eassumption
        | apply writes_ints; assumption
        | apply writes_xf; assumption
        | apply writes_opt_q; assumption
        | apply writes_opt_q_nl; assumption
        | apply writes_opt_d ].

Ltac wrt := eapply writes_line_eq; [repeat first [apply writes_end | eapply writes_line_bind; [wr_one|]]|].
