(* ===== verification/LogEvent.v ===== *)
(** * Records of the event log: control, status and requests

    For each structure of [lsbatch/lsbatch.h] that is logged, a module with the
    structure, the functions of [lsbatch/lib/lsb.log.c] that write and read it,
    the list of its fields on the line, and the conditions under which a record
    comes back as it was: the numbers are [int]s, the strings hold no control
    characters and are shorter than their arrays, and members that are not
    logged have the value of a new record. *)

From Stdlib Require Import Ascii SpecFloat.
From S2P Require Import Prelude CString Float32 Stdio Words Lsb Grp LogBase.

(** ** The start of a job *)

Module JobStart.
Record jobStartLog := JobStartLog {
  jobId : Z; jStatus : Z; jobPid : Z; jobPGid : Z; hostFactor : spec_float; numExHosts : Z; execHosts : list (list ascii);
  queuePreCmd : option (list ascii); queuePostCmd : option (list ascii); jFlags : Z; idx : Z; effeResReq : option (list ascii) }.

Definition writeJobStart (r : jobStartLog) : M wfile unit :=
  fprint_d [jobId r; jStatus r; jobPid r; jobPGid r];; fprint_f 3 1 (hostFactor r);; fprint_d [numExHosts r];;
  write_strs (execHosts r) (numExHosts r);;
  addQ (queuePreCmd r);;
  addQ (queuePostCmd r);;
  fprint_d [jFlags r];;
  fprint_d [idx r];;
  addQ (effeResReq r);;
  fprint [newline].

Definition readJobStart (version : spec_float) : M line jobStartLog :=
  let! jobId := scan_d in let! jStatus := scan_d in let! jobPid := scan_d in let! jobPGid := scan_d in
  let! hostFactor := scan_f in let! numExHosts := scan_d in next;;
  if numExHosts =? 0 then fail LSBE_EVENT_FORMAT else
  calloc numExHosts;;
  let! execHosts := read_strs MAXLINELEN numExHosts in
  let! queuePreCmd := saveQ in
  let! queuePostCmd := saveQ in
  let! jFlags := read_d in
  let! idx := peek scan_d in
  let! effeResReq := when (since VOLCLAVA_VERSION2_2 version) saveQ None in
  ret (JobStartLog jobId jStatus jobPid jobPGid hostFactor numExHosts execHosts queuePreCmd queuePostCmd jFlags idx effeResReq).

Definition fields (r : jobStartLog) : list field :=
  [FInt (jobId r); FInt (jStatus r); FInt (jobPid r); FInt (jobPGid r); FFix 3 1 (hostFactor r); FInt (numExHosts r)] ++
  (FStr <$> execHosts r) ++
  [FStr (str (queuePreCmd r)); FStr (str (queuePostCmd r)); FInt (jFlags r); FInt (idx r); FStr (str (effeResReq r))].

Definition wf (version : spec_float) (r : jobStartLog) : bool :=
  forallb good (fields r) && okf 1 (hostFactor r) && (0 <? numExHosts r) && okstrs MAXLINELEN (numExHosts r) (execHosts r) &&
  isSome (queuePreCmd r) && isSome (queuePostCmd r) && since VOLCLAVA_VERSION2_2 version && isSome (effeResReq r).

Lemma JobStart_writes_ok version r : wf version r = true -> writes_line (writeJobStart r) (fields r).
Proof.
  destruct r. unfold wf, fields. cbn [app forallb]. intros H. tests. unfold writeJobStart. wrt. done.
Qed.

Lemma JobStart_reads_ok version r : wf version r = true -> reads (readJobStart version) (fields r) r.
Proof.
  destruct r. unfold wf, fields, reads. cbn. rewrite forallb_app. cbn. intros H. tests. unfold readJobStart.
  do 7 rd. bool_prop. rewrite (proj2 (Z.eqb_neq _ _)) by lia. unfold calloc. rewrite (proj2 (Z.ltb_ge _ _)) by lia.
  eapply reads_bind; [done|]. do 5 rd. eapply reads_bind; [apply when_val; [done|]; rd_one|]. by eexists.
Qed.
End JobStart.

Module JobStartAccept.
Record jobStartAcceptLog := JobStartAcceptLog { jobId : Z; jobPid : Z; jobPGid : Z; idx : Z }.

Definition writeJobStartAccept (r : jobStartAcceptLog) : M wfile unit :=
  fprint_d [jobId r; jobPid r; jobPGid r];; fprint_d [idx r];; fprint [newline].

Definition readJobStartAccept : M line jobStartAcceptLog :=
  let! jobId := scan_d in let! jobPid := scan_d in let! jobPGid := scan_d in next;;
  let! idx := read_d in
  ret (JobStartAcceptLog jobId jobPid jobPGid idx).

Definition fields (r : jobStartAcceptLog) : list field := [FInt (jobId r); FInt (jobPid r); FInt (jobPGid r); FInt (idx r)].
Definition wf (r : jobStartAcceptLog) : bool := forallb good (fields r).

Lemma JobStartAccept_writes_ok r : writes_line (writeJobStartAccept r) (fields r).
Proof. unfold writeJobStartAccept. wrt. done. Qed.

Lemma JobStartAccept_reads_ok r : wf r = true -> reads readJobStartAccept (fields r) r.
Proof. destruct r. unfold wf, fields, reads. cbn. intros H. tests. unfold readJobStartAccept. do 5 rd. by eexists. Qed.
End JobStartAccept.

Module JobExecute.
Record jobExecuteLog := JobExecuteLog {
  jobId : Z; execUid : Z; execHome : option (list ascii); execCwd : option (list ascii); jobPGid : Z;
  execUsername : option (list ascii); jobPid : Z; idx : Z }.

Definition writeJobExecute (r : jobExecuteLog) : M wfile unit :=
  fprint_d [jobId r; execUid r; jobPGid r];;
  addQ (execCwd r);; addQ (execHome r);; addQ (execUsername r);;
  fprint_d [jobPid r];; fprint_d [idx r];; fprint [newline].

Definition readJobExecute : M line jobExecuteLog :=
  let! jobId := scan_d in let! execUid := scan_d in let! jobPGid := scan_d in next;;
  let! execCwd := saveQ in let! execHome := saveQ in let! execUsername := saveQ in
  let! jobPid := read_d in
  let! idx := scan_d in
  ret (JobExecuteLog jobId execUid execHome execCwd jobPGid execUsername jobPid idx).

Definition fields (r : jobExecuteLog) : list field :=
  [FInt (jobId r); FInt (execUid r); FInt (jobPGid r); FStr (str (execCwd r)); FStr (str (execHome r)); FStr (str (execUsername r));
   FInt (jobPid r); FInt (idx r)].
Definition wf (r : jobExecuteLog) : bool :=
  forallb good (fields r) && isSome (execCwd r) && isSome (execHome r) && isSome (execUsername r).

Lemma JobExecute_writes_ok r : wf r = true -> writes_line (writeJobExecute r) (fields r).
Proof. unfold wf. intros H. tests. unfold writeJobExecute. wrt. done. Qed.

Lemma JobExecute_reads_ok r : wf r = true -> reads readJobExecute (fields r) r.
Proof. destruct r. unfold wf, fields, reads. cbn. intros H. tests. unfold readJobExecute. do 9 rd. by eexists. Qed.
End JobExecute.

(** ** The status of a job *)

Module Rusage.
(** [lsf/lsf.h]; the functions are those of [lsf/lib/lib.lsf.c]. *)
Record lsfRusage := LsfRusage {
  ru_utime : spec_float; ru_stime : spec_float; ru_maxrss : spec_float; ru_ixrss : spec_float; ru_ismrss : spec_float;
  ru_idrss : spec_float; ru_isrss : spec_float; ru_minflt : spec_float; ru_majflt : spec_float; ru_nswap : spec_float;
  ru_inblock : spec_float; ru_oublock : spec_float; ru_ioch : spec_float; ru_msgsnd : spec_float; ru_msgrcv : spec_float;
  ru_nsignals : spec_float; ru_nvcsw : spec_float; ru_nivcsw : spec_float; ru_exutime : spec_float }.

(** The usage in a new record. *)
Definition no_rusage : lsfRusage :=
  let z := S754_zero false in LsfRusage z z z z z z z z z z z z z z z z z z z.

Definition lsfRu2Str (u : lsfRusage) : M wfile unit :=
  fprint_f 1 6 (ru_utime u);; fprint_f 1 6 (ru_stime u);; fprint_f 1 0 (ru_maxrss u);; fprint_f 1 0 (ru_ixrss u);;
  fprint_f 1 0 (ru_ismrss u);; fprint_f 1 0 (ru_idrss u);; fprint_f 1 0 (ru_isrss u);; fprint_f 1 0 (ru_minflt u);;
  fprint_f 1 0 (ru_majflt u);; fprint_f 1 0 (ru_nswap u);; fprint_f 1 0 (ru_inblock u);; fprint_f 1 0 (ru_oublock u);;
  fprint_f 1 0 (ru_ioch u);; fprint_f 1 0 (ru_msgsnd u);; fprint_f 1 0 (ru_msgrcv u);; fprint_f 1 0 (ru_nsignals u);;
  fprint_f 1 0 (ru_nvcsw u);; fprint_f 1 0 (ru_nivcsw u);; fprint_f 1 0 (ru_exutime u).

Definition str2lsfRu : M line lsfRusage :=
  let! utime := scan_lf in let! stime := scan_lf in let! maxrss := scan_lf in let! ixrss := scan_lf in
  let! ismrss := scan_lf in let! idrss := scan_lf in let! isrss := scan_lf in let! minflt := scan_lf in
  let! majflt := scan_lf in let! nswap := scan_lf in let! inblock := scan_lf in let! oublock := scan_lf in
  let! ioch := scan_lf in let! msgsnd := scan_lf in let! msgrcv := scan_lf in let! nsignals := scan_lf in
  let! nvcsw := scan_lf in let! nivcsw := scan_lf in let! exutime := scan_lf in
  ret (LsfRusage utime stime maxrss ixrss ismrss idrss isrss minflt majflt nswap inblock oublock ioch msgsnd msgrcv nsignals
         nvcsw nivcsw exutime).

Definition fields (u : lsfRusage) : list field :=
  [FFix 1 6 (ru_utime u); FFix 1 6 (ru_stime u); FFix 1 0 (ru_maxrss u); FFix 1 0 (ru_ixrss u); FFix 1 0 (ru_ismrss u);
   FFix 1 0 (ru_idrss u); FFix 1 0 (ru_isrss u); FFix 1 0 (ru_minflt u); FFix 1 0 (ru_majflt u); FFix 1 0 (ru_nswap u);
   FFix 1 0 (ru_inblock u); FFix 1 0 (ru_oublock u); FFix 1 0 (ru_ioch u); FFix 1 0 (ru_msgsnd u); FFix 1 0 (ru_msgrcv u);
   FFix 1 0 (ru_nsignals u); FFix 1 0 (ru_nvcsw u); FFix 1 0 (ru_nivcsw u); FFix 1 0 (ru_exutime u)].
Definition wf (u : lsfRusage) : bool :=
  oklf 6 (ru_utime u) && oklf 6 (ru_stime u) && oklf 0 (ru_maxrss u) && oklf 0 (ru_ixrss u) && oklf 0 (ru_ismrss u) &&
  oklf 0 (ru_idrss u) && oklf 0 (ru_isrss u) && oklf 0 (ru_minflt u) && oklf 0 (ru_majflt u) && oklf 0 (ru_nswap u) &&
  oklf 0 (ru_inblock u) && oklf 0 (ru_oublock u) && oklf 0 (ru_ioch u) && oklf 0 (ru_msgsnd u) && oklf 0 (ru_msgrcv u) &&
  oklf 0 (ru_nsignals u) && oklf 0 (ru_nvcsw u) && oklf 0 (ru_nivcsw u) && oklf 0 (ru_exutime u).

Lemma Rusage_writes_ok u : writes (lsfRu2Str u) (fields u).
Proof. unfold lsfRu2Str. eapply writes_eq; [repeat (eapply writes_bind; [apply writes_f|]); apply writes_f|done]. Qed.

Lemma Rusage_reads_ok u fs : wf u = true -> str2lsfRu (at_ (fields u ++ fs)) = Some (inr u, after fs).
Proof.
  destruct u. unfold wf, fields. cbn. intros H. tests. unfold str2lsfRu.
  erewrite bind_val; [|by apply scan_lf_at]. repeat (erewrite bind_val; [|by apply scan_lf_after]). done.
Qed.
End Rusage.
Import Rusage.

Module JobStatus.
Record jobStatusLog := JobStatusLog {
  jobId : Z; jStatus : Z; reason : Z; subreasons : Z; cpuTime : spec_float; endTime : Z; ru : Z; lsfRusage_ : lsfRusage; jFlags : Z;
  exitStatus : Z; idx : Z; maxMem : Z; avgMem : Z }.

Definition writeJobStatus (r : jobStatusLog) : M wfile unit :=
  fprint_d [jobId r; jStatus r; reason r; subreasons r];; fprint_f 4 4 (cpuTime r);; fprint_d [i32 (endTime r)];;
  fprint_d [ru r];;
  unless (ru r =? 0) (lsfRu2Str (lsfRusage_ r));;
  fprint_d [exitStatus r];; fprint_d [idx r];; fprint_d [maxMem r];; fprint_d [avgMem r];; fprint [newline].

Definition readJobStatus (version : spec_float) : M line jobStatusLog :=
  let! jobId := scan_d in let! jStatus := scan_d in let! reason := scan_d in let! subreasons := scan_d in
  let! cpuTime := scan_f in let! endTime := scan_d in let! ru := scan_d in next;;
  let! lsfRusage := when (negb (ru =? 0)) (let! u := str2lsfRu in next;; ret u) no_rusage in
  let! exitStatus := read_d in
  let! idx := read_d in
  let! maxMem := when (since VOLCLAVA_VERSION2_2 version) read_d 0 in
  let! avgMem := when (since VOLCLAVA_VERSION2_2 version) scan_d 0 in
  ret (JobStatusLog jobId jStatus reason subreasons cpuTime endTime ru lsfRusage 0 exitStatus idx maxMem avgMem).

Definition fields (r : jobStatusLog) : list field :=
  [FInt (jobId r); FInt (jStatus r); FInt (reason r); FInt (subreasons r); FFix 4 4 (cpuTime r); FInt (endTime r); FInt (ru r)] ++
  (if negb (ru r =? 0) then Rusage.fields (lsfRusage_ r) else []) ++
  [FInt (exitStatus r); FInt (idx r); FInt (maxMem r); FInt (avgMem r)].

#[global] Instance lsfRusage_eq_dec : EqDecision lsfRusage.
Proof. solve_decision. Defined.

Definition wf (version : spec_float) (r : jobStatusLog) : bool :=
  forallb good (fields r) && okf 4 (cpuTime r) &&
  (if negb (ru r =? 0) then Rusage.wf (lsfRusage_ r) else bool_decide (lsfRusage_ r = no_rusage)) && (jFlags r =? 0) &&
  (since VOLCLAVA_VERSION2_2 version || (maxMem r =? 0) && (avgMem r =? 0)).

Lemma JobStatus_writes_ok version r : wf version r = true -> writes_line (writeJobStatus r) (fields r).
Proof.
  destruct r. unfold wf, fields. cbn. rewrite forallb_app. intros H. tests. unfold writeJobStatus. cbn. rewrite good_i32 by done.
  wrt; [eapply writes_line_bind; [rewrite <- (negb_involutive (_ =? _)); apply writes_when; intros _; apply Rusage.Rusage_writes_ok|];
        repeat first [apply writes_end | eapply writes_line_bind; [wr_one|]]|]. done.
Qed.

Lemma when_ru (b : bool) u fs : (if b then Rusage.wf u else bool_decide (u = no_rusage)) = true ->
  when b (let! u := str2lsfRu in next;; ret u) no_rusage (at_ ((if b then Rusage.fields u else []) ++ fs)) = Some (inr u, at_ fs).
Proof.
  destruct b; cbn [when app]; intros H.
  - erewrite bind_val; [|by apply Rusage.Rusage_reads_ok]. erewrite bind_val; [|apply next_after]. done.
  - bool_prop. by subst.
Qed.

Lemma JobStatus_reads_ok version r : wf version r = true -> reads (readJobStatus version) (fields r) r.
Proof.
  destruct r. unfold wf, fields, reads. cbn. rewrite forallb_app. cbn. intros H. tests. unfold readJobStatus.
  do 8 rd. eapply reads_bind; [by apply when_ru|]. do 2 rd. bool_prop. subst.
  destruct (since VOLCLAVA_VERSION2_2 version); cbn [when].
  - do 2 rd. by eexists.
  - destruct H0 as [|H0]; [done|]. bool_prop. subst. do 2 (eapply reads_bind; [done|]). by eexists.
Qed.
End JobStatus.

Module SbdJobStatus.
Record sbdJobStatusLog := SbdJobStatusLog {
  jobId : Z; jStatus : Z; reasons : Z; subreasons : Z; actPid : Z; actValue : Z; actPeriod : Z; actFlags : Z; actStatus : Z;
  actReasons : Z; actSubReasons : Z; idx : Z }.

(** The line is not ended: the slave daemon keeps one record to a file. *)
Definition writeSbdJobStatus (r : sbdJobStatusLog) : M wfile unit :=
  fprint_d [jobId r; jStatus r; reasons r; subreasons r; actPid r; actValue r; i32 (actPeriod r); actFlags r; actStatus r;
            actReasons r; actSubReasons r];;
  fprint_d [idx r].

Definition readSbdJobStatus : M line sbdJobStatusLog :=
  let! jobId := scan_d in let! jStatus := scan_d in let! reasons := scan_d in let! subreasons := scan_d in
  let! actPid := scan_d in let! actValue := scan_d in let! actPeriod := scan_d in let! actFlags := scan_d in
  let! actStatus := scan_d in let! actReasons := scan_d in let! actSubReasons := scan_d in let! idx := scan_d in next;;
  ret (SbdJobStatusLog jobId jStatus reasons subreasons actPid actValue actPeriod actFlags actStatus actReasons actSubReasons idx).

Definition fields (r : sbdJobStatusLog) : list field :=
  [FInt (jobId r); FInt (jStatus r); FInt (reasons r); FInt (subreasons r); FInt (actPid r); FInt (actValue r); FInt (actPeriod r);
   FInt (actFlags r); FInt (actStatus r); FInt (actReasons r); FInt (actSubReasons r); FInt (idx r)].
Definition wf (r : sbdJobStatusLog) : bool := forallb good (fields r).

Lemma SbdJobStatus_writes_ok r : wf r = true -> writes (writeSbdJobStatus r) (fields r).
Proof.
  destruct r. unfold wf, fields. cbn. intros H. tests. unfold writeSbdJobStatus. cbn. rewrite good_i32 by done.
  eapply writes_eq; [eapply writes_bind; apply writes_d|done].
Qed.

Lemma SbdJobStatus_reads_ok r : wf r = true -> reads readSbdJobStatus (fields r) r.
Proof. destruct r. unfold wf, fields, reads. cbn. intros H. tests. unfold readSbdJobStatus. do 13 rd. by eexists. Qed.
End SbdJobStatus.

Module Unfulfill.
Record unfulfillLog := UnfulfillLog {
  jobId : Z; notSwitched : Z; sig : Z; sig1 : Z; sig1Flags : Z; chkPeriod : Z; notModified : Z; idx : Z }.

Definition writeUnfulfill (r : unfulfillLog) : M wfile unit :=
  fprint_d [jobId r; notSwitched r; sig r; sig1 r; sig1Flags r; i32 (chkPeriod r); notModified r; idx r];; fprint [newline].

Definition readUnfulfill : M line unfulfillLog :=
  let! jobId := scan_d in let! notSwitched := scan_d in let! sig := scan_d in let! sig1 := scan_d in
  let! sig1Flags := scan_d in let! chkPeriod := scan_d in let! notModified := scan_d in next;;
  let! idx := read_d in
  ret (UnfulfillLog jobId notSwitched sig sig1 sig1Flags chkPeriod notModified idx).

Definition fields (r : unfulfillLog) : list field :=
  [FInt (jobId r); FInt (notSwitched r); FInt (sig r); FInt (sig1 r); FInt (sig1Flags r); FInt (chkPeriod r); FInt (notModified r);
   FInt (idx r)].
Definition wf (r : unfulfillLog) : bool := forallb good (fields r).

Lemma Unfulfill_writes_ok r : wf r = true -> writes_line (writeUnfulfill r) (fields r).
Proof. destruct r. unfold wf, fields. cbn. intros H. tests. unfold writeUnfulfill. cbn. rewrite good_i32 by done. wrt. done. Qed.

Lemma Unfulfill_reads_ok r : wf r = true -> reads readUnfulfill (fields r) r.
Proof. destruct r. unfold wf, fields, reads. cbn. intros H. tests. unfold readUnfulfill. do 9 rd. by eexists. Qed.
End Unfulfill.

(** ** Requests about a job *)

Module JobSwitch.
Record jobSwitchLog := JobSwitchLog { userId : Z; jobId : Z; queue : list ascii; idx : Z; userName : list ascii }.

Definition writeJobSwitch (r : jobSwitchLog) : M wfile unit :=
  fprint_d [userId r; jobId r];; addQ (Some (queue r));; fprint_d [idx r];; addQ (Some (userName r));; fprint [newline].

Definition readJobSwitch : M line jobSwitchLog :=
  let! userId := scan_d in let! jobId := scan_d in next;;
  let! queue := copyQStr MAX_LSB_NAME_LEN true in
  let! idx := read_d in
  let! userName := copyQStr MAX_LSB_NAME_LEN true in
  ret (JobSwitchLog userId jobId queue idx userName).

Definition fields (r : jobSwitchLog) : list field :=
  [FInt (userId r); FInt (jobId r); FStr (queue r); FInt (idx r); FStr (userName r)].
Definition wf (r : jobSwitchLog) : bool :=
  forallb good (fields r) && fits MAX_LSB_NAME_LEN true (queue r) && fits MAX_LSB_NAME_LEN true (userName r).

Lemma JobSwitch_writes_ok r : writes_line (writeJobSwitch r) (fields r).
Proof. unfold writeJobSwitch. wrt. done. Qed.

Lemma JobSwitch_reads_ok r : wf r = true -> reads readJobSwitch (fields r) r.
Proof. destruct r. unfold wf, fields, reads. cbn. intros H. tests. unfold readJobSwitch. do 6 rd. by eexists. Qed.
End JobSwitch.

Module JobMove.
Record jobMoveLog := JobMoveLog { userId : Z; jobId : Z; position : Z; base : Z; idx : Z; userName : list ascii }.

Definition writeJobMove (r : jobMoveLog) : M wfile unit :=
  fprint_d [userId r; jobId r; position r; base r; idx r];; addQ (Some (userName r));; fprint [newline].

Definition readJobMove : M line jobMoveLog :=
  let! userId := scan_d in let! jobId := scan_d in let! position := scan_d in let! base := scan_d in next;;
  let! idx := read_d in
  let! userName := copyQStr MAX_LSB_NAME_LEN true in
  ret (JobMoveLog userId jobId position base idx userName).

Definition fields (r : jobMoveLog) : list field :=
  [FInt (userId r); FInt (jobId r); FInt (position r); FInt (base r); FInt (idx r); FStr (userName r)].
Definition wf (r : jobMoveLog) : bool := forallb good (fields r) && fits MAX_LSB_NAME_LEN true (userName r).

Lemma JobMove_writes_ok r : writes_line (writeJobMove r) (fields r).
Proof. unfold writeJobMove. wrt. done. Qed.

Lemma JobMove_reads_ok r : wf r = true -> reads readJobMove (fields r) r.
Proof. destruct r. unfold wf, fields, reads. cbn. intros H. tests. unfold readJobMove. do 7 rd. by eexists. Qed.
End JobMove.

Module Mig.
Record migLog := MigLog {
  jobId : Z; numAskedHosts : Z; askedHosts : list (list ascii); userId : Z; idx : Z; userName : list ascii }.

Definition writeMig (r : migLog) : M wfile unit :=
  fprint_d [jobId r; numAskedHosts r];;
  write_strs (askedHosts r) (numAskedHosts r);;
  fprint_d [userId r];; fprint_d [idx r];; addQ (Some (userName r));; fprint [newline].

(** The name of a host is read into an array of [MAXHOSTNAMELEN] bytes. *)
Definition readMig : M line migLog :=
  let! jobId := scan_d in let! numAskedHosts := scan_d in next;;
  let! askedHosts := when (negb (numAskedHosts =? 0)) (calloc numAskedHosts;; read_strs MAXHOSTNAMELEN numAskedHosts) [] in
  let! userId := read_d in
  let! idx := peek scan_d in
  let! userName := copyQStr MAX_LSB_NAME_LEN true in
  ret (MigLog jobId numAskedHosts askedHosts userId idx userName).

Definition fields (r : migLog) : list field :=
  [FInt (jobId r); FInt (numAskedHosts r)] ++ (FStr <$> askedHosts r) ++ [FInt (userId r); FInt (idx r); FStr (userName r)].
Definition wf (r : migLog) : bool :=
  forallb good (fields r) && okstrs MAXHOSTNAMELEN (numAskedHosts r) (askedHosts r) && fits MAX_LSB_NAME_LEN true (userName r).

Lemma Mig_writes_ok r : wf r = true -> writes_line (writeMig r) (fields r).
Proof. unfold wf. intros H. tests. unfold writeMig. wrt. done. Qed.

Lemma Mig_reads_ok r : wf r = true -> reads readMig (fields r) r.
Proof.
  destruct r. unfold wf, fields, reads. cbn. rewrite forallb_app. cbn. intros H. tests. unfold readMig.
  do 3 rd. eapply reads_bind; [by eapply when_strs|]. do 3 rd. by eexists.
Qed.
End Mig.

Module JobSigAct.
Record sigactLog := SigactLog {
  jobId : Z; period : Z; pid : Z; jStatus : Z; reasons : Z; flags : Z; signalSymbol : option (list ascii); actStatus : Z; idx : Z }.

Definition writeJobSigAct (r : sigactLog) : M wfile unit :=
  fprint_d [jobId r; i32 (period r); pid r; jStatus r; reasons r; flags r; actStatus r];;
  addQ (signalSymbol r);; fprint_d [idx r];; fprint [newline].

Definition readJobSigAct : M line sigactLog :=
  let! jobId := scan_d in let! period := scan_d in let! pid := scan_d in let! jStatus := scan_d in
  let! reasons := scan_d in let! flags := scan_d in let! actStatus := scan_d in next;;
  let! sigSymbol := strip_next MAXLINELEN in
  let! idx := scan_d in
  ret (SigactLog jobId period pid jStatus reasons flags (Some sigSymbol) actStatus idx).

Definition fields (r : sigactLog) : list field :=
  [FInt (jobId r); FInt (period r); FInt (pid r); FInt (jStatus r); FInt (reasons r); FInt (flags r); FInt (actStatus r);
   FStr (str (signalSymbol r)); FInt (idx r)].
Definition wf (r : sigactLog) : bool :=
  forallb good (fields r) && isSome (signalSymbol r) && (Z.of_nat (length (str (signalSymbol r))) <? MAXLINELEN).

Lemma JobSigAct_writes_ok r : wf r = true -> writes_line (writeJobSigAct r) (fields r).
Proof. destruct r. unfold wf, fields. cbn. intros H. tests. unfold writeJobSigAct. cbn. rewrite good_i32 by done. wrt. done. Qed.

Lemma JobSigAct_reads_ok r : wf r = true -> reads readJobSigAct (fields r) r.
Proof.
  destruct r as [? ? ? ? ? ? [s|] ? ?]; unfold wf, fields, reads; cbn; intros H; tests; [|done]. unfold readJobSigAct. do 10 rd. by eexists.
Qed.
End JobSigAct.

Module JobSignal.
Record signalLog := SignalLog {
  userId : Z; jobId : Z; signalSymbol : option (list ascii); runCount : Z; idx : Z; userName : list ascii }.

Definition writeJobSignal (r : signalLog) : M wfile unit :=
  fprint_d [jobId r; userId r; runCount r];; addQ (signalSymbol r);; fprint_d [idx r];; addQ (Some (userName r));; fprint [newline].

Definition readJobSignal : M line signalLog :=
  let! jobId := scan_d in let! userId := scan_d in let! runCount := scan_d in next;;
  let! sigSymbol := strip_next MAXLINELEN in
  let! idx := read_d in
  let! userName := copyQStr MAX_LSB_NAME_LEN true in
  ret (SignalLog userId jobId (Some sigSymbol) runCount idx userName).

Definition fields (r : signalLog) : list field :=
  [FInt (jobId r); FInt (userId r); FInt (runCount r); FStr (str (signalSymbol r)); FInt (idx r); FStr (userName r)].
Definition wf (r : signalLog) : bool :=
  forallb good (fields r) && isSome (signalSymbol r) && (Z.of_nat (length (str (signalSymbol r))) <? MAXLINELEN) &&
  fits MAX_LSB_NAME_LEN true (userName r).

Lemma JobSignal_writes_ok r : wf r = true -> writes_line (writeJobSignal r) (fields r).
Proof. unfold wf. intros H. tests. unfold writeJobSignal. wrt. done. Qed.

Lemma JobSignal_reads_ok r : wf r = true -> reads readJobSignal (fields r) r.
Proof.
  destruct r as [? ? [s|] ? ? ?]; unfold wf, fields, reads; cbn; intros H; tests; [|done]. unfold readJobSignal. do 7 rd. by eexists.
Qed.
End JobSignal.
