(* ===== verification/LogCtrl.v ===== *)
(** * Records of the event log: messages, daemons, queues and hosts

    The remaining short records of [lsbatch/lib/lsb.log.c], in the form of
    [LogEvent.v]. *)

From Stdlib Require Import Ascii SpecFloat.
From S2P Require Import Prelude CString Float32 Stdio Words Lsb Grp LogBase.

(** ** Jobs *)

Module JobMsg.
Record jobMsgLog := JobMsgLog {
  usrId : Z; jobId : Z; msgId : Z; type : Z; src : option (list ascii); dest : option (list ascii); msg : option (list ascii); idx : Z }.

Definition writeJobMsg (r : jobMsgLog) : M wfile unit :=
  fprint_d [usrId r; jobId r; msgId r; type r];;
  addQ (src r);; addQ (dest r);; addQ (msg r);; fprint_d [idx r];; fprint [newline].

Definition readJobMsg : M line jobMsgLog :=
  let! usrId := scan_d in let! jobId := scan_d in let! msgId := scan_d in let! type := scan_d in next;;
  let! src := strip_next MAXLINELEN in
  let! dest := strip_next MAXLINELEN in
  let! msg := strip_next MAXLINELEN in
  let! idx := read_d in
  ret (JobMsgLog usrId jobId msgId type (Some src) (Some dest) (Some msg) idx).

(** An acknowledgement has the same members and the same form; it is written
    from a [jobMsgLog] and read into a [jobMsgAckLog]. *)
Definition jobMsgAckLog : Type := jobMsgLog.

Definition writeJobMsgAck (r : jobMsgLog) : M wfile unit :=
  fprint_d [usrId r; jobId r; msgId r; type r];;
  addQ (src r);; addQ (dest r);; addQ (msg r);; fprint_d [idx r];; fprint [newline].

Definition readJobMsgAck : M line jobMsgAckLog :=
  let! usrId := scan_d in let! jobId := scan_d in let! msgId := scan_d in let! type := scan_d in next;;
  let! src := strip_next MAXLINELEN in
  let! dest := strip_next MAXLINELEN in
  let! msg := strip_next MAXLINELEN in
  let! idx := read_d in
  ret (JobMsgLog usrId jobId msgId type (Some src) (Some dest) (Some msg) idx).

Definition fields (r : jobMsgLog) : list field :=
  [FInt (usrId r); FInt (jobId r); FInt (msgId r); FInt (type r); FStr (str (src r)); FStr (str (dest r)); FStr (str (msg r)); FInt (idx r)].

Definition okbuf (p : option (list ascii)) : bool := isSome p && (Z.of_nat (length (str p)) <? MAXLINELEN).
Definition wf (r : jobMsgLog) : bool := forallb good (fields r) && okbuf (src r) && okbuf (dest r) && okbuf (msg r).

Lemma JobMsg_writes_ok r : wf r = true -> writes_line (writeJobMsg r) (fields r).
Proof. unfold wf, okbuf. intros H. tests. unfold writeJobMsg. wrt. done. Qed.

Lemma JobMsg_reads_ok r : wf r = true -> reads readJobMsg (fields r) r.
Proof.
  destruct r as [? ? ? ? [s|] [d|] [m|] ?]; unfold wf, fields, reads, okbuf; cbn; intros H; tests; try done.
  unfold readJobMsg. do 9 rd. by eexists.
Qed.
End JobMsg.

Module JobRequeue.
Record jobRequeueLog := JobRequeueLog { jobId : Z; idx : Z }.

Definition writeJobRqueue (r : jobRequeueLog) : M wfile unit := fprint_d [jobId r; idx r];; fprint [newline].
Definition readJobRequeue : M line jobRequeueLog :=
  let! jobId := read_d in let! idx := read_d in ret (JobRequeueLog jobId idx).

Definition fields (r : jobRequeueLog) : list field := [FInt (jobId r); FInt (idx r)].
Definition wf (r : jobRequeueLog) : bool := forallb good (fields r).

Lemma JobRequeue_writes_ok r : writes_line (writeJobRqueue r) (fields r).
Proof. unfold writeJobRqueue. wrt. done. Qed.
Lemma JobRequeue_reads_ok r : wf r = true -> reads readJobRequeue (fields r) r.
Proof. destruct r. unfold wf, fields, reads. cbn. intros H. tests. unfold readJobRequeue. do 2 rd. by eexists. Qed.
End JobRequeue.

Module JobClean.
Record jobCleanLog := JobCleanLog { jobId : Z; idx : Z }.

Definition writeJobClean (r : jobCleanLog) : M wfile unit := fprint_d [jobId r; idx r];; fprint [newline].
Definition readJobClean : M line jobCleanLog :=
  let! jobId := scan_d in let! idx := scan_d in next;; ret (JobCleanLog jobId idx).

Definition fields (r : jobCleanLog) : list field := [FInt (jobId r); FInt (idx r)].
Definition wf (r : jobCleanLog) : bool := forallb good (fields r).

Lemma JobClean_writes_ok r : writes_line (writeJobClean r) (fields r).
Proof. unfold writeJobClean. wrt. done. Qed.
Lemma JobClean_reads_ok r : wf r = true -> reads readJobClean (fields r) r.
Proof. destruct r. unfold wf, fields, reads. cbn. intros H. tests. unfold readJobClean. do 3 rd. by eexists. Qed.
End JobClean.

Module Chkpnt.
Record chkpntLog := ChkpntLog { jobId : Z; period : Z; pid : Z; ok : Z; flags : Z; idx : Z }.

Definition writeChkpnt (r : chkpntLog) : M wfile unit :=
  fprint_d [jobId r; i32 (period r); pid r; ok r; flags r; idx r];; fprint [newline].
Definition readChkpnt : M line chkpntLog :=
  let! jobId := scan_d in let! period := scan_d in let! pid := scan_d in let! ok := scan_d in let! flags := scan_d in next;;
  let! idx := scan_d in
  ret (ChkpntLog jobId period pid ok flags idx).

Definition fields (r : chkpntLog) : list field :=
  [FInt (jobId r); FInt (period r); FInt (pid r); FInt (ok r); FInt (flags r); FInt (idx r)].
Definition wf (r : chkpntLog) : bool := forallb good (fields r).

Lemma Chkpnt_writes_ok r : wf r = true -> writes_line (writeChkpnt r) (fields r).
Proof. destruct r. unfold wf, fields. cbn. intros H. tests. unfold writeChkpnt. cbn. rewrite good_i32 by done. wrt. done. Qed.
Lemma Chkpnt_reads_ok r : wf r = true -> reads readChkpnt (fields r) r.
Proof. destruct r. unfold wf, fields, reads. cbn. intros H. tests. unfold readChkpnt. do 7 rd. by eexists. Qed.
End Chkpnt.

Module JobForce.
Record jobForceRequestLog := JobForceRequestLog {
  userId : Z; numExecHosts : Z; execHosts : list (list ascii); jobId : Z; idx : Z; options : Z; userName : list ascii }.

(** The numbers end with a blank of their own. *)
Definition writeJobForce (r : jobForceRequestLog) : M wfile unit :=
  fprint_d [jobId r; userId r; idx r; options r; numExecHosts r];; fprint [" "%char];;
  write_strs (execHosts r) (numExecHosts r);;
  addQ (Some (userName r));; fprint [newline].

Definition readJobForce : M line jobForceRequestLog :=
  let! jobId := scan_d in let! userId := scan_d in let! idx := scan_d in let! options := scan_d in let! numExecHosts := scan_d in next;;
  calloc numExecHosts;;
  let! execHosts := read_strs MAXLINELEN numExecHosts in
  let! userName := copyQStr MAX_LSB_NAME_LEN true in
  ret (JobForceRequestLog userId numExecHosts execHosts jobId idx options userName).

Definition fields (r : jobForceRequestLog) : list field :=
  [FInt (jobId r); FInt (userId r); FInt (idx r); FInt (options r); FInt (numExecHosts r); FBlank] ++
  (FStr <$> execHosts r) ++ [FStr (userName r)].
Definition wf (r : jobForceRequestLog) : bool :=
  forallb good (fields r) && okstrs MAXLINELEN (numExecHosts r) (execHosts r) && fits MAX_LSB_NAME_LEN true (userName r).

Lemma JobForce_writes_ok r : wf r = true -> writes_line (writeJobForce r) (fields r).
Proof. unfold wf. intros H. tests. unfold writeJobForce. wrt. done. Qed.

Lemma read_strs_blank cap n ss fs : okstrs cap n ss = true ->
  read_strs cap n (at_ (FBlank :: (FStr <$> ss) ++ fs)) = Some (inr ss, match ss with [] => at_ (FBlank :: fs) | _ => at_ fs end).
Proof.
  destruct ss as [|s ss]; unfold okstrs; intros H; tests; bool_prop; subst; unfold read_strs; rewrite Nat2Z.id; [done|].
  cbn in H0. tests. cbn [length fmap list_fmap app]. rewrite read_n_S. erewrite bind_val; [|by apply strip_next_blank].
  pose proof (read_strs_at cap (Z.of_nat (length ss)) ss fs) as E. unfold read_strs, okstrs in E. rewrite Nat2Z.id, Z.eqb_refl, H1 in E.
  erewrite bind_val; [|by apply E]. done.
Qed.

Lemma JobForce_reads_ok r : wf r = true -> reads readJobForce (fields r) r.
Proof.
  destruct r. unfold wf, fields, reads. cbn. rewrite forallb_app. cbn. intros H. tests. unfold readJobForce.
  do 6 rd. unfold calloc. rewrite (proj2 (Z.ltb_ge _ _)) by (unfold okstrs in H1; tests; bool_prop; lia).
  eapply reads_bind; [done|]. eapply reads_bind; [by apply read_strs_blank|]. destruct execHosts0; rd; by eexists.
Qed.
End JobForce.

Module JobAttrSet.
Record jobAttrSetLog := JobAttrSetLog { jobId : Z; idx : Z; uid : Z; port : Z; hostname : option (list ascii) }.

Definition writeJobAttrSet (r : jobAttrSetLog) : M wfile unit :=
  fprint_d [jobId r; idx r; uid r; port r];; fprint [" "%char];; fprint [newline].
Definition readJobAttrSet : M line jobAttrSetLog :=
  let! jobId := scan_d in let! idx := scan_d in let! uid := scan_d in let! port := scan_d in
  ret (JobAttrSetLog jobId idx uid port None).

Definition fields (r : jobAttrSetLog) : list field := [FInt (jobId r); FInt (idx r); FInt (uid r); FInt (port r)].
(** The name of the host is not logged. *)
Definition wf (r : jobAttrSetLog) : bool := forallb good (fields r) && bool_decide (hostname r = None).

Lemma JobAttrSet_writes_ok r : writes_line (writeJobAttrSet r) (fields r ++ [FBlank]).
Proof. unfold writeJobAttrSet. wrt. done. Qed.
Lemma JobAttrSet_reads_ok r : wf r = true -> reads readJobAttrSet (fields r) r.
Proof. destruct r. unfold wf, fields, reads. cbn. intros H. tests. bool_prop. subst. unfold readJobAttrSet. do 4 rd. by eexists. Qed.
End JobAttrSet.

(** ** Queues, hosts and the daemon *)

Module QueueCtrl.
Record queueCtrlLog := QueueCtrlLog {
  opCode : Z; queue : list ascii; userId : Z; userName : list ascii; msg : list ascii }.

Definition writeQueueCtrl (r : queueCtrlLog) : M wfile unit :=
  fprint_d [opCode r];; addQ (Some (queue r));; fprint_d [userId r];; addQ (Some (userName r));; addQ (Some (msg r));; fprint [newline].

Definition readQueueCtrl (version : spec_float) : M line queueCtrlLog :=
  let! opCode := read_d in
  let! queue := copyQStr MAX_LSB_NAME_LEN true in
  let! userId := peek scan_d in
  let! userName := copyQStr MAX_LSB_NAME_LEN true in
  let! msg := when (since VOLCLAVA_VERSION2_1 version) (copyQStr MAXLINELEN false) [] in
  ret (QueueCtrlLog opCode queue userId userName msg).

Definition fields (r : queueCtrlLog) : list field :=
  [FInt (opCode r); FStr (queue r); FInt (userId r); FStr (userName r); FStr (msg r)].
Definition wf (version : spec_float) (r : queueCtrlLog) : bool :=
  forallb good (fields r) && fits MAX_LSB_NAME_LEN true (queue r) && fits MAX_LSB_NAME_LEN true (userName r) &&
  fits MAXLINELEN false (msg r) && oknew (since VOLCLAVA_VERSION2_1 version) (msg r).

Lemma QueueCtrl_writes_ok r : writes_line (writeQueueCtrl r) (fields r).
Proof. unfold writeQueueCtrl. wrt. done. Qed.
Lemma QueueCtrl_reads_ok version r : wf version r = true -> reads (readQueueCtrl version) (fields r) r.
Proof.
  destruct r. unfold wf, fields, reads. cbn. intros H. tests. unfold readQueueCtrl. do 4 rd.
  eapply reads_bind; [apply when_new; [done|intros _; rd_one]|]. by eexists.
Qed.
End QueueCtrl.

Module HostCtrl.
Record hostCtrlLog := HostCtrlLog {
  opCode : Z; host : list ascii; userId : Z; userName : list ascii; msg : list ascii }.

Definition writeHostCtrl (r : hostCtrlLog) : M wfile unit :=
  fprint_d [opCode r];; addQ (Some (host r));; fprint_d [userId r];; addQ (Some (userName r));; addQ (Some (msg r));; fprint [newline].

Definition readHostCtrl (version : spec_float) : M line hostCtrlLog :=
  let! opCode := read_d in
  let! host := copyQStr MAXHOSTNAMELEN false in
  let! userId := peek scan_d in
  let! userName := copyQStr MAX_LSB_NAME_LEN true in
  let! msg := when (since VOLCLAVA_VERSION2_1 version) (copyQStr MAXLINELEN false) [] in
  ret (HostCtrlLog opCode host userId userName msg).

Definition fields (r : hostCtrlLog) : list field :=
  [FInt (opCode r); FStr (host r); FInt (userId r); FStr (userName r); FStr (msg r)].
Definition wf (version : spec_float) (r : hostCtrlLog) : bool :=
  forallb good (fields r) && fits MAXHOSTNAMELEN false (host r) && fits MAX_LSB_NAME_LEN true (userName r) &&
  fits MAXLINELEN false (msg r) && oknew (since VOLCLAVA_VERSION2_1 version) (msg r).

Lemma HostCtrl_writes_ok r : writes_line (writeHostCtrl r) (fields r).
Proof. unfold writeHostCtrl. wrt. done. Qed.
Lemma HostCtrl_reads_ok version r : wf version r = true -> reads (readHostCtrl version) (fields r) r.
Proof.
  destruct r. unfold wf, fields, reads. cbn. intros H. tests. unfold readHostCtrl. do 4 rd.
  eapply reads_bind; [apply when_new; [done|intros _; rd_one]|]. by eexists.
Qed.
End HostCtrl.

Module MbdStart.
Record mbdStartLog := MbdStartLog { master : list ascii; cluster : list ascii; numHosts : Z; numQueues : Z }.

Definition writeMbdStart (r : mbdStartLog) : M wfile unit :=
  addQ (Some (master r));; addQ (Some (cluster r));; fprint_d [numHosts r; numQueues r];; fprint [newline].
Definition readMbdStart : M line mbdStartLog :=
  let! master := copyQStr MAXHOSTNAMELEN false in
  let! cluster := copyQStr MAXLSFNAMELEN false in
  let! numHosts := scan_d in let! numQueues := scan_d in
  ret (MbdStartLog master cluster numHosts numQueues).

Definition fields (r : mbdStartLog) : list field := [FStr (master r); FStr (cluster r); FInt (numHosts r); FInt (numQueues r)].
Definition wf (r : mbdStartLog) : bool :=
  forallb good (fields r) && fits MAXHOSTNAMELEN false (master r) && fits MAXLSFNAMELEN false (cluster r).

Lemma MbdStart_writes_ok r : writes_line (writeMbdStart r) (fields r).
Proof. unfold writeMbdStart. wrt. done. Qed.
Lemma MbdStart_reads_ok r : wf r = true -> reads readMbdStart (fields r) r.
Proof. destruct r. unfold wf, fields, reads. cbn. intros H. tests. unfold readMbdStart. do 4 rd. by eexists. Qed.
End MbdStart.

Module MbdDie.
Record mbdDieLog := MbdDieLog { master : list ascii; numRemoveJobs : Z; exitCode : Z; msg : list ascii }.

Definition writeMbdDie (r : mbdDieLog) : M wfile unit :=
  addQ (Some (master r));; fprint_d [numRemoveJobs r; exitCode r];; addQ (Some (msg r));; fprint [newline].
Definition readMbdDie (version : spec_float) : M line mbdDieLog :=
  let! master := copyQStr MAXHOSTNAMELEN false in
  let! (numRemoveJobs, exitCode) := peek (let! n := scan_d in let! e := scan_d in ret (n, e)) in
  let! msg := when (since VOLCLAVA_VERSION2_1 version) (copyQStr MAXLINELEN false) [] in
  ret (MbdDieLog master numRemoveJobs exitCode msg).

Definition fields (r : mbdDieLog) : list field := [FStr (master r); FInt (numRemoveJobs r); FInt (exitCode r); FStr (msg r)].
Definition wf (version : spec_float) (r : mbdDieLog) : bool :=
  forallb good (fields r) && fits MAXHOSTNAMELEN false (master r) && fits MAXLINELEN false (msg r) &&
  oknew (since VOLCLAVA_VERSION2_1 version) (msg r).

Lemma MbdDie_writes_ok r : writes_line (writeMbdDie r) (fields r).
Proof. unfold writeMbdDie. wrt. done. Qed.
Lemma MbdDie_reads_ok version r : wf version r = true -> reads (readMbdDie version) (fields r) r.
Proof.
  destruct r. unfold wf, fields, reads. cbn. intros H. tests. unfold readMbdDie. rd.
  eapply reads_bind; [eapply peek_val; erewrite bind_val; [|by apply scan_d_at]; erewrite bind_val; [|by apply scan_d_after]; done|].
  cbv beta iota. eapply reads_bind; [apply when_new; [done|intros _; rd_one]|]. by eexists.
Qed.
End MbdDie.

Module LoadIndex.
Record loadIndexLog := LoadIndexLog { nIdx : Z; name : list (list ascii) }.

Definition writeLoadIndex (r : loadIndexLog) : M wfile unit :=
  fprint_d [nIdx r];; write_strs (name r) (nIdx r);; fprint [newline].
Definition readLoadIndex : M line loadIndexLog :=
  let! nIdx := scan_d in
  calloc nIdx;;
  next;;
  let! name := save_strs nIdx in
  ret (LoadIndexLog nIdx name).

Definition fields (r : loadIndexLog) : list field := [FInt (nIdx r)] ++ (FStr <$> name r).
Definition wf (r : loadIndexLog) : bool := forallb good (fields r) && okstrs (2 ^ 31) (nIdx r) (name r).

Lemma LoadIndex_writes_ok r : wf r = true -> writes_line (writeLoadIndex r) (fields r).
Proof. unfold wf. intros H. tests. unfold writeLoadIndex. wrt. unfold fields. by rewrite app_nil_r. Qed.
Lemma LoadIndex_reads_ok r : wf r = true -> reads readLoadIndex (fields r) r.
Proof.
  destruct r. unfold wf, fields, reads. cbn. intros H. tests. unfold readLoadIndex. rd.
  unfold calloc. rewrite (proj2 (Z.ltb_ge _ _)) by (unfold okstrs in H0; tests; bool_prop; lia). eapply reads_bind; [done|]. rd.
  eapply reads_bind; [rewrite <- (app_nil_r (FStr <$> _)); by eapply save_strs_at|]. by eexists.
Qed.
End LoadIndex.

Module LogSwitch.
Record logSwitchLog := LogSwitchLog { lastJobId : Z }.

Definition writeLogSwitch (r : logSwitchLog) : M wfile unit := fprint_d [lastJobId r];; fprint [" "%char];; fprint [newline].
(** The blank in the format ["%d %n"]. *)
Definition skip_blanks : M line unit := fun l => w ← l; Some (inr tt, Some (skip_space w)).
Definition readLogSwitch : M line logSwitchLog :=
  let! lastJobId := scan_d in skip_blanks;; next;; ret (LogSwitchLog lastJobId).

Definition fields (r : logSwitchLog) : list field := [FInt (lastJobId r)].
Definition wf (r : logSwitchLog) : bool := forallb good (fields r).

Lemma LogSwitch_writes_ok r : writes_line (writeLogSwitch r) (fields r ++ [FBlank]).
Proof. unfold writeLogSwitch. wrt. done. Qed.
Lemma LogSwitch_reads_ok r : wf r = true -> reads readLogSwitch (fields r) r.
Proof. destruct r. unfold wf, fields, reads. cbn. intros H. tests. unfold readLogSwitch. rd. by eexists. Qed.
End LogSwitch.
