(* ===== verification/LogJob.v ===== *)
(** * Records of the event log: new, modified and finished jobs

    The three long records of [lsbatch/lib/lsb.log.c], in the form of
    [LogEvent.v].  Which fields a record has depends on the options of the job. *)

From Stdlib Require Import Ascii SpecFloat.
From S2P Require Import Prelude CString Float32 Stdio Words Lsb Grp LogBase LogEvent.

(** ** Resource limits, [lsbatch/lib/lsb.misc.c] *)

Definition LSF_RLIMIT_FSIZE : nat := 1.
Definition LSF_RLIMIT_DATA : nat := 2.

Definition convertRLimit (pRLimits : list Z) (toKb : bool) : list Z :=
  imap (fun i v =>
    if (Nat.eqb i LSF_RLIMIT_FSIZE || Nat.eqb i LSF_RLIMIT_DATA) && (0 <? v)
    then if toKb then Z.quot v 1024 else i32 (v * 1024)
    else v) pRLimits.

(** What [limitIsOk_] demands of the limits that are converted. *)
Definition oklimits (l : list Z) : bool :=
  (length l =? LSF_RLIM_NLIMITS)%nat && forallb (fun v => v <? 2 ^ 21) (take 2 (drop 1 l)).

Lemma convertRLimit_roundtrip l : oklimits l = true -> convertRLimit (convertRLimit l false) true = l.
Proof.
  unfold oklimits, convertRLimit. intros H. tests. apply list_eq. intros i. rewrite !list_lookup_imap.
  destruct (l !! i) as [v|] eqn:Hv; [|done]. cbn [fmap option_fmap option_map]. f_equal.
  destruct (Nat.eqb i LSF_RLIMIT_FSIZE || Nat.eqb i LSF_RLIMIT_DATA) eqn:E; [|done]. cbn [andb].
  destruct (Z.ltb_spec 0 v) as [Hp|Hp]; cbn [andb]; [|by rewrite (proj2 (Z.ltb_ge _ _)) by lia].
  assert (Hb : v < 2 ^ 21).
  { assert (v ∈ take 2 (drop 1 l)) as Hin.
    { bool_prop. destruct E as [->%Nat.eqb_eq| ->%Nat.eqb_eq].
      - apply (list_elem_of_lookup_2 _ 0). by rewrite lookup_take_lt, lookup_drop by lia.
      - apply (list_elem_of_lookup_2 _ 1). by rewrite lookup_take_lt, lookup_drop by lia. }
    eapply forallb_forall in H0; [|by apply list_elem_of_In]. by apply Z.ltb_lt in H0. }
  rewrite i32_small by lia. rewrite (proj2 (Z.ltb_lt _ _)) by lia. by rewrite Z.quot_mul by lia.
Qed.

Lemma convertRLimit_length l b : length (convertRLimit l b) = length l.
Proof. apply length_imap. Qed.

(** ** New jobs *)

Module JobNew.
Record jobNewLog := JobNewLog {
  jobId : Z; userId : Z; userName : list ascii; options : Z; options2 : Z; numProcessors : Z; submitTime : Z; beginTime : Z;
  termTime : Z; sigValue : Z; chkpntPeriod : Z; restartPid : Z; rLimits : list Z; hostSpec : list ascii; hostFactor : spec_float;
  umask : Z; queue : list ascii; resReq : option (list ascii); fromHost : list ascii; cwd : list ascii; chkpntDir : list ascii;
  inFile : list ascii; outFile : list ascii; errFile : list ascii; inFileSpool : list ascii; commandSpool : list ascii;
  jobSpoolDir : list ascii; subHomeDir : list ascii; jobFile : list ascii; numAskedHosts : Z; askedHosts : list (list ascii);
  dependCond : option (list ascii); jobName : list ascii; command : list ascii; nxf : Z; xf : list xFile;
  preExecCmd : option (list ascii); postExecCmd : option (list ascii); mailUser : option (list ascii);
  projectName : option (list ascii); niosPort : Z; maxNumProcessors : Z; schedHostType : option (list ascii);
  loginShell : option (list ascii); idx : Z; userPriority : Z; jobDesc : list ascii; specifiedCwd : list ascii }.

(** The limits as they are logged. *)
Definition limits_out (options : Z) (l : list Z) : list Z :=
  if has options SUB_RLIMIT_UNIT_IS_KB then l else convertRLimit l false.
Definition limits_in (options : Z) (l : list Z) : list Z :=
  if has options SUB_RLIMIT_UNIT_IS_KB then l else convertRLimit l true.

(** [subNewLine_] works in place, on strings that the record may share with the
    job. *)
Definition writeJobNew (r : jobNewLog) : M wfile unit :=
  let rl := limits_out (options r) (rLimits r) in
  fprint_d [jobId r; userId r; options r; numProcessors r; i32 (submitTime r); i32 (beginTime r); i32 (termTime r);
            sigValue r; chkpntPeriod r; restartPid r];;
  addQ (Some (userName r));;
  write_ints rl LSF_RLIM_NLIMITS;;
  addQ (Some (hostSpec r));;
  fprint_f 6 2 (hostFactor r);;
  fprint_d [umask r];;
  addQ (Some (queue r));;
  addQ (subNewLine_ <$> resReq r);;
  addQ (Some (fromHost r));; addQ (Some (cwd r));; addQ (Some (chkpntDir r));; addQ (Some (inFile r));;
  addQ (Some (outFile r));; addQ (Some (errFile r));; addQ (Some (subHomeDir r));; addQ (Some (jobFile r));;
  fprint_d [numAskedHosts r];;
  write_strs (askedHosts r) (numAskedHosts r);;
  addQ (subNewLine_ <$> dependCond r);;
  addQ (subNewLine_ <$> preExecCmd r);;
  unless (negb (has (options r) SUB_POST_EXEC)) (addQ (subNewLine_ <$> postExecCmd r));;
  addQ (Some (jobName r));;
  addQ (Some (subNewLine_ (command r)));;
  fprint_d [nxf r];;
  write_xf (xf r) (nxf r);;
  addQ (subNewLine_ <$> mailUser r);;
  addQ (projectName r);;
  unless (negb (has (options r) SUB_INTERACTIVE)) (fprint_d [niosPort r]);;
  fprint_d [maxNumProcessors r];;
  addQ (schedHostType r);;
  addQ (loginShell r);;
  fprint_d [options2 r];;
  fprint_d [idx r];;
  unless (negb (has (options2 r) SUB2_BSUB_BLOCK)) (fprint_d [niosPort r]);;
  addQ (Some (inFileSpool r));;
  addQ (Some (commandSpool r));;
  addQ (Some (jobSpoolDir r));;
  fprint_d [userPriority r];;
  addQ (Some (subNewLine_ (jobDesc r)));;
  addQ (Some (specifiedCwd r));;
  fprint [newline].

(** [*line != '\0'] *)
Definition at_end : M line bool := fun l => w ← l; Some (inr (match w with [] => true | _ => false end), l).

(** The port of a blocked submission, for which [line += ccount] moves over the two
    numbers that have been read. *)
Definition read_block (options2 niosPort : Z) : M line Z :=
  if has options2 SUB2_BSUB_BLOCK then
    scan_d;; scan_d;; let! e := at_end in if e then ret niosPort else peek scan_d
  else ret niosPort.

Definition readJobNew (version : spec_float) : M line jobNewLog :=
  let! jobId := scan_d in let! userId := scan_d in let! options := scan_d in let! numProcessors := scan_d in
  let! submitTime := scan_d in let! beginTime := scan_d in let! termTime := scan_d in let! sigValue := scan_d in
  let! chkpntPeriod := scan_d in let! restartPid := scan_d in next;;
  let! userName := copyQStr MAX_LSB_NAME_LEN true in
  let! rLimits := read_n LSF_RLIM_NLIMITS read_d in
  let! hostSpec := copyQStr MAXHOSTNAMELEN false in
  let! hostFactor := scan_f in let! umask := scan_d in next;;
  let! queue := copyQStr MAX_LSB_NAME_LEN true in
  let! resReq := saveQ in
  let! fromHost := copyQStr MAXHOSTNAMELEN true in
  let! cwd := copyQStr MAXFILENAMELEN false in
  let! chkpntDir := copyQStr MAXFILENAMELEN false in
  let! inFile := copyQStr MAXFILENAMELEN false in
  let! outFile := copyQStr MAXFILENAMELEN false in
  let! errFile := copyQStr MAXFILENAMELEN false in
  let! subHomeDir := copyQStr MAXFILENAMELEN false in
  let! jobFile := copyQStr MAXFILENAMELEN true in
  let! numAskedHosts := read_d in
  let! askedHosts := read_strs MAXLINELEN numAskedHosts in
  let! dependCond := saveQ in
  let! preExecCmd := saveQ in
  let! postExecCmd := when (has options SUB_POST_EXEC) saveQ None in
  let! jobName := copyQStr MAX_CMD_DESC_LEN false in
  let! command := copyQStr MAX_CMD_DESC_LEN false in
  let! nxf := read_d in
  let! xf := read_xf nxf in
  let! mailUser := saveQ in
  let! projectName := saveQ in
  let! niosPort := when (has options SUB_INTERACTIVE) read_d 0 in
  let! maxNumProcessors := read_d in
  let! schedHostType := saveQ in
  let! loginShell := saveQ in
  let! (options2, idx) := peek (let! o := scan_d in let! i := scan_d in ret (o, i)) in
  let! niosPort := read_block options2 niosPort in
  let rLimits := limits_in options rLimits in
  let! inFileSpool := copyQStr MAXFILENAMELEN false in
  let! commandSpool := copyQStr MAXFILENAMELEN false in
  let! jobSpoolDir := copyQStr MAXPATHLEN false in
  let! userPriority := peek scan_d in
  let! jobDesc := when (since VOLCLAVA_VERSION2_2 version) (copyQStr MAX_JOB_DESC_LEN false) [] in
  let! specifiedCwd := when (since VOLCLAVA_VERSION2_2 version) (copyQStr MAXFILENAMELEN false) [] in
  ret (JobNewLog jobId userId userName options options2 numProcessors submitTime beginTime termTime sigValue chkpntPeriod restartPid
         rLimits hostSpec hostFactor umask queue resReq fromHost cwd chkpntDir inFile outFile errFile inFileSpool commandSpool
         jobSpoolDir subHomeDir jobFile numAskedHosts askedHosts dependCond jobName command nxf xf preExecCmd postExecCmd mailUser
         projectName niosPort maxNumProcessors schedHostType loginShell idx userPriority jobDesc specifiedCwd).

Definition fields (r : jobNewLog) : list field :=
  [FInt (jobId r); FInt (userId r); FInt (options r); FInt (numProcessors r); FInt (submitTime r); FInt (beginTime r);
   FInt (termTime r); FInt (sigValue r); FInt (chkpntPeriod r); FInt (restartPid r); FStr (userName r)] ++
  (FInt <$> limits_out (options r) (rLimits r)) ++
  [FStr (hostSpec r); FFix 6 2 (hostFactor r); FInt (umask r); FStr (queue r); FStr (str (resReq r)); FStr (fromHost r); FStr (cwd r);
   FStr (chkpntDir r); FStr (inFile r); FStr (outFile r); FStr (errFile r); FStr (subHomeDir r); FStr (jobFile r);
   FInt (numAskedHosts r)] ++
  (FStr <$> askedHosts r) ++
  [FStr (str (dependCond r)); FStr (str (preExecCmd r))] ++
  (if has (options r) SUB_POST_EXEC then [FStr (default [] (postExecCmd r))] else []) ++
  [FStr (jobName r); FStr (command r); FInt (nxf r)] ++
  (xf r ≫= xf_fields) ++
  [FStr (str (mailUser r)); FStr (str (projectName r))] ++
  (if has (options r) SUB_INTERACTIVE then [FInt (niosPort r)] else []) ++
  [FInt (maxNumProcessors r); FStr (str (schedHostType r)); FStr (str (loginShell r)); FInt (options2 r); FInt (idx r)] ++
  (if has (options2 r) SUB2_BSUB_BLOCK then [FInt (niosPort r)] else []) ++
  [FStr (inFileSpool r); FStr (commandSpool r); FStr (jobSpoolDir r); FInt (userPriority r); FStr (jobDesc r); FStr (specifiedCwd r)].

(** An optional string is there exactly if its option is set. *)
Definition okopt (b : bool) (p : option (list ascii)) : bool := if b then bool_decide (is_Some p) else bool_decide (p = None).
Definition okport (o o2 port : Z) : bool :=
  has o SUB_INTERACTIVE || has o2 SUB2_BSUB_BLOCK || (port =? 0).

Definition wf (version : spec_float) (r : jobNewLog) : bool :=
  let new := since VOLCLAVA_VERSION2_2 version in
  forallb good (fields r) && fits MAX_LSB_NAME_LEN true (userName r) && oklimits (rLimits r) && fits MAXHOSTNAMELEN false (hostSpec r) &&
  okf 2 (hostFactor r) && fits MAX_LSB_NAME_LEN true (queue r) && isSome (resReq r) && fits MAXHOSTNAMELEN true (fromHost r) &&
  fits MAXFILENAMELEN false (cwd r) && fits MAXFILENAMELEN false (chkpntDir r) && fits MAXFILENAMELEN false (inFile r) &&
  fits MAXFILENAMELEN false (outFile r) && fits MAXFILENAMELEN false (errFile r) && fits MAXFILENAMELEN false (subHomeDir r) &&
  fits MAXFILENAMELEN true (jobFile r) && okstrs MAXLINELEN (numAskedHosts r) (askedHosts r) &&
  isSome (dependCond r) && isSome (preExecCmd r) && okopt (has (options r) SUB_POST_EXEC) (postExecCmd r) &&
  fits MAX_CMD_DESC_LEN false (jobName r) && fits MAX_CMD_DESC_LEN false (command r) && okxf (nxf r) (xf r) &&
  isSome (mailUser r) && isSome (projectName r) && okport (options r) (options2 r) (niosPort r) &&
  isSome (schedHostType r) && isSome (loginShell r) &&
  fits MAXFILENAMELEN false (inFileSpool r) && fits MAXFILENAMELEN false (commandSpool r) && fits MAXPATHLEN false (jobSpoolDir r) &&
  fits MAX_JOB_DESC_LEN false (jobDesc r) && oknew new (jobDesc r) && fits MAXFILENAMELEN false (specifiedCwd r) &&
  oknew new (specifiedCwd r).

Lemma limits_in_out o l : oklimits l = true -> limits_in o (limits_out o l) = l.
Proof. intros H. unfold limits_in, limits_out. destruct (has o _); [done|]. by apply convertRLimit_roundtrip. Qed.

Lemma limits_out_length o l : oklimits l = true -> length (limits_out o l) = LSF_RLIM_NLIMITS.
Proof.
  unfold oklimits, limits_out. intros H. tests. apply Nat.eqb_eq in H. destruct (has o _); [done|]. by rewrite convertRLimit_length.
Qed.

Lemma JobNew_writes_ok version r : wf version r = true -> writes_line (writeJobNew r) (fields r).
Proof.
  destruct r. unfold wf, fields. cbn. repeat (rewrite forallb_app; cbn). intros H. tests.
  unfold writeJobNew. cbn. rewrite !good_i32 by done. pose proof (limits_out_length options0 rLimits0 ltac:(assumption)).
  wrt. done.
Qed.

Lemma when_port (b : bool) z fs : forallb good (if b then [FInt z] else []) = true ->
  when b read_d 0 (at_ ((if b then [FInt z] else []) ++ fs)) = Some (inr (if b then z else 0), at_ fs).
Proof. destruct b; [|done]. cbn. intros H. tests. by apply read_d_at. Qed.

Lemma read_block_at o2 i p0 z fs :
  good (FInt o2) = true -> good (FInt i) = true -> forallb good (if has o2 SUB2_BSUB_BLOCK then [FInt z] else []) = true ->
  read_block o2 p0 (at_ (FInt o2 :: FInt i :: (if has o2 SUB2_BSUB_BLOCK then [FInt z] else []) ++ fs)) =
    Some (inr (if has o2 SUB2_BSUB_BLOCK then z else p0),
          if has o2 SUB2_BSUB_BLOCK then after (FInt z :: fs) else at_ (FInt o2 :: FInt i :: fs)).
Proof.
  intros Ho Hi. unfold read_block. destruct (has o2 SUB2_BSUB_BLOCK); [|done]. cbn. intros H. tests.
  do 2 (erewrite bind_val; [|first [by apply scan_d_at|by apply scan_d_after]]).
  erewrite bind_val; [|done]. cbn. eapply peek_val. by apply scan_d_after.
Qed.

Lemma JobNew_reads_ok version r : wf version r = true -> reads (readJobNew version) (fields r) r.
Proof.
  destruct r. unfold wf, fields, reads. cbn. repeat (rewrite forallb_app; cbn). intros H. tests.
  pose proof (limits_out_length options0 rLimits0 ltac:(assumption)). unfold readJobNew. do 38 rd.
  eapply reads_bind; [by apply when_port|]. do 3 rd.
  eapply reads_bind; [eapply peek_val; do 2 (erewrite bind_val; [|first [by apply scan_d_at|by apply scan_d_after]]); done|].
  cbv beta iota. eapply reads_bind; [by apply read_block_at|]. rewrite limits_in_out by done. cbv zeta.
  match goal with |- context [JobNewLog _ _ _ _ _ _ _ _ _ _ _ _ _ _ _ _ _ _ _ _ _ _ _ _ _ _ _ _ _ _ _ _ _ _ _ _ _ _ _ _ ?p] =>
    replace p with niosPort0 end.
  2:{ unfold okport in *. destruct (has options3 _); [done|]. destruct (has options0 SUB_INTERACTIVE); [done|]. cbn in *. bool_prop. done. }
  eapply reads_bind; [apply copyQ_val; [destruct (has options3 _); rd_str|done]|]. do 3 rd.
  destruct (since VOLCLAVA_VERSION2_2 version); cbn [when].
  - do 2 rd. by eexists.
  - unfold oknew in *. cbn [orb] in *. bool_prop. subst. do 2 (eapply reads_bind; [done|]). by eexists.
Qed.
End JobNew.

(** ** Modified jobs *)

Module JobMod.
Record jobModLog := JobModLog {
  jobIdStr : option (list ascii); options : Z; options2 : Z; delOptions : Z; delOptions2 : Z; userId : Z; userName : option (list ascii);
  submitTime : Z; umask : Z; numProcessors : Z; beginTime : Z; termTime : Z; sigValue : Z; restartPid : Z;
  jobName : option (list ascii); queue : option (list ascii); numAskedHosts : Z; askedHosts : list (list ascii);
  resReq : option (list ascii); rLimits : list Z; hostSpec : option (list ascii); dependCond : option (list ascii);
  subHomeDir : option (list ascii); inFile : option (list ascii); outFile : option (list ascii); errFile : option (list ascii);
  command : option (list ascii); inFileSpool : option (list ascii); commandSpool : option (list ascii); chkpntPeriod : Z;
  chkpntDir : option (list ascii); nxf : Z; xf : list xFile; jobFile : option (list ascii); fromHost : option (list ascii);
  cwd : option (list ascii); preExecCmd : option (list ascii); postExecCmd : option (list ascii); mailUser : option (list ascii);
  projectName : option (list ascii); niosPort : Z; maxNumProcessors : Z; loginShell : option (list ascii);
  schedHostType : option (list ascii); userPriority : Z; jobDesc : option (list ascii); specifiedCwd : option (list ascii) }.

(** [if (flag) addQStr(...)] *)
Definition add_if (b : bool) (s : option (list ascii)) : M wfile unit := unless (negb b) (addQ s).

Definition in_file (o o2 : Z) : bool := has o SUB_IN_FILE || has o2 SUB2_IN_FILE_SPOOL.

Definition writeJobMod (r : jobModLog) : M wfile unit :=
  let o := options r in let o2 := options2 r in
  addQ (jobIdStr r);;
  fprint_d [options r; options2 r; delOptions r];;
  fprint_d [userId r];; addQ (userName r);;
  fprint_d [submitTime r; umask r; numProcessors r; beginTime r; termTime r; sigValue r; restartPid r];;
  add_if (has o SUB_JOB_NAME) (jobName r);;
  add_if (has o SUB_QUEUE) (queue r);;
  unless (negb (has o SUB_HOST)) (fprint_d [numAskedHosts r];; write_strs (askedHosts r) (numAskedHosts r));;
  add_if (has o SUB_RES_REQ) (resReq r);;
  write_ints (rLimits r) LSF_RLIM_NLIMITS;;
  add_if (has o SUB_HOST_SPEC) (hostSpec r);;
  add_if (has o SUB_DEPEND_COND) (subNewLine_ <$> dependCond r);;
  addQ (subHomeDir r);;
  add_if (in_file o o2) (inFile r);;
  add_if (has o SUB_OUT_FILE) (outFile r);;
  add_if (has o SUB_ERR_FILE) (errFile r);;
  add_if (has o2 SUB2_MODIFY_CMD) (command r);;
  unless (negb (has o SUB_CHKPNT_PERIOD)) (fprint_d [chkpntPeriod r]);;
  add_if (has o SUB_CHKPNT_DIR) (chkpntDir r);;
  unless (negb (has o SUB_OTHER_FILES)) (fprint_d [nxf r];; write_xf (xf r) (nxf r));;
  addQ (jobFile r);;
  addQ (fromHost r);;
  addQ (cwd r);;
  add_if (has o SUB_PRE_EXEC) (subNewLine_ <$> preExecCmd r);;
  add_if (has o SUB_POST_EXEC) (subNewLine_ <$> postExecCmd r);;
  add_if (has o SUB_MAIL_USER) (mailUser r);;
  add_if (has o SUB_PROJECT_NAME) (projectName r);;
  fprint_d [niosPort r; maxNumProcessors r];;
  add_if (has o SUB_LOGIN_SHELL) (loginShell r);;
  addQ (schedHostType r);;
  fprint_d [delOptions2 r];;
  add_if (has o2 SUB2_IN_FILE_SPOOL) (inFileSpool r);;
  add_if (has o2 SUB2_JOB_CMD_SPOOL) (commandSpool r);;
  unless (negb (has o2 SUB2_JOB_PRIORITY)) (fprint_d [userPriority r]);;
  add_if (has o2 SUB2_JOB_DESC) (subNewLine_ <$> jobDesc r);;
  fprint [newline].

(** The hosts, with their number; the files, with theirs. *)
Definition mod_hosts : M line (Z * list (list ascii)) :=
  let! n := read_d in let! hosts := when (negb (n =? 0)) (calloc n;; save_strs n) [] in ret (n, hosts).
Definition mod_files : M line (Z * list xFile) := let! n := read_d in let! xf := read_xf n in ret (n, xf).

Definition readJobMod (version : spec_float) : M line jobModLog :=
  let! jobIdStr := saveQ in
  let! options := scan_d in let! options2 := scan_d in let! delOptions := scan_d in let! userId := scan_d in next;;
  let! userName := saveQ in
  let! submitTime := scan_d in let! umask := scan_d in let! numProcessors := scan_d in let! beginTime := scan_d in
  let! termTime := scan_d in let! sigValue := scan_d in let! restartPid := scan_d in next;;
  let! jobName := when (has options SUB_JOB_NAME) saveQ None in
  let! queue := when (has options SUB_QUEUE) saveQ None in
  let! (numAskedHosts, askedHosts) := when (has options SUB_HOST) mod_hosts (0, []) in
  let! resReq := when (has options SUB_RES_REQ) saveQ None in
  let! rLimits := read_n LSF_RLIM_NLIMITS read_d in
  let! hostSpec := when (has options SUB_HOST_SPEC) saveQ None in
  let! dependCond := when (has options SUB_DEPEND_COND) saveQ None in
  let! subHomeDir := saveQ in
  let! inFile := when (in_file options options2) saveQ None in
  let! outFile := when (has options SUB_OUT_FILE) saveQ None in
  let! errFile := when (has options SUB_ERR_FILE) saveQ None in
  let! command := when (has options2 SUB2_MODIFY_CMD) saveQ None in
  let! chkpntPeriod := when (has options SUB_CHKPNT_PERIOD) read_d 0 in
  let! chkpntDir := when (has options SUB_CHKPNT_DIR) saveQ None in
  let! (nxf, xf) := when (has options SUB_OTHER_FILES) mod_files (0, []) in
  let! jobFile := saveQ in
  let! fromHost := saveQ in
  let! cwd := saveQ in
  let! preExecCmd := when (has options SUB_PRE_EXEC) saveQ None in
  let! postExecCmd := when (has options SUB_POST_EXEC) saveQ None in
  let! mailUser := when (has options SUB_MAIL_USER) saveQ None in
  let! projectName := when (has options SUB_PROJECT_NAME) saveQ None in
  let! niosPort := scan_d in let! maxNumProcessors := scan_d in next;;
  let! loginShell := when (has options SUB_LOGIN_SHELL) saveQ None in
  let! schedHostType := saveQ in
  let! delOptions2 := read_d in
  let! inFileSpool := when (has options2 SUB2_IN_FILE_SPOOL) saveQ None in
  let! commandSpool := when (has options2 SUB2_JOB_CMD_SPOOL) saveQ None in
  let! userPriority := when (has options2 SUB2_JOB_PRIORITY) read_d 0 in
  let! jobDesc := when (since VOLCLAVA_VERSION2_2 version && has options2 SUB2_JOB_DESC) saveQ None in
  ret (JobModLog jobIdStr options options2 delOptions delOptions2 userId userName submitTime umask numProcessors beginTime termTime
         sigValue restartPid jobName queue numAskedHosts askedHosts resReq rLimits hostSpec dependCond subHomeDir inFile outFile
         errFile command inFileSpool commandSpool chkpntPeriod chkpntDir nxf xf jobFile fromHost cwd preExecCmd postExecCmd mailUser
         projectName niosPort maxNumProcessors loginShell schedHostType userPriority jobDesc None).

(** A string that is there if its option is set. *)
Definition fopt (b : bool) (p : option (list ascii)) : list field := if b then [FStr (default [] p)] else [].
Definition fhosts (b : bool) (n : Z) (hosts : list (list ascii)) : list field := if b then FInt n :: (FStr <$> hosts) else [].
Definition ffiles (b : bool) (n : Z) (xf : list xFile) : list field := if b then FInt n :: (xf ≫= xf_fields) else [].

Definition fields (r : jobModLog) : list field :=
  let o := options r in let o2 := options2 r in
  [FStr (str (jobIdStr r)); FInt (options r); FInt (options2 r); FInt (delOptions r); FInt (userId r); FStr (str (userName r));
   FInt (submitTime r); FInt (umask r); FInt (numProcessors r); FInt (beginTime r); FInt (termTime r); FInt (sigValue r);
   FInt (restartPid r)] ++
  fopt (has o SUB_JOB_NAME) (jobName r) ++ fopt (has o SUB_QUEUE) (queue r) ++
  fhosts (has o SUB_HOST) (numAskedHosts r) (askedHosts r) ++
  fopt (has o SUB_RES_REQ) (resReq r) ++
  (FInt <$> rLimits r) ++
  fopt (has o SUB_HOST_SPEC) (hostSpec r) ++ fopt (has o SUB_DEPEND_COND) (dependCond r) ++
  [FStr (str (subHomeDir r))] ++
  fopt (in_file o o2) (inFile r) ++ fopt (has o SUB_OUT_FILE) (outFile r) ++ fopt (has o SUB_ERR_FILE) (errFile r) ++
  fopt (has o2 SUB2_MODIFY_CMD) (command r) ++
  (if has o SUB_CHKPNT_PERIOD then [FInt (chkpntPeriod r)] else []) ++
  fopt (has o SUB_CHKPNT_DIR) (chkpntDir r) ++
  ffiles (has o SUB_OTHER_FILES) (nxf r) (xf r) ++
  [FStr (str (jobFile r)); FStr (str (fromHost r)); FStr (str (cwd r))] ++
  fopt (has o SUB_PRE_EXEC) (preExecCmd r) ++ fopt (has o SUB_POST_EXEC) (postExecCmd r) ++
  fopt (has o SUB_MAIL_USER) (mailUser r) ++ fopt (has o SUB_PROJECT_NAME) (projectName r) ++
  [FInt (niosPort r); FInt (maxNumProcessors r)] ++
  fopt (has o SUB_LOGIN_SHELL) (loginShell r) ++
  [FStr (str (schedHostType r)); FInt (delOptions2 r)] ++
  fopt (has o2 SUB2_IN_FILE_SPOOL) (inFileSpool r) ++ fopt (has o2 SUB2_JOB_CMD_SPOOL) (commandSpool r) ++
  (if has o2 SUB2_JOB_PRIORITY then [FInt (userPriority r)] else []) ++
  fopt (has o2 SUB2_JOB_DESC) (jobDesc r).

Definition okopt : bool -> option (list ascii) -> bool := JobNew.okopt.
(** A number that is there if its option is set. *)
Definition okint (b : bool) (z : Z) : bool := if b then good (FInt z) else z =? 0.
Definition okhosts (b : bool) (n : Z) (hosts : list (list ascii)) : bool :=
  if b then okstrs (2 ^ 31) n hosts else (n =? 0) && bool_decide (hosts = []).
#[global] Instance xFile_eq_dec : EqDecision xFile.
Proof. solve_decision. Defined.
Definition okfiles (b : bool) (n : Z) (xf : list xFile) : bool :=
  if b then okxf n xf else (n =? 0) && bool_decide (xf = []).

Definition wf (version : spec_float) (r : jobModLog) : bool :=
  let o := options r in let o2 := options2 r in
  forallb good (fields r) && isSome (jobIdStr r) && isSome (userName r) && okopt (has o SUB_JOB_NAME) (jobName r) &&
  okopt (has o SUB_QUEUE) (queue r) && okhosts (has o SUB_HOST) (numAskedHosts r) (askedHosts r) && okopt (has o SUB_RES_REQ) (resReq r) &&
  (length (rLimits r) =? LSF_RLIM_NLIMITS)%nat && okopt (has o SUB_HOST_SPEC) (hostSpec r) && okopt (has o SUB_DEPEND_COND) (dependCond r) &&
  isSome (subHomeDir r) && okopt (in_file o o2) (inFile r) && okopt (has o SUB_OUT_FILE) (outFile r) && okopt (has o SUB_ERR_FILE) (errFile r) &&
  okopt (has o2 SUB2_MODIFY_CMD) (command r) && okint (has o SUB_CHKPNT_PERIOD) (chkpntPeriod r) && okopt (has o SUB_CHKPNT_DIR) (chkpntDir r) &&
  okfiles (has o SUB_OTHER_FILES) (nxf r) (xf r) && isSome (jobFile r) && isSome (fromHost r) && isSome (cwd r) &&
  okopt (has o SUB_PRE_EXEC) (preExecCmd r) && okopt (has o SUB_POST_EXEC) (postExecCmd r) && okopt (has o SUB_MAIL_USER) (mailUser r) &&
  okopt (has o SUB_PROJECT_NAME) (projectName r) && okopt (has o SUB_LOGIN_SHELL) (loginShell r) && isSome (schedHostType r) &&
  okopt (has o2 SUB2_IN_FILE_SPOOL) (inFileSpool r) && okopt (has o2 SUB2_JOB_CMD_SPOOL) (commandSpool r) &&
  okint (has o2 SUB2_JOB_PRIORITY) (userPriority r) && okopt (has o2 SUB2_JOB_DESC) (jobDesc r) &&
  (negb (has o2 SUB2_JOB_DESC) || since VOLCLAVA_VERSION2_2 version) && bool_decide (specifiedCwd r = None).

Lemma writes_hosts b n hosts : okhosts b n hosts = true -> writes (unless (negb b) (fprint_d [n];; write_strs hosts n)) (fhosts b n hosts).
Proof.
  intros H. unfold fhosts. apply writes_when. intros ->. cbn in H. apply (writes_bind _ _ [FInt n]); [apply (writes_d [n])|].
  by eapply writes_strs.
Qed.

Lemma writes_files b n xf : okfiles b n xf = true -> writes (unless (negb b) (fprint_d [n];; write_xf xf n)) (ffiles b n xf).
Proof.
  intros H. unfold ffiles. apply writes_when. intros ->. cbn in H. apply (writes_bind _ _ [FInt n]); [apply (writes_d [n])|].
  by apply writes_xf.
Qed.

Lemma read_hosts_at b n hosts fs : okhosts b n hosts = true -> forallb good (fhosts b n hosts) = true ->
  when b mod_hosts (0, []) (at_ (fhosts b n hosts ++ fs)) = Some (inr (n, hosts), at_ fs).
Proof.
  destruct b; cbn; intros H Hg; tests; bool_prop; [|by subst]. unfold mod_hosts.
  erewrite bind_val; [|by apply read_d_at]. pose proof H as H'. unfold okstrs in H'. tests. bool_prop.
  erewrite bind_val; [done|]. destruct (Z.eqb_spec n 0) as [->|]; cbn [negb when].
  - destruct hosts; [done|cbn in *; lia].
  - unfold calloc. rewrite (proj2 (Z.ltb_ge _ _)) by lia. erewrite bind_val; [|done]. by eapply save_strs_at.
Qed.

Lemma read_files_at b n xf fs : okfiles b n xf = true -> forallb good (ffiles b n xf) = true ->
  when b mod_files (0, []) (at_ (ffiles b n xf ++ fs)) = Some (inr (n, xf), at_ fs).
Proof.
  destruct b; cbn; intros H Hg; tests; bool_prop; [|by subst]. unfold mod_files.
  erewrite bind_val; [|by apply read_d_at]. erewrite bind_val; [|by apply read_xf_at]. done.
Qed.

Lemma JobMod_writes_ok version r : wf version r = true -> writes_line (writeJobMod r) (fields r).
Proof.
  destruct r. unfold wf, fields. cbn. repeat (rewrite forallb_app; cbn). intros H. tests.
  match goal with H : (_ =? LSF_RLIM_NLIMITS)%nat = true |- _ => apply Nat.eqb_eq in H end.
  eapply writes_line_eq; [unfold writeJobMod; cbn; repeat first
    [ apply writes_end
    | eapply writes_line_bind; [first [apply writes_hosts; assumption | apply writes_files; assumption | wr_one]|] ]|].
  cbn. by rewrite app_nil_r.
Qed.

(** The description is the last field. *)
Lemma when_desc new b p : okopt b p = true -> negb b || new = true ->
  when (new && b) saveQ None (at_ (fopt b p)) = Some (inr p, if b then at_ [] else at_ (fopt b p)).
Proof.
  unfold okopt, JobNew.okopt, fopt. destruct b; cbn [negb orb andb]; intros H Hn.
  - subst new. cbn. bool_prop. destruct H as [s ->]. by apply (saveQ_ptr (Some s) []).
  - rewrite andb_false_r. bool_prop. by subst.
Qed.

Lemma JobMod_reads_ok version r : wf version r = true -> reads (readJobMod version) (fields r) r.
Proof.
  destruct r. unfold wf, fields, reads. cbn. repeat (rewrite forallb_app; cbn). intros H. tests.
  match goal with H : (_ =? LSF_RLIM_NLIMITS)%nat = true |- _ => apply Nat.eqb_eq in H end.
  unfold readJobMod. do 17 rd. eapply reads_bind; [by apply read_hosts_at|]. cbv beta iota. do 11 rd.
  eapply reads_bind; [by apply read_files_at|]. cbv beta iota. do 16 rd.
  eapply reads_bind; [by apply when_desc|]. bool_prop. subst. by eexists.
Qed.
End JobMod.

(** ** Finished jobs *)

Module JobFinish.
Record jobFinishLog := JobFinishLog {
  jobId : Z; userId : Z; userName : list ascii; options : Z; numProcessors : Z; jStatus : Z; submitTime : Z; beginTime : Z; termTime : Z;
  startTime : Z; endTime : Z; queue : list ascii; resReq : option (list ascii); fromHost : list ascii; cwd : list ascii;
  inFile : list ascii; outFile : list ascii; errFile : list ascii; inFileSpool : list ascii; commandSpool : list ascii;
  jobFile : list ascii; numAskedHosts : Z; askedHosts : list (list ascii); hostFactor : spec_float; numExHosts : Z;
  execHosts : list (list ascii); cpuTime : spec_float; jobName : list ascii; command : list ascii; lsfRusage_ : Rusage.lsfRusage;
  dependCond : option (list ascii); preExecCmd : option (list ascii); postExecCmd : option (list ascii);
  mailUser : option (list ascii); projectName : option (list ascii); exitStatus : Z; maxNumProcessors : Z;
  loginShell : option (list ascii); idx : Z; maxRMem : Z; maxRSwap : Z }.

Definition writeJobFinish (r : jobFinishLog) : M wfile unit :=
  fprint_d [jobId r; userId r; options r; numProcessors r; i32 (submitTime r); i32 (beginTime r); i32 (termTime r); i32 (startTime r)];;
  addQ (Some (userName r));; addQ (Some (queue r));; addQ (resReq r);; addQ (dependCond r);; addQ (preExecCmd r);;
  unless (negb (has (options r) SUB_POST_EXEC)) (addQ (postExecCmd r));;
  addQ (Some (fromHost r));; addQ (Some (cwd r));; addQ (Some (inFile r));; addQ (Some (outFile r));; addQ (Some (errFile r));;
  addQ (Some (jobFile r));;
  fprint_d [numAskedHosts r];;
  write_strs (askedHosts r) (numAskedHosts r);;
  fprint_d [numExHosts r];;
  write_strs (execHosts r) (numExHosts r);;
  fprint_d [jStatus r];; fprint_f 3 1 (hostFactor r);;
  addQ (Some (jobName r));; addQ (Some (command r));;
  Rusage.lsfRu2Str (lsfRusage_ r);;
  addQ (mailUser r);; addQ (projectName r);;
  fprint_d [exitStatus r];; fprint_d [maxNumProcessors r];;
  addQ (loginShell r);;
  fprint_d [idx r];; fprint_d [maxRMem r];; fprint_d [maxRSwap r];;
  addQ (Some (inFileSpool r));; addQ (Some (commandSpool r));;
  fprint [newline].

(** The processor time is the sum of the two times of the usage, if that is not
    negative. *)
Definition cpu_time (u : Rusage.lsfRusage) : spec_float :=
  let t := to_float (dadd (Rusage.ru_utime u) (Rusage.ru_stime u)) in
  if SFltb t (S754_zero false) then S754_zero false else t.

Definition readJobFinish (eventTime : Z) : M line jobFinishLog :=
  let! jobId := scan_d in let! userId := scan_d in let! options := scan_d in let! numProcessors := scan_d in
  let! submitTime := scan_d in let! beginTime := scan_d in let! termTime := scan_d in let! startTime := scan_d in next;;
  let! userName := copyQStr MAX_LSB_NAME_LEN true in
  let! queue := copyQStr MAX_LSB_NAME_LEN true in
  let! resReq := saveQ in
  let! dependCond := saveQ in
  let! preExecCmd := saveQ in
  let! postExecCmd := when (has options SUB_POST_EXEC) saveQ None in
  let! fromHost := copyQStr MAXHOSTNAMELEN true in
  let! cwd := copyQStr MAXFILENAMELEN false in
  let! inFile := copyQStr MAXFILENAMELEN false in
  let! outFile := copyQStr MAXFILENAMELEN false in
  let! errFile := copyQStr MAXFILENAMELEN false in
  let! jobFile := copyQStr MAXFILENAMELEN true in
  let! numAskedHosts := read_d in
  let! askedHosts := read_strs MAXLINELEN numAskedHosts in
  let! numExHosts := read_d in
  let! execHosts := read_strs MAXLINELEN numExHosts in
  let! jStatus := scan_d in let! hostFactor := scan_f in next;;
  let! jobName := copyQStr MAX_CMD_DESC_LEN false in
  let! command := copyQStr MAX_CMD_DESC_LEN false in
  let! lsfRusage := Rusage.str2lsfRu in next;;
  let! mailUser := saveQ in
  let! projectName := saveQ in
  let! exitStatus := read_d in
  let! maxNumProcessors := read_d in
  let! loginShell := saveQ in
  let! idx := read_d in
  let! maxRMem := scan_d in let! maxRSwap := scan_d in next;;
  let! inFileSpool := copyQStr MAXFILENAMELEN false in
  let! commandSpool := copyQStr MAXFILENAMELEN false in
  ret (JobFinishLog jobId userId userName options numProcessors jStatus submitTime beginTime termTime startTime eventTime queue resReq
         fromHost cwd inFile outFile errFile inFileSpool commandSpool jobFile numAskedHosts askedHosts hostFactor numExHosts execHosts
         (cpu_time lsfRusage) jobName command lsfRusage dependCond preExecCmd postExecCmd mailUser projectName exitStatus
         maxNumProcessors loginShell idx maxRMem maxRSwap).

Definition fields (r : jobFinishLog) : list field :=
  [FInt (jobId r); FInt (userId r); FInt (options r); FInt (numProcessors r); FInt (submitTime r); FInt (beginTime r); FInt (termTime r);
   FInt (startTime r); FStr (userName r); FStr (queue r); FStr (str (resReq r)); FStr (str (dependCond r)); FStr (str (preExecCmd r))] ++
  (if has (options r) SUB_POST_EXEC then [FStr (default [] (postExecCmd r))] else []) ++
  [FStr (fromHost r); FStr (cwd r); FStr (inFile r); FStr (outFile r); FStr (errFile r); FStr (jobFile r); FInt (numAskedHosts r)] ++
  (FStr <$> askedHosts r) ++ [FInt (numExHosts r)] ++ (FStr <$> execHosts r) ++
  [FInt (jStatus r); FFix 3 1 (hostFactor r); FStr (jobName r); FStr (command r)] ++
  Rusage.fields (lsfRusage_ r) ++
  [FStr (str (mailUser r)); FStr (str (projectName r)); FInt (exitStatus r); FInt (maxNumProcessors r); FStr (str (loginShell r));
   FInt (idx r); FInt (maxRMem r); FInt (maxRSwap r); FStr (inFileSpool r); FStr (commandSpool r)].

(** The end of the job is the time of the event. *)
Definition wf (eventTime : Z) (r : jobFinishLog) : bool :=
  forallb good (fields r) && fits MAX_LSB_NAME_LEN true (userName r) && fits MAX_LSB_NAME_LEN true (queue r) && isSome (resReq r) &&
  isSome (dependCond r) && isSome (preExecCmd r) && JobNew.okopt (has (options r) SUB_POST_EXEC) (postExecCmd r) &&
  fits MAXHOSTNAMELEN true (fromHost r) && fits MAXFILENAMELEN false (cwd r) && fits MAXFILENAMELEN false (inFile r) &&
  fits MAXFILENAMELEN false (outFile r) && fits MAXFILENAMELEN false (errFile r) && fits MAXFILENAMELEN true (jobFile r) &&
  okstrs MAXLINELEN (numAskedHosts r) (askedHosts r) && okstrs MAXLINELEN (numExHosts r) (execHosts r) && okf 1 (hostFactor r) &&
  fits MAX_CMD_DESC_LEN false (jobName r) && fits MAX_CMD_DESC_LEN false (command r) && Rusage.wf (lsfRusage_ r) &&
  isSome (mailUser r) && isSome (projectName r) && isSome (loginShell r) && fits MAXFILENAMELEN false (inFileSpool r) &&
  fits MAXFILENAMELEN false (commandSpool r) && (endTime r =? eventTime) && bool_decide (cpuTime r = cpu_time (lsfRusage_ r)).

Lemma JobFinish_writes_ok eventTime r : wf eventTime r = true -> writes_line (writeJobFinish r) (fields r).
Proof.
  destruct r. unfold wf, fields. cbn. repeat (rewrite forallb_app; cbn -[Rusage.fields]). intros H. tests.
  unfold writeJobFinish. cbn. rewrite !good_i32 by done.
  eapply writes_line_eq; [repeat first [apply writes_end | eapply writes_line_bind; [first [apply Rusage.Rusage_writes_ok | wr_one]|]]|]. done.
Qed.

Lemma JobFinish_reads_ok eventTime r : wf eventTime r = true -> reads (readJobFinish eventTime) (fields r) r.
Proof.
  destruct r. unfold wf, fields, reads. cbn -[Rusage.fields]. repeat (rewrite forallb_app; cbn -[Rusage.fields]). intros H. tests.
  unfold readJobFinish. do 30 rd. eapply reads_bind; [by apply Rusage.Rusage_reads_ok|]. do 12 rd. bool_prop. subst. by eexists.
Qed.
End JobFinish.
