(* ===== verification/LogFile.v ===== *)
(** * The event log, [lsbatch/lib/lsb.log.c]

    Records of all types, [lsb_puteventrec] that appends one to a file,
    [lsb_geteventrec] that takes the next one from a file, and the loop in which
    the master daemon reads the whole log. *)

From Stdlib Require Import Ascii SpecFloat.
From S2P Require Import Prelude CString Float32 Stdio Words Lsb Grp LogBase LogEvent LogCtrl LogJob.

(** ** Types of events *)

Definition EVENT_JOB_NEW : Z := 1.
Definition EVENT_JOB_START : Z := 2.
Definition EVENT_JOB_STATUS : Z := 3.
Definition EVENT_JOB_SWITCH : Z := 4.
Definition EVENT_JOB_MOVE : Z := 5.
Definition EVENT_QUEUE_CTRL : Z := 6.
Definition EVENT_HOST_CTRL : Z := 7.
Definition EVENT_MBD_DIE : Z := 8.
Definition EVENT_MBD_UNFULFILL : Z := 9.
Definition EVENT_JOB_FINISH : Z := 10.
Definition EVENT_LOAD_INDEX : Z := 11.
Definition EVENT_CHKPNT : Z := 12.
Definition EVENT_MIG : Z := 13.
Definition EVENT_PRE_EXEC_START : Z := 14.
Definition EVENT_MBD_START : Z := 15.
Definition EVENT_JOB_MODIFY : Z := 16.
Definition EVENT_JOB_SIGNAL : Z := 17.
Definition EVENT_JOB_EXECUTE : Z := 18.
Definition EVENT_JOB_MSG : Z := 19.
Definition EVENT_JOB_MSG_ACK : Z := 20.
Definition EVENT_JOB_REQUEUE : Z := 21.
Definition EVENT_JOB_SIGACT : Z := 22.
Definition EVENT_SBD_JOB_STATUS : Z := 23.
Definition EVENT_JOB_START_ACCEPT : Z := 24.
Definition EVENT_JOB_CLEAN : Z := 25.
Definition EVENT_JOB_FORCE : Z := 26.
Definition EVENT_LOG_SWITCH : Z := 27.
Definition EVENT_JOB_MODIFY2 : Z := 28.
Definition EVENT_JOB_ATTR_SET : Z := 29.

Definition lit (s : string) : list ascii := String.list_ascii_of_string s.

(** The names, as the switch of [lsb_puteventrec] gives them. *)
Definition put_names : list (Z * list ascii) :=
  [(EVENT_JOB_NEW, lit "JOB_NEW"); (EVENT_JOB_START, lit "JOB_START"); (EVENT_JOB_START_ACCEPT, lit "JOB_START_ACCEPT");
   (EVENT_JOB_STATUS, lit "JOB_STATUS"); (EVENT_JOB_SWITCH, lit "JOB_SWITCH"); (EVENT_JOB_MOVE, lit "JOB_MOVE");
   (EVENT_QUEUE_CTRL, lit "QUEUE_CTRL"); (EVENT_HOST_CTRL, lit "HOST_CTRL"); (EVENT_MBD_START, lit "MBD_START");
   (EVENT_MBD_DIE, lit "MBD_DIE"); (EVENT_MBD_UNFULFILL, lit "UNFULFILL"); (EVENT_JOB_FINISH, lit "JOB_FINISH");
   (EVENT_LOAD_INDEX, lit "LOAD_INDEX"); (EVENT_CHKPNT, lit "CHKPNT"); (EVENT_MIG, lit "MIG");
   (EVENT_PRE_EXEC_START, lit "PRE_EXEC_START"); (EVENT_JOB_MODIFY, lit "JOB_MODIFY"); (EVENT_JOB_MODIFY2, lit "JOB_MODIFY2");
   (EVENT_JOB_ATTR_SET, lit "JOB_ATTR_SET"); (EVENT_JOB_SIGNAL, lit "JOB_SIGNAL"); (EVENT_JOB_EXECUTE, lit "JOB_EXECUTE");
   (EVENT_JOB_MSG, lit "JOB_MSG"); (EVENT_JOB_MSG_ACK, lit "JOB_MSG_ACK"); (EVENT_JOB_REQUEUE, lit "JOB_REQUEUE");
   (EVENT_JOB_CLEAN, lit "JOB_CLEAN"); (EVENT_JOB_SIGACT, lit "JOB_SIGACT"); (EVENT_SBD_JOB_STATUS, lit "SBD_JOB_STATUS");
   (EVENT_JOB_FORCE, lit "JOB_FORCE"); (EVENT_LOG_SWITCH, lit "LOG_SWITCH")].

Fixpoint put_name (type : Z) (names : list (Z * list ascii)) : option (list ascii) :=
  match names with
  | [] => None
  | (t, s) :: names => if type =? t then Some s else put_name type names
  end.

(** The comparisons of [getEventTypeAndKind], in their order. *)
Definition get_names : list (list ascii * Z) :=
  [(lit "JOB_NEW", EVENT_JOB_NEW); (lit "JOB_START", EVENT_JOB_START); (lit "JOB_START_ACCEPT", EVENT_JOB_START_ACCEPT);
   (lit "JOB_STATUS", EVENT_JOB_STATUS); (lit "SBD_JOB_STATUS", EVENT_SBD_JOB_STATUS); (lit "JOB_EXECUTE", EVENT_JOB_EXECUTE);
   (lit "JOB_CLEAN", EVENT_JOB_CLEAN); (lit "JOB_SWITCH", EVENT_JOB_SWITCH); (lit "JOB_MOVE", EVENT_JOB_MOVE);
   (lit "JOB_FINISH", EVENT_JOB_FINISH); (lit "LOAD_INDEX", EVENT_LOAD_INDEX); (lit "CHKPNT", EVENT_CHKPNT); (lit "MIG", EVENT_MIG);
   (lit "PRE_EXEC_START", EVENT_PRE_EXEC_START); (lit "JOB_MODIFY", EVENT_JOB_MODIFY); (lit "JOB_MODIFY2", EVENT_JOB_MODIFY2);
   (lit "JOB_ATTR_SET", EVENT_JOB_ATTR_SET); (lit "QUEUE_CTRL", EVENT_QUEUE_CTRL); (lit "HOST_CTRL", EVENT_HOST_CTRL);
   (lit "MBD_START", EVENT_MBD_START); (lit "MBD_DIE", EVENT_MBD_DIE); (lit "UNFULFILL", EVENT_MBD_UNFULFILL);
   (lit "JOB_SIGNAL", EVENT_JOB_SIGNAL); (lit "JOB_MSG", EVENT_JOB_MSG); (lit "JOB_MSG_ACK", EVENT_JOB_MSG_ACK);
   (lit "JOB_REQUEUE", EVENT_JOB_REQUEUE); (lit "JOB_SIGACT", EVENT_JOB_SIGACT); (lit "JOB_FORCE", EVENT_JOB_FORCE);
   (lit "LOG_SWITCH", EVENT_LOG_SWITCH); (lit "LOG_SWITCH", EVENT_LOG_SWITCH)].

Fixpoint get_name (s : list ascii) (names : list (list ascii * Z)) : option Z :=
  match names with
  | [] => None
  | (t, e) :: names => if bool_decide (s = t) then Some e else get_name s names
  end.

Definition is_type (l : list Z) (type : Z) : bool := existsb (Z.eqb type) l.

(** The events that are about a job. *)
Definition job_events : list Z :=
  [EVENT_JOB_NEW; EVENT_JOB_START; EVENT_JOB_START_ACCEPT; EVENT_JOB_STATUS; EVENT_SBD_JOB_STATUS; EVENT_JOB_SWITCH; EVENT_JOB_MOVE;
   EVENT_JOB_FINISH; EVENT_CHKPNT; EVENT_MIG; EVENT_PRE_EXEC_START; EVENT_JOB_MODIFY; EVENT_JOB_MODIFY2; EVENT_JOB_ATTR_SET;
   EVENT_JOB_SIGNAL; EVENT_JOB_EXECUTE; EVENT_JOB_MSG; EVENT_JOB_MSG_ACK; EVENT_JOB_REQUEUE; EVENT_JOB_CLEAN; EVENT_JOB_SIGACT;
   EVENT_JOB_FORCE].

(** The type, none for a name that is not known, and whether the event is about a
    job. *)
Definition getEventTypeAndKind (typeStr : list ascii) : option Z * bool :=
  match get_name typeStr get_names with
  | Some eventType => (Some eventType, is_type job_events eventType)
  | None => (None, false)
  end.

(** ** Records *)

(** The union of the records; an acknowledgement is a message. *)
Inductive eventLog :=
  | jobNewE (r : JobNew.jobNewLog)
  | jobModE (r : JobMod.jobModLog)
  | jobStartE (r : JobStart.jobStartLog)
  | jobStartAcceptE (r : JobStartAccept.jobStartAcceptLog)
  | jobStatusE (r : JobStatus.jobStatusLog)
  | sbdJobStatusE (r : SbdJobStatus.sbdJobStatusLog)
  | jobSwitchE (r : JobSwitch.jobSwitchLog)
  | jobMoveE (r : JobMove.jobMoveLog)
  | queueCtrlE (r : QueueCtrl.queueCtrlLog)
  | hostCtrlE (r : HostCtrl.hostCtrlLog)
  | mbdStartE (r : MbdStart.mbdStartLog)
  | mbdDieE (r : MbdDie.mbdDieLog)
  | unfulfillE (r : Unfulfill.unfulfillLog)
  | loadIndexE (r : LoadIndex.loadIndexLog)
  | jobFinishE (r : JobFinish.jobFinishLog)
  | chkpntE (r : Chkpnt.chkpntLog)
  | migE (r : Mig.migLog)
  | jobAttrSetE (r : JobAttrSet.jobAttrSetLog)
  | signalE (r : JobSignal.signalLog)
  | jobExecuteE (r : JobExecute.jobExecuteLog)
  | jobMsgE (r : JobMsg.jobMsgLog)
  | sigactE (r : JobSigAct.sigactLog)
  | jobRequeueE (r : JobRequeue.jobRequeueLog)
  | jobCleanE (r : JobClean.jobCleanLog)
  | jobForceE (r : JobForce.jobForceRequestLog)
  | logSwitchE (r : LogSwitch.logSwitchLog).

Record eventRec := EventRec { version : list ascii; type : Z; eventTime : Z; eventLog_ : eventLog }.

(** ** Writing *)

(** A member of the union is written for its types; another member would be
    taken for what it is not. *)
Definition on {A} (types : list Z) (type : Z) (m : M wfile A) : M wfile A := if is_type types type then m else undef.

Definition write_member (type : Z) (e : eventLog) : M wfile unit :=
  match e with
  | jobNewE r => on [EVENT_JOB_NEW; EVENT_JOB_MODIFY] type (JobNew.writeJobNew r)
  | jobModE r => on [EVENT_JOB_MODIFY2] type (JobMod.writeJobMod r)
  | jobStartE r => on [EVENT_PRE_EXEC_START; EVENT_JOB_START] type (JobStart.writeJobStart r)
  | jobStartAcceptE r => on [EVENT_JOB_START_ACCEPT] type (JobStartAccept.writeJobStartAccept r)
  | jobStatusE r => on [EVENT_JOB_STATUS] type (JobStatus.writeJobStatus r)
  | sbdJobStatusE r => on [EVENT_SBD_JOB_STATUS] type (SbdJobStatus.writeSbdJobStatus r)
  | jobSwitchE r => on [EVENT_JOB_SWITCH] type (JobSwitch.writeJobSwitch r)
  | jobMoveE r => on [EVENT_JOB_MOVE] type (JobMove.writeJobMove r)
  | queueCtrlE r => on [EVENT_QUEUE_CTRL] type (QueueCtrl.writeQueueCtrl r)
  | hostCtrlE r => on [EVENT_HOST_CTRL] type (HostCtrl.writeHostCtrl r)
  | mbdStartE r => on [EVENT_MBD_START] type (MbdStart.writeMbdStart r)
  | mbdDieE r => on [EVENT_MBD_DIE] type (MbdDie.writeMbdDie r)
  | unfulfillE r => on [EVENT_MBD_UNFULFILL] type (Unfulfill.writeUnfulfill r)
  | loadIndexE r => on [EVENT_LOAD_INDEX] type (LoadIndex.writeLoadIndex r)
  | jobFinishE r => on [EVENT_JOB_FINISH] type (JobFinish.writeJobFinish r)
  | chkpntE r => on [EVENT_CHKPNT] type (Chkpnt.writeChkpnt r)
  | migE r => on [EVENT_MIG] type (Mig.writeMig r)
  | jobAttrSetE r => on [EVENT_JOB_ATTR_SET] type (JobAttrSet.writeJobAttrSet r)
  | signalE r => on [EVENT_JOB_SIGNAL] type (JobSignal.writeJobSignal r)
  | jobExecuteE r => on [EVENT_JOB_EXECUTE] type (JobExecute.writeJobExecute r)
  | jobMsgE r => if type =? EVENT_JOB_MSG_ACK then JobMsg.writeJobMsgAck r else on [EVENT_JOB_MSG] type (JobMsg.writeJobMsg r)
  | sigactE r => on [EVENT_JOB_SIGACT] type (JobSigAct.writeJobSigAct r)
  | jobRequeueE r => on [EVENT_JOB_REQUEUE] type (JobRequeue.writeJobRqueue r)
  | jobCleanE r => on [EVENT_JOB_CLEAN] type (JobClean.writeJobClean r)
  | jobForceE r => on [EVENT_JOB_FORCE] type (JobForce.writeJobForce r)
  | logSwitchE r => on [EVENT_LOG_SWITCH] type (LogSwitch.writeLogSwitch r)
  end.

(** 0 or -1 with [lsberrno] is [inr] or [inl]. *)
Definition lsb_puteventrec (logPtr : eventRec) : M wfile unit :=
  match put_name (type logPtr) put_names with
  | None => fail LSBE_UNKNOWN_EVENT
  | Some etype =>
      fprint ((quote :: etype ++ [quote]) ++ " "%char :: (quote :: version logPtr ++ [quote]) ++
              " "%char :: int_text (i32 (eventTime logPtr)));;
      write_member (type logPtr) (eventLog_ logPtr)
  end.

(** ** Reading *)

Definition as_ {A} (f : A -> eventLog) (m : M line A) : M line eventLog := let! r := m in ret (f r).

Definition readEventRecord (ver : spec_float) (type eventTime : Z) : M line eventLog :=
  if is_type [EVENT_JOB_NEW; EVENT_JOB_MODIFY] type then as_ jobNewE (JobNew.readJobNew ver)
  else if is_type [EVENT_JOB_MODIFY2] type then as_ jobModE (JobMod.readJobMod ver)
  else if is_type [EVENT_PRE_EXEC_START; EVENT_JOB_START] type then as_ jobStartE (JobStart.readJobStart ver)
  else if is_type [EVENT_JOB_START_ACCEPT] type then as_ jobStartAcceptE JobStartAccept.readJobStartAccept
  else if is_type [EVENT_JOB_STATUS] type then as_ jobStatusE (JobStatus.readJobStatus ver)
  else if is_type [EVENT_SBD_JOB_STATUS] type then as_ sbdJobStatusE SbdJobStatus.readSbdJobStatus
  else if is_type [EVENT_JOB_SWITCH] type then as_ jobSwitchE JobSwitch.readJobSwitch
  else if is_type [EVENT_JOB_MOVE] type then as_ jobMoveE JobMove.readJobMove
  else if is_type [EVENT_QUEUE_CTRL] type then as_ queueCtrlE (QueueCtrl.readQueueCtrl ver)
  else if is_type [EVENT_HOST_CTRL] type then as_ hostCtrlE (HostCtrl.readHostCtrl ver)
  else if is_type [EVENT_MBD_START] type then as_ mbdStartE MbdStart.readMbdStart
  else if is_type [EVENT_MBD_DIE] type then as_ mbdDieE (MbdDie.readMbdDie ver)
  else if is_type [EVENT_MBD_UNFULFILL] type then as_ unfulfillE Unfulfill.readUnfulfill
  else if is_type [EVENT_LOAD_INDEX] type then as_ loadIndexE LoadIndex.readLoadIndex
  else if is_type [EVENT_JOB_FINISH] type then as_ jobFinishE (JobFinish.readJobFinish eventTime)
  else if is_type [EVENT_CHKPNT] type then as_ chkpntE Chkpnt.readChkpnt
  else if is_type [EVENT_MIG] type then as_ migE Mig.readMig
  else if is_type [EVENT_JOB_ATTR_SET] type then as_ jobAttrSetE JobAttrSet.readJobAttrSet
  else if is_type [EVENT_JOB_SIGNAL] type then as_ signalE JobSignal.readJobSignal
  else if is_type [EVENT_JOB_EXECUTE] type then as_ jobExecuteE JobExecute.readJobExecute
  else if is_type [EVENT_JOB_MSG] type then as_ jobMsgE JobMsg.readJobMsg
  else if is_type [EVENT_JOB_MSG_ACK] type then as_ jobMsgE JobMsg.readJobMsgAck
  else if is_type [EVENT_JOB_SIGACT] type then as_ sigactE JobSigAct.readJobSigAct
  else if is_type [EVENT_JOB_REQUEUE] type then as_ jobRequeueE JobRequeue.readJobRequeue
  else if is_type [EVENT_JOB_CLEAN] type then as_ jobCleanE JobClean.readJobClean
  else if is_type [EVENT_JOB_FORCE] type then as_ jobForceE JobForce.readJobForce
  else if is_type [EVENT_LOG_SWITCH] type then as_ logSwitchE LogSwitch.readLogSwitch
  else undef.

(** The version is read with [atof] and kept as a [float]. *)
Definition read_version (s : list ascii) : M line spec_float := fun l =>
  x ← atof s; Some (if SFleb (to_float x) (S754_zero false) then inl LSBE_EVENT_FORMAT else inr (to_float x), l).

(** A name of the head of the record, not the last thing on the line. *)
Definition head_name (cap : nat) (maxLen : Z) : M line (list ascii) :=
  let! s := strip cap in
  let! e := JobNew.at_end in
  if e || (maxLen <=? Z.of_nat (length s)) then fail LSBE_EVENT_FORMAT else next;; ret s.

(** The part of [lsb_geteventrec_ex] that works on the line; [namebuf] is one byte
    longer than the line. *)
Definition read_record (w : list ascii) : M line eventRec :=
  let! etype := head_name (S (length w)) MAX_LSB_NAME_LEN in
  let! ver := head_name (S (length w)) MAX_VERSION_LEN in
  let! v := read_version ver in
  let! eventTime := read_d in
  match getEventTypeAndKind etype with
  | (None, _) => fail LSBE_UNKNOWN_EVENT
  | (Some type, _) => let! e := readEventRecord v type eventTime in ret (EventRec ver type eventTime e)
  end.

(** A file that is read: what is left, and whether it is open. *)
Record rfile := RFile { left_ : list ascii; opened : bool }.

(** Lines that begin with [#] are passed over; a file that ends with one is
    closed. *)
Fixpoint skip_hash (fuel : nat) (w : list ascii) (f : rfile) : option (option (list ascii) * rfile) :=
  match w with
  | c :: _ =>
      if Ascii.eqb c "#" then
        match fuel with
        | O => None
        | S fuel =>
            '(l, r) ← getNextLine_ false (left_ f);
            match l with
            | Some w => skip_hash fuel w (RFile r (opened f))
            | None => Some (None, RFile r false)
            end
        end
      else Some (Some w, f)
  | [] => Some (Some w, f)
  end.

(** A line number, an [int], is counted up. *)
Definition inc (n : Z) : Z := i32 (n + 1).

(** [lsb_geteventrec]: the record, or [inl] with [lsberrno] for NULL; the file and
    the line number are the state. *)
Definition lsb_geteventrec (f : rfile) (LineNum : Z) : option ((Z + eventRec) * rfile * Z) :=
  if negb (opened f) then None else
  '(l, r) ← getNextLine_ false (left_ f);
  match l with
  | None => Some (inl LSBE_EOF, RFile r true, inc LineNum)
  | Some w =>
      '(l, f) ← skip_hash (S (length r)) w (RFile r true);
      match l with
      | None => Some (inl LSBE_EOF, f, inc LineNum)
      | Some w => '(o, _) ← read_record w (Some w); Some (o, f, inc LineNum)
      end
  end.

(** [lsb_readeventrecord], for a line that the caller has: a buffer of one line,
    0 or -1. *)
Definition name_of (maxLen : Z) : M line (list ascii) :=
  let! s := strip (Z.to_nat MAXLINELEN) in
  if maxLen <=? Z.of_nat (length s) then fail LSBE_EVENT_FORMAT else next;; ret s.
Definition lsb_readeventrecord (line : list ascii) : option (option eventRec) :=
  '(o, _) ← (let! etype := name_of MAX_LSB_NAME_LEN in
             let! ver := name_of MAX_VERSION_LEN in
             let! eventTime := read_d in
             let! v := read_version ver in
             match getEventTypeAndKind etype with
             | (None, _) => fail LSBE_UNKNOWN_EVENT
             | (Some type, _) => let! e := readEventRecord v type eventTime in ret (EventRec ver type eventTime e)
             end) (Some line);
  Some (match o with inr r => Some r | inl _ => None end).

(** Closing a file twice is undefined. *)
Definition fclose (f : rfile) : option rfile := if opened f then Some (RFile (left_ f) false) else None.

(** The loop of [init_log]: every record is replayed, a line that cannot be read
    is left out, at the end of the file it is closed. *)
Fixpoint read_log (fuel : nat) (f : rfile) (LineNum : Z) : option (list (Z + eventRec) * rfile) :=
  match fuel with
  | O => None
  | S fuel =>
      '(o, f', n) ← lsb_geteventrec f LineNum;
      match o with
      | inl code => if code =? LSBE_EOF then f'' ← fclose f'; Some ([], f'') else '(es, f'') ← read_log fuel f' n; Some (o :: es, f'')
      | inr _ => '(es, f'') ← read_log fuel f' n; Some (o :: es, f'')
      end
  end.
