(* ===== verification/LogMain.v ===== *)
(** * The event log comes back

    Every record that [lsb_puteventrec] has written is what [lsb_geteventrec]
    reads, for all types of events; a log of records is read as the list of them;
    an incomplete write leaves a part of the text and an error. *)

From Stdlib Require Import Ascii SpecFloat.
From S2P Require Import Prelude CString Float32 Stdio Words Lsb Grp LogBase LogEvent LogCtrl LogJob LogFile.

(** ** The text of a record *)

(** The fields after the head. *)
Definition member_fields (e : eventLog) : list field :=
  match e with
  | jobNewE r => JobNew.fields r | jobModE r => JobMod.fields r | jobStartE r => JobStart.fields r
  | jobStartAcceptE r => JobStartAccept.fields r | jobStatusE r => JobStatus.fields r | sbdJobStatusE r => SbdJobStatus.fields r
  | jobSwitchE r => JobSwitch.fields r | jobMoveE r => JobMove.fields r | queueCtrlE r => QueueCtrl.fields r
  | hostCtrlE r => HostCtrl.fields r | mbdStartE r => MbdStart.fields r | mbdDieE r => MbdDie.fields r
  | unfulfillE r => Unfulfill.fields r | loadIndexE r => LoadIndex.fields r | jobFinishE r => JobFinish.fields r
  | chkpntE r => Chkpnt.fields r | migE r => Mig.fields r | jobAttrSetE r => JobAttrSet.fields r | signalE r => JobSignal.fields r
  | jobExecuteE r => JobExecute.fields r | jobMsgE r => JobMsg.fields r | sigactE r => JobSigAct.fields r
  | jobRequeueE r => JobRequeue.fields r | jobCleanE r => JobClean.fields r | jobForceE r => JobForce.fields r
  | logSwitchE r => LogSwitch.fields r
  end.

(** What follows them: a blank after some, the end of the line after all but
    one. *)
Definition member_end (e : eventLog) : list ascii :=
  match e with
  | jobAttrSetE _ | logSwitchE _ => [" "%char; newline]
  | sbdJobStatusE _ => []
  | _ => [newline]
  end.

(** The type is one of the member's, and the member is a record that comes back. *)
Definition wf_member (v : spec_float) (type eventTime : Z) (e : eventLog) : bool :=
  match e with
  | jobNewE r => is_type [EVENT_JOB_NEW; EVENT_JOB_MODIFY] type && JobNew.wf v r
  | jobModE r => is_type [EVENT_JOB_MODIFY2] type && JobMod.wf v r
  | jobStartE r => is_type [EVENT_PRE_EXEC_START; EVENT_JOB_START] type && JobStart.wf v r
  | jobStartAcceptE r => is_type [EVENT_JOB_START_ACCEPT] type && JobStartAccept.wf r
  | jobStatusE r => is_type [EVENT_JOB_STATUS] type && JobStatus.wf v r
  | sbdJobStatusE r => is_type [EVENT_SBD_JOB_STATUS] type && SbdJobStatus.wf r
  | jobSwitchE r => is_type [EVENT_JOB_SWITCH] type && JobSwitch.wf r
  | jobMoveE r => is_type [EVENT_JOB_MOVE] type && JobMove.wf r
  | queueCtrlE r => is_type [EVENT_QUEUE_CTRL] type && QueueCtrl.wf v r
  | hostCtrlE r => is_type [EVENT_HOST_CTRL] type && HostCtrl.wf v r
  | mbdStartE r => is_type [EVENT_MBD_START] type && MbdStart.wf r
  | mbdDieE r => is_type [EVENT_MBD_DIE] type && MbdDie.wf v r
  | unfulfillE r => is_type [EVENT_MBD_UNFULFILL] type && Unfulfill.wf r
  | loadIndexE r => is_type [EVENT_LOAD_INDEX] type && LoadIndex.wf r
  | jobFinishE r => is_type [EVENT_JOB_FINISH] type && JobFinish.wf eventTime r
  | chkpntE r => is_type [EVENT_CHKPNT] type && Chkpnt.wf r
  | migE r => is_type [EVENT_MIG] type && Mig.wf r
  | jobAttrSetE r => is_type [EVENT_JOB_ATTR_SET] type && JobAttrSet.wf r
  | signalE r => is_type [EVENT_JOB_SIGNAL] type && JobSignal.wf r
  | jobExecuteE r => is_type [EVENT_JOB_EXECUTE] type && JobExecute.wf r
  | jobMsgE r => is_type [EVENT_JOB_MSG; EVENT_JOB_MSG_ACK] type && JobMsg.wf r
  | sigactE r => is_type [EVENT_JOB_SIGACT] type && JobSigAct.wf r
  | jobRequeueE r => is_type [EVENT_JOB_REQUEUE] type && JobRequeue.wf r
  | jobCleanE r => is_type [EVENT_JOB_CLEAN] type && JobClean.wf r
  | jobForceE r => is_type [EVENT_JOB_FORCE] type && JobForce.wf r
  | logSwitchE r => is_type [EVENT_LOG_SWITCH] type && LogSwitch.wf r
  end.

(** The version as a number, as it is kept while the record is read. *)
Definition version_of (s : list ascii) : spec_float := match atof s with Some x => to_float x | None => S754_nan end.

Definition okversion (s : list ascii) : bool :=
  forallb plain s && forallb (fun c => negb (Ascii.eqb c quote)) s && (Z.of_nat (length s) <? MAX_VERSION_LEN) &&
  isSome (atof s) && negb (SFleb (version_of s) (S754_zero false)).

Definition wf_event (r : eventRec) : bool :=
  okversion (version r) && good (FInt (eventTime r)) && wf_member (version_of (version r)) (type r) (eventTime r) (eventLog_ r).

Definition etype (r : eventRec) : list ascii := default [] (put_name (type r) put_names).

Definition line_fields (r : eventRec) : list field :=
  FStr (etype r) :: FStr (version r) :: FInt (eventTime r) :: member_fields (eventLog_ r).
Definition event_line (r : eventRec) : list ascii := default [] (at_ (line_fields r)).
Definition event_text (r : eventRec) : list ascii := event_line r ++ member_end (eventLog_ r).

(** ** Types and names *)

(** The types that are written; their names are read back as the types. *)
Definition known_types : list Z := fst <$> put_names.

Lemma is_type_elem l t : is_type l t = true <-> t ∈ l.
Proof.
  unfold is_type. rewrite existsb_exists. setoid_rewrite <- list_elem_of_In. setoid_rewrite Z.eqb_eq. split.
  - by intros (x & Hx & ->).
  - intros H. by exists t.
Qed.

Lemma names_agree t : t ∈ known_types ->
  exists s, put_name t put_names = Some s /\ get_name s get_names = Some t /\
    (Z.of_nat (length s) <? MAX_LSB_NAME_LEN) && forallb plain s && forallb (fun c => negb (Ascii.eqb c quote)) s = true.
Proof.
  intros H. enough (Hall : forallb (fun t => match put_name t put_names with
      | Some s => match get_name s get_names with
                  | Some t' => (t =? t') && ((Z.of_nat (length s) <? MAX_LSB_NAME_LEN) && forallb plain s && forallb (fun c => negb (Ascii.eqb c quote)) s)
                  | None => false end
      | None => false end) known_types = true).
  { eapply forallb_forall in Hall; [|by apply list_elem_of_In]. cbn beta in Hall.
    destruct (put_name t put_names) as [s|]; [|done]. exists s. split; [done|]. destruct (get_name s get_names); [|done].
    apply andb_true_iff in Hall as [Ht Hs]. apply Z.eqb_eq in Ht as ->. done. }
  by vm_compute.
Qed.

Lemma wf_member_type v type eventTime e : wf_member v type eventTime e = true -> type ∈ known_types.
Proof.
  intros H. enough (Hs : forall l, is_type l type = true -> forallb (is_type known_types) l = true -> type ∈ known_types).
  { destruct e; cbn [wf_member] in H; apply andb_true_iff in H as [H _]; apply (Hs _ H); by vm_compute. }
  intros l Hl Hk. apply is_type_elem in Hl. eapply forallb_forall in Hk; [|by apply list_elem_of_In]. by apply is_type_elem.
Qed.

(** ** Writing *)

Lemma writes_line_end m fs e : writes_line m fs -> e = [newline] -> eqM m (fprint (render fs ++ e)).
Proof. by intros H ->. Qed.

Lemma writes_line_blank m fs : writes_line m (fs ++ [FBlank]) -> eqM m (fprint (render fs ++ [" "%char; newline])).
Proof. unfold writes_line. rewrite render_app, <- app_assoc. done. Qed.

Lemma write_member_text v type eventTime e : wf_member v type eventTime e = true ->
  eqM (write_member type e) (fprint (render (member_fields e) ++ member_end e)).
Proof.
  intros H. destruct e; cbn [wf_member] in H; apply andb_true_iff in H as [Ht Hw]; cbn [write_member member_fields member_end]; unfold on;
    rewrite ?Ht; try (apply writes_line_end; [|done]).
  - by eapply JobNew.JobNew_writes_ok.
  - by eapply JobMod.JobMod_writes_ok.
  - by eapply JobStart.JobStart_writes_ok.
  - by eapply JobStartAccept.JobStartAccept_writes_ok.
  - by eapply JobStatus.JobStatus_writes_ok.
  - rewrite app_nil_r. by eapply SbdJobStatus.SbdJobStatus_writes_ok.
  - by eapply JobSwitch.JobSwitch_writes_ok.
  - by eapply JobMove.JobMove_writes_ok.
  - by eapply QueueCtrl.QueueCtrl_writes_ok.
  - by eapply HostCtrl.HostCtrl_writes_ok.
  - by eapply MbdStart.MbdStart_writes_ok.
  - by eapply MbdDie.MbdDie_writes_ok.
  - by eapply Unfulfill.Unfulfill_writes_ok.
  - by eapply LoadIndex.LoadIndex_writes_ok.
  - by eapply JobFinish.JobFinish_writes_ok.
  - by eapply Chkpnt.Chkpnt_writes_ok.
  - by eapply Mig.Mig_writes_ok.
  - apply writes_line_blank. by eapply JobAttrSet.JobAttrSet_writes_ok.
  - by eapply JobSignal.JobSignal_writes_ok.
  - by eapply JobExecute.JobExecute_writes_ok.
  - destruct (Z.eqb_spec type EVENT_JOB_MSG_ACK) as [->|Hne]; [by apply (JobMsg.JobMsg_writes_ok r)|].
    apply is_type_elem in Ht. replace type with EVENT_JOB_MSG by set_solver. by apply (JobMsg.JobMsg_writes_ok r).
  - by eapply JobSigAct.JobSigAct_writes_ok.
  - by eapply JobRequeue.JobRequeue_writes_ok.
  - by eapply JobClean.JobClean_writes_ok.
  - by eapply JobForce.JobForce_writes_ok.
  - apply writes_line_blank. by eapply LogSwitch.LogSwitch_writes_ok.
Qed.

Lemma qstr_plain s : forallb (fun c => negb (Ascii.eqb c quote)) s = true -> qstr s = quote :: s ++ [quote].
Proof.
  intros H. unfold qstr. rewrite qtext_plain; [done|]. apply Forall_forall. intros c Hc.
  eapply forallb_forall in H; [|by apply list_elem_of_In]. by apply negb_true_iff.
Qed.

(** The head of the line as it is printed. *)
Definition head_text (r : eventRec) : list ascii :=
  (quote :: etype r ++ [quote]) ++ " "%char :: (quote :: version r ++ [quote]) ++ " "%char :: int_text (eventTime r).

Lemma event_line_head r :
  forallb (fun c => negb (Ascii.eqb c quote)) (etype r) = true -> forallb (fun c => negb (Ascii.eqb c quote)) (version r) = true ->
  event_line r = head_text r ++ render (member_fields (eventLog_ r)).
Proof.
  intros Ht Hv. unfold event_line, line_fields, at_, head_text. cbn [default id]. rewrite !render_cons. cbn [body].
  rewrite !qstr_plain by done. repeat (cbn [app]; rewrite <- ?app_assoc). done.
Qed.

Lemma put_text r : wf_event r = true -> eqM (lsb_puteventrec r) (fprint (event_text r)).
Proof.
  unfold wf_event, okversion. intros H. tests. unfold lsb_puteventrec.
  destruct (names_agree (type r)) as (s & Es & _ & Hs); [by eapply wf_member_type|]. tests. rewrite Es, good_i32 by done.
  assert (Et : etype r = s) by (unfold etype; by rewrite Es). subst s.
  unfold event_text. rewrite event_line_head, <- app_assoc by done. apply wr_step; [done|]. by eapply write_member_text.
Qed.

(** ** Reading *)

Lemma as_val {A} (f : A -> eventLog) m fs r : reads m fs r -> reads (as_ f m) fs (f r).
Proof. intros [l E]. exists l. unfold as_. by rewrite (bind_val _ _ _ _ _ E). Qed.

Lemma read_member v type eventTime e : wf_member v type eventTime e = true ->
  reads (readEventRecord v type eventTime) (member_fields e) e.
Proof.
  intros H. destruct e; cbn [wf_member] in H; apply andb_true_iff in H as [Ht Hw]; apply is_type_elem in Ht;
    repeat (apply elem_of_cons in Ht as [->|Ht]); try (by apply elem_of_nil in Ht); cbn [member_fields].
  - apply (as_val jobNewE). by apply JobNew.JobNew_reads_ok.
  - apply (as_val jobNewE). by apply JobNew.JobNew_reads_ok.
  - apply (as_val jobModE). by apply JobMod.JobMod_reads_ok.
  - apply (as_val jobStartE). by apply JobStart.JobStart_reads_ok.
  - apply (as_val jobStartE). by apply JobStart.JobStart_reads_ok.
  - apply (as_val jobStartAcceptE). by apply JobStartAccept.JobStartAccept_reads_ok.
  - apply (as_val jobStatusE). by apply JobStatus.JobStatus_reads_ok.
  - apply (as_val sbdJobStatusE). by apply SbdJobStatus.SbdJobStatus_reads_ok.
  - apply (as_val jobSwitchE). by apply JobSwitch.JobSwitch_reads_ok.
  - apply (as_val jobMoveE). by apply JobMove.JobMove_reads_ok.
  - apply (as_val queueCtrlE). by apply QueueCtrl.QueueCtrl_reads_ok.
  - apply (as_val hostCtrlE). by apply HostCtrl.HostCtrl_reads_ok.
  - apply (as_val mbdStartE). by apply MbdStart.MbdStart_reads_ok.
  - apply (as_val mbdDieE). by apply MbdDie.MbdDie_reads_ok.
  - apply (as_val unfulfillE). by apply Unfulfill.Unfulfill_reads_ok.
  - apply (as_val loadIndexE). by apply LoadIndex.LoadIndex_reads_ok.
  - apply (as_val jobFinishE). by apply JobFinish.JobFinish_reads_ok.
  - apply (as_val chkpntE). by apply Chkpnt.Chkpnt_reads_ok.
  - apply (as_val migE). by apply Mig.Mig_reads_ok.
  - apply (as_val jobAttrSetE). by apply JobAttrSet.JobAttrSet_reads_ok.
  - apply (as_val signalE). by apply JobSignal.JobSignal_reads_ok.
  - apply (as_val jobExecuteE). by apply JobExecute.JobExecute_reads_ok.
  - apply (as_val jobMsgE). by apply JobMsg.JobMsg_reads_ok.
  - apply (as_val jobMsgE). by apply JobMsg.JobMsg_reads_ok.
  - apply (as_val sigactE). by apply JobSigAct.JobSigAct_reads_ok.
  - apply (as_val jobRequeueE). by apply JobRequeue.JobRequeue_reads_ok.
  - apply (as_val jobCleanE). by apply JobClean.JobClean_reads_ok.
  - apply (as_val jobForceE). by apply JobForce.JobForce_reads_ok.
  - apply (as_val logSwitchE). by apply LogSwitch.LogSwitch_reads_ok.
Qed.

Lemma head_name_at cap maxLen s f fs : (length s < cap)%nat -> (Z.of_nat (length s) <? maxLen) = true ->
  head_name cap maxLen (at_ (FStr s :: f :: fs)) = Some (inr s, at_ (f :: fs)).
Proof.
  intros Hc Hm. bool_prop. unfold head_name. erewrite bind_val; [|apply (strip_gen cap []); [constructor|done]].
  erewrite bind_val; [|done]. cbn [orb render mbind list_bind app]. rewrite (proj2 (Z.leb_gt _ _)) by lia.
  erewrite bind_val; [|apply next_after]. done.
Qed.

Lemma read_version_val s l : isSome (atof s) = true -> negb (SFleb (version_of s) (S754_zero false)) = true ->
  read_version s l = Some (inr (version_of s), l).
Proof. unfold read_version, version_of. destruct (atof s); [|done]. intros _ H. apply negb_true_iff in H. cbn. by rewrite H. Qed.

Lemma line_at r : Some (event_line r) = at_ (line_fields r).
Proof. done. Qed.

Lemma line_names r : (length (etype r) < length (event_line r) /\ length (version r) < length (event_line r))%nat.
Proof.
  unfold event_line, line_fields, at_. cbn [default id]. rewrite render_cons. cbn [body]. unfold qstr.
  pose proof (qtext_length (etype r)). pose proof (qtext_length (version r)). repeat (rewrite ?length_app; cbn [length app]). lia.
Qed.

Lemma read_line_ok r : wf_event r = true -> exists l, read_record (event_line r) (Some (event_line r)) = Some (inr r, l).
Proof.
  unfold wf_event, okversion. intros H. tests. rewrite line_at. unfold read_record, line_fields. pose proof (line_names r) as [Hl1 Hl2].
  destruct (names_agree (type r)) as (s & Es & Eg & Hs); [by eapply wf_member_type|]. tests.
  assert (Et : etype r = s) by (unfold etype; by rewrite Es). rewrite Et in *.
  eapply reads_bind; [apply head_name_at; [lia|done]|]. eapply reads_bind; [apply head_name_at; [lia|done]|].
  eapply reads_bind; [by apply read_version_val|]. eapply reads_bind; [by apply read_d_at|].
  unfold getEventTypeAndKind. rewrite Eg. destruct (read_member _ _ _ _ H0) as [l E].
  eapply reads_bind; [exact E|]. destruct r. by eexists.
Qed.

(** ** The line *)

Lemma num_char_plain c : num_char c = true -> plain c = true.
Proof. by destruct c as [[] [] [] [] [] [] [] []]. Qed.

Lemma digits_plain w : Forall (fun c => is_digit c = true) w -> plain_text w.
Proof. intros Hw. eapply Forall_impl; [exact Hw|]. intros c H. apply num_char_plain. unfold num_char. by rewrite H. Qed.

Lemma fixed_text_plain p n : 0 <= n -> plain_text (fixed_text p n).
Proof.
  intros Hn. unfold fixed_text. apply Forall_app. split; [apply digits_plain, dec_text_reads, Z.div_pos; lia|].
  destruct p as [|p]; [constructor|]. constructor; [done|]. apply digits_plain, pad_digits_all.
Qed.

Lemma float_text_plain p x : plain_text (float_text p x).
Proof.
  assert (Hs : forall s t, plain_text t -> plain_text (sign_text s ++ t)) by (intros [] t Ht; [by constructor|done]).
  destruct x as [s|s| |s m e]; cbn [float_text].
  - by apply Hs, fixed_text_plain.
  - apply Hs. by repeat constructor.
  - by repeat constructor.
  - apply Hs, fixed_text_plain, scaled_nonneg.
Qed.

Lemma good_body_plain f : good f = true -> plain_text (body f).
Proof.
  destruct f as [z|s|w p x|]; unfold good; cbn [body]; intros H.
  - eapply Forall_impl; [apply int_text_chars|]. apply num_char_plain.
  - unfold qstr. constructor; [done|]. apply Forall_app. split; [|by repeat constructor].
    induction s as [|c s IH]; [constructor|]. cbn [forallb] in H. tests. cbn [qtext mbind list_bind]. fold (qtext s).
    apply Forall_app. split; [|by apply IH]. destruct (Ascii.eqb c quote); by repeat constructor.
  - unfold fmt_f. apply Forall_app. split; [by apply Forall_replicate|apply float_text_plain].
  - constructor.
Qed.

Lemma render_plain fs : forallb good fs = true -> plain_text (render fs).
Proof.
  induction fs as [|f fs IH]; intros H; [constructor|]. cbn [forallb] in H. tests. rewrite render_cons. constructor; [done|].
  apply Forall_app. split; [by apply good_body_plain|by apply IH].
Qed.

(** The last field shows. *)
Definition shows (f : field) : bool := match f with FInt _ | FStr _ => true | _ => false end.

Lemma shows_full f : shows f = true -> full (body f).
Proof.
  destruct f as [z|s|w p x|]; try done; intros _; cbn [body].
  - destruct (int_text z) as [|c w] eqn:E using rev_ind; [by destruct (int_text_ne z)|]. exists w, c. split; [done|].
    pose proof (int_text_chars z) as H. rewrite E in H. apply Forall_app in H as [_ H]. apply Forall_cons in H as [H _].
    destruct (Ascii.eqb_spec c " ") as [->|]; done.
  - unfold qstr. exists (quote :: qtext s), quote. done.
Qed.

Lemma render_full fs f : last fs = Some f -> shows f = true -> full (render fs).
Proof.
  intros Hl Hs. apply last_Some in Hl as [fs' ->]. rewrite render_app, render_cons. cbn [render mbind list_bind]. rewrite app_nil_r.
  destruct (shows_full f Hs) as (u & c & Eb & Hc). rewrite Eb. exists (render fs' ++ " "%char :: u), c. split; [|done].
  by rewrite app_comm_cons, app_assoc.
Qed.

Definition ends (fs : list field) : Prop := exists f, last fs = Some f /\ shows f = true.

Lemma ends_app_r fs gs : ends gs -> ends (fs ++ gs).
Proof. intros (f & Hl & Hs). exists f. rewrite last_app, Hl. done. Qed.

Lemma ends_app_l fs gs : ends fs -> gs = [] \/ ends gs -> ends (fs ++ gs).
Proof. intros H [->|Hg]; [by rewrite app_nil_r|by apply ends_app_r]. Qed.

Lemma ends_or_app fs gs : fs = [] \/ ends fs -> gs = [] \/ ends gs -> fs ++ gs = [] \/ ends (fs ++ gs).
Proof. intros [->|Hf] Hg; [done|]. right. by apply ends_app_l. Qed.

Lemma ends_fopt b p : JobMod.fopt b p = [] \/ ends (JobMod.fopt b p).
Proof. destruct b; [right; by eexists|by left]. Qed.

Lemma ends_strs ss : FStr <$> ss = [] \/ ends (FStr <$> ss).
Proof.
  destruct ss as [|s ss] using rev_ind; [by left|]. right. rewrite fmap_app. apply ends_app_r. by eexists.
Qed.

Lemma member_ends e : ends (member_fields e).
Proof.
  destruct e; cbn [member_fields]; try (eexists; split; [reflexivity|reflexivity]);
    try (repeat apply ends_app_r; eexists; split; [reflexivity|reflexivity]).
  - unfold JobMod.fields. cbv zeta. do 23 (apply ends_app_r). apply ends_app_l; [by eexists|].
    apply ends_or_app; [apply ends_fopt|]. apply ends_or_app; [apply ends_fopt|]. apply ends_or_app; [|apply ends_fopt].
    destruct (has _ _); [right; by eexists|by left].
  - unfold LoadIndex.fields. apply ends_app_l; [by eexists|apply ends_strs].
Qed.

Lemma member_good v type eventTime e : wf_member v type eventTime e = true -> forallb good (member_fields e) = true.
Proof.
  intros H. destruct e; cbn [wf_member] in H; apply andb_true_iff in H as [_ H]; cbn [member_fields];
    unfold JobNew.wf, JobMod.wf, JobStart.wf, JobStartAccept.wf, JobStatus.wf, SbdJobStatus.wf, JobSwitch.wf, JobMove.wf, QueueCtrl.wf,
      HostCtrl.wf, MbdStart.wf, MbdDie.wf, Unfulfill.wf, LoadIndex.wf, JobFinish.wf, Chkpnt.wf, Mig.wf, JobAttrSet.wf, JobSignal.wf,
      JobExecute.wf, JobMsg.wf, JobSigAct.wf, JobRequeue.wf, JobClean.wf, JobForce.wf, LogSwitch.wf in H; cbv zeta in H; tests; done.
Qed.

Lemma event_line_ok r : wf_event r = true ->
  plain_text (event_line r) /\ full (event_line r) /\ hd_error (event_line r) = Some quote.
Proof.
  unfold wf_event, okversion. intros H. tests.
  destruct (names_agree (type r)) as (s & Es & _ & Hs); [by eapply wf_member_type|]. tests.
  assert (Et : etype r = s) by (unfold etype; by rewrite Es). subst s.
  pose proof (member_good _ _ _ _ H0) as Hg. destruct (member_ends (eventLog_ r)) as (f & Hl & Hf).
  assert (E : " "%char :: event_line r = render (line_fields r)) by done.
  assert (Hr : plain_text (render (line_fields r))).
  { apply render_plain. unfold line_fields. cbn [forallb]. rewrite Hg. unfold good at 1 2. rewrite Hs1, H, H1. done. }
  destruct (render_full (line_fields r) f) as (u & c & Eu & Hc); [|done|].
  { unfold line_fields. rewrite !last_cons, Hl. done. }
  split; [rewrite <- E in Hr; by apply Forall_cons in Hr as [_ Hr]|]. split; [|done].
  rewrite <- E in Eu. destruct u as [|d u].
  - injection Eu as <- _. done.
  - injection Eu as _ Eu. by exists u, c.
Qed.

(** ** Whole logs *)

(** Records whose line is ended: all but those of the slave daemon. *)
Definition ended (r : eventRec) : bool := match eventLog_ r with sbdJobStatusE _ => false | _ => true end.

Lemma member_end_ended r : ended r = true ->
  exists b, member_end (eventLog_ r) = b ++ [newline] /\ Forall (fun c => Ascii.eqb c " " = true) b.
Proof.
  unfold ended. destruct (eventLog_ r); intros H; try done; cbn [member_end];
    first [by exists [" "%char]; split; [|repeat constructor] | by exists []; split; [|constructor]].
Qed.

Lemma skip_hash_none fuel w f : hd_error w = Some quote -> skip_hash fuel w f = Some (Some w, f).
Proof. destruct w as [|c w]; [done|]. intros [= ->]. by destruct fuel. Qed.

Lemma get_of_line r w rest n : wf_event r = true -> getNextLine_ false w = Some (Some (event_line r), rest) ->
  lsb_geteventrec (RFile w true) n = Some (inr r, RFile rest true, inc n).
Proof.
  intros Hw Hl. unfold lsb_geteventrec. cbn [opened negb left_]. rewrite Hl. cbn [mbind option_bind].
  destruct (event_line_ok r Hw) as (_ & _ & Hh). rewrite skip_hash_none by done. cbn [mbind option_bind].
  destruct (read_line_ok r Hw) as [l ->]. done.
Qed.

Lemma get_text r rest n : wf_event r = true -> ended r = true ->
  lsb_geteventrec (RFile (event_text r ++ rest) true) n = Some (inr r, RFile rest true, inc n).
Proof.
  intros Hw He. destruct (event_line_ok r Hw) as (Hp & Hf & _). destruct (member_end_ended r He) as (b & Eb & Hb).
  apply get_of_line; [done|]. unfold event_text. rewrite Eb, <- !app_assoc. by apply getNextLine_line.
Qed.


Definition put_all (rs : list eventRec) : M wfile unit := foldr (fun r k => lsb_puteventrec r;; k) (ret tt) rs.
Definition log_text (rs : list eventRec) : list ascii := rs ≫= event_text.
Definition loggable (r : eventRec) : bool := wf_event r && ended r.

Lemma put_all_text rs : forallb loggable rs = true -> eqM (put_all rs) (fprint (log_text rs)).
Proof.
  unfold loggable. induction rs as [|r rs IH]; intros H; [symmetry; apply wr_nil|]. cbn [forallb] in H. tests.
  apply wr_step; [by apply put_text|by apply IH].
Qed.

Lemma read_log_app rs w n k : forallb loggable rs = true ->
  read_log (length rs + k) (RFile (log_text rs ++ w) true) n =
    '(es, f) ← read_log k (RFile w true) (Nat.iter (length rs) inc n); Some ((inr <$> rs) ++ es, f).
Proof.
  unfold loggable. revert n. induction rs as [|r rs IH]; intros n H.
  - cbn. by destruct (read_log k (RFile w true) n) as [[es f]|].
  - cbn [forallb] in H. tests. cbn [length Nat.add read_log log_text mbind list_bind]. fold (log_text rs).
    rewrite <- app_assoc, get_text by done. cbn [mbind option_bind]. rewrite IH by done.
    rewrite <- Nat.iter_succ_r.
    by destruct (read_log k (RFile w true) _) as [[es f]|].
Qed.

(** The line takes at least a character. *)
Lemma event_text_length r : (1 <= length (event_text r))%nat.
Proof. unfold event_text. rewrite length_app. destruct (line_names r). lia. Qed.

Lemma log_text_length rs : (length rs <= length (log_text rs))%nat.
Proof.
  induction rs as [|r rs IH]; [done|]. cbn [log_text mbind list_bind length]. fold (log_text rs). rewrite length_app.
  pose proof (event_text_length r). lia.
Qed.

Lemma log_text_app rs rs' : log_text (rs ++ rs') = log_text rs ++ log_text rs'.
Proof. apply bind_app. Qed.

Lemma log_text_cons r rs : log_text (r :: rs) = event_text r ++ log_text rs.
Proof. done. Qed.

(** ** Theorems *)


(** (C20) A log of records, one written after the other to an empty file, is read by the
    loop of the master daemon as exactly these records in their order, and the
    file is closed at the end. *)
Theorem log_roundtrip rs :
  forallb loggable rs = true ->
  exists text, put_all rs (WFile [] None) = Some (inr tt, WFile text None) /\
    read_log (S (length rs)) (RFile text true) 0 = Some (inr <$> rs, RFile [] false).
Proof.
  intros H. exists (log_text rs). split; [by rewrite (put_all_text rs H)|].
  pose proof (read_log_app rs [] 0 1 H) as E. rewrite app_nil_r, Nat.add_1_r in E. rewrite E. cbn. by rewrite app_nil_r.
Qed.

(** Records that are read one after the other. *)
Inductive reads : rfile -> Z -> list eventRec -> rfile -> Z -> Prop :=
  | reads_nil f n : reads f n [] f n
  | reads_cons f n r f1 n1 rs f' n' : lsb_geteventrec f n = Some (inr r, f1, n1) -> reads f1 n1 rs f' n' -> reads f n (r :: rs) f' n'.

Lemma reads_log rs w n : forallb loggable rs = true -> reads (RFile (log_text rs ++ w) true) n rs (RFile w true) (Nat.iter (length rs) inc n).
Proof.
  unfold loggable. revert n. induction rs as [|r rs IH]; intros n H; [apply reads_nil|]. cbn [forallb] in H. tests.
  rewrite log_text_cons, <- app_assoc. eapply reads_cons; [by apply get_text|]. cbn [length]. rewrite Nat.iter_succ_r. by apply IH.
Qed.

(** (C21) When the stream reports an error within a record, after any number [k] of its
    characters, the write ends with [LSBE_SYS_CALL]; and however many characters of
    the record have reached the file, every record before it is still read, and the
    reading stands before what there is of the record. *)
Theorem full_disk_keeps_log rs r k :
  forallb loggable rs = true -> wf_event r = true -> (k < length (event_text r))%nat ->
  exists text record,
    put_all rs (WFile [] None) = Some (inr tt, WFile text None) /\
    lsb_puteventrec r (WFile text None) = Some (inr tt, WFile (text ++ record) None) /\
    lsb_puteventrec r (WFile text (Some k)) = Some (inl LSBE_SYS_CALL, WFile (text ++ take k record) (Some 0%nat)) /\
    forall k', reads (RFile (text ++ take k' record) true) 0 rs (RFile (take k' record) true) (Nat.iter (length rs) inc 0).
Proof.
  intros Hrs Hw Hk. exists (log_text rs), (event_text r). split; [by rewrite (put_all_text rs Hrs)|].
  split; [by rewrite (put_text r Hw)|]. split; [|intros k'; by apply reads_log].
  rewrite (put_text r Hw). unfold fprint, wr. cbn [room written]. destruct (Nat.leb_spec (length (event_text r)) k); [lia|done].
Qed.

(** ** Records of older versions *)

(** On a file with room enough a writer either goes on or is undefined. *)
Definition goes_on (m : M wfile unit) : Prop := forall t, m (WFile t None) = None \/ exists t', m (WFile t None) = Some (inr tt, WFile t' None).

Lemma goes_on_wr code t : goes_on (wr code t).
Proof. intros u. right. by eexists. Qed.

Lemma goes_on_bind m k : goes_on m -> goes_on k -> goes_on (m;; k).
Proof. intros Hm Hk t. unfold bind. destruct (Hm t) as [-> | [t' ->]]; [by left|apply Hk]. Qed.

Lemma goes_on_q s : goes_on (addQ s).
Proof.
  destruct s as [s|]; intros t; [|by left]. unfold addQ. rewrite addQStr_wr. apply goes_on_wr.
Qed.

Lemma goes_on_each f i n : (forall j, goes_on (f j)) -> goes_on (each f i n).
Proof. intros Hf. revert i. induction n as [|n IH]; intros i; [intros t; right; by eexists|]. apply goes_on_bind; [done|apply IH]. Qed.

Lemma stuck_bind m (k : M wfile unit) : goes_on m -> (forall t, k (WFile t None) = None) -> forall t, (m;; k) (WFile t None) = None.
Proof. intros Hm Hk t. unfold bind. destruct (Hm t) as [-> | [t' ->]]; [done|apply Hk]. Qed.

Lemma bind_inv {S A B} (m : M S A) (k : A -> M S B) s b s' :
  bind m k s = Some (inr b, s') -> exists a s1, m s = Some (inr a, s1) /\ k a s1 = Some (inr b, s').
Proof. unfold bind. destruct (m s) as [[[c|a] s1]|]; [done| |done]. intros H. by exists a, s1. Qed.

Lemma old_start_stuck v l r l' t :
  since VOLCLAVA_VERSION2_2 v = false -> JobStart.readJobStart v l = Some (inr r, l') ->
  JobStart.writeJobStart r (WFile t None) = None.
Proof.
  intros Hv Hr. assert (E : JobStart.effeResReq r = None).
  { unfold JobStart.readJobStart in Hr. rewrite Hv in Hr. do 7 apply bind_inv in Hr as (? & ? & _ & Hr).
    destruct (_ =? 0); [done|]. do 6 apply bind_inv in Hr as (? & ? & _ & Hr). apply bind_inv in Hr as (? & ? & E & Hr).
    injection E as <- _. by injection Hr as <- _. }
  unfold JobStart.writeJobStart. rewrite E.
  revert t. do 8 (apply stuck_bind; [first [apply goes_on_wr | apply goes_on_q | apply goes_on_each; intros; apply goes_on_q]|]).
  intros t. done.
Qed.

(** What the record has been read from. *)
Lemma get_inv f n r f' n' : lsb_geteventrec f n = Some (inr r, f', n') -> exists w l, read_record w (Some w) = Some (inr r, l).
Proof.
  unfold lsb_geteventrec. destruct (opened f); [|done]. cbn [negb]. destruct (getNextLine_ false (left_ f)) as [[[w|] rest]|]; try done.
  cbn [mbind option_bind]. destruct (skip_hash _ _ _) as [[[w'|] f1]|]; try done. cbn [mbind option_bind].
  destruct (read_record w' (Some w')) as [[o l]|] eqn:E; [|done]. cbn. intros [= -> _ _]. by exists w', l.
Qed.

Lemma record_inv w r l l' : read_record w l = Some (inr r, l') ->
  exists l1, readEventRecord (version_of (version r)) (type r) (eventTime r) l1 = Some (inr (eventLog_ r), l').
Proof.
  unfold read_record. intros H. apply bind_inv in H as (et & l1 & _ & H). apply bind_inv in H as (ver & l2 & _ & H).
  apply bind_inv in H as (v & l3 & Hv & H). apply bind_inv in H as (tm & l4 & _ & H).
  destruct (getEventTypeAndKind et) as [[ty|] k]; [|done]. apply bind_inv in H as (e & l5 & He & H).
  injection H as <- <-. cbn. exists l4. unfold read_version in Hv. unfold version_of. destruct (atof ver); [|discriminate Hv]. cbn in Hv.
  destruct (SFleb _ _); [discriminate Hv|]. by injection Hv as -> _.
Qed.

(** (C22) The start of a job that was logged by a version before 2.2 has no resource
    requirement; when the log is rewritten, as on every switch of the log, the
    record that has been read cannot be written: the missing string is followed
    as a null pointer. *)
Theorem old_start_not_writable f n r f' n' t :
  lsb_geteventrec f n = Some (inr r, f', n') -> type r = EVENT_JOB_START ->
  since VOLCLAVA_VERSION2_2 (version_of (version r)) = false ->
  lsb_puteventrec r (WFile t None) = None.
Proof.
  intros Hg Ht Hv. apply get_inv in Hg as (w & l & Hr). apply record_inv in Hr as (l1 & He). unfold lsb_puteventrec.
  rewrite Ht in *. change (readEventRecord (version_of (version r)) EVENT_JOB_START (eventTime r))
    with (as_ jobStartE (JobStart.readJobStart (version_of (version r)))) in He.
  apply bind_inv in He as (s & l2 & Hs & He). injection He as He _. rewrite <- He.
  change (put_name EVENT_JOB_START put_names) with (Some (lit "JOB_START")). cbv iota.
  apply stuck_bind; [apply goes_on_wr|]. intros u. by eapply old_start_stuck.
Qed.
