(* ===== verification/LogSelect.v ===== *)
(** * The events of some jobs, [lsbatch/lib/lsb.log.c]

    [bhist] reads the log for a list of jobs only.  A line is taken apart as far
    as the job id, which stands at a place that depends on the type of the event,
    and is read as a record if the id is one of those asked for. *)

From Stdlib Require Import Ascii SpecFloat.
From S2P Require Import Prelude CString Float32 Stdio Words Lsb Grp LogBase LogEvent LogCtrl LogJob LogFile LogMain.

(** ** The job id in a line *)

Inductive id_place := IdFirst | IdQuoted | IdSecond.

(** The cases of the switches in [checkJobEventAndJobId] and
    [getJobIdFromEvent]. *)
Definition id_cases (eventType : Z) : option id_place :=
  if is_type [EVENT_JOB_NEW; EVENT_JOB_MODIFY; EVENT_PRE_EXEC_START; EVENT_JOB_START; EVENT_JOB_START_ACCEPT; EVENT_JOB_STATUS;
              EVENT_SBD_JOB_STATUS; EVENT_JOB_FINISH; EVENT_CHKPNT; EVENT_MIG; EVENT_JOB_ATTR_SET; EVENT_JOB_SIGNAL; EVENT_JOB_EXECUTE;
              EVENT_JOB_MSG; EVENT_JOB_MSG_ACK; EVENT_JOB_SIGACT; EVENT_JOB_REQUEUE; EVENT_JOB_CLEAN; EVENT_JOB_FORCE] eventType
  then Some IdFirst
  else if is_type [EVENT_JOB_MODIFY2] eventType then Some IdQuoted
  else if is_type [EVENT_JOB_SWITCH; EVENT_JOB_MOVE] eventType then Some IdSecond
  else None.

(** A character of the format that has to be there. *)
Definition scan_char (c : ascii) : M line unit := fun l =>
  w ← l;
  match w with
  | d :: r => if Ascii.eqb c d then Some (inr tt, Some r) else Some (inl LSBE_EVENT_FORMAT, l)
  | [] => Some (inl LSBE_EVENT_FORMAT, l)
  end.

(** The three formats: one number, a number behind a quote, the second of two
    numbers. *)
Definition scan_id (p : id_place) : M line Z :=
  match p with
  | IdFirst => scan_d
  | IdQuoted => scan_char quote;; scan_d
  | IdSecond => scan_d;; scan_d
  end.

(** Whether the line is to be read; one without a number is, so that it is
    reported. *)
Definition checkJobEventAndJobId (l : line) (eventType : Z) (jobIds : list Z) : option bool :=
  match id_cases eventType with
  | None => Some false
  | Some p =>
      '(o, _) ← scan_id p l;
      Some (match o with
            | inl _ => true
            | inr eventJobId =>
                if bool_decide (jobIds = []) || (eventType =? EVENT_JOB_NEW) then true
                else existsb (fun id => LSB_ARRAY_JOBID id =? eventJobId) jobIds
            end)
  end.

(** The id for the index, 0 for none. *)
Definition getJobIdFromEvent (l : line) (eventType : Z) : option Z :=
  match id_cases eventType with
  | None => Some 0
  | Some p => '(o, _) ← scan_id p l; Some (match o with inl _ => 0 | inr eventJobId => eventJobId end)
  end.

(** ** The next record of the jobs *)

(** The body of the loop after the line has been read; [None] for the next
    line. *)
Definition job_record (jobIds : list Z) : M line (option eventRec) :=
  let! etype := name_of MAX_LSB_NAME_LEN in
  match getEventTypeAndKind etype with
  | (Some type, true) =>
      let! ver := name_of MAX_VERSION_LEN in
      let! v := read_version ver in
      let! eventTime := read_d in
      let! wanted := (fun l => b ← checkJobEventAndJobId l type jobIds; Some (inr b, l)) in
      if wanted : bool then let! e := readEventRecord v type eventTime in ret (Some (EventRec ver type eventTime e)) else ret None
  | _ => ret None
  end.

Definition hash_line (w : list ascii) : bool := match w with c :: _ => Ascii.eqb c "#" | [] => false end.

(** The record or the error, what is left of the file, and the line number. *)
Fixpoint rec_loop (fuel : nat) (jobIds : list Z) (logFp : list ascii) (lineNum : Z) : option ((Z + eventRec) * list ascii * Z) :=
  match fuel with
  | O => None
  | S fuel =>
      '(l, logFp) ← getNextLine_ false logFp;
      match l with
      | None => Some (inl LSBE_EOF, logFp, inc lineNum)
      | Some w =>
          if hash_line w then rec_loop fuel jobIds logFp (inc lineNum) else
          '(o, _) ← job_record jobIds (Some w);
          match o with
          | inl code => Some (inl code, logFp, inc lineNum)
          | inr None => rec_loop fuel jobIds logFp (inc lineNum)
          | inr (Some r) => Some (inr r, logFp, inc lineNum)
          end
      end
  end.
Definition lsbGetNextJobRecFromFile (jobIds : list Z) (logFp : list ascii) (lineNum : Z) : option ((Z + eventRec) * list ascii * Z) :=
  rec_loop (S (length logFp)) jobIds logFp lineNum.

(** ** What the records are selected by *)

(** The number that is taken for the job id of a record.  Messages have the id of
    their user at that place. *)
Definition event_job_id (e : eventLog) : option Z :=
  match e with
  | jobNewE r => Some (JobNew.jobId r) | jobModE r => fst <$> scan_int (str (JobMod.jobIdStr r)) | jobStartE r => Some (JobStart.jobId r)
  | jobStartAcceptE r => Some (JobStartAccept.jobId r) | jobStatusE r => Some (JobStatus.jobId r)
  | sbdJobStatusE r => Some (SbdJobStatus.jobId r) | jobSwitchE r => Some (JobSwitch.jobId r) | jobMoveE r => Some (JobMove.jobId r)
  | jobFinishE r => Some (JobFinish.jobId r) | chkpntE r => Some (Chkpnt.jobId r) | migE r => Some (Mig.jobId r)
  | jobAttrSetE r => Some (JobAttrSet.jobId r) | signalE r => Some (JobSignal.jobId r) | jobExecuteE r => Some (JobExecute.jobId r)
  | jobMsgE r => Some (JobMsg.usrId r) | sigactE r => Some (JobSigAct.jobId r) | jobRequeueE r => Some (JobRequeue.jobId r)
  | jobCleanE r => Some (JobClean.jobId r) | jobForceE r => Some (JobForce.jobId r)
  | queueCtrlE _ | hostCtrlE _ | mbdStartE _ | mbdDieE _ | unfulfillE _ | loadIndexE _ | logSwitchE _ => None
  end.

(** A modification names its job by a text, of which the number is an [int]. *)
Definition id_fits (e : eventLog) : bool :=
  match e with jobModE _ => match event_job_id e with Some id => int32 id | None => true end | _ => true end.

Definition about_job (r : eventRec) : bool := is_type job_events (type r).

Definition wanted (jobIds : list Z) (r : eventRec) : bool :=
  about_job r &&
  match event_job_id (eventLog_ r) with
  | None => true
  | Some id => bool_decide (jobIds = []) || (type r =? EVENT_JOB_NEW) || existsb (fun j => LSB_ARRAY_JOBID j =? id) jobIds
  end.

(** ** The id is found *)

(** A number at the start of a quoted string. *)
Lemma qtext_cons c s : qtext (c :: s) = (if Ascii.eqb c quote then [quote; quote] else [c]) ++ qtext s.
Proof. done. Qed.

Lemma skip_space_quoted s r : skip_space (qtext s ++ quote :: r) = qtext (skip_space s) ++ quote :: r.
Proof.
  induction s as [|c s IH]; [done|]. rewrite qtext_cons. cbn [skip_space]. destruct (Ascii.eqb_spec c quote) as [->|Hc]; [done|].
  cbn [app]. cbn [skip_space]. destruct (is_space c); [done|]. rewrite qtext_cons. by rewrite (eqb_ne _ _ Hc).
Qed.

Lemma read_digits_quoted acc s r : fst (read_digits acc (qtext s ++ quote :: r)) = fst (read_digits acc s).
Proof.
  revert acc. induction s as [|c s IH]; intros acc; [done|]. rewrite qtext_cons.
  destruct (Ascii.eqb_spec c quote) as [->|Hc]; [done|]. cbn [app read_digits]. by destruct (digit c).
Qed.

Lemma scan_int_quoted s r : fst <$> scan_int (qtext s ++ quote :: r) = fst <$> scan_int s.
Proof.
  unfold scan_int. rewrite skip_space_quoted.
  assert (H : forall (neg : bool) s, fst <$> match qtext s ++ quote :: r with
      | c :: _ => if is_digit c then let '(v, rest) := read_digits 0 (qtext s ++ quote :: r) in Some (if neg then - v else v, rest) else None
      | [] => None end = fst <$> match s with
      | c :: _ => if is_digit c then let '(v, rest) := read_digits 0 s in Some (if neg then - v else v, rest) else None
      | [] => None end).
  { clear s. intros neg s. pose proof (read_digits_quoted 0 s r) as Hd. destruct s as [|c s]; [done|].
    rewrite qtext_cons in *. destruct (Ascii.eqb_spec c quote) as [->|Hc]; [done|]. cbn [app] in *. destruct (is_digit c); [|done].
    destruct (read_digits 0 (c :: qtext s ++ _)) as [v1 r1], (read_digits 0 (c :: s)) as [v2 r2]. cbn in Hd. by subst. }
  destruct (skip_space s) as [|c w] eqn:E; [done|]. rewrite qtext_cons.
  destruct (Ascii.eqb_spec c quote) as [->|Hc]; [done|]. cbn [app read_sign].
  destruct (Ascii.eqb c "-"); [apply (H true w)|]. destruct (Ascii.eqb c "+"); [apply (H false w)|].
  specialize (H false (c :: w)). rewrite qtext_cons, (eqb_ne _ _ Hc) in H. exact H.
Qed.

Lemma scan_d_quoted s r id : fst <$> scan_int s = Some id -> int32 id = true ->
  exists l, scan_d (Some (qtext s ++ quote :: r)) = Some (inr id, l).
Proof.
  intros Hs Hi. rewrite <- (scan_int_quoted s r) in Hs. unfold scan_d. cbn [mbind option_bind].
  destruct (scan_int (qtext s ++ quote :: r)) as [[v w]|]; [|done]. injection Hs as ->. rewrite Hi. by eexists.
Qed.

Lemma scan_d_none s r : fst <$> scan_int s = None -> exists code l, scan_d (Some (qtext s ++ quote :: r)) = Some (inl code, l).
Proof.
  intros Hs. rewrite <- (scan_int_quoted s r) in Hs. unfold scan_d. cbn [mbind option_bind].
  destruct (scan_int (qtext s ++ quote :: r)) as [[v w]|]; [done|]. by eexists _, _.
Qed.

(** The id, or that there is none. *)
Definition finds (m : M line Z) (l : line) (id : option Z) : Prop :=
  exists o l', m l = Some (o, l') /\ match id with Some id => o = inr id | None => exists code, o = inl code end.

Lemma finds_first z fs : good (FInt z) = true -> finds (scan_id IdFirst) (at_ (FInt z :: fs)) (Some z).
Proof. intros H. eexists _, _. split; [by apply scan_d_at|done]. Qed.

Lemma finds_second u z fs : good (FInt u) = true -> good (FInt z) = true -> finds (scan_id IdSecond) (at_ (FInt u :: FInt z :: fs)) (Some z).
Proof.
  intros Hu Hz. eexists _, _. split; [|done]. cbn [scan_id]. erewrite bind_val; [|by apply scan_d_at]. by apply scan_d_after.
Qed.

Lemma finds_quoted s fs : match fst <$> scan_int s with Some id => int32 id | None => true end = true ->
  finds (scan_id IdQuoted) (at_ (FStr s :: fs)) (fst <$> scan_int s).
Proof.
  intros H. unfold finds, at_. cbn [scan_id body]. unfold qstr. rewrite <- app_comm_cons, <- app_assoc.
  change ([quote] ++ render fs) with (quote :: render fs). erewrite bind_val; [|done]. destruct (fst <$> scan_int s) as [id|] eqn:E.
  - destruct (scan_d_quoted s (render fs) id E H) as [l Hl]. eexists _, _. split; [exact Hl|done].
  - destruct (scan_d_none s (render fs) E) as (code & l & Hl). eexists _, _. split; [exact Hl|by eexists].
Qed.

Lemma scan_member v type eventTime e :
  wf_member v type eventTime e = true -> is_type job_events type = true -> id_fits e = true ->
  exists p, id_cases type = Some p /\ finds (scan_id p) (at_ (member_fields e)) (event_job_id e).
Proof.
  intros Hw Hj Hf. pose proof (member_good _ _ _ _ Hw) as Hg.
  destruct e; cbn [wf_member] in Hw; apply andb_true_iff in Hw as [Ht _]; apply is_type_elem in Ht;
    repeat (apply elem_of_cons in Ht as [->|Ht]); try (by apply elem_of_nil in Ht); try done;
    (eexists; split; [reflexivity|]); cbn [member_fields event_job_id] in *;
    first [ apply finds_quoted; exact Hf
          | apply finds_second; cbn in Hg; tests; assumption
          | apply finds_first; cbn in Hg; tests; assumption ].
Qed.

Lemma check_member v type eventTime e jobIds :
  wf_member v type eventTime e = true -> is_type job_events type = true -> id_fits e = true ->
  checkJobEventAndJobId (at_ (member_fields e)) type jobIds =
    Some (match event_job_id e with
          | None => true
          | Some id => bool_decide (jobIds = []) || (type =? EVENT_JOB_NEW) || existsb (fun j => LSB_ARRAY_JOBID j =? id) jobIds
          end).
Proof.
  intros Hw Hj Hf. destruct (scan_member _ _ _ _ Hw Hj Hf) as (p & Ep & o & l & Es & Ho).
  unfold checkJobEventAndJobId. rewrite Ep, Es. cbn. destruct (event_job_id e) as [id|].
  - subst o. by destruct (_ || _).
  - by destruct Ho as [code ->].
Qed.

(** The head of a record. *)
Lemma name_of_at maxLen s f fs : maxLen <= MAXLINELEN -> (Z.of_nat (length s) <? maxLen) = true ->
  name_of maxLen (at_ (FStr s :: f :: fs)) = Some (inr s, at_ (f :: fs)).
Proof.
  intros Hm Hs. bool_prop. unfold name_of. erewrite bind_val; [|apply (strip_gen (Z.to_nat MAXLINELEN) []); [constructor|unfold MAXLINELEN in *; lia]].
  rewrite (proj2 (Z.leb_gt _ _)) by lia. erewrite bind_val; [|apply next_after]. done.
Qed.

Definition wf_select (r : eventRec) : bool := wf_event r && id_fits (eventLog_ r).

Lemma job_record_line jobIds r : wf_select r = true ->
  exists l, job_record jobIds (Some (event_line r)) = Some (inr (if wanted jobIds r then Some r else None), l).
Proof.
  unfold wf_select, wf_event, okversion. intros H. tests. rewrite line_at. unfold job_record, line_fields.
  destruct (names_agree (type r)) as (s & Es & Eg & Hs); [by eapply wf_member_type|]. tests.
  assert (Et : etype r = s) by (unfold etype; by rewrite Es). rewrite Et in *.
  eapply reads_bind; [by apply name_of_at|]. unfold getEventTypeAndKind, wanted. rewrite Eg. fold (about_job r).
  destruct (about_job r) eqn:Ej; [|by eexists].
  eapply reads_bind; [by apply name_of_at|]. eapply reads_bind; [by apply read_version_val|]. eapply reads_bind; [by apply read_d_at|].
  eapply reads_bind; [by erewrite check_member|]. cbn [andb]. destruct (match event_job_id _ with Some _ => _ | None => _ end); [|by eexists].
  destruct (read_member _ _ _ _ H1) as [l E]. eapply reads_bind; [exact E|]. destruct r. by eexists.
Qed.

(** ** The next record is the next one that is wanted *)

Definition job_log (rs : list eventRec) : bool := forallb (fun r => loggable r && id_fits (eventLog_ r)) rs.

Lemma loop_line r : loggable r = true -> forall rest, getNextLine_ false (event_text r ++ rest) = Some (Some (event_line r), rest).
Proof.
  unfold loggable. intros H rest. tests. destruct (event_line_ok r H) as (Hp & Hf & _). destruct (member_end_ended r H0) as (b & Eb & Hb).
  unfold event_text. rewrite Eb, <- !app_assoc. by apply getNextLine_line.
Qed.

Lemma not_hash r : loggable r = true -> hash_line (event_line r) = false.
Proof.
  unfold loggable. intros H. tests. destruct (event_line_ok r H) as (_ & _ & Hh). destruct (event_line r) as [|c w]; [done|].
  by injection Hh as ->.
Qed.

Lemma rec_loop_step fuel jobIds r rest n : loggable r && id_fits (eventLog_ r) = true ->
  rec_loop (S fuel) jobIds (event_text r ++ rest) n =
    if wanted jobIds r then Some (inr r, rest, inc n) else rec_loop fuel jobIds rest (inc n).
Proof.
  intros H. tests. cbn [rec_loop]. rewrite loop_line by done. cbn [mbind option_bind]. rewrite not_hash by done.
  destruct (job_record_line jobIds r) as [l E].
  { unfold wf_select. unfold loggable in H. tests. by rewrite H, H0. }
  rewrite E. cbn. by destruct (wanted jobIds r).
Qed.

Lemma rec_loop_skip fuel jobIds rs rest n : job_log rs = true -> Forall (fun r => wanted jobIds r = false) rs ->
  rec_loop (length rs + fuel) jobIds (log_text rs ++ rest) n = rec_loop fuel jobIds rest (Nat.iter (length rs) inc n).
Proof.
  unfold job_log. intros Hl Hw. revert n Hl. induction Hw as [|r rs Hr _ IH]; intros n Hl; [done|].
  cbn [forallb] in Hl. apply andb_true_iff in Hl as [Hl Hl']. cbn [length Nat.add log_text mbind list_bind]. fold (log_text rs).
  rewrite <- app_assoc, rec_loop_step, Hr by done. rewrite IH by done. by rewrite <- Nat.iter_succ_r.
Qed.

(** The records before the first wanted one are passed over. *)
Lemma next_job_found jobIds rs r rs' n :
  job_log (rs ++ r :: rs') = true -> Forall (fun r => wanted jobIds r = false) rs -> wanted jobIds r = true ->
  lsbGetNextJobRecFromFile jobIds (log_text (rs ++ r :: rs')) n = Some (inr r, log_text rs', inc (Nat.iter (length rs) inc n)).
Proof.
  unfold job_log. rewrite forallb_app. cbn [forallb]. intros Hl Hs Hr. apply andb_true_iff in Hl as [Hl Hl']. apply andb_true_iff in Hl' as [Hr' _].
  unfold lsbGetNextJobRecFromFile. rewrite log_text_app. cbn [log_text mbind list_bind]. fold (log_text rs').
  replace (S _) with (length rs + S (length (log_text rs ++ event_text r ++ log_text rs') - length rs))%nat.
  - rewrite rec_loop_skip, rec_loop_step, Hr by done. done.
  - rewrite length_app. pose proof (log_text_length rs). lia.
Qed.

Lemma next_job_none jobIds rs n : job_log rs = true -> Forall (fun r => wanted jobIds r = false) rs ->
  lsbGetNextJobRecFromFile jobIds (log_text rs) n = Some (inl LSBE_EOF, [], inc (Nat.iter (length rs) inc n)).
Proof.
  intros Hl Hs. unfold lsbGetNextJobRecFromFile. pose proof (log_text_length rs).
  replace (S _) with (length rs + S (length (log_text rs) - length rs))%nat by lia. rewrite <- (app_nil_r (log_text rs)) at 2.
  by rewrite rec_loop_skip.
Qed.
