(* ===== verification/LogRotate.v ===== *)
(** * Switching the event log, [lsbatch/daemons/mbd.log.c]

    When the log has grown the master daemon moves what has been logged since the
    last switch to an archive, [lsb.events.1], and rewrites [lsb.events] with the
    records that the jobs in memory still need.  A number behind [#] at the start
    of the file is the position where the records begin that are in no archive. *)

From stdpp Require Import gmap strings.
From Stdlib Require Import Ascii SpecFloat.
From S2P Require Import Prelude CString Lsb Jidx Jarray Float32 Stdio Words Grp LogBase LogEvent LogCtrl LogJob LogFile LogMain.

(** ** Files *)

(** The files of the directory of the log: the log, the archives by number and the
    file that becomes the log. *)
Inductive fname := FEvents | FArchive (n : Z) | FTmp.
#[global] Instance fname_eq_dec : EqDecision fname.
Proof. solve_decision. Defined.
#[global] Instance fname_countable : Countable fname.
Proof.
  refine (inj_countable' (fun f => match f with FEvents => inl tt | FArchive n => inr (inl n) | FTmp => inr (inr tt) end)
    (fun x => match x with inl _ => FEvents | inr (inl n) => FArchive n | inr (inr _) => FTmp end) _). by intros [].
Defined.

Notation store := (gmap fname (list ascii)).

(** [fscanf(fp, "%c%ld ", &ch, &pos) != 2 || ch != '#'] and the position, 0 for a
    file without one. *)
Definition head_pos (w : list ascii) : Z :=
  match w with
  | ch :: r => match scan_int r with Some (pos, _) => if Ascii.eqb ch "#" then pos else 0 | None => 0 end
  | [] => 0
  end.

(** ** The archive *)

Definition MSGSIZE : Z := 8192.

(** What the system does with the files during a switch: the room of the streams of
    the archive and of the new log, how much of the archive has reached the disk
    when its stream is closed, whether the two files can be created, the new log be
    closed and take the name of the log, and archive [i] be given the next number. *)
Record disk := Disk {
  room0 : option nat; room1 : option nat; flushed0 : option nat;
  creates0 : bool; creates1 : bool; closes1 : bool; moves1 : bool; renames : Z -> bool }.
Definition no_faults : disk := Disk None None None true true true true (fun _ => true).

(** [fwrite] of a part: as much as there is room for; [false] if nothing was
    written. *)
Definition fwrite (t : list ascii) (f : wfile) : bool * wfile :=
  match room f with
  | None => (true, WFile (written f ++ t) None)
  | Some k => (negb (Nat.min k (length t) =? 0)%nat, WFile (written f ++ take k t) (Some (k - length t)%nat))
  end.

(** The loop that copies the rest of the log: [size] bytes are to be read, [nread]
    have been; both are [int]s. *)
Fixpoint copy_loop (fuel : nat) (eventPtr : list ascii) (size nread : Z) (event0 : wfile) : option (bool * wfile) :=
  if nread <? size then
    match fuel with
    | O => None
    | S fuel =>
        let buf := take (Z.to_nat MSGSIZE) eventPtr in
        if (0 <? length buf)%nat then
          let cc := Z.of_nat (length buf) in
          let cc := if size <? i32 (nread + cc) then size - nread else cc in
          let '(ok, event0) := fwrite (take (Z.to_nat cc) buf) event0 in
          if ok : bool then copy_loop fuel (drop (Z.to_nat MSGSIZE) eventPtr) size (i32 (nread + cc)) event0 else Some (false, event0)
        else Some (true, event0)
    end
  else Some (true, event0).

Definition archive_head (time : Z) : list ascii := "#"%char :: int_text time ++ replicate 23 " "%char ++ [newline].

(** The file when its stream has been closed, whatever the result of that is. *)
Definition flushed (n : option nat) (t : list ascii) : list ascii := match n with None => t | Some k => take k t end.

(** [createEvent0File]: what has been logged behind the position is copied to
    archive 0.  The size of the log is kept in an [int]. *)
Definition createEvent0File (time : Z) (d : disk) (s : store) : option (bool * store) :=
  match s !! FEvents with
  | None => Some (false, s)
  | Some w =>
      if negb (creates0 d) then Some (false, s) else
      let size := i32 (Z.of_nat (length w)) in
      let pos := head_pos w in
      let '(_, event0) := fwrite (archive_head time) (WFile [] (room0 d)) in
      if pos <? 0 then Some (false, <[FArchive 0 := flushed (flushed0 d) (written event0)]> s) else
      let rest := drop (Z.to_nat pos) w in
      let size := i32 (size - pos) in
      '(ok, event0) ← copy_loop (S (length rest)) rest size 0 event0;
      Some (ok, <[FArchive 0 := flushed (flushed0 d) (written event0)]> s)
  end.

(** [renameElogFiles]: the first number that is free, ... *)
Fixpoint free_number (fuel : nat) (s : store) (i : Z) : option Z :=
  match s !! FArchive (i + 1) with
  | None => Some (i + 1)
  | Some _ => match fuel with O => None | S fuel => free_number fuel s (i + 1) end
  end.

(** ... and every archive gets the next number, the last one first, until that
    fails; that there is no such file is no failure. *)
Definition rename (f g : fname) (s : store) : store :=
  match s !! f with Some t => <[g := t]> (delete f s) | None => s end.
Fixpoint shift_files (d : disk) (i : nat) (s : store) : bool * store :=
  match i with
  | O => (true, s)
  | S i =>
      if isSome (s !! FArchive (Z.of_nat i)) && negb (renames d (Z.of_nat i)) then (false, s)
      else shift_files d i (rename (FArchive (Z.of_nat i)) (FArchive (Z.of_nat i + 1)) s)
  end.
Definition renameElogFiles (d : disk) (s : store) : option (Z * store) :=
  max ← free_number (size s) s 0;
  let '(ok, s) := shift_files d (Z.to_nat max) s in Some (if ok : bool then max else -1, s).

(** ** What the daemon has in memory *)

Definition HOST_STAT_DISABLED : Z := 4.
Definition QUEUE_STAT_OPEN : Z := 1.
Definition QUEUE_STAT_ACTIVE : Z := 2.
Definition QUEUE_CLOSED : Z := 2.
Definition QUEUE_INACTIVATE : Z := 4.
Definition HOST_CLOSE : Z := 2.

(** The start times of the jobs by their ids, those of the jobs that have been
    removed, the status of hosts and of queues. *)
Record core := Core {
  jobIdHT : gmap Z Z; voidJobList : list (Z * Z); hostTab : gmap (list ascii) Z; qDataList : list (list ascii * Z) }.

Definition getJobData (c : core) (jobId : Z) : option Z := if jobId <=? 0 then None else jobIdHT c !! jobId.

Definition checkJobInCore (c : core) (jobId : Z) : option Z :=
  match getJobData c jobId with
  | Some jp => Some jp
  | None => snd <$> List.find (fun e => (jobId =? fst e) || (jobId =? LSB_ARRAY_JOBID (fst e))) (voidJobList c)
  end.

(** Whether a record may be left out of the new log. *)
Definition canSwitch (eventTime : Z) (jp : option Z) : bool :=
  match jp with
  | Some startTime => (0 <? startTime) && (eventTime <? startTime)
  | None => true
  end.

Definition getQueueData (c : core) (queueName : list ascii) : option Z :=
  snd <$> List.find (fun q => bool_decide (fst q = queueName)) (qDataList c).

Section Switch.
(** The limits and globals of the parser of job array indices, the resolver of
    host names, and the order in which the entries of a hash table are visited. *)
Context (L : limits) (g : pglobals) (Gethostbyname_ : list ascii -> option (list ascii)).
Context (visit : forall A, list (list ascii * A) -> list (list ascii * A)).
Arguments visit {A} _.

Definition getHostData (c : core) (host : list ascii) : option Z :=
  match hostTab c !! host with
  | Some hData => Some hData
  | None => if bool_decide (host = lit "lost_and_found") then None else hp ← Gethostbyname_ host; hostTab c !! hp
  end.

(** ** Closed hosts and queues *)

(** The tables of the last events that are still in force: the time and the
    record by name. *)
Record tables := Tables {
  hostCtrlEvents : list (list ascii * (Z * HostCtrl.hostCtrlLog));
  closedQueueEvents : list (list ascii * (Z * QueueCtrl.queueCtrlLog));
  inactiveQueueEvents : list (list ascii * (Z * QueueCtrl.queueCtrlLog)) }.
Definition no_tables : tables := Tables [] [] [].

(** [h_getEnt_], and [h_addEnt_] if there is none. *)
Fixpoint put_entry {A} (key : list ascii) (v : A) (t : list (list ascii * A)) : list (list ascii * A) :=
  match t with
  | [] => [(key, v)]
  | (k, u) :: t => if bool_decide (k = key) then (k, v) :: t else (k, u) :: put_entry key v t
  end.

Definition saveHostCtrlEvent (c : core) (r : HostCtrl.hostCtrlLog) (eventTime : Z) (tb : tables) : tables :=
  if negb (HostCtrl.opCode r =? HOST_CLOSE) then tb else
  match getHostData c (HostCtrl.host r) with
  | None => tb
  | Some hStatus =>
      if negb (has hStatus HOST_STAT_DISABLED) then tb else
      Tables (put_entry (HostCtrl.host r) (eventTime, r) (hostCtrlEvents tb)) (closedQueueEvents tb) (inactiveQueueEvents tb)
  end.

Definition saveQueueCtrlEvent (c : core) (r : QueueCtrl.queueCtrlLog) (eventTime : Z) (tb : tables) : tables :=
  if negb (QueueCtrl.opCode r =? QUEUE_CLOSED) && negb (QueueCtrl.opCode r =? QUEUE_INACTIVATE) then tb else
  match getQueueData c (QueueCtrl.queue r) with
  | None => tb
  | Some qStatus =>
      let tb := if (QueueCtrl.opCode r =? QUEUE_CLOSED) && negb (has qStatus QUEUE_STAT_OPEN)
                then Tables (hostCtrlEvents tb) (put_entry (QueueCtrl.queue r) (eventTime, r) (closedQueueEvents tb)) (inactiveQueueEvents tb)
                else tb in
      if (QueueCtrl.opCode r =? QUEUE_INACTIVATE) && negb (has qStatus QUEUE_STAT_ACTIVE)
      then Tables (hostCtrlEvents tb) (closedQueueEvents tb) (put_entry (QueueCtrl.queue r) (eventTime, r) (inactiveQueueEvents tb))
      else tb
  end.

(** ** The records that are kept *)

(** The job of a record, 0 for none. *)
Definition record_job (e : eventLog) : option Z :=
  match e with
  | jobNewE r => Some (LSB_JOBID (JobNew.jobId r) (JobNew.idx r))
  | jobModE r => '(err, tmpJobId, _) ← getJobIdIndexList L g (str (JobMod.jobIdStr r)) 0; Some (if err =? LSBE_NO_ERROR then tmpJobId else 0)
  | jobStartE r => Some (LSB_JOBID (JobStart.jobId r) (JobStart.idx r))
  | jobStatusE r => Some (LSB_JOBID (JobStatus.jobId r) (JobStatus.idx r))
  | jobSwitchE r => Some (LSB_JOBID (JobSwitch.jobId r) (JobSwitch.idx r))
  | jobMoveE r => Some (LSB_JOBID (JobMove.jobId r) (JobMove.idx r))
  | migE r => Some (LSB_JOBID (Mig.jobId r) (Mig.idx r))
  | jobAttrSetE r => Some (LSB_JOBID (JobAttrSet.jobId r) (JobAttrSet.idx r))
  | chkpntE r => Some (LSB_JOBID (Chkpnt.jobId r) (Chkpnt.idx r))
  | sigactE r => Some (LSB_JOBID (JobSigAct.jobId r) (JobSigAct.idx r))
  | signalE r => Some (LSB_JOBID (JobSignal.jobId r) (JobSignal.idx r))
  | jobRequeueE r => Some (LSB_JOBID (JobRequeue.jobId r) (JobRequeue.idx r))
  | jobCleanE r => Some (LSB_JOBID (JobClean.jobId r) (JobClean.idx r))
  | unfulfillE r => Some (LSB_JOBID (Unfulfill.jobId r) (Unfulfill.idx r))
  | jobExecuteE r => Some (LSB_JOBID (JobExecute.jobId r) (JobExecute.idx r))
  | jobStartAcceptE r => Some (LSB_JOBID (JobStartAccept.jobId r) (JobStartAccept.idx r))
  | jobMsgE r => Some (LSB_JOBID (JobMsg.jobId r) (JobMsg.idx r))
  | _ => Some 0
  end.

Definition preserved (r : eventRec) : bool := is_type [EVENT_LOG_SWITCH; EVENT_LOAD_INDEX] (type r).

Definition keep (c : core) (r : eventRec) : option bool :=
  jobId ← record_job (eventLog_ r);
  let jarray := checkJobInCore c (LSB_ARRAY_JOBID jobId) in
  let jp := checkJobInCore c jobId in
  Some (preserved r || isSome jarray &&
    (negb (canSwitch (eventTime r) jp) ||
     is_type [EVENT_JOB_NEW; EVENT_JOB_MODIFY; EVENT_JOB_MODIFY2; EVENT_JOB_SWITCH; EVENT_JOB_MOVE; EVENT_JOB_CLEAN] (type r))).

Definition save_ctrl (c : core) (r : eventRec) (tb : tables) : tables :=
  match eventLog_ r with
  | hostCtrlE h => saveHostCtrlEvent c h (eventTime r) tb
  | queueCtrlE q => saveQueueCtrlEvent c q (eventTime r) tb
  | _ => tb
  end.

(** ** The loop over the log *)

(** How it ends: with the file, because a record could not be written, or with the
    daemon's end for want of memory. *)
Inductive switch_end := AtEnd | WriteFailed | Died.

Fixpoint switch_loop (fuel : nat) (c : core) (efp : rfile) (lineNum : Z) (tmp : wfile) (tb : tables)
  : option (switch_end * rfile * wfile * tables) :=
  match fuel with
  | O => None
  | S fuel =>
      '(o, efp, lineNum) ← lsb_geteventrec efp lineNum;
      match o with
      | inl code =>
          if code =? LSBE_EOF then Some (AtEnd, efp, tmp, tb)
          else if code =? LSBE_NO_MEM then Some (Died, efp, tmp, tb)
          else switch_loop fuel c efp lineNum tmp tb
      | inr r =>
          let tb := save_ctrl c r tb in
          k ← keep c r;
          if k : bool then
            '(e, tmp) ← lsb_puteventrec r tmp;
            match e with
            | inl _ => Some (WriteFailed, efp, tmp, tb)
            | inr _ => switch_loop fuel c efp lineNum tmp tb
            end
          else switch_loop fuel c efp lineNum tmp tb
      end
  end.

(** ** Appending *)

Definition VERSION_TEXT : list ascii := int_text VOLCLAVA_VERSION2_2.
Definition new_head : list ascii := lit "#80" ++ replicate 76 " "%char ++ [newline].

(** The text behind which is written: a new file gets a first line. *)
Definition openEventFile (s : store) : list ascii := match default [] (s !! FEvents) with [] => new_head | w => w end.

(** An error is reported, and what has been written stays. *)
Definition putEventRec1 (r : eventRec) (w : list ascii) (s : store) : option store :=
  '(_, f) ← lsb_puteventrec r (WFile w None); Some (<[FEvents := written f]> s).

Definition log_event (r : eventRec) (s : store) : option store := putEventRec1 r (openEventFile s) s.

Fixpoint log_events (rs : list eventRec) (s : store) : option store :=
  match rs with
  | [] => Some s
  | r :: rs => s ← log_event r s; log_events rs s
  end.

(** [log_hostStatusAtSwitch] and [log_queueStatusAtSwitch]: the message is not
    copied. *)
Definition log_hostStatusAtSwitch (e : Z * HostCtrl.hostCtrlLog) : eventRec :=
  let '(time, r) := e in
  EventRec VERSION_TEXT EVENT_HOST_CTRL time (hostCtrlE (HostCtrl.HostCtrlLog HOST_CLOSE (HostCtrl.host r) (HostCtrl.userId r) (HostCtrl.userName r) [])).
Definition log_queueStatusAtSwitch (opCode : Z) (e : Z * QueueCtrl.queueCtrlLog) : eventRec :=
  let '(time, r) := e in
  EventRec VERSION_TEXT EVENT_QUEUE_CTRL time (queueCtrlE (QueueCtrl.QueueCtrlLog opCode (QueueCtrl.queue r) (QueueCtrl.userId r) (QueueCtrl.userName r) [])).

Definition writeHostCtrlEvent (tb : tables) : list eventRec := (fun e => log_hostStatusAtSwitch (snd e)) <$> visit (hostCtrlEvents tb).
Definition writeQueueCtrlEvent (tb : tables) : list eventRec :=
  ((fun e => log_queueStatusAtSwitch QUEUE_CLOSED (snd e)) <$> visit (closedQueueEvents tb)) ++
  ((fun e => log_queueStatusAtSwitch QUEUE_INACTIVATE (snd e)) <$> visit (inactiveQueueEvents tb)).

Definition log_logSwitch (now lastJobId : Z) : eventRec :=
  EventRec VERSION_TEXT EVENT_LOG_SWITCH now (logSwitchE (LogSwitch.LogSwitchLog lastJobId)).

(** ** The switch *)

Definition tmp_head : list ascii := "#"%char :: replicate 37 " "%char ++ [newline].

(** [rewind] and [fprintf]. *)
Definition overwrite (t w : list ascii) : list ascii := t ++ drop (length t) w.

(** 0 or -1, and the files; [now0] and [now] are the times when the archive and the
    last record are written.  The records behind the loop are appended to the log
    by [log_events], with room for them. *)
Definition switch_log (c : core) (now0 now lastJobId : Z) (d : disk) (s : store) : option (Z * store) :=
  '(ok, s) ← createEvent0File now0 d s;
  if negb ok then Some (-1, s) else
  if negb (creates1 d) then Some (-1, s) else
  match s !! FEvents with
  | None => Some (-1, <[FTmp := []]> s)
  | Some w =>
      let tmp := snd (fwrite tmp_head (WFile [] (room1 d))) in
      '(o, efp, tmp, tb) ← switch_loop (S (S (length w))) c (RFile w true) 0 tmp no_tables;
      match o with
      | Died => None
      | WriteFailed => Some (-1, delete FTmp s)
      | AtEnd =>
          _ ← fclose efp;
          let new := overwrite ("#"%char :: int_text (Z.of_nat (length (written tmp)))) (written tmp) in
          if negb (closes1 d) then Some (-1, <[FTmp := new]> s) else
          if negb (moves1 d) then Some (-1, <[FTmp := new]> s) else
          let s := <[FEvents := new]> (delete FTmp s) in
          s ← log_events (writeHostCtrlEvent tb ++ writeQueueCtrlEvent tb ++ [log_logSwitch now lastJobId]) s;
          '(totalEventFile, s) ← renameElogFiles d s;
          Some (if 0 <? totalEventFile then 0 else -1, s)
      end
  end.

(** ** A switch that fails *)

Lemma event0_others now0 d s ok s' f :
  createEvent0File now0 d s = Some (ok, s') -> f <> FArchive 0 -> s' !! f = s !! f.
Proof.
  unfold createEvent0File. intros H Hf. destruct (s !! FEvents) as [w|]; [|by injection H as <- <-].
  destruct (creates0 d); cbn [negb] in H; [|by injection H as <- <-].
  destruct (fwrite _ _) as [b e0]. destruct (_ <? 0); [injection H as <- <-; by rewrite lookup_insert_ne|].
  destruct (copy_loop _ _ _ _ _) as [[b' e1]|]; [|done]. injection H as <- <-. by rewrite lookup_insert_ne.
Qed.

Lemma event0_made now0 d s s' : createEvent0File now0 d s = Some (true, s') -> is_Some (s' !! FArchive 0).
Proof.
  unfold createEvent0File. intros H. destruct (s !! FEvents) as [w|]; [|done]. destruct (creates0 d); cbn [negb] in H; [|done].
  destruct (fwrite _ _) as [b e0]. destruct (_ <? 0); [done|]. destruct (copy_loop _ _ _ _ _) as [[b' e1]|]; [|done]. injection H as _ <-. by rewrite lookup_insert_eq.
Qed.

Lemma free_number_first fuel s i max : 0 <= i -> free_number fuel s i = Some max ->
  i < max /\ s !! FArchive max = None /\ forall j, i < j < max -> is_Some (s !! FArchive j).
Proof.
  revert i. induction fuel as [|k IH]; intros i Hi; cbn [free_number]; destruct (s !! FArchive (i + 1)) as [t|] eqn:E; intros H; try done;
    try (injection H as <-; split; [lia|]; split; [done|lia]). destruct (IH (i + 1)) as (H1 & H2 & H3); [lia|done|]. split; [lia|].
  split; [done|]. intros j Hj. destruct (decide (j = i + 1)) as [->|]; [by eexists|apply H3; lia].
Qed.

Lemma rename_lookup f f' s h t : s !! f = Some t -> f <> f' ->
  rename f f' s !! h = if decide (h = f') then Some t else if decide (h = f) then None else s !! h.
Proof.
  intros Hf Hne. unfold rename. rewrite Hf. destruct (decide (h = f')) as [->|]; [by rewrite lookup_insert_eq|].
  rewrite lookup_insert_ne by done. destruct (decide (h = f)) as [->|]; [by rewrite lookup_delete_eq|by rewrite lookup_delete_ne].
Qed.

(** The archives from [k] up to [i] have been given the next number; [k] is 0, or
    the archive [k - 1] could not be renamed. *)
Lemma shift_files_lookup d i s : (forall j, 0 <= j < Z.of_nat i -> is_Some (s !! FArchive j)) -> s !! FArchive (Z.of_nat i) = None ->
  exists k s', shift_files d i s = (bool_decide (k = O), s') /\ (k <= i)%nat /\ (k <> O -> renames d (Z.of_nat k - 1) = false) /\
    (forall j, Z.of_nat k <= j < Z.of_nat i -> renames d j = true) /\
    (forall n, n < Z.of_nat k -> s' !! FArchive n = s !! FArchive n) /\ s' !! FArchive (Z.of_nat k) = None /\
    (forall n, Z.of_nat k < n <= Z.of_nat i -> s' !! FArchive n = s !! FArchive (n - 1)) /\
    (forall n, Z.of_nat i < n -> s' !! FArchive n = s !! FArchive n) /\
    s' !! FEvents = s !! FEvents.
Proof.
  revert s. induction i as [|i IH]; intros s Hs Hfree; cbn [shift_files].
  { exists O, s. split_and!; (done || lia). }
  destruct (Hs (Z.of_nat i)) as [t Ht]; [lia|]. rewrite Ht. cbn [isSome andb]. destruct (renames d (Z.of_nat i)) eqn:Ed; cbn [negb].
  2: { exists (S i), s. split; [done|]. split; [lia|]. split; [intros _; rewrite <- Ed; f_equal; lia|]. split_and!; (done || lia). }
  set (s1 := rename _ _ s).
  assert (Hr : forall h, s1 !! h = if decide (h = FArchive (Z.of_nat i + 1)) then Some t else if decide (h = FArchive (Z.of_nat i)) then None else s !! h)
    by (intros h; apply rename_lookup; [done|intros [=]; lia]).
  destruct (IH s1) as (k & s' & -> & Hk & Hf & Hren & H1 & H2 & H3 & H4 & H5).
  { intros j Hj. rewrite Hr. rewrite !decide_False by (intros [=]; lia). apply Hs. lia. }
  { rewrite Hr. rewrite decide_False by (intros [=]; lia). by rewrite decide_True. }
  exists k, s'. split; [done|]. split; [lia|]. split; [done|]. split.
  { intros j Hj. destruct (decide (j = Z.of_nat i)) as [->|]; [done|apply Hren; lia]. }
  split; [|split; [done|split; [|split]]].
  - intros n Hn. rewrite H1, Hr by lia. by rewrite !decide_False by (intros [=]; lia).
  - intros n Hn. destruct (decide (n = Z.of_nat i + 1)) as [->|].
    + rewrite H4, Hr, decide_True by (done || lia). by rewrite <- Ht; f_equal; f_equal; lia.
    + rewrite H3, Hr by lia. by rewrite !decide_False by (intros [=]; lia).
  - intros n Hn. rewrite H4, Hr by lia. by rewrite !decide_False by (intros [=]; lia).
  - rewrite H5, Hr. done.
Qed.

(** Where the files are when archive [k] could not be given the next number, from
    the files [s1] before the renaming. *)
Definition stopped_at (k : Z) (s1 s' : store) : Prop :=
  (forall j, j <= k -> s' !! FArchive j = s1 !! FArchive j) /\ s' !! FArchive (k + 1) = None /\
  exists max, k < max /\ s1 !! FArchive max = None /\
    (forall j, k + 1 < j <= max -> s' !! FArchive j = s1 !! FArchive (j - 1)) /\ forall j, max < j -> s' !! FArchive j = s1 !! FArchive j.

Lemma rename_stops d s (max : Z) s' : is_Some (s !! FArchive 0) -> renameElogFiles d s = Some (max, s') ->
  0 < max \/ max = -1 /\ exists k, 0 <= k /\ renames d k = false /\ stopped_at k s s' /\ s' !! FEvents = s !! FEvents.
Proof.
  intros H0. unfold renameElogFiles. destruct (free_number _ _ _) as [m|] eqn:Em; [|done]. cbn [mbind option_bind].
  apply free_number_first in Em as (Hm & Hfree & Hall); [|lia].
  destruct (shift_files_lookup d (Z.to_nat m) s) as (k & s1 & -> & Hk & Hf & _ & H1 & H2 & H3 & H4 & H5).
  { intros j Hj. destruct (decide (j = 0)) as [->|]; [done|apply Hall; lia]. }
  { by rewrite Z2Nat.id by lia. }
  rewrite Z2Nat.id in * by lia. case_bool_decide as Ek; intros [= <- <-]; [by left|]. right. split; [done|].
  exists (Z.of_nat k - 1). split; [lia|]. split; [by apply Hf|]. split; [|done]. split; [intros j Hj; apply H1; lia|].
  split; [rewrite <- H2; f_equal; f_equal; lia|]. exists m. split; [lia|]. split; [done|]. split; [intros j Hj; apply H3; lia|done].
Qed.

(** Appending to the log changes no other file. *)
Lemma log_events_others rs s s' f : log_events rs s = Some s' -> f <> FEvents -> s' !! f = s !! f.
Proof.
  intros H Hf. revert s H. induction rs as [|r rs IH]; intros s H; cbn [log_events] in H; [by injection H as <-|].
  destruct (log_event r s) as [s1|] eqn:E; [|done]. cbn [mbind option_bind] in H. rewrite (IH _ H). unfold log_event, putEventRec1 in E.
  destruct (lsb_puteventrec _ _) as [[? ?]|]; [|done]. injection E as <-. by rewrite lookup_insert_ne.
Qed.

(** (C25) A switch that returns -1 has changed neither the log nor an archive but
    number 0, or it failed to rename an archive [k] after the log had been
    replaced: then archive 0 has been made from the log that was there, and this
    archive and all the others are there still, those above [k] under the next
    number. *)
Theorem failed_switch_keeps_log c now0 now lastJobId d s s' :
  switch_log c now0 now lastJobId d s = Some (-1, s') ->
  (forall f, f <> FArchive 0 -> f <> FTmp -> s' !! f = s !! f) \/
  (exists k s0, 0 <= k /\ renames d k = false /\ createEvent0File now0 d s = Some (true, s0) /\
    (forall j, j <> 0 -> s0 !! FArchive j = s !! FArchive j) /\ stopped_at k s0 s').
Proof.
  unfold switch_log. intros H. destruct (createEvent0File now0 d s) as [[ok s0]|] eqn:E0; [|done]. cbn [mbind option_bind] in H.
  pose proof (event0_others _ _ _ _ _ FEvents E0) as Hev.
  assert (Hkeep : forall x, x = s0 \/ (exists t, x = <[FTmp := t]> s0) \/ x = delete FTmp s0 -> forall f, f <> FArchive 0 -> f <> FTmp -> x !! f = s !! f).
  { intros x Hx f Hf Ht. rewrite <- (event0_others _ _ _ _ _ f E0 Hf). destruct Hx as [->|[[t ->]| ->]]; [done|by rewrite lookup_insert_ne|by rewrite lookup_delete_ne]. }
  destruct ok; cbn [negb] in H; [|left; injection H as <-; by apply Hkeep; left].
  destruct (creates1 d); cbn [negb] in H; [|left; injection H as <-; by apply Hkeep; left].
  destruct (s0 !! FEvents) as [w|] eqn:Ew; [|left; injection H as <-; apply Hkeep; right; left; by eexists].
  destruct (switch_loop _ _ _ _ _ _) as [[[[o efp] tmp] tb]|]; [|done]. cbn [mbind option_bind] in H.
  destruct o; [|left; injection H as <-; apply Hkeep; by right; right|done].
  destruct (fclose efp); [|done]. cbn [mbind option_bind] in H.
  destruct (closes1 d); cbn [negb] in H; [|left; injection H as <-; apply Hkeep; right; left; by eexists].
  destruct (moves1 d); cbn [negb] in H; [|left; injection H as <-; apply Hkeep; right; left; by eexists].
  destruct (log_events _ _) as [s1|] eqn:El; [|done]. cbn [mbind option_bind] in H.
  destruct (renameElogFiles d s1) as [[max s2]|] eqn:Er; [|done]. cbn [mbind option_bind] in H.
  assert (H1 : forall j, s1 !! FArchive j = s0 !! FArchive j).
  { intros j. rewrite (log_events_others _ _ _ _ El) by done. by rewrite lookup_insert_ne, lookup_delete_ne. }
  apply rename_stops in Er as [Hm|(-> & k & Hk & Hr & Hs & _)]; [by rewrite (proj2 (Z.ltb_lt _ _)) in H| |by rewrite H1; eapply event0_made].
  cbn in H. injection H as <-. right. exists k, s0. split; [done|]. split; [done|]. split; [done|].
  split; [intros j Hj; apply (event0_others _ _ _ _ _ _ E0); congruence|].
  destruct Hs as (Ha & Hb & m & Hm & Hn & Hc & Hd). split; [intros j Hj; by rewrite <- H1, Ha|]. split; [done|]. exists m.
  split; [done|]. split; [by rewrite <- H1|]. split; [intros j Hj; by rewrite <- H1, Hc|intros j Hj; by rewrite <- H1, Hd].
Qed.

(** ** The archives *)

Lemma copy_loop_all fuel w nread out :
  (length w < fuel)%nat -> 0 <= nread -> nread + Z.of_nat (length w) < 2 ^ 31 ->
  copy_loop fuel w (nread + Z.of_nat (length w)) nread (WFile out None) = Some (true, WFile (out ++ w) None).
Proof.
  revert w nread out. induction fuel as [|k IH]; intros w nread out Hf Hn Hb; [lia|]. cbn [copy_loop].
  destruct w as [|x w']; [rewrite (proj2 (Z.ltb_ge _ _)) by (cbn; lia); by rewrite app_nil_r|]. set (w := x :: w') in *.
  assert (Hw : (0 < length w)%nat) by (cbn; lia). rewrite (proj2 (Z.ltb_lt _ _)) by lia.
  assert (Hm : (0 < Z.to_nat MSGSIZE)%nat) by (unfold MSGSIZE; lia). generalize dependent (Z.to_nat MSGSIZE). intros m Hm.
  assert (Hl : (length (take m w) <= length w)%nat) by (rewrite length_take; lia).
  rewrite (proj2 (Nat.ltb_lt _ _)) by (rewrite length_take; lia). rewrite i32_small by lia. rewrite (proj2 (Z.ltb_ge _ _)) by lia.
  rewrite Nat2Z.id, take_ge by done. cbn [fwrite room].
  replace (nread + Z.of_nat (length w)) with (nread + Z.of_nat (length (take m w)) + Z.of_nat (length (drop m w)))
    by (rewrite length_take, length_drop; lia).
  rewrite i32_small by lia. rewrite IH by (rewrite ?length_take, ?length_drop; lia). cbn [written]. by rewrite <- app_assoc, take_drop.
Qed.

(** When more than 2 GiB have been logged since the last switch, their number is
    negative as an [int]: nothing is copied, and the switch goes on. *)
Lemma event0_large now0 s w : s !! FEvents = Some w -> 0 <= head_pos w -> 2 ^ 31 <= Z.of_nat (length w) - head_pos w < 2 ^ 32 ->
  createEvent0File now0 no_faults s = Some (true, <[FArchive 0 := archive_head now0]> s).
Proof.
  intros Hs Hp Hl. unfold createEvent0File. rewrite Hs. cbn [no_faults creates0 room0 flushed0 negb fwrite room written app].
  rewrite (proj2 (Z.ltb_ge _ _)) by lia. rewrite i32_sub.
  replace (i32 (Z.of_nat (length w) - head_pos w)) with (Z.of_nat (length w) - head_pos w - 2 ^ 32).
  2: { unfold i32. replace (Z.of_nat (length w) - head_pos w + 2 ^ 31) with (Z.of_nat (length w) - head_pos w - 2 ^ 31 + 1 * 2 ^ 32) by lia.
       rewrite Z.mod_add, Z.mod_small by lia. lia. }
  cbn [copy_loop]. rewrite (proj2 (Z.ltb_ge 0 _)) by lia. done.
Qed.

(** ** The log and the archives as lists of records *)

(** A first line with a position. *)
Definition head_line (h : list ascii) (pos : Z) : Prop := exists k, h = "#"%char :: int_text pos ++ replicate k " "%char ++ [newline].

(** The archives from the newest, the records that were kept at the last switch,
    and those that are in no archive yet. *)
Record holds (s : store) (archives : list (list eventRec)) (kept new : list eventRec) : Prop := Holds {
  h_log : exists h, s !! FEvents = Some (h ++ log_text kept ++ log_text new) /\ head_line h (Z.of_nat (length h + length (log_text kept)));
  h_archives : forall i rs, archives !! i = Some rs -> exists t, s !! FArchive (Z.of_nat i + 1) = Some (archive_head t ++ log_text rs);
  h_free : forall n, Z.of_nat (length archives) < n -> s !! FArchive n = None;
  h_wf : forallb loggable (concat archives ++ kept ++ new) = true }.

(** All that has been logged, in order. *)
Definition history (archives : list (list eventRec)) (new : list eventRec) : list eventRec := concat (rev archives) ++ new.

Lemma head_plain pos : plain_text ("#"%char :: int_text pos).
Proof. constructor; [done|]. eapply Forall_impl; [apply int_text_chars|]. apply num_char_plain. Qed.

Lemma head_full pos : full ("#"%char :: int_text pos).
Proof.
  destruct (shows_full (FInt pos) eq_refl) as (u & c & E & Hc). cbn [body] in E. exists ("#"%char :: u), c. by rewrite E.
Qed.

Lemma head_line_read h pos r : head_line h pos -> getNextLine_ false (h ++ r) = Some (Some ("#"%char :: int_text pos), r).
Proof.
  intros [k ->]. rewrite app_comm_cons, <- !app_assoc. apply getNextLine_line; [apply head_plain|apply head_full|by apply Forall_replicate].
Qed.

Lemma head_line_pos h pos r : head_line h pos -> head_pos (h ++ r) = pos.
Proof.
  intros [k ->]. cbn [app head_pos]. rewrite <- app_assoc, <- (app_nil_l (int_text pos ++ _)), scan_int_text; [done|constructor|by destruct k].
Qed.

(** The first record behind the first line. *)
Lemma get_behind_head h pos r rest n : head_line h pos -> loggable r = true ->
  lsb_geteventrec (RFile (h ++ event_text r ++ rest) true) n = Some (inr r, RFile rest true, inc n).
Proof.
  unfold loggable. intros Hh Hr. tests. unfold lsb_geteventrec. cbn [opened negb left_]. rewrite (head_line_read _ _ _ Hh).
  cbn [mbind option_bind skip_hash]. change (Ascii.eqb "#" "#") with true. cbv iota. cbn [left_ opened].
  destruct (event_line_ok r Hr) as (Hp & Hf & Hh'). destruct (member_end_ended r Hr0) as (b & Eb & Hb).
  unfold event_text. rewrite Eb, <- !app_assoc. change ([newline] ++ rest) with (newline :: rest). erewrite getNextLine_line by done.
  cbn [mbind option_bind].
  rewrite skip_hash_none by done. cbn [mbind option_bind]. destruct (read_line_ok r Hr) as [l ->]. done.
Qed.

(** ** The loop *)

Definition kept_of (c : core) (rs : list eventRec) : list eventRec :=
  List.filter (fun r => match keep c r with Some b => b | None => false end) rs.
Definition tables_of (c : core) (rs : list eventRec) (tb : tables) : tables := fold_left (fun tb r => save_ctrl c r tb) rs tb.

Lemma switch_loop_log fuel c rs n t tb : forallb loggable rs = true -> Forall (fun r => is_Some (keep c r)) rs ->
  switch_loop (length rs + S fuel) c (RFile (log_text rs) true) n (WFile t None) tb =
    Some (AtEnd, RFile [] true, WFile (t ++ log_text (kept_of c rs)) None, tables_of c rs tb).
Proof.
  intros Hl Hk. revert n t tb Hl. induction Hk as [|r rs [b Hb] _ IH]; intros n t tb Hl; [cbn; by rewrite app_nil_r|].
  cbn [forallb] in Hl. apply andb_true_iff in Hl as [Hr Hl]. cbn [length Nat.add switch_loop log_text mbind list_bind]. fold (log_text rs).
  pose proof Hr as Hr'. unfold loggable in Hr'. tests. rewrite get_text by done. cbn [mbind option_bind].
  unfold tables_of. cbn [fold_left]. fold (tables_of c rs (save_ctrl c r tb)). rewrite Hb. cbn [mbind option_bind kept_of List.filter]. rewrite Hb.
  destruct b; [|by apply IH]. rewrite (put_text r Hr'). cbn [fprint wr room written mbind option_bind]. rewrite IH by done.
  cbn [log_text mbind list_bind]. by rewrite <- app_assoc.
Qed.

Lemma switch_loop_file c h pos r rs fuel t tb : head_line h pos -> forallb loggable (r :: rs) = true ->
  Forall (fun r => is_Some (keep c r)) (r :: rs) -> (length rs < fuel)%nat ->
  switch_loop (S fuel) c (RFile (h ++ log_text (r :: rs)) true) 0 (WFile t None) tb =
    Some (AtEnd, RFile [] true, WFile (t ++ log_text (kept_of c (r :: rs))) None, tables_of c (r :: rs) tb).
Proof.
  intros Hh Hl Hk Hf. rewrite <- (switch_loop_log 0 c (r :: rs) 0) by done. cbn [forallb] in Hl. apply andb_true_iff in Hl as [Hr Hl].
  replace fuel with (length rs + S (fuel - length rs - 1))%nat by lia. cbn [length Nat.add log_text mbind list_bind]. fold (log_text rs).
  apply Forall_cons in Hk as [[b Hb] Hk]. pose proof Hr as Hr'. unfold loggable in Hr'. tests.
  cbn [switch_loop]. rewrite (get_behind_head h pos r (log_text rs) 0 Hh Hr), (get_text r (log_text rs) 0 Hr' Hr'0). cbn [mbind option_bind].
  rewrite Hb. cbn [mbind option_bind]. destruct b; [rewrite (put_text r Hr'); cbn [fprint wr room written mbind option_bind]|];
    by rewrite !switch_loop_log.
Qed.

(** ** Records that are written again *)

Definition host_entry_ok (e : list ascii * (Z * HostCtrl.hostCtrlLog)) : Prop := loggable (log_hostStatusAtSwitch (snd e)) = true.
Definition queue_entry_ok (e : list ascii * (Z * QueueCtrl.queueCtrlLog)) : Prop :=
  loggable (log_queueStatusAtSwitch QUEUE_CLOSED (snd e)) = true /\ loggable (log_queueStatusAtSwitch QUEUE_INACTIVATE (snd e)) = true.
Record tables_ok (tb : tables) : Prop := TablesOk {
  t_hosts : Forall host_entry_ok (hostCtrlEvents tb);
  t_closed : Forall queue_entry_ok (closedQueueEvents tb);
  t_inactive : Forall queue_entry_ok (inactiveQueueEvents tb) }.

Lemma put_entry_ok {A} (P : list ascii * A -> Prop) key v t : (forall k, P (k, v)) -> Forall P t -> Forall P (put_entry key v t).
Proof.
  intros Hv. induction 1 as [|[k u] t Hu Ht IH]; cbn [put_entry]; [by repeat constructor|]. case_bool_decide; by constructor.
Qed.

Lemma host_record_ok r h : loggable r = true -> eventLog_ r = hostCtrlE h -> loggable (log_hostStatusAtSwitch (eventTime r, h)) = true.
Proof.
  unfold loggable, wf_event. intros H E. rewrite E in H. cbn [wf_member] in H. unfold HostCtrl.wf, HostCtrl.fields in H. cbn [forallb] in H. tests.
  unfold wf_event. cbn [log_hostStatusAtSwitch version eventTime eventLog_ type ended].
  change (okversion VERSION_TEXT) with true. cbn [wf_member is_type existsb]. change (EVENT_HOST_CTRL =? EVENT_HOST_CTRL) with true.
  unfold HostCtrl.wf, HostCtrl.fields. cbn [HostCtrl.opCode HostCtrl.host HostCtrl.userId HostCtrl.userName HostCtrl.msg forallb].
  repeat match goal with H : _ = true |- _ => rewrite H end. done.
Qed.

Lemma queue_record_ok r q opCode : loggable r = true -> eventLog_ r = queueCtrlE q -> int32 opCode = true ->
  loggable (log_queueStatusAtSwitch opCode (eventTime r, q)) = true.
Proof.
  unfold loggable, wf_event. intros H E Ho. rewrite E in H. cbn [wf_member] in H. unfold QueueCtrl.wf, QueueCtrl.fields in H. cbn [forallb] in H. tests.
  unfold wf_event. cbn [log_queueStatusAtSwitch version eventTime eventLog_ type ended].
  change (okversion VERSION_TEXT) with true. cbn [wf_member is_type existsb]. change (EVENT_QUEUE_CTRL =? EVENT_QUEUE_CTRL) with true.
  unfold QueueCtrl.wf, QueueCtrl.fields. cbn [QueueCtrl.opCode QueueCtrl.queue QueueCtrl.userId QueueCtrl.userName QueueCtrl.msg forallb].
  unfold good at 2. rewrite Ho. repeat match goal with H : _ = true |- _ => rewrite H end. done.
Qed.

Lemma save_ctrl_ok c r tb : loggable r = true -> tables_ok tb -> tables_ok (save_ctrl c r tb).
Proof.
  intros Hr [Hh Hc Hi]. unfold save_ctrl. destruct (eventLog_ r) eqn:E; try done.
  - assert (Hq : forall k, queue_entry_ok (k, (eventTime r, r0))) by (intros k; split; by eapply queue_record_ok).
    unfold saveQueueCtrlEvent. destruct (_ && _); [done|]. destruct (getQueueData _ _); [|done]. cbv zeta.
    destruct (_ && _), (_ && _); constructor; cbn; try done; by apply put_entry_ok.
  - unfold saveHostCtrlEvent. destruct (negb _); [done|]. destruct (getHostData _ _); [|done]. destruct (negb _); [done|].
    constructor; cbn; try done. apply put_entry_ok; [|done]. intros k. by apply host_record_ok.
Qed.

Lemma tables_of_ok c rs tb : forallb loggable rs = true -> tables_ok tb -> tables_ok (tables_of c rs tb).
Proof.
  revert tb. induction rs as [|r rs IH]; intros tb Hl Ht; [done|]. cbn [forallb] in Hl. apply andb_true_iff in Hl as [Hr Hl].
  apply IH; [done|]. by apply save_ctrl_ok.
Qed.

Hypothesis visit_perm : forall A (t : list (list ascii * A)), Permutation (visit t) t.

Definition switch_records (tb : tables) (now lastJobId : Z) : list eventRec :=
  writeHostCtrlEvent tb ++ writeQueueCtrlEvent tb ++ [log_logSwitch now lastJobId].

Lemma forallb_map_visit {A} (f : Z * A -> eventRec) (t : list (list ascii * (Z * A))) :
  Forall (fun e => loggable (f (snd e)) = true) t -> forallb loggable ((fun e => f (snd e)) <$> visit t) = true.
Proof.
  intros H. rewrite <- (visit_perm _ t) in H. induction H as [|e t' He _ IH]; [done|]. cbn. by rewrite He, IH.
Qed.

Lemma switch_records_ok tb now lastJobId : tables_ok tb -> int32 now = true -> int32 lastJobId = true ->
  forallb loggable (switch_records tb now lastJobId) = true.
Proof.
  intros [Hh Hc Hi] Hn Hj. unfold switch_records, writeHostCtrlEvent, writeQueueCtrlEvent. rewrite !forallb_app, !forallb_map_visit.
  - cbn [forallb andb]. unfold loggable, wf_event. cbn [log_logSwitch version eventTime eventLog_ type ended].
    change (okversion VERSION_TEXT) with true. unfold good. cbn. unfold LogSwitch.wf. cbn. unfold good. by rewrite Hn, Hj.
  - eapply Forall_impl; [exact Hi|]. by intros e [_ He].
  - eapply Forall_impl; [exact Hc|]. by intros e [He _].
  - exact Hh.
Qed.

(** ** Steps *)

Lemma show_loop_digits fuel k n w : 0 <= n < 10 ^ Z.of_nat k -> (0 < k)%nat -> (length (show_loop fuel n w) <= k + length w)%nat.
Proof.
  revert k n w. induction fuel as [|fuel IH]; intros k n w Hn Hk; cbn [show_loop]; [lia|].
  destruct (Z.ltb_spec n 10); [cbn; lia|]. destruct k as [|k]; [lia|]. rewrite Nat2Z.inj_succ, Z.pow_succ_r in Hn by lia.
  destruct k as [|k]; [cbn in Hn; lia|]. transitivity (S k + length (digit_char (n mod 10) :: w))%nat; [|cbn; lia].
  apply IH; [|lia]. split; [apply Z.div_pos; lia|apply Z.div_lt_upper_bound; lia].
Qed.

Lemma int_text_length k n : 0 <= n < 10 ^ Z.of_nat k -> (0 < k)%nat -> (length (int_text n) <= k)%nat.
Proof.
  intros Hn Hk. unfold int_text. rewrite (proj2 (Z.ltb_ge _ _)) by lia. unfold dec_text.
  pose proof (show_loop_digits (S (Z.to_nat (Z.log2 n))) k n [] Hn Hk). cbn [length] in *. lia.
Qed.

Lemma overwrite_head pos x : (length (int_text pos) <= 37)%nat ->
  exists h, overwrite ("#"%char :: int_text pos) (tmp_head ++ x) = h ++ x /\ length h = 39%nat /\ head_line h pos.
Proof.
  intros Hl. exists ("#"%char :: int_text pos ++ replicate (37 - length (int_text pos)) " "%char ++ [newline]).
  split; [|split; [|by eexists]].
  - unfold overwrite, tmp_head. cbn [length app drop]. f_equal. rewrite <- !app_assoc. f_equal.
    rewrite drop_app_le by (rewrite length_replicate; lia). by rewrite drop_replicate.
  - cbn [length]. rewrite !length_app, length_replicate. cbn. lia.
Qed.

Lemma log_events_app rs (s : store) w : s !! FEvents = Some w -> w <> [] -> forallb loggable rs = true ->
  log_events rs s = Some (<[FEvents := w ++ log_text rs]> s).
Proof.
  revert s w. induction rs as [|r rs IH]; intros s w Hs Hw Hl.
  - cbn. by rewrite app_nil_r, insert_id.
  - cbn [forallb] in Hl. apply andb_true_iff in Hl as [Hr Hl]. cbn [log_events]. unfold log_event, putEventRec1, openEventFile. rewrite Hs. cbn [default id].
    destruct w as [|x w]; [done|]. unfold loggable in Hr. tests. rewrite (put_text r Hr). cbn [fprint wr room written mbind option_bind].
    rewrite (IH _ ((x :: w) ++ event_text r)); [|by rewrite lookup_insert_eq|done|done].
    rewrite insert_insert_eq, <- app_assoc. done.
Qed.

Lemma archives_size (s : store) n : (forall j, 1 <= j <= Z.of_nat n -> is_Some (s !! FArchive j)) -> (n <= size s)%nat.
Proof.
  intros H. rewrite <- (size_dom s). pose (l := (fun i => FArchive (Z.of_nat i)) <$> seq 1 n).
  replace n with (length l) by (unfold l; by rewrite length_fmap, length_seq).
  rewrite <- (size_list_to_set (C := gset fname) l).
  - apply subseteq_size. intros f Hf. apply elem_of_list_to_set in Hf. unfold l in Hf. apply list_elem_of_fmap in Hf as (i & -> & Hi).
    apply elem_of_seq in Hi. apply elem_of_dom, H. lia.
  - apply NoDup_fmap; [|apply NoDup_seq]. intros i j [=]. lia.
Qed.

Lemma free_number_found fuel (s : store) i n : 0 <= i -> i <= n -> n - i <= Z.of_nat fuel ->
  (forall j, i < j <= n -> is_Some (s !! FArchive j)) -> s !! FArchive (n + 1) = None -> free_number fuel s i = Some (n + 1).
Proof.
  revert i. induction fuel as [|k IH]; intros i Hi Hn Hf Hs Hfree.
  - replace i with n by lia. cbn [free_number]. by rewrite Hfree.
  - cbn [free_number]. destruct (decide (i = n)) as [->|]; [by rewrite Hfree|].
    destruct (Hs (i + 1)) as [t ->]; [lia|]. apply IH; [lia..| |done]. intros j Hj. apply Hs. lia.
Qed.

(** With archives 0 to [n] every one gets the next number, or the renaming stops. *)
Lemma rename_all d (s : store) n : (forall j, 0 <= j <= Z.of_nat n -> is_Some (s !! FArchive j)) -> (forall j, Z.of_nat n < j -> s !! FArchive j = None) ->
  exists max s', renameElogFiles d s = Some (max, s') /\ s' !! FEvents = s !! FEvents /\
    ((forall j, 0 <= j <= Z.of_nat n -> renames d j = true) -> max = Z.of_nat n + 1 /\
      (forall j, 1 <= j <= Z.of_nat n + 1 -> s' !! FArchive j = s !! FArchive (j - 1)) /\
      forall j, Z.of_nat n + 1 < j -> s' !! FArchive j = None) /\
    (forall k, 0 <= k <= Z.of_nat n -> renames d k = false -> (forall j, k < j <= Z.of_nat n -> renames d j = true) ->
      max = -1 /\ stopped_at k s s').
Proof.
  intros Hs Hfree. unfold renameElogFiles. rewrite (free_number_found _ s 0 (Z.of_nat n)); [|lia|lia| |intros j Hj; apply Hs; lia|apply Hfree; lia].
  2: { enough (n <= size s)%nat by lia. apply archives_size. intros j Hj. apply Hs. lia. }
  cbn [mbind option_bind]. replace (Z.to_nat (Z.of_nat n + 1)) with (S n) by lia.
  destruct (shift_files_lookup d (S n) s) as (k & s' & -> & Hk & Hf & Hren & H1 & H2 & H3 & H4 & H5).
  { intros j Hj. apply Hs. lia. }
  { apply Hfree. lia. }
  eexists _, s'. split; [done|]. split; [done|]. split.
  - intros Hok. destruct (decide (k = O)) as [->|Hne]; [|rewrite Hok in Hf by lia; by specialize (Hf Hne)].
    split; [done|]. split; [intros j Hj; apply H3; lia|]. intros j Hj. rewrite H4 by lia. apply Hfree. lia.
  - intros k0 Hk0 Hr Hlater. assert (k = S (Z.to_nat k0)) as ->.
    { assert (~ Z.of_nat k <= k0) by (intros Hle; rewrite Hren in Hr by lia; done).
      assert (~ k0 < Z.of_nat k - 1) by (intros Hlt; rewrite Hlater in Hf by lia; by specialize (Hf ltac:(lia))). lia. }
    split; [done|]. split; [intros j Hj; apply H1; lia|]. split; [rewrite <- H2; f_equal; f_equal; lia|].
    exists (Z.of_nat n + 1). split; [lia|]. split; [apply Hfree; lia|]. split; [intros j Hj; apply H3; lia|intros j Hj; apply H4; lia].
Qed.

Lemma holds_event0 now0 d s archives kept new : holds s archives kept new ->
  Z.of_nat (length (log_text new)) < 2 ^ 31 ->
  flushed0 d = None -> room0 d = None -> creates0 d = true ->
  createEvent0File now0 d s = Some (true, <[FArchive 0 := archive_head now0 ++ log_text new]> s).
Proof.
  intros [(h & Hs & Hh) _ _ _] Hsz Hd1 Hd2 Hd3. unfold createEvent0File. rewrite Hs, (head_line_pos _ _ _ Hh), Hd1, Hd2, Hd3. cbn [negb fwrite room written app].
  rewrite (proj2 (Z.ltb_ge _ _)) by lia. rewrite Nat2Z.id, app_assoc, drop_app_length' by (by rewrite length_app).
  rewrite i32_sub. replace (Z.of_nat (length ((h ++ log_text kept) ++ log_text new)) - _) with (0 + Z.of_nat (length (log_text new)))
    by (rewrite !length_app; lia). rewrite i32_small by lia. rewrite copy_loop_all by lia. done.
Qed.

Lemma filter_text (f : eventRec -> bool) rs : (length (log_text (List.filter f rs)) <= length (log_text rs))%nat.
Proof.
  induction rs as [|r rs IH]; [done|]. cbn [List.filter]. destruct (f r); rewrite ?log_text_cons, !length_app; lia.
Qed.

Lemma filter_loggable f rs : forallb loggable rs = true -> forallb loggable (List.filter f rs) = true.
Proof.
  induction rs as [|r rs IH]; [done|]. cbn [forallb List.filter]. intros H. tests. destruct (f r); [cbn [forallb]; rewrite H|]; by apply IH.
Qed.

(** What the log holds after the loop and the records that are appended. *)
Lemma new_log c s h pos rs now lastJobId : head_line h pos -> rs <> [] -> forallb loggable rs = true ->
  Forall (fun r => is_Some (keep c r)) rs -> Z.of_nat (length (log_text rs)) < 2 ^ 62 -> int32 now = true -> int32 lastJobId = true ->
  let extra := switch_records (tables_of c rs no_tables) now lastJobId in
  exists h' tmp, switch_loop (S (S (length (h ++ log_text rs)))) c (RFile (h ++ log_text rs) true) 0 (WFile tmp_head None) no_tables =
      Some (AtEnd, RFile [] true, WFile tmp None, tables_of c rs no_tables) /\
    head_line h' (Z.of_nat (length h' + length (log_text (kept_of c rs)))) /\
    log_events extra (<[FEvents := overwrite ("#"%char :: int_text (Z.of_nat (length tmp))) tmp]> s) =
      Some (<[FEvents := h' ++ log_text (kept_of c rs) ++ log_text extra]> s) /\
    forallb loggable extra = true.
Proof.
  intros Hh Hne Hl Hk Hsz Hn Hj extra. assert (Hx : forallb loggable extra = true).
  { apply switch_records_ok; [|done|done]. apply tables_of_ok; [done|]. by constructor. }
  destruct (overwrite_head (Z.of_nat (length (tmp_head ++ log_text (kept_of c rs)))) (log_text (kept_of c rs))) as (h' & Eo & El & Hh').
  { transitivity 19%nat; [|lia]. apply int_text_length; [|lia]. pose proof (filter_text (fun r => match keep c r with Some b => b | None => false end) rs).
    rewrite length_app. cbn [tmp_head length app] in *. fold (kept_of c rs) in H. rewrite length_app. cbn [length]. rewrite length_replicate. lia. }
  exists h', (tmp_head ++ log_text (kept_of c rs)). split; [|split; [|split; [|done]]].
  - destruct rs as [|r rs]; [done|]. apply (switch_loop_file c h pos); [done..|]. rewrite length_app. pose proof (log_text_length (r :: rs)).
    cbn [length] in *. lia.
  - rewrite <- length_app in *. rewrite length_app in *. rewrite El. exact Hh'.
  - rewrite Eo, (log_events_app extra _ (h' ++ log_text (kept_of c rs))); [|by rewrite lookup_insert_eq| |done].
    + by rewrite insert_insert_eq, <- app_assoc.
    + by destruct h'.
Qed.

(** ** Nothing that was logged is lost *)

(** Nothing fails but the renaming of archives. *)
Definition works (d : disk) : Prop :=
  room0 d = None /\ room1 d = None /\ flushed0 d = None /\ creates0 d = true /\ creates1 d = true /\ closes1 d = true /\ moves1 d = true.

(** The files before the archives are renamed, from the records that were there. *)
Record replaced (s : store) (now0 : Z) (archives : list (list eventRec)) (kept new extra : list eventRec) : Prop := Replaced {
  r_log : exists h, s !! FEvents = Some (h ++ log_text kept ++ log_text extra) /\ head_line h (Z.of_nat (length h + length (log_text kept)));
  r_new : s !! FArchive 0 = Some (archive_head now0 ++ log_text new);
  r_archives : forall i rs, archives !! i = Some rs -> exists t, s !! FArchive (Z.of_nat i + 1) = Some (archive_head t ++ log_text rs);
  r_free : forall n, Z.of_nat (length archives) < n -> s !! FArchive n = None }.

Lemma switch_replaces c now0 now lastJobId d s archives kept new :
  holds s archives kept new -> kept ++ new <> [] -> Forall (fun r => is_Some (keep c r)) (kept ++ new) ->
  Z.of_nat (length (log_text new)) < 2 ^ 31 -> Z.of_nat (length (log_text (kept ++ new))) < 2 ^ 62 -> int32 now = true -> int32 lastJobId = true -> works d ->
  let extra := switch_records (tables_of c (kept ++ new) no_tables) now lastJobId in
  forallb loggable extra = true /\
  exists s2, replaced s2 now0 archives (kept_of c (kept ++ new)) new extra /\
    switch_log c now0 now lastJobId d s = '(totalEventFile, s') ← renameElogFiles d s2; Some (if 0 <? totalEventFile then 0 else -1, s').
Proof.
  intros Hh Hne Hk Hnew Hsz Hn Hj (D1 & D2 & D3 & D4 & D5 & D6 & D7) extra.
  pose proof Hh as [(h & Hs & Hp) Ha Hfree Hl]. rewrite forallb_app in Hl. apply andb_true_iff in Hl as [Hl1 Hl2].
  set (s0 := <[FArchive 0 := archive_head now0 ++ log_text new]> s).
  destruct (new_log c (delete FTmp s0) h _ (kept ++ new) now lastJobId Hp Hne Hl2 Hk Hsz Hn Hj) as (h' & tmp & El & Hh' & Ee & Hx).
  fold extra in Ee, Hx. split; [done|]. set (s1 := <[FEvents := _]> (delete FTmp s0)) in Ee.
  set (s2 := <[FEvents := h' ++ log_text (kept_of c (kept ++ new)) ++ log_text extra]> (delete FTmp s0)) in Ee.
  assert (H2 : forall j, s2 !! FArchive j = if decide (j = 0) then Some (archive_head now0 ++ log_text new) else s !! FArchive j).
  { intros j. unfold s2, s0. rewrite lookup_insert_ne, lookup_delete_ne by done. destruct (decide (j = 0)) as [->|];
      [by rewrite lookup_insert_eq|rewrite lookup_insert_ne; [done|by intros [=]]]. }
  exists s2. split.
  - constructor.
    + exists h'. split; [|done]. unfold s2. by rewrite lookup_insert_eq.
    + by rewrite H2, decide_True.
    + intros i rs Hi. rewrite H2, decide_False by lia. by apply Ha.
    + intros j Hj'. rewrite H2, decide_False by lia. by apply Hfree.
  - unfold switch_log. rewrite (holds_event0 _ d _ _ _ _ Hh) by done. cbn [mbind option_bind negb]. rewrite D5. cbn [negb]. fold s0.
    replace (s0 !! FEvents) with (Some (h ++ log_text (kept ++ new))) by (unfold s0; rewrite lookup_insert_ne, log_text_app by done; done).
    rewrite D2. cbn [fwrite room snd app written]. rewrite El. cbn [mbind option_bind fclose opened written]. rewrite D6, D7. cbn [negb].
    change (writeHostCtrlEvent _ ++ _ ++ _) with extra. fold s1. by rewrite Ee.
Qed.

Lemma replaced_made s now0 archives kept new extra j : replaced s now0 archives kept new extra ->
  0 <= j <= Z.of_nat (length archives) -> is_Some (s !! FArchive j).
Proof.
  intros [_ H0 Ha _] Hj. destruct (decide (j = 0)) as [->|]; [by rewrite H0|]. destruct (archives !! Z.to_nat (j - 1)) as [rs|] eqn:E.
  - destruct (Ha _ _ E) as [t Ht]. replace (Z.of_nat (Z.to_nat (j - 1)) + 1) with j in Ht by lia. by eexists.
  - apply lookup_ge_None in E. lia.
Qed.

Lemma switch_holds c now0 now lastJobId d s archives kept new :
  holds s archives kept new -> kept ++ new <> [] -> Forall (fun r => is_Some (keep c r)) (kept ++ new) ->
  Z.of_nat (length (log_text new)) < 2 ^ 31 -> Z.of_nat (length (log_text (kept ++ new))) < 2 ^ 62 -> int32 now = true -> int32 lastJobId = true ->
  works d -> (forall j, 0 <= j <= Z.of_nat (length archives) -> renames d j = true) ->
  let extra := switch_records (tables_of c (kept ++ new) no_tables) now lastJobId in
  exists s', switch_log c now0 now lastJobId d s = Some (0, s') /\
    holds s' (new :: archives) (kept_of c (kept ++ new)) extra /\ history (new :: archives) extra = history archives new ++ extra.
Proof.
  intros Hh Hne Hk Hnew Hsz Hn Hj Hd Hren extra.
  destruct (switch_replaces c now0 now lastJobId d s archives kept new Hh Hne Hk Hnew Hsz Hn Hj Hd) as (Hx & s2 & H2 & ->). fold extra in Hx, H2.
  destruct (rename_all d s2 (length archives)) as (max & s' & -> & Hev & Hok & _).
  { intros j Hj'. by eapply replaced_made. }
  { intros j Hj'. by apply (r_free _ _ _ _ _ _ H2). }
  destruct (Hok Hren) as (-> & Hsh & Hfr). cbn [mbind option_bind]. rewrite (proj2 (Z.ltb_lt _ _)) by lia.
  exists s'. split; [done|]. destruct H2 as [(h' & He & Hp) H0 Ha Hfree]. destruct Hh as [_ _ _ Hl]. rewrite forallb_app in Hl. apply andb_true_iff in Hl as [Hl1 Hl2].
  split.
  - constructor.
    + exists h'. by rewrite Hev.
    + intros [|i] rs Hi; cbn in Hi.
      * injection Hi as <-. exists now0. rewrite Hsh by lia. done.
      * destruct (Ha i rs Hi) as [t Ht]. exists t. pose proof (lookup_lt_Some _ _ _ Hi). rewrite Hsh by lia.
        rewrite <- Ht. f_equal. f_equal. lia.
    + intros j Hj'. apply Hfr. cbn [length] in Hj'. lia.
    + cbn [concat]. rewrite !forallb_app in *. tests. unfold kept_of. rewrite filter_loggable by (by rewrite forallb_app, Hl2). by rewrite Hl0, Hl1, Hx.
  - unfold history. cbn [rev]. rewrite concat_app. cbn [concat]. by rewrite app_nil_r.
Qed.

(** When all goes well but the renaming of archive [k], the switch returns -1 with
    the new log in place; every record is in it or in the archives from 0 on, of
    which those above [k] have the next number.  (C26) *)
Theorem failed_rename_keeps_history c now0 now lastJobId d s archives kept new k :
  holds s archives kept new -> kept ++ new <> [] -> Forall (fun r => is_Some (keep c r)) (kept ++ new) ->
  Z.of_nat (length (log_text new)) < 2 ^ 31 -> Z.of_nat (length (log_text (kept ++ new))) < 2 ^ 62 -> int32 now = true -> int32 lastJobId = true ->
  works d -> 0 <= k <= Z.of_nat (length archives) -> renames d k = false -> (forall j, k < j <= Z.of_nat (length archives) -> renames d j = true) ->
  let extra := switch_records (tables_of c (kept ++ new) no_tables) now lastJobId in
  exists s2 s', switch_log c now0 now lastJobId d s = Some (-1, s') /\
    replaced s2 now0 archives (kept_of c (kept ++ new)) new extra /\ stopped_at k s2 s' /\ s' !! FEvents = s2 !! FEvents.
Proof.
  intros Hh Hne Hk Hnew Hsz Hn Hj Hd Hk0 Hr Hlater extra.
  destruct (switch_replaces c now0 now lastJobId d s archives kept new Hh Hne Hk Hnew Hsz Hn Hj Hd) as (_ & s2 & H2 & ->).
  destruct (rename_all d s2 (length archives)) as (max & s' & -> & Hev & _ & Hf).
  { intros j Hj'. by eapply replaced_made. }
  { intros j Hj'. by apply (r_free _ _ _ _ _ _ H2). }
  destruct (Hf k Hk0 Hr Hlater) as [-> Hs]. exists s2, s'. by split_and!.
Qed.

(** Appending a record to the log. *)
Lemma holds_log s archives kept new r : holds s archives kept new -> loggable r = true ->
  exists s', log_event r s = Some s' /\ holds s' archives kept (new ++ [r]).
Proof.
  intros [(h & Hs & Hp) Ha Hfree Hl] Hr.
  assert (E : log_events [r] s = Some (<[FEvents := (h ++ log_text kept ++ log_text new) ++ log_text [r]]> s)).
  { apply log_events_app; [done|by destruct Hp as [k ->]|]. cbn. by rewrite Hr. }
  cbn [log_events] in E. destruct (log_event r s) as [s'|]; [|done]. cbn [mbind option_bind] in E. injection E as ->.
  eexists. split; [done|]. constructor.
  - exists h. split; [|done]. rewrite lookup_insert_eq, log_text_app, <- (app_assoc h), <- (app_assoc (log_text kept)). done.
  - intros i rs Hi. rewrite lookup_insert_ne by done. by apply Ha.
  - intros n Hn. rewrite lookup_insert_ne by done. by apply Hfree.
  - rewrite (app_assoc kept), app_assoc, forallb_app, Hl. cbn. by rewrite Hr.
Qed.

Lemma holds_first r : loggable r = true -> exists s, log_event r ∅ = Some s /\ holds s [] [] [r].
Proof.
  intros Hr. unfold log_event, putEventRec1, openEventFile. rewrite lookup_empty. cbn [default id]. pose proof Hr as Hr'. unfold loggable in Hr'. tests.
  rewrite (put_text r Hr'). cbn [fprint wr room written mbind option_bind]. eexists. split; [done|]. constructor; try done.
  - exists new_head. split; [rewrite lookup_insert_eq; cbn; by rewrite app_nil_r|]. exists 76%nat. done.
  - cbn. by rewrite Hr.
Qed.

(** The job of the record is defined. *)
Definition defined (r : eventRec) : Prop := is_Some (record_job (eventLog_ r)).

Lemma keep_defined c r : defined r -> is_Some (keep c r).
Proof. unfold defined, keep. intros [id ->]. by eexists. Qed.

Lemma extra_defined tb now lastJobId : Forall defined (switch_records tb now lastJobId).
Proof.
  unfold switch_records, writeHostCtrlEvent, writeQueueCtrlEvent. rewrite !Forall_app.
  assert (Hm : forall A (f : list ascii * A -> eventRec) l, (forall e, defined (f e)) -> Forall defined (f <$> l)).
  { intros A f l Hf. apply Forall_fmap, Forall_true. done. }
  split; [|split; [split|]].
  - apply Hm. intros [k [t r]]. by eexists.
  - apply Hm. intros [k [t r]]. by eexists.
  - apply Hm. intros [k [t r]]. by eexists.
  - constructor; [by eexists|constructor].
Qed.

(** The directory after events have been logged and logs have been switched, with
    the events in their order. *)
Inductive reach : store -> list eventRec -> Prop :=
  | reach_first r s : loggable r = true -> defined r -> log_event r ∅ = Some s -> reach s [r]
  | reach_log s rs r s' : reach s rs -> loggable r = true -> defined r -> log_event r s = Some s' -> reach s' (rs ++ [r])
  | reach_switch s rs c now0 now lastJobId s' :
      reach s rs -> (forall w, s !! FEvents = Some w -> Z.of_nat (length w) < 2 ^ 31) -> int32 now = true -> int32 lastJobId = true ->
      switch_log c now0 now lastJobId no_faults s = Some (0, s') -> reach s' rs.

(** (C24) After any number of events and of switches without a fault, of logs of less
    than 2 GiB, everything that was logged is in the history, in its order. *)
Theorem history_complete s rs : reach s rs ->
  exists archives kept new, holds s archives kept new /\ kept ++ new <> [] /\ rs `sublist_of` history archives new.
Proof.
  intros H. enough (exists archives kept new, holds s archives kept new /\ kept ++ new <> [] /\ Forall defined (kept ++ new) /\
      rs `sublist_of` history archives new) as (a & k & n & ? & ? & _ & ?) by (by exists a, k, n).
  induction H as [r s Hr Hd E|s rs r s' _ (a & k & n & Hh & Hne & Hdef & Hsub) Hr Hd E|s rs c now0 now j s' _ (a & k & n & Hh & Hne & Hdef & Hsub) Hsz Hn Hj E].
  - destruct (holds_first r Hr) as (s1 & E1 & Hh). simplify_eq. exists [], [], [r]. split; [done|]. split; [done|]. split; [by repeat constructor|done].
  - destruct (holds_log s a k n r Hh Hr) as (s1 & E1 & Hh'). simplify_eq. exists a, k, (n ++ [r]). split; [done|]. split; [by destruct k, n|].
    split; [rewrite app_assoc; apply Forall_app; split; [done|by constructor]|]. unfold history. rewrite app_assoc. by apply sublist_app.
  - destruct (switch_holds c now0 now j no_faults s a k n Hh Hne) as (s1 & E1 & Hh' & Hhist); [| | |done|done|done|done|].
    + eapply Forall_impl; [exact Hdef|]. apply keep_defined.
    + destruct Hh as [(h & Hs & _) _ _ _]. apply Hsz in Hs. rewrite !length_app in Hs. lia.
    + destruct Hh as [(h & Hs & _) _ _ _]. apply Hsz in Hs. rewrite !length_app in Hs. rewrite log_text_app, length_app. lia.
    + simplify_eq. eexists _, _, _. split; [exact Hh'|]. split; [|split].
      * unfold switch_records. intros [_ [_ [_ ?]%app_nil]%app_nil]%app_nil. done.
      * apply Forall_app. split; [|apply extra_defined]. apply Forall_forall. intros r Hr%list_elem_of_In. unfold kept_of in Hr.
        apply filter_In in Hr as [Hr _]. eapply Forall_forall in Hdef; [exact Hdef|]. by apply list_elem_of_In.
      * rewrite Hhist. by apply sublist_inserts_r.
Qed.

(** What the daemon reads from the log when it starts. *)
Lemma holds_read s archives kept new : holds s archives kept new -> kept ++ new <> [] ->
  exists w, s !! FEvents = Some w /\ read_log (S (length (kept ++ new))) (RFile w true) 0 = Some (inr <$> (kept ++ new), RFile [] false).
Proof.
  intros [(h & Hs & Hp) _ _ Hl] Hne. rewrite forallb_app in Hl. apply andb_true_iff in Hl as [_ Hl]. eexists. split; [exact Hs|].
  rewrite <- log_text_app. destruct (kept ++ new) as [|r rs]; [done|]. cbn [forallb] in Hl. apply andb_true_iff in Hl as [Hr Hl].
  rewrite log_text_cons. cbn [length]. remember (S (length rs)) as m eqn:Em. cbn [read_log].
  rewrite (get_behind_head h _ r (log_text rs) 0 Hp Hr). cbn [mbind option_bind]. subst m.
  pose proof (read_log_app rs [] (inc 0) 1 Hl) as E. rewrite app_nil_r, Nat.add_1_r in E. rewrite E. cbn [read_log].
  cbn [lsb_geteventrec opened negb left_]. rewrite getNextLine_end. cbn. by rewrite app_nil_r.
Qed.

(** (C23) A switch moves the records behind the position to archive 1, gives every
    other archive the next number, and leaves in the log the records that are
    kept, followed by those that tell which hosts and queues are closed and by the
    one of the switch: the history grows by the latter, and they are what a
    restarted daemon reads.  This holds if less than 2 GiB have been logged since
    the last switch and no operation on the files fails. *)
Theorem switch_keeps_history c now0 now lastJobId s archives kept new :
  holds s archives kept new -> kept ++ new <> [] -> Forall (fun r => is_Some (keep c r)) (kept ++ new) ->
  Z.of_nat (length (log_text new)) < 2 ^ 31 -> Z.of_nat (length (log_text (kept ++ new))) < 2 ^ 62 -> int32 now = true -> int32 lastJobId = true ->
  let extra := switch_records (tables_of c (kept ++ new) no_tables) now lastJobId in
  exists s' w, switch_log c now0 now lastJobId no_faults s = Some (0, s') /\
    holds s' (new :: archives) (kept_of c (kept ++ new)) extra /\ history (new :: archives) extra = history archives new ++ extra /\
    s' !! FEvents = Some w /\
    read_log (S (length (kept_of c (kept ++ new) ++ extra))) (RFile w true) 0 = Some (inr <$> (kept_of c (kept ++ new) ++ extra), RFile [] false).
Proof.
  intros Hh Hne Hk Hnew Hsz Hn Hj extra. destruct (switch_holds c now0 now lastJobId no_faults s archives kept new Hh Hne Hk Hnew Hsz Hn Hj) as (s' & E & Hh' & Hx); [done|done|].
  destruct (holds_read s' _ _ _ Hh') as (w & Hw & Hr); [unfold switch_records; intros [_ [_ [_ ?]%app_nil]%app_nil]%app_nil; done|].
  by exists s', w.
Qed.
End Switch.
