(* ===== verification/LogIndex.v ===== *)
(** * The index of job ids, [lsbatch/lib/lsb.log.c]

    For every archive of the event log a row of [lsb.events.index] has the ids of
    the jobs in it, so that [bhist] can pass over archives without the jobs it
    looks for.  The ids are collected in a sorted list, [lsbatch/lib/lsb.misc.c]. *)

From stdpp Require Import gmap strings.
From Stdlib Require Import Ascii SpecFloat Sorted.
From S2P Require Import Prelude CString Lsb Float32 Stdio Words Grp LogBase LogEvent LogCtrl LogJob LogFile LogMain LogSelect LogRotate.

(** ** Sorted lists *)

(** The ring of the values; the value of its header says whether they go up. *)
Record sortIntList := SortIntList { increased : bool; values : list Z }.

Definition initSortIntList (increased : bool) : sortIntList := SortIntList increased [].

Fixpoint insert_value (increased : bool) (value : Z) (l : list Z) : list Z :=
  match l with
  | [] => [value]
  | v :: l' =>
      if v =? value then l
      else if (if increased then value <? v else v <? value) then value :: l
      else v :: insert_value increased value l'
  end.
Definition insertSortIntList (header : sortIntList) (value : Z) : sortIntList :=
  SortIntList (increased header) (insert_value (increased header) value (values header)).

Definition getMinSortIntList (header : sortIntList) : option Z :=
  if increased header then hd_error (values header) else last (values header).
Definition getMaxSortIntList (header : sortIntList) : option Z :=
  if increased header then last (values header) else hd_error (values header).
Definition getTotalSortIntList (header : sortIntList) : Z := Z.of_nat (length (values header)).

(** ** Writing a row *)

(** [lsb_jobidinstr] prints into one buffer, and the two calls for the bounds of
    the row return it both: what is printed is the value of the call that the
    compiler has made last, [min_last] says which. *)
Definition printed_bound (min_last : bool) (header : sortIntList) : Z :=
  default 0 (if min_last then getMinSortIntList header else getMaxSortIntList header).

Fixpoint write_ids (col : Z) (l : list Z) : M wfile unit :=
  match l with
  | [] => if col =? 0 then ret tt else fprint [newline]
  | jobId :: l =>
      (if col =? 0 then fprint (int_text jobId) else fprint (" "%char :: int_text jobId));;
      if col + 1 =? 10 then fprint [newline];; write_ids 0 l else write_ids (col + 1) l
  end.

Definition writeJobIdIndexToIndexFile (min_last : bool) (header : sortIntList) (timeStamp : Z) : M wfile unit :=
  fprint ("#"%char :: int_text (i32 timeStamp) ++ " "%char :: int_text (getTotalSortIntList header) ++
          " "%char :: int_text (printed_bound min_last header) ++ " "%char :: int_text (printed_bound min_last header) ++ [newline]);;
  write_ids 0 (values header).

(** ** The ids of an archive *)

(** [stripQStr] into the buffer of the name, which keeps what it has when there is
    no quote; [None] is a buffer whose contents are not known. *)
Definition strip_name (nameBuf : option (list ascii)) (w : list ascii) : option (option (list ascii) * list ascii * bool) :=
  o ← stripQStr (Z.to_nat MAXLINELEN) w;
  Some (match o with
        | Some (s, r) => (Some s, r, true)
        | None => (match skip_to_quote w with None => nameBuf | Some _ => None end, w, false)
        end).

(** [line += ccount + 1], where [ccount] is -1 after a failure. *)
Definition move_on (found : bool) (r : list ascii) : line :=
  if found then match r with [] => None | _ :: r => Some r end else Some r.

(** A line of the archive: the id, 0 for a line that is passed over, and the
    buffer. *)
Definition line_id (nameBuf : option (list ascii)) (w : list ascii) : option (Z * option (list ascii)) :=
  '(nameBuf, r, found) ← strip_name nameBuf w;
  etype ← nameBuf;
  match getEventTypeAndKind etype with
  | (Some eventType, true) =>
      w ← move_on found r;
      '(nameBuf, r, found) ← strip_name nameBuf w;
      if negb found || match nameBuf with Some s => MAX_VERSION_LEN <=? Z.of_nat (length s) | None => true end then Some (0, nameBuf) else
      '(o, l) ← read_d (move_on found r);
      match o with
      | inl _ => Some (0, nameBuf)
      | inr _ => jobId ← getJobIdFromEvent l eventType; Some (jobId, nameBuf)
      end
  | _ => Some (0, nameBuf)
  end.

Fixpoint index_loop (fuel : nat) (eventFp : list ascii) (nameBuf : option (list ascii)) (header : sortIntList) : option sortIntList :=
  match fuel with
  | O => None
  | S fuel =>
      '(l, eventFp) ← getNextLine_ false eventFp;
      match l with
      | None => Some header
      | Some w =>
          if hash_line w then index_loop fuel eventFp nameBuf header else
          '(jobId, nameBuf) ← line_id nameBuf w;
          index_loop fuel eventFp nameBuf (if jobId =? 0 then header else insertSortIntList header jobId)
      end
  end.

(** [fscanf(eventFp, "%c%d", &ch, &tempTimeStamp)] and the position then; the time
    is not known when there is none. *)
Definition archive_time (w : list ascii) : option (option Z * list ascii) :=
  match w with
  | ch :: r =>
      match scan_int r with
      | Some (t, r') => if int32 t then Some (Some t, if Ascii.eqb ch "#" then r' else w) else None
      | None => Some (None, w)
      end
  | [] => Some (None, w)
  end.

Definition getJobIdIndexFromEventFile (w : list ascii) (header : sortIntList) : option (option Z * sortIntList) :=
  '(timeStamp, r) ← archive_time w;
  header ← index_loop (S (length r)) r None header;
  Some (timeStamp, header).

(** ** Searching *)

(** The open index: what is left of it, its rows and the row that was read last. *)
Record jobIdIndexS := JobIdIndexS { ix_fp : list ascii; ix_open : bool; totalRows : Z; curRow : Z }.

Definition int64 (z : Z) : bool := (- 2 ^ 63 <=? z) && (z <? 2 ^ 63).

(** Numbers with blanks in front; [Some None] is a number that is missing. *)
Fixpoint scan_nums (ok : list (Z -> bool)) (w : list ascii) : option (option (list Z * list ascii)) :=
  match ok with
  | [] => Some (Some ([], w))
  | f :: ok =>
      match scan_int w with
      | None => Some None
      | Some (v, r) => if f v then o ← scan_nums ok r; Some ('(vs, r) ← o; Some (v :: vs, r)) else None
      end
  end.

(** [fscanf(indexS->fp, "#%ld %d %lld %lld\n", ...)] *)
Definition scan_head (w : list ascii) : option (option (list Z * list ascii)) :=
  match w with
  | c :: r => if Ascii.eqb c "#" then o ← scan_nums [int64; int32; int64; int64] r; Some ('(vs, r) ← o; Some (vs, skip_space r)) else Some None
  | [] => Some None
  end.

(** The ids, ten to a line, and the end of the last line. *)
Definition scan_ids (n : Z) (w : list ascii) : option (option (list Z * list ascii)) :=
  o ← scan_nums (replicate (Z.to_nat n) int32) w; Some ('(vs, r) ← o; Some (vs, skip_space r)).

(** The inner loop: the ids go down, so that a greater one ends the search. *)
Fixpoint in_row (jobId : Z) (ids : list Z) : bool :=
  match ids with
  | [] => false
  | id :: ids => if jobId =? id then true else if id <? jobId then false else in_row jobId ids
  end.

Definition row_has (minJobId maxJobId : Z) (ids : list Z) (id : Z) : bool :=
  let jobId := LSB_ARRAY_JOBID id in
  negb ((maxJobId <? jobId) || (jobId <? minJobId)) && in_row jobId ids.

(** The number of the next archive to read, 0 for the log itself, -1 for a row
    that cannot be read. *)
Fixpoint getNextFileNumFromIndexS (fuel : nat) (ix : jobIdIndexS) (jobIds : list Z) : option (Z * jobIdIndexS) :=
  match fuel with
  | O => None
  | S fuel =>
      let row := curRow ix + 1 in
      if negb (ix_open ix) then None else
      if row =? totalRows ix then Some (0, JobIdIndexS (ix_fp ix) false (totalRows ix) row) else
      o ← scan_head (ix_fp ix);
      match o with
      | Some ([_; totalJobIds; minJobId; maxJobId], r) =>
          let ix := JobIdIndexS r true (totalRows ix) row in
          if totalJobIds <? 0 then Some (-1, ix)
          else if totalJobIds =? 0 then getNextFileNumFromIndexS fuel ix jobIds
          else
            o ← scan_ids totalJobIds r;
            match o with
            | None => Some (-1, ix)
            | Some (ids, r) =>
                let ix := JobIdIndexS r true (totalRows ix) row in
                if existsb (row_has minJobId maxJobId ids) jobIds then Some (totalRows ix - row + 1, ix)
                else getNextFileNumFromIndexS fuel ix jobIds
            end
      | _ => Some (-1, JobIdIndexS (ix_fp ix) true (totalRows ix) row)
      end
  end.

(** ** The index file *)

Definition LSF_JOBIDINDEX_FILETAG : list ascii := lit "#LSF_JOBID_INDEX_FILE".

(** [%s] *)
Definition scan_word (w : list ascii) : option (list ascii * list ascii) :=
  let '(s, r) := take_until is_space (skip_space w) in match s with [] => None | _ => Some (s, r) end.

(** [fscanf(indexFp, "%s %s %d %d\n", ...)]: tag, version and rows; [Some None] if
    something is missing, [None] for a word that does not fit its buffer. *)
Definition scan_index_head (tagSize versionSize : Z) (w : list ascii) : option (option (list ascii * list ascii * Z)) :=
  match scan_word w with
  | None => Some None
  | Some (tag, r) =>
      if tagSize <=? Z.of_nat (length tag) then None else
      match scan_word r with
      | None => Some None
      | Some (version, r) =>
          if versionSize <=? Z.of_nat (length version) then None else
          o ← scan_nums [int32; int64] r; Some ('(vs, _) ← o; rows ← hd_error vs; Some (tag, version, rows))
      end
  end.

(** The loop over the archives from number [i] down: whether it went through, the
    file and the rows. *)
Fixpoint add_rows (min_last : bool) (s : store) (i : nat) (index : list ascii) (rows : Z) : option (bool * list ascii * Z) :=
  match i with
  | O => Some (true, index, rows)
  | S i' =>
      match s !! FArchive (Z.of_nat i) with
      | None => Some (false, index, rows)
      | Some w =>
          '(timeStamp, header) ← getJobIdIndexFromEventFile w (initSortIntList false);
          t ← timeStamp;
          '(_, f) ← writeJobIdIndexToIndexFile min_last header t (WFile index None);
          add_rows min_last s i' (written f) (rows + 1)
      end
  end.

(** 0 or -1, and the file, if there is one then. *)
Definition updateJobIdIndexFile (min_last : bool) (now : Z) (index : option (list ascii)) (s : store) (totalEventFile : Z)
  : option (Z * option (list ascii)) :=
  let finish added index version rows :=
    '(ok, index, rows) ← add_rows min_last s (Z.to_nat added) index rows;
    Some (if ok : bool then 0 else -1,
          Some (overwrite (LSF_JOBIDINDEX_FILETAG ++ " "%char :: version ++ " "%char :: int_text rows ++ " "%char :: int_text (i32 now)) index)) in
  let fresh := finish totalEventFile (replicate 79 " "%char ++ [newline]) (int_text VOLCLAVA_VERSION2_2) 0 in
  match index with
  | None => fresh
  | Some w =>
      o ← scan_index_head MAXLINELEN 16 w;
      match o with
      | Some (tag, version, rows) =>
          if bool_decide (tag = LSF_JOBIDINDEX_FILETAG)
          then if totalEventFile =? rows + 1 then finish 1 w version rows else fresh
          else Some (-1, None)
      | None => Some (-1, None)
      end
  end.

(** [initJobIdIndexS] of [lsbatch/bhist/bhist.c]. *)
Definition initJobIdIndexS (w : list ascii) : option (option jobIdIndexS) :=
  o ← scan_index_head 80 80 w;
  Some ('(tag, _, rows) ← o;
        if bool_decide (tag = LSF_JOBIDINDEX_FILETAG) then Some (JobIdIndexS (drop 80 w) true rows 0) else None).

(** ** The list is sorted and has what was put in *)

Definition descending (l : list Z) : Prop := StronglySorted (fun a b => b < a) l.

Lemma insert_value_elem b value l x : x ∈ insert_value b value l <-> x = value \/ x ∈ l.
Proof.
  induction l as [|v l IH]; cbn [insert_value]; [set_solver|]. destruct (Z.eqb_spec v value) as [->|]; [set_solver|].
  destruct (if b then value <? v else v <? value); set_solver.
Qed.

Lemma insert_value_sorted value l : descending l -> descending (insert_value false value l).
Proof.
  induction 1 as [|v l Hl IH Hv]; cbn [insert_value]; [by repeat constructor|]. destruct (Z.eqb_spec v value) as [->|Hne]; [by constructor|].
  destruct (Z.ltb_spec v value).
  - constructor; [by constructor|]. constructor; [done|]. eapply Forall_impl; [exact Hv|]. cbn. lia.
  - constructor; [exact IH|]. apply Forall_forall. intros x [->|Hx]%insert_value_elem; [lia|]. by eapply Forall_forall in Hv.
Qed.

(** ** A row is read back *)

Fixpoint ids_text (col : Z) (l : list Z) : list ascii :=
  match l with
  | [] => if col =? 0 then [] else [newline]
  | jobId :: l =>
      (if col =? 0 then [] else [" "%char]) ++ int_text jobId ++
      (if col + 1 =? 10 then newline :: ids_text 0 l else ids_text (col + 1) l)
  end.

Lemma write_ids_text col l : eqM (write_ids col l) (fprint (ids_text col l)).
Proof.
  revert col. induction l as [|z l IH]; intros col; cbn [write_ids ids_text].
  - destruct (col =? 0); [|done]. symmetry. apply wr_nil.
  - rewrite app_assoc. apply wr_step; [by destruct (col =? 0)|]. destruct (col + 1 =? 10); [|apply IH].
    apply (wr_step _ _ _ [newline]); [done|apply IH].
Qed.

Definition row_text (min_last : bool) (row : Z * list Z) : list ascii :=
  let '(t, ids) := row in
  let b := printed_bound min_last (SortIntList false ids) in
  ("#"%char :: int_text t ++ " "%char :: int_text (Z.of_nat (length ids)) ++ " "%char :: int_text b ++ " "%char :: int_text b ++ [newline]) ++
  ids_text 0 ids.

Lemma write_row_text min_last t ids : int32 t = true ->
  eqM (writeJobIdIndexToIndexFile min_last (SortIntList false ids) t) (fprint (row_text min_last (t, ids))).
Proof.
  intros Ht. unfold writeJobIdIndexToIndexFile. rewrite good_i32 by done. apply wr_step; [done|]. apply write_ids_text.
Qed.

(** What follows a number is no digit. *)
Definition apart (w : list ascii) : Prop := hd_error w ≫= digit = None.

Lemma ids_text_apart col l w : 0 < col -> apart (ids_text col l ++ w).
Proof.
  intros Hc. destruct l; cbn [ids_text]; rewrite (proj2 (Z.eqb_neq col 0)) by lia; done.
Qed.

Lemma scan_ids_text col l w : 0 <= col < 10 -> forallb int32 l = true -> (l = [] -> col = 0) ->
  exists r, scan_nums (replicate (length l) int32) (ids_text col l ++ w) = Some (Some (l, r)) /\ skip_space r = skip_space w.
Proof.
  revert col. induction l as [|z l IH]; intros col Hc Hl Hne.
  - rewrite Hne by done. by exists w.
  - cbn [forallb] in Hl. tests. cbn [length replicate scan_nums ids_text]. rewrite <- !app_assoc.
    set (tail := (if col + 1 =? 10 then _ else _) ++ w).
    assert (Ht : apart tail).
    { unfold tail. destruct (Z.eqb_spec (col + 1) 10); [done|]. apply ids_text_apart. lia. }
    rewrite scan_int_text; [|by destruct (col =? 0); repeat constructor|exact Ht]. rewrite Hl.
    assert (Hr : exists r, scan_nums (replicate (length l) int32) tail = Some (Some (l, r)) /\ skip_space r = skip_space w).
    { unfold tail. destruct (Z.eqb_spec (col + 1) 10) as [E|E].
      - destruct l as [|z' l]; [by eexists|]. apply (IH 0); [lia|done|done].
      - destruct l as [|z' l]; [|apply IH; [lia|done|done]]. cbn [ids_text]. rewrite (proj2 (Z.eqb_neq _ _)) by lia. by eexists. }
    destruct Hr as (r & -> & Es). by exists r.
Qed.

(** A row whose numbers are within their types and whose ids go down. *)
Definition row_ok (row : Z * list Z) : Prop :=
  int32 (fst row) = true /\ forallb int32 (snd row) = true /\ descending (snd row) /\ Z.of_nat (length (snd row)) < 2 ^ 31.

Lemma int32_64 z : int32 z = true -> int64 z = true.
Proof. unfold int32, int64. intros H. bool_prop. apply andb_true_intro. split; apply Z.leb_le || apply Z.ltb_lt; lia. Qed.

Lemma bound_elem min_last ids : ids <> [] -> printed_bound min_last (SortIntList false ids) ∈ ids.
Proof.
  intros Hne. unfold printed_bound, getMinSortIntList, getMaxSortIntList. cbn [increased values]. destruct ids as [|z ids]; [done|].
  destruct min_last; [|by left]. destruct (last (z :: ids)) as [x|] eqn:E; [by apply last_Some_elem_of in E|by apply last_None in E].
Qed.

Lemma bound_int32 min_last ids : forallb int32 ids = true -> int32 (printed_bound min_last (SortIntList false ids)) = true.
Proof.
  intros H. destruct (decide (ids = [])) as [->|Hne]; [by destruct min_last|]. eapply forallb_forall in H; [exact H|].
  by apply list_elem_of_In, bound_elem.
Qed.

(** The next row begins with a [#], or the file ends. *)
Definition row_start (w : list ascii) : Prop := skip_space w = w.

Lemma rows_start min_last rows : row_start (rows ≫= row_text min_last).
Proof. by destruct rows as [|[t ids] rows]. Qed.

Lemma ids_text_start ids w : row_start w -> row_start (ids_text 0 ids ++ w).
Proof.
  intros Hw. destruct ids as [|z ids]; [done|]. unfold row_start. cbn [ids_text Z.eqb app]. rewrite <- app_assoc.
  pose proof (int_text_chars z) as Hc. pose proof (int_text_ne z).
  destruct (int_text z) as [|c u]; [done|]. apply Forall_cons in Hc as [Hc _]. cbn [app]. apply skip_space_none.
  by destruct c as [[] [] [] [] [] [] [] []].
Qed.

Lemma scan_int_at z r : apart r -> scan_int (int_text z ++ r) = Some (z, r).
Proof. apply (scan_int_text []). constructor. Qed.
Lemma scan_int_blank z r : apart r -> scan_int (" "%char :: int_text z ++ r) = Some (z, r).
Proof. apply (scan_int_text [" "%char]). by repeat constructor. Qed.

Lemma scan_head_row min_last t ids w : row_ok (t, ids) -> row_start w ->
  let b := printed_bound min_last (SortIntList false ids) in
  scan_head (row_text min_last (t, ids) ++ w) = Some (Some ([t; Z.of_nat (length ids); b; b], ids_text 0 ids ++ w)).
Proof.
  intros (Ht & Hi & _ & Hn) Hw b. cbn [fst snd] in *. unfold row_text, scan_head. fold b. rewrite <- !app_assoc. cbn [app].
  change (Ascii.eqb "#" "#") with true. cbv iota. cbn [scan_nums].
  pose proof (bound_int32 min_last ids Hi) as Hb. fold b in Hb.
  repeat (rewrite <- ?app_assoc; cbn [app]). rewrite scan_int_at by done. rewrite int32_64 by done. rewrite scan_int_blank by done.
  replace (int32 (Z.of_nat (length ids))) with true by (symmetry; unfold int32; apply andb_true_intro; split; apply Z.leb_le || apply Z.ltb_lt; lia).
  rewrite !scan_int_blank by done. rewrite int32_64 by done.
  cbn [mbind option_bind]. do 2 f_equal. f_equal. change (skip_space (newline :: ids_text 0 ids ++ w)) with (skip_space (ids_text 0 ids ++ w)).
  by apply ids_text_start.
Qed.

Lemma in_row_elem x ids : descending ids -> in_row x ids = bool_decide (x ∈ ids).
Proof.
  induction 1 as [|z ids _ IH Hz]; [done|]. cbn [in_row]. destruct (Z.eqb_spec x z) as [->|Hne].
  - symmetry. apply bool_decide_eq_true. by left.
  - destruct (Z.ltb_spec z x).
    + symmetry. apply bool_decide_eq_false. rewrite elem_of_cons. intros [?|Hx]; [done|]. eapply Forall_forall in Hz; [|exact Hx]. cbn in Hz. lia.
    + rewrite IH. apply bool_decide_ext. set_solver.
Qed.

Lemma row_has_bound min_last ids jobIds : descending ids -> ids <> [] ->
  let b := printed_bound min_last (SortIntList false ids) in
  existsb (row_has b b ids) jobIds = existsb (fun id => LSB_ARRAY_JOBID id =? b) jobIds.
Proof.
  intros Hd Hne b. induction jobIds as [|id jobIds IH]; [done|]. cbn [existsb]. rewrite IH. f_equal. unfold row_has. destruct (Z.eqb_spec (LSB_ARRAY_JOBID id) b) as [->|Hb].
  - rewrite Z.ltb_irrefl. cbn. rewrite in_row_elem by done. by apply bool_decide_eq_true, bound_elem.
  - destruct (Z.ltb_spec b (LSB_ARRAY_JOBID id)), (Z.ltb_spec (LSB_ARRAY_JOBID id) b); done || lia.
Qed.

(** ** The search *)

(** What the search finds in the rows that are left, which are those of as many
    archives: the first row whose printed bound is asked for, but never the last
    row. *)
Fixpoint search (min_last : bool) (jobIds : list Z) (rows : list (Z * list Z)) : Z * list (Z * list Z) :=
  match rows with
  | [] => (0, [])
  | [_] => (0, rows)
  | row :: rows' =>
      if negb (bool_decide (snd row = [])) && existsb (fun id => LSB_ARRAY_JOBID id =? printed_bound min_last (SortIntList false (snd row))) jobIds
      then (Z.of_nat (length rows), rows') else search min_last jobIds rows'
  end.

Lemma search_rows min_last jobIds rows n : rows <> [] -> Forall row_ok rows ->
  let '(num, rest) := search min_last jobIds rows in
  getNextFileNumFromIndexS (length rows) (JobIdIndexS (rows ≫= row_text min_last) true n (n - Z.of_nat (length rows))) jobIds =
    Some (num, JobIdIndexS (rest ≫= row_text min_last) (0 <? num) n
                 (if 0 <? num then n - Z.of_nat (length rest) else n)).
Proof.
  intros Hne Hok. induction Hok as [|[t ids] rows Hrow Hok IH]; [done|]. cbn [search snd]. destruct rows as [|row' rows].
  - cbn [length getNextFileNumFromIndexS curRow totalRows ix_open negb ix_fp]. cbv zeta. replace (n - Z.of_nat 1 + 1) with n by lia. by rewrite Z.eqb_refl.
  - set (rows' := row' :: rows) in *. pose proof Hrow as (_ & Hi & Hd & Hlen). cbn [fst snd] in *.
    change (((t, ids) :: rows') ≫= row_text min_last) with (row_text min_last (t, ids) ++ (rows' ≫= row_text min_last)).
    cbn [length getNextFileNumFromIndexS curRow totalRows ix_open negb ix_fp]. rewrite (proj2 (Z.eqb_neq _ _)) by (cbn; lia).
    rewrite scan_head_row by (done || apply rows_start). cbn [mbind option_bind]. rewrite (proj2 (Z.ltb_ge _ _)) by lia.
    replace (n - Z.of_nat (S (length rows')) + 1) with (n - Z.of_nat (length rows')) by lia.
    destruct (decide (ids = [])) as [->|Hids].
    + cbn [length Z.of_nat Z.eqb negb bool_decide snd andb ids_text app]. rewrite bool_decide_eq_true_2 by done. cbn [negb andb].
      specialize (IH ltac:(done)). destruct (search min_last jobIds rows'). exact IH.
    + rewrite (proj2 (Z.eqb_neq _ _)) by (destruct ids; [done|cbn; lia]). rewrite bool_decide_eq_false_2 by done. cbn [negb andb].
      unfold scan_ids. rewrite Nat2Z.id. destruct (scan_ids_text 0 ids (rows' ≫= row_text min_last)) as (r & Er & Es); [lia|done|done|].
      rewrite Er. cbn [mbind option_bind totalRows]. rewrite Es, rows_start, row_has_bound by done.
      destruct (existsb _ jobIds).
      * rewrite (proj2 (Z.ltb_lt _ _)) by lia. do 2 f_equal. lia.
      * specialize (IH ltac:(done)). destruct (search min_last jobIds rows'). exact IH.
Qed.

(** ** The ids of an archive *)

(** The id of a record for the index. *)
Definition index_id (r : eventRec) : Z := if about_job r then default 0 (event_job_id (eventLog_ r)) else 0.

Lemma strip_name_at nameBuf s fs : (length s < Z.to_nat MAXLINELEN)%nat -> strip_name nameBuf (qstr s ++ render fs) = Some (Some s, render fs, true).
Proof.
  intros Hs. unfold strip_name, qstr. rewrite <- app_comm_cons, <- app_assoc. cbn [app].
  pose proof (stripQStr_quoted (Z.to_nat MAXLINELEN) [] s (render fs)) as E. cbn [app] in E. rewrite E; [done|constructor|done|by destruct fs].
Qed.

Lemma move_on_at fs : move_on true (render fs) = at_ fs.
Proof. by destruct fs. Qed.

Lemma id_member v type eventTime e : wf_member v type eventTime e = true -> is_type job_events type = true -> id_fits e = true ->
  getJobIdFromEvent (at_ (member_fields e)) type = Some (default 0 (event_job_id e)).
Proof.
  intros Hw Hj Hf. destruct (scan_member _ _ _ _ Hw Hj Hf) as (p & Ep & o & l & Es & Ho).
  unfold getJobIdFromEvent. rewrite Ep, Es. cbn. destruct (event_job_id e) as [id|]; [by subst o|by destruct Ho as [code ->]].
Qed.

Lemma line_id_record nameBuf r : wf_select r = true -> exists nb, line_id nameBuf (event_line r) = Some (index_id r, nb).
Proof.
  unfold wf_select, wf_event, okversion. intros H. tests. unfold line_id, index_id.
  destruct (names_agree (type r)) as (s & Es & Eg & Hs); [by eapply wf_member_type|]. tests.
  assert (Et : etype r = s) by (unfold etype; by rewrite Es).
  change (event_line r) with (qstr (etype r) ++ render (FStr (version r) :: FInt (eventTime r) :: member_fields (eventLog_ r))).
  assert (Hm : MAX_LSB_NAME_LEN <= MAXLINELEN /\ MAX_VERSION_LEN <= MAXLINELEN) by done. bool_prop.
  rewrite strip_name_at by (rewrite Et; unfold MAXLINELEN in *; lia). cbn [mbind option_bind]. unfold getEventTypeAndKind. rewrite Et, Eg.
  fold (about_job r). destruct (about_job r) eqn:Ej; [|by eexists]. rewrite move_on_at. unfold at_ at 1. cbn [mbind option_bind body].
  rewrite strip_name_at by (unfold MAXLINELEN in *; lia). cbn [mbind option_bind negb orb]. rewrite (proj2 (Z.leb_gt _ _)) by lia.
  rewrite move_on_at, read_d_at by done. cbn [mbind option_bind]. erewrite id_member by done. cbn. by eexists.
Qed.

(** The list after the ids have been put in. *)
Definition put_ids (rs : list eventRec) (header : sortIntList) : sortIntList :=
  fold_left (fun h r => if index_id r =? 0 then h else insertSortIntList h (index_id r)) rs header.

Lemma index_loop_log fuel rs nameBuf header : job_log rs = true -> (length rs < fuel)%nat ->
  index_loop fuel (log_text rs) nameBuf header = Some (put_ids rs header).
Proof.
  revert fuel nameBuf header. induction rs as [|r rs IH]; intros fuel nameBuf header Hl Hf; (destruct fuel as [|fuel]; [lia|]); [done|].
  unfold job_log in Hl. cbn [forallb] in Hl. tests. cbn [index_loop]. rewrite log_text_cons, loop_line by done. cbn [mbind option_bind].
  rewrite not_hash by done. destruct (line_id_record nameBuf r) as [nb ->].
  { unfold wf_select. unfold loggable in Hl. tests. by rewrite Hl, Hl1. }
  cbn [mbind option_bind]. apply IH; [done|]. cbn [length] in Hf. lia.
Qed.

Lemma put_ids_spec rs header :
  increased header = false -> descending (values header) ->
  increased (put_ids rs header) = false /\ descending (values (put_ids rs header)) /\
  forall id, id ∈ values (put_ids rs header) <-> id ∈ values header \/ id <> 0 /\ exists r, r ∈ rs /\ index_id r = id.
Proof.
  revert header. induction rs as [|r rs IH]; intros header Hi Hd; [split; [done|]; split; [done|]; set_solver|].
  unfold put_ids. cbn [fold_left]. fold (put_ids rs (if index_id r =? 0 then header else insertSortIntList header (index_id r))).
  destruct (Z.eqb_spec (index_id r) 0) as [E|E].
  - destruct (IH header Hi Hd) as (H1 & H2 & H3). split; [done|]. split; [done|]. intros id. rewrite H3. split; [set_solver|].
    intros [?|(Hne & r' & [->|Hr]%elem_of_cons & Hid)]; [by left|by subst id|right]. split; [done|]. by exists r'.
  - destruct (IH (insertSortIntList header (index_id r))) as (H1 & H2 & H3); [done|cbn; rewrite Hi; by apply insert_value_sorted|].
    split; [done|]. split; [done|]. intros id. rewrite H3. cbn [insertSortIntList values]. rewrite insert_value_elem. set_solver.
Qed.

(** Behind the time of an archive there is a line of blanks. *)
Lemma next_line_behind b rs : Forall (fun c => Ascii.eqb c " " = true) b -> forallb loggable rs = true ->
  getNextLine_ false (b ++ newline :: log_text rs) = getNextLine_ false (log_text rs).
Proof.
  intros Hb Hl. unfold getNextLine_. rewrite getNextLineC_blank by done. rewrite length_app. cbn [length].
  rewrite Nat.add_succ_r. destruct rs as [|r rs]; [done|]. cbn [forallb] in Hl. tests. unfold loggable in Hl. tests.
  destruct (event_line_ok r Hl) as (Hp & Hf & _). destruct (member_end_ended r Hl1) as (e & Ee & He).
  rewrite log_text_cons. unfold event_text. rewrite Ee, <- !app_assoc. change ([newline] ++ log_text rs) with (newline :: log_text rs).
  by rewrite !getNextLineC_line.
Qed.

Lemma index_loop_behind fuel b rs nameBuf header : Forall (fun c => Ascii.eqb c " " = true) b -> forallb loggable rs = true ->
  index_loop (S fuel) (b ++ newline :: log_text rs) nameBuf header = index_loop (S fuel) (log_text rs) nameBuf header.
Proof. intros Hb Hl. cbn [index_loop]. by rewrite next_line_behind. Qed.

Lemma archive_head_app t w : archive_head t ++ w = "#"%char :: int_text t ++ replicate 23 " "%char ++ newline :: w.
Proof. unfold archive_head. by rewrite <- app_comm_cons, <- !app_assoc. Qed.

Lemma archive_time_at t b w : int32 t = true -> Forall (fun c => Ascii.eqb c " " = true) b ->
  archive_time ("#"%char :: int_text t ++ b ++ newline :: w) = Some (Some t, b ++ newline :: w).
Proof.
  intros Ht Hb. cbn [archive_time]. rewrite scan_int_at, Ht; [done|]. destruct Hb as [|c b Hc _]; [done|]. by apply Ascii.eqb_eq in Hc as ->.
Qed.

Lemma job_log_loggable rs : job_log rs = true -> forallb loggable rs = true.
Proof. unfold job_log. induction rs as [|r rs IH]; [done|]. cbn [forallb]. intros H. tests. by rewrite H, IH. Qed.

Lemma archive_ids t rs header : int32 t = true -> job_log rs = true ->
  getJobIdIndexFromEventFile (archive_head t ++ log_text rs) header = Some (Some t, put_ids rs header).
Proof.
  intros Ht Hl. rewrite archive_head_app. assert (Hb : Forall (fun c => Ascii.eqb c " " = true) (replicate 23 " "%char)) by (by apply Forall_replicate).
  generalize dependent (replicate 23 " "%char). intros b Hb. unfold getJobIdIndexFromEventFile. rewrite archive_time_at by done.
  cbn [mbind option_bind]. rewrite index_loop_behind by (done || by apply job_log_loggable).
  rewrite index_loop_log; [done|done|]. rewrite length_app. cbn [length]. pose proof (log_text_length rs). lia.
Qed.

Lemma scan_id_int32 p l z l' : scan_id p l = Some (inr z, l') -> int32 z = true.
Proof.
  assert (H : forall l z l', scan_d l = Some (inr z, l') -> int32 z = true).
  { intros [w|] x l1; unfold scan_d; cbn; [|done]. destruct (scan_int w) as [[v r]|]; [|done]. destruct (int32 v) eqn:E; [|done]. by intros [= <- _]. }
  destruct p; cbn [scan_id]; [apply H| |]; intros E; apply bind_inv in E as (? & ? & _ & E); by apply H in E.
Qed.

Lemma index_id_int32 r : wf_select r = true -> int32 (index_id r) = true.
Proof.
  unfold wf_select, wf_event, index_id. intros H. tests. destruct (about_job r) eqn:E; [|done].
  destruct (scan_member _ _ _ _ H1 E H0) as (p & _ & o & l & Es & Ho). destruct (event_job_id (eventLog_ r)) as [id|]; [|done].
  subst o. by apply scan_id_int32 in Es.
Qed.

(** The row of an archive. *)
Definition row_of (a : Z * list eventRec) : Z * list Z := (fst a, values (put_ids (snd a) (initSortIntList false))).

Definition archive_ok (a : Z * list eventRec) : Prop :=
  int32 (fst a) = true /\ job_log (snd a) = true /\ Z.of_nat (length (snd a)) < 2 ^ 31.

Lemma insert_value_length b value l : (length (insert_value b value l) <= S (length l))%nat.
Proof.
  induction l as [|v l IH]; cbn [insert_value]; [done|]. destruct (v =? value); [lia|]. destruct (if b then _ else _); cbn in *; lia.
Qed.

Lemma put_ids_length rs header : (length (values (put_ids rs header)) <= length (values header) + length rs)%nat.
Proof.
  revert header. induction rs as [|r rs IH]; intros header; [cbn; lia|]. unfold put_ids. cbn [fold_left].
  etransitivity; [apply IH|]. cbn [length]. destruct (_ =? 0); [lia|]. cbn [insertSortIntList values].
  pose proof (insert_value_length (increased header) (index_id r) (values header)). lia.
Qed.

Lemma row_of_ok a : archive_ok a -> row_ok (row_of a).
Proof.
  destruct a as [t rs]. intros (Ht & Hl & Hn). cbn [fst snd] in *. unfold row_ok, row_of. cbn [fst snd].
  destruct (put_ids_spec rs (initSortIntList false)) as (_ & Hd & He); [done|constructor|].
  split; [done|]. split; [|split; [done|]].
  - apply forallb_forall. intros id Hid%list_elem_of_In. apply He in Hid as [Hid|(_ & r & Hr & <-)]; [by apply elem_of_nil in Hid|].
    unfold job_log in Hl. eapply forallb_forall in Hl; [|by apply list_elem_of_In]. cbn beta in Hl. tests. apply index_id_int32.
    unfold wf_select. unfold loggable in Hl. tests. by rewrite Hl, Hl0.
  - pose proof (put_ids_length rs (initSortIntList false)). cbn [initSortIntList values length] in *. lia.
Qed.

(** The archives of the directory, from the newest. *)
Definition archived (s : store) (archives : list (Z * list eventRec)) : Prop :=
  forall j a, archives !! j = Some a -> s !! FArchive (Z.of_nat j + 1) = Some (archive_head (fst a) ++ log_text (snd a)).

Lemma add_rows_all min_last s archives index rows : archived s archives -> Forall archive_ok archives ->
  add_rows min_last s (length archives) index rows =
    Some (true, index ++ (rev (row_of <$> archives) ≫= row_text min_last), rows + Z.of_nat (length archives)).
Proof.
  revert index rows. induction archives as [|[t rs] archives IH] using rev_ind; intros index rows Ha Hok.
  - cbn. by rewrite app_nil_r, Z.add_0_r.
  - apply Forall_app in Hok as [Hok Hlast]. apply Forall_cons in Hlast as [Hr _]. pose proof Hr as (Ht & Hl & _). cbn [fst snd] in *.
    rewrite length_app, Nat.add_1_r. cbn [add_rows]. rewrite Nat2Z.inj_succ, <- Z.add_1_r.
    rewrite (Ha (length archives) (t, rs)) by (by rewrite lookup_app_r, Nat.sub_diag by lia). cbn [fst snd]. rewrite archive_ids by done.
    cbn [mbind option_bind]. destruct (put_ids_spec rs (initSortIntList false)) as (Hi & _ & _); [done|constructor|].
    destruct (put_ids rs (initSortIntList false)) as [b ids] eqn:E. cbn [increased] in Hi. subst b. rewrite (write_row_text min_last t ids Ht).
    cbn [fprint wr room written mbind option_bind]. rewrite IH; [|intros j a Hj; apply Ha; by rewrite lookup_app_l by (by eapply lookup_lt_Some)|done].
    rewrite fmap_app, rev_app_distr. cbn [rev fmap list_fmap app mbind list_bind]. unfold row_of at 2. cbn [fst snd]. rewrite E. cbn [values].
    f_equal. f_equal; [f_equal; by rewrite <- app_assoc|lia].
Qed.

(** The first line of the index. *)
Lemma overwrite_blanks hd n x : (length hd <= n)%nat ->
  overwrite hd (replicate n " "%char ++ [newline] ++ x) = hd ++ replicate (n - length hd) " "%char ++ newline :: x.
Proof. intros Hl. unfold overwrite. f_equal. rewrite drop_app_le by (by rewrite length_replicate). by rewrite drop_replicate. Qed.

Lemma take_until_word s r : Forall (fun c => is_space c = false) s -> hd_error r = Some " "%char -> take_until is_space (s ++ r) = (s, r).
Proof.
  intros Hs Hr. induction Hs as [|c s Hc _ IH]; [by destruct r; [|injection Hr as ->]|]. cbn [app take_until]. by rewrite Hc, IH.
Qed.

Lemma scan_word_at b s r : blank b -> s <> [] -> Forall (fun c => is_space c = false) s -> hd_error r = Some " "%char ->
  scan_word (b ++ s ++ r) = Some (s, r).
Proof.
  intros Hb Hne Hs Hr. unfold scan_word. rewrite skip_space_blank by done. destruct s as [|c s]; [done|].
  pose proof Hs as Hs'. apply Forall_cons in Hs' as [Hc _]. rewrite <- app_comm_cons, skip_space_none by done.
  rewrite app_comm_cons, take_until_word by done. done.
Qed.

Definition index_head (rows now : Z) : list ascii :=
  LSF_JOBIDINDEX_FILETAG ++ " "%char :: int_text VOLCLAVA_VERSION2_2 ++ " "%char :: int_text rows ++ " "%char :: int_text now.

Lemma scan_index_head_at tagSize versionSize rows now r : 22 <= tagSize -> 3 <= versionSize -> int32 rows = true -> int32 now = true -> apart r ->
  scan_index_head tagSize versionSize (index_head rows now ++ r) = Some (Some (LSF_JOBIDINDEX_FILETAG, int_text VOLCLAVA_VERSION2_2, rows)).
Proof.
  intros H1 H2 Hr Hn Ha. unfold scan_index_head, index_head.
  assert (Ht : length LSF_JOBIDINDEX_FILETAG = 21%nat /\ LSF_JOBIDINDEX_FILETAG <> [] /\ Forall (fun c => is_space c = false) LSF_JOBIDINDEX_FILETAG)
    by (split; [done|]; split; [done|]; by repeat constructor).
  assert (Hv : length (int_text VOLCLAVA_VERSION2_2) = 2%nat /\ int_text VOLCLAVA_VERSION2_2 <> [] /\ Forall (fun c => is_space c = false) (int_text VOLCLAVA_VERSION2_2))
    by (split; [done|]; split; [done|]; by repeat constructor).
  generalize dependent LSF_JOBIDINDEX_FILETAG. intros tag (Et & Htn & Hts). generalize dependent (int_text VOLCLAVA_VERSION2_2). intros v (Ev & Hvn & Hvs).
  rewrite <- app_assoc. pose proof (scan_word_at [] tag) as Ew. cbn [app] in Ew. rewrite Ew by (constructor || done).
  rewrite (proj2 (Z.leb_gt _ _)) by lia. rewrite <- app_comm_cons, <- app_assoc. clear Ew.
  pose proof (scan_word_at [" "%char] v) as Ew. cbn [app] in Ew. rewrite Ew; [|by repeat constructor|done..].
  rewrite (proj2 (Z.leb_gt _ _)) by lia.
  rewrite <- app_comm_cons, <- app_assoc. cbn [scan_nums]. rewrite scan_int_blank by done. rewrite Hr, <- app_comm_cons, scan_int_blank by done.
  by rewrite int32_64.
Qed.

(** ** Theorems *)

(** The row is one of the jobs': it has ids, and the bound that is printed is the
    id of one of the jobs. *)
Definition hits (min_last : bool) (jobIds : list Z) (row : Z * list Z) : bool :=
  negb (bool_decide (snd row = [])) && existsb (fun id => LSB_ARRAY_JOBID id =? printed_bound min_last (SortIntList false (snd row))) jobIds.

Lemma search_spec min_last jobIds rows :
  let num := fst (search min_last jobIds rows) in
  (num = 0 /\ forall i row, rows !! i = Some row -> (S i < length rows)%nat -> hits min_last jobIds row = false) \/
  exists i row, rows !! i = Some row /\ (S i < length rows)%nat /\ hits min_last jobIds row = true /\ num = Z.of_nat (length rows - i) /\
    forall j row', rows !! j = Some row' -> (j < i)%nat -> hits min_last jobIds row' = false.
Proof.
  induction rows as [|row rows IH]; [left; split; [done|]; by intros [|i] r|]. cbn [search]. destruct rows as [|row' rows].
  - left. split; [done|]. intros i r _ Hi. cbn in Hi. lia.
  - set (rows' := row' :: rows) in *. fold (hits min_last jobIds row). destruct (hits min_last jobIds row) eqn:Eh.
    + right. exists 0%nat, row. split; [done|]. split; [cbn; lia|]. split; [done|]. split; [done|]. intros j r _ Hj. lia.
    + cbv zeta. destruct IH as [[-> H]|(i & r & Hr & Hi & Hh & -> & H)]; [left|right].
      * split; [done|]. intros [|i] r Hr Hi; [by injection Hr as <-|]. cbn [length] in Hi. apply (H i); [done|lia].
      * exists (S i), r. split; [done|]. split; [cbn [length] in *; lia|]. split; [done|]. split; [done|].
        intros [|j] r' Hr' Hj; [by injection Hr' as <-|]. apply (H j); [done|lia].
Qed.

Lemma index_head_length rows now : 0 <= rows < 2 ^ 31 -> int32 now = true -> (length (index_head rows now) <= 79)%nat.
Proof.
  intros Hr Hn. unfold index_head. rewrite length_app. cbn [length]. rewrite length_app. cbn [length]. rewrite length_app. cbn [length].
  change (length LSF_JOBIDINDEX_FILETAG) with 21%nat. change (length (int_text VOLCLAVA_VERSION2_2)) with 2%nat.
  assert (length (int_text rows) <= 10)%nat by (apply int_text_length; lia).
  enough (length (int_text now) <= 11)%nat by lia. unfold int32 in Hn. bool_prop. destruct (Z.ltb_spec now 0) as [Hneg|Hpos].
  - assert (length (int_text (- now)) <= 10)%nat as Hl by (apply int_text_length; lia). unfold int_text in *.
    rewrite (proj2 (Z.ltb_lt now 0)) by lia. rewrite (proj2 (Z.ltb_ge (- now) 0)) in Hl by lia. cbn [length]. lia.
  - etransitivity; [apply (int_text_length 10)|]; lia.
Qed.

Lemma index_file_read min_last now s archives : archived s archives -> Forall archive_ok archives -> Z.of_nat (length archives) < 2 ^ 31 ->
  int32 now = true ->
  exists text, updateJobIdIndexFile min_last now None s (Z.of_nat (length archives)) = Some (0, Some text) /\
    initJobIdIndexS text = Some (Some (JobIdIndexS (rev (row_of <$> archives) ≫= row_text min_last) true (Z.of_nat (length archives)) 0)).
Proof.
  intros Ha Hok Hlen Hn. unfold updateJobIdIndexFile. rewrite Nat2Z.id, add_rows_all by done. cbn [mbind option_bind].
  rewrite good_i32 by done. eexists. split; [done|]. set (rows := rev (row_of <$> archives) ≫= row_text min_last).
  rewrite Z.add_0_l, <- app_assoc. fold (index_head (Z.of_nat (length archives)) now).
  assert (Hl : (length (index_head (Z.of_nat (length archives)) now) <= 79)%nat) by (apply index_head_length; [lia|done]).
  rewrite overwrite_blanks by done. unfold initJobIdIndexS. rewrite scan_index_head_at; [|lia|lia| |done|].
  - cbn [mbind option_bind]. rewrite bool_decide_eq_true_2 by done. do 3 f_equal.
    rewrite app_assoc. rewrite (cons_middle newline). rewrite app_assoc. apply drop_app_length'.
    rewrite !length_app, length_replicate. cbn [length]. lia.
  - unfold int32. apply andb_true_intro. split; apply Z.leb_le || apply Z.ltb_lt; lia.
  - by destruct (79 - _)%nat.
Qed.

(** The ids that are collected from an archive are those of its records about
    jobs, each once and from the greatest to the least. *)
Theorem archive_ids_exact t rs : int32 t = true -> job_log rs = true ->
  exists ids, getJobIdIndexFromEventFile (archive_head t ++ log_text rs) (initSortIntList false) = Some (Some t, SortIntList false ids) /\
    descending ids /\ forall id, id ∈ ids <-> id <> 0 /\ exists r, r ∈ rs /\ index_id r = id.
Proof.
  intros Ht Hl. destruct (put_ids_spec rs (initSortIntList false)) as (Hi & Hd & He); [done|constructor|].
  rewrite archive_ids by done. destruct (put_ids rs (initSortIntList false)) as [b ids]. cbn [increased values] in *. subst b.
  exists ids. split; [done|]. split; [done|]. intros id. rewrite He. set_solver.
Qed.

(** (C28) An index that has been made for the archives of the directory is opened
    and searched: the archive that is found is the oldest one of those whose
    printed bound - the least of its ids, or the greatest, as the compiler orders
    two calls - is the id of one of the jobs; the other ids of its row do not
    count, and the newest archive is never found. *)
Theorem index_search_exact min_last now s archives jobIds :
  archived s archives -> Forall archive_ok archives -> archives <> [] -> Z.of_nat (length archives) < 2 ^ 31 -> int32 now = true ->
  exists text ix num ix',
    updateJobIdIndexFile min_last now None s (Z.of_nat (length archives)) = Some (0, Some text) /\ initJobIdIndexS text = Some (Some ix) /\
    getNextFileNumFromIndexS (length archives) ix jobIds = Some (num, ix') /\
    let hit n := match archives !! n with Some a => hits min_last jobIds (row_of a) | None => false end in
    (num = 0 /\ (forall n, (0 < n)%nat -> hit n = false) \/
     exists n, num = Z.of_nat n + 1 /\ (0 < n)%nat /\ hit n = true /\ forall m, (n < m)%nat -> hit m = false).
Proof.
  intros Ha Hok Hne Hlen Hn. destruct (index_file_read min_last now s archives Ha Hok Hlen Hn) as (text & Et & Ei).
  set (rows := rev (row_of <$> archives)) in *. assert (Hrl : length rows = length archives) by (unfold rows; by rewrite length_rev, length_fmap).
  assert (Hrow : forall i, (i < length archives)%nat -> rows !! i = row_of <$> archives !! (length archives - S i)%nat).
  { intros i Hi. unfold rows. rewrite rev_alt. fold (reverse (row_of <$> archives)). rewrite reverse_lookup by (by rewrite length_fmap).
    by rewrite list_lookup_fmap, length_fmap. }
  pose proof (search_rows min_last jobIds rows (Z.of_nat (length archives))) as Hs.
  rewrite Hrl, Z.sub_diag in Hs. destruct (search min_last jobIds rows) as [num rest] eqn:Es.
  eexists text, _, num, _. split; [exact Et|]. split; [exact Ei|]. split.
  { apply Hs; [by intros E; rewrite E in Hrl; destruct archives|]. unfold rows. apply Forall_rev, Forall_fmap.
    eapply Forall_impl; [exact Hok|]. apply row_of_ok. }
  cbv zeta. pose proof (search_spec min_last jobIds rows) as H. rewrite Es, Hrl in H. cbn [fst] in H.
  assert (Hhit : forall n a, archives !! n = Some a -> rows !! (length archives - S n)%nat = Some (row_of a) /\ (n < length archives)%nat).
  { intros n a Hna. pose proof (lookup_lt_Some _ _ _ Hna). split; [|done]. rewrite Hrow by lia.
    replace (length archives - S (length archives - S n))%nat with n by lia. by rewrite Hna. }
  destruct H as [[-> H]|(i & row & Hi & Hlt & Hh & -> & H)]; [left|right].
  - split; [done|]. intros n Hpos. destruct (archives !! n) as [a|] eqn:E; [|done]. destruct (Hhit n a E) as [Hr Hl]. apply (H _ _ Hr). lia.
  - exists (length archives - S i)%nat. split; [lia|]. split; [lia|]. rewrite Hrow in Hi by lia.
    destruct (archives !! (length archives - S i)%nat) as [a|]; [|done]. injection Hi as <-. split; [done|].
    intros m Hm. destruct (archives !! m) as [a'|] eqn:E; [|done]. destruct (Hhit m a' E) as [Hr Hl]. apply (H _ _ Hr). lia.
Qed.
