(* ===== verification/LogJobs.v ===== *)
(** * The events of some jobs through all archives, [lsbatch/lib/lsb.log.c]

    [lsbGetNextJobEvent] reads an archive to its end and goes on with the next one
    and at last with the log, from the position behind the records that are in an
    archive; [bhist] calls it until there are no more events. *)

From stdpp Require Import gmap strings.
From Stdlib Require Import Ascii SpecFloat.
From S2P Require Import Prelude CString Lsb Float32 Stdio Words Grp LogBase LogEvent LogCtrl LogJob LogFile LogMain LogSelect LogRotate LogIndex.

(** The file that is open, none or one that has been closed, its number, 0 for the
    log, and the number of the last archive to read. *)
Record eventLogHandle := EventLogHandle { h_fp : option rfile; curOpenFile : Z; lastOpenFile : Z }.

Definition event_file (n : Z) : fname := if n =? 0 then FEvents else FArchive n.

(** [countLineNum], from position [cur] of the file; a byte 255 is taken for the
    end. *)
Fixpoint countLineNum (w : list ascii) (cur pos lineNum : Z) : Z :=
  match w with
  | [] => lineNum
  | c :: w =>
      if Ascii.eqb c (Ascii.ascii_of_N 255) || (pos <? cur + 1) then lineNum else
      let lineNum := if Ascii.eqb c newline then inc lineNum else lineNum in
      if cur + 1 =? pos then lineNum else countLineNum w (cur + 1) pos lineNum
  end.

(** [fscanf(newfp, "%c%d ", &ch, &pos)] and the move to the position: what is left
    then, and the line number.  A negative position is refused, and the reading
    goes on where the lines were counted. *)
Definition open_log (w : list ascii) : option (list ascii * Z) :=
  match w with
  | ch :: r =>
      match scan_int r with
      | Some (pos, r') =>
          if negb (int32 pos) then None
          else if Ascii.eqb ch "#" then
            let r'' := skip_space r' in
            let lineNum := countLineNum r'' (Z.of_nat (length w - length r'')) pos 1 in
            Some (if pos <? 0 then drop 1 r'' else drop (Z.to_nat pos) w, lineNum)
          else Some (w, 0)
      | None => Some (w, 0)
      end
  | [] => Some (w, 0)
  end.

Definition rows_left (indexS : option jobIdIndexS) : nat := match indexS with Some ix => Z.to_nat (totalRows ix - curRow ix) | None => 0 end.

(** The number of the next file and that of the last. *)
Definition next_file (jobIds : list Z) (indexS : option jobIdIndexS) (h : eventLogHandle) : option (Z * Z * option jobIdIndexS) :=
  if curOpenFile h =? 1 then Some (0, -1, indexS) else
  match indexS with
  | None => Some (curOpenFile h - 1, lastOpenFile h, None)
  | Some ix =>
      '(nextFileNumber, ix) ← getNextFileNumFromIndexS (S (rows_left indexS)) ix jobIds;
      Some (if nextFileNumber =? -1 then (curOpenFile h - 1, lastOpenFile h, Some ix)
            else if nextFileNumber =? 0 then (0, -1, Some ix)
            else (nextFileNumber, lastOpenFile h, Some ix))
  end.

Definition close_fp (fp : option rfile) : option (option rfile) :=
  match fp with None => Some None | Some f => f ← fclose f; Some (Some f) end.

(** A record, or the error; the index, the handle and the line number. *)
Fixpoint job_event (fuel : nat) (s : store) (jobIds : list Z) (indexS : option jobIdIndexS) (h : eventLogHandle) (lineNum : Z)
  : option ((Z + eventRec) * option jobIdIndexS * eventLogHandle * Z) :=
  match fuel with
  | O => None
  | S fuel =>
      '(o, fp, lineNum) ← (match h_fp h with
                           | None => Some (inl LSBE_EOF, None, lineNum)
                           | Some f => if negb (opened f) then None else
                                       '(o, w, n) ← lsbGetNextJobRecFromFile jobIds (left_ f) lineNum; Some (o, Some (RFile w true), n)
                           end);
      if (match o with inl code => code =? LSBE_EOF | inr _ => false end) && (0 <? curOpenFile h) && (lastOpenFile h <? curOpenFile h) then
        fp ← close_fp fp;
        '(num, last, indexS) ← next_file jobIds indexS h;
        match s !! event_file num with
        | None => Some (inl LSBE_SYS_CALL, indexS, EventLogHandle fp num last, 0)
        | Some w =>
            '(w, lineNum) ← (if num =? 0 then open_log w else Some (w, 0));
            job_event fuel s jobIds indexS (EventLogHandle (Some (RFile w true)) num last) lineNum
        end
      else Some (o, indexS, EventLogHandle fp (curOpenFile h) (lastOpenFile h), lineNum)
  end.
Definition lsbGetNextJobEvent (s : store) (jobIds : list Z) (indexS : option jobIdIndexS) (h : eventLogHandle) (lineNum : Z)
  : option ((Z + eventRec) * option jobIdIndexS * eventLogHandle * Z) :=
  job_event (S (Z.to_nat (curOpenFile h) + rows_left indexS)) s jobIds indexS h lineNum.

(** The loop of [bhist]: the events until the end; other errors are reported. *)
Fixpoint read_jobs (fuel : nat) (s : store) (jobIds : list Z) (indexS : option jobIdIndexS) (h : eventLogHandle) (lineNum : Z)
  : option (list eventRec) :=
  match fuel with
  | O => None
  | S fuel =>
      '(o, indexS, h, lineNum) ← lsbGetNextJobEvent s jobIds indexS h lineNum;
      match o with
      | inr r => rs ← read_jobs fuel s jobIds indexS h lineNum; Some (r :: rs)
      | inl code => if code =? LSBE_EOF then Some [] else read_jobs fuel s jobIds indexS h lineNum
      end
  end.

(** ** One file *)

(** What is left of a file, as records. *)
Definition reads_as (w : list ascii) (rs : list eventRec) : Prop := w = log_text rs \/ exists t, w = archive_head t ++ log_text rs.

Lemma archive_head_line t : head_line (archive_head t) t.
Proof. by exists 23%nat. Qed.

Lemma rec_loop_head fuel jobIds t w n : rec_loop (S fuel) jobIds (archive_head t ++ w) n = rec_loop fuel jobIds w (inc n).
Proof. cbn [rec_loop]. by rewrite (head_line_read _ _ w (archive_head_line t)). Qed.

Lemma filter_first (f : eventRec -> bool) rs :
  (List.filter f rs = [] /\ Forall (fun r => f r = false) rs) \/
  exists a r b, rs = a ++ r :: b /\ Forall (fun r => f r = false) a /\ f r = true /\ List.filter f rs = r :: List.filter f b.
Proof.
  induction rs as [|r rs IH]; [left; split; [done|constructor]|]. cbn [List.filter]. destruct (f r) eqn:E.
  - right. by exists [], r, rs.
  - destruct IH as [[-> H]|(a & r' & b & -> & Ha & Hr & ->)]; [left; split; [done|by constructor]|].
    right. exists (r :: a), r', b. split; [done|]. split; [by constructor|done].
Qed.

Lemma next_job_reads jobIds w rs n : reads_as w rs -> job_log rs = true ->
  match List.filter (wanted jobIds) rs with
  | [] => exists n', lsbGetNextJobRecFromFile jobIds w n = Some (inl LSBE_EOF, [], n')
  | r :: others => exists b n', lsbGetNextJobRecFromFile jobIds w n = Some (inr r, log_text b, n') /\ others = List.filter (wanted jobIds) b /\ job_log b = true
  end.
Proof.
  intros Hw Hl. assert (H : exists fuel n0, lsbGetNextJobRecFromFile jobIds w n = rec_loop fuel jobIds (log_text rs) n0 /\ (length rs < fuel)%nat).
  { pose proof (log_text_length rs). destruct Hw as [->|[t ->]]; unfold lsbGetNextJobRecFromFile; [eexists _, n; split; [done|lia]|].
    rewrite rec_loop_head. eexists _, _. split; [done|]. rewrite length_app. unfold archive_head. cbn [length]. lia. }
  destruct H as (fuel & n0 & -> & Hf). destruct (filter_first (wanted jobIds) rs) as [[-> Hs]|(a & r & b & -> & Ha & Hr & ->)].
  - replace fuel with (length rs + S (fuel - length rs - 1))%nat by lia. rewrite <- (app_nil_r (log_text rs)), rec_loop_skip by done. by eexists.
  - rewrite length_app in Hf. cbn [length] in Hf. unfold job_log in Hl. rewrite forallb_app in Hl. cbn [forallb] in Hl.
    apply andb_true_iff in Hl as [Hla Hl]. apply andb_true_iff in Hl as [Hlr Hlb].
    replace fuel with (length a + S (fuel - length a - 1))%nat by lia. rewrite log_text_app, rec_loop_skip, log_text_cons, rec_loop_step, Hr by done.
    by eexists b, _.
Qed.

(** ** The records of a job *)

(** The job that a record is about, by its own field; a modification names it by the
    number at the start of a text. *)
Definition job_of (e : eventLog) : option Z :=
  match e with
  | jobNewE r => Some (JobNew.jobId r) | jobModE r => fst <$> scan_int (str (JobMod.jobIdStr r)) | jobStartE r => Some (JobStart.jobId r)
  | jobStartAcceptE r => Some (JobStartAccept.jobId r) | jobStatusE r => Some (JobStatus.jobId r)
  | sbdJobStatusE r => Some (SbdJobStatus.jobId r) | jobSwitchE r => Some (JobSwitch.jobId r) | jobMoveE r => Some (JobMove.jobId r)
  | jobFinishE r => Some (JobFinish.jobId r) | chkpntE r => Some (Chkpnt.jobId r) | migE r => Some (Mig.jobId r)
  | jobAttrSetE r => Some (JobAttrSet.jobId r) | signalE r => Some (JobSignal.jobId r) | jobExecuteE r => Some (JobExecute.jobId r)
  | jobMsgE r => Some (JobMsg.jobId r) | sigactE r => Some (JobSigAct.jobId r) | jobRequeueE r => Some (JobRequeue.jobId r)
  | jobCleanE r => Some (JobClean.jobId r) | jobForceE r => Some (JobForce.jobId r) | unfulfillE r => Some (Unfulfill.jobId r)
  | queueCtrlE _ | hostCtrlE _ | mbdStartE _ | mbdDieE _ | loadIndexE _ | logSwitchE _ => None
  end.
Definition is_message (r : eventRec) : bool := match eventLog_ r with jobMsgE _ => true | _ => false end.
Definition ordinary (r : eventRec) : bool := match eventLog_ r with jobMsgE _ | unfulfillE _ => false | _ => true end.
Definition concerns (jobIds : list Z) (r : eventRec) : bool :=
  match job_of (eventLog_ r) with Some id => existsb (fun j => LSB_ARRAY_JOBID j =? id) jobIds | None => false end.

Lemma concerns_wanted jobIds r : loggable r = true -> ordinary r && concerns jobIds r = true -> wanted jobIds r = true.
Proof.
  unfold loggable, wf_event, ordinary, concerns, wanted, about_job, ended. intros Hl Hc. tests. destruct (eventLog_ r) as [] eqn:E; try discriminate;
    cbn [wf_member job_of event_job_id] in *; tests;
    match goal with H : is_type _ (type r) = true |- _ => apply is_type_elem in H; repeat (apply elem_of_cons in H as [H|H]); [..|by apply elem_of_nil in H] end;
    repeat match goal with H : type r = _ |- _ => rewrite H end; cbn [is_type existsb andb];
    repeat match goal with |- context [match ?x with Some _ => _ | None => _ end] => destruct x; try done end;
    match goal with H : existsb _ jobIds = true |- _ => rewrite H end; by rewrite orb_true_r.
Qed.

Lemma wanted_concerns jobIds r : jobIds <> [] -> loggable r = true -> wanted jobIds r = true ->
  concerns jobIds r = true \/ type r = EVENT_JOB_NEW \/ is_message r = true \/ job_of (eventLog_ r) = None.
Proof.
  unfold wanted, concerns, is_message. intros Hne Hl H. apply andb_true_iff in H as [Ha H].
  assert (Hx : forall id, event_job_id (eventLog_ r) = Some id -> type r = EVENT_JOB_NEW \/ existsb (fun j => LSB_ARRAY_JOBID j =? id) jobIds = true).
  { intros id E. rewrite E in H. rewrite bool_decide_eq_false_2 in H by done. cbn [orb] in H. apply orb_true_iff in H as [H|H]; [left; by apply Z.eqb_eq|by right]. }
  destruct (eventLog_ r) eqn:Ee; cbn [event_job_id job_of] in *; try (destruct (Hx _ eq_refl) as [?|?]; tauto); try tauto.
  - destruct (fst <$> scan_int _) as [id|]; [destruct (Hx _ eq_refl) as [?|?]; tauto|tauto].
  - exfalso. unfold loggable, wf_event in Hl. rewrite Ee in Hl. cbn [wf_member] in Hl. tests.
    match goal with H : is_type _ (type r) = true |- _ => apply is_type_elem in H; apply list_elem_of_singleton in H; unfold about_job in Ha; by rewrite H in Ha end.
Qed.

Lemma filter_filter (P W : eventRec -> bool) l : (forall x, List.In x l -> P x = true -> W x = true) ->
  List.filter P (List.filter W l) = List.filter P l.
Proof.
  induction l as [|x l IH]; intros H; [done|]. cbn [List.filter]. rewrite <- IH by (intros; apply H; [by right|done]).
  destruct (W x) eqn:E; cbn [List.filter]; [done|]. destruct (P x) eqn:Ep; [|done]. rewrite H in E; [done|by left|done].
Qed.

Lemma filter_sublist' (W : eventRec -> bool) l : List.filter W l `sublist_of` l.
Proof. induction l as [|x l IH]; [constructor|]. cbn [List.filter]. destruct (W x); by constructor. Qed.

(** ** All files *)

Section Reading.
Context (s : store) (archives : list (list eventRec)) (kept new : list eventRec) (jobIds : list Z).
Hypothesis Hholds : holds s archives kept new.
Hypothesis Hlog : job_log (concat archives ++ new) = true.
(** The position in the log is an [int]. *)
Hypothesis Hpos : forall w, s !! FEvents = Some w -> Z.of_nat (length w) < 2 ^ 31.

(** The records in the files behind the one with number [c]. *)
Definition later_files (c : nat) : list eventRec := match c with O => [] | S k => concat (rev (take k archives)) ++ new end.

Lemma job_log_app rs rs' : job_log (rs ++ rs') = job_log rs && job_log rs'.
Proof. apply forallb_app. Qed.

Lemma archive_job_log k a : archives !! k = Some a -> job_log a = true.
Proof.
  intros Ha. apply forallb_forall. intros r Hr. unfold job_log in Hlog. eapply forallb_forall in Hlog; [exact Hlog|].
  apply in_app_iff. left. apply in_concat. exists a. split; [|done]. apply list_elem_of_In. by eapply list_elem_of_lookup_2.
Qed.

Lemma new_job_log : job_log new = true.
Proof. pose proof Hlog as H. rewrite job_log_app in H. by apply andb_true_iff in H as [_ H]. Qed.

Lemma log_opens : exists w n, s !! FEvents = Some w /\ open_log w = Some (log_text new, n).
Proof.
  destruct Hholds as [(h & Hs & Hh) _ _ _]. pose proof (Hpos _ Hs) as Hb. destruct Hh as [k Eh].
  enough (E : exists n, open_log (h ++ log_text kept ++ log_text new) = Some (log_text new, n)) by (destruct E as [n E]; by eexists _, n).
  remember (Z.of_nat (length h + length (log_text kept))) as pos eqn:Ep. rewrite !length_app in Hb.
  assert (Hp : 0 <= pos < 2 ^ 31) by lia.
  assert (Hd : drop (Z.to_nat pos) (h ++ log_text kept ++ log_text new) = log_text new).
  { rewrite app_assoc. apply drop_app_length'. rewrite length_app. lia. }
  revert Hd. rewrite Eh. intros Hd. rewrite <- app_comm_cons, <- !app_assoc in *. unfold open_log.
  rewrite scan_int_at by (by destruct k). replace (int32 pos) with true by (symmetry; apply andb_true_intro; split; apply Z.leb_le || apply Z.ltb_lt; lia).
  cbn [negb]. change (Ascii.eqb "#" "#") with true. cbv iota zeta. rewrite (proj2 (Z.ltb_ge _ _)) by lia. rewrite Hd. by eexists.
Qed.

(** The file behind the one with number [S c]. *)
Lemma next_opens c : (c <= length archives)%nat -> exists w n rs,
  s !! event_file (Z.of_nat c) = Some w /\ (if Z.of_nat c =? 0 then open_log w else Some (w, 0)) = Some (n : list ascii * Z) /\
  reads_as (fst n) rs /\ job_log rs = true /\ later_files (S c) = rs ++ later_files c.
Proof.
  intros Hc. destruct c as [|k].
  - destruct log_opens as (w & n & Hw & Ho). exists w, (log_text new, n), new. split; [done|]. split; [done|]. split; [by left|].
    split; [apply new_job_log|]. cbn. by rewrite app_nil_r.
  - destruct (archives !! k) as [a|] eqn:Ea; [|apply lookup_ge_None in Ea; lia]. destruct Hholds as [_ Ha _ _]. destruct (Ha _ _ Ea) as [t Ht].
    exists (archive_head t ++ log_text a), (archive_head t ++ log_text a, 0), a. unfold event_file. rewrite (proj2 (Z.eqb_neq _ _)) by lia.
    split; [rewrite <- Ht; f_equal; f_equal; lia|]. split; [done|]. split; [right; by exists t|]. split; [by eapply archive_job_log|].
    cbn [later_files]. rewrite (take_S_r _ _ _ Ea), rev_app_distr. cbn [rev app concat]. by rewrite <- app_assoc.
Qed.

(** The handle at file [c], with these records left in it. *)
Definition reading (h : eventLogHandle) (c : nat) (rs : list eventRec) : Prop :=
  exists w, h_fp h = Some (RFile w true) /\ curOpenFile h = Z.of_nat c /\ lastOpenFile h <= 0 /\ reads_as w rs /\ job_log rs = true /\ (c <= S (length archives))%nat.

Lemma job_event_next c : forall fuel h rs n, reading h c rs -> (c < fuel)%nat ->
  match List.filter (wanted jobIds) (rs ++ later_files c) with
  | [] => exists h' n', job_event fuel s jobIds None h n = Some (inl LSBE_EOF, None, h', n')
  | r :: rest => exists h' n' c' rs', job_event fuel s jobIds None h n = Some (inr r, None, h', n') /\ reading h' c' rs' /\
                   rest = List.filter (wanted jobIds) (rs' ++ later_files c')
  end.
Proof.
  induction c as [|c IH]; intros fuel [fp cur last] rs n (w & Hfp & Hcur & Hlast & Hw & Hl & Hc) Hf;
    (destruct fuel as [|fuel]; [lia|]); cbn [h_fp curOpenFile lastOpenFile] in *; subst fp cur;
    cbn [job_event h_fp curOpenFile lastOpenFile]; cbn [opened left_ negb]; pose proof (next_job_reads jobIds w rs n Hw Hl) as Hn;
    rewrite List.filter_app; (destruct (List.filter (wanted jobIds) rs) as [|r rest];
      [destruct Hn as (n' & ->)|destruct Hn as (b & n' & -> & -> & Hb)]); cbn [mbind option_bind app];
    rewrite ?Z.eqb_refl; cbn [andb].
  - cbn [Z.of_nat Z.ltb Z.compare andb later_files List.filter]. by eexists _, _.
  - eexists _, _, 0%nat, b. split; [done|]. split; [|by rewrite List.filter_app]. eexists. repeat (split; [done|]). split; [by left|]. split; [done|lia].
  - rewrite !(proj2 (Z.ltb_lt _ _)) by lia. cbn [andb close_fp fclose opened mbind option_bind].
    destruct (next_opens c ltac:(lia)) as (w' & [w2 n2] & rs' & Hs & Ho & Hr & Hj & Hlat). cbn [fst] in Hr.
    assert (E : next_file jobIds None (EventLogHandle (Some (RFile w true)) (Z.of_nat (S c)) last) = Some (Z.of_nat c, if Z.of_nat c =? 0 then -1 else last, None)).
    { unfold next_file. cbn [curOpenFile lastOpenFile]. destruct (Z.eqb_spec (Z.of_nat (S c)) 1).
      - by replace (Z.of_nat c) with 0 by lia.
      - rewrite (proj2 (Z.eqb_neq (Z.of_nat c) 0)) by lia. f_equal. f_equal. f_equal. lia. }
    unfold next_file in *. cbn [curOpenFile lastOpenFile] in *. rewrite E. cbn [mbind option_bind]. rewrite Hs, Ho. cbn [mbind option_bind].
    rewrite Hlat. apply IH; [|lia]. eexists. split; [done|]. split; [done|]. split; [cbn; destruct (_ =? 0); lia|]. split; [done|]. split; [done|lia].
  - eexists _, _, (S c), b. split; [done|]. split; [|by rewrite List.filter_app]. eexists. repeat (split; [done|]). split; [by left|]. split; [done|lia].
Qed.

Lemma read_jobs_all fuel h c rs n : reading h c rs -> (length (List.filter (wanted jobIds) (rs ++ later_files c)) < fuel)%nat ->
  read_jobs fuel s jobIds None h n = Some (List.filter (wanted jobIds) (rs ++ later_files c)).
Proof.
  revert h c rs n. induction fuel as [|fuel IH]; intros h c rs n Hr Hf; [lia|]. cbn [read_jobs]. unfold lsbGetNextJobEvent.
  assert (Hcur : curOpenFile h = Z.of_nat c) by (by destruct Hr as (w & _ & Hcur & _)).
  pose proof (job_event_next c (S (Z.to_nat (curOpenFile h) + rows_left None)) h rs n Hr) as H. rewrite Hcur in H at 1. cbn [rows_left] in *.
  specialize (H ltac:(lia)). destruct (List.filter (wanted jobIds) (rs ++ later_files c)) as [|r rest].
  - destruct H as (h' & n' & ->). cbn. done.
  - destruct H as (h' & n' & c' & rs' & -> & Hr' & ->). cbn [mbind option_bind]. cbn [length] in Hf. rewrite (IH h' c' rs') by (done || lia). done.
Qed.

(** The handle at the oldest file, or at the log when there is no archive. *)
Definition start_handle (h : eventLogHandle) : Prop :=
  curOpenFile h = Z.of_nat (length archives) /\ lastOpenFile h <= 0 /\
  exists w, s !! event_file (Z.of_nat (length archives)) = Some w /\
    exists r n, (if Z.of_nat (length archives) =? 0 then open_log w else Some (w, 0)) = Some (r, n) /\ h_fp h = Some (RFile r true).

Lemma history_loggable : forallb loggable (history archives new) = true.
Proof.
  pose proof Hlog as H. unfold job_log in H. unfold history. rewrite forallb_forall in *. intros r Hr.
  enough (Hin : List.In r (concat archives ++ new)) by (apply H in Hin; by apply andb_true_iff in Hin as [? _]).
  apply in_app_iff in Hr as [Hr|Hr]; apply in_app_iff; [left|by right]. apply in_concat in Hr as (rs & Hrs & Hr). apply in_concat. exists rs.
  split; [by apply in_rev|done].
Qed.

(** (C27) The events of some jobs, read from the oldest archive on through all files:
    the reading ends with records of the history, in their order.  All records of
    these jobs are among them, apart from messages and from the requests that the
    master daemon could not fulfill; the others are new jobs, messages, and
    modifications that name no job by a number. *)
Theorem job_history_complete h n : jobIds <> [] -> start_handle h -> exists out,
  read_jobs (S (length (history archives new))) s jobIds None h n = Some out /\ out `sublist_of` history archives new /\
  List.filter (fun r => ordinary r && concerns jobIds r) out = List.filter (fun r => ordinary r && concerns jobIds r) (history archives new) /\
  Forall (fun r => concerns jobIds r = true \/ type r = EVENT_JOB_NEW \/ is_message r = true \/ job_of (eventLog_ r) = None) out.
Proof.
  intros Hne (Hcur & Hlast & w & Hw & r & n0 & Ho & Hfp). destruct (next_opens (length archives) ltac:(lia)) as (w' & [r' n'] & rs & Hw' & Ho' & Hr & Hj & Hlat).
  simplify_eq. cbn [fst] in Hr. assert (E : history archives new = rs ++ later_files (length archives)).
  { rewrite <- Hlat. cbn [later_files]. by rewrite firstn_all. }
  exists (List.filter (wanted jobIds) (history archives new)). split; [|split; [|split]].
  - rewrite E. apply read_jobs_all.
    + exists r. split; [done|]. split; [done|]. split; [done|]. split; [done|]. split; [done|lia].
    + rewrite <- E. pose proof (List.filter_length_le (wanted jobIds) (history archives new)). lia.
  - apply filter_sublist'.
  - apply filter_filter. intros x Hx Hc. apply concerns_wanted; [|done]. eapply forallb_forall; [apply history_loggable|done].
  - apply Forall_forall. intros x Hx%list_elem_of_In. apply filter_In in Hx as [Hin Hx]. apply wanted_concerns; [done| |done].
    eapply forallb_forall; [apply history_loggable|done].
Qed.
End Reading.
