(* ===== verification/LogOpen.v ===== *)
(** * The events of a time, [lsbatch/lib/lsb.log.c]

    [lsb_openelog] looks for the files that hold the events of a time, by the times
    when the archives were made; [lsb_getelogrec] reads from one file to the next;
    [bhist -t] shows what it reads. *)

From stdpp Require Import gmap strings.
From Stdlib Require Import Ascii SpecFloat.
From S2P Require Import Prelude CString Lsb Float32 Stdio Words Grp LogBase LogEvent LogCtrl LogJob LogFile LogMain LogSelect LogRotate LogIndex LogJobs.

(** [fscanf(elog_fp, "%c%ld", &ch, &eventTime)]; [Some None] is the old format. *)
Definition elog_time (w : list ascii) : option (option Z) :=
  match w with
  | ch :: r =>
      match scan_int r with
      | Some (t, _) => if int64 t then Some (if Ascii.eqb ch "#" then Some t else None) else None
      | None => Some None
      end
  | [] => Some None
  end.

(** How the search ends: at archive [i], with the files to read from and to. *)
Record elog_found := Found { oldFormat : bool; f_i : Z; findLast : bool; f_cur : Z; f_last : Z }.

Fixpoint find_files (fuel : nat) (s : store) (beginTime endTime i : Z) (findLast : bool) (lastOpenFile : Z) : option elog_found :=
  match s !! FArchive i with
  | Some w =>
      o ← elog_time w;
      match o with
      | None => Some (Found true i findLast (i - 1) (if findLast then lastOpenFile else i - 1))
      | Some eventTime =>
          let now := (eventTime <? endTime) && negb findLast in
          let findLast := findLast || now in
          let lastOpenFile := if now then i - 1 else lastOpenFile in
          if beginTime <? eventTime then
            match fuel with O => None | S fuel => find_files fuel s beginTime endTime (i + 1) findLast lastOpenFile end
          else Some (Found false (i - 1) findLast i lastOpenFile)
      end
  | None => Some (Found false i findLast (i - 1) (if findLast then lastOpenFile else i - 1))
  end.

(** The position in the log; without one the line number stays. *)
Definition at_position (num : Z) (w : list ascii) (lineNum : Z) : option (list ascii * Z) :=
  if num =? 0 then '(w, n) ← open_log w; Some (w, if n =? 0 then lineNum else n) else Some (w, lineNum).

(** The handle or NULL, and the line number. *)
Definition lsb_openelog (s : store) (beginTime endTime lineNum : Z) : option (option eventLogHandle * Z) :=
  f ← find_files (size s) s beginTime endTime 1 false (-1);
  let '(cur, last) := if oldFormat f && (f_cur f =? -1) then (if findLast f then (f_i f - 1, f_last f) else (0, -1))
                      else (f_cur f, f_last f) in
  let last := if cur =? last then -1 else last in
  if 0 <=? cur then
    match s !! event_file cur with
    | None => Some (None, lineNum)
    | Some w => '(w, lineNum) ← at_position cur w lineNum; Some (Some (EventLogHandle (Some (RFile w true)) cur last), lineNum)
    end
  else Some (None, lineNum).

(** A record, or [lsberrno]; without a file the result is a variable that has not
    been set.  When the next file is missing, the handle keeps the one that has
    been closed, and [lsberrno] stays. *)
Definition lsb_getelogrec (s : store) (h : eventLogHandle) (lineNum : Z) : option ((Z + eventRec) * eventLogHandle * Z) :=
  f ← h_fp h;
  '(o, f, lineNum) ← lsb_geteventrec f lineNum;
  if (match o with inl _ => true | inr _ => false end) && (0 <=? lastOpenFile h) && (lastOpenFile h <? curOpenFile h) then
    f ← fclose f;
    let '(num, last) := if curOpenFile h =? 1 then (0, -1) else (curOpenFile h - 1, lastOpenFile h) in
    match s !! event_file num with
    | None => Some (o, EventLogHandle (Some f) num last, lineNum)
    | Some w =>
        '(w, lineNum) ← at_position num w lineNum;
        '(o, f, lineNum) ← lsb_geteventrec (RFile w true) lineNum;
        Some (o, EventLogHandle (Some f) num last, lineNum)
    end
  else Some (o, EventLogHandle (Some f) (curOpenFile h) (lastOpenFile h), lineNum).

(** The test of [bhist], with the search time. *)
Definition in_time (t0 t1 : Z) (r : eventRec) : bool := (t1 =? -1) || (t0 <=? eventTime r) && (eventTime r <=? t1).

(** The loop of [bhist -t]: the events that are shown; other errors are reported,
    and at the end the file is closed. *)
Fixpoint chronicle (fuel : nat) (s : store) (t0 t1 : Z) (h : eventLogHandle) (lineNum : Z) : option (list eventRec) :=
  match fuel with
  | O => None
  | S fuel =>
      '(o, h, lineNum) ← lsb_getelogrec s h lineNum;
      match o with
      | inr r => rs ← chronicle fuel s t0 t1 h lineNum; Some (if in_time t0 t1 r then r :: rs else rs)
      | inl code => if code =? LSBE_EOF then f ← h_fp h; _ ← fclose f; Some [] else chronicle fuel s t0 t1 h lineNum
      end
  end.

(** [lsb_closeelog]. *)
Definition lsb_closeelog (h : eventLogHandle) : option eventLogHandle :=
  match h_fp h with
  | Some f => _ ← fclose f; Some (EventLogHandle None (curOpenFile h) (lastOpenFile h))
  | None => Some h
  end.

(** [lsb_getAcctFileTime] for a file that exists: the time of the first record that
    can be read; [mtime] is that of an empty file. *)
Fixpoint acct_time (fuel : nat) (f : rfile) (lineNum : Z) (empty : bool) (mtime : Z) : option Z :=
  match fuel with
  | O => None
  | S fuel =>
      '(o, f, lineNum) ← lsb_geteventrec f lineNum;
      match o with
      | inl code => if code =? LSBE_EOF then _ ← fclose f; Some (if empty then mtime else -1) else acct_time fuel f lineNum empty mtime
      | inr r => _ ← fclose f; Some (eventTime r)
      end
  end.
Definition lsb_getAcctFileTime (file : option (list ascii)) (mtime : Z) : option Z :=
  match file with
  | None => Some (-1)
  | Some w => acct_time (S (length w)) (RFile w true) 0 (length w =? 0)%nat mtime
  end.

(** ** The times of the archives *)

(** The records that a switch writes again, with their old times. *)
Definition control (r : eventRec) : bool := is_type [EVENT_HOST_CTRL; EVENT_QUEUE_CTRL] (type r).

(** [newer] are the records of the file before the archives: an archive ends at
    its time, where the next file begins, apart from records of closed hosts and
    queues that are written again; the times grow, and no archive is empty. *)
Fixpoint timed (newer : list eventRec) (archives : list (Z * list eventRec)) : Prop :=
  match archives with
  | [] => True
  | (t, rs) :: l =>
      int64 t = true /\ rs <> [] /\ Forall (fun r => control r = true \/ t <= eventTime r) newer /\ Forall (fun r => eventTime r <= t) rs /\
      match l with [] => True | (t', _) :: _ => t' < t end /\ timed rs l
  end.

Lemma timed_drop newer archives k : timed newer archives -> exists newer', timed newer' (drop k archives).
Proof.
  revert newer archives. induction k as [|k IH]; intros newer archives H; [by exists newer|].
  destruct archives as [|[t rs] l]; [by exists newer|]. cbn [drop]. destruct H as (_ & _ & _ & _ & _ & H). by eapply IH.
Qed.

Lemma timed_at newer archives k t rs : timed newer archives -> archives !! k = Some (t, rs) -> int64 t = true /\ rs <> [].
Proof.
  intros H Hk. destruct (timed_drop _ _ k H) as [n' H']. rewrite (drop_S _ _ _ Hk) in H'. by destruct H' as (H1 & H2 & _).
Qed.

(** What is older than an archive is before its time ... *)
Lemma timed_older newer archives : timed newer archives ->
  match archives with
  | [] => True
  | (t, rs) :: l => Forall (fun r => eventTime r <= t) rs /\ Forall (fun r => eventTime r < t) (concat (snd <$> l))
  end.
Proof.
  revert newer. induction archives as [|[t rs] l IH]; intros newer; [done|]. intros (_ & _ & _ & Hrs & Hlt & H).
  split; [done|]. specialize (IH _ H). destruct l as [|[t' rs'] l]; [constructor|]. destruct IH as [H1 H2]. cbn [fmap list_fmap snd concat].
  apply Forall_app. split; (eapply Forall_impl; [eassumption|]); cbn; intros r Hr; lia.
Qed.

(** ... and what is newer is not, but for what is written again. *)
Lemma timed_newer newer archives k t rs : timed newer archives -> archives !! k = Some (t, rs) ->
  Forall (fun r => control r = true \/ t <= eventTime r) (concat (snd <$> take k archives) ++ newer).
Proof.
  revert newer archives. induction k as [|k IH]; intros newer [|[t0 rs0] l] H Hk; try done.
  - injection Hk as <- <-. by destruct H as (_ & _ & H & _).
  - cbn [lookup list_lookup] in Hk. destruct H as (_ & _ & Hn & Hrs & Hlt & H). pose proof (IH _ _ H Hk) as H1.
    assert (Ht : t < t0).
    { clear -H Hlt Hk Hrs. revert t0 rs0 l H Hlt Hk Hrs. induction k as [|k IH]; intros t0 rs0 l H Hlt Hk Hrs; destruct l as [|[t' rs'] l]; try done.
      - by injection Hk as -> ->.
      - cbn in Hk. destruct H as (_ & _ & _ & Hr' & Hlt' & H). specialize (IH t' rs' l H Hlt' Hk Hr'). lia. }
    cbn [take fmap list_fmap snd concat]. apply Forall_app in H1 as [H1 H1']. rewrite !Forall_app. split; [split|]; [done|done|].
    eapply Forall_impl; [exact Hn|]. cbn. intros r [Hr|Hr]; [by left|right; lia].
Qed.

(** A switch keeps the times: what it appends to the new log is written again, or is
    the record of the switch itself. *)
Lemma switch_timed (visit : forall A, list (list ascii * A) -> list (list ascii * A)) tb now0 now lastJobId new archives :
  timed new archives -> new <> [] -> int64 now0 = true -> now0 <= now -> Forall (fun r => eventTime r <= now0) new ->
  match archives with [] => True | (t, _) :: _ => t < now0 end ->
  timed (switch_records visit tb now lastJobId) ((now0, new) :: archives).
Proof.
  intros Ht Hne Hi Hn Hr Hlt. split; [done|]. split; [done|]. split; [|by split_and!].
  assert (Hm : forall A (f : list ascii * A -> eventRec) l, (forall e, control (f e) = true) -> Forall (fun r => control r = true \/ now0 <= eventTime r) (f <$> l)).
  { intros A f l Hf. apply Forall_fmap, Forall_true. intros e. left. apply Hf. }
  unfold switch_records, writeHostCtrlEvent, writeQueueCtrlEvent. rewrite !Forall_app. split; [|split; [split|]]; [apply Hm; by intros [k [t r]]..|].
  constructor; [by right|constructor].
Qed.

Lemma log_timed new archives r : timed new archives -> match archives with [] => True | (t, _) :: _ => t <= eventTime r end -> timed (new ++ [r]) archives.
Proof.
  destruct archives as [|[t rs] l]; [done|]. intros (H1 & H2 & H3 & H4 & H5 & H6) Hr. split_and!; try done. apply Forall_app. split; [done|].
  constructor; [by right|constructor].
Qed.

(** ** The search *)

Section Window.
Context (s : store) (archives : list (Z * list eventRec)) (kept new : list eventRec).
Hypothesis Hholds : holds s (snd <$> archives) kept new.
Hypothesis Hfiles : forall k t rs, archives !! k = Some (t, rs) -> s !! FArchive (Z.of_nat k + 1) = Some (archive_head t ++ log_text rs).
Hypothesis Htimed : timed new archives.
(** The position in the log is an [int]. *)
Hypothesis Hpos : forall w, s !! FEvents = Some w -> Z.of_nat (length w) < 2 ^ 31.

Lemma elog_time_head t w : int64 t = true -> elog_time (archive_head t ++ w) = Some (Some t).
Proof. intros Ht. rewrite archive_head_app. cbn [elog_time]. rewrite scan_int_at by done. by rewrite Ht. Qed.

Definition file_records (c : nat) : list eventRec := match c with O => new | S k => default [] (snd <$> archives !! k) end.

(** The records of [n] files from number [a] on, in the order of time. *)
Definition span (a n : nat) : list eventRec := concat (rev (file_records <$> seq a n)).

Lemma span_app a n m : span a (n + m) = span (a + n) m ++ span a n.
Proof. unfold span. by rewrite seq_app, fmap_app, rev_app_distr, concat_app. Qed.

Lemma span_S a n : span a (S n) = span (S a) n ++ file_records a.
Proof. change (S n) with (1 + n)%nat. rewrite span_app, Nat.add_1_r. unfold span at 2. cbn. by rewrite app_nil_r. Qed.

Lemma span_last a n : span a (S n) = file_records (a + n) ++ span a n.
Proof. replace (S n) with (n + 1)%nat by lia. rewrite span_app. unfold span at 1. cbn. by rewrite app_nil_r. Qed.

Lemma span_archives k n : (k + n <= length archives)%nat -> span (S k) n = concat (rev (take n (drop k (snd <$> archives)))).
Proof.
  intros Hn. unfold span. do 2 f_equal. revert k Hn. induction n as [|n IH]; intros k Hn; [done|].
  destruct (archives !! k) as [[t rs]|] eqn:E; [|apply lookup_ge_None in E; lia]. cbn [seq fmap list_fmap file_records]. rewrite E.
  erewrite (drop_S (snd <$> archives)) by (by rewrite list_lookup_fmap, E). cbn [take fmap option_fmap option_map default from_option snd]. f_equal.
  apply IH. lia.
Qed.

Lemma span_history : span 0 (S (length archives)) = history (snd <$> archives) new.
Proof.
  rewrite span_S. unfold history. f_equal. rewrite span_archives by lia. rewrite drop_0, firstn_all2; [done|by rewrite length_fmap].
Qed.

Lemma span_elem r a n : r ∈ span a n -> exists c, (a <= c < a + n)%nat /\ r ∈ file_records c.
Proof.
  unfold span. rewrite list_elem_of_In, in_concat. intros (rs & Hrs & Hr). rewrite <- in_rev, <- list_elem_of_In in Hrs.
  apply list_elem_of_fmap in Hrs as (c & -> & Hc%elem_of_seq). exists c. split; [lia|]. by apply list_elem_of_In.
Qed.

Lemma older_file k t rs c r : archives !! k = Some (t, rs) -> (S k < c)%nat -> r ∈ file_records c -> eventTime r < t.
Proof.
  intros Hk Hc Hr. destruct c as [|k']; [lia|]. cbn [file_records] in Hr. destruct (archives !! k') as [[t' rs']|] eqn:E; [|by apply elem_of_nil in Hr].
  destruct (timed_drop _ _ k Htimed) as [n' H]. rewrite (drop_S _ _ _ Hk) in H. apply timed_older in H as [_ H].
  eapply Forall_forall in H; [exact H|]. cbn in Hr. apply list_elem_of_In, in_concat. exists rs'. split; [|by apply list_elem_of_In].
  apply list_elem_of_In, list_elem_of_fmap. exists (t', rs'). split; [done|]. apply (list_elem_of_lookup_2 _ (k' - S k)).
  rewrite lookup_drop. rewrite <- E. f_equal. lia.
Qed.

Lemma newer_file k t rs c r : archives !! k = Some (t, rs) -> (c <= k)%nat -> r ∈ file_records c -> control r = true \/ t <= eventTime r.
Proof.
  intros Hk Hc Hr. pose proof (timed_newer _ _ _ _ _ Htimed Hk) as H. eapply Forall_forall in H; [exact H|]. apply elem_of_app.
  destruct c as [|k']; [by right|]. left. cbn [file_records] in Hr. destruct (archives !! k') as [[t' rs']|] eqn:E; [|by apply elem_of_nil in Hr].
  cbn in Hr. apply list_elem_of_In, in_concat. exists rs'. split; [|by apply list_elem_of_In].
  apply list_elem_of_In, list_elem_of_fmap. exists (t', rs'). split; [done|]. apply (list_elem_of_lookup_2 _ k'). by rewrite lookup_take_lt by lia.
Qed.

(** What the search is to find for the begin: from the file on that is older than
    the begin, or from the oldest; ... *)
Definition from_begin (b : Z) (cur : nat) : Prop :=
  cur = length archives \/ exists k t rs, cur = S k /\ archives !! k = Some (t, rs) /\ t <= b.
(** ... for the end: to the file before the first one that ends before it. *)
Definition till_end (e : Z) (last : nat) : Prop :=
  last = O \/ exists k t rs, last = S k /\ archives !! k = Some (t, rs) /\ e <= t.

Lemma file_none : s !! FArchive (Z.of_nat (length archives) + 1) = None.
Proof. destruct Hholds as [_ _ H _]. apply H. rewrite length_fmap. lia. Qed.

Lemma find_files_ok b e k fuel fl last : (length archives - k <= fuel)%nat -> (k <= length archives)%nat ->
  (if fl : bool then exists l, last = Z.of_nat l /\ (l <= k)%nat /\ till_end e l else last = -1 /\ till_end e k) ->
  exists f cur, find_files fuel s b e (Z.of_nat k + 1) fl last = Some f /\ oldFormat f = false /\ f_cur f = Z.of_nat cur /\
    (cur <= length archives)%nat /\ from_begin b cur /\
    ((exists l, f_last f = Z.of_nat l /\ (l <= cur)%nat /\ till_end e l) \/
     (f_last f = -1 /\ exists j t rs, cur = S j /\ archives !! j = Some (t, rs) /\ e <= t <= b)).
Proof.
  revert k fl last. induction fuel as [|fuel IH]; intros k fl last Hf Hk Hl; (destruct (archives !! k) as [[t rs]|] eqn:E;
    [apply lookup_lt_Some in E as Hlt|apply lookup_ge_None in E; assert (k = length archives) as -> by lia; clear Hk]).
  1, 3: try lia.
  1: { cbn [find_files]. rewrite (Hfiles _ _ _ E). destruct (timed_at _ _ _ _ _ Htimed E) as [Ht Hne]. rewrite elog_time_head by done.
    cbn [mbind option_bind]. set (now := (t <? e) && negb fl). set (fl' := fl || now).
    set (last' := if now then Z.of_nat k + 1 - 1 else last).
    assert (Hl' : if fl' then exists l, last' = Z.of_nat l /\ (l <= k)%nat /\ till_end e l else last' = -1 /\ e <= t).
    { subst fl' last' now. destruct fl; cbn [orb negb andb]; rewrite ?andb_false_r, ?andb_true_r; [done|]. destruct Hl as [-> Hl].
      destruct (Z.ltb_spec t e); [|by split]. exists k. split; [lia|]. by split. }
    clearbody fl' last'. clear now. destruct (Z.ltb_spec b t).
    - replace (Z.of_nat k + 1 + 1) with (Z.of_nat (S k) + 1) by lia. apply IH; [lia|lia|]. destruct fl'.
      + destruct Hl' as (l & -> & ? & ?). exists l. split; [done|]. split; [lia|done].
      + destruct Hl' as [-> ?]. split; [done|]. right. by exists k, t, rs.
    - eexists _, (S k). split; [done|]. cbn [oldFormat f_cur f_last]. split; [done|]. split; [lia|]. split; [lia|].
      split; [right; by exists k, t, rs|]. destruct fl'.
      + left. destruct Hl' as (l & -> & ? & ?). exists l. split; [done|]. split; [lia|done].
      + right. destruct Hl' as [-> ?]. split; [done|]. exists k, t, rs. split; [done|]. split; [done|lia]. }
  all: cbn [find_files]; rewrite file_none; eexists _, (length archives); split; [done|]; cbn [oldFormat f_cur f_last];
    split; [done|]; split; [lia|]; split; [lia|]; split; [by left|]; left; destruct fl;
    [destruct Hl as (l & -> & ? & ?); exists l; by split|]; destruct Hl as [-> ?]; exists (length archives); split; [lia|]; by split.
Qed.

(** ** Reading *)

Definition readable (w : list ascii) (rs : list eventRec) : Prop := w = log_text rs \/ rs <> [] /\ exists t, w = archive_head t ++ log_text rs.

Lemma get_readable w rs n : readable w rs -> forallb loggable rs = true ->
  lsb_geteventrec (RFile w true) n = Some (match rs with [] => (inl LSBE_EOF, RFile [] true, inc n) | r :: rs => (inr r, RFile (log_text rs) true, inc n) end).
Proof.
  intros Hw Hl. destruct rs as [|r rs].
  - destruct Hw as [->|[? _]]; [|done]. cbn [lsb_geteventrec opened negb left_ log_text mbind list_bind]. by rewrite getNextLine_end.
  - cbn [forallb] in Hl. apply andb_true_iff in Hl as [Hr Hl]. destruct Hw as [->|(_ & t & ->)]; rewrite log_text_cons.
    + unfold loggable in Hr. apply andb_true_iff in Hr as [??]. by apply get_text.
    + apply (get_behind_head _ t); [apply archive_head_line|done].
Qed.

Lemma file_loggable c : forallb loggable (file_records c) = true.
Proof.
  destruct Hholds as [_ _ _ H]. rewrite !forallb_app in H. apply andb_true_iff in H as [Ha H]. apply andb_true_iff in H as [_ Hn].
  destruct c as [|k]; [done|]. cbn [file_records]. destruct (archives !! k) as [[t rs]|] eqn:E; [|done]. cbn.
  apply forallb_forall. intros r Hr. eapply forallb_forall in Ha; [exact Ha|]. apply in_concat. exists rs. split; [|done].
  apply list_elem_of_In, list_elem_of_fmap. exists (t, rs). split; [done|]. by eapply list_elem_of_lookup_2.
Qed.

Lemma file_opens c n : (c <= length archives)%nat -> exists w w' n', s !! event_file (Z.of_nat c) = Some w /\
  at_position (Z.of_nat c) w n = Some (w', n') /\ readable w' (file_records c).
Proof.
  intros Hc. unfold event_file, at_position. destruct c as [|k].
  - destruct (log_opens s _ kept new Hholds Hpos) as (w & m & Hw & Ho). exists w. cbn [Z.of_nat Z.eqb]. rewrite Ho. cbn [mbind option_bind].
    eexists _, _. split; [done|]. split; [done|]. by left.
  - destruct (archives !! k) as [[t rs]|] eqn:E; [|apply lookup_ge_None in E; lia]. rewrite (proj2 (Z.eqb_neq _ _)) by lia.
    exists (archive_head t ++ log_text rs). eexists _, _. split; [rewrite <- (Hfiles _ _ _ E); f_equal; f_equal; lia|]. split; [done|].
    cbn [file_records]. rewrite E. right. split; [by apply (timed_at _ _ _ _ _ Htimed E)|by exists t].
Qed.

(** The handle at file [c] with these records left in it, on the way to file [l]. *)
Definition walking (l : nat) (h : eventLogHandle) (c : nat) (rs : list eventRec) : Prop :=
  exists w, h_fp h = Some (RFile w true) /\ curOpenFile h = Z.of_nat c /\ readable w rs /\ forallb loggable rs = true /\
    (c <= length archives)%nat /\ (l <= c)%nat /\ (lastOpenFile h = Z.of_nat l \/ l = c /\ lastOpenFile h = -1).

Lemma getelogrec_next l h c rs n : walking l h c rs -> exists o h' n', lsb_getelogrec s h n = Some (o, h', n') /\
  match rs ++ span l (c - l) with
  | [] => o = inl LSBE_EOF /\ exists f, h_fp h' = Some f /\ opened f = true
  | r :: rest => o = inr r /\ exists c' rs', walking l h' c' rs' /\ rest = rs' ++ span l (c' - l)
  end.
Proof.
  destruct h as [fp cur last]. unfold walking at 1. cbn [h_fp curOpenFile lastOpenFile]. intros (w & -> & -> & Hw & Hl & Hc & Hlc & Hlast). unfold lsb_getelogrec. cbn [h_fp curOpenFile lastOpenFile mbind option_bind].
  rewrite (get_readable _ _ _ Hw Hl). destruct rs as [|r rs]; cbn [app].
  2: { cbn [andb mbind option_bind]. eexists _, _, _. split; [done|]. split; [done|]. exists c, rs. split; [|done]. eexists.
       split; [done|]. split; [done|]. split; [by left|]. cbn [forallb] in Hl. apply andb_true_iff in Hl as [_ Hl]. by split. }
  cbn [mbind option_bind andb]. destruct (decide (l = c)) as [->|Hne].
  - replace (_ && _) with false by (destruct Hlast as [->|[_ ->]]; [by rewrite Z.ltb_irrefl, andb_false_r|done]).
    eexists _, _, _. split; [done|]. rewrite Nat.sub_diag. cbn. split; [done|]. by eexists.
  - destruct Hlast as [->|[? _]]; [|lia]. rewrite (proj2 (Z.leb_le _ _)), (proj2 (Z.ltb_lt _ _)) by lia. cbn [andb fclose opened mbind option_bind left_].
    destruct c as [|k]; [lia|]. replace (if Z.of_nat (S k) =? 1 then (0, -1) else (Z.of_nat (S k) - 1, Z.of_nat l)) with (Z.of_nat k, if Z.of_nat k =? 0 then -1 else Z.of_nat l)
      by (destruct (Z.eqb_spec (Z.of_nat (S k)) 1), (Z.eqb_spec (Z.of_nat k) 0); f_equal; lia).
    destruct (file_opens k (inc n)) as (w' & w2 & n2 & -> & -> & Hr); [lia|]. cbn [mbind option_bind].
    rewrite (get_readable _ _ _ Hr (file_loggable k)). replace (S k - l)%nat with (S (k - l)) by lia. rewrite span_last.
    replace (l + (k - l))%nat with k by lia. pose proof (file_loggable k) as Hk. destruct (file_records k) as [|r rs] eqn:Er; cbn [mbind option_bind].
    + eexists _, _, _. split; [done|]. destruct k as [|k'].
      * cbn. split; [done|]. by eexists.
      * exfalso. cbn [file_records] in Er. destruct (archives !! k') as [[t rs]|] eqn:E; [|apply lookup_ge_None in E; lia].
        by destruct (timed_at _ _ _ _ _ Htimed E).
    + eexists _, _, _. split; [done|]. cbn [app]. split; [done|]. exists k, rs. split; [|done]. eexists. split; [done|]. split; [done|]. split; [by left|].
      cbn [forallb] in Hk. apply andb_true_iff in Hk as [_ Hk]. split; [done|]. split; [lia|]. split; [lia|]. cbn [lastOpenFile].
      destruct (Z.eqb_spec (Z.of_nat k) 0); [right; by split; [lia|]|by left].
Qed.

Lemma chronicle_all t0 t1 fuel l h c rs n : walking l h c rs -> (length (rs ++ span l (c - l)) < fuel)%nat ->
  chronicle fuel s t0 t1 h n = Some (List.filter (in_time t0 t1) (rs ++ span l (c - l))).
Proof.
  revert h c rs n. induction fuel as [|fuel IH]; intros h c rs n Hw Hf; [lia|]. cbn [chronicle].
  destruct (getelogrec_next l h c rs n Hw) as (o & h' & n' & -> & H). cbn [mbind option_bind]. destruct (rs ++ span l (c - l)) as [|r rest].
  - destruct H as (-> & f & -> & Ho). cbn. unfold fclose. by rewrite Ho.
  - destruct H as (-> & c' & rs' & Hw' & ->). cbn [length] in Hf. rewrite (IH _ _ _ _ Hw') by lia. cbn [mbind option_bind List.filter].
    by destruct (in_time t0 t1 r).
Qed.

Lemma filter_nothing (f : eventRec -> bool) rs : (forall r, r ∈ rs -> f r = false) -> List.filter f rs = [].
Proof.
  intros H. induction rs as [|r rs IH]; [done|]. cbn [List.filter]. rewrite H by set_solver. apply IH. set_solver.
Qed.

(** The files that are left out have no event of the time, but for what is written
    again. *)
Lemma window_split b e cur l : 0 <= b <= e -> (forall a, a ∈ archives -> e <> fst a) -> (l <= cur)%nat -> (cur <= length archives)%nat ->
  from_begin b cur -> till_end e l ->
  exists older newer, history (snd <$> archives) new = older ++ (file_records cur ++ span l (cur - l)) ++ newer /\
    Forall (fun r => in_time b e r = false) older /\ Forall (fun r => in_time b e r = true -> control r = true) newer.
Proof.
  intros Hbe Hne Hl Hc Hb He. rewrite <- span_history. replace (S (length archives)) with (l + (S (cur - l) + (length archives - cur)))%nat by lia.
  rewrite !span_app. exists (span (0 + l + S (cur - l)) (length archives - cur)), (span 0 l). split; [|split].
  - cbn [Nat.add]. rewrite span_last. replace (l + (cur - l))%nat with cur by lia. by rewrite <- app_assoc.
  - apply Forall_forall. intros r (c & Hc' & Hr)%span_elem. destruct Hb as [->|(k & t & rs & -> & E & Ht)]; [lia|].
    pose proof (older_file _ _ _ c r E ltac:(lia) Hr). unfold in_time. by rewrite (proj2 (Z.eqb_neq _ _)), (proj2 (Z.leb_gt b _)) by lia.
  - apply Forall_forall. intros r (c & Hc' & Hr)%span_elem. destruct He as [->|(k & t & rs & -> & E & Ht)]; [lia|].
    destruct (newer_file _ _ _ c r E ltac:(lia) Hr) as [?|?]; [done|]. specialize (Hne (t, rs) ltac:(by eapply list_elem_of_lookup_2)). cbn in Hne. unfold in_time.
    rewrite (proj2 (Z.eqb_neq _ _)), (proj2 (Z.leb_gt _ e)) by lia. by rewrite andb_false_r.
Qed.

Lemma archives_fit : (length archives <= size s)%nat.
Proof.
  apply archives_size. intros j Hj. destruct (archives !! Z.to_nat (j - 1)) as [[t rs]|] eqn:E; [|apply lookup_ge_None in E; lia].
  pose proof (Hfiles _ _ _ E) as H. replace (Z.of_nat (Z.to_nat (j - 1)) + 1) with j in H by lia. by rewrite H.
Qed.

(** The search from the first archive on, and the opening of the file. *)
Lemma openelog_ok b e n : exists cur last h n', lsb_openelog s b e n = Some (Some h, n') /\ (cur <= length archives)%nat /\ from_begin b cur /\
  (exists w, h = EventLogHandle (Some (RFile w true)) (Z.of_nat cur) (if Z.of_nat cur =? last then -1 else last) /\ readable w (file_records cur)) /\
  ((exists l, last = Z.of_nat l /\ (l <= cur)%nat /\ till_end e l) \/
   (last = -1 /\ exists j t rs, cur = S j /\ archives !! j = Some (t, rs) /\ e <= t <= b)).
Proof.
  destruct (find_files_ok b e 0 (size s) false (-1)) as (f & cur & Hf & Ho & Hcur & Hc & Hb & Hl); [pose proof archives_fit; lia|lia|by split; [|left]|].
  unfold lsb_openelog. change (Z.of_nat 0 + 1) with 1 in Hf. rewrite Hf. cbn [mbind option_bind]. rewrite Ho. cbn [andb]. rewrite Hcur.
  rewrite (proj2 (Z.leb_le _ _)) by lia. destruct (file_opens cur n Hc) as (w & w' & n' & -> & -> & Hr). cbn [mbind option_bind].
  eexists cur, (f_last f), _, _. split; [done|]. split; [done|]. split; [done|]. split; [|done]. by eexists.
Qed.

(** (C29) The chronicle of a time that does not end in the second of a switch: the
    reading ends, and gives the events of that time in one part of the history, in
    order.  No event before this part is of the time, and behind it only records of
    closed hosts and queues that a switch has written again; so all other events of
    the time are shown. *)
Theorem chronicle_complete b e : 0 <= b <= e -> (forall a, a ∈ archives -> e <> fst a) ->
  exists h n older part newer, lsb_openelog s b e 0 = Some (Some h, n) /\
    chronicle (S (length (history (snd <$> archives) new))) s b e h n = Some (List.filter (in_time b e) part) /\
    history (snd <$> archives) new = older ++ part ++ newer /\
    Forall (fun r => in_time b e r = false) older /\ Forall (fun r => in_time b e r = true -> control r = true) newer.
Proof.
  intros Hbe Hne. destruct (openelog_ok b e 0) as (cur & last & h & n & Ho & Hc & Hb & (w & Eh & Hr) & Hl).
  destruct Hl as [(l & -> & Hlc & He)|(_ & j & t & rs & _ & E & Ht)].
  2: { exfalso. apply (Hne (t, rs)); [by eapply list_elem_of_lookup_2|]. cbn. lia. }
  destruct (window_split b e cur l Hbe Hne Hlc Hc Hb He) as (older & newer & Eh' & H1 & H2).
  exists h, n, older, (file_records cur ++ span l (cur - l)), newer. split; [done|]. split; [|by split_and!]. apply chronicle_all.
  - exists w. subst h. cbn [h_fp curOpenFile lastOpenFile]. split; [done|]. split; [done|]. split; [done|]. split; [apply file_loggable|].
    split; [done|]. split; [done|]. destruct (Z.eqb_spec (Z.of_nat cur) (Z.of_nat l)); [right; split; [lia|done]|by left].
  - rewrite Eh', !length_app. lia.
Qed.

(** ** Jobs since a time *)

(** Without an end the search gives none, or the file that is opened. *)
Lemma find_files_open e b k fuel : (length archives - k <= fuel)%nat -> (k <= length archives)%nat -> (forall a, a ∈ archives -> e <= fst a) ->
  exists f, find_files fuel s b e (Z.of_nat k + 1) false (-1) = Some f /\ (f_last f = -1 \/ f_last f = f_cur f).
Proof.
  revert k. induction fuel as [|fuel IH]; intros k Hf Hk He; (destruct (archives !! k) as [[t rs]|] eqn:E;
    [apply lookup_lt_Some in E as Hlt; try lia|apply lookup_ge_None in E; assert (k = length archives) as -> by lia]);
    cbn [find_files]; [|rewrite (Hfiles _ _ _ E)|]; [rewrite file_none; eexists; split; [done|by right]| |rewrite file_none; eexists; split; [done|by right]].
  destruct (timed_at _ _ _ _ _ Htimed E) as [Ht _]. rewrite elog_time_head by done. cbn [mbind option_bind].
  specialize (He (t, rs) ltac:(by eapply list_elem_of_lookup_2)) as Het. cbn [fst] in Het. rewrite (proj2 (Z.ltb_ge t e)) by lia. cbn [andb orb].
  destruct (b <? t); [|eexists; split; [done|by left]]. replace (Z.of_nat k + 1 + 1) with (Z.of_nat (S k) + 1) by lia. apply IH; [lia|lia|done].
Qed.

Lemma later_span c : (c <= S (length archives))%nat -> later_files (snd <$> archives) new c = span 0 c.
Proof.
  intros Hc. destruct c as [|k]; [done|]. cbn [later_files]. rewrite span_S. cbn [file_records]. f_equal. by rewrite span_archives by lia.
Qed.

(** The query for some jobs since a time, without an index: all events of
    these jobs are read but those of files that end before that time. *)
Theorem job_query_complete jobIds b : job_log (concat (snd <$> archives) ++ new) = true -> (forall a, a ∈ archives -> 0 <= fst a) ->
  exists h n older rest, lsb_openelog s b (-1) 0 = Some (Some h, n) /\ history (snd <$> archives) new = older ++ rest /\
    Forall (fun r => eventTime r < b) older /\
    read_jobs (S (length (history (snd <$> archives) new))) s jobIds None h n = Some (List.filter (wanted jobIds) rest).
Proof.
  intros Hlog Ht. destruct (openelog_ok b (-1) 0) as (cur & last & h & n & Ho & Hc & Hb & (w & Eh & Hr) & _).
  assert (Hlast : lastOpenFile h = -1).
  { destruct (find_files_open (-1) b 0 (size s)) as (f & Hf & Hl); [pose proof archives_fit; lia|lia|intros a Ha; specialize (Ht a Ha); lia|].
    destruct (find_files_ok b (-1) 0 (size s) false (-1)) as (f' & cur' & Hf' & Hold & _); [pose proof archives_fit; lia|lia|by split; [|left]|].
    rewrite Hf in Hf'. injection Hf' as <-. unfold lsb_openelog in Ho. change (Z.of_nat 0 + 1) with 1 in Hf. rewrite Hf in Ho.
    cbn [mbind option_bind] in Ho. rewrite Hold in Ho. cbn [andb] in Ho. destruct (0 <=? f_cur f); [|done]. destruct (s !! event_file (f_cur f)); [|done].
    destruct (at_position _ _ _) as [[? ?]|]; [|done]. cbn in Ho. injection Ho as <- _. cbn [lastOpenFile]. destruct (Z.eqb_spec (f_cur f) (f_last f)); [done|].
    by destruct Hl. }
  exists h, n, (span (S cur) (length archives - cur)), (span 0 (S cur)). split; [done|].
  assert (Eh' : history (snd <$> archives) new = span (S cur) (length archives - cur) ++ span 0 (S cur)).
  { rewrite <- span_history. replace (S (length archives)) with (S cur + (length archives - cur))%nat by lia. apply span_app. }
  split; [done|]. split.
  { apply Forall_forall. intros r (c & Hc' & Hin)%span_elem. destruct Hb as [->|(k & t & rs & -> & E & Hle)]; [lia|].
    pose proof (older_file _ _ _ c r E ltac:(lia) Hin). lia. }
  rewrite (span_last 0), Nat.add_0_l, <- later_span by lia.
  eapply (read_jobs_all s (snd <$> archives) kept new jobIds Hholds Hlog Hpos).
  - exists w. rewrite Hlast. rewrite Eh. split; [done|]. split; [done|]. split; [lia|]. split; [destruct Hr as [?|[_ ?]]; [by left|by right]|].
    split; [|rewrite length_fmap; lia]. rewrite job_log_app in Hlog. apply andb_true_iff in Hlog as [Ha Hn]. destruct cur as [|k]; [done|]. cbn [file_records].
    destruct (archives !! k) as [[t rs]|] eqn:E; [|done]. cbn. apply forallb_forall. intros r Hin. unfold job_log in Ha.
    eapply forallb_forall in Ha; [exact Ha|]. apply in_concat. exists rs. split; [|done]. apply list_elem_of_In, list_elem_of_fmap. exists (t, rs). split; [done|].
    by eapply list_elem_of_lookup_2.
  - rewrite Eh', length_app, (span_last 0), Nat.add_0_l, <- later_span by lia.
    pose proof (List.filter_length_le (wanted jobIds) (file_records cur ++ later_files (snd <$> archives) new cur)). lia.
Qed.
End Window.
