(* ===== verification/LogExamples.v ===== *)
(** * Samples of the event log

    Records, logs and archives on which the theorems about the event log are
    applied, and some on which its functions fail. *)

From stdpp Require Import gmap strings.
From Stdlib Require Import Ascii SpecFloat.
From S2P Require Import Prelude CString Lsb Jarray Float32 Stdio Words Grp LogBase LogEvent LogCtrl LogJob LogFile LogMain LogSelect LogRotate LogIndex LogJobs LogOpen.

(** ** Records *)

Definition in_quotes (a b : string) : list ascii := lit a ++ quote :: lit b ++ [quote].

(** A new interactive job with two hosts, a file to copy, a limit in kilobytes and
    quotes in its command. *)
Definition sample_new : eventRec := EventRec (lit "22") EVENT_JOB_NEW 1700000000 (jobNewE
  (JobNew.JobNewLog 101 1000 (lit "alice") (SUB_INTERACTIVE + SUB_POST_EXEC) SUB2_BSUB_BLOCK 2 1699999000 0 0 (-1) 0 0
     [-1; 2048; -1; -1; -1; -1; -1; -1; -1; -1; -1] (lit "") (f32_of_Z 1) 18 (lit "normal") (Some (lit "mem > 10"))
     (lit "hosta") (lit "/home/alice") (lit "") (lit "") (lit "") (lit "") (lit "") (lit "") (lit "") (lit "/home/alice")
     (lit "1699999000.101") 2 [lit "hosta"; lit "hostb"] (Some (lit "")) (lit "j1") (in_quotes "echo " "hi") 1
     [XFile (lit "in.dat") (lit "/tmp/in.dat") 1] (Some (lit "")) (Some (lit "cleanup")) (Some (lit "")) (Some (lit "default"))
     4242 2 (Some (lit "LINUX")) (Some (lit "")) 0 (-1) (lit "a test") (lit ""))).

Definition sample_start : eventRec := EventRec (lit "22") EVENT_JOB_START 1700000010 (jobStartE
  (JobStart.JobStartLog 101 4 4711 4711 (f32_of_Z 2) 1 [lit "hosta"] (Some (lit "")) (Some (lit "")) 0 0 (Some (lit "select[mem > 10]")))).

Definition sample_status : eventRec := EventRec (lit "22") EVENT_JOB_STATUS 1700000020 (jobStatusE
  (JobStatus.JobStatusLog 101 64 0 0 (f32_of_Z 12) 1700000020 1 Rusage.no_rusage 0 0 0 1024 512)).

Definition sample_switch : eventRec := EventRec (lit "22") EVENT_LOG_SWITCH 1700000030 (logSwitchE (LogSwitch.LogSwitchLog 101)).

Definition sample_sbd : eventRec := EventRec (lit "22") EVENT_SBD_JOB_STATUS 1700000040 (sbdJobStatusE
  (SbdJobStatus.SbdJobStatusLog 101 4 0 0 0 (-1) 0 0 0 0 0 0)).

Definition sample_log : list eventRec := [sample_new; sample_start; sample_status; sample_switch].


Lemma log_roundtrip_witness :
  exists text, put_all sample_log (WFile [] None) = Some (inr tt, WFile text None) /\
    read_log (S (length sample_log)) (RFile text true) 0 = Some (inr <$> sample_log, RFile [] false).
Proof. apply log_roundtrip. vm_compute. reflexivity. Defined.

Lemma full_disk_keeps_log_witness :
  exists text record,
    put_all sample_log (WFile [] None) = Some (inr tt, WFile text None) /\
    lsb_puteventrec sample_start (WFile text None) = Some (inr tt, WFile (text ++ record) None) /\
    lsb_puteventrec sample_start (WFile text (Some 20%nat)) = Some (inl LSBE_SYS_CALL, WFile (text ++ take 20 record) (Some 0%nat)) /\
    forall k', reads (RFile (text ++ take k' record) true) 0 sample_log (RFile (take k' record) true) (Nat.iter (length sample_log) inc 0).
Proof. apply (full_disk_keeps_log sample_log sample_start 20); vm_compute; [reflexivity|reflexivity|lia]. Defined.

(** The start of a job in the log of version 2.1. *)
Definition q (s : string) : list ascii := quote :: lit s ++ [quote].
Definition old_start_line : list ascii :=
  q "JOB_START" ++ lit " " ++ q "21" ++ lit " 1600000000 7 4 100 100 1.0 1 " ++ q "hosta" ++ lit " " ++ q "" ++ lit " " ++ q "" ++ lit " 0 0" ++ [newline].
Definition old_start : eventRec := EventRec (lit "21") EVENT_JOB_START 1600000000 (jobStartE
  (JobStart.JobStartLog 7 4 100 100 (f32_of_Z 1) 1 [lit "hosta"] (Some []) (Some []) 0 0 None)).

Lemma old_start_not_writable_witness : lsb_puteventrec old_start (WFile [] None) = None.
Proof.
  apply (old_start_not_writable (RFile old_start_line true) 0 old_start (RFile [] true) 1 []); [vm_compute; reflexivity..].
Defined.

(** ** Lines that are not handled *)

(** What the writer puts into an empty file. *)
Definition text_of (m : M wfile unit) : option (list ascii) :=
  match m (WFile [] None) with Some (inr _, f) => Some (written f) | _ => None end.

(** What the loop of the master daemon makes of it. *)
Definition read_text (w : list ascii) : list (Z + eventRec) :=
  match read_log 10 (RFile w true) 0 with Some (es, _) => es | None => [] end.

(** The name of a host in a migration request is read into 64 bytes, however long
    it is. *)
Example mig_host_overflows :
  lsb_geteventrec (RFile (q "MIG" ++ lit " " ++ q "22" ++ lit " 100 7 1 " ++ quote :: replicate 64 "h"%char ++ [quote] ++
                          lit " 0 0 " ++ q "root" ++ [newline]) true) 0 = None.
Proof. vm_compute. reflexivity. Qed.

(** A line that ends after a string is read past its end. *)
Example short_line_undefined :
  lsb_geteventrec (RFile (q "JOB_SWITCH" ++ lit " " ++ q "22" ++ lit " 100 0 7 " ++ q "normal" ++ [newline]) true) 0 = None.
Proof. vm_compute. reflexivity. Qed.

(** A log whose last line is a comment is closed twice. *)
Example hash_closes_twice : read_log 3 (RFile (lit "#12" ++ [newline]) true) 0 = None.
Proof. vm_compute. reflexivity. Qed.

(** The line number counts the records, not the lines that are passed over. *)
Example hash_not_counted :
  lsb_geteventrec (RFile (lit "#12" ++ [newline] ++ q "LOG_SWITCH" ++ lit " " ++ q "22" ++ lit " 1700000030 101 " ++ [newline]) true) 0 =
    Some (inr sample_switch, RFile [] true, 1).
Proof. vm_compute. reflexivity. Qed.

(** Two records of the slave daemon in one file: the second is lost. *)
Example sbd_records_run_together :
  read_text <$> text_of (put_all [sample_sbd; sample_sbd]) = Some [inr sample_sbd].
Proof. vm_compute. reflexivity. Qed.

(** A quote in the name of a file to copy is not doubled, so the record is not
    read back. *)
Definition bad_file : eventRec := EventRec (lit "22") EVENT_JOB_NEW 1700000000 (jobNewE
  (JobNew.JobNewLog 101 1000 (lit "alice") 0 0 1 0 0 0 (-1) 0 0
     [-1; -1; -1; -1; -1; -1; -1; -1; -1; -1; -1] (lit "") (f32_of_Z 1) 18 (lit "normal") (Some (lit ""))
     (lit "hosta") (lit "/") (lit "") (lit "") (lit "") (lit "") (lit "") (lit "") (lit "") (lit "/") (lit "f") 0 [] (Some (lit "")) (lit "")
     (lit "date") 1 [XFile (in_quotes "a" "b") (lit "c") 1] (Some (lit "")) None (Some (lit "")) (Some (lit "default"))
     0 1 (Some (lit "LINUX")) (Some (lit "")) 0 (-1) (lit "") (lit ""))).

Example file_quote_not_read : read_text <$> text_of (lsb_puteventrec bad_file) = Some [inl LSBE_EVENT_FORMAT].
Proof. vm_compute. reflexivity. Qed.

(** A job name with a line feed, which is not removed as it is in a command, splits
    the record. *)
Definition with_name (name : list ascii) : eventRec := EventRec (lit "22") EVENT_JOB_NEW 1700000000 (jobNewE
  (JobNew.JobNewLog 101 1000 (lit "alice") 0 0 1 0 0 0 (-1) 0 0
     [-1; -1; -1; -1; -1; -1; -1; -1; -1; -1; -1] (lit "") (f32_of_Z 1) 18 (lit "normal") (Some (lit ""))
     (lit "hosta") (lit "/") (lit "") (lit "") (lit "") (lit "") (lit "") (lit "") (lit "") (lit "/") (lit "f") 0 [] (Some (lit "")) name
     (lit "date") 0 [] (Some (lit "")) None (Some (lit "")) (Some (lit "default"))
     0 1 (Some (lit "LINUX")) (Some (lit "")) 0 (-1) (lit "") (lit ""))).

Example name_newline_splits :
  read_text <$> text_of (lsb_puteventrec (with_name (lit "a" ++ newline :: lit "b"))) =
    Some [inl LSBE_EVENT_FORMAT; inl LSBE_EVENT_FORMAT].
Proof. vm_compute. reflexivity. Qed.

(** ** Switching *)

Definition no_host : list ascii -> option (list ascii) := fun _ => None.
Definition in_order : forall A, list (list ascii * A) -> list (list ascii * A) := fun _ t => t.
Lemma in_order_perm : forall A (t : list (list ascii * A)), Permutation (in_order A t) t.
Proof. done. Qed.

Definition sample_close : eventRec := EventRec (lit "22") EVENT_HOST_CTRL 1700000015 (hostCtrlE
  (HostCtrl.HostCtrlLog HOST_CLOSE (lit "hosta") 0 (lit "root") (lit "disk failure"))).
Definition sample_events : list eventRec := [sample_new; sample_close; sample_start].
Definition sample_store : gmap fname (list ascii) := {[FEvents := new_head ++ log_text sample_events]}.

(** Job 101 is running, host [hosta] is closed. *)
Definition sample_core : core := Core {[101 := 1700000005]} [] {[lit "hosta" := HOST_STAT_DISABLED]} [].

Lemma sample_holds : holds sample_store [] [] sample_events.
Proof.
  constructor.
  - exists new_head. split; [reflexivity|]. by exists 76%nat.
  - intros i rs Hi. by destruct i.
  - intros n Hn. reflexivity.
  - vm_compute. reflexivity.
Qed.

Lemma switch_keeps_history_witness :
  let extra := switch_records in_order (tables_of no_host sample_core ([] ++ sample_events) no_tables) 1700000100 101 in
  exists s' w, switch_log sample_limits sample_globals no_host in_order sample_core 1700000100 1700000100 101 no_faults sample_store = Some (0, s') /\
    holds s' [sample_events] (kept_of sample_limits sample_globals sample_core ([] ++ sample_events)) extra /\
    history [sample_events] extra = history [] sample_events ++ extra /\
    s' !! FEvents = Some w /\
    read_log (S (length (kept_of sample_limits sample_globals sample_core ([] ++ sample_events) ++ extra))) (RFile w true) 0 =
      Some (inr <$> (kept_of sample_limits sample_globals sample_core ([] ++ sample_events) ++ extra), RFile [] false).
Proof.
  apply (switch_keeps_history sample_limits sample_globals no_host in_order in_order_perm sample_core 1700000100 1700000100 101 sample_store [] [] sample_events sample_holds).
  - discriminate.
  - repeat constructor; vm_compute; eexists; reflexivity.
  - vm_compute. reflexivity.
  - vm_compute. reflexivity.
  - reflexivity.
  - reflexivity.
Defined.

(** A stream of the new log that fails after 50 characters, and a disk where archive
    0 cannot be renamed. *)
Definition small_disk : disk := Disk None (Some 50%nat) None true true true true (fun _ => true).
Definition stuck_disk : disk := Disk None None None true true true true (fun i => negb (i =? 0)).
Definition full_store : gmap fname (list ascii) := <[FArchive 0 := archive_head 1700000100 ++ log_text sample_events]> sample_store.
Lemma failed_switch_keeps_log_witness :
  switch_log sample_limits sample_globals no_host in_order sample_core 1700000100 1700000100 101 small_disk sample_store = Some (-1, full_store) /\
  ((forall f, f <> FArchive 0 -> f <> FTmp -> full_store !! f = sample_store !! f) \/
   (exists k s0, 0 <= k /\ renames small_disk k = false /\ createEvent0File 1700000100 small_disk sample_store = Some (true, s0) /\
     (forall j, j <> 0 -> s0 !! FArchive j = sample_store !! FArchive j) /\ stopped_at k s0 full_store)).
Proof.
  split; [vm_compute; reflexivity|].
  apply (failed_switch_keeps_log sample_limits sample_globals no_host in_order sample_core 1700000100 1700000100 101 small_disk sample_store full_store).
  vm_compute. reflexivity.
Defined.

Lemma failed_rename_keeps_history_witness :
  let extra := switch_records in_order (tables_of no_host sample_core ([] ++ sample_events) no_tables) 1700000100 101 in
  exists s2 s', switch_log sample_limits sample_globals no_host in_order sample_core 1700000100 1700000100 101 stuck_disk sample_store = Some (-1, s') /\
    replaced s2 1700000100 [] (kept_of sample_limits sample_globals sample_core ([] ++ sample_events)) sample_events extra /\
    stopped_at 0 s2 s' /\ s' !! FEvents = s2 !! FEvents.
Proof.
  apply (failed_rename_keeps_history sample_limits sample_globals no_host in_order in_order_perm sample_core 1700000100 1700000100 101 stuck_disk sample_store [] [] sample_events 0 sample_holds).
  - discriminate.
  - repeat constructor; vm_compute; eexists; reflexivity.
  - vm_compute. reflexivity.
  - vm_compute. reflexivity.
  - reflexivity.
  - reflexivity.
  - repeat split.
  - cbn. lia.
  - reflexivity.
  - cbn. intros j Hj. lia.
Defined.

(** After a switch whose renaming failed, the next one writes archive 0 anew: what
    had been moved there is gone. *)
Example failed_rename_then_lost :
  ('(_, s1) ← switch_log sample_limits sample_globals no_host in_order sample_core 1700000100 1700000100 101 stuck_disk sample_store;
   '(code, s2) ← switch_log sample_limits sample_globals no_host in_order sample_core 1700000200 1700000200 101 no_faults s1;
   Some (code, s1 !! FArchive 0, (fun w => fst <$> read_log 5 (RFile w true) 0) <$> s2 !! FArchive 1, s2 !! FArchive 2)) =
  Some (0, Some (archive_head 1700000100 ++ log_text sample_events),
    Some (Some (inr <$> switch_records in_order (tables_of no_host sample_core sample_events no_tables) 1700000100 101)), None).
Proof. vm_compute. reflexivity. Qed.

Lemma history_complete_witness :
  exists archives kept new, holds sample_store archives kept new /\ kept ++ new <> [] /\ sample_events `sublist_of` history archives new.
Proof.
  apply (history_complete sample_limits sample_globals no_host in_order in_order_perm).
  apply (reach_log sample_limits sample_globals no_host in_order {[FEvents := new_head ++ log_text [sample_new; sample_close]]} [sample_new; sample_close] sample_start);
    [|vm_compute; reflexivity|by eexists|vm_compute; reflexivity].
  apply (reach_log sample_limits sample_globals no_host in_order {[FEvents := new_head ++ log_text [sample_new]]} [sample_new] sample_close);
    [|vm_compute; reflexivity|by eexists|vm_compute; reflexivity].
  apply reach_first; [vm_compute; reflexivity|by eexists|vm_compute; reflexivity].
Defined.

(** The message of the administrator is gone from the log after the switch. *)
Example close_message_lost :
  writeHostCtrlEvent in_order (tables_of no_host sample_core sample_events no_tables) =
    [EventRec (lit "22") EVENT_HOST_CTRL 1700000015 (hostCtrlE (HostCtrl.HostCtrlLog HOST_CLOSE (lit "hosta") 0 (lit "root") []))].
Proof. vm_compute. reflexivity. Qed.

(** A request to run a pending job at once is not kept, though the job is in
    memory: such a record is not looked at. *)
Definition pending_core : core := Core {[101 := 0]} [] ∅ [].
Definition sample_force : eventRec := EventRec (lit "22") EVENT_JOB_FORCE 1700000016 (jobForceE
  (JobForce.JobForceRequestLog 0 1 [lit "hosta"] 101 0 0 (lit "root"))).
Example force_not_kept :
  loggable sample_force = true /\ keep sample_limits sample_globals pending_core sample_new = Some true /\
  keep sample_limits sample_globals pending_core sample_force = Some false.
Proof. repeat split; vm_compute; reflexivity. Qed.

(** An archive on a full disk is cut off, and the switch goes on. *)
Example archive_cut_off :
  (fun r => (fst r, length <$> snd r !! FArchive 0)) <$> createEvent0File 1700000100 (Disk (Some 40%nat) None None true true true true (fun _ => true)) sample_store = Some (true, Some 40%nat).
Proof. vm_compute. reflexivity. Qed.

(** ** Jobs and the index *)

(** The new jobs 101 to 103. *)
Definition started (id t : Z) : eventRec := EventRec (lit "22") EVENT_JOB_START t (jobStartE
  (JobStart.JobStartLog id 4 4711 4711 (f32_of_Z 2) 1 [lit "hosta"] (Some (lit "")) (Some (lit "")) 0 0 (Some (lit "")))).
Definition sample_archives : list (Z * list eventRec) :=
  [(1700000200, [started 104 1700000150]); (1700000100, [started 101 1700000010; started 103 1700000020; started 102 1700000030])].
Definition archive_store : gmap fname (list ascii) :=
  <[FEvents := new_head ++ log_text [sample_switch]]>
  (<[FArchive 1 := archive_head 1700000200 ++ log_text [started 104 1700000150]]>
   {[FArchive 2 := archive_head 1700000100 ++ log_text [started 101 1700000010; started 103 1700000020; started 102 1700000030]]}).

Lemma archive_ids_exact_witness :
  exists ids, getJobIdIndexFromEventFile (archive_head 1700000100 ++ log_text sample_log) (initSortIntList false) =
      Some (Some 1700000100, SortIntList false ids) /\
    descending ids /\ forall id, id ∈ ids <-> id <> 0 /\ exists r, r ∈ sample_log /\ index_id r = id.
Proof. apply archive_ids_exact; vm_compute; reflexivity. Defined.

Lemma index_search_exact_witness :
  exists text ix num ix',
    updateJobIdIndexFile true 1700000300 None archive_store 2 = Some (0, Some text) /\ initJobIdIndexS text = Some (Some ix) /\
    getNextFileNumFromIndexS 2 ix [101] = Some (num, ix') /\
    let hit n := match sample_archives !! n with Some a => hits true [101] (row_of a) | None => false end in
    (num = 0 /\ (forall n, (0 < n)%nat -> hit n = false) \/
     exists n, num = Z.of_nat n + 1 /\ (0 < n)%nat /\ hit n = true /\ forall m, (n < m)%nat -> hit m = false).
Proof.
  apply (index_search_exact true 1700000300 archive_store sample_archives [101]).
  - intros [|[|j]] a Ha; [injection Ha as <-; vm_compute; reflexivity..|]. destruct j; discriminate Ha.
  - repeat constructor; vm_compute; reflexivity.
  - discriminate.
  - reflexivity.
  - reflexivity.
Defined.

(** What the search finds for some jobs. *)
Definition searched (min_last : bool) (jobIds : list Z) : option Z :=
  '(_, text) ← updateJobIdIndexFile min_last 1700000300 None archive_store 2;
  text ← text; ix ← initJobIdIndexS text; ix ← ix; fst <$> getNextFileNumFromIndexS 2 ix jobIds.

(** Archive 2 has jobs 101 to 103, but only the one whose id was printed last is
    found; archive 1 with job 104 is not. *)
Example index_misses_jobs :
  searched true [101] = Some 2 /\ searched true [102] = Some 0 /\ searched true [103] = Some 0 /\
  searched false [101] = Some 0 /\ searched false [103] = Some 2 /\ searched true [104] = Some 0 /\ searched false [104] = Some 0.
Proof. repeat split; vm_compute; reflexivity. Qed.

Lemma archive_holds : holds archive_store (snd <$> sample_archives) [] [sample_switch].
Proof.
  constructor.
  - exists new_head. split; [reflexivity|]. by exists 76%nat.
  - intros [|[|i]] rs Hi; cbn in Hi; [injection Hi as <-; by eexists..|by destruct i].
  - intros n Hn. cbn [sample_archives fmap list_fmap length] in Hn. unfold archive_store.
    rewrite !lookup_insert_ne by (done || intros [=]; lia). apply lookup_singleton_ne. intros [=]. lia.
  - vm_compute. reflexivity.
Qed.

Definition archive_handle : eventLogHandle := EventLogHandle ((fun w => RFile w true) <$> archive_store !! FArchive 2) 2 0.

Lemma job_history_complete_witness :
  let records := history (snd <$> sample_archives) [sample_switch] in
  let chosen := fun r => ordinary r && concerns [102; 104] r in
  List.filter chosen records = [started 102 1700000030; started 104 1700000150] /\
  exists out, read_jobs (S (length records)) archive_store [102; 104] None archive_handle 0 = Some out /\ out `sublist_of` records /\
    List.filter chosen out = List.filter chosen records /\
    Forall (fun r => concerns [102; 104] r = true \/ type r = EVENT_JOB_NEW \/ is_message r = true \/ job_of (eventLog_ r) = None) out.
Proof.
  split; [vm_compute; reflexivity|]. apply (job_history_complete archive_store (snd <$> sample_archives) [] [sample_switch] [102; 104] archive_holds).
  - vm_compute. reflexivity.
  - intros w Hw. injection Hw as <-. vm_compute. reflexivity.
  - discriminate.
  - split; [reflexivity|]. split; [discriminate|]. eexists. split; [reflexivity|]. eexists _, _. split; reflexivity.
Defined.

(** With the index, the same jobs are not found, or not all of them. *)
Definition with_index (min_last : bool) (jobIds : list Z) : option (list eventRec) :=
  '(_, text) ← updateJobIdIndexFile min_last 1700000300 None archive_store 2;
  text ← text; ix ← initJobIdIndexS text; ix ← ix;
  read_jobs 10 archive_store jobIds (Some ix) (EventLogHandle None 100 0) 0.
Example index_loses_history : with_index true [102; 104] = Some [] /\ with_index false [102; 104] = Some [].
Proof. split; vm_compute; reflexivity. Qed.

(** A message is taken for one about the job with the number of its sender. *)
Definition sample_msg : eventRec := EventRec (lit "22") EVENT_JOB_MSG 1700000017 (jobMsgE
  (JobMsg.JobMsgLog 1000 101 1 0 (Some (lit "a")) (Some (lit "b")) (Some (lit "hello")) 0)).
Example message_of_wrong_job :
  lsbGetNextJobRecFromFile [101] (log_text [sample_msg]) 0 = Some (inl LSBE_EOF, [], 2) /\
  lsbGetNextJobRecFromFile [1000] (log_text [sample_msg]) 0 = Some (inr sample_msg, [], 1).
Proof. split; vm_compute; reflexivity. Qed.

(** When an archive is missing, the file that has been closed is read again. *)
Example missing_archive_undefined :
  read_jobs 10 (delete (FArchive 1) archive_store) [102] None archive_handle 0 = None.
Proof. vm_compute. reflexivity. Qed.

(** The time of an archive without one is whatever the variable held. *)
Example archive_without_time :
  fst <$> getJobIdIndexFromEventFile (log_text [sample_switch]) (initSortIntList false) = Some None.
Proof. vm_compute. reflexivity. Qed.

(** ** The events of a time *)

(** A switch in the second when archive 1 was made, with the record of a host that
    had been closed before. *)
Definition late_switch : eventRec := EventRec (lit "22") EVENT_LOG_SWITCH 1700000200 (logSwitchE (LogSwitch.LogSwitchLog 104)).
Definition closed_again : eventRec := log_hostStatusAtSwitch (1700000015, HostCtrl.HostCtrlLog HOST_CLOSE (lit "hosta") 0 (lit "root") (lit "disk failure")).
Definition late_events : list eventRec := [closed_again; late_switch].
Definition timed_store : gmap fname (list ascii) := <[FEvents := new_head ++ log_text late_events]> archive_store.

Lemma timed_holds : holds timed_store (snd <$> sample_archives) [] late_events.
Proof.
  constructor.
  - exists new_head. split; [reflexivity|]. by exists 76%nat.
  - intros [|[|i]] rs Hi; cbn in Hi; [injection Hi as <-; by eexists..|by destruct i].
  - intros n Hn. unfold timed_store. rewrite lookup_insert_ne by done. by apply (h_free _ _ _ _ archive_holds).
  - vm_compute. reflexivity.
Qed.

Lemma timed_files k t rs : sample_archives !! k = Some (t, rs) -> timed_store !! FArchive (Z.of_nat k + 1) = Some (archive_head t ++ log_text rs).
Proof. destruct k as [|[|k]]; cbn; [by intros [= <- <-]..|by destruct k]. Qed.

Lemma sample_timed : timed late_events sample_archives.
Proof.
  split; [reflexivity|]. split; [discriminate|]. split; [constructor; [left; reflexivity|constructor; [right; discriminate|constructor]]|].
  split; [repeat constructor; discriminate|]. split; [reflexivity|]. split; [reflexivity|]. split; [discriminate|].
  split; [constructor; [right; discriminate|constructor]|]. split; [repeat constructor; discriminate|]. done.
Qed.

Lemma chronicle_complete_witness :
  exists h n older part newer, lsb_openelog timed_store 1700000010 1700000090 0 = Some (Some h, n) /\
    chronicle (S (length (history (snd <$> sample_archives) late_events))) timed_store 1700000010 1700000090 h n =
      Some (List.filter (in_time 1700000010 1700000090) part) /\
    history (snd <$> sample_archives) late_events = older ++ part ++ newer /\
    Forall (fun r => in_time 1700000010 1700000090 r = false) older /\
    Forall (fun r => in_time 1700000010 1700000090 r = true -> control r = true) newer.
Proof.
  apply (chronicle_complete timed_store sample_archives [] late_events timed_holds timed_files sample_timed).
  - intros w Hw. injection Hw as <-. vm_compute. reflexivity.
  - split; discriminate.
  - intros a Ha. unfold sample_archives in Ha. repeat (apply elem_of_cons in Ha as [->|Ha]; [discriminate|]). by apply elem_of_nil in Ha.
Defined.

Lemma job_query_complete_witness :
  exists h n older rest, lsb_openelog timed_store 1700000100 (-1) 0 = Some (Some h, n) /\
    history (snd <$> sample_archives) late_events = older ++ rest /\ Forall (fun r => eventTime r < 1700000100) older /\
    read_jobs (S (length (history (snd <$> sample_archives) late_events))) timed_store [102; 104] None h n = Some (List.filter (wanted [102; 104]) rest).
Proof.
  apply (job_query_complete timed_store sample_archives [] late_events timed_holds timed_files sample_timed).
  - intros w Hw. injection Hw as <-. vm_compute. reflexivity.
  - vm_compute. reflexivity.
  - intros a Ha. unfold sample_archives in Ha. repeat (apply elem_of_cons in Ha as [->|Ha]; [discriminate|]). by apply elem_of_nil in Ha.
Defined.

(** What [bhist -t] shows of some files for a time. *)
Definition shown (s : gmap fname (list ascii)) (t0 t1 : Z) : option (list Z) :=
  '(h, n) ← lsb_openelog s t0 t1 0; match h with Some h => map eventTime <$> chronicle 20 s t0 t1 h n | None => None end.

(** The events of the second of a switch are shown if the time ends later. *)
Example switch_second_lost :
  shown timed_store 1700000120 1700000200 = Some [1700000150] /\
  shown timed_store 1700000120 1700000201 = Some [1700000150; 1700000200].
Proof. split; vm_compute; reflexivity. Qed.

(** The record of a closed host is shown with its old time when the log is read, and
    not when the time ends before. *)
Example closed_again_shown :
  shown timed_store 1700000010 1700000090 = Some [1700000010; 1700000020; 1700000030] /\
  shown timed_store 1700000010 1700000300 = Some [1700000010; 1700000020; 1700000030; 1700000150; 1700000015; 1700000200].
Proof. split; vm_compute; reflexivity. Qed.

(** A line that cannot be read ends the reading of its archive. *)
Definition torn_store : gmap fname (list ascii) :=
  <[FArchive 2 := archive_head 1700000100 ++ log_text [started 101 1700000010] ++ lit "torn" ++ [newline] ++ log_text [started 102 1700000030]]> timed_store.
Example torn_line_skips_rest :
  shown torn_store 1700000000 1700000300 = Some [1700000010; 1700000150; 1700000015; 1700000200] /\
  shown timed_store 1700000000 1700000300 = Some [1700000010; 1700000020; 1700000030; 1700000150; 1700000015; 1700000200].
Proof. split; vm_compute; reflexivity. Qed.
